(* ===== verification/_CoqProject ===== *)
-Q . S2P
Prelude.v
Base.v
Alloc.v
Types.v
Opcodes.v
Bytes.v
Leb128.v
Utf8.v
Decode.v
Subtype.v
RecGroups.v
Layout.v
ModuleEnv.v
Operands.v
Validate.v
ValidInv.v
Locals.v
BrTable.v
ValidRules.v
ParseIo.v
TypeSection.v
TypeMeta.v
ValidSafe.v
ValidCtl.v
ValidOpcode.v
Analyze.v
RefMaps.v
AnalyzeInv.v
Samples.v
AnalyzeOk.v
ValidTyping.v
CodeSection.v
ConstTyping.v
ConstExpr.v
Sections.v
Segments.v
Exports.v
ParseModule.v
ParseOk.v
Lowering.v
Assembly.v
LowerSpec.v
LowerInv.v
LowerChunk.v
LowerFrame.v
LowerCode.v
LowerInstr.v
LowerLoops.v
LowerIslands.v
LowerMaps.v
LowerErr.v
LowerOk.v
Total.v
Heap.v
GcRoots.v
Gc.v
GcGraph.v
GcMarking.v
LinkDomain.v
GcStep.v
RootSpec.v
GcSweep.v
GcOk.v
GcUse.v
GcSamples.v
Interrupt.v
Timer.v
Limits.v
Bulk.v
IntOps.v
Numeric.v
Interp.v
Stack.v
Activation.v
StackOk.v
InterpOk.v
InterpRun.v
