(* ===== verification/Prelude.v ===== *)
(** * WAH: a verification library for the WebAssembly interpreter in wah.h

    wah is a WebAssembly implementation in one C file, [src/wah.h].  A module is
    decoded and validated by [wah_parse_module]; the code of its functions is analyzed,
    lowered to bytecode, and run by [wah_run_interpreter] on one buffer for operands and
    call frames, with a garbage collector for references.  This library models these
    parts function by function, and proves that the front end is safe, on modules below
    4 GiB, and accepts what WebAssembly allows, that lowering, collection and the interpreter
    implement what simpler descriptions say, and what the parts promise to each other.

    ** How the code is modelled

    An integer of [w] bits is a [Z] with its conversions written out ([u32], [s32], ...).
    An array is a list, read by [zget] and written by [zset], which are [None] outside
    its bounds; its count is its length.  Code that can fail or that has side effects is
    a function on a state, [stm], with three outcomes: a value, an error of
    [wah_error_t], or [Fault], which stands for undefined behaviour: an access out of
    bounds, a null pointer, a wrong member of a union, a failed assertion.  Theorems
    that a fault does not occur are about the memory safety of the code.  The host
    allocator is a list of answers, any of which may be a failure.  Loops that are not
    structural have fuel, of which the theorems show that it is enough: a binary search
    in a [uint32_t] range takes at most 32 steps, a loop over bytes takes at least one
    of them at each step, a walk of supertypes goes to smaller depths, a collection
    marks each object once.  The interpreter need not end; its theorem is about any
    number of rounds.

    ** Files

    - [Prelude]: integers, arrays, outcomes, the monad, its notations and tactics.
    - [Base]: [wah_error_t], [wah_strerror], features and [wah_require_feature].
    - [Alloc]: [wah_malloc], [wah_realloc], [wah_grow_array], the memory budget.
    - [Types], [Opcodes]: value types, type definitions, layouts; the opcode tables.
    - [Bytes], [Leb128], [Utf8], [Decode]: byte-level readers and writers, LEB128,
      UTF-8, and the items of the binary format, against their grammars.
    - [Subtype], [RecGroups], [Layout]: subtyping, the canonicalisation of recursion
      groups, the placement of fields in structs.
    - [ModuleEnv], [Locals]: the index spaces, declared functions, declared locals.
    - [Operands], [Validate]: the state of validation and [wah_validate_opcode];
      [ValidInv], [BrTable], [ValidRules], [ValidSafe], [ValidCtl], [ValidOpcode]: its
      invariant and that every instruction keeps it; [ValidTyping]: exact typing of numeric
      and vector instructions, against the signatures of the specification.
    - [ParseIo], [TypeSection], [TypeMeta]: the type section and the metadata of types.
    - [Analyze], [RefMaps], [AnalyzeInv], [Samples], [AnalyzeOk]: [wah_analyze_stream]
      and the ref maps that a garbage collector reads.
    - [CodeSection], [Sections], [Segments], [Exports]: the sections.  [ConstTyping]: the
      typing rules of constant expressions; [ConstExpr]: [wah_compile_const_expr].
    - [ParseModule], [ParseOk]: [wah_parse_module] and its theorems.
    - [Lowering]: [wah_lower_analyzed_code], which writes bytecode in one pass and
      patches branches; [Assembly], [LowerSpec]: symbolic code and an assembler in two
      passes; [LowerInv], [LowerChunk], [LowerFrame], [LowerCode], [LowerInstr],
      [LowerLoops], [LowerIslands], [LowerMaps], [LowerErr], [LowerOk]: that they agree,
      with stack maps, metered chunks and their slow copies.
    - [Total]: operations that always return.  [Heap]: objects, the accounting of a
      heap, [wah_gc_alloc]; [GcRoots]: [wah_gc_enumerate_roots], and [RootSpec] what it lists; [Gc]: marking, sweeping,
      [wah_gc_step], [wah_poll_handler]; [GcGraph], [GcMarking], [GcStep], [GcSweep],
      [GcOk], [GcUse], [GcSamples]: what is reachable and that the rest is freed.
    - [LinkDomain]: the contexts that are linked with one another, found by a worklist.
    - [Interrupt]: the flags of [wah_request_interrupt] and polls under relaxed memory;
      [Timer]: deadlines; [Limits]: [wah_set_limits] and [wah_get_limits].
    - [Bulk]: bulk instructions on memories, tables and arrays, in resumable chunks.
    - [IntOps], [Numeric]: bit counts and rotations, the integer instructions.
    - [Interp]: the handlers of the interpreter over an interface, the class [Machine],
      of frames and operands; [Stack]: the interface on the shared buffer, as in the
      program; [Activation]: the same with a frame, operands and handlers for each call;
      [StackOk], [InterpOk], [InterpRun]: the simulation of one by the other.

    ** What is proved

    - Safety: [wah_parse_module] ends without a fault for any binary of less than
      [2^32 - 7] bytes, any options and answers of the allocator, and what it accepts is
      valid (ParseOk); so do the type section (TypeMeta), the analysis of code (AnalyzeOk)
      and every instruction (ValidOpcode).
    - Typing: an accepted body ends with the results of its function (AnalyzeOk), a constant
      expression follows the typing rules to its expected type (ConstTyping, ConstExpr), a
      numeric or vector instruction is accepted on exactly its operands (ValidTyping).
    - Little-endian accesses change and read exactly the bytes of their width (Bytes).
    - Decoders are exactly the grammars of the binary format (Leb128, Utf8, Decode), and
      sections are read to their last byte (CodeSection, Locals, ConstExpr).
    - Types: subtyping decides the declarative relation (Subtype); canonicalisation
      identifies exactly the equivalent groups (RecGroups); declared supertypes match
      (TypeMeta); layouts are disjoint, aligned and extend those of supertypes (Layout).
    - Ref maps list exactly the references of the operand stack (AnalyzeOk).
    - Exports stay sorted and unique, and lookups are exact (Exports).
    - Errors: which input gives which error (ParseOk, Decode).
    - Lowering gives the bytes of the assembler, and its branches go to their labels
      (LowerOk).
    - The roots are listed by the places they are in, and the enumeration of the code is
      exactly of these (RootSpec); a collection frees exactly what cannot be reached from
      them, whatever the size of its work list, and polls carry it out (GcUse); a domain is
      collected whole (LinkDomain).
    - A requested interrupt is seen whatever races with it (Interrupt); timers fire for
      their own arming (Timer); limits are set as a whole or not at all (Limits).
    - A bulk instruction that is stopped and resumed has the effect of one step (Bulk).
    - Integer instructions are those of the specification (Numeric).
    - The interpreter on the shared buffer refines the one on separate activations, over
      calls, tail calls, exceptions and resumptions (InterpRun).

    ** Bounds

    Sizes are those of 64-bit hosts ([size_t] is 64 bits).  The safety of
    [wah_parse_module] is stated for modules below 4 GiB - 7 bytes, as the bitmap of
    declared functions overflows beyond (ModuleEnv).  The model is of a portable build:
    all features, no SIMD specialisation, no native code.  In the interpreter the fuel
    is an unbounded integer, exceptions are counted rather than allocated, and a stop
    at a poll is an answer of the environment; the collector and the flags behind it are
    in files of their own.  Stores to these flags may be delayed and land out of order,
    but a load is of what is in memory when it is executed.

    ** Not modelled

    - The specialised and fused opcodes of x86-64 builds and the self-check of lowered
      code in debug builds: they change no result, and are a second lowering.
    - In the interpreter: host calls, indirect calls, calls into other modules, tables,
      objects, vectors, floating point and growing of memories.  Indirect and host
      calls need linking, and floating point the unit of the host and libm.
    - Linking and instantiation, which is mostly transfer of ownership between modules;
      its parts for collection are in LinkDomain.
    - SIMD helpers, which wrap compiler intrinsics.
    - The interface for host functions other than exports, and the native-code compiler
      ([src/wahjit.h]), whose output is machine code.
    - Releasing memory on error paths of the front end, whose model has no heap. *)

From stdpp Require Export base option list numbers decidable tactics.
From Stdlib Require Export ZArith Lia.

#[global] Open Scope Z_scope.

(** ** Machine integers

    A [w]-bit unsigned integer is a [Z] in [0, 2^w); a signed one is a [Z] in
    [-2^(w-1), 2^(w-1)).  Every C conversion that can wrap is written with one
    of the functions below. *)

Definition u8 (x : Z) : Z := x mod 2 ^ 8.
Definition u16 (x : Z) : Z := x mod 2 ^ 16.
Definition u32 (x : Z) : Z := x mod 2 ^ 32.
Definition u64 (x : Z) : Z := x mod 2 ^ 64.

(** Conversion of a value to a [w]-bit two's complement integer. *)
Definition sgn (w x : Z) : Z :=
  let y := x mod 2 ^ w in if y <? 2 ^ (w - 1) then y else y - 2 ^ w.

Definition s8 (x : Z) : Z := sgn 8 x.
Definition s16 (x : Z) : Z := sgn 16 x.
Definition s32 (x : Z) : Z := sgn 32 x.
Definition s64 (x : Z) : Z := sgn 64 x.

Definition UINT32_MAX : Z := 4294967295.
Definition UINT64_MAX : Z := 18446744073709551615.
Definition INT32_MAX : Z := 2147483647.
Definition INT32_MIN : Z := -2147483648.
(** [size_t] of the 64-bit targets of the README. *)
Definition SIZE_MAX : Z := UINT64_MAX.

(** C truth values. *)
Definition b2z (b : bool) : Z := if b then 1 else 0.

(** ** Arrays

    [zget l i] is the array read [l[i]] for a C index [i]: [None] is a read
    outside the array, which is undefined behaviour in the source. *)

Definition zget {A} (l : list A) (i : Z) : option A :=
  if i <? 0 then None else l !! Z.to_nat i.

(** [zset l i x] is the array write [l[i] = x]. *)
Definition zset {A} (l : list A) (i : Z) (x : A) : option (list A) :=
  if (i <? 0) || (Z.of_nat (length l) <=? i) then None else Some (<[Z.to_nat i := x]> l).

Definition zlen {A} (l : list A) : Z := Z.of_nat (length l).

(** The indices [lo, lo+1, ..., hi-1] of a C loop [for (i = lo; i < hi; i++)]. *)
Definition zrange (lo hi : Z) : list Z :=
  (fun k : nat => lo + Z.of_nat k) <$> seq 0 (Z.to_nat (hi - lo)).

(** ** Outcomes of C code

    [Ok a]: the code returned [a]; [Err e]: it returned the error [e]; [Fault]:
    it read or wrote outside its objects (undefined behaviour), which the
    theorems show not to happen. *)
Inductive outcome (E A : Type) :=
| Ok (a : A)
| Err (e : E)
| Fault.
Arguments Ok {E A} _.
Arguments Err {E A} _.
Arguments Fault {E A}.

(** Code that threads a state [S] (a cursor, a module) and may fail: the state
    reached is kept on every outcome, as [*ptr] is in the source. *)
Definition stm (E S A : Type) : Type := S -> outcome E A * S.

Section Monads.
Context {E S : Type}.

Definition outcome_bind {A B} (f : A -> outcome E B) (m : outcome E A) : outcome E B :=
  match m with Ok a => f a | Err e => Err e | Fault => Fault end.

Definition stm_ret {A} (a : A) : stm E S A := fun s => (Ok a, s).
Definition stm_bind {A B} (f : A -> stm E S B) (m : stm E S A) : stm E S B :=
  fun s => match m s with
           | (Ok a, s') => f a s'
           | (Err e, s') => (Err e, s')
           | (Fault, s') => (Fault, s')
           end.
Definition stm_err {A} (e : E) : stm E S A := fun s => (Err e, s).
Definition stm_get : stm E S S := fun s => (Ok s, s).
Definition stm_put (s : S) : stm E S unit := fun _ => (Ok tt, s).
(** [WAH_ENSURE(cond, e)]. *)
Definition stm_ensure (b : bool) (e : E) : stm E S unit :=
  if b then stm_ret tt else stm_err e.
(** A value read from an array: [None] is an out-of-bounds read. *)
Definition stm_opt {A} (o : option A) : stm E S A :=
  fun s => match o with Some a => (Ok a, s) | None => (Fault, s) end.
End Monads.

Declare Scope wah_scope.
Delimit Scope wah_scope with wah.
Notation "x <- m ;; k" := (stm_bind (fun x => k) m)
  (at level 100, m at next level, right associativity) : wah_scope.
Notation "' p <- m ;; k" := (stm_bind (fun x => match x with p => k end) m)
  (at level 100, p pattern, m at next level, right associativity) : wah_scope.
Notation "m ;;; k" := (stm_bind (fun _ => k) m)
  (at level 100, right associativity) : wah_scope.

(** ** Tactics *)

(** Splits every boolean test of the goal and the hypotheses and closes the
    arithmetic cases. *)
Ltac case_bools :=
  repeat match goal with
    | |- context [if ?b then _ else _] => destruct b eqn:?
    | H : context [if ?b then _ else _] |- _ => destruct b eqn:?
    end.
Ltac blia := case_bools; try lia.

(** Unfolds the width functions and lets [lia] see the divisions. *)
Ltac wlia := unfold u8, u16, u32, u64, s8, s16, s32, s64, sgn, UINT32_MAX, UINT64_MAX,
               INT32_MAX, INT32_MIN, SIZE_MAX in *;
             simpl Z.pow in *; blia; Z.to_euclidean_division_equations; lia.

(** ** Lemmas on machine integers *)

Create HintDb wah.

Lemma u32_small x : 0 <= x < 2 ^ 32 -> u32 x = x.
Proof. apply Z.mod_small. Qed.

Lemma u64_small x : 0 <= x < 2 ^ 64 -> u64 x = x.
Proof. apply Z.mod_small. Qed.

Lemma u8_small x : 0 <= x < 2 ^ 8 -> u8 x = x.
Proof. apply Z.mod_small. Qed.

Lemma u32_range x : 0 <= u32 x < 2 ^ 32.
Proof. apply Z.mod_pos_bound. lia. Qed.

Lemma u64_range x : 0 <= u64 x < 2 ^ 64.
Proof. apply Z.mod_pos_bound. lia. Qed.

Lemma u8_range x : 0 <= u8 x < 2 ^ 8.
Proof. apply Z.mod_pos_bound. lia. Qed.

Lemma pow2_split w : 0 < w -> 2 ^ w = 2 * 2 ^ (w - 1).
Proof. intros. rewrite <- Z.pow_succ_r by lia. f_equal. lia. Qed.

Lemma sgn_range w x : 0 < w -> - 2 ^ (w - 1) <= sgn w x < 2 ^ (w - 1).
Proof.
  intros Hw. unfold sgn. pose proof (pow2_split w Hw).
  pose proof (Z.pow_pos_nonneg 2 (w - 1) ltac:(lia) ltac:(lia)).
  pose proof (Z.mod_pos_bound x (2 ^ w) ltac:(lia)).
  destruct (Z.ltb_spec (x mod 2 ^ w) (2 ^ (w - 1))); lia.
Qed.

Lemma sgn_small w x : 0 < w -> - 2 ^ (w - 1) <= x < 2 ^ (w - 1) -> sgn w x = x.
Proof.
  intros Hw Hx. unfold sgn. pose proof (pow2_split w Hw).
  destruct (Z.leb_spec 0 x).
  - rewrite Z.mod_small by lia. destruct (Z.ltb_spec x (2 ^ (w - 1))); lia.
  - replace (x mod 2 ^ w) with (x + 2 ^ w).
    + destruct (Z.ltb_spec (x + 2 ^ w) (2 ^ (w - 1))); lia.
    + rewrite <- (Z.mod_small (x + 2 ^ w) (2 ^ w)) by lia.
      rewrite <- (Z.mul_1_l (2 ^ w)) at 1. apply Z_mod_plus_full.
Qed.

Lemma sgn_mod w x : 0 < w -> (sgn w x) mod 2 ^ w = x mod 2 ^ w.
Proof.
  intros Hw. unfold sgn. pose proof (Z.pow_pos_nonneg 2 w ltac:(lia) ltac:(lia)).
  destruct (Z.ltb_spec (x mod 2 ^ w) (2 ^ (w - 1))).
  - apply Z.mod_mod. lia.
  - replace (x mod 2 ^ w - 2 ^ w) with (x mod 2 ^ w + (-1) * 2 ^ w) by lia.
    rewrite Z_mod_plus_full. apply Z.mod_mod. lia.
Qed.

Lemma s32_u32 x : s32 (u32 x) = s32 x.
Proof. unfold s32, sgn, u32. by rewrite Z.mod_mod by lia. Qed.

#[export] Hint Resolve u8_range u32_range u64_range : wah.

(** ** Bit operations on disjoint fields *)

Lemma testbit_high x k n : 0 <= x < 2 ^ k -> k <= n -> Z.testbit x n = false.
Proof.
  intros Hx Hn. destruct (Z.ltb_spec n 0); [by apply Z.testbit_neg_r|].
  rewrite Z.testbit_eqb by lia. rewrite Z.div_small; [done|].
  pose proof (Z.pow_le_mono_r 2 k n). lia.
Qed.

Lemma land_disjoint x y k : 0 <= k -> 0 <= x < 2 ^ k -> Z.land x (y * 2 ^ k) = 0.
Proof.
  intros Hk Hx. apply Z.bits_inj'. intros n Hn.
  rewrite Z.land_spec, Z.bits_0, Z.mul_pow2_bits by lia.
  destruct (Z.ltb_spec n k).
  - by rewrite (Z.testbit_neg_r y), andb_false_r by lia.
  - by rewrite (testbit_high x k n) by lia.
Qed.

(** Joining a low field and a shifted high field is an addition. *)
Lemma lor_disjoint x y k : 0 <= k -> 0 <= x < 2 ^ k -> Z.lor x (y * 2 ^ k) = x + y * 2 ^ k.
Proof.
  intros Hk Hx. pose proof (Z.add_lor_land x (y * 2 ^ k)) as H.
  rewrite land_disjoint in H by done. lia.
Qed.

Lemma lor_shiftl x y k : 0 <= k -> 0 <= x < 2 ^ k -> Z.lor x (Z.shiftl y k) = x + y * 2 ^ k.
Proof. intros. rewrite Z.shiftl_mul_pow2 by done. by apply lor_disjoint. Qed.

(** ** Lemmas on arrays and loops *)

Lemma zget_Some {A} (l : list A) i x :
  zget l i = Some x -> 0 <= i < zlen l /\ l !! Z.to_nat i = Some x.
Proof.
  unfold zget, zlen. case_bools; [done|]. intros H.
  pose proof (lookup_lt_Some _ _ _ H). split; [lia|done].
Qed.

Lemma zget_nat {A} (l : list A) i : 0 <= i -> zget l i = l !! Z.to_nat i.
Proof. intros. unfold zget. destruct (Z.ltb_spec i 0); [lia|done]. Qed.

Lemma zget_of_nat {A} (l : list A) (n : nat) : zget l (Z.of_nat n) = l !! n.
Proof. rewrite zget_nat by lia. by rewrite Nat2Z.id. Qed.

Lemma zget_is_Some {A} (l : list A) i : 0 <= i < zlen l -> is_Some (zget l i).
Proof.
  intros Hi. rewrite zget_nat by lia. apply lookup_lt_is_Some. unfold zlen in Hi. lia.
Qed.

Lemma zget_None {A} (l : list A) i : zlen l <= i -> zget l i = None.
Proof.
  unfold zlen. intros Hi. rewrite zget_nat by lia. apply lookup_ge_None. lia.
Qed.

Lemma zset_Some {A} (l : list A) i x :
  0 <= i < zlen l -> zset l i x = Some (<[Z.to_nat i := x]> l).
Proof.
  unfold zset, zlen. intros.
  destruct (Z.ltb_spec i 0), (Z.leb_spec (Z.of_nat (length l)) i); (lia || done).
Qed.

Lemma elem_of_zrange i lo hi : i ∈ zrange lo hi <-> lo <= i < hi.
Proof.
  unfold zrange. rewrite list_elem_of_fmap. split.
  - intros (k & -> & Hk). apply elem_of_seq in Hk. lia.
  - intros Hi. exists (Z.to_nat (i - lo)). split; [lia|]. apply elem_of_seq. lia.
Qed.

Lemma zrange_nil lo hi : hi <= lo -> zrange lo hi = [].
Proof. intros. unfold zrange. by replace (Z.to_nat (hi - lo)) with 0%nat by lia. Qed.

Lemma zrange_cons lo hi : lo < hi -> zrange lo hi = lo :: zrange (lo + 1) hi.
Proof.
  intros. unfold zrange.
  replace (Z.to_nat (hi - lo)) with (S (Z.to_nat (hi - (lo + 1)))) by lia.
  cbn [seq]. rewrite fmap_cons. f_equal; [lia|].
  rewrite <- seq_shift, <- list_fmap_compose. apply list_fmap_ext. intros ? x ?. simpl. lia.
Qed.

#[export] Hint Resolve zget_is_Some : wah.

(** Evaluates the run a statement about a concrete input is about. *)
Ltac run_in H :=
  match type of H with
  | match ?x with _ => _ end => let y := eval vm_compute in x in replace x with y in H by (vm_compute; reflexivity)
  end; cbv iota beta in H.

(** ** Lemmas on stateful code *)

Section MonadLemmas.
Context {E S : Type}.
Implicit Types s : S.

Lemma stm_bind_Ok {A B} (m : stm E S A) (f : A -> stm E S B) s b s'' :
  stm_bind f m s = (Ok b, s'') <-> exists a s', m s = (Ok a, s') /\ f a s' = (Ok b, s'').
Proof.
  unfold stm_bind. destruct (m s) as [[a|e|] s'].
  - split; [eauto|]. by intros (? & ? & [= -> ->] & ?).
  - split; [done|]. by intros (? & ? & ? & ?).
  - split; [done|]. by intros (? & ? & ? & ?).
Qed.

Lemma stm_ret_Ok {A} (a b : A) s s' : stm_ret (E:=E) a s = (Ok b, s') <-> b = a /\ s' = s.
Proof. unfold stm_ret. naive_solver. Qed.

Lemma stm_ensure_Ok c (e : E) u s s' :
  stm_ensure c e s = (Ok u, s') <-> c = true /\ s' = s.
Proof. unfold stm_ensure, stm_ret, stm_err. destruct c, u; naive_solver. Qed.

Lemma stm_err_Ok {A} (e : E) (a : A) s s' : stm_err e s = (Ok a, s') <-> False.
Proof. unfold stm_err. naive_solver. Qed.

(** Code that neither reads nor writes outside its objects. *)
Definition faultless {A} (m : stm E S A) (P : S -> Prop) : Prop :=
  forall s, P s -> (m s).1 <> Fault /\ P (m s).2.

Lemma faultless_ret {A} (a : A) P : faultless (stm_ret a) P.
Proof. by intros s Hs. Qed.
Lemma faultless_err {A} (e : E) P : faultless (A:=A) (stm_err e) P.
Proof. by intros s Hs. Qed.
Lemma faultless_ensure c (e : E) P : faultless (stm_ensure c e) P.
Proof. by intros s Hs; destruct c. Qed.
Lemma faultless_bind {A B} (m : stm E S A) (f : A -> stm E S B) P :
  faultless m P -> (forall a, faultless (f a) P) -> faultless (stm_bind f m) P.
Proof.
  intros Hm Hf s Hs. unfold stm_bind. destruct (Hm s Hs) as [H1 H2].
  destruct (m s) as [[a|e|] s']; simpl in *; [by apply Hf|done|done].
Qed.
Lemma faultless_if {A} (c : bool) (m m' : stm E S A) P :
  faultless m P -> faultless m' P -> faultless (if c then m else m') P.
Proof. by destruct c. Qed.
End MonadLemmas.

#[export] Hint Resolve faultless_ret faultless_err faultless_ensure faultless_bind
  faultless_if : wah.

Lemma stm_get_Ok {E S : Type} (s a s' : S) : stm_get (E:=E) s = (Ok a, s') <-> a = s /\ s' = s.
Proof. unfold stm_get. naive_solver. Qed.
Lemma stm_put_Ok {E S : Type} (s0 s s' : S) u : stm_put (E:=E) s0 s = (Ok u, s') <-> s' = s0.
Proof. unfold stm_put. destruct u. naive_solver. Qed.
Lemma stm_opt_Ok {E S A : Type} (o : option A) (s s' : S) a :
  stm_opt (E:=E) o s = (Ok a, s') <-> o = Some a /\ s' = s.
Proof. unfold stm_opt. destruct o; naive_solver. Qed.

(** Takes a successful run apart. *)
Ltac stm_inv :=
  repeat match goal with
  | H : stm_bind _ _ _ = (Ok _, _) |- _ => apply stm_bind_Ok in H as (? & ? & ? & H)
  | H : stm_ret _ _ = (Ok _, _) |- _ => apply stm_ret_Ok in H as [? ?]
  | H : stm_ensure _ _ _ = (Ok _, _) |- _ => apply stm_ensure_Ok in H as [? ?]
  | H : stm_err _ _ = (Ok _, _) |- _ => by apply stm_err_Ok in H
  | H : stm_get _ = (Ok _, _) |- _ => apply stm_get_Ok in H as [? ?]
  | H : stm_put _ _ = (Ok _, _) |- _ => apply stm_put_Ok in H
  | H : stm_opt _ _ = (Ok _, _) |- _ => apply stm_opt_Ok in H as [? ?]
  | H : (if ?b then _ else _) _ = (Ok _, _) |- _ => destruct b eqn:?
  end; simplify_eq.

(** Turns the equality tests that succeeded into substitutions. *)
Ltac zeq := repeat match goal with H : (_ =? _) = true |- _ => apply Z.eqb_eq in H; subst end.

(** ** Loops that may stop with a fault *)

Fixpoint foldM {A B} (f : B -> A -> option B) (b : B) (l : list A) : option B :=
  match l with
  | [] => Some b
  | a :: l' => b' ← f b a; foldM f b' l'
  end.

Lemma foldM_app {A B} (f : B -> A -> option B) b l1 l2 :
  foldM f b (l1 ++ l2) = (b' ← foldM f b l1; foldM f b' l2).
Proof. revert b. induction l1 as [|a l1 IH]; intros b; simpl; [done|]. destruct (f b a); simpl; auto. Qed.

Lemma zrange_snoc lo hi : lo <= hi -> zrange lo (hi + 1) = zrange lo hi ++ [hi].
Proof.
  intros. unfold zrange. replace (Z.to_nat (hi + 1 - lo)) with (S (Z.to_nat (hi - lo))) by lia.
  rewrite seq_S, fmap_app. simpl. f_equal. f_equal. lia.
Qed.

(** The loop [for (i = lo; i < hi; i++)] with an invariant. *)
Lemma foldM_zrange {B} (f : B -> Z -> option B) (I : Z -> B -> Prop) lo hi b :
  lo <= hi -> I lo b ->
  (forall i b, lo <= i < hi -> I i b -> exists b', f b i = Some b' /\ I (i + 1) b') ->
  exists b', foldM f b (zrange lo hi) = Some b' /\ I hi b'.
Proof.
  intros Hle. remember (Z.to_nat (hi - lo)) as n eqn:En. revert lo b Hle En.
  induction n as [|n IH]; intros lo b Hle En H0 Hs.
  - assert (lo = hi) as -> by lia. rewrite zrange_nil by lia. by exists b.
  - rewrite zrange_cons by lia. destruct (Hs lo b ltac:(lia) H0) as (b1 & E1 & H1).
    simpl. rewrite E1. simpl. apply IH; [lia|lia|done|]. intros i b' Hi. apply Hs. lia.
Qed.

Lemma zset_lookup {A} (l l' : list A) i x j :
  zset l i x = Some l' -> zget l' j = if j =? i then Some x else zget l j.
Proof.
  unfold zset, zget. destruct ((i <? 0) || (Z.of_nat (length l) <=? i)) eqn:E; [done|].
  intros [= <-]. destruct (Z.ltb_spec j 0).
  - destruct (Z.eqb_spec j i); [lia|done].
  - destruct (Z.eqb_spec j i) as [->|Hne].
    + by rewrite list_lookup_insert_eq by lia.
    + by rewrite list_lookup_insert_ne by lia.
Qed.

Lemma zset_length {A} (l l' : list A) i x : zset l i x = Some l' -> zlen l' = zlen l.
Proof. unfold zset, zlen. case_bools; [done|]. intros [= <-]. by rewrite length_insert. Qed.

Lemma zset_is_Some {A} (l : list A) i x : 0 <= i < zlen l -> exists l', zset l i x = Some l'.
Proof. intros H. rewrite zset_Some by done. by eexists. Qed.

(** ** Weakest preconditions

    [wp m Q s]: running [m] from [s] does not fault, and if it returns [a] in the
    state [s'] then [Q a s'].  Nothing is said of the state after an error, at
    which the source gives up. *)
Definition wp {E S A} (m : stm E S A) (Q : A -> S -> Prop) (s : S) : Prop :=
  match m s with (Ok a, s') => Q a s' | (Err _, _) => True | (Fault, _) => False end.

Section Wp.
Context {E S : Type}.
Implicit Types s : S.

Lemma wp_ret {A} (a : A) Q s : Q a s -> wp (stm_ret (E:=E) a) Q s.
Proof. done. Qed.
Lemma wp_err {A} (e : E) (Q : A -> S -> Prop) s : wp (stm_err e) Q s.
Proof. done. Qed.
Lemma wp_bind {A B} (m : stm E S A) (f : A -> stm E S B) Q s :
  wp m (fun a s1 => wp (f a) Q s1) s -> wp (stm_bind f m) Q s.
Proof. unfold wp, stm_bind. by destruct (m s) as [[a|e|] s']. Qed.
Lemma wp_ensure c (e : E) (Q : unit -> S -> Prop) s : (c = true -> Q tt s) -> wp (stm_ensure c e) Q s.
Proof. destruct c; [|done]. intros H. by apply H. Qed.
Lemma wp_opt {A} (o : option A) a Q s : o = Some a -> Q a s -> wp (stm_opt (E:=E) o) Q s.
Proof. intros -> HQ. done. Qed.
Lemma wp_if {A} (c : bool) (m m' : stm E S A) Q s :
  (c = true -> wp m Q s) -> (c = false -> wp m' Q s) -> wp (if c then m else m') Q s.
Proof. destruct c; auto. Qed.
Lemma wp_mono {A} (m : stm E S A) (Q Q' : A -> S -> Prop) s :
  wp m Q s -> (forall a s', Q a s' -> Q' a s') -> wp m Q' s.
Proof. unfold wp. destruct (m s) as [[a|e|] s']; auto. Qed.
Lemma wp_Ok {A} (m : stm E S A) Q s a s' : wp m Q s -> m s = (Ok a, s') -> Q a s'.
Proof. unfold wp. intros H Hm. by rewrite Hm in H. Qed.
Lemma wp_no_fault {A} (m : stm E S A) Q s : wp m Q s -> (m s).1 <> Fault.
Proof. unfold wp. by destruct (m s) as [[a|e|] s']. Qed.
Lemma wp_intro {A} (m : stm E S A) (Q : A -> S -> Prop) s :
  (m s).1 <> Fault -> (forall a s', m s = (Ok a, s') -> Q a s') -> wp m Q s.
Proof. unfold wp. destruct (m s) as [[a|e|] s']; simpl; auto. Qed.
End Wp.

(** ** Running code step by step *)
Section Run.
Context {E S : Type}.
Lemma stm_bind_run {A B} (m : stm E S A) (f : A -> stm E S B) s a s' :
  m s = (Ok a, s') -> stm_bind f m s = f a s'.
Proof. intros H. unfold stm_bind. by rewrite H. Qed.
Lemma stm_bind_Err {A B} (m : stm E S A) (f : A -> stm E S B) s e s' :
  m s = (Err e, s') -> stm_bind f m s = (Err e, s').
Proof. intros H. unfold stm_bind. by rewrite H. Qed.
Lemma stm_bind_get {B} (f : S -> stm E S B) s : stm_bind f stm_get s = f s s.
Proof. done. Qed.
Lemma stm_bind_ret_l {A B} (a : A) (f : A -> stm E S B) s : stm_bind f (stm_ret a) s = f a s.
Proof. done. Qed.
Lemma wp_get (Q : S -> S -> Prop) (s : S) : Q s s -> wp (stm_get (E:=E)) Q s.
Proof. done. Qed.
Lemma wp_put (s0 : S) (Q : unit -> S -> Prop) (s : S) : Q tt s0 -> wp (stm_put (E:=E) s0) Q s.
Proof. done. Qed.
End Run.
