(* ===== verification/Base.v ===== *)
(** * Error codes and WebAssembly feature gating

    [wah_error_t] with its numeric codes and messages, the feature bitmap of a
    module, [wah_feature_closure] and [wah_require_feature] (wah.h). *)

From S2P Require Import Prelude.
From stdpp Require Import strings.
#[local] Open Scope Z_scope.

(** ** Definitions *)

(** [wah_error_t]: the source's constructors; [WAH_OK] is the outcome [Ok]. *)
Inductive wah_error_t :=
| WAH_OK
| WAH_ERROR_INVALID_MAGIC_NUMBER
| WAH_ERROR_INVALID_VERSION
| WAH_ERROR_UNEXPECTED_EOF
| WAH_ERROR_MALFORMED
| WAH_ERROR_TOO_LARGE
| WAH_ERROR_OUT_OF_MEMORY
| WAH_ERROR_VALIDATION_FAILED
| WAH_ERROR_TRAP
| WAH_ERROR_STACK_OVERFLOW
| WAH_ERROR_MEMORY_OUT_OF_BOUNDS
| WAH_ERROR_NOT_FOUND
| WAH_ERROR_MISUSE
| WAH_ERROR_BAD_SPEC
| WAH_ERROR_LINK_FAILED
| WAH_ERROR_EXCEPTION
| WAH_ERROR_DISABLED_FEATURE
| WAH_ERROR_MULTI_RETURN
| WAH_ERROR_UNSUPPORTED
| WAH_STATUS_FUEL_EXHAUSTED
| WAH_STATUS_YIELDED.

#[export] Instance wah_error_t_eq_dec : EqDecision wah_error_t.
Proof. solve_decision. Defined.

(** The values of the enumeration. *)
Definition wah_error_code (e : wah_error_t) : Z :=
  match e with
  | WAH_OK => 0
  | WAH_ERROR_INVALID_MAGIC_NUMBER => -1
  | WAH_ERROR_INVALID_VERSION => -2
  | WAH_ERROR_UNEXPECTED_EOF => -3
  | WAH_ERROR_MALFORMED => -4
  | WAH_ERROR_TOO_LARGE => -5
  | WAH_ERROR_OUT_OF_MEMORY => -6
  | WAH_ERROR_VALIDATION_FAILED => -7
  | WAH_ERROR_TRAP => -8
  | WAH_ERROR_STACK_OVERFLOW => -9
  | WAH_ERROR_MEMORY_OUT_OF_BOUNDS => -10
  | WAH_ERROR_NOT_FOUND => -11
  | WAH_ERROR_MISUSE => -12
  | WAH_ERROR_BAD_SPEC => -13
  | WAH_ERROR_LINK_FAILED => -14
  | WAH_ERROR_EXCEPTION => -15
  | WAH_ERROR_DISABLED_FEATURE => -16
  | WAH_ERROR_MULTI_RETURN => -17
  | WAH_ERROR_UNSUPPORTED => -18
  | WAH_STATUS_FUEL_EXHAUSTED => 2
  | WAH_STATUS_YIELDED => 3
  end.

(** [wah_strerror], as a function of the integer it is given. *)
Definition wah_strerror (err : Z) : string :=
  if err =? 0 then "Success"%string
  else if err =? -1 then "Invalid WASM magic number"%string
  else if err =? -2 then "Invalid WASM version"%string
  else if err =? -3 then "Unexpected end of file"%string
  else if err =? -4 then "Malformed binary encoding"%string
  else if err =? -5 then "Exceeding implementation limits (or value too large)"%string
  else if err =? -6 then "Out of memory"%string
  else if err =? -7 then "Validation failed"%string
  else if err =? -8 then "Runtime trap"%string
  else if err =? -9 then "Stack overflow"%string
  else if err =? -10 then "Memory access out of bounds"%string
  else if err =? -11 then "Item not found"%string
  else if err =? -12 then "API misused: invalid arguments"%string
  else if err =? -13 then "Invalid DSL spec (turn on WAH_DEBUG for more info)"%string
  else if err =? -14 then "Link failed (import not found or incompatible)"%string
  else if err =? -15 then "Uncaught exception"%string
  else if err =? -16 then "Feature not enabled"%string
  else if err =? -17 then "Function would return multiple values (use wah_call_multi)"%string
  else if err =? -18 then "Not supported in the current environment"%string
  else if err =? 2 then "Fuel exhausted"%string
  else if err =? 3 then "Execution yielded"%string
  else "Unknown error"%string.

Abbreviation result := (outcome wah_error_t).
Abbreviation comp := (stm wah_error_t).

(** [WAH_FEATURE_SHIFT_*]; the bit of a feature is [1 << shift]. *)
Inductive wah_feature :=
| FEAT_MVP | MULTI_VALUE | MUTABLE_GLOBALS | SIGN_EXT | NONTRAPPING_F2I | BULK_MEMORY
| REF_TYPES | SIMD | TAIL_CALL | EXCEPTION | GC | TYPED_FUNCREF | MEMORY64
| RELAXED_SIMD | EXTENDED_CONST | MULTI_MEMORY.

Definition wah_feature_shift (f : wah_feature) : Z :=
  match f with
  | FEAT_MVP => 0
  | MULTI_VALUE => 1
  | MUTABLE_GLOBALS => 2
  | SIGN_EXT => 3
  | NONTRAPPING_F2I => 4
  | BULK_MEMORY => 5
  | REF_TYPES => 6
  | SIMD => 7
  | TAIL_CALL => 8
  | EXCEPTION => 9
  | GC => 10
  | TYPED_FUNCREF => 11
  | MEMORY64 => 12
  | RELAXED_SIMD => 13
  | EXTENDED_CONST => 14
  | MULTI_MEMORY => 15
  end.

Definition wah_feature_bit (f : wah_feature) : Z := Z.shiftl 1 (wah_feature_shift f).

Definition WAH_FEATURE_WASM_V2 : Z :=
  foldr Z.lor 0 (wah_feature_bit <$> [FEAT_MVP; MULTI_VALUE; MUTABLE_GLOBALS; SIGN_EXT;
    NONTRAPPING_F2I; BULK_MEMORY; REF_TYPES; SIMD]).
Definition WAH_FEATURE_WASM_V3 : Z :=
  foldr Z.lor WAH_FEATURE_WASM_V2 (wah_feature_bit <$> [TAIL_CALL; EXCEPTION; GC;
    TYPED_FUNCREF; MEMORY64; RELAXED_SIMD; EXTENDED_CONST; MULTI_MEMORY]).
Definition WAH_FEATURE_ALL : Z := WAH_FEATURE_WASM_V3.

(** [f & bit != 0]. *)
Definition has_bits (f bits : Z) : bool := negb (Z.land f bits =? 0).

Definition wah_feature_closure (f : Z) : Z :=
  let f := if has_bits f (wah_feature_bit RELAXED_SIMD)
           then Z.lor f (wah_feature_bit SIMD) else f in
  let f := if has_bits f (Z.lor (wah_feature_bit GC) (wah_feature_bit TYPED_FUNCREF))
           then Z.lor f (wah_feature_bit REF_TYPES) else f in
  Z.lor f (wah_feature_bit FEAT_MVP).

(** The two feature bitmaps of a module. *)
Record feature_state := FeatureState { enabled_features : Z; required_features : Z }.

(** [wah_require_feature(module, shift)]. *)
Definition wah_require_feature (shift : Z) (m : feature_state) : result unit * feature_state :=
  if shift =? 0 then (Ok tt, m)
  else
    let bit := u64 (Z.shiftl 1 shift) in
    let m' := FeatureState (enabled_features m) (Z.lor (required_features m) bit) in
    (if has_bits (enabled_features m) bit then Ok tt else Err WAH_ERROR_DISABLED_FEATURE, m').

(** ** Theorems *)

(** A bitmap contains another one. *)
Definition bits_subset (f g : Z) : Prop := forall i, 0 <= i -> Z.testbit f i = true -> Z.testbit g i = true.

(** A bitmap is consistent: MVP is present and so is what each feature needs. *)
Definition features_consistent (f : Z) : Prop :=
  Z.testbit f (wah_feature_shift FEAT_MVP) = true /\
  (Z.testbit f (wah_feature_shift RELAXED_SIMD) = true ->
   Z.testbit f (wah_feature_shift SIMD) = true) /\
  (Z.testbit f (wah_feature_shift GC) = true \/ Z.testbit f (wah_feature_shift TYPED_FUNCREF) = true ->
   Z.testbit f (wah_feature_shift REF_TYPES) = true).

Lemma has_bits_pow2 f k : 0 <= k -> has_bits f (2 ^ k) = Z.testbit f k.
Proof.
  intros Hk. unfold has_bits.
  destruct (Z.eqb_spec (Z.land f (2 ^ k)) 0) as [E|E]; simpl.
  - apply (f_equal (fun z => Z.testbit z k)) in E.
    rewrite Z.land_spec, Z.pow2_bits_true, Z.bits_0, andb_true_r in E by lia. done.
  - destruct (Z.testbit f k) eqn:T; [done|]. destruct E.
    apply Z.bits_inj'. intros n Hn. rewrite Z.land_spec, Z.bits_0, Z.pow2_bits_eqb by lia.
    destruct (Z.eqb_spec k n); [subst; by rewrite T|apply andb_false_r].
Qed.

Lemma has_bits_lor f a b : has_bits f (Z.lor a b) = has_bits f a || has_bits f b.
Proof.
  unfold has_bits. rewrite Z.land_lor_distr_r.
  destruct (Z.eqb_spec (Z.lor (Z.land f a) (Z.land f b)) 0) as [E|E].
  - apply Z.lor_eq_0_iff in E as [-> ->]. done.
  - destruct (Z.eqb_spec (Z.land f a) 0) as [Ha|Ha], (Z.eqb_spec (Z.land f b) 0) as [Hb|Hb]; try done.
    by rewrite Ha, Hb in E.
Qed.

(** Every bit of the closure. *)
Lemma wah_feature_closure_bit f i : 0 <= i ->
  Z.testbit (wah_feature_closure f) i =
  Z.testbit f i || (i =? 0) || ((i =? 7) && Z.testbit f 13)
  || ((i =? 6) && (Z.testbit f 10 || Z.testbit f 11)).
Proof.
  intros Hi. unfold wah_feature_closure, wah_feature_bit, wah_feature_shift.
  rewrite !Z.shiftl_1_l, !has_bits_lor, !has_bits_pow2 by lia.
  destruct (Z.testbit f 13) eqn:T13;
    rewrite ?Z.lor_spec, ?Z.pow2_bits_eqb by lia;
    change (7 =? 10) with false; change (7 =? 11) with false; rewrite ?orb_false_r;
    destruct (Z.testbit f 10), (Z.testbit f 11); cbn [orb];
    rewrite ?Z.lor_spec, ?Z.pow2_bits_eqb, ?(Z.eqb_sym _ i) by lia;
    destruct (Z.testbit f i), (i =? 0), (i =? 7), (i =? 6); reflexivity.
Qed.

(** [wah_feature_closure] computes the least consistent feature set that
    contains its argument: MVP is always on, relaxed SIMD brings SIMD, GC and typed
    function references bring reference types, and nothing else is added. *)
Theorem wah_feature_closure_least f :
  features_consistent (wah_feature_closure f) /\
  bits_subset f (wah_feature_closure f) /\
  forall g, features_consistent g -> bits_subset f g -> bits_subset (wah_feature_closure f) g.
Proof.
  unfold features_consistent, bits_subset, wah_feature_shift.
  rewrite !wah_feature_closure_bit by lia.
  split; [|split].
  - cbn. rewrite !orb_false_r, orb_true_r. repeat split.
    + intros ->. apply orb_true_r.
    + intros [H|H]; rewrite H, ?orb_true_r; done.
  - intros i Hi H. rewrite wah_feature_closure_bit by lia. by rewrite H.
  - intros g (G0 & G1 & G2) Hsub i Hi. rewrite wah_feature_closure_bit by lia.
    rewrite !orb_true_iff, !andb_true_iff, !orb_true_iff, !Z.eqb_eq.
    intros [[[H|H]|[-> H]]|[-> H]]; [by apply Hsub|by subst|by apply G1, Hsub|].
    apply G2. destruct H; [left|right]; by apply Hsub.
Qed.

(** ** Laws of [wah_require_feature] *)

Lemma wah_require_feature_ok shift m m' :
  wah_require_feature shift m = (Ok tt, m') ->
  shift = 0 \/ has_bits (enabled_features m) (u64 (Z.shiftl 1 shift)) = true.
Proof.
  unfold wah_require_feature. destruct (Z.eqb_spec shift 0); [by left|].
  destruct (has_bits _ _); [by right|done].
Qed.

Lemma wah_require_feature_enabled shift m :
  enabled_features (wah_require_feature shift m).2 = enabled_features m.
Proof. unfold wah_require_feature. by repeat case_match. Qed.

Lemma wah_require_feature_no_fault shift m : (wah_require_feature shift m).1 <> Fault.
Proof. unfold wah_require_feature. by repeat case_match. Qed.

(** Every error code has its own message, different from the message of an
    unknown code. *)
Theorem wah_strerror_faithful e1 e2 :
  wah_strerror (wah_error_code e1) <> "Unknown error"%string /\
  (wah_strerror (wah_error_code e1) = wah_strerror (wah_error_code e2) -> e1 = e2).
Proof. destruct e1; (split; [done|]); destruct e2; (done || reflexivity). Qed.
