(* ===== verification/Alloc.v ===== *)
(** * Memory blocks and growing arrays

    The allocator layer of wah.h (from [wah_alloc_valid] to [wah_grow_array_pow2])
    and the memory budget of an execution context.  The allocator itself is given by
    the embedder ([wah_alloc_t]): its three functions are parameters, with the
    contract documented for [malloc], [realloc] and [free] as a record of laws.

    The rest of the development sees the layer through [wah_malloc_c] and
    [wah_grow_array], in which only the answers of the allocator matter. *)

From S2P Require Import Prelude Base.
From stdpp Require Import list.
#[local] Open Scope Z_scope.
#[local] Open Scope wah_scope.

(** ** Definitions *)

Definition WAH_BLOCK_ALIGN : Z := 16.
Definition WAH_STD_MIN_ALIGN : Z := 16.

(** The memory of the process as its bytes, and the private state [H] of the
    allocator. *)
Record world (H : Type) := World { bytes_of : Z -> Z; host_of : H }.
Arguments World {H} _ _.
Arguments bytes_of {H} _ _.
Arguments host_of {H} _.

Section Allocator.
Context {H : Type}.
Notation W := (world H).

(** [wah_alloc_t] whose functions are not NULL; a NULL result is [None]. *)
Record wah_alloc_t := Alloc {
  a_malloc : Z -> W -> option Z * W;
  a_realloc : Z -> Z -> W -> option Z * W;
  a_free : Z -> W -> W;
  a_min_align : Z }.

(** The functions of an allocator may be NULL in what the embedder passes. *)
Record user_alloc := UserAlloc {
  u_malloc : option (Z -> W -> option Z * W);
  u_realloc : option (Z -> Z -> W -> option Z * W);
  u_free : option (Z -> W -> W);
  u_min_align : Z }.

Definition wah_alloc_valid (a : option user_alloc) : bool :=
  match a with
  | None => true
  | Some a =>
      match u_malloc a, u_realloc a, u_free a with
      | Some _, Some _, Some _ => Z.land (u_min_align a) (u64 (u_min_align a - 1)) =? 0
      | _, _, _ => false
      end
  end.

(** [stdc] is the allocator made of [malloc], [realloc] and [free]. *)
Definition wah_resolve_alloc (stdc : wah_alloc_t) (a : option user_alloc) : wah_alloc_t :=
  match a with
  | Some a =>
      match u_malloc a, u_realloc a, u_free a with
      | Some m, Some r, Some f =>
          Alloc m r f (if u_min_align a =? 0 then WAH_STD_MIN_ALIGN else u_min_align a)
      | _, _, _ => stdc
      end
  | None => stdc
  end.

Context (a : wah_alloc_t).

Definition wah_alloc_padded : bool := a_min_align a <? WAH_BLOCK_ALIGN.

Definition poke (p b : Z) (w : W) : W :=
  World (fun q => if q =? p then b else bytes_of w q) (host_of w).

(** [(uint8_t)(WAH_BLOCK_ALIGN - ((uintptr_t)raw & (WAH_BLOCK_ALIGN - 1)))]. *)
Definition pad_of (raw : Z) : Z := u8 (WAH_BLOCK_ALIGN - Z.land raw (WAH_BLOCK_ALIGN - 1)).

Definition wah_alloc_pad (raw : Z) (w : W) : Z * W :=
  let p := raw + pad_of raw in (p, poke (p - 1) (pad_of raw) w).

(** The NULL pointer is [None]. *)
Definition wah_free (ptr : option Z) (w : W) : W :=
  match ptr with
  | None => w
  | Some p => a_free a (if wah_alloc_padded then p - bytes_of w (p - 1) else p) w
  end.

Definition wah_malloc (count elemsize : Z) : comp W (option Z) := fun w =>
  if (count =? 0) || (elemsize =? 0) then (Ok None, w)
  else if SIZE_MAX / elemsize <? count then (Err WAH_ERROR_OUT_OF_MEMORY, w)
  else
    let size := u64 (count * elemsize) in
    if wah_alloc_padded then
      if SIZE_MAX - WAH_BLOCK_ALIGN <? size then (Err WAH_ERROR_OUT_OF_MEMORY, w)
      else match a_malloc a (u64 (size + WAH_BLOCK_ALIGN)) w with
           | (None, w') => (Err WAH_ERROR_OUT_OF_MEMORY, w')
           | (Some raw, w') => let '(p, w'') := wah_alloc_pad raw w' in (Ok (Some p), w'')
           end
    else match a_malloc a size w with
         | (None, w') => (Err WAH_ERROR_OUT_OF_MEMORY, w')
         | (Some p, w') => (Ok (Some p), w')
         end.

(** [memmove(dst, src, n)]. *)
Definition memmove (dst src n : Z) (w : W) : W :=
  World (fun q => if (dst <=? q) && (q <? dst + n) then bytes_of w (q - dst + src) else bytes_of w q)
        (host_of w).

Definition wah_realloc (count elemsize : Z) (ptr : option Z) : comp W (option Z) := fun w =>
  if (count =? 0) || (elemsize =? 0) then (Ok None, wah_free ptr w)
  else match ptr with
  | None => wah_malloc count elemsize w
  | Some p =>
    if SIZE_MAX / elemsize <? count then (Err WAH_ERROR_OUT_OF_MEMORY, w)
    else
      let size := u64 (count * elemsize) in
      if wah_alloc_padded then
        if SIZE_MAX - WAH_BLOCK_ALIGN <? size then (Err WAH_ERROR_OUT_OF_MEMORY, w)
        else
          let old_pad := bytes_of w (p - 1) in
          match a_realloc a (p - old_pad) (u64 (size + WAH_BLOCK_ALIGN)) w with
          | (None, w') => (Err WAH_ERROR_OUT_OF_MEMORY, w')
          | (Some raw, w') =>
              let new_pad := pad_of raw in
              let w'' := if negb (new_pad =? old_pad) then memmove (raw + new_pad) (raw + old_pad) size w' else w' in
              let '(q, w3) := wah_alloc_pad raw w'' in (Ok (Some q), w3)
          end
      else match a_realloc a p size w with
           | (None, w') => (Err WAH_ERROR_OUT_OF_MEMORY, w')
           | (Some q, w') => (Ok (Some q), w')
           end
  end.

(** *** The contract of the allocator

    [live w p n]: [p] is a block of [n] bytes given out and not freed. *)
Record alloc_laws (live : W -> Z -> Z -> Prop) : Prop := {
  min_align_pow2 : exists k, 0 <= k <= 32 /\ a_min_align a = 2 ^ k;
  live_poke : forall w p n q b, live w p n -> live (poke q b w) p n;
  live_memmove : forall w p n d s l, live w p n -> live (memmove d s l w) p n;
  malloc_law : forall n w p w', 0 < n -> a_malloc a n w = (Some p, w') ->
    live w' p n /\ 0 < p /\ p mod a_min_align a = 0 /\
    (forall q m, live w q m -> live w' q m /\ forall i, 0 <= i < m -> bytes_of w' (q + i) = bytes_of w (q + i));
  realloc_law : forall p n m w q w', 0 < n -> live w p m -> a_realloc a p n w = (Some q, w') ->
    live w' q n /\ 0 < q /\ q mod a_min_align a = 0 /\
    forall i, 0 <= i < Z.min n m -> bytes_of w' (q + i) = bytes_of w (p + i) }.

(** A block of [size] bytes as [wah_malloc] gives them out: aligned, inside a live
    block [raw] of the allocator, and preceded by its padding if there is one. *)
Definition wah_block (live : W -> Z -> Z -> Prop) (w : W) (p raw size : Z) : Prop :=
  p mod WAH_BLOCK_ALIGN = 0 /\ 0 < raw /\
  if wah_alloc_padded then
    live w raw (size + WAH_BLOCK_ALIGN) /\ 1 <= p - raw <= WAH_BLOCK_ALIGN /\ bytes_of w (p - 1) = p - raw
  else live w raw size /\ p = raw.
End Allocator.
Arguments wah_alloc_t : clear implicits.
Arguments user_alloc : clear implicits.

(** *** Clients

    What the code outside this layer can observe of an allocator: which of its
    answers are NULL.  The state is the list of the answers to come ([true] is a
    block), with blocks for ever after its end. *)
Definition answers : Type := list bool.

Definition alloc_answer : comp answers unit := fun s =>
  match s with
  | [] => (Ok tt, [])
  | true :: s' => (Ok tt, s')
  | false :: s' => (Err WAH_ERROR_OUT_OF_MEMORY, s')
  end.

(** [wah_malloc] and [wah_realloc] without the pointers: a request whose size
    overflows fails by itself, the others as the allocator answers. *)
Definition wah_malloc_c (count elemsize : Z) : comp answers unit :=
  if (count =? 0) || (elemsize =? 0) then stm_ret tt
  else if SIZE_MAX <? count * elemsize then stm_err WAH_ERROR_OUT_OF_MEMORY
  else alloc_answer.

(** The loop of [wah_grow_array], at most 32 iterations for a [uint32_t]. *)
Fixpoint grow_loop (fuel : nat) (new_cap needed : Z) : result Z :=
  match fuel with
  | O => Fault
  | S fuel' =>
      if new_cap <? needed then
        if UINT32_MAX / 2 <? new_cap then Err WAH_ERROR_TOO_LARGE
        else grow_loop fuel' (u32 (new_cap * 2)) needed
      else Ok new_cap
  end.

(** The new capacity. *)
Definition wah_grow_array (needed elemsize cap : Z) : comp answers Z :=
  if needed <=? cap then stm_ret cap
  else
    stm_ensure (needed <=? UINT32_MAX) WAH_ERROR_TOO_LARGE ;;;
    match grow_loop 34 (if cap =? 0 then 8 else cap) needed with
    | Ok new_cap => wah_malloc_c new_cap elemsize ;;; stm_ret new_cap
    | Err e => stm_err e
    | Fault => fun s => (Fault, s)
    end.

(** The number of elements reallocated to, if any. *)
Definition wah_grow_array_pow2 (count elemsize : Z) : comp answers (option Z) :=
  if negb (Z.land count (u32 (count - 1)) =? 0) then stm_ret None
  else
    stm_ensure (count <=? UINT32_MAX / 2) WAH_ERROR_TOO_LARGE ;;;
    let n := if count =? 0 then 1 else count * 2 in
    wah_malloc_c n elemsize ;;; stm_ret (Some n).

(** *** The memory budget of a context *)
Record budget := Budget { max_memory_bytes : Z; memory_bytes_committed : Z }.

Definition wah_budget_check (ctx : budget) (additional : Z) : bool :=
  if max_memory_bytes ctx =? UINT64_MAX then true
  else if max_memory_bytes ctx <? memory_bytes_committed ctx then false
  else additional <=? u64 (max_memory_bytes ctx - memory_bytes_committed ctx).

Definition wah_budget_charge (ctx : budget) (bytes : Z) : budget :=
  Budget (max_memory_bytes ctx) (u64 (memory_bytes_committed ctx + bytes)).

(** [None] is the failed assertion. *)
Definition wah_budget_release (ctx : budget) (bytes : Z) : option budget :=
  if bytes <=? memory_bytes_committed ctx
  then Some (Budget (max_memory_bytes ctx) (memory_bytes_committed ctx - bytes)) else None.

Definition sizeof_wah_value_t : Z := 16.

(** [None] stands for WAH_ERROR_TOO_LARGE. *)
Definition wah_table_byte_size (elements : Z) : result Z :=
  if UINT64_MAX / sizeof_wah_value_t <? elements then Err WAH_ERROR_TOO_LARGE
  else
    let bytes := u64 (elements * sizeof_wah_value_t) in
    if SIZE_MAX <? bytes then Err WAH_ERROR_TOO_LARGE else Ok bytes.

(** Capacities that arrays grown from nothing reach: at most [2 ^ 31]. *)
Definition cap_ok (c : Z) : Prop := c = 0 \/ exists k, 3 <= k <= 31 /\ c = 2 ^ k.

(** ** Theorems *)

Section AllocLaws.
Context {H : Type} (a : wah_alloc_t H) (live : world H -> Z -> Z -> Prop) (LAWS : alloc_laws a live).

Lemma pad_of_eq raw : pad_of raw = WAH_BLOCK_ALIGN - raw mod WAH_BLOCK_ALIGN.
Proof.
  unfold pad_of, WAH_BLOCK_ALIGN. change (16 - 1) with (Z.ones 4). rewrite Z.land_ones by lia.
  change (2 ^ 4) with 16. pose proof (Z.mod_pos_bound raw 16). apply u8_small. lia.
Qed.

Lemma pad_of_range raw : 1 <= pad_of raw <= WAH_BLOCK_ALIGN /\ (raw + pad_of raw) mod WAH_BLOCK_ALIGN = 0.
Proof.
  rewrite pad_of_eq. unfold WAH_BLOCK_ALIGN. pose proof (Z.mod_pos_bound raw 16). split; [lia|].
  replace (raw + (16 - raw mod 16)) with ((raw / 16 + 1) * 16) by (pose proof (Z.div_mod raw 16); lia).
  apply Z_mod_mult.
Qed.

(** Blocks of an allocator without padding are aligned already. *)
Lemma unpadded_align p : wah_alloc_padded a = false -> p mod a_min_align a = 0 -> p mod WAH_BLOCK_ALIGN = 0.
Proof.
  destruct (min_align_pow2 a live LAWS) as (k & Hk & Hm). unfold wah_alloc_padded, WAH_BLOCK_ALIGN.
  rewrite Hm. intros Hp Hz. apply Z.ltb_ge in Hp.
  assert (4 <= k) by (destruct (Z.ltb_spec k 4); [|lia]; pose proof (Z.pow_lt_mono_r 2 k 4); lia).
  apply Z.mod_divide; [lia|]. apply Z.mod_divide in Hz; [|lia].
  etrans; [|exact Hz]. exists (2 ^ (k - 4)). change 16 with (2 ^ 4). rewrite <- Z.pow_add_r by lia. f_equal. lia.
Qed.

Lemma wah_block_pad w raw size p w' : wah_alloc_padded a = true ->
  live w raw (size + WAH_BLOCK_ALIGN) -> 0 < raw -> wah_alloc_pad raw w = (p, w') ->
  wah_block a live w' p raw size /\ p = raw + pad_of raw /\
  forall q, q <> p - 1 -> bytes_of w' q = bytes_of w q.
Proof.
  intros Hpad Hl Hr [= <- <-]. pose proof (pad_of_range raw) as [Hp Ha]. unfold wah_block. rewrite Hpad.
  split_and!; try done; try lia.
  - by apply (live_poke a live LAWS).
  - unfold poke. simpl. rewrite Z.eqb_refl. lia.
  - intros q Hq. unfold poke. simpl. destruct (Z.eqb_spec q (raw + pad_of raw - 1)); [lia|done].
Qed.

Lemma size_bound count elemsize : 0 <= count -> 0 < elemsize ->
  (SIZE_MAX / elemsize <? count) = false -> 0 <= count * elemsize <= SIZE_MAX /\ u64 (count * elemsize) = count * elemsize.
Proof.
  intros Hc He Hq. apply Z.ltb_ge in Hq.
  pose proof (Z.mul_div_le SIZE_MAX elemsize He). unfold SIZE_MAX, UINT64_MAX in *.
  assert (count * elemsize <= 18446744073709551615) by nia.
  split; [nia|]. apply u64_small. nia.
Qed.

(** The size with the padding does not wrap. *)
Lemma padded_size size : 0 <= size -> (SIZE_MAX - WAH_BLOCK_ALIGN <? size) = false ->
  u64 (size + WAH_BLOCK_ALIGN) = size + WAH_BLOCK_ALIGN.
Proof. unfold SIZE_MAX, UINT64_MAX, WAH_BLOCK_ALIGN. intros H0 H1. apply u64_small. lia. Qed.

Lemma wah_malloc_block count elemsize w p w' : 0 <= count -> 0 <= elemsize ->
  wah_malloc a count elemsize w = (Ok (Some p), w') ->
  exists raw, wah_block a live w' p raw (count * elemsize).
Proof.
  intros Hc He. unfold wah_malloc. destruct ((count =? 0) || (elemsize =? 0)) eqn:E0; [done|].
  destruct (SIZE_MAX / elemsize <? count) eqn:E1; [done|].
  destruct (size_bound count elemsize) as [Hs ->]; [lia|lia|done|].
  destruct (wah_alloc_padded a) eqn:Epad.
  - destruct (SIZE_MAX - WAH_BLOCK_ALIGN <? count * elemsize) eqn:E2; [done|]. rewrite padded_size by (lia || done).
    destruct (a_malloc a (count * elemsize + WAH_BLOCK_ALIGN) w) as [[raw|] w1] eqn:Em; [|done].
    apply (malloc_law a live LAWS) in Em as (Hl & Hr & _); [|unfold WAH_BLOCK_ALIGN; lia].
    destruct (wah_alloc_pad raw w1) as [q w2] eqn:Eq. intros [= <- <-].
    exists raw. by apply (wah_block_pad w1 raw).
  - destruct (a_malloc a (count * elemsize) w) as [[raw|] w1] eqn:Em; [|done].
    apply (malloc_law a live LAWS) in Em as (Hl & Hr & Ha & _); [|nia]. intros [= <- <-].
    exists raw. unfold wah_block. rewrite Epad. split_and!; try done. by apply unpadded_align.
Qed.

Lemma wah_realloc_block count elemsize p raw size w q w' : 0 <= count -> 0 <= elemsize -> 0 <= size ->
  wah_block a live w p raw size -> wah_realloc a count elemsize (Some p) w = (Ok (Some q), w') ->
  exists raw', wah_block a live w' q raw' (count * elemsize) /\
    forall i, 0 <= i < Z.min size (count * elemsize) -> bytes_of w' (q + i) = bytes_of w (p + i).
Proof.
  intros Hc He Hsz Hb. unfold wah_realloc. destruct ((count =? 0) || (elemsize =? 0)) eqn:E0; [done|].
  destruct (SIZE_MAX / elemsize <? count) eqn:E1; [done|].
  destruct (size_bound count elemsize) as [Hs ->]; [lia|lia|done|].
  destruct Hb as (Hal & Hraw & Hb). destruct (wah_alloc_padded a) eqn:Epad.
  - destruct Hb as (Hl & Hpad & Hbyte). rewrite Hbyte. replace (p - (p - raw)) with raw by lia.
    destruct (SIZE_MAX - WAH_BLOCK_ALIGN <? count * elemsize) eqn:E2; [done|]. rewrite padded_size by (lia || done).
    destruct (a_realloc a raw (count * elemsize + WAH_BLOCK_ALIGN) w) as [[r|] w1] eqn:Em; [|done].
    apply (realloc_law a live LAWS _ _ (size + WAH_BLOCK_ALIGN)) in Em as (Hl1 & Hr1 & _ & Hsame);
      [|unfold WAH_BLOCK_ALIGN; lia|done].
    set (w2 := if negb (pad_of r =? p - raw) then memmove (r + pad_of r) (r + (p - raw)) (count * elemsize) w1 else w1).
    assert (Hl2 : live w2 r (count * elemsize + WAH_BLOCK_ALIGN)).
    { unfold w2. case_match; [by apply (live_memmove a live LAWS)|done]. }
    assert (Hw2 : forall i, 0 <= i < count * elemsize -> bytes_of w2 (r + pad_of r + i) = bytes_of w1 (r + (p - raw) + i)).
    { intros i Hi. unfold w2. destruct (Z.eqb_spec (pad_of r) (p - raw)) as [->|]; [done|].
      unfold memmove. cbn [negb bytes_of].
      rewrite (proj2 (Z.leb_le (r + pad_of r) _)), (proj2 (Z.ltb_lt _ (r + pad_of r + count * elemsize))) by lia.
      cbn [andb]. f_equal. lia. }
    destruct (wah_alloc_pad r w2) as [q' w3] eqn:Eq. intros [= <- <-].
    apply (wah_block_pad w2 r (count * elemsize)) in Eq as (Hblk & -> & Hout); [|done..]. exists r. split; [done|]. intros i Hi.
    rewrite Hout by lia. rewrite Hw2 by lia.
    replace (r + (p - raw) + i) with (r + (p - raw + i)) by lia. rewrite Hsame by (unfold WAH_BLOCK_ALIGN in *; lia).
    f_equal. lia.
  - destruct Hb as (Hl & ->).
    destruct (a_realloc a raw (count * elemsize) w) as [[r|] w1] eqn:Em; [|done].
    apply (realloc_law a live LAWS _ _ size) in Em as (Hl1 & Hr1 & Ha & Hsame); [|nia|done].
    intros [= <- <-]. exists r. split; [|intros i Hi; apply Hsame; lia].
    unfold wah_block. rewrite Epad. split_and!; try done. by apply unpadded_align.
Qed.

Lemma wah_free_block p raw size w : wah_block a live w p raw size -> wah_free a (Some p) w = a_free a raw w.
Proof.
  intros (_ & _ & Hb). unfold wah_free. destruct (wah_alloc_padded a).
  - destruct Hb as (_ & _ & ->). f_equal. lia.
  - by destruct Hb as [_ ->].
Qed.
End AllocLaws.

(** C24. What callers get from the allocator layer, for any allocator that keeps the
    contract: [wah_malloc] either fails or gives an aligned block of the requested
    size inside a block of the allocator (and nothing for an empty request), also
    when the allocator's own alignment is smaller; [wah_realloc] moreover keeps the
    contents although the padding may change; and [wah_free] hands exactly the
    allocator's block back. *)
Theorem wah_alloc_contract {H : Type} (a : wah_alloc_t H) live (LAWS : alloc_laws a live)
    count elemsize w (Hc : 0 <= count < 2 ^ 64) (He : 0 <= elemsize < 2 ^ 64) :
  (forall w', wah_malloc a count elemsize w = (Ok None, w') -> count * elemsize = 0) /\
  (forall p w', wah_malloc a count elemsize w = (Ok (Some p), w') ->
     0 < count * elemsize <= SIZE_MAX /\
     exists raw, wah_block a live w' p raw (count * elemsize) /\ wah_free a (Some p) w' = a_free a raw w') /\
  (forall p raw size q w', 0 <= size -> wah_block a live w p raw size ->
     wah_realloc a count elemsize (Some p) w = (Ok (Some q), w') ->
     exists raw', wah_block a live w' q raw' (count * elemsize) /\
       wah_free a (Some q) w' = a_free a raw' w' /\
       forall i, 0 <= i < Z.min size (count * elemsize) -> bytes_of w' (q + i) = bytes_of w (p + i)).
Proof.
  split_and!.
  - intros w'. unfold wah_malloc. destruct ((count =? 0) || (elemsize =? 0)) eqn:E; [intros; lia|].
    repeat case_match; simplify_eq; done.
  - intros p w' Hm. split.
    + unfold wah_malloc in Hm. destruct ((count =? 0) || (elemsize =? 0)) eqn:E; [done|].
      destruct (SIZE_MAX / elemsize <? count) eqn:E1; [done|].
      destruct (size_bound count elemsize) as [Hs _]; [lia|lia|done|nia].
    + apply (wah_malloc_block a live LAWS) in Hm as (raw & Hb); [|lia|lia]. exists raw. split; [done|].
      by eapply wah_free_block.
  - intros p raw size q w' Hs Hb Hr.
    apply (wah_realloc_block a live LAWS _ _ _ raw size) in Hr as (raw' & Hb' & Hsame); [|lia..|done].
    exists raw'. split_and!; [done| |done]. by eapply wah_free_block.
Qed.

(** *** Growing arrays *)

Lemma grow_loop_spec fuel new_cap needed : 0 < new_cap <= UINT32_MAX -> needed <= UINT32_MAX ->
  UINT32_MAX < new_cap * 2 ^ Z.of_nat fuel -> (0 < fuel)%nat ->
  match grow_loop fuel new_cap needed with
  | Ok c => needed <= c <= UINT32_MAX /\ (exists k, 0 <= k /\ c = new_cap * 2 ^ k) /\
            (c = new_cap \/ c < 2 * needed)
  | Err e => e = WAH_ERROR_TOO_LARGE /\ UINT32_MAX < 2 * needed
  | Fault => False
  end.
Proof.
  revert new_cap. induction fuel as [|fuel IH]; intros c Hc Hn Hf H0; [lia|]. cbn [grow_loop].
  destruct (Z.ltb_spec c needed).
  - change (UINT32_MAX / 2) with 2147483647. destruct (Z.ltb_spec 2147483647 c); [unfold UINT32_MAX in *; split; [done|lia]|].
    rewrite u32_small by (unfold UINT32_MAX in *; lia).
    destruct fuel as [|fuel']; [unfold UINT32_MAX in *; simpl in Hf; lia|].
    assert (UINT32_MAX < c * 2 * 2 ^ Z.of_nat (S fuel')).
    { rewrite Nat2Z.inj_succ, Z.pow_succ_r in Hf by lia. lia. }
    specialize (IH (c * 2) ltac:(unfold UINT32_MAX in *; lia) Hn ltac:(lia) ltac:(lia)).
    destruct (grow_loop (S fuel') (c * 2) needed) as [c'|e|]; [|done|done].
    destruct IH as (Hr & (k & Hk & ->) & Hor). split_and!; [lia|lia| |].
    + exists (k + 1). split; [lia|]. rewrite Z.pow_add_r by lia. lia.
    + right. destruct Hor; lia.
  - split_and!; [lia|lia| |by left]. exists 0. lia.
Qed.

Lemma alloc_answer_cases a : (exists a', alloc_answer a = (Ok tt, a')) \/
  (exists a', alloc_answer a = (Err WAH_ERROR_OUT_OF_MEMORY, a')).
Proof. destruct a as [|[] a]; [left|left|right]; by eexists. Qed.

Lemma wah_malloc_c_cases n k a : (exists a', wah_malloc_c n k a = (Ok tt, a')) \/
  (exists a', wah_malloc_c n k a = (Err WAH_ERROR_OUT_OF_MEMORY, a')).
Proof.
  unfold wah_malloc_c. repeat case_match; [left; by eexists|right; by eexists|apply alloc_answer_cases].
Qed.

Lemma cap_ok_range c : cap_ok c -> 0 <= c <= 2 ^ 31.
Proof.
  intros [->|(k & Hk & ->)]; [lia|]. split; [apply Z.pow_nonneg; lia|]. apply Z.pow_le_mono_r; lia.
Qed.

Lemma wah_grow_array_cap needed elemsize cap s : cap_ok cap -> 0 <= needed ->
  match wah_grow_array needed elemsize cap s with
  | (Ok c, _) => needed <= c /\ cap <= c /\ cap_ok c
  | (Err _, _) => True
  | (Fault, _) => False
  end.
Proof.
  intros Hc Hn. pose proof (cap_ok_range cap Hc) as Hr. unfold wah_grow_array.
  destruct (Z.leb_spec needed cap); [by split_and!|]. unfold stm_bind at 1, stm_ensure.
  destruct (Z.leb_spec needed UINT32_MAX); [|done]. unfold stm_ret at 1.
  set (c0 := if cap =? 0 then 8 else cap).
  assert (Hc0 : exists k, 3 <= k <= 31 /\ c0 = 2 ^ k /\ cap <= c0).
  { unfold c0. destruct Hc as [->|(k & Hk & ->)]; [exists 3; simpl; lia|]. exists k.
    assert (0 < 2 ^ k) by (apply Z.pow_pos_nonneg; lia). rewrite (proj2 (Z.eqb_neq _ _)) by lia. done. }
  destruct Hc0 as (k & Hk & Ec & Hle).
  assert (Hc1 : 8 <= c0 <= 2 ^ 31).
  { rewrite Ec. split; [change 8 with (2 ^ 3); apply Z.pow_le_mono_r; lia|apply Z.pow_le_mono_r; lia]. }
  pose proof (grow_loop_spec 34 c0 needed ltac:(unfold UINT32_MAX; lia) ltac:(lia)) as HL.
  change (2 ^ Z.of_nat 34) with 17179869184 in HL. specialize (HL ltac:(unfold UINT32_MAX; lia) ltac:(lia)).
  destruct (grow_loop 34 c0 needed) as [c|e|]; [|done|done]. destruct HL as (Hcr & (j & Hj & Ecj) & _).
  assert (Hcok : cap_ok c).
  { right. exists (k + j). rewrite Ecj, Ec in *. rewrite <- Z.pow_add_r in * by lia. split; [|done].
    assert (2 ^ (k + j) < 2 ^ 32) as Hp by (unfold UINT32_MAX in *; lia). apply Z.pow_lt_mono_r_iff in Hp; lia. }
  assert (Hcc : cap <= c).
  { rewrite Ecj. assert (1 <= 2 ^ j) by (change 1 with (2 ^ 0); apply Z.pow_le_mono_r; lia). nia. }
  unfold stm_bind. destruct (wah_malloc_c_cases c elemsize s) as [[s' ->]|[s' ->]]; [|done].
  split; [lia|]. by split.
Qed.

(** Growing an array by doubling: the call never runs forever, keeps a capacity
    that is enough, and otherwise gives one that is enough, is the old one times a
    power of two (8 when empty) and less than twice what is needed (or 8), so that
    [n] appends reallocate at most about [log2 n] times; it fails with
    WAH_ERROR_TOO_LARGE only if doubling would not fit 32 bits, and otherwise only
    if the allocator does. *)
Theorem wah_grow_array_amortised needed elemsize cap s
    (Hc : 0 <= cap <= UINT32_MAX) (Hn : 0 <= needed) :
  match wah_grow_array needed elemsize cap s with
  | (Ok c, _) =>
      needed <= c <= UINT32_MAX /\ cap <= c /\
      (c <> cap -> cap < needed /\ exists k, 0 <= k /\ c = (if cap =? 0 then 8 else cap) * 2 ^ k) /\
      (c = cap \/ c = 8 \/ c < 2 * needed)
  | (Err e, _) =>
      cap < needed /\ (e = WAH_ERROR_OUT_OF_MEMORY \/ e = WAH_ERROR_TOO_LARGE /\ UINT32_MAX < 2 * needed)
  | (Fault, _) => False
  end.
Proof.
  unfold wah_grow_array. destruct (Z.leb_spec needed cap); [by split_and!; auto; lia|].
  unfold stm_bind at 1, stm_ensure. destruct (Z.leb_spec needed UINT32_MAX); [|split; [lia|right; split; [done|lia]]].
  pose proof (grow_loop_spec 34 (if cap =? 0 then 8 else cap) needed) as HL. unfold stm_ret at 1.
  set (c0 := if cap =? 0 then 8 else cap) in *.
  assert (0 < c0 <= UINT32_MAX /\ (c0 = 8 \/ c0 = cap) /\ cap <= c0) as (Hc0 & Hc8 & Hle).
  { unfold c0, UINT32_MAX in *. destruct (Z.eqb_spec cap 0); lia. }
  specialize (HL Hc0 ltac:(lia)). change (2 ^ Z.of_nat 34) with 17179869184 in HL.
  specialize (HL ltac:(unfold UINT32_MAX; lia) ltac:(lia)).
  destruct (grow_loop 34 c0 needed) as [c|e|]; [|destruct HL as [-> ?]; split; [lia|by right]|done].
  destruct HL as (Hr & (k & Hk & Hck) & Hor).
  unfold stm_bind, wah_malloc_c, stm_ret, stm_err.
  repeat (case_match; simplify_eq); try (split; [lia|by left]).
  all: try (unfold alloc_answer in *; repeat case_match; simplify_eq; try (split; [lia|by left])).
  all: split_and!; [lia|lia|nia|intros _; split; [lia|by exists k]|lia].
Qed.

(** The memory budget: an allocation passes the check exactly when the limit is
    absent or the total stays within it, without overflow; charging it then keeps
    the total within the limit, and releasing it restores the total without
    tripping the assertion.  The size of a table is the exact product or an error. *)
Theorem wah_budget_exact ctx additional elements
    (Hm : 0 <= max_memory_bytes ctx <= UINT64_MAX)
    (Hb : 0 <= memory_bytes_committed ctx <= UINT64_MAX)
    (Ha : 0 <= additional <= UINT64_MAX) (He : 0 <= elements <= UINT64_MAX) :
  (wah_budget_check ctx additional = true <->
     max_memory_bytes ctx = UINT64_MAX \/ memory_bytes_committed ctx + additional <= max_memory_bytes ctx) /\
  (wah_budget_check ctx additional = true -> memory_bytes_committed ctx + additional <= UINT64_MAX ->
     wah_budget_release (wah_budget_charge ctx additional) additional = Some ctx /\
     (max_memory_bytes ctx <> UINT64_MAX ->
      memory_bytes_committed (wah_budget_charge ctx additional) <= max_memory_bytes ctx)) /\
  wah_table_byte_size elements =
    (if elements * sizeof_wah_value_t <=? UINT64_MAX then Ok (elements * sizeof_wah_value_t)
     else Err WAH_ERROR_TOO_LARGE).
Proof.
  destruct ctx as [mx cm]. cbn [max_memory_bytes memory_bytes_committed] in *.
  unfold wah_budget_check, wah_budget_release, wah_budget_charge, wah_table_byte_size, sizeof_wah_value_t.
  cbn [max_memory_bytes memory_bytes_committed]. unfold SIZE_MAX, UINT64_MAX in *. split_and!.
  - destruct (Z.eqb_spec mx 18446744073709551615); [intuition lia|]. destruct (Z.ltb_spec mx cm); [intuition lia|].
    rewrite u64_small by lia. rewrite Z.leb_le. intuition lia.
  - intros Hck Hsum. rewrite u64_small by lia. destruct (Z.leb_spec additional (cm + additional)); [|lia].
    split; [f_equal; f_equal; lia|]. intros Hne. destruct (Z.eqb_spec mx 18446744073709551615); [done|].
    destruct (Z.ltb_spec mx cm); [done|]. rewrite u64_small in Hck by lia. lia.
  - change (18446744073709551615 / 16) with 1152921504606846975.
    destruct (Z.ltb_spec 1152921504606846975 elements), (Z.leb_spec (elements * 16) 18446744073709551615);
      [lia|done| |lia].
    rewrite u64_small by lia. by destruct (Z.ltb_spec 18446744073709551615 (elements * 16)); [lia|].
Qed.

(** *** Witnesses: an allocator that never reuses memory, aligned to 8 bytes *)

Record bump := Bump { next_addr : Z; blocks : list (Z * Z) }.

Definition bump_live (w : world bump) (p n : Z) : Prop := (p, n) ∈ blocks (host_of w).

Definition bump_take (n : Z) (w : world bump) : Z * bump :=
  let p := (Z.abs (next_addr (host_of w)) / 8 + 1) * 8 in (p, Bump (p + n) ((p, n) :: blocks (host_of w))).

Definition bump_alloc : wah_alloc_t bump := Alloc
  (fun n w => let '(p, h) := bump_take n w in (Some p, World (bytes_of w) h))
  (fun p n w => let '(q, h) := bump_take n w in
     (Some q, World (fun r => if (q <=? r) && (r <? q + n) then bytes_of w (r - q + p) else bytes_of w r) h))
  (fun p w => w) 8.

Lemma bump_laws : alloc_laws bump_alloc bump_live.
Proof.
  assert (Hp : forall x, 0 < (Z.abs x / 8 + 1) * 8 /\ ((Z.abs x / 8 + 1) * 8) mod 8 = 0).
  { intros x. pose proof (Z.div_pos (Z.abs x) 8). split; [lia|]. apply Z_mod_mult. }
  split.
  - by exists 3.
  - done.
  - done.
  - intros n w p w' _ [= <- <-]. unfold bump_live. simpl. split_and!; [left|apply Hp|apply Hp|].
    intros q m Hq. split; [by right|done].
  - intros p n m w q w' _ _ [= <- <-]. unfold bump_live. simpl. split_and!; [left|apply Hp|apply Hp|].
    intros i Hi. set (q := _ * 8). rewrite (proj2 (Z.leb_le q (q + i))), (proj2 (Z.ltb_lt (q + i) (q + n))) by lia.
    simpl. f_equal. lia.
Qed.

Definition bump_start : world bump := World (fun _ => 0) (Bump 0 []).

Lemma wah_alloc_contract_witness :
  exists p w' raw, wah_malloc bump_alloc 3 4 bump_start = (Ok (Some p), w') /\
    wah_block bump_alloc bump_live w' p raw 12 /\ p = 16 /\ raw = 8.
Proof.
  destruct (wah_alloc_contract bump_alloc bump_live bump_laws 3 4 bump_start ltac:(lia) ltac:(lia)) as (_ & Hm & _).
  eexists _, _, 8. split; [reflexivity|]. destruct (Hm _ _ eq_refl) as (_ & raw & Hb & _).
  split; [|split; vm_compute; reflexivity]. pose proof Hb as (_ & _ & H3). unfold wah_alloc_padded, bump_live in H3. simpl in H3.
  destruct H3 as (H4 & _ & _). apply list_elem_of_singleton in H4. injection H4 as ->. exact Hb.
Defined.

Lemma wah_grow_array_amortised_witness :
  exists s, wah_grow_array 100 4 8 [true] = (Ok 128, s) /\ 100 <= 128 <= UINT32_MAX.
Proof.
  eexists. split; [reflexivity|].
  pose proof (wah_grow_array_amortised 100 4 8 [true] ltac:(unfold UINT32_MAX; lia) ltac:(lia)) as H.
  exact (proj1 H).
Defined.

Lemma wah_budget_exact_witness :
  wah_budget_check (Budget 100 60) 40 = true /\ wah_budget_check (Budget 100 60) 41 = false.
Proof.
  split.
  - apply (wah_budget_exact (Budget 100 60) 40 0); unfold UINT64_MAX; simpl; lia.
  - by vm_compute.
Defined.
