(* ===== verification/Types.v ===== *)
(** * Value types, type definitions and the type part of a module

    The compact [int32_t] encoding of WebAssembly types ([WAH_TYPE_*]), tagged
    references ([wah_ref_make_i31] and its readers), and the records for function
    types, type definitions, layouts and the module fields that hold them. *)

From S2P Require Import Prelude Base.
#[local] Open Scope Z_scope.

(** ** Definitions *)

(** [typedef int32_t wah_type_t]. *)
Definition wah_type_t : Set := Z.

Definition WAH_TYPE_I32 : wah_type_t := -2.
Definition WAH_TYPE_I64 : wah_type_t := -4.
Definition WAH_TYPE_F32 : wah_type_t := -6.
Definition WAH_TYPE_F64 : wah_type_t := -8.
Definition WAH_TYPE_V128 : wah_type_t := -10.
Definition WAH_TYPE_PACKED_I8 : wah_type_t := -16.
Definition WAH_TYPE_PACKED_I16 : wah_type_t := -18.
Definition WAH_TYPE_FUNC : wah_type_t := -32.
Definition WAH_TYPE_FUNCREF : wah_type_t := -31.
Definition WAH_TYPE_EXTERN : wah_type_t := -34.
Definition WAH_TYPE_EXTERNREF : wah_type_t := -33.
Definition WAH_TYPE_ANY : wah_type_t := -36.
Definition WAH_TYPE_ANYREF : wah_type_t := -35.
Definition WAH_TYPE_EQ : wah_type_t := -38.
Definition WAH_TYPE_EQREF : wah_type_t := -37.
Definition WAH_TYPE_I31 : wah_type_t := -40.
Definition WAH_TYPE_I31REF : wah_type_t := -39.
Definition WAH_TYPE_STRUCT : wah_type_t := -42.
Definition WAH_TYPE_STRUCTREF : wah_type_t := -41.
Definition WAH_TYPE_ARRAY : wah_type_t := -44.
Definition WAH_TYPE_ARRAYREF : wah_type_t := -43.
Definition WAH_TYPE_EXN : wah_type_t := -46.
Definition WAH_TYPE_EXNREF : wah_type_t := -45.
Definition WAH_TYPE_NOFUNC : wah_type_t := -48.
Definition WAH_TYPE_NULLFUNCREF : wah_type_t := -47.
Definition WAH_TYPE_NOEXTERN : wah_type_t := -50.
Definition WAH_TYPE_NULLEXTERNREF : wah_type_t := -49.
Definition WAH_TYPE_NONE : wah_type_t := -52.
Definition WAH_TYPE_NULLREF : wah_type_t := -51.
Definition WAH_TYPE_NOEXN : wah_type_t := -54.
Definition WAH_TYPE_NULLEXNREF : wah_type_t := -53.
Definition WAH_TYPE_BOT : wah_type_t := -99.

Definition WAH_TYPE_IS_NULLABLE (t : wah_type_t) : bool := negb (Z.land t 1 =? 0).
Definition WAH_TYPE_AS_NULLABLE (t : wah_type_t) : wah_type_t := Z.lor t 1.
Definition WAH_TYPE_AS_NON_NULL (t : wah_type_t) : wah_type_t := Z.land t (Z.lnot 1).
Definition WAH_TYPE_IS_PACKED (t : wah_type_t) : bool :=
  (t =? WAH_TYPE_PACKED_I8) || (t =? WAH_TYPE_PACKED_I16).
Definition WAH_TYPE_IS_REF (t : wah_type_t) : bool :=
  ((t <=? -31) && (-54 <=? t)) || (0 <=? t).

(** [(uint32_t)(t) >> 1]. *)
Definition WAH_TYIDX (t : wah_type_t) : Z := Z.shiftr (u32 t) 1.
(** [(wah_type_t)(i * 2 + !!null)] for a [uint32_t] [i]. *)
Definition WAH_TYPE_FROM_IDX (i : Z) (null : bool) : wah_type_t := s32 (u32 (i * 2 + b2z null)).
Definition WAH_MAX_TYPE_INDEX : Z := Z.shiftr (u32 INT32_MAX) 1.

(** *** Tagged references: [uintptr_t] values of 64 bits. *)
Definition WAH_I31_TAG : Z := 1.
Definition wah_ref_is_i31 (ref : Z) : bool := negb (Z.land ref WAH_I31_TAG =? 0).
Definition wah_ref_make_i31 (value : Z) : Z :=
  Z.lor (u64 (Z.shiftl (u32 (Z.land value 2147483647)) 1)) WAH_I31_TAG.
Definition wah_ref_i31_get_u (ref : Z) : Z := Z.land (s32 (Z.shiftr ref 1)) 2147483647.
Definition wah_ref_i31_get_s (ref : Z) : Z :=
  let val := wah_ref_i31_get_u ref in
  if negb (Z.land val 1073741824 =? 0) then s32 (Z.lor (u32 val) 2147483648) else val.

(** *** Type definitions *)
Inductive wah_comp_type_kind_t := WAH_COMP_FUNC | WAH_COMP_STRUCT | WAH_COMP_ARRAY.

#[export] Instance wah_comp_type_kind_t_eq_dec : EqDecision wah_comp_type_kind_t.
Proof. solve_decision. Defined.

(** The byte of a kind, its value in the enumeration. *)
Definition wah_comp_type_kind_code (k : wah_comp_type_kind_t) : Z :=
  match k with WAH_COMP_FUNC => 96 | WAH_COMP_STRUCT => 95 | WAH_COMP_ARRAY => 94 end.
Definition comp_kind_eqb (a b : wah_comp_type_kind_t) : bool :=
  wah_comp_type_kind_code a =? wah_comp_type_kind_code b.

(** [wah_func_type_t]: the counts are the lengths of the arrays. *)
Record wah_func_type_t := FuncType {
  param_types : list wah_type_t;
  result_types : list wah_type_t }.

Definition WAH_NO_SUPERTYPE : Z := UINT32_MAX.
Definition WAH_MAX_SUBTYPE_DEPTH : Z := 63.

(** [wah_type_def_t]: [field_count] is the length of [field_types]. *)
Record wah_type_def_t := TypeDef {
  kind : wah_comp_type_kind_t;
  is_final : bool;
  non_defaultable : bool;
  supertype : Z;
  field_types : list wah_type_t;
  field_mutables : list bool;
  rec_group_start : Z;
  rec_group_size : Z }.

(** *** Layouts *)
Definition wah_repr_t : Set := Z.
Inductive wah_repr_type_t := WAH_REPR_STRUCT | WAH_REPR_ARRAY.
Definition WAH_REPR_NONE : wah_repr_t := -64.
Definition WAH_REPR_REF : wah_repr_t := -65.
Definition WAH_REPR_HOST : wah_repr_t := -66.

Record wah_repr_field_t := ReprField { fld_offset : Z; fld_repr_id : wah_repr_t }.

(** [wah_repr_info_t]: [count] is the length of the flexible array [fields]. *)
Record wah_repr_info_t := ReprInfo {
  repr_type : wah_repr_type_t;
  repr_typeidx : Z;
  repr_size : Z;
  repr_fields : list wah_repr_field_t }.

Definition wah_repr_field_is_ref (f : wah_repr_field_t) : bool :=
  (fld_repr_id f =? WAH_REPR_REF) || (0 <=? fld_repr_id f).

(** *** The type part of [wah_module_t]

    [types] and [type_defs] are parallel arrays of [type_count] entries;
    [canonical_map] and [typeidx_to_repr] are [None] when the pointers are NULL;
    [repr_count] is the length of [repr_infos]. *)
Record wah_module_t := Module {
  types : list wah_func_type_t;
  type_defs : list wah_type_def_t;
  canonical_map : option (list Z);
  typeidx_to_repr : option (list wah_repr_t);
  repr_infos : list wah_repr_info_t;
  features : feature_state }.

Definition type_count (m : wah_module_t) : Z := zlen (type_defs m).

Definition wah_module_typeidx_to_repr (m : wah_module_t) (typeidx : Z) : option wah_repr_t :=
  match typeidx_to_repr m with
  | None => Some WAH_REPR_NONE
  | Some map => if type_count m <=? typeidx then Some WAH_REPR_NONE else zget map typeidx
  end.

(** The result [None] is the NULL pointer. *)
Definition wah_repr_info_get (m : wah_module_t) (repr_id : wah_repr_t) : option wah_repr_info_t :=
  if (repr_id <? 0) || (zlen (repr_infos m) <=? u32 repr_id) then None
  else zget (repr_infos m) repr_id.

(** [None] is the NULL pointer, for which the source returns [(uint32_t)-1]. *)
Definition wah_repr_info_typeidx (m : wah_module_t) (repr_id : wah_repr_t) : Z :=
  match wah_repr_info_get m repr_id with
  | Some info => repr_typeidx info
  | None => u32 (-1)
  end.

(** ** Arithmetic of the encoding *)

Lemma is_nullable_mod t : WAH_TYPE_IS_NULLABLE t = (t mod 2 =? 1).
Proof.
  unfold WAH_TYPE_IS_NULLABLE. change 1 with (Z.ones 1) at 1. rewrite Z.land_ones by lia.
  change (2 ^ 1) with 2. pose proof (Z.mod_pos_bound t 2).
  destruct (Z.eqb_spec (t mod 2) 0), (Z.eqb_spec (t mod 2) 1); (done || lia).
Qed.

Lemma as_non_null_mod t : WAH_TYPE_AS_NON_NULL t = t - t mod 2.
Proof.
  unfold WAH_TYPE_AS_NON_NULL.
  assert (Z.land t (Z.lnot 1) = Z.ldiff t 1) as -> by done.
  change 1 with (Z.ones 1). rewrite Z.ldiff_ones_r by lia.
  rewrite Z.shiftl_mul_pow2, Z.shiftr_div_pow2 by lia. change (2 ^ 1) with 2.
  pose proof (Z.div_mod t 2). lia.
Qed.

Lemma as_nullable_mod t : WAH_TYPE_AS_NULLABLE t = t - t mod 2 + 1.
Proof.
  unfold WAH_TYPE_AS_NULLABLE. pose proof (Z.add_lor_land t 1) as H.
  change (Z.land t 1) with (Z.land t (Z.ones 1)) in H. rewrite Z.land_ones in H by lia.
  change (2 ^ 1) with 2 in H. lia.
Qed.

Lemma tyidx_div t : WAH_TYIDX t = (t mod 2 ^ 32) / 2.
Proof. unfold WAH_TYIDX, u32. by rewrite Z.shiftr_div_pow2 by lia. Qed.

(** Turns the type macros into divisions by two, for [lia]. *)
Ltac type_arith :=
  rewrite ?is_nullable_mod, ?as_non_null_mod, ?as_nullable_mod, ?tyidx_div in *;
  unfold WAH_TYPE_IS_REF, WAH_TYPE_IS_PACKED in *;
  unfold WAH_TYPE_I32, WAH_TYPE_I64, WAH_TYPE_F32, WAH_TYPE_F64, WAH_TYPE_V128,
    WAH_TYPE_PACKED_I8, WAH_TYPE_PACKED_I16, WAH_TYPE_FUNC, WAH_TYPE_FUNCREF,
    WAH_TYPE_EXTERN, WAH_TYPE_EXTERNREF, WAH_TYPE_ANY, WAH_TYPE_ANYREF, WAH_TYPE_EQ,
    WAH_TYPE_EQREF, WAH_TYPE_I31, WAH_TYPE_I31REF, WAH_TYPE_STRUCT, WAH_TYPE_STRUCTREF,
    WAH_TYPE_ARRAY, WAH_TYPE_ARRAYREF, WAH_TYPE_EXN, WAH_TYPE_EXNREF, WAH_TYPE_NOFUNC,
    WAH_TYPE_NULLFUNCREF, WAH_TYPE_NOEXTERN, WAH_TYPE_NULLEXTERNREF, WAH_TYPE_NONE,
    WAH_TYPE_NULLREF, WAH_TYPE_NOEXN, WAH_TYPE_NULLEXNREF, WAH_TYPE_BOT in *.

Lemma max_type_index : WAH_MAX_TYPE_INDEX = 1073741823.
Proof. reflexivity. Qed.

Lemma from_idx_small i b :
  0 <= i <= WAH_MAX_TYPE_INDEX -> WAH_TYPE_FROM_IDX i b = i * 2 + b2z b.
Proof.
  rewrite max_type_index. intros Hi. unfold WAH_TYPE_FROM_IDX.
  assert (0 <= b2z b <= 1) by (destruct b; simpl; lia).
  rewrite u32_small by lia. unfold s32. apply sgn_small; simpl; lia.
Qed.

Lemma from_idx_nonneg i b :
  0 <= i <= WAH_MAX_TYPE_INDEX -> 0 <= WAH_TYPE_FROM_IDX i b.
Proof. intros. rewrite from_idx_small by done. destruct b; simpl; lia. Qed.

Lemma tyidx_from_idx i b :
  0 <= i <= WAH_MAX_TYPE_INDEX -> WAH_TYIDX (WAH_TYPE_FROM_IDX i b) = i.
Proof.
  intros Hi. rewrite from_idx_small, tyidx_div by done. rewrite max_type_index in Hi.
  assert (0 <= b2z b <= 1) by (destruct b; simpl; lia).
  rewrite Z.mod_small by lia. Z.to_euclidean_division_equations. lia.
Qed.

Lemma is_nullable_from_idx i b :
  0 <= i <= WAH_MAX_TYPE_INDEX -> WAH_TYPE_IS_NULLABLE (WAH_TYPE_FROM_IDX i b) = b.
Proof.
  intros. rewrite from_idx_small, is_nullable_mod by done.
  rewrite Z.add_comm, Z_mod_plus_full. by destruct b.
Qed.

(** A concrete type is its index and its nullability. *)
Lemma from_idx_tyidx t :
  0 <= t < 2 ^ 31 -> WAH_TYPE_FROM_IDX (WAH_TYIDX t) (WAH_TYPE_IS_NULLABLE t) = t.
Proof.
  intros Ht. rewrite tyidx_div, is_nullable_mod, Z.mod_small by lia.
  rewrite from_idx_small by (rewrite max_type_index; Z.to_euclidean_division_equations; lia).
  destruct (Z.eqb_spec (t mod 2) 1); simpl b2z;
    Z.to_euclidean_division_equations; lia.
Qed.

Lemma tyidx_bound t : 0 <= t < 2 ^ 31 -> 0 <= WAH_TYIDX t <= WAH_MAX_TYPE_INDEX.
Proof.
  intros. rewrite tyidx_div, max_type_index, Z.mod_small by lia.
  Z.to_euclidean_division_equations. lia.
Qed.

Lemma as_non_null_idem t : WAH_TYPE_AS_NON_NULL (WAH_TYPE_AS_NON_NULL t) = WAH_TYPE_AS_NON_NULL t.
Proof. rewrite !as_non_null_mod. Z.to_euclidean_division_equations. lia. Qed.

Lemma as_non_null_even t : WAH_TYPE_IS_NULLABLE (WAH_TYPE_AS_NON_NULL t) = false.
Proof. type_arith. Z.to_euclidean_division_equations. lia. Qed.

Lemma as_non_null_id t : WAH_TYPE_IS_NULLABLE t = false -> WAH_TYPE_AS_NON_NULL t = t.
Proof. type_arith. intros H. pose proof (Z.mod_pos_bound t 2). lia. Qed.

Lemma as_non_null_sign t : (0 <= WAH_TYPE_AS_NON_NULL t) <-> (0 <= t).
Proof. type_arith. Z.to_euclidean_division_equations. lia. Qed.

Lemma as_non_null_inj s t :
  WAH_TYPE_IS_NULLABLE s = WAH_TYPE_IS_NULLABLE t ->
  WAH_TYPE_AS_NON_NULL s = WAH_TYPE_AS_NON_NULL t -> s = t.
Proof.
  type_arith. pose proof (Z.mod_pos_bound s 2). pose proof (Z.mod_pos_bound t 2). lia.
Qed.

Lemma tyidx_as_non_null t :
  0 <= t < 2 ^ 31 -> WAH_TYIDX (WAH_TYPE_AS_NON_NULL t) = WAH_TYIDX t.
Proof.
  intros Ht. rewrite !tyidx_div, as_non_null_mod.
  rewrite !Z.mod_small by (Z.to_euclidean_division_equations; lia).
  Z.to_euclidean_division_equations. lia.
Qed.

Lemma comp_kind_eqb_spec a b : comp_kind_eqb a b = true <-> a = b.
Proof. destruct a, b; done. Qed.

#[export] Hint Rewrite is_nullable_from_idx tyidx_from_idx as_non_null_even as_non_null_idem
  using (done || lia) : wah.

(** ** Tagged references *)

Lemma land_ones31 x : Z.land x 2147483647 = x mod 2 ^ 31.
Proof. change 2147483647 with (Z.ones 31). apply Z.land_ones. lia. Qed.

Lemma make_i31_eq v : wah_ref_make_i31 v = 2 * (v mod 2 ^ 31) + 1.
Proof.
  unfold wah_ref_make_i31, WAH_I31_TAG. rewrite land_ones31.
  pose proof (Z.mod_pos_bound v (2 ^ 31) ltac:(lia)).
  rewrite u32_small by lia. rewrite Z.shiftl_mul_pow2 by lia. change (2 ^ 1) with 2.
  rewrite u64_small by lia.
  change (Z.lor (v mod 2 ^ 31 * 2) 1) with (WAH_TYPE_AS_NULLABLE (v mod 2 ^ 31 * 2)).
  rewrite as_nullable_mod, Z_mod_mult. lia.
Qed.

Lemma i31_get_u_make v : wah_ref_i31_get_u (wah_ref_make_i31 v) = v mod 2 ^ 31.
Proof.
  unfold wah_ref_i31_get_u. rewrite make_i31_eq, land_ones31, Z.shiftr_div_pow2 by lia.
  change (2 ^ 1) with 2. pose proof (Z.mod_pos_bound v (2 ^ 31) ltac:(lia)).
  replace ((2 * (v mod 2 ^ 31) + 1) / 2) with (v mod 2 ^ 31)
    by (Z.to_euclidean_division_equations; lia).
  unfold s32. rewrite sgn_small by (simpl; lia). apply Z.mod_mod. lia.
Qed.

(** [ref.i31] and its readers: the reference is tagged, never the null
    pointer, [i31.get_u] gives the low 31 bits zero-extended, [i31.get_s] gives
    them sign-extended, references are equal exactly when the low 31 bits are, and
    no pointer to an aligned object is taken for an i31. *)
Theorem wah_ref_i31_roundtrip v w p :
  wah_ref_is_i31 (wah_ref_make_i31 v) = true /\
  0 < wah_ref_make_i31 v < 2 ^ 64 /\
  wah_ref_i31_get_u (wah_ref_make_i31 v) = v mod 2 ^ 31 /\
  wah_ref_i31_get_s (wah_ref_make_i31 v) = sgn 31 v /\
  (wah_ref_make_i31 v = wah_ref_make_i31 w <-> v mod 2 ^ 31 = w mod 2 ^ 31) /\
  wah_ref_is_i31 (2 * p) = false.
Proof.
  pose proof (Z.mod_pos_bound v (2 ^ 31) ltac:(lia)) as Hb.
  change wah_ref_is_i31 with WAH_TYPE_IS_NULLABLE. rewrite !is_nullable_mod.
  repeat split.
  - rewrite make_i31_eq. Z.to_euclidean_division_equations. lia.
  - rewrite make_i31_eq. lia.
  - rewrite make_i31_eq. lia.
  - apply i31_get_u_make.
  - unfold wah_ref_i31_get_s. rewrite i31_get_u_make.
    change 1073741824 with (2 ^ 30). fold (has_bits (v mod 2 ^ 31) (2 ^ 30)).
    rewrite has_bits_pow2, Z.testbit_eqb by lia. unfold sgn. change (2 ^ (31 - 1)) with (2 ^ 30).
    destruct (Z.ltb_spec (v mod 2 ^ 31) (2 ^ 30)).
    + rewrite (Z.div_small _ (2 ^ 30)) by lia. done.
    + replace (v mod 2 ^ 31 / 2 ^ 30) with 1 by (apply Z.div_unique with (v mod 2 ^ 31 - 2 ^ 30); lia).
      change (1 mod 2 =? 1) with true. cbv iota.
      rewrite u32_small by lia. change 2147483648 with (1 * 2 ^ 31).
      rewrite lor_disjoint by lia. unfold s32, sgn. rewrite Z.mod_small by lia.
      destruct (Z.ltb_spec (v mod 2 ^ 31 + 1 * 2 ^ 31) (2 ^ (32 - 1))); lia.
  - rewrite !make_i31_eq. lia.
  - rewrite !make_i31_eq. lia.
  - rewrite Z.mul_comm, Z_mod_mult. done.
Qed.
