(* ===== verification/Opcodes.v ===== *)
(** * The opcode tables

    The X-macro listings of wah.h ([WAH_OPCODES], [WAH_GC_OPCODES],
    [WAH_SIMD_OPCODES], the extra and internal opcodes), the enumeration
    [wah_opcode_t] they generate and the lookup tables [wah_opclasses] and
    [wah_opcode_features].  The model is the configuration with every feature
    compiled in and no platform-specific opcodes ([WAH_FORCE_PORTABLE]). *)

From S2P Require Import Prelude Base.
#[local] Open Scope Z_scope.

(** ** Definitions *)

Definition WAH_FB : Z := 215.
Definition WAH_FC : Z := 246.
Definition WAH_FD : Z := 264.
Definition WAH_FE : Z := 540.

(** [wah_opclass_t]. *)
Inductive wah_opclass_t :=
| WAH_OPCLASS_MISSING | WAH_OPCLASS_ | WAH_OPCLASS__I_I | WAH_OPCLASS__I_L | WAH_OPCLASS__I_F | WAH_OPCLASS__I_D
| WAH_OPCLASS__I_V | WAH_OPCLASS__II_I | WAH_OPCLASS__IV_V | WAH_OPCLASS__L_I | WAH_OPCLASS__L_L | WAH_OPCLASS__L_F
| WAH_OPCLASS__L_D | WAH_OPCLASS__L_V | WAH_OPCLASS__LL_I | WAH_OPCLASS__LL_L | WAH_OPCLASS__LV_V | WAH_OPCLASS__F_I
| WAH_OPCLASS__F_L | WAH_OPCLASS__F_F | WAH_OPCLASS__F_V | WAH_OPCLASS__FF_I | WAH_OPCLASS__FF_F | WAH_OPCLASS__D_I
| WAH_OPCLASS__D_L | WAH_OPCLASS__D_D | WAH_OPCLASS__D_V | WAH_OPCLASS__DD_I | WAH_OPCLASS__DD_L | WAH_OPCLASS__DD_D
| WAH_OPCLASS__V_I | WAH_OPCLASS__V_V | WAH_OPCLASS__VI_V | WAH_OPCLASS__VV_V | WAH_OPCLASS__VVV_V | WAH_OPCLASS_B
| WAH_OPCLASS_I | WAH_OPCLASS_II | WAH_OPCLASS_M | WAH_OPCLASS_MB.

(** The instructions of [WAH_OPCODES], in the order of the listing. *)
Inductive wah_op :=
| WAH_OP_UNREACHABLE | WAH_OP_NOP | WAH_OP_BLOCK | WAH_OP_LOOP | WAH_OP_IF | WAH_OP_ELSE
| WAH_OP_END | WAH_OP_BR | WAH_OP_BR_IF | WAH_OP_BR_TABLE | WAH_OP_RETURN | WAH_OP_CALL
| WAH_OP_CALL_INDIRECT | WAH_OP_THROW | WAH_OP_THROW_REF | WAH_OP_RETURN_CALL | WAH_OP_RETURN_CALL_INDIRECT | WAH_OP_CALL_REF
| WAH_OP_RETURN_CALL_REF | WAH_OP_TRY_TABLE | WAH_OP_DROP | WAH_OP_SELECT | WAH_OP_SELECT_T | WAH_OP_LOCAL_GET
| WAH_OP_LOCAL_SET | WAH_OP_LOCAL_TEE | WAH_OP_GLOBAL_GET | WAH_OP_GLOBAL_SET | WAH_OP_TABLE_GET | WAH_OP_TABLE_SET
| WAH_OP_TABLE_INIT | WAH_OP_ELEM_DROP | WAH_OP_TABLE_COPY | WAH_OP_TABLE_GROW | WAH_OP_TABLE_SIZE | WAH_OP_TABLE_FILL
| WAH_OP_I32_LOAD | WAH_OP_I64_LOAD | WAH_OP_F32_LOAD | WAH_OP_F64_LOAD | WAH_OP_I32_LOAD8_S | WAH_OP_I32_LOAD8_U
| WAH_OP_I32_LOAD16_S | WAH_OP_I32_LOAD16_U | WAH_OP_I64_LOAD8_S | WAH_OP_I64_LOAD8_U | WAH_OP_I64_LOAD16_S | WAH_OP_I64_LOAD16_U
| WAH_OP_I64_LOAD32_S | WAH_OP_I64_LOAD32_U | WAH_OP_I32_STORE | WAH_OP_I64_STORE | WAH_OP_F32_STORE | WAH_OP_F64_STORE
| WAH_OP_I32_STORE8 | WAH_OP_I32_STORE16 | WAH_OP_I64_STORE8 | WAH_OP_I64_STORE16 | WAH_OP_I64_STORE32 | WAH_OP_MEMORY_SIZE
| WAH_OP_MEMORY_GROW | WAH_OP_MEMORY_INIT | WAH_OP_DATA_DROP | WAH_OP_MEMORY_COPY | WAH_OP_MEMORY_FILL | WAH_OP_I32_CONST
| WAH_OP_I64_CONST | WAH_OP_F32_CONST | WAH_OP_F64_CONST | WAH_OP_I32_EQZ | WAH_OP_I32_EQ | WAH_OP_I32_NE
| WAH_OP_I32_LT_S | WAH_OP_I32_LT_U | WAH_OP_I32_GT_S | WAH_OP_I32_GT_U | WAH_OP_I32_LE_S | WAH_OP_I32_LE_U
| WAH_OP_I32_GE_S | WAH_OP_I32_GE_U | WAH_OP_I64_EQZ | WAH_OP_I64_EQ | WAH_OP_I64_NE | WAH_OP_I64_LT_S
| WAH_OP_I64_LT_U | WAH_OP_I64_GT_S | WAH_OP_I64_GT_U | WAH_OP_I64_LE_S | WAH_OP_I64_LE_U | WAH_OP_I64_GE_S
| WAH_OP_I64_GE_U | WAH_OP_F32_EQ | WAH_OP_F32_NE | WAH_OP_F32_LT | WAH_OP_F32_GT | WAH_OP_F32_LE
| WAH_OP_F32_GE | WAH_OP_F64_EQ | WAH_OP_F64_NE | WAH_OP_F64_LT | WAH_OP_F64_GT | WAH_OP_F64_LE
| WAH_OP_F64_GE | WAH_OP_I32_CLZ | WAH_OP_I32_CTZ | WAH_OP_I32_POPCNT | WAH_OP_I32_ADD | WAH_OP_I32_SUB
| WAH_OP_I32_MUL | WAH_OP_I32_DIV_S | WAH_OP_I32_DIV_U | WAH_OP_I32_REM_S | WAH_OP_I32_REM_U | WAH_OP_I32_AND
| WAH_OP_I32_OR | WAH_OP_I32_XOR | WAH_OP_I32_SHL | WAH_OP_I32_SHR_S | WAH_OP_I32_SHR_U | WAH_OP_I32_ROTL
| WAH_OP_I32_ROTR | WAH_OP_I64_CLZ | WAH_OP_I64_CTZ | WAH_OP_I64_POPCNT | WAH_OP_I64_ADD | WAH_OP_I64_SUB
| WAH_OP_I64_MUL | WAH_OP_I64_DIV_S | WAH_OP_I64_DIV_U | WAH_OP_I64_REM_S | WAH_OP_I64_REM_U | WAH_OP_I64_AND
| WAH_OP_I64_OR | WAH_OP_I64_XOR | WAH_OP_I64_SHL | WAH_OP_I64_SHR_S | WAH_OP_I64_SHR_U | WAH_OP_I64_ROTL
| WAH_OP_I64_ROTR | WAH_OP_F32_ABS | WAH_OP_F32_NEG | WAH_OP_F32_CEIL | WAH_OP_F32_FLOOR | WAH_OP_F32_TRUNC
| WAH_OP_F32_NEAREST | WAH_OP_F32_SQRT | WAH_OP_F32_ADD | WAH_OP_F32_SUB | WAH_OP_F32_MUL | WAH_OP_F32_DIV
| WAH_OP_F32_MIN | WAH_OP_F32_MAX | WAH_OP_F32_COPYSIGN | WAH_OP_F64_ABS | WAH_OP_F64_NEG | WAH_OP_F64_CEIL
| WAH_OP_F64_FLOOR | WAH_OP_F64_TRUNC | WAH_OP_F64_NEAREST | WAH_OP_F64_SQRT | WAH_OP_F64_ADD | WAH_OP_F64_SUB
| WAH_OP_F64_MUL | WAH_OP_F64_DIV | WAH_OP_F64_MIN | WAH_OP_F64_MAX | WAH_OP_F64_COPYSIGN | WAH_OP_I32_WRAP_I64
| WAH_OP_I32_TRUNC_F32_S | WAH_OP_I32_TRUNC_F32_U | WAH_OP_I32_TRUNC_F64_S | WAH_OP_I32_TRUNC_F64_U | WAH_OP_I64_EXTEND_I32_S | WAH_OP_I64_EXTEND_I32_U
| WAH_OP_I64_TRUNC_F32_S | WAH_OP_I64_TRUNC_F32_U | WAH_OP_I64_TRUNC_F64_S | WAH_OP_I64_TRUNC_F64_U | WAH_OP_F32_CONVERT_I32_S | WAH_OP_F32_CONVERT_I32_U
| WAH_OP_F32_CONVERT_I64_S | WAH_OP_F32_CONVERT_I64_U | WAH_OP_F32_DEMOTE_F64 | WAH_OP_F64_CONVERT_I32_S | WAH_OP_F64_CONVERT_I32_U | WAH_OP_F64_CONVERT_I64_S
| WAH_OP_F64_CONVERT_I64_U | WAH_OP_F64_PROMOTE_F32 | WAH_OP_I32_REINTERPRET_F32 | WAH_OP_I64_REINTERPRET_F64 | WAH_OP_F32_REINTERPRET_I32 | WAH_OP_F64_REINTERPRET_I64
| WAH_OP_I32_EXTEND8_S | WAH_OP_I32_EXTEND16_S | WAH_OP_I64_EXTEND8_S | WAH_OP_I64_EXTEND16_S | WAH_OP_I64_EXTEND32_S | WAH_OP_I32_TRUNC_SAT_F32_S
| WAH_OP_I32_TRUNC_SAT_F32_U | WAH_OP_I32_TRUNC_SAT_F64_S | WAH_OP_I32_TRUNC_SAT_F64_U | WAH_OP_I64_TRUNC_SAT_F32_S | WAH_OP_I64_TRUNC_SAT_F32_U | WAH_OP_I64_TRUNC_SAT_F64_S
| WAH_OP_I64_TRUNC_SAT_F64_U | WAH_OP_REF_NULL | WAH_OP_REF_IS_NULL | WAH_OP_REF_FUNC | WAH_OP_REF_AS_NON_NULL | WAH_OP_BR_ON_NULL
| WAH_OP_BR_ON_NON_NULL | WAH_OP_REF_EQ | WAH_OP_STRUCT_NEW | WAH_OP_STRUCT_NEW_DEFAULT | WAH_OP_STRUCT_GET | WAH_OP_STRUCT_GET_S
| WAH_OP_STRUCT_GET_U | WAH_OP_STRUCT_SET | WAH_OP_ARRAY_NEW | WAH_OP_ARRAY_NEW_DEFAULT | WAH_OP_ARRAY_NEW_FIXED | WAH_OP_ARRAY_NEW_DATA
| WAH_OP_ARRAY_NEW_ELEM | WAH_OP_ARRAY_GET | WAH_OP_ARRAY_GET_S | WAH_OP_ARRAY_GET_U | WAH_OP_ARRAY_SET | WAH_OP_ARRAY_LEN
| WAH_OP_ARRAY_FILL | WAH_OP_ARRAY_COPY | WAH_OP_ARRAY_INIT_DATA | WAH_OP_ARRAY_INIT_ELEM | WAH_OP_REF_TEST | WAH_OP_REF_TEST_NULL
| WAH_OP_REF_CAST | WAH_OP_REF_CAST_NULL | WAH_OP_BR_ON_CAST | WAH_OP_BR_ON_CAST_FAIL | WAH_OP_ANY_CONVERT_EXTERN | WAH_OP_EXTERN_CONVERT_ANY
| WAH_OP_REF_I31 | WAH_OP_I31_GET_S | WAH_OP_I31_GET_U | WAH_OP_V128_LOAD | WAH_OP_V128_LOAD8X8_S | WAH_OP_V128_LOAD8X8_U
| WAH_OP_V128_LOAD16X4_S | WAH_OP_V128_LOAD16X4_U | WAH_OP_V128_LOAD32X2_S | WAH_OP_V128_LOAD32X2_U | WAH_OP_V128_LOAD8_SPLAT | WAH_OP_V128_LOAD16_SPLAT
| WAH_OP_V128_LOAD32_SPLAT | WAH_OP_V128_LOAD64_SPLAT | WAH_OP_V128_LOAD32_ZERO | WAH_OP_V128_LOAD64_ZERO | WAH_OP_V128_LOAD8_LANE | WAH_OP_V128_LOAD16_LANE
| WAH_OP_V128_LOAD32_LANE | WAH_OP_V128_LOAD64_LANE | WAH_OP_V128_STORE8_LANE | WAH_OP_V128_STORE16_LANE | WAH_OP_V128_STORE32_LANE | WAH_OP_V128_STORE64_LANE
| WAH_OP_V128_STORE | WAH_OP_I8X16_SHUFFLE | WAH_OP_I8X16_SWIZZLE | WAH_OP_I8X16_EXTRACT_LANE_S | WAH_OP_I8X16_EXTRACT_LANE_U | WAH_OP_I8X16_REPLACE_LANE
| WAH_OP_I16X8_EXTRACT_LANE_S | WAH_OP_I16X8_EXTRACT_LANE_U | WAH_OP_I16X8_REPLACE_LANE | WAH_OP_I32X4_EXTRACT_LANE | WAH_OP_I32X4_REPLACE_LANE | WAH_OP_I64X2_EXTRACT_LANE
| WAH_OP_I64X2_REPLACE_LANE | WAH_OP_F32X4_EXTRACT_LANE | WAH_OP_F32X4_REPLACE_LANE | WAH_OP_F64X2_EXTRACT_LANE | WAH_OP_F64X2_REPLACE_LANE | WAH_OP_I8X16_SPLAT
| WAH_OP_I16X8_SPLAT | WAH_OP_I32X4_SPLAT | WAH_OP_I64X2_SPLAT | WAH_OP_F32X4_SPLAT | WAH_OP_F64X2_SPLAT | WAH_OP_V128_CONST
| WAH_OP_V128_NOT | WAH_OP_V128_AND | WAH_OP_V128_ANDNOT | WAH_OP_V128_OR | WAH_OP_V128_XOR | WAH_OP_V128_BITSELECT
| WAH_OP_V128_ANY_TRUE | WAH_OP_I8X16_ABS | WAH_OP_I8X16_NEG | WAH_OP_I8X16_POPCNT | WAH_OP_I8X16_ALL_TRUE | WAH_OP_I8X16_BITMASK
| WAH_OP_I8X16_NARROW_I16X8_S | WAH_OP_I8X16_NARROW_I16X8_U | WAH_OP_I8X16_SHL | WAH_OP_I8X16_SHR_S | WAH_OP_I8X16_SHR_U | WAH_OP_I8X16_ADD
| WAH_OP_I8X16_ADD_SAT_S | WAH_OP_I8X16_ADD_SAT_U | WAH_OP_I8X16_SUB | WAH_OP_I8X16_SUB_SAT_S | WAH_OP_I8X16_SUB_SAT_U | WAH_OP_I8X16_MIN_S
| WAH_OP_I8X16_MIN_U | WAH_OP_I8X16_MAX_S | WAH_OP_I8X16_MAX_U | WAH_OP_I8X16_AVGR_U | WAH_OP_I16X8_EXTADD_PAIRWISE_I8X16_S | WAH_OP_I16X8_EXTADD_PAIRWISE_I8X16_U
| WAH_OP_I16X8_ABS | WAH_OP_I16X8_NEG | WAH_OP_I16X8_Q15MULR_SAT_S | WAH_OP_I16X8_ALL_TRUE | WAH_OP_I16X8_BITMASK | WAH_OP_I16X8_NARROW_I32X4_S
| WAH_OP_I16X8_NARROW_I32X4_U | WAH_OP_I16X8_EXTEND_LOW_I8X16_S | WAH_OP_I16X8_EXTEND_HIGH_I8X16_S | WAH_OP_I16X8_EXTEND_LOW_I8X16_U | WAH_OP_I16X8_EXTEND_HIGH_I8X16_U | WAH_OP_I16X8_SHL
| WAH_OP_I16X8_SHR_S | WAH_OP_I16X8_SHR_U | WAH_OP_I16X8_ADD | WAH_OP_I16X8_ADD_SAT_S | WAH_OP_I16X8_ADD_SAT_U | WAH_OP_I16X8_SUB
| WAH_OP_I16X8_SUB_SAT_S | WAH_OP_I16X8_SUB_SAT_U | WAH_OP_I16X8_MUL | WAH_OP_I16X8_MIN_S | WAH_OP_I16X8_MIN_U | WAH_OP_I16X8_MAX_S
| WAH_OP_I16X8_MAX_U | WAH_OP_I16X8_AVGR_U | WAH_OP_I16X8_EXTMUL_LOW_I8X16_S | WAH_OP_I16X8_EXTMUL_HIGH_I8X16_S | WAH_OP_I16X8_EXTMUL_LOW_I8X16_U | WAH_OP_I16X8_EXTMUL_HIGH_I8X16_U
| WAH_OP_I32X4_EXTADD_PAIRWISE_I16X8_S | WAH_OP_I32X4_EXTADD_PAIRWISE_I16X8_U | WAH_OP_I32X4_ABS | WAH_OP_I32X4_NEG | WAH_OP_I32X4_ALL_TRUE | WAH_OP_I32X4_BITMASK
| WAH_OP_I32X4_EXTEND_LOW_I16X8_S | WAH_OP_I32X4_EXTEND_HIGH_I16X8_S | WAH_OP_I32X4_EXTEND_LOW_I16X8_U | WAH_OP_I32X4_EXTEND_HIGH_I16X8_U | WAH_OP_I32X4_SHL | WAH_OP_I32X4_SHR_S
| WAH_OP_I32X4_SHR_U | WAH_OP_I32X4_ADD | WAH_OP_I32X4_SUB | WAH_OP_I32X4_MUL | WAH_OP_I32X4_MIN_S | WAH_OP_I32X4_MIN_U
| WAH_OP_I32X4_MAX_S | WAH_OP_I32X4_MAX_U | WAH_OP_I32X4_DOT_I16X8_S | WAH_OP_I32X4_EXTMUL_LOW_I16X8_S | WAH_OP_I32X4_EXTMUL_HIGH_I16X8_S | WAH_OP_I32X4_EXTMUL_LOW_I16X8_U
| WAH_OP_I32X4_EXTMUL_HIGH_I16X8_U | WAH_OP_I64X2_ABS | WAH_OP_I64X2_NEG | WAH_OP_I64X2_ALL_TRUE | WAH_OP_I64X2_BITMASK | WAH_OP_I64X2_EXTEND_LOW_I32X4_S
| WAH_OP_I64X2_EXTEND_HIGH_I32X4_S | WAH_OP_I64X2_EXTEND_LOW_I32X4_U | WAH_OP_I64X2_EXTEND_HIGH_I32X4_U | WAH_OP_I64X2_SHL | WAH_OP_I64X2_SHR_S | WAH_OP_I64X2_SHR_U
| WAH_OP_I64X2_ADD | WAH_OP_I64X2_SUB | WAH_OP_I64X2_MUL | WAH_OP_I64X2_EXTMUL_LOW_I32X4_S | WAH_OP_I64X2_EXTMUL_HIGH_I32X4_S | WAH_OP_I64X2_EXTMUL_LOW_I32X4_U
| WAH_OP_I64X2_EXTMUL_HIGH_I32X4_U | WAH_OP_F32X4_CEIL | WAH_OP_F32X4_FLOOR | WAH_OP_F32X4_TRUNC | WAH_OP_F32X4_NEAREST | WAH_OP_F32X4_ABS
| WAH_OP_F32X4_NEG | WAH_OP_F32X4_SQRT | WAH_OP_F32X4_ADD | WAH_OP_F32X4_SUB | WAH_OP_F32X4_MUL | WAH_OP_F32X4_DIV
| WAH_OP_F32X4_MIN | WAH_OP_F32X4_MAX | WAH_OP_F32X4_PMIN | WAH_OP_F32X4_PMAX | WAH_OP_F64X2_CEIL | WAH_OP_F64X2_FLOOR
| WAH_OP_F64X2_TRUNC | WAH_OP_F64X2_NEAREST | WAH_OP_F64X2_ABS | WAH_OP_F64X2_NEG | WAH_OP_F64X2_SQRT | WAH_OP_F64X2_ADD
| WAH_OP_F64X2_SUB | WAH_OP_F64X2_MUL | WAH_OP_F64X2_DIV | WAH_OP_F64X2_MIN | WAH_OP_F64X2_MAX | WAH_OP_F64X2_PMIN
| WAH_OP_F64X2_PMAX | WAH_OP_I32X4_TRUNC_SAT_F32X4_S | WAH_OP_I32X4_TRUNC_SAT_F32X4_U | WAH_OP_F32X4_CONVERT_I32X4_S | WAH_OP_F32X4_CONVERT_I32X4_U | WAH_OP_I32X4_TRUNC_SAT_F64X2_S_ZERO
| WAH_OP_I32X4_TRUNC_SAT_F64X2_U_ZERO | WAH_OP_F64X2_CONVERT_LOW_I32X4_S | WAH_OP_F64X2_CONVERT_LOW_I32X4_U | WAH_OP_F32X4_DEMOTE_F64X2_ZERO | WAH_OP_F64X2_PROMOTE_LOW_F32X4 | WAH_OP_I8X16_RELAXED_SWIZZLE
| WAH_OP_I32X4_RELAXED_TRUNC_F32X4_S | WAH_OP_I32X4_RELAXED_TRUNC_F32X4_U | WAH_OP_I32X4_RELAXED_TRUNC_F64X2_S | WAH_OP_I32X4_RELAXED_TRUNC_F64X2_U | WAH_OP_F32X4_RELAXED_MADD | WAH_OP_F32X4_RELAXED_NMADD
| WAH_OP_F64X2_RELAXED_MADD | WAH_OP_F64X2_RELAXED_NMADD | WAH_OP_I8X16_RELAXED_LANESELECT | WAH_OP_I16X8_RELAXED_LANESELECT | WAH_OP_I32X4_RELAXED_LANESELECT | WAH_OP_I64X2_RELAXED_LANESELECT
| WAH_OP_F32X4_RELAXED_MIN | WAH_OP_F32X4_RELAXED_MAX | WAH_OP_F64X2_RELAXED_MIN | WAH_OP_F64X2_RELAXED_MAX | WAH_OP_I16X8_RELAXED_Q15MULR_S | WAH_OP_I16X8_RELAXED_DOT_I8X16_I7X16_S
| WAH_OP_I32X4_RELAXED_DOT_I8X16_I7X16_ADD_S | WAH_OP_I8X16_EQ | WAH_OP_I8X16_NE | WAH_OP_I8X16_LT_S | WAH_OP_I8X16_LT_U | WAH_OP_I8X16_GT_S
| WAH_OP_I8X16_GT_U | WAH_OP_I8X16_LE_S | WAH_OP_I8X16_LE_U | WAH_OP_I8X16_GE_S | WAH_OP_I8X16_GE_U | WAH_OP_I16X8_EQ
| WAH_OP_I16X8_NE | WAH_OP_I16X8_LT_S | WAH_OP_I16X8_LT_U | WAH_OP_I16X8_GT_S | WAH_OP_I16X8_GT_U | WAH_OP_I16X8_LE_S
| WAH_OP_I16X8_LE_U | WAH_OP_I16X8_GE_S | WAH_OP_I16X8_GE_U | WAH_OP_I32X4_EQ | WAH_OP_I32X4_NE | WAH_OP_I32X4_LT_S
| WAH_OP_I32X4_LT_U | WAH_OP_I32X4_GT_S | WAH_OP_I32X4_GT_U | WAH_OP_I32X4_LE_S | WAH_OP_I32X4_LE_U | WAH_OP_I32X4_GE_S
| WAH_OP_I32X4_GE_U | WAH_OP_I64X2_EQ | WAH_OP_I64X2_NE | WAH_OP_I64X2_LT_S | WAH_OP_I64X2_GT_S | WAH_OP_I64X2_LE_S
| WAH_OP_I64X2_GE_S | WAH_OP_F32X4_EQ | WAH_OP_F32X4_NE | WAH_OP_F32X4_LT | WAH_OP_F32X4_GT | WAH_OP_F32X4_LE
| WAH_OP_F32X4_GE | WAH_OP_F64X2_EQ | WAH_OP_F64X2_NE | WAH_OP_F64X2_LT | WAH_OP_F64X2_GT | WAH_OP_F64X2_LE
| WAH_OP_F64X2_GE.

(** The enumerators [WAH_OP_name = val] of [wah_opcode_t]. *)
Definition wah_op_value (op : wah_op) : Z :=
  match op with
  | WAH_OP_UNREACHABLE => 0
  | WAH_OP_NOP => 1
  | WAH_OP_BLOCK => 2
  | WAH_OP_LOOP => 3
  | WAH_OP_IF => 4
  | WAH_OP_ELSE => 5
  | WAH_OP_END => 11
  | WAH_OP_BR => 12
  | WAH_OP_BR_IF => 13
  | WAH_OP_BR_TABLE => 14
  | WAH_OP_RETURN => 15
  | WAH_OP_CALL => 16
  | WAH_OP_CALL_INDIRECT => 17
  | WAH_OP_THROW => 8
  | WAH_OP_THROW_REF => 10
  | WAH_OP_RETURN_CALL => 18
  | WAH_OP_RETURN_CALL_INDIRECT => 19
  | WAH_OP_CALL_REF => 20
  | WAH_OP_RETURN_CALL_REF => 21
  | WAH_OP_TRY_TABLE => 31
  | WAH_OP_DROP => 26
  | WAH_OP_SELECT => 27
  | WAH_OP_SELECT_T => 28
  | WAH_OP_LOCAL_GET => 32
  | WAH_OP_LOCAL_SET => 33
  | WAH_OP_LOCAL_TEE => 34
  | WAH_OP_GLOBAL_GET => 35
  | WAH_OP_GLOBAL_SET => 36
  | WAH_OP_TABLE_GET => 37
  | WAH_OP_TABLE_SET => 38
  | WAH_OP_TABLE_INIT => WAH_FC + 12
  | WAH_OP_ELEM_DROP => WAH_FC + 13
  | WAH_OP_TABLE_COPY => WAH_FC + 14
  | WAH_OP_TABLE_GROW => WAH_FC + 15
  | WAH_OP_TABLE_SIZE => WAH_FC + 16
  | WAH_OP_TABLE_FILL => WAH_FC + 17
  | WAH_OP_I32_LOAD => 40
  | WAH_OP_I64_LOAD => 41
  | WAH_OP_F32_LOAD => 42
  | WAH_OP_F64_LOAD => 43
  | WAH_OP_I32_LOAD8_S => 44
  | WAH_OP_I32_LOAD8_U => 45
  | WAH_OP_I32_LOAD16_S => 46
  | WAH_OP_I32_LOAD16_U => 47
  | WAH_OP_I64_LOAD8_S => 48
  | WAH_OP_I64_LOAD8_U => 49
  | WAH_OP_I64_LOAD16_S => 50
  | WAH_OP_I64_LOAD16_U => 51
  | WAH_OP_I64_LOAD32_S => 52
  | WAH_OP_I64_LOAD32_U => 53
  | WAH_OP_I32_STORE => 54
  | WAH_OP_I64_STORE => 55
  | WAH_OP_F32_STORE => 56
  | WAH_OP_F64_STORE => 57
  | WAH_OP_I32_STORE8 => 58
  | WAH_OP_I32_STORE16 => 59
  | WAH_OP_I64_STORE8 => 60
  | WAH_OP_I64_STORE16 => 61
  | WAH_OP_I64_STORE32 => 62
  | WAH_OP_MEMORY_SIZE => 63
  | WAH_OP_MEMORY_GROW => 64
  | WAH_OP_MEMORY_INIT => WAH_FC + 8
  | WAH_OP_DATA_DROP => WAH_FC + 9
  | WAH_OP_MEMORY_COPY => WAH_FC + 10
  | WAH_OP_MEMORY_FILL => WAH_FC + 11
  | WAH_OP_I32_CONST => 65
  | WAH_OP_I64_CONST => 66
  | WAH_OP_F32_CONST => 67
  | WAH_OP_F64_CONST => 68
  | WAH_OP_I32_EQZ => 69
  | WAH_OP_I32_EQ => 70
  | WAH_OP_I32_NE => 71
  | WAH_OP_I32_LT_S => 72
  | WAH_OP_I32_LT_U => 73
  | WAH_OP_I32_GT_S => 74
  | WAH_OP_I32_GT_U => 75
  | WAH_OP_I32_LE_S => 76
  | WAH_OP_I32_LE_U => 77
  | WAH_OP_I32_GE_S => 78
  | WAH_OP_I32_GE_U => 79
  | WAH_OP_I64_EQZ => 80
  | WAH_OP_I64_EQ => 81
  | WAH_OP_I64_NE => 82
  | WAH_OP_I64_LT_S => 83
  | WAH_OP_I64_LT_U => 84
  | WAH_OP_I64_GT_S => 85
  | WAH_OP_I64_GT_U => 86
  | WAH_OP_I64_LE_S => 87
  | WAH_OP_I64_LE_U => 88
  | WAH_OP_I64_GE_S => 89
  | WAH_OP_I64_GE_U => 90
  | WAH_OP_F32_EQ => 91
  | WAH_OP_F32_NE => 92
  | WAH_OP_F32_LT => 93
  | WAH_OP_F32_GT => 94
  | WAH_OP_F32_LE => 95
  | WAH_OP_F32_GE => 96
  | WAH_OP_F64_EQ => 97
  | WAH_OP_F64_NE => 98
  | WAH_OP_F64_LT => 99
  | WAH_OP_F64_GT => 100
  | WAH_OP_F64_LE => 101
  | WAH_OP_F64_GE => 102
  | WAH_OP_I32_CLZ => 103
  | WAH_OP_I32_CTZ => 104
  | WAH_OP_I32_POPCNT => 105
  | WAH_OP_I32_ADD => 106
  | WAH_OP_I32_SUB => 107
  | WAH_OP_I32_MUL => 108
  | WAH_OP_I32_DIV_S => 109
  | WAH_OP_I32_DIV_U => 110
  | WAH_OP_I32_REM_S => 111
  | WAH_OP_I32_REM_U => 112
  | WAH_OP_I32_AND => 113
  | WAH_OP_I32_OR => 114
  | WAH_OP_I32_XOR => 115
  | WAH_OP_I32_SHL => 116
  | WAH_OP_I32_SHR_S => 117
  | WAH_OP_I32_SHR_U => 118
  | WAH_OP_I32_ROTL => 119
  | WAH_OP_I32_ROTR => 120
  | WAH_OP_I64_CLZ => 121
  | WAH_OP_I64_CTZ => 122
  | WAH_OP_I64_POPCNT => 123
  | WAH_OP_I64_ADD => 124
  | WAH_OP_I64_SUB => 125
  | WAH_OP_I64_MUL => 126
  | WAH_OP_I64_DIV_S => 127
  | WAH_OP_I64_DIV_U => 128
  | WAH_OP_I64_REM_S => 129
  | WAH_OP_I64_REM_U => 130
  | WAH_OP_I64_AND => 131
  | WAH_OP_I64_OR => 132
  | WAH_OP_I64_XOR => 133
  | WAH_OP_I64_SHL => 134
  | WAH_OP_I64_SHR_S => 135
  | WAH_OP_I64_SHR_U => 136
  | WAH_OP_I64_ROTL => 137
  | WAH_OP_I64_ROTR => 138
  | WAH_OP_F32_ABS => 139
  | WAH_OP_F32_NEG => 140
  | WAH_OP_F32_CEIL => 141
  | WAH_OP_F32_FLOOR => 142
  | WAH_OP_F32_TRUNC => 143
  | WAH_OP_F32_NEAREST => 144
  | WAH_OP_F32_SQRT => 145
  | WAH_OP_F32_ADD => 146
  | WAH_OP_F32_SUB => 147
  | WAH_OP_F32_MUL => 148
  | WAH_OP_F32_DIV => 149
  | WAH_OP_F32_MIN => 150
  | WAH_OP_F32_MAX => 151
  | WAH_OP_F32_COPYSIGN => 152
  | WAH_OP_F64_ABS => 153
  | WAH_OP_F64_NEG => 154
  | WAH_OP_F64_CEIL => 155
  | WAH_OP_F64_FLOOR => 156
  | WAH_OP_F64_TRUNC => 157
  | WAH_OP_F64_NEAREST => 158
  | WAH_OP_F64_SQRT => 159
  | WAH_OP_F64_ADD => 160
  | WAH_OP_F64_SUB => 161
  | WAH_OP_F64_MUL => 162
  | WAH_OP_F64_DIV => 163
  | WAH_OP_F64_MIN => 164
  | WAH_OP_F64_MAX => 165
  | WAH_OP_F64_COPYSIGN => 166
  | WAH_OP_I32_WRAP_I64 => 167
  | WAH_OP_I32_TRUNC_F32_S => 168
  | WAH_OP_I32_TRUNC_F32_U => 169
  | WAH_OP_I32_TRUNC_F64_S => 170
  | WAH_OP_I32_TRUNC_F64_U => 171
  | WAH_OP_I64_EXTEND_I32_S => 172
  | WAH_OP_I64_EXTEND_I32_U => 173
  | WAH_OP_I64_TRUNC_F32_S => 174
  | WAH_OP_I64_TRUNC_F32_U => 175
  | WAH_OP_I64_TRUNC_F64_S => 176
  | WAH_OP_I64_TRUNC_F64_U => 177
  | WAH_OP_F32_CONVERT_I32_S => 178
  | WAH_OP_F32_CONVERT_I32_U => 179
  | WAH_OP_F32_CONVERT_I64_S => 180
  | WAH_OP_F32_CONVERT_I64_U => 181
  | WAH_OP_F32_DEMOTE_F64 => 182
  | WAH_OP_F64_CONVERT_I32_S => 183
  | WAH_OP_F64_CONVERT_I32_U => 184
  | WAH_OP_F64_CONVERT_I64_S => 185
  | WAH_OP_F64_CONVERT_I64_U => 186
  | WAH_OP_F64_PROMOTE_F32 => 187
  | WAH_OP_I32_REINTERPRET_F32 => 188
  | WAH_OP_I64_REINTERPRET_F64 => 189
  | WAH_OP_F32_REINTERPRET_I32 => 190
  | WAH_OP_F64_REINTERPRET_I64 => 191
  | WAH_OP_I32_EXTEND8_S => 192
  | WAH_OP_I32_EXTEND16_S => 193
  | WAH_OP_I64_EXTEND8_S => 194
  | WAH_OP_I64_EXTEND16_S => 195
  | WAH_OP_I64_EXTEND32_S => 196
  | WAH_OP_I32_TRUNC_SAT_F32_S => WAH_FC + 0
  | WAH_OP_I32_TRUNC_SAT_F32_U => WAH_FC + 1
  | WAH_OP_I32_TRUNC_SAT_F64_S => WAH_FC + 2
  | WAH_OP_I32_TRUNC_SAT_F64_U => WAH_FC + 3
  | WAH_OP_I64_TRUNC_SAT_F32_S => WAH_FC + 4
  | WAH_OP_I64_TRUNC_SAT_F32_U => WAH_FC + 5
  | WAH_OP_I64_TRUNC_SAT_F64_S => WAH_FC + 6
  | WAH_OP_I64_TRUNC_SAT_F64_U => WAH_FC + 7
  | WAH_OP_REF_NULL => 208
  | WAH_OP_REF_IS_NULL => 209
  | WAH_OP_REF_FUNC => 210
  | WAH_OP_REF_AS_NON_NULL => 212
  | WAH_OP_BR_ON_NULL => 213
  | WAH_OP_BR_ON_NON_NULL => 214
  | WAH_OP_REF_EQ => 211
  | WAH_OP_STRUCT_NEW => WAH_FB + 0
  | WAH_OP_STRUCT_NEW_DEFAULT => WAH_FB + 1
  | WAH_OP_STRUCT_GET => WAH_FB + 2
  | WAH_OP_STRUCT_GET_S => WAH_FB + 3
  | WAH_OP_STRUCT_GET_U => WAH_FB + 4
  | WAH_OP_STRUCT_SET => WAH_FB + 5
  | WAH_OP_ARRAY_NEW => WAH_FB + 6
  | WAH_OP_ARRAY_NEW_DEFAULT => WAH_FB + 7
  | WAH_OP_ARRAY_NEW_FIXED => WAH_FB + 8
  | WAH_OP_ARRAY_NEW_DATA => WAH_FB + 9
  | WAH_OP_ARRAY_NEW_ELEM => WAH_FB + 10
  | WAH_OP_ARRAY_GET => WAH_FB + 11
  | WAH_OP_ARRAY_GET_S => WAH_FB + 12
  | WAH_OP_ARRAY_GET_U => WAH_FB + 13
  | WAH_OP_ARRAY_SET => WAH_FB + 14
  | WAH_OP_ARRAY_LEN => WAH_FB + 15
  | WAH_OP_ARRAY_FILL => WAH_FB + 16
  | WAH_OP_ARRAY_COPY => WAH_FB + 17
  | WAH_OP_ARRAY_INIT_DATA => WAH_FB + 18
  | WAH_OP_ARRAY_INIT_ELEM => WAH_FB + 19
  | WAH_OP_REF_TEST => WAH_FB + 20
  | WAH_OP_REF_TEST_NULL => WAH_FB + 21
  | WAH_OP_REF_CAST => WAH_FB + 22
  | WAH_OP_REF_CAST_NULL => WAH_FB + 23
  | WAH_OP_BR_ON_CAST => WAH_FB + 24
  | WAH_OP_BR_ON_CAST_FAIL => WAH_FB + 25
  | WAH_OP_ANY_CONVERT_EXTERN => WAH_FB + 26
  | WAH_OP_EXTERN_CONVERT_ANY => WAH_FB + 27
  | WAH_OP_REF_I31 => WAH_FB + 28
  | WAH_OP_I31_GET_S => WAH_FB + 29
  | WAH_OP_I31_GET_U => WAH_FB + 30
  | WAH_OP_V128_LOAD => WAH_FD + 0
  | WAH_OP_V128_LOAD8X8_S => WAH_FD + 1
  | WAH_OP_V128_LOAD8X8_U => WAH_FD + 2
  | WAH_OP_V128_LOAD16X4_S => WAH_FD + 3
  | WAH_OP_V128_LOAD16X4_U => WAH_FD + 4
  | WAH_OP_V128_LOAD32X2_S => WAH_FD + 5
  | WAH_OP_V128_LOAD32X2_U => WAH_FD + 6
  | WAH_OP_V128_LOAD8_SPLAT => WAH_FD + 7
  | WAH_OP_V128_LOAD16_SPLAT => WAH_FD + 8
  | WAH_OP_V128_LOAD32_SPLAT => WAH_FD + 9
  | WAH_OP_V128_LOAD64_SPLAT => WAH_FD + 10
  | WAH_OP_V128_LOAD32_ZERO => WAH_FD + 92
  | WAH_OP_V128_LOAD64_ZERO => WAH_FD + 93
  | WAH_OP_V128_LOAD8_LANE => WAH_FD + 84
  | WAH_OP_V128_LOAD16_LANE => WAH_FD + 85
  | WAH_OP_V128_LOAD32_LANE => WAH_FD + 86
  | WAH_OP_V128_LOAD64_LANE => WAH_FD + 87
  | WAH_OP_V128_STORE8_LANE => WAH_FD + 88
  | WAH_OP_V128_STORE16_LANE => WAH_FD + 89
  | WAH_OP_V128_STORE32_LANE => WAH_FD + 90
  | WAH_OP_V128_STORE64_LANE => WAH_FD + 91
  | WAH_OP_V128_STORE => WAH_FD + 11
  | WAH_OP_I8X16_SHUFFLE => WAH_FD + 13
  | WAH_OP_I8X16_SWIZZLE => WAH_FD + 14
  | WAH_OP_I8X16_EXTRACT_LANE_S => WAH_FD + 21
  | WAH_OP_I8X16_EXTRACT_LANE_U => WAH_FD + 22
  | WAH_OP_I8X16_REPLACE_LANE => WAH_FD + 23
  | WAH_OP_I16X8_EXTRACT_LANE_S => WAH_FD + 24
  | WAH_OP_I16X8_EXTRACT_LANE_U => WAH_FD + 25
  | WAH_OP_I16X8_REPLACE_LANE => WAH_FD + 26
  | WAH_OP_I32X4_EXTRACT_LANE => WAH_FD + 27
  | WAH_OP_I32X4_REPLACE_LANE => WAH_FD + 28
  | WAH_OP_I64X2_EXTRACT_LANE => WAH_FD + 29
  | WAH_OP_I64X2_REPLACE_LANE => WAH_FD + 30
  | WAH_OP_F32X4_EXTRACT_LANE => WAH_FD + 31
  | WAH_OP_F32X4_REPLACE_LANE => WAH_FD + 32
  | WAH_OP_F64X2_EXTRACT_LANE => WAH_FD + 33
  | WAH_OP_F64X2_REPLACE_LANE => WAH_FD + 34
  | WAH_OP_I8X16_SPLAT => WAH_FD + 15
  | WAH_OP_I16X8_SPLAT => WAH_FD + 16
  | WAH_OP_I32X4_SPLAT => WAH_FD + 17
  | WAH_OP_I64X2_SPLAT => WAH_FD + 18
  | WAH_OP_F32X4_SPLAT => WAH_FD + 19
  | WAH_OP_F64X2_SPLAT => WAH_FD + 20
  | WAH_OP_V128_CONST => WAH_FD + 12
  | WAH_OP_V128_NOT => WAH_FD + 77
  | WAH_OP_V128_AND => WAH_FD + 78
  | WAH_OP_V128_ANDNOT => WAH_FD + 79
  | WAH_OP_V128_OR => WAH_FD + 80
  | WAH_OP_V128_XOR => WAH_FD + 81
  | WAH_OP_V128_BITSELECT => WAH_FD + 82
  | WAH_OP_V128_ANY_TRUE => WAH_FD + 83
  | WAH_OP_I8X16_ABS => WAH_FD + 96
  | WAH_OP_I8X16_NEG => WAH_FD + 97
  | WAH_OP_I8X16_POPCNT => WAH_FD + 98
  | WAH_OP_I8X16_ALL_TRUE => WAH_FD + 99
  | WAH_OP_I8X16_BITMASK => WAH_FD + 100
  | WAH_OP_I8X16_NARROW_I16X8_S => WAH_FD + 101
  | WAH_OP_I8X16_NARROW_I16X8_U => WAH_FD + 102
  | WAH_OP_I8X16_SHL => WAH_FD + 107
  | WAH_OP_I8X16_SHR_S => WAH_FD + 108
  | WAH_OP_I8X16_SHR_U => WAH_FD + 109
  | WAH_OP_I8X16_ADD => WAH_FD + 110
  | WAH_OP_I8X16_ADD_SAT_S => WAH_FD + 111
  | WAH_OP_I8X16_ADD_SAT_U => WAH_FD + 112
  | WAH_OP_I8X16_SUB => WAH_FD + 113
  | WAH_OP_I8X16_SUB_SAT_S => WAH_FD + 114
  | WAH_OP_I8X16_SUB_SAT_U => WAH_FD + 115
  | WAH_OP_I8X16_MIN_S => WAH_FD + 118
  | WAH_OP_I8X16_MIN_U => WAH_FD + 119
  | WAH_OP_I8X16_MAX_S => WAH_FD + 120
  | WAH_OP_I8X16_MAX_U => WAH_FD + 121
  | WAH_OP_I8X16_AVGR_U => WAH_FD + 123
  | WAH_OP_I16X8_EXTADD_PAIRWISE_I8X16_S => WAH_FD + 124
  | WAH_OP_I16X8_EXTADD_PAIRWISE_I8X16_U => WAH_FD + 125
  | WAH_OP_I16X8_ABS => WAH_FD + 128
  | WAH_OP_I16X8_NEG => WAH_FD + 129
  | WAH_OP_I16X8_Q15MULR_SAT_S => WAH_FD + 130
  | WAH_OP_I16X8_ALL_TRUE => WAH_FD + 131
  | WAH_OP_I16X8_BITMASK => WAH_FD + 132
  | WAH_OP_I16X8_NARROW_I32X4_S => WAH_FD + 133
  | WAH_OP_I16X8_NARROW_I32X4_U => WAH_FD + 134
  | WAH_OP_I16X8_EXTEND_LOW_I8X16_S => WAH_FD + 135
  | WAH_OP_I16X8_EXTEND_HIGH_I8X16_S => WAH_FD + 136
  | WAH_OP_I16X8_EXTEND_LOW_I8X16_U => WAH_FD + 137
  | WAH_OP_I16X8_EXTEND_HIGH_I8X16_U => WAH_FD + 138
  | WAH_OP_I16X8_SHL => WAH_FD + 139
  | WAH_OP_I16X8_SHR_S => WAH_FD + 140
  | WAH_OP_I16X8_SHR_U => WAH_FD + 141
  | WAH_OP_I16X8_ADD => WAH_FD + 142
  | WAH_OP_I16X8_ADD_SAT_S => WAH_FD + 143
  | WAH_OP_I16X8_ADD_SAT_U => WAH_FD + 144
  | WAH_OP_I16X8_SUB => WAH_FD + 145
  | WAH_OP_I16X8_SUB_SAT_S => WAH_FD + 146
  | WAH_OP_I16X8_SUB_SAT_U => WAH_FD + 147
  | WAH_OP_I16X8_MUL => WAH_FD + 149
  | WAH_OP_I16X8_MIN_S => WAH_FD + 150
  | WAH_OP_I16X8_MIN_U => WAH_FD + 151
  | WAH_OP_I16X8_MAX_S => WAH_FD + 152
  | WAH_OP_I16X8_MAX_U => WAH_FD + 153
  | WAH_OP_I16X8_AVGR_U => WAH_FD + 155
  | WAH_OP_I16X8_EXTMUL_LOW_I8X16_S => WAH_FD + 156
  | WAH_OP_I16X8_EXTMUL_HIGH_I8X16_S => WAH_FD + 157
  | WAH_OP_I16X8_EXTMUL_LOW_I8X16_U => WAH_FD + 158
  | WAH_OP_I16X8_EXTMUL_HIGH_I8X16_U => WAH_FD + 159
  | WAH_OP_I32X4_EXTADD_PAIRWISE_I16X8_S => WAH_FD + 126
  | WAH_OP_I32X4_EXTADD_PAIRWISE_I16X8_U => WAH_FD + 127
  | WAH_OP_I32X4_ABS => WAH_FD + 160
  | WAH_OP_I32X4_NEG => WAH_FD + 161
  | WAH_OP_I32X4_ALL_TRUE => WAH_FD + 163
  | WAH_OP_I32X4_BITMASK => WAH_FD + 164
  | WAH_OP_I32X4_EXTEND_LOW_I16X8_S => WAH_FD + 167
  | WAH_OP_I32X4_EXTEND_HIGH_I16X8_S => WAH_FD + 168
  | WAH_OP_I32X4_EXTEND_LOW_I16X8_U => WAH_FD + 169
  | WAH_OP_I32X4_EXTEND_HIGH_I16X8_U => WAH_FD + 170
  | WAH_OP_I32X4_SHL => WAH_FD + 171
  | WAH_OP_I32X4_SHR_S => WAH_FD + 172
  | WAH_OP_I32X4_SHR_U => WAH_FD + 173
  | WAH_OP_I32X4_ADD => WAH_FD + 174
  | WAH_OP_I32X4_SUB => WAH_FD + 177
  | WAH_OP_I32X4_MUL => WAH_FD + 181
  | WAH_OP_I32X4_MIN_S => WAH_FD + 182
  | WAH_OP_I32X4_MIN_U => WAH_FD + 183
  | WAH_OP_I32X4_MAX_S => WAH_FD + 184
  | WAH_OP_I32X4_MAX_U => WAH_FD + 185
  | WAH_OP_I32X4_DOT_I16X8_S => WAH_FD + 186
  | WAH_OP_I32X4_EXTMUL_LOW_I16X8_S => WAH_FD + 188
  | WAH_OP_I32X4_EXTMUL_HIGH_I16X8_S => WAH_FD + 189
  | WAH_OP_I32X4_EXTMUL_LOW_I16X8_U => WAH_FD + 190
  | WAH_OP_I32X4_EXTMUL_HIGH_I16X8_U => WAH_FD + 191
  | WAH_OP_I64X2_ABS => WAH_FD + 192
  | WAH_OP_I64X2_NEG => WAH_FD + 193
  | WAH_OP_I64X2_ALL_TRUE => WAH_FD + 195
  | WAH_OP_I64X2_BITMASK => WAH_FD + 196
  | WAH_OP_I64X2_EXTEND_LOW_I32X4_S => WAH_FD + 199
  | WAH_OP_I64X2_EXTEND_HIGH_I32X4_S => WAH_FD + 200
  | WAH_OP_I64X2_EXTEND_LOW_I32X4_U => WAH_FD + 201
  | WAH_OP_I64X2_EXTEND_HIGH_I32X4_U => WAH_FD + 202
  | WAH_OP_I64X2_SHL => WAH_FD + 203
  | WAH_OP_I64X2_SHR_S => WAH_FD + 204
  | WAH_OP_I64X2_SHR_U => WAH_FD + 205
  | WAH_OP_I64X2_ADD => WAH_FD + 206
  | WAH_OP_I64X2_SUB => WAH_FD + 209
  | WAH_OP_I64X2_MUL => WAH_FD + 213
  | WAH_OP_I64X2_EXTMUL_LOW_I32X4_S => WAH_FD + 220
  | WAH_OP_I64X2_EXTMUL_HIGH_I32X4_S => WAH_FD + 221
  | WAH_OP_I64X2_EXTMUL_LOW_I32X4_U => WAH_FD + 222
  | WAH_OP_I64X2_EXTMUL_HIGH_I32X4_U => WAH_FD + 223
  | WAH_OP_F32X4_CEIL => WAH_FD + 103
  | WAH_OP_F32X4_FLOOR => WAH_FD + 104
  | WAH_OP_F32X4_TRUNC => WAH_FD + 105
  | WAH_OP_F32X4_NEAREST => WAH_FD + 106
  | WAH_OP_F32X4_ABS => WAH_FD + 224
  | WAH_OP_F32X4_NEG => WAH_FD + 225
  | WAH_OP_F32X4_SQRT => WAH_FD + 227
  | WAH_OP_F32X4_ADD => WAH_FD + 228
  | WAH_OP_F32X4_SUB => WAH_FD + 229
  | WAH_OP_F32X4_MUL => WAH_FD + 230
  | WAH_OP_F32X4_DIV => WAH_FD + 231
  | WAH_OP_F32X4_MIN => WAH_FD + 232
  | WAH_OP_F32X4_MAX => WAH_FD + 233
  | WAH_OP_F32X4_PMIN => WAH_FD + 234
  | WAH_OP_F32X4_PMAX => WAH_FD + 235
  | WAH_OP_F64X2_CEIL => WAH_FD + 116
  | WAH_OP_F64X2_FLOOR => WAH_FD + 117
  | WAH_OP_F64X2_TRUNC => WAH_FD + 122
  | WAH_OP_F64X2_NEAREST => WAH_FD + 148
  | WAH_OP_F64X2_ABS => WAH_FD + 236
  | WAH_OP_F64X2_NEG => WAH_FD + 237
  | WAH_OP_F64X2_SQRT => WAH_FD + 239
  | WAH_OP_F64X2_ADD => WAH_FD + 240
  | WAH_OP_F64X2_SUB => WAH_FD + 241
  | WAH_OP_F64X2_MUL => WAH_FD + 242
  | WAH_OP_F64X2_DIV => WAH_FD + 243
  | WAH_OP_F64X2_MIN => WAH_FD + 244
  | WAH_OP_F64X2_MAX => WAH_FD + 245
  | WAH_OP_F64X2_PMIN => WAH_FD + 246
  | WAH_OP_F64X2_PMAX => WAH_FD + 247
  | WAH_OP_I32X4_TRUNC_SAT_F32X4_S => WAH_FD + 248
  | WAH_OP_I32X4_TRUNC_SAT_F32X4_U => WAH_FD + 249
  | WAH_OP_F32X4_CONVERT_I32X4_S => WAH_FD + 250
  | WAH_OP_F32X4_CONVERT_I32X4_U => WAH_FD + 251
  | WAH_OP_I32X4_TRUNC_SAT_F64X2_S_ZERO => WAH_FD + 252
  | WAH_OP_I32X4_TRUNC_SAT_F64X2_U_ZERO => WAH_FD + 253
  | WAH_OP_F64X2_CONVERT_LOW_I32X4_S => WAH_FD + 254
  | WAH_OP_F64X2_CONVERT_LOW_I32X4_U => WAH_FD + 255
  | WAH_OP_F32X4_DEMOTE_F64X2_ZERO => WAH_FD + 94
  | WAH_OP_F64X2_PROMOTE_LOW_F32X4 => WAH_FD + 95
  | WAH_OP_I8X16_RELAXED_SWIZZLE => WAH_FD + 256
  | WAH_OP_I32X4_RELAXED_TRUNC_F32X4_S => WAH_FD + 257
  | WAH_OP_I32X4_RELAXED_TRUNC_F32X4_U => WAH_FD + 258
  | WAH_OP_I32X4_RELAXED_TRUNC_F64X2_S => WAH_FD + 259
  | WAH_OP_I32X4_RELAXED_TRUNC_F64X2_U => WAH_FD + 260
  | WAH_OP_F32X4_RELAXED_MADD => WAH_FD + 261
  | WAH_OP_F32X4_RELAXED_NMADD => WAH_FD + 262
  | WAH_OP_F64X2_RELAXED_MADD => WAH_FD + 263
  | WAH_OP_F64X2_RELAXED_NMADD => WAH_FD + 264
  | WAH_OP_I8X16_RELAXED_LANESELECT => WAH_FD + 265
  | WAH_OP_I16X8_RELAXED_LANESELECT => WAH_FD + 266
  | WAH_OP_I32X4_RELAXED_LANESELECT => WAH_FD + 267
  | WAH_OP_I64X2_RELAXED_LANESELECT => WAH_FD + 268
  | WAH_OP_F32X4_RELAXED_MIN => WAH_FD + 269
  | WAH_OP_F32X4_RELAXED_MAX => WAH_FD + 270
  | WAH_OP_F64X2_RELAXED_MIN => WAH_FD + 271
  | WAH_OP_F64X2_RELAXED_MAX => WAH_FD + 272
  | WAH_OP_I16X8_RELAXED_Q15MULR_S => WAH_FD + 273
  | WAH_OP_I16X8_RELAXED_DOT_I8X16_I7X16_S => WAH_FD + 274
  | WAH_OP_I32X4_RELAXED_DOT_I8X16_I7X16_ADD_S => WAH_FD + 275
  | WAH_OP_I8X16_EQ => WAH_FD + 35
  | WAH_OP_I8X16_NE => WAH_FD + 36
  | WAH_OP_I8X16_LT_S => WAH_FD + 37
  | WAH_OP_I8X16_LT_U => WAH_FD + 38
  | WAH_OP_I8X16_GT_S => WAH_FD + 39
  | WAH_OP_I8X16_GT_U => WAH_FD + 40
  | WAH_OP_I8X16_LE_S => WAH_FD + 41
  | WAH_OP_I8X16_LE_U => WAH_FD + 42
  | WAH_OP_I8X16_GE_S => WAH_FD + 43
  | WAH_OP_I8X16_GE_U => WAH_FD + 44
  | WAH_OP_I16X8_EQ => WAH_FD + 45
  | WAH_OP_I16X8_NE => WAH_FD + 46
  | WAH_OP_I16X8_LT_S => WAH_FD + 47
  | WAH_OP_I16X8_LT_U => WAH_FD + 48
  | WAH_OP_I16X8_GT_S => WAH_FD + 49
  | WAH_OP_I16X8_GT_U => WAH_FD + 50
  | WAH_OP_I16X8_LE_S => WAH_FD + 51
  | WAH_OP_I16X8_LE_U => WAH_FD + 52
  | WAH_OP_I16X8_GE_S => WAH_FD + 53
  | WAH_OP_I16X8_GE_U => WAH_FD + 54
  | WAH_OP_I32X4_EQ => WAH_FD + 55
  | WAH_OP_I32X4_NE => WAH_FD + 56
  | WAH_OP_I32X4_LT_S => WAH_FD + 57
  | WAH_OP_I32X4_LT_U => WAH_FD + 58
  | WAH_OP_I32X4_GT_S => WAH_FD + 59
  | WAH_OP_I32X4_GT_U => WAH_FD + 60
  | WAH_OP_I32X4_LE_S => WAH_FD + 61
  | WAH_OP_I32X4_LE_U => WAH_FD + 62
  | WAH_OP_I32X4_GE_S => WAH_FD + 63
  | WAH_OP_I32X4_GE_U => WAH_FD + 64
  | WAH_OP_I64X2_EQ => WAH_FD + 214
  | WAH_OP_I64X2_NE => WAH_FD + 215
  | WAH_OP_I64X2_LT_S => WAH_FD + 216
  | WAH_OP_I64X2_GT_S => WAH_FD + 217
  | WAH_OP_I64X2_LE_S => WAH_FD + 218
  | WAH_OP_I64X2_GE_S => WAH_FD + 219
  | WAH_OP_F32X4_EQ => WAH_FD + 65
  | WAH_OP_F32X4_NE => WAH_FD + 66
  | WAH_OP_F32X4_LT => WAH_FD + 67
  | WAH_OP_F32X4_GT => WAH_FD + 68
  | WAH_OP_F32X4_LE => WAH_FD + 69
  | WAH_OP_F32X4_GE => WAH_FD + 70
  | WAH_OP_F64X2_EQ => WAH_FD + 71
  | WAH_OP_F64X2_NE => WAH_FD + 72
  | WAH_OP_F64X2_LT => WAH_FD + 73
  | WAH_OP_F64X2_GT => WAH_FD + 74
  | WAH_OP_F64X2_LE => WAH_FD + 75
  | WAH_OP_F64X2_GE => WAH_FD + 76
  end.

(** A row [X(name, cls, val, feat)]. *)
Record opcode_row := Row {
  row_op : wah_op; row_class : wah_opclass_t; row_val : Z; row_feat : wah_feature }.

(** The rows of [WAH_OPCODES] itself. *)
Definition WAH_OPCODES_MAIN : list opcode_row :=
  [Row WAH_OP_UNREACHABLE WAH_OPCLASS_ (0) FEAT_MVP;
   Row WAH_OP_NOP WAH_OPCLASS_ (1) FEAT_MVP;
   Row WAH_OP_BLOCK WAH_OPCLASS_ (2) FEAT_MVP;
   Row WAH_OP_LOOP WAH_OPCLASS_ (3) FEAT_MVP;
   Row WAH_OP_IF WAH_OPCLASS_ (4) FEAT_MVP;
   Row WAH_OP_ELSE WAH_OPCLASS_ (5) FEAT_MVP;
   Row WAH_OP_END WAH_OPCLASS_ (11) FEAT_MVP;
   Row WAH_OP_BR WAH_OPCLASS_ (12) FEAT_MVP;
   Row WAH_OP_BR_IF WAH_OPCLASS_ (13) FEAT_MVP;
   Row WAH_OP_BR_TABLE WAH_OPCLASS_ (14) FEAT_MVP;
   Row WAH_OP_RETURN WAH_OPCLASS_ (15) FEAT_MVP;
   Row WAH_OP_CALL WAH_OPCLASS_I (16) FEAT_MVP;
   Row WAH_OP_CALL_INDIRECT WAH_OPCLASS_II (17) FEAT_MVP;
   Row WAH_OP_THROW WAH_OPCLASS_I (8) EXCEPTION;
   Row WAH_OP_THROW_REF WAH_OPCLASS_ (10) EXCEPTION;
   Row WAH_OP_RETURN_CALL WAH_OPCLASS_I (18) TAIL_CALL;
   Row WAH_OP_RETURN_CALL_INDIRECT WAH_OPCLASS_II (19) TAIL_CALL;
   Row WAH_OP_CALL_REF WAH_OPCLASS_I (20) TYPED_FUNCREF;
   Row WAH_OP_RETURN_CALL_REF WAH_OPCLASS_I (21) TYPED_FUNCREF;
   Row WAH_OP_TRY_TABLE WAH_OPCLASS_ (31) EXCEPTION;
   Row WAH_OP_DROP WAH_OPCLASS_ (26) FEAT_MVP;
   Row WAH_OP_SELECT WAH_OPCLASS_ (27) FEAT_MVP;
   Row WAH_OP_SELECT_T WAH_OPCLASS_ (28) REF_TYPES;
   Row WAH_OP_LOCAL_GET WAH_OPCLASS_I (32) FEAT_MVP;
   Row WAH_OP_LOCAL_SET WAH_OPCLASS_I (33) FEAT_MVP;
   Row WAH_OP_LOCAL_TEE WAH_OPCLASS_I (34) FEAT_MVP;
   Row WAH_OP_GLOBAL_GET WAH_OPCLASS_I (35) FEAT_MVP;
   Row WAH_OP_GLOBAL_SET WAH_OPCLASS_I (36) FEAT_MVP;
   Row WAH_OP_TABLE_GET WAH_OPCLASS_I (37) REF_TYPES;
   Row WAH_OP_TABLE_SET WAH_OPCLASS_I (38) REF_TYPES;
   Row WAH_OP_TABLE_INIT WAH_OPCLASS_II (WAH_FC + 12) BULK_MEMORY;
   Row WAH_OP_ELEM_DROP WAH_OPCLASS_I (WAH_FC + 13) BULK_MEMORY;
   Row WAH_OP_TABLE_COPY WAH_OPCLASS_II (WAH_FC + 14) BULK_MEMORY;
   Row WAH_OP_TABLE_GROW WAH_OPCLASS_I (WAH_FC + 15) REF_TYPES;
   Row WAH_OP_TABLE_SIZE WAH_OPCLASS_I (WAH_FC + 16) REF_TYPES;
   Row WAH_OP_TABLE_FILL WAH_OPCLASS_I (WAH_FC + 17) REF_TYPES;
   Row WAH_OP_I32_LOAD WAH_OPCLASS_M (40) FEAT_MVP;
   Row WAH_OP_I64_LOAD WAH_OPCLASS_M (41) FEAT_MVP;
   Row WAH_OP_F32_LOAD WAH_OPCLASS_M (42) FEAT_MVP;
   Row WAH_OP_F64_LOAD WAH_OPCLASS_M (43) FEAT_MVP;
   Row WAH_OP_I32_LOAD8_S WAH_OPCLASS_M (44) FEAT_MVP;
   Row WAH_OP_I32_LOAD8_U WAH_OPCLASS_M (45) FEAT_MVP;
   Row WAH_OP_I32_LOAD16_S WAH_OPCLASS_M (46) FEAT_MVP;
   Row WAH_OP_I32_LOAD16_U WAH_OPCLASS_M (47) FEAT_MVP;
   Row WAH_OP_I64_LOAD8_S WAH_OPCLASS_M (48) FEAT_MVP;
   Row WAH_OP_I64_LOAD8_U WAH_OPCLASS_M (49) FEAT_MVP;
   Row WAH_OP_I64_LOAD16_S WAH_OPCLASS_M (50) FEAT_MVP;
   Row WAH_OP_I64_LOAD16_U WAH_OPCLASS_M (51) FEAT_MVP;
   Row WAH_OP_I64_LOAD32_S WAH_OPCLASS_M (52) FEAT_MVP;
   Row WAH_OP_I64_LOAD32_U WAH_OPCLASS_M (53) FEAT_MVP;
   Row WAH_OP_I32_STORE WAH_OPCLASS_M (54) FEAT_MVP;
   Row WAH_OP_I64_STORE WAH_OPCLASS_M (55) FEAT_MVP;
   Row WAH_OP_F32_STORE WAH_OPCLASS_M (56) FEAT_MVP;
   Row WAH_OP_F64_STORE WAH_OPCLASS_M (57) FEAT_MVP;
   Row WAH_OP_I32_STORE8 WAH_OPCLASS_M (58) FEAT_MVP;
   Row WAH_OP_I32_STORE16 WAH_OPCLASS_M (59) FEAT_MVP;
   Row WAH_OP_I64_STORE8 WAH_OPCLASS_M (60) FEAT_MVP;
   Row WAH_OP_I64_STORE16 WAH_OPCLASS_M (61) FEAT_MVP;
   Row WAH_OP_I64_STORE32 WAH_OPCLASS_M (62) FEAT_MVP;
   Row WAH_OP_MEMORY_SIZE WAH_OPCLASS_I (63) FEAT_MVP;
   Row WAH_OP_MEMORY_GROW WAH_OPCLASS_I (64) FEAT_MVP;
   Row WAH_OP_MEMORY_INIT WAH_OPCLASS_II (WAH_FC + 8) BULK_MEMORY;
   Row WAH_OP_DATA_DROP WAH_OPCLASS_I (WAH_FC + 9) BULK_MEMORY;
   Row WAH_OP_MEMORY_COPY WAH_OPCLASS_II (WAH_FC + 10) BULK_MEMORY;
   Row WAH_OP_MEMORY_FILL WAH_OPCLASS_I (WAH_FC + 11) BULK_MEMORY;
   Row WAH_OP_I32_CONST WAH_OPCLASS_ (65) FEAT_MVP;
   Row WAH_OP_I64_CONST WAH_OPCLASS_ (66) FEAT_MVP;
   Row WAH_OP_F32_CONST WAH_OPCLASS_ (67) FEAT_MVP;
   Row WAH_OP_F64_CONST WAH_OPCLASS_ (68) FEAT_MVP;
   Row WAH_OP_I32_EQZ WAH_OPCLASS__I_I (69) FEAT_MVP;
   Row WAH_OP_I32_EQ WAH_OPCLASS__II_I (70) FEAT_MVP;
   Row WAH_OP_I32_NE WAH_OPCLASS__II_I (71) FEAT_MVP;
   Row WAH_OP_I32_LT_S WAH_OPCLASS__II_I (72) FEAT_MVP;
   Row WAH_OP_I32_LT_U WAH_OPCLASS__II_I (73) FEAT_MVP;
   Row WAH_OP_I32_GT_S WAH_OPCLASS__II_I (74) FEAT_MVP;
   Row WAH_OP_I32_GT_U WAH_OPCLASS__II_I (75) FEAT_MVP;
   Row WAH_OP_I32_LE_S WAH_OPCLASS__II_I (76) FEAT_MVP;
   Row WAH_OP_I32_LE_U WAH_OPCLASS__II_I (77) FEAT_MVP;
   Row WAH_OP_I32_GE_S WAH_OPCLASS__II_I (78) FEAT_MVP;
   Row WAH_OP_I32_GE_U WAH_OPCLASS__II_I (79) FEAT_MVP;
   Row WAH_OP_I64_EQZ WAH_OPCLASS__L_I (80) FEAT_MVP;
   Row WAH_OP_I64_EQ WAH_OPCLASS__LL_I (81) FEAT_MVP;
   Row WAH_OP_I64_NE WAH_OPCLASS__LL_I (82) FEAT_MVP;
   Row WAH_OP_I64_LT_S WAH_OPCLASS__LL_I (83) FEAT_MVP;
   Row WAH_OP_I64_LT_U WAH_OPCLASS__LL_I (84) FEAT_MVP;
   Row WAH_OP_I64_GT_S WAH_OPCLASS__LL_I (85) FEAT_MVP;
   Row WAH_OP_I64_GT_U WAH_OPCLASS__LL_I (86) FEAT_MVP;
   Row WAH_OP_I64_LE_S WAH_OPCLASS__LL_I (87) FEAT_MVP;
   Row WAH_OP_I64_LE_U WAH_OPCLASS__LL_I (88) FEAT_MVP;
   Row WAH_OP_I64_GE_S WAH_OPCLASS__LL_I (89) FEAT_MVP;
   Row WAH_OP_I64_GE_U WAH_OPCLASS__LL_I (90) FEAT_MVP;
   Row WAH_OP_F32_EQ WAH_OPCLASS__FF_I (91) FEAT_MVP;
   Row WAH_OP_F32_NE WAH_OPCLASS__FF_I (92) FEAT_MVP;
   Row WAH_OP_F32_LT WAH_OPCLASS__FF_I (93) FEAT_MVP;
   Row WAH_OP_F32_GT WAH_OPCLASS__FF_I (94) FEAT_MVP;
   Row WAH_OP_F32_LE WAH_OPCLASS__FF_I (95) FEAT_MVP;
   Row WAH_OP_F32_GE WAH_OPCLASS__FF_I (96) FEAT_MVP;
   Row WAH_OP_F64_EQ WAH_OPCLASS__DD_I (97) FEAT_MVP;
   Row WAH_OP_F64_NE WAH_OPCLASS__DD_I (98) FEAT_MVP;
   Row WAH_OP_F64_LT WAH_OPCLASS__DD_I (99) FEAT_MVP;
   Row WAH_OP_F64_GT WAH_OPCLASS__DD_I (100) FEAT_MVP;
   Row WAH_OP_F64_LE WAH_OPCLASS__DD_I (101) FEAT_MVP;
   Row WAH_OP_F64_GE WAH_OPCLASS__DD_I (102) FEAT_MVP;
   Row WAH_OP_I32_CLZ WAH_OPCLASS__I_I (103) FEAT_MVP;
   Row WAH_OP_I32_CTZ WAH_OPCLASS__I_I (104) FEAT_MVP;
   Row WAH_OP_I32_POPCNT WAH_OPCLASS__I_I (105) FEAT_MVP;
   Row WAH_OP_I32_ADD WAH_OPCLASS__II_I (106) FEAT_MVP;
   Row WAH_OP_I32_SUB WAH_OPCLASS__II_I (107) FEAT_MVP;
   Row WAH_OP_I32_MUL WAH_OPCLASS__II_I (108) FEAT_MVP;
   Row WAH_OP_I32_DIV_S WAH_OPCLASS__II_I (109) FEAT_MVP;
   Row WAH_OP_I32_DIV_U WAH_OPCLASS__II_I (110) FEAT_MVP;
   Row WAH_OP_I32_REM_S WAH_OPCLASS__II_I (111) FEAT_MVP;
   Row WAH_OP_I32_REM_U WAH_OPCLASS__II_I (112) FEAT_MVP;
   Row WAH_OP_I32_AND WAH_OPCLASS__II_I (113) FEAT_MVP;
   Row WAH_OP_I32_OR WAH_OPCLASS__II_I (114) FEAT_MVP;
   Row WAH_OP_I32_XOR WAH_OPCLASS__II_I (115) FEAT_MVP;
   Row WAH_OP_I32_SHL WAH_OPCLASS__II_I (116) FEAT_MVP;
   Row WAH_OP_I32_SHR_S WAH_OPCLASS__II_I (117) FEAT_MVP;
   Row WAH_OP_I32_SHR_U WAH_OPCLASS__II_I (118) FEAT_MVP;
   Row WAH_OP_I32_ROTL WAH_OPCLASS__II_I (119) FEAT_MVP;
   Row WAH_OP_I32_ROTR WAH_OPCLASS__II_I (120) FEAT_MVP;
   Row WAH_OP_I64_CLZ WAH_OPCLASS__L_L (121) FEAT_MVP;
   Row WAH_OP_I64_CTZ WAH_OPCLASS__L_L (122) FEAT_MVP;
   Row WAH_OP_I64_POPCNT WAH_OPCLASS__L_L (123) FEAT_MVP;
   Row WAH_OP_I64_ADD WAH_OPCLASS__LL_L (124) FEAT_MVP;
   Row WAH_OP_I64_SUB WAH_OPCLASS__LL_L (125) FEAT_MVP;
   Row WAH_OP_I64_MUL WAH_OPCLASS__LL_L (126) FEAT_MVP;
   Row WAH_OP_I64_DIV_S WAH_OPCLASS__LL_L (127) FEAT_MVP;
   Row WAH_OP_I64_DIV_U WAH_OPCLASS__LL_L (128) FEAT_MVP;
   Row WAH_OP_I64_REM_S WAH_OPCLASS__LL_L (129) FEAT_MVP;
   Row WAH_OP_I64_REM_U WAH_OPCLASS__LL_L (130) FEAT_MVP;
   Row WAH_OP_I64_AND WAH_OPCLASS__LL_L (131) FEAT_MVP;
   Row WAH_OP_I64_OR WAH_OPCLASS__LL_L (132) FEAT_MVP;
   Row WAH_OP_I64_XOR WAH_OPCLASS__LL_L (133) FEAT_MVP;
   Row WAH_OP_I64_SHL WAH_OPCLASS__LL_L (134) FEAT_MVP;
   Row WAH_OP_I64_SHR_S WAH_OPCLASS__LL_L (135) FEAT_MVP;
   Row WAH_OP_I64_SHR_U WAH_OPCLASS__LL_L (136) FEAT_MVP;
   Row WAH_OP_I64_ROTL WAH_OPCLASS__LL_L (137) FEAT_MVP;
   Row WAH_OP_I64_ROTR WAH_OPCLASS__LL_L (138) FEAT_MVP;
   Row WAH_OP_F32_ABS WAH_OPCLASS__F_F (139) FEAT_MVP;
   Row WAH_OP_F32_NEG WAH_OPCLASS__F_F (140) FEAT_MVP;
   Row WAH_OP_F32_CEIL WAH_OPCLASS__F_F (141) FEAT_MVP;
   Row WAH_OP_F32_FLOOR WAH_OPCLASS__F_F (142) FEAT_MVP;
   Row WAH_OP_F32_TRUNC WAH_OPCLASS__F_F (143) FEAT_MVP;
   Row WAH_OP_F32_NEAREST WAH_OPCLASS__F_F (144) FEAT_MVP;
   Row WAH_OP_F32_SQRT WAH_OPCLASS__F_F (145) FEAT_MVP;
   Row WAH_OP_F32_ADD WAH_OPCLASS__FF_F (146) FEAT_MVP;
   Row WAH_OP_F32_SUB WAH_OPCLASS__FF_F (147) FEAT_MVP;
   Row WAH_OP_F32_MUL WAH_OPCLASS__FF_F (148) FEAT_MVP;
   Row WAH_OP_F32_DIV WAH_OPCLASS__FF_F (149) FEAT_MVP;
   Row WAH_OP_F32_MIN WAH_OPCLASS__FF_F (150) FEAT_MVP;
   Row WAH_OP_F32_MAX WAH_OPCLASS__FF_F (151) FEAT_MVP;
   Row WAH_OP_F32_COPYSIGN WAH_OPCLASS__FF_F (152) FEAT_MVP;
   Row WAH_OP_F64_ABS WAH_OPCLASS__D_D (153) FEAT_MVP;
   Row WAH_OP_F64_NEG WAH_OPCLASS__D_D (154) FEAT_MVP;
   Row WAH_OP_F64_CEIL WAH_OPCLASS__D_D (155) FEAT_MVP;
   Row WAH_OP_F64_FLOOR WAH_OPCLASS__D_D (156) FEAT_MVP;
   Row WAH_OP_F64_TRUNC WAH_OPCLASS__D_D (157) FEAT_MVP;
   Row WAH_OP_F64_NEAREST WAH_OPCLASS__D_D (158) FEAT_MVP;
   Row WAH_OP_F64_SQRT WAH_OPCLASS__D_D (159) FEAT_MVP;
   Row WAH_OP_F64_ADD WAH_OPCLASS__DD_D (160) FEAT_MVP;
   Row WAH_OP_F64_SUB WAH_OPCLASS__DD_D (161) FEAT_MVP;
   Row WAH_OP_F64_MUL WAH_OPCLASS__DD_D (162) FEAT_MVP;
   Row WAH_OP_F64_DIV WAH_OPCLASS__DD_D (163) FEAT_MVP;
   Row WAH_OP_F64_MIN WAH_OPCLASS__DD_D (164) FEAT_MVP;
   Row WAH_OP_F64_MAX WAH_OPCLASS__DD_D (165) FEAT_MVP;
   Row WAH_OP_F64_COPYSIGN WAH_OPCLASS__DD_D (166) FEAT_MVP;
   Row WAH_OP_I32_WRAP_I64 WAH_OPCLASS__L_I (167) FEAT_MVP;
   Row WAH_OP_I32_TRUNC_F32_S WAH_OPCLASS__F_I (168) FEAT_MVP;
   Row WAH_OP_I32_TRUNC_F32_U WAH_OPCLASS__F_I (169) FEAT_MVP;
   Row WAH_OP_I32_TRUNC_F64_S WAH_OPCLASS__D_I (170) FEAT_MVP;
   Row WAH_OP_I32_TRUNC_F64_U WAH_OPCLASS__D_I (171) FEAT_MVP;
   Row WAH_OP_I64_EXTEND_I32_S WAH_OPCLASS__I_L (172) FEAT_MVP;
   Row WAH_OP_I64_EXTEND_I32_U WAH_OPCLASS__I_L (173) FEAT_MVP;
   Row WAH_OP_I64_TRUNC_F32_S WAH_OPCLASS__F_L (174) FEAT_MVP;
   Row WAH_OP_I64_TRUNC_F32_U WAH_OPCLASS__F_L (175) FEAT_MVP;
   Row WAH_OP_I64_TRUNC_F64_S WAH_OPCLASS__D_L (176) FEAT_MVP;
   Row WAH_OP_I64_TRUNC_F64_U WAH_OPCLASS__D_L (177) FEAT_MVP;
   Row WAH_OP_F32_CONVERT_I32_S WAH_OPCLASS__I_F (178) FEAT_MVP;
   Row WAH_OP_F32_CONVERT_I32_U WAH_OPCLASS__I_F (179) FEAT_MVP;
   Row WAH_OP_F32_CONVERT_I64_S WAH_OPCLASS__L_F (180) FEAT_MVP;
   Row WAH_OP_F32_CONVERT_I64_U WAH_OPCLASS__L_F (181) FEAT_MVP;
   Row WAH_OP_F32_DEMOTE_F64 WAH_OPCLASS_ (182) FEAT_MVP;
   Row WAH_OP_F64_CONVERT_I32_S WAH_OPCLASS__I_D (183) FEAT_MVP;
   Row WAH_OP_F64_CONVERT_I32_U WAH_OPCLASS__I_D (184) FEAT_MVP;
   Row WAH_OP_F64_CONVERT_I64_S WAH_OPCLASS__L_D (185) FEAT_MVP;
   Row WAH_OP_F64_CONVERT_I64_U WAH_OPCLASS__L_D (186) FEAT_MVP;
   Row WAH_OP_F64_PROMOTE_F32 WAH_OPCLASS_ (187) FEAT_MVP;
   Row WAH_OP_I32_REINTERPRET_F32 WAH_OPCLASS__F_I (188) FEAT_MVP;
   Row WAH_OP_I64_REINTERPRET_F64 WAH_OPCLASS__D_L (189) FEAT_MVP;
   Row WAH_OP_F32_REINTERPRET_I32 WAH_OPCLASS__I_F (190) FEAT_MVP;
   Row WAH_OP_F64_REINTERPRET_I64 WAH_OPCLASS__L_D (191) FEAT_MVP;
   Row WAH_OP_I32_EXTEND8_S WAH_OPCLASS__I_I (192) SIGN_EXT;
   Row WAH_OP_I32_EXTEND16_S WAH_OPCLASS__I_I (193) SIGN_EXT;
   Row WAH_OP_I64_EXTEND8_S WAH_OPCLASS__L_L (194) SIGN_EXT;
   Row WAH_OP_I64_EXTEND16_S WAH_OPCLASS__L_L (195) SIGN_EXT;
   Row WAH_OP_I64_EXTEND32_S WAH_OPCLASS__L_L (196) SIGN_EXT;
   Row WAH_OP_I32_TRUNC_SAT_F32_S WAH_OPCLASS__F_I (WAH_FC + 0) NONTRAPPING_F2I;
   Row WAH_OP_I32_TRUNC_SAT_F32_U WAH_OPCLASS__F_I (WAH_FC + 1) NONTRAPPING_F2I;
   Row WAH_OP_I32_TRUNC_SAT_F64_S WAH_OPCLASS__D_I (WAH_FC + 2) NONTRAPPING_F2I;
   Row WAH_OP_I32_TRUNC_SAT_F64_U WAH_OPCLASS__D_I (WAH_FC + 3) NONTRAPPING_F2I;
   Row WAH_OP_I64_TRUNC_SAT_F32_S WAH_OPCLASS__F_L (WAH_FC + 4) NONTRAPPING_F2I;
   Row WAH_OP_I64_TRUNC_SAT_F32_U WAH_OPCLASS__F_L (WAH_FC + 5) NONTRAPPING_F2I;
   Row WAH_OP_I64_TRUNC_SAT_F64_S WAH_OPCLASS__D_L (WAH_FC + 6) NONTRAPPING_F2I;
   Row WAH_OP_I64_TRUNC_SAT_F64_U WAH_OPCLASS__D_L (WAH_FC + 7) NONTRAPPING_F2I;
   Row WAH_OP_REF_NULL WAH_OPCLASS_ (208) REF_TYPES;
   Row WAH_OP_REF_IS_NULL WAH_OPCLASS_ (209) REF_TYPES;
   Row WAH_OP_REF_FUNC WAH_OPCLASS_ (210) REF_TYPES;
   Row WAH_OP_REF_AS_NON_NULL WAH_OPCLASS_ (212) TYPED_FUNCREF;
   Row WAH_OP_BR_ON_NULL WAH_OPCLASS_ (213) TYPED_FUNCREF;
   Row WAH_OP_BR_ON_NON_NULL WAH_OPCLASS_ (214) TYPED_FUNCREF].

(** The rows of [WAH_GC_OPCODES]. *)
Definition WAH_GC_OPCODES : list opcode_row :=
  [Row WAH_OP_REF_EQ WAH_OPCLASS_ (211) GC;
   Row WAH_OP_STRUCT_NEW WAH_OPCLASS_ (WAH_FB + 0) GC;
   Row WAH_OP_STRUCT_NEW_DEFAULT WAH_OPCLASS_ (WAH_FB + 1) GC;
   Row WAH_OP_STRUCT_GET WAH_OPCLASS_ (WAH_FB + 2) GC;
   Row WAH_OP_STRUCT_GET_S WAH_OPCLASS_ (WAH_FB + 3) GC;
   Row WAH_OP_STRUCT_GET_U WAH_OPCLASS_ (WAH_FB + 4) GC;
   Row WAH_OP_STRUCT_SET WAH_OPCLASS_ (WAH_FB + 5) GC;
   Row WAH_OP_ARRAY_NEW WAH_OPCLASS_ (WAH_FB + 6) GC;
   Row WAH_OP_ARRAY_NEW_DEFAULT WAH_OPCLASS_ (WAH_FB + 7) GC;
   Row WAH_OP_ARRAY_NEW_FIXED WAH_OPCLASS_ (WAH_FB + 8) GC;
   Row WAH_OP_ARRAY_NEW_DATA WAH_OPCLASS_II (WAH_FB + 9) GC;
   Row WAH_OP_ARRAY_NEW_ELEM WAH_OPCLASS_II (WAH_FB + 10) GC;
   Row WAH_OP_ARRAY_GET WAH_OPCLASS_ (WAH_FB + 11) GC;
   Row WAH_OP_ARRAY_GET_S WAH_OPCLASS_ (WAH_FB + 12) GC;
   Row WAH_OP_ARRAY_GET_U WAH_OPCLASS_ (WAH_FB + 13) GC;
   Row WAH_OP_ARRAY_SET WAH_OPCLASS_ (WAH_FB + 14) GC;
   Row WAH_OP_ARRAY_LEN WAH_OPCLASS_ (WAH_FB + 15) GC;
   Row WAH_OP_ARRAY_FILL WAH_OPCLASS_I (WAH_FB + 16) GC;
   Row WAH_OP_ARRAY_COPY WAH_OPCLASS_ (WAH_FB + 17) GC;
   Row WAH_OP_ARRAY_INIT_DATA WAH_OPCLASS_II (WAH_FB + 18) GC;
   Row WAH_OP_ARRAY_INIT_ELEM WAH_OPCLASS_ (WAH_FB + 19) GC;
   Row WAH_OP_REF_TEST WAH_OPCLASS_ (WAH_FB + 20) GC;
   Row WAH_OP_REF_TEST_NULL WAH_OPCLASS_ (WAH_FB + 21) GC;
   Row WAH_OP_REF_CAST WAH_OPCLASS_ (WAH_FB + 22) GC;
   Row WAH_OP_REF_CAST_NULL WAH_OPCLASS_ (WAH_FB + 23) GC;
   Row WAH_OP_BR_ON_CAST WAH_OPCLASS_ (WAH_FB + 24) GC;
   Row WAH_OP_BR_ON_CAST_FAIL WAH_OPCLASS_ (WAH_FB + 25) GC;
   Row WAH_OP_ANY_CONVERT_EXTERN WAH_OPCLASS_ (WAH_FB + 26) GC;
   Row WAH_OP_EXTERN_CONVERT_ANY WAH_OPCLASS_ (WAH_FB + 27) GC;
   Row WAH_OP_REF_I31 WAH_OPCLASS_ (WAH_FB + 28) GC;
   Row WAH_OP_I31_GET_S WAH_OPCLASS_ (WAH_FB + 29) GC;
   Row WAH_OP_I31_GET_U WAH_OPCLASS_ (WAH_FB + 30) GC].

(** [WAH_SIMD_OPCODES]: memory, lane and constant instructions. *)
Definition WAH_SIMD_OPCODES_LANES : list opcode_row :=
  [Row WAH_OP_V128_LOAD WAH_OPCLASS_M (WAH_FD + 0) SIMD;
   Row WAH_OP_V128_LOAD8X8_S WAH_OPCLASS_M (WAH_FD + 1) SIMD;
   Row WAH_OP_V128_LOAD8X8_U WAH_OPCLASS_M (WAH_FD + 2) SIMD;
   Row WAH_OP_V128_LOAD16X4_S WAH_OPCLASS_M (WAH_FD + 3) SIMD;
   Row WAH_OP_V128_LOAD16X4_U WAH_OPCLASS_M (WAH_FD + 4) SIMD;
   Row WAH_OP_V128_LOAD32X2_S WAH_OPCLASS_M (WAH_FD + 5) SIMD;
   Row WAH_OP_V128_LOAD32X2_U WAH_OPCLASS_M (WAH_FD + 6) SIMD;
   Row WAH_OP_V128_LOAD8_SPLAT WAH_OPCLASS_M (WAH_FD + 7) SIMD;
   Row WAH_OP_V128_LOAD16_SPLAT WAH_OPCLASS_M (WAH_FD + 8) SIMD;
   Row WAH_OP_V128_LOAD32_SPLAT WAH_OPCLASS_M (WAH_FD + 9) SIMD;
   Row WAH_OP_V128_LOAD64_SPLAT WAH_OPCLASS_M (WAH_FD + 10) SIMD;
   Row WAH_OP_V128_LOAD32_ZERO WAH_OPCLASS_M (WAH_FD + 92) SIMD;
   Row WAH_OP_V128_LOAD64_ZERO WAH_OPCLASS_M (WAH_FD + 93) SIMD;
   Row WAH_OP_V128_LOAD8_LANE WAH_OPCLASS_MB (WAH_FD + 84) SIMD;
   Row WAH_OP_V128_LOAD16_LANE WAH_OPCLASS_MB (WAH_FD + 85) SIMD;
   Row WAH_OP_V128_LOAD32_LANE WAH_OPCLASS_MB (WAH_FD + 86) SIMD;
   Row WAH_OP_V128_LOAD64_LANE WAH_OPCLASS_MB (WAH_FD + 87) SIMD;
   Row WAH_OP_V128_STORE8_LANE WAH_OPCLASS_MB (WAH_FD + 88) SIMD;
   Row WAH_OP_V128_STORE16_LANE WAH_OPCLASS_MB (WAH_FD + 89) SIMD;
   Row WAH_OP_V128_STORE32_LANE WAH_OPCLASS_MB (WAH_FD + 90) SIMD;
   Row WAH_OP_V128_STORE64_LANE WAH_OPCLASS_MB (WAH_FD + 91) SIMD;
   Row WAH_OP_V128_STORE WAH_OPCLASS_M (WAH_FD + 11) SIMD;
   Row WAH_OP_I8X16_SHUFFLE WAH_OPCLASS_ (WAH_FD + 13) SIMD;
   Row WAH_OP_I8X16_SWIZZLE WAH_OPCLASS__VV_V (WAH_FD + 14) SIMD;
   Row WAH_OP_I8X16_EXTRACT_LANE_S WAH_OPCLASS_B (WAH_FD + 21) SIMD;
   Row WAH_OP_I8X16_EXTRACT_LANE_U WAH_OPCLASS_B (WAH_FD + 22) SIMD;
   Row WAH_OP_I8X16_REPLACE_LANE WAH_OPCLASS_B (WAH_FD + 23) SIMD;
   Row WAH_OP_I16X8_EXTRACT_LANE_S WAH_OPCLASS_B (WAH_FD + 24) SIMD;
   Row WAH_OP_I16X8_EXTRACT_LANE_U WAH_OPCLASS_B (WAH_FD + 25) SIMD;
   Row WAH_OP_I16X8_REPLACE_LANE WAH_OPCLASS_B (WAH_FD + 26) SIMD;
   Row WAH_OP_I32X4_EXTRACT_LANE WAH_OPCLASS_B (WAH_FD + 27) SIMD;
   Row WAH_OP_I32X4_REPLACE_LANE WAH_OPCLASS_B (WAH_FD + 28) SIMD;
   Row WAH_OP_I64X2_EXTRACT_LANE WAH_OPCLASS_B (WAH_FD + 29) SIMD;
   Row WAH_OP_I64X2_REPLACE_LANE WAH_OPCLASS_B (WAH_FD + 30) SIMD;
   Row WAH_OP_F32X4_EXTRACT_LANE WAH_OPCLASS_B (WAH_FD + 31) SIMD;
   Row WAH_OP_F32X4_REPLACE_LANE WAH_OPCLASS_B (WAH_FD + 32) SIMD;
   Row WAH_OP_F64X2_EXTRACT_LANE WAH_OPCLASS_B (WAH_FD + 33) SIMD;
   Row WAH_OP_F64X2_REPLACE_LANE WAH_OPCLASS_B (WAH_FD + 34) SIMD;
   Row WAH_OP_I8X16_SPLAT WAH_OPCLASS__I_V (WAH_FD + 15) SIMD;
   Row WAH_OP_I16X8_SPLAT WAH_OPCLASS__I_V (WAH_FD + 16) SIMD;
   Row WAH_OP_I32X4_SPLAT WAH_OPCLASS__I_V (WAH_FD + 17) SIMD;
   Row WAH_OP_I64X2_SPLAT WAH_OPCLASS__L_V (WAH_FD + 18) SIMD;
   Row WAH_OP_F32X4_SPLAT WAH_OPCLASS__F_V (WAH_FD + 19) SIMD;
   Row WAH_OP_F64X2_SPLAT WAH_OPCLASS__D_V (WAH_FD + 20) SIMD;
   Row WAH_OP_V128_CONST WAH_OPCLASS_ (WAH_FD + 12) SIMD].

(** [WAH_SIMD_OPCODES]: vector arithmetic and conversions. *)
Definition WAH_SIMD_OPCODES_NUM : list opcode_row :=
  [Row WAH_OP_V128_NOT WAH_OPCLASS__V_V (WAH_FD + 77) SIMD;
   Row WAH_OP_V128_AND WAH_OPCLASS__VV_V (WAH_FD + 78) SIMD;
   Row WAH_OP_V128_ANDNOT WAH_OPCLASS__VV_V (WAH_FD + 79) SIMD;
   Row WAH_OP_V128_OR WAH_OPCLASS__VV_V (WAH_FD + 80) SIMD;
   Row WAH_OP_V128_XOR WAH_OPCLASS__VV_V (WAH_FD + 81) SIMD;
   Row WAH_OP_V128_BITSELECT WAH_OPCLASS__VVV_V (WAH_FD + 82) SIMD;
   Row WAH_OP_V128_ANY_TRUE WAH_OPCLASS__V_I (WAH_FD + 83) SIMD;
   Row WAH_OP_I8X16_ABS WAH_OPCLASS__V_V (WAH_FD + 96) SIMD;
   Row WAH_OP_I8X16_NEG WAH_OPCLASS__V_V (WAH_FD + 97) SIMD;
   Row WAH_OP_I8X16_POPCNT WAH_OPCLASS__V_V (WAH_FD + 98) SIMD;
   Row WAH_OP_I8X16_ALL_TRUE WAH_OPCLASS__V_I (WAH_FD + 99) SIMD;
   Row WAH_OP_I8X16_BITMASK WAH_OPCLASS__V_I (WAH_FD + 100) SIMD;
   Row WAH_OP_I8X16_NARROW_I16X8_S WAH_OPCLASS__VV_V (WAH_FD + 101) SIMD;
   Row WAH_OP_I8X16_NARROW_I16X8_U WAH_OPCLASS__VV_V (WAH_FD + 102) SIMD;
   Row WAH_OP_I8X16_SHL WAH_OPCLASS__VI_V (WAH_FD + 107) SIMD;
   Row WAH_OP_I8X16_SHR_S WAH_OPCLASS__VI_V (WAH_FD + 108) SIMD;
   Row WAH_OP_I8X16_SHR_U WAH_OPCLASS__VI_V (WAH_FD + 109) SIMD;
   Row WAH_OP_I8X16_ADD WAH_OPCLASS__VV_V (WAH_FD + 110) SIMD;
   Row WAH_OP_I8X16_ADD_SAT_S WAH_OPCLASS__VV_V (WAH_FD + 111) SIMD;
   Row WAH_OP_I8X16_ADD_SAT_U WAH_OPCLASS__VV_V (WAH_FD + 112) SIMD;
   Row WAH_OP_I8X16_SUB WAH_OPCLASS__VV_V (WAH_FD + 113) SIMD;
   Row WAH_OP_I8X16_SUB_SAT_S WAH_OPCLASS__VV_V (WAH_FD + 114) SIMD;
   Row WAH_OP_I8X16_SUB_SAT_U WAH_OPCLASS__VV_V (WAH_FD + 115) SIMD;
   Row WAH_OP_I8X16_MIN_S WAH_OPCLASS__VV_V (WAH_FD + 118) SIMD;
   Row WAH_OP_I8X16_MIN_U WAH_OPCLASS__VV_V (WAH_FD + 119) SIMD;
   Row WAH_OP_I8X16_MAX_S WAH_OPCLASS__VV_V (WAH_FD + 120) SIMD;
   Row WAH_OP_I8X16_MAX_U WAH_OPCLASS__VV_V (WAH_FD + 121) SIMD;
   Row WAH_OP_I8X16_AVGR_U WAH_OPCLASS__VV_V (WAH_FD + 123) SIMD;
   Row WAH_OP_I16X8_EXTADD_PAIRWISE_I8X16_S WAH_OPCLASS__V_V (WAH_FD + 124) SIMD;
   Row WAH_OP_I16X8_EXTADD_PAIRWISE_I8X16_U WAH_OPCLASS__V_V (WAH_FD + 125) SIMD;
   Row WAH_OP_I16X8_ABS WAH_OPCLASS__V_V (WAH_FD + 128) SIMD;
   Row WAH_OP_I16X8_NEG WAH_OPCLASS__V_V (WAH_FD + 129) SIMD;
   Row WAH_OP_I16X8_Q15MULR_SAT_S WAH_OPCLASS__VV_V (WAH_FD + 130) SIMD;
   Row WAH_OP_I16X8_ALL_TRUE WAH_OPCLASS__V_I (WAH_FD + 131) SIMD;
   Row WAH_OP_I16X8_BITMASK WAH_OPCLASS__V_I (WAH_FD + 132) SIMD;
   Row WAH_OP_I16X8_NARROW_I32X4_S WAH_OPCLASS__VV_V (WAH_FD + 133) SIMD;
   Row WAH_OP_I16X8_NARROW_I32X4_U WAH_OPCLASS__VV_V (WAH_FD + 134) SIMD;
   Row WAH_OP_I16X8_EXTEND_LOW_I8X16_S WAH_OPCLASS__V_V (WAH_FD + 135) SIMD;
   Row WAH_OP_I16X8_EXTEND_HIGH_I8X16_S WAH_OPCLASS__V_V (WAH_FD + 136) SIMD;
   Row WAH_OP_I16X8_EXTEND_LOW_I8X16_U WAH_OPCLASS__V_V (WAH_FD + 137) SIMD;
   Row WAH_OP_I16X8_EXTEND_HIGH_I8X16_U WAH_OPCLASS__V_V (WAH_FD + 138) SIMD;
   Row WAH_OP_I16X8_SHL WAH_OPCLASS__VI_V (WAH_FD + 139) SIMD;
   Row WAH_OP_I16X8_SHR_S WAH_OPCLASS__VI_V (WAH_FD + 140) SIMD;
   Row WAH_OP_I16X8_SHR_U WAH_OPCLASS__VI_V (WAH_FD + 141) SIMD;
   Row WAH_OP_I16X8_ADD WAH_OPCLASS__VV_V (WAH_FD + 142) SIMD;
   Row WAH_OP_I16X8_ADD_SAT_S WAH_OPCLASS__VV_V (WAH_FD + 143) SIMD;
   Row WAH_OP_I16X8_ADD_SAT_U WAH_OPCLASS__VV_V (WAH_FD + 144) SIMD;
   Row WAH_OP_I16X8_SUB WAH_OPCLASS__VV_V (WAH_FD + 145) SIMD;
   Row WAH_OP_I16X8_SUB_SAT_S WAH_OPCLASS__VV_V (WAH_FD + 146) SIMD;
   Row WAH_OP_I16X8_SUB_SAT_U WAH_OPCLASS__VV_V (WAH_FD + 147) SIMD;
   Row WAH_OP_I16X8_MUL WAH_OPCLASS__VV_V (WAH_FD + 149) SIMD;
   Row WAH_OP_I16X8_MIN_S WAH_OPCLASS__VV_V (WAH_FD + 150) SIMD;
   Row WAH_OP_I16X8_MIN_U WAH_OPCLASS__VV_V (WAH_FD + 151) SIMD;
   Row WAH_OP_I16X8_MAX_S WAH_OPCLASS__VV_V (WAH_FD + 152) SIMD;
   Row WAH_OP_I16X8_MAX_U WAH_OPCLASS__VV_V (WAH_FD + 153) SIMD;
   Row WAH_OP_I16X8_AVGR_U WAH_OPCLASS__VV_V (WAH_FD + 155) SIMD;
   Row WAH_OP_I16X8_EXTMUL_LOW_I8X16_S WAH_OPCLASS__VV_V (WAH_FD + 156) SIMD;
   Row WAH_OP_I16X8_EXTMUL_HIGH_I8X16_S WAH_OPCLASS__VV_V (WAH_FD + 157) SIMD;
   Row WAH_OP_I16X8_EXTMUL_LOW_I8X16_U WAH_OPCLASS__VV_V (WAH_FD + 158) SIMD;
   Row WAH_OP_I16X8_EXTMUL_HIGH_I8X16_U WAH_OPCLASS__VV_V (WAH_FD + 159) SIMD;
   Row WAH_OP_I32X4_EXTADD_PAIRWISE_I16X8_S WAH_OPCLASS__V_V (WAH_FD + 126) SIMD;
   Row WAH_OP_I32X4_EXTADD_PAIRWISE_I16X8_U WAH_OPCLASS__V_V (WAH_FD + 127) SIMD;
   Row WAH_OP_I32X4_ABS WAH_OPCLASS__V_V (WAH_FD + 160) SIMD;
   Row WAH_OP_I32X4_NEG WAH_OPCLASS__V_V (WAH_FD + 161) SIMD;
   Row WAH_OP_I32X4_ALL_TRUE WAH_OPCLASS__V_I (WAH_FD + 163) SIMD;
   Row WAH_OP_I32X4_BITMASK WAH_OPCLASS__V_I (WAH_FD + 164) SIMD;
   Row WAH_OP_I32X4_EXTEND_LOW_I16X8_S WAH_OPCLASS__V_V (WAH_FD + 167) SIMD;
   Row WAH_OP_I32X4_EXTEND_HIGH_I16X8_S WAH_OPCLASS__V_V (WAH_FD + 168) SIMD;
   Row WAH_OP_I32X4_EXTEND_LOW_I16X8_U WAH_OPCLASS__V_V (WAH_FD + 169) SIMD;
   Row WAH_OP_I32X4_EXTEND_HIGH_I16X8_U WAH_OPCLASS__V_V (WAH_FD + 170) SIMD;
   Row WAH_OP_I32X4_SHL WAH_OPCLASS__VI_V (WAH_FD + 171) SIMD;
   Row WAH_OP_I32X4_SHR_S WAH_OPCLASS__VI_V (WAH_FD + 172) SIMD;
   Row WAH_OP_I32X4_SHR_U WAH_OPCLASS__VI_V (WAH_FD + 173) SIMD;
   Row WAH_OP_I32X4_ADD WAH_OPCLASS__VV_V (WAH_FD + 174) SIMD;
   Row WAH_OP_I32X4_SUB WAH_OPCLASS__VV_V (WAH_FD + 177) SIMD;
   Row WAH_OP_I32X4_MUL WAH_OPCLASS__VV_V (WAH_FD + 181) SIMD;
   Row WAH_OP_I32X4_MIN_S WAH_OPCLASS__VV_V (WAH_FD + 182) SIMD;
   Row WAH_OP_I32X4_MIN_U WAH_OPCLASS__VV_V (WAH_FD + 183) SIMD;
   Row WAH_OP_I32X4_MAX_S WAH_OPCLASS__VV_V (WAH_FD + 184) SIMD;
   Row WAH_OP_I32X4_MAX_U WAH_OPCLASS__VV_V (WAH_FD + 185) SIMD;
   Row WAH_OP_I32X4_DOT_I16X8_S WAH_OPCLASS__VV_V (WAH_FD + 186) SIMD;
   Row WAH_OP_I32X4_EXTMUL_LOW_I16X8_S WAH_OPCLASS__VV_V (WAH_FD + 188) SIMD;
   Row WAH_OP_I32X4_EXTMUL_HIGH_I16X8_S WAH_OPCLASS__VV_V (WAH_FD + 189) SIMD;
   Row WAH_OP_I32X4_EXTMUL_LOW_I16X8_U WAH_OPCLASS__VV_V (WAH_FD + 190) SIMD;
   Row WAH_OP_I32X4_EXTMUL_HIGH_I16X8_U WAH_OPCLASS__VV_V (WAH_FD + 191) SIMD;
   Row WAH_OP_I64X2_ABS WAH_OPCLASS__V_V (WAH_FD + 192) SIMD;
   Row WAH_OP_I64X2_NEG WAH_OPCLASS__V_V (WAH_FD + 193) SIMD;
   Row WAH_OP_I64X2_ALL_TRUE WAH_OPCLASS__V_I (WAH_FD + 195) SIMD;
   Row WAH_OP_I64X2_BITMASK WAH_OPCLASS__V_I (WAH_FD + 196) SIMD;
   Row WAH_OP_I64X2_EXTEND_LOW_I32X4_S WAH_OPCLASS__V_V (WAH_FD + 199) SIMD;
   Row WAH_OP_I64X2_EXTEND_HIGH_I32X4_S WAH_OPCLASS__V_V (WAH_FD + 200) SIMD;
   Row WAH_OP_I64X2_EXTEND_LOW_I32X4_U WAH_OPCLASS__V_V (WAH_FD + 201) SIMD;
   Row WAH_OP_I64X2_EXTEND_HIGH_I32X4_U WAH_OPCLASS__V_V (WAH_FD + 202) SIMD;
   Row WAH_OP_I64X2_SHL WAH_OPCLASS__VI_V (WAH_FD + 203) SIMD;
   Row WAH_OP_I64X2_SHR_S WAH_OPCLASS__VI_V (WAH_FD + 204) SIMD;
   Row WAH_OP_I64X2_SHR_U WAH_OPCLASS__VI_V (WAH_FD + 205) SIMD;
   Row WAH_OP_I64X2_ADD WAH_OPCLASS__VV_V (WAH_FD + 206) SIMD;
   Row WAH_OP_I64X2_SUB WAH_OPCLASS__VV_V (WAH_FD + 209) SIMD;
   Row WAH_OP_I64X2_MUL WAH_OPCLASS__VV_V (WAH_FD + 213) SIMD;
   Row WAH_OP_I64X2_EXTMUL_LOW_I32X4_S WAH_OPCLASS__VV_V (WAH_FD + 220) SIMD;
   Row WAH_OP_I64X2_EXTMUL_HIGH_I32X4_S WAH_OPCLASS__VV_V (WAH_FD + 221) SIMD;
   Row WAH_OP_I64X2_EXTMUL_LOW_I32X4_U WAH_OPCLASS__VV_V (WAH_FD + 222) SIMD;
   Row WAH_OP_I64X2_EXTMUL_HIGH_I32X4_U WAH_OPCLASS__VV_V (WAH_FD + 223) SIMD;
   Row WAH_OP_F32X4_CEIL WAH_OPCLASS__V_V (WAH_FD + 103) SIMD;
   Row WAH_OP_F32X4_FLOOR WAH_OPCLASS__V_V (WAH_FD + 104) SIMD;
   Row WAH_OP_F32X4_TRUNC WAH_OPCLASS__V_V (WAH_FD + 105) SIMD;
   Row WAH_OP_F32X4_NEAREST WAH_OPCLASS__V_V (WAH_FD + 106) SIMD;
   Row WAH_OP_F32X4_ABS WAH_OPCLASS__V_V (WAH_FD + 224) SIMD;
   Row WAH_OP_F32X4_NEG WAH_OPCLASS__V_V (WAH_FD + 225) SIMD;
   Row WAH_OP_F32X4_SQRT WAH_OPCLASS__V_V (WAH_FD + 227) SIMD;
   Row WAH_OP_F32X4_ADD WAH_OPCLASS__VV_V (WAH_FD + 228) SIMD;
   Row WAH_OP_F32X4_SUB WAH_OPCLASS__VV_V (WAH_FD + 229) SIMD;
   Row WAH_OP_F32X4_MUL WAH_OPCLASS__VV_V (WAH_FD + 230) SIMD;
   Row WAH_OP_F32X4_DIV WAH_OPCLASS__VV_V (WAH_FD + 231) SIMD;
   Row WAH_OP_F32X4_MIN WAH_OPCLASS__VV_V (WAH_FD + 232) SIMD;
   Row WAH_OP_F32X4_MAX WAH_OPCLASS__VV_V (WAH_FD + 233) SIMD;
   Row WAH_OP_F32X4_PMIN WAH_OPCLASS__VV_V (WAH_FD + 234) SIMD;
   Row WAH_OP_F32X4_PMAX WAH_OPCLASS__VV_V (WAH_FD + 235) SIMD;
   Row WAH_OP_F64X2_CEIL WAH_OPCLASS__V_V (WAH_FD + 116) SIMD;
   Row WAH_OP_F64X2_FLOOR WAH_OPCLASS__V_V (WAH_FD + 117) SIMD;
   Row WAH_OP_F64X2_TRUNC WAH_OPCLASS__V_V (WAH_FD + 122) SIMD;
   Row WAH_OP_F64X2_NEAREST WAH_OPCLASS__V_V (WAH_FD + 148) SIMD;
   Row WAH_OP_F64X2_ABS WAH_OPCLASS__V_V (WAH_FD + 236) SIMD;
   Row WAH_OP_F64X2_NEG WAH_OPCLASS__V_V (WAH_FD + 237) SIMD;
   Row WAH_OP_F64X2_SQRT WAH_OPCLASS__V_V (WAH_FD + 239) SIMD;
   Row WAH_OP_F64X2_ADD WAH_OPCLASS__VV_V (WAH_FD + 240) SIMD;
   Row WAH_OP_F64X2_SUB WAH_OPCLASS__VV_V (WAH_FD + 241) SIMD;
   Row WAH_OP_F64X2_MUL WAH_OPCLASS__VV_V (WAH_FD + 242) SIMD;
   Row WAH_OP_F64X2_DIV WAH_OPCLASS__VV_V (WAH_FD + 243) SIMD;
   Row WAH_OP_F64X2_MIN WAH_OPCLASS__VV_V (WAH_FD + 244) SIMD;
   Row WAH_OP_F64X2_MAX WAH_OPCLASS__VV_V (WAH_FD + 245) SIMD;
   Row WAH_OP_F64X2_PMIN WAH_OPCLASS__VV_V (WAH_FD + 246) SIMD;
   Row WAH_OP_F64X2_PMAX WAH_OPCLASS__VV_V (WAH_FD + 247) SIMD;
   Row WAH_OP_I32X4_TRUNC_SAT_F32X4_S WAH_OPCLASS__V_V (WAH_FD + 248) SIMD;
   Row WAH_OP_I32X4_TRUNC_SAT_F32X4_U WAH_OPCLASS__V_V (WAH_FD + 249) SIMD;
   Row WAH_OP_F32X4_CONVERT_I32X4_S WAH_OPCLASS__V_V (WAH_FD + 250) SIMD;
   Row WAH_OP_F32X4_CONVERT_I32X4_U WAH_OPCLASS__V_V (WAH_FD + 251) SIMD;
   Row WAH_OP_I32X4_TRUNC_SAT_F64X2_S_ZERO WAH_OPCLASS__V_V (WAH_FD + 252) SIMD;
   Row WAH_OP_I32X4_TRUNC_SAT_F64X2_U_ZERO WAH_OPCLASS__V_V (WAH_FD + 253) SIMD;
   Row WAH_OP_F64X2_CONVERT_LOW_I32X4_S WAH_OPCLASS__V_V (WAH_FD + 254) SIMD;
   Row WAH_OP_F64X2_CONVERT_LOW_I32X4_U WAH_OPCLASS__V_V (WAH_FD + 255) SIMD;
   Row WAH_OP_F32X4_DEMOTE_F64X2_ZERO WAH_OPCLASS__V_V (WAH_FD + 94) SIMD;
   Row WAH_OP_F64X2_PROMOTE_LOW_F32X4 WAH_OPCLASS__V_V (WAH_FD + 95) SIMD].

(** [WAH_SIMD_OPCODES]: relaxed SIMD and comparisons. *)
Definition WAH_SIMD_OPCODES_CMP : list opcode_row :=
  [Row WAH_OP_I8X16_RELAXED_SWIZZLE WAH_OPCLASS__VV_V (WAH_FD + 256) RELAXED_SIMD;
   Row WAH_OP_I32X4_RELAXED_TRUNC_F32X4_S WAH_OPCLASS__V_V (WAH_FD + 257) RELAXED_SIMD;
   Row WAH_OP_I32X4_RELAXED_TRUNC_F32X4_U WAH_OPCLASS__V_V (WAH_FD + 258) RELAXED_SIMD;
   Row WAH_OP_I32X4_RELAXED_TRUNC_F64X2_S WAH_OPCLASS__V_V (WAH_FD + 259) RELAXED_SIMD;
   Row WAH_OP_I32X4_RELAXED_TRUNC_F64X2_U WAH_OPCLASS__V_V (WAH_FD + 260) RELAXED_SIMD;
   Row WAH_OP_F32X4_RELAXED_MADD WAH_OPCLASS__VVV_V (WAH_FD + 261) RELAXED_SIMD;
   Row WAH_OP_F32X4_RELAXED_NMADD WAH_OPCLASS__VVV_V (WAH_FD + 262) RELAXED_SIMD;
   Row WAH_OP_F64X2_RELAXED_MADD WAH_OPCLASS__VVV_V (WAH_FD + 263) RELAXED_SIMD;
   Row WAH_OP_F64X2_RELAXED_NMADD WAH_OPCLASS__VVV_V (WAH_FD + 264) RELAXED_SIMD;
   Row WAH_OP_I8X16_RELAXED_LANESELECT WAH_OPCLASS__VVV_V (WAH_FD + 265) RELAXED_SIMD;
   Row WAH_OP_I16X8_RELAXED_LANESELECT WAH_OPCLASS__VVV_V (WAH_FD + 266) RELAXED_SIMD;
   Row WAH_OP_I32X4_RELAXED_LANESELECT WAH_OPCLASS__VVV_V (WAH_FD + 267) RELAXED_SIMD;
   Row WAH_OP_I64X2_RELAXED_LANESELECT WAH_OPCLASS__VVV_V (WAH_FD + 268) RELAXED_SIMD;
   Row WAH_OP_F32X4_RELAXED_MIN WAH_OPCLASS__VV_V (WAH_FD + 269) RELAXED_SIMD;
   Row WAH_OP_F32X4_RELAXED_MAX WAH_OPCLASS__VV_V (WAH_FD + 270) RELAXED_SIMD;
   Row WAH_OP_F64X2_RELAXED_MIN WAH_OPCLASS__VV_V (WAH_FD + 271) RELAXED_SIMD;
   Row WAH_OP_F64X2_RELAXED_MAX WAH_OPCLASS__VV_V (WAH_FD + 272) RELAXED_SIMD;
   Row WAH_OP_I16X8_RELAXED_Q15MULR_S WAH_OPCLASS__VV_V (WAH_FD + 273) RELAXED_SIMD;
   Row WAH_OP_I16X8_RELAXED_DOT_I8X16_I7X16_S WAH_OPCLASS__VV_V (WAH_FD + 274) RELAXED_SIMD;
   Row WAH_OP_I32X4_RELAXED_DOT_I8X16_I7X16_ADD_S WAH_OPCLASS__VVV_V (WAH_FD + 275) RELAXED_SIMD;
   Row WAH_OP_I8X16_EQ WAH_OPCLASS__VV_V (WAH_FD + 35) SIMD;
   Row WAH_OP_I8X16_NE WAH_OPCLASS__VV_V (WAH_FD + 36) SIMD;
   Row WAH_OP_I8X16_LT_S WAH_OPCLASS__VV_V (WAH_FD + 37) SIMD;
   Row WAH_OP_I8X16_LT_U WAH_OPCLASS__VV_V (WAH_FD + 38) SIMD;
   Row WAH_OP_I8X16_GT_S WAH_OPCLASS__VV_V (WAH_FD + 39) SIMD;
   Row WAH_OP_I8X16_GT_U WAH_OPCLASS__VV_V (WAH_FD + 40) SIMD;
   Row WAH_OP_I8X16_LE_S WAH_OPCLASS__VV_V (WAH_FD + 41) SIMD;
   Row WAH_OP_I8X16_LE_U WAH_OPCLASS__VV_V (WAH_FD + 42) SIMD;
   Row WAH_OP_I8X16_GE_S WAH_OPCLASS__VV_V (WAH_FD + 43) SIMD;
   Row WAH_OP_I8X16_GE_U WAH_OPCLASS__VV_V (WAH_FD + 44) SIMD;
   Row WAH_OP_I16X8_EQ WAH_OPCLASS__VV_V (WAH_FD + 45) SIMD;
   Row WAH_OP_I16X8_NE WAH_OPCLASS__VV_V (WAH_FD + 46) SIMD;
   Row WAH_OP_I16X8_LT_S WAH_OPCLASS__VV_V (WAH_FD + 47) SIMD;
   Row WAH_OP_I16X8_LT_U WAH_OPCLASS__VV_V (WAH_FD + 48) SIMD;
   Row WAH_OP_I16X8_GT_S WAH_OPCLASS__VV_V (WAH_FD + 49) SIMD;
   Row WAH_OP_I16X8_GT_U WAH_OPCLASS__VV_V (WAH_FD + 50) SIMD;
   Row WAH_OP_I16X8_LE_S WAH_OPCLASS__VV_V (WAH_FD + 51) SIMD;
   Row WAH_OP_I16X8_LE_U WAH_OPCLASS__VV_V (WAH_FD + 52) SIMD;
   Row WAH_OP_I16X8_GE_S WAH_OPCLASS__VV_V (WAH_FD + 53) SIMD;
   Row WAH_OP_I16X8_GE_U WAH_OPCLASS__VV_V (WAH_FD + 54) SIMD;
   Row WAH_OP_I32X4_EQ WAH_OPCLASS__VV_V (WAH_FD + 55) SIMD;
   Row WAH_OP_I32X4_NE WAH_OPCLASS__VV_V (WAH_FD + 56) SIMD;
   Row WAH_OP_I32X4_LT_S WAH_OPCLASS__VV_V (WAH_FD + 57) SIMD;
   Row WAH_OP_I32X4_LT_U WAH_OPCLASS__VV_V (WAH_FD + 58) SIMD;
   Row WAH_OP_I32X4_GT_S WAH_OPCLASS__VV_V (WAH_FD + 59) SIMD;
   Row WAH_OP_I32X4_GT_U WAH_OPCLASS__VV_V (WAH_FD + 60) SIMD;
   Row WAH_OP_I32X4_LE_S WAH_OPCLASS__VV_V (WAH_FD + 61) SIMD;
   Row WAH_OP_I32X4_LE_U WAH_OPCLASS__VV_V (WAH_FD + 62) SIMD;
   Row WAH_OP_I32X4_GE_S WAH_OPCLASS__VV_V (WAH_FD + 63) SIMD;
   Row WAH_OP_I32X4_GE_U WAH_OPCLASS__VV_V (WAH_FD + 64) SIMD;
   Row WAH_OP_I64X2_EQ WAH_OPCLASS__VV_V (WAH_FD + 214) SIMD;
   Row WAH_OP_I64X2_NE WAH_OPCLASS__VV_V (WAH_FD + 215) SIMD;
   Row WAH_OP_I64X2_LT_S WAH_OPCLASS__VV_V (WAH_FD + 216) SIMD;
   Row WAH_OP_I64X2_GT_S WAH_OPCLASS__VV_V (WAH_FD + 217) SIMD;
   Row WAH_OP_I64X2_LE_S WAH_OPCLASS__VV_V (WAH_FD + 218) SIMD;
   Row WAH_OP_I64X2_GE_S WAH_OPCLASS__VV_V (WAH_FD + 219) SIMD;
   Row WAH_OP_F32X4_EQ WAH_OPCLASS__VV_V (WAH_FD + 65) SIMD;
   Row WAH_OP_F32X4_NE WAH_OPCLASS__VV_V (WAH_FD + 66) SIMD;
   Row WAH_OP_F32X4_LT WAH_OPCLASS__VV_V (WAH_FD + 67) SIMD;
   Row WAH_OP_F32X4_GT WAH_OPCLASS__VV_V (WAH_FD + 68) SIMD;
   Row WAH_OP_F32X4_LE WAH_OPCLASS__VV_V (WAH_FD + 69) SIMD;
   Row WAH_OP_F32X4_GE WAH_OPCLASS__VV_V (WAH_FD + 70) SIMD;
   Row WAH_OP_F64X2_EQ WAH_OPCLASS__VV_V (WAH_FD + 71) SIMD;
   Row WAH_OP_F64X2_NE WAH_OPCLASS__VV_V (WAH_FD + 72) SIMD;
   Row WAH_OP_F64X2_LT WAH_OPCLASS__VV_V (WAH_FD + 73) SIMD;
   Row WAH_OP_F64X2_GT WAH_OPCLASS__VV_V (WAH_FD + 74) SIMD;
   Row WAH_OP_F64X2_LE WAH_OPCLASS__VV_V (WAH_FD + 75) SIMD;
   Row WAH_OP_F64X2_GE WAH_OPCLASS__VV_V (WAH_FD + 76) SIMD].

(** [WAH_OPCODES(X)], which ends with the GC and SIMD listings. *)
Definition WAH_OPCODES : list opcode_row :=
  WAH_OPCODES_MAIN ++ WAH_GC_OPCODES ++
  WAH_SIMD_OPCODES_LANES ++ WAH_SIMD_OPCODES_NUM ++ WAH_SIMD_OPCODES_CMP.

(** Opcodes that only exist in lowered code: a base opcode with a suffix. *)
Inductive wah_op_suffix := sfx_i32_mem0 | sfx_i32_to_i64 | sfx_i64 | sfx_i64_mem0 | sfx_i64_to_i32 | sfx_i64_to_i64.

Definition WAH_I32_MEM0_OPCODES_M : list (wah_op * wah_op_suffix) :=
  [(WAH_OP_I32_LOAD, sfx_i32_mem0); (WAH_OP_I64_LOAD, sfx_i32_mem0); (WAH_OP_F32_LOAD, sfx_i32_mem0);
   (WAH_OP_F64_LOAD, sfx_i32_mem0); (WAH_OP_I32_LOAD8_S, sfx_i32_mem0); (WAH_OP_I32_LOAD8_U, sfx_i32_mem0);
   (WAH_OP_I32_LOAD16_S, sfx_i32_mem0); (WAH_OP_I32_LOAD16_U, sfx_i32_mem0); (WAH_OP_I64_LOAD8_S, sfx_i32_mem0);
   (WAH_OP_I64_LOAD8_U, sfx_i32_mem0); (WAH_OP_I64_LOAD16_S, sfx_i32_mem0); (WAH_OP_I64_LOAD16_U, sfx_i32_mem0);
   (WAH_OP_I64_LOAD32_S, sfx_i32_mem0); (WAH_OP_I64_LOAD32_U, sfx_i32_mem0); (WAH_OP_I32_STORE, sfx_i32_mem0);
   (WAH_OP_I64_STORE, sfx_i32_mem0); (WAH_OP_F32_STORE, sfx_i32_mem0); (WAH_OP_F64_STORE, sfx_i32_mem0);
   (WAH_OP_I32_STORE8, sfx_i32_mem0); (WAH_OP_I32_STORE16, sfx_i32_mem0); (WAH_OP_I64_STORE8, sfx_i32_mem0);
   (WAH_OP_I64_STORE16, sfx_i32_mem0); (WAH_OP_I64_STORE32, sfx_i32_mem0); (WAH_OP_V128_LOAD, sfx_i32_mem0);
   (WAH_OP_V128_LOAD8X8_S, sfx_i32_mem0); (WAH_OP_V128_LOAD8X8_U, sfx_i32_mem0); (WAH_OP_V128_LOAD16X4_S, sfx_i32_mem0);
   (WAH_OP_V128_LOAD16X4_U, sfx_i32_mem0); (WAH_OP_V128_LOAD32X2_S, sfx_i32_mem0); (WAH_OP_V128_LOAD32X2_U, sfx_i32_mem0);
   (WAH_OP_V128_LOAD8_SPLAT, sfx_i32_mem0); (WAH_OP_V128_LOAD16_SPLAT, sfx_i32_mem0); (WAH_OP_V128_LOAD32_SPLAT, sfx_i32_mem0);
   (WAH_OP_V128_LOAD64_SPLAT, sfx_i32_mem0); (WAH_OP_V128_LOAD32_ZERO, sfx_i32_mem0); (WAH_OP_V128_LOAD64_ZERO, sfx_i32_mem0);
   (WAH_OP_V128_STORE, sfx_i32_mem0)].

Definition WAH_I32_MEM0_OPCODES_MB : list (wah_op * wah_op_suffix) :=
  [(WAH_OP_V128_LOAD8_LANE, sfx_i32_mem0); (WAH_OP_V128_LOAD16_LANE, sfx_i32_mem0); (WAH_OP_V128_LOAD32_LANE, sfx_i32_mem0);
   (WAH_OP_V128_LOAD64_LANE, sfx_i32_mem0); (WAH_OP_V128_STORE8_LANE, sfx_i32_mem0); (WAH_OP_V128_STORE16_LANE, sfx_i32_mem0);
   (WAH_OP_V128_STORE32_LANE, sfx_i32_mem0); (WAH_OP_V128_STORE64_LANE, sfx_i32_mem0)].

Definition WAH_I64_MEM_OPCODES_M : list (wah_op * wah_op_suffix) :=
  [(WAH_OP_I32_LOAD, sfx_i64); (WAH_OP_I64_LOAD, sfx_i64); (WAH_OP_F32_LOAD, sfx_i64);
   (WAH_OP_F64_LOAD, sfx_i64); (WAH_OP_I32_LOAD8_S, sfx_i64); (WAH_OP_I32_LOAD8_U, sfx_i64);
   (WAH_OP_I32_LOAD16_S, sfx_i64); (WAH_OP_I32_LOAD16_U, sfx_i64); (WAH_OP_I64_LOAD8_S, sfx_i64);
   (WAH_OP_I64_LOAD8_U, sfx_i64); (WAH_OP_I64_LOAD16_S, sfx_i64); (WAH_OP_I64_LOAD16_U, sfx_i64);
   (WAH_OP_I64_LOAD32_S, sfx_i64); (WAH_OP_I64_LOAD32_U, sfx_i64); (WAH_OP_I32_STORE, sfx_i64);
   (WAH_OP_I64_STORE, sfx_i64); (WAH_OP_F32_STORE, sfx_i64); (WAH_OP_F64_STORE, sfx_i64);
   (WAH_OP_I32_STORE8, sfx_i64); (WAH_OP_I32_STORE16, sfx_i64); (WAH_OP_I64_STORE8, sfx_i64);
   (WAH_OP_I64_STORE16, sfx_i64); (WAH_OP_I64_STORE32, sfx_i64); (WAH_OP_V128_LOAD, sfx_i64);
   (WAH_OP_V128_LOAD8X8_S, sfx_i64); (WAH_OP_V128_LOAD8X8_U, sfx_i64); (WAH_OP_V128_LOAD16X4_S, sfx_i64);
   (WAH_OP_V128_LOAD16X4_U, sfx_i64); (WAH_OP_V128_LOAD32X2_S, sfx_i64); (WAH_OP_V128_LOAD32X2_U, sfx_i64);
   (WAH_OP_V128_LOAD8_SPLAT, sfx_i64); (WAH_OP_V128_LOAD16_SPLAT, sfx_i64); (WAH_OP_V128_LOAD32_SPLAT, sfx_i64);
   (WAH_OP_V128_LOAD64_SPLAT, sfx_i64); (WAH_OP_V128_LOAD32_ZERO, sfx_i64); (WAH_OP_V128_LOAD64_ZERO, sfx_i64);
   (WAH_OP_V128_STORE, sfx_i64)].

Definition WAH_I64_MEM_OPCODES_MB : list (wah_op * wah_op_suffix) :=
  [(WAH_OP_V128_LOAD8_LANE, sfx_i64); (WAH_OP_V128_LOAD16_LANE, sfx_i64); (WAH_OP_V128_LOAD32_LANE, sfx_i64);
   (WAH_OP_V128_LOAD64_LANE, sfx_i64); (WAH_OP_V128_STORE8_LANE, sfx_i64); (WAH_OP_V128_STORE16_LANE, sfx_i64);
   (WAH_OP_V128_STORE32_LANE, sfx_i64); (WAH_OP_V128_STORE64_LANE, sfx_i64)].

Definition WAH_I64_MEM0_OPCODES_M : list (wah_op * wah_op_suffix) :=
  [(WAH_OP_I32_LOAD, sfx_i64_mem0); (WAH_OP_I64_LOAD, sfx_i64_mem0); (WAH_OP_F32_LOAD, sfx_i64_mem0);
   (WAH_OP_F64_LOAD, sfx_i64_mem0); (WAH_OP_I32_LOAD8_S, sfx_i64_mem0); (WAH_OP_I32_LOAD8_U, sfx_i64_mem0);
   (WAH_OP_I32_LOAD16_S, sfx_i64_mem0); (WAH_OP_I32_LOAD16_U, sfx_i64_mem0); (WAH_OP_I64_LOAD8_S, sfx_i64_mem0);
   (WAH_OP_I64_LOAD8_U, sfx_i64_mem0); (WAH_OP_I64_LOAD16_S, sfx_i64_mem0); (WAH_OP_I64_LOAD16_U, sfx_i64_mem0);
   (WAH_OP_I64_LOAD32_S, sfx_i64_mem0); (WAH_OP_I64_LOAD32_U, sfx_i64_mem0); (WAH_OP_I32_STORE, sfx_i64_mem0);
   (WAH_OP_I64_STORE, sfx_i64_mem0); (WAH_OP_F32_STORE, sfx_i64_mem0); (WAH_OP_F64_STORE, sfx_i64_mem0);
   (WAH_OP_I32_STORE8, sfx_i64_mem0); (WAH_OP_I32_STORE16, sfx_i64_mem0); (WAH_OP_I64_STORE8, sfx_i64_mem0);
   (WAH_OP_I64_STORE16, sfx_i64_mem0); (WAH_OP_I64_STORE32, sfx_i64_mem0); (WAH_OP_V128_LOAD, sfx_i64_mem0);
   (WAH_OP_V128_LOAD8X8_S, sfx_i64_mem0); (WAH_OP_V128_LOAD8X8_U, sfx_i64_mem0); (WAH_OP_V128_LOAD16X4_S, sfx_i64_mem0);
   (WAH_OP_V128_LOAD16X4_U, sfx_i64_mem0); (WAH_OP_V128_LOAD32X2_S, sfx_i64_mem0); (WAH_OP_V128_LOAD32X2_U, sfx_i64_mem0);
   (WAH_OP_V128_LOAD8_SPLAT, sfx_i64_mem0); (WAH_OP_V128_LOAD16_SPLAT, sfx_i64_mem0); (WAH_OP_V128_LOAD32_SPLAT, sfx_i64_mem0);
   (WAH_OP_V128_LOAD64_SPLAT, sfx_i64_mem0); (WAH_OP_V128_LOAD32_ZERO, sfx_i64_mem0); (WAH_OP_V128_LOAD64_ZERO, sfx_i64_mem0);
   (WAH_OP_V128_STORE, sfx_i64_mem0)].

Definition WAH_I64_MEM0_OPCODES_MB : list (wah_op * wah_op_suffix) :=
  [(WAH_OP_V128_LOAD8_LANE, sfx_i64_mem0); (WAH_OP_V128_LOAD16_LANE, sfx_i64_mem0); (WAH_OP_V128_LOAD32_LANE, sfx_i64_mem0);
   (WAH_OP_V128_LOAD64_LANE, sfx_i64_mem0); (WAH_OP_V128_STORE8_LANE, sfx_i64_mem0); (WAH_OP_V128_STORE16_LANE, sfx_i64_mem0);
   (WAH_OP_V128_STORE32_LANE, sfx_i64_mem0); (WAH_OP_V128_STORE64_LANE, sfx_i64_mem0)].

Definition WAH_I64_OTHER_OPCODES : list (wah_op * wah_op_suffix) :=
  [(WAH_OP_MEMORY_SIZE, sfx_i64); (WAH_OP_MEMORY_GROW, sfx_i64); (WAH_OP_MEMORY_FILL, sfx_i64);
   (WAH_OP_MEMORY_INIT, sfx_i64); (WAH_OP_MEMORY_COPY, sfx_i32_to_i64); (WAH_OP_MEMORY_COPY, sfx_i64_to_i32);
   (WAH_OP_MEMORY_COPY, sfx_i64_to_i64); (WAH_OP_TABLE_GET, sfx_i64); (WAH_OP_TABLE_SET, sfx_i64);
   (WAH_OP_TABLE_SIZE, sfx_i64); (WAH_OP_TABLE_GROW, sfx_i64); (WAH_OP_TABLE_FILL, sfx_i64);
   (WAH_OP_TABLE_COPY, sfx_i32_to_i64); (WAH_OP_TABLE_COPY, sfx_i64_to_i32); (WAH_OP_TABLE_COPY, sfx_i64_to_i64);
   (WAH_OP_TABLE_INIT, sfx_i64); (WAH_OP_CALL_INDIRECT, sfx_i64); (WAH_OP_RETURN_CALL_INDIRECT, sfx_i64)].

Definition WAH_EXTRA_OPCODES : list (wah_op * wah_op_suffix) :=
  WAH_I32_MEM0_OPCODES_M ++ WAH_I32_MEM0_OPCODES_MB ++
  WAH_I64_MEM_OPCODES_M ++ WAH_I64_MEM_OPCODES_MB ++
  WAH_I64_MEM0_OPCODES_M ++ WAH_I64_MEM0_OPCODES_MB ++ WAH_I64_OTHER_OPCODES.

Inductive wah_internal_op :=
| WAH_IOP_POLL | WAH_IOP_METER | WAH_IOP_TICK | WAH_IOP_END_TRY_TABLE | WAH_IOP_TRIM_HANDLERS
| WAH_IOP_GLOBAL_GET_INDIRECT | WAH_IOP_GLOBAL_SET_INDIRECT | WAH_IOP_STRUCT_GET_S8 | WAH_IOP_STRUCT_GET_S16 | WAH_IOP_STRUCT_GET_U8
| WAH_IOP_STRUCT_GET_U16 | WAH_IOP_STRUCT_GET_32 | WAH_IOP_STRUCT_GET_64 | WAH_IOP_STRUCT_GET_128 | WAH_IOP_STRUCT_SET_8
| WAH_IOP_STRUCT_SET_16 | WAH_IOP_STRUCT_SET_32 | WAH_IOP_STRUCT_SET_64 | WAH_IOP_STRUCT_SET_128 | WAH_IOP_ARRAY_GET_S8
| WAH_IOP_ARRAY_GET_S16 | WAH_IOP_ARRAY_GET_U8 | WAH_IOP_ARRAY_GET_U16 | WAH_IOP_ARRAY_GET_32 | WAH_IOP_ARRAY_GET_64
| WAH_IOP_ARRAY_GET_128 | WAH_IOP_ARRAY_SET_8 | WAH_IOP_ARRAY_SET_16 | WAH_IOP_ARRAY_SET_32 | WAH_IOP_ARRAY_SET_64
| WAH_IOP_ARRAY_SET_128.

Definition wah_internal_op_index (op : wah_internal_op) : Z :=
  match op with
  | WAH_IOP_POLL => 0
  | WAH_IOP_METER => 1
  | WAH_IOP_TICK => 2
  | WAH_IOP_END_TRY_TABLE => 3
  | WAH_IOP_TRIM_HANDLERS => 4
  | WAH_IOP_GLOBAL_GET_INDIRECT => 5
  | WAH_IOP_GLOBAL_SET_INDIRECT => 6
  | WAH_IOP_STRUCT_GET_S8 => 7
  | WAH_IOP_STRUCT_GET_S16 => 8
  | WAH_IOP_STRUCT_GET_U8 => 9
  | WAH_IOP_STRUCT_GET_U16 => 10
  | WAH_IOP_STRUCT_GET_32 => 11
  | WAH_IOP_STRUCT_GET_64 => 12
  | WAH_IOP_STRUCT_GET_128 => 13
  | WAH_IOP_STRUCT_SET_8 => 14
  | WAH_IOP_STRUCT_SET_16 => 15
  | WAH_IOP_STRUCT_SET_32 => 16
  | WAH_IOP_STRUCT_SET_64 => 17
  | WAH_IOP_STRUCT_SET_128 => 18
  | WAH_IOP_ARRAY_GET_S8 => 19
  | WAH_IOP_ARRAY_GET_S16 => 20
  | WAH_IOP_ARRAY_GET_U8 => 21
  | WAH_IOP_ARRAY_GET_U16 => 22
  | WAH_IOP_ARRAY_GET_32 => 23
  | WAH_IOP_ARRAY_GET_64 => 24
  | WAH_IOP_ARRAY_GET_128 => 25
  | WAH_IOP_ARRAY_SET_8 => 26
  | WAH_IOP_ARRAY_SET_16 => 27
  | WAH_IOP_ARRAY_SET_32 => 28
  | WAH_IOP_ARRAY_SET_64 => 29
  | WAH_IOP_ARRAY_SET_128 => 30
  end.

Definition WAH_INTERNAL_OPCODES : list wah_internal_op :=
  [WAH_IOP_POLL; WAH_IOP_METER; WAH_IOP_TICK; WAH_IOP_END_TRY_TABLE;
   WAH_IOP_TRIM_HANDLERS; WAH_IOP_GLOBAL_GET_INDIRECT; WAH_IOP_GLOBAL_SET_INDIRECT; WAH_IOP_STRUCT_GET_S8;
   WAH_IOP_STRUCT_GET_S16; WAH_IOP_STRUCT_GET_U8; WAH_IOP_STRUCT_GET_U16; WAH_IOP_STRUCT_GET_32;
   WAH_IOP_STRUCT_GET_64; WAH_IOP_STRUCT_GET_128; WAH_IOP_STRUCT_SET_8; WAH_IOP_STRUCT_SET_16;
   WAH_IOP_STRUCT_SET_32; WAH_IOP_STRUCT_SET_64; WAH_IOP_STRUCT_SET_128; WAH_IOP_ARRAY_GET_S8;
   WAH_IOP_ARRAY_GET_S16; WAH_IOP_ARRAY_GET_U8; WAH_IOP_ARRAY_GET_U16; WAH_IOP_ARRAY_GET_32;
   WAH_IOP_ARRAY_GET_64; WAH_IOP_ARRAY_GET_128; WAH_IOP_ARRAY_SET_8; WAH_IOP_ARRAY_SET_16;
   WAH_IOP_ARRAY_SET_32; WAH_IOP_ARRAY_SET_64; WAH_IOP_ARRAY_SET_128].

(** The value of every enumerator of [wah_opcode_t] in the order of its
    declaration: the listed values, then consecutive values from [WAH_FE]. *)
Definition wah_opcode_t_values : list Z :=
  (row_val <$> WAH_OPCODES) ++
  zrange WAH_FE (WAH_FE + zlen WAH_INTERNAL_OPCODES + zlen WAH_EXTRA_OPCODES).
Definition WAH_NUM_OPCODES : Z :=
  WAH_FE + zlen WAH_INTERNAL_OPCODES + zlen WAH_EXTRA_OPCODES.

(** [static const uint8_t wah_opclasses[WAH_FE]]: designated initializers, in
    order, over an array of [WAH_OPCLASS_MISSING]. *)
Definition wah_opclasses : list wah_opclass_t :=
  foldl (fun t r => <[Z.to_nat (row_val r) := row_class r]> t)
        (replicate (Z.to_nat WAH_FE) WAH_OPCLASS_MISSING) WAH_OPCODES.

(** [static const uint8_t wah_opcode_features[WAH_FE]]. *)
Definition wah_opcode_features : list Z :=
  foldl (fun t r => <[Z.to_nat (row_val r) := wah_feature_shift (row_feat r)]> t)
        (replicate (Z.to_nat WAH_FE) 0) WAH_OPCODES.

Definition wah_opclass_code (c : wah_opclass_t) : Z :=
  match c with
  | WAH_OPCLASS_MISSING => 0
  | WAH_OPCLASS_ => 1
  | WAH_OPCLASS__I_I => 2
  | WAH_OPCLASS__I_L => 3
  | WAH_OPCLASS__I_F => 4
  | WAH_OPCLASS__I_D => 5
  | WAH_OPCLASS__I_V => 6
  | WAH_OPCLASS__II_I => 7
  | WAH_OPCLASS__IV_V => 8
  | WAH_OPCLASS__L_I => 9
  | WAH_OPCLASS__L_L => 10
  | WAH_OPCLASS__L_F => 11
  | WAH_OPCLASS__L_D => 12
  | WAH_OPCLASS__L_V => 13
  | WAH_OPCLASS__LL_I => 14
  | WAH_OPCLASS__LL_L => 15
  | WAH_OPCLASS__LV_V => 16
  | WAH_OPCLASS__F_I => 17
  | WAH_OPCLASS__F_L => 18
  | WAH_OPCLASS__F_F => 19
  | WAH_OPCLASS__F_V => 20
  | WAH_OPCLASS__FF_I => 21
  | WAH_OPCLASS__FF_F => 22
  | WAH_OPCLASS__D_I => 23
  | WAH_OPCLASS__D_L => 24
  | WAH_OPCLASS__D_D => 25
  | WAH_OPCLASS__D_V => 26
  | WAH_OPCLASS__DD_I => 27
  | WAH_OPCLASS__DD_L => 28
  | WAH_OPCLASS__DD_D => 29
  | WAH_OPCLASS__V_I => 30
  | WAH_OPCLASS__V_V => 31
  | WAH_OPCLASS__VI_V => 32
  | WAH_OPCLASS__VV_V => 33
  | WAH_OPCLASS__VVV_V => 34
  | WAH_OPCLASS_B => 35
  | WAH_OPCLASS_I => 36
  | WAH_OPCLASS_II => 37
  | WAH_OPCLASS_M => 38
  | WAH_OPCLASS_MB => 39
  end.

(** ** Theorems *)

Definition opclass_eqb (a b : wah_opclass_t) : bool := wah_opclass_code a =? wah_opclass_code b.

Lemma opclass_eqb_spec a b : opclass_eqb a b = true <-> a = b.
Proof. destruct a, b; split; (done || discriminate). Qed.

Definition opclass_present (v : Z) : bool :=
  match zget wah_opclasses v with
  | Some c => negb (opclass_eqb c WAH_OPCLASS_MISSING)
  | None => false
  end.

(** The checks of the theorem below, as one boolean computation. *)
Definition opcode_row_ok (r : opcode_row) : bool :=
  (0 <=? row_val r) && (row_val r <? WAH_FE) && (row_val r =? wah_op_value (row_op r)) &&
  match zget wah_opclasses (row_val r), zget wah_opcode_features (row_val r) with
  | Some c, Some f => opclass_eqb c (row_class r) && (f =? wah_feature_shift (row_feat r))
                      && negb (opclass_eqb c WAH_OPCLASS_MISSING)
  | _, _ => false
  end.

Lemma opcode_rows_ok : forallb opcode_row_ok WAH_OPCODES = true.
Proof. vm_compute. reflexivity. Qed.

Lemma opcode_values_nodup : NoDup (row_val <$> WAH_OPCODES).
Proof. apply (bool_decide_unpack _). vm_compute. reflexivity. Qed.

Lemma opcode_row_spec r : r ∈ WAH_OPCODES -> opcode_row_ok r = true.
Proof.
  intros Hr. pose proof opcode_rows_ok as H. rewrite forallb_forall in H.
  apply H. by apply list_elem_of_In.
Qed.

(** Every entry that is present comes from a row. *)
Lemma opclass_present_row :
  forallb (fun v => negb (opclass_present v) || bool_decide (v ∈ (row_val <$> WAH_OPCODES)))
          (zrange 0 WAH_FE) = true.
Proof. vm_compute. reflexivity. Qed.

#[local] Opaque WAH_OPCODES wah_opclasses wah_opcode_features.

(** The lookup tables are exactly the listing: no two instructions share a
    value, each one's class and feature are found under its value (no initializer is
    overwritten by a later one), and [wah_opclasses] says "missing" for exactly the
    values of no instruction. *)
Theorem wah_opcode_tables_faithful :
  NoDup (row_val <$> WAH_OPCODES) /\
  (forall r, r ∈ WAH_OPCODES ->
     0 <= row_val r < WAH_FE /\
     row_val r = wah_op_value (row_op r) /\
     zget wah_opclasses (row_val r) = Some (row_class r) /\
     zget wah_opcode_features (row_val r) = Some (wah_feature_shift (row_feat r))) /\
  (forall v, opclass_present v = true <-> exists r, r ∈ WAH_OPCODES /\ row_val r = v).
Proof.
  split; [apply opcode_values_nodup|]. split.
  - intros r Hr. apply opcode_row_spec in Hr. unfold opcode_row_ok in Hr.
    destruct (zget wah_opclasses (row_val r)), (zget wah_opcode_features (row_val r));
      rewrite ?andb_true_iff, ?andb_false_r in Hr; try (by destruct Hr).
    rewrite !opclass_eqb_spec, !Z.eqb_eq in Hr. intuition (lia || congruence).
  - intros v. split.
    + intros Hp. pose proof opclass_present_row as H. rewrite forallb_forall in H.
      assert (Hv : v ∈ zrange 0 WAH_FE).
      { apply elem_of_zrange. unfold opclass_present in Hp.
        destruct (zget wah_opclasses v) eqn:E; [|done].
        apply zget_Some in E. replace (zlen wah_opclasses) with WAH_FE in E by (vm_compute; done). lia. }
      specialize (H v ltac:(by apply list_elem_of_In)). rewrite Hp in H. cbn [negb orb] in H.
      apply bool_decide_eq_true in H. apply list_elem_of_fmap in H as (r & -> & Hr). eauto.
    + intros (r & Hr & <-). apply opcode_row_spec in Hr. unfold opcode_row_ok in Hr.
      unfold opclass_present.
      destruct (zget wah_opclasses (row_val r)), (zget wah_opcode_features (row_val r));
        rewrite ?andb_true_iff, ?andb_false_r in Hr; naive_solver.
Qed.

(** The enumerators of [wah_opcode_t] are pairwise distinct and fit the 16-bit
    opcode of lowered code; the opcodes that decoding can produce are those below
    [WAH_FE], and no internal or extra opcode is among them. *)
Theorem wah_opcode_t_distinct :
  NoDup wah_opcode_t_values /\
  Forall (fun v => 0 <= v < 2 ^ 16) wah_opcode_t_values /\
  zlen wah_opcode_t_values = zlen WAH_OPCODES + (WAH_NUM_OPCODES - WAH_FE).
Proof. split_and!; [apply (bool_decide_unpack _)..|]; vm_compute; reflexivity. Qed.
