(* ===== verification/Bytes.v ===== *)
(** * Little-endian reads and writes

    [wah_read_u8_le] ... [wah_write_u64_le] (wah.h, "Parsing utilities"), in the
    portable byte-by-byte form that the code uses without [WAH_NATIVE_LE].  Memory is
    a list of bytes and a pointer an index in it; [None] is an access out of bounds. *)

From S2P Require Import Prelude.
From stdpp Require Import list.
#[local] Open Scope Z_scope.

(** ** Definitions *)

Definition wah_read_u8_le (mem : list Z) (ptr : Z) : option Z := zget mem ptr.

Definition wah_write_u8_le (mem : list Z) (ptr val : Z) : option (list Z) :=
  zset mem ptr (u8 val).

Definition wah_read_u16_le (mem : list Z) (ptr : Z) : option Z :=
  b0 ← zget mem ptr; b1 ← zget mem (ptr + 1);
  Some (u16 (Z.lor (Z.shiftl b0 0) (Z.shiftl b1 8))).

Definition wah_write_u16_le (mem : list Z) (ptr val : Z) : option (list Z) :=
  m ← zset mem ptr (u8 (Z.shiftr val 0));
  zset m (ptr + 1) (u8 (Z.shiftr val 8)).

Definition wah_read_u32_le (mem : list Z) (ptr : Z) : option Z :=
  b0 ← zget mem ptr; b1 ← zget mem (ptr + 1);
  b2 ← zget mem (ptr + 2); b3 ← zget mem (ptr + 3);
  Some (Z.lor (Z.lor (Z.lor (u32 (Z.shiftl b0 0)) (u32 (Z.shiftl b1 8)))
                     (u32 (Z.shiftl b2 16)))
              (u32 (Z.shiftl b3 24))).

Definition wah_write_u32_le (mem : list Z) (ptr val : Z) : option (list Z) :=
  m ← zset mem ptr (u8 (Z.shiftr val 0));
  m ← zset m (ptr + 1) (u8 (Z.shiftr val 8));
  m ← zset m (ptr + 2) (u8 (Z.shiftr val 16));
  zset m (ptr + 3) (u8 (Z.shiftr val 24)).

Definition wah_read_u64_le (mem : list Z) (ptr : Z) : option Z :=
  b0 ← zget mem ptr; b1 ← zget mem (ptr + 1);
  b2 ← zget mem (ptr + 2); b3 ← zget mem (ptr + 3);
  b4 ← zget mem (ptr + 4); b5 ← zget mem (ptr + 5);
  b6 ← zget mem (ptr + 6); b7 ← zget mem (ptr + 7);
  Some (Z.lor (Z.lor (Z.lor (Z.lor (Z.lor (Z.lor (Z.lor
    (u64 (Z.shiftl b0 0)) (u64 (Z.shiftl b1 8))) (u64 (Z.shiftl b2 16)))
    (u64 (Z.shiftl b3 24))) (u64 (Z.shiftl b4 32))) (u64 (Z.shiftl b5 40)))
    (u64 (Z.shiftl b6 48))) (u64 (Z.shiftl b7 56))).

Definition wah_write_u64_le (mem : list Z) (ptr val : Z) : option (list Z) :=
  m ← zset mem ptr (u8 (Z.shiftr val 0));
  m ← zset m (ptr + 1) (u8 (Z.shiftr val 8));
  m ← zset m (ptr + 2) (u8 (Z.shiftr val 16));
  m ← zset m (ptr + 3) (u8 (Z.shiftr val 24));
  m ← zset m (ptr + 4) (u8 (Z.shiftr val 32));
  m ← zset m (ptr + 5) (u8 (Z.shiftr val 40));
  m ← zset m (ptr + 6) (u8 (Z.shiftr val 48));
  zset m (ptr + 7) (u8 (Z.shiftr val 56)).

(** *** Specification: the little-endian value of bytes, and the bytes of a value. *)

Definition is_byte (b : Z) : Prop := 0 <= b < 256.

Fixpoint le_value (bs : list Z) : Z :=
  match bs with [] => 0 | b :: bs' => b + 256 * le_value bs' end.

Fixpoint le_bytes (n : nat) (v : Z) : list Z :=
  match n with O => [] | S n' => u8 v :: le_bytes n' (v / 256) end.

(** The [n] bytes of memory at a pointer, and memory with bytes stored there. *)
Definition mem_slice (mem : list Z) (ptr : Z) (n : nat) : list Z :=
  take n (drop (Z.to_nat ptr) mem).
Definition mem_store (mem : list Z) (ptr : Z) (bs : list Z) : list Z :=
  list_inserts (Z.to_nat ptr) bs mem.

(** The accessors by their width. *)
Inductive width := W8 | W16 | W32 | W64.
Definition width_bytes (w : width) : nat := match w with W8 => 1 | W16 => 2 | W32 => 4 | W64 => 8 end.
Definition wah_read_le (w : width) : list Z -> Z -> option Z :=
  match w with W8 => wah_read_u8_le | W16 => wah_read_u16_le | W32 => wah_read_u32_le | W64 => wah_read_u64_le end.
Definition wah_write_le (w : width) : list Z -> Z -> Z -> option (list Z) :=
  match w with W8 => wah_write_u8_le | W16 => wah_write_u16_le | W32 => wah_write_u32_le | W64 => wah_write_u64_le end.

(** Byte [i] of a value, least significant first. *)
Definition byte_of (v i : Z) : Z := v / 256 ^ i mod 256.

(** ** Theorems *)

Lemma le_value_bound bs : Forall is_byte bs -> 0 <= le_value bs < 256 ^ zlen bs.
Proof.
  unfold is_byte, zlen. induction 1 as [|b bs Hb _ IH]; [simpl; lia|].
  rewrite length_cons, Nat2Z.inj_succ, Z.pow_succ_r by lia. cbn [le_value]. lia.
Qed.

Lemma le_bytes_length n v : length (le_bytes n v) = n.
Proof. revert v. induction n; intros; simpl; auto. Qed.

Lemma le_bytes_is_byte n v : Forall is_byte (le_bytes n v).
Proof. revert v. induction n; intros; simpl; constructor; [apply u8_range|auto]. Qed.

Lemma le_value_bytes n v : le_value (le_bytes n v) = v mod 256 ^ Z.of_nat n.
Proof.
  revert v. induction n as [|n IH]; intros; [simpl; by rewrite Z.mod_1_r|].
  cbn [le_bytes le_value]. rewrite IH, Nat2Z.inj_succ, Z.pow_succ_r by lia.
  rewrite Z.rem_mul_r by (try apply Z.pow_pos_nonneg; lia). done.
Qed.

Lemma le_bytes_value bs : Forall is_byte bs -> le_bytes (length bs) (le_value bs) = bs.
Proof.
  unfold is_byte. induction 1 as [|b bs Hb _ IH]; [done|]. simpl.
  replace ((b + 256 * le_value bs) / 256) with (le_value bs)
    by (Z.to_euclidean_division_equations; lia).
  rewrite IH. f_equal. unfold u8. change (2 ^ 8) with 256.
  Z.to_euclidean_division_equations; lia.
Qed.

(** [lor] of a value below [2^k] and a byte shifted by [k] adds them. *)
Lemma lor_byte k w x b :
  0 <= k -> k + 8 <= w -> 0 <= x < 2 ^ k -> is_byte b ->
  Z.lor x (Z.shiftl b k mod 2 ^ w) = x + b * 2 ^ k /\ 0 <= x + b * 2 ^ k < 2 ^ (k + 8).
Proof.
  unfold is_byte. intros Hk Hw Hx Hb. rewrite Z.shiftl_mul_pow2 by lia.
  rewrite Z.pow_add_r by lia. change (2 ^ 8) with 256.
  pose proof (Z.pow_le_mono_r 2 (k + 8) w ltac:(lia) Hw) as Hp.
  rewrite Z.pow_add_r in Hp by lia. change (2 ^ 8) with 256 in Hp.
  rewrite Z.mod_small by nia. rewrite lor_disjoint by lia. nia.
Qed.

Lemma zget_mem_slice mem ptr (n : nat) (i : nat) :
  0 <= ptr -> (i < n)%nat ->
  zget mem (ptr + Z.of_nat i) = mem_slice mem ptr n !! i.
Proof.
  intros. unfold mem_slice. rewrite zget_nat by lia.
  rewrite lookup_take_lt, lookup_drop by lia. f_equal. lia.
Qed.

Lemma mem_slice_length mem ptr n :
  0 <= ptr -> ptr + Z.of_nat n <= zlen mem -> length (mem_slice mem ptr n) = n.
Proof. unfold zlen, mem_slice. intros. rewrite length_take, length_drop. lia. Qed.

(** A slice inside the memory is made of its bytes. *)
Lemma mem_slice_reads mem ptr n :
  0 <= ptr -> ptr + Z.of_nat n <= zlen mem ->
  forall i, (i < n)%nat -> exists b, zget mem (ptr + Z.of_nat i) = Some b /\ mem_slice mem ptr n !! i = Some b.
Proof.
  intros Hp Hn i Hi. rewrite (zget_mem_slice mem ptr n i) by lia.
  destruct (lookup_lt_is_Some_2 (mem_slice mem ptr n) i) as [b Hb]; [|eauto].
  rewrite mem_slice_length; lia.
Qed.

Lemma mem_slice_bytes mem ptr n : Forall is_byte mem -> Forall is_byte (mem_slice mem ptr n).
Proof. intros. by apply Forall_take, Forall_drop. Qed.

Ltac lor_step :=
  match goal with
  | |- context [Z.lor ?x (Z.shiftl ?b ?k mod 2 ^ ?w)] =>
      let H := fresh in
      destruct (lor_byte k w x b) as [H ?];
        [lia|lia|unfold is_byte in *; lia|assumption|rewrite H; clear H]
  end.

Ltac lor_first :=
  rewrite Z.shiftl_0_r;
  match goal with
  | |- context [Z.lor (?x mod 2 ^ ?w) _] =>
      rewrite (Z.mod_small x (2 ^ w)) by (unfold is_byte in *; lia)
  end.

(** Names the bytes of a slice of [n] literal bytes. *)
Ltac slice_bytes mem ptr n Hp Hn Hb :=
  let H := fresh "Hreads" in
  pose proof (mem_slice_reads mem ptr n Hp Hn) as H;
  let L := fresh "Hlen" in
  pose proof (mem_slice_length mem ptr n Hp Hn) as L;
  pose proof (mem_slice_bytes mem ptr n Hb) as Hbs;
  destruct (mem_slice mem ptr n) as [|? bs]; [done|];
  repeat (destruct bs as [|? bs]; [done|]); try done;
  destruct bs; try done;
  repeat match goal with B : Forall _ (_ :: _) |- _ => apply Forall_cons in B as [? B] end.

Ltac read_byte H i :=
  let E := fresh in
  destruct (H i ltac:(lia)) as (? & E & ?);
  let k := eval compute in (Z.of_nat i) in change (Z.of_nat i) with k in E;
  simpl in *; simplify_eq;
  rewrite ?Z.add_0_r in E; rewrite E; clear E; simpl.

Lemma wah_read_u32_le_spec mem ptr :
  Forall is_byte mem -> 0 <= ptr -> ptr + 4 <= zlen mem ->
  wah_read_u32_le mem ptr = Some (le_value (mem_slice mem ptr 4)).
Proof.
  intros Hb Hp Hn. unfold wah_read_u32_le.
  slice_bytes mem ptr 4%nat Hp Hn Hb.
  read_byte Hreads 0%nat. read_byte Hreads 1%nat. read_byte Hreads 2%nat. read_byte Hreads 3%nat.
  f_equal. unfold u32. lor_first. repeat lor_step. lia.
Qed.

Lemma wah_read_u64_le_spec mem ptr :
  Forall is_byte mem -> 0 <= ptr -> ptr + 8 <= zlen mem ->
  wah_read_u64_le mem ptr = Some (le_value (mem_slice mem ptr 8)).
Proof.
  intros Hb Hp Hn. unfold wah_read_u64_le.
  slice_bytes mem ptr 8%nat Hp Hn Hb.
  read_byte Hreads 0%nat. read_byte Hreads 1%nat. read_byte Hreads 2%nat. read_byte Hreads 3%nat.
  read_byte Hreads 4%nat. read_byte Hreads 5%nat. read_byte Hreads 6%nat. read_byte Hreads 7%nat.
  f_equal. unfold u64. lor_first. repeat lor_step. lia.
Qed.

Lemma wah_read_u16_le_spec mem ptr :
  Forall is_byte mem -> 0 <= ptr -> ptr + 2 <= zlen mem ->
  wah_read_u16_le mem ptr = Some (le_value (mem_slice mem ptr 2)).
Proof.
  intros Hb Hp Hn. unfold wah_read_u16_le.
  slice_bytes mem ptr 2%nat Hp Hn Hb.
  read_byte Hreads 0%nat. read_byte Hreads 1%nat.
  f_equal. rewrite Z.shiftl_0_r, lor_shiftl by (unfold is_byte in *; lia).
  unfold u16. rewrite Z.mod_small by (unfold is_byte in *; lia). lia.
Qed.

(** *** Writes *)

Lemma mem_store_length m i bs : length (mem_store m i bs) = length m.
Proof. apply length_inserts. Qed.

(** Writing the byte that follows bytes already stored. *)
Lemma zset_snoc m i bs x :
  0 <= i -> i + zlen bs < zlen m ->
  zset (mem_store m i bs) (i + zlen bs) x = Some (mem_store m i (bs ++ [x])).
Proof.
  unfold zlen. intros Hi Hn.
  rewrite zset_Some by (unfold zlen; rewrite mem_store_length; lia).
  unfold mem_store. rewrite list_inserts_app_l. simpl. repeat f_equal. lia.
Qed.

Lemma zset_first m i x : 0 <= i < zlen m -> zset m i x = Some (mem_store m i [x]).
Proof. intros. by rewrite zset_Some. Qed.

Ltac write_step :=
  match goal with
  | |- context [zset (mem_store ?m ?i ?bs) (?i + ?k) ?x] =>
      let H := fresh in
      assert (H : zset (mem_store m i bs) (i + k) x = Some (mem_store m i (bs ++ [x])))
        by (apply (zset_snoc m i bs x); unfold zlen in *; simpl; lia);
      rewrite H; clear H; cbn [app mbind option_bind]
  end.

Lemma shiftr_div_add v j k : 0 <= j -> 0 <= k -> Z.shiftr v (j + k) = Z.shiftr v j / 2 ^ k.
Proof. intros. rewrite <- Z.shiftr_shiftr by lia. by rewrite Z.shiftr_div_pow2 by lia. Qed.

Ltac le_bytes_step :=
  cbn [le_bytes]; rewrite ?Z.shiftr_0_r;
  rewrite ?Z.shiftr_div_pow2, ?Z.div_div by lia; reflexivity.

Lemma wah_write_u16_le_spec mem ptr v :
  0 <= ptr -> ptr + 2 <= zlen mem ->
  wah_write_u16_le mem ptr v = Some (mem_store mem ptr (le_bytes 2 v)).
Proof.
  intros. unfold wah_write_u16_le. rewrite zset_first by lia. cbn [mbind option_bind].
  repeat write_step. f_equal. f_equal. le_bytes_step.
Qed.

Lemma wah_write_u32_le_spec mem ptr v :
  0 <= ptr -> ptr + 4 <= zlen mem ->
  wah_write_u32_le mem ptr v = Some (mem_store mem ptr (le_bytes 4 v)).
Proof.
  intros. unfold wah_write_u32_le. rewrite zset_first by lia. cbn [mbind option_bind].
  repeat write_step. f_equal. f_equal. le_bytes_step.
Qed.

Lemma wah_write_u64_le_spec mem ptr v :
  0 <= ptr -> ptr + 8 <= zlen mem ->
  wah_write_u64_le mem ptr v = Some (mem_store mem ptr (le_bytes 8 v)).
Proof.
  intros. unfold wah_write_u64_le. rewrite zset_first by lia. cbn [mbind option_bind].
  repeat write_step. f_equal. f_equal. le_bytes_step.
Qed.

(** *** Stores and loads *)

Lemma mem_slice_store mem ptr bs :
  0 <= ptr -> ptr + zlen bs <= zlen mem -> mem_slice (mem_store mem ptr bs) ptr (length bs) = bs.
Proof.
  unfold zlen, mem_slice, mem_store. intros. apply list_eq. intros i.
  destruct (decide (i < length bs)%nat).
  - rewrite lookup_take_lt, lookup_drop by lia. rewrite list_lookup_inserts by lia.
    f_equal. lia.
  - rewrite lookup_take_ge by lia. symmetry. apply lookup_ge_None. lia.
Qed.

Lemma mem_store_slice mem ptr n :
  0 <= ptr -> ptr + Z.of_nat n <= zlen mem -> mem_store mem ptr (mem_slice mem ptr n) = mem.
Proof.
  intros Hp Hn. apply list_eq. intros j. unfold mem_store.
  pose proof (mem_slice_length mem ptr n Hp Hn) as Hl. unfold zlen in *.
  destruct (decide (j < Z.to_nat ptr)%nat); [by rewrite list_lookup_inserts_lt|].
  destruct (decide (Z.to_nat ptr + n <= j)%nat); [rewrite list_lookup_inserts_ge; by rewrite ?Hl|].
  rewrite list_lookup_inserts by lia. unfold mem_slice.
  rewrite lookup_take_lt, lookup_drop by lia. f_equal. lia.
Qed.

Lemma mem_store_is_byte mem ptr bs :
  Forall is_byte mem -> Forall is_byte bs -> Forall is_byte (mem_store mem ptr bs).
Proof. intros. by apply Forall_inserts. Qed.

Lemma mem_slice_store_disjoint mem ptr bs q n :
  0 <= ptr -> 0 <= q -> (q + Z.of_nat n <= ptr \/ ptr + zlen bs <= q) ->
  mem_slice (mem_store mem ptr bs) q n = mem_slice mem q n.
Proof.
  unfold zlen, mem_slice, mem_store. intros Hp Hq Hd. apply list_eq. intros i.
  destruct (decide (i < n)%nat); [|by rewrite !lookup_take_ge by lia].
  rewrite !lookup_take_lt, !lookup_drop by lia.
  destruct Hd; [apply list_lookup_inserts_lt|apply list_lookup_inserts_ge]; lia.
Qed.

(** *** All widths *)

Lemma wah_read_le_spec w mem p : Forall is_byte mem -> 0 <= p -> p + Z.of_nat (width_bytes w) <= zlen mem ->
  wah_read_le w mem p = Some (le_value (mem_slice mem p (width_bytes w))).
Proof.
  intros Hb Hp Hn. destruct w; cbn [wah_read_le width_bytes] in *; [|by apply wah_read_u16_le_spec|by apply wah_read_u32_le_spec|by apply wah_read_u64_le_spec].
  unfold wah_read_u8_le. slice_bytes mem p 1%nat Hp Hn Hb. read_byte Hreads 0%nat. f_equal. lia.
Qed.

Lemma wah_write_le_spec w mem p v : 0 <= p -> p + Z.of_nat (width_bytes w) <= zlen mem ->
  wah_write_le w mem p v = Some (mem_store mem p (le_bytes (width_bytes w) v)).
Proof.
  intros Hp Hn. destruct w; cbn [wah_write_le width_bytes] in *; [|by apply wah_write_u16_le_spec|by apply wah_write_u32_le_spec|by apply wah_write_u64_le_spec].
  unfold wah_write_u8_le. by rewrite zset_first by lia.
Qed.

Ltac no_byte :=
  match goal with
  | |- context [zget ?m ?i] => destruct (zget m i) eqn:?; simpl; [|done]
  | |- context [zset ?m ?i ?x] => destruct (zset m i x) eqn:?; simpl; [|done]
  end.

(** Outside the memory one of the bytes cannot be accessed. *)
Lemma wah_access_le_outside w mem p v : ~ (0 <= p /\ p + Z.of_nat (width_bytes w) <= zlen mem) ->
  wah_read_le w mem p = None /\ wah_write_le w mem p v = None.
Proof.
  intros Hout. assert (Hz : forall (m : list Z) i x m', zset m i x = Some m' -> 0 <= i < zlen m /\ zlen m' = zlen m).
  { intros m i x m' H. split; [|by eapply zset_length]. unfold zset, zlen in *. case_bools; [done|]. lia. }
  destruct w; cbn [wah_read_le wah_write_le width_bytes Z.of_nat] in *; split;
    unfold wah_read_u8_le, wah_read_u16_le, wah_read_u32_le, wah_read_u64_le,
      wah_write_u8_le, wah_write_u16_le, wah_write_u32_le, wah_write_u64_le;
    repeat no_byte; exfalso; apply Hout;
    repeat match goal with
    | H : zget _ _ = Some _ |- _ => apply zget_Some in H as [H _]
    | H : zset _ _ _ = Some _ |- _ => apply Hz in H as [? H]
    end; lia.
Qed.

Lemma le_bytes_lookup n v i : (i < n)%nat -> le_bytes n v !! i = Some (byte_of v (Z.of_nat i)).
Proof.
  revert v i. induction n as [|n IH]; intros v i Hi; [lia|]. cbn [le_bytes]. destruct i as [|i]; simpl.
  - unfold byte_of. by rewrite Z.div_1_r.
  - rewrite IH by lia. unfold byte_of. rewrite Nat2Z.inj_succ, Z.pow_succ_r by lia. rewrite Z.div_div by lia. done.
Qed.

(** The bytes of memory after a store. *)
Lemma zget_mem_store mem p n v j : 0 <= p -> p + Z.of_nat n <= zlen mem ->
  zget (mem_store mem p (le_bytes n v)) j =
    if (p <=? j) && (j <? p + Z.of_nat n) then Some (byte_of v (j - p)) else zget mem j.
Proof.
  intros Hp Hn. destruct (Z.leb_spec 0 j) as [Hj|Hj].
  2:{ rewrite (proj2 (Z.leb_gt p j)) by lia. unfold zget. by rewrite (proj2 (Z.ltb_lt j 0)) by lia. }
  rewrite !zget_nat by lia. unfold mem_store, zlen in *.
  destruct (Z.leb_spec p j); simpl; [|by apply list_lookup_inserts_lt; lia].
  destruct (Z.ltb_spec j (p + Z.of_nat n)); [|apply list_lookup_inserts_ge; rewrite le_bytes_length; lia].
  rewrite list_lookup_inserts by (rewrite ?le_bytes_length; lia). rewrite le_bytes_lookup by lia. repeat f_equal. lia.
Qed.

(** C33. Scalar accesses of 8, 16, 32 and 64 bits, at any pointer.  A store in bounds changes
    exactly the bytes of its width, to those of the value from the least significant one; a
    load in bounds gives the value of these bytes, so that it reads back what was stored,
    modulo its width, a load of other bytes is unchanged by the store, and storing a loaded
    value changes nothing.  An access that is not in bounds fails. *)
Theorem wah_read_write_le_roundtrip w mem p v : Forall is_byte mem ->
  let n := Z.of_nat (width_bytes w) in
  if decide (0 <= p /\ p + n <= zlen mem) then
    (exists m, wah_write_le w mem p v = Some m /\ zlen m = zlen mem /\
       (forall j, zget m j = if (p <=? j) && (j <? p + n) then Some (byte_of v (j - p)) else zget mem j) /\
       wah_read_le w m p = Some (v mod 2 ^ (8 * n)) /\
       forall w' q, q + Z.of_nat (width_bytes w') <= p \/ p + n <= q -> wah_read_le w' m q = wah_read_le w' mem q) /\
    (exists x, wah_read_le w mem p = Some x /\ 0 <= x < 2 ^ (8 * n) /\
       (forall i, 0 <= i < n -> zget mem (p + i) = Some (byte_of x i)) /\
       wah_write_le w mem p x = Some mem)
  else wah_read_le w mem p = None /\ wah_write_le w mem p v = None.
Proof.
  intros Hb n. case_decide as Hin; [destruct Hin as [Hp Hn]|by apply wah_access_le_outside].
  assert (Hpow : 2 ^ (8 * n) = 256 ^ n) by (rewrite Z.pow_mul_r by lia; done). rewrite Hpow.
  assert (Hs : Forall is_byte (mem_store mem p (le_bytes (width_bytes w) v)))
    by (apply mem_store_is_byte; [done|apply le_bytes_is_byte]).
  assert (Hl : zlen (mem_store mem p (le_bytes (width_bytes w) v)) = zlen mem) by (unfold zlen; by rewrite mem_store_length).
  split.
  - eexists. split; [by apply wah_write_le_spec|]. split; [done|]. split; [intros j; by apply zget_mem_store|]. split.
    + rewrite wah_read_le_spec by (rewrite ?Hl; done). pose proof (mem_slice_store mem p (le_bytes (width_bytes w) v) Hp) as E.
      unfold zlen in *. rewrite le_bytes_length in E. by rewrite E, le_value_bytes.
    + intros w' q Hd. destruct (decide (0 <= q /\ q + Z.of_nat (width_bytes w') <= zlen mem)) as [[H1 H2]|Hout].
      * rewrite !wah_read_le_spec by (rewrite ?Hl; done). do 2 f_equal. apply mem_slice_store_disjoint; unfold zlen; rewrite ?le_bytes_length; lia.
      * by rewrite (proj1 (wah_access_le_outside w' mem q 0 Hout)), (proj1 (wah_access_le_outside w' _ q 0 ltac:(by rewrite Hl))).
  - eexists. split; [by apply wah_read_le_spec|]. pose proof (mem_slice_length mem p (width_bytes w) Hp Hn) as Hlen.
    pose proof (mem_slice_bytes mem p (width_bytes w) Hb) as Hsb. set (bs := mem_slice mem p (width_bytes w)) in *.
    assert (Hbs : le_bytes (width_bytes w) (le_value bs) = bs) by (rewrite <- Hlen; by apply le_bytes_value).
    split; [pose proof (le_value_bound bs Hsb) as Hv; unfold zlen in Hv; by rewrite Hlen in Hv|]. split.
    + intros i Hi. pose proof (zget_mem_slice mem p (width_bytes w) (Z.to_nat i) Hp ltac:(lia)) as E.
      rewrite Z2Nat.id in E by lia. rewrite E. fold bs. rewrite <- Hbs at 1. rewrite le_bytes_lookup by lia. by rewrite Z2Nat.id by lia.
    + rewrite wah_write_le_spec, Hbs by done. f_equal. by apply mem_store_slice.
Qed.

Lemma wah_read_write_le_roundtrip_witness :
  exists m, wah_write_le W32 (replicate 16 7) 2 (-2) = Some m /\ zget m 2 = Some 254 /\ zget m 3 = Some 255 /\ zget m 6 = Some 7 /\
    wah_read_le W32 m 2 = Some 4294967294 /\ wah_read_le W64 m 6 = wah_read_le W64 (replicate 16 7) 6.
Proof.
  pose proof (wah_read_write_le_roundtrip W32 (replicate 16 7) 2 (-2)) as H. cbv zeta in H.
  rewrite decide_True in H by (split; vm_compute; discriminate).
  destruct H as [(m & H1 & _ & H3 & H4 & H5) _]; [repeat constructor; unfold is_byte; lia|].
  exists m. split; [exact H1|]. rewrite !H3. split; [vm_compute; reflexivity|]. split; [vm_compute; reflexivity|]. split; [vm_compute; reflexivity|].
  split; [exact H4|]. apply H5. simpl. lia.
Defined.
