(* ===== verification/Leb128.v ===== *)
(** * LEB128 integers

    The four decoders of wah.h ("LEB128 Decoding") over a cursor, and the grammar of
    the WebAssembly binary format they implement.  The cursor is the list of the
    bytes in [[*ptr, end)]; taking a byte from an empty cursor is a read out of
    bounds ([Fault]). *)

From S2P Require Import Prelude Base Bytes.
From stdpp Require Import list.
#[local] Open Scope Z_scope.
#[local] Open Scope wah_scope.

(** ** Definitions *)

(** [WAH_ENSURE( *ptr < end, WAH_ERROR_UNEXPECTED_EOF)]. *)
Definition ensure_more : comp (list Z) unit := fun cur =>
  match cur with [] => (Err WAH_ERROR_UNEXPECTED_EOF, cur) | _ => (Ok tt, cur) end.

(** [*( *ptr)++]. *)
Definition take_byte : comp (list Z) Z := fun cur =>
  match cur with [] => (Fault, cur) | b :: cur' => (Ok b, cur') end.

(** The [for] loop of [wah_decode_uleb128] with [n] iterations left. *)
Fixpoint wah_decode_uleb128_loop (n : nat) (val shift : Z) : comp (list Z) Z :=
  match n with
  | O => stm_err WAH_ERROR_TOO_LARGE
  | S n' =>
      ensure_more ;;;
      byte <- take_byte ;;
      let val := Z.lor val (u64 (Z.shiftl (Z.land byte 127) shift)) in
      if Z.land byte 128 =? 0 then
        stm_ensure (val <=? UINT32_MAX) WAH_ERROR_TOO_LARGE ;;;
        stm_ret (u32 val)
      else wah_decode_uleb128_loop n' val (u32 (shift + 7))
  end.

Definition wah_decode_uleb128 : comp (list Z) Z := wah_decode_uleb128_loop 5 0 0.

(** The loop of [wah_decode_uleb128_64]; [i] is [10 - n]. *)
Fixpoint wah_decode_uleb128_64_loop (n : nat) (val shift : Z) : comp (list Z) Z :=
  match n with
  | O => stm_err WAH_ERROR_TOO_LARGE
  | S n' =>
      ensure_more ;;;
      byte <- take_byte ;;
      let val := Z.lor val (u64 (Z.shiftl (Z.land byte 127) shift)) in
      if Z.land byte 128 =? 0 then
        (if (10 - Z.of_nat n =? 9) && (1 <? byte) then stm_err WAH_ERROR_TOO_LARGE
         else stm_ret val)
      else wah_decode_uleb128_64_loop n' val (u32 (shift + 7))
  end.

Definition wah_decode_uleb128_64 : comp (list Z) Z := wah_decode_uleb128_64_loop 10 0 0.

(** Sign extension of the [shift] bits read so far, as in both signed decoders. *)
Definition sleb_extend (val shift : Z) : Z :=
  if shift <? 64 then
    let sign_bit := Z.shiftl 1 (shift - 1) in
    if negb (Z.land val sign_bit =? 0)
    then Z.lor val (u64 (Z.shiftl (u64 (Z.lnot 0)) shift)) else val
  else val.

Fixpoint wah_decode_sleb128_32_loop (n : nat) (val shift : Z) : comp (list Z) Z :=
  match n with
  | O => stm_err WAH_ERROR_TOO_LARGE
  | S n' =>
      ensure_more ;;;
      byte <- take_byte ;;
      let val := Z.lor val (u64 (Z.shiftl (Z.land byte 127) shift)) in
      let shift := u32 (shift + 7) in
      if Z.land byte 128 =? 0 then
        let val := sleb_extend val shift in
        stm_ensure ((INT32_MIN <=? s64 val) && (s64 val <=? INT32_MAX)) WAH_ERROR_TOO_LARGE ;;;
        stm_ret (s32 val)
      else wah_decode_sleb128_32_loop n' val shift
  end.

Definition wah_decode_sleb128_32 : comp (list Z) Z := wah_decode_sleb128_32_loop 5 0 0.

(** The [do ... while] loop of [wah_decode_sleb128_64].  [fuel] bounds the
    iterations: the check [shift < 64] stops the loop in its eleventh one at the
    latest, so that [O] is never reached with 11 units of fuel. *)
Fixpoint wah_decode_sleb128_64_loop (fuel : nat) (val shift : Z) : comp (list Z) Z :=
  match fuel with
  | O => fun cur => (Fault, cur)
  | S fuel' =>
      ensure_more ;;;
      stm_ensure (shift <? 64) WAH_ERROR_TOO_LARGE ;;;
      byte <- take_byte ;;
      let val := Z.lor val (u64 (Z.shiftl (Z.land byte 127) shift)) in
      let shift := u32 (shift + 7) in
      if negb (Z.land byte 128 =? 0) then wah_decode_sleb128_64_loop fuel' val shift
      else if shift =? 70 then
        stm_ensure ((byte =? 0) || (byte =? 127)) WAH_ERROR_TOO_LARGE ;;;
        stm_ret (s64 val)
      else stm_ret (s64 (sleb_extend val shift))
  end.

Definition wah_decode_sleb128_64 : comp (list Z) Z := wah_decode_sleb128_64_loop 11 0 0.

(** *** The grammar of the binary format

    [uN] and [sN] of the specification ("Integers"): a byte below 128 ends the
    encoding and must fit in the [n] bits left; a byte from 128 carries 7 bits. *)
Inductive uleb : Z -> list Z -> Z -> Prop :=
| uleb_last n b : 0 <= b < 128 -> b < 2 ^ n -> uleb n [b] b
| uleb_more n b bs v : 128 <= b < 256 -> 7 < n -> uleb (n - 7) bs v ->
    uleb n (b :: bs) (128 * v + (b - 128)).

Inductive sleb : Z -> list Z -> Z -> Prop :=
| sleb_pos n b : 0 <= b < 64 -> b < 2 ^ (n - 1) -> sleb n [b] b
| sleb_neg n b : 64 <= b < 128 -> 128 - 2 ^ (n - 1) <= b -> sleb n [b] (b - 128)
| sleb_more n b bs v : 128 <= b < 256 -> 7 < n -> sleb (n - 7) bs v ->
    sleb n (b :: bs) (128 * v + (b - 128)).

(** The cursor starts with [n] continuation bytes and ends there. *)
Definition leb_truncated (n : nat) (cur : list Z) : Prop :=
  (length cur < n)%nat /\ Forall (fun b => 128 <= b) cur.

(** ** Theorems *)

Lemma land_127 b : Z.land b 127 = b mod 128.
Proof. change 127 with (Z.ones 7). apply Z.land_ones. lia. Qed.

Lemma land_128 b : is_byte b -> (Z.land b 128 =? 0) = (b <? 128).
Proof.
  unfold is_byte. intros Hb. change 128 with (2 ^ 7) at 1.
  pose proof (has_bits_pow2 b 7 ltac:(lia)) as H. unfold has_bits in H.
  apply (f_equal negb) in H. rewrite negb_involutive in H. rewrite H.
  rewrite Z.testbit_eqb by lia. change (2 ^ 7) with 128.
  destruct (Z.ltb_spec b 128).
  - rewrite Z.div_small by lia. done.
  - by replace (b / 128) with 1 by (Z.to_euclidean_division_equations; lia).
Qed.

(** Seven more bits, with room in 64 bits. *)
Lemma leb_accum val b shift :
  0 <= shift -> shift + 7 <= 64 -> 0 <= val < 2 ^ shift ->
  Z.lor val (u64 (Z.shiftl (Z.land b 127) shift)) = val + (b mod 128) * 2 ^ shift /\
  0 <= val + (b mod 128) * 2 ^ shift < 2 ^ (shift + 7).
Proof.
  intros Hs Hs' Hv. rewrite land_127. pose proof (Z.mod_pos_bound b 128 ltac:(lia)).
  pose proof (Z.pow_le_mono_r 2 (shift + 7) 64 ltac:(lia) Hs') as Hp.
  rewrite Z.pow_add_r in * by lia. change (2 ^ 7) with 128 in *.
  rewrite Z.shiftl_mul_pow2, u64_small by nia. rewrite lor_disjoint by lia. nia.
Qed.

(** The last byte of a 64-bit encoding: only its lowest bit is kept. *)
Lemma leb_accum_63 val b :
  0 <= val < 2 ^ 63 ->
  Z.lor val (u64 (Z.shiftl (Z.land b 127) 63)) = val + (b mod 2) * 2 ^ 63.
Proof.
  intros Hv. rewrite land_127. unfold u64.
  replace (Z.shiftl (b mod 128) 63 mod 2 ^ 64) with ((b mod 2) * 2 ^ 63).
  - by apply lor_disjoint.
  - rewrite Z.shiftl_mul_pow2 by lia. change (2 ^ 64) with (2 * 2 ^ 63).
    rewrite Z.mul_mod_distr_r by lia. f_equal. Z.to_euclidean_division_equations. lia.
Qed.

Lemma u32_shift_add shift : 0 <= shift <= 70 -> u32 (shift + 7) = shift + 7.
Proof. intros. apply u32_small. lia. Qed.

Ltac byte_cases Hl :=
  let Hb := fresh "Hb" in
  apply Forall_cons in Hl as [Hb Hl]; rewrite (land_128 _ Hb); unfold is_byte in Hb.

Lemma wah_decode_uleb128_loop_spec n val shift cur r rest :
  Z.of_nat n * 7 + shift = 35 -> 0 <= shift -> 0 <= val < 2 ^ shift -> Forall is_byte cur ->
  wah_decode_uleb128_loop n val shift cur = (Ok r, rest) <->
  exists bs v, cur = bs ++ rest /\ uleb (32 - shift) bs v /\ r = val + v * 2 ^ shift.
Proof.
  revert val shift cur. induction n as [|n IH]; intros val shift cur Hn Hs Hv Hl.
  { simpl. split; [done|]. intros (bs & v & _ & Hu & _).
    inversion Hu; subst; [|lia]. replace shift with 35 in * by lia.
    rewrite Z.pow_neg_r in * by lia. lia. }
  cbn [wah_decode_uleb128_loop]. unfold stm_bind, ensure_more, take_byte.
  destruct cur as [|b cur].
  { split; [done|]. intros (bs & v & E & Hu & _). destruct bs; [inversion Hu|done]. }
  byte_cases Hl.
  destruct (leb_accum val b shift) as [-> Hacc]; [lia..|].
  destruct (Z.ltb_spec b 128) as [Hlt|Hge].
  - rewrite (Z.mod_small b) in * by lia.
    assert (val + b * 2 ^ shift <= UINT32_MAX <-> b < 2 ^ (32 - shift)) as Hfit.
    { unfold UINT32_MAX. assert (2 ^ 32 = 2 ^ shift * 2 ^ (32 - shift)) as E
        by (rewrite <- Z.pow_add_r by lia; f_equal; lia). change (2 ^ 32) with 4294967296 in E. nia. }
    unfold stm_ensure, stm_ret, stm_err.
    destruct (Z.leb_spec (val + b * 2 ^ shift) UINT32_MAX) as [Hle|Hgt].
    + rewrite u32_small by (unfold UINT32_MAX in Hle; lia). split.
      * intros [= <- <-]. exists [b], b. split; [done|]. split; [|done].
        constructor; [lia|]. by apply Hfit.
      * intros (bs & v & E & Hu & ->). inversion Hu; simplify_list_eq; [done|lia].
    + split; [done|]. intros (bs & v & E & Hu & ->). inversion Hu; simplify_list_eq; [|lia].
      apply Hfit in H0. lia.
  - rewrite u32_shift_add by lia. rewrite IH by (lia || done).
    replace (b mod 128) with (b - 128) by (Z.to_euclidean_division_equations; lia).
    rewrite Z.pow_add_r by lia. change (2 ^ 7) with 128. split.
    + intros (bs & v & -> & Hu & ->). exists (b :: bs), (128 * v + (b - 128)).
      split; [done|]. split; [|lia]. constructor; [lia| |by replace (32 - shift - 7) with (32 - (shift + 7)) by lia].
      destruct (decide (7 < 32 - shift)); [done|]. exfalso.
      assert (n = 0%nat) as -> by lia. replace (shift + 7) with 35 in Hu by lia.
      inversion Hu; [|lia]. rewrite Z.pow_neg_r in * by lia. lia.
    + intros (bs & v & E & Hu & ->). inversion Hu; simplify_list_eq; [lia|].
      eexists _, _. split; [done|]. replace (32 - (shift + 7)) with (32 - shift - 7) by lia.
      split; [done|lia].
Qed.

Lemma wah_decode_uleb128_64_loop_spec n val shift cur r rest :
  Z.of_nat n * 7 + shift = 70 -> 0 <= shift -> 0 <= val < 2 ^ shift -> Forall is_byte cur ->
  wah_decode_uleb128_64_loop n val shift cur = (Ok r, rest) <->
  exists bs v, cur = bs ++ rest /\ uleb (64 - shift) bs v /\ r = val + v * 2 ^ shift.
Proof.
  revert val shift cur. induction n as [|n IH]; intros val shift cur Hn Hs Hv Hl.
  { simpl. split; [done|]. intros (bs & v & _ & Hu & _).
    inversion Hu; subst; [|lia]. replace shift with 70 in * by lia.
    rewrite Z.pow_neg_r in * by lia. lia. }
  cbn [wah_decode_uleb128_64_loop]. unfold stm_bind, ensure_more, take_byte.
  destruct cur as [|b cur].
  { split; [done|]. intros (bs & v & E & Hu & _). destruct bs; [inversion Hu|done]. }
  byte_cases Hl. unfold stm_ret, stm_err.
  destruct (decide (n = 0%nat)) as [->|Hn0].
  - (* the tenth byte *)
    replace shift with 63 in * by lia. rewrite leb_accum_63 by done.
    change (64 - 63) with 1. change (10 - Z.of_nat 1 =? 9) with true. cbn [andb].
    destruct (Z.ltb_spec b 128).
    + destruct (Z.ltb_spec 1 b).
      * split; [done|]. intros (bs & v & E & Hu & _). inversion Hu; simplify_list_eq; lia.
      * rewrite Z.mod_small by lia. split.
        -- intros [= <- <-]. exists [b], b. split_and!; [done| |done]. constructor; lia.
        -- intros (bs & v & E & Hu & ->). inversion Hu; simplify_list_eq; [done|lia].
    + split; [done|]. intros (bs & v & E & Hu & _). inversion Hu; simplify_list_eq; lia.
  - destruct (leb_accum val b shift) as [-> Hacc]; [lia..|].
    assert (10 - Z.of_nat (S n) =? 9 = false) as -> by (apply Z.eqb_neq; lia). cbn [andb].
    destruct (Z.ltb_spec b 128) as [Hlt|Hge].
    + rewrite (Z.mod_small b) in * by lia. split.
      * intros [= <- <-]. exists [b], b. split_and!; [done| |done]. constructor; [lia|].
        pose proof (Z.pow_le_mono_r 2 7 (64 - shift) ltac:(lia) ltac:(lia)) as Hp.
        change (2 ^ 7) with 128 in Hp. lia.
      * intros (bs & v & E & Hu & ->). inversion Hu; simplify_list_eq; [done|lia].
    + rewrite u32_shift_add by lia. rewrite IH by (lia || done).
      replace (b mod 128) with (b - 128) by (Z.to_euclidean_division_equations; lia).
      rewrite Z.pow_add_r by lia. change (2 ^ 7) with 128.
      replace (64 - (shift + 7)) with (64 - shift - 7) by lia. split.
      * intros (bs & v & -> & Hu & ->). exists (b :: bs), (128 * v + (b - 128)).
        split; [done|]. split; [constructor; [lia|lia|done]|lia].
      * intros (bs & v & E & Hu & ->). inversion Hu; simplify_list_eq; [lia|].
        eexists _, _. split; [done|]. split; [done|lia].
Qed.

(** Sign extension gives the two's complement value of [shift] bits. *)
Lemma sleb_extend_value val shift :
  0 < shift -> shift < 64 -> 0 <= val < 2 ^ shift -> s64 (sleb_extend val shift) = sgn shift val.
Proof.
  intros Hs Hs' Hv. unfold sleb_extend. destruct (Z.ltb_spec shift 64); [|lia].
  rewrite Z.shiftl_1_l. fold (has_bits val (2 ^ (shift - 1))). rewrite has_bits_pow2 by lia.
  rewrite Z.testbit_eqb by lia. pose proof (pow2_split shift Hs) as Hp.
  assert (2 ^ shift <= 2 ^ 63) by (apply Z.pow_le_mono_r; lia).
  unfold sgn. rewrite (Z.mod_small val (2 ^ shift)) by done.
  destruct (Z.ltb_spec val (2 ^ (shift - 1))).
  - rewrite (Z.div_small val) by lia. change (0 mod 2 =? 1) with false. cbv iota.
    apply sgn_small; simpl; lia.
  - replace (val / 2 ^ (shift - 1)) with 1
      by (apply Z.div_unique with (val - 2 ^ (shift - 1)); lia).
    change (1 mod 2 =? 1) with true. cbv iota.
    replace (u64 (Z.shiftl (u64 (Z.lnot 0)) shift)) with ((2 ^ (64 - shift) - 1) * 2 ^ shift).
    + rewrite lor_disjoint by lia. rewrite Z.mul_sub_distr_r, <- Z.pow_add_r by lia.
      replace (64 - shift + shift) with 64 by lia.
      unfold s64, sgn. rewrite Z.mod_small by lia.
      destruct (Z.ltb_spec (val + (2 ^ 64 - 1 * 2 ^ shift)) (2 ^ (64 - 1))); lia.
    + unfold u64. change (Z.lnot 0 mod 2 ^ 64) with (2 ^ 64 - 1).
      rewrite Z.shiftl_mul_pow2 by lia.
      replace (2 ^ 64) with (2 ^ (64 - shift) * 2 ^ shift) at 2
        by (rewrite <- Z.pow_add_r by lia; f_equal; lia).
      rewrite Z.mul_mod_distr_r by lia. f_equal.
      replace (2 ^ 64) with (2 ^ shift * 2 ^ (64 - shift))
        by (rewrite <- Z.pow_add_r by lia; f_equal; lia).
      replace (2 ^ shift * 2 ^ (64 - shift) - 1)
        with ((2 ^ (64 - shift) - 1) + (2 ^ shift - 1) * 2 ^ (64 - shift)) by lia.
      rewrite Z_mod_plus_full, Z.mod_small; [done|].
      pose proof (Z.pow_pos_nonneg 2 (64 - shift)). lia.
Qed.

(** The two's complement value of the accumulator plus a last byte. *)
Lemma sgn_accum val b shift :
  0 <= shift -> 0 <= val < 2 ^ shift -> 0 <= b < 128 ->
  sgn (shift + 7) (val + b * 2 ^ shift) = val + (if b <? 64 then b else b - 128) * 2 ^ shift.
Proof.
  intros Hs Hv Hb. unfold sgn. rewrite !Z.pow_add_r by lia.
  replace (shift + 7 - 1) with (shift + 6) by lia. rewrite Z.pow_add_r by lia.
  change (2 ^ 7) with 128. change (2 ^ 6) with 64. rewrite Z.mod_small by nia.
  destruct (Z.ltb_spec b 64); destruct (Z.ltb_spec (val + b * 2 ^ shift) (2 ^ shift * 64)); nia.
Qed.

Lemma sleb_extend_range val shift : 0 <= val < 2 ^ shift -> 0 < shift < 64 ->
  s32 (sleb_extend val shift) = s32 (sgn shift val).
Proof.
  intros. rewrite <- sleb_extend_value by lia. unfold s32, s64.
  assert (forall x, sgn 64 x mod 2 ^ 32 = x mod 2 ^ 32) as E.
  { intros x. pose proof (sgn_mod 64 x ltac:(lia)) as E.
    apply (f_equal (fun z => z mod 2 ^ 32)) in E.
    by rewrite !Z.mod_mod_divide in E by (exists (2 ^ 32); lia). }
  unfold sgn at 1 2. by rewrite !E.
Qed.

(** The two accepted forms of a last byte. *)
Lemma sleb_last n b : 0 <= b < 128 -> 0 < n ->
  (exists v, sleb n [b] v) <-> - 2 ^ (n - 1) <= (if b <? 64 then b else b - 128) < 2 ^ (n - 1).
Proof.
  intros Hb Hn. pose proof (Z.pow_pos_nonneg 2 (n - 1)).
  destruct (Z.ltb_spec b 64); split.
  - intros (v & Hs). inversion Hs; subst; lia.
  - intros. exists b. constructor; lia.
  - intros (v & Hs). inversion Hs; subst; lia.
  - intros. exists (b - 128). constructor; lia.
Qed.

Lemma sleb_last_value n b v : 0 <= b < 128 -> sleb n [b] v -> v = if b <? 64 then b else b - 128.
Proof. intros Hb Hs. destruct (Z.ltb_spec b 64); inversion Hs; lia. Qed.

Lemma wah_decode_sleb128_32_loop_spec n val shift cur r rest :
  Z.of_nat n * 7 + shift = 35 -> 0 <= shift -> 0 <= val < 2 ^ shift -> Forall is_byte cur ->
  wah_decode_sleb128_32_loop n val shift cur = (Ok r, rest) <->
  exists bs v, cur = bs ++ rest /\ sleb (32 - shift) bs v /\ r = val + v * 2 ^ shift.
Proof.
  revert val shift cur. induction n as [|n IH]; intros val shift cur Hn Hs Hv Hl.
  { simpl. split; [done|]. intros (bs & v & _ & Hu & _). replace shift with 35 in * by lia.
    inversion Hu; subst; rewrite ?Z.pow_neg_r in * by lia; lia. }
  cbn [wah_decode_sleb128_32_loop]. unfold stm_bind, ensure_more, take_byte.
  destruct cur as [|b cur].
  { split; [done|]. intros (bs & v & E & Hu & _). destruct bs; [inversion Hu|done]. }
  byte_cases Hl. rewrite u32_shift_add by lia.
  destruct (leb_accum val b shift) as [-> Hacc]; [lia..|].
  destruct (Z.ltb_spec b 128) as [Hlt|Hge].
  - rewrite (Z.mod_small b) in * by lia.
    rewrite sleb_extend_range, sleb_extend_value, sgn_accum by lia.
    set (x := if b <? 64 then b else b - 128).
    assert (INT32_MIN <= val + x * 2 ^ shift <= INT32_MAX <->
            - 2 ^ (32 - shift - 1) <= x < 2 ^ (32 - shift - 1)) as Hfit.
    { unfold INT32_MIN, INT32_MAX.
      assert (2 ^ 31 = 2 ^ shift * 2 ^ (32 - shift - 1)) as E
        by (rewrite <- Z.pow_add_r by lia; f_equal; lia).
      change (2 ^ 31) with 2147483648 in E. nia. }
    unfold stm_ensure, stm_ret, stm_err.
    destruct (_ && _) eqn:Hc.
    + unfold s32. rewrite sgn_small by (unfold INT32_MIN, INT32_MAX in Hc; simpl; lia).
      assert (Hx : - 2 ^ (32 - shift - 1) <= x < 2 ^ (32 - shift - 1)) by (apply Hfit; lia).
      split.
      * intros [= <- <-]. apply (sleb_last (32 - shift)) in Hx as [v Hv']; [|lia..].
        exists [b], v. split; [done|]. split; [done|].
        apply sleb_last_value in Hv'; [|lia]. by subst v.
      * intros (bs & v & E & Hu & ->).
        assert (bs = [b] /\ rest = cur) as [-> ->]
          by (inversion Hu; simplify_list_eq; (done || lia)).
        apply sleb_last_value in Hu; [|lia]. by subst v.
    + split; [done|]. intros (bs & v & E & Hu & ->).
      assert (bs = [b] /\ rest = cur) as [-> ->]
        by (inversion Hu; simplify_list_eq; (done || lia)).
      assert (exists v, sleb (32 - shift) [b] v) as Hx by eauto.
      apply sleb_last in Hx; [|lia..]. fold x in Hx. apply Hfit in Hx. lia.
  - rewrite IH by (lia || done).
    replace (b mod 128) with (b - 128) by (Z.to_euclidean_division_equations; lia).
    rewrite Z.pow_add_r by lia. change (2 ^ 7) with 128.
    replace (32 - (shift + 7)) with (32 - shift - 7) by lia. split.
    + intros (bs & v & -> & Hu & ->). exists (b :: bs), (128 * v + (b - 128)).
      split; [done|]. split; [|lia]. constructor; [lia| |done].
      destruct (decide (7 < 32 - shift)); [done|]. exfalso.
      inversion Hu; subst; rewrite ?Z.pow_neg_r in * by lia; lia.
    + intros (bs & v & E & Hu & ->). inversion Hu; simplify_list_eq; [lia..|].
      eexists _, _. split; [done|]. split; [done|lia].
Qed.

Lemma wah_decode_sleb128_64_loop_spec n val shift cur r rest :
  Z.of_nat n * 7 + shift = 77 -> 0 <= shift -> 0 <= val < 2 ^ shift -> Forall is_byte cur ->
  wah_decode_sleb128_64_loop n val shift cur = (Ok r, rest) <->
  exists bs v, cur = bs ++ rest /\ sleb (64 - shift) bs v /\ r = val + v * 2 ^ shift.
Proof.
  revert val shift cur. induction n as [|n IH]; intros val shift cur Hn Hs Hv Hl.
  { simpl. split; [done|]. intros (bs & v & _ & Hu & _). replace shift with 77 in * by lia.
    inversion Hu; subst; rewrite ?Z.pow_neg_r in * by lia; lia. }
  cbn [wah_decode_sleb128_64_loop]. unfold stm_bind, ensure_more, take_byte, stm_ensure.
  destruct cur as [|b cur].
  { split; [done|]. intros (bs & v & E & Hu & _). destruct bs; [inversion Hu|done]. }
  unfold stm_ret, stm_err.
  destruct (Z.ltb_spec shift 64) as [Hs64|Hs64].
  2: { split; [done|]. intros (bs & v & _ & Hu & _). replace shift with 70 in * by lia.
       inversion Hu; subst; rewrite ?Z.pow_neg_r in * by lia; lia. }
  byte_cases Hl. rewrite u32_shift_add by lia.
  destruct (Z.eqb_spec (shift + 7) 70) as [H70|H70].
  - replace shift with 63 in * by lia. change (64 - 63) with 1. rewrite leb_accum_63 by done.
    destruct (Z.ltb_spec b 128) as [Hlt|Hge]; cbn [negb].
    + destruct ((b =? 0) || (b =? 127)) eqn:Hc.
      * split.
        -- intros [= <- <-]. exists [b], (if b <? 64 then b else b - 128). split; [done|].
           destruct (Z.ltb_spec b 64).
           ++ assert (b = 0) as -> by lia. split; [by constructor|].
              rewrite Z.mod_0_l by lia. unfold s64. rewrite sgn_small by (simpl; lia). lia.
           ++ assert (b = 127) as -> by lia. split; [by apply (sleb_neg 1)|].
              change (127 mod 2) with 1. unfold s64, sgn. rewrite Z.mod_small by lia.
              destruct (Z.ltb_spec (val + 1 * 2 ^ 63) (2 ^ (64 - 1))); lia.
        -- intros (bs & v & E & Hu & ->).
           assert (bs = [b] /\ rest = cur) as [-> ->]
             by (inversion Hu; simplify_list_eq; (done || lia)).
           apply sleb_last_value in Hu; [|lia]. subst v.
           assert (b = 0 \/ b = 127) as [-> | ->] by lia; do 2 f_equal; unfold s64.
           ++ rewrite Z.mod_0_l, sgn_small by (simpl; lia). simpl. lia.
           ++ change (127 mod 2) with 1. unfold sgn. rewrite Z.mod_small by lia.
              destruct (Z.ltb_spec (val + 1 * 2 ^ 63) (2 ^ (64 - 1))); simpl in *; lia.
      * split; [done|]. intros (bs & v & E & Hu & ->).
        inversion Hu; simplify_list_eq; simpl in *; lia.
    + assert (n = 1%nat) as -> by lia. rewrite IH;
        [|lia|lia|pose proof (Z.mod_pos_bound b 2); lia|done].
      split; intros (bs & v & E & Hu & _);
        inversion Hu; simplify_list_eq; rewrite ?Z.pow_neg_r in * by lia; lia.
  - destruct (leb_accum val b shift) as [-> Hacc]; [lia..|].
    replace (64 - shift) with (64 - (shift + 7) + 7) by lia.
    destruct (Z.ltb_spec b 128) as [Hlt|Hge]; cbn [negb].
    + rewrite (Z.mod_small b) in * by lia. rewrite sleb_extend_value, sgn_accum by lia.
      assert (Hx : - 2 ^ (64 - (shift + 7) + 7 - 1) <= (if b <? 64 then b else b - 128)
                   < 2 ^ (64 - (shift + 7) + 7 - 1)).
      { pose proof (Z.pow_le_mono_r 2 6 (64 - (shift + 7) + 7 - 1) ltac:(lia) ltac:(lia)) as Hp.
        change (2 ^ 6) with 64 in Hp. case_bools; lia. }
      split.
      * intros [= <- <-]. apply sleb_last in Hx as [v Hv']; [|lia..].
        exists [b], v. split; [done|]. split; [done|].
        apply sleb_last_value in Hv'; [|lia]. by subst v.
      * intros (bs & v & E & Hu & ->).
        assert (bs = [b] /\ rest = cur) as [-> ->]
          by (inversion Hu; simplify_list_eq; (done || lia)).
        apply sleb_last_value in Hu; [|lia]. by subst v.
    + rewrite IH by (lia || done).
      replace (b mod 128) with (b - 128) by (Z.to_euclidean_division_equations; lia).
      rewrite Z.pow_add_r by lia. change (2 ^ 7) with 128.
      replace (64 - (shift + 7) + 7 - 7) with (64 - (shift + 7)) by lia. split.
      * intros (bs & v & -> & Hu & ->). exists (b :: bs), (128 * v + (b - 128)).
        split; [done|]. split; [|lia]. constructor; [lia|lia|].
        by replace (64 - (shift + 7) + 7 - 7) with (64 - (shift + 7)) by lia.
      * intros (bs & v & E & Hu & ->). inversion Hu; simplify_list_eq; [lia..|].
        eexists _, _. split; [done|].
        replace (64 - (shift + 7) + 7 - 7) with (64 - (shift + 7)) in * by lia. split; [done|lia].
Qed.

(** *** Rejections: every decoder returns, and never reads past the end. *)

(** An outcome that is not a fault. *)
Definition no_fault {E A} (o : outcome E A) : Prop := o <> Fault.

(** A decoder of at most [n] bytes: it consumes a prefix, does not fault, and
    reports the end of the input exactly when the encoding is cut off. *)
Definition leb_rejects {A} (n : nat) (d : comp (list Z) A) (cur : list Z) : Prop :=
  (exists used, cur = used ++ (d cur).2 /\ (length used <= n)%nat) /\
  ((exists v, (d cur).1 = Ok v) \/
   (d cur).1 = Err WAH_ERROR_TOO_LARGE /\ ~ leb_truncated n cur \/
   (d cur).1 = Err WAH_ERROR_UNEXPECTED_EOF /\ leb_truncated n cur).

Lemma leb_truncated_cons n b cur : 128 <= b ->
  leb_truncated (S n) (b :: cur) <-> leb_truncated n cur.
Proof. unfold leb_truncated. simpl. intros. rewrite Forall_cons. intuition lia. Qed.

Lemma leb_rejects_cons {A} n b cur (d d' : comp (list Z) A) :
  128 <= b -> d (b :: cur) = d' cur -> leb_rejects n d' cur -> leb_rejects (S n) d (b :: cur).
Proof.
  intros Hb E [(used & E' & Hu) H]. unfold leb_rejects. rewrite E, leb_truncated_cons by done.
  split; [|done]. exists (b :: used). simpl. rewrite <- E'. split; [done|lia].
Qed.

Lemma leb_rejects_nil {A} n (d : comp (list Z) A) :
  d [] = (Err WAH_ERROR_UNEXPECTED_EOF, []) -> (0 < n)%nat -> leb_rejects n d [].
Proof.
  intros E Hn. unfold leb_rejects. rewrite E. split; [exists []; split; simpl; [done|lia]|].
  right; right. split; [done|]. split; simpl; [lia|constructor].
Qed.

Lemma leb_rejects_last {A} n b cur (d : comp (list Z) A) :
  b < 128 -> (d (b :: cur)).2 = cur ->
  ((exists v, (d (b :: cur)).1 = Ok v) \/ (d (b :: cur)).1 = Err WAH_ERROR_TOO_LARGE) ->
  leb_rejects (S n) d (b :: cur).
Proof.
  intros Hb E Ho. unfold leb_rejects. rewrite E. split; [exists [b]; split; simpl; [done|lia]|].
  destruct Ho as [?|Ho]; [by left|right; left]. split; [done|].
  intros [_ H]. apply Forall_cons in H as [H _]. lia.
Qed.

Lemma leb_rejects_none {A} n (d : comp (list Z) A) cur :
  d cur = (Err WAH_ERROR_TOO_LARGE, cur) -> ~ leb_truncated n cur -> leb_rejects n d cur.
Proof.
  intros E Hn. unfold leb_rejects. rewrite E. split; [exists []; split; simpl; [done|lia]|].
  right; left. done.
Qed.

Ltac leb_rejects_step IH :=
  match goal with
  | Hl : Forall is_byte ?cur |- leb_rejects (S ?n) ?d ?cur =>
      destruct cur as [|b cur]; [apply leb_rejects_nil; [reflexivity|lia]|];
      let Hb := fresh "Hb" in
      apply Forall_cons in Hl as [Hb Hl];
      let E := fresh "E" in
      destruct (Z.ltb_spec b 128) as [E|E];
      [apply leb_rejects_last; [done| |]
      |eapply leb_rejects_cons; [done| |apply IH; try done; try lia]]
  end.

Ltac leb_unfold :=
  unfold stm_bind, ensure_more, take_byte, stm_ensure, stm_ret, stm_err; rewrite ?land_128 by done.

Lemma wah_decode_uleb128_rejects n val shift cur :
  Forall is_byte cur -> leb_rejects n (wah_decode_uleb128_loop n val shift) cur.
Proof.
  revert val shift cur. induction n as [|n IH]; intros val shift cur Hl.
  { apply leb_rejects_none; [done|]. intros [H _]. lia. }
  leb_rejects_step IH; cbn [wah_decode_uleb128_loop]; leb_unfold;
    destruct (Z.ltb_spec b 128); try lia; try reflexivity.
  - by destruct (_ <=? _).
  - destruct (_ <=? _); eauto.
Qed.

Lemma wah_decode_uleb128_64_rejects n val shift cur :
  Forall is_byte cur -> leb_rejects n (wah_decode_uleb128_64_loop n val shift) cur.
Proof.
  revert val shift cur. induction n as [|n IH]; intros val shift cur Hl.
  { apply leb_rejects_none; [done|]. intros [H _]. lia. }
  leb_rejects_step IH; cbn [wah_decode_uleb128_64_loop]; leb_unfold;
    destruct (Z.ltb_spec b 128); try lia; try reflexivity.
  - by destruct (_ && _).
  - destruct (_ && _); eauto.
Qed.

Lemma wah_decode_sleb128_32_rejects n val shift cur :
  Forall is_byte cur -> leb_rejects n (wah_decode_sleb128_32_loop n val shift) cur.
Proof.
  revert val shift cur. induction n as [|n IH]; intros val shift cur Hl.
  { apply leb_rejects_none; [done|]. intros [H _]. lia. }
  leb_rejects_step IH; cbn [wah_decode_sleb128_32_loop]; leb_unfold;
    destruct (Z.ltb_spec b 128); try lia; try reflexivity.
  - by destruct (_ && _).
  - destruct (_ && _); eauto.
Qed.

Lemma wah_decode_sleb128_64_rejects n val shift cur :
  Z.of_nat n * 7 + shift = 77 -> 0 <= shift -> (0 < n)%nat -> Forall is_byte cur ->
  leb_rejects n (wah_decode_sleb128_64_loop n val shift) cur.
Proof.
  revert val shift cur. induction n as [|n IH]; intros val shift cur Hn Hs Hn0 Hl; [lia|].
  destruct (Z.ltb_spec shift 64) as [Hs64|Hs64].
  2: { assert (n = 0%nat) as -> by lia. destruct cur as [|b cur]; [by apply leb_rejects_nil; [|lia]|].
       apply leb_rejects_none; [cbn [wah_decode_sleb128_64_loop]; leb_unfold|].
       - by destruct (Z.ltb_spec shift 64); [lia|].
       - intros [H _]. simpl in H. lia. }
  destruct cur as [|b cur]; [by apply leb_rejects_nil; [|lia]|].
  apply Forall_cons in Hl as [Hb Hl].
  assert (E : wah_decode_sleb128_64_loop (S n) val shift (b :: cur) =
    let val := Z.lor val (u64 (Z.shiftl (Z.land b 127) shift)) in
    if b <? 128 then
      if shift + 7 =? 70 then
        (if (b =? 0) || (b =? 127) then Ok (s64 val) else Err WAH_ERROR_TOO_LARGE, cur)
      else (Ok (s64 (sleb_extend val (shift + 7))), cur)
    else wah_decode_sleb128_64_loop n val (shift + 7) cur).
  { cbn [wah_decode_sleb128_64_loop]. leb_unfold. destruct (Z.ltb_spec shift 64); [|lia].
    rewrite land_128, u32_shift_add by (done || lia).
    destruct (b <? 128), (shift + 7 =? 70), ((b =? 0) || (b =? 127)); reflexivity. }
  cbv zeta in E. destruct (Z.ltb_spec b 128).
  - apply leb_rejects_last; rewrite ?E; [done|..];
      (destruct (_ =? 70); [destruct (_ || _)|]); simpl; eauto.
  - eapply leb_rejects_cons; [done|exact E|]. apply IH; (done || lia).
Qed.

(** *** What the other decoders use *)

Ltac leb_iff L :=
  rewrite L by (simpl; lia || done);
  split; [intros (bs & w & ? & ? & ->)|intros (bs & ? & ?)]; eexists; [|eexists];
    rewrite ?Z.mul_1_r, ?Z.add_0_l; (split_and!; [done..|lia]) || done.

Lemma wah_decode_uleb128_iff cur v rest : Forall is_byte cur ->
  wah_decode_uleb128 cur = (Ok v, rest) <-> exists bs, cur = bs ++ rest /\ uleb 32 bs v.
Proof.
  intros Hl. unfold wah_decode_uleb128. leb_iff wah_decode_uleb128_loop_spec.
Qed.

Lemma wah_decode_uleb128_64_iff cur v rest : Forall is_byte cur ->
  wah_decode_uleb128_64 cur = (Ok v, rest) <-> exists bs, cur = bs ++ rest /\ uleb 64 bs v.
Proof.
  intros Hl. unfold wah_decode_uleb128_64. leb_iff wah_decode_uleb128_64_loop_spec.
Qed.

Lemma wah_decode_sleb128_32_iff cur v rest : Forall is_byte cur ->
  wah_decode_sleb128_32 cur = (Ok v, rest) <-> exists bs, cur = bs ++ rest /\ sleb 32 bs v.
Proof.
  intros Hl. unfold wah_decode_sleb128_32. leb_iff wah_decode_sleb128_32_loop_spec.
Qed.

Lemma wah_decode_sleb128_64_iff cur v rest : Forall is_byte cur ->
  wah_decode_sleb128_64 cur = (Ok v, rest) <-> exists bs, cur = bs ++ rest /\ sleb 64 bs v.
Proof.
  intros Hl. unfold wah_decode_sleb128_64. leb_iff wah_decode_sleb128_64_loop_spec.
Qed.

(** A cursor of bytes is kept, and no decoder faults on one. *)
Lemma leb_rejects_faultless {A} n (d : comp (list Z) A) :
  (forall cur, Forall is_byte cur -> leb_rejects n d cur) -> faultless d (Forall is_byte).
Proof.
  intros H cur Hl. destruct (H cur Hl) as [(used & E & _) Ho]. split.
  - destruct Ho as [[v ->]|[[-> _]|[-> _]]]; done.
  - rewrite E in Hl. by apply Forall_app in Hl as [_ ?].
Qed.

Lemma wah_decode_uleb128_faultless : faultless wah_decode_uleb128 (Forall is_byte).
Proof. apply (leb_rejects_faultless 5). intros. by apply wah_decode_uleb128_rejects. Qed.
Lemma wah_decode_uleb128_64_faultless : faultless wah_decode_uleb128_64 (Forall is_byte).
Proof. apply (leb_rejects_faultless 10). intros. by apply wah_decode_uleb128_64_rejects. Qed.
Lemma wah_decode_sleb128_32_faultless : faultless wah_decode_sleb128_32 (Forall is_byte).
Proof. apply (leb_rejects_faultless 5). intros. by apply wah_decode_sleb128_32_rejects. Qed.
Lemma wah_decode_sleb128_64_faultless : faultless wah_decode_sleb128_64 (Forall is_byte).
Proof. apply (leb_rejects_faultless 11). intros. apply wah_decode_sleb128_64_rejects; (done || lia). Qed.

(** Reading the byte that [ensure_more] made sure of. *)
Lemma ensure_take_faultless {A} (f : Z -> comp (list Z) A) :
  (forall b, is_byte b -> faultless (f b) (Forall is_byte)) ->
  faultless (ensure_more ;;; b <- take_byte ;; f b) (Forall is_byte).
Proof.
  intros H cur Hl. unfold stm_bind, ensure_more, take_byte.
  destruct cur as [|b cur]; [done|]. apply Forall_cons in Hl as [Hb Hl]. by apply H.
Qed.

#[export] Hint Resolve wah_decode_uleb128_faultless wah_decode_uleb128_64_faultless
  wah_decode_sleb128_32_faultless ensure_take_faultless : wah.

(** Every value has an encoding. *)
Lemma uleb_exists n v : 0 <= v < 2 ^ Z.of_nat n -> (0 < n)%nat -> exists bs, uleb (Z.of_nat n) bs v.
Proof.
  revert v. induction (lt_wf n) as [n _ IH]. intros v Hv Hn.
  destruct (Z.ltb_spec v 128) as [Hlt|Hge]; [exists [v]; constructor; lia|].
  assert (7 < n)%nat as Hn7.
  { destruct (decide (7 < n)%nat); [done|].
    pose proof (Z.pow_le_mono_r 2 (Z.of_nat n) 7). lia. }
  destruct (IH (n - 7)%nat ltac:(lia) (v / 128)) as [bs Hbs]; [|lia|].
  - replace (Z.of_nat n) with (Z.of_nat (n - 7) + 7) in Hv by lia.
    rewrite Z.pow_add_r in Hv by lia. change (2 ^ 7) with 128 in Hv.
    Z.to_euclidean_division_equations. nia.
  - exists (v mod 128 + 128 :: bs).
    replace v with (128 * (v / 128) + (v mod 128 + 128 - 128)) at 2 by (Z.to_euclidean_division_equations; lia).
    constructor; [Z.to_euclidean_division_equations; lia|lia|].
    by replace (Z.of_nat n - 7) with (Z.of_nat (n - 7)) by lia.
Qed.

(** A padded encoding of a non-negative 31-bit value. *)
Lemma sleb_exists v : 0 <= v < 2 ^ 31 -> exists b bs, 128 <= b < 256 /\ sleb 32 (b :: bs) v.
Proof.
  intros Hv. set (d k := v / 2 ^ k mod 128 + 128).
  exists (d 0), [d 7; d 14; d 21; v / 2 ^ 28]. split; [subst d; cbv beta; Z.to_euclidean_division_equations; lia|].
  replace v with (128 * (128 * (128 * (128 * (v / 2 ^ 28) + (d 21 - 128)) + (d 14 - 128))
    + (d 7 - 128)) + (d 0 - 128)) at 2
    by (subst d; cbv beta; simpl Z.pow; Z.to_euclidean_division_equations; lia).
  repeat (apply sleb_more; [subst d; cbv beta; simpl Z.pow; Z.to_euclidean_division_equations; lia|lia|]).
  apply sleb_pos; simpl Z.pow; Z.to_euclidean_division_equations; lia.
Qed.

Lemma uleb_nonneg n bs v : uleb n bs v -> 0 <= v.
Proof. induction 1; lia. Qed.

Lemma uleb_bound n bs v : uleb n bs v -> v < 2 ^ n.
Proof.
  induction 1; [done|].
  assert (2 ^ n = 2 ^ (n - 7) * 128) by (change 128 with (2 ^ 7); rewrite <- Z.pow_add_r by lia; f_equal; lia).
  nia.
Qed.

Lemma sleb_first n b bs v : sleb n (b :: bs) v -> 0 <= v -> 0 <= b < 64 \/ 128 <= b < 256.
Proof. inversion 1; subst; lia. Qed.

Lemma sleb_range n bs v : sleb n bs v -> 0 < n -> - 2 ^ (n - 1) <= v < 2 ^ (n - 1).
Proof.
  induction 1; intros Hn; [lia|lia|].
  assert (2 ^ (n - 1) = 2 ^ (n - 7 - 1) * 128) by (change 128 with (2 ^ 7); rewrite <- Z.pow_add_r by lia; f_equal; lia).
  specialize (IHsleb ltac:(lia)). lia.
Qed.

(** The unsigned LEB128 decoders accept exactly the encodings of [u32] and [u64]
    in the grammar of the binary format, with their value, consuming exactly the
    encoding; on any other input they return "unexpected end" if the encoding is cut
    off and "too large" otherwise, after consuming at most 5 or 10 bytes, and they
    never read at or past the end of the input. *)
Theorem wah_decode_uleb128_grammar cur :
  Forall is_byte cur ->
  (forall v rest, wah_decode_uleb128 cur = (Ok v, rest) <->
     exists bs, cur = bs ++ rest /\ uleb 32 bs v) /\
  leb_rejects 5 wah_decode_uleb128 cur /\
  (forall v rest, wah_decode_uleb128_64 cur = (Ok v, rest) <->
     exists bs, cur = bs ++ rest /\ uleb 64 bs v) /\
  leb_rejects 10 wah_decode_uleb128_64 cur.
Proof.
  intros Hl. split_and!.
  - intros v rest. by apply wah_decode_uleb128_iff.
  - by apply wah_decode_uleb128_rejects.
  - intros v rest. by apply wah_decode_uleb128_64_iff.
  - by apply wah_decode_uleb128_64_rejects.
Qed.

(** C21. The signed LEB128 decoders accept exactly the encodings of [s32] and [s64]
    in the grammar, with their value and length, and reject anything else without
    reading past the end. *)
Theorem wah_decode_sleb128_grammar cur :
  Forall is_byte cur ->
  (forall v rest, wah_decode_sleb128_32 cur = (Ok v, rest) <->
     exists bs, cur = bs ++ rest /\ sleb 32 bs v) /\
  leb_rejects 5 wah_decode_sleb128_32 cur /\
  (forall v rest, wah_decode_sleb128_64 cur = (Ok v, rest) <->
     exists bs, cur = bs ++ rest /\ sleb 64 bs v) /\
  leb_rejects 11 wah_decode_sleb128_64 cur.
Proof.
  intros Hl. split_and!.
  - intros v rest. by apply wah_decode_sleb128_32_iff.
  - by apply wah_decode_sleb128_32_rejects.
  - intros v rest. by apply wah_decode_sleb128_64_iff.
  - apply wah_decode_sleb128_64_rejects; simpl; lia || done.
Qed.

Lemma wah_decode_uleb128_grammar_witness : exists bs, [229; 142; 38; 7] = bs ++ [7] /\ uleb 32 bs 624485.
Proof.
  refine (proj1 (proj1 (wah_decode_uleb128_grammar [229; 142; 38; 7] _) 624485 [7]) _).
  - repeat constructor; unfold is_byte; lia.
  - vm_compute. reflexivity.
Defined.

Lemma wah_decode_sleb128_grammar_witness : exists bs, [192; 187; 120] = bs ++ [] /\ sleb 32 bs (-123456).
Proof.
  refine (proj1 (proj1 (wah_decode_sleb128_grammar [192; 187; 120] _) (-123456) []) _).
  - repeat constructor; unfold is_byte; lia.
  - vm_compute. reflexivity.
Defined.
