(* ===== verification/Utf8.v ===== *)
(** * The UTF-8 validator of names

    [wah_is_valid_utf8] (wah.h) accepts exactly the UTF-8 encodings of sequences of
    Unicode scalar values. *)

From S2P Require Import Prelude Bytes.
From stdpp Require Import list.
#[local] Open Scope Z_scope.

(** ** Definitions *)

(** [a || b] in C: [b] is evaluated, and may read, only if [a] is false. *)
Definition c_or (a b : option bool) : option bool :=
  match a with None => None | Some true => Some true | Some false => b end.

(** [(bytes[j] & mask) != v] and [bytes[j] < v]. *)
Definition byte_differs (bytes : list Z) (j mask v : Z) : option bool :=
  b ← zget bytes j; Some (negb (Z.land b mask =? v)).
Definition byte_below (bytes : list Z) (j v : Z) : option bool :=
  b ← zget bytes j; Some (b <? v).

(** The [while (i < len)] loop; every iteration advances [i], so that [len] units
    of fuel are enough. [None] is a read out of bounds (or running out of fuel). *)
Fixpoint wah_is_valid_utf8_loop (fuel : nat) (bytes : list Z) (len i : Z) : option bool :=
  if negb (i <? len) then Some true
  else match fuel with
  | O => None
  | S fuel' =>
    byte ← zget bytes i;
    if byte <? 128 then wah_is_valid_utf8_loop fuel' bytes len (i + 1)
    else if Z.land byte 224 =? 192 then
      bad ← c_or (c_or (Some (len <=? i + 1)) (byte_differs bytes (i + 1) 192 128))
                 (Some (Z.land byte 254 =? 192));
      if bad : bool then Some false else wah_is_valid_utf8_loop fuel' bytes len (i + 2)
    else if Z.land byte 240 =? 224 then
      bad ← c_or (c_or (c_or (c_or (Some (len <=? i + 2))
                 (byte_differs bytes (i + 1) 192 128)) (byte_differs bytes (i + 2) 192 128))
                 (if byte =? 224 then byte_below bytes (i + 1) 160 else Some false))
                 (if byte =? 237 then negb <$> byte_below bytes (i + 1) 160 else Some false);
      if bad : bool then Some false else wah_is_valid_utf8_loop fuel' bytes len (i + 3)
    else if Z.land byte 248 =? 240 then
      bad ← c_or (c_or (c_or (c_or (c_or (c_or (Some (244 <? byte)) (Some (len <=? i + 3)))
                 (byte_differs bytes (i + 1) 192 128)) (byte_differs bytes (i + 2) 192 128))
                 (byte_differs bytes (i + 3) 192 128))
                 (if byte =? 240 then byte_below bytes (i + 1) 144 else Some false))
                 (if byte =? 244 then negb <$> byte_below bytes (i + 1) 144 else Some false);
      if bad : bool then Some false else wah_is_valid_utf8_loop fuel' bytes len (i + 4)
    else Some false
  end.

Definition wah_is_valid_utf8 (s : list Z) (len : Z) : option bool :=
  wah_is_valid_utf8_loop (Z.to_nat len) s len 0.

(** *** Specification *)

(** Unicode scalar values: code points that are not surrogates. *)
Definition unicode_scalar (c : Z) : Prop := 0 <= c <= 1114111 /\ ~ 55296 <= c <= 57343.

(** The UTF-8 encoding of a code point. *)
Definition utf8_encode (c : Z) : list Z :=
  if c <? 128 then [c]
  else if c <? 2048 then [192 + c / 64; 128 + c mod 64]
  else if c <? 65536 then [224 + c / 4096; 128 + c / 64 mod 64; 128 + c mod 64]
  else [240 + c / 262144; 128 + c / 4096 mod 64; 128 + c / 64 mod 64; 128 + c mod 64].

Definition utf8_text (bytes : list Z) : Prop :=
  exists cs, Forall unicode_scalar cs /\ bytes = concat (utf8_encode <$> cs).

(** ** Theorems *)

(** A property of bytes that holds of all 256 of them. *)
Lemma forall_byte (P : Z -> bool) :
  forallb P (zrange 0 256) = true -> forall b, is_byte b -> P b = true.
Proof.
  intros H b Hb. rewrite forallb_forall in H. apply H, list_elem_of_In, elem_of_zrange.
  unfold is_byte in Hb. lia.
Qed.

Ltac by_bytes P b :=
  pose proof (forall_byte P ltac:(vm_compute; reflexivity) b) as Hall; cbv beta in Hall;
  intros Hb; specialize (Hall Hb); apply eqb_prop in Hall; rewrite Hall.

Lemma mask_e0 b : is_byte b -> (Z.land b 224 =? 192) = (192 <=? b) && (b <? 224).
Proof. by_bytes (fun b => Bool.eqb (Z.land b 224 =? 192) ((192 <=? b) && (b <? 224))) b. done. Qed.
Lemma mask_f0 b : is_byte b -> (Z.land b 240 =? 224) = (224 <=? b) && (b <? 240).
Proof. by_bytes (fun b => Bool.eqb (Z.land b 240 =? 224) ((224 <=? b) && (b <? 240))) b. done. Qed.
Lemma mask_f8 b : is_byte b -> (Z.land b 248 =? 240) = (240 <=? b) && (b <? 248).
Proof. by_bytes (fun b => Bool.eqb (Z.land b 248 =? 240) ((240 <=? b) && (b <? 248))) b. done. Qed.
Lemma mask_c0 b : is_byte b -> (Z.land b 192 =? 128) = (128 <=? b) && (b <? 192).
Proof. by_bytes (fun b => Bool.eqb (Z.land b 192 =? 128) ((128 <=? b) && (b <? 192))) b. done. Qed.
Lemma mask_fe b : is_byte b -> (Z.land b 254 =? 192) = (192 <=? b) && (b <? 194).
Proof. by_bytes (fun b => Bool.eqb (Z.land b 254 =? 192) ((192 <=? b) && (b <? 194))) b. done. Qed.

(** A continuation byte. *)
Definition utf8_cont (b : Z) : Prop := 128 <= b < 192.

Lemma utf8_text_nil : utf8_text [].
Proof. by exists []. Qed.

Lemma utf8_text_app c l : unicode_scalar c -> utf8_text l -> utf8_text (utf8_encode c ++ l).
Proof. intros Hc (cs & Hcs & ->). exists (c :: cs). split; [by constructor|done]. Qed.

Lemma utf8_text_cons_inv b l :
  utf8_text (b :: l) -> exists c l', unicode_scalar c /\ b :: l = utf8_encode c ++ l' /\ utf8_text l'.
Proof.
  intros ([|c cs] & Hcs & E); [done|]. apply Forall_cons in Hcs as [Hc Hcs].
  exists c, (concat (utf8_encode <$> cs)). split_and!; [done|done|by exists cs].
Qed.

Ltac utf8_inv :=
  match goal with
  | H : utf8_text (_ :: _) |- _ =>
      apply utf8_text_cons_inv in H as (c & l' & [Hc Hs] & E & Ht);
      unfold utf8_encode in E; repeat case_match; simplify_list_eq
  end.
Ltac zdiv := Z.to_euclidean_division_equations; lia.

Lemma utf8_text_1 b l : 0 <= b < 128 -> utf8_text (b :: l) <-> utf8_text l.
Proof.
  intros Hb. split.
  - intros H. utf8_inv; [done|zdiv..].
  - intros H. replace (b :: l) with (utf8_encode b ++ l).
    + apply utf8_text_app; [unfold unicode_scalar; lia|done].
    + unfold utf8_encode. by destruct (Z.ltb_spec b 128); [|lia].
Qed.

Lemma utf8_text_2 b l : 192 <= b < 224 ->
  utf8_text (b :: l) <-> exists b1 l', l = b1 :: l' /\ utf8_cont b1 /\ 194 <= b /\ utf8_text l'.
Proof.
  intros Hb. unfold utf8_cont. split.
  - intros H. utf8_inv; try zdiv. eexists _, _. split_and!; [done|zdiv..|done].
  - intros (b1 & l' & -> & H1 & H2 & H3).
    replace (b :: b1 :: l') with (utf8_encode ((b - 192) * 64 + (b1 - 128)) ++ l').
    + apply utf8_text_app; [unfold unicode_scalar; lia|done].
    + unfold utf8_encode. case_bools; try lia. simpl. repeat f_equal; zdiv.
Qed.

Lemma utf8_text_3 b l : 224 <= b < 240 ->
  utf8_text (b :: l) <-> exists b1 b2 l', l = b1 :: b2 :: l' /\ utf8_cont b1 /\ utf8_cont b2 /\
    (b = 224 -> 160 <= b1) /\ (b = 237 -> b1 < 160) /\ utf8_text l'.
Proof.
  intros Hb. unfold utf8_cont. split.
  - intros H. utf8_inv; try zdiv. eexists _, _, _. split_and!; [done|zdiv..|done].
  - intros (b1 & b2 & l' & -> & H1 & H2 & H3 & H4 & H5).
    replace (b :: b1 :: b2 :: l')
      with (utf8_encode ((b - 224) * 4096 + (b1 - 128) * 64 + (b2 - 128)) ++ l').
    + apply utf8_text_app; [unfold unicode_scalar; lia|done].
    + unfold utf8_encode. case_bools; try lia. simpl. repeat f_equal; zdiv.
Qed.

Lemma utf8_text_4 b l : 240 <= b < 256 ->
  utf8_text (b :: l) <-> exists b1 b2 b3 l', l = b1 :: b2 :: b3 :: l' /\ utf8_cont b1 /\
    utf8_cont b2 /\ utf8_cont b3 /\ b <= 244 /\
    (b = 240 -> 144 <= b1) /\ (b = 244 -> b1 < 144) /\ utf8_text l'.
Proof.
  intros Hb. unfold utf8_cont. split.
  - intros H. utf8_inv; try zdiv. eexists _, _, _, _. split_and!; [done|zdiv..|done].
  - intros (b1 & b2 & b3 & l' & -> & H1 & H2 & H3 & H4 & H5 & H6 & H7).
    replace (b :: b1 :: b2 :: b3 :: l')
      with (utf8_encode ((b - 240) * 262144 + (b1 - 128) * 4096 + (b2 - 128) * 64 + (b3 - 128)) ++ l').
    + apply utf8_text_app; [unfold unicode_scalar; lia|done].
    + unfold utf8_encode. case_bools; try lia. simpl. repeat f_equal; zdiv.
Qed.

Lemma utf8_text_bad b l : 128 <= b < 192 -> ~ utf8_text (b :: l).
Proof. intros Hb H. utf8_inv; zdiv. Qed.

(** Reads behind a prefix that was consumed. *)
Lemma zget_prefix {A} (pre l : list A) (k : nat) i :
  i = zlen pre + Z.of_nat k -> zget (pre ++ l) i = l !! k.
Proof.
  intros ->. unfold zlen. rewrite <- Nat2Z.inj_add, zget_of_nat, lookup_app_r by lia.
  f_equal. lia.
Qed.

Lemma byte_differs_cont (pre l : list Z) (k : nat) i b :
  i = zlen pre + Z.of_nat k -> l !! k = Some b -> is_byte b ->
  byte_differs (pre ++ l) i 192 128 = Some (negb ((128 <=? b) && (b <? 192))).
Proof. intros Hi Hl Hb. unfold byte_differs. by rewrite (zget_prefix _ _ k), Hl; cbn; rewrite ?mask_c0. Qed.

Lemma byte_below_prefix (pre l : list Z) (k : nat) i b v :
  i = zlen pre + Z.of_nat k -> l !! k = Some b ->
  byte_below (pre ++ l) i v = Some (b <? v).
Proof. intros Hi Hl. unfold byte_below. by rewrite (zget_prefix _ _ k), Hl. Qed.

Lemma c_or_some a b : c_or (Some a) (Some b) = Some (a || b).
Proof. by destruct a. Qed.

Lemma if_some_andb (c b : bool) : (if c then Some b else Some false) = Some (c && b).
Proof. by destruct c. Qed.

Lemma fmap_Some_negb b : negb <$> Some b = Some (negb b).
Proof. done. Qed.

(** What the loop answers on the text that is left. *)
Definition utf8_answer (r : option bool) (l : list Z) : Prop :=
  exists b, r = Some b /\ (b = true <-> utf8_text l).

Lemma utf8_answer_no l : ~ utf8_text l -> utf8_answer (Some false) l.
Proof. intros H. exists false. done. Qed.

Lemma utf8_answer_iff r l l' : (utf8_text l <-> utf8_text l') -> utf8_answer r l' -> utf8_answer r l.
Proof. intros H (b & -> & Hb). exists b. split; [done|]. by rewrite H. Qed.

Lemma utf8_answer_if (bad : bool) r l l' :
  (bad = true -> ~ utf8_text l) -> (bad = false -> utf8_text l <-> utf8_text l') ->
  utf8_answer r l' -> utf8_answer (if bad then Some false else r) l.
Proof.
  destruct bad; intros H1 H2 H3; [by apply utf8_answer_no, H1|].
  by apply (utf8_answer_iff _ _ l'), H3; apply H2.
Qed.

Ltac unpack := repeat match goal with H : exists _, _ |- _ => destruct H end; destruct_and?.

Ltac utf8_short :=
  apply utf8_answer_no; rewrite ?utf8_text_2, ?utf8_text_3, ?utf8_text_4 by lia;
  intros ?; unpack; naive_solver.

Ltac utf8_short4 := rewrite ?orb_true_r; cbn [c_or mbind option_bind]; utf8_short.

(** One iteration per length of the encoding: [IH] is the answer for the rest. *)
Section Iteration.
Context (fuel : nat) (pre : list Z).
Context (IH : forall p l, (length l <= fuel)%nat -> Forall is_byte l ->
  utf8_answer (wah_is_valid_utf8_loop fuel (p ++ l) (zlen (p ++ l)) (zlen p)) l).

Lemma loop_at (q l : list Z) i : i = zlen (pre ++ q) -> (length l <= fuel)%nat -> Forall is_byte l ->
  utf8_answer (wah_is_valid_utf8_loop fuel (pre ++ q ++ l) (zlen (pre ++ q ++ l)) i) l.
Proof. intros -> Hl Hb. rewrite app_assoc. by apply IH. Qed.
End Iteration.

Ltac zlens := unfold zlen; rewrite ?length_app; simpl; lia.

(** Evaluates the guarded reads of one iteration. *)
Ltac utf8_reads :=
  repeat match goal with
  | |- context [byte_differs (?p ++ ?l) (?i + ?o) _ _] =>
      erewrite (byte_differs_cont p l (Z.to_nat o) (i + o)); [|zlens|reflexivity|eassumption]
  | |- context [byte_below (?p ++ ?l) (?i + ?o) _] =>
      erewrite (byte_below_prefix p l (Z.to_nat o) (i + o)); [|zlens|reflexivity]
  end.

Lemma zlen_app_cons {A} (pre : list A) x l : zlen (pre ++ x :: l) = zlen pre + 1 + zlen l.
Proof. unfold zlen. rewrite length_app. simpl. lia. Qed.

Ltac utf8_guard :=
  match goal with
  | |- context [?n <=? ?m] =>
      first [ replace (n <=? m) with true by (symmetry; apply Z.leb_le; zlens)
            | replace (n <=? m) with false by (symmetry; apply Z.leb_gt; zlens) ]
  end;
  repeat match goal with H : Forall is_byte (_ :: _) |- _ => apply Forall_cons in H as [? H] end;
  utf8_reads; rewrite ?fmap_Some_negb, ?if_some_andb, ?c_or_some;  cbn [mbind option_bind].
Ltac utf8_split :=
  lazymatch goal with
  | |- ~ _ => intros ?; unpack; simplify_eq; lia
  | |- _ <-> _ =>
      split; [intros ?; unpack; by simplify_eq
             |intros ?; repeat lazymatch goal with |- exists _, _ => eexists end;
              split_and!; try done; lia]
  end.
Ltac utf8_case L :=
  intros Hbad; rewrite L by lia; unfold utf8_cont; utf8_split.

Lemma utf8_loop_correct fuel : forall pre l, (length l <= fuel)%nat -> Forall is_byte l ->
  utf8_answer (wah_is_valid_utf8_loop fuel (pre ++ l) (zlen (pre ++ l)) (zlen pre)) l.
Proof.
  induction fuel as [|fuel IH]; intros pre l Hl Hb; (destruct l as [|b l]; [
    simpl; rewrite app_nil_r, Z.ltb_irrefl; exists true; split; [done|]; by split; [intros _; apply utf8_text_nil|]|]).
  { simpl in Hl. lia. }
  apply Forall_cons in Hb as [Hb0 Hbl]. simpl in Hl.
  assert (0 <= zlen l) by (unfold zlen; lia).
  cbn [wah_is_valid_utf8_loop]. rewrite (zget_prefix _ _ 0) by lia. cbn [lookup list_lookup mbind option_bind].
  replace (zlen pre <? zlen (pre ++ b :: l)) with true by (rewrite zlen_app_cons; lia). cbn [negb].
  rewrite mask_e0, mask_f0, mask_f8, mask_fe by done. unfold is_byte in Hb0.
  destruct (Z.ltb_spec b 128).
  { apply (utf8_answer_iff _ _ l); [apply utf8_text_1; lia|].
    apply (loop_at fuel pre IH [b]); [unfold zlen; rewrite length_app; simpl; lia|lia|done]. }
  destruct (Z.leb_spec 192 b); cycle 1.
  { rewrite !andb_false_l. replace (224 <=? b) with false by lia. replace (240 <=? b) with false by lia.
    apply utf8_answer_no, utf8_text_bad. lia. }
  rewrite !andb_true_l. destruct (Z.ltb_spec b 224); [|destruct (Z.ltb_spec b 240)].
  - destruct l as [|b1 l]; utf8_guard; [utf8_short|].
    apply (utf8_answer_if _ _ _ l); [utf8_case utf8_text_2..|].
    apply (loop_at fuel pre IH [b; b1]); [zlens|simpl in Hl; lia|done].
  - replace (224 <=? b) with true by lia. rewrite andb_true_l.
    destruct l as [|b1 [|b2 l]]; utf8_guard; [utf8_short..|].
    apply (utf8_answer_if _ _ _ l); [utf8_case utf8_text_3..|].
    apply (loop_at fuel pre IH [b; b1; b2]); [zlens|simpl in Hl; lia|done].
  - replace (224 <=? b) with true by lia. replace (240 <=? b) with true by lia. rewrite !andb_true_l.
    destruct (Z.ltb_spec b 248).
    + destruct l as [|b1 [|b2 [|b3 l]]]; utf8_guard; [utf8_short4..|].
      apply (utf8_answer_if _ _ _ l); [utf8_case utf8_text_4..|].
      apply (loop_at fuel pre IH [b; b1; b2; b3]); [zlens|simpl in Hl; lia|done].
    + apply utf8_answer_no. rewrite utf8_text_4 by lia. intros ?. unpack. lia.
Qed.

(** *** Bytes after the text are not looked at *)

Definition opt_le {A} (a b : option A) : Prop := forall x, a = Some x -> b = Some x.

Lemma opt_le_refl {A} (a : option A) : opt_le a a.
Proof. by intros x. Qed.
Lemma opt_le_bind {A B} (a a' : option A) (f f' : A -> option B) :
  opt_le a a' -> (forall x, opt_le (f x) (f' x)) -> opt_le (a ≫= f) (a' ≫= f').
Proof. intros Ha Hf y H. destruct a as [x|]; [|done]. rewrite (Ha x eq_refl). by apply Hf. Qed.
Lemma opt_le_fmap {A B} (a a' : option A) (f : A -> B) : opt_le a a' -> opt_le (f <$> a) (f <$> a').
Proof. intros Ha y H. destruct a as [x|]; [|done]. by rewrite (Ha x eq_refl). Qed.
Lemma opt_le_c_or a a' b b' : opt_le a a' -> opt_le b b' -> opt_le (c_or a b) (c_or a' b').
Proof. intros Ha Hb x. destruct a as [[]|]; simpl; try done; rewrite (Ha _ eq_refl); [done|apply Hb]. Qed.
Lemma opt_le_if {A} (c : bool) (a a' b b' : option A) :
  opt_le a a' -> opt_le b b' -> opt_le (if c then a else b) (if c then a' else b').
Proof. by destruct c. Qed.
Lemma opt_le_zget {A} (l j : list A) i : opt_le (zget l i) (zget (l ++ j) i).
Proof. intros x [Hi H]%zget_Some. rewrite zget_nat by lia. by apply lookup_app_l_Some. Qed.

Create HintDb optle.
#[local] Hint Resolve opt_le_refl opt_le_c_or opt_le_if opt_le_zget opt_le_fmap : optle.

Lemma opt_le_byte_differs l j i m v : opt_le (byte_differs l i m v) (byte_differs (l ++ j) i m v).
Proof. apply opt_le_bind; auto with optle. Qed.
Lemma opt_le_byte_below l j i v : opt_le (byte_below l i v) (byte_below (l ++ j) i v).
Proof. apply opt_le_bind; auto with optle. Qed.
#[local] Hint Resolve opt_le_byte_differs opt_le_byte_below : optle.

Lemma utf8_loop_prefix fuel l j len i :
  opt_le (wah_is_valid_utf8_loop fuel l len i) (wah_is_valid_utf8_loop fuel (l ++ j) len i).
Proof.
  revert i. induction fuel as [|fuel IH]; intros i; [apply opt_le_refl|].
  cbn [wah_is_valid_utf8_loop].
  repeat first [ apply opt_le_zget | apply opt_le_if | apply opt_le_c_or | apply opt_le_bind; [|intros ?] ];
    auto with optle.
Qed.

Lemma wah_is_valid_utf8_prefix l j : Forall is_byte l ->
  exists b, wah_is_valid_utf8 (l ++ j) (zlen l) = Some b /\ (b = true <-> utf8_text l).
Proof.
  intros Hb. destruct (utf8_loop_correct (length l) [] l (Nat.le_refl _) Hb) as (b & E & H).
  exists b. split; [|done]. apply utf8_loop_prefix. unfold zlen. rewrite Nat2Z.id. exact E.
Qed.

(** C22. The validator never reads outside the [len] bytes it is given, always
    answers, and answers [true] exactly on the UTF-8 encodings of sequences of
    Unicode scalar values: no overlong forms, no surrogates, nothing above
    U+10FFFF, no truncated sequence. *)
Theorem wah_is_valid_utf8_correct (bytes : list Z) (Hb : Forall is_byte bytes) :
  exists b, wah_is_valid_utf8 bytes (zlen bytes) = Some b /\ (b = true <-> utf8_text bytes).
Proof.
  apply (utf8_loop_correct _ [] bytes); [unfold zlen; lia|done].
Qed.

(** The euro sign and a letter are text; an encoded surrogate is not. *)
Lemma wah_is_valid_utf8_correct_witness :
  utf8_text [226; 130; 172; 65] /\ ~ utf8_text [237; 160; 128].
Proof.
  split.
  - destruct (wah_is_valid_utf8_correct [226; 130; 172; 65]) as (b & E & H).
    + repeat constructor; unfold is_byte; lia.
    + apply H. vm_compute in E. congruence.
  - destruct (wah_is_valid_utf8_correct [237; 160; 128]) as (b & E & H).
    + repeat constructor; unfold is_byte; lia.
    + intros Ht. apply H in Ht. subst. vm_compute in E. congruence.
Defined.
