(* ===== verification/Decode.v ===== *)
(** * Decoders of the binary format's shared items

    Memory arguments, opcodes, types, item counts, names and section headers
    (wah.h, from [wah_decode_memarg] to [wah_decode_and_validate_count], and
    [wah_parse_name] to [wah_read_section_header]).  A decoder works on the cursor
    [*ptr, end) and, through [module], on the two feature bitmaps. *)

From S2P Require Import Prelude Base Types Opcodes Bytes Leb128 Utf8.
From stdpp Require Import list sets.
#[local] Open Scope Z_scope.
#[local] Open Scope wah_scope.

(** ** Definitions *)

Record decoder := Decoder { cursor : list Z; dec_features : feature_state }.

(** Code that only moves the cursor, and code that only touches the bitmaps. *)
Definition on_cursor {A} (m : comp (list Z) A) : comp decoder A := fun d =>
  let '(r, c) := m (cursor d) in (r, Decoder c (dec_features d)).
Definition on_features {A} (m : comp feature_state A) : comp decoder A := fun d =>
  let '(r, f) := m (dec_features d) in (r, Decoder (cursor d) f).

Definition require (f : wah_feature) : comp feature_state unit :=
  wah_require_feature (wah_feature_shift f).

(** [**ptr]. *)
Definition peek_byte : comp (list Z) Z := fun cur =>
  match cur with [] => (Fault, cur) | b :: _ => (Ok b, cur) end.

Record wah_memarg_t := Memarg { align : Z; memidx : Z; offset : Z }.

Definition wah_decode_memarg : comp decoder wah_memarg_t :=
  align <- on_cursor wah_decode_uleb128 ;;
  stm_ensure (align <? 128) WAH_ERROR_MALFORMED ;;;
  ' (align, memidx) <-
    (if 64 <=? align then
       on_features (require MULTI_MEMORY) ;;;
       memidx <- on_cursor wah_decode_uleb128 ;;
       stm_ret (align - 64, memidx)
     else stm_ret (align, 0)) ;;
  offset <- on_cursor wah_decode_uleb128_64 ;;
  stm_ret (Memarg align memidx offset).

Definition wah_decode_opcode : comp (list Z) Z :=
  ensure_more ;;;
  first_byte <- take_byte ;;
  if first_byte =? 0xFB then
    sub_opcode_val <- wah_decode_uleb128 ;;
    stm_ensure (sub_opcode_val <? WAH_FC - WAH_FB) WAH_ERROR_VALIDATION_FAILED ;;;
    stm_ret (u16 (WAH_FB + u16 sub_opcode_val))
  else if first_byte =? 0xFC then
    sub_opcode_val <- wah_decode_uleb128 ;;
    stm_ensure (sub_opcode_val <? WAH_FD - WAH_FC) WAH_ERROR_VALIDATION_FAILED ;;;
    stm_ret (u16 (WAH_FC + u16 sub_opcode_val))
  else if first_byte =? 0xFD then
    sub_opcode_val <- wah_decode_uleb128 ;;
    stm_ensure (sub_opcode_val <? WAH_FE - WAH_FD) WAH_ERROR_VALIDATION_FAILED ;;;
    stm_ret (u16 (WAH_FD + u16 sub_opcode_val))
  else
    stm_ensure (first_byte <? WAH_FB) WAH_ERROR_MALFORMED ;;;
    stm_ret (u16 first_byte).

Definition wah_require_type_features (t : wah_type_t) : comp feature_state unit :=
  if t =? WAH_TYPE_V128 then require SIMD
  else if negb (WAH_TYPE_IS_REF t) then stm_ret tt
  else
    (if (0 <=? t) || negb (WAH_TYPE_IS_NULLABLE t) then require TYPED_FUNCREF else stm_ret tt) ;;;
    let n := WAH_TYPE_AS_NULLABLE t in
    if (n =? WAH_TYPE_EXNREF) || (n =? WAH_TYPE_NULLEXNREF) then require EXCEPTION
    else
      (if (n =? WAH_TYPE_FUNCREF) || (n =? WAH_TYPE_EXTERNREF) then stm_ret tt
       else if t <? 0 then require GC else stm_ret tt) ;;;
      require REF_TYPES.

(** [None] is the result [false]; the source's out-parameter is the value. *)
Definition wah_decode_abstract_heap_byte (byte : Z) : option wah_type_t :=
  if byte =? 0x70 then Some WAH_TYPE_FUNC
  else if byte =? 0x6F then Some WAH_TYPE_EXTERN
  else if byte =? 0x6E then Some WAH_TYPE_ANY
  else if byte =? 0x6D then Some WAH_TYPE_EQ
  else if byte =? 0x6C then Some WAH_TYPE_I31
  else if byte =? 0x6B then Some WAH_TYPE_STRUCT
  else if byte =? 0x6A then Some WAH_TYPE_ARRAY
  else if byte =? 0x69 then Some WAH_TYPE_EXN
  else if byte =? 0x74 then Some WAH_TYPE_NOEXN
  else if byte =? 0x73 then Some WAH_TYPE_NOFUNC
  else if byte =? 0x72 then Some WAH_TYPE_NOEXTERN
  else if byte =? 0x71 then Some WAH_TYPE_NONE
  else None.

Definition wah_decode_heap_type : comp (list Z) wah_type_t :=
  ensure_more ;;;
  byte <- peek_byte ;;
  match wah_decode_abstract_heap_byte byte with
  | Some t => take_byte ;;; stm_ret t
  | None =>
      idx <- wah_decode_sleb128_32 ;;
      stm_ensure (0 <=? idx) WAH_ERROR_MALFORMED ;;;
      stm_ensure (u32 idx <=? WAH_MAX_TYPE_INDEX) WAH_ERROR_TOO_LARGE ;;;
      stm_ret (WAH_TYPE_FROM_IDX (u32 idx) false)
  end.

Definition wah_decode_ref_type : comp decoder wah_type_t :=
  on_cursor ensure_more ;;;
  byte <- on_cursor take_byte ;;
  match wah_decode_abstract_heap_byte byte with
  | Some t => stm_ret (WAH_TYPE_AS_NULLABLE t)
  | None =>
      (if (byte =? 0x63) || (byte =? 0x64) then on_features (require TYPED_FUNCREF)
       else stm_ret tt) ;;;
      if byte =? 0x63 then
        t <- on_cursor wah_decode_heap_type ;; stm_ret (WAH_TYPE_AS_NULLABLE t)
      else if byte =? 0x64 then on_cursor wah_decode_heap_type
      else stm_err WAH_ERROR_MALFORMED
  end.

Definition wah_decode_val_type : comp decoder wah_type_t :=
  on_cursor ensure_more ;;;
  byte <- on_cursor peek_byte ;;
  let take t := on_cursor take_byte ;;; stm_ret t in
  if byte =? 0x7F then take WAH_TYPE_I32
  else if byte =? 0x7E then take WAH_TYPE_I64
  else if byte =? 0x7D then take WAH_TYPE_F32
  else if byte =? 0x7C then take WAH_TYPE_F64
  else if byte =? 0x7B then take WAH_TYPE_V128
  else wah_decode_ref_type.

Definition wah_decode_storage_type : comp decoder wah_type_t :=
  on_cursor ensure_more ;;;
  byte <- on_cursor peek_byte ;;
  let take t := on_cursor take_byte ;;; stm_ret t in
  if byte =? 0x78 then take WAH_TYPE_PACKED_I8
  else if byte =? 0x77 then take WAH_TYPE_PACKED_I16
  else wah_decode_val_type.

Definition wah_decode_and_validate_count (min_bytes_per_item : Z) : comp (list Z) Z :=
  count <- wah_decode_uleb128 ;;
  (if (0 <? min_bytes_per_item) && (UINT32_MAX / min_bytes_per_item <? count)
   then stm_err WAH_ERROR_TOO_LARGE else stm_ret tt) ;;;
  rest <- stm_get ;;
  (if u64 (zlen rest) <? u64 (count * min_bytes_per_item)
   then stm_err WAH_ERROR_MALFORMED else stm_ret tt) ;;;
  stm_ret count.

(** [alloc_ok n] tells whether the allocator can give [n] bytes.  The result is the
    NUL-terminated copy and its length. *)
Definition wah_parse_name (alloc_ok : Z -> bool) : comp (list Z) (list Z * Z) :=
  name_len <- wah_decode_uleb128 ;;
  rest <- stm_get ;;
  stm_ensure (name_len <=? zlen rest) WAH_ERROR_UNEXPECTED_EOF ;;;
  valid <- stm_opt (wah_is_valid_utf8 rest name_len) ;;
  stm_ensure valid WAH_ERROR_MALFORMED ;;;
  stm_ensure (alloc_ok (name_len + 1)) WAH_ERROR_OUT_OF_MEMORY ;;;
  let name_copy := take (Z.to_nat name_len) rest ++ [0] in
  stm_put (drop (Z.to_nat name_len) rest) ;;;
  stm_ret (name_copy, name_len).

Definition wah_check_effective_addr (addr offset size memory_size : Z) : result Z :=
  let ea := u64 (addr + offset) in
  if (ea <? addr) || (memory_size <? size) || (u64 (memory_size - size) <? ea)
  then Err WAH_ERROR_MEMORY_OUT_OF_BOUNDS else Ok ea.

Definition wah_u64_range_in_bounds (offset size limit : Z) : bool :=
  (offset <=? limit) && (size <=? u64 (limit - offset)).

Definition wah_read_section_header : comp (list Z) (Z * Z) :=
  ensure_more ;;;
  id <- take_byte ;;
  size <- wah_decode_uleb128 ;;
  stm_ret (id, size).

(** *** The grammar of these items *)

(** The opcode with number [v]: one byte below [WAH_FB], or a prefix byte and the
    encoding of the offset in the prefix's range. *)
Inductive opcode_bytes : list Z -> Z -> Prop :=
| opcode_plain b : 0 <= b < WAH_FB -> opcode_bytes [b] b
| opcode_prefixed p lo hi bs sub :
    (p, lo, hi) ∈ [(0xFB, WAH_FB, WAH_FC); (0xFC, WAH_FC, WAH_FD); (0xFD, WAH_FD, WAH_FE)] ->
    uleb 32 bs sub -> lo + sub < hi -> opcode_bytes (p :: bs) (lo + sub).

(** The abstract heap types of the specification ("Reference Types"). *)
Definition abstract_heap_types : list (Z * wah_type_t) :=
  [(0x70, WAH_TYPE_FUNC); (0x6F, WAH_TYPE_EXTERN); (0x6E, WAH_TYPE_ANY); (0x6D, WAH_TYPE_EQ);
   (0x6C, WAH_TYPE_I31); (0x6B, WAH_TYPE_STRUCT); (0x6A, WAH_TYPE_ARRAY); (0x69, WAH_TYPE_EXN);
   (0x74, WAH_TYPE_NOEXN); (0x73, WAH_TYPE_NOFUNC); (0x72, WAH_TYPE_NOEXTERN);
   (0x71, WAH_TYPE_NONE)].

Inductive heap_bytes : list Z -> wah_type_t -> Prop :=
| heap_abstract b t : (b, t) ∈ abstract_heap_types -> heap_bytes [b] t
| heap_concrete bs i : sleb 32 bs i -> 0 <= i <= WAH_MAX_TYPE_INDEX ->
    heap_bytes bs (WAH_TYPE_FROM_IDX i false).

(** The flag tells whether the long form is used. *)
Inductive ref_bytes : bool -> list Z -> wah_type_t -> Prop :=
| ref_short b t : (b, t) ∈ abstract_heap_types -> ref_bytes false [b] (WAH_TYPE_AS_NULLABLE t)
| ref_null bs t : heap_bytes bs t -> ref_bytes true (0x63 :: bs) (WAH_TYPE_AS_NULLABLE t)
| ref_non_null bs t : heap_bytes bs t -> ref_bytes true (0x64 :: bs) t.

Inductive val_bytes : bool -> list Z -> wah_type_t -> Prop :=
| val_num b t : (b, t) ∈ [(0x7F, WAH_TYPE_I32); (0x7E, WAH_TYPE_I64); (0x7D, WAH_TYPE_F32);
    (0x7C, WAH_TYPE_F64); (0x7B, WAH_TYPE_V128)] -> val_bytes false [b] t
| val_ref long bs t : ref_bytes long bs t -> val_bytes long bs t.

Inductive storage_bytes : bool -> list Z -> wah_type_t -> Prop :=
| storage_packed b t : (b, t) ∈ [(0x78, WAH_TYPE_PACKED_I8); (0x77, WAH_TYPE_PACKED_I16)] ->
    storage_bytes false [b] t
| storage_val long bs t : val_bytes long bs t -> storage_bytes long bs t.

(** What the long form does to the bitmaps. *)
Definition long_form (long : bool) (f f' : feature_state) : Prop :=
  if long then require TYPED_FUNCREF f = (Ok tt, f') else f' = f.

(** The features a type of a module needs. *)
Definition type_needs (t : wah_type_t) (f : wah_feature) : bool :=
  let heap := WAH_TYPE_AS_NON_NULL t in
  let exn := (heap =? WAH_TYPE_EXN) || (heap =? WAH_TYPE_NOEXN) in
  match f with
  | SIMD => t =? WAH_TYPE_V128
  | TYPED_FUNCREF => WAH_TYPE_IS_REF t && ((0 <=? t) || negb (WAH_TYPE_IS_NULLABLE t))
  | EXCEPTION => WAH_TYPE_IS_REF t && exn
  | GC => WAH_TYPE_IS_REF t && negb exn && (t <? 0) && negb (heap =? WAH_TYPE_FUNC)
          && negb (heap =? WAH_TYPE_EXTERN)
  | REF_TYPES => WAH_TYPE_IS_REF t && negb exn
  | _ => false
  end.

Definition decoder_bytes (d : decoder) : Prop := Forall is_byte (cursor d).

(** ** Theorems *)

(** *** Opcodes *)

Lemma ensure_more_Ok cur u cur' : ensure_more cur = (Ok u, cur') <-> cur <> [] /\ cur' = cur.
Proof. unfold ensure_more. destruct cur, u; naive_solver. Qed.
Lemma take_byte_Ok cur b cur' : take_byte cur = (Ok b, cur') <-> cur = b :: cur'.
Proof. unfold take_byte. destruct cur; naive_solver. Qed.
Lemma peek_byte_Ok cur b cur' : peek_byte cur = (Ok b, cur') <-> cur' = cur /\ exists tl, cur = b :: tl.
Proof. unfold peek_byte. destruct cur; naive_solver. Qed.

Ltac cur_inv :=
  stm_inv;
  repeat (match goal with
  | H : ensure_more _ = (Ok _, _) |- _ => apply ensure_more_Ok in H as [? ?]
  | H : take_byte _ = (Ok _, _) |- _ => apply take_byte_Ok in H
  | H : peek_byte _ = (Ok _, _) |- _ => apply peek_byte_Ok in H as [? [? ?]]
  | H : Forall is_byte (_ :: _) |- _ => apply Forall_cons in H as [? H]
  | H : wah_decode_uleb128 _ = (Ok _, _) |- _ => apply wah_decode_uleb128_iff in H as (? & ? & ?); [|done]
  end; simplify_eq; stm_inv).

Lemma opcode_sum_small lo hi sub : 0 <= sub -> 0 <= lo -> lo + sub < hi -> hi <= 540 ->
  u16 (lo + u16 sub) = lo + sub.
Proof. intros. unfold u16. rewrite (Z.mod_small sub) by lia. apply Z.mod_small. lia. Qed.

Ltac opcode_consts := change WAH_FB with 215 in *; change WAH_FC with 246 in *;
  change WAH_FD with 264 in *; change WAH_FE with 540 in *.

Lemma opcode_run_sound p lo hi sub bs rest :
  (p, lo, hi) ∈ [(0xFB, WAH_FB, WAH_FC); (0xFC, WAH_FC, WAH_FD); (0xFD, WAH_FD, WAH_FE)] ->
  uleb 32 bs sub -> (sub <? hi - lo) = true ->
  exists bs', p :: bs ++ rest = bs' ++ rest /\ opcode_bytes bs' (u16 (lo + u16 sub)).
Proof.
  intros Hp Hu Hlt. exists (p :: bs). split; [done|]. pose proof (uleb_nonneg _ _ _ Hu).
  rewrite (opcode_sum_small lo hi); [by eapply opcode_prefixed; [done|done|lia]|lia|..|];
    rewrite !elem_of_cons, elem_of_nil in Hp; opcode_consts; destruct_or?; simplify_eq; lia.
Qed.

Lemma wah_decode_opcode_sound cur v rest : Forall is_byte cur ->
  wah_decode_opcode cur = (Ok v, rest) -> exists bs, cur = bs ++ rest /\ opcode_bytes bs v.
Proof.
  intros Hl H. unfold wah_decode_opcode in H. cur_inv.
  - zeq. apply (opcode_run_sound 0xFB WAH_FB WAH_FC); [set_solver|done|done].
  - zeq. apply (opcode_run_sound 0xFC WAH_FC WAH_FD); [set_solver|done|done].
  - zeq. apply (opcode_run_sound 0xFD WAH_FD WAH_FE); [set_solver|done|done].
  - eexists [_]. split; [done|]. unfold is_byte in *. opcode_consts. unfold u16.
    rewrite Z.mod_small by lia. constructor. opcode_consts. lia.
Qed.

Lemma wah_decode_opcode_complete bs v rest : Forall is_byte (bs ++ rest) ->
  opcode_bytes bs v -> wah_decode_opcode (bs ++ rest) = (Ok v, rest).
Proof.
  intros Hl Ho. revert Hl. destruct Ho as [b Hb|p lo hi bs sub Hp Hu Hs]; intros Hl.
  - unfold wah_decode_opcode, stm_bind, ensure_more, take_byte, stm_ensure, stm_ret. simpl.
    opcode_consts.
    rewrite (proj2 (Z.eqb_neq b 251)), (proj2 (Z.eqb_neq b 252)), (proj2 (Z.eqb_neq b 253)),
      (proj2 (Z.ltb_lt b 215)) by lia.
    unfold u16. by rewrite Z.mod_small by lia.
  - pose proof (uleb_nonneg _ _ _ Hu). simpl in Hl. apply Forall_cons in Hl as [_ Hl].
    pose proof (proj2 (wah_decode_uleb128_iff _ sub rest Hl) ltac:(eauto)) as Hd.
    rewrite !elem_of_cons, elem_of_nil in Hp. destruct_or?; simplify_eq;
      unfold wah_decode_opcode, stm_bind, ensure_more, take_byte, stm_ensure, stm_ret; simpl;
      rewrite Hd; opcode_consts; rewrite (proj2 (Z.ltb_lt sub _)) by lia; f_equal; f_equal.
    + by apply (opcode_sum_small 215 246).
    + by apply (opcode_sum_small 246 264).
    + by apply (opcode_sum_small 264 540).
Qed.

Lemma wah_decode_opcode_faultless : faultless wah_decode_opcode (Forall is_byte).
Proof. unfold wah_decode_opcode. apply ensure_take_faultless. intros b Hb. repeat case_match; auto with wah. Qed.

Lemma opcode_row_encodable r : r ∈ WAH_OPCODES -> exists bs, opcode_bytes bs (row_val r).
Proof.
  assert (forallb (fun r => (0 <=? row_val r) && (row_val r <? WAH_FE)) WAH_OPCODES = true) as Hall
    by (vm_compute; reflexivity).
  intros Hr. rewrite forallb_forall in Hall. apply list_elem_of_In in Hr. apply Hall in Hr.
  opcode_consts. set (v := row_val r) in *. clearbody v. clear Hall.
  assert (Hp : forall p lo hi, (p, lo, hi) ∈ [(0xFB, WAH_FB, WAH_FC); (0xFC, WAH_FC, WAH_FD); (0xFD, WAH_FD, WAH_FE)] ->
    lo <= v < hi -> exists bs, opcode_bytes bs v).
  { intros p lo hi Hp Hv. destruct (uleb_exists 32 (v - lo)) as [bs Hbs]; [|lia|].
    - rewrite !elem_of_cons, elem_of_nil in Hp. opcode_consts. simpl Z.pow. destruct_or?; simplify_eq; lia.
    - exists (p :: bs). replace v with (lo + (v - lo)) by lia. eapply opcode_prefixed; [done|done|lia]. }
  destruct (Z.ltb_spec v 215); [eexists [_]; constructor; opcode_consts; lia|].
  destruct (Z.ltb_spec v 246); [apply (Hp 0xFB WAH_FB WAH_FC); [set_solver|opcode_consts; lia]|].
  destruct (Z.ltb_spec v 264); [apply (Hp 0xFC WAH_FC WAH_FD); [set_solver|opcode_consts; lia]|].
  apply (Hp 0xFD WAH_FD WAH_FE); [set_solver|opcode_consts; lia].
Qed.

(** The opcode decoder accepts exactly the encodings of opcode numbers: one byte
    below 0xD7, or a prefix byte and the LEB128 offset within the prefix's range,
    consuming exactly that encoding; it never reads past the end; and every opcode
    of the tables has an encoding, so that it can be decoded. *)
Theorem wah_decode_opcode_grammar cur (Hl : Forall is_byte cur) :
  (forall v rest, wah_decode_opcode cur = (Ok v, rest) <->
     exists bs, cur = bs ++ rest /\ opcode_bytes bs v) /\
  (wah_decode_opcode cur).1 <> Fault /\
  (forall r, r ∈ WAH_OPCODES -> exists bs, opcode_bytes bs (row_val r)).
Proof.
  split_and!.
  - intros v rest. split; [by apply wah_decode_opcode_sound|].
    intros (bs & -> & Ho). by apply wah_decode_opcode_complete.
  - by apply wah_decode_opcode_faultless.
  - apply opcode_row_encodable.
Qed.

(** [memory.fill], 0xFC 11. *)
Lemma wah_decode_opcode_grammar_witness :
  exists bs, [0xFC; 0x0B; 0] = bs ++ [0] /\ opcode_bytes bs 257.
Proof.
  refine (proj1 (proj1 (wah_decode_opcode_grammar [0xFC; 0x0B; 0] _) 257 [0]) _).
  - repeat constructor; unfold is_byte; lia.
  - vm_compute. reflexivity.
Defined.

(** *** Feature requirements of types *)

Definition feature_on (f : wah_feature) (m : feature_state) : bool :=
  Z.testbit (enabled_features m) (wah_feature_shift f).

(** The features of a type, and the state after all of them were required. *)
Definition type_features (t : wah_type_t) : list wah_feature :=
  List.filter (type_needs t) [SIMD; TYPED_FUNCREF; EXCEPTION; GC; REF_TYPES].
Definition features_required (fs : list wah_feature) (m : feature_state) : feature_state :=
  FeatureState (enabled_features m)
    (foldl (fun r f => Z.lor r (wah_feature_bit f)) (required_features m) fs).

Lemma require_eq f m : f <> FEAT_MVP ->
  require f m = (if feature_on f m then Ok tt else Err WAH_ERROR_DISABLED_FEATURE,
                 features_required [f] m).
Proof.
  intros Hf. unfold require, wah_require_feature, feature_on, features_required.
  assert (wah_feature_shift f =? 0 = false) as -> by by destruct f.
  assert (u64 (Z.shiftl 1 (wah_feature_shift f)) = 2 ^ wah_feature_shift f) as E
    by (destruct f; reflexivity).
  rewrite E, has_bits_pow2 by (destruct f; simpl; lia). simpl. do 3 f_equal.
  unfold wah_feature_bit. rewrite Z.shiftl_1_l. done.
Qed.

Lemma as_nullable_eq t c : c mod 2 = 0 ->
  (WAH_TYPE_AS_NULLABLE t =? c + 1) = (WAH_TYPE_AS_NON_NULL t =? c).
Proof. intros. rewrite as_nullable_mod, as_non_null_mod. lia. Qed.

(** A type can be used exactly when every feature it needs is enabled, and then
    exactly these features are recorded as required: SIMD for [v128], typed function
    references for concrete and for non-null references, exception handling for
    [exn] and [noexn], reference types for all other references, and GC for all
    other abstract heap types than [func] and [extern]. *)
Theorem wah_require_type_features_spec t m :
  if forallb (fun f => feature_on f m) (type_features t)
  then wah_require_type_features t m = (Ok tt, features_required (type_features t) m)
  else (wah_require_type_features t m).1 = Err WAH_ERROR_DISABLED_FEATURE.
Proof.
  unfold wah_require_type_features, type_features, stm_bind, stm_ret.
  change WAH_TYPE_EXNREF with (WAH_TYPE_EXN + 1). change WAH_TYPE_NULLEXNREF with (WAH_TYPE_NOEXN + 1).
  change WAH_TYPE_FUNCREF with (WAH_TYPE_FUNC + 1). change WAH_TYPE_EXTERNREF with (WAH_TYPE_EXTERN + 1).
  rewrite !as_nullable_eq by done. cbn [List.filter type_needs].
  destruct (Z.eqb_spec t WAH_TYPE_V128) as [->|_].
  { change (WAH_TYPE_IS_REF WAH_TYPE_V128) with false. cbn [andb forallb]. rewrite require_eq by done. by destruct (feature_on SIMD m). }
  destruct (WAH_TYPE_IS_REF t); cycle 1. { by destruct m. }
  destruct ((0 <=? t) || negb (WAH_TYPE_IS_NULLABLE t)),
    ((WAH_TYPE_AS_NON_NULL t =? WAH_TYPE_EXN) || (WAH_TYPE_AS_NON_NULL t =? WAH_TYPE_NOEXN)),
    (t <? 0), (WAH_TYPE_AS_NON_NULL t =? WAH_TYPE_FUNC), (WAH_TYPE_AS_NON_NULL t =? WAH_TYPE_EXTERN);
    cbn [negb andb orb forallb]; rewrite !require_eq by done;
    unfold feature_on; cbn [enabled_features features_required];
    repeat (destruct (Z.testbit (enabled_features m) _); try rewrite !require_eq by done;
            unfold feature_on; cbn [andb enabled_features features_required]; try reflexivity).
Qed.

(** *** Types *)

Lemma on_cursor_Ok {A} (m : comp (list Z) A) d a d' :
  on_cursor m d = (Ok a, d') <-> m (cursor d) = (Ok a, cursor d') /\ dec_features d' = dec_features d.
Proof.
  unfold on_cursor. destruct d' as [c f], (m (cursor d)) as [r c']; simpl.
  split; [by intros [= -> -> <-]|by intros [[= -> ->] ->]].
Qed.
Lemma on_features_Ok {A} (m : comp feature_state A) d a d' :
  on_features m d = (Ok a, d') <-> m (dec_features d) = (Ok a, dec_features d') /\ cursor d' = cursor d.
Proof.
  unfold on_features. destruct d' as [c f], (m (dec_features d)) as [r f']; simpl.
  split; [by intros [= -> <- ->]|by intros [[= -> ->] ->]].
Qed.

Lemma heap_byte_iff b t :
  wah_decode_abstract_heap_byte b = Some t <-> (b, t) ∈ abstract_heap_types.
Proof.
  unfold wah_decode_abstract_heap_byte, abstract_heap_types. split.
  - intros H. repeat (case_match; [zeq; simplify_eq; set_solver|]). done.
  - rewrite !elem_of_cons, elem_of_nil. intros H. by destruct_or?; simplify_eq.
Qed.

Lemma heap_byte_range b t : (b, t) ∈ abstract_heap_types -> 0x69 <= b <= 0x74.
Proof. unfold abstract_heap_types. rewrite !elem_of_cons, elem_of_nil. intros H. destruct_or?; simplify_eq; lia. Qed.

Lemma wah_decode_heap_type_iff cur t rest : Forall is_byte cur ->
  wah_decode_heap_type cur = (Ok t, rest) <-> exists bs, cur = bs ++ rest /\ heap_bytes bs t.
Proof.
  intros Hl. unfold wah_decode_heap_type. split.
  - intros H. cur_inv. destruct (wah_decode_abstract_heap_byte _) eqn:E; cur_inv.
    + eexists [_]. split; [done|]. constructor. by apply heap_byte_iff.
    + match goal with H : wah_decode_sleb128_32 _ = _ |- _ =>
        apply wah_decode_sleb128_32_iff in H as (bs & -> & Hs); [|by constructor] end.
      pose proof (sleb_range _ _ _ Hs ltac:(lia)) as Hr. change (2 ^ (32 - 1)) with 2147483648 in Hr.
      match goal with H : (u32 ?x <=? _) = true |- _ => rewrite (u32_small x) in * by lia end.
      eexists. split; [done|]. constructor; [done|lia].
  - intros (bs & -> & Hb). destruct Hb as [b t' Ht|bs' i Hs Hi].
    + apply heap_byte_iff in Ht. unfold stm_bind, ensure_more, peek_byte, take_byte. simpl. by rewrite Ht.
    + pose proof (proj2 (wah_decode_sleb128_32_iff _ i rest Hl) ltac:(eauto)) as Hd.
      destruct bs' as [|b bs']; [inversion Hs|]. unfold stm_bind at 1, ensure_more. cbn [app].
      unfold stm_bind at 1, peek_byte.
      destruct (wah_decode_abstract_heap_byte b) eqn:E.
      * apply heap_byte_iff, heap_byte_range in E. apply sleb_first in Hs; lia.
      * unfold stm_bind. cbn [app] in Hd. rewrite Hd. pose proof max_type_index. unfold stm_ensure.
        rewrite (proj2 (Z.leb_le 0 i)) by lia. cbn. rewrite u32_small by lia.
        by rewrite (proj2 (Z.leb_le _ _)) by lia.
Qed.

Ltac dec_inv :=
  stm_inv;
  repeat (match goal with
  | H : on_cursor _ _ = (Ok _, _) |- _ => apply on_cursor_Ok in H as [H ?]
  | H : on_features _ _ = (Ok _, _) |- _ => apply on_features_Ok in H as [H ?]
  end; stm_inv); cur_inv; simpl in *.

(** A first byte is read, and a decoder goes on with the rest. *)
Lemma first_byte_run {A} (f : Z -> comp decoder A) d :
  (on_cursor ensure_more ;;; byte <- on_cursor take_byte ;; f byte) d =
  match cursor d with
  | [] => (Err WAH_ERROR_UNEXPECTED_EOF, d)
  | b :: cur => f b (Decoder cur (dec_features d))
  end.
Proof. by destruct d as [[|b cur] m]. Qed.
Lemma peek_byte_run {A} (f : Z -> comp decoder A) d :
  (on_cursor ensure_more ;;; byte <- on_cursor peek_byte ;; f byte) d =
  match cursor d with [] => (Err WAH_ERROR_UNEXPECTED_EOF, d) | b :: cur => f b d end.
Proof. by destruct d as [[|b cur] m]. Qed.
Lemma take_ret_run {A} (t : A) b cur m :
  (on_cursor take_byte ;;; stm_ret t) (Decoder (b :: cur) m) = (Ok t, Decoder cur m).
Proof. done. Qed.

(** What every type decoder satisfies, for its grammar [G]. *)
Definition decodes (D : comp decoder wah_type_t) (G : bool -> list Z -> wah_type_t -> Prop) : Prop :=
  forall d t d', decoder_bytes d ->
    D d = (Ok t, d') <->
    exists long bs, cursor d = bs ++ cursor d' /\ G long bs t /\
      long_form long (dec_features d) (dec_features d').

(** The two long forms. *)
Lemma long_form_run (g : wah_type_t -> wah_type_t) cur m t d' : Forall is_byte cur ->
  (on_features (require TYPED_FUNCREF) ;;;
   h <- on_cursor wah_decode_heap_type ;; stm_ret (g h)) (Decoder cur m) = (Ok t, d') <->
  exists bs h, cur = bs ++ cursor d' /\ heap_bytes bs h /\ t = g h /\
    require TYPED_FUNCREF m = (Ok tt, dec_features d').
Proof.
  intros Hl. rewrite stm_bind_Ok. setoid_rewrite on_features_Ok. setoid_rewrite stm_bind_Ok.
  setoid_rewrite on_cursor_Ok. setoid_rewrite stm_ret_Ok. simpl. split.
  - intros ([] & d1 & [Hf Hc] & h & d2 & [Hd E] & -> & ->). rewrite Hc in Hd.
    apply wah_decode_heap_type_iff in Hd as (bs & -> & Hh); [|done]. exists bs, h. by rewrite E.
  - intros (bs & h & -> & Hh & -> & Hf). exists tt, (Decoder (bs ++ cursor d') (dec_features d')).
    split; [done|]. exists h, d'. repeat split. apply wah_decode_heap_type_iff; [done|by exists bs].
Qed.

Lemma stm_bind_ret {E S A B} (k : stm E S A) (m : stm E S B) s :
  (k ;;; m) s = (k ;;; b <- m ;; stm_ret (id b)) s.
Proof. unfold stm_bind, stm_ret. destruct (k s) as [[] s1]; try done. by destruct (m s1) as [[]]. Qed.

Lemma wah_decode_ref_type_decodes : decodes wah_decode_ref_type ref_bytes.
Proof.
  intros [[|b cur] m] t [cur' m'] Hl; unfold decoder_bytes in Hl; unfold wah_decode_ref_type;
    rewrite first_byte_run; simpl in *.
  { split; [done|]. intros (long & bs & E & Hr & _). symmetry in E. apply app_nil in E as [-> _]. inversion Hr. }
  apply Forall_cons in Hl as [Hb Hl]. destruct (wah_decode_abstract_heap_byte b) as [h|] eqn:E.
  { pose proof (proj1 (heap_byte_iff _ _) E) as Hm. split.
    + intros [= <- <- <-]. exists false, [b]. split; [done|]. split; [by constructor|done].
    + intros (long & bs & E' & Hr & Hf). apply heap_byte_range in Hm.
      destruct Hr as [b' t' Ht|bs t' Ht|bs t' Ht]; simplify_list_eq; [|lia..].
      apply heap_byte_iff in Ht. rewrite Ht in E. by simplify_eq. }
  destruct (Z.eqb_spec b 0x63) as [->|H63]; [|destruct (Z.eqb_spec b 0x64) as [->|H64]]; cbn [orb].
  - rewrite long_form_run by done. split.
    + intros (bs & h & -> & Hh & -> & Hf). exists true, (0x63 :: bs). split; [done|]. by split; [constructor|].
    + intros (long & bs & E' & Hr & Hf). destruct Hr as [b' t' Ht|bs t' Ht|bs t' Ht]; simplify_list_eq.
      * apply heap_byte_range in Ht. lia.
      * by exists bs, t'.
  - change (100 =? 99) with false. change (100 =? 100) with true. cbv iota.
    rewrite stm_bind_ret, (long_form_run id) by done. split.
    + intros (bs & h & -> & Hh & -> & Hf). exists true, (0x64 :: bs). split; [done|]. by split; [constructor|].
    + intros (long & bs & E' & Hr & Hf). destruct Hr as [b' t' Ht|bs t' Ht|bs t' Ht]; simplify_list_eq.
      * apply heap_byte_range in Ht. lia.
      * by exists bs, t'.
  - split; [done|]. intros (long & bs & E' & Hr & Hf).
    destruct Hr as [b' t' Ht|bs t' Ht|bs t' Ht]; simplify_list_eq.
    apply heap_byte_iff in Ht. by rewrite Ht in E.
Qed.

(** A decoder that adds one-byte forms to another one. *)
Lemma decodes_short D G (G' : bool -> list Z -> wah_type_t -> Prop) D' tab :
  decodes D G ->
  (forall d, D' d = match cursor d with
     | [] => (Err WAH_ERROR_UNEXPECTED_EOF, d)
     | b :: cur => match tab b with
                   | Some t => (Ok t, Decoder cur (dec_features d))
                   | None => D d
                   end
     end) ->
  (forall long bs t, G' long bs t <-> (exists b, bs = [b] /\ tab b = Some t /\ long = false) \/ G long bs t) ->
  (forall long bs t, G long bs t -> exists b bs', bs = b :: bs' /\ tab b = None) ->
  decodes D' G'.
Proof.
  intros HD HD' HG Hne [[|b cur] m] t [cur' m'] Hl; rewrite HD'; simpl in *.
  - split; [done|]. intros (long & bs & E & Hg & _). symmetry in E. apply app_nil in E as [-> _].
    apply HG in Hg as [(b & [=] & _)|Hg]. by apply Hne in Hg as (? & ? & [=] & _).
  - destruct (tab b) as [t'|] eqn:E; [|rewrite (HD _ _ _ Hl); simpl]; split.
    + intros [= <- <- <-]. exists false, [b]. split; [done|]. split; [apply HG; left; eauto|done].
    + intros (long & bs & E' & Hg & Hf). apply HG in Hg as [(b' & -> & Ht & ->)|Hg].
      * by simplify_list_eq.
      * apply Hne in Hg as (b' & bs' & -> & Hn). simplify_list_eq.
    + intros (long & bs & E' & Hg & Hf). exists long, bs. split; [done|]. split; [apply HG; by right|done].
    + intros (long & bs & E' & Hg & Hf). exists long, bs. split; [done|]. split; [|done].
      apply HG in Hg as [(b' & -> & Ht & ->)|Hg]; [|done]. simplify_list_eq.
Qed.

Definition num_byte (b : Z) : option wah_type_t :=
  if b =? 0x7F then Some WAH_TYPE_I32 else if b =? 0x7E then Some WAH_TYPE_I64
  else if b =? 0x7D then Some WAH_TYPE_F32 else if b =? 0x7C then Some WAH_TYPE_F64
  else if b =? 0x7B then Some WAH_TYPE_V128 else None.
Definition packed_byte (b : Z) : option wah_type_t :=
  if b =? 0x78 then Some WAH_TYPE_PACKED_I8 else if b =? 0x77 then Some WAH_TYPE_PACKED_I16
  else None.

(** A table of bytes against the tests of the code. *)
Ltac byte_table :=
  split; [repeat (case_match; [intros [= <-]; zeq; set_solver|]); done
         |rewrite ?elem_of_cons, ?elem_of_nil; intros ?; by destruct_or?; simplify_eq].

Lemma num_byte_iff b t : num_byte b = Some t <->
  (b, t) ∈ [(0x7F, WAH_TYPE_I32); (0x7E, WAH_TYPE_I64); (0x7D, WAH_TYPE_F32);
    (0x7C, WAH_TYPE_F64); (0x7B, WAH_TYPE_V128)].
Proof. unfold num_byte. byte_table. Qed.
Lemma packed_byte_iff b t : packed_byte b = Some t <->
  (b, t) ∈ [(0x78, WAH_TYPE_PACKED_I8); (0x77, WAH_TYPE_PACKED_I16)].
Proof. unfold packed_byte. byte_table. Qed.

(** The first bytes of references. *)
Lemma ref_bytes_first long bs t : ref_bytes long bs t ->
  exists b bs', bs = b :: bs' /\ 0x63 <= b <= 0x74.
Proof.
  intros [b t' H|bs' t' H|bs' t' H]; eexists _, _; split; try reflexivity; try lia.
  apply heap_byte_range in H. lia.
Qed.

Lemma num_byte_none b : b < 0x7B -> num_byte b = None.
Proof. intros. unfold num_byte. repeat case_match; zeq; try lia; done. Qed.
Lemma packed_byte_none b : b < 0x77 \/ 0x78 < b -> packed_byte b = None.
Proof. intros. unfold packed_byte. repeat case_match; zeq; try lia; done. Qed.

Lemma wah_decode_val_type_decodes : decodes wah_decode_val_type val_bytes.
Proof.
  apply (decodes_short _ _ _ _ num_byte wah_decode_ref_type_decodes).
  - intros [[|b cur] m]; [done|]. unfold wah_decode_val_type. rewrite peek_byte_run. simpl.
    unfold num_byte. repeat (case_match; [done|]). done.
  - intros long bs t. split.
    + intros [b t' H|long' bs' t' H]; [left; exists b; by rewrite num_byte_iff|by right].
    + intros [(b & -> & H & ->)|H]; [constructor; by apply num_byte_iff|by constructor].
  - intros long bs t (b & bs' & -> & H)%ref_bytes_first. exists b, bs'. split; [done|].
    apply num_byte_none. lia.
Qed.

Lemma wah_decode_storage_type_decodes : decodes wah_decode_storage_type storage_bytes.
Proof.
  apply (decodes_short _ _ _ _ packed_byte wah_decode_val_type_decodes).
  - intros [[|b cur] m]; [done|]. unfold wah_decode_storage_type. rewrite peek_byte_run. simpl.
    unfold packed_byte. repeat (case_match; [done|]). done.
  - intros long bs t. split.
    + intros [b t' H|long' bs' t' H]; [left; exists b; by rewrite packed_byte_iff|by right].
    + intros [(b & -> & H & ->)|H]; [constructor; by apply packed_byte_iff|by constructor].
  - intros long bs t H. enough (exists b bs', bs = b :: bs' /\ (b < 0x77 \/ 0x78 < b)) as (b & bs' & -> & Hb)
      by (exists b, bs'; split; [done|by apply packed_byte_none]).
    destruct H as [b t H|long bs t (b & bs' & -> & H)%ref_bytes_first].
    + exists b, []. split; [done|]. rewrite !elem_of_cons, elem_of_nil in H. destruct_or?; simplify_eq; lia.
    + exists b, bs'. split; [done|lia].
Qed.

(** No type decoder reads past the end. *)
Lemma on_cursor_faultless {A} (m : comp (list Z) A) :
  faultless m (Forall is_byte) -> faultless (on_cursor m) decoder_bytes.
Proof.
  intros H [cur f] Hl. specialize (H cur Hl). unfold on_cursor. simpl. by destruct (m cur) as [r c].
Qed.

Lemma require_faultless f : faultless (on_features (require f)) decoder_bytes.
Proof.
  intros [cur m] Hl. unfold on_features, require, wah_require_feature. simpl.
  by repeat case_match; simplify_eq.
Qed.

Lemma heap_type_run b cur :
  wah_decode_heap_type (b :: cur) =
  match wah_decode_abstract_heap_byte b with
  | Some t => (Ok t, cur)
  | None => (idx <- wah_decode_sleb128_32 ;;
             stm_ensure (0 <=? idx) WAH_ERROR_MALFORMED ;;;
             stm_ensure (u32 idx <=? WAH_MAX_TYPE_INDEX) WAH_ERROR_TOO_LARGE ;;;
             stm_ret (WAH_TYPE_FROM_IDX (u32 idx) false)) (b :: cur)
  end.
Proof.
  destruct (wah_decode_abstract_heap_byte b) eqn:E;
    unfold wah_decode_heap_type, stm_bind, ensure_more, peek_byte; by rewrite E.
Qed.

Lemma wah_decode_heap_type_faultless : faultless wah_decode_heap_type (Forall is_byte).
Proof.
  intros [|b cur] Hl; [done|]. rewrite heap_type_run. case_match.
  - by apply Forall_cons in Hl as [_ Hl].
  - revert Hl. generalize (b :: cur).
    match goal with |- forall l, _ -> (?m l).1 <> Fault /\ _ =>
      enough (faultless m (Forall is_byte)) by done end.
    auto with wah.
Qed.

#[local] Hint Resolve on_cursor_faultless require_faultless wah_decode_heap_type_faultless : wah.

Lemma wah_decode_ref_type_faultless : faultless wah_decode_ref_type decoder_bytes.
Proof.
  intros [[|b cur] m] Hl; unfold wah_decode_ref_type; rewrite first_byte_run; [done|].
  unfold decoder_bytes in Hl. simpl in *. apply Forall_cons in Hl as [Hb Hl].
  case_match; [done|].
  match goal with |- context [?f (Decoder cur m)] => enough (faultless f decoder_bytes) as Hf by by apply Hf end.
  apply faultless_bind; [case_match|intros _; repeat case_match]; auto 8 with wah.
Qed.

(** Adding one-byte forms to a decoder. *)
Lemma short_form_faultless (D D' : comp decoder wah_type_t) tab :
  faultless D decoder_bytes ->
  (forall d, D' d = match cursor d with
     | [] => (Err WAH_ERROR_UNEXPECTED_EOF, d)
     | b :: cur => match tab b with
                   | Some t => (Ok t, Decoder cur (dec_features d))
                   | None => D d
                   end
     end) -> faultless D' decoder_bytes.
Proof.
  intros HD HD' [[|b cur] m] Hl; rewrite HD'; simpl; [done|].
  destruct (tab b); [|by apply HD]. by apply Forall_cons in Hl as [_ Hl].
Qed.

Lemma wah_decode_storage_type_faultless : faultless wah_decode_storage_type decoder_bytes.
Proof.
  apply (short_form_faultless wah_decode_val_type _ packed_byte).
  - apply (short_form_faultless wah_decode_ref_type _ num_byte); [apply wah_decode_ref_type_faultless|].
    intros [[|b cur] m]; [done|]. unfold wah_decode_val_type. rewrite peek_byte_run. simpl.
    unfold num_byte. repeat (case_match; [done|]). done.
  - intros [[|b cur] m]; [done|]. unfold wah_decode_storage_type. rewrite peek_byte_run. simpl.
    unfold packed_byte. repeat (case_match; [done|]). done.
Qed.

(** The types that a module can name: numbers, vectors, packed types, references. *)
Definition storage_type_valid (t : wah_type_t) : bool :=
  (t =? WAH_TYPE_I32) || (t =? WAH_TYPE_I64) || (t =? WAH_TYPE_F32) || (t =? WAH_TYPE_F64)
  || (t =? WAH_TYPE_V128) || WAH_TYPE_IS_PACKED t || (WAH_TYPE_IS_REF t && (t <=? INT32_MAX)).

Lemma heap_bytes_valid bs t : heap_bytes bs t ->
  WAH_TYPE_IS_REF t = true /\ t < INT32_MAX /\ t mod 2 = 0.
Proof.
  intros [b t' H|bs' i H Hi].
  - unfold abstract_heap_types in H. rewrite !elem_of_cons, elem_of_nil in H. by destruct_or?; simplify_eq.
  - rewrite from_idx_small by done. rewrite max_type_index in Hi. unfold INT32_MAX. simpl b2z.
    type_arith. Z.to_euclidean_division_equations. lia.
Qed.

Lemma ref_abstract_nullable : forallb (fun t =>
  existsb (fun e => (t =? e.2) || (t =? WAH_TYPE_AS_NULLABLE e.2)) abstract_heap_types) (zrange (-54) (-30)) = true.
Proof. vm_compute. reflexivity. Qed.

Lemma ref_type_encodable t : WAH_TYPE_IS_REF t = true -> t <= INT32_MAX ->
  exists long bs, ref_bytes long bs t.
Proof.
  intros Hr Ht. destruct (Z.ltb_spec t 0) as [Hn|Hn].
  - pose proof ref_abstract_nullable as H. rewrite forallb_forall in H.
    specialize (H t). rewrite existsb_exists in H. destruct H as ((b & h) & Hin & H).
    { apply list_elem_of_In, elem_of_zrange. type_arith. lia. }
    apply list_elem_of_In in Hin. simpl in H. apply orb_true_iff in H as [H|H]; zeq.
    + exists true, [0x64; b]. by apply ref_non_null, heap_abstract.
    + exists false, [b]. by constructor.
  - destruct (sleb_exists (WAH_TYIDX t)) as (b & bs & _ & Hs).
    { pose proof (tyidx_bound t). rewrite max_type_index in *. unfold INT32_MAX in Ht. lia. }
    assert (0 <= WAH_TYIDX t <= WAH_MAX_TYPE_INDEX) as Hi by (apply tyidx_bound; unfold INT32_MAX in Ht; lia).
    assert (heap_bytes (b :: bs) (WAH_TYPE_FROM_IDX (WAH_TYIDX t) false)) as Hh by by constructor.
    exists true. rewrite <- (from_idx_tyidx t) by (unfold INT32_MAX in Ht; lia).
    destruct (WAH_TYPE_IS_NULLABLE t).
    + exists (0x63 :: b :: bs).
      replace (WAH_TYPE_FROM_IDX (WAH_TYIDX t) true) with (WAH_TYPE_AS_NULLABLE (WAH_TYPE_FROM_IDX (WAH_TYIDX t) false));
        [by constructor|].
      rewrite as_nullable_mod, !from_idx_small by done. simpl b2z. rewrite Z.add_0_r, Z_mod_mult. lia.
    + exists (0x64 :: b :: bs). by constructor.
Qed.

Lemma storage_bytes_valid t :
  storage_type_valid t = true <-> exists long bs, storage_bytes long bs t.
Proof.
  unfold storage_type_valid. split.
  - rewrite !orb_true_iff, andb_true_iff. unfold WAH_TYPE_IS_PACKED. rewrite orb_true_iff.
    intros H. destruct_or?; zeq;
      [exists false, [0x7F]|exists false, [0x7E]|exists false, [0x7D]|exists false, [0x7C]|exists false, [0x7B]| | |];
      [apply storage_val, val_num; set_solver..| | |].
    + exists false, [0x78]. apply storage_packed. set_solver.
    + exists false, [0x77]. apply storage_packed. set_solver.
    + destruct H as [H1 H2]. destruct (ref_type_encodable t H1 ltac:(lia)) as (long & bs & H).
      exists long, bs. by apply storage_val, val_ref.
  - intros (long & bs & H). destruct H as [b t H|long bs t [b t' H|long' bs' t' H]].
    1-2: rewrite !elem_of_cons, elem_of_nil in H; by destruct_or?; simplify_eq.
    enough (WAH_TYPE_IS_REF t' = true /\ t' <= INT32_MAX) as [-> H2]
      by (rewrite !orb_true_iff; right; lia).
    assert (exists bs h, heap_bytes bs h /\ (t' = h \/ t' = WAH_TYPE_AS_NULLABLE h)) as (bs0 & h & Hh & Ht).
    { destruct H as [? ? H| | ]; eexists _, _; (split; [|by auto]); [by constructor|done..]. }
    apply heap_bytes_valid in Hh as (H1 & H2 & H3). destruct Ht as [->| ->]; [split; [done|lia]|].
    type_arith. Z.to_euclidean_division_equations. lia.
Qed.

(** C31. The type decoders accept exactly the binary grammar of heap, reference, value
    and storage types, consuming exactly the encoding; the long forms of references
    need typed function references, and nothing else changes the feature bitmaps;
    they never read past the end; and the types they produce are exactly the number,
    vector, packed and reference types, none of which is left out. *)
Theorem wah_decode_types_grammar :
  (forall cur t rest, Forall is_byte cur ->
     wah_decode_heap_type cur = (Ok t, rest) <-> exists bs, cur = bs ++ rest /\ heap_bytes bs t) /\
  decodes wah_decode_ref_type ref_bytes /\
  decodes wah_decode_val_type val_bytes /\
  decodes wah_decode_storage_type storage_bytes /\
  faultless wah_decode_storage_type decoder_bytes /\
  (forall t, storage_type_valid t = true <-> exists long bs, storage_bytes long bs t).
Proof.
  split_and!.
  - intros. by apply wah_decode_heap_type_iff.
  - apply wah_decode_ref_type_decodes.
  - apply wah_decode_val_type_decodes.
  - apply wah_decode_storage_type_decodes.
  - apply wah_decode_storage_type_faultless.
  - apply storage_bytes_valid.
Qed.

(** *** Addresses *)

(** C32. The address check of the loads and stores, on 64-bit operands that may wrap
    around, succeeds exactly when the access lies inside the memory, and then gives
    the exact address; so does the range check of the bulk operations. *)
Theorem wah_check_effective_addr_exact addr offset size memory_size :
  0 <= addr < 2 ^ 64 -> 0 <= offset < 2 ^ 64 -> 0 <= size < 2 ^ 64 -> 0 <= memory_size < 2 ^ 64 ->
  wah_check_effective_addr addr offset size memory_size =
    (if addr + offset + size <=? memory_size then Ok (addr + offset)
     else Err WAH_ERROR_MEMORY_OUT_OF_BOUNDS) /\
  wah_u64_range_in_bounds offset size memory_size = (offset + size <=? memory_size).
Proof.
  intros Ha Ho Hs Hm. split.
  - unfold wah_check_effective_addr.
    destruct (Z.ltb_spec (addr + offset) (2 ^ 64)) as [Hlt|Hge].
    + rewrite (u64_small (addr + offset)) by lia.
      destruct (Z.ltb_spec memory_size size).
      * rewrite orb_true_r. simpl. rewrite (proj2 (Z.leb_gt _ _)) by lia. done.
      * rewrite u64_small by lia. case_bools; try done; lia.
    + assert (u64 (addr + offset) = addr + offset - 2 ^ 64) as ->
        by (unfold u64; symmetry; apply Z.mod_unique with 1; lia).
      rewrite (proj2 (Z.ltb_lt _ _)) by lia. simpl orb.
      by rewrite (proj2 (Z.leb_gt _ _)) by lia.
  - unfold wah_u64_range_in_bounds. destruct (Z.leb_spec offset memory_size); simpl.
    + rewrite u64_small by lia. lia.
    + symmetry. apply Z.leb_gt. lia.
Qed.

Lemma wah_check_effective_addr_exact_witness :
  wah_check_effective_addr 18446744073709551615 1 8 65536 = Err WAH_ERROR_MEMORY_OUT_OF_BOUNDS /\
  wah_check_effective_addr 65528 0 8 65536 = Ok 65528.
Proof.
  split.
  - refine (eq_trans (proj1 (wah_check_effective_addr_exact 18446744073709551615 1 8 65536 _ _ _ _)) _);
      (reflexivity || lia).
  - refine (eq_trans (proj1 (wah_check_effective_addr_exact 65528 0 8 65536 _ _ _ _)) _);
      (reflexivity || lia).
Defined.

(** *** Counts and names *)

(** The cursors of the parser are shorter than the address space. *)
Definition cursor_ok (cur : list Z) : Prop := Forall is_byte cur /\ zlen cur < 2 ^ 64.

Lemma cursor_ok_app bs rest : cursor_ok (bs ++ rest) -> Forall is_byte rest /\ zlen rest < 2 ^ 64.
Proof.
  intros [Hb Hl]. apply Forall_app in Hb as [_ Hb]. split; [done|].
  unfold zlen in *. rewrite length_app in Hl. lia.
Qed.

Lemma wah_decode_uleb128_run bs v rest : Forall is_byte (bs ++ rest) -> uleb 32 bs v ->
  wah_decode_uleb128 (bs ++ rest) = (Ok v, rest).
Proof. intros. apply wah_decode_uleb128_iff; [done|by exists bs]. Qed.

(** An item count is accepted exactly when the items, of at least
    [min_bytes_per_item] bytes each, can fit in the rest of the section (and their
    size in 32 bits), so that the size of what is allocated for them is bounded by
    the size of the input; the 64-bit product never wraps around. *)
Theorem wah_decode_and_validate_count_exact min cur count rest :
  cursor_ok cur -> 0 <= min < 2 ^ 32 ->
  wah_decode_and_validate_count min cur = (Ok count, rest) <->
  exists bs, cur = bs ++ rest /\ uleb 32 bs count /\ count * min <= zlen rest /\
    count * min <= UINT32_MAX.
Proof.
  intros Hc Hm. unfold wah_decode_and_validate_count. rewrite stm_bind_Ok.
  assert (forall c, 0 <= c < 2 ^ 32 ->
    (0 <? min) && (UINT32_MAX / min <? c) = negb (c * min <=? UINT32_MAX)) as Hdiv.
  { intros c Hc0. destruct (Z.ltb_spec 0 min); simpl.
    - unfold UINT32_MAX. Z.to_euclidean_division_equations. nia.
    - assert (min = 0) as -> by lia. unfold UINT32_MAX. rewrite Z.mul_0_r. done. }
  assert (forall bs c, uleb 32 bs c -> 0 <= c < 2 ^ 32) as Hr
    by (intros bs c Hu; pose proof (uleb_nonneg _ _ _ Hu); pose proof (uleb_bound _ _ _ Hu); lia).
  split.
  - intros (c & s & Hd & H). apply wah_decode_uleb128_iff in Hd as (bs & -> & Hu); [|apply Hc].
    destruct (cursor_ok_app _ _ Hc) as [_ Hl]. pose proof (Hr _ _ Hu). rewrite Hdiv in H by done.
    stm_inv. exists bs. split_and!; try done; [|lia].
    rewrite !u64_small in * by (unfold zlen in *; nia). lia.
  - intros (bs & -> & Hu & H1 & H2). exists count, rest. split; [by apply wah_decode_uleb128_run; [apply Hc|]|].
    destruct (cursor_ok_app _ _ Hc) as [_ Hl]. pose proof (Hr _ _ Hu). rewrite Hdiv by done.
    rewrite (proj2 (Z.leb_le (count * min) UINT32_MAX)) by done. unfold stm_bind, stm_get, stm_ret. simpl.
    rewrite !u64_small by (unfold zlen in *; nia).
    by rewrite (proj2 (Z.ltb_ge _ _)) by done.
Qed.

Lemma wah_decode_and_validate_count_exact_witness :
  exists bs, [2; 1; 2; 3; 4] = bs ++ [1; 2; 3; 4] /\ uleb 32 bs 2 /\ 2 * 2 <= zlen [1; 2; 3; 4] /\
    2 * 2 <= UINT32_MAX.
Proof.
  refine (proj1 (wah_decode_and_validate_count_exact 2 [2; 1; 2; 3; 4] 2 [1; 2; 3; 4] _ _) _).
  - split; [repeat constructor; unfold is_byte; lia|done].
  - lia.
  - vm_compute. reflexivity.
Defined.

(** A name is accepted exactly when its length and its bytes are all there, the
    bytes are UTF-8 text and the allocator can give a copy; the copy holds these
    bytes and a NUL, and the cursor is left after the name. *)
Theorem wah_parse_name_exact alloc_ok cur r rest :
  cursor_ok cur ->
  wah_parse_name alloc_ok cur = (Ok r, rest) <->
  exists bs name, cur = bs ++ name ++ rest /\ uleb 32 bs (zlen name) /\ utf8_text name /\
    alloc_ok (zlen name + 1) = true /\ r = (name ++ [0], zlen name).
Proof.
  intros [Hb Hl]. unfold wah_parse_name. rewrite stm_bind_Ok. split.
  - intros (n & s & Hd & H). apply wah_decode_uleb128_iff in Hd as (bs & -> & Hu); [|done].
    apply Forall_app in Hb as [_ Hb]. stm_inv. pose proof (uleb_nonneg _ _ _ Hu).
    set (name := take (Z.to_nat n) s). assert (zlen name = n) as Hn.
    { subst name. unfold zlen in *. rewrite length_take. lia. }
    exists bs, name. rewrite Hn. split_and!; try done.
    + by subst name; rewrite take_drop.
    + destruct (wah_is_valid_utf8_prefix name (drop (Z.to_nat n) s)) as (b & E & Hv).
      { by apply Forall_take. }
      rewrite Hn in E. subst name. rewrite take_drop in E. apply Hv. congruence.
  - intros (bs & name & -> & Hu & Ht & Ha & ->). exists (zlen name), (name ++ rest).
    split; [by apply wah_decode_uleb128_run|]. apply Forall_app in Hb as [_ Hb]. apply Forall_app in Hb as [Hb _].
    destruct (wah_is_valid_utf8_prefix name rest Hb) as (b & E & Hv).
    destruct b; [|by apply Hv in Ht]. unfold stm_bind, stm_get, stm_ensure, stm_opt, stm_put, stm_ret.
    rewrite (proj2 (Z.leb_le _ _)) by (unfold zlen; rewrite length_app; lia).
    rewrite E, Ha. unfold zlen. rewrite Nat2Z.id, take_app_length, drop_app_length. done.
Qed.

Lemma wah_parse_name_exact_witness :
  exists bs name, [2; 104; 105; 7] = bs ++ name ++ [7] /\ uleb 32 bs (zlen name) /\ utf8_text name /\
    (fun n => n <=? 100) (zlen name + 1) = true /\ ([104; 105; 0], 2) = (name ++ [0], zlen name).
Proof.
  refine (proj1 (wah_parse_name_exact (fun n => n <=? 100) [2; 104; 105; 7] ([104; 105; 0], 2) [7] _) _).
  - split; [repeat constructor; unfold is_byte; lia|done].
  - vm_compute. reflexivity.
Defined.

(** *** Memory arguments and section headers *)

(** [memarg] of the specification with multiple memories: a flag field whose bit 6
    announces a memory index, and a 64-bit offset. *)
Inductive memarg_bytes : bool -> list Z -> wah_memarg_t -> Prop :=
| memarg_zero ba bo a o : uleb 32 ba a -> a < 64 -> uleb 64 bo o ->
    memarg_bytes false (ba ++ bo) (Memarg a 0 o)
| memarg_index ba bm bo a m o : uleb 32 ba (a + 64) -> 0 <= a < 64 -> uleb 32 bm m -> uleb 64 bo o ->
    memarg_bytes true (ba ++ bm ++ bo) (Memarg a m o).

Lemma wah_decode_memarg_sound d a d' : decoder_bytes d ->
  wah_decode_memarg d = (Ok a, d') ->
  exists multi bs, cursor d = bs ++ cursor d' /\ memarg_bytes multi bs a /\
    (if multi then require MULTI_MEMORY (dec_features d) = (Ok tt, dec_features d')
     else dec_features d' = dec_features d).
Proof.
  destruct d as [cur f], d' as [cur' f']. unfold decoder_bytes, wah_decode_memarg. simpl.
  intros Hb H. apply stm_bind_Ok in H as (n & [c1 f1] & [H1 E1]%on_cursor_Ok & H). simpl in *. subst f1.
  apply wah_decode_uleb128_iff in H1 as (ba & -> & Hu); [|done]. apply Forall_app in Hb as [_ Hb].
  apply stm_bind_Ok in H as (? & s & [Hn ->]%stm_ensure_Ok & H).
  apply stm_bind_Ok in H as ([al mi] & [c2 f2] & Hm & H).
  apply stm_bind_Ok in H as (o & [c3 f3] & [Ho E3]%on_cursor_Ok & [-> E]%stm_ret_Ok). simplify_eq. simpl in *. subst f3.
  destruct (Z.leb_spec 64 n) as [H64|H64].
  - apply stm_bind_Ok in Hm as ([] & [c4 f4] & [Hr E4]%on_features_Ok & Hm). simpl in *. subst c4.
    apply stm_bind_Ok in Hm as (m & [c5 f5] & [Hd E5]%on_cursor_Ok & [[= -> ->] E]%stm_ret_Ok).
    simpl in *. simplify_eq.
    apply wah_decode_uleb128_iff in Hd as (bm & -> & Hum); [|done]. apply Forall_app in Hb as [_ Hb].
    apply wah_decode_uleb128_64_iff in Ho as (bo & -> & Huo); [|done].
    exists true, (ba ++ bm ++ bo). rewrite <- !(assoc_L (++)). split; [done|]. split; [|done].
    constructor; try done; [by replace (n - 64 + 64) with n by lia|lia].
  - apply stm_ret_Ok in Hm as [[= -> ->] ?]. simplify_eq.
    apply wah_decode_uleb128_64_iff in Ho as (bo & -> & Huo); [|done].
    exists false, (ba ++ bo). rewrite <- !(assoc_L (++)). split; [done|]. by split; [constructor; (done || lia)|].
Qed.

Lemma wah_decode_uleb128_64_run bs v rest : Forall is_byte (bs ++ rest) -> uleb 64 bs v ->
  wah_decode_uleb128_64 (bs ++ rest) = (Ok v, rest).
Proof. intros. apply wah_decode_uleb128_64_iff; [done|by exists bs]. Qed.

Lemma wah_decode_memarg_complete multi bs a rest f f' : Forall is_byte (bs ++ rest) ->
  memarg_bytes multi bs a ->
  (if multi then require MULTI_MEMORY f = (Ok tt, f') else f' = f) ->
  wah_decode_memarg (Decoder (bs ++ rest) f) = (Ok a, Decoder rest f').
Proof.
  intros Hb Hm Hf. unfold wah_decode_memarg.
  destruct Hm as [ba bo a o Ha Ha64 Ho|ba bm bo a m o Ha Ha64 Hm Ho];
    rewrite <- !(assoc_L (++)) in *; apply stm_bind_Ok.
  - eexists _, (Decoder _ f). split; [apply on_cursor_Ok; split; [by apply wah_decode_uleb128_run|done]|].
    apply Forall_app in Hb as [_ Hb]. cbn [cursor dec_features]. unfold stm_bind, stm_ensure, stm_ret.
    rewrite (proj2 (Z.ltb_lt _ _)), (proj2 (Z.leb_gt _ _)) by lia.
    unfold on_cursor. simpl. rewrite (wah_decode_uleb128_64_run _ o) by done. by subst.
  - eexists _, (Decoder _ f). split; [apply on_cursor_Ok; split; [by apply wah_decode_uleb128_run|done]|].
    apply Forall_app in Hb as [_ Hb]. cbn [cursor dec_features]. unfold stm_bind, stm_ensure, stm_ret.
    rewrite (proj2 (Z.ltb_lt _ _)), (proj2 (Z.leb_le _ _)) by lia.
    unfold on_features, on_cursor. cbn [cursor dec_features fst snd]. rewrite Hf. cbn [cursor dec_features]. rewrite (wah_decode_uleb128_run _ m) by done.
    apply Forall_app in Hb as [_ Hb]. simpl. rewrite (wah_decode_uleb128_64_run _ o) by done.
    by replace (a + 64 - 64) with a by lia.
Qed.

(** Memory arguments are decoded exactly as in the multi-memory format (an index
    only when bit 6 of the flags is set, which needs the multi-memory feature), and a
    section header is an identifier byte and a 32-bit size. *)
Theorem wah_decode_memarg_grammar d (Hb : decoder_bytes d) :
  (forall a d', wah_decode_memarg d = (Ok a, d') <->
     exists multi bs, cursor d = bs ++ cursor d' /\ memarg_bytes multi bs a /\
       (if multi then require MULTI_MEMORY (dec_features d) = (Ok tt, dec_features d')
        else dec_features d' = dec_features d)) /\
  (wah_decode_memarg d).1 <> Fault /\
  (forall id size rest, wah_read_section_header (cursor d) = (Ok (id, size), rest) <->
     exists bs, cursor d = id :: bs ++ rest /\ uleb 32 bs size).
Proof.
  split_and!.
  - intros a d'. split; [by apply wah_decode_memarg_sound|].
    intros (multi & bs & E & Hm & Hf). destruct d as [cur f], d' as [cur' f']. simpl in *. subst cur.
    by eapply wah_decode_memarg_complete.
  - enough (faultless wah_decode_memarg decoder_bytes) as H by by apply H.
    unfold wah_decode_memarg. apply faultless_bind; [auto with wah|intros n].
    apply faultless_bind; [auto with wah|intros _]. apply faultless_bind; [auto 8 with wah|].
    intros [al mi]. auto with wah.
  - intros id size rest. unfold wah_read_section_header, decoder_bytes in *. split.
    + intros H. cur_inv. destruct (cursor d) as [|b cur]; cur_inv. eauto.
    + intros (bs & E & Hu). rewrite E in *. apply Forall_cons in Hb as [_ Hb].
      unfold stm_bind, ensure_more, take_byte. by rewrite (wah_decode_uleb128_run _ size).
Qed.

Lemma wah_decode_memarg_grammar_witness :
  exists multi bs, [0x42; 1; 8; 0x0B] = bs ++ [0x0B] /\ memarg_bytes multi bs (Memarg 2 1 8) /\
    (if multi then require MULTI_MEMORY (FeatureState 32768 0) = (Ok tt, FeatureState 32768 32768)
     else FeatureState 32768 32768 = FeatureState 32768 0).
Proof.
  refine (proj1 (proj1 (wah_decode_memarg_grammar (Decoder [0x42; 1; 8; 0x0B] (FeatureState 32768 0)) _)
    (Memarg 2 1 8) (Decoder [0x0B] (FeatureState 32768 32768))) _).
  - repeat constructor; unfold is_byte; lia.
  - vm_compute. reflexivity.
Defined.
