(* ===== verification/Subtype.v ===== *)
(** * Subtyping of reference types

    [wah_type_is_subtype] with the supertype walk and the canonical map it uses,
    [wah_type_hierarchy_top], [wah_type_def_kind] and [wah_type_accepts_repr] (wah.h,
    "Subtyping"), against the declarative subtyping rules of the WebAssembly
    specification. *)

From S2P Require Import Prelude Base Types.
From stdpp Require Import list relations sets.
#[local] Open Scope Z_scope.

(** ** Definitions

    [None] is a read outside an array or a walk that does not end; the theorems show
    that neither happens in a module that the type section parser accepted. *)

(** [None] is the kind 0, which is not a kind. *)
Definition wah_type_def_kind (module : option wah_module_t) (t : wah_type_t)
    : option wah_comp_type_kind_t :=
  match module with
  | None => None
  | Some m => if (t <? 0) || (type_count m <=? WAH_TYIDX t) then None
              else kind <$> zget (type_defs m) (WAH_TYIDX t)
  end.

Definition kind_is (k : option wah_comp_type_kind_t) (k' : wah_comp_type_kind_t) : bool :=
  match k with Some k => comp_kind_eqb k k' | None => false end.

(** [canonical_map[i]], or [i] without a map. *)
Definition canon_get (m : wah_module_t) (i : Z) : option Z :=
  match canonical_map m with Some cm => zget cm i | None => Some i end.

(** The loop of [wah_type_accepts_repr]. *)
Fixpoint accepts_walk (fuel : nat) (m : wah_module_t) (t target : Z) : option bool :=
  match fuel with
  | O => None
  | S fuel' =>
      if t =? WAH_NO_SUPERTYPE then Some false
      else
        c ← canon_get m t;
        if c =? target then Some true
        else td ← zget (type_defs m) t; accepts_walk fuel' m (supertype td) target
  end.

Definition wah_type_accepts_repr (m : wah_module_t) (typeidx : Z) (repr_id : wah_repr_t)
    : option bool :=
  if (repr_id <? 0) || (zlen (repr_infos m) <=? u32 repr_id) || (type_count m <=? typeidx)
  then Some false
  else
    target ← canon_get m typeidx;
    info ← zget (repr_infos m) repr_id;
    accepts_walk (S (length (type_defs m))) m (repr_typeidx info) target.

(** The [while] loop of [wah_type_is_subtype]. *)
Section Walk.
Context (m : wah_module_t).
Fixpoint subtype_walk (fuel : nat) (t sup_idx : Z) : option bool :=
  match fuel with
  | O => None
  | S fuel' =>
      if t =? WAH_NO_SUPERTYPE then Some false
      else
        td ← zget (type_defs m) t;
        let st := supertype td in
        if st =? WAH_NO_SUPERTYPE then Some false
        else if st =? sup_idx then Some true
        else
          same ← match canonical_map m with
                 | None => Some false
                 | Some cm => a ← zget cm st; b ← zget cm sup_idx; Some (a =? b)
                 end;
          if same : bool then Some true else subtype_walk fuel' st sup_idx
  end.
End Walk.

Definition subtype_concrete (m : wah_module_t) (sub sup : wah_type_t) : option bool :=
  let sub_idx := WAH_TYIDX sub in
  let sup_idx := WAH_TYIDX sup in
  if (type_count m <=? sub_idx) || (type_count m <=? sup_idx) then Some false
  else
    same ← match canonical_map m with
           | None => Some false
           | Some cm => a ← zget cm sub_idx; b ← zget cm sup_idx; Some (a =? b)
           end;
    if same : bool then Some true
    else subtype_walk m (S (length (type_defs m))) sub_idx sup_idx.

Definition subtype_to_abstract (k : option wah_comp_type_kind_t) (sup : wah_type_t) : bool :=
  if sup =? WAH_TYPE_ANY then kind_is k WAH_COMP_STRUCT || kind_is k WAH_COMP_ARRAY
  else if sup =? WAH_TYPE_EQ then kind_is k WAH_COMP_STRUCT || kind_is k WAH_COMP_ARRAY
  else if sup =? WAH_TYPE_STRUCT then kind_is k WAH_COMP_STRUCT
  else if sup =? WAH_TYPE_ARRAY then kind_is k WAH_COMP_ARRAY
  else if sup =? WAH_TYPE_FUNC then kind_is k WAH_COMP_FUNC
  else false.

Definition subtype_from_abstract (sub : wah_type_t) (k : option wah_comp_type_kind_t) : bool :=
  if sub =? WAH_TYPE_NONE then kind_is k WAH_COMP_STRUCT || kind_is k WAH_COMP_ARRAY
  else if sub =? WAH_TYPE_NOFUNC then kind_is k WAH_COMP_FUNC
  else false.

Definition subtype_abstract (sub sup : wah_type_t) : bool :=
  if negb (WAH_TYPE_IS_REF sub) || negb (WAH_TYPE_IS_REF sup) then false
  else if sup =? WAH_TYPE_ANY then
    negb (sub =? WAH_TYPE_EXTERN) && negb (sub =? WAH_TYPE_EXN) && negb (sub =? WAH_TYPE_NOEXTERN)
    && negb (sub =? WAH_TYPE_NOEXN) && negb (sub =? WAH_TYPE_FUNC) && negb (sub =? WAH_TYPE_NOFUNC)
  else if sup =? WAH_TYPE_EQ then
    (sub =? WAH_TYPE_I31) || (sub =? WAH_TYPE_STRUCT) || (sub =? WAH_TYPE_ARRAY) || (sub =? WAH_TYPE_NONE)
  else if (sup =? WAH_TYPE_STRUCT) || (sup =? WAH_TYPE_ARRAY) || (sup =? WAH_TYPE_I31) then
    sub =? WAH_TYPE_NONE
  else if sup =? WAH_TYPE_FUNC then sub =? WAH_TYPE_NOFUNC
  else if sup =? WAH_TYPE_EXTERN then sub =? WAH_TYPE_NOEXTERN
  else if sup =? WAH_TYPE_EXN then sub =? WAH_TYPE_NOEXN
  else false.

Definition wah_type_is_subtype (sub sup : wah_type_t) (module : option wah_module_t) : option bool :=
  if (sub =? sup) || (sub =? WAH_TYPE_BOT) then Some true
  else if WAH_TYPE_IS_NULLABLE sub && negb (WAH_TYPE_IS_NULLABLE sup) then Some false
  else
    let sub := WAH_TYPE_AS_NON_NULL sub in
    let sup := WAH_TYPE_AS_NON_NULL sup in
    if sub =? sup then Some true
    else if (0 <=? sub) && (0 <=? sup) then
      match module with
      | None => Some false
      | Some m => subtype_concrete m sub sup
      end
    else if 0 <=? sub then Some (subtype_to_abstract (wah_type_def_kind module sub) sup)
    else if 0 <=? sup then Some (subtype_from_abstract sub (wah_type_def_kind module sup))
    else Some (subtype_abstract sub sup).

Definition wah_type_hierarchy_top (t : wah_type_t) (module : option wah_module_t) : wah_type_t :=
  let t := WAH_TYPE_AS_NON_NULL t in
  if 0 <=? t then
    let k := wah_type_def_kind module t in
    if kind_is k WAH_COMP_STRUCT || kind_is k WAH_COMP_ARRAY then WAH_TYPE_ANY
    else if kind_is k WAH_COMP_FUNC then WAH_TYPE_FUNC
    else WAH_TYPE_BOT
  else if (t =? WAH_TYPE_ANY) || (t =? WAH_TYPE_EQ) || (t =? WAH_TYPE_I31)
    || (t =? WAH_TYPE_STRUCT) || (t =? WAH_TYPE_ARRAY) || (t =? WAH_TYPE_NONE) then WAH_TYPE_ANY
  else if (t =? WAH_TYPE_FUNC) || (t =? WAH_TYPE_NOFUNC) then WAH_TYPE_FUNC
  else if (t =? WAH_TYPE_EXTERN) || (t =? WAH_TYPE_NOEXTERN) then WAH_TYPE_EXTERN
  else if (t =? WAH_TYPE_EXN) || (t =? WAH_TYPE_NOEXN) then WAH_TYPE_EXN
  else WAH_TYPE_BOT.

(** *** The declarative rules

    [heap_sub m a b] is the matching relation of the specification ("Heap Types",
    "Sub Types") on non-null reference types: concrete types through their declared
    supertypes and their equivalence classes, abstract types through the fixed
    lattice, closed under transitivity. *)

Definition heap_types : list wah_type_t :=
  [WAH_TYPE_FUNC; WAH_TYPE_EXTERN; WAH_TYPE_ANY; WAH_TYPE_EQ; WAH_TYPE_I31; WAH_TYPE_STRUCT;
   WAH_TYPE_ARRAY; WAH_TYPE_EXN; WAH_TYPE_NOFUNC; WAH_TYPE_NOEXTERN; WAH_TYPE_NONE; WAH_TYPE_NOEXN].

Definition heap_edges : list (wah_type_t * wah_type_t) :=
  [(WAH_TYPE_EQ, WAH_TYPE_ANY); (WAH_TYPE_I31, WAH_TYPE_EQ); (WAH_TYPE_STRUCT, WAH_TYPE_EQ);
   (WAH_TYPE_ARRAY, WAH_TYPE_EQ); (WAH_TYPE_NONE, WAH_TYPE_I31); (WAH_TYPE_NONE, WAH_TYPE_STRUCT);
   (WAH_TYPE_NONE, WAH_TYPE_ARRAY); (WAH_TYPE_NOFUNC, WAH_TYPE_FUNC);
   (WAH_TYPE_NOEXTERN, WAH_TYPE_EXTERN); (WAH_TYPE_NOEXN, WAH_TYPE_EXN)].

Definition kind_heap (k : wah_comp_type_kind_t) : wah_type_t :=
  match k with
  | WAH_COMP_FUNC => WAH_TYPE_FUNC
  | WAH_COMP_STRUCT => WAH_TYPE_STRUCT
  | WAH_COMP_ARRAY => WAH_TYPE_ARRAY
  end.
Definition kind_bottom (k : wah_comp_type_kind_t) : wah_type_t :=
  match k with WAH_COMP_FUNC => WAH_TYPE_NOFUNC | _ => WAH_TYPE_NONE end.

Section Module.
Context (m : wah_module_t).

Definition type_at (i : Z) (td : wah_type_def_t) : Prop := zget (type_defs m) i = Some td.

(** [s] is the declared supertype of [i]. *)
Definition super (i s : Z) : Prop :=
  exists td, type_at i td /\ supertype td = s /\ s <> WAH_NO_SUPERTYPE.

(** [i] is below [j]: some type on the supertype chain of [i] is equivalent to [j]. *)
Definition conc_sub (i j : Z) : Prop := exists k, rtc super i k /\ canon_get m k = canon_get m j.

Inductive heap_sub : wah_type_t -> wah_type_t -> Prop :=
| hs_refl a : heap_sub a a
| hs_trans a b c : heap_sub a b -> heap_sub b c -> heap_sub a c
| hs_edge a b : (a, b) ∈ heap_edges -> heap_sub a b
| hs_super i j : super i j -> heap_sub (WAH_TYPE_FROM_IDX i false) (WAH_TYPE_FROM_IDX j false)
| hs_canon i j td td' : type_at i td -> type_at j td' -> canon_get m i = canon_get m j ->
    heap_sub (WAH_TYPE_FROM_IDX i false) (WAH_TYPE_FROM_IDX j false)
| hs_kind i td : type_at i td -> heap_sub (WAH_TYPE_FROM_IDX i false) (kind_heap (kind td))
| hs_bottom i td : type_at i td -> heap_sub (kind_bottom (kind td)) (WAH_TYPE_FROM_IDX i false).

(** Non-null and possibly null references, numbers, and the bottom type of the
    validation of unreachable code. *)
Definition type_sub (a b : wah_type_t) : Prop :=
  a = b \/ a = WAH_TYPE_BOT \/
  (WAH_TYPE_IS_REF a = true /\ WAH_TYPE_IS_REF b = true /\
   (WAH_TYPE_IS_NULLABLE a = true -> WAH_TYPE_IS_NULLABLE b = true) /\
   heap_sub (WAH_TYPE_AS_NON_NULL a) (WAH_TYPE_AS_NON_NULL b)).

(** The types a module can name. *)
Definition conc_valid (t : wah_type_t) : Prop := 0 <= t < 2 ^ 31 /\ WAH_TYIDX t < type_count m.
Definition type_valid (t : wah_type_t) : Prop :=
  t ∈ [WAH_TYPE_I32; WAH_TYPE_I64; WAH_TYPE_F32; WAH_TYPE_F64; WAH_TYPE_V128;
       WAH_TYPE_PACKED_I8; WAH_TYPE_PACKED_I16] \/ -54 <= t <= -31 \/ conc_valid t.

(** What the type section parser and the canonicalisation establish. *)
Record types_wf : Prop := {
  wf_count : type_count m <= WAH_MAX_TYPE_INDEX + 1;
  wf_super : forall i td, type_at i td -> supertype td <> WAH_NO_SUPERTYPE ->
    0 <= supertype td < i /\ exists td', type_at (supertype td) td' /\ kind td' = kind td;
  wf_canon_some : forall i, 0 <= i < type_count m -> is_Some (canon_get m i);
  wf_canon : forall i j td td', type_at i td -> type_at j td' -> canon_get m i = canon_get m j ->
    kind td = kind td' /\
    (supertype td = WAH_NO_SUPERTYPE <-> supertype td' = WAH_NO_SUPERTYPE) /\
    (supertype td <> WAH_NO_SUPERTYPE -> canon_get m (supertype td) = canon_get m (supertype td')) }.

(** ** Theorems *)

Context (WF : types_wf).

Lemma type_at_range i td : type_at i td -> 0 <= i < type_count m.
Proof. intros [H _]%zget_Some. done. Qed.

Lemma type_at_exists i : 0 <= i < type_count m -> exists td, type_at i td.
Proof. intros H. destruct (zget_is_Some (type_defs m) i H) as [td Htd]. by exists td. Qed.

Lemma index_not_none i : 0 <= i < type_count m -> i <> WAH_NO_SUPERTYPE.
Proof. pose proof (wf_count WF) as H. rewrite max_type_index in H. unfold WAH_NO_SUPERTYPE, UINT32_MAX. lia. Qed.

Lemma super_range i s : super i s -> 0 <= s < i /\ i < type_count m.
Proof.
  intros (td & Hi & <- & Hs). pose proof (type_at_range _ _ Hi). split; [|lia].
  by apply (wf_super WF).
Qed.

Lemma supers_range i k : rtc super i k -> 0 <= i < type_count m -> 0 <= k < type_count m.
Proof.
  induction 1 as [|i j k Hij _ IH]; [done|]. intros Hi. apply IH. apply super_range in Hij. lia.
Qed.

Lemma super_kind i s td td' : super i s -> type_at i td -> type_at s td' -> kind td = kind td'.
Proof.
  intros (td1 & Hi & <- & Hs) Hi' Hs'. unfold type_at in *. simplify_eq.
  destruct (wf_super WF _ _ Hi Hs) as (_ & td2 & H2 & <-). unfold type_at in *. by simplify_eq.
Qed.

Lemma supers_kind i k td td' : rtc super i k -> type_at i td -> type_at k td' -> kind td = kind td'.
Proof.
  intros H. revert td. induction H as [|i j k Hij H IH]; intros td Hi Hk.
  - unfold type_at in *. by simplify_eq.
  - destruct (type_at_exists j) as [tdj Hj]; [apply super_range in Hij; lia|].
    rewrite (super_kind _ _ _ _ Hij Hi Hj). by apply IH.
Qed.

(** Equivalent types have equivalent supertypes, so that [conc_sub] is transitive. *)
Lemma canon_supers i j p : canon_get m i = canon_get m j -> 0 <= i < type_count m ->
  0 <= j < type_count m -> rtc super j p ->
  exists q, rtc super i q /\ canon_get m q = canon_get m p.
Proof.
  intros Hc Hi Hj H. revert i Hi Hc. induction H as [|j j' p Hjj H IH]; intros i Hi Hc.
  { exists i. split; [apply rtc_refl|done]. }
  destruct Hjj as (tdj & Htj & <- & Hn). destruct (type_at_exists i Hi) as [tdi Hti].
  destruct (wf_canon WF _ _ _ _ Hti Htj Hc) as (_ & Hnone & Hsup).
  assert (supertype tdi <> WAH_NO_SUPERTYPE) as Hni by tauto.
  assert (super i (supertype tdi)) as Hsi by (exists tdi; done).
  pose proof (super_range _ _ Hsi). destruct (wf_super WF _ _ Htj Hn) as [Hr _].
  pose proof (type_at_range _ _ Htj).
  destruct (IH ltac:(lia) (supertype tdi)) as (q & Hq & Hcq); [lia|by apply Hsup|].
  exists q. split; [by eapply rtc_l|done].
Qed.

Lemma conc_sub_trans i j l : 0 <= i < type_count m -> 0 <= j < type_count m ->
  conc_sub i j -> conc_sub j l -> conc_sub i l.
Proof.
  intros Hi Hj (k & Hik & Hk) (p & Hjp & Hp).
  destruct (canon_supers k j p Hk) as (q & Hq & Hcq); [by eapply supers_range|done|done|].
  exists q. split; [by etrans|congruence].
Qed.

Lemma conc_sub_kind i j td td' : conc_sub i j -> type_at i td -> type_at j td' -> kind td = kind td'.
Proof.
  intros (k & Hik & Hc) Hi Hj. destruct (type_at_exists k) as [tdk Hk].
  { eapply supers_range; [done|by eapply type_at_range]. }
  rewrite (supers_kind _ _ _ _ Hik Hi Hk). by apply (wf_canon WF _ _ _ _ Hk Hj Hc).
Qed.

(** *** The walks *)

Lemma tc_step_l {A} (R : relation A) x z : tc R x z -> exists y, R x y /\ rtc R y z.
Proof. destruct 1 as [x y H|x y z H Hr]; exists y; [done|]. by apply tc_rtc in Hr. Qed.

Definition same_canon (i j : Z) : option bool :=
  match canonical_map m with
  | None => Some false
  | Some cm => a ← zget cm i; b ← zget cm j; Some (a =? b)
  end.

Lemma same_canon_spec i j : 0 <= i < type_count m -> 0 <= j < type_count m ->
  exists b, same_canon i j = Some b /\ (b || (i =? j) = true <-> canon_get m i = canon_get m j).
Proof.
  intros Hi Hj. unfold same_canon. destruct (wf_canon_some WF i Hi) as [a Ha].
  destruct (wf_canon_some WF j Hj) as [b Hb]. unfold canon_get in *.
  destruct (canonical_map m) as [cm|].
  - rewrite Ha, Hb. eexists. split; [done|]. rewrite orb_true_iff, !Z.eqb_eq.
    split; [intros [->| ->]; [done|congruence]|]. intros [= ->]. by left.
  - exists false. split; [done|]. simpl. rewrite Z.eqb_eq. split; congruence.
Qed.

Lemma subtype_walk_spec fuel t j : (Z.to_nat t < fuel)%nat -> 0 <= t < type_count m ->
  0 <= j < type_count m ->
  exists b, subtype_walk m fuel t j = Some b /\
    (b = true <-> exists k, tc super t k /\ canon_get m k = canon_get m j).
Proof.
  revert t. induction fuel as [|fuel IH]; intros t Hf Ht Hj; [lia|]. cbn [subtype_walk].
  rewrite (proj2 (Z.eqb_neq _ _) (index_not_none t Ht)).
  destruct (type_at_exists t Ht) as [td Htd]. rewrite Htd. cbn [mbind option_bind].
  destruct (Z.eqb_spec (supertype td) WAH_NO_SUPERTYPE) as [E|E].
  { exists false. split; [done|]. split; [done|]. intros (k & Hk & _).
    apply tc_step_l in Hk as (x & (td' & H1 & <- & H2) & _). unfold type_at in *. by simplify_eq. }
  assert (super t (supertype td)) as Hs by (exists td; done).
  assert (forall k, super t k -> k = supertype td) as Hdet.
  { intros k (td' & H1 & <- & _). unfold type_at in *. by simplify_eq. }
  pose proof (super_range _ _ Hs). fold (same_canon (supertype td) j).
  destruct (same_canon_spec (supertype td) j) as (b & -> & Hb); [lia..|].
  destruct (Z.eqb_spec (supertype td) j) as [<-|Hne].
  { exists true. split; [done|]. split; [intros _|done]. exists (supertype td). split; [by apply tc_once|done]. }
  rewrite orb_false_r in Hb. destruct b.
  { exists true. split; [done|]. split; [intros _|done]. exists (supertype td).
    split; [by apply tc_once|by apply Hb]. }
  destruct (IH (supertype td)) as (b & Eb & Hb'); [lia..|]. exists b. split; [done|]. rewrite Hb'. split.
  - intros (k & Hk & Hc). exists k. split; [by eapply tc_l|done].
  - intros (k & Hk & Hc). exists k. split; [|done]. apply tc_step_l in Hk as (x & Hx%Hdet & Hk). subst x.
    apply rtc_tc in Hk as [<-|Hk]; [by apply Hb in Hc|done].
Qed.

(** *** The decision procedure on non-null references *)

Definition heap_valid (t : wah_type_t) : Prop :=
  t ∈ heap_types \/ (0 <= t /\ t mod 2 = 0 /\ conc_valid t).

(** What the code decides, case by case. *)
Definition alg (a b : wah_type_t) : Prop :=
  if (0 <=? a) && (0 <=? b) then conc_sub (WAH_TYIDX a) (WAH_TYIDX b)
  else if 0 <=? a then subtype_to_abstract (wah_type_def_kind (Some m) a) b = true
  else if 0 <=? b then subtype_from_abstract a (wah_type_def_kind (Some m) b) = true
  else (a =? b) || subtype_abstract a b = true.

(** The facts about the fixed lattice, all checked by computation. *)
Definition kinds := [WAH_COMP_FUNC; WAH_COMP_STRUCT; WAH_COMP_ARRAY].
Definition abs_le (a b : wah_type_t) : bool := (a =? b) || subtype_abstract a b.
Definition all3 (P : wah_type_t -> wah_type_t -> wah_type_t -> bool) : bool :=
  forallb (fun a => forallb (fun b => forallb (P a b) heap_types) heap_types) heap_types.
Definition kinds2 (P : wah_comp_type_kind_t -> wah_type_t -> wah_type_t -> bool) : bool :=
  forallb (fun k => forallb (fun a => forallb (P k a) heap_types) heap_types) kinds.

Lemma all3_spec P : all3 P = true ->
  forall a b c, a ∈ heap_types -> b ∈ heap_types -> c ∈ heap_types -> P a b c = true.
Proof.
  unfold all3. intros H a b c Ha Hb Hc. apply list_elem_of_In in Ha, Hb, Hc.
  rewrite forallb_forall in H. specialize (H a Ha). rewrite forallb_forall in H.
  specialize (H b Hb). rewrite forallb_forall in H. by apply H.
Qed.
Lemma kinds2_spec P : kinds2 P = true ->
  forall k a b, a ∈ heap_types -> b ∈ heap_types -> P k a b = true.
Proof.
  unfold kinds2. intros H k a b Ha Hb. apply list_elem_of_In in Ha, Hb.
  rewrite forallb_forall in H. assert (In k kinds) as Hk by (destruct k; simpl; auto).
  specialize (H k Hk). rewrite forallb_forall in H. specialize (H a Ha).
  rewrite forallb_forall in H. by apply H.
Qed.

Lemma abs_trans a b c : a ∈ heap_types -> b ∈ heap_types -> c ∈ heap_types ->
  abs_le a b = true -> abs_le b c = true -> abs_le a c = true.
Proof.
  intros Ha Hb Hc. pose proof (all3_spec (fun a b c => implb (abs_le a b && abs_le b c) (abs_le a c))
    ltac:(vm_compute; reflexivity) a b c Ha Hb Hc) as H. cbv beta in H.
  intros H1 H2. by rewrite H1, H2 in H.
Qed.
Lemma to_abs_trans k a b : a ∈ heap_types -> b ∈ heap_types ->
  subtype_to_abstract (Some k) a = true -> abs_le a b = true -> subtype_to_abstract (Some k) b = true.
Proof.
  intros Ha Hb. pose proof (kinds2_spec (fun k a b => implb (subtype_to_abstract (Some k) a && abs_le a b)
    (subtype_to_abstract (Some k) b)) ltac:(vm_compute; reflexivity) k a b Ha Hb) as H. cbv beta in H.
  intros H1 H2. by rewrite H1, H2 in H.
Qed.
Lemma from_abs_trans k a b : a ∈ heap_types -> b ∈ heap_types ->
  abs_le a b = true -> subtype_from_abstract b (Some k) = true -> subtype_from_abstract a (Some k) = true.
Proof.
  intros Ha Hb. pose proof (kinds2_spec (fun k a b => implb (abs_le a b && subtype_from_abstract b (Some k))
    (subtype_from_abstract a (Some k))) ltac:(vm_compute; reflexivity) k a b Ha Hb) as H. cbv beta in H.
  intros H1 H2. by rewrite H1, H2 in H.
Qed.
Lemma through_conc k a b : a ∈ heap_types -> b ∈ heap_types ->
  subtype_from_abstract a (Some k) = true -> subtype_to_abstract (Some k) b = true -> abs_le a b = true.
Proof.
  intros Ha Hb. pose proof (kinds2_spec (fun k a b => implb (subtype_from_abstract a (Some k) && subtype_to_abstract (Some k) b)
    (abs_le a b)) ltac:(vm_compute; reflexivity) k a b Ha Hb) as H. cbv beta in H.
  intros H1 H2. by rewrite H1, H2 in H.
Qed.
Lemma no_detour k k' a : a ∈ heap_types ->
  subtype_to_abstract (Some k) a = true -> subtype_from_abstract a (Some k') = true -> False.
Proof.
  intros Ha. pose proof (kinds2_spec (fun k a _ => forallb (fun k' => negb (subtype_to_abstract (Some k) a && subtype_from_abstract a (Some k'))) kinds)
    ltac:(vm_compute; reflexivity) k a a Ha Ha) as H. cbv beta in H.
  intros H1 H2. rewrite forallb_forall in H.
  assert (In k' kinds) as Hk by (destruct k'; simpl; auto). specialize (H k' Hk). by rewrite H1, H2 in H.
Qed.

Lemma heap_types_neg a : a ∈ heap_types -> a < 0.
Proof. unfold heap_types. rewrite !elem_of_cons, elem_of_nil. intros H. destruct_or?; subst; done. Qed.

(** Validity, split by sign. *)
Lemma heap_valid_cases a : heap_valid a ->
  (a ∈ heap_types /\ (0 <=? a) = false) \/
  ((0 <=? a) = true /\ 0 <= WAH_TYIDX a < type_count m /\
   exists td, type_at (WAH_TYIDX a) td /\ wah_type_def_kind (Some m) a = Some (kind td)).
Proof.
  intros [H|(H0 & _ & H1 & H2)].
  - left. split; [done|]. pose proof (heap_types_neg _ H). lia.
  - right. split; [lia|]. pose proof (tyidx_bound a H1). split; [lia|].
    destruct (type_at_exists (WAH_TYIDX a)) as [td Htd]; [lia|]. exists td. split; [done|].
    unfold wah_type_def_kind, type_at in *. rewrite Htd.
    by rewrite (proj2 (Z.ltb_ge _ _)), (proj2 (Z.leb_gt _ _)) by lia.
Qed.

Lemma alg_trans a b c : heap_valid a -> heap_valid b -> heap_valid c ->
  alg a b -> alg b c -> alg a c.
Proof.
  unfold alg. intros [[Ha Ea]|(Ea & Ra & tda & Ta & Ka)]%heap_valid_cases
    [[Hb Eb]|(Eb & Rb & tdb & Tb & Kb)]%heap_valid_cases
    [[Hc Ec]|(Ec & Rc & tdc & Tc & Kc)]%heap_valid_cases; rewrite Ea, Eb, Ec; cbn [andb];
    rewrite ?Ka, ?Kb, ?Kc.
  - by apply abs_trans.
  - by apply from_abs_trans.
  - by apply through_conc.
  - intros H1 H2. by rewrite <- (conc_sub_kind _ _ _ _ H2 Tb Tc).
  - by apply to_abs_trans.
  - intros H1 H2. by destruct (no_detour _ _ _ Hb H1 H2).
  - intros H1 H2. by rewrite (conc_sub_kind _ _ _ _ H1 Ta Tb).
  - by apply conc_sub_trans.
Qed.

(** *** Soundness and completeness *)

(** Paths of at most [n] edges in the lattice. *)
Fixpoint path (n : nat) (a b : wah_type_t) : bool :=
  (a =? b) ||
  match n with
  | O => false
  | S n' => existsb (fun e => (e.1 =? a) && path n' e.2 b) heap_edges
  end.

Lemma path_sound n a b : path n a b = true -> heap_sub a b.
Proof.
  revert a. induction n as [|n IH]; intros a; cbn [path]; rewrite orb_true_iff, Z.eqb_eq.
  - intros [->|H]; [apply hs_refl|done].
  - intros [->|H]; [apply hs_refl|]. apply existsb_exists in H as ((x & y) & Hin & H).
    apply list_elem_of_In in Hin. apply andb_true_iff in H as [Hx Hp]. apply Z.eqb_eq in Hx. simpl in *. subst x.
    eapply hs_trans; [by apply hs_edge|by apply IH].
Qed.

Lemma abs_le_sub a b : a ∈ heap_types -> b ∈ heap_types -> abs_le a b = true -> heap_sub a b.
Proof.
  intros Ha Hb. pose proof (all3_spec (fun a b _ => implb (abs_le a b) (path 4 a b))
    ltac:(vm_compute; reflexivity) a b b Ha Hb Hb) as H. cbv beta in H.
  intros H1. rewrite H1 in H. by apply (path_sound 4).
Qed.
Lemma to_abs_sub k b : b ∈ heap_types -> subtype_to_abstract (Some k) b = true -> heap_sub (kind_heap k) b.
Proof.
  intros Hb. pose proof (kinds2_spec (fun k b _ => implb (subtype_to_abstract (Some k) b) (path 4 (kind_heap k) b))
    ltac:(vm_compute; reflexivity) k b b Hb Hb) as H. cbv beta in H.
  intros H1. rewrite H1 in H. by apply (path_sound 4).
Qed.
Lemma from_abs_sub k a : a ∈ heap_types -> subtype_from_abstract a (Some k) = true -> heap_sub a (kind_bottom k).
Proof.
  intros Ha. pose proof (kinds2_spec (fun k a _ => implb (subtype_from_abstract a (Some k)) (path 4 a (kind_bottom k)))
    ltac:(vm_compute; reflexivity) k a a Ha Ha) as H. cbv beta in H.
  intros H1. rewrite H1 in H. by apply (path_sound 4).
Qed.
Lemma edges_le a b : (a, b) ∈ heap_edges -> a ∈ heap_types /\ b ∈ heap_types /\ abs_le a b = true.
Proof.
  unfold heap_edges. rewrite !elem_of_cons, elem_of_nil. intros H.
  destruct_or?; simplify_eq; (split_and!; [unfold heap_types; set_solver..|reflexivity]).
Qed.

(** Concrete types as indices. *)
Lemma type_index i : 0 <= i < type_count m ->
  0 <= WAH_TYPE_FROM_IDX i false /\ WAH_TYIDX (WAH_TYPE_FROM_IDX i false) = i /\
  heap_valid (WAH_TYPE_FROM_IDX i false).
Proof.
  intros Hi. pose proof (wf_count WF). assert (0 <= i <= WAH_MAX_TYPE_INDEX) as Hi' by lia.
  split; [by apply from_idx_nonneg|]. split; [by apply tyidx_from_idx|].
  right. pose proof (tyidx_from_idx i false Hi') as E. rewrite from_idx_small in * by done.
  unfold conc_valid. rewrite E. rewrite max_type_index in Hi'. simpl b2z. rewrite Z.add_0_r, Z_mod_mult.
  repeat split; lia.
Qed.

Lemma index_type a : 0 <= a -> a mod 2 = 0 -> conc_valid a -> a = WAH_TYPE_FROM_IDX (WAH_TYIDX a) false.
Proof.
  intros H0 H2 [H1 _]. rewrite <- (from_idx_tyidx a) at 1 by done. f_equal.
  by rewrite is_nullable_mod, H2.
Qed.

Lemma wah_type_def_kind_index i td : type_at i td ->
  wah_type_def_kind (Some m) (WAH_TYPE_FROM_IDX i false) = Some (kind td).
Proof.
  intros Ht. pose proof (type_at_range _ _ Ht) as Hi. destruct (type_index i Hi) as (H0 & E & _).
  unfold wah_type_def_kind. rewrite E. rewrite (proj2 (Z.ltb_ge _ _)), (proj2 (Z.leb_gt _ _)) by lia.
  unfold type_at in Ht. by rewrite Ht.
Qed.

Lemma kind_heap_types k : kind_heap k ∈ heap_types /\ kind_bottom k ∈ heap_types.
Proof. unfold heap_types. destruct k; simpl; set_solver. Qed.

Ltac conc_index i :=
  let H0 := fresh in let E := fresh in
  destruct (type_index i) as (H0 & E & _); [lia|]; rewrite ?(proj2 (Z.leb_le _ _) H0), ?E.

Lemma alg_super i j : super i j -> alg (WAH_TYPE_FROM_IDX i false) (WAH_TYPE_FROM_IDX j false).
Proof.
  intros H. pose proof (super_range _ _ H). unfold alg.
  conc_index i. conc_index j. cbn [andb].
  exists j. split; [by apply rtc_once|done].
Qed.

Lemma heap_types_not_le a : a ∈ heap_types -> (0 <=? a) = false.
Proof. intros H%heap_types_neg. lia. Qed.

Lemma heap_sub_alg a b : heap_sub a b -> heap_valid a -> heap_valid b /\ alg a b.
Proof.
  induction 1 as [a|a b c _ IH1 _ IH2|a b Hab|i j Hij|i j td td' Ht Ht' Hc|i td Ht|i td Ht]; intros Ha.
  - split; [done|]. unfold alg. destruct (heap_valid_cases a Ha) as [[_ ->]|(-> & _)]; simpl.
    + by rewrite Z.eqb_refl.
    + exists (WAH_TYIDX a). split; [apply rtc_refl|done].
  - destruct (IH1 Ha) as [Hb Hab]. destruct (IH2 Hb) as [Hc Hbc]. split; [done|exact (alg_trans a b c Ha Hb Hc Hab Hbc)].
  - apply edges_le in Hab as (H1 & H2 & H3). split; [by left|]. unfold alg.
    by rewrite !heap_types_not_le by done.
  - split; [|by apply alg_super]. apply super_range in Hij. by apply type_index; lia.
  - pose proof (type_at_range _ _ Ht). pose proof (type_at_range _ _ Ht'). split; [by apply type_index|].
    unfold alg. conc_index i. conc_index j. cbn [andb].
    exists i. split; [apply rtc_refl|done].
  - destruct (kind_heap_types (kind td)) as [Hk _]. split; [by left|]. unfold alg.
    rewrite (wah_type_def_kind_index i td) by done. pose proof (type_at_range _ _ Ht).
    conc_index i. rewrite (heap_types_not_le _ Hk). simpl. by destruct (kind td).
  - destruct (kind_heap_types (kind td)) as [_ Hk]. pose proof (type_at_range _ _ Ht).
    split; [by apply type_index|]. unfold alg. rewrite (wah_type_def_kind_index i td) by done.
    conc_index i. rewrite (heap_types_not_le _ Hk). simpl. by destruct (kind td).
Qed.

Lemma supers_sub i k : rtc super i k -> heap_sub (WAH_TYPE_FROM_IDX i false) (WAH_TYPE_FROM_IDX k false).
Proof.
  induction 1 as [|i j k Hij _ IH]; [apply hs_refl|]. eapply hs_trans; [by apply hs_super|done].
Qed.

Lemma conc_sub_heap i j : 0 <= i < type_count m -> 0 <= j < type_count m -> conc_sub i j ->
  heap_sub (WAH_TYPE_FROM_IDX i false) (WAH_TYPE_FROM_IDX j false).
Proof.
  intros Hi Hj (k & Hk & Hc). eapply hs_trans; [by apply supers_sub|].
  destruct (type_at_exists k) as [tdk Htk]; [by eapply supers_range|].
  destruct (type_at_exists j Hj) as [tdj Htj]. by eapply hs_canon.
Qed.

(** A concrete type as the rules write it. *)
Lemma heap_valid_index a : heap_valid a -> (0 <=? a) = true -> a = WAH_TYPE_FROM_IDX (WAH_TYIDX a) false.
Proof.
  intros [H%heap_types_neg|(H0 & H2 & Hc)] H1; [lia|]. by apply index_type.
Qed.

Lemma alg_heap_sub a b : heap_valid a -> heap_valid b -> alg a b -> heap_sub a b.
Proof.
  intros Va Vb. pose proof (heap_valid_index a Va) as Ia. pose proof (heap_valid_index b Vb) as Ib.
  unfold alg. destruct (heap_valid_cases a Va) as [[Ha Ea]|(Ea & Ra & tda & Ta & Ka)],
    (heap_valid_cases b Vb) as [[Hb Eb]|(Eb & Rb & tdb & Tb & Kb)]; rewrite Ea, Eb; cbn [andb];
    rewrite ?Ka, ?Kb; intros H.
  - by apply abs_le_sub.
  - rewrite Ib by done. eapply hs_trans; [by apply from_abs_sub|by apply hs_bottom].
  - rewrite Ia by done. eapply hs_trans; [by apply hs_kind|by apply to_abs_sub].
  - rewrite Ia, Ib by done. by apply conc_sub_heap.
Qed.

(** *** The theorem *)

Lemma subtype_concrete_spec a b : heap_valid a -> heap_valid b -> a <> b ->
  (0 <=? a) = true -> (0 <=? b) = true ->
  exists r, subtype_concrete m a b = Some r /\ (r = true <-> conc_sub (WAH_TYIDX a) (WAH_TYIDX b)).
Proof.
  intros Va Vb Hab Ea Eb.
  destruct (heap_valid_cases a Va) as [[_ E]|(_ & Ra & _)]; [congruence|].
  destruct (heap_valid_cases b Vb) as [[_ E]|(_ & Rb & _)]; [congruence|].
  assert (WAH_TYIDX a =? WAH_TYIDX b = false) as Hne.
  { apply Z.eqb_neq. intros E. apply Hab.
    by rewrite (heap_valid_index a Va Ea), (heap_valid_index b Vb Eb), E. }
  unfold subtype_concrete. rewrite !(proj2 (Z.leb_gt _ _)) by lia. cbn [orb].
  fold (same_canon (WAH_TYIDX a) (WAH_TYIDX b)).
  destruct (same_canon_spec _ _ Ra Rb) as (r & -> & Hr). rewrite Hne, orb_false_r in Hr.
  cbn [mbind option_bind]. destruct r.
  { exists true. split; [done|]. split; [intros _|done]. exists (WAH_TYIDX a).
    split; [apply rtc_refl|by apply Hr]. }
  destruct (subtype_walk_spec (S (length (type_defs m))) (WAH_TYIDX a) (WAH_TYIDX b)) as (r & -> & Hr');
    [unfold type_count, zlen in *; lia|done..|].
  exists r. split; [done|]. rewrite Hr'. split; intros (k & Hk & Hc); exists k; (split; [|done]).
  - by apply tc_rtc.
  - apply rtc_tc in Hk as [<-|Hk]; [by apply Hr in Hc|done].
Qed.

Lemma type_valid_heap t : type_valid t -> WAH_TYPE_IS_REF t = true -> heap_valid (WAH_TYPE_AS_NON_NULL t).
Proof.
  intros [H|[H|[H1 H2]]] Hr.
  - rewrite !elem_of_cons, elem_of_nil in H. by destruct_or?; subst.
  - left. assert (forallb (fun t => existsb (Z.eqb (WAH_TYPE_AS_NON_NULL t)) heap_types) (zrange (-54) (-30)) = true)
      as Hall by (vm_compute; reflexivity).
    rewrite forallb_forall in Hall. specialize (Hall t). rewrite existsb_exists in Hall.
    destruct Hall as (h & Hin & E); [apply list_elem_of_In, elem_of_zrange; lia|].
    apply Z.eqb_eq in E. rewrite E. by apply list_elem_of_In.
  - right. split; [by apply as_non_null_sign; lia|]. split; [rewrite as_non_null_mod; Z.to_euclidean_division_equations; lia|].
    split; [|by rewrite tyidx_as_non_null]. rewrite as_non_null_mod. Z.to_euclidean_division_equations. lia.
Qed.

Lemma non_ref_cases t : type_valid t \/ t = WAH_TYPE_BOT -> WAH_TYPE_IS_REF t = false ->
  (0 <=? WAH_TYPE_AS_NON_NULL t) = false /\ WAH_TYPE_IS_REF (WAH_TYPE_AS_NON_NULL t) = false /\
  (forall k, subtype_to_abstract k (WAH_TYPE_AS_NON_NULL t) = false) /\
  (forall k, subtype_from_abstract (WAH_TYPE_AS_NON_NULL t) k = false) /\
  (WAH_TYPE_IS_NULLABLE t = false -> WAH_TYPE_AS_NON_NULL t = t) /\
  (WAH_TYPE_IS_NULLABLE t = true -> t = WAH_TYPE_BOT).
Proof.
  intros [[H|[H|[H1 H2]]]| ->] Hr.
  - rewrite !elem_of_cons, elem_of_nil in H. by destruct_or?; subst.
  - exfalso. type_arith. lia.
  - exfalso. type_arith. lia.
  - done.
Qed.

Lemma as_non_null_is_ref t : type_valid t -> WAH_TYPE_IS_REF t = true ->
  WAH_TYPE_IS_REF (WAH_TYPE_AS_NON_NULL t) = true.
Proof.
  intros V H. destruct (type_valid_heap t V H) as [Hh|(H0 & _)].
  - unfold heap_types in Hh. rewrite !elem_of_cons, elem_of_nil in Hh. by destruct_or?; rewrite Hh.
  - unfold WAH_TYPE_IS_REF. lia.
Qed.

Lemma subtype_abstract_non_ref a b : WAH_TYPE_IS_REF a = false \/ WAH_TYPE_IS_REF b = false ->
  subtype_abstract a b = false.
Proof. unfold subtype_abstract. intros [->| ->]; cbn [negb]; by rewrite ?orb_true_r. Qed.

(** Two references that differ once nullability is dropped. *)
Lemma is_subtype_refs sub sup : type_valid sub -> type_valid sup ->
  WAH_TYPE_IS_REF sub = true -> WAH_TYPE_IS_REF sup = true ->
  let a := WAH_TYPE_AS_NON_NULL sub in let b := WAH_TYPE_AS_NON_NULL sup in a <> b ->
  exists r, (if (0 <=? a) && (0 <=? b) then subtype_concrete m a b
             else if 0 <=? a then Some (subtype_to_abstract (wah_type_def_kind (Some m) a) b)
             else if 0 <=? b then Some (subtype_from_abstract a (wah_type_def_kind (Some m) b))
             else Some (subtype_abstract a b)) = Some r /\ (r = true <-> heap_sub a b).
Proof.
  intros V1 V2 R1 R2 a b Hab.
  pose proof (type_valid_heap _ V1 R1) as Va. pose proof (type_valid_heap _ V2 R2) as Vb. fold a in Va. fold b in Vb.
  assert (heap_sub a b <-> alg a b) as E.
  { split; [intros H; by apply heap_sub_alg|by apply alg_heap_sub]. }
  unfold alg in E. destruct (0 <=? a) eqn:Ea, (0 <=? b) eqn:Eb; cbn [andb] in *.
  - destruct (subtype_concrete_spec a b Va Vb Hab Ea Eb) as (r & -> & Hr). exists r. by rewrite Hr, E.
  - by eexists.
  - by eexists.
  - rewrite (proj2 (Z.eqb_neq a b) Hab) in E. by eexists.
Qed.

Lemma wah_type_is_subtype_correct sub sup :
  type_valid sub \/ sub = WAH_TYPE_BOT -> type_valid sup \/ sup = WAH_TYPE_BOT ->
  exists r, wah_type_is_subtype sub sup (Some m) = Some r /\ (r = true <-> type_sub sub sup).
Proof.
  intros V1 V2. unfold wah_type_is_subtype. cbv zeta.
  destruct ((sub =? sup) || (sub =? WAH_TYPE_BOT)) eqn:E0.
  { exists true. split; [done|]. split; [intros _|done]. apply orb_true_iff in E0 as [E|E]; apply Z.eqb_eq in E.
    - by left. - by right; left. }
  apply orb_false_iff in E0 as [E1%Z.eqb_neq E2%Z.eqb_neq]. destruct V1 as [V1|?]; [|done].
  assert (type_sub sub sup <-> WAH_TYPE_IS_REF sub = true /\ WAH_TYPE_IS_REF sup = true /\
    (WAH_TYPE_IS_NULLABLE sub = true -> WAH_TYPE_IS_NULLABLE sup = true) /\
    heap_sub (WAH_TYPE_AS_NON_NULL sub) (WAH_TYPE_AS_NON_NULL sup)) as Hts by (unfold type_sub; naive_solver).
  setoid_rewrite Hts. clear Hts.
  destruct (WAH_TYPE_IS_NULLABLE sub && negb (WAH_TYPE_IS_NULLABLE sup)) eqn:En.
  { exists false. split; [done|]. apply andb_true_iff in En as [-> En]. apply negb_true_iff in En. rewrite En.
    split; [done|]. intros (_ & _ & H & _). by specialize (H eq_refl). }
  assert (Hn : WAH_TYPE_IS_NULLABLE sub = true -> WAH_TYPE_IS_NULLABLE sup = true).
  { intros H. rewrite H in En. by destruct (WAH_TYPE_IS_NULLABLE sup). }
  destruct (WAH_TYPE_IS_REF sub) eqn:R1, (WAH_TYPE_IS_REF sup) eqn:R2.
  - assert (type_valid sup) as V2' by (destruct V2 as [?| ->]; done).
    destruct (Z.eqb_spec (WAH_TYPE_AS_NON_NULL sub) (WAH_TYPE_AS_NON_NULL sup)) as [->|Hab].
    + exists true. split; [done|]. split; [intros _|done]. split_and!; try done. apply hs_refl.
    + destruct (is_subtype_refs sub sup V1 V2' R1 R2 Hab) as (r & E & Hr). exists r. split; [exact E|].
      rewrite Hr. naive_solver.
  - destruct (non_ref_cases sup V2 R2) as (N1 & N2 & N3 & N4 & _).
    pose proof (as_non_null_is_ref sub V1 R1) as R1'. exists false. split; [|split; [done|by intros (? & ? & _)]].
    rewrite N1, !andb_false_r, N3. destruct (Z.eqb_spec (WAH_TYPE_AS_NON_NULL sub) (WAH_TYPE_AS_NON_NULL sup)) as [E|_]; [congruence|].
    rewrite subtype_abstract_non_ref by auto. by destruct (0 <=? WAH_TYPE_AS_NON_NULL sub).
  - destruct (non_ref_cases sub (or_introl V1) R1) as (N1 & N2 & N3 & N4 & _).
    assert (type_valid sup) as V2' by (destruct V2 as [?| ->]; done).
    pose proof (as_non_null_is_ref sup V2' R2) as R2'. exists false. split; [|split; [done|by intros (? & ? & _)]].
    rewrite N1, N4. destruct (Z.eqb_spec (WAH_TYPE_AS_NON_NULL sub) (WAH_TYPE_AS_NON_NULL sup)) as [E|_]; [congruence|].
    rewrite subtype_abstract_non_ref by auto. cbn [andb]. by destruct (0 <=? WAH_TYPE_AS_NON_NULL sup).
  - destruct (non_ref_cases sub (or_introl V1) R1) as (N1 & N2 & N3 & N4 & N5 & N6).
    destruct (non_ref_cases sup V2 R2) as (M1 & M2 & M3 & M4 & M5 & M6).
    exists false. split; [|split; [done|by intros (? & ? & _)]]. rewrite N1, M1. cbn [andb].
    rewrite subtype_abstract_non_ref by auto.
    destruct (Z.eqb_spec (WAH_TYPE_AS_NON_NULL sub) (WAH_TYPE_AS_NON_NULL sup)) as [E|_]; [exfalso|done].
    destruct (WAH_TYPE_IS_NULLABLE sub) eqn:U1; [by apply E2, N6|]. rewrite N5 in E by done.
    destruct (WAH_TYPE_IS_NULLABLE sup) eqn:U2; [|by rewrite M5 in E].
    rewrite M6 in E by done. change (WAH_TYPE_AS_NON_NULL WAH_TYPE_BOT) with (-100) in E. subst sub.
    destruct V1 as [H|[H|[H _]]]; [|lia..]. rewrite !elem_of_cons, elem_of_nil in H. by destruct_or?.
Qed.

(** *** Hierarchies and run-time checks *)

Lemma top_non_null t : wah_type_hierarchy_top (WAH_TYPE_AS_NON_NULL t) (Some m) = wah_type_hierarchy_top t (Some m).
Proof. unfold wah_type_hierarchy_top. by rewrite as_non_null_idem. Qed.

(** The top of a heap type that needs no module. *)
Definition kind_top (k : wah_comp_type_kind_t) : wah_type_t :=
  match k with WAH_COMP_FUNC => WAH_TYPE_FUNC | _ => WAH_TYPE_ANY end.

Lemma top_concrete a td : heap_valid a -> (0 <=? a) = true ->
  wah_type_def_kind (Some m) a = Some (kind td) ->
  wah_type_hierarchy_top a (Some m) = kind_top (kind td).
Proof.
  intros [H%heap_types_neg|(H0 & H2 & _)] Ha Hk; [lia|]. unfold wah_type_hierarchy_top.
  rewrite (as_non_null_id a) by (by rewrite is_nullable_mod, H2). rewrite Ha, Hk. by destruct (kind td).
Qed.

Lemma top_le a b : a ∈ heap_types -> b ∈ heap_types -> abs_le a b = true ->
  wah_type_hierarchy_top a None = wah_type_hierarchy_top b None.
Proof.
  intros Ha Hb. pose proof (all3_spec (fun a b _ => implb (abs_le a b)
    (wah_type_hierarchy_top a None =? wah_type_hierarchy_top b None))
    ltac:(vm_compute; reflexivity) a b b Ha Hb Hb) as H. cbv beta in H.
  intros H1. rewrite H1 in H. by apply Z.eqb_eq.
Qed.
Lemma top_to_abs k b : b ∈ heap_types -> subtype_to_abstract (Some k) b = true ->
  wah_type_hierarchy_top b None = kind_top k.
Proof.
  intros Hb. pose proof (kinds2_spec (fun k b _ => implb (subtype_to_abstract (Some k) b)
    (wah_type_hierarchy_top b None =? kind_top k)) ltac:(vm_compute; reflexivity) k b b Hb Hb) as H. cbv beta in H.
  intros H1. rewrite H1 in H. by apply Z.eqb_eq.
Qed.
Lemma top_from_abs k a : a ∈ heap_types -> subtype_from_abstract a (Some k) = true ->
  wah_type_hierarchy_top a None = kind_top k.
Proof.
  intros Ha. pose proof (kinds2_spec (fun k a _ => implb (subtype_from_abstract a (Some k))
    (wah_type_hierarchy_top a None =? kind_top k)) ltac:(vm_compute; reflexivity) k a a Ha Ha) as H. cbv beta in H.
  intros H1. rewrite H1 in H. by apply Z.eqb_eq.
Qed.

Lemma top_abstract a : a ∈ heap_types ->
  wah_type_hierarchy_top a (Some m) = wah_type_hierarchy_top a None /\
  wah_type_hierarchy_top a None ∈ heap_types /\ abs_le a (wah_type_hierarchy_top a None) = true.
Proof.
  intros H. unfold heap_types in H. rewrite !elem_of_cons, elem_of_nil in H.
  destruct_or?; subst; (split; [done|]); (split; [|reflexivity]); apply (bool_decide_unpack _); vm_compute; exact I.
Qed.

Lemma top_preserved a b : heap_valid a -> heap_sub a b ->
  wah_type_hierarchy_top a (Some m) = wah_type_hierarchy_top b (Some m).
Proof.
  intros Va H. destruct (heap_sub_alg a b H Va) as [Vb Hal]. unfold alg in Hal.
  destruct (heap_valid_cases a Va) as [[Ha Ea]|(Ea & Ra & tda & Ta & Ka)],
    (heap_valid_cases b Vb) as [[Hb Eb]|(Eb & Rb & tdb & Tb & Kb)]; rewrite Ea, Eb in Hal; cbn [andb] in Hal;
    rewrite ?Ka, ?Kb in Hal.
  - rewrite (proj1 (top_abstract a Ha)), (proj1 (top_abstract b Hb)). by apply top_le.
  - rewrite (proj1 (top_abstract a Ha)), (top_concrete b tdb) by done. by apply top_from_abs.
  - rewrite (proj1 (top_abstract b Hb)), (top_concrete a tda) by done. symmetry. by apply top_to_abs.
  - rewrite (top_concrete a tda), (top_concrete b tdb) by done. f_equal. by eapply conc_sub_kind.
Qed.

Lemma top_above a : heap_valid a -> heap_valid (wah_type_hierarchy_top a (Some m)) /\
  heap_sub a (wah_type_hierarchy_top a (Some m)).
Proof.
  intros Va. destruct (heap_valid_cases a Va) as [[Ha Ea]|(Ea & Ra & tda & Ta & Ka)].
  - destruct (top_abstract a Ha) as (-> & Ht & Hle). split; [by left|]. by apply abs_le_sub.
  - rewrite (top_concrete a tda) by done.
    assert (kind_top (kind tda) ∈ heap_types) as Hin by (unfold heap_types; destruct (kind tda); simpl; set_solver).
    split; [by left|]. rewrite (heap_valid_index a Va Ea). eapply hs_trans; [by apply hs_kind|].
    apply to_abs_sub; [done|by destruct (kind tda)].
Qed.

Lemma accepts_walk_spec fuel t j c : (S (Z.to_nat t) < fuel)%nat -> 0 <= t < type_count m ->
  canon_get m j = Some c ->
  exists b, accepts_walk fuel m t c = Some b /\ (b = true <-> conc_sub t j).
Proof.
  revert t. induction fuel as [|fuel IH]; intros t Hf Ht Hj; [lia|]. cbn [accepts_walk].
  rewrite (proj2 (Z.eqb_neq _ _) (index_not_none t Ht)).
  destruct (wf_canon_some WF t Ht) as [ct Hct]. rewrite Hct. cbn [mbind option_bind].
  destruct (Z.eqb_spec ct c) as [->|Hne].
  { exists true. split; [done|]. split; [intros _|done]. exists t. split; [apply rtc_refl|congruence]. }
  destruct (type_at_exists t Ht) as [td Htd]. pose proof Htd as Htd'. unfold type_at in Htd'. rewrite Htd'. cbn [mbind option_bind].
  destruct (decide (supertype td = WAH_NO_SUPERTYPE)) as [E|E].
  - exists false. split; [destruct fuel; [lia|]; cbn [accepts_walk]; by rewrite E|].
    split; [done|]. intros (k & Hk & Hc). inversion Hk as [|? x ? (td' & H1 & <- & H2)]; subst; [congruence|].
    unfold type_at in *. by simplify_eq.
  - assert (super t (supertype td)) as Hs by (exists td; done). pose proof (super_range _ _ Hs).
    destruct (IH (supertype td)) as (b & Eb & Hb); [lia..|done|]. exists b. split; [done|]. rewrite Hb. split.
    + intros (k & Hk & Hc). exists k. split; [by eapply rtc_l|done].
    + intros (k & Hk & Hc). exists k. split; [|done].
      inversion Hk as [|? x ? (td' & H1 & <- & H2)]; subst; [congruence|]. unfold type_at in *. by simplify_eq.
Qed.

Lemma wah_type_accepts_repr_correct typeidx repr_id :
  repr_id <= INT32_MAX -> 0 <= typeidx ->
  (forall info, zget (repr_infos m) repr_id = Some info -> 0 <= repr_typeidx info < type_count m) ->
  exists b, wah_type_accepts_repr m typeidx repr_id = Some b /\
    (b = true <-> exists info, zget (repr_infos m) repr_id = Some info /\ typeidx < type_count m /\
                               conc_sub (repr_typeidx info) typeidx).
Proof.
  intros Hmax Ht Hinfo. unfold wah_type_accepts_repr.
  destruct (Z.ltb_spec repr_id 0) as [Hneg|Hneg]; cbn [orb].
  { exists false. split; [done|]. split; [done|]. intros (info & H%zget_Some & _). lia. }
  rewrite u32_small by (unfold INT32_MAX in Hmax; lia).
  destruct (Z.leb_spec (zlen (repr_infos m)) repr_id) as [Hge|Hlt]; cbn [orb].
  { exists false. split; [done|]. split; [done|]. intros (info & H & _). by rewrite zget_None in H. }
  destruct (Z.leb_spec (type_count m) typeidx) as [Hge|Hty].
  { exists false. split; [done|]. split; [done|]. intros (info & _ & ? & _). lia. }
  destruct (wf_canon_some WF typeidx ltac:(lia)) as [c Hc]. rewrite Hc.
  destruct (zget_is_Some (repr_infos m) repr_id ltac:(lia)) as [info Hi].
  specialize (Hinfo info Hi). rewrite Hi. cbn [mbind option_bind].
  destruct (accepts_walk_spec (S (length (type_defs m))) (repr_typeidx info) typeidx c) as (b & -> & Hb);
    [unfold type_count, zlen in *; lia|done|done|].
  exists b. split; [done|]. rewrite Hb. split; [intros ?; by exists info|]. by intros (info' & [= <-] & _ & H).
Qed.
End Module.

(** *** Checking well-formedness *)

Definition types_wf_b (m : wah_module_t) : bool :=
  let idx := zrange 0 (type_count m) in
  let same i j := bool_decide (canon_get m i = canon_get m j) in
  (type_count m <=? WAH_MAX_TYPE_INDEX + 1) &&
  forallb (fun i =>
    bool_decide (is_Some (canon_get m i)) &&
    match zget (type_defs m) i with
    | None => true
    | Some td =>
        (if supertype td =? WAH_NO_SUPERTYPE then true
         else if (0 <=? supertype td) && (supertype td <? i) then
           match zget (type_defs m) (supertype td) with
           | Some td' => comp_kind_eqb (kind td') (kind td)
           | None => false
           end
         else false) &&
        forallb (fun j =>
          match zget (type_defs m) j with
          | None => true
          | Some td' =>
              if same i j then
                comp_kind_eqb (kind td) (kind td') &&
                Bool.eqb (supertype td =? WAH_NO_SUPERTYPE) (supertype td' =? WAH_NO_SUPERTYPE) &&
                (if supertype td =? WAH_NO_SUPERTYPE then true
                 else if supertype td' =? WAH_NO_SUPERTYPE then false
                 else same (supertype td) (supertype td'))
              else true
          end) idx
    end) idx.

Lemma types_wf_b_correct m : types_wf_b m = true -> types_wf m.
Proof.
  unfold types_wf_b. intros [Hc H]%andb_true_iff. rewrite forallb_forall in H.
  assert (forall i td, type_at m i td -> In i (zrange 0 (type_count m))) as Hin.
  { intros i td Hi%type_at_range. apply list_elem_of_In, elem_of_zrange. done. }
  split.
  - lia.
  - intros i td Hi Hs. specialize (H i (Hin _ _ Hi)). unfold type_at in Hi. rewrite Hi in H.
    rewrite !andb_true_iff in H. destruct H as (_ & H & _).
    rewrite (proj2 (Z.eqb_neq _ _) Hs) in H.
    destruct ((0 <=? supertype td) && (supertype td <? i)) eqn:Hr; [|done]. split; [lia|].
    destruct (zget (type_defs m) (supertype td)) as [td'|] eqn:E; [|done].
    exists td'. by apply comp_kind_eqb_spec in H.
  - intros i Hi. specialize (H i (proj1 (list_elem_of_In _ _) (proj2 (elem_of_zrange _ _ _) Hi))).
    apply andb_true_iff in H as [H _]. by apply bool_decide_eq_true in H.
  - intros i j td td' Hi Hj Hsame. specialize (H i (Hin _ _ Hi)). pose proof (Hin _ _ Hj) as Hj'.
    unfold type_at in Hi, Hj. rewrite Hi in H.
    rewrite !andb_true_iff in H. destruct H as (_ & _ & H). rewrite forallb_forall in H.
    specialize (H j Hj'). rewrite Hj, bool_decide_eq_true_2 in H by done. simpl in H.
    rewrite !andb_true_iff, comp_kind_eqb_spec in H. destruct H as [[Hk Hn] Hp]. split; [done|].
    apply eqb_prop in Hn. split; [lia|]. intros Hs. rewrite (proj2 (Z.eqb_neq _ _) Hs) in *.
    rewrite <- Hn in Hp. by apply bool_decide_eq_true in Hp.
Qed.

(** C14. In a module that the type section parser and the canonicalisation accepted,
    [wah_type_is_subtype] always returns, and returns exactly the declarative
    subtyping relation of the specification, transitively closed: concrete types
    through their supertype chains up to equivalence, the abstract lattice with its
    bottom types, nullability, and the bottom type of unreachable code. *)
Theorem wah_type_is_subtype_spec m sub sup :
  types_wf m -> type_valid m sub \/ sub = WAH_TYPE_BOT -> type_valid m sup \/ sup = WAH_TYPE_BOT ->
  exists r, wah_type_is_subtype sub sup (Some m) = Some r /\ (r = true <-> type_sub m sub sup).
Proof. intros WF. by apply wah_type_is_subtype_correct. Qed.

(** Two references have a common supertype. *)
Definition joinable (m : wah_module_t) (a b : wah_type_t) : Prop :=
  exists c, heap_valid m c /\ heap_sub m (WAH_TYPE_AS_NON_NULL a) c /\ heap_sub m (WAH_TYPE_AS_NON_NULL b) c.

(** [wah_type_hierarchy_top] is the largest supertype of a reference type: it is
    above the type, and two references get the same top exactly when they have a
    common supertype at all, which is what the casts are checked with. *)
Theorem wah_type_hierarchy_top_spec m a b :
  types_wf m -> type_valid m a -> WAH_TYPE_IS_REF a = true -> type_valid m b -> WAH_TYPE_IS_REF b = true ->
  heap_sub m (WAH_TYPE_AS_NON_NULL a) (wah_type_hierarchy_top a (Some m)) /\
  (wah_type_hierarchy_top a (Some m) = wah_type_hierarchy_top b (Some m) <-> joinable m a b).
Proof.
  intros WF Va Ra Vb Rb.
  pose proof (type_valid_heap m a Va Ra) as Ha. pose proof (type_valid_heap m b Vb Rb) as Hb.
  destruct (top_above m WF _ Ha) as [Hta Hsa]. destruct (top_above m WF _ Hb) as [Htb Hsb].
  rewrite top_non_null in *. split; [done|]. split.
  - intros E. exists (wah_type_hierarchy_top a (Some m)). split_and!; [done..|]. by rewrite E.
  - intros (c & Hc & H1 & H2). rewrite <- (top_non_null m a), <- (top_non_null m b).
    rewrite (top_preserved m WF _ _ Ha H1). symmetry. by apply top_preserved.
Qed.

(** C23. The run-time check of casts, of an object's layout against a concrete type,
    agrees with static subtyping: it succeeds exactly when the object's type is a
    subtype of the target by the declarative rules. *)
Theorem wah_type_accepts_repr_spec m typeidx repr_id :
  types_wf m -> repr_id <= INT32_MAX -> 0 <= typeidx ->
  (forall info, zget (repr_infos m) repr_id = Some info -> 0 <= repr_typeidx info < type_count m) ->
  exists b, wah_type_accepts_repr m typeidx repr_id = Some b /\
    (b = true <-> exists info, zget (repr_infos m) repr_id = Some info /\ typeidx < type_count m /\
       heap_sub m (WAH_TYPE_FROM_IDX (repr_typeidx info) false) (WAH_TYPE_FROM_IDX typeidx false)).
Proof.
  intros WF Hr Ht Hi. destruct (wah_type_accepts_repr_correct m WF typeidx repr_id Hr Ht Hi) as (b & Eb & Hb).
  exists b. split; [done|]. rewrite Hb. split; intros (info & E & Hty & H); exists info; (split; [done|]; split; [done|]).
  - apply (conc_sub_heap m WF); [by apply Hi|lia|done].
  - destruct (type_index m WF (repr_typeidx info) (Hi info E)) as (H0 & E0 & V0).
    destruct (type_index m WF typeidx ltac:(lia)) as (H1 & E1 & V1).
    destruct (heap_sub_alg m WF _ _ H V0) as [_ Hal]. unfold alg in Hal.
    rewrite (proj2 (Z.leb_le _ _) H0), (proj2 (Z.leb_le _ _) H1), E0, E1 in Hal. exact Hal.
Qed.

(** An open struct type, a subtype of it, a copy of the latter with its own recursion
    group, and a function type. *)
Definition example_types : wah_module_t :=
  let td k sup start := TypeDef k false false sup [] [] start 1 in
  Module [FuncType [] []; FuncType [] []; FuncType [] []; FuncType [] []]
    [td WAH_COMP_STRUCT WAH_NO_SUPERTYPE 0; td WAH_COMP_STRUCT 0 1; td WAH_COMP_STRUCT 0 2;
     td WAH_COMP_FUNC WAH_NO_SUPERTYPE 3]
    (Some [0; 1; 1; 3]) (Some [0; 1; 2; -64])
    [ReprInfo WAH_REPR_STRUCT 0 0 []; ReprInfo WAH_REPR_STRUCT 1 0 []; ReprInfo WAH_REPR_STRUCT 2 0 []]
    (FeatureState 0 0).

Lemma wah_type_is_subtype_spec_witness :
  type_sub example_types (WAH_TYPE_FROM_IDX 2 false) (WAH_TYPE_FROM_IDX 1 true) /\
  ~ type_sub example_types (WAH_TYPE_FROM_IDX 3 false) WAH_TYPE_ANYREF.
Proof.
  assert (types_wf example_types) as WF by (apply types_wf_b_correct; vm_compute; reflexivity).
  split.
  - destruct (wah_type_is_subtype_spec example_types (WAH_TYPE_FROM_IDX 2 false) (WAH_TYPE_FROM_IDX 1 true) WF)
      as (r & E & H); [left; right; right; split; vm_compute; try split; congruence..|].
    apply H. vm_compute in E. congruence.
  - destruct (wah_type_is_subtype_spec example_types (WAH_TYPE_FROM_IDX 3 false) WAH_TYPE_ANYREF WF)
      as (r & E & H); [left; right; right; split; vm_compute; try split; congruence
                      |left; right; left; vm_compute; split; congruence|].
    intros Hs. apply H in Hs. vm_compute in E. congruence.
Defined.

Lemma wah_type_hierarchy_top_spec_witness : joinable example_types (WAH_TYPE_FROM_IDX 2 false) WAH_TYPE_I31REF.
Proof.
  refine (proj1 (proj2 (wah_type_hierarchy_top_spec example_types (WAH_TYPE_FROM_IDX 2 false) WAH_TYPE_I31REF _ _ _ _ _)) _).
  - apply types_wf_b_correct. vm_compute. reflexivity.
  - right; right; split; vm_compute; try split; congruence.
  - reflexivity.
  - right; left; vm_compute; split; congruence.
  - reflexivity.
  - vm_compute. reflexivity.
Defined.

Lemma wah_type_accepts_repr_spec_witness :
  heap_sub example_types (WAH_TYPE_FROM_IDX 2 false) (WAH_TYPE_FROM_IDX 0 false).
Proof.
  destruct (wah_type_accepts_repr_spec example_types 0 2) as (b & E & H).
  - apply types_wf_b_correct. vm_compute. reflexivity.
  - vm_compute. congruence.
  - lia.
  - intros info E. vm_compute in E. injection E as <-. vm_compute. split; congruence.
  - assert (b = true) as Hb by (vm_compute in E; congruence).
    apply H in Hb as (info & Ei & _ & Hs). vm_compute in Ei. injection Ei as <-. exact Hs.
Defined.
