(* ===== verification/RecGroups.v ===== *)
(** * Canonicalisation of recursion groups

    Structural equality of types, the hash of recursion groups and the search for
    canonical groups in [wah_module_build_type_metadata] (wah.h): groups are sorted by
    hash and each is compared with the run of equal hashes.  The theorems show that
    this computes exactly the iso-recursive equivalence of the specification. *)

From S2P Require Import Prelude Base Types Subtype.
From stdpp Require Import list relations sets.
#[local] Open Scope Z_scope.

(** ** Definitions

    [None] is an access outside an array (or an uninitialised hash). *)

Definition wah_canonicalize_type_ref (t : wah_type_t) (rec_start rec_size : Z) (cm : list Z)
    (tcount : Z) : option wah_type_t :=
  if t <? 0 then Some t
  else
    let idx := WAH_TYIDX t in
    if (rec_start <=? idx) && (idx <? u32 (rec_start + rec_size)) then Some t
    else if tcount <=? idx then Some t
    else c ← zget cm idx; Some (WAH_TYPE_FROM_IDX c (WAH_TYPE_IS_NULLABLE t)).

Definition wah_canon_ref_eq (ta rga_s rga_n tb rgb_s rgb_n : Z) : bool :=
  if negb (Bool.eqb (WAH_TYPE_IS_NULLABLE ta) (WAH_TYPE_IS_NULLABLE tb)) then false
  else
    let ia := WAH_TYIDX ta in
    let ib := WAH_TYIDX tb in
    let a_in := (0 <=? ta) && (rga_s <=? ia) && (ia <? u32 (rga_s + rga_n)) in
    let b_in := (0 <=? tb) && (rgb_s <=? ib) && (ib <? u32 (rgb_s + rgb_n)) in
    if a_in && b_in then u32 (ia - rga_s) =? u32 (ib - rgb_s)
    else if negb (Bool.eqb a_in b_in) then false
    else ta =? tb.

Section Equality.
Context (m : wah_module_t) (cm : list Z).

(** The two references of one comparison in [wah_types_structurally_equal]. *)
Definition canon_pair_eq (rga_s rga_n rgb_s rgb_n : Z) (ta tb : wah_type_t) : option bool :=
  ca ← wah_canonicalize_type_ref ta rga_s rga_n cm (type_count m);
  cb ← wah_canonicalize_type_ref tb rgb_s rgb_n cm (type_count m);
  Some (wah_canon_ref_eq ca rga_s rga_n cb rgb_s rgb_n).

(** The loops over [param_types] and [result_types], of equal counts. *)
Fixpoint refs_equal (eq : wah_type_t -> wah_type_t -> option bool) (la lb : list wah_type_t)
    : option bool :=
  match la, lb with
  | [], _ => Some true
  | _ :: _, [] => None
  | ta :: la', tb :: lb' =>
      b ← eq ta tb; if b : bool then refs_equal eq la' lb' else Some false
  end.

(** The loop over the fields. *)
Fixpoint fields_equal (eq : wah_type_t -> wah_type_t -> option bool)
    (la lb : list wah_type_t) (ma mb : list bool) : option bool :=
  match la with
  | [] => Some true
  | ta :: la' =>
      match lb, ma, mb with
      | tb :: lb', xa :: ma', xb :: mb' =>
          b ← eq ta tb;
          if b : bool then
            if Bool.eqb xa xb then fields_equal eq la' lb' ma' mb' else Some false
          else Some false
      | _, _, _ => None
      end
  end.

Definition wah_types_structurally_equal (a b : Z) : option bool :=
  td_a ← zget (type_defs m) a;
  td_b ← zget (type_defs m) b;
  if negb (comp_kind_eqb (kind td_a) (kind td_b)) then Some false
  else if negb (Bool.eqb (is_final td_a) (is_final td_b)) then Some false
  else
    let eq := canon_pair_eq (rec_group_start td_a) (rec_group_size td_a)
                            (rec_group_start td_b) (rec_group_size td_b) in
    supers ←
      (if supertype td_a =? WAH_NO_SUPERTYPE then Some (supertype td_b =? WAH_NO_SUPERTYPE)
       else if supertype td_b =? WAH_NO_SUPERTYPE then Some false
       else eq (WAH_TYPE_FROM_IDX (supertype td_a) false) (WAH_TYPE_FROM_IDX (supertype td_b) false));
    if negb supers then Some false
    else if comp_kind_eqb (kind td_a) WAH_COMP_FUNC then
      ft_a ← zget (types m) a;
      ft_b ← zget (types m) b;
      if negb (zlen (param_types ft_a) =? zlen (param_types ft_b)) then Some false
      else if negb (zlen (result_types ft_a) =? zlen (result_types ft_b)) then Some false
      else
        ps ← refs_equal eq (param_types ft_a) (param_types ft_b);
        if negb ps then Some false else refs_equal eq (result_types ft_a) (result_types ft_b)
    else if negb (zlen (field_types td_a) =? zlen (field_types td_b)) then Some false
    else fields_equal eq (field_types td_a) (field_types td_b) (field_mutables td_a) (field_mutables td_b).

(** [for (m = 0; m < rg_size_i && match; ++m)]. *)
Fixpoint groups_match_from (n : nat) (i j k : Z) : option bool :=
  match n with
  | O => Some true
  | S n' =>
      b ← wah_types_structurally_equal (i + k) (j + k);
      if b : bool then groups_match_from n' i j (k + 1) else Some false
  end.
Definition groups_match (size i j : Z) : option bool := groups_match_from (Z.to_nat size) i j 0.
End Equality.

(** *** Hashes *)

Definition wah_rec_group_hash_mix (h v : Z) : Z :=
  let h := u64 (h + u64 (v + 0x9e3779b97f4a7c15)) in
  let h := u64 (Z.lxor h (Z.shiftr h 30) * 0xbf58476d1ce4e5b9) in
  let h := u64 (Z.lxor h (Z.shiftr h 27) * 0x94d049bb133111eb) in
  Z.lxor h (Z.shiftr h 31).

(** [group_hashes]: [None] is an element that was not written yet. *)
Definition wah_rec_group_hash_type (m : wah_module_t) (h : Z) (t : wah_type_t)
    (rg_start rg_size : Z) (group_hashes : list (option Z)) : option Z :=
  if t <? 0 then Some (wah_rec_group_hash_mix (wah_rec_group_hash_mix h 0) (u32 t))
  else
    let idx := WAH_TYIDX t in
    let nullable := b2z (WAH_TYPE_IS_NULLABLE t) in
    if (rg_start <=? idx) && (idx <? u32 (rg_start + rg_size)) then
      Some (wah_rec_group_hash_mix (wah_rec_group_hash_mix h 1)
              (Z.lor (u64 (Z.shiftl (u32 (idx - rg_start)) 1)) nullable))
    else
      td ← zget (type_defs m) idx;
      let start := rec_group_start td in
      g ← zget group_hashes start;
      gh ← g;
      let h := wah_rec_group_hash_mix (wah_rec_group_hash_mix h 2) gh in
      Some (wah_rec_group_hash_mix h (Z.lor (u64 (Z.shiftl (u32 (idx - start)) 1)) nullable)).

Section Hash.
Context (m : wah_module_t) (gh : list (option Z)).

Definition hash_refs (rg_start rg_size h : Z) (ts : list wah_type_t) : option Z :=
  foldM (fun h t => wah_rec_group_hash_type m h t rg_start rg_size gh) h ts.

Fixpoint hash_fields (rg_start rg_size h : Z) (ts : list wah_type_t) (ms : list bool) : option Z :=
  match ts with
  | [] => Some h
  | t :: ts' =>
      match ms with
      | [] => None
      | x :: ms' =>
          h ← wah_rec_group_hash_type m h t rg_start rg_size gh;
          hash_fields rg_start rg_size (wah_rec_group_hash_mix h (b2z x)) ts' ms'
      end
  end.

(** One iteration of the loop of [wah_rec_group_hash]. *)
Definition hash_member (rg_start rg_size h i : Z) : option Z :=
  td ← zget (type_defs m) i;
  let h := wah_rec_group_hash_mix h
    (Z.lor (u64 (Z.shiftl (wah_comp_type_kind_code (kind td)) 1)) (b2z (is_final td))) in
  h ← (if supertype td =? WAH_NO_SUPERTYPE then Some (wah_rec_group_hash_mix h 3)
       else wah_rec_group_hash_type m h (WAH_TYPE_FROM_IDX (supertype td) false) rg_start rg_size gh);
  if comp_kind_eqb (kind td) WAH_COMP_FUNC then
    ft ← zget (types m) i;
    let h := wah_rec_group_hash_mix h
      (Z.lor (u64 (Z.shiftl (zlen (param_types ft)) 32)) (zlen (result_types ft))) in
    h ← hash_refs rg_start rg_size h (param_types ft);
    hash_refs rg_start rg_size h (result_types ft)
  else
    let h := wah_rec_group_hash_mix h (zlen (field_types td)) in
    hash_fields rg_start rg_size h (field_types td) (field_mutables td).

Definition wah_rec_group_hash (rg_start : Z) : option Z :=
  td ← zget (type_defs m) rg_start;
  let rg_size := rec_group_size td in
  let h := wah_rec_group_hash_mix 0 rg_size in
  foldM (hash_member rg_start rg_size) h (zrange rg_start (u32 (rg_start + rg_size))).
End Hash.

(** *** The canonical map *)

Record wah_rec_group_key_t := GroupKey { key_hash : Z; key_start : Z }.

Definition wah_rec_group_key_cmp (x y : wah_rec_group_key_t) : Z :=
  if negb (key_hash x =? key_hash y) then (if key_hash x <? key_hash y then -1 else 1)
  else if key_start x <? key_start y then -1 else b2z (key_start y <? key_start x).

(** [qsort] with this comparison: the keys are distinct, so that every sorting
    algorithm gives the same array; this one inserts. *)
Fixpoint insert_key (k : wah_rec_group_key_t) (l : list wah_rec_group_key_t) :=
  match l with
  | [] => [k]
  | k' :: l' => if wah_rec_group_key_cmp k k' <=? 0 then k :: l else k' :: insert_key k l'
  end.
Definition qsort_keys (l : list wah_rec_group_key_t) : list wah_rec_group_key_t :=
  foldr insert_key [] l.

Section Canonicalize.
Context (m : wah_module_t).

Definition hash_step (gh : list (option Z)) (i : Z) : option (list (option Z)) :=
  td ← zget (type_defs m) i;
  if negb (i =? rec_group_start td) then Some gh
  else h ← wah_rec_group_hash m gh i; zset gh i (Some h).
Definition group_hashes : option (list (option Z)) :=
  foldM hash_step (replicate (length (type_defs m)) None) (zrange 0 (type_count m)).

Definition key_step (gh : list (option Z)) (keys : list wah_rec_group_key_t) (i : Z)
    : option (list wah_rec_group_key_t) :=
  td ← zget (type_defs m) i;
  if negb (i =? rec_group_start td) then Some keys
  else g ← zget gh i; h ← g; Some (keys ++ [GroupKey h i]).
Definition group_keys (gh : list (option Z)) : option (list wah_rec_group_key_t) :=
  qsort_keys <$> foldM (key_step gh) [] (zrange 0 (type_count m)).

(** [while (lo < hi)]. *)
Fixpoint lower_bound (fuel : nat) (keys : list wah_rec_group_key_t) (h lo hi : Z) : option Z :=
  match fuel with
  | O => None
  | S fuel' =>
      if negb (lo <? hi) then Some lo
      else
        let mid := lo + (hi - lo) / 2 in
        key ← zget keys mid;
        if key_hash key <? h then lower_bound fuel' keys h (mid + 1) hi
        else lower_bound fuel' keys h lo mid
  end.

(** [for (m = 0; m < rg_size_i; ++m) canonical_map[i + m] = j + m]. *)
Definition set_canonical (cm : list Z) (size i j : Z) : option (list Z) :=
  foldM (fun cm k => zset cm (i + k) (j + k)) cm (zrange 0 size).

(** The scan of the run of equal hashes, from index [k]. *)
Fixpoint scan_run (fuel : nat) (keys : list wah_rec_group_key_t) (cm : list Z) (i size h k : Z)
    : option (list Z) :=
  match fuel with
  | O => None
  | S fuel' =>
      if negb (k <? zlen keys) then Some cm
      else
        key ← zget keys k;
        if negb ((key_hash key =? h) && (key_start key <? i)) then Some cm
        else
          let j := key_start key in
          c ← zget cm j;
          td ← zget (type_defs m) j;
          if negb (c =? j) || negb (rec_group_size td =? size) then
            scan_run fuel' keys cm i size h (k + 1)
          else
            ok ← groups_match m cm size i j;
            if ok : bool then set_canonical cm size i j
            else scan_run fuel' keys cm i size h (k + 1)
  end.

Definition canonicalize_step (gh : list (option Z)) (keys : list wah_rec_group_key_t)
    (cm : list Z) (i : Z) : option (list Z) :=
  td ← zget (type_defs m) i;
  if negb (i =? rec_group_start td) then Some cm
  else
    g ← zget gh i;
    h ← g;
    lo ← lower_bound (S (length keys)) keys h 0 (zlen keys);
    scan_run (S (length keys)) keys cm i (rec_group_size td) h lo.

(** The part of [wah_module_build_type_metadata] that fills [canonical_map]. *)
Definition build_canonical_map : option (list Z) :=
  gh ← group_hashes;
  keys ← group_keys gh;
  foldM (canonicalize_step gh keys) (zrange 0 (type_count m)) (zrange 0 (type_count m)).
End Canonicalize.

(** *** Iso-recursive equivalence

    [group_eq i j]: the recursion groups that start at [i] and [j] define the same
    types: they have equally many members, and corresponding members are alike, with
    references inside the group by position and references to earlier groups up to
    equivalence of these groups. *)

Section Spec.
Context (m : wah_module_t).

Definition start_of (i : Z) : Z := default 0 (rec_group_start <$> zget (type_defs m) i).
Definition size_of (i : Z) : Z := default 0 (rec_group_size <$> zget (type_defs m) i).
Definition is_start (i : Z) : Prop := 0 <= i < type_count m /\ start_of i = i.
Definition in_group (i idx : Z) : Prop := i <= idx < i + size_of i.

(** References of groups [i] and [j], with earlier groups related by [G]. *)
Definition ref_rel (G : Z -> Z -> Prop) (i j : Z) (ta tb : wah_type_t) : Prop :=
  (ta < 0 /\ ta = tb) \/
  (0 <= ta /\ 0 <= tb /\ WAH_TYPE_IS_NULLABLE ta = WAH_TYPE_IS_NULLABLE tb /\
   let a := WAH_TYIDX ta in let b := WAH_TYIDX tb in
   ((in_group i a /\ in_group j b /\ a - i = b - j) \/
    (~ in_group i a /\ ~ in_group j b /\ a - start_of a = b - start_of b /\ G (start_of a) (start_of b)))).

(** The definitions [tda] of [a] and [tdb] of [b] are alike, with their references
    related by [R]. *)
Definition def_rel (R : wah_type_t -> wah_type_t -> Prop) (a b : Z) (tda tdb : wah_type_def_t) : Prop :=
  kind tda = kind tdb /\ is_final tda = is_final tdb /\
  ((supertype tda = WAH_NO_SUPERTYPE /\ supertype tdb = WAH_NO_SUPERTYPE) \/
   (supertype tda <> WAH_NO_SUPERTYPE /\ supertype tdb <> WAH_NO_SUPERTYPE /\
    R (WAH_TYPE_FROM_IDX (supertype tda) false) (WAH_TYPE_FROM_IDX (supertype tdb) false))) /\
  (kind tda = WAH_COMP_FUNC ->
   exists fa fb, zget (types m) a = Some fa /\ zget (types m) b = Some fb /\
     Forall2 R (param_types fa) (param_types fb) /\ Forall2 R (result_types fa) (result_types fb)) /\
  (kind tda <> WAH_COMP_FUNC ->
   Forall2 R (field_types tda) (field_types tdb) /\ field_mutables tda = field_mutables tdb).

Definition type_rel (R : wah_type_t -> wah_type_t -> Prop) (a b : Z) : Prop :=
  exists tda tdb, type_at m a tda /\ type_at m b tdb /\ def_rel R a b tda tdb.

Inductive group_eq (i j : Z) : Prop :=
| group_eq_intro :
    size_of i = size_of j ->
    (forall k, 0 <= k < size_of i -> type_rel (ref_rel group_eq i j) (i + k) (j + k)) ->
    group_eq i j.

(** Two types are equivalent: same position in equivalent groups. *)
Definition type_equiv (a b : Z) : Prop :=
  group_eq (start_of a) (start_of b) /\ a - start_of a = b - start_of b.

(** The references of a type definition. *)
Definition refs_of (i : Z) (td : wah_type_def_t) (t : wah_type_t) : Prop :=
  (supertype td <> WAH_NO_SUPERTYPE /\ t = WAH_TYPE_FROM_IDX (supertype td) false) \/
  (kind td = WAH_COMP_FUNC /\
   exists ft, zget (types m) i = Some ft /\ (t ∈ param_types ft \/ t ∈ result_types ft)) \/
  (kind td <> WAH_COMP_FUNC /\ t ∈ field_types td).

(** What the type section parser establishes before the map is built. *)
Record groups_wf : Prop := {
  gw_count : type_count m <= WAH_MAX_TYPE_INDEX + 1;
  gw_types : zlen (types m) = type_count m;
  gw_group : forall i td, type_at m i td ->
    0 <= rec_group_start td <= i /\ i < rec_group_start td + rec_group_size td <= type_count m /\
    forall k, rec_group_start td <= k < rec_group_start td + rec_group_size td ->
      exists td', type_at m k td' /\ rec_group_start td' = rec_group_start td /\
                  rec_group_size td' = rec_group_size td;
  gw_super : forall i td, type_at m i td -> supertype td <> WAH_NO_SUPERTYPE -> 0 <= supertype td < i;
  gw_refs : forall i td t, type_at m i td -> refs_of i td t -> 0 <= t ->
    t < 2 ^ 31 /\ WAH_TYIDX t < rec_group_start td + rec_group_size td;
  gw_mutables : forall i td, type_at m i td -> length (field_mutables td) = length (field_types td) }.

(** ** Theorems *)

Context (WF : groups_wf).

Lemma start_size_at i td : type_at m i td -> start_of i = rec_group_start td /\ size_of i = rec_group_size td.
Proof. unfold type_at, start_of, size_of. by intros ->. Qed.

(** The arithmetic of groups. *)
Lemma group_range i : 0 <= i < type_count m ->
  0 <= start_of i <= i /\ i < start_of i + size_of i <= type_count m.
Proof.
  intros Hi. destruct (type_at_exists m i Hi) as [td Ht]. destruct (start_size_at i td Ht) as [-> ->].
  pose proof (gw_group WF _ _ Ht). lia.
Qed.

Lemma group_member i k : 0 <= i < type_count m -> start_of i <= k < start_of i + size_of i ->
  start_of k = start_of i /\ size_of k = size_of i.
Proof.
  intros Hi Hk. destruct (type_at_exists m i Hi) as [td Ht]. destruct (start_size_at i td Ht) as [E1 E2].
  rewrite E1, E2 in *. destruct (gw_group WF _ _ Ht) as (_ & _ & H).
  destruct (H k Hk) as (td' & Ht' & E3 & E4). destruct (start_size_at k td' Ht') as [-> ->]. done.
Qed.

Lemma start_is_start i : 0 <= i < type_count m -> is_start (start_of i) /\ size_of (start_of i) = size_of i.
Proof.
  intros Hi. pose proof (group_range i Hi). destruct (group_member i (start_of i) Hi); [lia|].
  split; [split; [lia|done]|done].
Qed.

Lemma start_member i k : is_start i -> 0 <= k < size_of i ->
  0 <= i + k < type_count m /\ start_of (i + k) = i /\ size_of (i + k) = size_of i.
Proof.
  intros [Hi Es] Hk. pose proof (group_range i Hi). rewrite Es in *.
  destruct (group_member i (i + k) Hi) as [H1 H2]; [lia|]. rewrite Es in H1. split; [lia|done].
Qed.

Lemma group_bound i : is_start i -> 0 < size_of i /\ i + size_of i <= type_count m < 2 ^ 31.
Proof.
  intros [Hi Es]. pose proof (group_range i Hi). rewrite Es in *. pose proof (gw_count WF) as Hc.
  rewrite max_type_index in Hc. lia.
Qed.

(** References go to the group itself or to an earlier one. *)
Lemma ref_cases i k td t : is_start i -> 0 <= k < size_of i -> type_at m (i + k) td ->
  refs_of (i + k) td t -> 0 <= t ->
  0 <= WAH_TYIDX t < i + size_of i /\ t < 2 ^ 31 /\
  (~ in_group i (WAH_TYIDX t) -> WAH_TYIDX t < i /\ start_of (WAH_TYIDX t) < i /\ is_start (start_of (WAH_TYIDX t))).
Proof.
  intros Hi Hk Ht Hr H0. destruct (gw_refs WF _ _ _ Ht Hr H0) as [H1 H2].
  destruct (start_size_at _ _ Ht) as [E1 E2]. destruct (start_member i k Hi Hk) as (_ & E3 & E4).
  pose proof (tyidx_bound t ltac:(lia)) as Hb. pose proof (group_bound i Hi).
  assert (WAH_TYIDX t < i + size_of i) by (rewrite <- E1, <- E2, E3, E4 in H2; done).
  split; [lia|]. split; [done|]. unfold in_group. intros Hn.
  destruct (group_range (WAH_TYIDX t)) as [Hs _]; [lia|].
  destruct (start_is_start (WAH_TYIDX t)) as [Hss _]; [lia|]. split; [lia|]. split; [lia|done].
Qed.

(** *** Relations between types *)

Lemma Forall2_impl_in {A B} (P Q : A -> B -> Prop) l k :
  (forall x y, x ∈ l -> y ∈ k -> P x y -> Q x y) -> Forall2 P l k -> Forall2 Q l k.
Proof.
  intros H HF. induction HF as [|x y l k Hxy HF IH]; constructor; [apply H; (done || by left)|].
  apply IH. intros x' y' Hx Hy. apply H; by right.
Qed.

Lemma Forall2_trans_in {A B C} (P : A -> B -> Prop) (Q : B -> C -> Prop) (R : A -> C -> Prop) l k n :
  (forall x y z, x ∈ l -> y ∈ k -> z ∈ n -> P x y -> Q y z -> R x z) ->
  Forall2 P l k -> Forall2 Q k n -> Forall2 R l n.
Proof.
  intros H HF. revert n H. induction HF as [|x y l k Hxy HF IH]; intros n H HG; inv HG; constructor.
  - eapply (H x y); (done || by left).
  - apply IH; [|done]. intros x' y' z' Hx Hy Hz. apply H; by right.
Qed.

Lemma Forall2_refl_in {A} (R : A -> A -> Prop) l : (forall x, x ∈ l -> R x x) -> Forall2 R l l.
Proof.
  induction l as [|x l IH]; intros H; constructor; [apply H; by left|].
  apply IH. intros y Hy. apply H. by right.
Qed.

Lemma type_rel_impl R R' a b :
  (forall tda tdb ta tb, type_at m a tda -> type_at m b tdb -> refs_of a tda ta -> refs_of b tdb tb ->
     R ta tb -> R' ta tb) ->
  type_rel R a b -> type_rel R' a b.
Proof.
  intros H (tda & tdb & Ha & Hb & Hk & Hf & Hs & Hfun & Hfld). specialize (H tda tdb).
  exists tda, tdb. unfold def_rel. split_and!; try done.
  - destruct Hs as [Hs|(S1 & S2 & S3)]; [by left|right]. split_and!; try done.
    apply H; try done; left; done.
  - intros Hk'. destruct (Hfun Hk') as (fa & fb & Fa & Fb & F1 & F2).
    exists fa, fb. split_and!; try done;
      (eapply Forall2_impl_in; [|done]); intros x y Hx Hy; apply H; try done; right; left;
      (split; [congruence|]); eexists; (split; [done|]); auto.
  - intros Hk'. destruct (Hfld Hk') as [F1 F2]. split; [|done].
    eapply Forall2_impl_in; [|done]. intros x y Hx Hy. apply H; try done; right; right; (split; [congruence|done]).
Qed.

Lemma type_rel_sym R R' a b :
  (forall ta tb, R ta tb -> R' tb ta) -> type_rel R a b -> type_rel R' b a.
Proof.
  intros H (tda & tdb & Ha & Hb & Hk & Hf & Hs & Hfun & Hfld).
  exists tdb, tda. unfold def_rel. split_and!; try done.
  - destruct Hs as [[? ?]|(S1 & S2 & S3)]; [by left|right]. split_and!; try done. by apply H.
  - intros Hk'. destruct Hfun as (fa & fb & Fa & Fb & F1 & F2); [congruence|].
    exists fb, fa. split_and!; try done; apply Forall2_flip; eapply Forall2_impl; try done; intros; by apply H.
  - intros Hk'. destruct Hfld as [F1 F2]; [congruence|]. split; [|done].
    apply Forall2_flip; eapply Forall2_impl; try done; intros; by apply H.
Qed.

Lemma type_rel_trans R1 R2 R3 a b c :
  (forall tda tdb tdc ta tb tc, type_at m a tda -> type_at m b tdb -> type_at m c tdc ->
     refs_of a tda ta -> refs_of b tdb tb -> refs_of c tdc tc -> R1 ta tb -> R2 tb tc -> R3 ta tc) ->
  type_rel R1 a b -> type_rel R2 b c -> type_rel R3 a c.
Proof.
  intros H (tda & tdb & Ha & Hb & Hk & Hf & Hs & Hfun & Hfld)
    (tdb' & tdc & Hb' & Hc & Hk' & Hf' & Hs' & Hfun' & Hfld').
  unfold type_at in Hb, Hb'. simplify_eq. specialize (H tda tdb tdc).
  exists tda, tdc. unfold def_rel. split_and!; try done; try congruence.
  - destruct Hs as [[? ?]|(S1 & S2 & S3)], Hs' as [[? ?]|(S1' & S2' & S3')]; try done; [by left|right].
    split_and!; try done. eapply H; try done; left; done.
  - intros Hk1. destruct (Hfun Hk1) as (fa & fb & Fa & Fb & F1 & F2).
    destruct Hfun' as (fb' & fc & Fb' & Fc & F1' & F2'); [congruence|]. simplify_eq.
    exists fa, fc. split_and!; try done; (eapply Forall2_trans_in; [|done|done]);
      intros x y z Hx Hy Hz; apply H; try done; right; left; (split; [congruence|]);
      eexists; (split; [done|]); auto.
  - intros Hk1. destruct (Hfld Hk1) as [F1 F2]. destruct Hfld' as [F1' F2']; [congruence|].
    split; [|congruence]. eapply Forall2_trans_in; [|done|done].
    intros x y z Hx Hy Hz. apply H; try done; right; right; (split; [congruence|done]).
Qed.

Lemma type_rel_refl R a : 0 <= a < type_count m ->
  (forall td t, type_at m a td -> refs_of a td t -> R t t) -> type_rel R a a.
Proof.
  intros Ha H. destruct (type_at_exists m a Ha) as [td Ht]. specialize (H td).
  exists td, td. unfold def_rel. split_and!; try done.
  - destruct (decide (supertype td = WAH_NO_SUPERTYPE)); [by left|right]. split_and!; try done. apply H; [done|by left].
  - intros Hk. destruct (zget_is_Some (types m) a) as [ft Hft]; [rewrite (gw_types WF); done|].
    exists ft, ft. split_and!; try done; apply Forall2_refl_in; intros x Hx; apply H; try done;
      right; left; (split; [done|]); exists ft; auto.
  - intros Hk. split; [|done]. apply Forall2_refl_in. intros x Hx. apply H; [done|]. right; right. done.
Qed.

(** *** Equivalence of groups *)

Lemma type_rel_self G i : is_start i -> (forall s, is_start s -> s < i -> G s s) ->
  forall k, 0 <= k < size_of i -> type_rel (ref_rel G i i) (i + k) (i + k).
Proof.
  intros Hi HG k Hk. destruct (start_member i k Hi Hk) as (H1 & _ & _).
  apply type_rel_refl; [done|]. intros td t Ht Hr.
  destruct (Z.ltb_spec t 0); [by left|right]. split_and!; try done. cbv zeta.
  destruct (ref_cases i k td t Hi Hk Ht Hr ltac:(done)) as (H2 & H3 & H4).
  destruct (decide (i <= WAH_TYIDX t)) as [Hin|Hout].
  - left. unfold in_group. lia.
  - right. unfold in_group. split_and!; try lia. destruct H4 as (H5 & H6 & H7); [unfold in_group; lia|].
    by apply HG.
Qed.

Lemma group_eq_refl i : is_start i -> group_eq i i.
Proof.
  intros Hi. destruct Hi as [H0 Es]. revert i H0 Es.
  refine (well_founded_induction (Z.lt_wf 0) _ _). intros i IH H0 Es.
  constructor; [done|]. apply type_rel_self; [done|]. intros s [Hs Es'] Hlt. apply IH; [lia|done..].
Qed.

Lemma ref_rel_flip G i j ta tb : ref_rel (fun s t => G t s) i j ta tb -> ref_rel G j i tb ta.
Proof.
  intros [[? ->]|(H1 & H2 & H3 & H)]; [by left|right]. split_and!; try done. cbv zeta in *.
  destruct H as [(?&?&?)|(?&?&?&?)]; [left|right]; split_and!; try done; lia.
Qed.

Lemma group_eq_sym i : is_start i -> forall j, group_eq i j -> group_eq j i.
Proof.
  intros [H0 Es]. revert i H0 Es.
  refine (well_founded_induction (Z.lt_wf 0) _ _). intros i IH H0 Es j [Hsz H]. assert (is_start i) as Hi by done.
  constructor; [done|]. intros k Hk. rewrite <- Hsz in Hk.
  apply (type_rel_sym (ref_rel (fun s t => group_eq t s) i j)); [by apply ref_rel_flip|].
  eapply type_rel_impl; [|by apply H]. intros tda tdb ta tb Ha Hb Ra Rb.
  intros [?|(H1 & H2 & H3 & [Hin|(Ha' & Hb' & Ho & HG)])]; [by left|right; split_and!; try done; by left|].
  right. split_and!; try done. right. split_and!; try done.
  destruct (ref_cases i k tda ta Hi Hk Ha Ra H1) as (_ & _ & H4). destruct (H4 Ha') as (H5 & H6 & [H7 H8]).
  apply IH; (done || lia).
Qed.

Lemma group_eq_trans i : is_start i -> forall j k, group_eq i j -> group_eq j k -> group_eq i k.
Proof.
  intros [H0 Es]. revert i H0 Es.
  refine (well_founded_induction (Z.lt_wf 0) _ _). intros i IH H0 Es j l [Hsz H] [Hsz' H']. assert (is_start i) as Hi by done.
  constructor; [congruence|]. intros k Hk.
  eapply type_rel_trans; [|by apply H|by apply H'; rewrite <- Hsz].
  intros tda tdb tdc ta tb tc Ha Hb Hc Ra Rb Rc.
  intros [[? ->]|(H1 & H2 & H3 & Hab)] [[? ->]|(H1' & H2' & H3' & Hbc)]; try lia; [by left|right].
  split_and!; try done; [congruence|]. cbv zeta in *.
  destruct Hab as [(Ia & Ib & Eab)|(Na & Nb & Eab & Gab)], Hbc as [(Ib' & Ic & Ebc)|(Nb' & Nc & Ebc & Gbc)];
    try contradiction; [left; split_and!; try done; lia|right]. split_and!; try done; [lia|].
  destruct (ref_cases i k tda ta Hi Hk Ha Ra H1) as (_ & _ & H4). destruct (H4 Na) as (H5 & H6 & [H7 H8]).
  eapply IH; (done || lia).
Qed.

(** *** Equal groups have equal hashes *)

Section HashRel.
Context (gh1 gh2 : list (option Z)).

Definition hash_rel (s t : Z) : Prop :=
  exists h, zget gh1 s = Some (Some h) /\ zget gh2 t = Some (Some h).

(** Two references are hashed alike. *)
Definition hash_alike (i j n : Z) (ta tb : wah_type_t) : Prop := forall h, exists r,
  wah_rec_group_hash_type m h ta i n gh1 = Some r /\ wah_rec_group_hash_type m h tb j n gh2 = Some r.

Lemma in_group_test i idx : is_start i ->
  (i <=? idx) && (idx <? u32 (i + size_of i)) = true <-> in_group i idx.
Proof.
  intros Hi. pose proof (group_bound i Hi). destruct Hi as [Hi _].
  unfold in_group. rewrite u32_small by lia. lia.
Qed.

Lemma hash_type_alike i j ta tb : is_start i -> is_start j -> size_of i = size_of j ->
  (0 <= ta -> 0 <= WAH_TYIDX ta < type_count m) -> (0 <= tb -> 0 <= WAH_TYIDX tb < type_count m) ->
  ref_rel hash_rel i j ta tb -> hash_alike i j (size_of i) ta tb.
Proof.
  intros Hi Hj Hsz Ra Rb H h. unfold wah_rec_group_hash_type.
  destruct H as [[Hneg <-]|(H1 & H2 & H3 & H)].
  { rewrite (proj2 (Z.ltb_lt _ _)) by done. eauto. }
  rewrite (proj2 (Z.ltb_ge ta 0)), (proj2 (Z.ltb_ge tb 0)) by done. cbv zeta in *.
  pose proof (in_group_test i (WAH_TYIDX ta) Hi) as Ta. pose proof (in_group_test j (WAH_TYIDX tb) Hj) as Tb.
  rewrite <- Hsz in Tb.
  destruct H as [(Ia & Ib & E)|(Na & Nb & E & r & G1 & G2)].
  - apply Ta in Ia. apply Tb in Ib. rewrite Ia, Ib, H3, E. eexists. split; reflexivity.
  - rewrite (proj1 (not_true_iff_false _) (fun X => Na (proj1 Ta X))),
      (proj1 (not_true_iff_false _) (fun X => Nb (proj1 Tb X))).
    destruct (type_at_exists m _ (Ra H1)) as [tda Hta]. destruct (type_at_exists m _ (Rb H2)) as [tdb Htb].
    destruct (start_size_at _ _ Hta) as [Sa _]. destruct (start_size_at _ _ Htb) as [Sb _].
    unfold type_at in *. rewrite Hta, Htb. cbn [mbind option_bind]. rewrite <- Sa, <- Sb, G1, G2.
    cbn [mbind option_bind]. rewrite H3, E. eexists. split; reflexivity.
Qed.

Lemma hash_refs_alike i j n la lb : Forall2 (hash_alike i j n) la lb -> forall h, exists r,
  hash_refs m gh1 i n h la = Some r /\ hash_refs m gh2 j n h lb = Some r.
Proof.
  unfold hash_refs. induction 1 as [|ta tb la lb Hab _ IH]; intros h; [eauto|].
  simpl. destruct (Hab h) as (r & -> & ->). apply IH.
Qed.

Lemma hash_fields_alike i j n la lb ms : Forall2 (hash_alike i j n) la lb -> length ms = length la ->
  forall h, exists r,
  hash_fields m gh1 i n h la ms = Some r /\ hash_fields m gh2 j n h lb ms = Some r.
Proof.
  intros HF. revert ms. induction HF as [|ta tb la lb Hab _ IH]; intros ms Hl h; [simpl; eauto|].
  destruct ms as [|x ms]; [done|]. simpl. destruct (Hab h) as (r & -> & ->). simpl in *. apply IH. lia.
Qed.

Lemma hash_member_alike i j n a b : type_rel (hash_alike i j n) a b -> forall h, exists r,
  hash_member m gh1 i n h a = Some r /\ hash_member m gh2 j n h b = Some r.
Proof.
  intros (tda & tdb & Ha & Hb & Hk & Hf & Hs & Hfun & Hfld) h. unfold hash_member.
  pose proof (gw_mutables WF _ _ Ha) as Hm. unfold type_at in *. rewrite Ha, Hb. cbn [mbind option_bind].
  rewrite Hk, Hf. set (h0 := wah_rec_group_hash_mix h _). clearbody h0.
  assert (exists r,
    (if supertype tda =? WAH_NO_SUPERTYPE then Some (wah_rec_group_hash_mix h0 3)
     else wah_rec_group_hash_type m h0 (WAH_TYPE_FROM_IDX (supertype tda) false) i n gh1) = Some r /\
    (if supertype tdb =? WAH_NO_SUPERTYPE then Some (wah_rec_group_hash_mix h0 3)
     else wah_rec_group_hash_type m h0 (WAH_TYPE_FROM_IDX (supertype tdb) false) j n gh2) = Some r) as (r & -> & ->).
  { destruct Hs as [[-> ->]|(S1 & S2 & S3)]; [rewrite Z.eqb_refl; eauto|].
    rewrite (proj2 (Z.eqb_neq _ _) S1), (proj2 (Z.eqb_neq _ _) S2). apply S3. }
  cbn [mbind option_bind]. rewrite <- Hk. destruct (comp_kind_eqb (kind tda) WAH_COMP_FUNC) eqn:E.
  - apply comp_kind_eqb_spec in E. destruct (Hfun E) as (fa & fb & -> & -> & F1 & F2). cbn [mbind option_bind].
    unfold zlen. rewrite (Forall2_length _ _ _ F1), (Forall2_length _ _ _ F2).
    destruct (hash_refs_alike _ _ _ _ _ F1 (wah_rec_group_hash_mix r
      (Z.lor (u64 (Z.shiftl (Z.of_nat (length (param_types fb))) 32)) (Z.of_nat (length (result_types fb)))))) as (r1 & -> & ->).
    apply hash_refs_alike, F2.
  - destruct Hfld as [F1 F2]; [intros E'; by rewrite E' in E|].
    unfold zlen. rewrite (Forall2_length _ _ _ F1), F2. apply hash_fields_alike; [done|congruence].
Qed.

Lemma foldM_alike {B} (f g : B -> Z -> option B) i j n : 
  (forall k, 0 <= k < n -> forall h, exists r, f h (i + k) = Some r /\ g h (j + k) = Some r) ->
  forall h, exists r, foldM f h (zrange i (i + n)) = Some r /\ foldM g h (zrange j (j + n)) = Some r.
Proof.
  remember (Z.to_nat n) as c eqn:Ec. revert i j n Ec. induction c as [|c IH]; intros i j n Ec H h.
  { rewrite !zrange_nil by lia. simpl. eauto. }
  rewrite (zrange_cons i), (zrange_cons j) by lia. simpl. destruct (H 0 ltac:(lia) h) as (r & E1 & E2).
  rewrite !Z.add_0_r in *. rewrite E1, E2. simpl.
  replace (i + n) with (i + 1 + (n - 1)) by lia. replace (j + n) with (j + 1 + (n - 1)) by lia.
  apply IH; [lia|]. intros k Hk h'. replace (i + 1 + k) with (i + (k + 1)) by lia.
  replace (j + 1 + k) with (j + (k + 1)) by lia. apply H. lia.
Qed.

(** The hash of a group depends on its equivalence class only, given that this holds
    of the earlier groups it refers to. *)
Lemma group_hash_alike i j : is_start i -> is_start j -> size_of i = size_of j ->
  (forall k, 0 <= k < size_of i -> type_rel (ref_rel hash_rel i j) (i + k) (j + k)) ->
  exists r, wah_rec_group_hash m gh1 i = Some r /\ wah_rec_group_hash m gh2 j = Some r.
Proof.
  intros Hi Hj Hsz H. unfold wah_rec_group_hash.
  destruct (type_at_exists m i (proj1 Hi)) as [tdi Hti]. destruct (type_at_exists m j (proj1 Hj)) as [tdj Htj].
  destruct (start_size_at _ _ Hti) as [_ Si]. destruct (start_size_at _ _ Htj) as [_ Sj].
  unfold type_at in *. rewrite Hti, Htj. cbn [mbind option_bind]. rewrite <- Si, <- Sj, <- Hsz.
  pose proof (group_bound i Hi). pose proof (group_bound j Hj). destruct Hi as [Hi Ei], Hj as [Hj Ej].
  rewrite !u32_small by lia. apply foldM_alike. intros k Hk. apply hash_member_alike.
  eapply type_rel_impl; [|by apply H]. intros tda tdb ta tb Ha Hb Ra Rb Hr.
  assert (is_start i) as Hi' by done. assert (is_start j) as Hj' by done.
  apply hash_type_alike; try done.
  - intros Hta. destruct (ref_cases i k tda ta Hi' Hk Ha Ra Hta) as [? _]. lia.
  - intros Htb. rewrite Hsz in Hk. destruct (ref_cases j k tdb tb Hj' Hk Hb Rb Htb) as [? _]. lia.
Qed.
End HashRel.

(** *** The hashes and the sorted keys *)

Definition hashes_upto (n : Z) (gh : list (option Z)) : Prop :=
  zlen gh = type_count m /\
  forall i, is_start i -> i < n -> exists h, zget gh i = Some (Some h) /\ wah_rec_group_hash m gh i = Some h.

Lemma is_start_dec i td : type_at m i td -> (i =? rec_group_start td) = true <-> is_start i.
Proof.
  intros Ht. destruct (start_size_at _ _ Ht) as [E _]. pose proof (type_at_range m _ _ Ht).
  unfold is_start. rewrite E. lia.
Qed.

Lemma group_hashes_ok : exists gh, group_hashes m = Some gh /\ hashes_upto (type_count m) gh.
Proof.
  unfold group_hashes. apply (foldM_zrange _ hashes_upto); [unfold type_count, zlen; lia| |].
  - split; [unfold zlen, type_count; by rewrite length_replicate|]. intros i [Hi _] Hlt. lia.
  - intros n gh Hn [Hlen Hgh]. unfold hash_step. destruct (type_at_exists m n Hn) as [td Ht].
    pose proof (is_start_dec n td Ht) as Hs. unfold type_at in Ht. rewrite Ht. cbn [mbind option_bind].
    destruct (n =? rec_group_start td); simpl negb; cbv iota.
    + assert (is_start n) as Hst by by apply Hs.
      destruct (group_hash_alike gh gh n n Hst Hst eq_refl) as (h & Hh & _).
      { apply type_rel_self; [done|]. intros s Hss Hlt. destruct (Hgh s Hss Hlt) as (h & Hg & _). by exists h. }
      rewrite Hh. cbn [mbind option_bind]. destruct (zset_is_Some gh n (Some h)) as [gh' Hset]; [lia|].
      rewrite Hset. exists gh'. split; [done|]. split; [by rewrite (zset_length _ _ _ _ Hset)|].
      assert (forall i, zget gh' i = if i =? n then Some (Some h) else zget gh i) as Hget
        by (intros i; apply (zset_lookup _ _ _ _ _ Hset)).
      assert (forall i, is_start i -> i <= n -> forall r, wah_rec_group_hash m gh i = Some r ->
                wah_rec_group_hash m gh' i = Some r) as Hmono.
      { intros i Hi Hle r Hr. destruct (group_hash_alike gh gh' i i Hi Hi eq_refl) as (r' & E1 & E2); [|congruence].
        apply type_rel_self; [done|]. intros s Hss Hlt. destruct (Hgh s Hss ltac:(lia)) as (h' & Hg & _).
        exists h'. split; [done|]. rewrite Hget, (proj2 (Z.eqb_neq _ _)) by lia. done. }
      intros i Hi Hlt. rewrite Hget. destruct (Z.eqb_spec i n) as [->|Hne].
      * exists h. split; [done|]. by apply Hmono.
      * destruct (Hgh i Hi ltac:(lia)) as (h' & Hg & Hr). exists h'. split; [done|]. apply Hmono; (done || lia).
    + exists gh. split; [done|]. split; [done|]. intros i Hi Hlt. apply Hgh; [done|].
      destruct (decide (i = n)) as [->|]; [by apply Hs in Hi|lia].
Qed.

Lemma group_eq_hash gh : hashes_upto (type_count m) gh -> forall i, is_start i -> forall j, is_start j ->
  group_eq i j -> hash_rel gh gh i j.
Proof.
  intros [_ Hgh] i [H0 Es]. revert i H0 Es.
  refine (well_founded_induction (Z.lt_wf 0) _ _). intros i IH H0 Es j Hj [Hsz H]. assert (is_start i) as Hi by done.
  destruct (group_hash_alike gh gh i j Hi Hj Hsz) as (r & E1 & E2).
  - intros k Hk. eapply type_rel_impl; [|by apply H]. intros tda tdb ta tb Ha Hb Ra Rb.
    intros [?|(H1 & H2 & H3 & [Hin|(Na & Nb & Ho & HG)])]; [by left|right; split_and!; try done; by left|].
    right. split_and!; try done. right. split_and!; try done.
    destruct (ref_cases i k tda ta Hi Hk Ha Ra H1) as (_ & _ & H4). destruct (H4 Na) as (H5 & H6 & [H7 H8]).
    rewrite Hsz in Hk. destruct (ref_cases j k tdb tb Hj Hk Hb Rb H2) as (_ & _ & H4'). destruct (H4' Nb) as (_ & _ & H9).
    apply IH; (done || lia).
  - destruct (Hgh i Hi ltac:(lia)) as (h & G1 & R1). destruct (Hgh j Hj (proj2 (proj1 Hj))) as (h' & G2 & R2).
    exists r. split; congruence.
Qed.

(** The order of the sorted array. *)
Definition key_lt (x y : wah_rec_group_key_t) : Prop :=
  key_hash x < key_hash y \/ (key_hash x = key_hash y /\ key_start x < key_start y).

Lemma key_cmp_le x y : wah_rec_group_key_cmp x y <= 0 <-> ~ key_lt y x.
Proof. unfold wah_rec_group_key_cmp, key_lt, b2z. case_bools; lia. Qed.

Definition sorted_keys (l : list wah_rec_group_key_t) : Prop :=
  forall a b x y, (a < b)%nat -> l !! a = Some x -> l !! b = Some y -> key_lt x y.

Lemma key_lt_trans x y z : key_lt x y -> key_lt y z -> key_lt x z.
Proof. unfold key_lt. lia. Qed.

Lemma sorted_keys_cons k l : sorted_keys l -> (forall x, x ∈ l -> key_lt k x) -> sorted_keys (k :: l).
Proof.
  intros Hs Hk [|a] [|b] x y Hab Hx Hy; simpl in *; [lia| |lia|].
  - simplify_eq. apply Hk. by eapply list_elem_of_lookup_2.
  - apply (Hs a b); [lia|done..].
Qed.

Lemma sorted_keys_tail k l : sorted_keys (k :: l) -> sorted_keys l /\ (forall x, x ∈ l -> key_lt k x).
Proof.
  intros H. split.
  - intros a b x y Hab Hx Hy. apply (H (S a) (S b)); [lia|done..].
  - intros x Hx. apply list_elem_of_lookup in Hx as [n Hn]. by apply (H 0%nat (S n)); [lia| |].
Qed.

Lemma insert_key_elem k l x : x ∈ insert_key k l <-> x = k \/ x ∈ l.
Proof.
  induction l as [|k' l IH]; simpl; [set_solver|]. case_bools; [set_solver|].
  rewrite !elem_of_cons, IH. tauto.
Qed.

Lemma insert_key_sorted k l : sorted_keys l -> (forall x, x ∈ l -> key_start x <> key_start k) ->
  sorted_keys (insert_key k l).
Proof.
  induction l as [|k' l IH]; intros Hs Hne; simpl.
  - intros [|a] [|b] x y Hab; simpl; try lia; done.
  - destruct (sorted_keys_tail _ _ Hs) as [Ht Hlt]. destruct (Z.leb_spec (wah_rec_group_key_cmp k k') 0) as [Hle|Hgt].
    + apply key_cmp_le in Hle. apply sorted_keys_cons; [done|]. intros x Hx.
      assert (key_lt k k') as Hkk by (specialize (Hne k' ltac:(by left)); unfold key_lt in *; lia).
      apply elem_of_cons in Hx as [->|Hx]; [done|]. eapply key_lt_trans; [done|by apply Hlt].
    + apply sorted_keys_cons; [apply IH; [done|]; intros x Hx; apply Hne; by right|].
      intros x Hx. apply insert_key_elem in Hx as [->|Hx]; [|by apply Hlt].
      pose proof (key_cmp_le k k'). unfold key_lt in *. specialize (Hne k' ltac:(by left)). lia.
Qed.

Lemma qsort_elem l x : x ∈ qsort_keys l <-> x ∈ l.
Proof. induction l as [|k l IH]; simpl; [done|]. by rewrite insert_key_elem, IH, elem_of_cons. Qed.

Lemma qsort_sorted l : NoDup (key_start <$> l) -> sorted_keys (qsort_keys l).
Proof.
  induction l as [|k l IH]; simpl; [intros _ a b x y _ H; done|].
  intros [Hk Hl]%NoDup_cons. apply insert_key_sorted; [by apply IH|].
  intros x Hx E. apply (proj1 (qsort_elem _ _)) in Hx. apply Hk. rewrite <- E. exact (list_elem_of_fmap_2 key_start l x Hx).
Qed.

Lemma group_keys_ok gh : hashes_upto (type_count m) gh ->
  exists keys, group_keys m gh = Some keys /\ sorted_keys keys /\
    forall k, k ∈ keys <-> is_start (key_start k) /\ zget gh (key_start k) = Some (Some (key_hash k)).
Proof.
  intros [_ Hgh]. unfold group_keys.
  set (I n l := NoDup (key_start <$> l) /\ forall k : wah_rec_group_key_t, k ∈ l <->
    (is_start (key_start k) /\ zget gh (key_start k) = Some (Some (key_hash k))) /\ key_start k < n).
  destruct (foldM_zrange (key_step m gh) I 0 (type_count m) []) as (l & -> & Hnd & Hel).
  - unfold type_count, zlen. lia.
  - split; [constructor|]. intros k. rewrite elem_of_nil. split; [done|]. intros [[[[? ?] ?] ?] ?]. lia.
  - intros n l Hn [Hnd Hel]. unfold key_step. destruct (type_at_exists m n Hn) as [td Ht].
    pose proof (is_start_dec n td Ht) as Hs. unfold type_at in Ht. rewrite Ht. cbn [mbind option_bind].
    destruct (n =? rec_group_start td); simpl negb; cbv iota.
    + assert (is_start n) as Hst by by apply Hs. destruct (Hgh n Hst ltac:(lia)) as (h & Hg & _).
      rewrite Hg. cbn [mbind option_bind]. eexists. split; [done|]. split.
      * rewrite fmap_app. apply NoDup_app. split_and!; [done| |by apply NoDup_singleton].
        intros s Hs1 Hs2. apply list_elem_of_singleton in Hs2. apply list_elem_of_fmap in Hs1 as (k & -> & Hk).
        apply Hel in Hk. simpl in Hs2. lia.
      * intros k. rewrite elem_of_app, list_elem_of_singleton, Hel. split.
        -- intros [[H ?]| ->]; [split; [done|lia]|]. simpl. split; [done|lia].
        -- intros [[H1 H2] H3]. destruct (decide (key_start k = n)) as [E|]; [right|left; split; [done|lia]].
           destruct k as [kh ks]. simpl in *. congruence.
    + exists l. split; [done|]. split; [done|]. intros k. rewrite Hel. split; intros [[H1 H2] H3]; (split; [done|]); [lia|].
      destruct (decide (key_start k = n)) as [E|]; [rewrite E in H1; by apply Hs in H1|lia].
  - cbn [fmap option_fmap option_map]. eexists. split; [done|]. split; [by apply qsort_sorted|].
    intros k. rewrite qsort_elem, Hel. split; [tauto|]. intros H. split; [done|]. apply (proj1 (proj1 H)).
Qed.

(** *** Structural equality under the map *)

(** What the map is after the groups that start below [n]. *)
Record map_upto (n : Z) (cm : list Z) : Prop := {
  mu_len : zlen cm = type_count m;
  mu_done : forall i, is_start i -> i < n -> exists c, is_start c /\ c <= i /\ size_of c = size_of i /\
    zget cm c = Some c /\ (forall k, 0 <= k < size_of i -> zget cm (i + k) = Some (c + k)) /\ group_eq i c;
  mu_todo : forall i, is_start i -> n <= i -> forall k, 0 <= k < size_of i -> zget cm (i + k) = Some (i + k);
  mu_unique : forall i j, is_start i -> is_start j -> i < n -> j < n ->
    zget cm i = Some i -> zget cm j = Some j -> group_eq i j -> i = j }.

(** The entry of a type of a finished group. *)
Lemma map_entry n cm u : map_upto n cm -> 0 <= u < type_count m -> start_of u < n ->
  exists c, is_start c /\ c <= start_of u /\ size_of c = size_of u /\ zget cm c = Some c /\
    group_eq (start_of u) c /\ zget cm u = Some (c + (u - start_of u)) /\
    0 <= c + (u - start_of u) <= u /\ start_of (c + (u - start_of u)) = c.
Proof.
  intros Hm Hu Hn. destruct (start_is_start u Hu) as [Hs Es]. pose proof (group_range u Hu).
  destruct (mu_done _ _ Hm _ Hs Hn) as (c & Hc & Hle & Hsz & Hcc & Hk & Hg).
  exists c. rewrite <- Es. split_and!; try done.
  - replace u with (start_of u + (u - start_of u)) at 1 by lia. apply Hk. lia.
  - destruct Hc as [? _]. lia.
  - lia.
  - apply start_member; [done|lia].
Qed.

Lemma map_entry_eq n cm u v x y : map_upto n cm -> 0 <= u < type_count m -> 0 <= v < type_count m ->
  start_of u < n -> start_of v < n -> zget cm u = Some x -> zget cm v = Some y ->
  x = y <-> u - start_of u = v - start_of v /\ group_eq (start_of u) (start_of v).
Proof.
  intros Hm Hu Hv Hsu Hsv Ex Ey.
  destruct (map_entry n cm u Hm Hu Hsu) as (c & Hc & Hle & Hsz & Hcc & Hg & E & _ & Hst).
  destruct (map_entry n cm v Hm Hv Hsv) as (d & Hd & Hle' & Hsz' & Hdd & Hg' & E' & _ & Hst').
  assert (x = c + (u - start_of u)) by congruence. assert (y = d + (v - start_of v)) by congruence.
  destruct (start_is_start u Hu) as [Su _]. destruct (start_is_start v Hv) as [Sv _]. split.
  - intros Exy. assert (c = d) as <- by congruence. split; [lia|].
    eapply group_eq_trans; [done|done|]. apply group_eq_sym; [exact Sv|exact Hg'].
  - intros [Ho Hge]. enough (c = d) by lia. eapply (mu_unique _ _ Hm); try done; [lia..|].
    eapply group_eq_trans; [done|apply group_eq_sym; [exact Su|exact Hg]|]. eapply group_eq_trans; done.
Qed.

(** A reference of group [i] after canonicalisation. *)
Definition canonicalized (cm : list Z) (i : Z) (t ct : wah_type_t) : Prop :=
  (t < 0 /\ ct = t) \/
  (0 <= t /\ in_group i (WAH_TYIDX t) /\ ct = t) \/
  (0 <= t /\ ~ in_group i (WAH_TYIDX t) /\ exists c, zget cm (WAH_TYIDX t) = Some c /\ 0 <= c < i /\
     ct = WAH_TYPE_FROM_IDX c (WAH_TYPE_IS_NULLABLE t)).

Lemma canonicalize_ok n cm i k td t : map_upto n cm -> is_start i -> i <= n -> 0 <= k < size_of i ->
  type_at m (i + k) td -> refs_of (i + k) td t ->
  exists ct, wah_canonicalize_type_ref t i (size_of i) cm (type_count m) = Some ct /\ canonicalized cm i t ct.
Proof.
  intros Hm Hi Hn Hk Ht Hr. unfold wah_canonicalize_type_ref, canonicalized.
  destruct (Z.ltb_spec t 0); [eexists; split; [done|]; by left|].
  destruct (ref_cases i k td t Hi Hk Ht Hr ltac:(done)) as (H2 & H3 & H4). pose proof (group_bound i Hi).
  pose proof (in_group_test i (WAH_TYIDX t) Hi) as T. cbv zeta. destruct (_ && _) eqn:E.
  - eexists. split; [done|]. right; left. split_and!; [done|by apply T|done].
  - assert (~ in_group i (WAH_TYIDX t)) as Hout by (intros X; apply T in X; congruence).
    destruct (H4 Hout) as (H5 & H6 & H7).
    rewrite (proj2 (Z.leb_gt _ _)) by lia.
    destruct (map_entry n cm (WAH_TYIDX t) Hm) as (c & _ & _ & _ & _ & _ & Ec & Hr' & _); [lia..|].
    rewrite Ec. cbn [mbind option_bind]. eexists. split; [done|]. right; right.
    split_and!; [done|done|]. eexists. split_and!; [done|lia|lia|done].
Qed.

(** The sign, the nullability and the group membership survive. *)
Lemma canonicalized_facts cm i t ct : is_start i -> (0 <= t -> t < 2 ^ 31) -> canonicalized cm i t ct ->
  WAH_TYPE_IS_NULLABLE ct = WAH_TYPE_IS_NULLABLE t /\ (0 <= ct <-> 0 <= t) /\
  ((0 <=? ct) && (i <=? WAH_TYIDX ct) && (WAH_TYIDX ct <? u32 (i + size_of i)) = true <->
     0 <= t /\ in_group i (WAH_TYIDX t)).
Proof.
  intros Hi Ht H. pose proof (group_bound i Hi). pose proof (gw_count WF) as Hcount.
  assert (Htest : forall x, (0 <=? x) && (i <=? WAH_TYIDX x) && (WAH_TYIDX x <? u32 (i + size_of i)) = true <->
    0 <= x /\ in_group i (WAH_TYIDX x)).
  { intros x. rewrite <- andb_assoc, andb_true_iff, in_group_test by done. by rewrite Z.leb_le. }
  rewrite Htest. destruct H as [[H ->]|[(H & Hin & ->)|(H & Hout & c & Hc & Hr & ->)]].
  - split_and!; [done|done|done].
  - done.
  - destruct Hi as [Hi _]. rewrite is_nullable_from_idx, tyidx_from_idx by lia.
    pose proof (from_idx_nonneg c (WAH_TYPE_IS_NULLABLE t) ltac:(lia)). split_and!; [done|lia|].
    unfold in_group in *. lia.
Qed.

Lemma refs_of_bound i k td t : is_start i -> 0 <= k < size_of i -> type_at m (i + k) td ->
  refs_of (i + k) td t -> 0 <= t -> t < 2 ^ 31.
Proof. intros Hi Hk Ht Hr H0. by destruct (ref_cases i k td t Hi Hk Ht Hr H0) as (_ & ? & _). Qed.

(** Decides a membership test of [canonicalized_facts]. *)
Ltac inside b I := destruct b; [|destruct I as [_ I]; specialize (I ltac:(done)); done].
Ltac outside b I := destruct b; [destruct I as [I _]; destruct (I eq_refl); lia || done|].

Lemma canon_pair_eq_ok i j k tda tdb ta tb cm : map_upto i cm -> is_start i -> is_start j -> j < i ->
  size_of i = size_of j -> 0 <= k < size_of i -> type_at m (i + k) tda -> type_at m (j + k) tdb ->
  refs_of (i + k) tda ta -> refs_of (j + k) tdb tb ->
  exists b, canon_pair_eq m cm i (size_of i) j (size_of j) ta tb = Some b /\
    (b = true <-> ref_rel group_eq i j ta tb).
Proof.
  intros Hm Hi Hj Hlt Hsz Hk Ha Hb Ra Rb. assert (0 <= k < size_of j) as Hk' by lia.
  destruct (canonicalize_ok i cm i k tda ta Hm Hi ltac:(lia) Hk Ha Ra) as (ca & Ea & Ca).
  destruct (canonicalize_ok i cm j k tdb tb Hm Hj ltac:(lia) Hk' Hb Rb) as (cb & Eb & Cb).
  unfold canon_pair_eq. rewrite Ea, Eb. cbn [mbind option_bind]. eexists. split; [done|].
  pose proof (refs_of_bound i k tda ta Hi Hk Ha Ra) as Ba. pose proof (refs_of_bound j k tdb tb Hj Hk' Hb Rb) as Bb.
  destruct (canonicalized_facts cm i ta ca Hi Ba Ca) as (Na & Sa & Ia).
  destruct (canonicalized_facts cm j tb cb Hj Bb Cb) as (Nb & Sb & Ib).
  unfold wah_canon_ref_eq. rewrite Na, Nb. cbv zeta.
  destruct (Bool.eqb (WAH_TYPE_IS_NULLABLE ta) (WAH_TYPE_IS_NULLABLE tb)) eqn:En; cbn [negb]; cycle 1.
  { split; [done|]. intros [[_ ->]|(_ & _ & E & _)]; [|rewrite E in En]; by rewrite eqb_reflx in En. }
  apply eqb_prop in En. unfold ref_rel. cbv zeta.
  set (ain := (0 <=? ca) && (i <=? WAH_TYIDX ca) && (WAH_TYIDX ca <? u32 (i + size_of i))) in *.
  set (bin := (0 <=? cb) && (j <=? WAH_TYIDX cb) && (WAH_TYIDX cb <? u32 (j + size_of j))) in *.
  pose proof (group_bound i Hi) as Gi. pose proof (group_bound j Hj) as Gj.
  destruct Ca as [[Ca ->]|[(Ca & Cin & ->)|(Ca & Cout & c & Cg & Cr & ->)]],
    Cb as [[Cb ->]|[(Cb & Din & ->)|(Cb & Dout & d & Dg & Dr & ->)]].
  (* two abstract types *)
  - outside ain Ia.
    outside bin Ib. cbn. rewrite Z.eqb_eq.
    split; [intros ->; by left|]. intros [[_ E]|(? & _)]; [done|lia].
  - outside ain Ia.
    inside bin Ib. cbn.
    split; [done|]. intros [[_ ->]|(? & _)]; lia.
  - outside ain Ia.
    outside bin Ib. cbn. rewrite Z.eqb_eq.
    split; [intros E; rewrite <- E in Sb; lia|]. intros [[_ E]|(? & _)]; lia.
  - inside ain Ia.
    outside bin Ib. cbn.
    split; [done|]. intros [[? ->]|(_ & ? & _)]; lia.
  (* two references inside *)
  - inside ain Ia.
    inside bin Ib. cbn. rewrite Z.eqb_eq.
    unfold in_group in Cin, Din. destruct Hi as [Hi _], Hj as [Hj _]. rewrite !u32_small by lia. split.
    + intros E. right. split_and!; try done. left. unfold in_group. lia.
    + intros [[? ->]|(_ & _ & _ & [(_ & _ & E)|(X & _)])]; [lia|done|]. unfold in_group in X. lia.
  - inside ain Ia.
    outside bin Ib. cbn.
    split; [done|]. intros [[? ->]|(_ & _ & _ & [(_ & X & _)|(X & _)])]; [lia|done..].
  - outside ain Ia.
    outside bin Ib. cbn. rewrite Z.eqb_eq.
    split; [intros E; rewrite E in Sa; lia|]. intros [[? E]|(_ & ? & _)]; lia.
  - outside ain Ia.
    inside bin Ib. cbn.
    split; [done|]. intros [[? ->]|(_ & _ & _ & [(X & _)|(_ & X & _)])]; [lia|done..].
  (* two references to earlier groups *)
  - outside ain Ia.
    outside bin Ib. cbn. rewrite Z.eqb_eq.
    destruct (ref_cases i k tda ta Hi Hk Ha Ra Ca) as (A1 & _ & A2). destruct (A2 Cout) as (A3 & A4 & A5).
    destruct (ref_cases j k tdb tb Hj Hk' Hb Rb Cb) as (B1 & _ & B2). destruct (B2 Dout) as (B3 & B4 & B5).
    pose proof (map_entry_eq i cm (WAH_TYIDX ta) (WAH_TYIDX tb) c d Hm ltac:(lia) ltac:(lia) ltac:(lia) ltac:(lia) Cg Dg) as E.
    pose proof (gw_count WF). destruct Hi as [Hi _], Hj as [Hj _].
    rewrite !from_idx_small by lia. rewrite En. split.
    + intros Ecd. right. split_and!; try done. right. split_and!; [done|done|apply E; lia|apply E; lia].
    + intros [[? ->]|(_ & _ & _ & [(X & _)|(_ & _ & X)])]; [lia|done|]. f_equal. by rewrite (proj2 E X).
Qed.

Lemma refs_equal_ok (eq : wah_type_t -> wah_type_t -> option bool) (R : wah_type_t -> wah_type_t -> Prop) la lb :
  (forall x y, x ∈ la -> y ∈ lb -> exists b, eq x y = Some b /\ (b = true <-> R x y)) ->
  length la = length lb ->
  exists b, refs_equal eq la lb = Some b /\ (b = true <-> Forall2 R la lb).
Proof.
  revert lb. induction la as [|x la IH]; intros [|y lb] H Hl; try done; simpl.
  { exists true. split; [done|]. by split; [constructor|]. }
  destruct (H x y ltac:(by left) ltac:(by left)) as (b & -> & Hb). simpl.
  destruct b; [|exists false; split; [done|]; split; [done|]; intros HF; inv HF; by apply Hb].
  destruct (IH lb) as (b & -> & Hb'); [intros x' y' Hx Hy; apply H; by right|simpl in Hl; lia|].
  exists b. split; [done|]. rewrite Hb'. split; [intros HF; constructor; [by apply Hb|done]|intros HF; by inv HF].
Qed.

Lemma fields_equal_ok (eq : wah_type_t -> wah_type_t -> option bool) (R : wah_type_t -> wah_type_t -> Prop) la lb ma mb :
  (forall x y, x ∈ la -> y ∈ lb -> exists b, eq x y = Some b /\ (b = true <-> R x y)) ->
  length la = length lb -> length ma = length la -> length mb = length lb ->
  exists b, fields_equal eq la lb ma mb = Some b /\ (b = true <-> Forall2 R la lb /\ ma = mb).
Proof.
  revert lb ma mb. induction la as [|x la IH]; intros [|y lb] [|p ma] [|q mb] H Hl H1 H2; try done; simpl.
  { exists true. split; [done|]. by split; [intros _; split; [constructor|]|]. }
  destruct (H x y ltac:(by left) ltac:(by left)) as (b & -> & Hb). simpl.
  destruct b; [|exists false; split; [done|]; split; [done|]; intros [HF _]; inv HF; by apply Hb].
  destruct (Bool.eqb p q) eqn:E; [apply eqb_prop in E as ->|].
  - simpl in *. destruct (IH lb ma mb) as (b & -> & Hb'); [intros x' y' Hx Hy; apply H; by right|lia..|].
    exists b. split; [done|]. rewrite Hb'. split.
    + intros [HF ->]. split; [constructor; [by apply Hb|done]|done].
    + intros [HF [= ->]]. by inv HF.
  - exists false. split; [done|]. split; [done|]. intros [_ [= -> _]]. by rewrite eqb_reflx in E.
Qed.

(** The comparison of supertypes. *)
Lemma supers_equal_ok (eq : wah_type_t -> wah_type_t -> option bool) (R : wah_type_t -> wah_type_t -> Prop) a b tda tdb :
  (forall ta tb, refs_of a tda ta -> refs_of b tdb tb -> exists r, eq ta tb = Some r /\ (r = true <-> R ta tb)) ->
  exists r,
    (if supertype tda =? WAH_NO_SUPERTYPE then Some (supertype tdb =? WAH_NO_SUPERTYPE)
     else if supertype tdb =? WAH_NO_SUPERTYPE then Some false
     else eq (WAH_TYPE_FROM_IDX (supertype tda) false) (WAH_TYPE_FROM_IDX (supertype tdb) false)) = Some r /\
    (r = true <-> (supertype tda = WAH_NO_SUPERTYPE /\ supertype tdb = WAH_NO_SUPERTYPE) \/
     (supertype tda <> WAH_NO_SUPERTYPE /\ supertype tdb <> WAH_NO_SUPERTYPE /\
      R (WAH_TYPE_FROM_IDX (supertype tda) false) (WAH_TYPE_FROM_IDX (supertype tdb) false))).
Proof.
  intros H. destruct (Z.eqb_spec (supertype tda) WAH_NO_SUPERTYPE) as [E1|E1].
  - eexists. split; [done|]. rewrite Z.eqb_eq. tauto.
  - destruct (Z.eqb_spec (supertype tdb) WAH_NO_SUPERTYPE) as [E2|E2].
    + exists false. split; [done|]. split; [done|]. tauto.
    + destruct (H _ _ (or_introl (conj E1 eq_refl)) (or_introl (conj E2 eq_refl))) as (r & -> & Hr).
      exists r. split; [done|]. rewrite Hr. tauto.
Qed.

(** The comparison of everything else. *)
Definition members_equal (eq : wah_type_t -> wah_type_t -> option bool) (a b : Z) (tda tdb : wah_type_def_t)
    : option bool :=
  if comp_kind_eqb (kind tda) WAH_COMP_FUNC then
    ft_a ← zget (types m) a;
    ft_b ← zget (types m) b;
    if negb (zlen (param_types ft_a) =? zlen (param_types ft_b)) then Some false
    else if negb (zlen (result_types ft_a) =? zlen (result_types ft_b)) then Some false
    else
      ps ← refs_equal eq (param_types ft_a) (param_types ft_b);
      if negb ps then Some false else refs_equal eq (result_types ft_a) (result_types ft_b)
  else if negb (zlen (field_types tda) =? zlen (field_types tdb)) then Some false
  else fields_equal eq (field_types tda) (field_types tdb) (field_mutables tda) (field_mutables tdb).

Lemma zlen_neq {A B} (R : A -> B -> Prop) la lb : (zlen la =? zlen lb) = false -> ~ Forall2 R la lb.
Proof. intros E%Z.eqb_neq H. apply E. unfold zlen. by rewrite (Forall2_length _ _ _ H). Qed.

Lemma members_equal_ok (eq : wah_type_t -> wah_type_t -> option bool) (R : wah_type_t -> wah_type_t -> Prop) a b tda tdb :
  type_at m a tda -> type_at m b tdb -> kind tda = kind tdb ->
  (forall ta tb, refs_of a tda ta -> refs_of b tdb tb -> exists r, eq ta tb = Some r /\ (r = true <-> R ta tb)) ->
  exists r, members_equal eq a b tda tdb = Some r /\
    (r = true <->
     (kind tda = WAH_COMP_FUNC ->
      exists fa fb, zget (types m) a = Some fa /\ zget (types m) b = Some fb /\
        Forall2 R (param_types fa) (param_types fb) /\ Forall2 R (result_types fa) (result_types fb)) /\
     (kind tda <> WAH_COMP_FUNC ->
      Forall2 R (field_types tda) (field_types tdb) /\ field_mutables tda = field_mutables tdb)).
Proof.
  intros Ha Hb Hk H. unfold members_equal.
  pose proof (gw_mutables WF _ _ Ha) as Ma. pose proof (gw_mutables WF _ _ Hb) as Mb.
  destruct (comp_kind_eqb (kind tda) WAH_COMP_FUNC) eqn:E; [apply comp_kind_eqb_spec in E|].
  - destruct (zget_is_Some (types m) a) as [fa Fa]; [rewrite (gw_types WF); by eapply type_at_range|].
    destruct (zget_is_Some (types m) b) as [fb Fb]; [rewrite (gw_types WF); by eapply type_at_range|].
    rewrite Fa, Fb. cbn [mbind option_bind].
    assert (Href : forall ta tb, (ta ∈ param_types fa \/ ta ∈ result_types fa) ->
      (tb ∈ param_types fb \/ tb ∈ result_types fb) -> exists r, eq ta tb = Some r /\ (r = true <-> R ta tb)).
    { intros ta tb Hta Htb. apply H; right; left; (split; [congruence|]); eauto. }
    assert (Hiff : forall r : bool, (r = true <-> Forall2 R (param_types fa) (param_types fb) /\
        Forall2 R (result_types fa) (result_types fb)) ->
      (r = true <-> (kind tda = WAH_COMP_FUNC -> exists fa' fb', Some fa = Some fa' /\ Some fb = Some fb' /\
        Forall2 R (param_types fa') (param_types fb') /\ Forall2 R (result_types fa') (result_types fb')) /\
       (kind tda <> WAH_COMP_FUNC -> Forall2 R (field_types tda) (field_types tdb) /\ field_mutables tda = field_mutables tdb))).
    { intros r ->. split; [intros []; split; [intros _; by exists fa, fb|done]|].
      intros [X _]. destruct (X E) as (? & ? & [= <-] & [= <-] & ?). done. }
    destruct (zlen (param_types fa) =? zlen (param_types fb)) eqn:L1; cbn [negb]; cycle 1.
    { exists false. split; [done|]. apply Hiff. split; [done|]. intros [X _]. destruct (zlen_neq _ _ _ L1 X). }
    destruct (zlen (result_types fa) =? zlen (result_types fb)) eqn:L2; cbn [negb]; cycle 1.
    { exists false. split; [done|]. apply Hiff. split; [done|]. intros [_ X]. destruct (zlen_neq _ _ _ L2 X). }
    unfold zlen in L1, L2.
    destruct (refs_equal_ok eq R (param_types fa) (param_types fb)) as (r & -> & Hr); [eauto|lia|].
    cbn [mbind option_bind]. destruct r; cbn [negb]; [|exists false; split; [done|]; apply Hiff; split; [done|]; intros [X _]; by apply Hr].
    destruct (refs_equal_ok eq R (result_types fa) (result_types fb)) as (r & -> & Hr'); [eauto|lia|].
    exists r. split; [done|]. apply Hiff. tauto.
  - assert (kind tda <> WAH_COMP_FUNC) as Hn by (intros X; apply comp_kind_eqb_spec in X; congruence).
    destruct (zlen (field_types tda) =? zlen (field_types tdb)) eqn:L1; cbn [negb]; cycle 1.
    { exists false. split; [done|]. split; [done|]. intros [_ X]. destruct (X Hn) as [Y _]. destruct (zlen_neq _ _ _ L1 Y). }
    unfold zlen in L1.
    destruct (fields_equal_ok eq R (field_types tda) (field_types tdb) (field_mutables tda) (field_mutables tdb))
      as (r & -> & Hr); [|lia|done|done|].
    { intros x y Hx Hy. apply H; right; right; (split; [congruence|done]). }
    exists r. split; [done|]. rewrite Hr. tauto.
Qed.

(** Everything that is compared is compared by [ref_rel]. *)
Lemma structurally_equal_ok i j k cm : map_upto i cm -> is_start i -> is_start j -> j < i ->
  size_of i = size_of j -> 0 <= k < size_of i ->
  exists b, wah_types_structurally_equal m cm (i + k) (j + k) = Some b /\
    (b = true <-> type_rel (ref_rel group_eq i j) (i + k) (j + k)).
Proof.
  intros Hm Hi Hj Hlt Hsz Hk. assert (0 <= k < size_of j) as Hk' by lia.
  destruct (start_member i k Hi Hk) as (Ri & Si & Zi). destruct (start_member j k Hj Hk') as (Rj & Sj & Zj).
  destruct (type_at_exists m _ Ri) as [tda Ha]. destruct (type_at_exists m _ Rj) as [tdb Hb].
  pose proof (fun ta tb => canon_pair_eq_ok i j k tda tdb ta tb cm Hm Hi Hj Hlt Hsz Hk Ha Hb) as Hpair.
  assert (Hrel : type_rel (ref_rel group_eq i j) (i + k) (j + k) <->
    def_rel (ref_rel group_eq i j) (i + k) (j + k) tda tdb).
  { split; [|by exists tda, tdb]. intros (x & y & Hx & Hy & HP). unfold type_at in *. by simplify_eq. }
  unfold wah_types_structurally_equal. setoid_rewrite Hrel. clear Hrel. unfold def_rel.
  destruct (start_size_at _ _ Ha) as [Ea Fa]. destruct (start_size_at _ _ Hb) as [Eb Fb].
  pose proof Ha as Ha'. pose proof Hb as Hb'. unfold type_at in Ha', Hb'. rewrite Ha', Hb'. cbn [mbind option_bind].
  rewrite <- Ea, <- Eb, <- Fa, <- Fb, Si, Sj, Zi, Zj. cbv zeta.
  destruct (comp_kind_eqb (kind tda) (kind tdb)) eqn:Ek; cbn [negb]; cycle 1.
  { exists false. split; [done|]. split; [done|]. intros [E _]. apply comp_kind_eqb_spec in E. congruence. }
  apply comp_kind_eqb_spec in Ek.
  destruct (Bool.eqb (is_final tda) (is_final tdb)) eqn:Ef; cbn [negb]; cycle 1.
  { exists false. split; [done|]. split; [done|]. intros (_ & E & _). rewrite E, eqb_reflx in Ef. done. }
  apply eqb_prop in Ef.
  destruct (supers_equal_ok _ _ _ _ _ _ Hpair) as (bs & -> & Hbs). cbn [mbind option_bind].
  destruct bs; cbn [negb]; [|exists false; split; [done|]; split; [done|]; intros (_ & _ & X & _); by apply Hbs in X].
  assert (Hs := proj1 Hbs eq_refl). clear Hbs.
  destruct (members_equal_ok _ _ _ _ _ _ Ha Hb Ek Hpair) as (r & E & Hr).
  exists r. split; [exact E|]. rewrite Hr. tauto.
Qed.

Lemma groups_match_from_ok n i j k cm : map_upto i cm -> is_start i -> is_start j -> j < i ->
  size_of i = size_of j -> 0 <= k -> k + Z.of_nat n <= size_of i ->
  exists b, groups_match_from m cm n i j k = Some b /\ (b = true <-> forall k', k <= k' < k + Z.of_nat n -> type_rel (ref_rel group_eq i j) (i + k') (j + k')).
Proof.
  intros Hm Hi Hj Hlt Hsz. revert k. induction n as [|n IH]; intros k Hk Hn.
  { exists true. split; [done|]. split; [intros _ k'; lia|done]. }
  cbn [groups_match_from].
  destruct (structurally_equal_ok i j k cm Hm Hi Hj Hlt Hsz ltac:(lia)) as (b & -> & Hb). cbn [mbind option_bind].
  destruct b; [|exists false; split; [done|]; split; [done|]; intros X; apply Hb, X; lia].
  destruct (IH (k + 1)) as (b & -> & Hb'); [lia..|]. exists b. split; [done|]. rewrite Hb'. split.
  - intros X k' Hk'. destruct (decide (k' = k)) as [->|]; [by apply Hb|apply X; lia].
  - intros X k' Hk'. apply X. lia.
Qed.

Lemma groups_match_ok i j cm : map_upto i cm -> is_start i -> is_start j -> j < i -> size_of i = size_of j ->
  exists b, groups_match m cm (size_of i) i j = Some b /\ (b = true <-> group_eq i j).
Proof.
  intros Hm Hi Hj Hlt Hsz. pose proof (group_bound i Hi). unfold groups_match.
  destruct (groups_match_from_ok (Z.to_nat (size_of i)) i j 0 cm Hm Hi Hj Hlt Hsz) as (b & E & Hb); [lia..|].
  exists b. split; [done|]. rewrite Hb. split.
  - intros X. constructor; [done|]. intros k Hk. apply X. lia.
  - intros [_ X] k Hk. apply X. lia.
Qed.

(** *** The search *)

Lemma sorted_keys_hash l a b x y : sorted_keys l -> (a <= b)%nat -> l !! a = Some x -> l !! b = Some y ->
  key_hash x <= key_hash y.
Proof.
  intros Hs Hab Hx Hy. destruct (decide (a = b)) as [->|]; [simplify_eq; lia|].
  pose proof (Hs a b x y ltac:(lia) Hx Hy) as H. unfold key_lt in H. lia.
Qed.

Lemma lower_bound_ok fuel keys h lo hi : sorted_keys keys -> (Z.to_nat (hi - lo) < fuel)%nat ->
  0 <= lo <= hi -> hi <= zlen keys ->
  (forall p x, keys !! p = Some x -> Z.of_nat p < lo -> key_hash x < h) ->
  (forall p x, keys !! p = Some x -> hi <= Z.of_nat p -> h <= key_hash x) ->
  exists k, lower_bound fuel keys h lo hi = Some k /\ 0 <= k <= zlen keys /\
    (forall p x, keys !! p = Some x -> Z.of_nat p < k -> key_hash x < h) /\
    (forall p x, keys !! p = Some x -> k <= Z.of_nat p -> h <= key_hash x).
Proof.
  intros Hs. revert lo hi. induction fuel as [|fuel IH]; intros lo hi Hf Hlo Hhi Hbelow Habove; [lia|].
  cbn [lower_bound]. destruct (Z.ltb_spec lo hi) as [Hlt|Hge]; cbn [negb].
  2: { exists lo. split_and!; [done|lia|lia|done|]. intros p x Hx Hp. apply (Habove p); [done|lia]. }
  set (mid := lo + (hi - lo) / 2). assert (lo <= mid < hi) as Hmid by (subst mid; Z.to_euclidean_division_equations; lia).
  destruct (zget_is_Some keys mid) as [x Hx]; [lia|]. rewrite Hx. cbn [mbind option_bind].
  rewrite zget_nat in Hx by lia. destruct (Z.ltb_spec (key_hash x) h) as [Hh|Hh].
  - apply IH; try lia; [|done]. intros p y Hy Hp.
    pose proof (sorted_keys_hash keys p (Z.to_nat mid) y x Hs ltac:(lia) Hy Hx). lia.
  - apply IH; try lia; [done|]. intros p y Hy Hp.
    pose proof (sorted_keys_hash keys (Z.to_nat mid) p x y Hs ltac:(lia) Hx Hy). lia.
Qed.

(** A group that [i] is merged into. *)
Definition matches (cm : list Z) (i j : Z) : Prop :=
  is_start j /\ j < i /\ zget cm j = Some j /\ size_of j = size_of i /\ group_eq i j.

Lemma scan_run_ok fuel keys cm i h k : map_upto i cm -> is_start i -> sorted_keys keys ->
  (forall x, x ∈ keys -> is_start (key_start x)) ->
  (forall p x, keys !! p = Some x -> k <= Z.of_nat p -> h <= key_hash x) ->
  0 <= k <= zlen keys -> (Z.to_nat (zlen keys - k) < fuel)%nat ->
  (exists j, matches cm i j /\ scan_run m fuel keys cm i (size_of i) h k = set_canonical cm (size_of i) i j) \/
  (scan_run m fuel keys cm i (size_of i) h k = Some cm /\
   forall p x, keys !! p = Some x -> k <= Z.of_nat p -> key_hash x = h -> ~ matches cm i (key_start x)).
Proof.
  intros Hm Hi Hs Hst. revert k. induction fuel as [|fuel IH]; intros k Habove Hk Hf; [lia|].
  cbn [scan_run]. destruct (Z.ltb_spec k (zlen keys)) as [Hlt|Hge]; cbn [negb]; cycle 1.
  { right. split; [done|]. intros p x Hx Hp. apply lookup_lt_Some in Hx. unfold zlen in *. lia. }
  destruct (zget_is_Some keys k) as [x Hx]; [lia|]. rewrite Hx. cbn [mbind option_bind].
  rewrite zget_nat in Hx by lia. assert (is_start (key_start x)) as Hjs by (apply Hst; by eapply list_elem_of_lookup_2).
  destruct ((key_hash x =? h) && (key_start x <? i)) eqn:Erun; cbn [negb]; cycle 1.
  { right. split; [done|]. intros p y Hy Hp Hh (_ & Hlt' & _).
    pose proof (Habove _ _ Hx ltac:(lia)) as Hhx.
    pose proof (sorted_keys_hash keys (Z.to_nat k) p x y Hs ltac:(lia) Hx Hy).
    destruct (decide (Z.to_nat k = p)) as [<-|]; [simplify_eq; lia|].
    pose proof (Hs (Z.to_nat k) p x y ltac:(lia) Hx Hy) as Hord. unfold key_lt in Hord. lia. }
  apply andb_true_iff in Erun as [Eh%Z.eqb_eq Ej%Z.ltb_lt].
  destruct (map_entry i cm (key_start x) Hm) as (c & _ & _ & _ & _ & _ & Ec & _ & _); [apply Hjs|destruct Hjs as [_ ->]; lia|].
  destruct (type_at_exists m (key_start x)) as [td Ht]; [apply Hjs|]. destruct (start_size_at _ _ Ht) as [_ Esz].
  unfold type_at in Ht. rewrite Ec, Ht. cbn [mbind option_bind]. rewrite <- Esz.
  assert (Hrest : forall p y, keys !! p = Some y -> k + 1 <= Z.of_nat p -> h <= key_hash y)
    by (intros p y Hy Hp; apply (Habove p); [done|lia]).
  assert (Hnext : ~ matches cm i (key_start x) ->
    (exists j, matches cm i j /\ scan_run m fuel keys cm i (size_of i) h (k + 1) = set_canonical cm (size_of i) i j) \/
    (scan_run m fuel keys cm i (size_of i) h (k + 1) = Some cm /\
     forall p y, keys !! p = Some y -> k <= Z.of_nat p -> key_hash y = h -> ~ matches cm i (key_start y))).
  { intros Hno. destruct (IH (k + 1) Hrest) as [?|[E H]]; [lia|lia|by left|right]. split; [done|].
    intros p y Hy Hp Hh. destruct (decide (Z.of_nat p = k)) as [<-|]; [|apply (H p); [done|lia|done]].
    rewrite Nat2Z.id in Hx. by simplify_eq. }
  destruct (Z.eqb_spec (c + (key_start x - start_of (key_start x))) (key_start x)) as [Ecc|Ecc]; cbn [negb orb]; cycle 1.
  { apply Hnext. intros (_ & _ & Ecj & _). congruence. }
  destruct (Z.eqb_spec (size_of (key_start x)) (size_of i)) as [Esi|Esi]; cbn [negb]; cycle 1.
  { apply Hnext. intros (_ & _ & _ & ? & _). done. }
  destruct (groups_match_ok i (key_start x) cm Hm Hi Hjs Ej ltac:(congruence)) as (b & -> & Hb).
  cbn [mbind option_bind]. destruct b.
  - left. exists (key_start x). split; [|done]. split_and!; try done; [congruence|by apply Hb].
  - apply Hnext. intros (_ & _ & _ & _ & Hg). by apply Hb in Hg.
Qed.

Lemma set_canonical_ok cm i j n : 0 <= n -> 0 <= i -> i + n <= zlen cm ->
  exists cm', set_canonical cm n i j = Some cm' /\ zlen cm' = zlen cm /\
    forall u, zget cm' u = if (i <=? u) && (u <? i + n) then Some (j + (u - i)) else zget cm u.
Proof.
  intros Hn Hi Hl. unfold set_canonical.
  apply (foldM_zrange _ (fun k cm' => zlen cm' = zlen cm /\
    forall u, zget cm' u = if (i <=? u) && (u <? i + k) then Some (j + (u - i)) else zget cm u)); [done| |].
  - split; [done|]. intros u. by destruct (Z.leb_spec i u), (Z.ltb_spec u (i + 0)); try lia.
  - intros k cm1 Hk [Hl1 H1]. destruct (zset_is_Some cm1 (i + k) (j + k)) as [cm2 E2]; [lia|].
    exists cm2. split; [done|]. split; [by rewrite (zset_length _ _ _ _ E2)|].
    intros u. rewrite (zset_lookup _ _ _ _ _ E2), H1.
    destruct (Z.eqb_spec u (i + k)) as [->|].
    + rewrite (proj2 (Z.leb_le _ _)), (proj2 (Z.ltb_lt _ _)) by lia. simpl. f_equal. lia.
    + destruct (Z.leb_spec i u); simpl; [|done]. destruct (Z.ltb_spec u (i + k)), (Z.ltb_spec u (i + (k + 1))); done || lia.
Qed.

(** *** One step of the loop *)

Lemma starts_disjoint i j : is_start i -> is_start j -> i < j -> i + size_of i <= j.
Proof.
  intros Hi [Hj Ej] Hlt. destruct (Z.le_gt_cases (i + size_of i) j) as [|H]; [done|].
  destruct (start_member i (j - i) Hi) as (_ & E & _); [lia|]. replace (i + (j - i)) with j in E by lia. lia.
Qed.

Lemma map_upto_merge i j cm cm' : map_upto i cm -> is_start i -> matches cm i j ->
  zlen cm' = zlen cm ->
  (forall u, zget cm' u = if (i <=? u) && (u <? i + size_of i) then Some (j + (u - i)) else zget cm u) ->
  map_upto (i + 1) cm'.
Proof.
  intros Hm Hi (Hj & Hlt & Hjj & Hsz & Hg) Hl H.
  assert (Hlow : forall u, u < i -> zget cm' u = zget cm u).
  { intros u Hu. rewrite H, (proj2 (Z.leb_gt _ _)) by lia. done. }
  pose proof (group_bound i Hi) as Gi. split.
  - rewrite Hl. apply (mu_len _ _ Hm).
  - intros i' Hi' Hn. destruct (decide (i' = i)) as [->|Hne].
    + exists j. split_and!; try done; [lia|by rewrite Hlow|].
      intros k Hk. rewrite H, (proj2 (Z.leb_le _ _)), (proj2 (Z.ltb_lt _ _)) by lia. simpl. f_equal. lia.
    + destruct (mu_done _ _ Hm i' Hi' ltac:(lia)) as (c & Hc & Hle & Hs & Hcc & Hk & Hgc).
      pose proof (starts_disjoint i' i Hi' Hi ltac:(lia)).
      exists c. split_and!; try done; [by rewrite Hlow by lia|]. intros k Hk'. rewrite Hlow by lia. by apply Hk.
  - intros i' Hi' Hn k Hk. pose proof (starts_disjoint i i' Hi Hi' ltac:(lia)).
    rewrite H, (proj2 (Z.ltb_ge _ _)), andb_false_r by lia. apply (mu_todo _ _ Hm); [done|lia|done].
  - assert (zget cm' i = Some j) as Hij.
    { rewrite H, (proj2 (Z.leb_le _ _)), (proj2 (Z.ltb_lt _ _)) by lia. simpl. f_equal. lia. }
    intros a b Ha Hb Han Hbn Ea Eb. assert (a <> i) by (intros ->; rewrite Hij in Ea; injection Ea; lia).
    assert (b <> i) by (intros ->; rewrite Hij in Eb; injection Eb; lia).
    rewrite Hlow in Ea, Eb by lia. apply (mu_unique _ _ Hm); (done || lia).
Qed.

Lemma map_upto_keep i cm : map_upto i cm -> is_start i ->
  (forall j, ~ matches cm i j) -> map_upto (i + 1) cm.
Proof.
  intros Hm Hi Hno. pose proof (group_bound i Hi) as Gi.
  assert (zget cm i = Some i) as Hii.
  { pose proof (mu_todo _ _ Hm i Hi ltac:(lia) 0 ltac:(lia)) as E. by rewrite Z.add_0_r in E. }
  assert (Huniq : forall j, is_start j -> j < i -> zget cm j = Some j -> group_eq i j -> False).
  { intros j Hj Hlt Hjj Hg. apply (Hno j). pose proof Hg as [Hsz _]. by split_and!. }
  split.
  - apply (mu_len _ _ Hm).
  - intros i' Hi' Hn. destruct (decide (i' = i)) as [->|Hne]; [|apply (mu_done _ _ Hm); (done || lia)].
    exists i. split_and!; try done; [|by apply group_eq_refl]. intros k Hk. apply (mu_todo _ _ Hm); (done || lia).
  - intros i' Hi' Hn. apply (mu_todo _ _ Hm); (done || lia).
  - intros a b Ha Hb Han Hbn Ea Eb Hg. destruct (decide (a = i)) as [->|], (decide (b = i)) as [->|]; try done.
    + destruct (Huniq b Hb ltac:(lia) Eb Hg).
    + destruct (Huniq a Ha ltac:(lia) Ea). by apply group_eq_sym.
    + apply (mu_unique _ _ Hm); (done || lia).
Qed.

Lemma map_upto_skip n cm : map_upto n cm -> ~ is_start n -> map_upto (n + 1) cm.
Proof.
  intros Hm Hn. assert (forall i, is_start i -> i < n + 1 -> i < n) as Hlt.
  { intros i Hi ?. destruct (decide (i = n)) as [->|]; [done|lia]. }
  split; [apply (mu_len _ _ Hm)|..].
  - intros i Hi ?. apply (mu_done _ _ Hm); auto.
  - intros i Hi ?. apply (mu_todo _ _ Hm); [done|lia].
  - intros i j Hi Hj ? ?. apply (mu_unique _ _ Hm); auto.
Qed.

Lemma map_upto_start : map_upto 0 (zrange 0 (type_count m)).
Proof.
  assert (Hget : forall u, 0 <= u < type_count m -> zget (zrange 0 (type_count m)) u = Some u).
  { intros u Hu. rewrite zget_nat by lia. unfold zrange. rewrite list_lookup_fmap, lookup_seq_lt by lia.
    simpl. f_equal. lia. }
  split.
  - unfold zlen, zrange. rewrite length_fmap, length_seq. unfold type_count, zlen. lia.
  - intros i [Hi _] Hlt. lia.
  - intros i Hi _ k Hk. destruct (start_member i k Hi Hk) as [? _]. by apply Hget.
  - intros i j [Hi _] _ Hlt. lia.
Qed.

Lemma canonicalize_step_ok gh keys n cm : hashes_upto (type_count m) gh -> sorted_keys keys ->
  (forall k, k ∈ keys <-> is_start (key_start k) /\ zget gh (key_start k) = Some (Some (key_hash k))) ->
  0 <= n < type_count m -> map_upto n cm ->
  exists cm', canonicalize_step m gh keys cm n = Some cm' /\ map_upto (n + 1) cm'.
Proof.
  intros Hgh Hs Hkeys Hn Hm. unfold canonicalize_step.
  destruct (type_at_exists m n Hn) as [td Ht]. destruct (start_size_at _ _ Ht) as [_ Esz].
  pose proof (is_start_dec n td Ht) as Hst. unfold type_at in Ht. rewrite Ht. cbn [mbind option_bind].
  destruct (n =? rec_group_start td); cbn [negb]; cycle 1.
  { exists cm. split; [done|]. apply map_upto_skip; [done|]. intros X. by apply Hst in X. }
  assert (is_start n) as Hi by by apply Hst. rewrite <- Esz.
  destruct (proj2 Hgh n Hi ltac:(lia)) as (h & Eh & _). rewrite Eh. cbn [mbind option_bind].
  destruct (lower_bound_ok (S (length keys)) keys h 0 (zlen keys) Hs) as (lo & -> & Hlo & Hbelow & Habove);
    [unfold zlen; lia|unfold zlen; lia|lia|lia|intros p x Hx%lookup_lt_Some; unfold zlen; lia|].
  cbn [mbind option_bind].
  destruct (scan_run_ok (S (length keys)) keys cm n h lo Hm Hi Hs) as [(j & Hj & ->)|[-> Hno]];
    [intros x Hx; by apply Hkeys|done|lia|unfold zlen in *; lia|..].
  - pose proof (group_bound n Hi).
    destruct (set_canonical_ok cm n j (size_of n)) as (cm' & -> & Hl & H'); [lia|lia|rewrite (mu_len _ _ Hm); lia|].
    exists cm'. split; [done|]. by eapply map_upto_merge.
  - exists cm. split; [done|]. apply map_upto_keep; [done|done|]. intros j Hj.
    pose proof Hj as (Hjs & Hlt & _ & _ & Hg).
    destruct (group_eq_hash gh Hgh n Hi j Hjs Hg) as (r & G1 & G2).
    assert (r = h) as -> by congruence.
    assert (GroupKey h j ∈ keys) as Hin by (apply Hkeys; done).
    apply list_elem_of_lookup in Hin as [p Hp]. destruct (Z.le_gt_cases lo (Z.of_nat p)) as [Hle|Hgt].
    + by apply (Hno p (GroupKey h j)).
    + specialize (Hbelow p _ Hp Hgt). simpl in Hbelow. lia.
Qed.

Lemma build_canonical_map_ok : exists cm, build_canonical_map m = Some cm /\ map_upto (type_count m) cm.
Proof.
  unfold build_canonical_map. destruct group_hashes_ok as (gh & -> & Hgh). cbn [mbind option_bind].
  destruct (group_keys_ok gh Hgh) as (keys & -> & Hs & Hkeys). cbn [mbind option_bind].
  apply (foldM_zrange _ map_upto); [unfold type_count, zlen; lia|apply map_upto_start|].
  intros i cm Hi Hm. by apply canonicalize_step_ok.
Qed.

(** The map in terms of types. *)
Lemma map_upto_types cm : map_upto (type_count m) cm -> zlen cm = type_count m /\
  forall u, 0 <= u < type_count m -> exists c, zget cm u = Some c /\ 0 <= c <= u /\ zget cm c = Some c /\
    type_equiv u c /\ forall v, 0 <= v < type_count m -> (zget cm v = Some c <-> type_equiv u v).
Proof.
  intros Hm. split; [apply (mu_len _ _ Hm)|]. intros u Hu. pose proof (group_range u Hu).
  destruct (map_entry _ cm u Hm Hu ltac:(lia)) as (c & Hc & Hle & Hsz & Hcc & Hg & E & Hr & Hst).
  destruct (mu_done _ _ Hm c Hc ltac:(destruct Hc; lia)) as (c' & Hc' & _ & Hsz' & Hcc' & Hk & _).
  assert (c' = c) as ->.
  { specialize (Hk 0). rewrite !Z.add_0_r in Hk. rewrite Hk in Hcc by (pose proof (group_bound c Hc); lia). congruence. }
  eexists. split; [done|]. split; [done|]. split; [apply Hk; lia|].
  split; [split; [by rewrite Hst|lia]|]. intros v Hv. pose proof (group_range v Hv).
  destruct (map_entry _ cm v Hm Hv ltac:(lia)) as (d & _ & _ & _ & _ & _ & E' & _).
  pose proof (map_entry_eq _ cm u v _ _ Hm Hu Hv ltac:(lia) ltac:(lia) E E') as Heq.
  unfold type_equiv. rewrite E'. split.
  - intros [= X]. destruct (proj1 Heq ltac:(congruence)). done.
  - intros [X1 X2]. f_equal. symmetry. by apply Heq.
Qed.
End Spec.

(** *** Checking well-formedness *)

Definition refs_list (m : wah_module_t) (i : Z) (td : wah_type_def_t) : list wah_type_t :=
  (if supertype td =? WAH_NO_SUPERTYPE then [] else [WAH_TYPE_FROM_IDX (supertype td) false]) ++
  (if comp_kind_eqb (kind td) WAH_COMP_FUNC then
     match zget (types m) i with Some ft => param_types ft ++ result_types ft | None => [] end
   else field_types td).

Lemma refs_list_complete m i td t : refs_of m i td t -> t ∈ refs_list m i td.
Proof.
  unfold refs_list. rewrite elem_of_app. intros [[H ->]|[(H & ft & -> & Ht)|[H Ht]]].
  - left. rewrite (proj2 (Z.eqb_neq _ _) H). set_solver.
  - right. rewrite (proj2 (comp_kind_eqb_spec _ _) H). rewrite elem_of_app. done.
  - right. destruct (comp_kind_eqb (kind td) WAH_COMP_FUNC) eqn:E; [by apply comp_kind_eqb_spec in E|done].
Qed.

Definition groups_wf_b (m : wah_module_t) : bool :=
  (type_count m <=? WAH_MAX_TYPE_INDEX + 1) && (zlen (types m) =? type_count m) &&
  forallb (fun i =>
    match zget (type_defs m) i with
    | None => true
    | Some td =>
        let s := rec_group_start td in let e := s + rec_group_size td in
        (0 <=? s) && (s <=? i) && (i <? e) && (e <=? type_count m) &&
        forallb (fun k => match zget (type_defs m) k with
                          | Some td' => (rec_group_start td' =? s) && (rec_group_size td' =? rec_group_size td)
                          | None => false
                          end) (zrange s e) &&
        ((supertype td =? WAH_NO_SUPERTYPE) || ((0 <=? supertype td) && (supertype td <? i))) &&
        forallb (fun t => (t <? 0) || ((t <=? INT32_MAX) && (WAH_TYIDX t <? e))) (refs_list m i td) &&
        (zlen (field_mutables td) =? zlen (field_types td))
    end) (zrange 0 (type_count m)).

Lemma groups_wf_b_correct m : groups_wf_b m = true -> groups_wf m.
Proof.
  unfold groups_wf_b. rewrite !andb_true_iff, forallb_forall. intros [[Hc Ht] H].
  assert (Hall : forall i td, type_at m i td ->
    0 <= rec_group_start td <= i /\ i < rec_group_start td + rec_group_size td <= type_count m /\
    forallb (fun k => match zget (type_defs m) k with
      | Some td' => (rec_group_start td' =? rec_group_start td) && (rec_group_size td' =? rec_group_size td)
      | None => false end) (zrange (rec_group_start td) (rec_group_start td + rec_group_size td)) = true /\
    (supertype td <> WAH_NO_SUPERTYPE -> 0 <= supertype td < i) /\
    forallb (fun t => (t <? 0) || ((t <=? INT32_MAX) && (WAH_TYIDX t <? rec_group_start td + rec_group_size td)))
      (refs_list m i td) = true /\ length (field_mutables td) = length (field_types td)).
  { intros i td Hi. specialize (H i (proj1 (list_elem_of_In _ _) (proj2 (elem_of_zrange _ _ _) (type_at_range m _ _ Hi)))).
    unfold type_at in Hi. rewrite Hi in H. cbv zeta in H. rewrite !andb_true_iff in H.
    destruct H as [[[[[[[A1 A2] A3] A4] A5] A6] A7] A8]. unfold zlen in A8.
    split_and!; try done; lia. }
  split; [lia|lia|..].
  - intros i td Hi. destruct (Hall i td Hi) as (H1 & H2 & H3 & _). split_and!; try lia.
    rewrite forallb_forall in H3. intros k Hk. specialize (H3 k (proj1 (list_elem_of_In _ _) (proj2 (elem_of_zrange _ _ _) Hk))).
    destruct (zget (type_defs m) k) as [td'|] eqn:E; [|done]. exists td'. split; [done|]. lia.
  - intros i td Hi. apply (Hall i td Hi).
  - intros i td t Hi Hr H0. destruct (Hall i td Hi) as (_ & _ & _ & _ & H5 & _). rewrite forallb_forall in H5.
    specialize (H5 t (proj1 (list_elem_of_In _ _) (refs_list_complete _ _ _ _ Hr))). unfold INT32_MAX in H5. lia.
  - intros i td Hi. apply (Hall i td Hi).
Qed.

(** *** What subtyping relies on *)

Definition set_canonical_map (m : wah_module_t) (cm : list Z) : wah_module_t :=
  Module (types m) (type_defs m) (Some cm) (typeidx_to_repr m) (repr_infos m) (features m).

(** Supertypes have the kind of their subtypes. *)
Definition supers_same_kind (m : wah_module_t) : Prop :=
  forall i td td', type_at m i td -> supertype td <> WAH_NO_SUPERTYPE ->
    type_at m (supertype td) td' -> kind td' = kind td.

Lemma equiv_defs m : groups_wf m -> forall i j, 0 <= i < type_count m -> 0 <= j < type_count m -> type_equiv m i j ->
  exists tdi tdj, type_at m i tdi /\ type_at m j tdj /\
    def_rel m (ref_rel m (group_eq m) (start_of m i) (start_of m j)) i j tdi tdj.
Proof.
  intros WF i j Hi Hj [[Hsz H] Ho]. pose proof (group_range m WF i Hi). pose proof (group_range m WF j Hj).
  destruct (start_is_start m WF i Hi) as [_ Ei].
  specialize (H (i - start_of m i) ltac:(lia)). replace (start_of m i + (i - start_of m i)) with i in H by lia.
  rewrite Ho in H. by replace (start_of m j + (j - start_of m j)) with j in H by lia.
Qed.

Lemma ref_rel_equiv m i j a b : groups_wf m -> 0 <= i < type_count m -> 0 <= j < type_count m ->
  type_equiv m i j -> 0 <= a < type_count m -> 0 <= b < type_count m ->
  ref_rel m (group_eq m) (start_of m i) (start_of m j) (WAH_TYPE_FROM_IDX a false) (WAH_TYPE_FROM_IDX b false) ->
  type_equiv m a b.
Proof.
  intros WF Hi Hj [Hg Ho] Ha Hb H. pose proof (gw_count m WF).
  destruct H as [[H _]|(_ & _ & _ & H)].
  { pose proof (from_idx_nonneg a false ltac:(lia)). lia. }
  cbv zeta in H. rewrite !tyidx_from_idx in H by lia. destruct H as [(I1 & I2 & E)|(_ & _ & E & G)]; [|done].
  destruct (start_is_start m WF i Hi) as [[Hsi Esi] Zi]. destruct (start_is_start m WF j Hj) as [[Hsj Esj] Zj].
  destruct (group_member m WF (start_of m i) a Hsi) as [Ea _]; [unfold in_group in I1; lia|].
  destruct (group_member m WF (start_of m j) b Hsj) as [Eb _]; [unfold in_group in I2; lia|].
  unfold type_equiv. rewrite Ea, Eb, Esi, Esj. split; [done|lia].
Qed.

Lemma canonical_types_wf m cm : groups_wf m -> supers_same_kind m -> build_canonical_map m = Some cm ->
  types_wf (set_canonical_map m cm).
Proof.
  intros WF HK E. destruct (build_canonical_map_ok m WF) as (cm' & E' & Hm). assert (cm' = cm) as -> by congruence.
  destruct (map_upto_types m WF cm Hm) as [Hl H]. clear E'.
  change (type_count (set_canonical_map m cm)) with (type_count m) in *. split.
  - apply (gw_count m WF).
  - intros i td Ht Hs. change (type_at m i td) in Ht. pose proof (gw_super m WF _ _ Ht Hs) as Hr. split; [done|].
    pose proof (type_at_range m _ _ Ht). destruct (type_at_exists m (supertype td)) as [td' Ht']; [lia|].
    exists td'. split; [done|]. by eapply HK.
  - intros i Hi. destruct (H i Hi) as (c & Ec & _). by exists c.
  - intros i j td td' Ht Ht' Hc. change (type_at m i td) in Ht. change (type_at m j td') in Ht'.
    unfold canon_get in *. simpl in *. pose proof (type_at_range m _ _ Ht) as Ri. pose proof (type_at_range m _ _ Ht') as Rj.
    destruct (H i Ri) as (c & Ec & _ & _ & _ & Hiff). rewrite Ec in Hc. symmetry in Hc. apply Hiff in Hc; [|done].
    destruct (equiv_defs m WF i j Ri Rj Hc) as (tdi & tdj & Hti & Htj & Hk & _ & Hs & _).
    unfold type_at in *. rewrite Ht in Hti. rewrite Ht' in Htj. simplify_eq. split; [done|].
    destruct Hs as [[S1 S2]|(S1 & S2 & S3)]; [split; [done|]; by intros []|]. split; [done|]. intros _.
    pose proof (gw_super m WF _ _ Ht S1). pose proof (gw_super m WF _ _ Ht' S2).
    destruct (H (supertype tdi) ltac:(lia)) as (d & Ed & _ & _ & _ & Hd). rewrite Ed. symmetry. apply Hd; [lia|].
    eapply (ref_rel_equiv m i j); try done; lia.
Qed.

(** C15. For every module that the type section parser accepted, the canonical map is
    computed without a fault and identifies exactly the iso-recursively equivalent
    types: every type is mapped to an earlier, equivalent and canonical one, and two
    types get the same entry if and only if they are equivalent.  Sorting by hash and
    comparing runs of equal hashes thus loses nothing. *)
Theorem build_canonical_map_equiv m : groups_wf m ->
  exists cm, build_canonical_map m = Some cm /\ zlen cm = type_count m /\
  forall u, 0 <= u < type_count m -> exists c, zget cm u = Some c /\ 0 <= c <= u /\ zget cm c = Some c /\
    type_equiv m u c /\ forall v, 0 <= v < type_count m -> (zget cm v = Some c <-> type_equiv m u v).
Proof.
  intros WF. destruct (build_canonical_map_ok m WF) as (cm & E & Hm). exists cm. split; [done|].
  by apply map_upto_types.
Qed.

(** Equivalent recursion groups have equal hashes, so that the search by hash finds
    every group that structural equality would. *)
Theorem wah_rec_group_hash_respects m gh i j :
  groups_wf m -> group_hashes m = Some gh -> is_start m i -> is_start m j -> group_eq m i j ->
  exists h, wah_rec_group_hash m gh i = Some h /\ wah_rec_group_hash m gh j = Some h /\
    zget gh i = Some (Some h) /\ zget gh j = Some (Some h).
Proof.
  intros WF E Hi Hj Hg. destruct (group_hashes_ok m WF) as (gh' & E' & Hgh). assert (gh' = gh) as -> by congruence.
  destruct (group_eq_hash m WF gh Hgh i Hi j Hj Hg) as (h & G1 & G2).
  destruct (proj2 Hgh i Hi (proj2 (proj1 Hi))) as (h1 & E1 & R1).
  destruct (proj2 Hgh j Hj (proj2 (proj1 Hj))) as (h2 & E2 & R2). exists h. split_and!; congruence.
Qed.

(** C16. With the canonical map in place, subtyping of the module is total and is the
    declarative relation: the canonicalisation establishes the well-formedness that
    the subtype check relies on. *)
Theorem canonical_subtyping m cm sub sup :
  groups_wf m -> supers_same_kind m -> build_canonical_map m = Some cm ->
  let m' := set_canonical_map m cm in
  type_valid m' sub -> type_valid m' sup ->
  exists r, wah_type_is_subtype sub sup (Some m') = Some r /\ (r = true <-> type_sub m' sub sup).
Proof.
  intros WF HK E m' V1 V2. apply wah_type_is_subtype_correct; [|by left..]. by apply canonical_types_wf.
Qed.

(** Two copies of a recursion group of a struct and a function type that refer to each
    other, the second copy followed by a type that refers to the first. *)
Definition example_groups : wah_module_t :=
  let st t s := TypeDef WAH_COMP_STRUCT true false WAH_NO_SUPERTYPE [t] [true] s 2 in
  let fn s := TypeDef WAH_COMP_FUNC true false WAH_NO_SUPERTYPE [] [] s 2 in
  Module
    [FuncType [] []; FuncType [0] [-2]; FuncType [] []; FuncType [4] [-2]; FuncType [] []; FuncType [] []]
    [st 3 0; fn 0; st 7 2; fn 2;
     TypeDef WAH_COMP_ARRAY true false WAH_NO_SUPERTYPE [1] [false] 4 1;
     TypeDef WAH_COMP_ARRAY true false WAH_NO_SUPERTYPE [5] [false] 5 1]
    None None [] (FeatureState 0 0).

Lemma build_canonical_map_equiv_witness : type_equiv example_groups 3 1 /\ type_equiv example_groups 5 4.
Proof.
  destruct (build_canonical_map_equiv example_groups) as (cm & E & Hl & H).
  { apply groups_wf_b_correct. vm_compute. reflexivity. }
  assert (Ecm : build_canonical_map example_groups = Some [0; 1; 0; 1; 4; 4]) by (vm_compute; reflexivity).
  rewrite Ecm in E. injection E as <-. split.
  - destruct (H 3 ltac:(vm_compute; split; congruence)) as (c & Ec & _ & _ & He & _).
    vm_compute in Ec. injection Ec as <-. exact He.
  - destruct (H 5 ltac:(vm_compute; split; congruence)) as (c & Ec & _ & _ & He & _).
    vm_compute in Ec. injection Ec as <-. exact He.
Defined.

Lemma wah_rec_group_hash_respects_witness : exists h,
  wah_rec_group_hash example_groups (default [] (group_hashes example_groups)) 0 = Some h /\
  wah_rec_group_hash example_groups (default [] (group_hashes example_groups)) 2 = Some h.
Proof.
  assert (WF : groups_wf example_groups) by (apply groups_wf_b_correct; vm_compute; reflexivity).
  assert (He : group_eq example_groups 2 0).
  { destruct (build_canonical_map_ok example_groups WF) as (cm & E & Hm).
    assert (Ecm : build_canonical_map example_groups = Some [0; 1; 0; 1; 4; 4]) by (vm_compute; reflexivity).
    rewrite Ecm in E. injection E as <-.
    destruct (map_upto_types example_groups WF _ Hm) as [_ H].
    destruct (H 2 ltac:(vm_compute; split; congruence)) as (c & Ec & _ & _ & He & _).
    vm_compute in Ec. injection Ec as <-. exact (proj1 He). }
  destruct (wah_rec_group_hash_respects example_groups (default [] (group_hashes example_groups)) 2 0) as (h & H1 & H2 & _).
  - exact WF.
  - vm_compute. reflexivity.
  - vm_compute. split; [split|]; congruence.
  - vm_compute. split; [split|]; congruence.
  - exact He.
  - exists h. split; [exact H2|exact H1].
Defined.

Lemma canonical_subtyping_witness :
  type_sub (set_canonical_map example_groups [0; 1; 0; 1; 4; 4]) (WAH_TYPE_FROM_IDX 3 false) (WAH_TYPE_FROM_IDX 1 true).
Proof.
  assert (WF : groups_wf example_groups) by (apply groups_wf_b_correct; vm_compute; reflexivity).
  destruct (canonical_subtyping example_groups [0; 1; 0; 1; 4; 4] (WAH_TYPE_FROM_IDX 3 false) (WAH_TYPE_FROM_IDX 1 true))
    as (r & E & H).
  - exact WF.
  - intros i td td' Hi Hs. exfalso. apply Hs. revert Hi. unfold type_at, zget.
    destruct (i <? 0); [discriminate|]. destruct (Z.to_nat i) as [|[|[|[|[|[|n]]]]]]; simpl; intros E; inversion E; reflexivity.
  - vm_compute. reflexivity.
  - right; right; split; vm_compute; try split; congruence.
  - right; right; split; vm_compute; try split; congruence.
  - apply H. vm_compute in E. congruence.
Defined.
