(* ===== verification/Layout.v ===== *)
(** * Layouts of structs

    [wah_build_struct_repr_info] places the fields of a struct one by one: a field goes
    into the smallest free slot that holds it, or opens 16 new bytes.  Fields do not
    overlap and are aligned, less than 16 bytes are wasted, and the layout of a subtype
    extends that of its supertype. *)

From S2P Require Import Prelude Base Alloc Types.
From stdpp Require Import list sets.
#[local] Open Scope Z_scope.
#[local] Open Scope wah_scope.

(** ** Definitions *)

(** The size of a field and its representation. *)
Definition wah_field_type_layout (ft : wah_type_t) : result (Z * wah_repr_t) :=
  if (ft =? WAH_TYPE_PACKED_I8) then Ok (1, WAH_REPR_NONE)
  else if (ft =? WAH_TYPE_PACKED_I16) then Ok (2, WAH_REPR_NONE)
  else if (ft =? WAH_TYPE_I32) || (ft =? WAH_TYPE_F32) then Ok (4, WAH_REPR_NONE)
  else if (ft =? WAH_TYPE_I64) || (ft =? WAH_TYPE_F64) then Ok (8, WAH_REPR_NONE)
  else if ft =? WAH_TYPE_V128 then Ok (16, WAH_REPR_NONE)
  else if WAH_TYPE_IS_REF ft then Ok (8, WAH_REPR_REF)
  else Err WAH_ERROR_VALIDATION_FAILED.

(** [wah_layout_slot_list_t]: [count] is the length of [offsets]. *)
Record wah_layout_slot_list_t := SlotList { sl_offsets : list Z; sl_cap : Z }.

(** The variables of the loop of [wah_build_struct_repr_info]: the lists of free slots of
    1, 2, 4 and 8 bytes, and the fields placed so far. *)
Record layout_state := Layout {
  l_ans : answers;
  l_slots : list wah_layout_slot_list_t;
  l_frontier : Z;
  l_live_end : Z;
  l_fields : list wah_repr_field_t }.

Definition l_set_slots sl s := Layout (l_ans s) sl (l_frontier s) (l_live_end s) (l_fields s).
Definition l_set_frontier f s := Layout (l_ans s) (l_slots s) f (l_live_end s) (l_fields s).
Definition on_l_ans {A} (m : comp answers A) : comp layout_state A := fun s =>
  let '(r, a) := m (l_ans s) in (r, Layout a (l_slots s) (l_frontier s) (l_live_end s) (l_fields s)).
(** A failed assertion is a fault. *)
Definition l_assert (b : bool) : comp layout_state unit := fun s => if b then (Ok tt, s) else (Fault, s).
Definition l_result {A} (r : result A) : comp layout_state A := fun s => (r, s).

Definition wah_layout_slot_index (size : Z) : result Z :=
  if size =? 1 then Ok 0 else if size =? 2 then Ok 1 else if size =? 4 then Ok 2
  else if size =? 8 then Ok 3 else Fault.

(** The loop that shifts larger offsets up, from the end: on the reversed array. *)
Fixpoint shift_insert (offset : Z) (rl : list Z) : list Z :=
  match rl with
  | x :: rl' => if offset <? x then x :: shift_insert offset rl' else offset :: rl
  | [] => [offset]
  end.

Definition wah_layout_slot_push (size offset : Z) : comp layout_state unit :=
  l_assert ((size =? 1) || (size =? 2) || (size =? 4) || (size =? 8)) ;;;
  l_assert (Z.land offset (size - 1) =? 0) ;;;
  i <- l_result (wah_layout_slot_index size) ;;
  s <- stm_get ;;
  sl <- stm_opt (zget (l_slots s) i) ;;
  cap <- on_l_ans (wah_grow_array (zlen (sl_offsets sl) + 1) 4 (sl_cap sl)) ;;
  s <- stm_get ;;
  slots <- stm_opt (zset (l_slots s) i (SlotList (reverse (shift_insert offset (reverse (sl_offsets sl)))) cap)) ;;
  stm_put (l_set_slots slots s).

(** [None] is the result [false]. *)
Definition wah_layout_slot_pop (size : Z) : comp layout_state (option Z) :=
  i <- l_result (wah_layout_slot_index size) ;;
  s <- stm_get ;;
  sl <- stm_opt (zget (l_slots s) i) ;;
  match sl_offsets sl with
  | [] => stm_ret None
  | o :: os =>
      slots <- stm_opt (zset (l_slots s) i (SlotList os (sl_cap sl))) ;;
      stm_put (l_set_slots slots s) ;;;
      stm_ret (Some o)
  end.

(** The loops on sizes halve or double a size from 1 to 16, so that 5 iterations are
    enough. *)
Fixpoint split_slot (fuel : nat) (offset from_size used_size : Z) : comp layout_state unit :=
  match fuel with
  | O => fun s => (Fault, s)
  | S fuel' =>
      if used_size <=? from_size / 2 then
        let from_size := from_size / 2 in
        wah_layout_slot_push from_size (u32 (offset + from_size)) ;;;
        split_slot fuel' offset from_size used_size
      else stm_ret tt
  end.
Definition wah_layout_split_slot (offset from_size used_size : Z) : comp layout_state unit :=
  split_slot 5 offset from_size used_size.

Fixpoint tail_slots (fuel : nat) (base size used_size : Z) : comp layout_state unit :=
  match fuel with
  | O => fun s => (Fault, s)
  | S fuel' =>
      if (used_size <=? size) && (0 <? size) then
        wah_layout_slot_push size (u32 (base + size)) ;;;
        if size =? 1 then stm_ret tt else tail_slots fuel' base (size / 2) used_size
      else stm_ret tt
  end.
Definition wah_layout_record_tail_slots (base used_size : Z) : comp layout_state unit :=
  l_assert ((used_size =? 1) || (used_size =? 2) || (used_size =? 4) || (used_size =? 8) || (used_size =? 16)) ;;;
  tail_slots 5 base 8 used_size.

(** [while (slot_size <= 8 && !wah_layout_slot_pop(...)) slot_size *= 2]. *)
Fixpoint find_slot (fuel : nat) (slot_size : Z) : comp layout_state (option (Z * Z)) :=
  match fuel with
  | O => fun s => (Fault, s)
  | S fuel' =>
      if slot_size <=? 8 then
        o <- wah_layout_slot_pop slot_size ;;
        match o with
        | Some o => stm_ret (Some (slot_size, o))
        | None => find_slot fuel' (slot_size * 2)
        end
      else stm_ret None
  end.

(** 16 new bytes. *)
Definition take_frontier : comp layout_state Z :=
  s <- stm_get ;;
  stm_ensure (l_frontier s <=? UINT32_MAX - 16) WAH_ERROR_TOO_LARGE ;;;
  stm_put (l_set_frontier (l_frontier s + 16) s) ;;;
  stm_ret (l_frontier s).

Definition place_size (field_size : Z) : comp layout_state Z :=
  if field_size =? 16 then take_frontier
  else
    o <- wah_layout_slot_pop field_size ;;
    match o with
    | Some o => stm_ret o
    | None =>
        slot <- find_slot 5 (field_size * 2) ;;
        match slot with
        | Some (slot_size, o) => wah_layout_split_slot o slot_size field_size ;;; stm_ret o
        | None =>
            o <- take_frontier ;;
            wah_layout_record_tail_slots o field_size ;;;
            stm_ret o
        end
    end.

(** [field_size > 0 && field_size <= 16] and a power of two. *)
Definition size_ok (field_size : Z) : bool :=
  (0 <? field_size) && (field_size <=? 16) && (Z.land field_size (field_size - 1) =? 0).

Definition place_field (ft : wah_type_t) : comp layout_state unit :=
  ' (field_size, field_repr) <- l_result (wah_field_type_layout ft) ;;
  stm_ensure (size_ok field_size) WAH_ERROR_VALIDATION_FAILED ;;;
  offset <- place_size field_size ;;
  stm_ensure (offset <=? UINT32_MAX - field_size) WAH_ERROR_TOO_LARGE ;;;
  s <- stm_get ;;
  stm_put (Layout (l_ans s) (l_slots s) (l_frontier s)
             (if l_live_end s <? offset + field_size then offset + field_size else l_live_end s)
             (l_fields s ++ [ReprField offset field_repr])).

Fixpoint place_fields (fts : list wah_type_t) : comp layout_state unit :=
  match fts with
  | [] => stm_ret tt
  | ft :: fts' => place_field ft ;;; place_fields fts'
  end.

Definition sizeof_wah_repr_field_t : Z := 8.
Definition sizeof_wah_repr_info_t : Z := 16.
Definition layout_start (a : answers) : layout_state := Layout a (replicate 4 (SlotList [] 0)) 0 0 [].

(** [wah_validate_struct_repr_info] of a debug build: [used] marks the bytes of structs
    of at most 4096 bytes.  Other builds do nothing. *)
Definition mark_bytes (used : list bool) (offset size : Z) : result (list bool) :=
  match foldM (fun used j =>
    b ← zget used (offset + j); if (b : bool) then None else zset used (offset + j) true) used (zrange 0 size) with
  | Some used => Ok used
  | None => Err WAH_ERROR_VALIDATION_FAILED
  end.

Fixpoint check_fields (fts : list wah_type_t) (fs : list wah_repr_field_t) (size field_bytes : Z)
    (used : option (list bool)) : result Z :=
  match fts, fs with
  | [], _ => Ok field_bytes
  | ft :: fts', f :: fs' =>
      match wah_field_type_layout ft with
      | Ok (field_size, field_repr) =>
          if size_ok field_size && (Z.land (fld_offset f) (field_size - 1) =? 0) &&
             (fld_offset f <=? size) && (field_size <=? size - fld_offset f) && (fld_repr_id f =? field_repr) then
            match used with
            | Some u =>
                match mark_bytes u (fld_offset f) field_size with
                | Ok u => check_fields fts' fs' size (field_bytes + field_size) (Some u)
                | Err e => Err e
                | Fault => Fault
                end
            | None => check_fields fts' fs' size (field_bytes + field_size) None
            end
          else Err WAH_ERROR_VALIDATION_FAILED
      | Err e => Err e
      | Fault => Fault
      end
  | _ :: _, [] => Fault
  end.

Definition wah_validate_struct_repr_info (td : wah_type_def_t) (info : wah_repr_info_t) : result unit :=
  match repr_type info with
  | WAH_REPR_STRUCT =>
      let used := if (0 <? repr_size info) && (repr_size info <=? 4096)
                  then Some (replicate (Z.to_nat (repr_size info)) false) else None in
      match check_fields (field_types td) (repr_fields info) (repr_size info) 0 used with
      | Ok field_bytes =>
          if (field_bytes <=? repr_size info) && (repr_size info - field_bytes <=? 15) then Ok tt
          else Err WAH_ERROR_VALIDATION_FAILED
      | Err e => Err e
      | Fault => Fault
      end
  | _ => Err WAH_ERROR_MISUSE
  end.

(** A release build, in which the check above is empty; its theorem shows that a debug build
    gets the same result, as the check succeeds. *)
Definition wah_build_struct_repr_info (typeidx : Z) (td : wah_type_def_t) : comp answers wah_repr_info_t := fun a =>
  match (stm_ensure (comp_kind_eqb (kind td) WAH_COMP_STRUCT) WAH_ERROR_MISUSE ;;;
         wah_malloc_c (zlen (field_types td)) sizeof_wah_repr_field_t) a with
  | (Ok _, a) =>
      match place_fields (field_types td) (layout_start a) with
      | (Ok _, s) =>
          let max_fields := (SIZE_MAX - sizeof_wah_repr_info_t) / sizeof_wah_repr_field_t in
          (stm_ensure (negb ((max_fields <? UINT32_MAX) && (max_fields <? zlen (field_types td)))) WAH_ERROR_TOO_LARGE ;;;
           wah_malloc_c 1 (u64 (sizeof_wah_repr_info_t + zlen (field_types td) * sizeof_wah_repr_field_t)) ;;;
           stm_ret (ReprInfo WAH_REPR_STRUCT typeidx (l_live_end s) (l_fields s))) (l_ans s)
      | (Err e, s) => (Err e, l_ans s)
      | (Fault, s) => (Fault, l_ans s)
      end
  | (Err e, a) => (Err e, a)
  | (Fault, a) => (Fault, a)
  end.

(** *** What a layout promises *)

Definition pow2 (n : nat) : Z := 2 ^ Z.of_nat n.

(** A piece of a struct: its offset and size. *)
Definition piece : Type := Z * Z.
Definition piece_bytes (p : piece) : list Z := zrange p.1 (p.1 + p.2).
Definition pieces_bytes (ps : list piece) : list Z := concat (piece_bytes <$> ps).
Definition aligned (p : piece) : Prop := 0 <= p.1 /\ 0 < p.2 /\ p.1 mod p.2 = 0.
Definition pieces_end (ps : list piece) : Z := foldr (fun p e => Z.max (p.1 + p.2) e) 0 ps.
Definition pieces_size (ps : list piece) : Z := foldr (fun p n => p.2 + n) 0 ps.

(** The free slots, [k] being the index of the first list. *)
Fixpoint free_from (k : nat) (slots : list wah_layout_slot_list_t) : list piece :=
  match slots with
  | [] => []
  | sl :: slots' => ((fun o => (o, pow2 k)) <$> sl_offsets sl) ++ free_from (S k) slots'
  end.

(** A list of free slots that never holds more than one. *)
Record slot_list_ok (sl : wah_layout_slot_list_t) : Prop := {
  slo_one : zlen (sl_offsets sl) <= 1;
  slo_cap : zlen (sl_offsets sl) <= sl_cap sl;
  slo_cap_ok : cap_ok (sl_cap sl) }.

(** The pieces [ps] used so far and the free slots tile all bytes up to the frontier. *)
Record layout_inv (ps : list piece) (s : layout_state) : Prop := {
  li_count : length (l_slots s) = 4%nat;
  li_lists : Forall slot_list_ok (l_slots s);
  li_tiles : pieces_bytes (ps ++ free_from 0 (l_slots s)) ≡ₚ zrange 0 (l_frontier s);
  li_aligned : Forall aligned (ps ++ free_from 0 (l_slots s));
  li_frontier : 0 <= l_frontier s <= UINT32_MAX /\ l_frontier s mod 16 = 0 }.

(** ** Theorems *)

(** *** Pieces *)

Lemma pow2_pos n : 0 < pow2 n.
Proof. apply Z.pow_pos_nonneg; lia. Qed.
Lemma pow2_S n : pow2 (S n) = 2 * pow2 n.
Proof. unfold pow2. rewrite Nat2Z.inj_succ, Z.pow_succ_r by lia. done. Qed.
Lemma pow2_half n : pow2 (S n) / 2 = pow2 n.
Proof. rewrite pow2_S, Z.mul_comm. apply Z.div_mul. lia. Qed.
Lemma pow2_le m n : (m <= n)%nat -> pow2 m <= pow2 n.
Proof. intros. apply Z.pow_le_mono_r; lia. Qed.
Lemma pow2_lt m n : (m < n)%nat -> pow2 m < pow2 n.
Proof. intros. apply Z.pow_lt_mono_r; lia. Qed.
Lemma pow2_divides m n : (m <= n)%nat -> pow2 n mod pow2 m = 0.
Proof.
  intros. unfold pow2. replace (Z.of_nat n) with (Z.of_nat (n - m) + Z.of_nat m) by lia.
  rewrite Z.pow_add_r by lia. apply Z_mod_mult.
Qed.

Lemma zrange_app a b c : a <= b <= c -> zrange a c = zrange a b ++ zrange b c.
Proof.
  intros H. unfold zrange. replace (Z.to_nat (c - a)) with (Z.to_nat (b - a) + Z.to_nat (c - b))%nat by lia.
  rewrite seq_app, fmap_app. f_equal. rewrite Nat.add_0_l, <- (Nat.add_0_r (Z.to_nat (b - a))), <- fmap_add_seq, <- list_fmap_compose.
  apply list_fmap_ext. intros i k _. simpl. lia.
Qed.
Lemma zrange_length a b : length (zrange a b) = Z.to_nat (b - a).
Proof. unfold zrange. by rewrite length_fmap, length_seq. Qed.
Lemma zrange_NoDup a b : NoDup (zrange a b).
Proof. unfold zrange. apply NoDup_fmap_2; [intros x y ?; lia|apply NoDup_seq]. Qed.

Lemma pieces_bytes_cons p ps : pieces_bytes (p :: ps) = piece_bytes p ++ pieces_bytes ps.
Proof. done. Qed.
Lemma pieces_bytes_app ps qs : pieces_bytes (ps ++ qs) = pieces_bytes ps ++ pieces_bytes qs.
Proof. unfold pieces_bytes. by rewrite fmap_app, concat_app. Qed.
#[export] Instance pieces_bytes_perm : Proper (Permutation ==> Permutation) pieces_bytes.
Proof.
  induction 1 as [|p ps qs _ IH|p q ps|]; [done| | |by etrans]; rewrite !pieces_bytes_cons; [by rewrite IH|].
  rewrite !(assoc_L (++)). by rewrite (Permutation_app_comm (piece_bytes p)).
Qed.
Lemma pieces_bytes_length ps : Forall (fun p => 0 <= p.2) ps -> Z.of_nat (length (pieces_bytes ps)) = pieces_size ps.
Proof.
  induction 1 as [|p ps Hp _ IH]; [done|]. rewrite pieces_bytes_cons, length_app, Nat2Z.inj_add, IH.
  unfold piece_bytes. rewrite zrange_length. simpl. lia.
Qed.

Lemma free_from_insert k slots i sl os c : slots !! i = Some sl -> sl_offsets sl = [] ->
  free_from k (<[i := SlotList os c]> slots) ≡ₚ ((fun o => (o, pow2 (k + i))) <$> os) ++ free_from k slots.
Proof.
  revert k i. induction slots as [|sl0 slots IH]; intros k [|i] Hi Ho; simpl in *; simplify_eq.
  - by rewrite Ho, Nat.add_0_r.
  - rewrite (IH (S k) i Hi Ho). replace (S k + i)%nat with (k + S i)%nat by lia.
    rewrite !(assoc_L (++)). by rewrite (Permutation_app_comm ((fun o => (o, pow2 k)) <$> sl_offsets sl0)).
Qed.
Lemma free_from_remove k slots i sl c : slots !! i = Some sl ->
  free_from k slots ≡ₚ ((fun o => (o, pow2 (k + i))) <$> sl_offsets sl) ++ free_from k (<[i := SlotList [] c]> slots).
Proof.
  intros Hi. rewrite <- (free_from_insert k (<[i := SlotList [] c]> slots) i (SlotList [] c) _ (sl_cap sl)).
  - rewrite list_insert_insert_eq. replace (SlotList (sl_offsets sl) (sl_cap sl)) with sl by (by destruct sl).
    by rewrite list_insert_id.
  - apply list_lookup_insert_eq. by eapply lookup_lt_Some.
  - done.
Qed.

(** *** The operations on slots *)

Definition slots_ok (sls : list wah_layout_slot_list_t) : Prop := length sls = 4%nat /\ Forall slot_list_ok sls.
(** The lists from [lo] up to [hi] are empty. *)
Definition empty_slots (sls : list wah_layout_slot_list_t) (lo hi : nat) : Prop :=
  forall i sl, (lo <= i < hi)%nat -> sls !! i = Some sl -> sl_offsets sl = [].
(** Only the slots and the allocator change. *)
Definition same_fields (s s' : layout_state) : Prop :=
  l_frontier s' = l_frontier s /\ l_live_end s' = l_live_end s /\ l_fields s' = l_fields s.

Lemma wp_l_assert b (Q : unit -> layout_state -> Prop) s : b = true -> Q tt s -> wp (l_assert b) Q s.
Proof. by intros -> HQ. Qed.
Lemma wp_l_result {A} (r : result A) a (Q : A -> layout_state -> Prop) s : r = Ok a -> Q a s -> wp (l_result r) Q s.
Proof. by intros -> HQ. Qed.

Lemma slot_index_pow2 k : (k < 4)%nat -> wah_layout_slot_index (pow2 k) = Ok (Z.of_nat k).
Proof. intros. by destruct k as [|[|[|[|]]]]; [..|lia]. Qed.
Lemma land_pow2 o k : Z.land o (pow2 k - 1) = o mod pow2 k.
Proof. unfold pow2. rewrite <- Z.land_ones by lia. by rewrite Z.ones_equiv, Z.sub_1_r. Qed.

Lemma slots_ok_insert sls k sl : slots_ok sls -> slot_list_ok sl -> slots_ok (<[k := sl]> sls).
Proof. intros [H1 H2] H. split; [by rewrite length_insert|by apply Forall_insert]. Qed.
Lemma slots_at sls k : slots_ok sls -> (k < 4)%nat -> exists sl, sls !! k = Some sl /\ slot_list_ok sl.
Proof.
  intros [H1 H2] Hk. destruct (lookup_lt_is_Some_2 sls k) as [sl Hsl]; [lia|]. exists sl. split; [done|].
  by eapply Forall_lookup_1.
Qed.
Lemma slots_zget (sls : list wah_layout_slot_list_t) k : zget sls (Z.of_nat k) = sls !! k.
Proof. apply zget_of_nat. Qed.
Lemma slots_zset sls k sl : slots_ok sls -> (k < 4)%nat -> zset sls (Z.of_nat k) sl = Some (<[k := sl]> sls).
Proof. intros [H _] Hk. rewrite zset_Some by (unfold zlen; lia). by rewrite Nat2Z.id. Qed.

Lemma wp_slot_push k o (Q : unit -> layout_state -> Prop) s : (k < 4)%nat -> o mod pow2 k = 0 ->
  slots_ok (l_slots s) -> empty_slots (l_slots s) k (S k) ->
  (forall s', same_fields s s' -> slots_ok (l_slots s') ->
     (exists c, l_slots s' = <[k := SlotList [o] c]> (l_slots s)) -> Q tt s') ->
  wp (wah_layout_slot_push (pow2 k) o) Q s.
Proof.
  intros Hk Ho Hs He HQ. unfold wah_layout_slot_push.
  apply wp_bind, wp_l_assert. { by destruct k as [|[|[|[|]]]]; [..|lia]. }
  apply wp_bind, wp_l_assert. { rewrite land_pow2, Ho. done. }
  apply wp_bind. eapply wp_l_result; [by apply slot_index_pow2|]. apply wp_bind, wp_get.
  destruct (slots_at _ _ Hs Hk) as (sl & Hsl & Hok). apply wp_bind. eapply wp_opt; [by rewrite slots_zget|].
  assert (Hnil : sl_offsets sl = []) by (eapply He; [|exact Hsl]; lia). rewrite Hnil.
  change (zlen (A:=Z) [] + 1) with 1. apply wp_bind.
  pose proof (wah_grow_array_cap 1 4 (sl_cap sl) (l_ans s) (slo_cap_ok _ Hok) ltac:(lia)) as Hg.
  unfold wp at 1, on_l_ans. destruct (wah_grow_array _ _ _ _) as [[cap|e|] a]; [|done|done].
  apply wp_bind, wp_get, wp_bind. cbn [l_slots]. eapply wp_opt; [by apply slots_zset|]. apply wp_put. apply HQ.
  - done.
  - apply slots_ok_insert; [done|]. destruct Hg as (H1 & _ & H2). split; [done|cbn [sl_cap]; exact H1|done].
  - by exists cap.
Qed.

(** What is popped is removed from the free slots. *)
Lemma wp_slot_pop k (Q : option Z -> layout_state -> Prop) s : (k < 4)%nat -> slots_ok (l_slots s) ->
  (empty_slots (l_slots s) k (S k) -> Q None s) ->
  (forall o s', same_fields s s' -> slots_ok (l_slots s') -> empty_slots (l_slots s') k (S k) ->
     (exists c, l_slots s' = <[k := SlotList [] c]> (l_slots s)) ->
     free_from 0 (l_slots s) ≡ₚ (o, pow2 k) :: free_from 0 (l_slots s') -> Q (Some o) s') ->
  wp (wah_layout_slot_pop (pow2 k)) Q s.
Proof.
  intros Hk Hs HN HS. unfold wah_layout_slot_pop. apply wp_bind. eapply wp_l_result; [by apply slot_index_pow2|].
  apply wp_bind, wp_get. destruct (slots_at _ _ Hs Hk) as (sl & Hsl & Hok). apply wp_bind. eapply wp_opt; [by rewrite slots_zget|].
  destruct (sl_offsets sl) as [|o os] eqn:Eo.
  { apply wp_ret, HN. intros i sl' Hi Hl. assert (i = k) as -> by lia. by simplify_eq. }
  assert (os = []) as ->. { pose proof (slo_one _ Hok) as H. rewrite Eo in H. destruct os; [done|]. unfold zlen in H. simpl in H. lia. }
  apply wp_bind. eapply wp_opt; [by apply slots_zset|]. apply wp_bind, wp_put, wp_ret. apply HS.
  - done.
  - apply slots_ok_insert; [done|]. destruct Hok as [H1 H2 H3]. split; try done. rewrite Eo in H2. unfold zlen in *. simpl in *. lia.
  - intros i sl' Hi Hl. assert (i = k) as -> by lia. simpl in Hl.
    rewrite list_lookup_insert_eq in Hl by (destruct Hs; lia). by simplify_eq.
  - by eexists.
  - simpl. by rewrite (free_from_remove 0 (l_slots s) k sl (sl_cap sl) Hsl), Eo.
Qed.

Lemma empty_slots_insert sls lo hi i c : empty_slots sls lo hi -> empty_slots (<[i := SlotList [] c]> sls) lo hi.
Proof.
  intros He j sl Hj Hl. destruct (decide (i = j)) as [->|Hne].
  - apply list_lookup_insert_Some in Hl as [(_ & <- & _)|(? & _)]; done.
  - rewrite list_lookup_insert_ne in Hl by done. by eapply He.
Qed.
Lemma empty_slots_extend sls lo mid hi : empty_slots sls lo mid -> empty_slots sls mid hi -> empty_slots sls lo hi.
Proof. intros H1 H2 i sl Hi. destruct (decide (i < mid)%nat); [apply H1; lia|apply H2; lia]. Qed.
Lemma empty_slots_sub sls lo hi lo' hi' : empty_slots sls lo hi -> (lo <= lo')%nat -> (hi' <= hi)%nat -> empty_slots sls lo' hi'.
Proof. intros H ?? i sl Hi. apply H. lia. Qed.

Lemma wp_find_slot fuel j k (Q : option (Z * Z) -> layout_state -> Prop) s : (k <= j <= 4)%nat -> (5 - j <= fuel)%nat ->
  slots_ok (l_slots s) -> empty_slots (l_slots s) k j ->
  (empty_slots (l_slots s) k 4 -> Q None s) ->
  (forall i o s', (j <= i < 4)%nat -> same_fields s s' -> slots_ok (l_slots s') -> empty_slots (l_slots s') k (S i) ->
     free_from 0 (l_slots s) ≡ₚ (o, pow2 i) :: free_from 0 (l_slots s') -> Q (Some (pow2 i, o)) s') ->
  wp (find_slot fuel (pow2 j)) Q s.
Proof.
  revert j. induction fuel as [|fuel IH]; intros j Hj Hf Hs He HN HS; [lia|]. cbn [find_slot].
  destruct (decide (j = 4%nat)) as [->|Hne]; [by apply HN|].
  assert ((pow2 j <=? 8) = true) as ->. { apply Z.leb_le. change 8 with (pow2 3). apply pow2_le. lia. }
  apply wp_bind, wp_slot_pop; [lia|done| |].
  - intros Hej. replace (pow2 j * 2) with (pow2 (S j)) by (rewrite pow2_S; lia).
    apply IH; [lia|lia|done|by eapply empty_slots_extend|done|]. intros i o s' Hi. apply HS. lia.
  - intros o s' Hsf Hs' Hej [c Hc] Hfree. apply wp_ret, HS; [lia|done|done| |done].
    eapply empty_slots_extend; [|exact Hej]. rewrite Hc. by apply empty_slots_insert.
Qed.

(** The pieces cut off a slot. *)
Definition cut_ok (o k j : Z) (new : list piece) : Prop :=
  pieces_bytes ((o, k) :: new) ≡ₚ zrange o (o + j) /\ Forall aligned new.

Lemma mod_pow2_le o i j : (i <= j)%nat -> o mod pow2 j = 0 -> o mod pow2 i = 0.
Proof.
  intros Hij H. apply Z.mod_divide; [pose proof (pow2_pos i); lia|]. apply Z.mod_divide in H; [|pose proof (pow2_pos j); lia].
  etrans; [|exact H]. apply Z.mod_divide; [pose proof (pow2_pos i); lia|]. by apply pow2_divides.
Qed.
Lemma add_pow2_mod o i : o mod pow2 (S i) = 0 -> (o + pow2 i) mod pow2 i = 0.
Proof.
  intros H. pose proof (pow2_pos i). rewrite <- (Z.mul_1_l (pow2 i)) at 1. rewrite Z_mod_plus_full.
  eapply mod_pow2_le; [|exact H]. lia.
Qed.
Lemma cut_cons o k i new : 0 <= o -> o mod pow2 (S i) = 0 -> cut_ok o k (pow2 i) new ->
  cut_ok o k (pow2 (S i)) ((o + pow2 i, pow2 i) :: new).
Proof.
  intros Ho Hm [H1 H2]. pose proof (pow2_pos i). split.
  - rewrite (Permutation_swap (o + pow2 i, pow2 i)), pieces_bytes_cons, H1.
    rewrite (zrange_app o (o + pow2 i) (o + pow2 (S i))) by (rewrite pow2_S; lia).
    rewrite Permutation_app_comm. unfold piece_bytes. cbn [fst snd].
    by replace (o + pow2 i + pow2 i) with (o + pow2 (S i)) by (rewrite pow2_S; lia).
  - constructor; [|done]. split; [simpl; lia|]. split; [done|]. cbn [fst snd]. by apply add_pow2_mod.
Qed.
Lemma cut_nil o k : cut_ok o k k [].
Proof. split; [|constructor]. unfold pieces_bytes, piece_bytes. simpl. by rewrite app_nil_r. Qed.

Lemma wp_split_slot fuel j k o (Q : unit -> layout_state -> Prop) s : (k <= j <= 4)%nat -> (j - k < fuel)%nat ->
  0 <= o -> o + pow2 j <= UINT32_MAX -> o mod pow2 j = 0 ->
  slots_ok (l_slots s) -> empty_slots (l_slots s) k j ->
  (forall s' new, same_fields s s' -> slots_ok (l_slots s') -> cut_ok o (pow2 k) (pow2 j) new ->
     free_from 0 (l_slots s') ≡ₚ new ++ free_from 0 (l_slots s) -> Q tt s') ->
  wp (split_slot fuel o (pow2 j) (pow2 k)) Q s.
Proof.
  revert j Q s. induction fuel as [|fuel IH]; intros j Q s Hj Hf Ho Hmax Hm Hs He HQ; [lia|]. cbn [split_slot].
  destruct (decide (j = k)) as [->|Hne].
  { pose proof (pow2_pos k). assert ((pow2 k <=? pow2 k / 2) = false) as ->.
    { apply Z.leb_gt. apply Z.div_lt; lia. }
    apply wp_ret, (HQ s []); [done|done|apply cut_nil|done]. }
  destruct j as [|j]; [lia|]. rewrite pow2_half. pose proof (pow2_pos j). pose proof (pow2_S j).
  assert ((pow2 k <=? pow2 j) = true) as ->. { apply Z.leb_le, pow2_le. lia. }
  cbv zeta. rewrite (u32_small (o + pow2 j)) by (unfold UINT32_MAX in *; lia).
  apply wp_bind, wp_slot_push; [lia|by apply add_pow2_mod|done|eapply empty_slots_sub; [exact He|lia|lia]|].
  intros s1 Hf1 Hs1 [c Hc].
  destruct (slots_at _ j Hs ltac:(lia)) as (sl & Hsl & _).
  assert (Hnil : sl_offsets sl = []) by (eapply He; [|exact Hsl]; lia).
  pose proof (free_from_insert 0 _ _ _ [o + pow2 j] c Hsl Hnil) as Hfree. rewrite <- Hc in Hfree. simpl in Hfree.
  apply IH; [lia|lia|done|lia|eapply mod_pow2_le; [|exact Hm]; lia|done| |].
  - intros i x Hi Hx. rewrite Hc, list_lookup_insert_ne in Hx by lia. eapply He; [|exact Hx]. lia.
  - intros s' new Hf' Hs' Hcut Hfr. apply (HQ s' ((o + pow2 j, pow2 j) :: new)); [|done|by apply cut_cons|].
    + destruct Hf1 as (?&?&?), Hf' as (?&?&?). split_and!; congruence.
    + rewrite Hfr, Hfree. simpl. by rewrite Permutation_middle.
Qed.

(** The rest of 16 new bytes is cut as a slot of 16 bytes would be. *)
Lemma tail_slots_split fuel b j k s : (k <= j < 4)%nat -> (j - k + 1 < fuel)%nat ->
  tail_slots fuel b (pow2 j) (pow2 k) s = split_slot fuel b (pow2 (S j)) (pow2 k) s.
Proof.
  revert j s. induction fuel as [|fuel IH]; intros j s Hj Hf; [lia|]. cbn [tail_slots split_slot]. rewrite pow2_half.
  assert ((pow2 k <=? pow2 j) = true) as ->. { apply Z.leb_le, pow2_le. lia. }
  pose proof (pow2_pos j). assert ((0 <? pow2 j) = true) as -> by lia. cbv zeta. cbn [andb].
  unfold stm_bind. destruct (wah_layout_slot_push _ _ s) as [[[]|e|] s1]; [|done|done].
  destruct (decide (j = k)) as [->|Hne].
  - assert (Hlt : (pow2 k <=? pow2 k / 2) = false) by (apply Z.leb_gt, Z.div_lt; lia).
    destruct fuel; [lia|]. cbn [tail_slots split_slot]. rewrite Hlt. by destruct (pow2 k =? 1).
  - destruct j as [|j]; [lia|]. pose proof (pow2_S j). pose proof (pow2_pos j).
    destruct (Z.eqb_spec (pow2 (S j)) 1); [lia|]. rewrite pow2_half. apply IH; lia.
Qed.

Lemma wp_same {A} (m m' : comp layout_state A) Q s : m s = m' s -> wp m' Q s -> wp m Q s.
Proof. unfold wp. by intros ->. Qed.

(** *** One field *)

(** A new piece has been taken. *)
Definition placed (ps : list piece) (k : nat) (s : layout_state) (o : Z) (s' : layout_state) : Prop :=
  layout_inv (ps ++ [(o, pow2 k)]) s' /\ l_live_end s' = l_live_end s /\ l_fields s' = l_fields s.

Lemma inv_slots ps s : layout_inv ps s -> slots_ok (l_slots s).
Proof. by intros [H1 H2 _ _ _]. Qed.

Lemma pieces_bytes_split ps p new rest :
  pieces_bytes ((ps ++ [p]) ++ new ++ rest) = pieces_bytes ps ++ pieces_bytes (p :: new) ++ pieces_bytes rest.
Proof. rewrite <- (assoc_L (++)). simpl. change (p :: new ++ rest) with ((p :: new) ++ rest). by rewrite !pieces_bytes_app. Qed.

(** The pieces of a free slot, used and not, take its place. *)
Lemma layout_inv_cut ps s s' k n o new rest : layout_inv ps s -> l_frontier s' = l_frontier s -> slots_ok (l_slots s') ->
  free_from 0 (l_slots s) ≡ₚ (o, n) :: rest -> free_from 0 (l_slots s') ≡ₚ new ++ rest ->
  cut_ok o (pow2 k) n new -> 0 <= o -> o mod pow2 k = 0 -> layout_inv (ps ++ [(o, pow2 k)]) s'.
Proof.
  intros [H1 H2 H3 H4 H5] Hfr [Hl Hs] Hold Hnew [Hcut Hal] Ho Hm. split; [done|done| | |by rewrite Hfr].
  - by rewrite Hfr, <- H3, Hold, Hnew, pieces_bytes_split, Hcut, pieces_bytes_app, (pieces_bytes_cons (o, n)).
  - rewrite Hold in H4. rewrite Hnew, <- (assoc_L (++)). apply Forall_app in H4 as [Hps H4]. apply Forall_cons in H4 as [_ H4].
    apply Forall_app. split; [done|]. simpl. constructor; [split; [done|]; split; [apply pow2_pos|done]|]. by apply Forall_app.
Qed.

Lemma free_piece ps s o n rest : layout_inv ps s -> free_from 0 (l_slots s) ≡ₚ (o, n) :: rest ->
  0 <= o /\ 0 < n /\ o mod n = 0 /\ o + n <= l_frontier s.
Proof.
  intros [_ _ H3 H4 _] Hf. rewrite Hf in H3, H4. apply Forall_app in H4 as [_ H4]. apply Forall_cons in H4 as [[Ho [Hn Hm]] _].
  simpl in *. split_and!; try done. assert (Hin : o + n - 1 ∈ zrange 0 (l_frontier s)).
  { rewrite <- H3, pieces_bytes_app, pieces_bytes_cons. apply elem_of_app. right. apply elem_of_app. left. apply elem_of_zrange. simpl. lia. }
  apply elem_of_zrange in Hin. lia.
Qed.

(** 16 new bytes are a free slot that is not in the lists. *)
Lemma wp_take_frontier ps (Q : Z -> layout_state -> Prop) s : layout_inv ps s ->
  (forall s', l_slots s' = l_slots s -> l_live_end s' = l_live_end s -> l_fields s' = l_fields s ->
     l_frontier s' = l_frontier s + 16 -> l_frontier s' <= UINT32_MAX -> Q (l_frontier s) s') ->
  wp take_frontier Q s.
Proof.
  intros [_ _ _ _ [H5 _]] HQ. unfold take_frontier. apply wp_bind, wp_get, wp_bind, wp_ensure. intros Hmax%Z.leb_le.
  apply wp_bind, wp_put, wp_ret, HQ; try done. simpl. lia.
Qed.

Lemma layout_inv_frontier ps s s' k new : layout_inv ps s -> l_frontier s' = l_frontier s + 16 ->
  l_frontier s' <= UINT32_MAX -> slots_ok (l_slots s') -> free_from 0 (l_slots s') ≡ₚ new ++ free_from 0 (l_slots s) ->
  cut_ok (l_frontier s) (pow2 k) 16 new -> (k <= 4)%nat -> layout_inv (ps ++ [(l_frontier s, pow2 k)]) s'.
Proof.
  intros [H1 H2 H3 H4 [H5 H6]] Hfr Hmax [Hl Hs] Hnew [Hcut Hal] Hk. split; [done|done| | |].
  - rewrite Hnew, Hfr, (zrange_app 0 (l_frontier s)), <- H3, pieces_bytes_split, Hcut, pieces_bytes_app, <- (assoc (++)) by lia.
    f_equiv. by rewrite Permutation_app_comm.
  - rewrite Hnew, <- (assoc_L (++)). apply Forall_app in H4 as [Hps H4]. apply Forall_app. split; [done|]. simpl.
    constructor; [|by apply Forall_app]. split; [simpl; lia|]. split; [apply pow2_pos|]. simpl.
    apply (mod_pow2_le _ k 4); [lia|]. exact H6.
  - split; [lia|]. rewrite Hfr. rewrite <- Z.add_mod_idemp_l, H6 by lia. done.
Qed.

Lemma wp_place_size ps k s : layout_inv ps s -> (k <= 4)%nat ->
  wp (place_size (pow2 k)) (fun o s' => placed ps k s o s') s.
Proof.
  intros Hi Hk. pose proof (inv_slots _ _ Hi) as Hs. pose proof (li_frontier _ _ Hi) as [Hfr _]. unfold place_size.
  destruct (decide (k = 4%nat)) as [->|Hne].
  { eapply wp_take_frontier; [exact Hi|]. intros s' H1 H2 H3 H4 H5. split; [|done].
    eapply (layout_inv_frontier ps s s' 4 []); [done|done|done|by rewrite H1|by rewrite H1|apply cut_nil|lia]. }
  assert ((pow2 k =? 16) = false) as ->. { apply Z.eqb_neq. change 16 with (pow2 4). pose proof (pow2_lt k 4). lia. }
  apply wp_bind, wp_slot_pop; [lia|done| |].
  2:{ intros o s' (F1 & F2 & F3) Hs' _ _ Hfree. apply wp_ret. split; [|done]. destruct (free_piece _ _ _ _ _ Hi Hfree) as (P1 & P2 & P3 & _).
    eapply (layout_inv_cut ps s s' k (pow2 k) o []); [done|done|done|exact Hfree|done|apply cut_nil|done|done]. }
  intros He. replace (pow2 k * 2) with (pow2 (S k)) by (rewrite pow2_S; lia).
  apply wp_bind, (wp_find_slot 5 (S k) k); [lia|lia|done|done| |].
  - intros He4. apply wp_bind. eapply wp_take_frontier; [exact Hi|]. intros s1 H1 H2 H3 H4 H5. apply wp_bind.
    unfold wah_layout_record_tail_slots. apply wp_bind, wp_l_assert. { by destruct k as [|[|[|[|]]]]; [..|lia]. }
    apply (wp_same _ _ _ _ (tail_slots_split 5 (l_frontier s) 3 k s1 ltac:(lia) ltac:(lia))).
    apply (wp_split_slot 5 4 k (l_frontier s)); [lia|lia|lia|change (pow2 4) with 16; lia|apply Hi|by rewrite H1|by rewrite H1|].
    intros s' new (F1 & F2 & F3) Hs' Hcut Hfree. apply wp_ret. split; [|split; congruence].
    eapply (layout_inv_frontier ps s s' k new); [done|congruence|congruence|done|by rewrite Hfree, H1|exact Hcut|lia].
  - intros i o s1 Hi1 (F1 & F2 & F3) Hs1 He1 Hfree. destruct (free_piece _ _ _ _ _ Hi Hfree) as (P1 & P2 & P3 & P4).
    apply wp_bind. unfold wah_layout_split_slot.
    apply (wp_split_slot 5 i k o); [lia|lia|done|lia|done|done|eapply empty_slots_sub; [exact He1|lia|lia]|].
    intros s' new (G1 & G2 & G3) Hs' Hcut Hfree'. apply wp_ret. split; [|split; congruence].
    eapply (layout_inv_cut ps s s' k (pow2 i) o new); [done|congruence|done|exact Hfree|exact Hfree'|exact Hcut|done|].
    eapply mod_pow2_le; [|exact P3]. lia.
Qed.

(** *** All fields *)

Definition field_size (ft : wah_type_t) : Z := match wah_field_type_layout ft with Ok (n, _) => n | _ => 0 end.
Definition field_pieces (fts : list wah_type_t) (fs : list wah_repr_field_t) : list piece :=
  zip_with (fun ft f => (fld_offset f, field_size ft)) fts fs.
Definition field_repr_ok (ft : wah_type_t) (f : wah_repr_field_t) : Prop :=
  wah_field_type_layout ft = Ok (field_size ft, fld_repr_id f).

(** A correct layout of the fields [fts]: every field has its representation and is
    aligned, no byte is in two fields, the size is that of the used part, and less than
    16 bytes are wasted. *)
Record layout_ok (fts : list wah_type_t) (fs : list wah_repr_field_t) (size : Z) : Prop := {
  lo_fields : Forall2 field_repr_ok fts fs;
  lo_aligned : Forall aligned (field_pieces fts fs);
  lo_disjoint : NoDup (pieces_bytes (field_pieces fts fs));
  lo_size : size = pieces_end (field_pieces fts fs);
  lo_waste : pieces_size (field_pieces fts fs) <= size <= pieces_size (field_pieces fts fs) + 15;
  lo_bound : size <= UINT32_MAX }.

Lemma field_layout_pow2 ft n r : wah_field_type_layout ft = Ok (n, r) -> exists k, (k <= 4)%nat /\ n = pow2 k.
Proof.
  unfold wah_field_type_layout. repeat (case_match; try discriminate); intros [= <- <-];
    [exists 0%nat|exists 1%nat|exists 2%nat|exists 3%nat|exists 4%nat|exists 3%nat]; (split; [lia|reflexivity]).
Qed.
Lemma size_ok_pow2 k : (k <= 4)%nat -> size_ok (pow2 k) = true.
Proof. intros. by destruct k as [|[|[|[|[|]]]]]; [..|lia]. Qed.

Lemma pieces_end_snoc ps p : pieces_end (ps ++ [p]) = Z.max (pieces_end ps) (Z.max (p.1 + p.2) 0).
Proof. unfold pieces_end. induction ps as [|q ps IH]; simpl; [lia|]. rewrite IH. lia. Qed.
Lemma pieces_end_nonneg ps : 0 <= pieces_end ps.
Proof. induction ps; simpl; [done|]. lia. Qed.
Lemma pieces_end_ge ps p : p ∈ ps -> p.1 + p.2 <= pieces_end ps.
Proof. induction 1; simpl; lia. Qed.
Lemma pieces_size_app ps qs : pieces_size (ps ++ qs) = pieces_size ps + pieces_size qs.
Proof. induction ps; simpl; lia. Qed.
Lemma elem_of_pieces_bytes b ps : b ∈ pieces_bytes ps <-> exists p, p ∈ ps /\ p.1 <= b < p.1 + p.2.
Proof.
  unfold pieces_bytes. rewrite list_elem_of_In, in_concat. split.
  - intros (l & Hl & Hb). apply list_elem_of_In in Hl, Hb. apply list_elem_of_fmap in Hl as (p & -> & Hp).
    apply elem_of_zrange in Hb. by exists p.
  - intros (p & Hp & Hb). exists (piece_bytes p). split; apply list_elem_of_In; [by apply list_elem_of_fmap_2|by apply elem_of_zrange].
Qed.

Lemma free_size k sls : Forall slot_list_ok sls -> pieces_size (free_from k sls) <= pow2 (k + length sls) - pow2 k.
Proof.
  intros H. revert k. induction H as [|sl sls [Hone _ _] _ IH]; intros k; cbn [free_from]; [simpl; rewrite Nat.add_0_r; lia|].
  rewrite pieces_size_app. specialize (IH (S k)). cbn [length]. replace (k + S (length sls))%nat with (S k + length sls)%nat by lia.
  assert (pieces_size ((fun o => (o, pow2 k)) <$> sl_offsets sl) <= pow2 k); [|rewrite pow2_S in IH; lia].
  pose proof (pow2_pos k). destruct (sl_offsets sl) as [|o [|]]; unfold zlen in Hone; simpl in *; lia.
Qed.

(** Pieces without a common byte fit before the last end. *)
Lemma pieces_fit ps : Forall aligned ps -> NoDup (pieces_bytes ps) -> pieces_size ps <= pieces_end ps.
Proof.
  intros Ha Hd. pose proof (pieces_end_nonneg ps). rewrite <- pieces_bytes_length.
  2:{ eapply Forall_impl; [exact Ha|]. intros p (_ & ? & _). lia. }
  assert (length (pieces_bytes ps) <= length (zrange 0 (pieces_end ps)))%nat; [|rewrite zrange_length in *; lia].
  apply submseteq_length, NoDup_submseteq; [done|]. intros b (p & Hp & Hb)%elem_of_pieces_bytes. apply elem_of_zrange.
  rewrite Forall_forall in Ha. destruct (Ha p Hp) as (? & _). pose proof (pieces_end_ge ps p Hp). lia.
Qed.

Lemma layout_inv_ok fts s : Forall2 field_repr_ok fts (l_fields s) -> layout_inv (field_pieces fts (l_fields s)) s ->
  l_live_end s = pieces_end (field_pieces fts (l_fields s)) -> layout_ok fts (l_fields s) (l_live_end s).
Proof.
  intros Hf [H1 H2 H3 H4 [H5 _]] He. set (ps := field_pieces fts (l_fields s)) in *.
  pose proof H4 as [Hps Hfree]%Forall_app.
  assert (Hd : NoDup (pieces_bytes ps)).
  { assert (Hn : NoDup (pieces_bytes (ps ++ free_from 0 (l_slots s)))) by (rewrite H3; apply zrange_NoDup).
    rewrite pieces_bytes_app in Hn. by apply NoDup_app in Hn as [? _]. }
  assert (Hle : pieces_end ps <= l_frontier s).
  { clear He Hd. assert (forall p, p ∈ ps -> p.1 + p.2 <= l_frontier s).
    { intros p Hp. rewrite Forall_forall in Hps. destruct (Hps p Hp) as (P1 & P2 & _).
      assert (Hin : p.1 + p.2 - 1 ∈ zrange 0 (l_frontier s)); [|apply elem_of_zrange in Hin; lia].
      rewrite <- H3. apply elem_of_pieces_bytes. exists p. split; [apply elem_of_app; by left|lia]. }
    clear -H H5. induction ps as [|p ps IH]; simpl; [lia|]. specialize (IH ltac:(set_solver)). specialize (H p ltac:(set_solver)). lia. }
  assert (Htot : pieces_size ps + pieces_size (free_from 0 (l_slots s)) = l_frontier s).
  { rewrite <- pieces_size_app, <- pieces_bytes_length, H3, zrange_length; [lia|].
    eapply Forall_impl; [exact H4|]. intros p (_ & ? & _). lia. }
  pose proof (free_size 0 (l_slots s) H2) as Hfs. rewrite H1 in Hfs. change (pow2 (0 + 4) - pow2 0) with 15 in Hfs.
  pose proof (pieces_fit ps Hps Hd). split; fold ps; [done|done|done|done| |]; rewrite ?He; lia.
Qed.

Lemma field_pieces_snoc fts fs ft f : length fts = length fs ->
  field_pieces (fts ++ [ft]) (fs ++ [f]) = field_pieces fts fs ++ [(fld_offset f, field_size ft)].
Proof. intros H. unfold field_pieces. by rewrite zip_with_app. Qed.

(** The fields [fts] have been placed. *)
Record laid_out (fts : list wah_type_t) (s : layout_state) : Prop := {
  ld_fields : Forall2 field_repr_ok fts (l_fields s);
  ld_inv : layout_inv (field_pieces fts (l_fields s)) s;
  ld_end : l_live_end s = pieces_end (field_pieces fts (l_fields s)) }.

Definition known_layout (ft : wah_type_t) : Prop := exists n r, wah_field_type_layout ft = Ok (n, r).

Lemma wp_place_field fts ft s : known_layout ft -> laid_out fts s ->
  wp (place_field ft) (fun _ s' => laid_out (fts ++ [ft]) s' /\ exists f, l_fields s' = l_fields s ++ [f]) s.
Proof.
  intros (n & r & Hft) [Hf Hi He]. assert (Hn : field_size ft = n) by (unfold field_size; by rewrite Hft).
  destruct (field_layout_pow2 _ _ _ Hft) as (k & Hk & ->). pose proof (pow2_pos k) as Hpos.
  pose proof (Forall2_length _ _ _ Hf) as Hlen. unfold place_field.
  apply wp_bind. eapply wp_l_result; [exact Hft|]. apply wp_bind, wp_ensure. intros _.
  apply wp_bind. eapply wp_mono; [by apply (wp_place_size (field_pieces fts (l_fields s)) k s)|].
  intros o s1 (Hi1 & Hl1 & Hf1). apply wp_bind, wp_ensure. intros Hmax. apply wp_bind, wp_get, wp_put.
  pose proof (li_aligned _ _ Hi1) as Hal. apply Forall_app in Hal as [Hal _]. apply Forall_app in Hal as [_ Hal].
  apply Forall_cons in Hal as [(Ho & _) _]. simpl in Ho. split; [|cbn [l_fields]; rewrite Hf1; by eexists].
  split; cbn [l_fields l_live_end]; rewrite Hf1.
  - apply Forall2_app; [done|]. constructor; [|constructor]. unfold field_repr_ok. by rewrite Hn.
  - rewrite field_pieces_snoc by done. rewrite Hn. destruct Hi1. by split.
  - rewrite field_pieces_snoc by done. rewrite Hn, pieces_end_snoc, <- He, Hl1. simpl.
    pose proof (pieces_end_nonneg (field_pieces fts (l_fields s))) as Hnn. rewrite <- He in Hnn.
    destruct (Z.ltb_spec (l_live_end s) (o + pow2 k)); lia.
Qed.

Lemma wp_place_fields done_fts fts s : Forall known_layout fts -> laid_out done_fts s ->
  wp (place_fields fts) (fun _ s' => laid_out (done_fts ++ fts) s' /\ l_fields s `prefix_of` l_fields s') s.
Proof.
  revert done_fts s. induction fts as [|ft fts IH]; intros done_fts s Hk Hd; cbn [place_fields].
  { apply wp_ret. by rewrite app_nil_r. }
  apply Forall_cons in Hk as [Hft Hk]. apply wp_bind. eapply wp_mono; [by eapply wp_place_field|].
  intros [] s1 (Hd1 & f & Hf). replace (done_fts ++ ft :: fts) with ((done_fts ++ [ft]) ++ fts) by (by rewrite <- (assoc_L (++))).
  eapply wp_mono; [by apply IH|]. intros [] s' [Hd' Hp]. split; [done|]. etrans; [|exact Hp]. rewrite Hf. by eexists.
Qed.

Lemma layout_start_inv a : layout_inv [] (layout_start a).
Proof.
  split.
  - done.
  - repeat (constructor; [split; [done|done|by left]|]). constructor.
  - done.
  - constructor.
  - by vm_compute.
Qed.

Lemma layout_start_laid_out a : laid_out [] (layout_start a).
Proof. split; [constructor|apply layout_start_inv|done]. Qed.

(** *** The check of debug builds *)

(** The bytes marked so far are those of [ps]. *)
Definition marks (used : list bool) (size : Z) (ps : list piece) : Prop :=
  zlen used = size /\ forall b, 0 <= b < size -> zget used b = Some (bool_decide (b ∈ pieces_bytes ps)).

Lemma mark_bytes_ok used size ps o n : marks used size ps -> 0 <= o -> 0 <= n -> o + n <= size ->
  (forall b, o <= b < o + n -> b ∉ pieces_bytes ps) ->
  exists used', mark_bytes used o n = Ok used' /\ marks used' size (ps ++ [(o, n)]).
Proof.
  intros [Hl Hm] Ho Hn Hsz Hnew. unfold mark_bytes.
  destruct (foldM_zrange (fun used j => b ← zget used (o + j); if (b : bool) then None else zset used (o + j) true)
    (fun j u => marks u size (ps ++ [(o, j)])) 0 n used) as (u & -> & Hu); [done| | |by exists u].
  - split; [done|]. intros b Hb. rewrite Hm by done. f_equal. apply bool_decide_ext.
    rewrite pieces_bytes_app, elem_of_app. unfold pieces_bytes at 3. simpl. rewrite app_nil_r.
    unfold piece_bytes. simpl. rewrite zrange_nil by lia. rewrite elem_of_nil. tauto.
  - intros j u Hj [Hul Hu]. rewrite Hu by lia. simpl. rewrite bool_decide_eq_false_2.
    2:{ rewrite pieces_bytes_app, elem_of_app. intros [Hb|Hb]; [by apply (Hnew (o + j)); [lia|]|].
        apply elem_of_pieces_bytes in Hb as (p & ->%list_elem_of_singleton & Hb). simpl in Hb. lia. }
    destruct (zset_is_Some u (o + j) true) as [u' Hu']; [lia|]. exists u'. split; [done|].
    split; [by rewrite (zset_length _ _ _ _ Hu')|]. intros b Hb. rewrite (zset_lookup _ _ _ _ b Hu').
    destruct (Z.eqb_spec b (o + j)) as [->|Hne].
    + f_equal. symmetry. apply bool_decide_eq_true_2. apply elem_of_pieces_bytes. exists (o, j + 1). split; [set_solver|simpl; lia].
    + rewrite Hu by done. f_equal. apply bool_decide_ext. rewrite !pieces_bytes_app, !elem_of_app.
      rewrite !(elem_of_pieces_bytes b [_]). split; (intros [H|(p & ->%list_elem_of_singleton & H)]; [by left|right; eexists; split; [by apply list_elem_of_singleton|simpl in *; lia]]).
Qed.

Lemma check_fields_ok fts fs size ps used : Forall2 field_repr_ok fts fs ->
  Forall aligned (ps ++ field_pieces fts fs) -> NoDup (pieces_bytes (ps ++ field_pieces fts fs)) ->
  pieces_end (field_pieces fts fs) <= size -> match used with Some u => marks u size ps | None => True end ->
  check_fields fts fs size (pieces_size ps) used = Ok (pieces_size (ps ++ field_pieces fts fs)).
Proof.
  intros Hf. revert ps used. induction Hf as [|ft f fts fs Hft _ IH]; intros ps used Ha Hd He Hu.
  { simpl. by rewrite app_nil_r. }
  unfold field_repr_ok in Hft. cbn [check_fields]. rewrite Hft. destruct (field_layout_pow2 _ _ _ Hft) as (k & Hk & Ek).
  change (field_pieces (ft :: fts) (f :: fs)) with ((fld_offset f, field_size ft) :: field_pieces fts fs) in *.
  set (p := (fld_offset f, field_size ft)) in *. simpl in He.
  assert (Hp : aligned p). { apply Forall_app in Ha as [_ Ha]. by apply Forall_cons in Ha as [? _]. }
  destruct Hp as (Ho & Hn & Hm). simpl in Ho, Hn, Hm.
  rewrite Ek at 1 2. rewrite size_ok_pow2, land_pow2, <- Ek, Hm, !Z.eqb_refl by done.
  rewrite (proj2 (Z.leb_le (fld_offset f) size)), (proj2 (Z.leb_le (field_size ft) (size - fld_offset f))) by lia. cbn [andb].
  assert (Hgo : forall u, match u with Some u => marks u size (ps ++ [p]) | None => True end ->
    check_fields fts fs size (pieces_size ps + field_size ft) u = Ok (pieces_size (ps ++ p :: field_pieces fts fs))).
  { intros u Hu'. replace (ps ++ p :: field_pieces fts fs) with ((ps ++ [p]) ++ field_pieces fts fs) in * by (by rewrite <- (assoc_L (++))).
    rewrite <- IH with (used := u); [|done|done|lia|done]. f_equal. rewrite pieces_size_app. simpl. lia. }
  destruct used as [u|]; [|by apply Hgo].
  destruct (mark_bytes_ok u size ps (fld_offset f) (field_size ft)) as (u' & -> & Hu'); [done|lia|lia|lia| |by apply Hgo].
  intros b Hb Hin. rewrite pieces_bytes_app in Hd. apply NoDup_app in Hd as (_ & Hd & _). apply (Hd b Hin).
  rewrite pieces_bytes_cons. apply elem_of_app. left. apply elem_of_zrange. simpl. lia.
Qed.

Lemma validate_repr_ok td fs size typeidx : layout_ok (field_types td) fs size ->
  wah_validate_struct_repr_info td (ReprInfo WAH_REPR_STRUCT typeidx size fs) = Ok tt.
Proof.
  intros [H1 H2 H3 H4 H5 _]. unfold wah_validate_struct_repr_info. cbn [repr_size repr_fields]. set (used := if (0 <? size) && (size <=? 4096) then _ else _).
  assert (Hused : match used with Some u => marks u size [] | None => True end).
  { unfold used. destruct ((0 <? size) && (size <=? 4096)) eqn:Eu; [|done]. apply andb_true_iff in Eu as [Eu _].
    split; [unfold zlen; rewrite length_replicate; lia|]. intros b Hb. rewrite zget_nat by lia. apply lookup_replicate_2. lia. }
  pose proof (check_fields_ok (field_types td) fs size [] used H1 H2 H3 ltac:(lia) Hused) as Hc. change (pieces_size []) with 0 in Hc.
  rewrite Hc. cbn [app]. rewrite (proj2 (Z.leb_le _ size)), (proj2 (Z.leb_le _ 15)) by lia. done.
Qed.

(** *** Errors *)

(** An error of the limits or of the allocator. *)
Definition limit_error (e : wah_error_t) : Prop := e = WAH_ERROR_TOO_LARGE \/ e = WAH_ERROR_OUT_OF_MEMORY.
Definition limited {S A} (m : comp S A) : Prop := forall s e s', m s = (Err e, s') -> limit_error e.

Section Limited.
Context {S : Type}.
Lemma limited_bind {A B} (m : comp S A) (f : A -> comp S B) : limited m -> (forall a, limited (f a)) -> limited (stm_bind f m).
Proof. intros Hm Hf s e s'. unfold stm_bind. destruct (m s) as [[a|e'|] s1] eqn:E; [apply Hf|intros [= <- <-]; by eapply Hm|done]. Qed.
Lemma limited_ret {A} (a : A) : limited (stm_ret a : comp S A).
Proof. by intros s e s'. Qed.
Lemma limited_get : limited (stm_get : comp S S).
Proof. by intros s e s'. Qed.
Lemma limited_put s0 : limited (stm_put s0 : comp S unit).
Proof. by intros s e s'. Qed.
Lemma limited_opt {A} (o : option A) : limited (stm_opt o : comp S A).
Proof. by intros s e s'; destruct o. Qed.
Lemma limited_ensure b : limited (stm_ensure b WAH_ERROR_TOO_LARGE : comp S unit).
Proof. intros s e s'. destruct b; [done|]. intros [= <- _]. by left. Qed.
Lemma limited_fault {A} : limited (fun s => (Fault, s) : result A * S).
Proof. by intros s e s'. Qed.
End Limited.
#[export] Hint Resolve limited_bind limited_ret limited_get limited_put limited_opt limited_ensure limited_fault : limits.

Lemma limited_malloc n k : limited (wah_malloc_c n k).
Proof. intros a e a' H. destruct (wah_malloc_c_cases n k a) as [[a1 E]|[a1 E]]; rewrite E in H; simplify_eq. by right. Qed.
Lemma limited_grow_loop fuel c n e : grow_loop fuel c n = Err e -> e = WAH_ERROR_TOO_LARGE.
Proof.
  revert c. induction fuel as [|fuel IH]; intros c; cbn [grow_loop]; [done|].
  repeat case_match; try done; [by intros [= <-]|apply IH].
Qed.
#[export] Hint Resolve limited_malloc : limits.
Lemma limited_grow n k c : limited (wah_grow_array n k c).
Proof.
  unfold wah_grow_array. case_match; [auto with limits|]. apply limited_bind; [auto with limits|]. intros _.
  destruct (grow_loop _ _ _) as [c'|e'|] eqn:E; [auto with limits| |auto with limits].
  intros s e s' [= <- _]. left. by eapply limited_grow_loop.
Qed.
#[export] Hint Resolve limited_grow : limits.

Lemma limited_l_assert b : limited (l_assert b).
Proof. by intros s e s'; destruct b. Qed.
Lemma limited_l_index size : limited (l_result (wah_layout_slot_index size)).
Proof. intros s e s'. unfold l_result, wah_layout_slot_index. repeat case_match; done. Qed.
Lemma limited_on_ans {A} (m : comp answers A) : limited m -> limited (on_l_ans m).
Proof. intros Hm s e s'. unfold on_l_ans. destruct (m (l_ans s)) as [r a] eqn:E. intros [= -> _]. by eapply Hm. Qed.
#[export] Hint Resolve limited_l_assert limited_l_index limited_on_ans : limits.

Lemma limited_push size o : limited (wah_layout_slot_push size o).
Proof. unfold wah_layout_slot_push. repeat (apply limited_bind; [auto with limits|intros ?]). auto with limits. Qed.
Lemma limited_pop size : limited (wah_layout_slot_pop size).
Proof.
  unfold wah_layout_slot_pop. repeat (apply limited_bind; [auto with limits|intros ?]). case_match; auto 7 with limits.
Qed.
#[export] Hint Resolve limited_push limited_pop : limits.
Lemma limited_split fuel o n k : limited (split_slot fuel o n k).
Proof. revert n. induction fuel as [|fuel IH]; intros n; cbn [split_slot]; [auto with limits|]. case_match; auto with limits. Qed.
Lemma limited_tail fuel o n k : limited (tail_slots fuel o n k).
Proof.
  revert n. induction fuel as [|fuel IH]; intros n; cbn [tail_slots]; [auto with limits|]. case_match; [|auto with limits].
  apply limited_bind; [auto with limits|intros _]. case_match; auto with limits.
Qed.
Lemma limited_find fuel n : limited (find_slot fuel n).
Proof.
  revert n. induction fuel as [|fuel IH]; intros n; cbn [find_slot]; [auto with limits|]. case_match; [|auto with limits].
  apply limited_bind; [auto with limits|intros [o|]]; auto with limits.
Qed.
Lemma limited_frontier : limited take_frontier.
Proof. unfold take_frontier. auto 8 with limits. Qed.
#[export] Hint Resolve limited_split limited_tail limited_find limited_frontier : limits.
Lemma limited_place_size n : limited (place_size n).
Proof.
  unfold place_size. case_match; [auto with limits|]. apply limited_bind; [auto with limits|]. intros [o|]; [auto with limits|].
  apply limited_bind; [auto with limits|]. intros [[n' o]|]; unfold wah_layout_split_slot, wah_layout_record_tail_slots; auto 8 with limits.
Qed.
Lemma limited_place_fields fts : Forall known_layout fts -> limited (place_fields fts).
Proof.
  induction 1 as [|ft fts (n & r & Hft) _ IH]; cbn [place_fields]; [auto with limits|]. apply limited_bind; [|auto].
  unfold place_field. rewrite Hft. destruct (field_layout_pow2 _ _ _ Hft) as (k & Hk & ->).
  intros s e s'. unfold stm_bind, l_result at 1. rewrite size_ok_pow2 by done. cbn [stm_ensure stm_ret].
  pose proof (limited_place_size (pow2 k) s) as Hp. destruct (place_size (pow2 k) s) as [[o|e'|] s1]; [|intros [= <- <-]; by eapply Hp|done].
  unfold stm_ensure. destruct (o <=? UINT32_MAX - pow2 k); [done|]. intros [= <- _]. by left.
Qed.

Lemma build_struct_repr_ok typeidx td a : kind td = WAH_COMP_STRUCT -> Forall known_layout (field_types td) ->
  match wah_build_struct_repr_info typeidx td a with
  | (Ok info, _) => repr_type info = WAH_REPR_STRUCT /\ repr_typeidx info = typeidx /\
      layout_ok (field_types td) (repr_fields info) (repr_size info) /\
      wah_validate_struct_repr_info td info = Ok tt
  | (Err e, _) => limit_error e
  | (Fault, _) => False
  end.
Proof.
  intros Hk Hft. unfold wah_build_struct_repr_info. rewrite Hk. rewrite (stm_bind_run _ _ a tt a) by done.
  destruct (wah_malloc_c_cases (zlen (field_types td)) sizeof_wah_repr_field_t a) as [[a1 ->]|[a1 ->]]; [|by right].
  pose proof (wp_place_fields [] (field_types td) (layout_start a1) Hft) as Hp.
  specialize (Hp (layout_start_laid_out a1)). unfold wp in Hp.
  pose proof (limited_place_fields _ Hft (layout_start a1)) as He.
  destruct (place_fields (field_types td) (layout_start a1)) as [[[]|e|] s]; [|by eapply He|done]. cbv zeta.
  unfold stm_bind, stm_ensure. set (b := negb _). destruct b; [|by left]. unfold stm_ret at 1.
  destruct (wah_malloc_c_cases 1 (u64 (sizeof_wah_repr_info_t + zlen (field_types td) * sizeof_wah_repr_field_t)) (l_ans s))
    as [[a2 ->]|[a2 ->]]; [|by right]. unfold stm_ret. destruct Hp as [[Hp1 Hp2 Hp3] _]. pose proof (layout_inv_ok _ _ Hp1 Hp2 Hp3) as Hp. cbn [app] in Hp. split_and!; [done|done|exact Hp|by apply validate_repr_ok].
Qed.

(** C34. The layout of a struct of field types the parser lets through: building it either
    gives up, for the size or for memory, or gives the correct layout of its fields,
    which passes every check of a debug build. *)
Theorem wah_build_struct_repr_info_ok typeidx td a : kind td = WAH_COMP_STRUCT -> Forall known_layout (field_types td) ->
  match wah_build_struct_repr_info typeidx td a with
  | (Ok info, _) => repr_type info = WAH_REPR_STRUCT /\ repr_typeidx info = typeidx /\
      layout_ok (field_types td) (repr_fields info) (repr_size info) /\
      wah_validate_struct_repr_info td info = Ok tt
  | (Err e, _) => limit_error e
  | (Fault, _) => False
  end.
Proof. by apply build_struct_repr_ok. Qed.

(** A struct of an [i8], an [i64], an [i16] and a [v128]. *)
Definition sample_struct : wah_type_def_t :=
  TypeDef WAH_COMP_STRUCT true false WAH_NO_SUPERTYPE
    [WAH_TYPE_PACKED_I8; WAH_TYPE_I64; WAH_TYPE_PACKED_I16; WAH_TYPE_V128] [false; true; true; false] 0 1.

Lemma wah_build_struct_repr_info_ok_witness : exists info a,
  wah_build_struct_repr_info 3 sample_struct [] = (Ok info, a) /\ fld_offset <$> repr_fields info = [0; 8; 2; 16] /\
  repr_size info = 32 /\ layout_ok (field_types sample_struct) (repr_fields info) (repr_size info).
Proof.
  pose proof (wah_build_struct_repr_info_ok 3 sample_struct [] eq_refl) as H.
  destruct (wah_build_struct_repr_info 3 sample_struct []) as [r a] eqn:E. vm_compute in E. injection E as <- <-.
  eexists _, _. split; [reflexivity|]. split; [reflexivity|]. split; [reflexivity|].
  apply H. repeat (constructor; [by eexists _, _|]). constructor.
Defined.

(** *** Layouts of subtypes *)

(** States that differ in the allocator and the size so far only. *)
Definition same_slots (s1 s2 : layout_state) : Prop :=
  sl_offsets <$> l_slots s1 = sl_offsets <$> l_slots s2 /\ l_frontier s1 = l_frontier s2 /\ l_fields s1 = l_fields s2.
(** The result does not depend on what they differ in. *)
Definition determined {A} (m : comp layout_state A) : Prop := forall s1 s2 a1 a2 s1' s2',
  same_slots s1 s2 -> m s1 = (Ok a1, s1') -> m s2 = (Ok a2, s2') -> a1 = a2 /\ same_slots s1' s2'.

Lemma determined_bind {A B} (m : comp layout_state A) (f : A -> comp layout_state B) :
  determined m -> (forall a, determined (f a)) -> determined (stm_bind f m).
Proof.
  intros Hm Hf s1 s2 b1 b2 s1' s2' Hs (a1 & t1 & E1 & F1)%stm_bind_Ok (a2 & t2 & E2 & F2)%stm_bind_Ok.
  destruct (Hm _ _ _ _ _ _ Hs E1 E2) as [<- Ht]. by eapply Hf.
Qed.
Lemma determined_ret {A} (a : A) : determined (stm_ret a).
Proof. intros s1 s2 a1 a2 s1' s2' Hs [= <- <-] [= <- <-]. done. Qed.
Lemma determined_pure {A} (r : result A) : determined (fun s => (r, s)).
Proof. intros s1 s2 a1 a2 s1' s2' Hs [= -> <-] [= <- <-]. done. Qed.
Lemma determined_ensure b e : determined (stm_ensure b e).
Proof. intros s1 s2 a1 a2 s1' s2' Hs H1 H2. stm_inv. by destruct a1, a2. Qed.
Lemma determined_assert b : determined (l_assert b).
Proof. destruct b; [apply (determined_pure (Ok tt))|apply (determined_pure Fault)]. Qed.
#[local] Hint Resolve determined_bind determined_ret determined_pure determined_ensure determined_assert : limits.

Lemma offsets_at s1 s2 i sl1 sl2 : same_slots s1 s2 -> zget (l_slots s1) i = Some sl1 -> zget (l_slots s2) i = Some sl2 ->
  sl_offsets sl1 = sl_offsets sl2.
Proof.
  intros [H _] [_ H1]%zget_Some [_ H2]%zget_Some. apply (f_equal (fun l => l !! Z.to_nat i)) in H.
  rewrite !list_lookup_fmap, H1, H2 in H. by injection H.
Qed.
Lemma same_slots_set s1 s2 a1 a2 i l1 l2 sl1 sl2 : same_slots s1 s2 -> sl_offsets sl1 = sl_offsets sl2 ->
  zset (l_slots s1) i sl1 = Some l1 -> zset (l_slots s2) i sl2 = Some l2 ->
  same_slots (l_set_slots l1 (Layout a1 (l_slots s1) (l_frontier s1) (l_live_end s1) (l_fields s1)))
    (l_set_slots l2 (Layout a2 (l_slots s2) (l_frontier s2) (l_live_end s2) (l_fields s2))).
Proof.
  intros (H1 & H2 & H3) Hsl E1 E2. split; [|done]. simpl. unfold zset in E1, E2.
  repeat (case_match; [done|]). simplify_eq. by rewrite !list_fmap_insert, H1, Hsl.
Qed.

Lemma on_l_ans_Ok {A} (m : comp answers A) s a s' : on_l_ans m s = (Ok a, s') ->
  exists a', s' = Layout a' (l_slots s) (l_frontier s) (l_live_end s) (l_fields s).
Proof. unfold on_l_ans. destruct (m (l_ans s)) as [r a']. intros [= -> <-]. by exists a'. Qed.

Lemma determined_push size o : determined (wah_layout_slot_push size o).
Proof.
  unfold wah_layout_slot_push. apply determined_bind; [auto with limits|intros _]. apply determined_bind; [auto with limits|intros _].
  apply determined_bind; [apply determined_pure|intros i].
  intros s1 s2 [] [] s1' s2' Hs H1 H2. split; [done|]. stm_inv.
  repeat match goal with H : on_l_ans _ _ = _ |- _ => apply on_l_ans_Ok in H as [? ->] end.
  eapply same_slots_set; [exact Hs| |eassumption|eassumption]. simpl. do 2 f_equal. f_equal. by eapply offsets_at.
Qed.
Lemma determined_pop size : determined (wah_layout_slot_pop size).
Proof.
  unfold wah_layout_slot_pop. apply determined_bind; [apply determined_pure|intros i].
  intros s1 s2 o1 o2 s1' s2' Hs H1 H2. stm_inv.
  match goal with A : zget (l_slots s1) i = Some _, B : zget (l_slots s2) i = Some _ |- _ =>
    pose proof (offsets_at _ _ _ _ _ Hs A B) as E end.
  rewrite E in H1. destruct (sl_offsets _) as [|o os]; stm_inv; (split; [done|]); [done|].
  eapply (same_slots_set s1 s2 (l_ans s1) (l_ans s2)); [exact Hs| |eassumption|eassumption]. done.
Qed.
#[local] Hint Resolve determined_push determined_pop : limits.

Lemma determined_split fuel o n k : determined (split_slot fuel o n k).
Proof. revert n. induction fuel as [|fuel IH]; intros n; cbn [split_slot]; [apply determined_pure|]. case_match; auto with limits. Qed.
Lemma determined_tail fuel o n k : determined (tail_slots fuel o n k).
Proof.
  revert n. induction fuel as [|fuel IH]; intros n; cbn [tail_slots]; [apply determined_pure|]. case_match; [|auto with limits].
  apply determined_bind; [auto with limits|intros _]. case_match; auto with limits.
Qed.
Lemma determined_find fuel n : determined (find_slot fuel n).
Proof.
  revert n. induction fuel as [|fuel IH]; intros n; cbn [find_slot]; [apply determined_pure|]. case_match; [|auto with limits].
  apply determined_bind; [auto with limits|intros [o|]]; auto with limits.
Qed.
Lemma determined_frontier : determined take_frontier.
Proof.
  unfold take_frontier. intros s1 s2 o1 o2 s1' s2' (Hs1 & Hs2 & Hs3) H1 H2. stm_inv. split; [done|]. split; [done|]. split; simpl; [lia|done].
Qed.
#[local] Hint Resolve determined_split determined_tail determined_find determined_frontier : limits.
Lemma determined_place_size n : determined (place_size n).
Proof.
  unfold place_size. case_match; [auto with limits|]. apply determined_bind; [auto with limits|]. intros [o|]; [auto with limits|].
  apply determined_bind; [auto with limits|]. intros [[n' o]|]; unfold wah_layout_split_slot, wah_layout_record_tail_slots; auto 8 with limits.
Qed.
Lemma determined_place_field ft : determined (place_field ft).
Proof.
  unfold place_field. apply determined_bind; [apply determined_pure|intros [n r]]. apply determined_bind; [auto with limits|intros _].
  apply determined_bind; [apply determined_place_size|intros o]. apply determined_bind; [auto with limits|intros _].
  intros s1 s2 u1 u2 s1' s2' (Hs1 & Hs2 & Hs3) H1 H2. stm_inv. destruct u1, u2. split; [done|]. split; [done|]. split; [done|]. simpl. by rewrite Hs3.
Qed.
Lemma determined_place_fields fts : determined (place_fields fts).
Proof. induction fts; cbn [place_fields]; [auto with limits|]. apply determined_bind; [apply determined_place_field|auto]. Qed.

(** Fields of the same size and representation, as those of a subtype are. *)
Definition same_layout (ft ft' : wah_type_t) : Prop := wah_field_type_layout ft = wah_field_type_layout ft'.

Lemma place_fields_same fts fts' : Forall2 same_layout fts fts' -> place_fields fts = place_fields fts'.
Proof. induction 1 as [|ft ft' fts fts' H _ IH]; [done|]. simpl. rewrite IH. unfold place_field. by rewrite H. Qed.
Lemma place_fields_app fts fts' s s' : place_fields (fts ++ fts') s = (Ok tt, s') ->
  exists s1, place_fields fts s = (Ok tt, s1) /\ place_fields fts' s1 = (Ok tt, s').
Proof.
  revert s. induction fts as [|ft fts IH]; intros s; cbn [place_fields app]; [by exists s|].
  intros ([] & s1 & H1 & H2)%stm_bind_Ok. destruct (IH s1 H2) as (s2 & H3 & H4). exists s2. split; [|done].
  by rewrite (stm_bind_run _ _ _ _ _ H1).
Qed.

Lemma build_placed typeidx td a info a' : wah_build_struct_repr_info typeidx td a = (Ok info, a') ->
  exists a1 s, place_fields (field_types td) (layout_start a1) = (Ok tt, s) /\ repr_fields info = l_fields s.
Proof.
  unfold wah_build_struct_repr_info. destruct (stm_bind _ _ a) as [[[]|e|] a1]; [|done|done].
  destruct (place_fields _ _) as [[[]|e|] s] eqn:E; [|done|done]. intros H. stm_inv. by exists a1, s.
Qed.

Lemma build_struct_repr_prefix i j td td' front more a a' info info' b b' :
  Forall known_layout (field_types td') -> field_types td' = front ++ more ->
  Forall2 same_layout (field_types td) front ->
  wah_build_struct_repr_info i td a = (Ok info, b) -> wah_build_struct_repr_info j td' a' = (Ok info', b') ->
  repr_fields info `prefix_of` repr_fields info'.
Proof.
  intros Hk Hmore Hsame (a1 & s1 & H1 & ->)%build_placed (a2 & s2 & H2 & ->)%build_placed.
  rewrite Hmore in H2, Hk. apply Forall_app in Hk as [Hk1 Hk2]. destruct (place_fields_app _ _ _ _ H2) as (s & H3 & H4).
  rewrite <- (place_fields_same _ _ Hsame) in H3.
  destruct (determined_place_fields _ (layout_start a1) (layout_start a2) _ _ _ _ ltac:(done) H1 H3) as [_ (_ & _ & ->)].
  rewrite (place_fields_same _ _ Hsame) in H3.
  destruct (wp_Ok _ _ _ _ _ (wp_place_fields [] front (layout_start a2) Hk1 (layout_start_laid_out a2)) H3) as [Hd _].
  by destruct (wp_Ok _ _ _ _ _ (wp_place_fields _ _ s Hk2 Hd) H4) as [_ Hp].
Qed.

(** C35. The layout of a struct that extends another one by more fields, with fields of the
    same size and representation in front, begins with the layout of that struct: a
    field of a supertype is where it is in the supertype. *)
Theorem wah_build_struct_repr_info_prefix i j td td' front more a a' info info' b b' :
  Forall known_layout (field_types td') -> field_types td' = front ++ more ->
  Forall2 same_layout (field_types td) front ->
  wah_build_struct_repr_info i td a = (Ok info, b) -> wah_build_struct_repr_info j td' a' = (Ok info', b') ->
  repr_fields info `prefix_of` repr_fields info'.
Proof. apply build_struct_repr_prefix. Qed.

Lemma wah_build_struct_repr_info_prefix_witness : exists info info',
  (wah_build_struct_repr_info 0 (TypeDef WAH_COMP_STRUCT false false WAH_NO_SUPERTYPE
     [WAH_TYPE_PACKED_I8; WAH_TYPE_I64] [false; true] 0 1) []).1 = Ok info /\
  (wah_build_struct_repr_info 3 sample_struct []).1 = Ok info' /\
  length (repr_fields info) = 2%nat /\ repr_fields info `prefix_of` repr_fields info'.
Proof.
  eexists _, _. split; [vm_compute; reflexivity|]. split; [vm_compute; reflexivity|]. split; [reflexivity|].
  apply (wah_build_struct_repr_info_prefix 0 3 (TypeDef WAH_COMP_STRUCT false false WAH_NO_SUPERTYPE
     [WAH_TYPE_PACKED_I8; WAH_TYPE_I64] [false; true] 0 1) sample_struct [WAH_TYPE_PACKED_I8; WAH_TYPE_I64]
     [WAH_TYPE_PACKED_I16; WAH_TYPE_V128] [] [] _ _ [] []).
  - repeat (constructor; [by eexists _, _|]). constructor.
  - reflexivity.
  - repeat constructor.
  - vm_compute. reflexivity.
  - vm_compute. reflexivity.
Defined.
