(* ===== verification/ModuleEnv.v ===== *)
(** * Index spaces of a module and the declared locals of a function

    The part of [wah_module_t] that function bodies refer to (wah.h, "Helpers to
    look up types across import+local index spaces"), the run-length encoded locals
    of a code body ([wah_local_type], [wah_parse_local_decls]) and the set of declared
    functions ([wah_declare_func]). *)

From S2P Require Import Prelude Base Types Bytes Leb128 Decode Subtype Alloc.
From stdpp Require Import list sets.
#[local] Open Scope Z_scope.
#[local] Open Scope wah_scope.

(** ** Definitions *)

(** Limits of a memory or table are not needed here; the initializer expressions of
    tables and globals are lowered code. *)
Record wah_memory_type_t := MemoryType { mem_addr_type : wah_type_t; min_pages : Z; max_pages : Z }.
Record wah_table_type_t := TableType {
  elem_type : wah_type_t; tab_addr_type : wah_type_t; min_elements : Z; max_elements : Z }.
Record wah_global_decl := GlobalDecl { global_type : wah_type_t; global_mutable : bool }.

(** The arrays of [wah_module_t] for each index space: imports first.  The counts are
    the lengths; functions and tags are given by their type indices and element
    segments by their element types. *)
Record wah_module_env := ModuleEnv {
  env_types : wah_module_t;
  func_imports : list Z;
  function_type_indices : list Z;
  table_imports : list wah_table_type_t;
  tables : list wah_table_type_t;
  memory_imports : list wah_memory_type_t;
  memories : list wah_memory_type_t;
  global_imports : list wah_global_decl;
  globals : list wah_global_decl;
  tag_imports : list Z;
  tags : list Z;
  element_segments : list wah_type_t;
  data_segment_count : Z;
  fuel_metering : bool }.

(** The index space of imports [imps] and definitions [defs]. *)
Definition index_limit {A} (imps defs : list A) : Z := u32 (zlen imps + zlen defs).
Definition index_get {A} (imps defs : list A) (idx : Z) : option A :=
  if idx <? zlen imps then zget imps idx else zget defs (u32 (idx - zlen imps)).

Definition wah_func_index_limit (m : wah_module_env) : Z :=
  index_limit (func_imports m) (function_type_indices m).
Definition wah_table_index_limit (m : wah_module_env) : Z := index_limit (table_imports m) (tables m).
Definition wah_memory_index_limit (m : wah_module_env) : Z := index_limit (memory_imports m) (memories m).
Definition wah_global_index_limit (m : wah_module_env) : Z := index_limit (global_imports m) (globals m).
Definition wah_table_type (m : wah_module_env) (idx : Z) : option wah_table_type_t :=
  index_get (table_imports m) (tables m) idx.
Definition wah_memory_type (m : wah_module_env) (idx : Z) : option wah_memory_type_t :=
  index_get (memory_imports m) (memories m) idx.
Definition wah_global_type (m : wah_module_env) (idx : Z) : option wah_type_t :=
  global_type <$> index_get (global_imports m) (globals m) idx.
Definition wah_global_is_mutable (m : wah_module_env) (idx : Z) : option bool :=
  global_mutable <$> index_get (global_imports m) (globals m) idx.
Definition wah_tag_type_index (m : wah_module_env) (idx : Z) : option Z :=
  index_get (tag_imports m) (tags m) idx.

(** The index of the type [wah_resolve_func_type] points to. *)
Definition func_type_index (m : wah_module_env) (func_idx : Z) : option Z :=
  index_get (func_imports m) (function_type_indices m) func_idx.
Definition wah_resolve_func_type (m : wah_module_env) (func_idx : Z) : option wah_func_type_t :=
  ti ← func_type_index m func_idx; zget (types (env_types m)) ti.

Definition wah_memory_max_pages (mt : wah_memory_type_t) : Z :=
  let page_limit := if mem_addr_type mt =? WAH_TYPE_I32 then 65536 else Z.shiftl 1 48 in
  if page_limit <? max_pages mt then page_limit else max_pages mt.
Definition wah_table_max_size (tt : wah_table_type_t) : Z :=
  let limit := if tab_addr_type tt =? WAH_TYPE_I32 then UINT32_MAX else UINT64_MAX in
  if limit <? max_elements tt then limit else max_elements tt.

(** *** Locals *)
Record wah_local_run_t := LocalRun { run_end : Z; run_type : wah_type_t }.
(** [wah_code_body_t]: [local_run_count] is the length of [local_runs]. *)
Record wah_code_body_t := CodeBody { local_count : Z; local_runs : list wah_local_run_t }.

Definition wah_local_run_start (body : wah_code_body_t) (ri : Z) : option Z :=
  if 0 <? ri then run_end <$> zget (local_runs body) (ri - 1) else Some 0.

(** The binary search of [wah_local_type], whose interval at least halves: 32
    iterations are enough for any [uint32_t]. *)
Fixpoint local_search (fuel : nat) (runs : list wah_local_run_t) (li lo hi : Z) : option Z :=
  match fuel with
  | O => None
  | S fuel' =>
      if lo <? hi then
        let mid := lo + (hi - lo) / 2 in
        r ← zget runs mid;
        if li <? run_end r then local_search fuel' runs li lo mid
        else local_search fuel' runs li (mid + 1) hi
      else Some lo
  end.
Definition wah_local_type (body : wah_code_body_t) (li : Z) : option wah_type_t :=
  lo ← local_search 33 (local_runs body) li 0 (u32 (zlen (local_runs body) - 1));
  run_type <$> zget (local_runs body) lo.

Definition WAH_MAX_LOCAL_COUNT : Z := 65536.
Definition sizeof_wah_local_run_t : Z := 8.

(** The state of the decoders and the allocator's answers. *)
Definition on_decoder {A} (m : comp decoder A) : comp (decoder * answers) A := fun s =>
  let '(r, d) := m s.1 in (r, (d, s.2)).
Definition on_answers {A} (m : comp answers A) : comp (decoder * answers) A := fun s =>
  let '(r, a) := m s.2 in (r, (s.1, a)).

(** [t < 0 || WAH_TYIDX(t) < module->type_count]. *)
Definition type_index_ok (m : wah_module_t) (t : wah_type_t) : bool :=
  (t <? 0) || (WAH_TYIDX t <? type_count m).

(** The loop of [wah_parse_local_decls] with [n] entries left. *)
Fixpoint local_decls (m : wah_module_t) (n : nat) (total : Z) (runs : list wah_local_run_t)
  : comp (decoder * answers) (Z * list wah_local_run_t) :=
  match n with
  | O => stm_ret (total, runs)
  | S n' =>
      n <- on_decoder (on_cursor wah_decode_uleb128) ;;
      t <- on_decoder wah_decode_val_type ;;
      stm_ensure (n <=? UINT32_MAX - total) WAH_ERROR_TOO_LARGE ;;;
      let total := u32 (total + n) in
      stm_ensure (total <=? WAH_MAX_LOCAL_COUNT) WAH_ERROR_TOO_LARGE ;;;
      stm_ensure (type_index_ok m t) WAH_ERROR_VALIDATION_FAILED ;;;
      on_decoder (on_features (wah_require_type_features t)) ;;;
      local_decls m n' total (if 0 <? n then runs ++ [LocalRun total t] else runs)
  end.

Definition wah_parse_local_decls (m : wah_module_t) : comp (decoder * answers) wah_code_body_t :=
  num_entries <- on_decoder (on_cursor (wah_decode_and_validate_count 2)) ;;
  on_answers (wah_malloc_c num_entries sizeof_wah_local_run_t) ;;;
  ' (total, runs) <- local_decls m (Z.to_nat num_entries) 0 [] ;;
  stm_ret (CodeBody total runs).

(** *** The set of declared functions

    A bitset with one bit per function of the index space, allocated on first use;
    [None] is the NULL pointer. *)
Definition bit_byte (idx : Z) : Z := idx / 8.
Definition bit_mask (idx : Z) : Z := Z.shiftl 1 (idx mod 8).

(** [m->declared_funcs[func_idx / 8] |= (uint8_t)(1u << (func_idx % 8))]. *)
Definition set_func_bit (bits : list Z) (func_idx : Z) : option (list Z) :=
  b ← zget bits (bit_byte func_idx);
  zset bits (bit_byte func_idx) (Z.lor b (u8 (bit_mask func_idx))).

Definition wah_declare_func (m : wah_module_env) (func_idx : Z)
  : comp (answers * option (list Z)) unit := fun s =>
  let total := wah_func_index_limit m in
  let set_bit (a : answers) (bits : list Z) :=
    match set_func_bit bits func_idx with
    | Some bits' => (Ok tt, (a, Some bits'))
    | None => (Fault, (a, Some bits))
    end in
  match s.2 with
  | Some bits => set_bit s.1 bits
  | None =>
      if total =? 0 then (Ok tt, s)
      else
        let bytes := u32 (total + 7) / 8 in
        match wah_malloc_c bytes 1 s.1 with
        | (Ok _, a) => set_bit a (replicate (Z.to_nat bytes) 0)
        | (Err e, a) => (Err e, (a, None))
        | (Fault, a) => (Fault, (a, None))
        end
  end.

Definition wah_is_func_declared (declared : option (list Z)) (func_idx : Z) : option bool :=
  match declared with
  | None => Some false
  | Some bits => b ← zget bits (bit_byte func_idx); Some (negb (Z.land b (bit_mask func_idx) =? 0))
  end.

(** There is room to round the number of functions up. *)
Definition func_space (m : wah_module_env) : Prop :=
  zlen (func_imports m) + zlen (function_type_indices m) + 7 < 2 ^ 32.

(** The declarations of a list of functions, in order. *)
Fixpoint declare_funcs (m : wah_module_env) (fs : list Z) : comp (answers * option (list Z)) unit :=
  match fs with
  | [] => stm_ret tt
  | f :: fs' => wah_declare_func m f ;;; declare_funcs m fs'
  end.

(** [d] is a bitset for [n] functions that answers as [P]. *)
Definition declared_is (n : Z) (d : option (list Z)) (P : Z -> bool) : Prop :=
  match d with Some bits => zlen bits = (n + 7) / 8 | None => True end /\
  forall i, 0 <= i < n -> wah_is_func_declared d i = Some (P i).

(** ** Theorems *)

(** *** The set of declared functions *)

Lemma bit_in_range i n : 0 <= i < n -> 0 <= bit_byte i < (n + 7) / 8.
Proof. unfold bit_byte. intros. Z.to_euclidean_division_equations. lia. Qed.

Lemma bit_mask_pow i : bit_mask i = 2 ^ (i mod 8).
Proof. unfold bit_mask. rewrite Z.shiftl_1_l. done. Qed.

Lemma bit_mask_byte i : u8 (bit_mask i) = bit_mask i.
Proof.
  rewrite bit_mask_pow. pose proof (Z.mod_pos_bound i 8 ltac:(lia)). apply u8_small.
  split; [apply Z.pow_nonneg; lia|]. change 256 with (2 ^ 8). apply Z.pow_lt_mono_r; lia.
Qed.

(** Membership is the bit [idx mod 8] of the byte [idx / 8]. *)
Lemma land_bit_mask b i : negb (Z.land b (bit_mask i) =? 0) = Z.testbit b (i mod 8).
Proof.
  pose proof (Z.mod_pos_bound i 8 ltac:(lia)) as Hi. rewrite bit_mask_pow.
  destruct (Z.testbit b (i mod 8)) eqn:Hb.
  - apply negb_true_iff, Z.eqb_neq. intros H. apply (f_equal (fun z => Z.testbit z (i mod 8))) in H.
    by rewrite Z.land_spec, Hb, Z.pow2_bits_true, Z.bits_0 in H by lia.
  - apply negb_false_iff, Z.eqb_eq, Z.bits_inj'. intros k Hk. rewrite Z.land_spec, Z.bits_0.
    destruct (Z.eq_dec k (i mod 8)) as [->|Hne]; [by rewrite Hb|]. rewrite Z.pow2_bits_false by done. apply andb_false_r.
Qed.

Lemma set_func_bit_spec n bits i P : 0 <= i < n -> declared_is n (Some bits) P ->
  exists bits', set_func_bit bits i = Some bits' /\ declared_is n (Some bits') (fun j => (j =? i) || P j).
Proof.
  intros Hi [Hl HP]. destruct (bit_in_range i n Hi) as [Hb1 Hb2]. unfold set_func_bit.
  destruct (zget_is_Some bits (bit_byte i)) as [b Hb]; [lia|]. rewrite Hb. simpl.
  destruct (zset_is_Some bits (bit_byte i) (Z.lor b (u8 (bit_mask i)))) as [bits' Hs]; [lia|].
  exists bits'. split; [done|]. split; [by rewrite (zset_length _ _ _ _ Hs)|]. intros j Hj. specialize (HP j Hj).
  simpl in *. rewrite (zset_lookup _ _ _ _ (bit_byte j) Hs). destruct (Z.eqb_spec (bit_byte j) (bit_byte i)) as [E|E].
  - rewrite E, Hb in HP. simpl in *. rewrite land_bit_mask in HP |- *. f_equal. injection HP as <-.
    rewrite Z.lor_spec, bit_mask_byte, bit_mask_pow. unfold bit_byte in E.
    pose proof (Z.mod_pos_bound i 8 ltac:(lia)).
    destruct (Z.eqb_spec j i) as [->|Hne]; [by rewrite Z.pow2_bits_true, orb_true_r by lia|].
    rewrite Z.pow2_bits_false, orb_false_r; [done|]. Z.to_euclidean_division_equations. lia.
  - rewrite HP. by destruct (Z.eqb_spec j i) as [->|].
Qed.

Lemma func_limit m : func_space m -> 0 <= wah_func_index_limit m /\ wah_func_index_limit m + 7 < 2 ^ 32.
Proof. unfold func_space, wah_func_index_limit, index_limit, zlen. intros. rewrite u32_small; lia. Qed.

(** One declaration: out of memory is the only failure, and leaves the set as it was. *)
Lemma wah_declare_func_cases m i a d P : func_space m -> 0 <= i < wah_func_index_limit m ->
  declared_is (wah_func_index_limit m) d P ->
  (exists a' bits, wah_declare_func m i (a, d) = (Ok tt, (a', Some bits)) /\
     declared_is (wah_func_index_limit m) (Some bits) (fun j => (j =? i) || P j)) \/
  (exists a', wah_declare_func m i (a, d) = (Err WAH_ERROR_OUT_OF_MEMORY, (a', d))).
Proof.
  intros Hm Hi HP. pose proof (func_limit m Hm) as Hl. unfold wah_declare_func. simpl.
  destruct d as [bits|].
  - destruct (set_func_bit_spec _ _ _ _ Hi HP) as (bits' & -> & H). left. by exists a, bits'.
  - destruct (Z.eqb_spec (wah_func_index_limit m) 0); [lia|]. rewrite u32_small by lia.
    set (k := (wah_func_index_limit m + 7) / 8). assert (0 <= k) by (apply Z.div_pos; lia).
    destruct (wah_malloc_c_cases k 1 a) as [[a' ->]|[a' ->]]; [|right; by exists a'].
    assert (declared_is (wah_func_index_limit m) (Some (replicate (Z.to_nat k) 0)) P) as HP'.
    { assert (Hn : zlen (replicate (Z.to_nat k) 0) = k) by (unfold zlen; rewrite length_replicate; lia).
      split; [done|]. intros j Hj. destruct HP as [_ HP]. rewrite <- (HP j Hj). simpl.
      destruct (bit_in_range j _ Hj). destruct (zget_is_Some (replicate (Z.to_nat k) 0) (bit_byte j)) as [b Hb]; [lia|].
      rewrite Hb. simpl. apply zget_Some in Hb as [_ Hb]. apply lookup_replicate in Hb as [-> _].
      by rewrite Z.land_0_l. }
    destruct (set_func_bit_spec _ _ _ _ Hi HP') as (bits' & -> & H'). left. by exists a', bits'.
Qed.

Lemma declared_is_ext n d P P' : (forall i, 0 <= i < n -> P i = P' i) -> declared_is n d P -> declared_is n d P'.
Proof. intros H [H1 H2]. split; [done|]. intros i Hi. by rewrite H2, H. Qed.

Lemma declare_funcs_spec m fs a d P : func_space m -> Forall (fun i => 0 <= i < wah_func_index_limit m) fs ->
  declared_is (wah_func_index_limit m) d P ->
  exists a' d', (declare_funcs m fs (a, d) = (Ok tt, (a', d')) /\
     declared_is (wah_func_index_limit m) d' (fun i => bool_decide (i ∈ fs) || P i)) \/
    declare_funcs m fs (a, d) = (Err WAH_ERROR_OUT_OF_MEMORY, (a', d')).
Proof.
  intros Hm. revert a d P. induction fs as [|f fs IH]; intros a d P Hf HP; cbn [declare_funcs].
  - exists a, d. left. split; [done|]. by eapply declared_is_ext, HP.
  - apply Forall_cons in Hf as [Hf Hfs]. unfold stm_bind.
    destruct (wah_declare_func_cases m f a d P Hm Hf HP) as [(a1 & bits & -> & H1)|(a1 & ->)].
    + destruct (IH a1 (Some bits) _ Hfs H1) as (a' & d' & [[H H2]|H]); exists a', d'; [left|by right].
      split; [done|]. eapply declared_is_ext, H2. intros i _. cbv beta. rewrite orb_assoc. f_equal.
      destruct (Z.eqb_spec i f) as [->|Hne]; [rewrite orb_true_r, bool_decide_true; [done|by left]|].
      rewrite orb_false_r. apply bool_decide_ext. rewrite elem_of_cons. naive_solver.
    + exists a1, d. by right.
Qed.

(** Declaring functions, one at a time from no set at all, either runs out of
    memory or gives the set with exactly those functions: [wah_is_func_declared]
    answers, for every function of the module, whether it was among them.  No access
    is outside the bitset. *)
Theorem wah_declare_func_exact m fs a : func_space m ->
  Forall (fun i => 0 <= i < wah_func_index_limit m) fs ->
  match declare_funcs m fs (a, None) with
  | (Ok _, (_, d)) => forall i, 0 <= i < wah_func_index_limit m ->
      wah_is_func_declared d i = Some (bool_decide (i ∈ fs))
  | (Err e, _) => e = WAH_ERROR_OUT_OF_MEMORY
  | (Fault, _) => False
  end.
Proof.
  intros Hm Hf. destruct (declare_funcs_spec m fs a None (fun _ => false) Hm Hf) as (a' & d' & [[-> H]| ->]); [done| |done].
  intros i Hi. by rewrite (proj2 H i Hi), orb_false_r.
Qed.


(** Three functions, of which the first and the last are declared. *)
Definition demo_module : wah_module_env :=
  ModuleEnv (Module [] [] None None [] (FeatureState 0 0)) [0] [0; 0] [] [] [] [] [] [] [] [] [] 0 false.

Lemma wah_declare_func_exact_witness :
  declare_funcs demo_module [2; 0] ([], None) = (Ok tt, ([], Some [5])) /\
  wah_is_func_declared (Some [5]) 1 = Some false /\ wah_is_func_declared (Some [5]) 2 = Some true.
Proof.
  split; [vm_compute; reflexivity|].
  pose proof (wah_declare_func_exact demo_module [2; 0] [] ltac:(vm_compute; reflexivity)
    ltac:(repeat constructor; vm_compute; congruence)) as H.
  run_in H. split; [apply (H 1)|apply (H 2)]; vm_compute; split; congruence.
Defined.

(** C38. The size of the set is rounded up in 32 bits, which overflows for a module with
    at least 2^32 - 7 functions: nothing is allocated, and the first declaration
    writes through a null pointer, whatever the allocator answers.  The bound of
    [func_space] is thus the best possible. *)
Theorem wah_declare_func_overflow m i a : 2 ^ 32 - 7 <= wah_func_index_limit m -> 0 <= i ->
  wah_declare_func m i (a, None) = (Fault, (a, Some [])).
Proof.
  intros Hm Hi. assert (Hl : 0 <= wah_func_index_limit m < 2 ^ 32) by apply u32_range.
  unfold wah_declare_func. simpl. destruct (Z.eqb_spec (wah_func_index_limit m) 0); [lia|].
  assert (Hb : u32 (wah_func_index_limit m + 7) / 8 = 0).
  { unfold u32. replace (wah_func_index_limit m + 7) with (wah_func_index_limit m + 7 - 2 ^ 32 + 1 * 2 ^ 32) by lia.
    rewrite Z.mod_add, Z.mod_small, Z.div_small; lia. }
  rewrite Hb. unfold wah_malloc_c, set_func_bit. simpl.
  destruct (zget [] (bit_byte i)) eqn:E; [|done]. by apply zget_Some in E as [_ ?].
Qed.

Definition huge_module (n : nat) : wah_module_env :=
  ModuleEnv (Module [] [] None None [] (FeatureState 0 0)) [] (replicate n 0) [] [] [] [] [] [] [] [] [] 0 false.
Lemma wah_declare_func_overflow_witness :
  exists n, wah_func_index_limit (huge_module n) = 2 ^ 32 - 1 /\
    wah_declare_func (huge_module n) 0 ([], None) = (Fault, ([], Some [])).
Proof.
  exists (Z.to_nat (2 ^ 32 - 1)).
  assert (H : forall n, 0 <= n < 2 ^ 32 -> wah_func_index_limit (huge_module (Z.to_nat n)) = n).
  { intros n Hn. unfold wah_func_index_limit, index_limit, huge_module, zlen. cbn [func_imports function_type_indices length].
    rewrite length_replicate. rewrite u32_small; lia. }
  assert (H' : wah_func_index_limit (huge_module (Z.to_nat (2 ^ 32 - 1))) = 2 ^ 32 - 1) by (apply H; lia).
  revert H'. generalize (Z.to_nat (2 ^ 32 - 1)). intros n Hn. split; [exact Hn|].
  apply (wah_declare_func_overflow (huge_module n) 0 []); rewrite ?Hn; vm_compute; congruence.
Defined.
