(* ===== verification/Operands.v ===== *)
(** * The state of validation and its operand stack

    [wah_validation_context_t] and the analyzed code it produces (wah.h, "Validation
    Context" and "Analyzed-Code IR"), and the helpers on the operand stack, control
    frames and local initialisation (from [wah_type_stack_push] to
    [wah_validation_resolve_br_target]). *)

From S2P Require Import Prelude Base Alloc Types Opcodes Bytes Leb128 Decode Subtype ModuleEnv.
From stdpp Require Import list sets.
#[local] Open Scope Z_scope.
#[local] Open Scope wah_scope.

(** ** Definitions *)

Definition WAH_MAX_TYPE_STACK_SIZE : Z := 1024.
Definition WAH_MAX_CONTROL_DEPTH : Z := 256.

(** [data] has WAH_MAX_TYPE_STACK_SIZE entries, of which those from [sp] are stale. *)
Record wah_type_stack_t := TypeStack { ts_data : list wah_type_t; ts_sp : Z; ts_lwm : Z }.

(** The counts are the lengths of the arrays. *)
Record wah_block_type_t := BlockType {
  bt_param_types : list wah_type_t; bt_result_types : list wah_type_t }.

Record wah_validation_control_frame_t := ControlFrame {
  fr_opcode : wah_op;
  fr_type_stack_sp : Z;
  fr_block_type : wah_block_type_t;
  fr_single_result : wah_type_t;
  fr_block_type_idx : Z;
  fr_else_found : bool;
  fr_is_unreachable : bool;
  fr_stack_height : Z;
  fr_local_init_undo_base : Z }.

(** [inits] has [inits_cap] entries; [undo] is the [undo_len] entries in use of an
    array of capacity [undo_cap]. *)
Record wah_local_inits_t := LocalInits {
  li_inits : list Z; li_undo : list Z; li_undo_cap : Z }.

(** Arrays of WAH_MAX_CONTROL_DEPTH + 1 entries. *)
Record wah_br_table_labels_t := BrTableLabels {
  lb_stamps : list Z; lb_records : list Z; lb_serial : Z }.

(** [{0}]. *)
Definition zero_labels : wah_br_table_labels_t :=
  let n := Z.to_nat (WAH_MAX_CONTROL_DEPTH + 1) in BrTableLabels (replicate n 0) (replicate n 0) 0.

Inductive wah_analyze_mode_t := WAH_ANALYZE_FUNC_BODY | WAH_ANALYZE_CONST_EXPR.

(** *** Analyzed code *)

(** [wah_br_table_imm_t]: an element of [rest] is [None] until it is written. *)
Record wah_br_table_imm_t := BrTableImm {
  bti_target_count : Z; bti_record_count : Z; bti_record_cap : Z; bti_keep : Z;
  bti_rest : list (option Z) }.

Record wah_catch_imm := CatchImm {
  ct_kind : Z; ct_tag_idx : Z; ct_target_symbol : Z; ct_drop : Z }.

(** The union [imm] of a decoded instruction. *)
Inductive wah_imm :=
| imm_none
| imm_u32 (v : Z)
| imm_i32 (v : Z)
| imm_i64 (v : Z)
| imm_f32_bits (v : Z)
| imm_f64_bits (v : Z)
| imm_v128 (v : list Z)
| imm_u32_u32 (a b : Z)
| imm_memarg (m : wah_memarg_t)
| imm_memarg_lane (m : wah_memarg_t) (lane : Z)
| imm_branch (label_idx target_symbol keep drop : Z)
| imm_br_table (bt : wah_br_table_imm_t)
| imm_ref_cast (heap_type : Z)
| imm_br_on_cast (cast_flags target_symbol : Z) (src_type dst_type : wah_type_t) (dst_heap_type keep drop : Z)
| imm_type_field (type_idx field_idx : Z)
| imm_block (type_idx : Z) (single : wah_type_t)
| imm_type_length (type_idx length : Z)
| imm_try_table (type_idx : Z) (single : wah_type_t) (catches : list wah_catch_imm).

Definition WAH_INSTR_FLAG_POLL : Z := 1.
Definition WAH_INSTR_FLAG_UNREACHABLE : Z := 2.

Record wah_decoded_instr_t := DecodedInstr {
  di_opcode : Z; di_flags : Z; di_ref_map : Z; di_imm : wah_imm }.
Definition sizeof_wah_decoded_instr_t : Z := 40.

(** *** The state

    The fields of [wah_validation_context_t] that validation does not assign, with
    the code body and the module it refers to. *)
Record wah_validation_env := ValidationEnv {
  v_mode : wah_analyze_mode_t;
  v_func_type : option wah_func_type_t;
  v_total_locals : Z;
  v_max_global_idx : Z;
  v_code_body : option wah_code_body_t;
  v_module : wah_module_env }.

(** The fields it assigns, grouped by what changes together. *)
Record wah_operands := Operands {
  type_stack : wah_type_stack_t; current_stack_depth : Z; max_stack_depth : Z }.
Record wah_control := Control {
  control_stack : list wah_validation_control_frame_t; control_sp : Z; is_unreachable : bool }.
(** Fields of the module: [min_data_segment_count_required] and [declared_funcs]. *)
Record wah_module_notes := ModuleNotes { min_data_required : Z; declared_funcs : option (list Z) }.
(** [instrs] is the [instr_count] entries in use of an array of capacity [instrs_cap]. *)
Record wah_instrs := Instrs { instrs : list wah_decoded_instr_t; instrs_cap : Z }.

Record vstate := VState {
  s_dec : decoder;
  s_ans : answers;
  s_ops : wah_operands;
  s_ctl : wah_control;
  s_inits : option wah_local_inits_t;
  s_labels : option wah_br_table_labels_t;
  s_notes : wah_module_notes;
  s_code : wah_instrs }.

Definition set_dec d s := VState d (s_ans s) (s_ops s) (s_ctl s) (s_inits s) (s_labels s) (s_notes s) (s_code s).
Definition set_ans a s := VState (s_dec s) a (s_ops s) (s_ctl s) (s_inits s) (s_labels s) (s_notes s) (s_code s).
Definition set_ops o s := VState (s_dec s) (s_ans s) o (s_ctl s) (s_inits s) (s_labels s) (s_notes s) (s_code s).
Definition set_ctl c s := VState (s_dec s) (s_ans s) (s_ops s) c (s_inits s) (s_labels s) (s_notes s) (s_code s).
Definition set_inits i s := VState (s_dec s) (s_ans s) (s_ops s) (s_ctl s) i (s_labels s) (s_notes s) (s_code s).
Definition set_labels l s := VState (s_dec s) (s_ans s) (s_ops s) (s_ctl s) (s_inits s) l (s_notes s) (s_code s).
Definition set_notes n s := VState (s_dec s) (s_ans s) (s_ops s) (s_ctl s) (s_inits s) (s_labels s) n (s_code s).
Definition set_code c s := VState (s_dec s) (s_ans s) (s_ops s) (s_ctl s) (s_inits s) (s_labels s) (s_notes s) c.

(** Code that works on one part of the state. *)
Definition with_dec {A} (m : comp decoder A) : comp vstate A := fun s =>
  let '(r, d) := m (s_dec s) in (r, set_dec d s).
Definition with_cur {A} (m : comp (list Z) A) : comp vstate A := with_dec (on_cursor m).
Definition with_ans {A} (m : comp answers A) : comp vstate A := fun s =>
  let '(r, a) := m (s_ans s) in (r, set_ans a s).
Definition with_ops {A} (m : comp wah_operands A) : comp vstate A := fun s =>
  let '(r, o) := m (s_ops s) in (r, set_ops o s).
Definition modify {S} (f : S -> S) : comp S unit := fun s => (Ok tt, f s).

Definition set_unreachable b s :=
  set_ctl (Control (control_stack (s_ctl s)) (control_sp (s_ctl s)) b) s.
Definition set_control_sp n s :=
  set_ctl (Control (control_stack (s_ctl s)) n (is_unreachable (s_ctl s))) s.

(** [control_stack[i]], read and written. *)
Definition frame_at (i : Z) : comp vstate wah_validation_control_frame_t :=
  s <- stm_get ;; stm_opt (zget (control_stack (s_ctl s)) i).
Definition put_frame (i : Z) (f : wah_validation_control_frame_t) : comp vstate unit :=
  s <- stm_get ;;
  l <- stm_opt (zset (control_stack (s_ctl s)) i f) ;;
  stm_put (set_ctl (Control l (control_sp (s_ctl s)) (is_unreachable (s_ctl s))) s).

(** *** The type stack *)

Definition wah_type_stack_push (type : wah_type_t) : comp wah_type_stack_t unit := fun stack =>
  if ts_sp stack <? WAH_MAX_TYPE_STACK_SIZE then
    match zset (ts_data stack) (ts_sp stack) type with
    | Some d => (Ok tt, TypeStack d (u32 (ts_sp stack + 1)) (ts_lwm stack))
    | None => (Fault, stack)
    end
  else (Err WAH_ERROR_TOO_LARGE, stack).

Definition wah_type_stack_pop : comp wah_type_stack_t wah_type_t := fun stack =>
  if 0 <? ts_sp stack then
    let sp := ts_sp stack - 1 in
    let stack' := TypeStack (ts_data stack) sp (if sp <? ts_lwm stack then sp else ts_lwm stack) in
    match zget (ts_data stack) sp with
    | Some t => (Ok t, stack')
    | None => (Fault, stack')
    end
  else (Err WAH_ERROR_VALIDATION_FAILED, stack).

Definition wah_type_stack_truncate (stack : wah_type_stack_t) (sp : Z) : wah_type_stack_t :=
  TypeStack (ts_data stack) sp (if sp <? ts_lwm stack then sp else ts_lwm stack).

Definition on_stack {A} (m : comp wah_type_stack_t A) : comp wah_operands A := fun o =>
  let '(r, t) := m (type_stack o) in (r, Operands t (current_stack_depth o) (max_stack_depth o)).

Definition set_depth (d : Z) (o : wah_operands) : wah_operands :=
  Operands (type_stack o) d (max_stack_depth o).
Definition bump_max (o : wah_operands) : wah_operands :=
  Operands (type_stack o) (current_stack_depth o)
    (if max_stack_depth o <? current_stack_depth o then current_stack_depth o else max_stack_depth o).

Section Validation.
Context (E : wah_validation_env).
Notation M := (v_module E).
Notation TM := (env_types M).

(** A C call of [wah_type_is_subtype]. *)
Definition is_subtype {S} (sub sup : wah_type_t) : comp S bool :=
  stm_opt (wah_type_is_subtype sub sup (Some TM)).

Definition wah_validate_type_match {S} (actual expected : wah_type_t) : comp S unit :=
  if actual =? WAH_TYPE_BOT then stm_ret tt
  else
    b <- is_subtype (WAH_TYPE_AS_NON_NULL actual) (WAH_TYPE_AS_NON_NULL expected) ;;
    stm_ensure b WAH_ERROR_VALIDATION_FAILED ;;;
    if negb (WAH_TYPE_IS_NULLABLE expected)
    then stm_ensure (negb (WAH_TYPE_IS_NULLABLE actual)) WAH_ERROR_VALIDATION_FAILED
    else stm_ret tt.

Definition wah_validation_block_base_height : comp vstate Z :=
  s <- stm_get ;;
  if control_sp (s_ctl s) =? 0 then stm_ret 0
  else f <- frame_at (control_sp (s_ctl s) - 1) ;; stm_ret (fr_stack_height f).

Definition push_operand (type : wah_type_t) : comp wah_operands unit :=
  on_stack (wah_type_stack_push type) ;;;
  modify (fun o => set_depth (u32 (current_stack_depth o + 1)) o) ;;;
  modify bump_max.
Definition wah_validation_push_type (type : wah_type_t) : comp vstate unit :=
  with_ops (push_operand type).

Definition pop_operand : comp wah_operands wah_type_t :=
  t <- on_stack wah_type_stack_pop ;;
  modify (fun o => set_depth (u32 (current_stack_depth o - 1)) o) ;;;
  stm_ret t.
Definition wah_validation_pop_type : comp vstate wah_type_t :=
  base <- wah_validation_block_base_height ;;
  s <- stm_get ;;
  if current_stack_depth (s_ops s) <=? base then
    stm_ensure (is_unreachable (s_ctl s)) WAH_ERROR_VALIDATION_FAILED ;;;
    stm_ret WAH_TYPE_BOT
  else with_ops pop_operand.

Definition wah_validation_at_unreachable_base : comp vstate bool :=
  s <- stm_get ;;
  if negb (is_unreachable (s_ctl s)) then stm_ret false
  else base <- wah_validation_block_base_height ;; stm_ret (current_stack_depth (s_ops s) <=? base).

Definition wah_validation_pop_and_match_type (expected_type : wah_type_t) : comp vstate unit :=
  actual_type <- wah_validation_pop_type ;;
  wah_validate_type_match actual_type expected_type.

Definition wah_validation_pop_field_value (field_type : wah_type_t) : comp vstate unit :=
  wah_validation_pop_and_match_type (if WAH_TYPE_IS_PACKED field_type then WAH_TYPE_I32 else field_type).

(** The loops over the types of a function or block: operands are popped from the
    last to the first and pushed from the first to the last. *)
Fixpoint pop_all (ts : list wah_type_t) : comp vstate unit :=
  match ts with
  | [] => stm_ret tt
  | t :: ts' => wah_validation_pop_and_match_type t ;;; pop_all ts'
  end.
Definition pop_types (ts : list wah_type_t) : comp vstate unit := pop_all (reverse ts).
Fixpoint push_types (ts : list wah_type_t) : comp vstate unit :=
  match ts with
  | [] => stm_ret tt
  | t :: ts' => wah_validation_push_type t ;;; push_types ts'
  end.

Definition wah_validation_pop_func_params (ft : wah_func_type_t) : comp vstate unit :=
  pop_types (param_types ft).
Definition wah_validation_push_func_results (ft : wah_func_type_t) : comp vstate unit :=
  push_types (result_types ft).

(** [func_type] is NULL in constant expressions. *)
Definition the_func_type {S} : comp S wah_func_type_t := stm_opt (v_func_type E).

(** [wah_validate_type_match] on the elements of two arrays, up to [n]. *)
Fixpoint match_types {S} (n : nat) (actuals expecteds : list wah_type_t) : comp S unit :=
  match n with
  | O => stm_ret tt
  | S n' =>
      match actuals, expecteds with
      | a :: actuals', e :: expecteds' => wah_validate_type_match a e ;;; match_types n' actuals' expecteds'
      | _, _ => fun s => (Fault, s)
      end
  end.

Definition wah_validation_check_return_types (ft : wah_func_type_t) : comp vstate unit :=
  func_type <- the_func_type ;;
  stm_ensure (zlen (result_types ft) =? zlen (result_types func_type)) WAH_ERROR_VALIDATION_FAILED ;;;
  match_types (length (result_types ft)) (result_types ft) (result_types func_type).

Definition wah_validation_mark_unreachable : comp vstate unit :=
  base <- wah_validation_block_base_height ;;
  modify (fun s =>
    let o := s_ops s in
    if base <? current_stack_depth o then
      set_ops (Operands (wah_type_stack_truncate (type_stack o)
                           (u32 (ts_sp (type_stack o) - (current_stack_depth o - base)))) base (max_stack_depth o)) s
    else s) ;;;
  modify (set_unreachable true).

(** *** Initialisation of locals *)

Definition undo_len (s : vstate) : Z := match s_inits s with Some li => zlen (li_undo li) | None => 0 end.
Definition wah_validation_save_local_inits (s : vstate) (f : wah_validation_control_frame_t)
  : wah_validation_control_frame_t :=
  ControlFrame (fr_opcode f) (fr_type_stack_sp f) (fr_block_type f) (fr_single_result f) (fr_block_type_idx f)
    (fr_else_found f) (fr_is_unreachable f) (fr_stack_height f) (undo_len s).

(** [while (li->undo_len > undo_base) li->inits[li->undo[--li->undo_len]] = 0]: one
    iteration per element of [undo], which are taken from the end of the list. *)
Fixpoint revert_loop (fuel : nat) (li : wah_local_inits_t) (undo_base : Z) : option wah_local_inits_t :=
  match fuel with
  | O => None
  | S fuel' =>
      if undo_base <? zlen (li_undo li) then
        i ← last (li_undo li);
        inits ← zset (li_inits li) i 0;
        revert_loop fuel' (LocalInits inits (take (length (li_undo li) - 1) (li_undo li)) (li_undo_cap li)) undo_base
      else Some li
  end.
Definition wah_local_inits_revert (li : wah_local_inits_t) (undo_base : Z) : option wah_local_inits_t :=
  revert_loop (S (length (li_undo li))) li undo_base.

Definition wah_validation_restore_local_inits (frame : wah_validation_control_frame_t) : comp vstate unit :=
  s <- stm_get ;;
  match s_inits s with
  | None => stm_ret tt
  | Some li =>
      li' <- stm_opt (wah_local_inits_revert li (fr_local_init_undo_base frame)) ;;
      stm_put (set_inits (Some li') s)
  end.

Definition wah_validation_local_needs_init (s : vstate) (local_idx : Z) (type : wah_type_t) : bool :=
  match s_inits s, v_func_type E with
  | Some _, Some ft =>
      (zlen (param_types ft) <=? local_idx) && WAH_TYPE_IS_REF type && negb (WAH_TYPE_IS_NULLABLE type)
  | _, _ => false
  end.

Definition wah_validation_init_local (local_idx : Z) (type : wah_type_t) : comp vstate unit :=
  s <- stm_get ;;
  if negb (wah_validation_local_needs_init s local_idx type) then stm_ret tt
  else
    li <- stm_opt (s_inits s) ;;
    b <- stm_opt (zget (li_inits li) local_idx) ;;
    if negb (b =? 0) then stm_ret tt
    else
      cap <- with_ans (wah_grow_array (zlen (li_undo li) + 1) 4 (li_undo_cap li)) ;;
      inits <- stm_opt (zset (li_inits li) local_idx 1) ;;
      modify (set_inits (Some (LocalInits inits (li_undo li ++ [local_idx]) cap))).

(** *** Block types and branch targets *)

(** The three fields of the frame that [wah_validation_decode_block_type] sets. *)
Definition wah_validation_decode_block_type
  : comp vstate (wah_block_type_t * wah_type_t * Z) :=
  with_cur ensure_more ;;;
  block_type_peek <- with_cur peek_byte ;;
  if block_type_peek =? 0x40 then
    with_cur take_byte ;;;
    stm_ret (BlockType [] [], WAH_TYPE_BOT, UINT32_MAX)
  else if (0x63 <=? block_type_peek) && (block_type_peek <=? 0x7F) then
    result_type <- with_dec wah_decode_val_type ;;
    stm_ensure (type_index_ok TM result_type) WAH_ERROR_VALIDATION_FAILED ;;;
    with_dec (on_features (wah_require_type_features result_type)) ;;;
    stm_ret (BlockType [] [result_type], result_type, UINT32_MAX)
  else
    block_type_val <- with_cur wah_decode_sleb128_32 ;;
    stm_ensure (0 <=? block_type_val) WAH_ERROR_MALFORMED ;;;
    with_dec (on_features (require MULTI_VALUE)) ;;;
    let type_idx := u32 block_type_val in
    stm_ensure (type_idx <? type_count TM) WAH_ERROR_VALIDATION_FAILED ;;;
    td <- stm_opt (zget (type_defs TM) type_idx) ;;
    stm_ensure (comp_kind_eqb (kind td) WAH_COMP_FUNC) WAH_ERROR_VALIDATION_FAILED ;;;
    referenced_type <- stm_opt (zget (types TM) type_idx) ;;
    stm_ret (BlockType (param_types referenced_type) (result_types referenced_type), WAH_TYPE_BOT, type_idx).

(** The types of the label and its height. *)
Definition wah_validation_resolve_br_target (label_idx : Z) : comp vstate (list wah_type_t * Z) :=
  s <- stm_get ;;
  if label_idx =? control_sp (s_ctl s) then
    ft <- the_func_type ;; stm_ret (result_types ft, 0)
  else
    frame <- frame_at (control_sp (s_ctl s) - 1 - label_idx) ;;
    stm_ret (match fr_opcode frame with
             | WAH_OP_LOOP => bt_param_types (fr_block_type frame)
             | _ => bt_result_types (fr_block_type frame)
             end, fr_stack_height frame).

(** *** Emission of analyzed code *)

(** [EMIT_INSTR_EX]. *)
Definition emit_flags (s : vstate) : Z := if is_unreachable (s_ctl s) then WAH_INSTR_FLAG_UNREACHABLE else 0.
Definition grow_instrs : comp vstate unit :=
  s <- stm_get ;;
  cap <- with_ans (wah_grow_array (u32 (zlen (instrs (s_code s)) + 1)) sizeof_wah_decoded_instr_t (instrs_cap (s_code s))) ;;
  modify (set_code (Instrs (instrs (s_code s)) cap)).
Definition append_instr (di : wah_decoded_instr_t) (s : vstate) : vstate :=
  set_code (Instrs (instrs (s_code s) ++ [di]) (instrs_cap (s_code s))) s.
Definition emit_instr (op : wah_op) (imm : wah_imm) : comp vstate unit :=
  grow_instrs ;;;
  modify (fun s => append_instr (DecodedInstr (wah_op_value op) (emit_flags s) 0 imm) s).
Definition emit_simple (op : wah_op) : comp vstate unit := emit_instr op imm_none.

Definition wah_analyzed_append_end : comp vstate unit :=
  grow_instrs ;;;
  modify (append_instr (DecodedInstr (wah_op_value WAH_OP_END) 0 0 imm_none)).
End Validation.
