(* ===== verification/Validate.v ===== *)
(** * Validation of single instructions

    [wah_validate_opcode] of wah.h: one definition per group of cases of its switch,
    in the order of the source, and [wah_validate_opcode] which dispatches to them.
    POP, PUSH and EMIT_INSTR_EX are [wah_validation_pop_and_match_type],
    [wah_validation_push_type] and [emit_instr]. *)

From S2P Require Import Prelude Base Alloc Types Opcodes Bytes Leb128 Decode Subtype ModuleEnv Operands.
From stdpp Require Import list sets.
#[local] Open Scope Z_scope.
#[local] Open Scope wah_scope.

(** ** Definitions *)

(** The instruction a value of the switch stands for. *)
Definition wah_opcode_of (v : Z) : option wah_op :=
  row_op <$> List.find (fun r => row_val r =? v) WAH_OPCODES.

(** Instructions of constant expressions; [Some true] needs the extended-const
    feature. *)
Definition const_expr_op (op : wah_op) : option bool :=
  match op with
  | WAH_OP_I32_ADD | WAH_OP_I32_SUB | WAH_OP_I32_MUL
  | WAH_OP_I64_ADD | WAH_OP_I64_SUB | WAH_OP_I64_MUL => Some true
  | WAH_OP_I32_CONST | WAH_OP_I64_CONST | WAH_OP_F32_CONST | WAH_OP_F64_CONST | WAH_OP_V128_CONST
  | WAH_OP_REF_NULL | WAH_OP_REF_FUNC | WAH_OP_GLOBAL_GET
  | WAH_OP_REF_I31 | WAH_OP_STRUCT_NEW | WAH_OP_STRUCT_NEW_DEFAULT
  | WAH_OP_ARRAY_NEW | WAH_OP_ARRAY_NEW_DEFAULT | WAH_OP_ARRAY_NEW_FIXED
  | WAH_OP_ANY_CONVERT_EXTERN | WAH_OP_EXTERN_CONVERT_ANY => Some false
  | _ => None
  end.

(** The cases of the switch on the operand class: what is popped, in this order, and
    what is pushed. *)
Definition opclass_ops (c : wah_opclass_t) : option (list wah_type_t * wah_type_t) :=
  match c with
  | WAH_OPCLASS__I_I => Some ([WAH_TYPE_I32], WAH_TYPE_I32)
  | WAH_OPCLASS__I_L => Some ([WAH_TYPE_I32], WAH_TYPE_I64)
  | WAH_OPCLASS__I_F => Some ([WAH_TYPE_I32], WAH_TYPE_F32)
  | WAH_OPCLASS__I_D => Some ([WAH_TYPE_I32], WAH_TYPE_F64)
  | WAH_OPCLASS__I_V => Some ([WAH_TYPE_I32], WAH_TYPE_V128)
  | WAH_OPCLASS__II_I => Some ([WAH_TYPE_I32; WAH_TYPE_I32], WAH_TYPE_I32)
  | WAH_OPCLASS__IV_V => Some ([WAH_TYPE_V128; WAH_TYPE_I32], WAH_TYPE_V128)
  | WAH_OPCLASS__L_I => Some ([WAH_TYPE_I64], WAH_TYPE_I32)
  | WAH_OPCLASS__L_L => Some ([WAH_TYPE_I64], WAH_TYPE_I64)
  | WAH_OPCLASS__L_F => Some ([WAH_TYPE_I64], WAH_TYPE_F32)
  | WAH_OPCLASS__L_D => Some ([WAH_TYPE_I64], WAH_TYPE_F64)
  | WAH_OPCLASS__L_V => Some ([WAH_TYPE_I64], WAH_TYPE_V128)
  | WAH_OPCLASS__LL_I => Some ([WAH_TYPE_I64; WAH_TYPE_I64], WAH_TYPE_I32)
  | WAH_OPCLASS__LL_L => Some ([WAH_TYPE_I64; WAH_TYPE_I64], WAH_TYPE_I64)
  | WAH_OPCLASS__LV_V => Some ([WAH_TYPE_V128; WAH_TYPE_I64], WAH_TYPE_V128)
  | WAH_OPCLASS__F_I => Some ([WAH_TYPE_F32], WAH_TYPE_I32)
  | WAH_OPCLASS__F_L => Some ([WAH_TYPE_F32], WAH_TYPE_I64)
  | WAH_OPCLASS__F_F => Some ([WAH_TYPE_F32], WAH_TYPE_F32)
  | WAH_OPCLASS__F_V => Some ([WAH_TYPE_F32], WAH_TYPE_V128)
  | WAH_OPCLASS__FF_I => Some ([WAH_TYPE_F32; WAH_TYPE_F32], WAH_TYPE_I32)
  | WAH_OPCLASS__FF_F => Some ([WAH_TYPE_F32; WAH_TYPE_F32], WAH_TYPE_F32)
  | WAH_OPCLASS__D_I => Some ([WAH_TYPE_F64], WAH_TYPE_I32)
  | WAH_OPCLASS__D_L => Some ([WAH_TYPE_F64], WAH_TYPE_I64)
  | WAH_OPCLASS__D_D => Some ([WAH_TYPE_F64], WAH_TYPE_F64)
  | WAH_OPCLASS__D_V => Some ([WAH_TYPE_F64], WAH_TYPE_V128)
  | WAH_OPCLASS__DD_I => Some ([WAH_TYPE_F64; WAH_TYPE_F64], WAH_TYPE_I32)
  | WAH_OPCLASS__DD_L => Some ([WAH_TYPE_F64; WAH_TYPE_F64], WAH_TYPE_I64)
  | WAH_OPCLASS__DD_D => Some ([WAH_TYPE_F64; WAH_TYPE_F64], WAH_TYPE_F64)
  | WAH_OPCLASS__V_I => Some ([WAH_TYPE_V128], WAH_TYPE_I32)
  | WAH_OPCLASS__V_V => Some ([WAH_TYPE_V128], WAH_TYPE_V128)
  | WAH_OPCLASS__VI_V => Some ([WAH_TYPE_I32; WAH_TYPE_V128], WAH_TYPE_V128)
  | WAH_OPCLASS__VV_V => Some ([WAH_TYPE_V128; WAH_TYPE_V128], WAH_TYPE_V128)
  | WAH_OPCLASS__VVV_V => Some ([WAH_TYPE_V128; WAH_TYPE_V128; WAH_TYPE_V128], WAH_TYPE_V128)
  | _ => None
  end.

(** The cases that only load, store or access a lane, with the macros' arguments. *)
Definition load_op (op : wah_op) : option (wah_type_t * Z) :=
  match op with
  | WAH_OP_I32_LOAD => Some (WAH_TYPE_I32, 2)
  | WAH_OP_I64_LOAD => Some (WAH_TYPE_I64, 3)
  | WAH_OP_F32_LOAD => Some (WAH_TYPE_F32, 2)
  | WAH_OP_F64_LOAD => Some (WAH_TYPE_F64, 3)
  | WAH_OP_I32_LOAD8_S | WAH_OP_I32_LOAD8_U => Some (WAH_TYPE_I32, 0)
  | WAH_OP_I32_LOAD16_S | WAH_OP_I32_LOAD16_U => Some (WAH_TYPE_I32, 1)
  | WAH_OP_I64_LOAD8_S | WAH_OP_I64_LOAD8_U => Some (WAH_TYPE_I64, 0)
  | WAH_OP_I64_LOAD16_S | WAH_OP_I64_LOAD16_U => Some (WAH_TYPE_I64, 1)
  | WAH_OP_I64_LOAD32_S | WAH_OP_I64_LOAD32_U => Some (WAH_TYPE_I64, 2)
  | WAH_OP_V128_LOAD => Some (WAH_TYPE_V128, 4)
  | WAH_OP_V128_LOAD8X8_S | WAH_OP_V128_LOAD8X8_U => Some (WAH_TYPE_V128, 3)
  | WAH_OP_V128_LOAD16X4_S | WAH_OP_V128_LOAD16X4_U => Some (WAH_TYPE_V128, 3)
  | WAH_OP_V128_LOAD32X2_S | WAH_OP_V128_LOAD32X2_U => Some (WAH_TYPE_V128, 3)
  | WAH_OP_V128_LOAD8_SPLAT => Some (WAH_TYPE_V128, 0)
  | WAH_OP_V128_LOAD16_SPLAT => Some (WAH_TYPE_V128, 1)
  | WAH_OP_V128_LOAD32_SPLAT => Some (WAH_TYPE_V128, 2)
  | WAH_OP_V128_LOAD64_SPLAT => Some (WAH_TYPE_V128, 3)
  | WAH_OP_V128_LOAD32_ZERO => Some (WAH_TYPE_V128, 2)
  | WAH_OP_V128_LOAD64_ZERO => Some (WAH_TYPE_V128, 3)
  | _ => None
  end.

Definition store_op (op : wah_op) : option (wah_type_t * Z) :=
  match op with
  | WAH_OP_I32_STORE => Some (WAH_TYPE_I32, 2)
  | WAH_OP_I64_STORE => Some (WAH_TYPE_I64, 3)
  | WAH_OP_F32_STORE => Some (WAH_TYPE_F32, 2)
  | WAH_OP_F64_STORE => Some (WAH_TYPE_F64, 3)
  | WAH_OP_I32_STORE8 => Some (WAH_TYPE_I32, 0)
  | WAH_OP_I32_STORE16 => Some (WAH_TYPE_I32, 1)
  | WAH_OP_I64_STORE8 => Some (WAH_TYPE_I64, 0)
  | WAH_OP_I64_STORE16 => Some (WAH_TYPE_I64, 1)
  | WAH_OP_I64_STORE32 => Some (WAH_TYPE_I64, 2)
  | WAH_OP_V128_STORE => Some (WAH_TYPE_V128, 4)
  | _ => None
  end.

Definition v128_lane_op (op : wah_op) : option (Z * bool) :=
  match op with
  | WAH_OP_V128_LOAD8_LANE => Some (0, true)
  | WAH_OP_V128_LOAD16_LANE => Some (1, true)
  | WAH_OP_V128_LOAD32_LANE => Some (2, true)
  | WAH_OP_V128_LOAD64_LANE => Some (3, true)
  | WAH_OP_V128_STORE8_LANE => Some (0, false)
  | WAH_OP_V128_STORE16_LANE => Some (1, false)
  | WAH_OP_V128_STORE32_LANE => Some (2, false)
  | WAH_OP_V128_STORE64_LANE => Some (3, false)
  | _ => None
  end.

Definition extract_lane_op (op : wah_op) : option (wah_type_t * Z) :=
  match op with
  | WAH_OP_I8X16_EXTRACT_LANE_S | WAH_OP_I8X16_EXTRACT_LANE_U => Some (WAH_TYPE_I32, 16)
  | WAH_OP_I16X8_EXTRACT_LANE_S | WAH_OP_I16X8_EXTRACT_LANE_U => Some (WAH_TYPE_I32, 8)
  | WAH_OP_I32X4_EXTRACT_LANE => Some (WAH_TYPE_I32, 4)
  | WAH_OP_I64X2_EXTRACT_LANE => Some (WAH_TYPE_I64, 2)
  | WAH_OP_F32X4_EXTRACT_LANE => Some (WAH_TYPE_F32, 4)
  | WAH_OP_F64X2_EXTRACT_LANE => Some (WAH_TYPE_F64, 2)
  | _ => None
  end.

Definition replace_lane_op (op : wah_op) : option (wah_type_t * Z) :=
  match op with
  | WAH_OP_I8X16_REPLACE_LANE => Some (WAH_TYPE_I32, 16)
  | WAH_OP_I16X8_REPLACE_LANE => Some (WAH_TYPE_I32, 8)
  | WAH_OP_I32X4_REPLACE_LANE => Some (WAH_TYPE_I32, 4)
  | WAH_OP_I64X2_REPLACE_LANE => Some (WAH_TYPE_I64, 2)
  | WAH_OP_F32X4_REPLACE_LANE => Some (WAH_TYPE_F32, 4)
  | WAH_OP_F64X2_REPLACE_LANE => Some (WAH_TYPE_F64, 2)
  | _ => None
  end.

(** The [n] bytes at the cursor, which moves behind them. *)
Definition take_bytes (n : nat) : comp (list Z) (list Z) :=
  rest <- stm_get ;;
  stm_ensure (Z.of_nat n <=? zlen rest) WAH_ERROR_UNEXPECTED_EOF ;;;
  stm_put (drop n rest) ;;;
  stm_ret (take n rest).

Section Validation.
Context (E : wah_validation_env).
Notation M := (v_module E).
Notation TM := (env_types M).
Notation POP := (wah_validation_pop_and_match_type E).
Notation PUSH := wah_validation_push_type.
Notation POP_INTO := wah_validation_pop_type.
Notation decode_u32 := (with_cur wah_decode_uleb128).
Notation ensure b := (stm_ensure b WAH_ERROR_VALIDATION_FAILED).

(** A decoded memory argument and the address type of its memory. *)
Definition decode_mem_access (max_lg_align : Z) : comp vstate (wah_memarg_t * wah_type_t) :=
  memarg <- with_dec wah_decode_memarg ;;
  ensure (align memarg <=? max_lg_align) ;;;
  ensure (memidx memarg <? wah_memory_index_limit M) ;;;
  mt <- stm_opt (wah_memory_type M (memidx memarg)) ;;
  let addr_type := mem_addr_type mt in
  (if addr_type =? WAH_TYPE_I32 then ensure (offset memarg <=? UINT32_MAX) else stm_ret tt) ;;;
  stm_ret (memarg, addr_type).

(** [LOAD_OP(T, max_lg_align)]. *)
Definition validate_load (op : wah_op) (T : wah_type_t) (max_lg_align : Z) : comp vstate unit :=
  ' (memarg, addr_type) <- decode_mem_access max_lg_align ;;
  POP addr_type ;;; PUSH T ;;;
  emit_instr op (imm_memarg memarg).

(** [STORE_OP(T, max_lg_align)]. *)
Definition validate_store (op : wah_op) (T : wah_type_t) (max_lg_align : Z) : comp vstate unit :=
  ' (memarg, addr_type) <- decode_mem_access max_lg_align ;;
  POP T ;;; POP addr_type ;;;
  emit_instr op (imm_memarg memarg).

(** [V128_LANE_OP(max_lg_align, is_load)]. *)
Definition validate_v128_lane (op : wah_op) (max_lg_align : Z) (is_load : bool) : comp vstate unit :=
  memarg <- with_dec wah_decode_memarg ;;
  with_cur ensure_more ;;;
  lane_idx <- with_cur take_byte ;;
  ensure (align memarg <=? max_lg_align) ;;;
  ensure (lane_idx <? Z.shiftr 16 max_lg_align) ;;;
  ensure (memidx memarg <? wah_memory_index_limit M) ;;;
  mt <- stm_opt (wah_memory_type M (memidx memarg)) ;;
  let addr_type := mem_addr_type mt in
  (if addr_type =? WAH_TYPE_I32 then ensure (offset memarg <=? UINT32_MAX) else stm_ret tt) ;;;
  POP WAH_TYPE_V128 ;;; POP addr_type ;;; (if is_load then PUSH WAH_TYPE_V128 else stm_ret tt) ;;;
  emit_instr op (imm_memarg_lane memarg lane_idx).

Definition take_lane (lane_count : Z) : comp vstate Z :=
  with_cur ensure_more ;;;
  lane_idx <- with_cur take_byte ;;
  ensure (lane_idx <? lane_count) ;;;
  stm_ret lane_idx.

(** [EXTRACT_LANE_OP(SCALAR_TYPE, LANE_COUNT)]. *)
Definition validate_extract_lane (op : wah_op) (T : wah_type_t) (lane_count : Z) : comp vstate unit :=
  POP WAH_TYPE_V128 ;;; PUSH T ;;;
  lane_idx <- take_lane lane_count ;;
  emit_instr op (imm_u32 lane_idx).

(** [REPLACE_LANE_OP(SCALAR_TYPE, LANE_COUNT)]. *)
Definition validate_replace_lane (op : wah_op) (T : wah_type_t) (lane_count : Z) : comp vstate unit :=
  POP T ;;; POP WAH_TYPE_V128 ;;; PUSH WAH_TYPE_V128 ;;;
  lane_idx <- take_lane lane_count ;;
  emit_instr op (imm_u32 lane_idx).

Definition validate_shuffle (op : wah_op) : comp vstate unit :=
  POP WAH_TYPE_V128 ;;; POP WAH_TYPE_V128 ;;; PUSH WAH_TYPE_V128 ;;;
  s <- stm_get ;;
  stm_ensure (16 <=? zlen (cursor (s_dec s))) WAH_ERROR_UNEXPECTED_EOF ;;;
  ensure (forallb (fun b => b <? 32) (take 16 (cursor (s_dec s)))) ;;;
  emit_instr op (imm_v128 (take 16 (cursor (s_dec s)))) ;;;
  with_cur (take_bytes 16) ;;;
  stm_ret tt.

(** An index of a memory or a table, with its type. *)
Definition decode_memory : comp vstate (Z * wah_memory_type_t) :=
  mem_idx <- decode_u32 ;;
  ensure (mem_idx <? wah_memory_index_limit M) ;;;
  mt <- stm_opt (wah_memory_type M mem_idx) ;;
  stm_ret (mem_idx, mt).
Definition decode_table : comp vstate (Z * wah_table_type_t) :=
  table_idx <- decode_u32 ;;
  ensure (table_idx <? wah_table_index_limit M) ;;;
  tab <- stm_opt (wah_table_type M table_idx) ;;
  stm_ret (table_idx, tab).

(** [min_data_segment_count_required] grows to [data_idx + 1]. *)
Definition require_data_segment (data_idx : Z) : comp vstate unit :=
  ensure (data_idx <? UINT32_MAX) ;;;
  modify (fun s =>
    if min_data_required (s_notes s) <? data_idx + 1
    then set_notes (ModuleNotes (data_idx + 1) (declared_funcs (s_notes s))) s else s).

(** Memory instructions. *)
Definition validate_memory (op : wah_op) : option (comp vstate unit) :=
  match op with
  | WAH_OP_MEMORY_SIZE => Some (
      ' (mem_idx, mt) <- decode_memory ;;
      PUSH (mem_addr_type mt) ;;;
      emit_instr op (imm_u32 mem_idx))
  | WAH_OP_MEMORY_GROW => Some (
      ' (mem_idx, mt) <- decode_memory ;;
      POP (mem_addr_type mt) ;;; PUSH (mem_addr_type mt) ;;;
      emit_instr op (imm_u32 mem_idx))
  | WAH_OP_MEMORY_FILL => Some (
      ' (mem_idx, mt) <- decode_memory ;;
      POP (mem_addr_type mt) ;;; POP WAH_TYPE_I32 ;;; POP (mem_addr_type mt) ;;;
      emit_instr op (imm_u32 mem_idx))
  | WAH_OP_MEMORY_INIT => Some (
      data_idx <- decode_u32 ;;
      ' (mem_idx, mt) <- decode_memory ;;
      POP WAH_TYPE_I32 ;;; POP WAH_TYPE_I32 ;;; POP (mem_addr_type mt) ;;;
      require_data_segment data_idx ;;;
      emit_instr op (imm_u32_u32 data_idx mem_idx))
  | WAH_OP_DATA_DROP => Some (
      data_idx <- decode_u32 ;;
      require_data_segment data_idx ;;;
      emit_instr op (imm_u32 data_idx))
  | WAH_OP_MEMORY_COPY => Some (
      dest_mem_idx <- decode_u32 ;;
      src_mem_idx <- decode_u32 ;;
      ensure (dest_mem_idx <? wah_memory_index_limit M) ;;;
      ensure (src_mem_idx <? wah_memory_index_limit M) ;;;
      dst <- stm_opt (wah_memory_type M dest_mem_idx) ;;
      src <- stm_opt (wah_memory_type M src_mem_idx) ;;
      let dst_at := mem_addr_type dst in
      let src_at := mem_addr_type src in
      let n_type := if (dst_at =? WAH_TYPE_I64) && (src_at =? WAH_TYPE_I64) then WAH_TYPE_I64 else WAH_TYPE_I32 in
      POP n_type ;;; POP src_at ;;; POP dst_at ;;;
      emit_instr op (imm_u32_u32 dest_mem_idx src_mem_idx))
  | _ => None
  end.

(** A function index with its type. *)
Definition decode_func : comp vstate (Z * wah_func_type_t) :=
  func_idx <- decode_u32 ;;
  ensure (func_idx <? wah_func_index_limit M) ;;;
  ft <- stm_opt (wah_resolve_func_type M func_idx) ;;
  stm_ret (func_idx, ft).

(** The type definition [idx], of the given kind; its function type. *)
Definition the_type_def (type_idx : Z) (k : wah_comp_type_kind_t) : comp vstate wah_type_def_t :=
  ensure (type_idx <? type_count TM) ;;;
  td <- stm_opt (zget (type_defs TM) type_idx) ;;
  ensure (comp_kind_eqb (kind td) k) ;;;
  stm_ret td.
Definition func_type_def (type_idx : Z) : comp vstate wah_func_type_t :=
  the_type_def type_idx WAH_COMP_FUNC ;;;
  stm_opt (zget (types TM) type_idx).

(** The immediates of an indirect call, checked, with the types of the table and of
    the callee. *)
Definition decode_indirect : comp vstate (Z * Z * wah_table_type_t * wah_func_type_t) :=
  type_idx <- decode_u32 ;;
  ' (table_idx, tab) <- decode_table ;;
  b <- is_subtype E (elem_type tab) WAH_TYPE_FUNCREF ;;
  ensure b ;;;
  ft <- func_type_def type_idx ;;
  stm_ret (type_idx, table_idx, tab, ft).

(** Calls. *)
Definition validate_call (op : wah_op) : option (comp vstate unit) :=
  match op with
  | WAH_OP_CALL => Some (
      ' (func_idx, called_func_type) <- decode_func ;;
      wah_validation_pop_func_params E called_func_type ;;;
      wah_validation_push_func_results called_func_type ;;;
      emit_instr op (imm_u32 func_idx))
  | WAH_OP_CALL_INDIRECT => Some (
      ' (type_idx, table_idx, tab, expected_func_type) <- decode_indirect ;;
      POP (tab_addr_type tab) ;;;
      wah_validation_pop_func_params E expected_func_type ;;;
      wah_validation_push_func_results expected_func_type ;;;
      emit_instr op (imm_u32_u32 type_idx table_idx))
  | WAH_OP_CALL_REF => Some (
      type_idx <- decode_u32 ;;
      expected_func_type <- func_type_def type_idx ;;
      POP (WAH_TYPE_AS_NULLABLE (WAH_TYPE_FROM_IDX type_idx false)) ;;;
      wah_validation_pop_func_params E expected_func_type ;;;
      wah_validation_push_func_results expected_func_type ;;;
      emit_instr op (imm_u32 type_idx))
  | WAH_OP_RETURN_CALL => Some (
      ' (func_idx, called_func_type) <- decode_func ;;
      wah_validation_check_return_types E called_func_type ;;;
      wah_validation_pop_func_params E called_func_type ;;;
      wah_validation_mark_unreachable ;;;
      emit_instr op (imm_u32 func_idx))
  | WAH_OP_RETURN_CALL_INDIRECT => Some (
      ' (type_idx, table_idx, tab, expected_func_type) <- decode_indirect ;;
      POP (tab_addr_type tab) ;;;
      wah_validation_check_return_types E expected_func_type ;;;
      wah_validation_pop_func_params E expected_func_type ;;;
      wah_validation_mark_unreachable ;;;
      emit_instr op (imm_u32_u32 type_idx table_idx))
  | WAH_OP_RETURN_CALL_REF => Some (
      with_dec (on_features (require TAIL_CALL)) ;;;
      type_idx <- decode_u32 ;;
      expected_func_type <- func_type_def type_idx ;;
      POP (WAH_TYPE_AS_NULLABLE (WAH_TYPE_FROM_IDX type_idx false)) ;;;
      wah_validation_check_return_types E expected_func_type ;;;
      wah_validation_pop_func_params E expected_func_type ;;;
      wah_validation_mark_unreachable ;;;
      emit_instr op (imm_u32 type_idx))
  | _ => None
  end.

(** A local index with its type. *)
Definition decode_local : comp vstate (Z * wah_type_t) :=
  local_idx <- decode_u32 ;;
  ensure (local_idx <? v_total_locals E) ;;;
  func_type <- the_func_type E ;;
  t <- (if local_idx <? zlen (param_types func_type) then stm_opt (zget (param_types func_type) local_idx)
        else
          body <- stm_opt (v_code_body E) ;;
          stm_opt (wah_local_type body (u32 (local_idx - zlen (param_types func_type))))) ;;
  stm_ret (local_idx, t).

(** Variables. *)
Definition validate_variable (op : wah_op) : option (comp vstate unit) :=
  match op with
  | WAH_OP_LOCAL_GET => Some (
      ' (local_idx, expected_type) <- decode_local ;;
      s <- stm_get ;;
      (if wah_validation_local_needs_init E s local_idx expected_type then
         li <- stm_opt (s_inits s) ;;
         b <- stm_opt (zget (li_inits li) local_idx) ;;
         ensure (negb (b =? 0))
       else stm_ret tt) ;;;
      PUSH expected_type ;;;
      emit_instr op (imm_u32 local_idx))
  | WAH_OP_LOCAL_SET => Some (
      ' (local_idx, expected_type) <- decode_local ;;
      POP expected_type ;;;
      wah_validation_init_local E local_idx expected_type ;;;
      emit_instr op (imm_u32 local_idx))
  | WAH_OP_LOCAL_TEE => Some (
      ' (local_idx, expected_type) <- decode_local ;;
      POP expected_type ;;; PUSH expected_type ;;;
      wah_validation_init_local E local_idx expected_type ;;;
      emit_instr op (imm_u32 local_idx))
  | WAH_OP_GLOBAL_GET => Some (
      global_idx <- decode_u32 ;;
      ensure (global_idx <? wah_global_index_limit M) ;;;
      (match v_mode E with
       | WAH_ANALYZE_CONST_EXPR =>
           ensure (global_idx <? v_max_global_idx E) ;;;
           mutable <- stm_opt (wah_global_is_mutable M global_idx) ;;
           ensure (negb mutable) ;;;
           if zlen (global_imports M) <=? global_idx then with_dec (on_features (require GC)) else stm_ret tt
       | WAH_ANALYZE_FUNC_BODY => stm_ret tt
       end) ;;;
      t <- stm_opt (wah_global_type M global_idx) ;;
      PUSH t ;;;
      emit_instr op (imm_u32 global_idx))
  | WAH_OP_GLOBAL_SET => Some (
      global_idx <- decode_u32 ;;
      ensure (global_idx <? wah_global_index_limit M) ;;;
      mutable <- stm_opt (wah_global_is_mutable M global_idx) ;;
      ensure mutable ;;;
      t <- stm_opt (wah_global_type M global_idx) ;;
      POP t ;;;
      emit_instr op (imm_u32 global_idx))
  | _ => None
  end.

(** Table instructions and element segments. *)
Definition validate_table (op : wah_op) : option (comp vstate unit) :=
  match op with
  | WAH_OP_TABLE_GET => Some (
      ' (table_idx, tab) <- decode_table ;;
      POP (tab_addr_type tab) ;;; PUSH (elem_type tab) ;;;
      emit_instr op (imm_u32 table_idx))
  | WAH_OP_TABLE_SET => Some (
      ' (table_idx, tab) <- decode_table ;;
      POP (elem_type tab) ;;; POP (tab_addr_type tab) ;;;
      emit_instr op (imm_u32 table_idx))
  | WAH_OP_TABLE_SIZE => Some (
      ' (table_idx, tab) <- decode_table ;;
      PUSH (tab_addr_type tab) ;;;
      emit_instr op (imm_u32 table_idx))
  | WAH_OP_TABLE_GROW => Some (
      ' (table_idx, tab) <- decode_table ;;
      POP (tab_addr_type tab) ;;; POP (elem_type tab) ;;; PUSH (tab_addr_type tab) ;;;
      emit_instr op (imm_u32 table_idx))
  | WAH_OP_TABLE_FILL => Some (
      ' (table_idx, tab) <- decode_table ;;
      POP (tab_addr_type tab) ;;; POP (elem_type tab) ;;; POP (tab_addr_type tab) ;;;
      emit_instr op (imm_u32 table_idx))
  | WAH_OP_TABLE_COPY => Some (
      dst_table_idx <- decode_u32 ;;
      src_table_idx <- decode_u32 ;;
      ensure (dst_table_idx <? wah_table_index_limit M) ;;;
      ensure (src_table_idx <? wah_table_index_limit M) ;;;
      dst_tt <- stm_opt (wah_table_type M dst_table_idx) ;;
      src_tt <- stm_opt (wah_table_type M src_table_idx) ;;
      let dst_addr_type := tab_addr_type dst_tt in
      let src_addr_type := tab_addr_type src_tt in
      wah_validate_type_match E (elem_type src_tt) (elem_type dst_tt) ;;;
      let size_type := if (dst_addr_type =? WAH_TYPE_I64) && (src_addr_type =? WAH_TYPE_I64)
                       then WAH_TYPE_I64 else WAH_TYPE_I32 in
      POP size_type ;;; POP src_addr_type ;;; POP dst_addr_type ;;;
      emit_instr op (imm_u32_u32 dst_table_idx src_table_idx))
  | WAH_OP_TABLE_INIT => Some (
      elem_idx <- decode_u32 ;;
      table_idx <- decode_u32 ;;
      ensure (elem_idx <? zlen (element_segments M)) ;;;
      ensure (table_idx <? wah_table_index_limit M) ;;;
      seg <- stm_opt (zget (element_segments M) elem_idx) ;;
      tab <- stm_opt (wah_table_type M table_idx) ;;
      wah_validate_type_match E seg (elem_type tab) ;;;
      POP WAH_TYPE_I32 ;;; POP WAH_TYPE_I32 ;;; POP (tab_addr_type tab) ;;;
      emit_instr op (imm_u32_u32 elem_idx table_idx))
  | WAH_OP_ELEM_DROP => Some (
      elem_idx <- decode_u32 ;;
      ensure (elem_idx <? zlen (element_segments M)) ;;;
      emit_instr op (imm_u32 elem_idx))
  | _ => None
  end.

(** Constants: the bytes of a floating-point constant are its bits, on the
    little-endian targets. *)
Definition validate_const (op : wah_op) : option (comp vstate unit) :=
  match op with
  | WAH_OP_I32_CONST => Some (
      val <- with_cur wah_decode_sleb128_32 ;;
      PUSH WAH_TYPE_I32 ;;;
      emit_instr op (imm_i32 val))
  | WAH_OP_I64_CONST => Some (
      val <- with_cur wah_decode_sleb128_64 ;;
      PUSH WAH_TYPE_I64 ;;;
      emit_instr op (imm_i64 val))
  | WAH_OP_F32_CONST => Some (
      bits <- with_cur (take_bytes 4) ;;
      emit_instr op (imm_f32_bits (le_value bits)) ;;;
      PUSH WAH_TYPE_F32)
  | WAH_OP_F64_CONST => Some (
      bits <- with_cur (take_bytes 8) ;;
      emit_instr op (imm_f64_bits (le_value bits)) ;;;
      PUSH WAH_TYPE_F64)
  | WAH_OP_V128_CONST => Some (
      bits <- with_cur (take_bytes 16) ;;
      emit_instr op (imm_v128 bits) ;;;
      PUSH WAH_TYPE_V128)
  | WAH_OP_F32_DEMOTE_F64 => Some (POP WAH_TYPE_F64 ;;; PUSH WAH_TYPE_F32 ;;; emit_simple op)
  | WAH_OP_F64_PROMOTE_F32 => Some (POP WAH_TYPE_F32 ;;; PUSH WAH_TYPE_F64 ;;; emit_simple op)
  | _ => None
  end.

(** Parametric instructions. *)
Definition validate_parametric (op : wah_op) : option (comp vstate unit) :=
  match op with
  | WAH_OP_DROP => Some (POP_INTO ;;; emit_simple op)
  | WAH_OP_SELECT => Some (
      POP WAH_TYPE_I32 ;;;
      b_type <- POP_INTO ;;
      a_type <- POP_INTO ;;
      ensure ((a_type =? b_type) || (a_type =? WAH_TYPE_BOT) || (b_type =? WAH_TYPE_BOT)) ;;;
      let resolved := if negb (a_type =? WAH_TYPE_BOT) then a_type else b_type in
      (if negb (resolved =? WAH_TYPE_BOT)
       then ensure ((WAH_TYPE_V128 <=? resolved) && (resolved <=? WAH_TYPE_I32)) else stm_ret tt) ;;;
      emit_instr op (imm_i32 resolved) ;;;
      PUSH resolved)
  | WAH_OP_SELECT_T => Some (
      vec_len <- decode_u32 ;;
      ensure (vec_len =? 1) ;;;
      sel_type <- with_dec wah_decode_val_type ;;
      ensure (type_index_ok TM sel_type) ;;;
      with_dec (on_features (wah_require_type_features sel_type)) ;;;
      POP WAH_TYPE_I32 ;;; POP sel_type ;;; POP sel_type ;;;
      emit_instr op (imm_i32 sel_type) ;;;
      PUSH sel_type)
  | WAH_OP_NOP => Some (stm_ret tt)
  | WAH_OP_UNREACHABLE => Some (wah_validation_mark_unreachable ;;; emit_simple op)
  | _ => None
  end.

(** [block], [loop] and [if]: the frame is pushed before its block type is decoded,
    with the height of its parent while the parameters are popped; decoding starts by
    clearing the block type.  After an error the frame is popped again in the source,
    and the whole body is given up. *)
Definition validate_block (op : wah_op) : comp vstate unit :=
  (match op with
   | WAH_OP_IF => cond_type <- POP_INTO ;; wah_validate_type_match E cond_type WAH_TYPE_I32
   | _ => stm_ret tt
   end) ;;;
  s <- stm_get ;;
  let sp := control_sp (s_ctl s) in
  stm_ensure (sp <? WAH_MAX_CONTROL_DEPTH) WAH_ERROR_TOO_LARGE ;;;
  parent_base <- wah_validation_block_base_height ;;
  old <- frame_at sp ;;
  let unreachable := is_unreachable (s_ctl s) in
  put_frame sp (ControlFrame op (fr_type_stack_sp old) (BlockType [] []) WAH_TYPE_BOT UINT32_MAX
                  false unreachable parent_base (fr_local_init_undo_base old)) ;;;
  modify (set_control_sp (sp + 1)) ;;;
  ' (bt, single_result, block_type_idx) <- wah_validation_decode_block_type E ;;
  pop_types E (bt_param_types bt) ;;;
  s <- stm_get ;;
  put_frame sp (ControlFrame op (ts_sp (type_stack (s_ops s))) bt single_result block_type_idx false unreachable
                  (current_stack_depth (s_ops s)) (undo_len s)) ;;;
  push_types (bt_param_types bt) ;;;
  modify (set_unreachable false) ;;;
  grow_instrs ;;;
  modify (append_instr (DecodedInstr (wah_op_value op) 0 0 (imm_block block_type_idx single_result))).

(** The operands above the height of the frame are replaced by those at its start,
    and the locals initialised since are reverted; shared by [else] and [end]. *)
Definition finish_frame (frame : wah_validation_control_frame_t) : comp vstate unit :=
  pop_types E (bt_result_types (fr_block_type frame)) ;;;
  s <- stm_get ;;
  ensure (current_stack_depth (s_ops s) =? fr_stack_height frame) ;;;
  modify (fun s => set_ops (Operands (wah_type_stack_truncate (type_stack (s_ops s)) (fr_type_stack_sp frame))
                                     (fr_type_stack_sp frame) (max_stack_depth (s_ops s))) s) ;;;
  wah_validation_restore_local_inits frame.

Definition is_if (op : wah_op) : bool := match op with WAH_OP_IF => true | _ => false end.

Definition validate_else : comp vstate unit :=
  s <- stm_get ;;
  ensure (0 <? control_sp (s_ctl s)) ;;;
  frame <- frame_at (control_sp (s_ctl s) - 1) ;;
  ensure (is_if (fr_opcode frame) && negb (fr_else_found frame)) ;;;
  put_frame (control_sp (s_ctl s) - 1)
    (ControlFrame (fr_opcode frame) (fr_type_stack_sp frame) (fr_block_type frame) (fr_single_result frame)
       (fr_block_type_idx frame) true (fr_is_unreachable frame) (fr_stack_height frame)
       (fr_local_init_undo_base frame)) ;;;
  finish_frame frame ;;;
  push_types (bt_param_types (fr_block_type frame)) ;;;
  modify (set_unreachable false) ;;;
  emit_simple WAH_OP_ELSE.

Definition validate_end : comp vstate unit :=
  s <- stm_get ;;
  ensure (0 <? control_sp (s_ctl s)) ;;;
  frame <- frame_at (control_sp (s_ctl s) - 1) ;;
  let params := bt_param_types (fr_block_type frame) in
  let results := bt_result_types (fr_block_type frame) in
  (if is_if (fr_opcode frame) && negb (fr_else_found frame) then
     ensure (zlen params =? zlen results) ;;;
     match_types E (length params) params results
   else stm_ret tt) ;;;
  finish_frame frame ;;;
  modify (set_control_sp (control_sp (s_ctl s) - 1)) ;;;
  popped <- frame_at (control_sp (s_ctl s) - 1) ;;
  modify (set_unreachable (fr_is_unreachable popped)) ;;;
  push_types results ;;;
  emit_simple WAH_OP_END.

(** What a branch keeps and drops at run time: nothing is computed for unreachable
    code. *)
Definition branch_adjustment (br_stack_height needed keep : Z) : comp vstate (Z * Z) :=
  s <- stm_get ;;
  if is_unreachable (s_ctl s) then stm_ret (0, 0)
  else
    let depth := current_stack_depth (s_ops s) in
    ensure (u32 (br_stack_height + needed) <=? depth) ;;;
    stm_ret (keep, u32 (depth - br_stack_height - needed)).

Definition decode_label : comp vstate Z :=
  label_idx <- decode_u32 ;;
  s <- stm_get ;;
  ensure (label_idx <=? control_sp (s_ctl s)) ;;;
  stm_ret label_idx.

(** [block_floor + count <= depth], when reachable. *)
Definition ensure_above_floor (count : Z) : comp vstate unit :=
  s <- stm_get ;;
  if is_unreachable (s_ctl s) then stm_ret tt
  else
    block_floor <- wah_validation_block_base_height ;;
    ensure (u32 (block_floor + count) <=? current_stack_depth (s_ops s)).

Definition pop_unless_at_base (ts : list wah_type_t) : comp vstate unit :=
  b <- wah_validation_at_unreachable_base ;;
  if (b : bool) then stm_ret tt else pop_types E ts.

(** [br] and [br_if]. *)
Definition validate_br (op : wah_op) : comp vstate unit :=
  let is_br_if := match op with WAH_OP_BR_IF => true | _ => false end in
  label_idx <- decode_label ;;
  (if is_br_if then POP WAH_TYPE_I32 else stm_ret tt) ;;;
  ' (br_result_types, br_stack_height) <- wah_validation_resolve_br_target E label_idx ;;
  let br_result_count := zlen br_result_types in
  ' (adj_keep, adj_drop) <- branch_adjustment br_stack_height br_result_count br_result_count ;;
  (if negb is_br_if then ensure_above_floor br_result_count else stm_ret tt) ;;;
  pop_unless_at_base br_result_types ;;;
  (if is_br_if then push_types br_result_types else wah_validation_mark_unreachable) ;;;
  emit_instr op (imm_branch label_idx 0 adj_keep adj_drop).

Definition validate_return : comp vstate unit :=
  func_type <- the_func_type E ;;
  ensure_above_floor (zlen (result_types func_type)) ;;;
  pop_unless_at_base (result_types func_type) ;;;
  wah_validation_mark_unreachable ;;;
  emit_simple WAH_OP_RETURN.

(** *** [br_table]

    The words of a [wah_br_table_imm_t]. *)
Definition wah_br_table_imm_size (target_count record_cap : Z) : Z :=
  16 + (record_cap * 2 + (target_count + 2) / 2) * 4.
Definition wah_br_table_target (bt : wah_br_table_imm_t) (i : Z) : option Z :=
  w ← zget (bti_rest bt) (bti_record_cap bt * 2 + i / 2);
  w ← w;
  Some (Z.land (Z.shiftr w (i mod 2 * 16)) 0xffff).
Definition set_rest (rest : list (option Z)) (bt : wah_br_table_imm_t) : wah_br_table_imm_t :=
  BrTableImm (bti_target_count bt) (bti_record_count bt) (bti_record_cap bt) (bti_keep bt) rest.
Definition wah_br_table_set_target (bt : wah_br_table_imm_t) (i record : Z) : option wah_br_table_imm_t :=
  let k := bti_record_cap bt * 2 + i / 2 in
  word ← (if i mod 2 =? 0 then Some record
          else w ← zget (bti_rest bt) k; w ← w; Some (u32 (Z.lor w (u32 (Z.shiftl record 16)))));
  rest ← zset (bti_rest bt) k (Some word);
  Some (set_rest rest bt).
(** [wah_br_table_symbols(bt)[r]] and [wah_br_table_drops(bt)[r]]. *)
Definition wah_br_table_symbol (bt : wah_br_table_imm_t) (r : Z) : option Z := zget (bti_rest bt) r ≫= id.
Definition wah_br_table_set_symbol (bt : wah_br_table_imm_t) (r label : Z) : option wah_br_table_imm_t :=
  rest ← zset (bti_rest bt) r (Some label); Some (set_rest rest bt).
Definition wah_br_table_drop (bt : wah_br_table_imm_t) (r : Z) : option Z :=
  zget (bti_rest bt) (bti_record_cap bt + r) ≫= id.
Definition wah_br_table_set_drop (bt : wah_br_table_imm_t) (r drop : Z) : option wah_br_table_imm_t :=
  rest ← zset (bti_rest bt) (bti_record_cap bt + r) (Some drop); Some (set_rest rest bt).

(** The record of [label] in the current br_table, added if there is none. *)
Definition record_label (l : wah_br_table_labels_t) (bt : wah_br_table_imm_t) (record_count label : Z)
  : option (wah_br_table_labels_t * wah_br_table_imm_t * Z) :=
  stamp ← zget (lb_stamps l) label;
  if negb (stamp =? lb_serial l) then
    stamps ← zset (lb_stamps l) label (lb_serial l);
    records ← zset (lb_records l) label (u16 record_count);
    bt ← wah_br_table_set_symbol bt record_count label;
    Some (BrTableLabels stamps records (lb_serial l), bt, u32 (record_count + 1))
  else Some (l, bt, record_count).

Definition the_labels : comp vstate wah_br_table_labels_t :=
  s <- stm_get ;; stm_opt (s_labels s).

(** The loop over the targets, with [n] left from [i]. *)
Fixpoint br_table_targets (n : nat) (i : Z) (bt : wah_br_table_imm_t) (record_count : Z)
  : comp vstate (wah_br_table_imm_t * Z) :=
  match n with
  | O => stm_ret (bt, record_count)
  | S n' =>
      label <- decode_label ;;
      l <- the_labels ;;
      ' (l, bt, record_count) <- stm_opt (record_label l bt record_count label) ;;
      modify (set_labels (Some l)) ;;;
      record <- stm_opt (zget (lb_records l) label) ;;
      bt <- stm_opt (wah_br_table_set_target bt i record) ;;
      br_table_targets n' (i + 1) bt record_count
  end.

(** [if (++labels->serial == 0) ...]. *)
Definition next_serial (l : wah_br_table_labels_t) : wah_br_table_labels_t :=
  let serial := u32 (lb_serial l + 1) in
  if serial =? 0 then BrTableLabels (replicate (length (lb_stamps l)) 0) (lb_records l) 1
  else BrTableLabels (lb_stamps l) (lb_records l) serial.

(** The three loops over the records, with [n] left from [r]. *)
Fixpoint check_record_counts (n : nat) (r count : Z) (bt : wah_br_table_imm_t) : comp vstate unit :=
  match n with
  | O => stm_ret tt
  | S n' =>
      label <- stm_opt (wah_br_table_symbol bt r) ;;
      ' (cur, _) <- wah_validation_resolve_br_target E label ;;
      ensure (zlen cur =? count) ;;;
      check_record_counts n' (r + 1) count bt
  end.
Fixpoint set_record_drops (n : nat) (r count : Z) (bt : wah_br_table_imm_t) : comp vstate wah_br_table_imm_t :=
  match n with
  | O => stm_ret bt
  | S n' =>
      label <- stm_opt (wah_br_table_symbol bt r) ;;
      ' (_, target_stack_height) <- wah_validation_resolve_br_target E label ;;
      s <- stm_get ;;
      let depth := current_stack_depth (s_ops s) in
      ensure (is_unreachable (s_ctl s) || (target_stack_height + count <=? depth)) ;;;
      bt <- stm_opt (wah_br_table_set_drop bt r
                       (if is_unreachable (s_ctl s) then 0 else u32 (depth - target_stack_height - count))) ;;
      set_record_drops n' (r + 1) count bt
  end.
Fixpoint check_record_types (n : nat) (r : Z) (popped : list wah_type_t) (bt : wah_br_table_imm_t)
  : comp vstate unit :=
  match n with
  | O => stm_ret tt
  | S n' =>
      label <- stm_opt (wah_br_table_symbol bt r) ;;
      ' (cur, _) <- wah_validation_resolve_br_target E label ;;
      match_types E (length popped) popped cur ;;;
      check_record_types n' (r + 1) popped bt
  end.

(** Pops the operands for [ts], given from the last, and gives them from the first. *)
Fixpoint pop_matching (ts : list wah_type_t) (popped : list wah_type_t) : comp vstate (list wah_type_t) :=
  match ts with
  | [] => stm_ret popped
  | t :: ts' =>
      actual <- POP_INTO ;;
      wah_validate_type_match E actual t ;;;
      pop_matching ts' (actual :: popped)
  end.

Definition validate_br_table (op : wah_op) : comp vstate unit :=
  s <- stm_get ;;
  ensure (match s_labels s with Some _ => true | None => false end) ;;;
  num_targets <- with_cur (wah_decode_and_validate_count 1) ;;
  stm_ensure (num_targets <? UINT32_MAX) WAH_ERROR_TOO_LARGE ;;;
  s <- stm_get ;;
  stm_ensure (num_targets + 1 <=? zlen (cursor (s_dec s))) WAH_ERROR_MALFORMED ;;;
  let csp := control_sp (s_ctl s) in
  let record_cap := if num_targets <? csp then num_targets + 1 else csp + 1 in
  with_ans (wah_malloc_c 1 (wah_br_table_imm_size num_targets record_cap)) ;;;
  let bt := BrTableImm num_targets 0 record_cap 0
              (replicate (Z.to_nat (record_cap * 2 + (num_targets + 2) / 2)) None) in
  modify (fun s => set_labels (next_serial <$> s_labels s) s) ;;;
  ' (bt, record_count) <- br_table_targets (Z.to_nat (num_targets + 1)) 0 bt 0 ;;
  POP WAH_TYPE_I32 ;;;
  default_record <- stm_opt (wah_br_table_target bt num_targets) ;;
  default_label <- stm_opt (wah_br_table_symbol bt default_record) ;;
  ' (default_result_types, _) <- wah_validation_resolve_br_target E default_label ;;
  let default_result_count := zlen default_result_types in
  check_record_counts (Z.to_nat record_count) 0 default_result_count bt ;;;
  bt <- set_record_drops (Z.to_nat record_count) 0 default_result_count bt ;;
  s <- stm_get ;;
  let bt := BrTableImm (bti_target_count bt) record_count (bti_record_cap bt)
              (if is_unreachable (s_ctl s) then 0 else default_result_count) (bti_rest bt) in
  at_base <- wah_validation_at_unreachable_base ;;
  (if (0 <? default_result_count) && negb at_base then
     with_ans (wah_malloc_c default_result_count 4) ;;;
     popped_types <- pop_matching (reverse default_result_types) [] ;;
     check_record_types (Z.to_nat record_count) 0 popped_types bt
   else stm_ret tt) ;;;
  wah_validation_mark_unreachable ;;;
  emit_instr op (imm_br_table bt).

(** Control instructions. *)
Definition validate_control (op : wah_op) : option (comp vstate unit) :=
  match op with
  | WAH_OP_BLOCK | WAH_OP_LOOP | WAH_OP_IF => Some (validate_block op)
  | WAH_OP_ELSE => Some validate_else
  | WAH_OP_END => Some validate_end
  | WAH_OP_BR | WAH_OP_BR_IF => Some (validate_br op)
  | WAH_OP_BR_TABLE => Some (validate_br_table op)
  | WAH_OP_RETURN => Some validate_return
  | _ => None
  end.

(** [wah_declare_func] on the module of the context. *)
Definition declare_func (func_idx : Z) : comp vstate unit := fun s =>
  let '(r, (a, d)) := wah_declare_func M func_idx (s_ans s, declared_funcs (s_notes s)) in
  (r, set_notes (ModuleNotes (min_data_required (s_notes s)) d) (set_ans a s)).

(** A heap type whose index, if any, is in range. *)
Definition decode_heap_type : comp vstate wah_type_t :=
  t <- with_cur wah_decode_heap_type ;;
  ensure (type_index_ok TM t) ;;;
  stm_ret t.

Definition pop_reference : comp vstate wah_type_t :=
  ref_type <- POP_INTO ;;
  ensure (WAH_TYPE_IS_REF ref_type || (ref_type =? WAH_TYPE_BOT)) ;;;
  stm_ret ref_type.

(** References. *)
Definition validate_ref (op : wah_op) : option (comp vstate unit) :=
  match op with
  | WAH_OP_REF_NULL => Some (
      ref_type <- decode_heap_type ;;
      with_dec (on_features (wah_require_type_features (WAH_TYPE_AS_NULLABLE ref_type))) ;;;
      PUSH (WAH_TYPE_AS_NULLABLE ref_type) ;;;
      emit_instr op (imm_u32 (u32 ref_type)))
  | WAH_OP_REF_IS_NULL => Some (
      pop_reference ;;;
      PUSH WAH_TYPE_I32 ;;;
      emit_simple op)
  | WAH_OP_REF_FUNC => Some (
      func_idx <- decode_u32 ;;
      ensure (func_idx <? wah_func_index_limit M) ;;;
      (match v_mode E with
       | WAH_ANALYZE_CONST_EXPR => declare_func func_idx
       | WAH_ANALYZE_FUNC_BODY =>
           s <- stm_get ;;
           b <- stm_opt (wah_is_func_declared (declared_funcs (s_notes s)) func_idx) ;;
           ensure b
       end) ;;;
      type_idx <- stm_opt (func_type_index M func_idx) ;;
      PUSH (WAH_TYPE_FROM_IDX type_idx false) ;;;
      emit_instr op (imm_u32 func_idx))
  | WAH_OP_REF_AS_NON_NULL => Some (
      ref_type <- pop_reference ;;
      PUSH (if ref_type =? WAH_TYPE_BOT then WAH_TYPE_BOT else WAH_TYPE_AS_NON_NULL ref_type) ;;;
      emit_simple op)
  | WAH_OP_REF_EQ => Some (
      POP WAH_TYPE_EQREF ;;; POP WAH_TYPE_EQREF ;;; PUSH WAH_TYPE_I32 ;;;
      emit_simple op)
  | WAH_OP_ANY_CONVERT_EXTERN => Some (
      ref_type <- POP_INTO ;;
      ensure ((ref_type =? WAH_TYPE_BOT) || (wah_type_hierarchy_top ref_type (Some TM) =? WAH_TYPE_EXTERN)) ;;;
      PUSH (if WAH_TYPE_IS_NULLABLE ref_type then WAH_TYPE_ANYREF else WAH_TYPE_ANY))
  | WAH_OP_EXTERN_CONVERT_ANY => Some (
      ref_type <- POP_INTO ;;
      ensure ((ref_type =? WAH_TYPE_BOT) || (wah_type_hierarchy_top ref_type (Some TM) =? WAH_TYPE_ANY)) ;;;
      PUSH (if WAH_TYPE_IS_NULLABLE ref_type then WAH_TYPE_EXTERNREF else WAH_TYPE_EXTERN))
  | WAH_OP_REF_I31 => Some (POP WAH_TYPE_I32 ;;; PUSH WAH_TYPE_I31 ;;; emit_simple op)
  | WAH_OP_I31_GET_S | WAH_OP_I31_GET_U => Some (POP WAH_TYPE_I31REF ;;; PUSH WAH_TYPE_I32 ;;; emit_simple op)
  | _ => None
  end.

(** [ref.test] and [ref.cast]. *)
Definition validate_ref_test (op : wah_op) (is_test null : bool) : comp vstate unit :=
  heap_type <- decode_heap_type ;;
  with_dec (on_features (wah_require_type_features (WAH_TYPE_AS_NULLABLE heap_type))) ;;;
  ref_type <- pop_reference ;;
  (if negb (ref_type =? WAH_TYPE_BOT) then
     let src_top := wah_type_hierarchy_top ref_type (Some TM) in
     let tgt_top := wah_type_hierarchy_top heap_type (Some TM) in
     ensure (negb (src_top =? WAH_TYPE_BOT) && (src_top =? tgt_top))
   else stm_ret tt) ;;;
  (if is_test then PUSH WAH_TYPE_I32
   else
     let cast_type := if WAH_TYPE_IS_REF heap_type then heap_type
                      else if 0 <=? heap_type then heap_type else WAH_TYPE_ANYREF in
     PUSH (if null then WAH_TYPE_AS_NULLABLE cast_type else cast_type)) ;;;
  emit_instr op (imm_ref_cast heap_type).

(** [br_on_cast] and [br_on_cast_fail]. *)
Definition validate_br_on_cast (op : wah_op) (fail : bool) : comp vstate unit :=
  with_cur ensure_more ;;;
  cast_flags <- with_cur take_byte ;;
  stm_ensure (cast_flags <=? 3) WAH_ERROR_MALFORMED ;;;
  label_idx <- decode_u32 ;;
  ht1 <- with_cur wah_decode_heap_type ;;
  ht2 <- with_cur wah_decode_heap_type ;;
  ensure (type_index_ok TM ht1) ;;;
  ensure (type_index_ok TM ht2) ;;;
  b <- is_subtype E ht2 ht1 ;;
  ensure b ;;;
  s <- stm_get ;;
  ensure (label_idx <=? control_sp (s_ctl s)) ;;;
  let src_nullable := negb (Z.land cast_flags 1 =? 0) in
  let dst_nullable := negb (Z.land cast_flags 2 =? 0) in
  ensure (negb dst_nullable || src_nullable) ;;;
  let base_type t := if WAH_TYPE_IS_REF t then t else if 0 <=? t then t else WAH_TYPE_ANYREF in
  let src_type := if src_nullable then WAH_TYPE_AS_NULLABLE (base_type ht1) else base_type ht1 in
  let dst_type := if dst_nullable then WAH_TYPE_AS_NULLABLE (base_type ht2) else base_type ht2 in
  let rest_type := if dst_nullable then WAH_TYPE_AS_NON_NULL src_type else src_type in
  POP src_type ;;;
  ' (br_result_types, br_stack_height) <- wah_validation_resolve_br_target E label_idx ;;
  let br_result_count := zlen br_result_types in
  ensure (1 <=? br_result_count) ;;;
  last_type <- stm_opt (zget br_result_types (br_result_count - 1)) ;;
  wah_validate_type_match E (if fail then rest_type else dst_type) last_type ;;;
  let prefix_types := take (Z.to_nat (br_result_count - 1)) br_result_types in
  ' (adj_keep, adj_drop) <- branch_adjustment br_stack_height (br_result_count - 1) br_result_count ;;
  pop_types E prefix_types ;;;
  push_types prefix_types ;;;
  PUSH (if fail then dst_type else rest_type) ;;;
  emit_instr op (imm_br_on_cast cast_flags label_idx ht1 ht2 ht2 adj_keep adj_drop).

(** [br_on_null] and [br_on_non_null]. *)
Definition validate_br_on_null (op : wah_op) (non_null : bool) : comp vstate unit :=
  label_idx <- decode_label ;;
  ref_type <- pop_reference ;;
  ' (br_result_types, br_stack_height) <- wah_validation_resolve_br_target E label_idx ;;
  let br_result_count := zlen br_result_types in
  let non_null_ref_type := if ref_type =? WAH_TYPE_BOT then WAH_TYPE_BOT else WAH_TYPE_AS_NON_NULL ref_type in
  prefix_result_count <-
    (if non_null then
       ensure (1 <=? br_result_count) ;;;
       last_type <- stm_opt (zget br_result_types (br_result_count - 1)) ;;
       b <- is_subtype E non_null_ref_type last_type ;;
       ensure b ;;;
       stm_ret (br_result_count - 1)
     else stm_ret br_result_count) ;;
  let prefix_types := take (Z.to_nat prefix_result_count) br_result_types in
  ' (adj_keep, adj_drop) <- branch_adjustment br_stack_height prefix_result_count br_result_count ;;
  pop_types E prefix_types ;;;
  push_types prefix_types ;;;
  (if non_null then stm_ret tt else PUSH non_null_ref_type) ;;;
  emit_instr op (imm_branch label_idx 0 adj_keep adj_drop).

Definition validate_ref_branch (op : wah_op) : option (comp vstate unit) :=
  match op with
  | WAH_OP_REF_TEST_NULL => Some (validate_ref_test op true true)
  | WAH_OP_REF_TEST => Some (validate_ref_test op true false)
  | WAH_OP_REF_CAST_NULL => Some (validate_ref_test op false true)
  | WAH_OP_REF_CAST => Some (validate_ref_test op false false)
  | WAH_OP_BR_ON_CAST => Some (validate_br_on_cast op false)
  | WAH_OP_BR_ON_CAST_FAIL => Some (validate_br_on_cast op true)
  | WAH_OP_BR_ON_NULL => Some (validate_br_on_null op false)
  | WAH_OP_BR_ON_NON_NULL => Some (validate_br_on_null op true)
  | _ => None
  end.

(** *** Aggregates *)

(** [avail]: the operands above the base of the block. *)
Definition available : comp vstate Z :=
  base <- wah_validation_block_base_height ;;
  s <- stm_get ;;
  stm_ret (u32 (current_stack_depth (s_ops s) - base)).

Fixpoint pop_fields (ts : list wah_type_t) : comp vstate unit :=
  match ts with
  | [] => stm_ret tt
  | t :: ts' => wah_validation_pop_field_value E t ;;; pop_fields ts'
  end.

Definition struct_ref (typeidx : Z) : wah_type_t := WAH_TYPE_FROM_IDX typeidx false.
Definition unpacked (t : wah_type_t) : wah_type_t := if WAH_TYPE_IS_PACKED t then WAH_TYPE_I32 else t.

Definition decode_field : comp vstate (Z * Z * wah_type_def_t * wah_type_t) :=
  typeidx <- decode_u32 ;;
  fieldidx <- decode_u32 ;;
  td <- the_type_def typeidx WAH_COMP_STRUCT ;;
  ensure (fieldidx <? zlen (field_types td)) ;;;
  ft <- stm_opt (zget (field_types td) fieldidx) ;;
  stm_ret (typeidx, fieldidx, td, ft).

Definition validate_struct_get (op : wah_op) (plain : bool) : comp vstate unit :=
  ' (typeidx, fieldidx, td, ft) <- decode_field ;;
  ensure (if plain then negb (WAH_TYPE_IS_PACKED ft) else WAH_TYPE_IS_PACKED ft) ;;;
  POP (WAH_TYPE_AS_NULLABLE (struct_ref typeidx)) ;;;
  PUSH (unpacked ft) ;;;
  emit_instr op (imm_type_field typeidx fieldidx).

Definition validate_struct (op : wah_op) : option (comp vstate unit) :=
  match op with
  | WAH_OP_STRUCT_NEW => Some (
      typeidx <- decode_u32 ;;
      td <- the_type_def typeidx WAH_COMP_STRUCT ;;
      avail <- available ;;
      s <- stm_get ;;
      ensure (is_unreachable (s_ctl s) || (zlen (field_types td) <=? avail)) ;;;
      pop_fields (take (Z.to_nat avail) (reverse (field_types td))) ;;;
      PUSH (struct_ref typeidx) ;;;
      emit_instr op (imm_u32 typeidx))
  | WAH_OP_STRUCT_NEW_DEFAULT => Some (
      typeidx <- decode_u32 ;;
      td <- the_type_def typeidx WAH_COMP_STRUCT ;;
      ensure (negb (non_defaultable td)) ;;;
      PUSH (struct_ref typeidx) ;;;
      emit_instr op (imm_u32 typeidx))
  | WAH_OP_STRUCT_GET => Some (validate_struct_get op true)
  | WAH_OP_STRUCT_GET_S | WAH_OP_STRUCT_GET_U => Some (validate_struct_get op false)
  | WAH_OP_STRUCT_SET => Some (
      ' (typeidx, fieldidx, td, ft) <- decode_field ;;
      mutable <- stm_opt (zget (field_mutables td) fieldidx) ;;
      ensure mutable ;;;
      wah_validation_pop_field_value E ft ;;;
      POP (WAH_TYPE_AS_NULLABLE (struct_ref typeidx)) ;;;
      emit_instr op (imm_type_field typeidx fieldidx))
  | _ => None
  end.

(** An array type, its definition and its element type. *)
Definition array_def (typeidx : Z) : comp vstate (wah_type_def_t * wah_type_t) :=
  td <- the_type_def typeidx WAH_COMP_ARRAY ;;
  et <- stm_opt (zget (field_types td) 0) ;;
  stm_ret (td, et).
Definition ensure_mutable (td : wah_type_def_t) : comp vstate unit :=
  mutable <- stm_opt (zget (field_mutables td) 0) ;;
  ensure mutable.

Definition validate_array_get (op : wah_op) (plain : bool) : comp vstate unit :=
  typeidx <- decode_u32 ;;
  ' (td, et) <- array_def typeidx ;;
  ensure (if plain then negb (WAH_TYPE_IS_PACKED et) else WAH_TYPE_IS_PACKED et) ;;;
  POP WAH_TYPE_I32 ;;; POP (WAH_TYPE_AS_NULLABLE (struct_ref typeidx)) ;;;
  PUSH (unpacked et) ;;;
  emit_instr op (imm_u32 typeidx).

Definition validate_array (op : wah_op) : option (comp vstate unit) :=
  match op with
  | WAH_OP_ARRAY_NEW => Some (
      typeidx <- decode_u32 ;;
      ' (td, et) <- array_def typeidx ;;
      POP WAH_TYPE_I32 ;;;
      wah_validation_pop_field_value E et ;;;
      PUSH (struct_ref typeidx) ;;;
      emit_instr op (imm_u32 typeidx))
  | WAH_OP_ARRAY_NEW_DEFAULT => Some (
      typeidx <- decode_u32 ;;
      ' (td, et) <- array_def typeidx ;;
      POP WAH_TYPE_I32 ;;;
      ensure (negb (WAH_TYPE_IS_REF et) || WAH_TYPE_IS_NULLABLE et) ;;;
      PUSH (struct_ref typeidx) ;;;
      emit_instr op (imm_u32 typeidx))
  | WAH_OP_ARRAY_NEW_FIXED => Some (
      typeidx <- decode_u32 ;;
      len <- decode_u32 ;;
      ' (td, et) <- array_def typeidx ;;
      avail <- available ;;
      s <- stm_get ;;
      ensure (is_unreachable (s_ctl s) || (len <=? avail)) ;;;
      pop_fields (replicate (Z.to_nat (Z.min len avail)) et) ;;;
      PUSH (struct_ref typeidx) ;;;
      emit_instr op (imm_type_length typeidx len))
  | WAH_OP_ARRAY_GET => Some (validate_array_get op true)
  | WAH_OP_ARRAY_GET_S | WAH_OP_ARRAY_GET_U => Some (validate_array_get op false)
  | WAH_OP_ARRAY_SET => Some (
      typeidx <- decode_u32 ;;
      ' (td, et) <- array_def typeidx ;;
      ensure_mutable td ;;;
      wah_validation_pop_field_value E et ;;;
      POP WAH_TYPE_I32 ;;; POP (WAH_TYPE_AS_NULLABLE (struct_ref typeidx)) ;;;
      emit_instr op (imm_u32 typeidx))
  | WAH_OP_ARRAY_LEN => Some (
      rt <- POP_INTO ;;
      b <- (if rt =? WAH_TYPE_BOT then stm_ret true else is_subtype E rt WAH_TYPE_ARRAYREF) ;;
      ensure b ;;;
      PUSH WAH_TYPE_I32 ;;;
      emit_simple op)
  | WAH_OP_ARRAY_FILL => Some (
      typeidx <- decode_u32 ;;
      ' (td, et) <- array_def typeidx ;;
      ensure_mutable td ;;;
      POP WAH_TYPE_I32 ;;;
      wah_validation_pop_field_value E et ;;;
      POP WAH_TYPE_I32 ;;; POP (WAH_TYPE_AS_NULLABLE (struct_ref typeidx)) ;;;
      emit_instr op (imm_u32 typeidx))
  | WAH_OP_ARRAY_COPY => Some (
      dst_typeidx <- decode_u32 ;;
      src_typeidx <- decode_u32 ;;
      ' (dst_td, dst_et) <- array_def dst_typeidx ;;
      ensure_mutable dst_td ;;;
      ' (_, src_et) <- array_def src_typeidx ;;
      wah_validate_type_match E src_et dst_et ;;;
      POP WAH_TYPE_I32 ;;; POP WAH_TYPE_I32 ;;; POP (WAH_TYPE_AS_NULLABLE (struct_ref src_typeidx)) ;;;
      POP WAH_TYPE_I32 ;;; POP (WAH_TYPE_AS_NULLABLE (struct_ref dst_typeidx)) ;;;
      emit_instr op (imm_type_length dst_typeidx src_typeidx))
  | _ => None
  end.

(** The element segment [segidx] fits an array of [et]. *)
Definition check_elem_segment (segidx : Z) (et : wah_type_t) : comp vstate unit :=
  ensure (segidx <? zlen (element_segments M)) ;;;
  seg <- stm_opt (zget (element_segments M) segidx) ;;
  wah_validate_type_match E seg et.

(** [array.new_data], [array.new_elem], [array.init_data] and [array.init_elem]. *)
Definition validate_array_new_seg (op : wah_op) (data : bool) : comp vstate unit :=
  typeidx <- decode_u32 ;;
  segidx <- decode_u32 ;;
  ' (td, et) <- array_def typeidx ;;
  (if data then
     ensure (negb (WAH_TYPE_IS_REF et)) ;;;
     ensure (segidx <? data_segment_count M)
   else check_elem_segment segidx et) ;;;
  POP WAH_TYPE_I32 ;;; POP WAH_TYPE_I32 ;;; PUSH (struct_ref typeidx) ;;;
  emit_instr op (imm_type_length typeidx segidx).
Definition validate_array_init_seg (op : wah_op) (data : bool) : comp vstate unit :=
  typeidx <- decode_u32 ;;
  segidx <- decode_u32 ;;
  ' (td, et) <- array_def typeidx ;;
  ensure_mutable td ;;;
  (if data then
     ensure (negb (WAH_TYPE_IS_REF et)) ;;;
     ensure (segidx <? data_segment_count M)
   else
     ensure (WAH_TYPE_IS_REF et) ;;;
     check_elem_segment segidx et) ;;;
  POP WAH_TYPE_I32 ;;; POP WAH_TYPE_I32 ;;; POP WAH_TYPE_I32 ;;;
  POP (WAH_TYPE_AS_NULLABLE (struct_ref typeidx)) ;;;
  emit_instr op (imm_type_length typeidx segidx).

Definition validate_array_seg (op : wah_op) : option (comp vstate unit) :=
  match op with
  | WAH_OP_ARRAY_NEW_DATA => Some (validate_array_new_seg op true)
  | WAH_OP_ARRAY_NEW_ELEM => Some (validate_array_new_seg op false)
  | WAH_OP_ARRAY_INIT_DATA => Some (validate_array_init_seg op true)
  | WAH_OP_ARRAY_INIT_ELEM => Some (validate_array_init_seg op false)
  | _ => None
  end.

(** *** Exceptions *)

Definition total_tags : Z := u32 (zlen (tag_imports M) + zlen (tags M)).
Definition tag_type (tag_idx : Z) : comp vstate wah_func_type_t :=
  type_idx <- stm_opt (wah_tag_type_index M tag_idx) ;;
  stm_opt (zget (types TM) type_idx).

(** [wah_catch_entry_t]: [drop] is set later. *)
Record wah_catch_entry_t := CatchEntry { ce_kind : Z; ce_tag_idx : Z; ce_label_idx : Z }.

Fixpoint decode_catches (n : nat) : comp vstate (list wah_catch_entry_t) :=
  match n with
  | O => stm_ret []
  | S n' =>
      with_cur ensure_more ;;;
      catch_kind <- with_cur take_byte ;;
      ensure (catch_kind <=? 3) ;;;
      tag_idx <- (if (catch_kind =? 0) || (catch_kind =? 1) then
                    tag_idx <- decode_u32 ;;
                    ensure (tag_idx <? total_tags) ;;;
                    stm_ret tag_idx
                  else stm_ret 0) ;;
      label_idx <- decode_u32 ;;
      s <- stm_get ;;
      ensure (label_idx <=? control_sp (s_ctl s)) ;;;
      rest <- decode_catches n' ;;
      stm_ret (CatchEntry catch_kind tag_idx label_idx :: rest)
  end.

Definition raise_max_depth (d : Z) (o : wah_operands) : wah_operands :=
  Operands (type_stack o) (current_stack_depth o) (if max_stack_depth o <? d then d else max_stack_depth o).

(** One iteration of the loop that checks the catches against their labels. *)
Definition check_catch (frame : wah_validation_control_frame_t) (param_count : Z) (c : wah_catch_entry_t)
  : comp vstate wah_catch_imm :=
  let adjusted_label := u32 (ce_label_idx c + 1) in
  ' (br_result_types, br_stack_height) <- wah_validation_resolve_br_target E adjusted_label ;;
  let br_result_count := zlen br_result_types in
  ensure (br_stack_height <=? fr_stack_height frame) ;;;
  let drop := u32 (fr_stack_height frame + param_count - br_stack_height) in
  with_ops (modify (raise_max_depth (u32 (br_stack_height + br_result_count)))) ;;;
  tag_param_types <-
    (if (ce_kind c =? 0) || (ce_kind c =? 1) then
       ft <- tag_type (ce_tag_idx c) ;; stm_ret (param_types ft)
     else stm_ret []) ;;
  let has_exnref := (ce_kind c =? 1) || (ce_kind c =? 3) in
  let expected_count := u32 (zlen tag_param_types + b2z has_exnref) in
  ensure (br_result_count =? expected_count) ;;;
  match_types E (length tag_param_types) tag_param_types br_result_types ;;;
  (if has_exnref then
     last_type <- stm_opt (zget br_result_types (br_result_count - 1)) ;;
     wah_validate_type_match E WAH_TYPE_EXN last_type
   else stm_ret tt) ;;;
  stm_ret (CatchImm (ce_kind c) (ce_tag_idx c) (ce_label_idx c) drop).

Fixpoint check_catches (frame : wah_validation_control_frame_t) (param_count : Z) (cs : list wah_catch_entry_t)
  : comp vstate (list wah_catch_imm) :=
  match cs with
  | [] => stm_ret []
  | c :: cs' =>
      i <- check_catch frame param_count c ;;
      imms <- check_catches frame param_count cs' ;;
      stm_ret (i :: imms)
  end.

Definition sizeof_wah_catch_entry_t : Z := 16.

(** The frame is filled in place at [control_stack[control_sp]] and counted only once
    the parameters are popped. *)
Definition validate_try_table (op : wah_op) : comp vstate unit :=
  s <- stm_get ;;
  let sp := control_sp (s_ctl s) in
  stm_ensure (sp <? WAH_MAX_CONTROL_DEPTH) WAH_ERROR_TOO_LARGE ;;;
  let unreachable := is_unreachable (s_ctl s) in
  ' (bt, single_result, block_type_idx) <- wah_validation_decode_block_type E ;;
  catch_count <- with_cur (wah_decode_and_validate_count 2) ;;
  with_ans (wah_malloc_c catch_count sizeof_wah_catch_entry_t) ;;;
  catch_entries <- decode_catches (Z.to_nat catch_count) ;;
  pop_types E (bt_param_types bt) ;;;
  s <- stm_get ;;
  old <- frame_at sp ;;
  let frame := ControlFrame op (ts_sp (type_stack (s_ops s))) bt single_result block_type_idx false unreachable
                 (current_stack_depth (s_ops s)) (fr_local_init_undo_base old) in
  put_frame sp frame ;;;
  modify (set_control_sp (sp + 1)) ;;;
  catches <- check_catches frame (zlen (bt_param_types bt)) catch_entries ;;
  push_types (bt_param_types bt) ;;;
  modify (set_unreachable false) ;;;
  s <- stm_get ;;
  put_frame sp (wah_validation_save_local_inits s frame) ;;;
  grow_instrs ;;;
  with_ans (wah_malloc_c catch_count sizeof_wah_catch_entry_t) ;;;
  modify (fun s => append_instr (DecodedInstr (wah_op_value op) (emit_flags s) 0
                                   (imm_try_table block_type_idx single_result catches)) s).

Definition validate_exception (op : wah_op) : option (comp vstate unit) :=
  match op with
  | WAH_OP_THROW => Some (
      tag_idx <- decode_u32 ;;
      ensure (tag_idx <? total_tags) ;;;
      ft <- tag_type tag_idx ;;
      wah_validation_pop_func_params E ft ;;;
      wah_validation_mark_unreachable ;;;
      emit_instr op (imm_u32 tag_idx))
  | WAH_OP_THROW_REF => Some (
      ref_type <- POP_INTO ;;
      ensure ((WAH_TYPE_AS_NON_NULL ref_type =? WAH_TYPE_EXN) ||
              (WAH_TYPE_AS_NON_NULL ref_type =? WAH_TYPE_NOEXN) || (ref_type =? WAH_TYPE_BOT)) ;;;
      wah_validation_mark_unreachable ;;;
      emit_simple op)
  | WAH_OP_TRY_TABLE => Some (validate_try_table op)
  | _ => None
  end.

(** *** The dispatch *)

(** The cases of the second switch. *)
Definition validate_special (op : wah_op) : comp vstate unit :=
  match load_op op with Some (T, a) => validate_load op T a | None =>
  match store_op op with Some (T, a) => validate_store op T a | None =>
  match v128_lane_op op with Some (a, is_load) => validate_v128_lane op a is_load | None =>
  match extract_lane_op op with Some (T, n) => validate_extract_lane op T n | None =>
  match replace_lane_op op with Some (T, n) => validate_replace_lane op T n | None =>
  match op with WAH_OP_I8X16_SHUFFLE => validate_shuffle op | _ =>
  match validate_memory op with Some m => m | None =>
  match validate_call op with Some m => m | None =>
  match validate_variable op with Some m => m | None =>
  match validate_table op with Some m => m | None =>
  match validate_const op with Some m => m | None =>
  match validate_parametric op with Some m => m | None =>
  match validate_control op with Some m => m | None =>
  match validate_ref op with Some m => m | None =>
  match validate_ref_branch op with Some m => m | None =>
  match validate_struct op with Some m => m | None =>
  match validate_array op with Some m => m | None =>
  match validate_array_seg op with Some m => m | None =>
  match validate_exception op with Some m => m | None =>
    stm_err WAH_ERROR_MALFORMED
  end end end end end end end end end end end end end end end end end end end.

(** The switch on the operand class. *)
Definition validate_class (op : wah_op) (pops : list wah_type_t) (push : wah_type_t) : comp vstate unit :=
  pop_all E pops ;;; PUSH push ;;; emit_simple op.

Definition check_const_expr_op (op : wah_op) : comp vstate unit :=
  match v_mode E with
  | WAH_ANALYZE_FUNC_BODY => stm_ret tt
  | WAH_ANALYZE_CONST_EXPR =>
      match const_expr_op op with
      | Some true => with_dec (on_features (require EXTENDED_CONST))
      | Some false => stm_ret tt
      | None => stm_err WAH_ERROR_VALIDATION_FAILED
      end
  end.

Definition wah_validate_opcode (opcode_val : Z) : comp vstate unit :=
  cls <- stm_opt (zget wah_opclasses opcode_val) ;;
  stm_ensure (negb (opclass_eqb cls WAH_OPCLASS_MISSING)) WAH_ERROR_MALFORMED ;;;
  op <- stm_opt (wah_opcode_of opcode_val) ;;
  check_const_expr_op op ;;;
  match opclass_ops cls with
  | Some (pops, push) => validate_class op pops push
  | None => validate_special op
  end.
End Validation.
