(* ===== verification/ValidInv.v ===== *)
(** * The invariant of validation

    What holds between any two instructions: the operand stack and its recorded depth
    agree, operands are types of the module, control frames are nested, the list of
    initialised locals mirrors their flags, and the tables of [br_table] are
    consistent.  The rules below say how each helper of Operands.v keeps it and what
    it does to the operands; they are weakest preconditions, so that the proofs about
    an instruction follow its code. *)

From S2P Require Import Prelude Base Alloc Types Opcodes Bytes Leb128 Decode Subtype ModuleEnv Operands Validate.
From stdpp Require Import list sets.
#[local] Open Scope Z_scope.
#[local] Open Scope wah_scope.

(** ** Definitions *)

(** What the parser of the earlier sections establishes for the bodies. *)
Record func_type_ok (m : wah_module_t) (ft : wah_func_type_t) : Prop := {
  ft_params : Forall (type_valid m) (param_types ft);
  ft_results : Forall (type_valid m) (result_types ft);
  ft_param_count : zlen (param_types ft) <= WAH_MAX_TYPE_STACK_SIZE;
  ft_result_count : zlen (result_types ft) <= WAH_MAX_TYPE_STACK_SIZE }.

Definition addr_type_ok (t : wah_type_t) : Prop := t = WAH_TYPE_I32 \/ t = WAH_TYPE_I64.
Definition space_ok {A} (imps defs : list A) (P : A -> Prop) : Prop :=
  zlen imps + zlen defs < 2 ^ 32 /\ Forall P imps /\ Forall P defs.

(** A type with a default value. *)
Definition has_default (t : wah_type_t) : bool := negb (WAH_TYPE_IS_REF t) || WAH_TYPE_IS_NULLABLE t.
Record type_def_ok (m : wah_module_t) (td : wah_type_def_t) : Prop := {
  td_fields : Forall (type_valid m) (field_types td);
  td_mutables : length (field_mutables td) = length (field_types td);
  td_array : kind td = WAH_COMP_ARRAY -> zlen (field_types td) = 1;
  td_default : kind td = WAH_COMP_STRUCT -> non_defaultable td = negb (forallb has_default (field_types td)) }.

Record module_ok (M : wah_module_env) : Prop := {
  mo_types : types_wf (env_types M);
  mo_count : zlen (types (env_types M)) = type_count (env_types M);
  mo_func_types : Forall (func_type_ok (env_types M)) (types (env_types M));
  mo_type_defs : Forall (type_def_ok (env_types M)) (type_defs (env_types M));
  mo_funcs : space_ok (func_imports M) (function_type_indices M) (fun ti => 0 <= ti < type_count (env_types M));
  mo_func_bits : func_space M;
  mo_tables : space_ok (table_imports M) (tables M)
    (fun tt => type_valid (env_types M) (elem_type tt) /\ addr_type_ok (tab_addr_type tt));
  mo_memories : space_ok (memory_imports M) (memories M) (fun mt => addr_type_ok (mem_addr_type mt));
  mo_globals : space_ok (global_imports M) (globals M) (fun g => type_valid (env_types M) (global_type g));
  mo_tags : space_ok (tag_imports M) (tags M) (fun ti => 0 <= ti < type_count (env_types M));
  mo_segments : Forall (type_valid (env_types M)) (element_segments M) }.

(** The locals of a body. *)
Definition body_ok (m : wah_module_t) (body : wah_code_body_t) : Prop :=
  0 <= local_count body /\
  forall li, 0 <= li < local_count body -> exists t, wah_local_type body li = Some t /\ type_valid m t.

Record env_ok (E : wah_validation_env) : Prop := {
  eo_module : module_ok (v_module E);
  eo_body : v_mode E = WAH_ANALYZE_FUNC_BODY ->
    exists ft body, v_func_type E = Some ft /\ func_type_ok (env_types (v_module E)) ft /\
      v_code_body E = Some body /\ body_ok (env_types (v_module E)) body /\
      v_total_locals E = zlen (param_types ft) + local_count body /\ v_total_locals E <= WAH_MAX_LOCAL_COUNT;
  eo_const : v_mode E = WAH_ANALYZE_CONST_EXPR -> v_code_body E = None }.

(** An operand: a type of the module, or the unknown type of unreachable code. *)
Definition operand_ok (m : wah_module_t) (t : wah_type_t) : Prop := type_valid m t \/ t = WAH_TYPE_BOT.

(** The active frames, innermost first, and the height of the innermost. *)
Definition frames (c : wah_control) : list wah_validation_control_frame_t :=
  reverse (take (Z.to_nat (control_sp c)) (control_stack c)).
Definition frames_base (fs : list wah_validation_control_frame_t) : Z :=
  match fs with [] => 0 | f :: _ => fr_stack_height f end.
Definition base (s : vstate) : Z := frames_base (frames (s_ctl s)).

(** Slots below the low-water mark are those of the snapshot [G]. *)
Definition unchanged_since (G ts : wah_type_stack_t) : Prop :=
  ts_lwm ts <= ts_lwm G /\ forall j, 0 <= j < ts_lwm ts -> zget (ts_data ts) j = zget (ts_data G) j.

Record stack_ok (m : wah_module_t) (G ts : wah_type_stack_t) : Prop := {
  st_length : zlen (ts_data ts) = WAH_MAX_TYPE_STACK_SIZE;
  st_sp : 0 <= ts_sp ts <= WAH_MAX_TYPE_STACK_SIZE;
  st_lwm : 0 <= ts_lwm ts <= ts_sp ts;
  st_types : Forall (operand_ok m) (take (Z.to_nat (ts_sp ts)) (ts_data ts));
  st_since : unchanged_since G ts }.

Record ops_ok (m : wah_module_t) (G : wah_type_stack_t) (b : Z) (o : wah_operands) : Prop := {
  op_stack : stack_ok m G (type_stack o);
  op_depth : current_stack_depth o = ts_sp (type_stack o);
  op_base : b <= current_stack_depth o;
  op_max : current_stack_depth o <= max_stack_depth o <= 2 * WAH_MAX_TYPE_STACK_SIZE }.

Record block_type_ok (m : wah_module_t) (bt : wah_block_type_t) : Prop := {
  bo_params : Forall (type_valid m) (bt_param_types bt);
  bo_results : Forall (type_valid m) (bt_result_types bt);
  bo_param_count : zlen (bt_param_types bt) <= WAH_MAX_TYPE_STACK_SIZE;
  bo_result_count : zlen (bt_result_types bt) <= WAH_MAX_TYPE_STACK_SIZE }.

(** Frames are nested: heights and lengths of the undo list grow inwards. *)
Fixpoint frames_ok (m : wah_module_t) (fs : list wah_validation_control_frame_t) (undo : Z) : Prop :=
  match fs with
  | [] => True
  | f :: fs' =>
      block_type_ok m (fr_block_type f) /\
      fr_type_stack_sp f = fr_stack_height f /\
      frames_base fs' <= fr_stack_height f <= WAH_MAX_TYPE_STACK_SIZE /\
      0 <= fr_local_init_undo_base f <= undo /\
      frames_ok m fs' (fr_local_init_undo_base f)
  end.

(** While a block is being opened ([op]), its frame has no valid [type_stack_sp] and
    [local_init_undo_base] yet. *)
Definition opening_ok (m : wah_module_t) (fs : list wah_validation_control_frame_t) (undo : Z) : Prop :=
  match fs with
  | [] => False
  | f :: fs' =>
      block_type_ok m (fr_block_type f) /\
      frames_base fs' <= fr_stack_height f <= WAH_MAX_TYPE_STACK_SIZE /\
      frames_ok m fs' undo
  end.

Record ctl_ok (m : wah_module_t) (op : bool) (undo : Z) (c : wah_control) : Prop := {
  ct_length : zlen (control_stack c) = WAH_MAX_CONTROL_DEPTH;
  ct_sp : 0 <= control_sp c <= WAH_MAX_CONTROL_DEPTH;
  ct_frames : if op then opening_ok m (frames c) undo else frames_ok m (frames c) undo }.

(** The flags of locals are set exactly for the undo list. *)
Record inits_ok (total_locals : Z) (li : wah_local_inits_t) : Prop := {
  in_length : total_locals <= zlen (li_inits li);
  in_small : zlen (li_inits li) < 2 ^ 32;
  in_range : Forall (fun i => 0 <= i < zlen (li_inits li)) (li_undo li);
  in_nodup : NoDup (li_undo li);
  in_flags : forall i, 0 <= i < zlen (li_inits li) ->
    zget (li_inits li) i = Some (if decide (i ∈ li_undo li) then 1 else 0);
  in_cap : zlen (li_undo li) <= li_undo_cap li <= UINT32_MAX }.

Record labels_ok (l : wah_br_table_labels_t) : Prop := {
  la_stamps : zlen (lb_stamps l) = WAH_MAX_CONTROL_DEPTH + 1;
  la_records : zlen (lb_records l) = WAH_MAX_CONTROL_DEPTH + 1;
  la_serial : 0 <= lb_serial l < 2 ^ 32;
  la_used : Forall (fun x => 0 <= x <= lb_serial l) (lb_stamps l) }.

Definition notes_ok (M : wah_module_env) (n : wah_module_notes) : Prop :=
  0 <= min_data_required n <= UINT32_MAX /\
  match declared_funcs n with
  | Some bits => zlen bits = (wah_func_index_limit M + 7) / 8 | None => True
  end.

Definition code_ok (c : wah_instrs) : Prop := zlen (instrs c) <= instrs_cap c /\ cap_ok (instrs_cap c).

(** The invariant, relative to the bytes [B] of the body and the snapshot [G] of the
    type stack; [op] tells whether the innermost frame is being opened. *)
Record inv (E : wah_validation_env) (B : list Z) (G : wah_type_stack_t) (op : bool) (s : vstate) : Prop := {
  i_dec : decoder_bytes (s_dec s) /\ cursor (s_dec s) `suffix_of` B;
  i_ops : ops_ok (env_types (v_module E)) G (base s) (s_ops s);
  i_ctl : ctl_ok (env_types (v_module E)) op (undo_len s) (s_ctl s);
  i_inits : match s_inits s with
            | Some li => inits_ok (v_total_locals E) li
            | None => v_mode E = WAH_ANALYZE_CONST_EXPR
            end;
  i_labels : match s_labels s with Some l => labels_ok l | None => True end;
  i_notes : notes_ok (v_module E) (s_notes s);
  i_code : code_ok (s_code s) }.

(** An instruction as it is emitted, without a ref map. *)
Definition fresh_instr (o : wah_op) (di : wah_decoded_instr_t) : Prop :=
  di_opcode di = wah_op_value o /\ di_ref_map di = 0 /\ Z.land (di_flags di) WAH_INSTR_FLAG_POLL = 0.

(** The operands above the base of the innermost block, topmost first. *)
Definition operands (s : vstate) : list wah_type_t :=
  reverse (drop (Z.to_nat (base s)) (take (Z.to_nat (ts_sp (type_stack (s_ops s)))) (ts_data (type_stack (s_ops s))))).
(** Those below it. *)
Definition outer_operands (s : vstate) : list wah_type_t :=
  take (Z.to_nat (base s)) (ts_data (type_stack (s_ops s))).

(** [t] can be used where [e] is expected. *)
Definition matches (m : wah_module_t) (t e : wah_type_t) : Prop := t = WAH_TYPE_BOT \/ type_sub m t e.

(** Popping [e] from the operands [st]: in unreachable code the stack never runs
    out. *)
Definition pop1 (m : wah_module_t) (u : bool) (st : list wah_type_t) (e : wah_type_t) (st' : list wah_type_t) : Prop :=
  (exists t, st = t :: st' /\ matches m t e) \/ (st = [] /\ st' = [] /\ u = true).
Fixpoint popn (m : wah_module_t) (u : bool) (st es st' : list wah_type_t) : Prop :=
  match es with
  | [] => st' = st
  | e :: es' => exists st1, pop1 m u st e st1 /\ popn m u st1 es' st'
  end.

(** ** Theorems *)

(** *** Types *)

Section Types.
Context (m : wah_module_t) (WF : types_wf m).

Lemma type_valid_non_null t : type_valid m t -> type_valid m (WAH_TYPE_AS_NON_NULL t).
Proof.
  intros [H|[H|[H1 H2]]].
  - left. rewrite !elem_of_cons, elem_of_nil in H |- *. destruct_or?; subst; vm_compute; tauto.
  - right; left. rewrite as_non_null_mod. Z.to_euclidean_division_equations. lia.
  - right; right. split; [rewrite as_non_null_mod; Z.to_euclidean_division_equations; lia|].
    by rewrite tyidx_as_non_null.
Qed.

Lemma type_valid_nullable t : WAH_TYPE_IS_REF t = true -> type_valid m t -> type_valid m (WAH_TYPE_AS_NULLABLE t).
Proof.
  intros Hr [H|[H|[H1 H2]]].
  - rewrite !elem_of_cons, elem_of_nil in H. by destruct_or?; subst.
  - right; left. rewrite as_nullable_mod. Z.to_euclidean_division_equations. lia.
  - right; right. rewrite as_nullable_mod. split; [Z.to_euclidean_division_equations; lia|].
    rewrite tyidx_div in *. rewrite Z.mod_small in * by (Z.to_euclidean_division_equations; lia).
    replace ((t - t mod 2 + 1) / 2) with (t / 2) by (Z.to_euclidean_division_equations; lia). done.
Qed.

Lemma type_valid_index i : 0 <= i < type_count m -> type_valid m (WAH_TYPE_FROM_IDX i false).
Proof.
  intros Hi. pose proof (wf_count m WF). rewrite max_type_index in *.
  right; right. split; [|by rewrite tyidx_from_idx by (rewrite max_type_index; lia); lia].
  rewrite from_idx_small by (rewrite max_type_index; lia). simpl. lia.
Qed.

Lemma is_ref_index i : 0 <= i < type_count m -> WAH_TYPE_IS_REF (WAH_TYPE_FROM_IDX i false) = true.
Proof.
  intros Hi. pose proof (wf_count m WF). pose proof (from_idx_nonneg i false ltac:(lia)).
  unfold WAH_TYPE_IS_REF. apply orb_true_iff. right. by apply Z.leb_le.
Qed.

Lemma type_valid_not_bot u : type_valid m u -> u <> WAH_TYPE_BOT.
Proof.
  intros Hu ->. unfold WAH_TYPE_BOT in Hu. destruct Hu as [H|[H|[H _]]]; [|lia..].
  rewrite !elem_of_cons, elem_of_nil in H. by destruct_or?.
Qed.

(** The check of an operand against an expected type is subtyping. *)
Lemma type_sub_non_null t e : type_valid m t -> type_valid m e ->
  type_sub m t e <->
  type_sub m (WAH_TYPE_AS_NON_NULL t) (WAH_TYPE_AS_NON_NULL e) /\
  (WAH_TYPE_IS_NULLABLE e = false -> WAH_TYPE_IS_NULLABLE t = false).
Proof.
  intros Vt Ve. pose proof type_valid_not_bot as Hbot.
  assert (Hnn : WAH_TYPE_AS_NON_NULL t <> WAH_TYPE_BOT) by (by apply Hbot, type_valid_non_null).
  unfold type_sub. rewrite !as_non_null_idem, !as_non_null_even. split.
  - intros [<-|[->|(R1 & R2 & Hn & Hh)]]; [by split; [left|]|by destruct (Hbot _ Vt)|].
    rewrite !(as_non_null_is_ref m) by done. split; [right; right; done|].
    intros He. destruct (WAH_TYPE_IS_NULLABLE t); [|done]. by rewrite Hn in He.
  - intros ([E|[?|(R1 & R2 & _ & Hh)]] & Hn); [|done|].
    + destruct (WAH_TYPE_IS_REF t) eqn:Rt, (WAH_TYPE_IS_REF e) eqn:Re.
      * right; right. split_and!; try done; [|rewrite E; apply hs_refl].
        destruct (WAH_TYPE_IS_NULLABLE e); [done|]. intros H. by rewrite Hn in H.
      * destruct (non_ref_cases m e (or_introl Ve) Re) as (_ & N & _). rewrite <- E, (as_non_null_is_ref m) in N by done. done.
      * destruct (non_ref_cases m t (or_introl Vt) Rt) as (_ & N & _). rewrite E, (as_non_null_is_ref m) in N by done. done.
      * left. destruct (non_ref_cases m t (or_introl Vt) Rt) as (_ & _ & _ & _ & N & N').
        destruct (non_ref_cases m e (or_introl Ve) Re) as (_ & _ & _ & _ & M' & M'').
        destruct (WAH_TYPE_IS_NULLABLE t) eqn:U1; [by destruct (Hbot _ Vt); apply N'|].
        destruct (WAH_TYPE_IS_NULLABLE e) eqn:U2; [by destruct (Hbot _ Ve); apply M''|].
        by rewrite N, M' in E.
    + assert (Hr : forall u, type_valid m u -> WAH_TYPE_IS_REF (WAH_TYPE_AS_NON_NULL u) = true -> WAH_TYPE_IS_REF u = true).
      { intros u Vu Hu. destruct (WAH_TYPE_IS_REF u) eqn:Ru; [done|].
        destruct (non_ref_cases m u (or_introl Vu) Ru) as (_ & N & _). by rewrite Hu in N. }
      right; right. split_and!; auto. destruct (WAH_TYPE_IS_NULLABLE e); [done|]. intros H. by rewrite Hn in H.
Qed.

Lemma operand_non_null t : operand_ok m t -> t <> WAH_TYPE_BOT -> type_valid m t.
Proof. by intros [?|?]. Qed.
End Types.

Lemma zero_labels_ok : labels_ok zero_labels.
Proof.
  split; [done|done|done|]. unfold zero_labels. cbn [lb_stamps lb_serial]. apply Forall_replicate. lia.
Qed.

(** *** Decoders *)

(** A decoder reads inside the body, moves forward and gives values of [V]. *)
Definition dec_good {A} (d : comp decoder A) (V : A -> Prop) : Prop :=
  forall s, decoder_bytes s ->
    wp d (fun v s' => decoder_bytes s' /\ cursor s' `suffix_of` cursor s /\ V v) s.
Definition cur_good {A} (d : comp (list Z) A) (V : A -> Prop) : Prop :=
  forall c, Forall is_byte c -> wp d (fun v c' => Forall is_byte c' /\ c' `suffix_of` c /\ V v) c.

Lemma on_cursor_good {A} (d : comp (list Z) A) V : cur_good d V -> dec_good (on_cursor d) V.
Proof.
  intros H [c f] Hb. specialize (H c Hb). unfold wp, on_cursor, decoder_bytes in *. simpl.
  by destruct (d c) as [[v|e|] c'].
Qed.

(** From the grammar of a decoder. *)
Lemma cur_good_grammar {A} (d : comp (list Z) A) (G : list Z -> A -> Prop) (V : A -> Prop) :
  faultless d (Forall is_byte) ->
  (forall c v c', Forall is_byte c -> d c = (Ok v, c') -> exists bs, c = bs ++ c' /\ G bs v) ->
  (forall bs v, G bs v -> V v) -> cur_good d V.
Proof.
  intros Hf Hg HV c Hb. destruct (Hf c Hb) as [H1 H2]. apply wp_intro; [done|].
  intros v c' E. rewrite E in H2. destruct (Hg c v c' Hb E) as (bs & -> & HG).
  split_and!; [done|by exists bs|by eapply HV].
Qed.

Lemma dec_good_grammar {A} (d : comp decoder A) (V : A -> Prop) :
  faultless d decoder_bytes ->
  (forall s v s', decoder_bytes s -> d s = (Ok v, s') -> exists bs, cursor s = bs ++ cursor s' /\ V v) ->
  dec_good d V.
Proof.
  intros Hf Hg s Hb. destruct (Hf s Hb) as [H1 H2]. apply wp_intro; [done|].
  intros v s' E. rewrite E in H2. destruct (Hg s v s' Hb E) as (bs & Hc & HV).
  split_and!; [done|by exists bs|done].
Qed.

Definition u32_ok (v : Z) : Prop := 0 <= v < 2 ^ 32.

Lemma decode_u32_good : cur_good wah_decode_uleb128 u32_ok.
Proof.
  eapply cur_good_grammar; [apply wah_decode_uleb128_faultless| |].
  - intros c v c' Hb E. apply (proj1 (wah_decode_uleb128_iff c v c' Hb)) in E. exact E.
  - intros bs v H. split; [by eapply uleb_nonneg|by apply (uleb_bound 32 bs)].
Qed.

Lemma decode_s32_good : cur_good wah_decode_sleb128_32 (fun v => - 2 ^ 31 <= v < 2 ^ 31).
Proof.
  eapply cur_good_grammar; [apply wah_decode_sleb128_32_faultless| |].
  - intros c v c' Hb E. apply (proj1 (wah_decode_sleb128_32_iff c v c' Hb)) in E. exact E.
  - intros bs v H. by apply (sleb_range 32 bs v H).
Qed.

Lemma decode_s64_good : cur_good wah_decode_sleb128_64 (fun _ => True).
Proof.
  eapply cur_good_grammar; [apply wah_decode_sleb128_64_faultless| |done].
  intros c v c' Hb E. apply (proj1 (wah_decode_sleb128_64_iff c v c' Hb)) in E. exact E.
Qed.

Lemma ensure_more_good : cur_good ensure_more (fun _ => True).
Proof. intros [|b c] Hb; [done|]. unfold wp. simpl. done. Qed.

Lemma suffix_tail {A} (x : A) l : l `suffix_of` x :: l.
Proof. by exists [x]. Qed.

(** After the check that there is one. *)
Lemma take_byte_wp c Q : Forall is_byte c -> c <> [] ->
  (forall b c', Forall is_byte c' -> c' `suffix_of` c -> is_byte b -> Q b c') -> wp take_byte Q c.
Proof.
  intros Hb Hne HQ. destruct c as [|b c]; [done|]. apply Forall_cons in Hb as [H1 H2].
  unfold wp. simpl. apply HQ; [done|apply suffix_tail|done].
Qed.

(** [WAH_ENSURE( *ptr < end, ...)] and [*ptr++], and the same with a look ahead. *)
Lemma first_byte_good {A} (k : Z -> comp (list Z) A) V :
  (forall b, is_byte b -> cur_good (k b) V) -> cur_good (stm_bind (fun _ => stm_bind k take_byte) ensure_more) V.
Proof.
  intros Hk [|b c] Hb; [done|]. apply Forall_cons in Hb as [H1 H2]. unfold wp, stm_bind. simpl.
  specialize (Hk b H1 c H2). unfold wp in Hk. destruct (k b c) as [[v|e|] c']; [|done..].
  destruct Hk as (? & Hs & ?). split_and!; [done| |done]. etrans; [exact Hs|apply suffix_tail].
Qed.

Lemma take_bytes_good n : cur_good (take_bytes n) (fun bs => length bs = n /\ Forall is_byte bs).
Proof.
  intros c Hb. unfold take_bytes, wp, stm_bind, stm_get, stm_ensure, stm_put, stm_ret. unfold zlen.
  destruct (Z.leb_spec (Z.of_nat n) (Z.of_nat (length c))); [|done]. split_and!.
  - by apply Forall_drop.
  - apply suffix_drop.
  - rewrite length_take. lia.
  - by apply Forall_take.
Qed.

Lemma count_good k : cur_good (wah_decode_and_validate_count k) u32_ok.
Proof.
  intros c Hb. unfold wah_decode_and_validate_count. apply wp_bind.
  eapply wp_mono; [by apply decode_u32_good|]. intros v c' (H1 & H2 & H3).
  apply wp_bind. apply wp_if; intros _; [done|]. apply wp_ret.
  apply wp_bind. unfold wp, stm_get at 1. apply wp_bind. apply wp_if; intros _; [done|]. by apply wp_ret.
Qed.

(** A heap type whose index is still unchecked. *)
Definition decoded_heap (t : wah_type_t) : Prop := WAH_TYPE_IS_REF t = true /\ t < INT32_MAX /\ t mod 2 = 0.

Lemma heap_type_good : cur_good wah_decode_heap_type decoded_heap.
Proof.
  eapply cur_good_grammar; [apply wah_decode_heap_type_faultless| |apply heap_bytes_valid].
  intros c v c' Hb E. apply (proj1 (wah_decode_heap_type_iff c v c' Hb)) in E. exact E.
Qed.

Lemma decoded_heap_valid m t : decoded_heap t -> type_index_ok m t = true -> type_valid m t.
Proof.
  intros (Hr & Hlt & _) Hi. unfold type_index_ok in Hi. unfold INT32_MAX in Hlt.
  destruct (Z.ltb_spec t 0); [right; left; unfold WAH_TYPE_IS_REF in Hr; lia|].
  right; right. split; [lia|]. simpl in Hi. lia.
Qed.

Lemma wah_decode_val_type_faultless : faultless wah_decode_val_type decoder_bytes.
Proof.
  apply (short_form_faultless wah_decode_ref_type _ num_byte); [apply wah_decode_ref_type_faultless|].
  intros [[|b cur] f]; [done|]. unfold wah_decode_val_type. rewrite peek_byte_run. simpl.
  unfold num_byte. repeat (case_match; [done|]). done.
Qed.

Lemma val_type_good : dec_good wah_decode_val_type (fun t => storage_type_valid t = true).
Proof.
  apply dec_good_grammar; [apply wah_decode_val_type_faultless|].
  intros s v s' Hb E. apply (proj1 (wah_decode_val_type_decodes s v s' Hb)) in E as (long & bs & Hc & Hv & _).
  exists bs. split; [done|]. apply storage_bytes_valid. exists long, bs. by constructor.
Qed.

Lemma decoded_type_valid m t : storage_type_valid t = true -> type_index_ok m t = true -> type_valid m t.
Proof.
  unfold storage_type_valid, WAH_TYPE_IS_PACKED. rewrite !orb_true_iff, andb_true_iff. intros H Hi.
  destruct_or?; zeq; [left; set_solver..|]. destruct H as [Hr Hlt]. unfold type_index_ok, INT32_MAX in *.
  destruct (Z.ltb_spec t 0); [right; left; unfold WAH_TYPE_IS_REF in Hr; lia|].
  right; right. split; [lia|]. simpl in Hi. lia.
Qed.

Lemma dec_good_bind {A B} (d : comp decoder A) (k : A -> comp decoder B) V W :
  dec_good d V -> (forall v, V v -> dec_good (k v) W) -> dec_good (stm_bind k d) W.
Proof.
  intros Hd Hk s Hb. apply wp_bind. eapply wp_mono; [by apply Hd|]. intros v s1 (H1 & H2 & H3).
  eapply wp_mono; [by apply (Hk v H3)|]. intros w s2 (H4 & H5 & H6). split_and!; [done|by etrans|done].
Qed.
Lemma dec_good_ret {A} (a : A) (V : A -> Prop) : V a -> dec_good (stm_ret a) V.
Proof. by intros HV s Hb. Qed.
Lemma dec_good_err {A} e (V : A -> Prop) : dec_good (stm_err e) V.
Proof. by intros s Hb. Qed.
Lemma dec_good_ensure c e : dec_good (stm_ensure c e) (fun _ => c = true).
Proof. intros s Hb. by destruct c. Qed.
Lemma dec_good_if {A} (c : bool) (d d' : comp decoder A) V :
  (c = true -> dec_good d V) -> (c = false -> dec_good d' V) -> dec_good (if c then d else d') V.
Proof. destruct c; auto. Qed.
Lemma dec_good_mono {A} (d : comp decoder A) (V W : A -> Prop) :
  dec_good d V -> (forall v, V v -> W v) -> dec_good d W.
Proof. intros H HV s Hb. eapply wp_mono; [by apply H|]. naive_solver. Qed.

(** Code on the feature bitmaps does not fault. *)
Definition cur_features {A} (m : comp feature_state A) : Prop := forall f, (m f).1 <> Fault.
Lemma cur_features_bind {A B} (m : comp feature_state A) (k : A -> comp feature_state B) :
  cur_features m -> (forall a, cur_features (k a)) -> cur_features (stm_bind k m).
Proof.
  intros Hm Hk f. specialize (Hm f). unfold stm_bind. destruct (m f) as [[a|e|] f']; [apply Hk|done|done].
Qed.
Lemma cur_features_ret {A} (a : A) : cur_features (stm_ret a).
Proof. done. Qed.

Lemma require_good f : dec_good (on_features (require f)) (fun _ => True).
Proof.
  apply dec_good_grammar; [apply require_faultless|].
  intros [c m] v [c' m'] Hb E. apply on_features_Ok in E as [_ ->]. by exists [].
Qed.

Lemma require_type_features_good t : dec_good (on_features (wah_require_type_features t)) (fun _ => True).
Proof.
  assert (Hf : forall f, cur_features (require f)).
  { intros f m. apply wah_require_feature_no_fault. }
  intros [c m] Hb. unfold wp, on_features. simpl. unfold decoder_bytes in *. simpl in *.
  assert (cur_features (wah_require_type_features t)) as H.
  { unfold wah_require_type_features.
    repeat first [apply Hf | apply cur_features_bind; [|intros _] | apply cur_features_ret | case_match]. }
  specialize (H m). destruct (wah_require_type_features t m) as [[v|e|] m']; done.
Qed.

Lemma u64_good : cur_good wah_decode_uleb128_64 (fun v => 0 <= v).
Proof.
  eapply cur_good_grammar; [apply wah_decode_uleb128_64_faultless| |].
  - intros c v c' Hb E. apply (proj1 (wah_decode_uleb128_64_iff c v c' Hb)) in E. exact E.
  - intros bs v H. by eapply uleb_nonneg.
Qed.

Lemma memarg_good : dec_good wah_decode_memarg (fun a => 0 <= memidx a).
Proof.
  unfold wah_decode_memarg. eapply dec_good_bind; [apply on_cursor_good, decode_u32_good|]. intros n Hn.
  eapply dec_good_bind; [apply dec_good_ensure|]. intros _ _.
  eapply (dec_good_bind _ _ (fun p => 0 <= p.2)).
  - apply dec_good_if; intros _; [|by apply dec_good_ret].
    eapply dec_good_bind; [apply require_good|]. intros _ _.
    eapply dec_good_bind; [apply on_cursor_good, decode_u32_good|]. intros i [Hi _]. by apply dec_good_ret.
  - intros [al mi] Hm. eapply dec_good_bind; [apply on_cursor_good, u64_good|]. intros o Ho. by apply dec_good_ret.
Qed.
