(* ===== verification/Locals.v ===== *)
(** * The locals of a function

    [wah_parse_local_decls] keeps runs of locals of equal type, and [wah_local_type]
    finds a local by binary search: together they give the declared types. *)

From S2P Require Import Prelude Base Types Bytes Leb128 Decode Subtype Alloc ModuleEnv Operands Validate ValidInv.
From stdpp Require Import list sets.
#[local] Open Scope Z_scope.
#[local] Open Scope wah_scope.

(** ** Definitions *)

(** What the declarations of [n] locals of type [t] each stand for. *)
Definition local_decl : Type := Z * wah_type_t.
Definition expand (ds : list local_decl) : list wah_type_t :=
  concat (map (fun d => replicate (Z.to_nat d.1) d.2) ds).
Inductive decl_bytes : list local_decl -> list Z -> Prop :=
| decl_nil : decl_bytes [] []
| decl_cons n t ds bn long bt bs :
    uleb 32 bn n -> val_bytes long bt t -> decl_bytes ds bs -> decl_bytes ((n, t) :: ds) (bn ++ bt ++ bs).

Fixpoint runs_from (total : Z) (ds : list local_decl) : list wah_local_run_t :=
  match ds with
  | [] => []
  | (n, t) :: ds' =>
      if 0 <? n then LocalRun (total + n) t :: runs_from (total + n) ds' else runs_from total ds'
  end.

(** Run [k] is the one that holds the local [li]. *)
Definition holds (runs : list wah_local_run_t) (li k : Z) : Prop :=
  (exists r, zget runs k = Some r /\ li < run_end r) /\
  forall j r, j < k -> zget runs j = Some r -> run_end r <= li.

(** ** Theorems *)

Lemma expand_length n t ds : 0 <= n -> zlen (expand ((n, t) :: ds)) = n + zlen (expand ds).
Proof. intros. unfold expand, zlen. simpl. rewrite length_app, length_replicate. lia. Qed.

Lemma expand_snoc ds n t : 0 <= n -> zlen (expand (ds ++ [(n, t)])) = zlen (expand ds) + n.
Proof.
  intros Hn. induction ds as [|[n' t'] ds IH].
  - unfold expand, zlen. simpl. rewrite app_nil_r, length_replicate. lia.
  - unfold expand, zlen in *. simpl in *. rewrite !length_app, length_replicate. lia.
Qed.

(** *** The search *)

Lemma local_search_holds runs li fuel lo hi :
  0 <= lo <= hi -> hi < zlen runs -> hi - lo < 2 ^ Z.of_nat fuel ->
  (forall j r r', 0 <= j -> zget runs j = Some r -> zget runs (j + 1) = Some r' -> run_end r <= run_end r') ->
  (forall j r, j < lo -> zget runs j = Some r -> run_end r <= li) ->
  (exists r, zget runs hi = Some r /\ li < run_end r) ->
  exists k, local_search (S fuel) runs li lo hi = Some k /\ holds runs li k.
Proof.
  intros Hl Hh Hf Hs. assert (Hmono : forall (n : nat) j r r', 0 <= j -> zget runs j = Some r ->
    zget runs (j + Z.of_nat n) = Some r' -> run_end r <= run_end r').
  { induction n as [|n IH]; intros j r r' Hj E E'; [rewrite Z.add_0_r in E'; by simplify_eq|].
    destruct (zget_is_Some runs (j + 1)) as [r1 E1]; [apply zget_Some in E' as [? _]; lia|].
    transitivity (run_end r1); [by eapply Hs|]. eapply (IH (j + 1)); [lia|done|].
    by replace (j + 1 + Z.of_nat n) with (j + Z.of_nat (S n)) by lia. }
  revert lo hi Hl Hh Hf. induction fuel as [|fuel IH]; intros lo hi Hl Hh Hf Hb Hr.
  - assert (lo = hi) as -> by (simpl in Hf; lia). simpl. rewrite Z.ltb_irrefl. by exists hi.
  - cbn [local_search]. destruct (Z.ltb_spec lo hi); [|exists lo; split; [done|]; by assert (lo = hi) as -> by lia].
    set (mid := lo + (hi - lo) / 2).
    assert (lo <= mid < hi) by (unfold mid; Z.to_euclidean_division_equations; lia).
    destruct (zget_is_Some runs mid) as [r E]; [lia|]. rewrite E. cbn [mbind option_bind].
    rewrite Nat2Z.inj_succ, Z.pow_succ_r in Hf by lia.
    destruct (Z.ltb_spec li (run_end r)).
    + apply IH; [lia|lia|unfold mid; Z.to_euclidean_division_equations; lia|done|by exists r].
    + apply IH; [lia|lia|unfold mid; Z.to_euclidean_division_equations; lia| |done].
      intros j r' Hj E'. transitivity (run_end r); [|done]. apply zget_Some in E' as Hj'. destruct Hj' as [Hj' _].
      apply (Hmono (Z.to_nat (mid - j)) j); [lia|done|]. by replace (j + Z.of_nat (Z.to_nat (mid - j))) with mid by lia.
Qed.

(** *** The runs of the declarations *)

Definition decls_ok (ds : list local_decl) : Prop := Forall (fun d => 0 <= d.1) ds.

Lemma runs_from_ends total ds : decls_ok ds ->
  Forall (fun r => total < run_end r <= total + zlen (expand ds)) (runs_from total ds).
Proof.
  revert total. induction ds as [|[n t] ds IH]; intros total Hd; [constructor|].
  apply Forall_cons in Hd as [Hn Hd]. simpl in Hn. rewrite expand_length by done. cbn [runs_from].
  assert (0 <= zlen (expand ds)) by (unfold zlen; lia).
  destruct (Z.ltb_spec 0 n).
  - constructor; [simpl; lia|]. eapply Forall_impl; [by apply IH|]. simpl. intros r. lia.
  - eapply Forall_impl; [by apply IH|]. simpl. intros r. lia.
Qed.

Lemma runs_from_sorted total ds j r r' : decls_ok ds -> 0 <= j ->
  zget (runs_from total ds) j = Some r -> zget (runs_from total ds) (j + 1) = Some r' -> run_end r <= run_end r'.
Proof.
  revert total j. induction ds as [|[n t] ds IH]; intros total j Hd Hj E E'; [by apply zget_Some in E as [_ E]|].
  apply Forall_cons in Hd as [Hn Hd]. cbn [runs_from] in *. destruct (Z.ltb_spec 0 n); [|by eapply IH].
  rewrite zget_nat in E, E' by lia. replace (Z.to_nat (j + 1)) with (S (Z.to_nat j)) in E' by lia. simpl in E'.
  destruct (Z.to_nat j) as [|k] eqn:Ek; simpl in E.
  - simplify_eq. simpl. pose proof (runs_from_ends (total + n) ds Hd) as Hb.
    pose proof (Forall_lookup_1 _ _ _ _ Hb E') as Hr. cbv beta in Hr. lia.
  - apply (IH (total + n) (j - 1)); [done|lia|rewrite zget_nat by lia|rewrite zget_nat by lia].
    + by replace (Z.to_nat (j - 1)) with k by lia.
    + by replace (Z.to_nat (j - 1 + 1)) with (S k) by lia.
Qed.

(** The type of the run that holds a local is the local's type. *)
Lemma runs_from_type total ds li k : decls_ok ds -> total <= li < total + zlen (expand ds) ->
  holds (runs_from total ds) li k ->
  run_type <$> zget (runs_from total ds) k = expand ds !! Z.to_nat (li - total).
Proof.
  revert total k. induction ds as [|[n t] ds IH]; intros total k Hd Hli [(r & E & Hr) Hlt].
  { by apply zget_Some in E as [_ E]. }
  apply Forall_cons in Hd as [Hn Hd]. simpl in Hn. rewrite expand_length in Hli by done.
  assert (Hk : 0 <= k) by (apply zget_Some in E as [? _]; lia).
  unfold expand in *. cbn [map concat fst snd] in *. cbn [runs_from] in *. destruct (Z.ltb_spec 0 n).
  - rewrite zget_nat in E |- * by lia. destruct (decide (li < total + n)) as [Hlt'|Hge].
    + destruct (Z.to_nat k) as [|j] eqn:Ek.
      * simpl. rewrite lookup_app_l by (rewrite length_replicate; lia).
        by rewrite lookup_replicate_2 by lia.
      * specialize (Hlt 0 (LocalRun (total + n) t) ltac:(lia) eq_refl). simpl in Hlt. lia.
    + destruct (Z.to_nat k) as [|j] eqn:Ek; [simpl in E; simplify_eq; simpl in Hr; lia|].
      rewrite lookup_app_r by (rewrite length_replicate; lia). rewrite length_replicate. simpl.
      replace (Z.to_nat (li - total) - Z.to_nat n)%nat with (Z.to_nat (li - (total + n))) by lia.
      rewrite <- (IH (total + n) (k - 1)); [|done|lia|].
      * rewrite zget_nat by lia. by replace (Z.to_nat (k - 1)) with j by lia.
      * split.
        -- exists r. split; [|done]. rewrite zget_nat by lia. by replace (Z.to_nat (k - 1)) with j by lia.
        -- intros i r' Hi Er'. apply (Hlt (i + 1)); [lia|]. apply zget_Some in Er' as [Hi' Er'].
           rewrite zget_nat by lia. by replace (Z.to_nat (i + 1)) with (S (Z.to_nat i)) by lia.
  - assert (n = 0) as -> by lia. simpl. apply IH; [done|lia|]. split; [by exists r|done].
Qed.

Lemma runs_from_last total ds : decls_ok ds -> 0 < zlen (expand ds) ->
  exists r, zget (runs_from total ds) (zlen (runs_from total ds) - 1) = Some r /\
    run_end r = total + zlen (expand ds).
Proof.
  revert total. induction ds as [|[n t] ds IH]; intros total Hd Hl; [done|].
  apply Forall_cons in Hd as [Hn Hd]. simpl in Hn. rewrite expand_length in * by done. cbn [runs_from].
  assert (0 <= zlen (expand ds)) by (unfold zlen; lia).
  destruct (decide (0 < zlen (expand ds))) as [Hp|Hz].
  - destruct (Z.ltb_spec 0 n).
    + destruct (IH (total + n) Hd Hp) as (r & E & Hr). exists r. split; [|lia].
      apply zget_Some in E as [Hi E]. rewrite zget_nat by (unfold zlen in *; simpl; lia).
      replace (Z.to_nat _) with (S (Z.to_nat (zlen (runs_from (total + n) ds) - 1))) by (unfold zlen in *; simpl; lia). done.
    + destruct (IH total Hd Hp) as (r & E & Hr). exists r. split; [done|lia].
  - destruct (Z.ltb_spec 0 n); [|lia]. exists (LocalRun (total + n) t). split; [|simpl; lia].
    destruct (runs_from (total + n) ds) as [|r l] eqn:El; [done|].
    pose proof (runs_from_ends (total + n) ds Hd) as Hb. rewrite El in Hb. apply Forall_cons in Hb as [Hb _].
    cbv beta in Hb. lia.
Qed.


(** *** The parser *)

Definition local_runs_ok (ds : list local_decl) (total : Z) (runs : list wah_local_run_t) : Prop :=
  decls_ok ds /\ total = zlen (expand ds) /\ total <= WAH_MAX_LOCAL_COUNT /\ runs = runs_from 0 ds.

Lemma runs_from_app total ds n t : 0 <= n -> decls_ok ds ->
  runs_from total (ds ++ [(n, t)]) =
  if 0 <? n then runs_from total ds ++ [LocalRun (total + zlen (expand ds) + n) t] else runs_from total ds.
Proof.
  intros Hn. revert total. induction ds as [|[n' t'] ds IH]; intros total Hd.
  - simpl. change (zlen (expand [])) with 0. rewrite Z.add_0_r. by case_match.
  - apply Forall_cons in Hd as [Hn' Hd]. simpl in Hn'. cbn [app runs_from]. rewrite expand_length by done.
    rewrite !IH by done. destruct (Z.ltb_spec 0 n').
    + rewrite Z.add_assoc. by case_match.
    + assert (n' = 0) as -> by lia. by rewrite Z.add_0_l.
Qed.

Lemma local_runs_ok_add ds total runs n t : local_runs_ok ds total runs -> 0 <= n ->
  total + n <= WAH_MAX_LOCAL_COUNT ->
  local_runs_ok (ds ++ [(n, t)]) (total + n) (if 0 <? n then runs ++ [LocalRun (total + n) t] else runs).
Proof.
  intros (Hd & -> & Hm & ->) Hn Hm'. split; [|split; [|split; [done|]]].
  - apply Forall_app. split; [done|]. by constructor.
  - by rewrite expand_snoc.
  - rewrite runs_from_app by done. case_match; [|done]. by rewrite Z.add_0_l.
Qed.

Lemma decl_bytes_snoc ds bs n t bn long bt : decl_bytes ds bs -> uleb 32 bn n -> val_bytes long bt t ->
  decl_bytes (ds ++ [(n, t)]) (bs ++ bn ++ bt).
Proof.
  intros H Hn Ht. induction H; simpl.
  - rewrite <- (app_nil_r (bn ++ bt)), <- (assoc_L (++)). econstructor; [done..|constructor].
  - rewrite <- !(assoc_L (++)). by econstructor.
Qed.

Lemma wp_on_decoder {A} (d : comp decoder A) (Q : A -> decoder * answers -> Prop) s :
  wp d (fun v d' => Q v (d', s.2)) s.1 -> wp (on_decoder d) Q s.
Proof. unfold wp, on_decoder. by destruct (d s.1) as [[v|e|] d']. Qed.

Definition known_types (m : wah_module_t) (ds : list local_decl) : Prop := Forall (fun d => type_valid m d.2) ds.


(** The two decoders of a declaration, with the bytes they take. *)
Lemma wp_uleb (Q : Z -> decoder -> Prop) d : decoder_bytes d ->
  (forall v bs c, cursor d = bs ++ c -> uleb 32 bs v -> Forall is_byte c -> Q v (Decoder c (dec_features d))) ->
  wp (on_cursor wah_decode_uleb128) Q d.
Proof.
  intros Hb HQ. unfold wp, on_cursor. destruct (wah_decode_uleb128_faultless (cursor d) Hb) as [Hf Hb'].
  destruct (wah_decode_uleb128 (cursor d)) as [[v|e|] c] eqn:E; [|done|done].
  apply (proj1 (wah_decode_uleb128_iff _ _ _ Hb)) in E as (bs & Hc & Hu). by eapply HQ.
Qed.

Lemma wp_val_type (Q : wah_type_t -> decoder -> Prop) d : decoder_bytes d ->
  (forall t long bs d', cursor d = bs ++ cursor d' -> val_bytes long bs t -> decoder_bytes d' -> Q t d') ->
  wp wah_decode_val_type Q d.
Proof.
  intros Hb HQ. unfold wp. destruct (wah_decode_val_type_faultless d Hb) as [Hf Hb'].
  destruct (wah_decode_val_type d) as [[t|e|] d'] eqn:E; [|done|done].
  apply (proj1 (wah_decode_val_type_decodes d t d' Hb)) in E as (long & bs & Hc & Hv & _). by eapply HQ.
Qed.

Lemma val_bytes_known m long bs t : val_bytes long bs t -> type_index_ok m t = true -> type_valid m t.
Proof. intros H. apply decoded_type_valid, storage_bytes_valid. exists long, bs. by constructor. Qed.

Lemma wp_count k (Q : Z -> decoder -> Prop) d : decoder_bytes d ->
  (forall v bs c, cursor d = bs ++ c -> uleb 32 bs v -> Forall is_byte c -> Q v (Decoder c (dec_features d))) ->
  wp (on_cursor (wah_decode_and_validate_count k)) Q d.
Proof.
  intros Hb HQ. destruct d as [c0 f]. pose proof (wp_uleb (fun v d' => Q v d') (Decoder c0 f) Hb HQ) as H.
  unfold wp, on_cursor, wah_decode_and_validate_count, stm_bind, stm_get in *. simpl in *.
  destruct (wah_decode_uleb128 c0) as [[v|e|] c]; [|done|done].
  destruct ((0 <? k) && (UINT32_MAX / k <? v)); [done|]. simpl. by destruct (u64 (zlen c) <? u64 (v * k)).
Qed.

Lemma wp_on_answers n k (Q : unit -> decoder * answers -> Prop) s : (forall a, Q tt (s.1, a)) ->
  wp (on_answers (wah_malloc_c n k)) Q s.
Proof.
  intros HQ. unfold wp, on_answers. by destruct (wah_malloc_c_cases n k s.2) as [[a' ->]|[a' ->]].
Qed.

Lemma wp_type_features t (Q : unit -> decoder -> Prop) d : decoder_bytes d ->
  (forall d', cursor d' = cursor d -> decoder_bytes d' -> Q tt d') -> wp (on_features (wah_require_type_features t)) Q d.
Proof.
  intros Hb HQ. apply wp_intro; [exact (wp_no_fault _ _ _ (require_type_features_good t d Hb))|].
  intros [] d' [_ E]%on_features_Ok. apply HQ; [done|]. unfold decoder_bytes. by rewrite E.
Qed.

(** The loop, after the declarations [ds] at the bytes [bs]. *)
Lemma local_decls_spec m n c bs ds total runs s :
  decoder_bytes s.1 -> c = bs ++ cursor s.1 -> decl_bytes ds bs -> local_runs_ok ds total runs -> known_types m ds ->
  wp (local_decls m n total runs) (fun r s' => decoder_bytes s'.1 /\ exists ds' bs',
    c = bs' ++ cursor s'.1 /\ decl_bytes ds' bs' /\ local_runs_ok ds' r.1 r.2 /\ known_types m ds' /\
    length ds' = (length ds + n)%nat) s.
Proof.
  revert bs ds total runs s. induction n as [|n IH]; intros bs ds total runs s Hb Hc Hbs Hok Hk; cbn [local_decls].
  { apply wp_ret. split; [done|]. exists ds, bs. split_and!; try done. }
  apply wp_bind, wp_on_decoder, wp_uleb; [done|]. intros v bn c1 E1 Hu Hb1.
  apply wp_bind, wp_on_decoder, wp_val_type; [done|]. intros t long bt d2 E2 Hv Hb2. simpl in E2.
  apply wp_bind, wp_ensure. intros H1. cbv zeta. apply Z.leb_le in H1. pose proof (uleb_nonneg _ _ _ Hu).
  assert (0 <= total) by (destruct Hok as (_ & -> & _); unfold zlen; lia).
  rewrite (u32_small (total + v)) by (unfold UINT32_MAX in *; lia).
  apply wp_bind, wp_ensure. intros H2. apply Z.leb_le in H2. apply wp_bind, wp_ensure. intros H3.
  apply wp_bind, wp_on_decoder, wp_type_features; [done|]. intros d3 E3 Hb3. simpl in E3, Hb3.
  eapply wp_mono; [apply (IH (bs ++ bn ++ bt) (ds ++ [(v, t)]))|].
  - done.
  - rewrite Hc, E1, E2. cbn [fst]. by rewrite E3, <- !(assoc_L (++)).
  - by eapply decl_bytes_snoc.
  - by apply local_runs_ok_add.
  - apply Forall_app. split; [done|]. constructor; [by eapply val_bytes_known|done].
  - intros r s' (Hb' & ds' & bs' & H'). split; [done|]. exists ds', bs'.
    destruct H' as (? & ? & ? & ? & El). split_and!; try done. rewrite El, length_app. simpl. lia.
Qed.

Lemma runs_from_length total ds : (length (runs_from total ds) <= length ds)%nat.
Proof.
  revert total. induction ds as [|[n t] ds IH]; intros total; simpl; [done|].
  case_match; simpl; [specialize (IH (total + n))|specialize (IH total)]; lia.
Qed.

Lemma local_runs_nil : local_runs_ok [] 0 [].
Proof. split; [constructor|]. split; [done|]. split; [|done]. vm_compute. discriminate. Qed.

(** What the body keeps of the declarations. *)
Lemma local_runs_ok_type ds total runs i : local_runs_ok ds total runs -> 0 <= i < total ->
  zlen ds < 2 ^ 32 -> wah_local_type (CodeBody total runs) i = expand ds !! Z.to_nat i.
Proof.
  intros (Hd & -> & Hm & ->) Hi Hn. unfold wah_local_type. cbn [local_runs].
  destruct (runs_from_last 0 ds Hd ltac:(lia)) as (r & Er & Hr). apply zget_Some in Er as Hl. destruct Hl as [Hl _].
  assert (zlen (runs_from 0 ds) <= zlen ds) by (unfold zlen; pose proof (runs_from_length 0 ds); lia).
  rewrite u32_small by lia.
  destruct (local_search_holds (runs_from 0 ds) i 32 0 (zlen (runs_from 0 ds) - 1)) as (k & -> & Hk); [lia|lia| | | | |].
  - change (2 ^ Z.of_nat 32) with (2 ^ 32). lia.
  - intros. by eapply runs_from_sorted.
  - intros j r' Hj E. apply zget_Some in E as [? _]. lia.
  - exists r. split; [done|lia].
  - cbn [mbind option_bind]. rewrite (runs_from_type 0 ds i k Hd); [f_equal; lia|lia|done].
Qed.

(** What a successful parse has read. *)
Definition parsed_locals (m : wah_module_t) (d : decoder) (body : wah_code_body_t) (d' : decoder) : Prop :=
  exists ds bc bs,
    cursor d = bc ++ bs ++ cursor d' /\ uleb 32 bc (zlen ds) /\ decl_bytes ds bs /\ known_types m ds /\
    local_count body = zlen (expand ds) /\ local_count body <= WAH_MAX_LOCAL_COUNT /\
    forall i, 0 <= i < local_count body -> wah_local_type body i = expand ds !! Z.to_nat i.

Lemma parse_local_decls_wp m d a : decoder_bytes d ->
  wp (wah_parse_local_decls m) (fun body s => decoder_bytes s.1 /\ parsed_locals m d body s.1) (d, a).
Proof.
  intros Hb. unfold wah_parse_local_decls. apply wp_bind, wp_on_decoder, wp_count; [done|].
  intros n bc c Ec Hn Hbc. apply wp_bind, wp_on_answers. intros a'. apply wp_bind.
  eapply wp_mono; [apply (local_decls_spec m _ c [] [] 0 []); [done|done|exact decl_nil|exact local_runs_nil|constructor]|].
  intros [total runs] s' (Hb' & ds & bs & Hc' & Hbs & Hok & Hk & Hl). apply wp_ret. split; [done|].
  pose proof (uleb_nonneg _ _ _ Hn). pose proof (uleb_bound _ _ _ Hn).
  assert (En : zlen ds = n) by (unfold zlen; rewrite Hl; simpl; lia).
  exists ds, bc, bs. rewrite En. destruct Hok as (Hd & Ht & Hm & Hr) eqn:Eo. split_and!; try done.
  - simpl in Ec. by rewrite Ec, Hc'.
  - intros i Hi. apply local_runs_ok_type; [done|done|lia].
Qed.

(** Every local that is declared has a type of the module. *)
Lemma parsed_locals_types m d body d' i : parsed_locals m d body d' -> 0 <= i < local_count body ->
  exists t, wah_local_type body i = Some t /\ type_valid m t.
Proof.
  intros (ds & bc & bs & _ & _ & _ & Hk & Hc & _ & Ht) Hi. rewrite (Ht i Hi).
  destruct (lookup_lt_is_Some_2 (expand ds) (Z.to_nat i)) as [t Et]; [unfold zlen in Hc; lia|]. exists t. split; [done|].
  unfold expand in Et. apply list_elem_of_lookup_2 in Et. apply list_elem_of_In, in_concat in Et as (l & Hl & Ht').
  unfold known_types in Hk. rewrite Forall_forall in Hk.
  apply in_map_iff in Hl as ([n u] & <- & Hd). apply list_elem_of_In, elem_of_replicate in Ht' as [-> _].
  by apply (Hk (n, u)), list_elem_of_In.
Qed.

(** C20. The locals of a function: when the declarations are accepted, the bytes read
    are a count and that many pairs of a number and a type, there are at most
    WAH_MAX_LOCAL_COUNT locals in all, every type is known to the module, and looking
    up local [i] by binary search gives the [i]-th type of the declarations written
    out. *)
Theorem wah_parse_local_decls_exact m d a : decoder_bytes d ->
  match wah_parse_local_decls m (d, a) with
  | (Ok body, (d', _)) => exists ds bc bs,
      cursor d = bc ++ bs ++ cursor d' /\ uleb 32 bc (zlen ds) /\ decl_bytes ds bs /\ known_types m ds /\
      local_count body = zlen (expand ds) /\ local_count body <= WAH_MAX_LOCAL_COUNT /\
      forall i, 0 <= i < local_count body -> wah_local_type body i = expand ds !! Z.to_nat i
  | (Err _, _) => True
  | (Fault, _) => False
  end.
Proof.
  intros Hb. pose proof (parse_local_decls_wp m d a Hb) as H. unfold wp in H.
  destruct (wah_parse_local_decls m (d, a)) as [[body|e|] [d' a']]; [|done|done].
  destruct H as (_ & ds & bc & bs & H). by exists ds, bc, bs.
Qed.

(** Two i32 and one i64. *)
Lemma wah_parse_local_decls_exact_witness : exists ds bc bs,
  [2; 2; 0x7F; 1; 0x7E] = bc ++ bs /\ uleb 32 bc (zlen ds) /\ decl_bytes ds bs /\
  expand ds !! 2%nat = Some WAH_TYPE_I64.
Proof.
  pose proof (wah_parse_local_decls_exact example_types
    (Decoder [2; 2; 0x7F; 1; 0x7E] (FeatureState 0 0)) []
    ltac:(unfold decoder_bytes; simpl; repeat constructor; unfold is_byte; lia)) as H.
  run_in H. destruct H as (ds & bc & bs & H1 & H2 & H3 & _ & _ & _ & H4).
  exists ds, bc, bs. rewrite app_nil_r in H1. split; [exact H1|]. split; [exact H2|]. split; [exact H3|].
  rewrite (eq_sym (H4 2 ltac:(vm_compute; split; congruence)) : expand ds !! 2%nat = _). vm_compute. reflexivity.
Defined.
