(* ===== verification/BrTable.v ===== *)
(** * The compressed tables of br_table

    A br_table keeps its distinct labels once, as records, and for each target the
    16-bit number of its record: adding the targets one by one gives a table that
    decodes to the labels, without reading what was not written and without a record
    beyond the capacity computed in advance. *)

From S2P Require Import Prelude Base Types Decode Subtype Alloc ModuleEnv Operands Validate ValidInv.
From stdpp Require Import list sets.
#[local] Open Scope Z_scope.
#[local] Open Scope wah_scope.

(** ** Definitions *)

(** What is written of a table of [n] targets and [cap] records after the targets
    [ls]: the records [syms], and for each target the number of its record. *)
Record table_ok (n cap : Z) (bt : wah_br_table_imm_t) (syms ls : list Z) : Prop := {
  tb_count : bti_target_count bt = n;
  tb_cap : bti_record_cap bt = cap;
  tb_length : zlen (bti_rest bt) = cap * 2 + (n + 2) / 2;
  tb_symbols : forall r x, syms !! r = Some x -> wah_br_table_symbol bt (Z.of_nat r) = Some x;
  tb_targets : forall j x, ls !! j = Some x -> exists r, syms !! r = Some x /\
    wah_br_table_target bt (Z.of_nat j) = Some (Z.of_nat r);
  tb_half : Z.odd (zlen ls) = true -> exists w,
    zget (bti_rest bt) (cap * 2 + zlen ls / 2) = Some (Some w) /\ 0 <= w < 2 ^ 16 }.

(** The scratch area agrees with the records. *)
Record scratch_ok (csp : Z) (l : wah_br_table_labels_t) (syms : list Z) : Prop := {
  sc_labels : labels_ok l;
  sc_nodup : NoDup syms;
  sc_range : Forall (fun x => 0 <= x <= csp) syms;
  sc_stamps : forall x, 0 <= x <= csp -> zget (lb_stamps l) x = Some (lb_serial l) <-> x ∈ syms;
  sc_records : forall r x, syms !! r = Some x -> zget (lb_records l) x = Some (Z.of_nat r) }.

(** ** Theorems *)

(** Distinct labels of at most [csp + 1] values. *)
Lemma labels_pigeonhole csp syms : 0 <= csp -> NoDup syms -> Forall (fun x => 0 <= x <= csp) syms ->
  zlen syms <= csp + 1.
Proof.
  intros Hc Hn Hr. assert (Hsub : syms ⊆ (Z.of_nat <$> seq 0 (Z.to_nat (csp + 1)))).
  { intros x Hx. rewrite Forall_forall in Hr. specialize (Hr x Hx).
    apply list_elem_of_fmap. exists (Z.to_nat x). split; [lia|]. apply elem_of_seq. lia. }
  apply submseteq_length in Hsub || apply (NoDup_submseteq _ _ Hn) in Hsub.
  apply submseteq_length in Hsub. rewrite length_fmap, length_seq in Hsub. unfold zlen. lia.
Qed.

Lemma labels_room csp syms x : 0 <= csp -> NoDup syms -> Forall (fun x => 0 <= x <= csp) syms ->
  0 <= x <= csp -> x ∉ syms -> zlen syms <= csp.
Proof.
  intros Hc Hn Hr Hx Hni. pose proof (labels_pigeonhole csp (x :: syms) Hc) as H.
  unfold zlen in *. simpl in H. assert (NoDup (x :: syms)) by by constructor.
  assert (Forall (fun x => 0 <= x <= csp) (x :: syms)) by by constructor. specialize (H ltac:(done) ltac:(done)). lia.
Qed.

(** *** Words *)

Lemma target_low bt j lo hi : j mod 2 = 0 -> 0 <= lo < 2 ^ 16 ->
  zget (bti_rest bt) (bti_record_cap bt * 2 + j / 2) = Some (Some (lo + hi * 2 ^ 16)) ->
  wah_br_table_target bt j = Some lo.
Proof.
  intros Hj Hl Hw. unfold wah_br_table_target. rewrite Hw, Hj. cbn [mbind option_bind]. f_equal.
  change 65535 with (Z.ones 16). rewrite Z.shiftr_0_r, Z.land_ones, Z.mod_add by lia. by apply Z.mod_small.
Qed.
Lemma target_high bt j lo hi : j mod 2 = 1 -> 0 <= lo < 2 ^ 16 -> 0 <= hi < 2 ^ 16 ->
  zget (bti_rest bt) (bti_record_cap bt * 2 + j / 2) = Some (Some (lo + hi * 2 ^ 16)) ->
  wah_br_table_target bt j = Some hi.
Proof.
  intros Hj Hl Hh Hw. unfold wah_br_table_target. rewrite Hw, Hj. cbn [mbind option_bind]. f_equal.
  change 65535 with (Z.ones 16). change (1 * 16) with 16. rewrite Z.land_ones, Z.shiftr_div_pow2, Z.div_add by lia.
  rewrite (Z.div_small lo) by lia. by apply Z.mod_small.
Qed.

Lemma pair_word w r : 0 <= w < 2 ^ 16 -> 0 <= r < 2 ^ 16 ->
  u32 (Z.lor w (u32 (Z.shiftl r 16))) = w + r * 2 ^ 16.
Proof.
  intros Hw Hr. rewrite (u32_small (Z.shiftl r 16)).
  - rewrite lor_shiftl by lia. change (2 ^ 16) with 65536 in *. apply u32_small. lia.
  - rewrite Z.shiftl_mul_pow2 by lia. change (2 ^ 16) with 65536 in *. lia.
Qed.

(** *** One target *)

Lemma labels_ok_set l csp x r : labels_ok l -> 0 <= csp <= WAH_MAX_CONTROL_DEPTH -> 0 <= x <= csp ->
  exists st re : list Z, zset (lb_stamps l) x (lb_serial l) = Some st /\ zset (lb_records l) x r = Some re /\
    labels_ok (BrTableLabels st re (lb_serial l)).
Proof.
  intros [H1 H2 H3 H4] Hc Hx.
  destruct (zset_is_Some (lb_stamps l) x (lb_serial l)) as [st Hst]; [lia|].
  destruct (zset_is_Some (lb_records l) x r) as [re Hre]; [lia|].
  exists st, re. split_and!; try done. split; simpl; [by rewrite (zset_length _ _ _ _ Hst)|by rewrite (zset_length _ _ _ _ Hre)|done|].
  apply Forall_lookup_2. intros j y Hj. pose proof (zset_lookup _ _ _ _ (Z.of_nat j) Hst) as Hz.
  rewrite !zget_of_nat, Hj in Hz. destruct (Z.of_nat j =? x); [simplify_eq; lia|].
  symmetry in Hz. exact (Forall_lookup_1 _ _ _ _ H4 Hz).
Qed.

(** A new record leaves the targets alone. *)
Lemma table_ok_add n cap bt syms ls x rest : table_ok n cap bt syms ls -> zlen syms < cap ->
  zset (bti_rest bt) (zlen syms) (Some x) = Some rest -> table_ok n cap (set_rest rest bt) (syms ++ [x]) ls.
Proof.
  intros [T1 T2 T3 T4 T5 T6] Hcap Hs. assert (Hg : forall j, zget rest j = if j =? zlen syms then Some (Some x) else zget (bti_rest bt) j)
    by (intros j; by apply zset_lookup).
  assert (Hd : forall j, 0 <= j -> cap * 2 + j / 2 =? zlen syms = false).
  { intros j Hj. apply Z.eqb_neq. assert (0 <= j / 2) by (apply Z.div_pos; lia).
    assert (0 <= zlen syms) by (unfold zlen; lia). lia. }
  split; simpl; try done.
  - by rewrite (zset_length _ _ _ _ Hs).
  - intros r y Hr. unfold wah_br_table_symbol. simpl. rewrite Hg. apply lookup_app_Some in Hr as [Hr|[Hl Hr]].
    + apply lookup_lt_Some in Hr as Hlt. rewrite (proj2 (Z.eqb_neq _ _)) by (unfold zlen; lia). by apply T4.
    + destruct (r - length syms)%nat eqn:E; [|done]. simpl in Hr. simplify_eq.
      by rewrite (proj2 (Z.eqb_eq _ _)) by (unfold zlen; lia).
  - intros j y Hj. destruct (T5 j y Hj) as (r & Hr & Ht). exists r. split; [by apply lookup_app_l_Some|].
    unfold wah_br_table_target in *. simpl. rewrite T2 in *. rewrite Hg, Hd by lia. exact Ht.
  - intros Ho. destruct (T6 Ho) as (w & Hw & Hr). exists w. rewrite Hg, Hd by (unfold zlen; lia). done.
Qed.

Lemma scratch_ok_add csp l syms x st re : scratch_ok csp l syms -> 0 <= x <= csp -> x ∉ syms ->
  zset (lb_stamps l) x (lb_serial l) = Some st -> zset (lb_records l) x (Z.of_nat (length syms)) = Some re ->
  labels_ok (BrTableLabels st re (lb_serial l)) ->
  scratch_ok csp (BrTableLabels st re (lb_serial l)) (syms ++ [x]).
Proof.
  intros [S1 S2 S3 S4 S5] Hx Hni Hs Hr Hl. split; simpl; [done| | | |].
  - apply NoDup_app. split; [done|]. split; [|apply NoDup_singleton]. intros y Hy Hy'.
    apply list_elem_of_singleton in Hy' as ->. done.
  - apply Forall_app. split; [done|]. by constructor.
  - intros y Hy. rewrite (zset_lookup _ _ _ _ y Hs), elem_of_app, list_elem_of_singleton.
    destruct (Z.eqb_spec y x) as [->|Hne]; [naive_solver|]. rewrite (S4 y Hy). naive_solver.
  - intros r y Hry. rewrite (zset_lookup _ _ _ _ y Hr). apply lookup_app_Some in Hry as [Hry|[Hl' Hry]].
    + destruct (Z.eqb_spec y x) as [->|Hne]; [|by apply S5]. by apply list_elem_of_lookup_2 in Hry.
    + destruct (r - length syms)%nat eqn:E; [|done]. simpl in Hry. simplify_eq. rewrite Z.eqb_refl. repeat f_equal. lia.
Qed.

(** The record of a label, found or added: [record_label] keeps the table and the
    scratch area in agreement. *)
Lemma record_label_spec n cap csp l bt syms ls x : table_ok n cap bt syms ls -> scratch_ok csp l syms ->
  0 <= csp <= WAH_MAX_CONTROL_DEPTH -> 0 <= x <= csp -> 0 <= n -> zlen ls <= n ->
  cap = Z.min (n + 1) (csp + 1) -> zlen syms <= zlen ls ->
  exists l' bt' syms' r, record_label l bt (zlen syms) x = Some (l', bt', zlen syms') /\
    table_ok n cap bt' syms' ls /\ scratch_ok csp l' syms' /\ zlen syms' <= zlen ls + 1 /\ zlen syms' <= cap /\
    syms' !! r = Some x /\ zget (lb_records l') x = Some (Z.of_nat r) /\ (r < 257)%nat.
Proof.
  intros [T1 T2 T3 T4 T5 T6] [S1 S2 S3 S4 S5] Hc Hx Hn Hls Hcap Hsl. pose proof S1 as [L1 L2 L3 L4].
  unfold record_label. destruct (zget_is_Some (lb_stamps l) x) as [st Hst]; [lia|]. rewrite Hst. cbn [mbind option_bind].
  pose proof (labels_pigeonhole csp syms ltac:(lia) S2 S3) as Hpg.
  destruct (Z.eqb_spec st (lb_serial l)) as [->|Hne]; simpl.
  - apply (proj1 (S4 x Hx)) in Hst. apply list_elem_of_lookup in Hst as [r Hr].
    exists l, bt, syms, r. apply lookup_lt_Some in Hr as Hlt. unfold WAH_MAX_CONTROL_DEPTH, zlen in *.
    split_and!; try done; [lia| lia|by apply S5|lia].
  - assert (Hni : x ∉ syms) by (intros Hin; apply (proj2 (S4 x Hx)) in Hin; congruence).
    pose proof (labels_room csp syms x ltac:(lia) S2 S3 Hx Hni) as Hroom.
    assert (0 <= zlen syms) by (unfold zlen; lia).
    destruct (labels_ok_set l csp x (u16 (zlen syms)) S1 Hc Hx) as (sts & res & Hs & Hr & Hlok). rewrite Hs, Hr. simpl.
    unfold wah_br_table_set_symbol.
    destruct (zset_is_Some (bti_rest bt) (zlen syms) (Some x)) as [rest Hrest].
    { rewrite T3. assert (0 <= (n + 2) / 2) by (apply Z.div_pos; lia). lia. }
    rewrite Hrest. simpl. exists (BrTableLabels sts res (lb_serial l)), (set_rest rest bt), (syms ++ [x]), (length syms).
    assert (Hz : zlen (syms ++ [x]) = zlen syms + 1) by (unfold zlen; rewrite length_app; simpl; lia).
    assert (Hu16 : u16 (zlen syms) = Z.of_nat (length syms)).
    { unfold u16. rewrite Z.mod_small; [done|]. unfold WAH_MAX_CONTROL_DEPTH in *. change (2 ^ 16) with 65536. lia. }
    rewrite Hz, (u32_small (zlen syms + 1)) by (unfold WAH_MAX_CONTROL_DEPTH in *; lia).
    assert (Hlook : (syms ++ [x]) !! length syms = Some x) by (rewrite lookup_app_r, Nat.sub_diag by lia; done).
    rewrite Hu16 in Hr. 
    assert (Hsc : scratch_ok csp (BrTableLabels sts res (lb_serial l)) (syms ++ [x]))
      by (apply scratch_ok_add; [by split|done..]).
    split_and!; try done; [|lia|lia|by apply Hsc|unfold WAH_MAX_CONTROL_DEPTH, zlen in *; lia].
    apply table_ok_add with (rest := rest); [by split|lia|done].
Qed.

(** A target is written: at an even number the word is set, at an odd one the record
    goes to the upper half of a word that has been set. *)
Lemma set_target_spec n cap bt syms ls x r : table_ok n cap bt syms ls -> syms !! r = Some x -> (r < 257)%nat ->
  zlen syms <= cap -> zlen ls <= n ->
  exists bt', wah_br_table_set_target bt (zlen ls) (Z.of_nat r) = Some bt' /\ table_ok n cap bt' syms (ls ++ [x]).
Proof.
  intros [T1 T2 T3 T4 T5 T6] Hr Hlt Hcap Hn. set (i := zlen ls) in *. assert (Hi : 0 <= i) by (unfold i, zlen; lia).
  assert (Hcap0 : 0 <= zlen syms) by (unfold zlen; lia).
  assert (Hi2 : 0 <= i / 2) by (apply Z.div_pos; lia).
  set (k := cap * 2 + i / 2). assert (Hk : 0 <= k < zlen (bti_rest bt)).
  { unfold k. rewrite T3. Z.to_euclidean_division_equations. lia. }
  assert (Hword : exists w, (if i mod 2 =? 0 then Some (Z.of_nat r)
      else w ← zget (bti_rest bt) k; w ← w; Some (u32 (Z.lor w (u32 (Z.shiftl (Z.of_nat r) 16))))) = Some w /\
    (i mod 2 = 0 -> w = Z.of_nat r) /\
    (i mod 2 = 1 -> exists w0, zget (bti_rest bt) k = Some (Some w0) /\ 0 <= w0 < 2 ^ 16 /\ w = w0 + Z.of_nat r * 2 ^ 16)).
  { pose proof (Z.mod_pos_bound i 2 ltac:(lia)). destruct (Z.eqb_spec (i mod 2) 0).
    - exists (Z.of_nat r). split; [done|]. split; [done|lia].
    - destruct T6 as (w & Hw & Hb); [rewrite Zodd_mod; apply Z.eqb_eq; lia|].
      unfold k. rewrite Hw. cbn [mbind option_bind]. rewrite pair_word by lia. eexists. split; [done|]. split; [lia|].
      intros _. by exists w. }
  destruct Hword as (w & Hw & He & Ho). destruct (zset_is_Some (bti_rest bt) k (Some w) Hk) as [rest Hs].
  exists (set_rest rest bt).
  split; [unfold wah_br_table_set_target; rewrite T2; fold k; rewrite Hw; cbn [mbind option_bind]; by rewrite Hs|].
  assert (Hg : forall j, zget rest j = if j =? k then Some (Some w) else zget (bti_rest bt) j)
    by (intros j; by apply zset_lookup).
  assert (Hdm : i = 2 * (i / 2) + i mod 2) by (apply Z.div_mod; lia).
  pose proof (Z.mod_pos_bound i 2 ltac:(lia)) as Hm.
  split; simpl; try done.
  - by rewrite (zset_length _ _ _ _ Hs).
  - intros j y Hj. unfold wah_br_table_symbol. simpl. rewrite Hg.
    assert (Z.of_nat j <> k) by (apply lookup_lt_Some in Hj; unfold k, zlen in *; lia).
    rewrite (proj2 (Z.eqb_neq _ _)) by done. by apply T4.
  - intros j y Hj. apply lookup_app_Some in Hj as [Hj|[Hl Hj]].
    + destruct (T5 j y Hj) as (r' & Hr' & Ht). exists r'. split; [done|]. apply lookup_lt_Some in Hj as Hjl.
      assert (Hji : 0 <= Z.of_nat j < i) by (unfold i, zlen; lia).
      destruct (Z.eq_dec (Z.of_nat j / 2) (i / 2)) as [Ej|Ej].
      * assert (i mod 2 = 1 /\ Z.of_nat j mod 2 = 0) as [Ei Ej'] by (Z.to_euclidean_division_equations; lia).
        destruct (Ho Ei) as (w0 & Hw0 & Hb & ->). rewrite <- Ht.
        rewrite (target_low bt (Z.of_nat j) w0 0 Ej' Hb) by (rewrite T2, Ej; fold k; by rewrite Z.add_0_r).
        apply (target_low _ _ w0 (Z.of_nat r) Ej' Hb). simpl. rewrite T2, Ej. fold k. by rewrite Hg, Z.eqb_refl.
      * unfold wah_br_table_target in *. simpl. rewrite T2 in *. rewrite Hg.
        rewrite (proj2 (Z.eqb_neq _ _)) by (unfold k; lia). exact Ht.
    + exists r. destruct (j - length ls)%nat eqn:Ejl; [|done]. simpl in Hj. injection Hj as <-. split; [done|].
      assert (Z.of_nat j = i) as -> by (unfold i, zlen; lia).
      assert (Hk' : zget rest k = Some (Some w)) by (by rewrite Hg, Z.eqb_refl).
      destruct (Z.eq_dec (i mod 2) 0) as [E|E].
      * rewrite (He E) in Hk'. apply (target_low _ _ (Z.of_nat r) 0 E); simpl; [lia|]. rewrite T2. fold k. by rewrite Z.add_0_r.
      * destruct (Ho ltac:(lia)) as (w0 & _ & Hb & ->). apply (target_high _ _ w0); simpl; [lia|done|lia|]. rewrite T2. done.
  - unfold zlen. rewrite length_app. simpl. intros Hodd. exists (Z.of_nat r).
    assert (Hz : Z.of_nat (length ls + 1) = i + 1) by (unfold i, zlen; lia). rewrite Hz in *.
    rewrite Zodd_mod in Hodd. apply Z.eqb_eq in Hodd.
    assert (i mod 2 = 0 /\ (i + 1) / 2 = i / 2) as [E ->] by (Z.to_euclidean_division_equations; lia).
    rewrite Hg. fold k. rewrite Z.eqb_refl, (He E). split; [done|lia].
Qed.

(** A new br_table starts from no records: no stamp is its serial number. *)
Lemma next_serial_fresh csp l : labels_ok l -> 0 <= csp <= WAH_MAX_CONTROL_DEPTH -> scratch_ok csp (next_serial l) [].
Proof.
  intros [H1 H2 H3 H4] Hc. unfold next_serial.
  assert (Hfresh : forall l', labels_ok l' -> Forall (fun y => y <> lb_serial l') (lb_stamps l') -> scratch_ok csp l' []).
  { intros l' Hl Hf. split; [done|constructor|constructor| |done]. intros x Hx.
    split; [|by intros ?%elem_of_nil]. intros [_ E]%zget_Some. destruct (Forall_lookup_1 _ _ _ _ Hf E eq_refl). }
  destruct (Z.eq_dec (lb_serial l) (2 ^ 32 - 1)) as [Em|Em].
  - rewrite Em. change (u32 (2 ^ 32 - 1 + 1)) with 0. cbn [Z.eqb].
    assert (Hz : zlen (replicate (length (lb_stamps l)) 0) = WAH_MAX_CONTROL_DEPTH + 1)
      by (unfold zlen in *; by rewrite length_replicate).
    apply Hfresh; [split; simpl; [done|done|lia|]|]; apply Forall_replicate; simpl; lia.
  - rewrite u32_small by lia. destruct (Z.eqb_spec (lb_serial l + 1) 0); [lia|].
    apply Hfresh; [split; simpl; [done|done|lia|]|]; simpl; eapply Forall_impl; [exact H4| |exact H4|]; simpl; intros; lia.
Qed.
