(* ===== verification/ValidRules.v ===== *)
(** * Rules for the helpers of validation

    Each helper of Operands.v, run in a state of the invariant of ValidInv.v: what
    it does to the operands above the base of the innermost block, and that it keeps
    the invariant. *)

From S2P Require Import Prelude Base Alloc Types Opcodes Bytes Leb128 Decode Subtype ModuleEnv Operands Validate ValidInv.
From stdpp Require Import list sets.
#[local] Open Scope Z_scope.
#[local] Open Scope wah_scope.


(** Arithmetic with the two limits. *)
Ltac mlia := unfold WAH_MAX_TYPE_STACK_SIZE, WAH_MAX_CONTROL_DEPTH in *; lia.

(** *** Control frames *)

Section Frames.
Implicit Types c : wah_control.

Lemma frames_lookup c k : zlen (control_stack c) = WAH_MAX_CONTROL_DEPTH ->
  0 <= k < control_sp c -> control_sp c <= WAH_MAX_CONTROL_DEPTH ->
  exists f, zget (control_stack c) (control_sp c - 1 - k) = Some f /\ frames c !! Z.to_nat k = Some f.
Proof.
  intros Hl Hk Hc. destruct (zget_is_Some (control_stack c) (control_sp c - 1 - k)) as [f Hf]; [lia|].
  exists f. split; [done|]. rewrite zget_nat in Hf by lia. unfold frames, zlen in *.
  rewrite reverse_lookup by (rewrite length_take; lia). rewrite length_take.
  rewrite lookup_take_lt by lia. rewrite <- Hf. f_equal. lia.
Qed.

Lemma frames_length c : zlen (control_stack c) = WAH_MAX_CONTROL_DEPTH ->
  0 <= control_sp c <= WAH_MAX_CONTROL_DEPTH -> zlen (frames c) = control_sp c.
Proof. unfold frames, zlen. intros. rewrite length_reverse, length_take. lia. Qed.

Lemma frames_top c f : 0 < control_sp c ->
  zget (control_stack c) (control_sp c - 1) = Some f ->
  frames c = f :: frames (Control (control_stack c) (control_sp c - 1) (is_unreachable c)).
Proof.
  intros H0 Hf. rewrite zget_nat in Hf by lia. unfold frames. simpl.
  replace (Z.to_nat (control_sp c)) with (S (Z.to_nat (control_sp c - 1))) by lia.
  by rewrite (take_S_r _ _ f), reverse_snoc.
Qed.

Lemma frames_set_above c f l i u : zset (control_stack c) i f = Some l -> control_sp c <= i ->
  0 <= control_sp c -> frames (Control l (control_sp c) u) = frames c.
Proof.
  unfold zset. case_bools; [done|]. intros [= <-] Hi H0. unfold frames. simpl.
  by rewrite take_insert_ge by lia.
Qed.

Lemma frames_push c f l u : zset (control_stack c) (control_sp c) f = Some l -> 0 <= control_sp c ->
  frames (Control l (control_sp c + 1) u) = f :: frames c.
Proof.
  intros Hs H0. pose proof (zset_lookup _ _ _ _ (control_sp c) Hs) as Hg. rewrite Z.eqb_refl in Hg.
  rewrite (frames_top _ f); simpl; [|lia|by replace (control_sp c + 1 - 1) with (control_sp c) by lia].
  f_equal. replace (control_sp c + 1 - 1) with (control_sp c) by lia. by eapply frames_set_above.
Qed.
End Frames.

Lemma frames_ok_mono m fs u u' : u <= u' -> frames_ok m fs u -> frames_ok m fs u'.
Proof. destruct fs as [|f fs]; simpl; [done|]. intros. naive_solver lia. Qed.

Lemma frames_base_nonneg m fs u : frames_ok m fs u -> 0 <= frames_base fs.
Proof.
  revert u. induction fs as [|f fs IH]; intros u; simpl; [lia|].
  intros (_ & _ & H & _ & Hf). specialize (IH _ Hf). lia.
Qed.

Lemma frames_nth m fs u k f : frames_ok m fs u -> fs !! k = Some f ->
  block_type_ok m (fr_block_type f) /\ 0 <= fr_stack_height f <= frames_base fs /\
  fr_stack_height f <= WAH_MAX_TYPE_STACK_SIZE.
Proof.
  revert u k. induction fs as [|g fs IH]; intros u k; [done|]. cbn [frames_ok frames_base].
  intros (Hb & _ & Hh & _ & Hf) Hk. pose proof (frames_base_nonneg m fs _ Hf). destruct k as [|k]; simpl in Hk.
  - injection Hk as <-. split_and!; [done|lia..].
  - destruct (IH _ _ Hf Hk) as (H1 & H2 & H3). split_and!; [done|lia..].
Qed.

Lemma ctl_base_nonneg m op c u : ctl_ok m op u c -> 0 <= frames_base (frames c).
Proof.
  intros [_ _ H]. destruct op; [|by eapply frames_base_nonneg].
  destruct (frames c) as [|f fs]; [done|]. destruct H as (_ & H & Hf). apply frames_base_nonneg in Hf. simpl. lia.
Qed.

Lemma ctl_nth m op c u k f : ctl_ok m op u c -> frames c !! k = Some f ->
  block_type_ok m (fr_block_type f) /\ 0 <= fr_stack_height f <= frames_base (frames c).
Proof.
  intros Hc Hk. pose proof (ctl_base_nonneg m op c u Hc) as H0. destruct Hc as [_ _ H]. destruct op.
  - destruct (frames c) as [|g fs]; [done|]. destruct H as (Hb & Hh & Hf). destruct k as [|k]; simpl in *.
    + injection Hk as <-. split; [done|lia].
    + destruct (frames_nth _ _ _ _ _ Hf Hk) as (H1 & H2 & H3). split; [done|lia].
  - destruct (frames_nth _ _ _ _ _ H Hk) as (H1 & H2 & H3). by split.
Qed.

Lemma ctl_ok_mono m op u u' c : u <= u' -> ctl_ok m op u c -> ctl_ok m op u' c.
Proof.
  intros Hu [H1 H2 H3]. split; [done|done|]. destruct op; [|by eapply frames_ok_mono].
  destruct (frames c) as [|f fs]; [done|]. destruct H3 as (H3 & H4 & H5). split; [done|split; [done|]].
  by eapply frames_ok_mono.
Qed.

(** *** The operand stack *)

Section Ops.
Context (m : wah_module_t) (G : wah_type_stack_t).

Definition pop_ops (o : wah_operands) : wah_operands :=
  let ts := type_stack o in
  Operands (TypeStack (ts_data ts) (ts_sp ts - 1) (Z.min (ts_sp ts - 1) (ts_lwm ts)))
    (current_stack_depth o - 1) (max_stack_depth o).
Definition push_ops (t : wah_type_t) (o : wah_operands) : wah_operands :=
  let ts := type_stack o in
  Operands (TypeStack (<[Z.to_nat (ts_sp ts) := t]> (ts_data ts)) (ts_sp ts + 1) (ts_lwm ts))
    (current_stack_depth o + 1) (Z.max (max_stack_depth o) (current_stack_depth o + 1)).
Definition cut_ops (b : Z) (o : wah_operands) : wah_operands :=
  let ts := type_stack o in
  Operands (TypeStack (ts_data ts) b (Z.min b (ts_lwm ts))) b (max_stack_depth o).

Lemma stack_ok_cut ts b : stack_ok m G ts -> 0 <= b <= ts_sp ts ->
  stack_ok m G (TypeStack (ts_data ts) b (Z.min b (ts_lwm ts))).
Proof.
  intros [H1 H2 H3 H4 [H5 H6]] Hb. split; simpl; [done|lia|lia| |].
  - replace (Z.to_nat b) with (Z.to_nat b `min` Z.to_nat (ts_sp ts))%nat by lia.
    rewrite <- take_take. by apply Forall_take.
  - split; simpl; [lia|]. intros j Hj. apply H6. lia.
Qed.

Lemma cut_ops_ok b b' o : ops_ok m G b' o -> 0 <= b' -> b' <= b <= current_stack_depth o -> ops_ok m G b' (cut_ops b o).
Proof.
  intros [H1 H2 H3 H4] H0 Hb. split; simpl; [|done|lia|lia]. apply stack_ok_cut; [done|lia].
Qed.

Lemma pop_ops_cut b o : ops_ok m G b o -> pop_ops o = cut_ops (current_stack_depth o - 1) o.
Proof. intros [H1 H2 H3 H4]. unfold pop_ops, cut_ops. by rewrite H2. Qed.

Lemma push_ops_ok b t o : ops_ok m G b o -> operand_ok m t -> current_stack_depth o < WAH_MAX_TYPE_STACK_SIZE ->
  ops_ok m G b (push_ops t o).
Proof.
  intros [[H1 H2 H3 H4 [H5 H6]] H7 H8 H9] Ht Hd. split; simpl; [split; simpl|lia|lia|mlia].
  - unfold zlen in *. by rewrite length_insert.
  - lia.
  - lia.
  - replace (Z.to_nat (ts_sp (type_stack o) + 1)) with (S (Z.to_nat (ts_sp (type_stack o)))) by lia.
    unfold zlen in *.
    rewrite (take_S_r _ _ t) by (rewrite list_lookup_insert_eq; [done|lia]).
    rewrite take_insert_ge by lia. apply Forall_app; split; [done|by constructor].
  - split; simpl; [done|]. intros j Hj. rewrite <- H6 by lia. rewrite !zget_nat by lia.
    apply list_lookup_insert_ne. lia.
Qed.

(** The operands above [b], topmost first. *)
Definition above (b : Z) (o : wah_operands) : list wah_type_t :=
  reverse (drop (Z.to_nat b) (take (Z.to_nat (ts_sp (type_stack o))) (ts_data (type_stack o)))).

Lemma above_length b o : ops_ok m G b o -> 0 <= b -> zlen (above b o) = current_stack_depth o - b.
Proof.
  intros [[H1 H2 H3 H4 H5] H7 H8 H9] Hb. unfold above, zlen in *.
  rewrite length_reverse, length_drop, length_take. lia.
Qed.

Lemma above_top b o : ops_ok m G b o -> 0 <= b < current_stack_depth o ->
  exists t, zget (ts_data (type_stack o)) (ts_sp (type_stack o) - 1) = Some t /\ operand_ok m t /\
    above b o = t :: above b (pop_ops o).
Proof.
  intros [[H1 H2 H3 H4 H5] H7 H8 H9] Hb.
  destruct (zget_is_Some (ts_data (type_stack o)) (ts_sp (type_stack o) - 1)) as [t Ht]; [lia|].
  exists t. split; [done|]. rewrite zget_nat in Ht by lia.
  assert (E : take (Z.to_nat (ts_sp (type_stack o))) (ts_data (type_stack o)) =
              take (Z.to_nat (ts_sp (type_stack o) - 1)) (ts_data (type_stack o)) ++ [t]).
  { rewrite <- (take_S_r _ _ t) by done. f_equal. lia. }
  split.
  - rewrite E, Forall_app, Forall_singleton in H4. apply H4.
  - unfold above, pop_ops. simpl. rewrite E, drop_app_le, reverse_snoc; [done|].
    unfold zlen in *. rewrite length_take. lia.
Qed.

Lemma above_push b t o : ops_ok m G b o -> 0 <= b -> current_stack_depth o < WAH_MAX_TYPE_STACK_SIZE ->
  above b (push_ops t o) = t :: above b o.
Proof.
  intros [[H1 H2 H3 H4 H5] H7 H8 H9] Hb Hd. unfold above, push_ops. simpl.
  replace (Z.to_nat (ts_sp (type_stack o) + 1)) with (S (Z.to_nat (ts_sp (type_stack o)))) by lia.
  unfold zlen in *.
  rewrite (take_S_r _ _ t) by (rewrite list_lookup_insert_eq; [done|lia]).
  rewrite take_insert_ge by lia. rewrite drop_app_le by (rewrite length_take; lia). by rewrite reverse_snoc.
Qed.

Lemma above_base b o : ops_ok m G b o -> 0 <= b -> current_stack_depth o <= b -> above b o = [].
Proof.
  intros Ho Hb Hd. pose proof (above_length b o Ho Hb) as Hl. destruct Ho as [_ _ H3 _].
  unfold zlen in Hl. destruct (above b o); [done|]. simpl in Hl. lia.
Qed.

Lemma push_operand_run b t o : ops_ok m G b o -> operand_ok m t ->
  push_operand t o =
    (if current_stack_depth o <? WAH_MAX_TYPE_STACK_SIZE then (Ok tt, push_ops t o)
     else (Err WAH_ERROR_TOO_LARGE, o)).
Proof.
  intros [[H1 H2 H3 H4 H5] H7 H8 H9] Ht. unfold push_operand, stm_bind, on_stack, wah_type_stack_push.
  rewrite <- H7. destruct (Z.ltb_spec (current_stack_depth o) WAH_MAX_TYPE_STACK_SIZE) as [Hd|Hd].
  - rewrite zset_Some by lia. unfold modify, bump_max, set_depth, push_ops. simpl. rewrite <- H7.
    rewrite !u32_small by mlia. f_equal. f_equal.
    destruct (Z.ltb_spec (max_stack_depth o) (current_stack_depth o + 1)); lia.
  - destruct o as [[] ? ?]. done.
Qed.

Lemma pop_operand_run b o : ops_ok m G b o -> 0 <= b < current_stack_depth o ->
  exists t, above b o = t :: above b (pop_ops o) /\ operand_ok m t /\ pop_operand o = (Ok t, pop_ops o).
Proof.
  intros Ho Hb. destruct (above_top b o Ho Hb) as (t & Ht & Hok & E). exists t. split_and!; [done..|].
  destruct Ho as [[H1 H2 H3 H4 H5] H7 H8 H9].
  unfold pop_operand, stm_bind, on_stack, wah_type_stack_pop. destruct (Z.ltb_spec 0 (ts_sp (type_stack o))); [|lia].
  rewrite Ht. unfold modify, set_depth, pop_ops, stm_ret. simpl.
  rewrite u32_small by mlia. f_equal. f_equal. f_equal.
  destruct (Z.ltb_spec (ts_sp (type_stack o) - 1) (ts_lwm (type_stack o))); lia.
Qed.
End Ops.

(** *** The rules *)

Section Rules.
Context (E : wah_validation_env) (EO : env_ok E) (B : list Z) (G : wah_type_stack_t) (op : bool).
Notation M := (v_module E).
Notation TM := (env_types M).
Notation INV := (inv E B G op).

Lemma types_ok : types_wf TM.
Proof. apply mo_types, EO. Qed.
Hint Resolve types_ok : core.

Lemma inv_base s : INV s -> 0 <= base s <= current_stack_depth (s_ops s).
Proof.
  intros [_ H1 H2 _ _ _ _]. split; [|apply H1]. unfold base. by eapply ctl_base_nonneg.
Qed.

Lemma inv_depth s : INV s -> 0 <= current_stack_depth (s_ops s) <= WAH_MAX_TYPE_STACK_SIZE.
Proof. intros [_ [[H1 H2 H3 H4 H5] H7 H8 H9] _ _ _ _ _]. lia. Qed.

Lemma inv_set_dec s d : INV s -> decoder_bytes d -> cursor d `suffix_of` cursor (s_dec s) -> INV (set_dec d s).
Proof. intros [[H0 H0'] H1 H2 H3 H4 H5 H6] Hb Hs. split; try done. split; [done|]. simpl. by etrans. Qed.
Lemma inv_set_ans s a : INV s -> INV (set_ans a s).
Proof. by intros []; split. Qed.
Lemma inv_set_ops s o : INV s -> ops_ok TM G (base s) o -> INV (set_ops o s).
Proof. by intros [] ?; split. Qed.
Lemma inv_set_unreachable s b : INV s -> INV (set_unreachable b s).
Proof. intros [H0 H1 H2 H3 H4 H5 H6]; split; try done. by destruct H2. Qed.
Lemma inv_set_labels s l : INV s -> labels_ok l -> INV (set_labels (Some l) s).
Proof. by intros [] ?; split. Qed.
Lemma inv_set_notes s n : INV s -> notes_ok M n -> INV (set_notes n s).
Proof. by intros [] ?; split. Qed.
Lemma inv_set_code s c : INV s -> code_ok c -> INV (set_code c s).
Proof. by intros [] ?; split. Qed.

Lemma set_ops_same s : set_ops (s_ops s) s = s.
Proof. by destruct s. Qed.

(** Decoders, the allocator and features. *)
Lemma wp_with_dec {A} (d : comp decoder A) V Q s : dec_good d V -> INV s ->
  (forall v d', V v -> INV (set_dec d' s) -> cursor d' `suffix_of` cursor (s_dec s) -> Q v (set_dec d' s)) ->
  wp (with_dec d) Q s.
Proof.
  intros Hd Hi HQ. pose proof Hi as [[H0 _] _ _ _ _ _ _]. specialize (Hd _ H0). unfold wp, with_dec in *.
  destruct (d (s_dec s)) as [[v|e|] d']; [|done..]. destruct Hd as (H1 & H2 & H3).
  apply HQ; [done| |done]. by apply inv_set_dec.
Qed.
Lemma wp_with_cur {A} (d : comp (list Z) A) V Q s : cur_good d V -> INV s ->
  (forall v d', V v -> INV (set_dec d' s) -> cursor d' `suffix_of` cursor (s_dec s) -> Q v (set_dec d' s)) ->
  wp (with_cur d) Q s.
Proof. intros. eapply wp_with_dec; [by apply on_cursor_good|done..]. Qed.

Lemma wp_malloc n k Q s : (forall a, Q tt (set_ans a s)) -> wp (with_ans (wah_malloc_c n k)) Q s.
Proof.
  intros HQ. unfold wp, with_ans, wah_malloc_c. repeat case_match; simplify_eq; try done.
  all: unfold stm_ret, stm_err in *; simplify_eq; try apply HQ; try done.
  all: destruct (alloc_answer_cases (s_ans s)) as [[a' Ha]|[a' Ha]]; rewrite Ha in *; simplify_eq; try apply HQ; done.
Qed.

(** Operands. *)
Lemma base_run s : INV s -> wah_validation_block_base_height s = (Ok (base s), s).
Proof.
  intros [_ _ [H1 H2 H3] _ _ _ _]. unfold wah_validation_block_base_height, stm_bind, stm_get, base.
  destruct (Z.eqb_spec (control_sp (s_ctl s)) 0) as [E0|E0].
  - unfold frames. by rewrite E0.
  - destruct (frames_lookup (s_ctl s) 0) as (f & Hf & Hn); [done|lia|lia|].
    unfold frame_at, stm_bind, stm_get, stm_opt, stm_ret. replace (control_sp (s_ctl s) - 1) with (control_sp (s_ctl s) - 1 - 0) by lia.
    rewrite Hf. destruct (frames (s_ctl s)); [done|]. by injection Hn as ->.
Qed.

Lemma wp_base Q s : INV s -> Q (base s) s -> wp wah_validation_block_base_height Q s.
Proof. intros Hi HQ. unfold wp. by rewrite base_run. Qed.

Lemma operands_above s : operands s = above (base s) (s_ops s).
Proof. done. Qed.

Lemma type_match_run {S} t e (s : S) : operand_ok TM t -> type_valid TM e ->
  exists b : bool, (b = true <-> matches TM t e) /\
    wah_validate_type_match E t e s = (if b then Ok tt else Err WAH_ERROR_VALIDATION_FAILED, s).
Proof.
  intros Ht He. unfold wah_validate_type_match, matches. destruct (Z.eqb_spec t WAH_TYPE_BOT) as [->|Hne].
  { exists true. split; [|done]. split; [by left|done]. }
  pose proof (operand_non_null _ _ Ht Hne) as Vt.
  destruct (wah_type_is_subtype_correct TM types_ok (WAH_TYPE_AS_NON_NULL t) (WAH_TYPE_AS_NON_NULL e)) as (r & Hr & Hspec);
    [left; by apply type_valid_non_null..|].
  exists (r && (WAH_TYPE_IS_NULLABLE e || negb (WAH_TYPE_IS_NULLABLE t))). split.
  - rewrite (type_sub_non_null TM t e Vt He), <- Hspec, andb_true_iff, orb_true_iff, negb_true_iff.
    destruct (WAH_TYPE_IS_NULLABLE e), (WAH_TYPE_IS_NULLABLE t); naive_solver.
  - unfold stm_bind, is_subtype, stm_opt. rewrite Hr. unfold stm_ensure, stm_ret, stm_err.
    by destruct r, (WAH_TYPE_IS_NULLABLE e), (WAH_TYPE_IS_NULLABLE t).
Qed.

Lemma wp_type_match {S} t e (Q : unit -> S -> Prop) s : operand_ok TM t -> type_valid TM e ->
  (matches TM t e -> Q tt s) -> wp (wah_validate_type_match E t e) Q s.
Proof.
  intros Ht He HQ. destruct (type_match_run t e s Ht He) as (b & Hb & Hrun). unfold wp. rewrite Hrun.
  destruct b; [by apply HQ, Hb|done].
Qed.

(** The operand popped by an instruction: the top one, or an unknown one. *)
Definition popped (s : vstate) (t : wah_type_t) (s' : vstate) : Prop :=
  operands s = t :: operands s' \/
  (operands s = [] /\ operands s' = [] /\ t = WAH_TYPE_BOT /\ is_unreachable (s_ctl s) = true).

Lemma pop_type_cases s : INV s ->
  (operands s = [] /\
   wah_validation_pop_type s =
     (if is_unreachable (s_ctl s) then Ok WAH_TYPE_BOT else Err WAH_ERROR_VALIDATION_FAILED, s)) \/
  (exists t, operands s = t :: operands (set_ops (pop_ops (s_ops s)) s) /\ operand_ok TM t /\
     INV (set_ops (pop_ops (s_ops s)) s) /\
     wah_validation_pop_type s = (Ok t, set_ops (pop_ops (s_ops s)) s)).
Proof.
  intros Hi. pose proof (inv_base s Hi) as Hb. pose proof Hi as [_ Ho _ _ _ _ _].
  unfold wah_validation_pop_type. rewrite (stm_bind_run _ _ _ _ _ (base_run s Hi)), stm_bind_get.
  destruct (Z.leb_spec (current_stack_depth (s_ops s)) (base s)) as [Hd|Hd].
  - left. split; [apply (above_base TM G); [done|lia|done]|].
    unfold stm_ensure, stm_ret, stm_err. by destruct (is_unreachable (s_ctl s)).
  - right. destruct (pop_operand_run TM G (base s) (s_ops s) Ho) as (t & Ht & Hok & Hrun); [lia|].
    exists t. split_and!; [exact Ht|done| |].
    + apply inv_set_ops; [done|]. rewrite (pop_ops_cut TM G (base s)) by done. apply cut_ops_ok; [done|lia|lia].
    + unfold with_ops. by rewrite Hrun.
Qed.

Lemma wp_pop_into Q s : INV s ->
  (forall t o, operand_ok TM t -> INV (set_ops o s) -> popped s t (set_ops o s) ->
     current_stack_depth o <= current_stack_depth (s_ops s) -> Q t (set_ops o s)) ->
  wp wah_validation_pop_type Q s.
Proof.
  intros Hi HQ. unfold wp. destruct (pop_type_cases s Hi) as [[Hemp ->]|(t & Ht & Hok & Hi' & ->)].
  - destruct (is_unreachable (s_ctl s)) eqn:Hu; [|done]. specialize (HQ WAH_TYPE_BOT (s_ops s)).
    rewrite set_ops_same in HQ. apply HQ; [by right|done| |lia]. right. done.
  - apply HQ; [done|done|by left|]. simpl. lia.
Qed.

Lemma popped_at_bottom t s o : popped s t (set_ops o s) -> INV s -> current_stack_depth (s_ops s) = 0 ->
  is_unreachable (s_ctl s) = false -> False.
Proof.
  intros [H|(_ & _ & _ & H)] Hi Hd Hu; [|by rewrite H in Hu]. revert H. unfold operands.
  pose proof (inv_base s Hi). pose proof (i_ops _ _ _ _ _ Hi) as [[_ Hsp _ _ _] Hd' Hb _].
  rewrite drop_ge; [done|]. rewrite length_take. lia.
Qed.

Lemma popped_pop1 s t s' e : popped s t s' -> matches TM t e -> pop1 TM (is_unreachable (s_ctl s)) (operands s) e (operands s').
Proof. intros [H|(H1 & H2 & -> & H3)] Hm; [left|right]; [by exists t|done]. Qed.

Lemma wp_pop e Q s : INV s -> type_valid TM e ->
  (forall o, INV (set_ops o s) ->
     pop1 TM (is_unreachable (s_ctl s)) (operands s) e (operands (set_ops o s)) ->
     current_stack_depth o <= current_stack_depth (s_ops s) -> Q tt (set_ops o s)) ->
  wp (wah_validation_pop_and_match_type E e) Q s.
Proof.
  intros Hi He HQ. unfold wah_validation_pop_and_match_type. apply wp_bind. apply wp_pop_into; [done|].
  intros t o Ht Hi' Hp Hd. apply wp_type_match; [done|done|]. intros Hm. apply HQ; [done| |done].
  by eapply popped_pop1.
Qed.

Lemma wp_push t Q s : INV s -> operand_ok TM t ->
  (forall o, INV (set_ops o s) -> operands (set_ops o s) = t :: operands s ->
     current_stack_depth o = current_stack_depth (s_ops s) + 1 -> Q tt (set_ops o s)) ->
  wp (wah_validation_push_type t) Q s.
Proof.
  intros Hi Ht HQ. pose proof Hi as [_ Ho _ _ _ _ _]. pose proof (inv_base s Hi) as Hb.
  unfold wp, wah_validation_push_type, with_ops. rewrite (push_operand_run TM G (base s)) by done.
  destruct (Z.ltb_spec (current_stack_depth (s_ops s)) WAH_MAX_TYPE_STACK_SIZE) as [Hd|]; [|done].
  apply HQ; [| |done].
  - apply inv_set_ops; [done|]. by apply push_ops_ok.
  - apply (above_push TM G (base s)); [done|lia|done].
Qed.

(** Sequences of operands. *)
Lemma is_unreachable_set_ops o s : is_unreachable (s_ctl (set_ops o s)) = is_unreachable (s_ctl s).
Proof. done. Qed.

Lemma wp_pop_all es Q s : INV s -> Forall (type_valid TM) es ->
  (forall o, INV (set_ops o s) ->
     popn TM (is_unreachable (s_ctl s)) (operands s) es (operands (set_ops o s)) ->
     current_stack_depth o <= current_stack_depth (s_ops s) -> Q tt (set_ops o s)) ->
  wp (pop_all E es) Q s.
Proof.
  revert s. induction es as [|e es IH]; intros s Hi He HQ; cbn [pop_all].
  - apply wp_ret. rewrite <- (set_ops_same s). apply HQ; rewrite ?set_ops_same; [done|done|lia].
  - apply Forall_cons in He as [He Hes]. apply wp_bind. apply wp_pop; [done|done|].
    intros o Hi1 Hp Hd. apply IH; [done|done|]. intros o' Hi2 Hp' Hd'.
    apply (HQ o'); [done|by eexists|simpl in *; lia].
Qed.

Lemma wp_pop_types ts Q s : INV s -> Forall (type_valid TM) ts ->
  (forall o, INV (set_ops o s) ->
     popn TM (is_unreachable (s_ctl s)) (operands s) (reverse ts) (operands (set_ops o s)) ->
     current_stack_depth o <= current_stack_depth (s_ops s) -> Q tt (set_ops o s)) ->
  wp (pop_types E ts) Q s.
Proof. intros. apply wp_pop_all; [done|by apply Forall_reverse|done]. Qed.

Lemma wp_push_types ts Q s : INV s -> Forall (operand_ok TM) ts ->
  (forall o, INV (set_ops o s) -> operands (set_ops o s) = reverse ts ++ operands s ->
     current_stack_depth o = current_stack_depth (s_ops s) + zlen ts -> Q tt (set_ops o s)) ->
  wp (push_types ts) Q s.
Proof.
  revert s. induction ts as [|t ts IH]; intros s Hi Ht HQ; cbn [push_types].
  - apply wp_ret. rewrite <- (set_ops_same s). apply HQ; rewrite ?set_ops_same; [done|done|unfold zlen; simpl; lia].
  - apply Forall_cons in Ht as [Ht Hts]. apply wp_bind. apply wp_push; [done|done|].
    intros o Hi1 Hp Hd. apply IH; [done|done|]. intros o' Hi2 Hp' Hd'.
    apply (HQ o'); [done| |].
    + change (set_ops o' (set_ops o s)) with (set_ops o' s) in Hp'. rewrite Hp', Hp, reverse_cons, <- (assoc_L (++)). done.
    + simpl in Hd'. unfold zlen in *. simpl. lia.
Qed.

Lemma valid_operands ts : Forall (type_valid TM) ts -> Forall (operand_ok TM) ts.
Proof. intros H. eapply Forall_impl; [exact H|]. by left. Qed.

Lemma wp_push_valid ts Q s : INV s -> Forall (type_valid TM) ts ->
  (forall o, INV (set_ops o s) -> operands (set_ops o s) = reverse ts ++ operands s ->
     current_stack_depth o = current_stack_depth (s_ops s) + zlen ts -> Q tt (set_ops o s)) ->
  wp (push_types ts) Q s.
Proof. intros. apply wp_push_types; [done|by apply valid_operands|done]. Qed.

Lemma wp_pop_field t Q s : INV s -> type_valid TM t ->
  (forall o, INV (set_ops o s) ->
     pop1 TM (is_unreachable (s_ctl s)) (operands s) (unpacked t) (operands (set_ops o s)) ->
     current_stack_depth o <= current_stack_depth (s_ops s) -> Q tt (set_ops o s)) ->
  wp (wah_validation_pop_field_value E t) Q s.
Proof.
  intros Hi Ht HQ. apply wp_pop; [done| |done]. case_match; [|done]. left. set_solver.
Qed.

Lemma wp_pop_fields ts Q s : INV s -> Forall (type_valid TM) ts ->
  (forall o, INV (set_ops o s) ->
     popn TM (is_unreachable (s_ctl s)) (operands s) (unpacked <$> ts) (operands (set_ops o s)) ->
     current_stack_depth o <= current_stack_depth (s_ops s) -> Q tt (set_ops o s)) ->
  wp (pop_fields E ts) Q s.
Proof.
  revert s. induction ts as [|t ts IH]; intros s Hi Ht HQ; cbn [pop_fields].
  - apply wp_ret. rewrite <- (set_ops_same s). apply HQ; rewrite ?set_ops_same; [done|done|lia].
  - apply Forall_cons in Ht as [Ht Hts]. apply wp_bind. apply wp_pop_field; [done|done|].
    intros o Hi1 Hp Hd. apply IH; [done|done|]. intros o' Hi2 Hp' Hd'.
    apply (HQ o'); [done|by eexists|simpl in *; lia].
Qed.

Lemma wp_match_types {S} n ts es (Q : unit -> S -> Prop) s : (n <= length ts)%nat -> (n <= length es)%nat ->
  Forall (operand_ok TM) ts -> Forall (type_valid TM) es ->
  (Forall2 (matches TM) (take n ts) (take n es) -> Q tt s) -> wp (match_types E n ts es) Q s.
Proof.
  revert ts es. induction n as [|n IH]; intros ts es H1 H2 Ht He HQ; cbn [match_types].
  - apply wp_ret. apply HQ. constructor.
  - destruct ts as [|t ts], es as [|e es]; simpl in *; [lia..|].
    apply Forall_cons in Ht as [Ht Hts]. apply Forall_cons in He as [He Hes]. apply wp_bind.
    apply wp_type_match; [done|done|]. intros Hm. apply IH; [lia|lia|done|done|]. intros Hf. apply HQ. by constructor.
Qed.

(** Unreachable code. *)
Lemma wp_mark_unreachable Q s : INV s ->
  (forall o, INV (set_unreachable true (set_ops o s)) -> operands (set_ops o s) = [] ->
     current_stack_depth o = base s -> Q tt (set_unreachable true (set_ops o s))) ->
  wp wah_validation_mark_unreachable Q s.
Proof.
  intros Hi HQ. pose proof (inv_base s Hi) as Hb. pose proof Hi as [_ Ho _ _ _ _ _].
  unfold wp, wah_validation_mark_unreachable. rewrite (stm_bind_run _ _ _ _ _ (base_run s Hi)).
  unfold stm_bind, modify. destruct (Z.ltb_spec (base s) (current_stack_depth (s_ops s))) as [Hd|Hd].
  - set (o := Operands _ _ _). assert (o = cut_ops (base s) (s_ops s)) as ->.
    { unfold o, cut_ops, wah_type_stack_truncate. destruct Ho as [[S1 S2 S3 S4 S5] O1 O2 O3].
      replace (ts_sp (type_stack (s_ops s)) - (current_stack_depth (s_ops s) - base s)) with (base s) by lia.
      rewrite u32_small by mlia. f_equal. f_equal. destruct (Z.ltb_spec (base s) (ts_lwm (type_stack (s_ops s)))); lia. }
    assert (Hc : ops_ok TM G (base s) (cut_ops (base s) (s_ops s))) by (apply cut_ops_ok; [done|lia|lia]).
    apply HQ; [by apply inv_set_unreachable, inv_set_ops| |done].
    apply (above_base TM G (base s)); [done|lia|simpl; lia].
  - specialize (HQ (s_ops s)). rewrite set_ops_same in HQ. apply HQ; [by apply inv_set_unreachable| |lia].
    apply (above_base TM G (base s)); [done|lia|lia].
Qed.

Lemma wp_at_base Q s : INV s ->
  Q (is_unreachable (s_ctl s) && (current_stack_depth (s_ops s) <=? base s)) s ->
  wp wah_validation_at_unreachable_base Q s.
Proof.
  intros Hi HQ. unfold wah_validation_at_unreachable_base. apply wp_bind, wp_get.
  destruct (is_unreachable (s_ctl s)); [|done]. simpl. apply wp_bind, wp_base; [done|]. by apply wp_ret.
Qed.

(** Emission. *)
Definition room (s : vstate) : Prop := zlen (instrs (s_code s)) < UINT32_MAX.

Lemma wp_grow_array n k c a (Q : Z -> answers -> Prop) : 0 <= c <= UINT32_MAX -> 0 <= n ->
  (forall c' a', n <= c' <= UINT32_MAX -> c <= c' -> Q c' a') -> wp (wah_grow_array n k c) Q a.
Proof.
  intros Hc Hn HQ. unfold wp, wah_grow_array. destruct (Z.leb_spec n c); [apply HQ; lia|].
  unfold stm_bind at 1, stm_ensure. destruct (Z.leb_spec n UINT32_MAX); [|done]. unfold stm_ret at 1.
  set (c0 := if c =? 0 then 8 else c).
  assert (0 < c0 <= UINT32_MAX /\ c <= c0) as [Hc0 Hcc].
  { unfold c0, UINT32_MAX in *. destruct (Z.eqb_spec c 0); lia. }
  pose proof (grow_loop_spec 34 c0 n Hc0 ltac:(lia)) as HL.
  change (2 ^ Z.of_nat 34) with 17179869184 in HL. specialize (HL ltac:(unfold UINT32_MAX; lia) ltac:(lia)).
  destruct (grow_loop 34 c0 n) as [c'|e|]; [|done|done].
  destruct HL as (Hr & _ & _). unfold stm_bind, wah_malloc_c, stm_ret, stm_err.
  repeat (case_match; simplify_eq); try done; try (apply HQ; lia).
  all: destruct (alloc_answer_cases a) as [[a' Ha]|[a' Ha]]; rewrite Ha in *; simplify_eq; try (apply HQ; lia); done.
Qed.

Lemma inv_room s : INV s -> room s.
Proof.
  intros Hi. destruct (i_code _ _ _ _ _ Hi) as [H1 H2]. apply cap_ok_range in H2. unfold room, UINT32_MAX. lia.
Qed.

Lemma wp_grow_instrs Q s : INV s -> room s ->
  (forall a cap, zlen (instrs (s_code s)) + 1 <= cap /\ cap_ok cap ->
     Q tt (set_code (Instrs (instrs (s_code s)) cap) (set_ans a s))) ->
  wp grow_instrs Q s.
Proof.
  intros Hi Hr HQ. pose proof Hi as [_ _ _ _ _ _ [Hc1 Hc2]]. unfold room, UINT32_MAX in *.
  unfold grow_instrs. apply wp_bind, wp_get, wp_bind.
  assert (0 <= zlen (instrs (s_code s))) by (unfold zlen; lia). rewrite u32_small by lia.
  pose proof (wah_grow_array_cap (zlen (instrs (s_code s)) + 1) sizeof_wah_decoded_instr_t _ (s_ans s) Hc2 ltac:(lia)) as Hg.
  unfold wp, with_ans in *. destruct (wah_grow_array _ _ _ (s_ans s)) as [[c'|e|] a']; [|done|done].
  unfold modify. apply HQ. naive_solver.
Qed.

Lemma wp_emit_exact o imm Q s : INV s -> room s ->
  (forall a cap, let di := DecodedInstr (wah_op_value o) (emit_flags s) 0 imm in
     INV (set_code (Instrs (instrs (s_code s) ++ [di]) cap) (set_ans a s)) ->
     Q tt (set_code (Instrs (instrs (s_code s) ++ [di]) cap) (set_ans a s))) ->
  wp (emit_instr o imm) Q s.
Proof.
  intros Hi Hr HQ. unfold emit_instr. apply wp_bind, wp_grow_instrs; [done|done|]. intros a cap Hcap.
  unfold wp, modify. apply (HQ a cap). apply inv_set_code; [by apply inv_set_ans|].
  destruct Hcap. split; [|done]. unfold zlen in *. simpl. rewrite length_app. simpl. lia.
Qed.

Lemma wp_emit o imm Q s : INV s -> room s ->
  (forall a cap di, fresh_instr o di ->
     INV (set_code (Instrs (instrs (s_code s) ++ [di]) cap) (set_ans a s)) ->
     Q tt (set_code (Instrs (instrs (s_code s) ++ [di]) cap) (set_ans a s))) ->
  wp (emit_instr o imm) Q s.
Proof.
  intros Hi Hr HQ. eapply wp_emit_exact; [done|done|]. intros a cap di Hi'. apply HQ; [|done].
  split; [done|split; [done|]]. cbn [di di_flags]. unfold emit_flags. by destruct (is_unreachable (s_ctl s)).
Qed.

(** Branch targets. *)
Definition label_types (s : vstate) (l : Z) (ts : list wah_type_t) (h : Z) : Prop :=
  if l =? control_sp (s_ctl s) then
    exists ft, v_func_type E = Some ft /\ ts = result_types ft /\ h = 0
  else exists f, frames (s_ctl s) !! Z.to_nat l = Some f /\ h = fr_stack_height f /\
    ts = match fr_opcode f with
         | WAH_OP_LOOP => bt_param_types (fr_block_type f)
         | _ => bt_result_types (fr_block_type f)
         end.

Lemma wp_resolve l Q s : INV s -> v_mode E = WAH_ANALYZE_FUNC_BODY -> 0 <= l <= control_sp (s_ctl s) ->
  (forall ts h, label_types s l ts h -> Forall (type_valid TM) ts -> zlen ts <= WAH_MAX_TYPE_STACK_SIZE ->
     0 <= h <= base s -> Q (ts, h) s) ->
  wp (wah_validation_resolve_br_target E l) Q s.
Proof.
  intros Hi Hm Hl HQ. pose proof Hi as [_ _ [H1 H2 H3] _ _ _ _]. pose proof (inv_base s Hi).
  unfold wah_validation_resolve_br_target. apply wp_bind, wp_get. unfold label_types in HQ.
  destruct (Z.eqb_spec l (control_sp (s_ctl s))) as [->|Hne].
  - destruct (eo_body E EO Hm) as (ft & body & Hft & Hok & _).
    apply wp_bind. unfold the_func_type. eapply wp_opt; [done|]. apply wp_ret.
    apply HQ; [by exists ft|apply Hok|apply Hok|lia].
  - destruct (frames_lookup (s_ctl s) l H1 ltac:(lia) ltac:(lia)) as (f & Hf & Hn).
    apply wp_bind. unfold frame_at. apply wp_bind, wp_get. eapply wp_opt; [done|]. apply wp_ret.
    destruct (ctl_nth _ _ _ _ _ _ (i_ctl _ _ _ _ _ Hi) Hn) as (Hb & Hh).
    apply HQ; [by exists f|destruct (fr_opcode f); apply Hb|destruct (fr_opcode f); apply Hb|exact Hh].
Qed.

(** Control frames. *)
Lemma wp_frame_at i f Q s : zget (control_stack (s_ctl s)) i = Some f -> Q f s -> wp (frame_at i) Q s.
Proof. intros Hf HQ. unfold frame_at. apply wp_bind, wp_get. by eapply wp_opt. Qed.

Lemma wp_put_frame i f Q s : zlen (control_stack (s_ctl s)) = WAH_MAX_CONTROL_DEPTH -> 0 <= i < WAH_MAX_CONTROL_DEPTH ->
  (forall l, zset (control_stack (s_ctl s)) i f = Some l -> zlen l = WAH_MAX_CONTROL_DEPTH ->
     Q tt (set_ctl (Control l (control_sp (s_ctl s)) (is_unreachable (s_ctl s))) s)) ->
  wp (put_frame i f) Q s.
Proof.
  intros Hl Hi HQ. unfold put_frame. apply wp_bind, wp_get.
  destruct (zset_is_Some (control_stack (s_ctl s)) i f) as [l Hs]; [lia|].
  apply wp_bind. eapply wp_opt; [done|]. apply wp_put. apply HQ; [done|].
  by rewrite (zset_length _ _ _ _ Hs).
Qed.

Lemma ops_ok_base b b' o : ops_ok TM G b o -> b' <= current_stack_depth o -> ops_ok TM G b' o.
Proof. intros [H1 H2 H3 H4] Hb. by split. Qed.

(** Control frames in use: the innermost one is the top of the array. *)
Lemma inv_top s : INV s -> 0 < control_sp (s_ctl s) ->
  exists f fs, zget (control_stack (s_ctl s)) (control_sp (s_ctl s) - 1) = Some f /\
    frames (s_ctl s) = f :: fs /\
    frames (Control (control_stack (s_ctl s)) (control_sp (s_ctl s) - 1) (is_unreachable (s_ctl s))) = fs.
Proof.
  intros Hi H0. destruct (i_ctl _ _ _ _ _ Hi) as [H1 H2 H3].
  destruct (zget_is_Some (control_stack (s_ctl s)) (control_sp (s_ctl s) - 1)) as [f Hf]; [lia|].
  exists f, (frames (Control (control_stack (s_ctl s)) (control_sp (s_ctl s) - 1) (is_unreachable (s_ctl s)))).
  split_and!; [done| |done]. by apply frames_top.
Qed.

(** Initialisation of locals. *)
Lemma undo_len_nonneg s : 0 <= undo_len s.
Proof. unfold undo_len, zlen. destruct (s_inits s); lia. Qed.

Lemma inv_set_inits s li : INV s -> inits_ok (v_total_locals E) li -> undo_len s <= zlen (li_undo li) ->
  INV (set_inits (Some li) s).
Proof. intros [] Hl Hu. split; try done. by eapply ctl_ok_mono. Qed.

Lemma inits_add tl li i cap : inits_ok tl li -> 0 <= i < zlen (li_inits li) ->
  zget (li_inits li) i = Some 0 -> zlen (li_undo li) + 1 <= cap <= UINT32_MAX ->
  exists l, zset (li_inits li) i 1 = Some l /\ inits_ok tl (LocalInits l (li_undo li ++ [i]) cap).
Proof.
  intros [H1 H2 H3 H4 H5 H6] Hi H0 Hc. destruct (zset_is_Some (li_inits li) i 1 Hi) as [l Hl].
  exists l. split; [done|]. pose proof (zset_length _ _ _ _ Hl) as El.
  assert (Hni : i ∉ li_undo li).
  { rewrite H5 in H0 by done. by destruct (decide (i ∈ li_undo li)). }
  split; simpl; rewrite ?El; [done|done| | | |].
  - apply Forall_app. split; [done|by constructor].
  - apply NoDup_app. split; [done|]. split; [|apply NoDup_singleton]. intros x Hx Hx'.
    apply list_elem_of_singleton in Hx'. by subst.
  - intros j Hj. rewrite (zset_lookup _ _ _ _ j Hl), H5 by done.
    destruct (Z.eqb_spec j i) as [->|Hne].
    + rewrite decide_True; [done|]. apply elem_of_app. right. by apply list_elem_of_singleton.
    + f_equal. apply decide_ext. rewrite elem_of_app, list_elem_of_singleton. naive_solver.
  - unfold zlen in *. rewrite length_app. simpl. lia.
Qed.

Lemma wp_init_local i t Q s : INV s -> 0 <= i < v_total_locals E ->
  (INV s -> wah_validation_local_needs_init E s i t = false -> Q tt s) ->
  (forall li, s_inits s = Some li -> i ∈ li_undo li -> Q tt s) ->
  (forall li l cap a, s_inits s = Some li -> i ∉ li_undo li ->
     INV (set_inits (Some (LocalInits l (li_undo li ++ [i]) cap)) (set_ans a s)) ->
     Q tt (set_inits (Some (LocalInits l (li_undo li ++ [i]) cap)) (set_ans a s))) ->
  wp (wah_validation_init_local E i t) Q s.
Proof.
  intros Hi Hr Q1 Q2 Q3. unfold wah_validation_init_local. apply wp_bind, wp_get.
  destruct (wah_validation_local_needs_init E s i t) eqn:En; simpl; [|apply wp_ret; by apply Q1].
  destruct (s_inits s) as [li|] eqn:Eli; [|by unfold wah_validation_local_needs_init in En; rewrite Eli in En].
  pose proof (i_inits _ _ _ _ _ Hi) as Hin. rewrite Eli in Hin. pose proof Hin as [H1 H2 H3 H4 H5 H6].
  apply wp_bind. eapply wp_opt; [done|]. apply wp_bind. eapply wp_opt; [by apply H5; lia|].
  destruct (decide (i ∈ li_undo li)) as [Hin'|Hni]; simpl; [apply wp_ret; by eapply Q2|].
  apply wp_bind.
  pose proof (wp_grow_array (zlen (li_undo li) + 1) 4 (li_undo_cap li) (s_ans s)
    (fun c' _ => zlen (li_undo li) + 1 <= c' <= UINT32_MAX)) as Hg.
  assert (0 <= zlen (li_undo li)) by (unfold zlen; lia).
  specialize (Hg ltac:(lia) ltac:(lia) ltac:(done)). unfold wp at 1, with_ans. unfold wp in Hg.
  destruct (wah_grow_array _ _ _ (s_ans s)) as [[c'|e|] a]; [|done|done].
  destruct (inits_add (v_total_locals E) li i c') as (l & Hl & Hok); [done|lia| |done|].
  { rewrite H5 by lia. by rewrite decide_False. }
  apply wp_bind. eapply wp_opt; [done|]. unfold wp, modify. apply Q3; [done|done|].
  apply inv_set_inits; [by apply inv_set_ans|done|]. unfold undo_len. simpl. rewrite Eli. unfold zlen.
  rewrite length_app. lia.
Qed.

Lemma revert_loop_spec tl fuel li u : inits_ok tl li -> 0 <= u <= zlen (li_undo li) ->
  (length (li_undo li) < fuel)%nat ->
  exists li', revert_loop fuel li u = Some li' /\ inits_ok tl li' /\
    li_undo li' = take (Z.to_nat u) (li_undo li) /\ zlen (li_inits li') = zlen (li_inits li).
Proof.
  revert li. induction fuel as [|fuel IH]; intros li Hok Hu Hf; [lia|]. cbn [revert_loop].
  unfold zlen in Hu. destruct (Z.ltb_spec u (zlen (li_undo li))) as [Hlt|Hge]; unfold zlen in *.
  - destruct Hok as [H1 H2 H3 H4 H5 H6].
    destruct (li_undo li) as [|i us _] eqn:Eu using rev_ind; [simpl in *; lia|].
    rewrite last_snoc. simpl. rewrite length_app in *. simpl in *.
    rewrite take_app_le, take_ge by lia.
    apply Forall_app in H3 as [H3 Hi]. apply Forall_cons in Hi as [Hi _]. apply NoDup_app in H4 as (N1 & N2 & _).
    destruct (zset_is_Some (li_inits li) i 0 Hi) as [l Hl]. rewrite Hl. simpl.
    pose proof (zset_length _ _ _ _ Hl) as El. unfold zlen in El.
    assert (Hni : i ∉ us) by (intros ?; eapply N2; [done|by apply list_elem_of_singleton]).
    destruct (IH (LocalInits l us (li_undo_cap li))) as (li' & Hr & Hok' & Hu' & Hz); simpl; [|lia|lia|].
    + unfold zlen in *. rewrite length_app in H6. simpl in H6.
      split; simpl; unfold zlen; rewrite ?El; [done|done|done|done| |lia].
      intros j Hj. rewrite (zset_lookup _ _ _ _ j Hl), H5 by done.
      destruct (Z.eqb_spec j i) as [->|Hne]; [by rewrite decide_False|].
      f_equal. apply decide_ext. rewrite elem_of_app, list_elem_of_singleton. naive_solver.
    + simpl in Hu', Hz. exists li'. split_and!; [done|done| |lia]. rewrite Hu'. by rewrite take_app_le by lia.
  - exists li. split_and!; [done|done| |done]. rewrite take_ge; [done|lia].
Qed.

Lemma set_inits_same s : set_inits (s_inits s) s = s.
Proof. by destruct s. Qed.

(** The end of a frame, also when its [else_found] has just been set. *)
Lemma wp_finish_frame f f0 fs Q s : op = false -> INV s -> frames (s_ctl s) = f0 :: fs ->
  fr_block_type f = fr_block_type f0 -> fr_stack_height f = fr_stack_height f0 ->
  fr_type_stack_sp f = fr_type_stack_sp f0 -> fr_local_init_undo_base f = fr_local_init_undo_base f0 ->
  (forall o i, INV (set_inits i (set_ops o s)) ->
     popn TM (is_unreachable (s_ctl s)) (operands s) (reverse (bt_result_types (fr_block_type f))) [] ->
     operands (set_ops o s) = [] -> current_stack_depth o = fr_stack_height f ->
     undo_len (set_inits i s) = fr_local_init_undo_base f ->
     Q tt (set_inits i (set_ops o s))) ->
  wp (finish_frame E f) Q s.
Proof.
  intros Hop Hi Hf E1 E2 E3 E4 HQ. pose proof (i_ctl _ _ _ _ _ Hi) as [C1 C2 C3]. rewrite Hop, Hf in C3.
  destruct C3 as (Hbt & Hsp & Hh & Hu & Hrest).
  assert (Hbase : base s = fr_stack_height f0) by (unfold base; by rewrite Hf).
  pose proof (inv_base s Hi) as Hbs. unfold finish_frame. apply wp_bind, wp_pop_types; [done|rewrite E1; apply Hbt|].
  intros o Hi1 Hp Hd. apply wp_bind, wp_get, wp_bind, wp_ensure. intros Heq. apply Z.eqb_eq in Heq. simpl in Heq.
  pose proof (i_ops _ _ _ _ _ Hi1) as Ho. change (base (set_ops o s)) with (base s) in Ho. simpl in Ho.
  pose proof Ho as [[S1 S2 S3 S4 S5] O1 O2 O3].
  assert (Hemp : operands (set_ops o s) = []) by (apply (above_base TM G (base s) o); [done|lia|lia]).
  rewrite Hemp in Hp. apply wp_bind. unfold wp at 1, modify. simpl.
  set (o' := Operands _ _ _).
  assert (o' = cut_ops (base s) o) as Eo'.
  { unfold o', cut_ops, wah_type_stack_truncate. rewrite E3, Hsp, Hbase. f_equal. f_equal.
    destruct (Z.ltb_spec (fr_stack_height f0) (ts_lwm (type_stack o))); lia. }
  assert (Ho' : ops_ok TM G (base s) o') by (rewrite Eo'; apply cut_ops_ok; [done|lia|lia]).
  assert (Hi2 : INV (set_ops o' s)) by by apply inv_set_ops.
  assert (Hd' : current_stack_depth o' = fr_stack_height f) by (rewrite Eo'; simpl; lia).
  assert (Hemp' : operands (set_ops o' s) = []) by (apply (above_base TM G (base s) o'); [done|lia|lia]).
  change (set_ops o' (set_ops o s)) with (set_ops o' s).
  unfold wah_validation_restore_local_inits. apply wp_bind, wp_get. simpl.
  destruct (s_inits s) as [li|] eqn:Eli.
  - pose proof (i_inits _ _ _ _ _ Hi) as Hin. rewrite Eli in Hin. unfold undo_len in Hu. rewrite Eli in Hu.
    destruct (revert_loop_spec (v_total_locals E) (S (length (li_undo li))) li (fr_local_init_undo_base f))
      as (li' & Hr & Hok & Hut & _); [done|lia|lia|].
    apply wp_bind. eapply wp_opt; [exact Hr|]. apply wp_put.
    assert (Hul : zlen (li_undo li') = fr_local_init_undo_base f).
    { rewrite Hut. unfold zlen in *. rewrite length_take. lia. }
    apply (HQ o' (Some li')); [|done|done|done|done].
    destruct Hi2 as [I0 I1 I2 I3 I4 I5 I6]. split; try done.
    destruct I2 as [D1 D2 D3]. split; [done|done|]. rewrite Hop in *. simpl in *. rewrite Hf in *.
    split_and!; [done|done|lia|lia|lia| |done]. unfold undo_len. simpl. lia.
  - apply wp_ret. assert (Es : set_ops o' s = set_inits None (set_ops o' s)) by (unfold set_inits; simpl; by rewrite <- Eli).
    rewrite Es. apply HQ; [by rewrite <- Es|done|done|done|].
    unfold undo_len in *. simpl. rewrite Eli in Hu. lia.
Qed.

Lemma func_type_at ti : 0 <= ti < type_count TM ->
  exists ft, zget (types TM) ti = Some ft /\ func_type_ok TM ft.
Proof.
  intros Hti. pose proof (eo_module E EO) as HM. rewrite <- (mo_count M HM) in Hti.
  destruct (zget_is_Some _ _ Hti) as [ft Hft]. exists ft. split; [done|].
  apply zget_Some in Hft as [_ Hft]. eapply Forall_lookup_1; [apply (mo_func_types M HM)|done].
Qed.

Lemma type_def_at ti : 0 <= ti < type_count TM ->
  exists td, zget (type_defs TM) ti = Some td /\ type_def_ok TM td.
Proof.
  intros Hti. pose proof (eo_module E EO) as HM.
  destruct (zget_is_Some _ _ Hti) as [td Htd]. exists td. split; [done|].
  apply zget_Some in Htd as [_ Htd]. eapply Forall_lookup_1; [apply (mo_type_defs M HM)|done].
Qed.

Lemma space_get {A} (imps defs : list A) P idx : space_ok imps defs P -> 0 <= idx ->
  (idx <? index_limit imps defs) = true -> exists a, index_get imps defs idx = Some a /\ P a.
Proof.
  intros (Hs & H1 & H2) H0 Hi. unfold index_limit in Hi.
  assert (0 <= zlen imps /\ 0 <= zlen defs) by (unfold zlen; lia).
  rewrite u32_small in Hi by lia. unfold index_get. destruct (Z.ltb_spec idx (zlen imps)) as [Hl|Hl].
  - destruct (zget_is_Some imps idx) as [a Ha]; [lia|]. exists a. split; [done|].
    apply zget_Some in Ha as [_ Ha]. exact (Forall_lookup_1 _ _ _ _ H1 Ha).
  - rewrite u32_small by lia. destruct (zget_is_Some defs (idx - zlen imps)) as [a Ha]; [lia|]. exists a. split; [done|].
    apply zget_Some in Ha as [_ Ha]. exact (Forall_lookup_1 _ _ _ _ H2 Ha).
Qed.

Lemma wp_ensure_more Q s : (cursor (s_dec s) <> [] -> Q tt s) -> wp (with_cur ensure_more) Q s.
Proof.
  intros HQ. unfold wp, with_cur, with_dec, on_cursor. destruct s as [[[|b c] f] ? ? ? ? ? ? ?]; simpl in *; [done|].
  by apply HQ.
Qed.
Lemma wp_peek Q s : INV s -> cursor (s_dec s) <> [] -> (forall b, is_byte b -> Q b s) -> wp (with_cur peek_byte) Q s.
Proof.
  intros [[Hb _] _ _ _ _ _ _] Hne HQ. unfold wp, with_cur, with_dec, on_cursor, decoder_bytes in *.
  destruct s as [[[|b c] f] ? ? ? ? ? ? ?]; simpl in *; [done|]. apply Forall_cons in Hb as [Hb _]. by apply HQ.
Qed.
Lemma wp_take Q s : INV s -> cursor (s_dec s) <> [] ->
  (forall b d, is_byte b -> INV (set_dec d s) -> cursor d `suffix_of` cursor (s_dec s) -> Q b (set_dec d s)) ->
  wp (with_cur take_byte) Q s.
Proof.
  intros Hi Hne HQ. pose proof Hi as [[Hb _] _ _ _ _ _ _]. unfold wp, with_cur, with_dec, on_cursor, decoder_bytes in *.
  destruct (cursor (s_dec s)) as [|b c] eqn:Ec; [by destruct Hne|]. simpl. apply Forall_cons in Hb as [Hb Hc].
  assert (Hs : c `suffix_of` cursor (s_dec s)) by (rewrite Ec; apply suffix_tail).
  apply HQ; [done|by apply inv_set_dec|apply suffix_tail].
Qed.

Lemma wp_u32 Q s : INV s ->
  (forall v d, 0 <= v < 2 ^ 32 -> INV (set_dec d s) -> cursor d `suffix_of` cursor (s_dec s) -> Q v (set_dec d s)) ->
  wp (with_cur wah_decode_uleb128) Q s.
Proof. intros Hi HQ. eapply wp_with_cur; [apply decode_u32_good|done|done]. Qed.

Lemma wp_features (f : comp feature_state unit) Q s : dec_good (on_features f) (fun _ => True) -> INV s ->
  (forall d, INV (set_dec d s) -> cursor d `suffix_of` cursor (s_dec s) -> Q tt (set_dec d s)) ->
  wp (with_dec (on_features f)) Q s.
Proof. intros Hf Hi HQ. eapply wp_with_dec; [exact Hf|done|]. intros [] d _. apply HQ. Qed.

Lemma wp_decode_block_type Q s : INV s ->
  (forall bt single idx d, block_type_ok TM bt -> INV (set_dec d s) -> Q (bt, single, idx) (set_dec d s)) ->
  wp (wah_validation_decode_block_type E) Q s.
Proof.
  intros Hi HQ. unfold wah_validation_decode_block_type.
  assert (Hnil : Forall (type_valid TM) []) by constructor.
  assert (H0 : zlen (@nil wah_type_t) <= WAH_MAX_TYPE_STACK_SIZE) by (unfold WAH_MAX_TYPE_STACK_SIZE; done).
  apply wp_bind, wp_ensure_more. intros Hne. apply wp_bind, wp_peek; [done|done|]. intros b Hb.
  apply wp_if; intros Hc1; [|apply wp_if; intros Hc2].
  - apply wp_bind, wp_take; [done|done|]. intros _ d _ Hi1 _. apply wp_ret. apply HQ; [by split|done].
  - apply wp_bind. eapply wp_with_dec; [apply val_type_good|done|]. intros t d Ht Hi1 _.
    apply wp_bind, wp_ensure. intros Hx. pose proof (decoded_type_valid TM t Ht Hx) as Hv.
    apply wp_bind, wp_features; [apply require_type_features_good|done|]. intros d1 Hi2 _.
    apply wp_ret. apply HQ; [|exact Hi2]. split; simpl; [done|by constructor|done|unfold zlen, WAH_MAX_TYPE_STACK_SIZE; simpl; lia].
  - apply wp_bind. eapply wp_with_cur; [apply decode_s32_good|done|]. intros v d Hv Hi1 _.
    apply wp_bind, wp_ensure. intros H1. apply wp_bind, wp_features; [apply require_good|done|]. intros d1 Hi2 _.
    cbv zeta. cbv beta in Hv. rewrite (u32_small v) by lia. apply wp_bind, wp_ensure. intros H2.
    destruct (type_def_at v ltac:(lia)) as (td & Htd & _). apply wp_bind. eapply wp_opt; [done|].
    apply wp_bind, wp_ensure. intros H3.
    destruct (func_type_at v ltac:(lia)) as (ft & Hft & Hok). apply wp_bind. eapply wp_opt; [done|].
    apply wp_ret. apply HQ; [by split; apply Hok|exact Hi2].
Qed.

(** Branches. *)
Lemma wp_ensure_above_floor n Q s : INV s -> Q tt s -> wp (ensure_above_floor n) Q s.
Proof.
  intros Hi HQ. unfold ensure_above_floor. apply wp_bind, wp_get. apply wp_if; intros Hu; [by apply wp_ret|].
  apply wp_bind, wp_base; [done|]. apply wp_ensure. intros _. done.
Qed.

Lemma wp_branch_adjustment h n k Q s : (forall a b, Q (a, b) s) -> wp (branch_adjustment h n k) Q s.
Proof.
  intros HQ. unfold branch_adjustment. apply wp_bind, wp_get. apply wp_if; intros Hu; [by apply wp_ret|].
  apply wp_bind, wp_ensure. intros _. by apply wp_ret.
Qed.

Lemma popn_nil es : popn TM true [] es [].
Proof. induction es as [|e es IH]; simpl; [done|]. exists []. split; [by right|done]. Qed.

Lemma wp_pop_unless_at_base ts Q s : INV s -> Forall (type_valid TM) ts ->
  (forall o, INV (set_ops o s) ->
     popn TM (is_unreachable (s_ctl s)) (operands s) (reverse ts) (operands (set_ops o s)) ->
     current_stack_depth o <= current_stack_depth (s_ops s) -> Q tt (set_ops o s)) ->
  wp (pop_unless_at_base E ts) Q s.
Proof.
  intros Hi Ht HQ. unfold pop_unless_at_base. apply wp_bind, wp_at_base; [done|].
  apply wp_if; intros Hb; [|by apply wp_pop_types].
  apply andb_true_iff in Hb as [Hu Hd]. apply wp_ret. specialize (HQ (s_ops s)). rewrite set_ops_same in HQ.
  apply HQ; [done| |lia]. pose proof (inv_base s Hi).
  assert (operands s = []) as -> by (apply (above_base TM G (base s) (s_ops s)); [apply Hi|lia|lia]).
  rewrite Hu. apply popn_nil.
Qed.

Lemma wp_decode_label Q s : INV s ->
  (forall l d, 0 <= l <= control_sp (s_ctl s) -> INV (set_dec d s) -> Q l (set_dec d s)) ->
  wp decode_label Q s.
Proof.
  intros Hi HQ. unfold decode_label. apply wp_bind, wp_u32; [done|]. intros v d Hv Hi1 _.
  apply wp_bind, wp_get. apply wp_bind, wp_ensure. intros Hl. simpl in Hl. apply wp_ret. apply HQ; [lia|done].
Qed.
End Rules.
