(* ===== verification/ParseIo.v ===== *)
(** * Reading sections

    The state that the section parsers share: the decoder of the section and the answers
    of the allocator; and the rules that follow their code on any bytes. *)

From S2P Require Import Prelude Base Alloc Types Opcodes Bytes Leb128 Decode Subtype ModuleEnv Operands Validate ValidInv ValidRules Locals.
From stdpp Require Import list sets.
#[local] Open Scope Z_scope.
#[local] Open Scope wah_scope.

(** ** Definitions *)

Definition io : Type := decoder * answers.
Notation on_cur m := (on_decoder (on_cursor m)).
Notation require_io f := (on_decoder (on_features (require f))).
Definition malloc_io (count elemsize : Z) : comp io unit := on_answers (wah_malloc_c count elemsize).

(** [for] loops over the elements of [l]. *)
Fixpoint for_each {S A} (l : list A) (f : A -> comp S unit) : comp S unit :=
  match l with
  | [] => stm_ret tt
  | a :: l' => f a ;;; for_each l' f
  end.

(** A byte after a check of the end. *)
Definition read_byte : comp io Z := on_cur ensure_more ;;; on_cur take_byte.

(** The byte that comes next, which is not taken. *)
Definition peek_io : comp io Z := on_cur ensure_more ;;; on_cur peek_byte.

(** *** What the parsers keep

    A parser reads bytes of the section in order and gives values of [V]. *)
Definition io_good {A} (m : comp io A) (V : A -> Prop) : Prop :=
  forall s, decoder_bytes s.1 ->
    wp m (fun v s' => decoder_bytes s'.1 /\ cursor s'.1 `suffix_of` cursor s.1 /\ V v) s.

(** ** Theorems *)

(** Items at the end of arrays. *)
Lemma zget_snoc {A} (l : list A) x i y : zget (l ++ [x]) i = Some y -> (i < zlen l /\ zget l i = Some y) \/ (i = zlen l /\ y = x).
Proof.
  intros [Hi H]%zget_Some. unfold zlen in *. rewrite length_app in Hi. simpl in Hi. apply lookup_app_Some in H as [H|[H1 H2]].
  - left. pose proof (lookup_lt_Some _ _ _ H). split; [lia|]. rewrite zget_nat by lia. done.
  - right. apply list_lookup_singleton_Some in H2 as [H2 ->]. split; [lia|done].
Qed.
Lemma zlen_snoc {A} (l : list A) x : zlen (l ++ [x]) = zlen l + 1.
Proof. unfold zlen. rewrite length_app. simpl. lia. Qed.
Lemma zset_last {A} (l : list A) x y : zset (l ++ [x]) (zlen l) y = Some (l ++ [y]).
Proof.
  unfold zlen. rewrite zset_Some by (unfold zlen; rewrite length_app; simpl; lia). f_equal.
  rewrite Nat2Z.id, insert_app_r_alt, Nat.sub_diag by lia. done.
Qed.
Lemma zget_app_lt {A} (l k : list A) i : i < zlen l -> zget (l ++ k) i = zget l i.
Proof. intros Hi. unfold zget. case_match; [done|]. rewrite lookup_app_l; [done|]. unfold zlen in *. lia. Qed.
Lemma zget_snoc_last {A} (l : list A) x : zget (l ++ [x]) (zlen l) = Some x.
Proof. unfold zlen. rewrite zget_of_nat. by apply list_lookup_middle. Qed.

Lemma io_decoder {A} (m : comp decoder A) V : dec_good m V -> io_good (on_decoder m) V.
Proof. intros H s Hs. apply wp_on_decoder. by apply H. Qed.
Lemma io_answers {A} (m : comp answers A) (V : A -> Prop) : (forall a, wp m (fun v _ => V v) a) -> io_good (on_answers m) V.
Proof. intros H [d a] Hs. specialize (H a). unfold wp, on_answers in *. simpl. by destruct (m a) as [[v|e|] a']. Qed.

Lemma io_bind {A B} (m : comp io A) (k : A -> comp io B) V W :
  io_good m V -> (forall v, V v -> io_good (k v) W) -> io_good (stm_bind k m) W.
Proof.
  intros Hm Hk s Hs. apply wp_bind. eapply wp_mono; [by apply Hm|]. intros v s1 (H1 & H2 & H3).
  eapply wp_mono; [by apply (Hk v H3)|]. intros w s2 (H4 & H5 & H6). split_and!; [done|by etrans|done].
Qed.
Lemma io_ret {A} (a : A) (V : A -> Prop) : V a -> io_good (stm_ret a) V.
Proof. by intros HV s Hs. Qed.
Lemma io_err {A} e (V : A -> Prop) : io_good (stm_err e) V.
Proof. by intros s Hs. Qed.
Lemma io_ensure c e : io_good (stm_ensure c e) (fun _ => c = true).
Proof. intros s Hs. by destruct c. Qed.
Lemma io_opt {A} (o : option A) a (V : A -> Prop) : o = Some a -> V a -> io_good (stm_opt o) V.
Proof. intros -> HV s Hs. done. Qed.
Lemma io_if {A} (c : bool) (m m' : comp io A) V :
  (c = true -> io_good m V) -> (c = false -> io_good m' V) -> io_good (if c then m else m') V.
Proof. destruct c; auto. Qed.
Lemma io_mono {A} (m : comp io A) (V W : A -> Prop) : io_good m V -> (forall v, V v -> W v) -> io_good m W.
Proof. intros H HV s Hs. eapply wp_mono; [by apply H|]. naive_solver. Qed.

Lemma io_malloc n k : io_good (malloc_io n k) (fun _ => True).
Proof. apply io_answers. intros a. unfold wp. by destruct (wah_malloc_c_cases n k a) as [[a' ->]|[a' ->]]. Qed.
Lemma io_u32 : io_good (on_cur wah_decode_uleb128) (fun v => 0 <= v < 2 ^ 32).
Proof. apply io_decoder, on_cursor_good, decode_u32_good. Qed.
Lemma io_u64 : io_good (on_cur wah_decode_uleb128_64) (fun v => 0 <= v).
Proof. apply io_decoder, on_cursor_good, u64_good. Qed.
Lemma io_u64b : io_good (on_cur wah_decode_uleb128_64) (fun v => 0 <= v < 2 ^ 64).
Proof.
  intros [[c f] a] Hs. unfold wp, on_decoder, on_cursor. simpl. unfold decoder_bytes in *. simpl in *.
  destruct (wah_decode_uleb128_64_faultless c Hs) as [Hf Hb]. destruct (wah_decode_uleb128_64 c) as [[v|e|] c'] eqn:E; [|done|done].
  apply (proj1 (wah_decode_uleb128_64_iff _ _ _ Hs)) in E as (bs & -> & Hu). simpl. split; [exact Hb|]. split; [by exists bs|].
  split; [by eapply uleb_nonneg|by eapply uleb_bound].
Qed.
Lemma io_val_type : io_good (on_decoder wah_decode_val_type) (fun t => storage_type_valid t = true).
Proof. apply io_decoder, val_type_good. Qed.
Lemma io_require f : io_good (require_io f) (fun _ => True).
Proof. apply io_decoder, require_good. Qed.
Lemma io_type_features t : io_good (on_decoder (on_features (wah_require_type_features t))) (fun _ => True).
Proof. apply io_decoder, require_type_features_good. Qed.

Lemma storage_type_good : dec_good wah_decode_storage_type (fun t => storage_type_valid t = true).
Proof.
  apply dec_good_grammar; [apply wah_decode_storage_type_faultless|].
  intros s v s' Hb E. apply (proj1 (wah_decode_storage_type_decodes s v s' Hb)) in E as (long & bs & Hc & Hv & _).
  exists bs. split; [done|]. apply storage_bytes_valid. by exists long, bs.
Qed.
Lemma ref_type_good : dec_good wah_decode_ref_type (fun t => storage_type_valid t = true /\ WAH_TYPE_IS_REF t = true).
Proof.
  apply dec_good_grammar; [apply wah_decode_ref_type_faultless|].
  intros s v s' Hb E. apply (proj1 (wah_decode_ref_type_decodes s v s' Hb)) in E as (long & bs & Hc & Hv & _).
  exists bs. split; [done|]. split.
  - apply storage_bytes_valid. exists long, bs. by apply storage_val, val_ref.
  - assert (Hh : exists bs0 h, heap_bytes bs0 h /\ (v = h \/ v = WAH_TYPE_AS_NULLABLE h)).
    { destruct Hv as [b h Hb'| |]; eexists _, _; (split; [|by auto]); [by constructor|done..]. }
    destruct Hh as (bs0 & h & Hh & Hv'). apply heap_bytes_valid in Hh as (H1 & H2 & H3). destruct Hv' as [->| ->]; [done|].
    type_arith. Z.to_euclidean_division_equations. lia.
Qed.
Lemma io_storage_type : io_good (on_decoder wah_decode_storage_type) (fun t => storage_type_valid t = true).
Proof. apply io_decoder, storage_type_good. Qed.
Lemma io_ref_type : io_good (on_decoder wah_decode_ref_type) (fun t => storage_type_valid t = true /\ WAH_TYPE_IS_REF t = true).
Proof. apply io_decoder, ref_type_good. Qed.

(** A count is bounded by the bytes left. *)
Lemma wp_io_count k (Q : Z -> io -> Prop) s : decoder_bytes s.1 -> 0 < k -> zlen (cursor s.1) < 2 ^ 64 ->
  (forall n s', 0 <= n < 2 ^ 32 -> n * k <= zlen (cursor s.1) -> decoder_bytes s'.1 -> cursor s'.1 `suffix_of` cursor s.1 ->
     dec_features s'.1 = dec_features s.1 -> Q n s') ->
  wp (on_cur (wah_decode_and_validate_count k)) Q s.
Proof.
  intros Hb Hk Hlen HQ. apply wp_on_decoder. unfold wp, on_cursor, wah_decode_and_validate_count, stm_bind, stm_get.
  destruct s as [[c0 f] a]. simpl in *. destruct (wah_decode_uleb128_faultless c0 Hb) as [Hf Hb'].
  destruct (wah_decode_uleb128 c0) as [[v|e|] c] eqn:E; simpl in *; [|done|done].
  apply (proj1 (wah_decode_uleb128_iff _ _ _ Hb)) in E as (bs & Hc & Hu).
  pose proof (uleb_nonneg _ _ _ Hu). pose proof (uleb_bound _ _ _ Hu).
  destruct (Z.ltb_spec 0 k) as [_|]; [|lia]. cbn [andb].
  destruct (Z.ltb_spec (UINT32_MAX / k) v) as [|Hmax]; [done|]. simpl.
  assert (v * k <= UINT32_MAX).
  { transitivity ((UINT32_MAX / k) * k); [nia|]. rewrite Z.mul_comm. by apply Z.mul_div_le. }
  simpl in Hc. assert (zlen c <= zlen c0) by (rewrite Hc; unfold zlen; rewrite length_app; lia).
  assert (0 <= zlen c) by (unfold zlen; lia).
  rewrite !u64_small by (unfold UINT32_MAX in *; nia).
  destruct (Z.ltb_spec (zlen c) (v * k)); [done|]. apply HQ; [lia|lia|done|by exists bs|done].
Qed.

Lemma io_count k : io_good (on_cur (wah_decode_and_validate_count k)) (fun n => 0 <= n < 2 ^ 32).
Proof.
  intros s Hs. apply wp_on_decoder, wp_count; [done|]. intros v bs c Hc Hu Hb.
  split; [done|]. split; [by exists bs|]. split; [by eapply uleb_nonneg|by eapply uleb_bound].
Qed.

Lemma io_ensure_more : io_good (on_cur ensure_more) (fun _ => True).
Proof. intros [[[|b c] f] a] Hs; [done|]. unfold wp. simpl. done. Qed.
Lemma io_read_byte : io_good read_byte is_byte.
Proof.
  intros [[[|b c] f] a] Hs; [done|]. unfold wp. simpl. unfold decoder_bytes in *. simpl in *.
  apply Forall_cons in Hs as [? ?]. split_and!; [done|by exists [b]|done].
Qed.
Lemma wp_require_io f (Q : unit -> io -> Prop) s :
  (forall x, cursor x.1 = cursor s.1 -> Q tt x) -> wp (require_io f) Q s.
Proof.
  intros HQ. destruct s as [[c fs] a]. unfold wp, on_decoder, on_features, require, wah_require_feature. simpl in *.
  by repeat case_match; simplify_eq; try apply HQ.
Qed.

Lemma wp_peek_io (Q : Z -> io -> Prop) s : decoder_bytes s.1 ->
  (forall b c, cursor s.1 = b :: c -> is_byte b -> Q b s) -> wp peek_io Q s.
Proof.
  destruct s as [[[|b c] f] a]; intros Hs HQ; [done|]. unfold wp. simpl.
  unfold decoder_bytes in Hs. simpl in Hs. apply Forall_cons in Hs as [Hb _]. by eapply HQ.
Qed.
Lemma wp_take_io b c (Q : Z -> io -> Prop) s : cursor s.1 = b :: c ->
  Q b (Decoder c (dec_features s.1), s.2) -> wp (on_cur take_byte) Q s.
Proof. destruct s as [[c0 f] a]. simpl. intros -> HQ. done. Qed.
(** A byte that is taken only if [c] holds of it. *)
Lemma io_peek {A} (c : Z -> bool) (m m' : Z -> comp io A) V :
  (forall tag, io_good (m tag) V) -> (forall tag, io_good (m' tag) V) ->
  io_good (tag <- peek_io ;; if c tag then on_cur take_byte ;;; m tag else m' tag) V.
Proof.
  intros Hm Hm' s Hs. apply wp_bind, wp_peek_io; [done|]. intros b cur Hc Hb. apply wp_if; intros _; [|by apply Hm'].
  apply wp_bind. eapply wp_take_io; [exact Hc|]. unfold decoder_bytes in *. rewrite Hc in *. apply Forall_cons in Hs as [_ Hs].
  eapply wp_mono; [by apply Hm|]. intros v s' (H1 & H2 & H3). split_and!; [done| |done]. etrans; [exact H2|]. by exists [b].
Qed.

Lemma io_for_each {A} (l : list A) (f : A -> comp io unit) (V : A -> Prop) :
  (forall a, a ∈ l -> io_good (f a) (fun _ => V a)) -> io_good (for_each l f) (fun _ => Forall V l).
Proof.
  intros H. induction l as [|a l IH]; cbn [for_each]; [apply io_ret; constructor|].
  eapply io_bind; [apply H; set_solver|]. intros [] Ha. eapply io_mono; [apply IH; set_solver|]. intros [] Hl. by constructor.
Qed.

#[export] Hint Resolve io_ret io_err io_ensure io_malloc io_u32 io_u64 io_val_type io_require io_type_features
  io_storage_type io_ref_type io_count io_ensure_more io_read_byte : parse.

(** Loops with an invariant. *)
Lemma wp_for_each {S A} (l : list A) (f : A -> comp S unit) (I : list A -> S -> Prop) s :
  I [] s -> (forall before a after s, l = before ++ a :: after -> I before s -> wp (f a) (fun _ s' => I (before ++ [a]) s') s) ->
  wp (for_each l f) (fun _ s' => I l s') s.
Proof.
  intros H0 Hstep. enough (Hgen : forall before after s, l = before ++ after -> I before s ->
    wp (for_each after f) (fun _ s' => I l s') s) by (by apply (Hgen [])).
  clear s H0. intros before after. revert before. induction after as [|a after IH]; intros before s Hl HI; cbn [for_each].
  { apply wp_ret. by rewrite Hl, app_nil_r. }
  apply wp_bind. eapply wp_mono; [by eapply Hstep|]. intros [] s' HI'. apply (IH (before ++ [a])); [|done].
  by rewrite <- (assoc_L (++)).
Qed.

Lemma zrange_split lo hi before i after : zrange lo hi = before ++ i :: after -> before = zrange lo i /\ lo <= i < hi.
Proof.
  intros H. assert (Hi : lo <= i < hi) by (apply elem_of_zrange; rewrite H; set_solver). split; [|done].
  assert (Hb : Z.of_nat (length before) = i - lo).
  { apply (f_equal (fun l => l !! length before)) in H. rewrite list_lookup_middle in H by done.
    unfold zrange in H. apply list_lookup_fmap_Some in H as (k & -> & [-> _]%lookup_seq). lia. }
  apply (f_equal (take (length before))) in H. rewrite take_app_length in H. rewrite <- H.
  unfold zrange. rewrite <- fmap_take, take_seq. f_equal. f_equal. lia.
Qed.
Lemma wp_for_zrange {S} lo hi (f : Z -> comp S unit) (I : Z -> S -> Prop) s : lo <= hi ->
  I lo s -> (forall i s, lo <= i < hi -> I i s -> wp (f i) (fun _ s' => I (i + 1) s') s) ->
  wp (for_each (zrange lo hi) f) (fun _ s' => I hi s') s.
Proof.
  intros Hle H0 Hstep. eapply wp_mono; [apply (wp_for_each _ _ (fun l s => I (lo + zlen l) s))|].
  - change (zlen (A:=Z) []) with 0. by rewrite Z.add_0_r.
  - intros before i after s' Hl HI. apply zrange_split in Hl as [-> Hi].
    replace (lo + zlen (zrange lo i)) with i in HI by (unfold zlen, zrange; rewrite length_fmap, length_seq; lia).
    eapply wp_mono; [by apply Hstep|]. intros [] s1 H1.
    replace (lo + zlen (zrange lo i ++ [i])) with (i + 1); [done|].
    unfold zlen, zrange. rewrite length_app, length_fmap, length_seq. simpl. lia.
  - intros [] s' H. replace (lo + zlen (zrange lo hi)) with hi in H; [done|].
    unfold zlen, zrange. rewrite length_fmap, length_seq. lia.
Qed.
