(* ===== verification/TypeSection.v ===== *)
(** * The type section

    [wah_parse_type_section] and [wah_module_build_type_metadata]: an accepted section
    gives well-formed types, with declared subtypes that are structural subtypes and with
    correct layouts, as the rest of the development assumes. *)

From S2P Require Import Prelude Base Alloc Types Opcodes Bytes Leb128 Decode Subtype RecGroups ModuleEnv Operands Validate ValidInv ValidRules Locals ParseIo Layout.
From stdpp Require Import list sets.
#[local] Open Scope Z_scope.
#[local] Open Scope wah_scope.

(** ** Definitions *)

(** *** Composite types *)

Fixpoint val_types (n : nat) : comp io (list wah_type_t) :=
  match n with
  | O => stm_ret []
  | S n' => t <- on_decoder wah_decode_val_type ;; ts <- val_types n' ;; stm_ret (t :: ts)
  end.

Definition wah_parse_func_type : comp io wah_func_type_t :=
  param_count <- on_cur (wah_decode_and_validate_count 1) ;;
  stm_ensure (param_count <=? WAH_MAX_TYPE_STACK_SIZE) WAH_ERROR_TOO_LARGE ;;;
  malloc_io param_count 4 ;;;
  params <- val_types (Z.to_nat param_count) ;;
  result_count <- on_cur (wah_decode_and_validate_count 1) ;;
  stm_ensure (result_count <=? WAH_MAX_TYPE_STACK_SIZE) WAH_ERROR_TOO_LARGE ;;;
  malloc_io result_count 4 ;;;
  results <- val_types (Z.to_nat result_count) ;;
  stm_ret (FuncType params results).

(** A field: its type and mutability. *)
Definition field_type : comp io (wah_type_t * bool) :=
  t <- on_decoder wah_decode_storage_type ;;
  mut <- read_byte ;;
  stm_ensure (mut <=? 1) WAH_ERROR_MALFORMED ;;;
  stm_ret (t, mut =? 1).

(** The loop over the fields of a struct, with [n] left. *)
Fixpoint struct_fields (n : nat) (td : wah_type_def_t) : comp io wah_type_def_t :=
  match n with
  | O => stm_ret td
  | S n' =>
      ' (t, mut) <- field_type ;;
      struct_fields n' (TypeDef (kind td) (is_final td)
        (non_defaultable td || (WAH_TYPE_IS_REF t && negb (WAH_TYPE_IS_NULLABLE t))) (supertype td)
        (field_types td ++ [t]) (field_mutables td ++ [mut]) (rec_group_start td) (rec_group_size td))
  end.

Definition wah_parse_struct_type (td : wah_type_def_t) : comp io wah_type_def_t :=
  field_count <- on_cur (wah_decode_and_validate_count 2) ;;
  malloc_io field_count 4 ;;;
  malloc_io field_count 1 ;;;
  struct_fields (Z.to_nat field_count) td.

Definition wah_parse_array_type (td : wah_type_def_t) : comp io wah_type_def_t :=
  malloc_io 1 4 ;;;
  malloc_io 1 1 ;;;
  ' (t, mut) <- field_type ;;
  stm_ret (TypeDef (kind td) (is_final td) (non_defaultable td) (supertype td) [t] [mut]
             (rec_group_start td) (rec_group_size td)).

Definition set_kind (k : wah_comp_type_kind_t) (td : wah_type_def_t) : wah_type_def_t :=
  TypeDef k (is_final td) (non_defaultable td) (supertype td) (field_types td) (field_mutables td)
    (rec_group_start td) (rec_group_size td).
Definition set_super (final : bool) (s : Z) (td : wah_type_def_t) : wah_type_def_t :=
  TypeDef (kind td) final (non_defaultable td) s (field_types td) (field_mutables td)
    (rec_group_start td) (rec_group_size td).
Definition set_group (start size : Z) (td : wah_type_def_t) : wah_type_def_t :=
  TypeDef (kind td) (is_final td) (non_defaultable td) (supertype td) (field_types td) (field_mutables td) start size.

(** [ft] is only set for a function. *)
Definition wah_parse_composite_type (ft : wah_func_type_t) (td : wah_type_def_t)
  : comp io (wah_func_type_t * wah_type_def_t) :=
  tag <- read_byte ;;
  if tag =? 0x60 then
    ft <- wah_parse_func_type ;; stm_ret (ft, set_kind WAH_COMP_FUNC td)
  else if tag =? 0x5F then
    td <- wah_parse_struct_type (set_kind WAH_COMP_STRUCT td) ;; stm_ret (ft, td)
  else if tag =? 0x5E then
    td <- wah_parse_array_type (set_kind WAH_COMP_ARRAY td) ;; stm_ret (ft, td)
  else stm_err WAH_ERROR_MALFORMED.

Definition wah_parse_sub_type (current_typeidx : Z) (ft : wah_func_type_t) (td : wah_type_def_t)
  : comp io (wah_func_type_t * wah_type_def_t) :=
  tag <- peek_io ;;
  if (tag =? 0x50) || (tag =? 0x4F) then
    on_cur take_byte ;;;
    super_count <- on_cur wah_decode_uleb128 ;;
    stm_ensure (super_count <=? 1) WAH_ERROR_MALFORMED ;;;
    s <- (if super_count =? 1 then
            super_idx <- on_cur wah_decode_uleb128 ;;
            stm_ensure (super_idx <? current_typeidx) WAH_ERROR_VALIDATION_FAILED ;;;
            stm_ret super_idx
          else stm_ret (supertype td)) ;;
    wah_parse_composite_type ft (set_super (tag =? 0x4F) s td)
  else wah_parse_composite_type ft (set_super true WAH_NO_SUPERTYPE td).

(** *** The section *)

(** The arrays [types] and [type_defs], whose lengths are [type_count], and their
    capacity. *)
Record type_state := TypeState {
  t_io : io; t_types : list wah_func_type_t; t_defs : list wah_type_def_t; t_cap : Z }.

Definition on_io {A} (m : comp io A) : comp type_state A := fun s =>
  let '(r, x) := m (t_io s) in (r, TypeState x (t_types s) (t_defs s) (t_cap s)).

Definition sizeof_wah_func_type_t : Z := 24.
Definition sizeof_wah_type_def_t : Z := 40.

(** The type metadata are not built yet, so that only these two arrays grow. *)
Definition wah_type_section_ensure_capacity (needed : Z) : comp type_state unit :=
  s <- stm_get ;;
  if needed <=? t_cap s then stm_ret tt
  else
    stm_ensure (u32 (needed - 1) <=? WAH_MAX_TYPE_INDEX) WAH_ERROR_TOO_LARGE ;;;
    cap <- on_io (on_answers (wah_grow_array needed sizeof_wah_func_type_t (t_cap s))) ;;
    on_io (malloc_io cap sizeof_wah_type_def_t) ;;;
    s <- stm_get ;;
    stm_put (TypeState (t_io s) (t_types s) (t_defs s) cap).

Definition init_func_type : wah_func_type_t := FuncType [] [].
Definition init_type_def : wah_type_def_t := TypeDef WAH_COMP_FUNC true false WAH_NO_SUPERTYPE [] [] 0 0.

(** [wah_type_section_init_slot] for the slot after the last, which counts from then. *)
Definition wah_type_section_init_slot : comp type_state unit :=
  s <- stm_get ;;
  stm_put (TypeState (t_io s) (t_types s ++ [init_func_type]) (t_defs s ++ [init_type_def]) (t_cap s)).

(** A new type: its index and definition. *)
Definition parse_type : comp type_state (Z * wah_type_def_t) :=
  s <- stm_get ;;
  let idx := zlen (t_defs s) in
  wah_type_section_ensure_capacity (u32 (idx + 1)) ;;;
  wah_type_section_init_slot ;;;
  ' (ft, td) <- on_io (wah_parse_sub_type idx init_func_type init_type_def) ;;
  s <- stm_get ;;
  types <- stm_opt (zset (t_types s) idx ft) ;;
  defs <- stm_opt (zset (t_defs s) idx td) ;;
  stm_put (TypeState (t_io s) types defs (t_cap s)) ;;;
  stm_ret (idx, td).

Definition is_aggregate (td : wah_type_def_t) : bool :=
  comp_kind_eqb (kind td) WAH_COMP_STRUCT || comp_kind_eqb (kind td) WAH_COMP_ARRAY.

(** [for (g = 0; g < group_count; ++g)] setting the group of its members. *)
Definition set_groups (start count : Z) : comp type_state unit :=
  for_each (zrange start (start + count)) (fun i =>
    s <- stm_get ;;
    td <- stm_opt (zget (t_defs s) i) ;;
    defs <- stm_opt (zset (t_defs s) i (set_group start count td)) ;;
    stm_put (TypeState (t_io s) (t_types s) defs (t_cap s))).

Definition group_member : comp type_state unit :=
  ' (_, td) <- parse_type ;;
  if is_aggregate td || negb (supertype td =? WAH_NO_SUPERTYPE) || negb (is_final td)
  then on_io (require_io GC) else stm_ret tt.

(** An explicit recursion group, or a type on its own. *)
Definition parse_rec : comp type_state unit :=
  tag <- on_io peek_io ;;
  if tag =? 0x4E then
    on_io (require_io GC) ;;;
    on_io (on_cur take_byte) ;;;
    group_count <- on_io (on_cur (wah_decode_and_validate_count 1)) ;;
    s <- stm_get ;;
    let group_start := zlen (t_defs s) in
    for_each (zrange 0 group_count) (fun _ => group_member) ;;;
    set_groups group_start group_count
  else
    ' (idx, td) <- parse_type ;;
    (if is_aggregate td || (tag =? 0x50) || (tag =? 0x4F) then on_io (require_io GC) else stm_ret tt) ;;;
    set_groups idx 1.

(** A reference inside the scope of a type, whose features are enabled. *)
Definition check_type_ref (scope_limit : Z) (t : wah_type_t) : comp io unit :=
  stm_ensure (negb ((0 <=? t) && (scope_limit <=? WAH_TYIDX t))) WAH_ERROR_VALIDATION_FAILED ;;;
  on_decoder (on_features (wah_require_type_features t)).

(** The supertypes of a type, above the first of them: each adds to [depth], which is
    bounded, so that 64 iterations are enough. *)
Fixpoint check_depth (fuel : nat) (defs : list wah_type_def_t) (t depth : Z) : comp io unit :=
  match fuel with
  | O => fun s => (Fault, s)
  | S fuel' =>
      td <- stm_opt (zget defs t) ;;
      if supertype td =? WAH_NO_SUPERTYPE then stm_ret tt
      else
        stm_ensure (depth + 1 <=? WAH_MAX_SUBTYPE_DEPTH) WAH_ERROR_TOO_LARGE ;;;
        check_depth fuel' defs (supertype td) (depth + 1)
  end.

Definition check_type_def (types : list wah_func_type_t) (defs : list wah_type_def_t) (i : Z) : comp io unit :=
  td <- stm_opt (zget defs i) ;;
  ft <- stm_opt (zget types i) ;;
  let scope_limit := u32 (rec_group_start td + rec_group_size td) in
  for_each (param_types ft) (check_type_ref scope_limit) ;;;
  for_each (result_types ft) (check_type_ref scope_limit) ;;;
  (if negb (supertype td =? WAH_NO_SUPERTYPE) then
     stm_ensure (supertype td <? i) WAH_ERROR_VALIDATION_FAILED ;;;
     super_td <- stm_opt (zget defs (supertype td)) ;;
     stm_ensure (negb (is_final super_td)) WAH_ERROR_VALIDATION_FAILED ;;;
     stm_ensure (comp_kind_eqb (kind td) (kind super_td)) WAH_ERROR_VALIDATION_FAILED ;;;
     check_depth 64 defs (supertype td) 1
   else stm_ret tt) ;;;
  if is_aggregate td then for_each (field_types td) (check_type_ref scope_limit) else stm_ret tt.

(** *** Type metadata *)

(** [typeidx_to_repr] has more entries than there are types, which are not read. *)
Record meta_state := MetaState {
  m_ans : answers; m_t2r : list wah_repr_t; m_infos : list wah_repr_info_t }.

Definition wah_module_alloc_repr (type_count typeidx : Z) (info : wah_repr_info_t) : comp meta_state unit := fun s =>
  match (stm_ensure (typeidx <? type_count) WAH_ERROR_MISUSE ;;;
         r <- stm_opt (zget (m_t2r s) typeidx) ;;
         stm_ensure (r =? WAH_REPR_NONE) WAH_ERROR_MISUSE ;;;
         wah_grow_array_pow2 (zlen (m_infos s)) 8 ;;;
         wah_malloc_c (u64 (sizeof_wah_repr_info_t + zlen (repr_fields info) * sizeof_wah_repr_field_t)) 1 ;;;
         stm_opt (zset (m_t2r s) typeidx (s32 (zlen (m_infos s))))) (m_ans s) with
  | (Ok t2r, a) =>
      (Ok tt, MetaState a t2r (m_infos s ++ [ReprInfo (repr_type info) typeidx (repr_size info) (repr_fields info)]))
  | (Err e, a) => (Err e, MetaState a (m_t2r s) (m_infos s))
  | (Fault, a) => (Fault, MetaState a (m_t2r s) (m_infos s))
  end.

Definition on_m_ans {A} (m : comp answers A) : comp meta_state A := fun s =>
  let '(r, a) := m (m_ans s) in (r, MetaState a (m_t2r s) (m_infos s)).

Definition of_result {A} (r : result A) : comp answers A := fun a => (r, a).
Definition wah_build_array_repr_info (typeidx : Z) (td : wah_type_def_t) : comp answers wah_repr_info_t :=
  ft <- stm_opt (zget (field_types td) 0) ;;
  ' (elem_size, elem_repr) <- of_result (wah_field_type_layout ft) ;;
  wah_malloc_c 1 (sizeof_wah_repr_info_t + sizeof_wah_repr_field_t) ;;;
  stm_ret (ReprInfo WAH_REPR_ARRAY typeidx elem_size [ReprField 0 elem_repr]).

Definition build_repr (defs : list wah_type_def_t) (i : Z) : comp meta_state unit :=
  td <- stm_opt (zget defs i) ;;
  match kind td with
  | WAH_COMP_STRUCT =>
      info <- on_m_ans (wah_build_struct_repr_info i td) ;;
      wah_module_alloc_repr (zlen defs) i info
  | WAH_COMP_ARRAY =>
      info <- on_m_ans (wah_build_array_repr_info i td) ;;
      wah_module_alloc_repr (zlen defs) i info
  | WAH_COMP_FUNC => stm_ret tt
  end.

Section Metadata.
Context (m : wah_module_t).

(** The result of a subtype check. *)
Definition ensure_subtype (sub sup : wah_type_t) : comp answers unit :=
  b <- stm_opt (wah_type_is_subtype sub sup (Some m)) ;; stm_ensure b WAH_ERROR_VALIDATION_FAILED.
Fixpoint ensure_subtypes (subs sups : list wah_type_t) : comp answers unit :=
  match subs, sups with
  | [], _ => stm_ret tt
  | sub :: subs', sup :: sups' => ensure_subtype sub sup ;;; ensure_subtypes subs' sups'
  | _ :: _, [] => fun s => (Fault, s)
  end.

Definition canon_at (t : wah_type_t) : option Z := cm ← canonical_map m; zget cm (WAH_TYIDX t).
(** [st] and [tt] are the same type. *)
Definition same_type (st tt : wah_type_t) : option bool :=
  if st =? tt then Some true
  else if (0 <=? st) && (0 <=? tt) && eqb (WAH_TYPE_IS_NULLABLE st) (WAH_TYPE_IS_NULLABLE tt) then
    a ← canon_at st; b ← canon_at tt; Some (a =? b)
  else Some false.

(** Field [j] of the supertype [super_td] and the subtype [td]. *)
Definition check_super_field (super_td td : wah_type_def_t) (j : Z) : comp answers unit :=
  st <- stm_opt (zget (field_types super_td) j) ;;
  tt' <- stm_opt (zget (field_types td) j) ;;
  smut <- stm_opt (zget (field_mutables super_td) j) ;;
  mut <- stm_opt (zget (field_mutables td) j) ;;
  if (smut : bool) then
    stm_ensure mut WAH_ERROR_VALIDATION_FAILED ;;;
    b <- stm_opt (same_type st tt') ;;
    stm_ensure b WAH_ERROR_VALIDATION_FAILED
  else
    stm_ensure (negb mut) WAH_ERROR_VALIDATION_FAILED ;;;
    ensure_subtype tt' st.

(** Type [i], which [td] defines, against its supertype [super_td]. *)
Definition check_matches (i : Z) (td super_td : wah_type_def_t) : comp answers unit :=
  match kind td with
  | WAH_COMP_FUNC =>
      sub_ft <- stm_opt (zget (types m) i) ;;
      sup_ft <- stm_opt (zget (types m) (supertype td)) ;;
      stm_ensure (zlen (param_types sub_ft) =? zlen (param_types sup_ft)) WAH_ERROR_VALIDATION_FAILED ;;;
      stm_ensure (zlen (result_types sub_ft) =? zlen (result_types sup_ft)) WAH_ERROR_VALIDATION_FAILED ;;;
      ensure_subtypes (param_types sup_ft) (param_types sub_ft) ;;;
      ensure_subtypes (result_types sub_ft) (result_types sup_ft)
  | WAH_COMP_STRUCT =>
      stm_ensure (zlen (field_types super_td) <=? zlen (field_types td)) WAH_ERROR_VALIDATION_FAILED ;;;
      for_each (zrange 0 (zlen (field_types super_td))) (check_super_field super_td td)
  | WAH_COMP_ARRAY =>
      stm_ensure ((zlen (field_types td) =? 1) && (zlen (field_types super_td) =? 1)) WAH_ERROR_VALIDATION_FAILED ;;;
      check_super_field super_td td 0
  end.

Definition check_super (i : Z) : comp answers unit :=
  td <- stm_opt (zget (type_defs m) i) ;;
  if supertype td =? WAH_NO_SUPERTYPE then stm_ret tt
  else super_td <- stm_opt (zget (type_defs m) (supertype td)) ;; check_matches i td super_td.
End Metadata.

(** [m] has no metadata yet, and [types_cap] is the capacity of its arrays. *)
Definition wah_module_build_type_metadata (m : wah_module_t) (types_cap : Z) : comp answers wah_module_t :=
  if type_count m =? 0 then stm_ret m
  else
    wah_malloc_c types_cap 4 ;;;
    wah_malloc_c (type_count m) 8 ;;;
    gh <- stm_opt (group_hashes m) ;;
    wah_malloc_c (zlen (filter (fun h => is_Some h) gh)) 16 ;;;
    cm <- stm_opt (build_canonical_map m) ;;
    let m := Module (types m) (type_defs m) (Some cm) (typeidx_to_repr m) (repr_infos m) (features m) in
    for_each (zrange 0 (type_count m)) (check_super m) ;;;
    wah_malloc_c types_cap 4 ;;;
    fun a =>
      let '(r, s) := for_each (zrange 0 (type_count m)) (build_repr (type_defs m))
                       (MetaState a (replicate (length (type_defs m)) WAH_REPR_NONE) []) in
      (match r with
       | Ok _ => Ok (Module (types m) (type_defs m) (canonical_map m) (Some (m_t2r s)) (m_infos s) (features m))
       | Err e => Err e
       | Fault => Fault
       end, m_ans s).

(** The types of the section, whose metadata are not built yet. *)
Definition parse_type_defs : comp type_state unit :=
  rec_count <- on_io (on_cur (wah_decode_and_validate_count 1)) ;;
  for_each (zrange 0 rec_count) (fun _ => parse_rec) ;;;
  s <- stm_get ;;
  on_io (for_each (zrange 0 (zlen (t_defs s))) (check_type_def (t_types s) (t_defs s))).

(** The features of the result are those of the decoder. *)
Definition wah_parse_type_section : comp io wah_module_t := fun s0 =>
  match parse_type_defs (TypeState s0 [] [] 0) with
  | (Ok _, s) =>
      on_answers (wah_module_build_type_metadata
        (Module (t_types s) (t_defs s) None None [] (dec_features (t_io s).1)) (t_cap s)) (t_io s)
  | (Err e, s) => (Err e, t_io s)
  | (Fault, s) => (Fault, t_io s)
  end.

(** *** What the parser establishes *)

Definition non_null_ref (t : wah_type_t) : bool := WAH_TYPE_IS_REF t && negb (WAH_TYPE_IS_NULLABLE t).
Notation storable := (fun t => storage_type_valid t = true).

(** A type as it is parsed, before its references are checked: [i] is its index. *)
Record slot_ok (i : Z) (ft : wah_func_type_t) (td : wah_type_def_t) : Prop := {
  so_params : Forall storable (param_types ft) /\ zlen (param_types ft) <= WAH_MAX_TYPE_STACK_SIZE;
  so_results : Forall storable (result_types ft) /\ zlen (result_types ft) <= WAH_MAX_TYPE_STACK_SIZE;
  so_fields : Forall storable (field_types td);
  so_mutables : length (field_mutables td) = length (field_types td);
  so_array : kind td = WAH_COMP_ARRAY -> zlen (field_types td) = 1;
  so_aggregate : is_aggregate td = false -> field_types td = [];
  so_default : kind td = WAH_COMP_STRUCT -> non_defaultable td = existsb non_null_ref (field_types td);
  so_super : supertype td = WAH_NO_SUPERTYPE \/ 0 <= supertype td < i }.

(** ** Theorems *)

(** *** Composite types *)

Lemma io_val_types n : io_good (val_types n) (fun ts => Forall storable ts /\ length ts = n).
Proof.
  induction n as [|n IH]; cbn [val_types]; [by apply io_ret|]. eapply io_bind; [apply io_val_type|]. intros t Ht.
  eapply io_bind; [exact IH|]. intros ts [Hts Hn]. apply io_ret. split; [by constructor|simpl; lia].
Qed.

Definition func_type_parsed (ft : wah_func_type_t) : Prop :=
  (Forall storable (param_types ft) /\ zlen (param_types ft) <= WAH_MAX_TYPE_STACK_SIZE) /\
  Forall storable (result_types ft) /\ zlen (result_types ft) <= WAH_MAX_TYPE_STACK_SIZE.

Lemma io_func_type : io_good wah_parse_func_type func_type_parsed.
Proof.
  unfold wah_parse_func_type. eapply io_bind; [apply io_count|]. intros n [Hn _]. eapply io_bind; [apply io_ensure|]. intros _ Hmax%Z.leb_le.
  eapply io_bind; [apply io_malloc|]. intros _ _. eapply io_bind; [apply io_val_types|]. intros ps [Hps Hpl].
  eapply io_bind; [apply io_count|]. intros n' [Hn' _]. eapply io_bind; [apply io_ensure|]. intros _ Hmax'%Z.leb_le.
  eapply io_bind; [apply io_malloc|]. intros _ _. eapply io_bind; [apply io_val_types|]. intros rs [Hrs Hrl].
  apply io_ret. split; (split; [done|]); unfold zlen; simpl; lia.
Qed.

Lemma io_field_type : io_good field_type (fun f => storage_type_valid f.1 = true).
Proof.
  unfold field_type. eapply io_bind; [apply io_storage_type|]. intros t Ht. eapply io_bind; [apply io_read_byte|]. intros mut _.
  eapply io_bind; [apply io_ensure|]. intros _ _. by apply io_ret.
Qed.

(** The fields of a struct so far. *)
Definition fields_parsed (td0 td : wah_type_def_t) : Prop :=
  kind td = kind td0 /\ is_final td = is_final td0 /\ supertype td = supertype td0 /\
  Forall storable (field_types td) /\ length (field_mutables td) = length (field_types td) /\
  non_defaultable td = existsb non_null_ref (field_types td).

Lemma io_struct_fields n td0 td : fields_parsed td0 td -> io_good (struct_fields n td) (fields_parsed td0).
Proof.
  revert td. induction n as [|n IH]; intros td Htd; cbn [struct_fields]; [by apply io_ret|].
  eapply io_bind; [apply io_field_type|]. intros [t mut] Ht. apply IH. destruct Htd as (H1 & H2 & H3 & H4 & H5 & H6).
  split_and!; try done; simpl.
  - apply Forall_app. split; [done|]. by constructor.
  - rewrite !length_app. simpl. lia.
  - rewrite existsb_app, H6. simpl. by rewrite orb_false_r.
Qed.

(** A definition before its fields are parsed. *)
Definition blank_def (td : wah_type_def_t) : Prop :=
  field_types td = [] /\ field_mutables td = [] /\ non_defaultable td = false.

Lemma io_struct_type td : blank_def td -> io_good (wah_parse_struct_type td) (fields_parsed td).
Proof.
  intros (H1 & H2 & H3). unfold wah_parse_struct_type. eapply io_bind; [apply io_count|]. intros n _.
  eapply io_bind; [apply io_malloc|]. intros _ _. eapply io_bind; [apply io_malloc|]. intros _ _.
  apply io_struct_fields. split_and!; try done; rewrite ?H1, ?H2, ?H3; done.
Qed.

Lemma io_composite_type i ft td : blank_def td -> param_types ft = [] -> result_types ft = [] ->
  supertype td = WAH_NO_SUPERTYPE \/ 0 <= supertype td < i ->
  io_good (wah_parse_composite_type ft td) (fun r => slot_ok i r.1 r.2).
Proof.
  intros Hb Hp Hr Hs. assert (Hft : func_type_parsed ft).
  { unfold func_type_parsed. rewrite Hp, Hr. split_and!; done. }
  pose proof Hb as (B1 & B2 & B3). destruct Hft as [F1 F2]. unfold wah_parse_composite_type. eapply io_bind; [apply io_read_byte|]. intros tag _.
  repeat (apply io_if; intros _); [| | |apply io_err].
  - eapply io_bind; [apply io_func_type|]. intros ft' [P1 P2]. apply io_ret. split; try done; simpl; rewrite ?B1, ?B2; done.
  - eapply io_bind; [by apply (io_struct_type (set_kind WAH_COMP_STRUCT td))|]. intros td' (S1 & S2 & S3 & S4 & S5 & S6).
    apply io_ret. simpl in S1, S2, S3. split; try done; simpl; try (rewrite S3; done).
    + by rewrite S1.
    + unfold is_aggregate. by rewrite S1.
  - unfold wah_parse_array_type. eapply io_bind.
    + eapply io_bind; [apply io_malloc|]. intros _ _. eapply io_bind; [apply io_malloc|]. intros _ _.
      eapply io_bind; [apply io_field_type|]. intros [t mut] Ht. apply (io_ret _ (fun td' => exists t mut, storage_type_valid t = true /\
        td' = TypeDef WAH_COMP_ARRAY (is_final td) (non_defaultable td) (supertype td) [t] [mut] (rec_group_start td) (rec_group_size td))).
      by exists t, mut.
    + intros td' (t & mut & Ht & ->). apply io_ret. split; try done. by constructor.
Qed.

Lemma blank_init : blank_def init_type_def.
Proof. done. Qed.

Lemma io_sub_type i : io_good (wah_parse_sub_type i init_func_type init_type_def) (fun r => slot_ok i r.1 r.2).
Proof.
  unfold wah_parse_sub_type. apply (io_peek (fun tag => (tag =? 0x50) || (tag =? 0x4F))).
  - intros tag. eapply io_bind; [apply io_u32|]. intros n _. eapply io_bind; [apply io_ensure|]. intros _ _.
    eapply (io_bind _ _ (fun s => s = WAH_NO_SUPERTYPE \/ 0 <= s < i)).
    + apply io_if; intros _; [|by apply io_ret; left]. eapply io_bind; [apply io_u32|]. intros s [Hs _].
      eapply io_bind; [apply io_ensure|]. intros _ Hlt%Z.ltb_lt. apply io_ret. right. lia.
    + intros s Hs. by apply io_composite_type.
  - intros tag. apply io_composite_type; try done. by left.
Qed.

(** *** The arrays *)

(** The types parsed so far. *)
Record types_parsed (s : type_state) : Prop := {
  tp_bytes : decoder_bytes (t_io s).1;
  tp_len : zlen (t_types s) = zlen (t_defs s);
  tp_cap : zlen (t_defs s) <= t_cap s <= WAH_MAX_TYPE_INDEX + 1;
  tp_cap_ok : cap_ok (t_cap s);
  tp_slots : forall i ft td, zget (t_types s) i = Some ft -> zget (t_defs s) i = Some td -> slot_ok i ft td }.

(** The types before index [n] are in groups of consecutive types before it. *)
Definition groups_upto (n : Z) (defs : list wah_type_def_t) : Prop := forall i td, i < n -> zget defs i = Some td ->
  0 <= rec_group_start td <= i /\ i < rec_group_start td + rec_group_size td <= n /\
  forall k, rec_group_start td <= k < rec_group_start td + rec_group_size td ->
    exists td', zget defs k = Some td' /\ rec_group_start td' = rec_group_start td /\ rec_group_size td' = rec_group_size td.

Lemma wp_on_io {A} (m : comp io A) V (Q : A -> type_state -> Prop) s : io_good m V -> decoder_bytes (t_io s).1 ->
  (forall a x, V a -> decoder_bytes x.1 -> cursor x.1 `suffix_of` cursor (t_io s).1 -> Q a (TypeState x (t_types s) (t_defs s) (t_cap s))) ->
  wp (on_io m) Q s.
Proof.
  intros Hm Hb HQ. specialize (Hm (t_io s) Hb). unfold wp, on_io in *. destruct (m (t_io s)) as [[a|e|] x]; [|done|done].
  destruct Hm as (H1 & H2 & H3). by apply HQ.
Qed.

Lemma parsed_io s x : types_parsed s -> decoder_bytes x.1 -> types_parsed (TypeState x (t_types s) (t_defs s) (t_cap s)).
Proof. by intros [] ?; split. Qed.

Lemma grow_array_bound needed k cap a c a' : wah_grow_array needed k cap a = (Ok c, a') -> 0 <= cap <= UINT32_MAX -> 0 <= needed ->
  c = cap \/ c = 8 \/ c < 2 * needed.
Proof.
  unfold wah_grow_array. intros H Hc Hn. destruct (Z.leb_spec needed cap); [stm_inv; by left|]. stm_inv.
  set (c0 := if cap =? 0 then 8 else cap) in *.
  match goal with Hm : (needed <=? UINT32_MAX) = true |- _ => apply Z.leb_le in Hm; rename Hm into Hmax end.
  assert (Hc0 : 0 < c0 <= UINT32_MAX) by (unfold c0, UINT32_MAX in *; destruct (Z.eqb_spec cap 0); lia).
  pose proof (grow_loop_spec 34 c0 needed Hc0 Hmax) as HL. change (2 ^ Z.of_nat 34) with 17179869184 in HL.
  specialize (HL ltac:(unfold UINT32_MAX; lia) ltac:(lia)). destruct (grow_loop 34 c0 needed) as [c'|e|]; [|done|done].
  stm_inv. destruct HL as (_ & _ & [->|HL]); [|by right; right]. unfold c0. destruct (cap =? 0); auto.
Qed.

Lemma cap_ok_below c : cap_ok c -> c < 2 ^ 31 -> c <= 2 ^ 30.
Proof.
  intros [->|(k & Hk & ->)] Hlt; [lia|]. apply Z.pow_le_mono_r; [lia|]. apply Z.pow_lt_mono_r_iff in Hlt; lia.
Qed.

Lemma wp_ensure_capacity (Q : unit -> type_state -> Prop) s : types_parsed s ->
  (forall x cap, decoder_bytes x.1 -> cursor x.1 `suffix_of` cursor (t_io s).1 ->
     zlen (t_defs s) + 1 <= cap <= WAH_MAX_TYPE_INDEX + 1 -> cap_ok cap ->
     Q tt (TypeState x (t_types s) (t_defs s) cap)) ->
  wp (wah_type_section_ensure_capacity (u32 (zlen (t_defs s) + 1))) Q s.
Proof.
  intros Hp HQ. pose proof (tp_cap _ Hp) as [Hc1 Hc2]. pose proof (tp_cap_ok _ Hp) as Hc3. rewrite max_type_index in *.
  assert (0 <= zlen (t_defs s)) by (unfold zlen; lia). rewrite u32_small by lia. unfold wah_type_section_ensure_capacity.
  apply wp_bind, wp_get. destruct (Z.leb_spec (zlen (t_defs s) + 1) (t_cap s)) as [Hle|Hgt].
  { apply wp_ret. specialize (HQ (t_io s) (t_cap s) (tp_bytes _ Hp) ltac:(done) ltac:(lia) Hc3). by destruct s. }
  rewrite u32_small by lia. apply wp_bind, wp_ensure. intros Hmax%Z.leb_le. rewrite max_type_index in Hmax. apply wp_bind.
  pose proof (wah_grow_array_cap (zlen (t_defs s) + 1) sizeof_wah_func_type_t (t_cap s) (t_io s).2 Hc3 ltac:(lia)) as Hg.
  unfold wp at 1, on_io at 1, on_answers.
  destruct (wah_grow_array _ _ _ (t_io s).2) as [[cap|e|] a] eqn:Eg; [|done|done].
  apply grow_array_bound in Eg; [|unfold UINT32_MAX; lia|lia]. destruct Hg as (G1 & G2 & G3).
  apply wp_bind. eapply wp_on_io; [apply io_malloc|apply Hp|]. intros _ x _ Hb Hs. apply wp_bind, wp_get, wp_put. simpl in *.
  apply HQ; [done|done| |done]. split; [done|]. change (1073741823 + 1) with (2 ^ 30).
  destruct Eg as [-> |[->|Eg]]; [lia|lia|]. apply cap_ok_below; [done|lia].
Qed.

Lemma wp_parse_type (Q : Z * wah_type_def_t -> type_state -> Prop) s : types_parsed s ->
  (forall ft td x cap, let s' := TypeState x (t_types s ++ [ft]) (t_defs s ++ [td]) cap in
     types_parsed s' -> cursor x.1 `suffix_of` cursor (t_io s).1 -> Q (zlen (t_defs s), td) s') ->
  wp parse_type Q s.
Proof.
  intros Hp HQ. unfold parse_type. apply wp_bind, wp_get. cbv zeta. apply wp_bind, wp_ensure_capacity; [done|].
  intros x cap Hx Hsx Hcap Hcok. apply wp_bind. unfold wah_type_section_init_slot. apply wp_bind, wp_get, wp_put. simpl.
  apply wp_bind. eapply wp_on_io; [apply io_sub_type|exact Hx|]. intros [ft td] x' Hslot Hx' Hsx'. simpl in *.
  pose proof (tp_len _ Hp) as Hlen. apply wp_bind, wp_get, wp_bind. cbn [t_types t_defs t_io t_cap].
  eapply wp_opt; [rewrite <- Hlen; apply zset_last|]. apply wp_bind. eapply wp_opt; [apply zset_last|]. apply wp_bind, wp_put, wp_ret.
  apply HQ; [|by etrans]. destruct Hp as [P1 P2 P3 P4 P5]. split; simpl; [done| | |done|].
  - unfold zlen in *. rewrite !length_app. simpl. lia.
  - unfold zlen in *. rewrite length_app. simpl. lia.
  - intros i ft' td' [[H1 H2]|[-> ->]]%zget_snoc [[H3 H4]|[H3 ->]]%zget_snoc; try lia; [by apply P5|]. by rewrite Hlen.
Qed.

(** *** The groups *)

Lemma slot_ok_group i ft td start size : slot_ok i ft td -> slot_ok i ft (set_group start size td).
Proof. intros []. by split. Qed.

(** The groups of the types from [start] to before [i] are set. *)
Definition groups_set (start count i : Z) (s s' : type_state) : Prop :=
  types_parsed s' /\ t_io s' = t_io s /\ zlen (t_defs s') = zlen (t_defs s) /\
  forall j, zget (t_defs s') j =
    if decide (start <= j < i) then set_group start count <$> zget (t_defs s) j else zget (t_defs s) j.

Lemma wp_set_groups start count s : types_parsed s -> 0 <= start -> 0 <= count -> start + count = zlen (t_defs s) ->
  wp (set_groups start count) (fun _ s' => groups_set start count (start + count) s s') s.
Proof.
  intros Hp Hs Hc Hlen. unfold set_groups.
  apply (wp_for_zrange _ _ _ (fun i s' => groups_set start count i s s')); [lia| |].
  { split; [done|]. split; [done|]. split; [done|]. intros j. by rewrite decide_False by lia. }
  intros i s1 Hi (P1 & P2 & P3 & P4). apply wp_bind, wp_get, wp_bind.
  destruct (zget_is_Some (t_defs s1) i) as [td Htd]; [lia|]. eapply wp_opt; [exact Htd|]. apply wp_bind.
  destruct (zset_is_Some (t_defs s1) i (set_group start count td)) as [defs Hdefs]; [lia|].
  eapply wp_opt; [exact Hdefs|]. apply wp_put. simpl. pose proof (zset_length _ _ _ _ Hdefs) as Hl.
  split; [|split; [done|split; [simpl; lia|]]].
  - destruct P1 as [Q1 Q2 Q3 Q4 Q5]. split; simpl; [done|lia|lia|done|]. intros j ft td' Hj. rewrite (zset_lookup _ _ _ _ j Hdefs).
    destruct (Z.eqb_spec j i) as [Hd|_]; [|by apply Q5]. intros [= <-]. subst j. apply slot_ok_group. by eapply Q5.
  - simpl. intros j. rewrite (zset_lookup _ _ _ _ j Hdefs). rewrite P4. destruct (Z.eqb_spec j i) as [Hd|Hd].
    + subst j. rewrite decide_True by lia. rewrite P4, decide_False in Htd by lia. by rewrite Htd.
    + destruct (decide (start <= j < i)); [by rewrite decide_True by lia|by rewrite decide_False by lia].
Qed.

(** Adding a type after groups, and closing its group. *)
Lemma groups_upto_close n defs0 defs1 defs : groups_upto n defs0 -> 0 <= n ->
  (forall j, j < n -> zget defs1 j = zget defs0 j) ->
  (forall j, zget defs j = if decide (n <= j < zlen defs1) then set_group n (zlen defs1 - n) <$> zget defs1 j else zget defs1 j) ->
  zlen defs = zlen defs1 -> n <= zlen defs1 -> groups_upto (zlen defs) defs.
Proof.
  intros Hg Hn Hpre Hdefs Hl Hle. rewrite Hl. intros i td Hi Htd. rewrite Hdefs in Htd. case_decide as Hd.
  - apply fmap_Some in Htd as (td0 & H0 & ->). simpl. split; [lia|]. split; [lia|]. intros k Hk. rewrite Hdefs, decide_True by lia.
    destruct (zget_is_Some defs1 k) as [tdk ->]; [lia|]. by eexists.
  - assert (i < n) by lia. rewrite Hpre in Htd by done. destruct (Hg i td ltac:(done) Htd) as (H1 & H2 & H3). split; [done|]. split; [lia|].
    intros k Hk. rewrite Hdefs, decide_False, Hpre by lia. by apply H3.
Qed.

(** What holds of the arrays between two recursion groups. *)
Definition groups_parsed (s : type_state) : Prop := types_parsed s /\ groups_upto (zlen (t_defs s)) (t_defs s).

Lemma wp_close_group s0 s count : groups_parsed s0 -> types_parsed s -> zlen (t_defs s) = zlen (t_defs s0) + count -> 0 <= count ->
  (forall j, j < zlen (t_defs s0) -> zget (t_defs s) j = zget (t_defs s0) j) ->
  wp (set_groups (zlen (t_defs s0)) count) (fun _ s' => groups_parsed s') s.
Proof.
  intros [_ Hg] Hs Hlen Hc Hpre. assert (0 <= zlen (t_defs s0)) by (unfold zlen; lia).
  eapply wp_mono; [by apply wp_set_groups|]. intros [] s' (P1 & P2 & P3 & P4). split; [done|].
  eapply groups_upto_close; [exact Hg|done|exact Hpre| |done|lia]. intros j. rewrite P4.
  replace (zlen (t_defs s) - zlen (t_defs s0)) with count by lia. by rewrite Hlen.
Qed.

Lemma wp_require_types f (Q : unit -> type_state -> Prop) s : types_parsed s ->
  (forall x, cursor x.1 = cursor (t_io s).1 -> types_parsed (TypeState x (t_types s) (t_defs s) (t_cap s)) ->
     Q tt (TypeState x (t_types s) (t_defs s) (t_cap s))) ->
  wp (on_io (require_io f)) Q s.
Proof.
  intros Hp HQ. pose proof (wp_require_io f (fun _ x => cursor x.1 = cursor (t_io s).1) (t_io s) ltac:(done)) as H.
  unfold wp, on_io in *. destruct (on_decoder _ (t_io s)) as [[[]|e|] x]; [|done|done]. apply HQ; [done|]. apply parsed_io; [done|].
  unfold decoder_bytes. rewrite H. apply Hp.
Qed.

Lemma wp_group_member s : types_parsed s ->
  wp group_member (fun _ s' => types_parsed s' /\ exists td, t_defs s' = t_defs s ++ [td]) s.
Proof.
  intros Hp. unfold group_member. apply wp_bind, wp_parse_type; [done|]. intros ft td x cap s' Hp' _. apply wp_if; intros _.
  - apply wp_require_types; [done|]. intros x' _ Hx'. split; [done|]. by exists td.
  - apply wp_ret. split; [done|]. by exists td.
Qed.

Lemma wp_parse_rec s : groups_parsed s -> wp parse_rec (fun _ s' => groups_parsed s') s.
Proof.
  intros Hs. pose proof (proj1 Hs) as Hp. unfold parse_rec. apply wp_bind. unfold wp at 1, on_io at 1.
  pose proof (wp_peek_io (fun b s' => s' = t_io s /\ exists c, cursor (t_io s).1 = b :: c) (t_io s) (tp_bytes _ Hp)) as Hpeek.
  specialize (Hpeek ltac:(intros b c Hc _; split; [done|by exists c])). unfold wp in Hpeek. destruct (peek_io (t_io s)) as [[tag|e|] x]; [|done|done]. destruct Hpeek as [-> [c Hc]].
  replace (TypeState (t_io s) (t_types s) (t_defs s) (t_cap s)) with s by (by destruct s). apply wp_if; intros _.
  - apply wp_bind, wp_require_types; [done|]. intros x Ex Hx. apply wp_bind. rewrite Hc in Ex.
    pose proof (wp_take_io tag c (fun _ x1 => decoder_bytes x1.1) x Ex) as Ht. pose proof (tp_bytes _ Hx) as Hbx. simpl in Hbx.
    unfold decoder_bytes in Hbx, Ht. rewrite Ex in Hbx. apply Forall_cons in Hbx as [_ Hbx]. specialize (Ht Hbx).
    unfold wp at 1, on_io at 1. unfold wp in Ht. simpl in Ht |- *. destruct (on_decoder _ x) as [[b1|e|] x1]; [|done|done].
    rename Ht into Hx1. apply wp_bind. eapply wp_on_io; [apply io_count|exact Hx1|]. intros n x2 Hn Hx2 _. cbv beta in Hn. simpl. apply wp_bind, wp_get, wp_bind. cbn [t_defs].
    set (s2 := TypeState x2 _ _ _). assert (H2 : types_parsed s2) by (by apply parsed_io).
    eapply wp_mono.
    + apply (wp_for_zrange 0 n _ (fun i s' => types_parsed s' /\ zlen (t_defs s') = zlen (t_defs s) + i /\
        forall j, j < zlen (t_defs s) -> zget (t_defs s') j = zget (t_defs s) j)); [lia| |].
      * split; [done|]. split; [simpl; lia|done].
      * intros i s' Hi (P1 & P2 & P3). eapply wp_mono; [by apply wp_group_member|]. intros [] s3 (Q1 & td & Q2).
        rewrite Q2. split; [done|]. split; [unfold zlen in *; rewrite length_app; simpl; lia|].
        intros j Hj. rewrite zget_app_lt by lia. by apply P3.
    + intros [] s3 (P1 & P2 & P3). apply wp_close_group; [done|done|lia|lia|done].
  - apply wp_bind, wp_parse_type; [done|]. intros ft td x cap s' Hp' _. apply wp_bind.
    assert (Hend : forall x', types_parsed (TypeState x' (t_types s') (t_defs s') cap) ->
      wp (set_groups (zlen (t_defs s)) 1) (fun _ s' => groups_parsed s') (TypeState x' (t_types s') (t_defs s') cap)).
    { intros x' Hx'. apply wp_close_group; [done|done| |lia|].
      - unfold s', zlen. simpl. rewrite length_app. simpl. lia.
      - intros j Hj. by apply zget_app_lt. }
    apply wp_if; intros _; [|apply wp_ret; by apply (Hend x)].
    apply wp_require_types; [done|]. intros x' _ Hx'. by apply Hend.
Qed.

(** *** The checks of a definition *)

(** The number of supertypes of a type. *)
Inductive super_depth (defs : list wah_type_def_t) : Z -> Z -> Prop :=
| depth_root t td : zget defs t = Some td -> supertype td = WAH_NO_SUPERTYPE -> super_depth defs t 0
| depth_sub t td n : zget defs t = Some td -> supertype td <> WAH_NO_SUPERTYPE ->
    super_depth defs (supertype td) n -> super_depth defs t (n + 1).

(** The supertype of definition [td] of type [i]. *)
Definition super_ok (defs : list wah_type_def_t) (i : Z) (td : wah_type_def_t) : Prop :=
  supertype td <> WAH_NO_SUPERTYPE -> 0 <= supertype td < i /\ exists super_td n,
    zget defs (supertype td) = Some super_td /\ is_final super_td = false /\ kind super_td = kind td /\
    super_depth defs i n /\ n <= WAH_MAX_SUBTYPE_DEPTH.

(** References in scope. *)
Definition refs_below (limit : Z) (ts : list wah_type_t) : Prop := Forall (fun t => 0 <= t -> WAH_TYIDX t < limit) ts.

Record def_checked (defs : list wah_type_def_t) (i : Z) (ft : wah_func_type_t) (td : wah_type_def_t) : Prop := {
  dc_params : refs_below (rec_group_start td + rec_group_size td) (param_types ft);
  dc_results : refs_below (rec_group_start td + rec_group_size td) (result_types ft);
  dc_super : super_ok defs i td;
  dc_fields : is_aggregate td = true -> refs_below (rec_group_start td + rec_group_size td) (field_types td) }.

(** Supertypes come before their subtypes. *)
Definition supers_before (defs : list wah_type_def_t) : Prop :=
  forall i td, zget defs i = Some td -> supertype td = WAH_NO_SUPERTYPE \/ 0 <= supertype td < i.

Lemma io_refs limit ts : io_good (for_each ts (check_type_ref limit)) (fun _ => refs_below limit ts).
Proof.
  apply io_for_each. intros t _. unfold check_type_ref. eapply io_bind; [apply io_ensure|]. intros [] Hc.
  eapply io_mono; [apply io_type_features|]. intros [] _ Ht. rewrite (proj2 (Z.leb_le 0 t) Ht) in Hc.
  by apply negb_true_iff, Z.leb_gt in Hc.
Qed.

Lemma io_depth defs fuel t depth : supers_before defs -> 0 <= t < zlen defs -> 0 <= depth <= WAH_MAX_SUBTYPE_DEPTH ->
  WAH_MAX_SUBTYPE_DEPTH - depth < Z.of_nat fuel ->
  io_good (check_depth fuel defs t depth) (fun _ => exists n, super_depth defs t n /\ depth + n <= WAH_MAX_SUBTYPE_DEPTH).
Proof.
  intros Hs. revert t depth. induction fuel as [|fuel IH]; intros t depth Ht Hd Hf; [lia|]. cbn [check_depth].
  destruct (zget_is_Some defs t Ht) as [td Htd]. eapply io_bind; [by eapply (io_opt _ _ (eq td))|]. intros _ <-.
  apply io_if; intros Hn.
  - apply Z.eqb_eq in Hn. apply io_ret. exists 0. split; [by eapply depth_root|lia].
  - apply Z.eqb_neq in Hn. destruct (Hs t td Htd) as [|Hlt]; [done|]. eapply io_bind; [apply io_ensure|]. intros [] Hle%Z.leb_le.
    eapply io_mono; [apply IH; lia|]. intros [] (n & H1 & H2). exists (n + 1). split; [by eapply depth_sub|lia].
Qed.

Lemma io_type_def types defs i ft td : supers_before defs -> zlen defs <= WAH_MAX_TYPE_INDEX + 1 ->
  zget types i = Some ft -> zget defs i = Some td -> 0 <= rec_group_start td + rec_group_size td <= zlen defs ->
  io_good (check_type_def types defs i) (fun _ => def_checked defs i ft td).
Proof.
  intros Hs Hmax Hft Htd Hg. rewrite max_type_index in Hmax. pose proof (zget_Some _ _ _ Htd) as [Hi _]. unfold check_type_def.
  eapply io_bind; [by eapply (io_opt _ _ (eq td))|]. intros _ <-. eapply io_bind; [by eapply (io_opt _ _ (eq ft))|]. intros _ <-.
  rewrite u32_small by lia. eapply io_bind; [apply io_refs|]. intros [] Hp. eapply io_bind; [apply io_refs|]. intros [] Hr.
  eapply (io_bind _ _ (fun _ => super_ok defs i td)).
  - apply io_if; intros Hn; [|apply io_ret; by apply negb_false_iff, Z.eqb_eq in Hn]. apply negb_true_iff, Z.eqb_neq in Hn.
    destruct (Hs i td Htd) as [|Hlt]; [done|]. eapply io_bind; [apply io_ensure|]. intros [] _.
    destruct (zget_is_Some defs (supertype td) ltac:(lia)) as [std Hstd].
    eapply io_bind; [by eapply (io_opt _ _ (eq std))|]. intros _ <-. eapply io_bind; [apply io_ensure|]. intros [] Hfin%negb_true_iff.
    eapply io_bind; [apply io_ensure|]. intros [] Hk%comp_kind_eqb_spec.
    eapply io_mono; [apply io_depth; [done|lia|unfold WAH_MAX_SUBTYPE_DEPTH; lia..]|]. intros [] (n & H1 & H2) _. split; [done|].
    exists std, (n + 1). split_and!; try done; [by eapply depth_sub|lia].
  - intros [] Hsup. apply io_if; intros Ha.
    + eapply io_mono; [apply io_refs|]. intros [] Hf. by split.
    + apply io_ret. split; try done. by rewrite Ha.
Qed.

Lemma parsed_supers s : types_parsed s -> supers_before (t_defs s).
Proof.
  intros Hp i td Htd. destruct (zget_is_Some (t_types s) i) as [ft Hft].
  { apply zget_Some in Htd as [Hi _]. pose proof (tp_len _ Hp). lia. }
  eapply so_super. by eapply tp_slots.
Qed.

(** What the parser gives to the construction of the metadata. *)
Record defs_parsed (types : list wah_func_type_t) (defs : list wah_type_def_t) : Prop := {
  dp_len : zlen types = zlen defs;
  dp_max : zlen defs <= WAH_MAX_TYPE_INDEX + 1;
  dp_slots : forall i ft td, zget types i = Some ft -> zget defs i = Some td -> slot_ok i ft td /\ def_checked defs i ft td;
  dp_groups : groups_upto (zlen defs) defs }.

Lemma wp_parse_type_defs s0 : decoder_bytes s0.1 ->
  wp parse_type_defs (fun _ s => decoder_bytes (t_io s).1 /\ defs_parsed (t_types s) (t_defs s)) (TypeState s0 [] [] 0).
Proof.
  intros Hb. unfold parse_type_defs. apply wp_bind. eapply wp_on_io; [apply io_count|exact Hb|]. intros n x Hn Hx _. cbv beta in Hn.
  simpl. apply wp_bind. eapply wp_mono.
  { apply (wp_for_each _ _ (fun _ s => groups_parsed s)).
    - split.
      + split; simpl; [done|done|by rewrite max_type_index; vm_compute|by left|by intros i ft td [_ H]%zget_Some].
      + by intros i td Hi [_ H]%zget_Some.
    - intros _ _ _ s _ Hs. by apply wp_parse_rec. }
  intros [] s [Hp Hg]. apply wp_bind, wp_get. pose proof (tp_cap _ Hp) as Hcap.
  eapply wp_on_io; [|apply Hp|].
  - apply (io_for_each _ _ (fun i => forall ft td, zget (t_types s) i = Some ft -> zget (t_defs s) i = Some td -> def_checked (t_defs s) i ft td)).
    intros i Hi%elem_of_zrange. destruct (zget_is_Some (t_types s) i) as [ft Hft]; [pose proof (tp_len _ Hp); lia|].
    destruct (zget_is_Some (t_defs s) i Hi) as [td Htd]. destruct (Hg i td ltac:(lia) Htd) as (G1 & G2 & _).
    eapply io_mono; [apply (io_type_def _ _ i ft td); [by apply parsed_supers|lia|done|done|lia]|]. intros [] H. naive_solver.
  - intros [] x' H Hx' _. simpl. split; [done|]. split; [apply Hp|lia| |done]. intros i ft td Hft Htd. split; [by eapply tp_slots|].
    rewrite Forall_forall in H. apply H; [|done|done]. apply elem_of_zrange. by apply zget_Some in Htd as [? _].
Qed.
