(* ===== verification/TypeMeta.v ===== *)
(** * Accepted type sections

    The checks and metadata of [wah_module_build_type_metadata]: its check of declared
    supertypes decides the rule of the specification, and with the reading of the
    section (TypeSection.v) an accepted section gives a module as the rest of the
    development assumes it. *)

From S2P Require Import Prelude Base Alloc Types Opcodes Bytes Leb128 Decode Subtype RecGroups ModuleEnv Operands Validate ValidInv ValidRules Locals ParseIo Layout TypeSection.
From stdpp Require Import list sets.
#[local] Open Scope Z_scope.
#[local] Open Scope wah_scope.

(** ** Definitions *)

(** *** Declared supertypes *)

Section Spec.
Context (m : wah_module_t).

(** The same type, up to equivalence of recursion groups. *)
Definition same_ref (a b : wah_type_t) : Prop :=
  a = b \/ (0 <= a /\ 0 <= b /\ WAH_TYPE_IS_NULLABLE a = WAH_TYPE_IS_NULLABLE b /\
            type_equiv m (WAH_TYIDX a) (WAH_TYIDX b)).

(** Field [j] of a supertype [super_td] and of its subtype [td]: mutable fields are
    invariant, immutable ones covariant. *)
Definition field_matches (super_td td : wah_type_def_t) (j : Z) : Prop :=
  exists a b smut mut, zget (field_types super_td) j = Some a /\ zget (field_types td) j = Some b /\
    zget (field_mutables super_td) j = Some smut /\ zget (field_mutables td) j = Some mut /\
    mut = smut /\ if smut then same_ref a b else type_sub m b a.

(** Functions are contravariant in their parameters and covariant in their results;
    structs may have more fields. *)
Definition def_matches (i : Z) (td super_td : wah_type_def_t) : Prop :=
  match kind td with
  | WAH_COMP_FUNC => exists ft super_ft, zget (types m) i = Some ft /\ zget (types m) (supertype td) = Some super_ft /\
      Forall2 (type_sub m) (param_types super_ft) (param_types ft) /\
      Forall2 (type_sub m) (result_types ft) (result_types super_ft)
  | _ => zlen (field_types super_td) <= zlen (field_types td) /\
      forall j, 0 <= j < zlen (field_types super_td) -> field_matches super_td td j
  end.

Definition super_matches (i : Z) : Prop :=
  forall td super_td, type_at m i td -> supertype td <> WAH_NO_SUPERTYPE -> type_at m (supertype td) super_td ->
  def_matches i td super_td.

End Spec.

(** *** Layouts *)

Section Layouts.
Context (t2r : option (list wah_repr_t)) (infos : list wah_repr_info_t).

Definition repr_of (i : Z) (info : wah_repr_info_t) : Prop :=
  exists map r, t2r = Some map /\ zget map i = Some r /\ zget infos r = Some info.

(** The representation of a type: none for functions, its layout for a struct, the size
    and representation of the elements for an array. *)
Definition repr_built (i : Z) (td : wah_type_def_t) : Prop :=
  match kind td with
  | WAH_COMP_FUNC => exists map, t2r = Some map /\ zget map i = Some WAH_REPR_NONE
  | WAH_COMP_STRUCT => exists info, repr_of i info /\ repr_type info = WAH_REPR_STRUCT /\ repr_typeidx info = i /\
      layout_ok (field_types td) (repr_fields info) (repr_size info) /\
      exists info' a a', wah_build_struct_repr_info i td a = (Ok info', a') /\ repr_fields info' = repr_fields info
  | WAH_COMP_ARRAY => exists info ft r, repr_of i info /\ repr_type info = WAH_REPR_ARRAY /\ repr_typeidx info = i /\
      field_types td = [ft] /\ wah_field_type_layout ft = Ok (repr_size info, r) /\ repr_fields info = [ReprField 0 r]
  end.
End Layouts.

(** ** Theorems *)

(** *** Checks that decide *)

(** The code accepts exactly when [P] holds, and does nothing else. *)
Definition decides {S} (c : comp S unit) (P : Prop) : Prop :=
  exists b : bool, (forall s, c s = stm_ensure b WAH_ERROR_VALIDATION_FAILED s) /\ (b = true <-> P).

Lemma decides_iff {S} (c : comp S unit) P Q : decides c P -> (P <-> Q) -> decides c Q.
Proof. intros (b & H1 & H2) HPQ. exists b. split; [done|]. by rewrite H2. Qed.
Lemma decides_ret {S} : decides (stm_ret tt : comp S unit) True.
Proof. by exists true. Qed.
Lemma decides_ensure {S} b P : (b = true <-> P) -> decides (stm_ensure b WAH_ERROR_VALIDATION_FAILED : comp S unit) P.
Proof. intros H. by exists b. Qed.
Lemma decides_opt {S A} (o : option A) a (f : A -> comp S unit) P : o = Some a -> decides (f a) P -> decides (stm_bind f (stm_opt o)) P.
Proof. intros -> (b & H1 & H2). exists b. by split. Qed.
Lemma decides_bind {S} (c d : comp S unit) P Q : decides c P -> (P -> decides d Q) -> decides (c ;;; d) (P /\ Q).
Proof.
  intros ([] & H1 & H2) Hd.
  - destruct Hd as (b & H3 & H4); [by apply H2|]. exists b. split; [|naive_solver].
    intros s. unfold stm_bind. by rewrite H1, <- H3.
  - exists false. split; [|naive_solver]. intros s. unfold stm_bind. by rewrite H1.
Qed.
Lemma decides_for_each {S A} (l : list A) (f : A -> comp S unit) (P : A -> Prop) :
  (forall a, a ∈ l -> decides (f a) (P a)) -> decides (for_each l f) (forall a, a ∈ l -> P a).
Proof.
  induction l as [|a l IH]; intros H; cbn [for_each].
  - eapply decides_iff; [apply decides_ret|]. split; [|done]. intros _ a Ha. by apply elem_of_nil in Ha.
  - eapply decides_iff; [apply decides_bind; [apply H; left|intros _; apply IH; intros b Hb; apply H; by right]|].
    split; [intros [H1 H2] b [->|Hb]%elem_of_cons; auto|]. intros H1. split; [apply H1; left|]. intros b Hb. apply H1. by right.
Qed.

(** *** The check of declared supertypes *)

Section Supers.
Context (m : wah_module_t) (GW : groups_wf m) (TW : types_wf m) (HC : canonical_map m = build_canonical_map m).
Context (FT : Forall (func_type_ok m) (types m)) (DT : Forall (type_def_ok m) (type_defs m)).

Lemma valid_index t : type_valid m t -> 0 <= t -> 0 <= WAH_TYIDX t < type_count m.
Proof.
  intros Hv Ht. assert (conc_valid m t) as [Hb Hlt].
  { destruct Hv as [Hu|[Hu|Hu]]; [|lia|done]. rewrite !elem_of_cons, elem_of_nil in Hu. by destruct_or?; simplify_eq. }
  split; [|done]. by apply tyidx_bound.
Qed.

Lemma canon_at_equiv a b : type_valid m a -> type_valid m b -> 0 <= a -> 0 <= b ->
  exists c c', canon_at m a = Some c /\ canon_at m b = Some c' /\ (c = c' <-> type_equiv m (WAH_TYIDX a) (WAH_TYIDX b)).
Proof.
  intros Ha Hb Za Zb. pose proof (valid_index a Ha Za) as Ra. pose proof (valid_index b Hb Zb) as Rb.
  destruct (build_canonical_map_ok m GW) as (cm & E & Hm). destruct (map_upto_types m GW cm Hm) as [_ H].
  unfold canon_at. rewrite HC, E. simpl. destruct (H _ Ra) as (c & Ec & _ & _ & _ & Hiff).
  destruct (H _ Rb) as (c' & Ec' & _). exists c, c'. split; [done|]. split; [done|].
  rewrite <- (Hiff _ Rb), Ec'. split; congruence.
Qed.

Lemma same_type_ok a b : type_valid m a -> type_valid m b -> exists r, same_type m a b = Some r /\ (r = true <-> same_ref m a b).
Proof.
  intros Ha Hb. unfold same_type, same_ref. destruct (Z.eqb_spec a b) as [->|Hne]; [exists true; naive_solver|].
  destruct (Z.leb_spec 0 a); [|exists false; split; [done|]; split; [done|lia]].
  destruct (Z.leb_spec 0 b); [|exists false; split; [done|]; split; [done|lia]]. cbn [andb].
  destruct (eqb (WAH_TYPE_IS_NULLABLE a) (WAH_TYPE_IS_NULLABLE b)) eqn:En.
  - apply eqb_prop in En. destruct (canon_at_equiv a b) as (c & c' & -> & -> & Hc); [done..|]. simpl. eexists. split; [done|].
    rewrite Z.eqb_eq, Hc. split; [intros ?; right; by split_and!|]. by intros [|(_ & _ & _ & ?)].
  - apply eqb_false_iff in En. exists false. split; [done|]. split; [done|]. intros [|(_ & _ & ? & _)]; done.
Qed.

Lemma func_type_exists i td : type_at m i td -> exists ft, zget (types m) i = Some ft /\ func_type_ok m ft.
Proof.
  intros Htd. destruct (zget_is_Some (types m) i) as [ft Hft]; [rewrite (gw_types m GW); by eapply type_at_range|].
  exists ft. split; [done|]. apply zget_Some in Hft as [_ Hft]. by eapply Forall_lookup_1 in Hft.
Qed.

Lemma decides_subtype a b : type_valid m a -> type_valid m b -> decides (ensure_subtype m a b) (type_sub m a b).
Proof.
  intros Ha Hb. destruct (wah_type_is_subtype_correct m TW a b) as (r & Hr & Hiff); [by left..|].
  unfold ensure_subtype. eapply decides_opt; [exact Hr|]. by apply decides_ensure.
Qed.
Lemma decides_subtypes ts us : Forall (type_valid m) ts -> Forall (type_valid m) us -> length ts = length us ->
  decides (ensure_subtypes m ts us) (Forall2 (type_sub m) ts us).
Proof.
  intros Hts. revert us. induction Hts as [|t ts Ht Hts IH]; intros [|u us] Hus Hl; try done; cbn [ensure_subtypes].
  - eapply decides_iff; [apply decides_ret|]. split; [constructor|done].
  - apply Forall_cons in Hus as [Hu Hus]. eapply decides_iff; [apply decides_bind; [by apply decides_subtype|intros _; apply IH; [done|simpl in Hl; lia]]|].
    rewrite Forall2_cons. done.
Qed.

Lemma decides_field super_td td j : type_def_ok m super_td -> type_def_ok m td ->
  0 <= j < zlen (field_types super_td) -> zlen (field_types super_td) <= zlen (field_types td) ->
  decides (check_super_field m super_td td j) (field_matches m super_td td j).
Proof.
  intros [V1 M1 _] [V2 M2 _] Hj Hle. unfold check_super_field, field_matches.
  assert (E1 : zlen (field_mutables super_td) = zlen (field_types super_td)) by (unfold zlen; lia).
  assert (E2 : zlen (field_mutables td) = zlen (field_types td)) by (unfold zlen; lia).
  destruct (zget_is_Some (field_types super_td) j) as [a Ha]; [lia|]. destruct (zget_is_Some (field_types td) j) as [b Hb]; [lia|].
  destruct (zget_is_Some (field_mutables super_td) j) as [sm Hsm]; [lia|]. destruct (zget_is_Some (field_mutables td) j) as [mu Hmu]; [lia|].
  assert (Va : type_valid m a) by (apply zget_Some in Ha as [_ Ha]; by eapply Forall_lookup_1 in Ha).
  assert (Vb : type_valid m b) by (apply zget_Some in Hb as [_ Hb]; by eapply Forall_lookup_1 in Hb).
  eapply decides_opt; [exact Ha|]. eapply decides_opt; [exact Hb|]. eapply decides_opt; [exact Hsm|]. eapply decides_opt; [exact Hmu|].
  eapply (decides_iff _ (mu = sm /\ if sm then same_ref m a b else type_sub m b a)).
  - destruct sm.
    + destruct (same_type_ok a b Va Vb) as (r & Hr & Hiff). apply decides_bind; [by apply decides_ensure|]. intros _.
      eapply decides_opt; [exact Hr|]. by apply decides_ensure.
    + apply decides_bind; [apply decides_ensure; by destruct mu|]. intros _. by apply decides_subtype.
  - split; [intros H; by exists a, b, sm, mu|]. intros (a' & b' & sm' & mu' & A & B & C & D & H). by simplify_eq.
Qed.

Lemma decides_matches i td std : type_at m i td -> type_at m (supertype td) std -> kind std = kind td ->
  decides (check_matches m i td std) (def_matches m i td std).
Proof.
  intros Htd Hstd Hk.
  assert (Dt : type_def_ok m td) by (apply zget_Some in Htd as [_ Htd]; by eapply Forall_lookup_1 in Htd).
  assert (Ds : type_def_ok m std) by (apply zget_Some in Hstd as [_ Hstd]; by eapply Forall_lookup_1 in Hstd).
  unfold check_matches, def_matches. destruct (kind td) eqn:Ek.
  - destruct (func_type_exists i td Htd) as (ft & Hft & [P1 R1 _ _]). destruct (func_type_exists _ std Hstd) as (sft & Hsft & [P2 R2 _ _]).
    eapply decides_opt; [exact Hft|]. eapply decides_opt; [exact Hsft|].
    eapply decides_iff.
    + apply decides_bind; [by apply decides_ensure, Z.eqb_eq|]. intros Hp. apply decides_bind; [by apply decides_ensure, Z.eqb_eq|]. intros Hr.
      apply decides_bind; [apply decides_subtypes; try done; unfold zlen in *; lia|]. intros _.
      apply decides_subtypes; try done. unfold zlen in *; lia.
    + split; [intros (_ & _ & H1 & H2); by exists ft, sft|]. intros (ft' & sft' & E1 & E2 & H1 & H2). simplify_eq.
      pose proof (Forall2_length _ _ _ H1). pose proof (Forall2_length _ _ _ H2). split_and!; try done; unfold zlen; lia.
  - eapply decides_iff.
    + apply decides_bind; [by apply decides_ensure, Z.leb_le|]. intros Hle. apply decides_for_each. intros j Hj%elem_of_zrange.
      by apply decides_field.
    + split; intros [H1 H2]; (split; [done|]); intros j Hj; apply H2; by apply elem_of_zrange.
  - pose proof (td_array _ _ Dt Ek) as A1. pose proof (td_array _ _ Ds Hk) as A2. rewrite A1, A2.
    eapply decides_iff; [apply decides_bind; [by apply decides_ensure|intros _; apply decides_field; try done; lia]|].
    split; intros [_ H]; (split; [done|]); [intros j Hj; by replace j with 0 by lia|apply H; lia].
Qed.

Lemma decides_super i : 0 <= i < type_count m -> decides (check_super m i) (super_matches m i).
Proof.
  intros Hi. destruct (type_at_exists m i Hi) as [td Htd]. unfold check_super. eapply decides_opt; [exact Htd|].
  unfold super_matches. destruct (Z.eqb_spec (supertype td) WAH_NO_SUPERTYPE) as [Hno|Hs].
  { eapply decides_iff; [apply decides_ret|]. split; [|done]. intros _ td' std Htd' Hs'. unfold type_at in *. by simplify_eq. }
  destruct (wf_super m TW i td Htd Hs) as (Hr & std & Hstd & Hkind). eapply decides_opt; [exact Hstd|].
  eapply decides_iff; [by apply decides_matches|]. unfold type_at in *. split; [|intros H; by apply H].
  intros H td' std' E1 _ E2. by simplify_eq.
Qed.
End Supers.

(** *** Representations *)

Lemma storage_known t : storage_type_valid t = true -> known_layout t.
Proof.
  unfold storage_type_valid, known_layout, wah_field_type_layout, WAH_TYPE_IS_PACKED. rewrite !orb_true_iff, andb_true_iff.
  intros Hv. repeat (case_match; [by eexists _, _|]). repeat match goal with H : (_ || _) = false |- _ => apply orb_false_iff in H as [? ?] end.
  destruct_or? Hv; try congruence. destruct Hv; congruence.
Qed.

(** The representations of the types before [n] are built. *)
Record reprs_upto (defs : list wah_type_def_t) (n : Z) (s : meta_state) : Prop := {
  ru_map : zlen (m_t2r s) = zlen defs;
  ru_count : zlen (m_infos s) <= n;
  ru_later : forall i, n <= i < zlen defs -> zget (m_t2r s) i = Some WAH_REPR_NONE;
  ru_built : forall i td, i < n -> zget defs i = Some td -> repr_built (Some (m_t2r s)) (m_infos s) i td }.

(** Other types keep their representations. *)
Lemma repr_built_mono (map map' : list wah_repr_t) infos info n i td : zset map n (zlen infos) = Some map' -> i <> n ->
  repr_built (Some map) infos i td -> repr_built (Some map') (infos ++ [info]) i td.
Proof.
  intros Hset Hne. assert (Hof : forall x, repr_of (Some map) infos i x -> repr_of (Some map') (infos ++ [info]) i x).
  { intros x (m & r & [= <-] & H1 & H2). exists map', r. split; [done|]. rewrite (zset_lookup _ _ _ _ i Hset).
    rewrite (proj2 (Z.eqb_neq i n) Hne). split; [done|]. rewrite zget_app_lt; [done|]. apply zget_Some in H2 as [? _]. lia. }
  unfold repr_built. destruct (kind td).
  - intros (m & [= <-] & H). exists map'. split; [done|]. by rewrite (zset_lookup _ _ _ _ i Hset), (proj2 (Z.eqb_neq i n) Hne).
  - intros (x & H & H'). exists x. by split; [apply Hof|].
  - intros (x & ft & r & H & H'). exists x, ft, r. by split; [apply Hof|].
Qed.

Lemma grow_pow2_no_fault n k a : (wah_grow_array_pow2 n k a).1 <> Fault.
Proof.
  unfold wah_grow_array_pow2. destruct (negb _); [done|]. unfold stm_bind, stm_ensure. destruct (n <=? UINT32_MAX / 2); [|done]. unfold stm_ret at 1.
  by destruct (wah_malloc_c_cases (if n =? 0 then 1 else n * 2) k a) as [[a' ->]|[a' ->]].
Qed.

Lemma wp_alloc_repr defs n td info s : reprs_upto defs n s -> zget defs n = Some td -> zlen defs <= WAH_MAX_TYPE_INDEX + 1 ->
  (forall map infos, repr_of (Some map) infos n (ReprInfo (repr_type info) n (repr_size info) (repr_fields info)) ->
     repr_built (Some map) infos n td) ->
  wp (wah_module_alloc_repr (zlen defs) n info) (fun _ s' => reprs_upto defs (n + 1) s') s.
Proof.
  intros [R1 R2 R3 R4] Hn Hmax Hb. rewrite max_type_index in Hmax. pose proof (zget_Some _ _ _ Hn) as [Hr _]. unfold wp, wah_module_alloc_repr.
  unfold stm_bind at 1, stm_ensure at 1. rewrite (proj2 (Z.ltb_lt _ _)) by lia. unfold stm_ret at 1.
  unfold stm_bind at 1, stm_opt at 1. rewrite R3 by lia. unfold stm_bind at 1, stm_ensure at 1. rewrite Z.eqb_refl. unfold stm_ret at 1.
  pose proof (grow_pow2_no_fault (zlen (m_infos s)) 8 (m_ans s)) as Hg.
  unfold stm_bind at 1. destruct (wah_grow_array_pow2 _ _ (m_ans s)) as [[o|e|] a]; [|done|done].
  unfold stm_bind at 1. destruct (wah_malloc_c_cases (u64 (sizeof_wah_repr_info_t + zlen (repr_fields info) * sizeof_wah_repr_field_t)) 1 a)
    as [[a1 ->]|[a1 ->]]; [|done].
  assert (Hlen : 0 <= zlen (m_infos s)) by (unfold zlen; lia).
  replace (s32 (zlen (m_infos s))) with (zlen (m_infos s)) by (symmetry; apply (sgn_small 32); lia). destruct (zset_is_Some (m_t2r s) n (zlen (m_infos s))) as [map Hmap]; [lia|]. rewrite Hmap. simpl.
  split; simpl.
  - by rewrite (zset_length _ _ _ _ Hmap).
  - rewrite zlen_snoc. lia.
  - intros i Hi. rewrite (zset_lookup _ _ _ _ i Hmap), (proj2 (Z.eqb_neq i n)) by lia. apply R3. lia.
  - intros i td' Hi Htd'. destruct (decide (i = n)) as [->|Hne].
    + assert (td' = td) as -> by congruence. apply Hb. exists map, (zlen (m_infos s)). split; [done|].
      rewrite (zset_lookup _ _ _ _ n Hmap), Z.eqb_refl. split; [done|]. apply zget_snoc_last.
    + eapply repr_built_mono; [exact Hmap|done|]. apply R4; [lia|done].
Qed.

Lemma wp_on_m_ans {A} (m : comp answers A) (Q : A -> meta_state -> Prop) s :
  match m (m_ans s) with
  | (Ok v, a) => Q v (MetaState a (m_t2r s) (m_infos s)) | (Err _, _) => True | (Fault, _) => False
  end -> wp (on_m_ans m) Q s.
Proof. unfold wp, on_m_ans. by destruct (m (m_ans s)) as [[v|e|] a]. Qed.

Lemma wp_build_repr defs n td s : reprs_upto defs n s -> zget defs n = Some td -> zlen defs <= WAH_MAX_TYPE_INDEX + 1 ->
  Forall (fun t => storage_type_valid t = true) (field_types td) -> (kind td = WAH_COMP_ARRAY -> zlen (field_types td) = 1) ->
  wp (build_repr defs n) (fun _ s' => reprs_upto defs (n + 1) s') s.
Proof.
  intros Hs Hn Hmax Hst Harr. assert (Hk : Forall known_layout (field_types td)) by (by eapply Forall_impl; [|apply storage_known]).
  unfold build_repr. apply wp_bind. eapply wp_opt; [exact Hn|]. destruct (kind td) eqn:Ek.
  - apply wp_ret. destruct Hs as [R1 R2 R3 R4]. pose proof (zget_Some _ _ _ Hn) as [Hr _]. split; [done|lia|intros; apply R3; lia|].
    intros i td' Hi Htd'. destruct (decide (i = n)) as [->|]; [|apply R4; [lia|done]]. assert (td' = td) as -> by congruence.
    unfold repr_built. rewrite Ek. exists (m_t2r s). split; [done|]. apply R3. lia.
  - apply wp_bind, wp_on_m_ans. pose proof (build_struct_repr_ok n td (m_ans s) Ek Hk) as H.
    destruct (wah_build_struct_repr_info n td (m_ans s)) as [[info|e|] a] eqn:E; [|done|done]. destruct H as (H1 & H2 & H3 & _).
    eapply wp_alloc_repr; [by destruct Hs; split|exact Hn|done|]. intros map infos Hof. unfold repr_built. rewrite Ek.
    eexists. split; [exact Hof|]. split_and!; try done. by exists info, (m_ans s), a.
  - specialize (Harr eq_refl). destruct (field_types td) as [|ft [|]] eqn:Ef; try (unfold zlen in Harr; simpl in Harr; lia).
    apply Forall_cons in Hk as [(sz & r & Hft) _]. apply wp_bind, wp_on_m_ans. unfold wah_build_array_repr_info. rewrite Ef.
    unfold stm_bind, of_result. simpl. rewrite Hft. cbv iota beta.
    destruct (wah_malloc_c_cases 1 (sizeof_wah_repr_info_t + sizeof_wah_repr_field_t) (m_ans s)) as [[a ->]|[a ->]]; [|done].
    eapply wp_alloc_repr; [by destruct Hs; split|exact Hn|done|]. intros map infos Hof. unfold repr_built. rewrite Ek.
    eexists _, ft, r. split; [exact Hof|]. by rewrite Ef.
Qed.

(** *** Accepted sections *)

(** The layout of a struct begins with the layout of its supertype. *)
Definition layouts_extend (m : wah_module_t) : Prop := forall i td std info sinfo,
  type_at m i td -> supertype td <> WAH_NO_SUPERTYPE -> type_at m (supertype td) std -> kind td = WAH_COMP_STRUCT ->
  repr_of (typeidx_to_repr m) (repr_infos m) i info -> repr_of (typeidx_to_repr m) (repr_infos m) (supertype td) sinfo ->
  repr_fields sinfo `prefix_of` repr_fields info.

(** What the type section gives to the rest of the module. *)
Record type_section_ok (m : wah_module_t) : Prop := {
  tso_types : types_wf m;
  tso_count : zlen (types m) = type_count m;
  tso_funcs : Forall (func_type_ok m) (types m);
  tso_defs : Forall (type_def_ok m) (type_defs m);
  tso_groups : groups_wf m;
  tso_canon : 0 < type_count m -> canonical_map m = build_canonical_map m;
  tso_declared : forall i td, type_at m i td -> super_ok (type_defs m) i td;
  tso_supers : forall i, 0 <= i < type_count m -> super_matches m i;
  tso_reprs : forall i td, type_at m i td -> repr_built (typeidx_to_repr m) (repr_infos m) i td;
  tso_layouts : layouts_extend m }.

Section Parsed.
Context (m : wah_module_t) (DP : defs_parsed (types m) (type_defs m)).

Lemma parsed_func_type i td : type_at m i td -> exists ft, zget (types m) i = Some ft /\ slot_ok i ft td /\ def_checked (type_defs m) i ft td.
Proof.
  intros Htd. pose proof (zget_Some _ _ _ Htd) as [Hi _]. destruct (zget_is_Some (types m) i) as [ft Hft]; [rewrite (dp_len _ _ DP); lia|].
  exists ft. split; [done|]. by eapply dp_slots.
Qed.

Lemma storable_bound t : storage_type_valid t = true -> 0 <= t -> t < 2 ^ 31.
Proof.
  unfold storage_type_valid, WAH_TYPE_IS_PACKED, INT32_MAX. rewrite !orb_true_iff, andb_true_iff. intros H Ht.
  destruct_or? H; zeq; try done. destruct H as [_ H%Z.leb_le]. lia.
Qed.

Lemma parsed_groups : groups_wf m.
Proof.
  assert (Hc : type_count m = zlen (type_defs m)) by done. pose proof (dp_max _ _ DP) as Hmax. split; rewrite ?Hc.
  - done.
  - apply (dp_len _ _ DP).
  - intros i td Htd. apply (dp_groups _ _ DP); [|done]. by apply zget_Some in Htd as [[_ ?] _].
  - intros i td Htd Hs. destruct (parsed_func_type i td Htd) as (ft & _ & [_ _ _ _ _ _ _ [?|?]] & _); done.
  - intros i td t Htd Hr Ht. destruct (parsed_func_type i td Htd) as (ft & Hft & S & C).
    destruct (dp_groups _ _ DP i td) as (G1 & G2 & _); [by apply zget_Some in Htd as [[_ ?] _]|done|].
    destruct Hr as [[Hs ->]|[[Hk (ft' & Hft' & Hin)]|[Hk Hin]]].
    + destruct (so_super _ _ _ S) as [|Hlt]; [done|]. pose proof (zget_Some _ _ _ Htd) as [Hi _]. rewrite max_type_index in Hmax.
      rewrite tyidx_from_idx by (rewrite max_type_index; lia). split; [|lia]. rewrite from_idx_small by (rewrite max_type_index; lia). simpl b2z. lia.
    + assert (ft' = ft) as -> by congruence. destruct (so_params _ _ _ S) as [P _]. destruct (so_results _ _ _ S) as [R _].
      pose proof (dc_params _ _ _ _ C) as CP. pose proof (dc_results _ _ _ _ C) as CR. unfold refs_below in *.
      rewrite Forall_forall in P, R, CP, CR. destruct Hin as [Hin|Hin]; (split; [apply storable_bound; auto|auto]).
    + pose proof (so_fields _ _ _ S) as F. pose proof (dc_fields _ _ _ _ C) as CF. unfold refs_below in CF.
      rewrite Forall_forall in F. split; [by apply storable_bound; auto|]. 
      assert (is_aggregate td = true) as Ha by (unfold is_aggregate; by destruct (kind td)).
      specialize (CF Ha). rewrite Forall_forall in CF. auto.
  - intros i td Htd. destruct (parsed_func_type i td Htd) as (ft & _ & S & _). apply (so_mutables _ _ _ S).
Qed.

Lemma parsed_same_kind : supers_same_kind m.
Proof.
  intros i td td' Htd Hs Htd'. destruct (parsed_func_type i td Htd) as (ft & _ & _ & C).
  destruct (dc_super _ _ _ _ C Hs) as (_ & std & n & E & _ & Hk & _). unfold type_at in Htd'. congruence.
Qed.

Lemma parsed_valid i td t : type_at m i td -> storage_type_valid t = true ->
  (0 <= t -> WAH_TYIDX t < rec_group_start td + rec_group_size td) -> type_valid m t.
Proof.
  intros Htd Hst Hlt. apply decoded_type_valid; [done|]. unfold type_index_ok. destruct (Z.ltb_spec t 0); [done|].
  destruct (dp_groups _ _ DP i td) as (_ & G2 & _); [by apply zget_Some in Htd as [[_ ?] _]|done|].
  apply Z.ltb_lt. change (type_count m) with (zlen (type_defs m)). specialize (Hlt ltac:(done)). lia.
Qed.

Lemma non_null_defaults ts : existsb non_null_ref ts = negb (forallb has_default ts).
Proof.
  induction ts as [|t ts IH]; [done|]. simpl. rewrite IH, negb_andb. f_equal. unfold non_null_ref, has_default. by rewrite negb_orb, negb_involutive.
Qed.

Lemma parsed_types : Forall (func_type_ok m) (types m) /\ Forall (type_def_ok m) (type_defs m).
Proof.
  split; apply Forall_lookup_2; intros n x Hx.
  - assert (Hft : zget (types m) (Z.of_nat n) = Some x) by by rewrite zget_of_nat.
    destruct (type_at_exists m (Z.of_nat n)) as [td Htd].
    { apply zget_Some in Hft as [Hr _]. rewrite (dp_len _ _ DP) in Hr. done. }
    destruct (parsed_func_type _ td Htd) as (ft & E & S & C). assert (ft = x) as -> by congruence.
    destruct (so_params _ _ _ S) as [P1 P2]. destruct (so_results _ _ _ S) as [R1 R2].
    pose proof (dc_params _ _ _ _ C) as CP. pose proof (dc_results _ _ _ _ C) as CR. unfold refs_below in *.
    rewrite Forall_forall in P1, R1, CP, CR. split; try done; apply Forall_forall; intros t Hin; eapply parsed_valid; eauto.
  - assert (Htd : type_at m (Z.of_nat n) x) by (unfold type_at; by rewrite zget_of_nat).
    destruct (parsed_func_type _ x Htd) as (ft & E & S & C). split; [|apply (so_mutables _ _ _ S)|apply (so_array _ _ _ S)|intros Hk; rewrite (so_default _ _ _ S Hk); apply non_null_defaults].
    pose proof (so_fields _ _ _ S) as F. destruct (is_aggregate x) eqn:Ea; [|by rewrite (so_aggregate _ _ _ S Ea)].
    pose proof (dc_fields _ _ _ _ C Ea) as CF. unfold refs_below in CF. rewrite Forall_forall in F, CF.
    apply Forall_forall. intros t Hin. eapply parsed_valid; eauto.
Qed.
End Parsed.

Lemma wp_decides {S} (c : comp S unit) P (Q : unit -> S -> Prop) s : decides c P -> (P -> Q tt s) -> wp c Q s.
Proof. intros (b & H1 & H2) HQ. unfold wp. rewrite H1. destruct b; [|done]. simpl. naive_solver. Qed.
Lemma decides_unique {S} (c : comp S unit) P Q (s : S) : decides c P -> decides c Q -> P -> Q.
Proof. intros (b & H1 & H2) (b' & H3 & H4) HP%H2. subst b. apply H4. specialize (H3 s). rewrite H1 in H3. by destruct b'. Qed.
Lemma wp_malloc_a n k (Q : unit -> answers -> Prop) a : (forall a', Q tt a') -> wp (wah_malloc_c n k) Q a.
Proof. intros HQ. unfold wp. by destruct (wah_malloc_c_cases n k a) as [[a' ->]|[a' ->]]. Qed.

(** *** The metadata *)

Section Metadata.
Context (m : wah_module_t) (DP : defs_parsed (types m) (type_defs m)) (cm : list Z) (CM : build_canonical_map m = Some cm).

(** The module with its canonical map and any representations. *)
Definition with_meta (t2r : option (list wah_repr_t)) (infos : list wah_repr_info_t) : wah_module_t :=
  Module (types m) (type_defs m) (Some cm) t2r infos (features m).

Lemma meta_parsed t2r infos : types_wf (with_meta t2r infos) /\ groups_wf (with_meta t2r infos) /\
  Forall (func_type_ok (with_meta t2r infos)) (types m) /\ Forall (type_def_ok (with_meta t2r infos)) (type_defs m).
Proof.
  split; [|split; [by apply (parsed_groups (with_meta t2r infos))|by apply (parsed_types (with_meta t2r infos))]].
  destruct (canonical_types_wf m cm (parsed_groups m DP) (parsed_same_kind m DP) CM) as [H1 H2 H3 H4]. by split.
Qed.

Lemma meta_canon t2r infos : canonical_map (with_meta t2r infos) = build_canonical_map (with_meta t2r infos).
Proof. symmetry. exact CM. Qed.

Lemma meta_super t2r infos i : 0 <= i < type_count m -> decides (check_super (with_meta None []) i) (super_matches (with_meta t2r infos) i).
Proof.
  intros Hi. destruct (meta_parsed t2r infos) as (H1 & H2 & H3 & H4).
  apply (decides_super (with_meta t2r infos) H2 H1 (meta_canon t2r infos) H3 H4 i Hi).
Qed.

Lemma meta_supers i : 0 <= i < type_count m ->
  decides (check_super (with_meta None []) i) (forall t2r infos, super_matches (with_meta t2r infos) i).
Proof.
  intros Hi. pose proof (meta_super None [] i Hi) as H0. eapply decides_iff; [exact H0|]. split; [|auto].
  intros H t2r infos. exact (decides_unique _ _ _ [] H0 (meta_super t2r infos i Hi) H).
Qed.

Lemma wp_reprs s : m_t2r s = replicate (length (type_defs m)) WAH_REPR_NONE -> m_infos s = [] ->
  wp (for_each (zrange 0 (type_count m)) (build_repr (type_defs m))) (fun _ s' => reprs_upto (type_defs m) (type_count m) s') s.
Proof.
  intros E1 E2. apply (wp_for_zrange _ _ _ (fun i s' => reprs_upto (type_defs m) i s')).
  - unfold type_count, zlen. lia.
  - split; rewrite ?E1, ?E2; [unfold zlen; by rewrite length_replicate|done| |intros i td Hi [? _]%zget_Some; lia].
    intros i Hi. rewrite zget_nat by lia. apply lookup_replicate_2. unfold zlen in Hi. lia.
  - intros i s' Hi Hs'. destruct (type_at_exists m i Hi) as [td Htd]. destruct (parsed_func_type m DP i td Htd) as (ft & _ & S & _).
    eapply wp_build_repr; [exact Hs'|exact Htd|apply (dp_max _ _ DP)|apply S|apply S].
Qed.

Lemma same_layout_sub m' a b : type_sub m' b a -> storage_type_valid b = true -> same_layout a b.
Proof.
  intros [->|[->|(Rb & Ra & _)]] Hb; [done|done|]. unfold same_layout, wah_field_type_layout. rewrite Ra, Rb.
  assert (H : forall t k, WAH_TYPE_IS_REF t = true -> k ∈ [WAH_TYPE_PACKED_I8; WAH_TYPE_PACKED_I16; WAH_TYPE_I32; WAH_TYPE_F32;
    WAH_TYPE_I64; WAH_TYPE_F64; WAH_TYPE_V128] -> (t =? k) = false).
  { intros t k Ht Hk. apply Z.eqb_neq. intros ->. rewrite !elem_of_cons, elem_of_nil in Hk. by destruct_or? Hk; subst k. }
  rewrite !(H a), !(H b) by (done || (rewrite !elem_of_cons; tauto)). done.
Qed.
Lemma same_layout_ref m' a b : same_ref m' a b -> same_layout a b.
Proof.
  intros [->|(Ha & Hb & _)]; [done|]. unfold same_layout, wah_field_type_layout.
  assert (H : forall t k, 0 <= t -> k < 0 -> (t =? k) = false) by (intros; apply Z.eqb_neq; lia).
  rewrite !(H a), !(H b) by done. assert (R : forall t, 0 <= t -> WAH_TYPE_IS_REF t = true) by (unfold WAH_TYPE_IS_REF; lia). by rewrite !R.
Qed.

Lemma matching_layouts m' std td : Forall (fun t => storage_type_valid t = true) (field_types td) ->
  zlen (field_types std) <= zlen (field_types td) ->
  (forall j, 0 <= j < zlen (field_types std) -> field_matches m' std td j) ->
  Forall2 same_layout (field_types std) (take (length (field_types std)) (field_types td)).
Proof.
  intros Hst Hle H. apply Forall2_same_length_lookup_2; [rewrite length_take; unfold zlen in Hle; lia|].
  intros n a b Ha Hb. pose proof (lookup_lt_Some _ _ _ Ha). rewrite lookup_take_lt in Hb by done.
  destruct (H (Z.of_nat n)) as (a' & b' & sm & mu & E1 & E2 & _ & _ & _ & Hm); [unfold zlen; lia|].
  rewrite zget_of_nat in E1, E2. simplify_eq. destruct sm; [by eapply same_layout_ref|].
  eapply same_layout_sub; [done|]. exact (Forall_lookup_1 _ _ _ _ Hst Hb).
Qed.

Lemma meta_layouts t2r infos : (forall i td, type_at m i td -> repr_built t2r infos i td) ->
  (forall i, 0 <= i < type_count m -> super_matches (with_meta t2r infos) i) -> layouts_extend (with_meta t2r infos).
Proof.
  intros Hb Hs i td std info sinfo Htd Hno Hstd Hk Hi Hsi. change (type_at m i td) in Htd. change (type_at m (supertype td) std) in Hstd.
  pose proof (zget_Some _ _ _ Htd) as [Hr _]. pose proof (Hs i Hr td std Htd Hno Hstd) as Hm. unfold def_matches in Hm. rewrite Hk in Hm.
  destruct Hm as [Hle Hm]. pose proof (parsed_same_kind m DP i td std Htd Hno Hstd) as Hk'. rewrite Hk in Hk'.
  pose proof (Hb _ _ Htd) as B. pose proof (Hb _ _ Hstd) as B'. unfold repr_built in B, B'. rewrite Hk in B. rewrite Hk' in B'.
  destruct B as (x & (l & r & E1 & E2 & E3) & _ & _ & _ & x' & a & a' & X1 & X2).
  destruct B' as (y & (l' & r' & E1' & E2' & E3') & _ & _ & _ & y' & c & c' & Y1 & Y2).
  destruct Hi as (l1 & r1 & F1 & F2 & F3). destruct Hsi as (l2 & r2 & G1 & G2 & G3). simpl in F1, F3, G1, G3.
  rewrite E1 in F1, G1, E1'. injection F1 as <-. injection G1 as <-. injection E1' as <-. 
  rewrite E2 in F2. injection F2 as <-. rewrite E2' in G2. injection G2 as <-. rewrite E3 in F3. injection F3 as <-.
  rewrite E3' in G3. injection G3 as <-. rewrite <- X2, <- Y2.
  destruct (parsed_func_type m DP i td Htd) as (ft & _ & S & _). pose proof (so_fields _ _ _ S) as Hst.
  eapply (build_struct_repr_prefix _ _ _ _ (take (length (field_types std)) (field_types td)) (drop (length (field_types std)) (field_types td)));
    [|symmetry; apply take_drop| |exact Y1|exact X1].
  - by eapply Forall_impl; [|apply storage_known].
  - by apply (matching_layouts (with_meta t2r infos)).
Qed.
End Metadata.

Lemma wp_build_metadata m cap a : defs_parsed (types m) (type_defs m) -> canonical_map m = None -> typeidx_to_repr m = None ->
  wp (wah_module_build_type_metadata m cap) (fun m' _ => types m' = types m /\ type_defs m' = type_defs m /\ type_section_ok m') a.
Proof.
  intros DP Hcm Ht. pose proof (parsed_groups m DP) as GW. destruct (group_hashes_ok m GW) as (gh & Egh & _).
  destruct (build_canonical_map_ok m GW) as (cm & CM & _). unfold wah_module_build_type_metadata.
  assert (Hdecl : forall i td, type_at m i td -> super_ok (type_defs m) i td).
  { intros i td Htd. destruct (parsed_func_type m DP i td Htd) as (ft & _ & _ & C). apply C. }
  apply wp_if; intros Hz.
  { apply Z.eqb_eq in Hz. apply wp_ret. split; [done|]. split; [done|]. destruct (parsed_types m DP) as [F D].
    assert (Hno : forall i td, ~ type_at m i td).
    { intros i td [Hi _]%zget_Some. unfold type_count in Hz. lia. }
    split; [|apply (dp_len _ _ DP)|done|done|done|intros; lia|done|intros; lia|intros i td H; by edestruct Hno|intros i td std x y H; by edestruct Hno].
    split; [apply GW|intros i td H; by edestruct Hno|intros; lia|intros i j td td' H; by edestruct Hno]. }
  apply Z.eqb_neq in Hz. do 2 (apply wp_bind, wp_malloc_a; intros ?). apply wp_bind. eapply wp_opt; [exact Egh|].
  apply wp_bind, wp_malloc_a; intros a1. apply wp_bind. eapply wp_opt; [exact CM|]. cbv zeta. cbn [types type_defs type_count canonical_map features].
  apply wp_bind. eapply wp_decides.
  { apply (decides_for_each _ _ (fun i => forall t2r infos, super_matches (with_meta m cm t2r infos) i)). intros i Hi%elem_of_zrange.
    exact (meta_supers m DP cm CM i Hi). }
  intros Hsup. apply wp_bind, wp_malloc_a; intros a2. unfold wp.
  pose proof (wp_reprs m DP (MetaState a2 (replicate (length (type_defs m)) WAH_REPR_NONE) []) eq_refl eq_refl) as Hr.
  unfold wp in Hr. simpl. destruct (for_each _ _ (MetaState a2 _ _)) as [[u|e|] s]; [|done|done]. split; [done|]. split; [done|].
  destruct (meta_parsed m DP cm CM (Some (m_t2r s)) (m_infos s)) as (T & G & F & D).
  change (type_section_ok (with_meta m cm (Some (m_t2r s)) (m_infos s))).
  assert (Hall : forall i, 0 <= i < type_count m -> super_matches (with_meta m cm (Some (m_t2r s)) (m_infos s)) i).
  { intros i Hi. by apply Hsup, elem_of_zrange. }
  assert (Hb : forall i td, type_at m i td -> repr_built (Some (m_t2r s)) (m_infos s) i td).
  { intros i td Htd. pose proof (zget_Some _ _ _ Htd) as [Hi _]. eapply ru_built; [exact Hr| |exact Htd]. unfold type_count. lia. }
  split; [done|apply (dp_len _ _ DP)|done|done|done|intros _; apply (meta_canon m cm CM)|done|done|done|by apply meta_layouts].
Qed.

Lemma wp_type_section s : decoder_bytes s.1 ->
  wp wah_parse_type_section (fun m s' => type_section_ok m /\ decoder_bytes s'.1) s.
Proof.
  intros Hb. pose proof (wp_parse_type_defs s Hb) as H. unfold wp in *. unfold wah_parse_type_section.
  destruct (parse_type_defs _) as [[u|e|] s']; [|done|done]. destruct H as [Hb' DP].
  pose proof (wp_build_metadata (Module (t_types s') (t_defs s') None None [] (dec_features (t_io s').1)) (t_cap s') (t_io s').2
    DP eq_refl eq_refl) as Hm. unfold wp in Hm. unfold on_answers.
  destruct (wah_module_build_type_metadata _ _ _) as [[m|e|] a]; [|done|done]. split; [apply Hm|done].
Qed.

(** C36. On any bytes, parsing a type section and building its metadata return, and the
    module of an accepted section is as the rest of the program assumes: every index and
    group is in range, the canonical map is that of equivalence of recursion groups, so
    that subtyping is decided correctly, declared supertypes are not final, come before
    and match their subtypes by the rule of the specification within the depth limit, and
    every struct and array has a correct layout, which extends that of its supertype. *)
Theorem wah_parse_type_section_ok s : decoder_bytes s.1 ->
  match wah_parse_type_section s with
  | (Ok m, s') => type_section_ok m /\ decoder_bytes s'.1
  | (Err _, _) => True
  | (Fault, _) => False
  end.
Proof.
  intros Hb. pose proof (wp_type_section s Hb) as H. unfold wp in H. by destruct (wah_parse_type_section s) as [[m|e|] s'].
Qed.

(** A struct, a final subtype of it with another field, and a group of a function and an
    array that refer to each other. *)
Definition sample_types : list Z :=
  [3; 0x50; 0; 0x5F; 2; 0x78; 1; 0x7E; 0; 0x4F; 1; 0; 0x5F; 3; 0x78; 1; 0x7E; 0; 0x64; 0; 0;
   0x4E; 2; 0x60; 1; 0x64; 3; 0; 0x5E; 0x64; 2; 1].

Lemma wah_parse_type_section_ok_witness : exists m s',
  wah_parse_type_section (Decoder sample_types (FeatureState WAH_FEATURE_ALL 0), []) = (Ok m, s') /\
  type_count m = 4 /\ type_section_ok m.
Proof.
  pose proof (wah_parse_type_section_ok (Decoder sample_types (FeatureState WAH_FEATURE_ALL 0), [])) as H.
  destruct (wah_parse_type_section _) as [r s'] eqn:E. vm_compute in E. injection E as <- <-.
  eexists _, _. split; [reflexivity|]. split; [reflexivity|]. apply H.
  repeat (constructor; [split; [discriminate|reflexivity]|]). constructor.
Defined.

(** C37. For types that were read and whose recursion groups are canonicalised, the check
    of type [i] against its declared supertype has no side effect and no fault, and
    accepts exactly when the subtype matches: it is sound and complete for the rule of
    the specification. *)
Theorem check_super_exact m cm i a : defs_parsed (types m) (type_defs m) -> build_canonical_map m = Some cm ->
  0 <= i < type_count m ->
  let m' := set_canonical_map m cm in
  (super_matches m' i -> check_super m' i a = (Ok tt, a)) /\
  (~ super_matches m' i -> check_super m' i a = (Err WAH_ERROR_VALIDATION_FAILED, a)).
Proof.
  intros DP CM Hi m'. unfold m', set_canonical_map.
  destruct (canonical_types_wf m cm (parsed_groups m DP) (parsed_same_kind m DP) CM) as [T1 T2 T3 T4].
  assert (DP' : defs_parsed (types m') (type_defs m')) by done. destruct (parsed_types m' DP') as [F D].
  destruct (decides_super m' (parsed_groups m' DP') ltac:(by split) (eq_sym CM) F D i Hi) as (b & H1 & H2).
  unfold m', set_canonical_map in H1, H2. rewrite H1. split; intros H.
  - by rewrite (proj2 H2 H).
  - destruct b; [|done]. destruct H. by apply H2.
Qed.

(** Two structs of a mutable field whose types are subtypes but not the same. *)
Definition sample_mismatch : list Z := [2; 0x50; 0; 0x5F; 1; 0x6D; 1; 0x4F; 1; 0; 0x5F; 1; 0x6C; 1].

Lemma check_super_exact_witness : exists m cm, defs_parsed (types m) (type_defs m) /\ build_canonical_map m = Some cm /\
  ~ super_matches (set_canonical_map m cm) 1 /\
  check_super (set_canonical_map m cm) 1 [] = (Err WAH_ERROR_VALIDATION_FAILED, []).
Proof.
  pose proof (wp_parse_type_defs (Decoder sample_mismatch (FeatureState WAH_FEATURE_ALL 0), [])) as H.
  assert (Hb : decoder_bytes (Decoder sample_mismatch (FeatureState WAH_FEATURE_ALL 0))).
  { repeat (constructor; [split; [discriminate|reflexivity]|]). constructor. }
  specialize (H Hb). unfold wp in H. destruct (parse_type_defs _) as [[u|e|] s] eqn:E; vm_compute in E; try discriminate E.
  destruct H as [_ DP]. injection E as _ <-. cbn [t_types t_defs] in DP.
  match type of DP with defs_parsed ?t ?d => set (m := Module t d None None [] (FeatureState 0 0)) end.
  destruct (build_canonical_map m) as [cm|] eqn:CM; vm_compute in CM; [|discriminate CM]. injection CM as <-.
  destruct (check_super_exact m [0; 1] 1 [] DP) as [H1 H2]; [by vm_compute|split; [discriminate|reflexivity]|].
  exists m, [0; 1]. split; [exact DP|]. split; [by vm_compute|].
  assert (Hn : ~ super_matches (set_canonical_map m [0; 1]) 1) by (intros H; specialize (H1 H); vm_compute in H1; discriminate H1).
  split; [exact Hn|]. exact (H2 Hn).
Defined.
