(* ===== verification/ValidSafe.v ===== *)
(** * Safety of the validation of an instruction

    In a state of the invariant, [wah_validate_opcode] never reads or writes outside
    its arrays, keeps the invariant, only moves forward in the body and emits at most
    one instruction. *)

From S2P Require Import Prelude Base Alloc Types Opcodes Bytes Leb128 Decode Subtype ModuleEnv Operands Validate ValidInv ValidRules.
From stdpp Require Import list sets.
#[local] Open Scope Z_scope.
#[local] Open Scope wah_scope.

(** ** Definitions *)

(** Reachable code with an empty stack stays so. *)
Definition quiet (s s' : vstate) : Prop :=
  current_stack_depth (s_ops s) = 0 -> is_unreachable (s_ctl s) = false ->
  current_stack_depth (s_ops s') = 0 /\ is_unreachable (s_ctl s') = false.

(** Opcodes that leave no instruction. *)
Definition silent (o : wah_op) : Prop :=
  match o with WAH_OP_NOP | WAH_OP_ANY_CONVERT_EXTERN | WAH_OP_EXTERN_CONVERT_ANY => True | _ => False end.

(** At most one instruction is emitted, of opcode [o]. *)
Definition emitted (o : wah_op) (s s' : vstate) : Prop :=
  exists l, instrs (s_code s') = instrs (s_code s) ++ l /\ (length l <= 1)%nat /\
    Forall (fresh_instr o) l /\ (l = [] -> silent o /\ quiet s s').

(** ** Theorems *)

Section TypeHints.
Context (m : wah_module_t).
Lemma tv_i32 : type_valid m WAH_TYPE_I32.
Proof. left. set_solver. Qed.
Lemma tv_i64 : type_valid m WAH_TYPE_I64.
Proof. left. set_solver. Qed.
Lemma tv_f32 : type_valid m WAH_TYPE_F32.
Proof. left. set_solver. Qed.
Lemma tv_f64 : type_valid m WAH_TYPE_F64.
Proof. left. set_solver. Qed.
Lemma tv_v128 : type_valid m WAH_TYPE_V128.
Proof. left. set_solver. Qed.
Lemma tv_abstract t : -54 <= t <= -31 -> type_valid m t.
Proof. intros. right. by left. Qed.
Lemma tv_addr t : addr_type_ok t -> type_valid m t.
Proof. intros [-> | ->]; [apply tv_i32|apply tv_i64]. Qed.
Lemma tv_index i : types_wf m -> 0 <= i < type_count m -> type_valid m (WAH_TYPE_FROM_IDX i false).
Proof. intros. by apply type_valid_index. Qed.
Lemma tv_index_null i : types_wf m -> 0 <= i < type_count m ->
  type_valid m (WAH_TYPE_AS_NULLABLE (WAH_TYPE_FROM_IDX i false)).
Proof. intros. apply type_valid_nullable; [by apply (is_ref_index m)|by apply type_valid_index]. Qed.
Lemma tv_unpacked t : type_valid m t -> type_valid m (unpacked t).
Proof. intros. unfold unpacked. case_match; [apply tv_i32|done]. Qed.
Lemma tv_if (b : bool) t u : type_valid m t -> type_valid m u -> type_valid m (if b then t else u).
Proof. by destruct b. Qed.
Lemma operand_valid t : type_valid m t -> operand_ok m t.
Proof. by left. Qed.
Lemma operand_bot : operand_ok m WAH_TYPE_BOT.
Proof. by right. Qed.
Lemma operand_if (b : bool) t u : operand_ok m t -> operand_ok m u -> operand_ok m (if b then t else u).
Proof. by destruct b. Qed.
Lemma tv_ref_null t : type_valid m t -> WAH_TYPE_IS_REF t = true -> type_valid m (WAH_TYPE_AS_NULLABLE t).
Proof. intros. by apply type_valid_nullable. Qed.
Lemma operand_non_null_or_bot t : operand_ok m t ->
  operand_ok m (if t =? WAH_TYPE_BOT then WAH_TYPE_BOT else WAH_TYPE_AS_NON_NULL t).
Proof. intros [Ht| ->]; [|apply operand_bot]. case_match; [apply operand_bot|]. by left; apply type_valid_non_null. Qed.
End TypeHints.

#[export] Hint Resolve tv_i32 tv_i64 tv_f32 tv_f64 tv_v128 tv_addr types_ok operand_bot ft_params ft_results
  bo_params bo_results td_fields : tv.
#[export] Hint Extern 1 (type_valid _ _) => (apply tv_abstract; by vm_compute) : tv.

(** Decides the validity of the types of an instruction by their form. *)
Ltac tv :=
  first [assumption |
  lazymatch goal with
  | |- Forall (operand_ok _) _ => apply valid_operands; tv
  | |- Forall _ (reverse _) => apply Forall_reverse; tv
  | |- Forall _ (take _ _) => apply Forall_take; tv
  | |- Forall _ (replicate _ _) => apply Forall_replicate; tv
  | |- operand_ok _ (if ?t =? WAH_TYPE_BOT then WAH_TYPE_BOT else WAH_TYPE_AS_NON_NULL ?t) =>
      apply operand_non_null_or_bot; tv
  | |- operand_ok _ (if _ then _ else _) => apply operand_if; tv
  | |- operand_ok _ WAH_TYPE_BOT => apply operand_bot
  | |- operand_ok _ _ => apply operand_valid; tv
  | |- type_valid _ (if _ then _ else _) => apply tv_if; tv
  | |- type_valid _ (unpacked _) => apply tv_unpacked; tv
  | |- type_valid _ (struct_ref _) => apply tv_index; [tv|lia]
  | |- type_valid _ (WAH_TYPE_FROM_IDX _ _) => apply tv_index; [tv|lia]
  | |- type_valid _ (WAH_TYPE_AS_NULLABLE (struct_ref _)) => apply tv_index_null; [tv|lia]
  | |- type_valid _ (WAH_TYPE_AS_NULLABLE (WAH_TYPE_FROM_IDX _ _)) => apply tv_index_null; [tv|lia]
  | |- type_valid _ (WAH_TYPE_AS_NULLABLE _) => apply tv_ref_null; [tv|assumption]
  | |- type_valid _ (WAH_TYPE_AS_NON_NULL _) => apply type_valid_non_null; tv
  | |- type_valid _ _ => first [solve [eauto 2 with tv] | apply decoded_type_valid; assumption | apply decoded_heap_valid; assumption]
  | |- _ => eauto 3 with tv
  end].

(** One step of a proof about a run in a state of the invariant.  [EO] is the
    well-formedness of the environment and [R] that an instruction can be emitted. *)
Ltac vstep EO R :=
  match goal with
  | |- wp ?m _ _ =>
    lazymatch m with
    | stm_bind _ _ => apply wp_bind
    | stm_ret _ => apply wp_ret
    | stm_err _ => exact I
    | stm_get => apply wp_get
    | stm_ensure _ _ => apply wp_ensure; let H := fresh "Hc" in intros H
    | with_cur wah_decode_uleb128 =>
        eapply wp_u32; [eassumption|];
        let v := fresh "v" in let d := fresh "d" in let Hv := fresh "Hv" in let Hs := fresh "Hs" in
        let Hi := fresh "Hi" in intros v d Hv Hi Hs
    | with_cur ensure_more => apply wp_ensure_more; let H := fresh "Hne" in intros H
    | with_cur take_byte =>
        eapply wp_take; [eassumption|eassumption|];
        let b := fresh "b" in let d := fresh "d" in let Hb := fresh "Hb" in let Hi := fresh "Hi" in
        intros b d Hb Hi _
    | decode_label =>
        eapply wp_decode_label; [eassumption|];
        let l := fresh "l" in let d := fresh "d" in let Hl := fresh "Hl" in let Hi := fresh "Hi" in
        intros l d Hl Hi
    | ensure_above_floor _ => eapply wp_ensure_above_floor; [eassumption|]
    | branch_adjustment _ _ _ => apply wp_branch_adjustment; intros ? ?
    | with_ans (wah_malloc_c _ _) => apply wp_malloc; intros ?
    | with_dec (on_features (require _)) =>
        eapply wp_features; [apply require_good|eassumption|]; let Hi := fresh "Hi" in intros ? Hi _
    | with_dec (on_features (wah_require_type_features _)) =>
        eapply wp_features; [apply require_type_features_good|eassumption|]; let Hi := fresh "Hi" in intros ? Hi _
    | wah_validation_pop_and_match_type _ _ =>
        eapply wp_pop; [exact EO|eassumption|tv|];
        let o := fresh "o" in let Hi := fresh "Hi" in let Hp := fresh "Hp" in let Hd := fresh "Hd" in
        intros o Hi Hp Hd
    | wah_validation_pop_type =>
        eapply wp_pop_into; [eassumption|];
        let t := fresh "t" in let o := fresh "o" in let Ht := fresh "Ht" in let Hi := fresh "Hi" in
        let Hp := fresh "Hp" in let Hd := fresh "Hd" in intros t o Ht Hi Hp Hd
    | wah_validation_pop_field_value _ _ =>
        eapply wp_pop_field; [exact EO|eassumption|tv|];
        let o := fresh "o" in let Hi := fresh "Hi" in let Hp := fresh "Hp" in let Hd := fresh "Hd" in
        intros o Hi Hp Hd
    | wah_validation_push_type _ =>
        eapply wp_push; [eassumption|tv|];
        let o := fresh "o" in let Hi := fresh "Hi" in let Hp := fresh "Hp" in let Hd := fresh "Hd" in
        intros o Hi Hp Hd
    | wah_validation_mark_unreachable =>
        eapply wp_mark_unreachable; [eassumption|];
        let o := fresh "o" in let Hi := fresh "Hi" in let Hp := fresh "Hp" in let Hd := fresh "Hd" in
        intros o Hi Hp Hd
    | emit_simple _ => unfold emit_simple
    | emit_instr _ _ =>
        eapply wp_emit; [eassumption|exact R|]; let Hi := fresh "Hi" in intros ? ? ? ? Hi
    | (if _ then _ else _) => apply wp_if; let H := fresh "Hc" in intros H
    end
  end; cbv beta zeta.

(** Closes the final state of an instruction that emits nothing: it does nothing, or
    pops an operand of reachable code. *)
Ltac stays_quiet :=
  intros ? ?; first [split; assumption | exfalso; eapply popped_at_bottom; eassumption].

(** Closes the final state of an instruction. *)
Ltac vdone :=
  split; [eassumption|
    first [eexists [_]; split_and!; [reflexivity|simpl; lia|by constructor|discriminate]
          |exists []; split_and!; [by rewrite app_nil_r|simpl; lia|constructor|intros _; split; [exact I|stays_quiet]]]].

Section Safe.
Context (E : wah_validation_env) (EO : env_ok E) (B : list Z) (G : wah_type_stack_t).
Notation M := (v_module E).
Notation TM := (env_types M).
Notation INV := (inv E B G false).

Let MO : module_ok M := eo_module E EO.
#[local] Hint Resolve MO : core.

(** What is proved of each instruction. *)
Definition safe (o : wah_op) (m : comp vstate unit) : Prop :=
  forall s, INV s -> room s -> wp m (fun _ s' => INV s' /\ emitted o s s') s.

Lemma memory_at i : 0 <= i -> (i <? wah_memory_index_limit M) = true ->
  exists mt, wah_memory_type M i = Some mt /\ addr_type_ok (mem_addr_type mt).
Proof. intros. by apply (space_get _ _ _ _ (mo_memories M MO)). Qed.
Lemma table_at i : 0 <= i -> (i <? wah_table_index_limit M) = true ->
  exists tab, wah_table_type M i = Some tab /\ type_valid TM (elem_type tab) /\ addr_type_ok (tab_addr_type tab).
Proof. intros. by apply (space_get _ _ _ _ (mo_tables M MO)). Qed.

Lemma wp_decode_mem_access k Q s : INV s ->
  (forall a t d, addr_type_ok t -> INV (set_dec d s) -> Q (a, t) (set_dec d s)) ->
  wp (decode_mem_access E k) Q s.
Proof.
  intros Hi HQ. unfold decode_mem_access. apply wp_bind.
  eapply wp_with_dec; [apply memarg_good|done|]. intros a d Ha Hi1 _.
  do 4 vstep EO Hi. destruct (memory_at (memidx a) Ha Hc0) as (mt & Hm & Hok).
  vstep EO Hi. eapply wp_opt; [done|]. vstep EO Hi. vstep EO Hi; repeat vstep EO Hi; by apply HQ.
Qed.

(** *** Immediates *)

Lemma wp_decode_memory Q s : INV s ->
  (forall i mt d, addr_type_ok (mem_addr_type mt) -> INV (set_dec d s) -> Q (i, mt) (set_dec d s)) ->
  wp (decode_memory E) Q s.
Proof.
  intros Hi HQ. unfold decode_memory. repeat vstep EO Hi.
  destruct (memory_at v ltac:(lia) Hc) as (mt & Hm & Hok). eapply wp_opt; [done|]. vstep EO Hi. by apply HQ.
Qed.

Lemma wp_decode_table Q s : INV s ->
  (forall i tab d, type_valid TM (elem_type tab) -> addr_type_ok (tab_addr_type tab) -> INV (set_dec d s) ->
     Q (i, tab) (set_dec d s)) ->
  wp (decode_table E) Q s.
Proof.
  intros Hi HQ. unfold decode_table. repeat vstep EO Hi.
  destruct (table_at v ltac:(lia) Hc) as (tab & Hm & Hv1 & Hok). eapply wp_opt; [done|]. vstep EO Hi. by apply HQ.
Qed.

Lemma wp_require_data_segment i Q s : INV s -> 0 <= i ->
  (forall n, INV (set_notes n s) -> Q tt (set_notes n s)) -> wp (require_data_segment i) Q s.
Proof.
  intros Hi Hp HQ. unfold require_data_segment. repeat vstep EO Hi. unfold modify, wp. cbv beta.
  pose proof (i_notes _ _ _ _ _ Hi) as [Hn Hd]. apply Z.ltb_lt in Hc. unfold UINT32_MAX in *.
  destruct (_ <? i + 1) eqn:Hm.
  - apply HQ. apply inv_set_notes; [done|]. split; simpl; [unfold UINT32_MAX; lia|done].
  - assert (Es : s = set_notes (s_notes s) s) by by destruct s. rewrite Es. apply HQ. by rewrite <- Es.
Qed.

Lemma wp_is_subtype t u Q (s : vstate) : operand_ok TM t -> operand_ok TM u ->
  (forall b, Q b s) -> wp (is_subtype E t u) Q s.
Proof.
  intros Ht Hu HQ. destruct (wah_type_is_subtype_correct TM (types_ok E EO) t u Ht Hu) as (r & Hr & _).
  unfold is_subtype. by eapply wp_opt.
Qed.

Lemma wp_type_def i k Q s : 0 <= i ->
  (forall td, 0 <= i < type_count TM -> type_def_ok TM td -> kind td = k -> Q td s) -> wp (the_type_def E i k) Q s.
Proof.
  intros Hp HQ. unfold the_type_def. repeat vstep EO Hp. apply Z.ltb_lt in Hc.
  destruct (type_def_at E EO i ltac:(lia)) as (td & Htd & Hok). eapply wp_opt; [done|]. repeat vstep EO Hp.
  apply HQ; [lia|done|]. by destruct (kind td), k.
Qed.
Lemma wp_func_type_def i Q s : 0 <= i ->
  (forall ft, 0 <= i < type_count TM -> func_type_ok TM ft -> Q ft s) -> wp (func_type_def E i) Q s.
Proof.
  intros Hp HQ. unfold func_type_def. apply wp_bind, wp_type_def; [done|]. intros td Hi _ _.
  destruct (func_type_at E EO i Hi) as (ft & Hft & Hok). by eapply wp_opt; [|apply HQ].
Qed.

Lemma func_at i : 0 <= i -> (i <? wah_func_index_limit M) = true ->
  exists ti ft, func_type_index M i = Some ti /\ 0 <= ti < type_count TM /\
    wah_resolve_func_type M i = Some ft /\ func_type_ok TM ft.
Proof.
  intros H1 H2. destruct (space_get _ _ _ _ (mo_funcs M MO) H1 H2) as (ti & Hti & Hr).
  destruct (func_type_at E EO ti Hr) as (ft & Hft & Hok). exists ti, ft. split; [done|]. split; [done|]. split; [|done].
  unfold wah_resolve_func_type. unfold func_type_index in *. by rewrite Hti.
Qed.
Lemma wp_decode_func Q s : INV s ->
  (forall i ft d, func_type_ok TM ft -> INV (set_dec d s) -> Q (i, ft) (set_dec d s)) -> wp (decode_func E) Q s.
Proof.
  intros Hi HQ. unfold decode_func. repeat vstep EO Hi.
  destruct (func_at v ltac:(lia) Hc) as (ti & ft & _ & _ & Hft & Hok). eapply wp_opt; [done|]. vstep EO Hi. by apply HQ.
Qed.

Lemma wp_decode_indirect Q s : INV s ->
  (forall i j tab ft d, addr_type_ok (tab_addr_type tab) -> func_type_ok TM ft -> INV (set_dec d s) ->
     Q (i, j, tab, ft) (set_dec d s)) -> wp (decode_indirect E) Q s.
Proof.
  intros Hi HQ. unfold decode_indirect. repeat vstep EO Hi.
  eapply wp_decode_table; [eassumption|]. intros j tab d' Ht Ha Hi'. vstep EO Hi.
  apply wp_is_subtype; [tv..|]. intros b. repeat vstep EO Hi. apply wp_func_type_def; [lia|].
  intros ft _ Hok. vstep EO Hi. by apply HQ.
Qed.

Lemma wp_decode_local Q s : INV s -> v_mode E = WAH_ANALYZE_FUNC_BODY ->
  (forall i t d, 0 <= i < v_total_locals E -> type_valid TM t -> INV (set_dec d s) ->
     Q (i, t) (set_dec d s)) -> wp (decode_local E) Q s.
Proof.
  intros Hi Hm HQ. destruct (eo_body E EO Hm) as (ft & body & Hft & Hok & Hb & [Hn Hl] & Ht & Hmax).
  unfold decode_local, the_func_type. repeat vstep EO Hi. apply Z.ltb_lt in Hc.
  eapply wp_opt; [done|]. repeat vstep EO Hi.
  - apply Z.ltb_lt in Hc0. destruct (zget_is_Some (param_types ft) v) as [t Hv']; [lia|]. eapply wp_opt; [done|].
    vstep EO Hi. apply HQ; [lia| |done]. apply zget_Some in Hv' as [_ Hv'].
    exact (Forall_lookup_1 _ _ _ _ (ft_params _ _ Hok) Hv').
  - apply Z.ltb_ge in Hc0. eapply wp_opt; [done|].
    assert (0 <= zlen (param_types ft)) by (unfold zlen; lia). rewrite u32_small by (unfold WAH_MAX_LOCAL_COUNT in *; lia).
    destruct (Hl (v - zlen (param_types ft)) ltac:(lia)) as (t & Hv' & Hvt). eapply wp_opt; [done|].
    vstep EO Hi. apply HQ; [lia|done|done].
Qed.

Lemma wp_decode_heap_type Q s : INV s ->
  (forall t d, type_valid TM t -> WAH_TYPE_IS_REF t = true -> INV (set_dec d s) -> Q t (set_dec d s)) ->
  wp (decode_heap_type E) Q s.
Proof.
  intros Hi HQ. unfold decode_heap_type. apply wp_bind.
  eapply wp_with_cur; [apply heap_type_good|done|]. intros t d Ht Hi' _. repeat vstep EO Hi.
  apply HQ; [by apply decoded_heap_valid|apply Ht|done].
Qed.

Lemma wp_pop_reference Q s : INV s ->
  (forall t o, operand_ok TM t -> WAH_TYPE_IS_REF t = true \/ t = WAH_TYPE_BOT -> popped s t (set_ops o s) ->
     INV (set_ops o s) -> Q t (set_ops o s)) -> wp pop_reference Q s.
Proof.
  intros Hi HQ. unfold pop_reference. repeat vstep EO Hi. apply HQ; [done| |done|done].
  apply orb_true_iff in Hc. by rewrite Z.eqb_eq in Hc.
Qed.

Lemma wp_available Q s : INV s -> (forall n, 0 <= n -> Q n s) -> wp available Q s.
Proof.
  intros Hi HQ. unfold available. apply wp_bind. eapply wp_base; [done|]. repeat vstep EO Hi. apply HQ.
  apply u32_range.
Qed.

Lemma wp_decode_field Q s : INV s ->
  (forall i j td t d, 0 <= i < type_count TM -> 0 <= j < zlen (field_types td) -> type_def_ok TM td ->
     type_valid TM t -> INV (set_dec d s) -> Q (i, j, td, t) (set_dec d s)) -> wp (decode_field E) Q s.
Proof.
  intros Hi HQ. unfold decode_field. repeat vstep EO Hi. apply wp_type_def; [lia|]. intros td Hr Hok _.
  repeat vstep EO Hi. apply Z.ltb_lt in Hc. destruct (zget_is_Some (field_types td) v0) as [t Ht]; [lia|].
  eapply wp_opt; [done|]. vstep EO Hi. apply HQ; [done|lia|done| |done].
  apply zget_Some in Ht as [_ Ht]. exact (Forall_lookup_1 _ _ _ _ (td_fields _ _ Hok) Ht).
Qed.

Lemma wp_array_def i Q s : 0 <= i ->
  (forall td t, 0 <= i < type_count TM -> type_valid TM t -> zlen (field_mutables td) = 1 -> Q (td, t) s) ->
  wp (array_def E i) Q s.
Proof.
  intros Hp HQ. unfold array_def. apply wp_bind, wp_type_def; [done|]. intros td Hr [H1 H2 H3 _] Hk.
  specialize (H3 Hk). vstep EO Hp. destruct (zget_is_Some (field_types td) 0) as [t Ht]; [lia|].
  eapply wp_opt; [done|]. vstep EO Hp. apply HQ; [done| |unfold zlen in *; lia].
  apply zget_Some in Ht as [_ Ht]. exact (Forall_lookup_1 _ _ _ _ H1 Ht).
Qed.
Lemma wp_ensure_mutable td Q s : zlen (field_mutables td) = 1 -> Q tt s -> wp (ensure_mutable td) Q s.
Proof.
  intros Hl HQ. unfold ensure_mutable. vstep Hl Hl.
  destruct (zget_is_Some (field_mutables td) 0) as [b Hb]; [lia|]. eapply wp_opt; [done|]. vstep Hl Hl. done.
Qed.

(** Accesses that follow the check of an index. *)
Lemma wp_memory_type i Q (s : vstate) : (i <? wah_memory_index_limit M) = true -> 0 <= i ->
  (forall mt, addr_type_ok (mem_addr_type mt) -> Q mt s) -> wp (stm_opt (wah_memory_type M i) : comp vstate _) Q s.
Proof. intros H1 H2 HQ. destruct (memory_at i H2 H1) as (mt & Hm & Hok). eapply wp_opt; [done|]. by apply HQ. Qed.
Lemma wp_table_type i Q (s : vstate) : (i <? wah_table_index_limit M) = true -> 0 <= i ->
  (forall tab, type_valid TM (elem_type tab) -> addr_type_ok (tab_addr_type tab) -> Q tab s) ->
  wp (stm_opt (wah_table_type M i) : comp vstate _) Q s.
Proof. intros H1 H2 HQ. destruct (table_at i H2 H1) as (tab & Hm & Hv & Hok). eapply wp_opt; [done|]. by apply HQ. Qed.
Lemma wp_segment i Q (s : vstate) : (i <? zlen (element_segments M)) = true -> 0 <= i ->
  (forall t, type_valid TM t -> Q t s) -> wp (stm_opt (zget (element_segments M) i) : comp vstate _) Q s.
Proof.
  intros H1 H2 HQ. destruct (zget_is_Some (element_segments M) i) as [t Ht]; [lia|]. eapply wp_opt; [done|]. apply HQ.
  apply zget_Some in Ht as [_ Ht]. exact (Forall_lookup_1 _ _ _ _ (mo_segments M MO) Ht).
Qed.
Lemma wp_func_type_index i Q (s : vstate) : (i <? wah_func_index_limit M) = true -> 0 <= i ->
  (forall ti, 0 <= ti < type_count TM -> Q ti s) -> wp (stm_opt (func_type_index M i) : comp vstate _) Q s.
Proof. intros H1 H2 HQ. destruct (func_at i H2 H1) as (ti & _ & Hm & Hv & _). eapply wp_opt; [done|]. by apply HQ. Qed.

Lemma global_at i : (i <? wah_global_index_limit M) = true -> 0 <= i ->
  exists g, index_get (global_imports M) (globals M) i = Some g /\ type_valid TM (global_type g).
Proof. intros H1 H2. exact (space_get _ _ _ _ (mo_globals M MO) H2 H1). Qed.
Lemma wp_global_type i Q (s : vstate) : (i <? wah_global_index_limit M) = true -> 0 <= i ->
  (forall t, type_valid TM t -> Q t s) -> wp (stm_opt (wah_global_type M i) : comp vstate _) Q s.
Proof.
  intros H1 H2 HQ. destruct (global_at i H1 H2) as (g & Hg & Hv). unfold wah_global_type. rewrite Hg.
  eapply wp_opt; [done|]. by apply HQ.
Qed.
Lemma wp_global_mutable i Q (s : vstate) : (i <? wah_global_index_limit M) = true -> 0 <= i ->
  (forall b, Q b s) -> wp (stm_opt (wah_global_is_mutable M i) : comp vstate _) Q s.
Proof.
  intros H1 H2 HQ. destruct (global_at i H1 H2) as (g & Hg & Hv). unfold wah_global_is_mutable. rewrite Hg.
  by eapply wp_opt.
Qed.

Lemma wp_field_mutable td j Q (s : vstate) : type_def_ok TM td -> 0 <= j < zlen (field_types td) ->
  (forall b, Q b s) -> wp (stm_opt (zget (field_mutables td) j) : comp vstate _) Q s.
Proof.
  intros Hok Hj HQ. destruct (zget_is_Some (field_mutables td) j) as [b Hb]; [|by eapply wp_opt].
  pose proof (td_mutables _ _ Hok). unfold zlen in *. lia.
Qed.

Lemma func_in_range i : 0 <= i -> (i <? wah_func_index_limit M) = true -> 0 <= i < wah_func_index_limit M.
Proof. intros H1 H2. apply Z.ltb_lt in H2. lia. Qed.

(** What is known of the bitset of the module. *)
Lemma notes_declared n : notes_ok M n ->
  declared_is (wah_func_index_limit M) (declared_funcs n)
    (fun i => default false (wah_is_func_declared (declared_funcs n) i)).
Proof.
  intros [_ Hd]. split; [done|]. intros i Hi. unfold wah_is_func_declared. destruct (declared_funcs n) as [bits|]; [|done].
  destruct (bit_in_range i _ Hi) as [H1 H2]. destruct (zget_is_Some bits (bit_byte i)) as [b ->]; [lia|]. done.
Qed.

Lemma wp_declare_func i Q s : INV s -> (i <? wah_func_index_limit M) = true -> 0 <= i ->
  (forall a n, INV (set_notes n (set_ans a s)) -> Q tt (set_notes n (set_ans a s))) -> wp (declare_func E i) Q s.
Proof.
  intros Hi H1 H2 HQ. pose proof (func_in_range i H2 H1) as Hr. pose proof (i_notes _ _ _ _ _ Hi) as Hn.
  unfold declare_func, wp.
  destruct (wah_declare_func_cases M i (s_ans s) _ _ (mo_func_bits M MO) Hr (notes_declared _ Hn))
    as [(a' & bits & -> & Hb & _)|(a' & ->)]; [|done].
  apply HQ, inv_set_notes; [by apply inv_set_ans|]. destruct Hn. by split.
Qed.

Lemma wp_func_declared i Q s : INV s -> (i <? wah_func_index_limit M) = true -> 0 <= i ->
  (forall b, Q b s) -> wp (stm_opt (wah_is_func_declared (declared_funcs (s_notes s)) i) : comp vstate _) Q s.
Proof.
  intros Hi H1 H2 HQ. pose proof (notes_declared _ (i_notes _ _ _ _ _ Hi)) as [_ Hd].
  eapply wp_opt; [apply (Hd i), func_in_range|]; done.
Qed.

(** *** Instructions *)

Lemma validate_load_safe o T k : type_valid TM T -> safe o (validate_load E o T k).
Proof.
  intros HT s Hi R. unfold validate_load. apply wp_bind, wp_decode_mem_access; [done|]. intros a t d Ht Hi1.
  repeat vstep EO R. vdone.
Qed.
Lemma validate_store_safe o T k : type_valid TM T -> safe o (validate_store E o T k).
Proof.
  intros HT s Hi R. unfold validate_store. apply wp_bind, wp_decode_mem_access; [done|]. intros a t d Ht Hi1.
  repeat vstep EO R. vdone.
Qed.

Lemma validate_v128_lane_safe o k l : safe o (validate_v128_lane E o k l).
Proof.
  intros s Hi R. unfold validate_v128_lane. apply wp_bind.
  eapply wp_with_dec; [apply memarg_good|done|]. intros a d Ha Hi1 _.
  do 10 vstep EO R. destruct (memory_at (memidx a) Ha Hc1) as (mt & Hm & Hok).
  vstep EO Hi. eapply wp_opt; [done|]. cbv zeta. apply wp_bind.
  apply wp_if; intros; repeat vstep EO R; vdone.
Qed.

Lemma wp_take_lane n Q s : INV s -> (forall l d, INV (set_dec d s) -> Q l (set_dec d s)) -> wp (take_lane n) Q s.
Proof.
  intros Hi HQ. unfold take_lane. repeat vstep EO Hi. by apply HQ.
Qed.
Lemma validate_extract_lane_safe o T n : type_valid TM T -> safe o (validate_extract_lane E o T n).
Proof.
  intros HT s Hi R. unfold validate_extract_lane. do 4 vstep EO R. apply wp_bind. eapply wp_take_lane; [eassumption|].
  intros l d Hi'. repeat vstep EO R. vdone.
Qed.
Lemma validate_replace_lane_safe o T n : type_valid TM T -> safe o (validate_replace_lane E o T n).
Proof.
  intros HT s Hi R. unfold validate_replace_lane. do 6 vstep EO R. apply wp_bind. eapply wp_take_lane; [eassumption|].
  intros l d Hi'. repeat vstep EO R. vdone.
Qed.

Lemma validate_shuffle_safe o : safe o (validate_shuffle E o).
Proof.
  intros s Hi R. unfold validate_shuffle. repeat vstep EO R.
  eapply wp_with_cur; [apply take_bytes_good|done|]. intros x d _ Hi' _. vstep EO R. vdone.
Qed.

(** An operation that some opcodes have. *)
Definition safe_opt (o : wah_op) (m : option (comp vstate unit)) : Prop :=
  match m with Some m => safe o m | None => True end.
Definition runnable (o : wah_op) : Prop := v_mode E = WAH_ANALYZE_CONST_EXPR -> const_expr_op o <> None.


(** One step, the decoders above included. *)
Ltac vs :=
  match goal with
  | R : room _ |- wp ?m _ _ =>
    lazymatch m with
    | decode_memory _ => eapply wp_decode_memory; [eassumption|]; intros ? ? ? ? ?
    | decode_table _ => eapply wp_decode_table; [eassumption|]; intros ? ? ? ? ? ?
    | decode_func _ => eapply wp_decode_func; [eassumption|]; intros ? ? ? ? ?
    | decode_indirect _ => eapply wp_decode_indirect; [eassumption|]; intros ? ? ? ? ? ? ? ?
    | decode_local _ => eapply wp_decode_local; [eassumption|eassumption|]; intros ? ? ? ? ? ?
    | decode_heap_type _ => eapply wp_decode_heap_type; [eassumption|]; intros ? ? ? ? ?
    | pop_reference => eapply wp_pop_reference; [eassumption|]; intros ? ? ? ? ? ?
    | available => eapply wp_available; [eassumption|]; intros ? ?
    | decode_field _ => eapply wp_decode_field; [eassumption|]; intros ? ? ? ? ? ? ? ? ? ?
    | array_def _ _ => eapply wp_array_def; [lia|]; intros ? ? ? ? ?
    | ensure_mutable _ => eapply wp_ensure_mutable; [eassumption|]
    | the_type_def _ _ _ => eapply wp_type_def; [lia|]; intros ? ? ? ?
    | func_type_def _ _ => eapply wp_func_type_def; [lia|]; intros ? ? ?
    | stm_opt (wah_memory_type _ _) => eapply wp_memory_type; [eassumption|lia|]; intros ? ?
    | stm_opt (wah_table_type _ _) => eapply wp_table_type; [eassumption|lia|]; intros ? ? ?
    | stm_opt (zget (element_segments _) _) => eapply wp_segment; [eassumption|lia|]; intros ? ?
    | stm_opt (func_type_index _ _) => eapply wp_func_type_index; [eassumption|lia|]; intros ? ?
    | stm_opt (wah_global_type _ _) => eapply wp_global_type; [eassumption|lia|]; intros ? ?
    | stm_opt (wah_global_is_mutable _ _) => eapply wp_global_mutable; [eassumption|lia|]; intros ?
    | with_cur wah_decode_sleb128_32 => eapply wp_with_cur; [apply decode_s32_good|eassumption|]; intros ? ? _ ? _
    | with_cur wah_decode_sleb128_64 => eapply wp_with_cur; [apply decode_s64_good|eassumption|]; intros ? ? _ ? _
    | with_cur (take_bytes _) => eapply wp_with_cur; [apply take_bytes_good|eassumption|]; intros ? ? _ ? _
    | with_dec wah_decode_val_type => eapply wp_with_dec; [apply val_type_good|eassumption|]; intros ? ? ? ? _
    | stm_opt (zget (field_mutables _) _) => eapply wp_field_mutable; [eassumption|eassumption|]; intros ?
    | validate_struct_get _ _ _ => unfold validate_struct_get
    | validate_array_get _ _ _ => unfold validate_array_get
    | validate_array_new_seg _ _ _ => unfold validate_array_new_seg
    | validate_array_init_seg _ _ _ => unfold validate_array_init_seg
    | check_elem_segment _ _ _ => unfold check_elem_segment
    | declare_func _ _ => eapply wp_declare_func; [eassumption|eassumption|lia|]; intros ? ? ?
    | stm_opt (wah_is_func_declared _ _) => eapply wp_func_declared; [eassumption|eassumption|lia|]; intros ?
    | match v_mode E with _ => _ end => destruct (v_mode E) eqn:?
    | require_data_segment _ => eapply wp_require_data_segment; [eassumption|lia|]; intros ? ?
    | is_subtype _ _ _ => apply wp_is_subtype; [tv|tv|]; intros ?
    | wah_validate_type_match _ _ _ => eapply wp_type_match; [exact EO|tv|tv|]; intros ?
    | wah_validation_resolve_br_target _ _ =>
        eapply wp_resolve; [exact EO|eassumption|eassumption|first [eassumption|simpl in *; lia]|]; intros ? ? ? ? ? ?
    | pop_unless_at_base _ _ => eapply wp_pop_unless_at_base; [exact EO|eassumption|tv|]; intros ? ? ? ?
    | pop_types _ _ => eapply wp_pop_types; [exact EO|eassumption|tv|]; intros ? ? ? ?
    | push_types _ => eapply wp_push_valid; [eassumption|tv|]; intros ? ? ? ?
    | pop_fields _ _ => eapply wp_pop_fields; [exact EO|eassumption|tv|]; intros ? ? ? ?
    | validate_br _ _ => unfold validate_br
    | validate_return _ => unfold validate_return
    | wah_validation_pop_func_params _ _ => unfold wah_validation_pop_func_params
    | wah_validation_push_func_results _ => unfold wah_validation_push_func_results
    | _ => vstep EO R
    end
  end; cbv beta zeta iota.
Ltac vrun := repeat vs; try vdone.

Lemma validate_memory_safe o : safe_opt o (validate_memory E o).
Proof. destruct o; try exact I; intros s Hi R; vrun. Qed.

Lemma validate_table_safe o : safe_opt o (validate_table E o).
Proof. destruct o; try exact I; intros s Hi R; vrun. Qed.

Lemma validate_const_safe o : safe_opt o (validate_const E o).
Proof. destruct o; try exact I; intros s Hi R; vrun. Qed.

Lemma validate_parametric_safe o : safe_opt o (validate_parametric E o).
Proof. destruct o; try exact I; intros s Hi R; vrun. Qed.

Lemma validate_struct_safe o : safe_opt o (validate_struct E o).
Proof. destruct o; try exact I; intros s Hi R; vrun. Qed.

Lemma validate_array_safe o : safe_opt o (validate_array E o).
Proof. destruct o; try exact I; intros s Hi R; vrun. Qed.

Lemma validate_array_seg_safe o : safe_opt o (validate_array_seg E o).
Proof. destruct o; try exact I; intros s Hi R; vrun. Qed.

Lemma validate_ref_safe o : safe_opt o (validate_ref E o).
Proof. destruct o; try exact I; intros s Hi R; vrun. Qed.

Section Body.
Context (FB : v_mode E = WAH_ANALYZE_FUNC_BODY).

Lemma wp_func_type Q (s : vstate) : (forall ft, func_type_ok TM ft -> Q ft s) ->
  wp (the_func_type E) Q s.
Proof.
  intros HQ. destruct (eo_body E EO FB) as (ft & body & Hft & Hok & _). unfold the_func_type.
  eapply wp_opt; [done|]. by apply HQ.
Qed.

Lemma wp_check_return_types ft Q (s : vstate) : func_type_ok TM ft -> Q tt s ->
  wp (wah_validation_check_return_types E ft) Q s.
Proof.
  intros Hok HQ. unfold wah_validation_check_return_types. apply wp_bind, wp_func_type. intros ft' Hok'.
  repeat vstep EO Hok. apply Z.eqb_eq in Hc. unfold zlen in Hc.
  eapply wp_match_types; [exact EO|lia|lia|apply valid_operands; tv|tv|]. done.
Qed.

Lemma validate_call_safe o : safe_opt o (validate_call E o).
Proof.
  destruct o; try exact I; intros s Hi R; vrun.
  all: eapply wp_check_return_types; [eassumption|]; vrun.
Qed.

Lemma wp_set_local i t Q s : INV s -> 0 <= i < v_total_locals E ->
  (forall li a, INV (set_inits li (set_ans a s)) -> Q tt (set_inits li (set_ans a s))) ->
  wp (wah_validation_init_local E i t) Q s.
Proof.
  intros Hi Hr HQ. assert (Es : s = set_inits (s_inits s) (set_ans (s_ans s) s)) by by destruct s.
  assert (H : Q tt s) by (rewrite Es; apply HQ; by rewrite <- Es).
  eapply wp_init_local; [eassumption|done|done|done|]. intros li l cap a _ _ Hi'. by apply HQ.
Qed.

Lemma wp_the_inits s0 i t Q s : INV s0 -> wah_validation_local_needs_init E s0 i t = true ->
  (forall li, inits_ok (v_total_locals E) li -> Q li s) -> wp (stm_opt (s_inits s0) : comp vstate _) Q s.
Proof.
  intros Hi Hn HQ. pose proof (i_inits _ _ _ _ _ Hi) as Hin. unfold wah_validation_local_needs_init in Hn.
  destruct (s_inits s0) as [li|]; [|done]. eapply wp_opt; [done|]. by apply HQ.
Qed.

Lemma wp_local_flag li i Q (s : vstate) : inits_ok (v_total_locals E) li -> 0 <= i < v_total_locals E ->
  (forall b, Q b s) -> wp (stm_opt (zget (li_inits li) i) : comp vstate _) Q s.
Proof.
  intros Hl Hr HQ. destruct (zget_is_Some (li_inits li) i) as [b Hb]; [pose proof (in_length _ _ Hl); lia|].
  by eapply wp_opt.
Qed.

Lemma validate_local_safe o : safe_opt o (validate_variable E o).
Proof.
  destruct o; try exact I; intros s Hi R; vrun.
  - eapply wp_the_inits; [eassumption|eassumption|]. intros li Hl. vs. eapply wp_local_flag; [done|done|]. intros b. vrun.
  - eapply wp_set_local; [eassumption|done|]. intros li a Hi'. vrun.
  - eapply wp_set_local; [eassumption|done|]. intros li a Hi'. vrun.
Qed.

Lemma wp_last (ts : list wah_type_t) Q (s : vstate) : (1 <=? zlen ts) = true -> Forall (type_valid TM) ts ->
  (forall t, type_valid TM t -> Q t s) -> wp (stm_opt (zget ts (zlen ts - 1)) : comp vstate _) Q s.
Proof.
  intros H1 H2 HQ. apply Z.leb_le in H1. destruct (zget_is_Some ts (zlen ts - 1)) as [t Ht]; [lia|].
  eapply wp_opt; [done|]. apply HQ. apply zget_Some in Ht as [_ Ht]. exact (Forall_lookup_1 _ _ _ _ H2 Ht).
Qed.

Lemma validate_br_safe o : safe o (validate_br E o).
Proof. intros s Hi R. vrun. Qed.

Lemma validate_return_safe : safe WAH_OP_RETURN (validate_return E).
Proof. intros s Hi R. unfold validate_return. apply wp_bind, wp_func_type. intros ft Hok. vrun. Qed.

Lemma validate_ref_test_safe o is_test null : safe o (validate_ref_test E o is_test null).
Proof.
  intros s Hi R. unfold validate_ref_test. vs. eapply wp_decode_heap_type; [eassumption|]. intros t d Ht Hr Hi'.
  rewrite Hr. vrun.
Qed.

Lemma wp_heap_type Q s : INV s ->
  (forall t d, decoded_heap t -> WAH_TYPE_IS_REF t = true -> INV (set_dec d s) -> Q t (set_dec d s)) ->
  wp (with_cur wah_decode_heap_type) Q s.
Proof.
  intros Hi HQ. eapply wp_with_cur; [apply heap_type_good|done|]. intros t d Hd Hi' _. apply HQ; [done|apply Hd|done].
Qed.

Lemma validate_br_on_cast_safe o fail : safe o (validate_br_on_cast E o fail).
Proof.
  intros s Hi R. unfold validate_br_on_cast. do 9 vs.
  eapply wp_heap_type; [eassumption|]. intros t d' Ht Hr Hi'.
  vs. eapply wp_heap_type; [eassumption|]. intros u d'' Hu Hr' Hi''.
  rewrite !Hr, !Hr'. do 4 vs.
  assert (type_valid TM t) by tv. assert (type_valid TM u) by tv. vrun.
  eapply wp_last; [eassumption|eassumption|]. intros w Hw. vrun.
Qed.

Lemma validate_br_on_null_safe o nn : safe o (validate_br_on_null E o nn).
Proof.
  intros s Hi R. unfold validate_br_on_null. vrun.
  eapply wp_last; [eassumption|eassumption|]. intros u Hu. vrun.
Qed.
Lemma validate_ref_branch_safe o : safe_opt o (validate_ref_branch E o).
Proof.
  destruct o; try exact I;
    first [apply validate_ref_test_safe|apply validate_br_on_cast_safe|apply validate_br_on_null_safe].
Qed.
End Body.

(** The instructions of constant expressions do not refer to the function. *)
Lemma body_mode o : runnable o -> const_expr_op o = None -> v_mode E = WAH_ANALYZE_FUNC_BODY.
Proof. unfold runnable. destruct (v_mode E); [done|]. intros H1 H2. by destruct H1. Qed.

Lemma validate_variable_safe o : runnable o -> safe_opt o (validate_variable E o).
Proof.
  intros Hr. destruct (const_expr_op o) eqn:Ho; [|by apply validate_local_safe, (body_mode o)].
  destruct o; try done; intros s Hi R; vrun.
Qed.
End Safe.
