(* ===== verification/ValidCtl.v ===== *)
(** * Safety of the structured instructions

    Blocks, their ends, br_table and try_table: the rules for control frames, and that
    these instructions keep the invariant. *)

From S2P Require Import Prelude Base Alloc Types Opcodes Bytes Leb128 Decode Subtype ModuleEnv Operands Validate ValidInv Locals BrTable ValidRules ValidSafe.
From stdpp Require Import list sets.
#[local] Open Scope Z_scope.
#[local] Open Scope wah_scope.

(** ** Theorems *)

Section Control.
Context (E : wah_validation_env) (EO : env_ok E) (B : list Z) (G : wah_type_stack_t).
Notation M := (v_module E).
Notation TM := (env_types M).
Notation INV := (inv E B G false).
Notation OPENING := (inv E B G true).

(** *** Control frames *)

(** A block is opened: its frame is pushed before it is complete, with a height
    between that of its parent and that of the stack. *)
Lemma wp_open_frame f (k : comp vstate unit) Q s : INV s -> control_sp (s_ctl s) < WAH_MAX_CONTROL_DEPTH ->
  block_type_ok TM (fr_block_type f) -> base s <= fr_stack_height f <= current_stack_depth (s_ops s) ->
  (forall l, let c := Control l (control_sp (s_ctl s) + 1) (is_unreachable (s_ctl s)) in
     frames c = f :: frames (s_ctl s) -> OPENING (set_ctl c s) -> wp k Q (set_ctl c s)) ->
  wp (put_frame (control_sp (s_ctl s)) f ;;; modify (set_control_sp (control_sp (s_ctl s) + 1)) ;;; k) Q s.
Proof.
  intros Hi Hsp Hb Hh HQ. pose proof Hi as [H1 H2 [C1 C2 C3] H4 H5 H6 H7].
  apply wp_bind, wp_put_frame; [done|lia|]. intros l Hl Hlen. apply wp_bind. unfold wp at 1, modify.
  assert (Hf : frames (Control l (control_sp (s_ctl s) + 1) (is_unreachable (s_ctl s))) = f :: frames (s_ctl s))
    by (eapply frames_push; [done|lia]).
  apply (HQ l); [exact Hf|]. pose proof (inv_base E B G false s Hi). pose proof (inv_depth E B G false s Hi).
  split; try done; simpl.
  - apply (ops_ok_base E G (base s)); [done|]. unfold base. cbn [s_ctl set_ctl]. rewrite Hf. simpl. lia.
  - split; [done|simpl; lia|]. rewrite Hf. simpl. split; [done|]. split; [|done].
    unfold base in *. lia.
Qed.

(** The frame that is being opened is completed. *)
Lemma wp_complete_frame op sp f f0 Q s : inv E B G op s -> control_sp (s_ctl s) = sp + 1 ->
  head (frames (s_ctl s)) = Some f0 ->
  block_type_ok TM (fr_block_type f) -> fr_type_stack_sp f = fr_stack_height f ->
  base s <= fr_stack_height f <= current_stack_depth (s_ops s) -> fr_local_init_undo_base f = undo_len s ->
  (forall l, let c := Control l (control_sp (s_ctl s)) (is_unreachable (s_ctl s)) in
     frames c = f :: tail (frames (s_ctl s)) -> INV (set_ctl c s) -> Q tt (set_ctl c s)) ->
  wp (put_frame sp f) Q s.
Proof.
  intros Hi Hsp Hf0 Hb Hts Hh Hu HQ. pose proof Hi as [H1 H2 [C1 C2 C3] H4 H5 H6 H7].
  pose proof (inv_base E B G op s Hi). pose proof (inv_depth E B G op s Hi).
  assert (0 <= sp).
  { pose proof (frames_length _ C1 C2) as Hn. unfold zlen in Hn. destruct (frames (s_ctl s)); [done|]. simpl in Hn. lia. }
  apply wp_put_frame; [done|lia|]. intros l Hl Hlen.
  assert (Hf : frames (Control l (control_sp (s_ctl s)) (is_unreachable (s_ctl s))) = f :: tail (frames (s_ctl s))).
  { pose proof (frames_push (Control (control_stack (s_ctl s)) sp (is_unreachable (s_ctl s))) f l
      (is_unreachable (s_ctl s)) Hl ltac:(simpl; lia)) as Hp. simpl in Hp. rewrite Hsp, Hp. f_equal.
    destruct (zget_is_Some (control_stack (s_ctl s)) sp) as [g Hg]; [lia|].
    rewrite (frames_top (s_ctl s) g); [|lia|by replace (control_sp (s_ctl s) - 1) with sp by lia].
    simpl. by replace (control_sp (s_ctl s) - 1) with sp by lia. }
  apply (HQ l); [exact Hf|]. destruct (frames (s_ctl s)) as [|g fs] eqn:Efs; [done|]. simpl in Hf.
  assert (Hg : frames_base fs <= base s /\ frames_ok TM fs (undo_len s)).
  { unfold base. rewrite Efs. destruct op; simpl in C3; [split; [simpl; lia|apply C3]|].
    split; [simpl; lia|]. eapply frames_ok_mono; [|apply C3]. lia. }
  split; try done; simpl.
  - apply (ops_ok_base E G (base s)); [done|]. unfold base. cbn [s_ctl set_ctl]. rewrite Hf. simpl. lia.
  - split; [done|done|]. rewrite Hf. simpl. rewrite Hu. split_and!; try done; [lia|lia|apply undo_len_nonneg|apply Hg].
Qed.


(** *** [block], [loop], [if] and their ends *)

Notation safe := (safe E B G).

Lemma wp_grown Q s : INV s -> room s ->
  (forall a cap, INV (set_code (Instrs (instrs (s_code s)) cap) (set_ans a s)) ->
     zlen (instrs (s_code s)) + 1 <= cap /\ cap_ok cap ->
     Q tt (set_code (Instrs (instrs (s_code s)) cap) (set_ans a s))) -> wp grow_instrs Q s.
Proof.
  intros Hi R HQ. eapply wp_grow_instrs; [eassumption|done|]. intros a cap Hc. apply HQ; [|done].
  apply inv_set_code; [by apply inv_set_ans|]. split; simpl; [lia|apply Hc].
Qed.

Definition appends (o : wah_op) (s s' : vstate) : Prop :=
  exists di, instrs (s_code s') = instrs (s_code s) ++ [di] /\ fresh_instr o di.
Lemma safe_appends o (m : comp vstate unit) :
  (forall s, INV s -> room s -> wp m (fun _ s' => INV s' /\ appends o s s') s) -> safe o m.
Proof.
  intros H s Hi R. eapply wp_mono; [by apply H|]. intros [] s' [Hi' (di & Hd & Hf)]. split; [done|].
  exists [di]. split_and!; [done|done|by constructor|done].
Qed.

(** An instruction is appended to the array that has just grown. *)
Lemma appended o s s1 di : fresh_instr o di -> INV s1 -> instrs (s_code s1) = instrs (s_code s) ->
  zlen (instrs (s_code s)) + 1 <= instrs_cap (s_code s1) /\ cap_ok (instrs_cap (s_code s1)) ->
  INV (append_instr di s1) /\ appends o s (append_instr di s1).
Proof.
  intros Hf Hi Hs Hc. split.
  - apply inv_set_code; [done|]. split; simpl; [|apply Hc]. rewrite Hs. unfold zlen in *. rewrite length_app. simpl. lia.
  - exists di. split; [simpl; by rewrite Hs|done].
Qed.

Lemma wp_current_frame i Q s : zlen (control_stack (s_ctl s)) = WAH_MAX_CONTROL_DEPTH ->
  0 <= i < WAH_MAX_CONTROL_DEPTH -> (forall f, Q f s) -> wp (frame_at i) Q s.
Proof.
  intros Hl Hi HQ. destruct (zget_is_Some (control_stack (s_ctl s)) i) as [f Hf]; [lia|].
  by eapply wp_frame_at.
Qed.

(** The condition of an [if]. *)
Lemma wp_condition op Q s : INV s -> (forall o, INV (set_ops o s) -> Q tt (set_ops o s)) ->
  wp (match op with
      | WAH_OP_IF => cond_type <- wah_validation_pop_type ;; wah_validate_type_match E cond_type WAH_TYPE_I32
      | _ => stm_ret tt
      end) Q s.
Proof.
  intros Hi HQ.
  assert (wp (cond_type <- wah_validation_pop_type ;; wah_validate_type_match E cond_type WAH_TYPE_I32) Q s).
  { repeat vstep EO Hi. eapply wp_type_match; [exact EO|tv|tv|]. intros _. by apply HQ. }
  rewrite <- (set_ops_same s) in Hi. destruct op; try done.
  all: apply wp_ret; rewrite <- (set_ops_same s); by apply HQ.
Qed.

Lemma validate_block_safe op : safe op (validate_block E op).
Proof.
  apply safe_appends. intros s Hi R. unfold validate_block. apply wp_bind, wp_condition; [done|]. intros o0 Hi0.
  change (room (set_ops o0 s)) in R. change (appends op s) with (appends op (set_ops o0 s)).
  clear Hi. generalize dependent (set_ops o0 s). clear s o0. intros s R Hi0.
  apply wp_bind, wp_get, wp_bind, wp_ensure. intros Hsp. apply Z.ltb_lt in Hsp.
  pose proof (i_ctl _ _ _ _ _ Hi0) as [C1 C2 _]. pose proof (inv_base E B G false _ Hi0).
  apply wp_bind. eapply wp_base; [eassumption|]. apply wp_bind, wp_current_frame; [done|lia|]. intros old. cbv zeta.
  apply wp_open_frame; [done|done| |simpl; lia|].
  { split; try constructor; vm_compute; congruence. }
  intros l c Hf Hop. apply wp_bind. eapply wp_decode_block_type; [exact EO|eassumption|].
  intros bt single idx d Hbt Hop1. apply wp_bind. eapply wp_pop_types; [exact EO|eassumption|tv|].
  intros o1 Hop2 _ _. apply wp_bind, wp_get. pose proof (i_ops _ _ _ _ _ Hop2) as [_ Hd _ _].
  apply wp_bind. eapply wp_complete_frame; [eassumption|done|exact (f_equal head Hf)|done|by rewrite Hd| |done|].
  { split; [apply (inv_base E B G true _ Hop2)|done]. }
  intros l' c' Hf' Hi1. apply wp_bind. eapply wp_push_valid; [eassumption|tv|]. intros o2 Hi2 _ _.
  apply wp_bind. unfold wp at 1, modify at 1. apply (inv_set_unreachable E B G false _ false) in Hi2.
  apply wp_bind. eapply wp_grown; [exact Hi2|exact R|]. intros a cap Hi3 Hcap.
  unfold wp, modify. by apply appended.
Qed.

(** The innermost frame is changed in what the invariant does not depend on. *)
Lemma wp_update_top f f' fs Q s : INV s -> frames (s_ctl s) = f :: fs ->
  fr_block_type f' = fr_block_type f -> fr_stack_height f' = fr_stack_height f ->
  fr_type_stack_sp f' = fr_type_stack_sp f -> fr_local_init_undo_base f' = fr_local_init_undo_base f ->
  (forall l, let c := Control l (control_sp (s_ctl s)) (is_unreachable (s_ctl s)) in
     frames c = f' :: fs -> INV (set_ctl c s) -> Q tt (set_ctl c s)) ->
  wp (put_frame (control_sp (s_ctl s) - 1) f') Q s.
Proof.
  intros Hi Hf E1 E2 E3 E4 HQ. pose proof Hi as [H1 H2 [C1 C2 C3] H4 H5 H6 H7].
  assert (0 < control_sp (s_ctl s)).
  { pose proof (frames_length _ C1 C2) as Hn. rewrite Hf in Hn. unfold zlen in Hn. simpl in Hn. lia. }
  apply wp_put_frame; [done|lia|]. intros l Hl Hlen.
  destruct (inv_top E B G false s Hi ltac:(lia)) as (f0 & fs0 & _ & Hf0 & Hfs). rewrite Hf in Hf0. injection Hf0 as <- <-.
  assert (Hf' : frames (Control l (control_sp (s_ctl s)) (is_unreachable (s_ctl s))) = f' :: fs).
  { pose proof (frames_push (Control (control_stack (s_ctl s)) (control_sp (s_ctl s) - 1) (is_unreachable (s_ctl s))) f' l
      (is_unreachable (s_ctl s)) Hl ltac:(simpl; lia)) as Hp. simpl in Hp.
    replace (control_sp (s_ctl s) - 1 + 1) with (control_sp (s_ctl s)) in Hp by lia. by rewrite Hp, Hfs. }
  apply (HQ l); [exact Hf'|]. rewrite Hf in C3. simpl in C3. rewrite <- E1, <- E2, <- E3, <- E4 in C3.
  split; try done; simpl.
  - replace (base _) with (base s); [done|]. unfold base. cbn [s_ctl set_ctl]. rewrite Hf, Hf'. by simpl.
  - split; [done|done|]. rewrite Hf'. exact C3.
Qed.

(** The innermost frame is popped. *)
Lemma inv_pop_frame f fs s u : INV s -> frames (s_ctl s) = f :: fs -> undo_len s = fr_local_init_undo_base f ->
  INV (set_unreachable u (set_control_sp (control_sp (s_ctl s) - 1) s)).
Proof.
  intros Hi Hf Hu. apply inv_set_unreachable. pose proof Hi as [H1 H2 [C1 C2 C3] H4 H5 H6 H7].
  assert (0 < control_sp (s_ctl s)).
  { pose proof (frames_length _ C1 C2) as Hn. rewrite Hf in Hn. unfold zlen in Hn. simpl in Hn. lia. }
  destruct (inv_top E B G false s Hi ltac:(lia)) as (f0 & fs0 & _ & Hf0 & Hfs). rewrite Hf in Hf0. injection Hf0 as <- <-.
  pose proof (inv_base E B G false s Hi). rewrite Hf in C3. destruct C3 as (_ & _ & Hh & _ & C3).
  split; try done; simpl.
  - apply (ops_ok_base E G (base s)); [done|]. unfold base in *. cbn [s_ctl set_control_sp set_ctl].
    rewrite Hfs. rewrite Hf in *. simpl in *. lia.
  - split; [done|simpl; lia|]. rewrite Hfs. unfold undo_len in *. simpl in *. by rewrite Hu.
Qed.

Lemma top_frame_ok f fs s : INV s -> frames (s_ctl s) = f :: fs -> block_type_ok TM (fr_block_type f).
Proof. intros [_ _ [_ _ C3] _ _ _ _] Hf. rewrite Hf in C3. apply C3. Qed.

Lemma validate_else_safe : safe WAH_OP_ELSE (validate_else E).
Proof.
  intros s Hi R. unfold validate_else. apply wp_bind, wp_get, wp_bind, wp_ensure. intros Hsp. apply Z.ltb_lt in Hsp.
  destruct (inv_top E B G false s Hi Hsp) as (f & fs & Ht & Hf & _). pose proof (top_frame_ok f fs s Hi Hf).
  apply wp_bind. eapply wp_frame_at; [done|]. apply wp_bind, wp_ensure. intros _.
  apply wp_bind. eapply wp_update_top; [done|exact Hf|done..|]. intros l c Hf' Hi1.
  apply wp_bind. eapply wp_finish_frame; [exact EO|done|exact Hi1|exact Hf'|done..|]. intros o i Hi2 _ _ _ _.
  apply wp_bind. eapply wp_push_valid; [exact Hi2|tv|]. intros o' Hi3 _ _.
  apply wp_bind. unfold wp at 1, modify at 1. apply (inv_set_unreachable E B G false _ false) in Hi3.
  repeat vstep EO R. vdone.
Qed.

Lemma validate_end_safe : safe WAH_OP_END (validate_end E).
Proof.
  intros s Hi R. unfold validate_end. apply wp_bind, wp_get, wp_bind, wp_ensure. intros Hsp. apply Z.ltb_lt in Hsp.
  destruct (inv_top E B G false s Hi Hsp) as (f & fs & Ht & Hf & _). pose proof (top_frame_ok f fs s Hi Hf) as Hb.
  apply wp_bind. eapply wp_frame_at; [done|]. cbv zeta. apply wp_bind.
  assert (Hm : forall Q : unit -> vstate -> Prop, Q tt s -> wp (if is_if (fr_opcode f) && negb (fr_else_found f) then
     stm_ensure (zlen (bt_param_types (fr_block_type f)) =? zlen (bt_result_types (fr_block_type f))) WAH_ERROR_VALIDATION_FAILED ;;;
     match_types E (length (bt_param_types (fr_block_type f))) (bt_param_types (fr_block_type f)) (bt_result_types (fr_block_type f))
   else stm_ret tt) Q s).
  { intros Q HQ. apply wp_if; intros _; [|by apply wp_ret]. apply wp_bind, wp_ensure. intros Hl.
    apply Z.eqb_eq in Hl. unfold zlen in Hl. eapply wp_match_types; [exact EO|lia|lia|apply valid_operands; tv|tv|done]. }
  apply Hm. clear Hm. apply wp_bind. eapply wp_finish_frame; [exact EO|done|exact Hi|exact Hf|done..|].
  intros o i Hi1 _ _ _ Hu. apply wp_bind. unfold wp at 1, modify at 1.
  apply wp_bind. apply wp_current_frame; [apply Hi|pose proof (i_ctl _ _ _ _ _ Hi) as [_ ? _]; lia|]. intros g.
  apply wp_bind. unfold wp at 1, modify at 1.
  eapply (inv_pop_frame _ _ _ (fr_is_unreachable g)) in Hi1; [|exact Hf|exact Hu].
  apply wp_bind. eapply wp_push_valid; [exact Hi1|tv|]. intros o' Hi3 _ _.
  repeat vstep EO R. vdone.
Qed.

(** *** [br_table] *)

Definition set_scratch (d : decoder) (l : wah_br_table_labels_t) (s : vstate) : vstate :=
  set_labels (Some l) (set_dec d s).

Lemma wp_label_bytes Q s : INV s ->
  (forall x bs d, 0 <= x <= control_sp (s_ctl s) -> cursor (s_dec s) = bs ++ cursor d -> uleb 32 bs x ->
     INV (set_dec d s) -> Q x (set_dec d s)) -> wp decode_label Q s.
Proof.
  intros Hi HQ. unfold decode_label. pose proof (i_dec _ _ _ _ _ Hi) as [Hb _].
  assert (Hd : wp (on_cursor wah_decode_uleb128) (fun x d => exists bs, cursor (s_dec s) = bs ++ cursor d /\ uleb 32 bs x /\
    INV (set_dec d s)) (s_dec s)).
  { apply wp_uleb; [done|]. intros x bs c Hc Hu Hbc. exists bs. split_and!; [done|done|].
    apply inv_set_dec; [done|done|by exists bs]. }
  apply wp_bind. unfold wp, with_cur, with_dec in *. destruct (on_cursor wah_decode_uleb128 (s_dec s)) as [[x|e|] d]; [|done|done].
  destruct Hd as (bs & Hc & Hu & Hi'). unfold stm_bind, stm_get, stm_ensure, stm_ret, stm_err.
  destruct (Z.leb_spec x (control_sp (s_ctl (set_dec d s)))) as [Hx|]; [|done]. pose proof (uleb_nonneg _ _ _ Hu).
  eapply HQ; [split; [done|exact Hx]|done..].
Qed.

(** The labels read from the bytes. *)
Inductive label_bytes : list Z -> list Z -> Prop :=
| lab_nil : label_bytes [] []
| lab_snoc ls bs x b : label_bytes ls bs -> uleb 32 b x -> label_bytes (ls ++ [x]) (bs ++ b).

Record table_state (n cap : Z) (c : list Z) (s : vstate) (l : wah_br_table_labels_t)
    (bt : wah_br_table_imm_t) (syms ls : list Z) : Prop := {
  ts_inv : INV s;
  ts_labels : s_labels s = Some l;
  ts_scratch : scratch_ok (control_sp (s_ctl s)) l syms;
  ts_table : table_ok n cap bt syms ls;
  ts_few : zlen syms <= zlen ls /\ zlen syms <= cap;
  ts_bytes : exists bs, c = bs ++ cursor (s_dec s) /\ label_bytes ls bs }.

Lemma br_table_targets_spec k n cap c s l bt syms ls Q : 0 <= n ->
  cap = Z.min (n + 1) (control_sp (s_ctl s) + 1) -> zlen ls + Z.of_nat k = n + 1 ->
  table_state n cap c s l bt syms ls ->
  (forall d' l' bt' syms' ls', zlen ls' = n + 1 ->
     table_state n cap c (set_scratch d' l' s) l' bt' syms' ls' -> Q (bt', zlen syms') (set_scratch d' l' s)) ->
  wp (br_table_targets k (zlen ls) bt (zlen syms)) Q s.
Proof.
  intros Hn Hcap. revert s l bt syms ls Hcap. induction k as [|k IH]; intros s l bt syms ls Hcap Hk Ht HQ; cbn [br_table_targets].
  { apply wp_ret. pose proof Ht as [Hi Hl _ _ _ _].
    assert (Es : s = set_scratch (s_dec s) l s) by (unfold set_scratch, set_labels, set_dec; destruct s; simpl in *; by subst).
    rewrite Es. apply (HQ _ _ bt syms ls); [lia|]. by rewrite <- Es. }
  destruct Ht as [Hi Hl Hsc Htb [Hf1 Hf2] (bs & Hc & Hbs)].
  apply wp_bind, wp_label_bytes; [done|]. intros x b d Hx Hcur Hu Hi'.
  apply wp_bind. unfold the_labels. apply wp_bind, wp_get. eapply wp_opt; [exact Hl|].
  pose proof (i_ctl _ _ _ _ _ Hi) as [_ Hsp _].
  destruct (record_label_spec n cap (control_sp (s_ctl s)) l bt syms ls x Htb Hsc ltac:(lia) Hx Hn ltac:(lia) Hcap Hf1)
    as (l' & bt' & syms' & r & Hrl & Htb' & Hsc' & Hf1' & Hf2' & Hr & Hrec & Hlt).
  apply wp_bind. eapply wp_opt; [exact Hrl|]. apply wp_bind. unfold wp at 1, modify at 1.
  apply wp_bind. eapply wp_opt; [exact Hrec|].
  destruct (set_target_spec n cap bt' syms' ls x r Htb' Hr Hlt Hf2' ltac:(lia)) as (bt'' & Hst & Htb'').
  apply wp_bind. eapply wp_opt; [exact Hst|].
  assert (Hz : zlen ls + 1 = zlen (ls ++ [x])) by (unfold zlen; rewrite length_app; simpl; lia). rewrite Hz.
  apply (IH (set_scratch d l' s) l'); [done|lia| |].
  - split; [apply inv_set_labels; [done|apply Hsc']|done|done|done|lia|].
    exists (bs ++ b). split; [rewrite Hc, Hcur; by rewrite (assoc_L (++))|]. by constructor.
  - intros d' l2 bt2 syms2 ls2 Hz2 Hts. by apply (HQ d' l2 bt2 syms2 ls2).
Qed.

(** The loops over the records. *)
Definition symbols_ok (bt : wah_br_table_imm_t) (syms : list Z) (s : vstate) : Prop :=
  (forall r x, syms !! r = Some x -> wah_br_table_symbol bt (Z.of_nat r) = Some x) /\
  Forall (fun x => 0 <= x <= control_sp (s_ctl s)) syms.

Lemma wp_symbol bt syms r Q s : symbols_ok bt syms s -> (r < length syms)%nat ->
  (forall x, syms !! r = Some x -> 0 <= x <= control_sp (s_ctl s) -> Q x s) ->
  wp (stm_opt (wah_br_table_symbol bt (Z.of_nat r)) : comp vstate _) Q s.
Proof.
  intros [H1 H2] Hr HQ. destruct (lookup_lt_is_Some_2 syms r Hr) as [x Hx]. eapply wp_opt; [by apply H1|].
  apply HQ; [done|]. exact (Forall_lookup_1 _ _ _ _ H2 Hx).
Qed.

Section Records.
Context (FB : v_mode E = WAH_ANALYZE_FUNC_BODY).

Lemma label_types_det s x ts h ts' h' : label_types E s x ts h -> label_types E s x ts' h' -> ts = ts' /\ h = h'.
Proof. unfold label_types. case_match; naive_solver. Qed.

(** The labels of all records have [count] types. *)
Definition counts_ok (s : vstate) (count : Z) (xs : list Z) : Prop :=
  Forall (fun x => exists ts h, label_types E s x ts h /\ zlen ts = count) xs.

Lemma check_record_counts_safe n r count bt syms Q s : INV s -> symbols_ok bt syms s ->
  (n + r = length syms)%nat -> (counts_ok s count (drop r syms) -> Q tt s) ->
  wp (check_record_counts E n (Z.of_nat r) count bt) Q s.
Proof.
  intros Hi Hs. revert r Q. induction n as [|n IH]; intros r Q Hn HQ; cbn [check_record_counts].
  { apply wp_ret, HQ. rewrite drop_ge by lia. constructor. }
  apply wp_bind. eapply wp_symbol; [done|lia|]. intros x Hrx Hx.
  apply wp_bind. eapply wp_resolve; [exact EO|eassumption|done|done|]. intros ts h Hlab _ _ _.
  apply wp_bind, wp_ensure. intros Hc%Z.eqb_eq. replace (Z.of_nat r + 1) with (Z.of_nat (S r)) by lia.
  apply IH; [lia|]. intros Hrest. apply HQ. rewrite (drop_S _ _ _ Hrx). constructor; [by exists ts, h|done].
Qed.

(** What the drops of the records are computed from. *)
Definition drop_of (s : vstate) (count : Z) (bt : wah_br_table_imm_t) (r : nat) (x : Z) : Prop :=
  exists ts h, label_types E s x ts h /\
    wah_br_table_drop bt (Z.of_nat r) =
      Some (if is_unreachable (s_ctl s) then 0 else current_stack_depth (s_ops s) - h - count) /\
    (is_unreachable (s_ctl s) = true \/ h + count <= current_stack_depth (s_ops s)).

Lemma table_ok_set_drop m cap bt syms ls r d rest : table_ok m cap bt syms ls -> zlen syms <= cap -> (r < length syms)%nat ->
  zset (bti_rest bt) (cap + Z.of_nat r) (Some d) = Some rest -> table_ok m cap (set_rest rest bt) syms ls.
Proof.
  intros [T1 T2 T3 T4 T5 T6] Hcap Hr Hs.
  assert (Hg : forall j, j <> cap + Z.of_nat r -> zget rest j = zget (bti_rest bt) j).
  { intros j Hj. rewrite (zset_lookup _ _ _ _ j Hs). by rewrite (proj2 (Z.eqb_neq _ _)). }
  assert (Hw : forall j, 0 <= j -> cap * 2 + j / 2 <> cap + Z.of_nat r).
  { intros j Hj. assert (0 <= j / 2) by (apply Z.div_pos; lia). unfold zlen in *. lia. }
  split; simpl; try done.
  - by rewrite (zset_length _ _ _ _ Hs).
  - intros r' x Hx. unfold wah_br_table_symbol. simpl. apply lookup_lt_Some in Hx as Hlt.
    rewrite Hg by (unfold zlen in *; lia). by apply T4.
  - intros j x Hx. destruct (T5 j x Hx) as (r' & Hr' & Ht). exists r'. split; [done|].
    unfold wah_br_table_target in *. simpl. rewrite T2 in *. rewrite Hg by (apply Hw; lia). exact Ht.
  - intros Ho. destruct (T6 Ho) as (w & Hw' & Hb). exists w. rewrite Hg by (apply Hw; unfold zlen; lia). done.
Qed.

Lemma set_record_drops_spec n r count m cap bt syms ls Q s : INV s -> 0 <= count <= WAH_MAX_TYPE_STACK_SIZE ->
  table_ok m cap bt syms ls -> 0 <= m -> Forall (fun x => 0 <= x <= control_sp (s_ctl s)) syms -> zlen syms <= cap ->
  (n + r = length syms)%nat ->
  (forall j x, syms !! j = Some x -> (j < r)%nat -> drop_of s count bt j x) ->
  (forall bt', table_ok m cap bt' syms ls -> (forall j x, syms !! j = Some x -> drop_of s count bt' j x) -> Q bt' s) ->
  wp (set_record_drops E n (Z.of_nat r) count bt) Q s.
Proof.
  intros Hi Hcount. revert r bt. induction n as [|n IH]; intros r bt Ht Hm Hsy Hcap Hn Hd HQ; cbn [set_record_drops].
  { apply wp_ret, HQ; [done|]. intros j x Hx. apply Hd; [done|]. apply lookup_lt_Some in Hx. lia. }
  apply wp_bind. eapply wp_symbol; [split; [apply Ht|exact Hsy]|lia|]. intros x Hrx Hx.
  apply wp_bind. eapply wp_resolve; [exact EO|eassumption|done|done|]. intros ts h Hlab _ _ Hh.
  apply wp_bind, wp_get. cbv zeta. apply wp_bind, wp_ensure. intros He.
  apply lookup_lt_Some in Hrx as Hrl. pose proof (tb_length _ _ _ _ _ Ht) as Hlen.
  assert (0 <= (m + 2) / 2) by (apply Z.div_pos; lia).
  pose proof (inv_depth E B G false s Hi). pose proof (inv_base E B G false s Hi).
  set (d := if is_unreachable (s_ctl s) then 0 else u32 (current_stack_depth (s_ops s) - h - count)).
  unfold wah_br_table_set_drop. rewrite (tb_cap _ _ _ _ _ Ht).
  destruct (zset_is_Some (bti_rest bt) (cap + Z.of_nat r) (Some d)) as [rest Hs]; [unfold zlen in *; lia|].
  rewrite Hs. apply wp_bind. eapply wp_opt; [done|]. replace (Z.of_nat r + 1) with (Z.of_nat (S r)) by lia.
  assert (Hdr : forall j, wah_br_table_drop (set_rest rest bt) (Z.of_nat j) =
    if decide (j = r) then Some d else wah_br_table_drop bt (Z.of_nat j)).
  { intros j. unfold wah_br_table_drop. simpl. rewrite (tb_cap _ _ _ _ _ Ht), (zset_lookup _ _ _ _ _ Hs).
    case_decide as Hj; [subst; by rewrite Z.eqb_refl|]. by rewrite (proj2 (Z.eqb_neq _ _)) by lia. }
  apply IH; [by eapply table_ok_set_drop|done..|lia| |done].
  intros j y Hy Hj. destruct (decide (j = r)) as [->|Hne].
  - simplify_eq. exists ts, h. rewrite Hdr, decide_True by done. split; [done|]. unfold d. apply orb_true_iff in He as [He|He].
    + rewrite He. by split; [|left].
    + apply Z.leb_le in He. split; [|by right]. destruct (is_unreachable (s_ctl s)); [done|].
      rewrite u32_small; [done|]. mlia.
  - destruct (Hd j y Hy ltac:(lia)) as (ts' & h' & D1 & D2 & D3). exists ts', h'. by rewrite Hdr, decide_False.
Qed.

Lemma check_record_types_safe n r popped bt syms Q s : INV s -> symbols_ok bt syms s ->
  (n + r = length syms)%nat -> Forall (operand_ok TM) popped ->
  counts_ok s (zlen popped) syms ->
  Q tt s -> wp (check_record_types E n (Z.of_nat r) popped bt) Q s.
Proof.
  intros Hi Hs. revert r. induction n as [|n IH]; intros r Hn Hp Hl HQ; cbn [check_record_types]; [by apply wp_ret|].
  apply wp_bind. eapply wp_symbol; [done|lia|]. intros x Hrx Hx.
  apply wp_bind. eapply wp_resolve; [exact EO|eassumption|done|done|]. intros ts h Hlab Hts _ _.
  apply wp_bind. destruct (Forall_lookup_1 _ _ _ _ Hl Hrx) as (ts' & h' & Hlab' & Hlen).
  destruct (label_types_det _ _ _ _ _ _ Hlab Hlab') as [<- _]. unfold zlen in Hlen.
  eapply wp_match_types; [exact EO|lia|lia|done|done|]. intros _.
  replace (Z.of_nat r + 1) with (Z.of_nat (S r)) by lia. by apply IH; [lia|..].
Qed.

Lemma wp_pop_matching ts popped Q s : INV s -> Forall (type_valid TM) ts -> Forall (operand_ok TM) popped ->
  (forall l o, length l = (length popped + length ts)%nat -> Forall (operand_ok TM) l -> INV (set_ops o s) ->
     Q l (set_ops o s)) -> wp (pop_matching E ts popped) Q s.
Proof.
  revert popped s. induction ts as [|t ts IH]; intros popped s Hi Ht Hp HQ; cbn [pop_matching].
  { apply wp_ret. rewrite <- (set_ops_same s). apply HQ; [simpl; lia|done|by rewrite set_ops_same]. }
  apply Forall_cons in Ht as [Ht Hts]. apply wp_bind. eapply wp_pop_into; [done|]. intros u o Hu Hi' _ _.
  apply wp_bind. eapply wp_type_match; [exact EO|done|done|]. intros _.
  apply IH; [done|done|by constructor|]. intros l o' Hl. simpl in Hl. apply (HQ l o'). simpl. lia.
Qed.

(** What a br_table leaves: the table of its [n + 1] labels, with the drops computed
    after the index has been popped. *)
Definition br_table_emitted (o : wah_op) (s s' : vstate) : Prop := exists n bt syms ls cb bs s1,
  instrs (s_code s') = instrs (s_code s) ++
    [DecodedInstr (wah_op_value o) WAH_INSTR_FLAG_UNREACHABLE 0 (imm_br_table bt)] /\
  cursor (s_dec s) = cb ++ bs ++ cursor (s_dec s') /\ uleb 32 cb n /\ label_bytes ls bs /\ zlen ls = n + 1 /\
  bti_record_count bt = zlen syms /\
  table_ok n (Z.min (n + 1) (control_sp (s_ctl s) + 1)) bt syms ls /\ NoDup syms /\
  pop1 TM (is_unreachable (s_ctl s)) (operands s) WAH_TYPE_I32 (operands s1) /\
  s_ctl s1 = s_ctl s /\ exists count,
    bti_keep bt = (if is_unreachable (s_ctl s) then 0 else count) /\
    counts_ok s count syms /\ forall r x, syms !! r = Some x -> drop_of s1 count bt r x.

Lemma wp_count_bytes k Q s : INV s ->
  (forall v bs d, cursor (s_dec s) = bs ++ cursor d -> uleb 32 bs v -> INV (set_dec d s) -> Q v (set_dec d s)) ->
  wp (with_cur (wah_decode_and_validate_count k)) Q s.
Proof.
  intros Hi HQ. pose proof (i_dec _ _ _ _ _ Hi) as [Hb _]. unfold wp, with_cur, with_dec.
  assert (Hd : wp (on_cursor (wah_decode_and_validate_count k)) (fun v d => Q v (set_dec d s)) (s_dec s)).
  { apply wp_count; [done|]. intros v bs c Hc Hu Hbc. eapply HQ; [exact Hc|done|].
    apply inv_set_dec; [done|done|by exists bs]. }
  unfold wp in Hd. by destruct (on_cursor (wah_decode_and_validate_count k) (s_dec s)) as [[v|e|] d].
Qed.

Lemma labels_ok_get s l : INV s -> s_labels s = Some l -> labels_ok l.
Proof. intros [_ _ _ _ H _ _] E'. by rewrite E' in H. Qed.

Lemma table_ok_empty n cap : 0 <= n -> 0 <= cap ->
  table_ok n cap (BrTableImm n 0 cap 0 (replicate (Z.to_nat (cap * 2 + (n + 2) / 2)) None)) [] [].
Proof.
  intros Hn Hcap. assert (0 <= (n + 2) / 2) by (apply Z.div_pos; lia).
  split; simpl; try done. unfold zlen. rewrite length_replicate. lia.
Qed.

(** The operands of the branch are checked against every record. *)
Lemma br_table_operands_safe b s bt syms count ts Q : INV s -> symbols_ok bt syms s -> counts_ok s count syms ->
  Forall (type_valid TM) ts -> count = zlen ts ->
  (forall o a, INV (set_ops o (set_ans a s)) -> Q tt (set_ops o (set_ans a s))) ->
  wp (if (0 <? count) && negb b then
        with_ans (wah_malloc_c count 4) ;;;
        popped_types <- pop_matching E (reverse ts) [] ;;
        check_record_types E (Z.to_nat (zlen syms)) 0 popped_types bt
      else stm_ret tt) Q s.
Proof.
  intros Hi Hs Hc Ht -> HQ. assert (Z.to_nat (zlen syms) = length syms) as -> by (unfold zlen; lia). apply wp_if; intros _.
  - apply wp_bind, wp_malloc. intros a. apply wp_bind.
    eapply wp_pop_matching; [by apply inv_set_ans|by apply Forall_reverse|constructor|].
    intros l o Hlen Hl' Hi'. simpl in Hlen. rewrite length_reverse in Hlen.
    apply (check_record_types_safe _ 0 _ _ syms); [exact Hi'|exact Hs|lia|done| |by apply HQ].
    unfold zlen. rewrite Hlen. exact Hc.
  - apply wp_ret. assert (Es : s = set_ops (s_ops s) (set_ans (s_ans s) s)) by by destruct s. rewrite Es. apply HQ. by rewrite <- Es.
Qed.

Lemma validate_br_table_spec o s : INV s -> room s ->
  wp (validate_br_table E o) (fun _ s' => INV s' /\ br_table_emitted o s s') s.
Proof.
  intros Hi R. unfold validate_br_table. apply wp_bind, wp_get, wp_bind, wp_ensure. intros Hlab.
  destruct (s_labels s) as [l0|] eqn:El0; [|done].
  apply wp_bind. eapply wp_count_bytes; [done|]. intros n cb d Hcb Hn Hi1.
  apply wp_bind, wp_ensure. intros Hmax. apply wp_bind, wp_get, wp_bind, wp_ensure. intros Hlen. cbv zeta.
  apply Z.ltb_lt in Hmax. pose proof (uleb_nonneg _ _ _ Hn) as Hn0.
  set (csp := control_sp (s_ctl s)). change (control_sp (s_ctl (set_dec d s))) with csp.
  set (cap := if n <? csp then n + 1 else csp + 1).
  assert (Hcap : cap = Z.min (n + 1) (csp + 1)) by (unfold cap; destruct (Z.ltb_spec n csp); lia).
  pose proof (i_ctl _ _ _ _ _ Hi) as [_ Hsp _]. fold csp in Hsp.
  apply wp_bind, wp_malloc. intros a. apply wp_bind. unfold wp at 1, modify at 1.
  cbn [s_labels set_ans set_dec]. rewrite El0. cbn [fmap option_fmap option_map].
  set (s2 := set_labels (Some (next_serial l0)) _).
  pose proof (next_serial_fresh csp l0 (labels_ok_get s l0 Hi El0) ltac:(lia)) as Hfresh.
  assert (Ht0 : table_state n cap (cursor d) s2 (next_serial l0)
     (BrTableImm n 0 cap 0 (replicate (Z.to_nat (cap * 2 + (n + 2) / 2)) None)) [] []).
  { split; [|done|exact Hfresh|apply table_ok_empty; lia|unfold zlen; simpl; lia|by exists []; split; [|constructor]].
    apply inv_set_labels; [by apply inv_set_ans|apply Hfresh]. }
  apply wp_bind. eapply (br_table_targets_spec _ n cap (cursor d) s2 _ _ [] []); [done|done|unfold zlen; simpl; lia|exact Ht0|].
  intros d' l' bt syms ls Hls [Ti Tl [Tsc Tnd Tsy _ _] Tt [_ Tcap] (bs & Tbs & Tb)].
  cbv beta iota. set (s3 := set_scratch d' l' s2) in *. change (control_sp (s_ctl s3)) with csp in *.
  apply wp_bind. eapply wp_pop; [exact EO|exact Ti|tv|]. intros o1 Hi4 Hpop Hd4. set (s4 := set_ops o1 s3) in *.
  assert (Hnth : exists x, ls !! Z.to_nat n = Some x) by (apply lookup_lt_is_Some_2; unfold zlen in *; lia).
  destruct Hnth as [x Hx]. destruct (tb_targets _ _ _ _ _ Tt _ _ Hx) as (r & Hr & Htr). rewrite Z2Nat.id in Htr by done.
  apply wp_bind. eapply wp_opt; [exact Htr|]. apply wp_bind. eapply wp_opt; [by apply Tt|].
  pose proof (Forall_lookup_1 _ _ _ _ Tsy Hr) as Hxr.
  apply wp_bind. eapply wp_resolve; [exact EO|exact Hi4|done|exact Hxr|]. intros ts h Hlt Hts Htn _. cbv beta iota zeta.
  assert (Hsy : symbols_ok bt syms s4) by (split; [apply Tt|exact Tsy]).
  assert (Hnat : Z.to_nat (zlen syms) = length syms) by (unfold zlen; apply Nat2Z.id).
  apply wp_bind. rewrite Hnat. apply (check_record_counts_safe _ 0 _ _ syms); [exact Hi4|exact Hsy|lia|]. intros Hcnt.
  rewrite drop_0 in Hcnt. apply wp_bind.
  apply (set_record_drops_spec _ 0 _ n cap _ syms ls); [exact Hi4|unfold zlen in *; lia|exact Tt|done|exact Tsy|exact Tcap|lia|lia|].
  intros bt' Tt' Hdrops. apply wp_bind, wp_get. cbv zeta. rewrite <- Hnat.
  apply wp_bind. eapply wp_at_base; [exact Hi4|]. apply wp_bind.
  eapply br_table_operands_safe; [exact Hi4|split; [apply Tt'|exact Tsy]|exact Hcnt|exact Hts|done|]. intros o2 a2 Hi5.
  apply wp_bind. eapply wp_mark_unreachable; [exact Hi5|]. intros o3 Hi6 _ _.
  eapply wp_emit_exact; [exact Hi6|exact R|]. intros a3 cap3 di Hi7. split; [exact Hi7|].
  assert (Hcap' : Z.min (n + 1) (control_sp (s_ctl s) + 1) = cap) by (rewrite Hcap; done).
  eexists n, _, syms, ls, cb, bs, s4. rewrite Hcap'. split_and!; [reflexivity| |done|done|done|done| |done|exact Hpop|done|].
  - rewrite Hcb, Tbs. done.
  - destruct Tt'. by split.
  - exists (zlen ts). split_and!; [done|exact Hcnt|exact Hdrops].
Qed.

Lemma validate_br_table_safe o : safe o (validate_br_table E o).
Proof.
  intros s Hi R. eapply wp_mono; [by apply validate_br_table_spec|]. intros [] s' [Hi' H]. split; [done|].
  destruct H as (n & bt & syms & ls & cb & bs & s1 & Hins & _). eexists [_].
  split_and!; [exact Hins|done|by repeat constructor|done].
Qed.

(** *** Exceptions *)

Lemma wp_tag_type i Q (s : vstate) : 0 <= i -> (i <? total_tags E) = true ->
  (forall ft, func_type_ok TM ft -> Q ft s) -> wp (tag_type E i) Q s.
Proof.
  intros H1 H2 HQ. unfold tag_type.
  destruct (space_get _ _ _ _ (mo_tags M (eo_module E EO)) H1 H2) as (ti & Hti & Hr).
  destruct (func_type_at E EO ti Hr) as (ft & Hft & Hok).
  apply wp_bind. eapply wp_opt; [exact Hti|]. eapply wp_opt; [exact Hft|]. by apply HQ.
Qed.

Lemma validate_throw_safe : safe_opt E B G WAH_OP_THROW (validate_exception E WAH_OP_THROW).
Proof.
  intros s Hi R. repeat vstep EO R. apply wp_tag_type; [lia|done|]. intros ft Hok.
  vstep EO R. eapply wp_pop_types; [exact EO|eassumption|tv|]. intros o Hi' _ _. repeat vstep EO R. vdone.
Qed.

Lemma validate_throw_ref_safe : safe_opt E B G WAH_OP_THROW_REF (validate_exception E WAH_OP_THROW_REF).
Proof. intros s Hi R. repeat vstep EO R. vdone. Qed.

(** The catches of a try_table, read in a context of [csp] labels. *)
Definition catch_ok (csp : Z) (c : wah_catch_entry_t) : Prop :=
  (ce_kind c = 0 \/ ce_kind c = 1 -> 0 <= ce_tag_idx c /\ (ce_tag_idx c <? total_tags E) = true) /\
  0 <= ce_label_idx c <= csp.

Lemma decode_catches_safe n Q s : INV s ->
  (forall cs d, Forall (catch_ok (control_sp (s_ctl s))) cs -> INV (set_dec d s) -> Q cs (set_dec d s)) ->
  wp (decode_catches E n) Q s.
Proof.
  revert Q s. induction n as [|n IH]; intros Q s Hi HQ; cbn [decode_catches].
  { apply wp_ret. assert (Es : s = set_dec (s_dec s) s) by by destruct s. rewrite Es. apply HQ; [constructor|by rewrite <- Es]. }
  do 6 vstep EO Hi.
  assert (Htag : forall Q0 : Z -> vstate -> Prop,
    (forall t d', INV (set_dec d' s) -> (b = 0 \/ b = 1 -> 0 <= t /\ (t <? total_tags E) = true) -> Q0 t (set_dec d' s)) ->
    wp (if (b =? 0) || (b =? 1) then
          tag_idx <- with_cur wah_decode_uleb128 ;;
          stm_ensure (tag_idx <? total_tags E) WAH_ERROR_VALIDATION_FAILED ;;; stm_ret tag_idx
        else stm_ret 0) Q0 (set_dec d s)).
  { intros Q0 HQ0. apply wp_if; intros Hk; repeat vstep EO Hi.
    - by apply HQ0; [|split; [lia|]].
    - apply HQ0; [done|]. intros H. apply orb_false_iff in Hk as [H1 H2]. apply Z.eqb_neq in H1, H2. lia. }
  apply wp_bind, Htag. intros t d' Hi1 Ht. clear Htag. repeat vstep EO Hi. apply Z.leb_le in Hc0.
  apply IH; [done|]. intros cs d2 Hcs Hi3. apply wp_ret. apply (HQ (CatchEntry b t v :: cs) d2); [|done].
  constructor; [|done]. split; simpl in *; [done|lia].
Qed.

Lemma raise_max_depth_ok b d o : ops_ok TM G b o -> d <= 2 * WAH_MAX_TYPE_STACK_SIZE -> ops_ok TM G b (raise_max_depth d o).
Proof.
  intros [H1 H2 H3 H4] Hd. split; simpl; try done.
  destruct (Z.ltb_spec (max_stack_depth o) d); lia.
Qed.

Lemma wp_catch_tag csp c Q (s : vstate) : catch_ok csp c -> (forall ts, Forall (type_valid TM) ts ->
    zlen ts <= WAH_MAX_TYPE_STACK_SIZE -> Q ts s) ->
  wp (if (ce_kind c =? 0) || (ce_kind c =? 1) then
        ft <- tag_type E (ce_tag_idx c) ;; stm_ret (param_types ft) else stm_ret []) Q s.
Proof.
  intros [Ht _] HQ. apply wp_if; intros Hk.
  - apply orb_true_iff in Hk as [Hk|Hk]; apply Z.eqb_eq in Hk;
      (apply wp_bind, wp_tag_type; [by apply Ht; auto|by apply Ht; auto|]; intros ft Hok; apply wp_ret, HQ; apply Hok).
  - apply wp_ret, HQ; [constructor|vm_compute; congruence].
Qed.

Lemma check_catch_safe frame pc c csp Q s : OPENING s -> control_sp (s_ctl s) = csp + 1 -> csp < WAH_MAX_CONTROL_DEPTH ->
  catch_ok csp c -> (forall o i, OPENING (set_ops o s) -> current_stack_depth o = current_stack_depth (s_ops s) ->
     Q i (set_ops o s)) -> wp (check_catch E frame pc c) Q s.
Proof.
  intros Hi Hsp Hmax Hc HQ. unfold check_catch. pose proof Hc as [_ Hl]. unfold WAH_MAX_CONTROL_DEPTH in Hmax.
  rewrite (u32_small (ce_label_idx c + 1)) by lia.
  apply wp_bind. eapply wp_resolve; [exact EO|exact Hi|done|lia|]. intros ts h _ Hts Hn Hh. cbv beta iota zeta.
  apply wp_bind, wp_ensure. intros _. apply wp_bind. unfold wp at 1, with_ops, modify.
  pose proof (inv_base E B G true s Hi). pose proof (inv_depth E B G true s Hi).
  assert (0 <= zlen ts) by (unfold zlen; lia). rewrite (u32_small (h + zlen ts)) by mlia.
  set (o := raise_max_depth _ _). assert (Hi' : OPENING (set_ops o s)).
  { apply inv_set_ops; [done|]. apply raise_max_depth_ok; [apply Hi|mlia]. }
  apply wp_bind. eapply wp_catch_tag; [exact Hc|]. intros tps Htp Htn. apply wp_bind, wp_ensure. intros Hcount.
  apply Z.eqb_eq in Hcount. set (ex := (ce_kind c =? 1) || (ce_kind c =? 3)) in *.
  assert (Hlen : zlen ts = zlen tps + b2z ex).
  { rewrite Hcount. apply u32_small. unfold zlen in *. destruct ex; simpl; mlia. }
  apply wp_bind. eapply wp_match_types; [exact EO|lia|unfold zlen in Hlen; destruct ex; simpl in Hlen; lia|by apply valid_operands|done|].
  intros _. apply wp_bind. apply wp_if; intros Hex.
  - destruct (zget_is_Some ts (zlen ts - 1)) as [t Ht]; [rewrite Hex in Hlen; simpl in Hlen; unfold zlen in *; lia|].
    apply wp_bind. eapply wp_opt; [exact Ht|]. apply zget_Some in Ht as [_ Ht].
    eapply wp_type_match; [exact EO|tv|exact (Forall_lookup_1 _ _ _ _ Hts Ht)|]. intros _. apply wp_ret. by apply HQ.
  - apply wp_ret, wp_ret. by apply HQ.
Qed.

Lemma check_catches_safe frame pc cs csp Q s : OPENING s -> control_sp (s_ctl s) = csp + 1 -> csp < WAH_MAX_CONTROL_DEPTH ->
  Forall (catch_ok csp) cs -> (forall o i, OPENING (set_ops o s) -> current_stack_depth o = current_stack_depth (s_ops s) ->
     Q i (set_ops o s)) -> wp (check_catches E frame pc cs) Q s.
Proof.
  revert Q s. induction cs as [|c cs IH]; intros Q s Hi Hsp Hmax Hcs HQ; cbn [check_catches].
  { apply wp_ret. rewrite <- (set_ops_same s). apply HQ; [by rewrite set_ops_same|done]. }
  apply Forall_cons in Hcs as [Hc Hcs]. apply wp_bind. eapply check_catch_safe; [done|done|done|done|]. intros o i Hi' Hd.
  apply wp_bind. apply IH; [done|done|done|done|]. intros o' cis Hi'' Hd'. apply wp_ret.
  apply (HQ o' (i :: cis)); [done|]. by rewrite Hd', <- Hd.
Qed.

Lemma validate_try_table_safe o : safe o (validate_try_table E o).
Proof.
  apply safe_appends. intros s Hi R. unfold validate_try_table. apply wp_bind, wp_get, wp_bind, wp_ensure. intros Hsp%Z.ltb_lt. cbv zeta.
  set (csp := control_sp (s_ctl s)) in *.
  apply wp_bind. eapply wp_decode_block_type; [exact EO|done|]. intros bt single idx d Hbt Hi1. cbv beta iota.
  apply wp_bind. eapply wp_with_cur; [apply count_good|done|]. intros n d1 _ Hi2 _.
  apply wp_bind, wp_malloc. intros a. apply wp_bind.
  eapply decode_catches_safe; [by apply inv_set_ans|]. intros cs d2 Hcs Hi3.
  apply wp_bind. eapply wp_pop_types; [exact EO|exact Hi3|tv|]. intros o1 Hi4 _ _. apply wp_bind, wp_get.
  pose proof (i_ctl _ _ _ _ _ Hi4) as [C1 C2 _].
  apply wp_bind, wp_current_frame; [exact C1|split; [apply C2|exact Hsp]|]. intros old.
  set (s4 := set_ops o1 _) in *. change csp with (control_sp (s_ctl s4)).
  apply wp_open_frame; [exact Hi4|exact Hsp|exact Hbt|simpl; split; [apply (inv_base E B G false _ Hi4)|lia]|].
  intros l c Hf Hop. set (f := ControlFrame _ _ _ _ _ _ _ _ _) in *. apply wp_bind.
  apply (check_catches_safe f _ _ csp); [exact Hop|done|exact Hsp|exact Hcs|]. intros o2 cis Hop2 Hd2.
  apply wp_bind. eapply wp_push_valid; [exact Hop2|tv|]. intros o3 Hop3 _ Hd3.
  apply wp_bind. unfold wp at 1, modify at 1. apply (inv_set_unreachable E B G true _ false) in Hop3.
  apply wp_bind, wp_get. pose proof (i_ops _ _ _ _ _ Hi4) as [_ Hd _ _].
  assert (Hb3 : forall u, base (set_unreachable u (set_ops o3 (set_ctl c s4))) = current_stack_depth (s_ops s4))
    by (intros u; exact (f_equal frames_base Hf)).
  apply wp_bind. eapply wp_complete_frame; [exact Hop3|done|exact (f_equal head Hf)|exact Hbt|exact (eq_sym Hd)| |done|].
  { change (set_ops o3 (set_ops o2 (set_ctl c s4))) with (set_ops o3 (set_ctl c s4)). rewrite Hb3. simpl.
    simpl in Hd3, Hd2. rewrite Hd3, Hd2. unfold zlen. lia. }
  intros l' c' _ Hi5. apply wp_bind. eapply wp_grown; [exact Hi5|exact R|]. intros a' cap Hi6 Hcap.
  apply wp_bind, wp_malloc. intros a''. unfold wp, modify. apply appended; [by repeat split|by apply inv_set_ans|done|done].
Qed.
End Records.
End Control.
