(* ===== verification/ValidOpcode.v ===== *)
(** * Validation of one instruction

    Every case of [wah_validate_opcode] together: it is safe in every state of the
    invariant and keeps it. *)

From S2P Require Import Prelude Base Alloc Types Opcodes Bytes Leb128 Decode Subtype ModuleEnv Operands Validate ValidInv ValidRules ValidSafe ValidCtl.
From stdpp Require Import list sets.
#[local] Open Scope Z_scope.
#[local] Open Scope wah_scope.

(** ** Theorems *)

(** *** The tables *)

Lemma opcode_of_table : forallb (fun v => match zget wah_opclasses v with
  | Some c => opclass_eqb c WAH_OPCLASS_MISSING || match wah_opcode_of v with Some _ => true | None => false end
  | None => false end) (zrange 0 WAH_FE) = true.
Proof. vm_compute. reflexivity. Qed.

Lemma opcode_of_present v : 0 <= v < WAH_FE -> exists c, zget wah_opclasses v = Some c /\
  (opclass_eqb c WAH_OPCLASS_MISSING = false -> is_Some (wah_opcode_of v)).
Proof.
  intros Hv. pose proof opcode_of_table as H. rewrite forallb_forall in H.
  specialize (H v ltac:(apply list_elem_of_In, elem_of_zrange; lia)).
  destruct (zget wah_opclasses v) as [c|]; [|done]. exists c. split; [done|]. intros Hc. rewrite Hc in H.
  by destruct (wah_opcode_of v).
Qed.

Section Opcode.
Context (E : wah_validation_env) (EO : env_ok E) (B : list Z) (G : wah_type_stack_t).
Notation M := (v_module E).
Notation TM := (env_types M).
Notation INV := (inv E B G false).
Notation safe := (safe E B G).
Notation safe_opt := (safe_opt E B G).
Notation runnable := (runnable E).

Lemma opclass_ops_valid c pops push : opclass_ops c = Some (pops, push) ->
  Forall (type_valid TM) pops /\ type_valid TM push.
Proof. destruct c; intros [= <- <-]; split; repeat constructor; tv. Qed.

Lemma validate_class_safe op pops push : Forall (type_valid TM) pops -> type_valid TM push ->
  safe op (validate_class E op pops push).
Proof.
  intros Hp Hq s Hi R. unfold validate_class. apply wp_bind. eapply wp_pop_all; [exact EO|done|done|]. intros o Hi' _ _.
  repeat vstep EO R. vdone.
Qed.

Lemma load_op_valid op T k : load_op op = Some (T, k) -> type_valid TM T.
Proof. destruct op; intros [= <- <-]; tv. Qed.
Lemma store_op_valid op T k : store_op op = Some (T, k) -> type_valid TM T.
Proof. destruct op; intros [= <- <-]; tv. Qed.
Lemma extract_lane_op_valid op T k : extract_lane_op op = Some (T, k) -> type_valid TM T.
Proof. destruct op; intros [= <- <-]; tv. Qed.
Lemma replace_lane_op_valid op T k : replace_lane_op op = Some (T, k) -> type_valid TM T.
Proof. destruct op; intros [= <- <-]; tv. Qed.

(** An instruction that constant expressions do not have is in a function. *)
Lemma in_body op : runnable op -> const_expr_op op = None -> v_mode E = WAH_ANALYZE_FUNC_BODY.
Proof. apply body_mode. Qed.

Lemma validate_control_safe op : runnable op -> safe_opt op (validate_control E op).
Proof.
  intros Hr. destruct (validate_control E op) as [m|] eqn:Em; [|done].
  assert (FB : v_mode E = WAH_ANALYZE_FUNC_BODY) by (apply (in_body op); [done|by destruct op]).
  destruct op; try discriminate Em; injection Em as <-; first [by apply validate_block_safe | by apply validate_else_safe | by apply validate_end_safe
    | by apply validate_br_safe | by apply validate_br_table_safe | by apply validate_return_safe].
Qed.

Lemma validate_exception_safe op : runnable op -> safe_opt op (validate_exception E op).
Proof.
  intros Hr. destruct (validate_exception E op) as [m|] eqn:Em; [|done].
  assert (FB : v_mode E = WAH_ANALYZE_FUNC_BODY) by (apply (in_body op); [done|by destruct op]).
  rewrite <- Em. destruct op; try done; first [by apply validate_throw_safe | by apply validate_throw_ref_safe
    | by apply validate_try_table_safe].
Qed.

(** The cascade of cases. *)
Lemma safe_or o m k : safe_opt o m -> safe o k -> safe o (match m with Some m => m | None => k end).
Proof. by destruct m. Qed.
Lemma safe_shuffle op m k : safe op m -> safe op k -> safe op (match op with WAH_OP_I8X16_SHUFFLE => m | _ => k end).
Proof. by destruct op. Qed.

Lemma validate_special_safe op : runnable op -> safe op (validate_special E op).
Proof.
  intros Hr. unfold validate_special.
  assert (Hc : safe_opt op (validate_call E op)).
  { destruct (validate_call E op) as [m|] eqn:Em; [|done]. rewrite <- Em. apply validate_call_safe; [done|].
    apply (in_body op); [done|by destruct op]. }
  assert (Hb : safe_opt op (validate_ref_branch E op)).
  { destruct (validate_ref_branch E op) as [m|] eqn:Em; [|done]. rewrite <- Em. apply validate_ref_branch_safe; [done|].
    apply (in_body op); [done|by destruct op]. }
  pose proof (validate_memory_safe E EO B G op) as H1. pose proof (validate_variable_safe E EO B G op Hr) as H2.
  pose proof (validate_table_safe E EO B G op) as H3. pose proof (validate_const_safe E EO B G op) as H4.
  pose proof (validate_parametric_safe E EO B G op) as H5. pose proof (validate_control_safe op Hr) as H6.
  pose proof (validate_ref_safe E EO B G op) as H7. pose proof (validate_struct_safe E EO B G op) as H8.
  pose proof (validate_array_safe E EO B G op) as H9. pose proof (validate_array_seg_safe E EO B G op) as H10.
  pose proof (validate_exception_safe op Hr) as H11.
  destruct (load_op op) as [[T a]|] eqn:El; [by eapply validate_load_safe, load_op_valid|].
  destruct (store_op op) as [[T a]|] eqn:Es; [by eapply validate_store_safe, store_op_valid|].
  destruct (v128_lane_op op) as [[a il]|]; [by apply validate_v128_lane_safe|].
  destruct (extract_lane_op op) as [[T n]|] eqn:Ee; [by eapply validate_extract_lane_safe, extract_lane_op_valid|].
  destruct (replace_lane_op op) as [[T n]|] eqn:Er; [by eapply validate_replace_lane_safe, replace_lane_op_valid|].
  clear El Es Ee Er.
  apply safe_shuffle; [by apply validate_shuffle_safe|].
  repeat (apply safe_or; [assumption|]). by intros s _ _.
Qed.

Lemma wah_validate_opcode_wp v s : 0 <= v < WAH_FE -> INV s ->
  wp (wah_validate_opcode E v) (fun _ s' => INV s' /\ exists o, wah_opcode_of v = Some o /\ emitted o s s') s.
Proof.
  intros Hv Hi. unfold wah_validate_opcode. destruct (opcode_of_present v Hv) as (c & Hc & Hop).
  apply wp_bind. eapply wp_opt; [done|]. apply wp_bind, wp_ensure. intros Hm%negb_true_iff.
  destruct (Hop Hm) as [op Eop]. apply wp_bind. eapply wp_opt; [done|].
  assert (Hgo : forall d, runnable op -> INV (set_dec d s) -> wp (match opclass_ops c with
      | Some (pops, push) => validate_class E op pops push | None => validate_special E op end)
    (fun _ s' => INV s' /\ exists o, wah_opcode_of v = Some o /\ emitted o s s') (set_dec d s)).
  { intros d Hr Hi'. apply (wp_mono _ (fun _ s' => INV s' /\ emitted op (set_dec d s) s')); [|naive_solver]. pose proof (inv_room E B G false _ Hi').
    destruct (opclass_ops c) as [[pops push]|] eqn:Eo.
    - destruct (opclass_ops_valid _ _ _ Eo) as [H1 H2]. by apply validate_class_safe.
    - by apply validate_special_safe. }
  assert (Es : set_dec (s_dec s) s = s) by by destruct s.
  assert (Hgo' := Hgo (s_dec s)). rewrite Es in Hgo'.
  apply wp_bind. unfold check_const_expr_op. destruct (v_mode E) eqn:Em.
  - apply wp_ret, Hgo'; [|done]. intros H. by rewrite Em in H.
  - destruct (const_expr_op op) as [[]|] eqn:Ec; [|apply wp_ret|done].
    + eapply wp_features; [apply require_good|done|]. intros d Hi' _. apply Hgo; [by intros _; rewrite Ec|done].
    + apply Hgo'; [by intros _; rewrite Ec|done].
Qed.
End Opcode.
