(* ===== verification/Analyze.v ===== *)
(** * The analysis of code

    [wah_analyze_stream] and what it is used for: decoding and validating the
    instructions of a function body or a constant expression one after the other,
    recording the ref maps of poll points, and the code section around it (wah.h,
    [wah_opcode_is_call] to [wah_opcode_is_resumable_bulk], [wah_analyze_stream] to
    [wah_compile_const_expr], [wah_parse_code_section]). *)

From S2P Require Import Prelude Base Alloc Types Opcodes Bytes Leb128 Decode Subtype ModuleEnv Operands Validate.
From stdpp Require Import list sets.
#[local] Open Scope Z_scope.
#[local] Open Scope wah_scope.

(** ** Definitions *)

(** *** Ref maps

    A tree of slots: each poll point refers to its topmost reference slot, and a slot
    to the next one below, by index + 1. *)
Record wah_ref_node_t := RefNode { node_parent : Z; node_pos : Z }.
Definition sizeof_wah_ref_node_t : Z := 8.

(** The local arrays of the analysis: [None] is an element that has not been set. *)
Record capture := Capture {
  captured_types : list (option wah_type_t);
  captured_tops : list (option Z);
  captured_depth : Z;
  ref_nodes : list wah_ref_node_t;
  ref_nodes_cap : Z;
  poll_ref_tops : list Z;
  poll_ref_tops_cap : Z }.

Definition capture_init : capture :=
  Capture (replicate (Z.to_nat WAH_MAX_TYPE_STACK_SIZE) None)
    (Some 0 :: replicate (Z.to_nat WAH_MAX_TYPE_STACK_SIZE) None) 0 [] 0 [] 0.

Record astate := AState { a_v : vstate; a_cap : capture }.
Definition on_v {A} (m : comp vstate A) : comp astate A := fun s =>
  let '(r, v) := m (a_v s) in (r, AState v (a_cap s)).
Definition set_cap (c : capture) (s : astate) : astate := AState (a_v s) c.

(** [while (common < depth && common < captured_depth && ...) common++]: at most
    [depth] iterations. *)
Fixpoint common_prefix (fuel : nat) (types : list (option wah_type_t)) (data : list wah_type_t)
    (common depth cdepth : Z) : option Z :=
  match fuel with
  | O => None
  | S fuel' =>
      if (common <? depth) && (common <? cdepth) then
        t ← zget types common; t ← t; u ← zget data common;
        if t =? u then common_prefix fuel' types data (common + 1) depth cdepth else Some common
      else Some common
  end.

(** One slot: its type and the topmost reference slot up to it. *)
Definition capture_slot (j : Z) : comp astate unit :=
  s <- stm_get ;;
  let c := a_cap s in
  t <- stm_opt (zget (ts_data (type_stack (s_ops (a_v s)))) j) ;;
  types <- stm_opt (zset (captured_types c) j (Some t)) ;;
  top <- stm_opt (zget (captured_tops c) j ≫= id) ;;
  tops <- stm_opt (zset (captured_tops c) (j + 1) (Some top)) ;;
  if WAH_TYPE_IS_REF t then
    cap <- on_v (with_ans (wah_grow_array (u32 (zlen (ref_nodes c) + 1)) sizeof_wah_ref_node_t (ref_nodes_cap c))) ;;
    let nodes := ref_nodes c ++ [RefNode top j] in
    tops <- stm_opt (zset tops (j + 1) (Some (zlen nodes))) ;;
    modify (set_cap (Capture types tops (captured_depth c) nodes cap (poll_ref_tops c) (poll_ref_tops_cap c)))
  else
    modify (set_cap (Capture types tops (captured_depth c) (ref_nodes c) (ref_nodes_cap c)
                       (poll_ref_tops c) (poll_ref_tops_cap c))).

(** The loop over the slots, with [n] left from [j]. *)
Fixpoint capture_slots (n : nat) (j : Z) : comp astate unit :=
  match n with
  | O => stm_ret tt
  | S n' => capture_slot j ;;; capture_slots n' (j + 1)
  end.

Definition set_lwm (d : Z) (v : vstate) : vstate :=
  let o := s_ops v in let ts := type_stack o in
  set_ops (Operands (TypeStack (ts_data ts) (ts_sp ts) d) (current_stack_depth o) (max_stack_depth o)) v.

(** The topmost reference slot of the operand stack. *)
Definition capture_stack : comp astate Z :=
  s <- stm_get ;;
  let ts := type_stack (s_ops (a_v s)) in
  let depth := ts_sp ts in
  let common := if ts_lwm ts <? captured_depth (a_cap s) then ts_lwm ts else captured_depth (a_cap s) in
  common <- stm_opt (common_prefix (S (Z.to_nat depth)) (captured_types (a_cap s)) (ts_data ts) common depth
                       (captured_depth (a_cap s))) ;;
  capture_slots (Z.to_nat (depth - common)) common ;;;
  s <- stm_get ;;
  let c := a_cap s in
  stm_put (AState (set_lwm depth (a_v s))
             (Capture (captured_types c) (captured_tops c) depth (ref_nodes c) (ref_nodes_cap c)
                (poll_ref_tops c) (poll_ref_tops_cap c))) ;;;
  stm_opt (zget (captured_tops c) depth ≫= id).

(** [WAH_CAPTURE_REF_MAP]. *)
Definition WAH_CAPTURE_REF_MAP : comp astate unit :=
  s <- stm_get ;;
  top <- (if is_unreachable (s_ctl (a_v s)) then stm_ret 0 else capture_stack) ;;
  s <- stm_get ;;
  let c := a_cap s in
  cap <- on_v (with_ans (wah_grow_array (u32 (zlen (poll_ref_tops c) + 1)) 4 (poll_ref_tops_cap c))) ;;
  modify (set_cap (Capture (captured_types c) (captured_tops c) (captured_depth c) (ref_nodes c) (ref_nodes_cap c)
                     (poll_ref_tops c ++ [top]) cap)).

(** [poll_count - 1], the ref map captured last. *)
Definition last_map (s : astate) : Z := u32 (zlen (poll_ref_tops (a_cap s)) - 1).

(** The slots of a ref map, topmost first, as the garbage collector walks them for the
    roots of a frame: [n] is an index + 1, and a parent is below its child. *)
Fixpoint map_slots (fuel : nat) (nodes : list wah_ref_node_t) (n : Z) : option (list Z) :=
  if n =? 0 then Some []
  else match fuel with
       | O => None
       | S fuel' =>
           node ← zget nodes (n - 1);
           rest ← map_slots fuel' nodes (node_parent node);
           Some (node_pos node :: rest)
       end.

(** [wah_check_ref_map], the check of a ref map against the stack [stk]: the loop over
    the map decreases [n].  [poll_count] and [ref_node_count] are the lengths of the
    arrays. *)
Fixpoint check_map_loop (fuel : nat) (nodes : list wah_ref_node_t) (stk : list wah_type_t) (n below listed : Z)
  : option Z :=
  if n =? 0 then Some listed
  else match fuel with
       | O => None
       | S fuel' =>
           if zlen nodes <? n then None
           else
             node ← zget nodes (n - 1);
             if (n <=? node_parent node) || (below <=? node_pos node) then None
             else
               t ← zget stk (node_pos node);
               if negb (WAH_TYPE_IS_REF t) then None
               else check_map_loop fuel' nodes stk (node_parent node) (node_pos node) (u32 (listed + 1))
       end.
Definition count_refs (stk : list wah_type_t) : Z := zlen (filter (fun t => WAH_TYPE_IS_REF t = true) stk).
Definition wah_check_ref_map (tops : list Z) (nodes : list wah_ref_node_t) (idx : Z) (stk : list wah_type_t) : bool :=
  let top := if idx <? zlen tops then default 0 (zget tops idx) else 0 in
  match check_map_loop (S (Z.to_nat top)) nodes stk top (zlen stk) 0 with
  | Some listed => listed =? u32 (count_refs stk)
  | None => false
  end.

(** *** Opcodes with a ref map of their own *)

Definition wah_opcode_is_call (opcode : Z) : bool :=
  match wah_opcode_of opcode with
  | Some (WAH_OP_CALL | WAH_OP_CALL_INDIRECT | WAH_OP_CALL_REF
         | WAH_OP_RETURN_CALL | WAH_OP_RETURN_CALL_INDIRECT | WAH_OP_RETURN_CALL_REF) => true
  | _ => false
  end.

Definition wah_opcode_is_resumable_bulk (opcode : Z) : bool :=
  match wah_opcode_of opcode with
  | Some (WAH_OP_MEMORY_FILL | WAH_OP_MEMORY_COPY | WAH_OP_MEMORY_INIT
         | WAH_OP_TABLE_FILL | WAH_OP_TABLE_COPY | WAH_OP_TABLE_INIT
         | WAH_OP_ARRAY_FILL | WAH_OP_ARRAY_COPY | WAH_OP_ARRAY_INIT_DATA | WAH_OP_ARRAY_INIT_ELEM) => true
  | _ => false
  end.

(** *** The loop *)

(** [wah_analyzed_code_t]: the instructions are those of the state. *)
Record wah_analyzed_code_t := AnalyzedCode {
  ac_mode : wah_analyze_mode_t;
  ac_instrs : list wah_decoded_instr_t;
  ac_poll_ref_tops : list Z;
  ac_ref_nodes : list wah_ref_node_t;
  ac_max_stack_depth : Z }.

(** [is_first_instr], [poll_flags] and [poll_map]. *)
Record poll_vars := PollVars { is_first_instr : bool; poll_flags : bool; poll_map : Z }.

(** [ac->instrs[i]] is changed by [f]. *)
Definition update_instr (i : Z) (f : wah_decoded_instr_t -> wah_decoded_instr_t) : comp vstate unit :=
  s <- stm_get ;;
  di <- stm_opt (zget (instrs (s_code s)) i) ;;
  l <- stm_opt (zset (instrs (s_code s)) i (f di)) ;;
  stm_put (set_code (Instrs l (instrs_cap (s_code s))) s).
Definition set_ref_map (m : Z) (di : wah_decoded_instr_t) : wah_decoded_instr_t :=
  DecodedInstr (di_opcode di) (di_flags di) m (di_imm di).
Definition set_poll (di : wah_decoded_instr_t) : wah_decoded_instr_t :=
  DecodedInstr (di_opcode di) (Z.lor (di_flags di) WAH_INSTR_FLAG_POLL) (di_ref_map di) (di_imm di).
Definition is_poll (di : wah_decoded_instr_t) : bool := negb (Z.land (di_flags di) WAH_INSTR_FLAG_POLL =? 0).

Section Analysis.
Context (E : wah_validation_env) (expected_type : wah_type_t).
Notation M := (v_module E).

Definition is_func_body : bool := match v_code_body E with Some _ => true | None => false end.
Definition capture_all : bool := is_func_body && fuel_metering M.
Definition is_op (opcode_val : Z) (o : wah_op) : bool := opcode_val =? wah_op_value o.

(** The ref map of the next instruction, if a new one is needed: the new variables and
    [cur_map]. *)
Definition poll_before (opcode_val : Z) (p : poll_vars) : comp astate (poll_vars * Z) :=
  let cur_map := if poll_flags p then poll_map p else UINT32_MAX in
  if negb is_func_body then stm_ret (p, cur_map)
  else if is_first_instr p || (negb (poll_flags p) && wah_opcode_is_call opcode_val) then
    WAH_CAPTURE_REF_MAP ;;;
    s <- stm_get ;;
    stm_ret (PollVars false true (last_map s), last_map s)
  else if capture_all || wah_opcode_is_resumable_bulk opcode_val then
    WAH_CAPTURE_REF_MAP ;;;
    s <- stm_get ;;
    stm_ret (p, last_map s)
  else stm_ret (p, cur_map).

(** The end of the code: [Some] tells that the analysis is done. *)
Definition analyze_end (opcode_val cur_map : Z) : comp vstate bool :=
  if negb (is_op opcode_val WAH_OP_END) then stm_ret false
  else if is_func_body then
    s <- stm_get ;;
    if control_sp (s_ctl s) =? 0 then
      ft <- the_func_type E ;;
      pop_types E (result_types ft) ;;;
      s <- stm_get ;;
      stm_ensure (current_stack_depth (s_ops s) =? 0) WAH_ERROR_VALIDATION_FAILED ;;;
      stm_ensure (match cursor (s_dec s) with [] => true | _ => false end) WAH_ERROR_VALIDATION_FAILED ;;;
      wah_analyzed_append_end ;;;
      s <- stm_get ;;
      update_instr (u32 (zlen (instrs (s_code s)) - 1)) (set_ref_map cur_map) ;;;
      stm_ret true
    else stm_ret false
  else
    s <- stm_get ;;
    stm_ensure (current_stack_depth (s_ops s) =? 1) WAH_ERROR_VALIDATION_FAILED ;;;
    actual <- stm_opt (zget (ts_data (type_stack (s_ops s))) 0) ;;
    b <- (if actual =? WAH_TYPE_BOT then stm_ret true else is_subtype E actual expected_type) ;;
    stm_ensure b WAH_ERROR_VALIDATION_FAILED ;;;
    wah_analyzed_append_end ;;;
    stm_ret true.

(** After an instruction of a function: its ref map and flags, and the poll point of a
    loop.  The assertion is a fault here. *)
Definition poll_after (opcode_val before cur_map : Z) (p : poll_vars) : comp astate poll_vars :=
  if negb is_func_body then stm_ret p
  else
    s <- stm_get ;;
    let count := zlen (instrs (s_code (a_v s))) in
    (if u32 (count - before) <=? 1 then stm_ret tt else fun s => (Fault, s)) ;;;
    (if before <? count then
       on_v (update_instr before (set_ref_map cur_map)) ;;;
       (if poll_flags p then on_v (update_instr before set_poll) else stm_ret tt)
     else stm_ret tt) ;;;
    let p' := if before <? count then PollVars (is_first_instr p) false (poll_map p) else p in
    (if is_op opcode_val WAH_OP_LOOP && (0 <? count) then
       s <- stm_get ;;
       di <- stm_opt (zget (instrs (s_code (a_v s))) (count - 1)) ;;
       if negb (is_poll di) then
         WAH_CAPTURE_REF_MAP ;;;
         s <- stm_get ;;
         on_v (update_instr (count - 1) set_poll) ;;;
         on_v (update_instr (count - 1) (set_ref_map (last_map s)))
       else stm_ret tt
     else stm_ret tt) ;;;
    stm_ret p'.

(** The next opcode, whose feature must be enabled. *)
Definition next_opcode : comp astate Z :=
  opcode_val <- on_v (with_cur wah_decode_opcode) ;;
  feature <- stm_opt (zget wah_opcode_features opcode_val) ;;
  on_v (with_dec (on_features (wah_require_feature feature))) ;;;
  stm_ret opcode_val.

(** One iteration of the loop: [None] when the analysis is done. *)
Definition analyze_step (p : poll_vars) : comp astate (option poll_vars) :=
  opcode_val <- next_opcode ;;
  ' (p, cur_map) <- poll_before opcode_val p ;;
  ended <- on_v (analyze_end opcode_val cur_map) ;;
  if (ended : bool) then stm_ret None
  else
    s <- stm_get ;;
    let before := zlen (instrs (s_code (a_v s))) in
    on_v (wah_validate_opcode E opcode_val) ;;;
    p <- poll_after opcode_val before cur_map p ;;
    stm_ret (Some p).

(** [while ( *code_ptr < code_end)]: an opcode takes at least one byte, so that one
    more iteration than there are bytes is enough. *)
Fixpoint analyze_loop (fuel : nat) (p : poll_vars) : comp astate unit :=
  match fuel with
  | O => fun s => (Fault, s)
  | S fuel' =>
      s <- stm_get ;;
      match cursor (s_dec (a_v s)) with
      | [] => stm_err (if is_func_body then WAH_ERROR_MALFORMED else WAH_ERROR_UNEXPECTED_EOF)
      | _ :: _ =>
          r <- analyze_step p ;;
          match r with None => stm_ret tt | Some p => analyze_loop fuel' p end
      end
  end.

(** At [done] and at [cleanup]: after an error the control stack is empty. *)
Definition wah_analyze_stream : comp astate wah_analyzed_code_t := fun s0 =>
  let body :=
    analyze_loop (S (length (cursor (s_dec (a_v s0))))) (PollVars true false UINT32_MAX) ;;;
    s <- stm_get ;;
    stm_ensure (negb is_func_body || (control_sp (s_ctl (a_v s)) =? 0)) WAH_ERROR_VALIDATION_FAILED ;;;
    stm_ret (AnalyzedCode (v_mode E) (instrs (s_code (a_v s)))
               (if is_func_body then poll_ref_tops (a_cap s) else [])
               (if is_func_body then ref_nodes (a_cap s) else [])
               (max_stack_depth (s_ops (a_v s)))) in
  match body s0 with
  | (Err e, s) => (Err e, AState (set_control_sp 0 (a_v s)) (a_cap s))
  | r => r
  end.
End Analysis.
