(* ===== verification/RefMaps.v ===== *)
(** * Ref maps

    A ref map is a path in the tree of slots; [WAH_CAPTURE_REF_MAP] extends the tree by
    the slots that have changed since the last capture, and gives the path that lists
    exactly the references of the operand stack. *)

From S2P Require Import Prelude Base Alloc Types Opcodes Bytes Leb128 Decode Subtype ModuleEnv Operands Validate ValidInv ValidRules Analyze.
From stdpp Require Import list sets.
#[local] Open Scope Z_scope.
#[local] Open Scope wah_scope.

(** ** Definitions *)

(** The positions of the references of a stack, topmost first. *)
Fixpoint ref_slots_from (i : Z) (ts : list wah_type_t) : list Z :=
  match ts with
  | [] => []
  | t :: ts' => ref_slots_from (i + 1) ts' ++ (if WAH_TYPE_IS_REF t then [i] else [])
  end.
Definition ref_slots (ts : list wah_type_t) : list Z := ref_slots_from 0 ts.

(** The path from [n] lists the positions [ps]. *)
Fixpoint path (nodes : list wah_ref_node_t) (n : Z) (ps : list Z) : Prop :=
  match ps with
  | [] => n = 0
  | p :: ps' => exists parent, zget nodes (n - 1) = Some (RefNode parent p) /\ 0 <= parent < n /\
      path nodes parent ps'
  end.

(** The operands that can be live: none in unreachable code. *)
Definition live_types (v : vstate) : list wah_type_t :=
  if is_unreachable (s_ctl v) then []
  else take (Z.to_nat (ts_sp (type_stack (s_ops v)))) (ts_data (type_stack (s_ops v))).

(** The first [d] slots of the capture are those of [data]. *)
Record captured (data : list wah_type_t) (d : Z) (c : capture) : Prop := {
  cp_types_length : zlen (captured_types c) = WAH_MAX_TYPE_STACK_SIZE;
  cp_tops_length : zlen (captured_tops c) = WAH_MAX_TYPE_STACK_SIZE + 1;
  cp_depth : 0 <= d <= WAH_MAX_TYPE_STACK_SIZE;
  cp_types : forall j, 0 <= j < d -> exists t, zget (captured_types c) j = Some (Some t) /\ zget data j = Some t;
  cp_tops : forall j, 0 <= j <= d -> exists top, zget (captured_tops c) j = Some (Some top) /\
    path (ref_nodes c) top (ref_slots (take (Z.to_nat j) data));
  cp_nodes : zlen (ref_nodes c) <= ref_nodes_cap c /\ cap_ok (ref_nodes_cap c) }.

(** The capture is that of the stack [G]. *)
Record capture_ok (G : wah_type_stack_t) (c : capture) : Prop := {
  ca_depth : captured_depth c = ts_lwm G;
  ca_slots : captured (ts_data G) (ts_lwm G) c;
  ca_polls : zlen (poll_ref_tops c) <= poll_ref_tops_cap c /\ cap_ok (poll_ref_tops_cap c) }.

(** Slots and maps are only added. *)
Definition extends (c c' : capture) : Prop :=
  ref_nodes c `prefix_of` ref_nodes c' /\ poll_ref_tops c `prefix_of` poll_ref_tops c'.

(** Map [m] lists the references of [ts]. *)
Definition maps_to (nodes : list wah_ref_node_t) (tops : list Z) (m : Z) (ts : list wah_type_t) : Prop :=
  exists top, zget tops m = Some top /\ path nodes top (ref_slots ts).

(** ** Theorems *)

Lemma ref_slots_from_app i ts us :
  ref_slots_from i (ts ++ us) = ref_slots_from (i + zlen ts) us ++ ref_slots_from i ts.
Proof.
  revert i. induction ts as [|t ts IH]; intros i; simpl.
  { rewrite app_nil_r. f_equal. unfold zlen. simpl. lia. }
  rewrite IH, <- app_assoc. do 2 f_equal. unfold zlen. simpl. lia.
Qed.

Lemma ref_slots_snoc ts t : ref_slots (ts ++ [t]) = (if WAH_TYPE_IS_REF t then [zlen ts] else []) ++ ref_slots ts.
Proof. unfold ref_slots. rewrite ref_slots_from_app. simpl. by rewrite Z.add_0_l. Qed.

Lemma zget_prefix_of {A} (l l' : list A) i x : l `prefix_of` l' -> zget l i = Some x -> zget l' i = Some x.
Proof.
  intros Hp H. destruct (zget_Some _ _ _ H) as [H0 H1]. rewrite zget_nat by lia. by eapply prefix_lookup_Some.
Qed.

Lemma path_mono nodes nodes' n ps : nodes `prefix_of` nodes' -> path nodes n ps -> path nodes' n ps.
Proof.
  intros Hp. revert n. induction ps as [|p ps IH]; intros n; simpl; [done|].
  intros (q & H1 & H2 & H3). exists q. split; [by eapply zget_prefix_of|]. by split; [|apply IH].
Qed.

Lemma path_range nodes n ps : path nodes n ps -> 0 <= n <= zlen nodes.
Proof.
  destruct ps as [|p ps]; simpl; [unfold zlen; lia|]. intros (q & H1 & H2 & _). apply zget_Some in H1 as [H0 H1].
  apply lookup_lt_Some in H1. unfold zlen. lia.
Qed.

(** Walking a path gives its positions. *)
Lemma path_map_slots nodes n ps fuel : path nodes n ps -> (Z.to_nat n <= fuel)%nat -> map_slots fuel nodes n = Some ps.
Proof.
  revert n fuel. induction ps as [|p ps IH]; intros n fuel; simpl.
  { intros -> _. by destruct fuel. }
  intros (q & H1 & H2 & H3) Hf. destruct fuel as [|fuel]; [lia|]. simpl.
  destruct (Z.eqb_spec n 0); [lia|]. rewrite H1. simpl. rewrite (IH q) by (done || lia). done.
Qed.

Lemma extends_refl c : extends c c.
Proof. done. Qed.
Lemma extends_trans c c' c'' : extends c c' -> extends c' c'' -> extends c c''.
Proof. intros [] []. split; by etrans. Qed.

Lemma maps_to_mono c c' m ts : extends c c' -> maps_to (ref_nodes c) (poll_ref_tops c) m ts ->
  maps_to (ref_nodes c') (poll_ref_tops c') m ts.
Proof.
  intros [H1 H2] (top & Ht & Hp). exists top. split; [by eapply zget_prefix_of|by eapply path_mono].
Qed.

(** *** The check of a map *)

Lemma ref_slots_range ts : Forall (fun p => 0 <= p < zlen ts) (ref_slots ts).
Proof.
  induction ts as [|t ts IH] using rev_ind; [constructor|]. rewrite ref_slots_snoc. unfold zlen in *.
  rewrite length_app. simpl. apply Forall_app. split.
  - case_match; [|constructor]. constructor; [lia|constructor].
  - eapply Forall_impl; [exact IH|]. simpl. lia.
Qed.

Lemma count_refs_snoc ts t : count_refs (ts ++ [t]) = count_refs ts + (if WAH_TYPE_IS_REF t then 1 else 0).
Proof.
  unfold count_refs, zlen. rewrite filter_app, length_app, filter_cons, filter_nil.
  destruct (WAH_TYPE_IS_REF t) eqn:E; [rewrite decide_True by done|rewrite decide_False by congruence]; simpl; lia.
Qed.

Lemma count_refs_range ts : 0 <= count_refs ts <= zlen ts.
Proof. unfold count_refs, zlen. split; [lia|]. apply Nat2Z.inj_le, length_filter. Qed.

(** The loop of the check over a path that lists the references of [ts], whatever is
    above them. *)
Lemma check_map_loop_ok nodes ts us n below listed fuel : path nodes n (ref_slots ts) ->
  zlen ts <= below -> 0 <= listed -> listed + zlen ts < 2 ^ 32 -> (Z.to_nat n < fuel)%nat ->
  check_map_loop fuel nodes (ts ++ us) n below listed = Some (listed + count_refs ts).
Proof.
  revert us n below listed fuel.
  induction ts as [|t ts IH] using rev_ind; intros us n below listed fuel Hp Hb Hl Hs Hf.
  { simpl in Hp. subst n. destruct fuel; [lia|]. unfold count_refs. simpl. by rewrite Z.add_0_r. }
  rewrite count_refs_snoc. rewrite ref_slots_snoc in Hp. rewrite <- app_assoc. simpl.
  assert (Hlen : zlen (ts ++ [t]) = zlen ts + 1) by (unfold zlen; rewrite length_app; simpl; lia).
  destruct (WAH_TYPE_IS_REF t) eqn:Ht; simpl in Hp.
  2:{ rewrite Z.add_0_r. apply IH; (done || lia). }
  destruct Hp as (q & H1 & H2 & H3). destruct fuel as [|fuel]; [lia|]. destruct (zget_Some _ _ _ H1) as [H0 _].
  cbn [check_map_loop]. destruct (Z.eqb_spec n 0); [lia|]. destruct (Z.ltb_spec (zlen nodes) n); [lia|].
  rewrite H1. cbn [mbind option_bind node_parent node_pos].
  destruct (Z.leb_spec n q); [lia|]. destruct (Z.leb_spec below (zlen ts)); [lia|]. simpl.
  assert (Hg : zget (ts ++ t :: us) (zlen ts) = Some t).
  { unfold zlen. rewrite zget_of_nat. by apply list_lookup_middle. }
  rewrite Hg. simpl. rewrite Ht. simpl. rewrite u32_small by (unfold zlen in *; lia).
  rewrite (IH (t :: us) q (zlen ts)); [f_equal; lia|done|lia|lia|lia|lia].
Qed.

Lemma wah_check_ref_map_ok nodes tops m ts : maps_to nodes tops m ts -> zlen ts < 2 ^ 32 ->
  wah_check_ref_map tops nodes m ts = true.
Proof.
  intros (top & Ht & Hp) Hl. unfold wah_check_ref_map. destruct (zget_Some _ _ _ Ht) as [Hr _].
  destruct (Z.ltb_spec m (zlen tops)); [|lia]. rewrite Ht. cbv zeta. change (default 0 (Some top)) with top.
  pose proof (check_map_loop_ok nodes ts [] top (zlen ts) 0 (S (Z.to_nat top)) Hp ltac:(lia) ltac:(lia) ltac:(lia) ltac:(lia)) as H1.
  rewrite app_nil_r in H1. rewrite H1. pose proof (count_refs_range ts). rewrite u32_small by lia. apply Z.eqb_refl.
Qed.

(** *** The capture *)

Lemma captured_change data data' d d' c : captured data d c -> 0 <= d' <= d ->
  (forall j, 0 <= j < d' -> zget data' j = zget data j) -> captured data' d' c.
Proof.
  intros [H1 H2 H3 H4 H5 H6] Hd Hz. split; try done; [lia| |].
  - intros j Hj. destruct (H4 j) as (t & Ha & Hb); [lia|]. exists t. by rewrite Hz.
  - intros j Hj. destruct (H5 j) as (top & Ha & Hb); [lia|]. exists top. split; [done|].
    replace (take (Z.to_nat j) data') with (take (Z.to_nat j) data); [done|].
    apply list_eq. intros i. destruct (decide (i < Z.to_nat j)%nat).
    + rewrite !lookup_take_lt by done. specialize (Hz (Z.of_nat i) ltac:(lia)). by rewrite !zget_of_nat in Hz.
    + by rewrite !lookup_take_ge by lia.
Qed.

Lemma common_prefix_ok data G d depth c common fuel : captured G d c -> depth <= zlen data ->
  0 <= common <= d -> common <= depth -> (forall j, 0 <= j < common -> zget data j = zget G j) ->
  (Z.to_nat (depth - common) < fuel)%nat ->
  exists k, common_prefix fuel (captured_types c) data common depth d = Some k /\
    0 <= k <= depth /\ captured data k c.
Proof.
  intros Hc Hl. revert common. induction fuel as [|fuel IH]; intros common Hcd Hdepth Hz Hf; [lia|]. simpl.
  assert (Hdone : captured data common c) by (eapply captured_change; done).
  destruct (Z.ltb_spec common depth) as [H1|H1]; simpl; [|by exists common; split_and!; (done || lia)].
  destruct (Z.ltb_spec common d) as [H2|H2]; [|by exists common; split_and!; (done || lia)].
  destruct (cp_types _ _ _ Hc common) as (t & Ht & Hg); [lia|]. rewrite Ht. simpl.
  destruct (zget_is_Some data common) as [u Hu]; [lia|]. rewrite Hu. simpl.
  destruct (Z.eqb_spec t u) as [->|Hne]; [|by exists common; split_and!; (done || lia)].
  apply IH; [lia|lia| |lia]. intros j Hj. destruct (decide (j = common)) as [->|]; [by rewrite Hu, Hg|apply Hz; lia].
Qed.

Lemma captured_extends data d c c' : captured data d c -> extends c c' -> captured_types c' = captured_types c ->
  captured_tops c' = captured_tops c -> zlen (ref_nodes c') <= ref_nodes_cap c' /\ cap_ok (ref_nodes_cap c') ->
  captured data d c'.
Proof.
  intros [H1 H2 H3 H4 H5 H6] [Hn _] Ht Hp Hc. split; try done; rewrite ?Ht, ?Hp; try done.
  intros j Hj. destruct (H5 j Hj) as (top & Ha & Hb). exists top. split; [done|]. by eapply path_mono.
Qed.

Lemma set_ans_same v : set_ans (s_ans v) v = v.
Proof. by destruct v. Qed.

(** The capture after slot [j] has been recorded with its type and topmost reference
    slot. *)
Lemma captured_next data j t c c' top' : captured data j c -> zget data j = Some t -> j < WAH_MAX_TYPE_STACK_SIZE ->
  zset (captured_types c) j (Some t) = Some (captured_types c') ->
  zlen (captured_tops c') = zlen (captured_tops c) ->
  (forall i, zget (captured_tops c') i = if i =? j + 1 then Some (Some top') else zget (captured_tops c) i) ->
  ref_nodes c `prefix_of` ref_nodes c' -> path (ref_nodes c') top' (ref_slots (take (Z.to_nat (j + 1)) data)) ->
  zlen (ref_nodes c') <= ref_nodes_cap c' /\ cap_ok (ref_nodes_cap c') -> captured data (j + 1) c'.
Proof.
  intros [H1 H2 H3 H4 H5 [H6 H7]] Ht Hm Hty E3 E4 Hpre Hp Hcap. split; try done; [|lia|lia| |].
  - by rewrite (zset_length _ _ _ _ Hty).
  - intros i Hi. rewrite (zset_lookup _ _ _ _ _ Hty). destruct (Z.eqb_spec i j) as [->|]; [by exists t|]. apply H4. lia.
  - intros i Hi. rewrite E4. destruct (Z.eqb_spec i (j + 1)) as [->|]; [by exists top'|].
    destruct (H5 i) as (u & Hu & Hpu); [lia|]. exists u. split; [done|]. by eapply path_mono.
Qed.

Lemma take_next {A} (l : list A) j t : zget l j = Some t -> take (Z.to_nat (j + 1)) l = take (Z.to_nat j) l ++ [t].
Proof.
  intros H. destruct (zget_Some _ _ _ H) as [H0 H1]. replace (Z.to_nat (j + 1)) with (S (Z.to_nat j)) by lia.
  by apply take_S_r.
Qed.

(** The state of the allocator is all that the capture changes in the validation. *)
Lemma wp_capture_slot data j Q v c : ts_data (type_stack (s_ops v)) = data ->
  captured data j c -> j < zlen data -> j < WAH_MAX_TYPE_STACK_SIZE ->
  (forall a c', captured data (j + 1) c' -> extends c c' -> captured_depth c' = captured_depth c ->
     poll_ref_tops c' = poll_ref_tops c -> poll_ref_tops_cap c' = poll_ref_tops_cap c ->
     Q tt (AState (set_ans a v) c')) ->
  wp (capture_slot j) Q (AState v c).
Proof.
  intros Hd Hc Hl Hm HQ. pose proof Hc as [H1 H2 H3 H4 H5 [H6 H7]]. unfold capture_slot. apply wp_bind, wp_get. cbv zeta.
  simpl. destruct (zget_is_Some data j) as [t Ht]; [lia|]. apply wp_bind. eapply wp_opt; [by rewrite Hd|].
  destruct (zset_is_Some (captured_types c) j (Some t)) as [types Hty]; [lia|]. apply wp_bind. eapply wp_opt; [done|].
  destruct (H5 j) as (top & Htop & Hpath); [lia|]. apply wp_bind. eapply wp_opt; [by rewrite Htop|].
  destruct (zset_is_Some (captured_tops c) (j + 1) (Some top)) as [tops Hto]; [lia|]. apply wp_bind. eapply wp_opt; [done|].
  pose proof (take_next _ _ _ Ht) as Htake.
  assert (Hlen : zlen (take (Z.to_nat j) data) = j) by (unfold zlen in *; rewrite length_take; lia).
  apply wp_if; intros Hr.
  - apply wp_bind. unfold on_v, with_ans, wp at 1. simpl. pose proof (cap_ok_range _ H7). assert (0 <= zlen (ref_nodes c)) by (unfold zlen; lia).
    rewrite (u32_small (zlen (ref_nodes c) + 1)) by lia.
    pose proof (wah_grow_array_cap (zlen (ref_nodes c) + 1) sizeof_wah_ref_node_t _ (s_ans v) H7 ltac:(lia)) as Hg.
    destruct (wah_grow_array _ _ _ (s_ans v)) as [[cap'|e|] a']; [|done|done]. destruct Hg as (Hg1 & Hg2 & Hg3). cbv zeta.
    set (nodes := ref_nodes c ++ [RefNode top j]).
    assert (Hn : zlen nodes = zlen (ref_nodes c) + 1) by (unfold nodes, zlen; rewrite length_app; simpl; lia).
    destruct (zset_is_Some tops (j + 1) (Some (zlen nodes))) as [tops' Hto']; [rewrite (zset_length _ _ _ _ Hto); lia|].
    apply wp_bind. eapply wp_opt; [done|]. unfold wp, modify, set_cap. simpl. apply HQ; try done.
    + eapply (captured_next data j t c _ (zlen nodes)); simpl; try done.
      * by rewrite (zset_length _ _ _ _ Hto'), (zset_length _ _ _ _ Hto).
      * intros i. rewrite (zset_lookup _ _ _ _ _ Hto'), (zset_lookup _ _ _ _ _ Hto). by destruct (i =? j + 1).
      * by eexists.
      * rewrite Htake, ref_slots_snoc, Hr, Hlen. simpl. exists top. split_and!.
        -- rewrite Hn. replace (zlen (ref_nodes c) + 1 - 1) with (zlen (ref_nodes c)) by lia. unfold zlen, nodes.
           rewrite zget_of_nat. by apply list_lookup_middle.
        -- apply path_range in Hpath. lia.
        -- apply path_range in Hpath. lia.
        -- eapply path_mono; [|exact Hpath]. by eexists.
      * split; [lia|done].
    + split; [by eexists|done].
  - unfold wp, modify, set_cap. simpl. rewrite <- (set_ans_same v). apply HQ; try done.
    + eapply (captured_next data j t c _ top); simpl; try done.
      * by rewrite (zset_length _ _ _ _ Hto).
      * intros i. by rewrite (zset_lookup _ _ _ _ _ Hto).
      * rewrite Htake, ref_slots_snoc, Hr. done.
Qed.

Lemma wp_capture_slots n data j Q v c : ts_data (type_stack (s_ops v)) = data ->
  captured data j c -> j + Z.of_nat n <= zlen data -> j + Z.of_nat n <= WAH_MAX_TYPE_STACK_SIZE ->
  (forall a c', captured data (j + Z.of_nat n) c' -> extends c c' -> captured_depth c' = captured_depth c ->
     poll_ref_tops c' = poll_ref_tops c -> poll_ref_tops_cap c' = poll_ref_tops_cap c ->
     Q tt (AState (set_ans a v) c')) ->
  wp (capture_slots n j) Q (AState v c).
Proof.
  revert j v c Q. induction n as [|n IH]; intros j v c Q Hd Hc Hl Hm HQ; cbn [capture_slots].
  { rewrite <- (set_ans_same v). apply wp_ret, HQ; try done. by rewrite Z.add_0_r. }
  apply wp_bind. eapply wp_capture_slot; [exact Hd|exact Hc|lia|lia|]. intros a c' Hc' He Ed Ep Ec.
  eapply IH; [exact Hd|exact Hc'|lia|lia|]. intros a' c'' Hc'' He' Ed' Ep' Ec'. apply (HQ a' c'').
  - by replace (j + Z.of_nat (S n)) with (j + 1 + Z.of_nat n) by lia.
  - by eapply extends_trans.
  - congruence.
  - congruence.
  - congruence.
Qed.

Section Capture.
Context (E : wah_validation_env) (B : list Z).
Notation M := (v_module E).
Notation INV G := (inv E B G false).

Lemma inv_set_lwm G v : INV G v -> let ts := type_stack (s_ops v) in
  INV (TypeStack (ts_data ts) (ts_sp ts) (ts_sp ts)) (set_lwm (ts_sp ts) v).
Proof.
  intros [H1 [[S1 S2 S3 S4 S5] O2 O3 O4] H3 H4 H5 H6 H7]. split; try done. split; try done.
  split; simpl; try done; lia.
Qed.

Lemma wp_capture_stack G v c Q : INV G v -> capture_ok G c ->
  (forall a c' top, let ts := type_stack (s_ops v) in
     INV (TypeStack (ts_data ts) (ts_sp ts) (ts_sp ts)) (set_ans a (set_lwm (ts_sp ts) v)) ->
     capture_ok (TypeStack (ts_data ts) (ts_sp ts) (ts_sp ts)) c' -> extends c c' ->
     path (ref_nodes c') top (ref_slots (take (Z.to_nat (ts_sp ts)) (ts_data ts))) ->
     Q top (AState (set_ans a (set_lwm (ts_sp ts) v)) c')) ->
  wp capture_stack Q (AState v c).
Proof.
  intros Hi [C1 C2 C3] HQ. pose proof (inv_set_lwm G v Hi) as Hi'. pose proof (i_ops _ _ _ _ _ Hi) as [[S1 S2 S3 S4 [S5 S6]] _ _ _].
  unfold capture_stack. apply wp_bind, wp_get. cbv zeta. simpl. rewrite C1.
  set (ts := type_stack (s_ops v)) in *. pose proof (cp_depth _ _ _ C2) as Hd.
  replace (if ts_lwm ts <? ts_lwm G then ts_lwm ts else ts_lwm G) with (ts_lwm ts) by (case_match eqn:H; lia).
  destruct (common_prefix_ok (ts_data ts) (ts_data G) (ts_lwm G) (ts_sp ts) c (ts_lwm ts) (S (Z.to_nat (ts_sp ts))) C2)
    as (k & Hk & Hk' & Hck); [lia|lia|lia|done|lia|].
  apply wp_bind. eapply wp_opt; [exact Hk|]. apply wp_bind.
  eapply (wp_capture_slots _ (ts_data ts)); [done|exact Hck|lia|lia|]. intros a c' Hc' He _ Ep Epc.
  replace (k + Z.of_nat (Z.to_nat (ts_sp ts - k))) with (ts_sp ts) in Hc' by lia.
  apply wp_bind, wp_get, wp_bind, wp_put. simpl.
  destruct (cp_tops _ _ _ Hc' (ts_sp ts)) as (top & Htop & Hpath); [lia|]. eapply wp_opt; [by rewrite Htop|].
  apply (HQ a (Capture (captured_types c') (captured_tops c') (ts_sp ts) (ref_nodes c') (ref_nodes_cap c')
    (poll_ref_tops c') (poll_ref_tops_cap c')) top).
  - by apply inv_set_ans.
  - split; [done| |simpl; by rewrite Ep, Epc]. by destruct Hc'; split.
  - done.
  - done.
Qed.

Lemma set_lwm_same v : set_lwm (ts_lwm (type_stack (s_ops v))) v = v.
Proof. by destruct v as [? ? [[] ? ?] ? ? ? ? ?]. Qed.

(** The map captured last lists the references of the operands. *)
Lemma wp_capture_map G v c Q : INV G v -> capture_ok G c ->
  (forall a d c' G', INV G' (set_ans a (set_lwm d v)) -> capture_ok G' c' -> extends c c' ->
     maps_to (ref_nodes c') (poll_ref_tops c') (last_map (AState v c')) (live_types v) ->
     Q tt (AState (set_ans a (set_lwm d v)) c')) ->
  wp WAH_CAPTURE_REF_MAP Q (AState v c).
Proof.
  intros Hi Hc HQ. unfold WAH_CAPTURE_REF_MAP. apply wp_bind, wp_get, wp_bind. simpl.
  (* the new map, once its topmost slot is known *)
  assert (Hnew : forall a d c' G' top, INV G' (set_ans a (set_lwm d v)) -> capture_ok G' c' -> extends c c' ->
    path (ref_nodes c') top (ref_slots (live_types v)) ->
    wp (s <- stm_get ;;
        cap <- on_v (with_ans (wah_grow_array (u32 (zlen (poll_ref_tops (a_cap s)) + 1)) 4 (poll_ref_tops_cap (a_cap s)))) ;;
        modify (set_cap (Capture (captured_types (a_cap s)) (captured_tops (a_cap s)) (captured_depth (a_cap s))
          (ref_nodes (a_cap s)) (ref_nodes_cap (a_cap s)) (poll_ref_tops (a_cap s) ++ [top]) cap))) Q
      (AState (set_ans a (set_lwm d v)) c')).
  { intros a d c' G' top Hi' [D1 D2 [D3 D4]] He Hp. apply wp_bind, wp_get, wp_bind. simpl.
    pose proof (cap_ok_range _ D4). assert (0 <= zlen (poll_ref_tops c')) by (unfold zlen; lia).
    unfold on_v, with_ans, wp at 1. simpl. rewrite (u32_small (zlen (poll_ref_tops c') + 1)) by lia.
    pose proof (wah_grow_array_cap (zlen (poll_ref_tops c') + 1) 4 _ a D4 ltac:(lia)) as Hg.
    destruct (wah_grow_array _ _ _ a) as [[cap'|e|] a']; [|done|done]. destruct Hg as (Hg1 & Hg2 & Hg3).
    unfold wp, modify, set_cap. simpl. eapply (HQ a' d _ G'); [by apply (inv_set_ans E B G' false _ a') in Hi'| | |].
    - assert (Hlen : zlen (poll_ref_tops c' ++ [top]) = zlen (poll_ref_tops c') + 1)
        by (unfold zlen; rewrite length_app; simpl; lia).
      split; [done| |simpl; rewrite Hlen; by split]. by destruct D2; split.
    - eapply extends_trans; [exact He|]. split; [done|by eexists].
    - exists top. split; [|exact Hp]. unfold last_map. simpl.
      replace (zlen (poll_ref_tops c' ++ [top]) - 1) with (zlen (poll_ref_tops c')) by (unfold zlen; rewrite length_app; simpl; lia).
      rewrite u32_small by lia. unfold zlen. rewrite zget_of_nat. by apply list_lookup_middle. }
  apply wp_if; intros Hu.
  - apply wp_ret. pose proof (Hnew (s_ans v) (ts_lwm (type_stack (s_ops v))) c G 0) as H.
    rewrite set_lwm_same, set_ans_same in H. apply H; try done. unfold live_types. by rewrite Hu.
  - eapply wp_capture_stack; [exact Hi|exact Hc|]. intros a c' top ts Hi' Hc' He Hp. eapply Hnew; try done.
    unfold live_types. by rewrite Hu.
Qed.
End Capture.
