(* ===== verification/AnalyzeInv.v ===== *)
(** * The analysis loop

    Each iteration of [wah_analyze_stream] keeps the invariant of validation, uses at
    least one byte, and appends at most one instruction with an exact ref map. *)

From S2P Require Import Prelude Base Alloc Types Opcodes Bytes Leb128 Decode Subtype ModuleEnv Operands Validate ValidInv ValidRules ValidSafe ValidCtl ValidOpcode Analyze RefMaps.
From stdpp Require Import list sets.
#[local] Open Scope Z_scope.
#[local] Open Scope wah_scope.

(** ** Definitions *)

(** An instruction that needs a ref map: a poll point, a bulk operation that can be
    resumed, or any instruction under fuel metering. *)
Definition needs_map (E : wah_validation_env) (di : wah_decoded_instr_t) : Prop :=
  is_poll di = true \/ wah_opcode_is_resumable_bulk (di_opcode di) = true \/ capture_all E = true.
(** An instruction that must be a poll point: the first one, calls and loops. *)
Definition polls (first : bool) (di : wah_decoded_instr_t) : Prop :=
  first = true \/ wah_opcode_is_call (di_opcode di) = true \/ is_op (di_opcode di) WAH_OP_LOOP = true.

(** The map of an instruction of a function lists the references of the operands before
    it, or of those after it for a loop, which is polled at its header. *)
Definition instr_mapped (E : wah_validation_env) (c : capture) (first : bool) (before after : list wah_type_t)
    (di : wah_decoded_instr_t) : Prop :=
  (needs_map E di -> maps_to (ref_nodes c) (poll_ref_tops c) (di_ref_map di)
     (if is_op (di_opcode di) WAH_OP_LOOP && negb first then after else before)) /\
  (polls first di -> is_poll di = true).

(** Reachable code with no operands. *)
Definition no_operands (v : vstate) : Prop :=
  current_stack_depth (s_ops v) = 0 /\ is_unreachable (s_ctl v) = false.

(** What the analysis changes after an instruction has been validated: the allocator,
    the low-water mark of the stack and the code. *)
Record touched (v v' : vstate) : Prop := {
  to_dec : s_dec v' = s_dec v;
  to_ctl : s_ctl v' = s_ctl v;
  to_depth : current_stack_depth (s_ops v') = current_stack_depth (s_ops v);
  to_max : max_stack_depth (s_ops v') = max_stack_depth (s_ops v);
  to_live : live_types v' = live_types v }.

(** The end of a body, from [v] to [v']: outside of all blocks, the operands were the
    results of its function, no bytes are left, and an [end] with the map [m] is added. *)
Record body_ended (E : wah_validation_env) (v : vstate) (m : Z) (v' : vstate) : Prop := {
  be_results : exists ft, v_func_type E = Some ft /\
    popn (env_types (v_module E)) (is_unreachable (s_ctl v)) (operands v) (reverse (result_types ft)) [];
  be_closed : control_sp (s_ctl v) = 0;
  be_cursor : cursor (s_dec v') = [];
  be_control : control_sp (s_ctl v') = 0;
  be_depth : current_stack_depth (s_ops v') = 0;
  be_inv : exists B G, inv E B G false v';
  be_code : instrs (s_code v') = instrs (s_code v) ++ [DecodedInstr (wah_op_value WAH_OP_END) 0 m imm_none] }.

Definition is_nil {A} (l : list A) : bool := match l with [] => true | _ => false end.

(** An iteration has added at most one instruction, with its map. *)
Definition stepped (E : wah_validation_env) (s s' : astate) : Prop :=
  extends (a_cap s) (a_cap s') /\
  (instrs (s_code (a_v s')) = instrs (s_code (a_v s)) \/
   exists di, instrs (s_code (a_v s')) = instrs (s_code (a_v s)) ++ [di] /\
     instr_mapped E (a_cap s') (is_nil (instrs (s_code (a_v s))))
       (live_types (a_v s)) (live_types (a_v s')) di).
(** The iteration that ends a body. *)
Definition ended (E : wah_validation_env) (s s' : astate) : Prop :=
  extends (a_cap s) (a_cap s') /\ exists m, body_ended E (a_v s) m (a_v s') /\
    (capture_all E = true -> maps_to (ref_nodes (a_cap s')) (poll_ref_tops (a_cap s')) m (live_types (a_v s))).


(** The invariant of the loop. *)
Record ainv (E : wah_validation_env) (p : poll_vars) (s : astate) : Prop := {
  an_inv : exists G, inv E (cursor (s_dec (a_v s))) G false (a_v s) /\ capture_ok G (a_cap s);
  an_first : is_first_instr p = true <-> instrs (s_code (a_v s)) = [] /\ poll_flags p = false;
  an_empty : is_first_instr p = true \/ poll_flags p = true -> instrs (s_code (a_v s)) = [] /\ no_operands (a_v s);
  an_pending : poll_flags p = true ->
    maps_to (ref_nodes (a_cap s)) (poll_ref_tops (a_cap s)) (poll_map p) [] }.

(** The state before a body or a constant expression: all but the module, the bytes and
    what functions of a section share is reset, and the stacks are not initialized. *)
Record start_ok (E : wah_validation_env) (s : astate) : Prop := {
  so_bytes : decoder_bytes (s_dec (a_v s));
  so_ops : exists data, s_ops (a_v s) = Operands (TypeStack data 0 0) 0 0 /\ zlen data = WAH_MAX_TYPE_STACK_SIZE;
  so_ctl : exists l, s_ctl (a_v s) = Control l 0 false /\ zlen l = WAH_MAX_CONTROL_DEPTH;
  so_inits : match s_inits (a_v s) with
             | Some li => inits_ok (v_total_locals E) li
             | None => v_mode E = WAH_ANALYZE_CONST_EXPR
             end;
  so_labels : match s_labels (a_v s) with Some l => labels_ok l | None => True end;
  so_notes : notes_ok (v_module E) (s_notes (a_v s));
  so_code : s_code (a_v s) = Instrs [] 0;
  so_capture : a_cap s = capture_init }.

(** ** Theorems *)

(** *** The tables *)

Lemma opcode_value_table : forallb (fun v => match wah_opcode_of v with
  | Some o => wah_op_value o =? v | None => true end &&
  match zget wah_opcode_features v with Some _ => true | None => false end) (zrange 0 WAH_FE) = true.
Proof. vm_compute. reflexivity. Qed.

Lemma opcode_value v o : 0 <= v < WAH_FE -> wah_opcode_of v = Some o -> wah_op_value o = v.
Proof.
  intros Hv Ho. pose proof opcode_value_table as H. rewrite forallb_forall in H.
  specialize (H v ltac:(apply list_elem_of_In, elem_of_zrange; lia)). rewrite Ho in H. lia.
Qed.

Lemma opcode_feature v : 0 <= v < WAH_FE -> is_Some (zget wah_opcode_features v).
Proof.
  intros Hv. pose proof opcode_value_table as H. rewrite forallb_forall in H.
  specialize (H v ltac:(apply list_elem_of_In, elem_of_zrange; lia)). apply andb_true_iff in H as [_ H].
  by destruct (zget wah_opcode_features v).
Qed.

Lemma opcode_bytes_range bs v : opcode_bytes bs v -> 0 <= v < WAH_FE /\ bs <> [].
Proof.
  intros [b Hb|p lo hi bs' sub Hp Hu Hs]; (split; [|done]).
  - change WAH_FB with 215 in Hb. change WAH_FE with 540. lia.
  - pose proof (uleb_nonneg _ _ _ Hu). rewrite !elem_of_cons, elem_of_nil in Hp.
    change WAH_FB with 215 in *. change WAH_FC with 246 in *. change WAH_FD with 264 in *. change WAH_FE with 540 in *.
    destruct_or?; simplify_eq; lia.
Qed.

(** The opcode uses at least one byte. *)
Lemma opcode_progress c : Forall is_byte c ->
  wp wah_decode_opcode (fun v c' => Forall is_byte c' /\ c' `suffix_of` c /\ (length c' < length c)%nat /\ 0 <= v < WAH_FE) c.
Proof.
  intros Hb. destruct (wah_decode_opcode_faultless c Hb) as [H1 H2]. apply wp_intro; [done|]. intros v c' E.
  rewrite E in H2. destruct (wah_decode_opcode_sound c v c' Hb E) as (bs & -> & Ho).
  destruct (opcode_bytes_range _ _ Ho) as [Hv Hne]. split_and!; [done|by exists bs| |apply Hv|apply Hv].
  rewrite length_app. destruct bs; [done|]. simpl. lia.
Qed.

Lemma wah_require_feature_good n : dec_good (on_features (wah_require_feature n)) (fun _ => True).
Proof.
  intros [c m] Hb. unfold wp, on_features, wah_require_feature, decoder_bytes in *. simpl in *.
  destruct (n =? 0); simpl; [done|]. by destruct (has_bits _ _).
Qed.

(** *** States *)

Lemma wp_on_v {A} (m : comp vstate A) Q v c : wp m (fun a v' => Q a (AState v' c)) v -> wp (on_v m) Q (AState v c).
Proof. unfold wp, on_v. simpl. by destruct (m v) as [[a|e|] v']. Qed.

Lemma inv_rebase E B B' G op s : cursor (s_dec s) `suffix_of` B' -> inv E B G op s -> inv E B' G op s.
Proof. by intros Hs [[H0 _] H1 H2 H3 H4 H5 H6]; split. Qed.

(** An element of the code is replaced. *)
Lemma wp_update_last E B G f Q v l di : inv E B G false v -> instrs (s_code v) = l ++ [di] ->
  (forall c, let v' := set_code (Instrs (l ++ [f di]) c) v in inv E B G false v' -> Q tt v') ->
  wp (update_instr (zlen l) f) Q v.
Proof.
  intros Hi Hl HQ. unfold update_instr. apply wp_bind, wp_get, wp_bind.
  assert (Hlen : zlen (l ++ [di]) = zlen l + 1) by (unfold zlen; rewrite length_app; simpl; lia).
  assert (0 <= zlen l) by (unfold zlen; lia).
  eapply wp_opt. { rewrite Hl. unfold zlen. rewrite zget_of_nat. by apply list_lookup_middle. }
  apply wp_bind. eapply wp_opt.
  { rewrite Hl. rewrite zset_Some by lia. unfold zlen. by rewrite Nat2Z.id, insert_app_r_alt, Nat.sub_diag by lia. }
  apply wp_put. simpl. apply HQ. apply inv_set_code; [done|]. pose proof (i_code _ _ _ _ _ Hi) as [Hc1 Hc2].
  split; simpl; [|done]. rewrite Hl, Hlen in Hc1. unfold zlen in *. rewrite length_app in *. simpl in *. lia.
Qed.

(** *** Poll points of a function *)

Section Polls.
Context (E : wah_validation_env) (EO : env_ok E) (expected_type : wah_type_t) (FB : is_func_body E = true) (B : list Z).
Notation INV G := (inv E B G false).

(** What is known of the map of the next instruction, captured by [c] from the state
    [v] before it. *)
Record polled (opcode : Z) (p : poll_vars) (v : vstate) (p' : poll_vars) (m : Z) (c : capture) : Prop := {
  po_first : is_first_instr p' = false;
  po_flags : poll_flags p' = is_first_instr p || poll_flags p || wah_opcode_is_call opcode;
  po_map : poll_flags p' = true \/ wah_opcode_is_resumable_bulk opcode = true \/ capture_all E = true ->
    maps_to (ref_nodes c) (poll_ref_tops c) m (live_types v);
  po_pending : is_first_instr p = true \/ poll_flags p = true ->
    maps_to (ref_nodes c) (poll_ref_tops c) (poll_map p') [] }.

Lemma operands_bottom G v : INV G v -> current_stack_depth (s_ops v) = 0 -> operands v = [].
Proof.
  intros Hi Hd. pose proof (i_ops _ _ _ _ _ Hi) as [_ H _ _]. unfold operands.
  rewrite drop_ge; [done|]. rewrite length_take. lia.
Qed.

Lemma bottom_live G v : INV G v -> no_operands v -> live_types v = [].
Proof.
  intros Hi [Hd Hu]. unfold live_types. rewrite Hu. pose proof (i_ops _ _ _ _ _ Hi) as [_ H _ _]. rewrite <- H, Hd. done.
Qed.

Lemma wp_poll_before opcode p G v c Q : INV G v -> capture_ok G c ->
  (is_first_instr p = true \/ poll_flags p = true -> no_operands v) ->
  (poll_flags p = true -> is_first_instr p = false /\ maps_to (ref_nodes c) (poll_ref_tops c) (poll_map p) []) ->
  (forall a d c' G' p' m, INV G' (set_ans a (set_lwm d v)) -> capture_ok G' c' -> extends c c' ->
     polled opcode p v p' m c' -> Q (p', m) (AState (set_ans a (set_lwm d v)) c')) ->
  wp (poll_before E opcode p) Q (AState v c).
Proof.
  intros Hi Hc Hb Hp HQ. unfold poll_before. rewrite FB. cbn [negb].
  apply wp_if; [|intros Hf; apply wp_if]; intros Hf'.
  - (* a poll point *)
    apply wp_bind. eapply wp_capture_map; [exact Hi|exact Hc|]. intros a d c' G' Hi' Hc' He Hm.
    apply wp_bind, wp_get, wp_ret. eapply HQ; [exact Hi'|exact Hc'|exact He|].
    split; simpl; [done| |by intros _|].
    + destruct (is_first_instr p); [done|]. simpl in Hf'. by apply andb_true_iff in Hf' as [_ ->]; rewrite orb_true_r.
    + intros Hb'. by rewrite <- (bottom_live G v Hi (Hb Hb')).
  - apply orb_false_iff in Hf as [Hf1 Hf2].
    apply wp_bind. eapply wp_capture_map; [exact Hi|exact Hc|]. intros a d c' G' Hi' Hc' He Hm.
    apply wp_bind, wp_get, wp_ret. eapply HQ; [exact Hi'|exact Hc'|exact He|].
    split; [done| |by intros _|].
    + rewrite Hf1. destruct (poll_flags p); [done|]. simpl in *. by rewrite Hf2.
    + intros [?|Hpf]; [congruence|]. eapply maps_to_mono; [exact He|]. by apply Hp.
  - apply orb_false_iff in Hf as [Hf1 Hf2]. apply orb_false_iff in Hf' as [Hm Hbulk]. apply wp_ret.
    pose proof (HQ (s_ans v) (ts_lwm (type_stack (s_ops v))) c G p (if poll_flags p then poll_map p else UINT32_MAX)) as H.
    rewrite set_lwm_same, set_ans_same in H. apply H; [exact Hi|exact Hc|apply extends_refl|].
    split; [done| | |].
    + rewrite Hf1. destruct (poll_flags p); [done|]. simpl in *. by rewrite Hf2.
    + intros [Hpf|[?|?]]; [|congruence..]. rewrite Hpf. destruct (Hp Hpf) as [_ H'].
      by rewrite (bottom_live G v Hi) by auto.
    + intros [?|Hpf]; [congruence|]. by apply Hp.
Qed.

Lemma fresh_not_poll o di : fresh_instr o di -> is_poll di = false.
Proof. intros (_ & _ & Hp). unfold is_poll. by rewrite Hp. Qed.
Lemma set_poll_is_poll di : is_poll (set_poll di) = true.
Proof.
  unfold is_poll, set_poll. simpl. rewrite Z.land_lor_distr_l. change (Z.land WAH_INSTR_FLAG_POLL WAH_INSTR_FLAG_POLL) with 1.
  apply negb_true_iff, Z.eqb_neq. intros H. apply Z.lor_eq_0_iff in H as [_ H]. done.
Qed.

Lemma touched_refl v : touched v v.
Proof. done. Qed.
Lemma touched_code v c : touched v (set_code c v).
Proof. done. Qed.
Lemma touched_capture v a d : touched v (set_ans a (set_lwm d v)).
Proof. done. Qed.
Lemma touched_trans v v' v'' : touched v v' -> touched v' v'' -> touched v v''.
Proof. intros [] []. split; congruence. Qed.

(** The instruction [di] that an opcode has emitted gets its map and flags. *)
Definition marked (p : poll_vars) (m : Z) (di : wah_decoded_instr_t) : wah_decoded_instr_t :=
  if poll_flags p then set_poll (set_ref_map m di) else set_ref_map m di.

Lemma marked_opcode p m di : di_opcode (marked p m di) = di_opcode di.
Proof. unfold marked. by destruct (poll_flags p). Qed.
Lemma marked_map p m di : di_ref_map (marked p m di) = m.
Proof. unfold marked. by destruct (poll_flags p). Qed.
Lemma marked_poll o p m di : fresh_instr o di -> is_poll (marked p m di) = poll_flags p.
Proof.
  intros Hf. unfold marked. destruct (poll_flags p); [apply set_poll_is_poll|exact (fresh_not_poll o di Hf)].
Qed.

Lemma wp_mark p m G v c l di Q : INV G v -> instrs (s_code v) = l ++ [di] ->
  (forall v', INV G v' -> instrs (s_code v') = l ++ [marked p m di] -> touched v v' -> Q tt (AState v' c)) ->
  wp (on_v (update_instr (zlen l) (set_ref_map m)) ;;;
      (if poll_flags p then on_v (update_instr (zlen l) set_poll) else stm_ret tt)) Q (AState v c).
Proof.
  intros Hi Hl HQ. apply wp_bind, wp_on_v. eapply wp_update_last; [exact Hi|exact Hl|]. intros c1 v1 Hi1. unfold marked in HQ.
  destruct (poll_flags p).
  - apply wp_on_v. eapply (wp_update_last _ _ _ _ _ v1 l); [exact Hi1|done|]. intros c' v2 Hi2. by apply HQ.
  - apply wp_ret. by apply HQ.
Qed.

(** A loop that is not a poll point yet becomes one, with a map of its own. *)
Lemma wp_poll_loop G v c l di Q : INV G v -> capture_ok G c -> instrs (s_code v) = l ++ [di] ->
  (forall G' v' c' m, INV G' v' -> capture_ok G' c' -> extends c c' -> touched v v' ->
     instrs (s_code v') = l ++ [set_ref_map m (set_poll di)] ->
     maps_to (ref_nodes c') (poll_ref_tops c') m (live_types v) -> Q tt (AState v' c')) ->
  wp (WAH_CAPTURE_REF_MAP ;;; s <- stm_get ;; on_v (update_instr (zlen l) set_poll) ;;;
      on_v (update_instr (zlen l) (set_ref_map (last_map s)))) Q (AState v c).
Proof.
  intros Hi Hc Hl HQ. apply wp_bind. eapply wp_capture_map; [exact Hi|exact Hc|]. intros a d c' G' Hi' Hc' He Hm.
  apply wp_bind, wp_get, wp_bind, wp_on_v. eapply wp_update_last; [exact Hi'|exact Hl|]. intros cap1 v1 Hi1.
  apply wp_on_v. eapply (wp_update_last _ _ _ _ _ v1 l); [exact Hi1|done|]. intros cap2 v2 Hi2. by eapply HQ.
Qed.

(** What an opcode leaves after the poll points have been recorded: nothing, or the
    instruction it has emitted. *)
Definition step_code (o : wah_op) (v0 v v' : vstate) (c' : capture) (p p' : poll_vars) : Prop :=
  (instrs (s_code v') = instrs (s_code v0) /\ p' = p /\ silent o /\ quiet v0 v) \/
  (exists di, instrs (s_code v') = instrs (s_code v0) ++ [di] /\ di_opcode di = wah_op_value o /\
     instr_mapped E c' (is_nil (instrs (s_code v0))) (live_types v0) (live_types v) di /\
     poll_flags p' = false /\ is_first_instr p' = false).

Lemma silent_no_loop o : silent o -> is_op (wah_op_value o) WAH_OP_LOOP = false.
Proof. destruct o; intros H; first [reflexivity | destruct H]. Qed.

(** The instruction of an opcode that is not a loop to be polled. *)
Lemma marked_mapped opcode o p p1 m c v0 v di : polled opcode p v0 p1 m c -> fresh_instr o di -> wah_op_value o = opcode ->
  (is_first_instr p = true \/ poll_flags p = true <-> instrs (s_code v0) = []) ->
  (is_op opcode WAH_OP_LOOP = true -> is_poll (marked p1 m di) = true) ->
  instr_mapped E c (is_nil (instrs (s_code v0))) (live_types v0) (live_types v) (marked p1 m di).
Proof.
  intros [P1 P2 P3 P4] Hf Ho Hfirst Hloop. unfold instr_mapped, needs_map, polls.
  rewrite marked_opcode, marked_map, (marked_poll o) by done. rewrite (marked_poll o) in Hloop by done.
  destruct Hf as (-> & _ & _). rewrite Ho. split.
  - intros Hn. specialize (P3 Hn). destruct (is_op opcode WAH_OP_LOOP) eqn:El; [|exact P3]. simpl.
    destruct (instrs (s_code v0)) as [|i0 l0]; [done|exfalso].
    assert (Hp : poll_flags p1 = true) by auto. rewrite P2 in Hp. apply orb_true_iff in Hp as [Hp|Hc].
    + apply orb_true_iff in Hp. by apply Hfirst in Hp.
    + unfold is_op in El. apply Z.eqb_eq in El. by rewrite El in Hc.
  - intros [H|[H|H]]; [|rewrite P2, H; by rewrite orb_true_r|by apply Hloop].
    rewrite P2. apply orb_true_iff. left. apply orb_true_iff, Hfirst. by destruct (instrs (s_code v0)).
Qed.

Lemma instr_mapped_loop o c v0 v m m0 di p1 : fresh_instr o di -> is_op (wah_op_value o) WAH_OP_LOOP = true ->
  instrs (s_code v0) <> [] -> maps_to (ref_nodes c) (poll_ref_tops c) m (live_types v) ->
  instr_mapped E c (is_nil (instrs (s_code v0))) (live_types v0) (live_types v) (set_ref_map m (set_poll (marked p1 m0 di))).
Proof.
  intros (Ho & _) Hl Hne Hm. unfold instr_mapped, needs_map, polls.
  change (di_opcode (set_ref_map m (set_poll (marked p1 m0 di)))) with (di_opcode (marked p1 m0 di)).
  rewrite marked_opcode, Ho, Hl. destruct (instrs (s_code v0)); [done|]. split; [by intros _|]. intros _. apply set_poll_is_poll.
Qed.

(** The length of the code is a [uint32_t]. *)
Lemma code_length G v : INV G v -> 0 <= zlen (instrs (s_code v)) < 2 ^ 32.
Proof. intros Hi. apply inv_room in Hi. unfold room, UINT32_MAX in Hi. unfold zlen in *. lia. Qed.

Lemma wp_poll_after opcode o p p1 m G v0 v1 v c Q : wah_op_value o = opcode -> INV G v -> capture_ok G c ->
  emitted o v1 v -> instrs (s_code v1) = instrs (s_code v0) -> (quiet v1 v -> quiet v0 v) ->
  polled opcode p v0 p1 m c -> (is_first_instr p = true \/ poll_flags p = true <-> instrs (s_code v0) = []) ->
  (forall G' v' c' p', INV G' v' -> capture_ok G' c' -> extends c c' -> touched v v' ->
     step_code o v0 v v' c' p1 p' -> Q p' (AState v' c')) ->
  wp (poll_after E opcode (zlen (instrs (s_code v0))) m p1) Q (AState v c).
Proof.
  intros Ho Hi Hc (l & Hl & Hlen & Hfresh & Hnil) Hv1 Hq HP Hfirst HQ. rewrite Hv1 in Hl.
  pose proof (code_length G v Hi) as Hcl. unfold poll_after. rewrite FB. cbn [negb]. apply wp_bind, wp_get. simpl.
  apply wp_bind. set (n0 := zlen (instrs (s_code v0))) in *.
  assert (Hn : zlen (instrs (s_code v)) = n0 + Z.of_nat (length l)) by (unfold n0, zlen; rewrite Hl, length_app; lia).
  assert (0 <= n0) by (unfold n0, zlen; lia).
  apply wp_if; intros Hass; [|rewrite Hn, u32_small in Hass by lia; apply Z.leb_gt in Hass; lia].
  apply wp_ret. destruct l as [|di [|? ?]]; [| |simpl in Hlen; lia]; simpl in Hn.
  - (* nothing is emitted *)
    destruct (Hnil eq_refl) as [Hs Hqu]. destruct (Z.ltb_spec n0 (zlen (instrs (s_code v)))); [lia|].
    apply wp_bind, wp_ret, wp_bind. rewrite <- Ho, (silent_no_loop o Hs). apply wp_ret, wp_ret.
    eapply HQ; [exact Hi|exact Hc|apply extends_refl|apply touched_refl|]. left. rewrite Hl, app_nil_r. auto.
  - apply Forall_cons in Hfresh as [Hf _]. destruct (Z.ltb_spec n0 (zlen (instrs (s_code v)))); [|lia].
    apply wp_bind. eapply wp_mark; [exact Hi|exact Hl|]. intros v' Hi' Hl' Ht. apply wp_bind.
    assert (Hn' : zlen (instrs (s_code v)) - 1 = n0) by lia. rewrite Hn'.
    pose proof (po_flags _ _ _ _ _ _ HP) as Hflags. pose proof (po_first _ _ _ _ _ _ HP) as Hnf.
    (* not a loop, or polled already *)
    assert (Hdone : (is_op opcode WAH_OP_LOOP = true -> is_poll (marked p1 m di) = true) ->
      Q (PollVars (is_first_instr p1) false (poll_map p1)) (AState v' c)).
    { intros Hlp. eapply HQ; [exact Hi'|exact Hc|apply extends_refl|exact Ht|]. right. eexists. split_and!; [exact Hl'| | |done|done].
      - rewrite marked_opcode. apply Hf.
      - by eapply marked_mapped. }
    apply wp_if; intros Hloop; [|apply wp_ret, wp_ret, Hdone; intros H'; by rewrite H', (proj2 (Z.ltb_lt _ _)) in Hloop by lia].
    apply andb_true_iff in Hloop as [Hloop _]. apply wp_bind, wp_get, wp_bind. simpl.
    eapply wp_opt. { rewrite Hl'. unfold n0, zlen. rewrite zget_of_nat. by apply list_lookup_middle. }
    apply wp_if; intros Hp; [|apply wp_ret, wp_ret, Hdone; intros _; by apply negb_false_iff in Hp].
    apply negb_true_iff in Hp. rewrite (marked_poll o) in Hp by done.
    eapply wp_poll_loop; [exact Hi'|exact Hc|exact Hl'|]. intros G2 v2 c2 m2 Hi2 Hc2 He2 Ht2 Hl2 Hm2. apply wp_ret.
    eapply HQ; [exact Hi2|exact Hc2|exact He2|by eapply touched_trans|]. right. eexists.
    split_and!; [exact Hl2| | |done|done]; [simpl; rewrite marked_opcode; apply Hf|].
    rewrite (to_live _ _ Ht) in Hm2.
    pose proof (instr_mapped_loop o c2 v0 v m2 m di p1 Hf) as HH. rewrite Ho in HH.
    assert (instrs (s_code v0) <> []).
    { intros Hz. apply Hfirst in Hz. rewrite Hflags in Hp. apply orb_false_iff in Hp as [Hp _].
      apply orb_false_iff in Hp as [H1 H2]. destruct Hz; congruence. }
    exact (HH Hloop ltac:(assumption) Hm2).
Qed.

(** *** The end of a body *)

Lemma wp_append_end G v Q : INV G v ->
  (forall a c, let v' := set_code (Instrs (instrs (s_code v) ++ [DecodedInstr (wah_op_value WAH_OP_END) 0 0 imm_none]) c)
     (set_ans a v) in INV G v' -> Q tt v') -> wp wah_analyzed_append_end Q v.
Proof.
  intros Hi HQ. unfold wah_analyzed_append_end. apply wp_bind, wp_grow_instrs with E B G false; [done|by eapply inv_room|].
  intros a cap Hcap. unfold wp, modify. apply HQ. apply inv_set_code; [by apply inv_set_ans|].
  destruct Hcap. split; [|done]. unfold zlen in *. simpl. rewrite length_app. simpl. lia.
Qed.

Lemma wp_analyze_end opcode m G v Q : INV G v -> Q false v ->
  (forall v', is_op opcode WAH_OP_END = true -> INV G v' -> body_ended E v m v' -> Q true v') ->
  wp (analyze_end E expected_type opcode m) Q v.
Proof.
  intros Hi Hf Ht. unfold analyze_end. apply wp_if; intros He; [by apply wp_ret|]. rewrite FB. cbn [negb].
  apply negb_false_iff in He. apply wp_bind, wp_get. apply wp_if; intros Hc; [|by apply wp_ret].
  assert (Hmode : v_mode E = WAH_ANALYZE_FUNC_BODY).
  { destruct (v_mode E) eqn:Em; [done|]. unfold is_func_body in FB. by rewrite (eo_const E EO Em) in FB. }
  destruct (eo_body E EO Hmode) as (ft & body & Hft & Hok & _). apply wp_bind. eapply wp_opt; [exact Hft|]. apply wp_bind.
  eapply wp_pop_types; [exact EO|exact Hi|apply Hok|]. intros o1 Hi1 Hpop _.
  apply wp_bind, wp_get, wp_bind, wp_ensure. intros Hd. apply Z.eqb_eq in Hd.
  apply wp_bind, wp_ensure. intros Hcur. apply wp_bind. eapply wp_append_end; [exact Hi1|]. intros a cap v1 Hi2.
  apply wp_bind, wp_get, wp_bind. pose proof (code_length G v1 Hi2) as Hl.
  assert (Hz : zlen (instrs (s_code v1)) = zlen (instrs (s_code v)) + 1) by (unfold v1, zlen; simpl; rewrite length_app; simpl; lia).
  assert (0 <= zlen (instrs (s_code v))) by (unfold zlen; lia).
  rewrite Hz. replace (zlen (instrs (s_code v)) + 1 - 1) with (zlen (instrs (s_code v))) by lia. rewrite u32_small by lia.
  eapply (wp_update_last _ _ _ _ _ v1); [exact Hi2|done|]. intros cap' v2 Hi3. apply wp_ret, Ht; [done|exact Hi3|].
  split; [|by apply Z.eqb_eq|by destruct (cursor (s_dec (set_ops o1 v))) eqn:Ecur|by apply Z.eqb_eq|done|by exists B, G|done].
  exists ft. split; [done|]. rewrite (operands_bottom G (set_ops o1 v)) in Hpop by done. done.
Qed.
End Polls.

(** *** One iteration *)

Section Step.
Context (E : wah_validation_env) (EO : env_ok E) (expected_type : wah_type_t).

(** An opcode whose feature is enabled. *)
Lemma wp_next_opcode B G Q v c : inv E B G false v ->
  (forall opcode d, 0 <= opcode < WAH_FE -> inv E (cursor d) G false (set_dec d v) ->
     (length (cursor d) < length (cursor (s_dec v)))%nat -> cursor d `suffix_of` cursor (s_dec v) ->
     Q opcode (AState (set_dec d v) c)) ->
  wp next_opcode Q (AState v c).
Proof.
  intros Hi HQ. unfold next_opcode. apply wp_bind, wp_on_v. pose proof Hi as [[H0 _] _ _ _ _ _ _]. pose proof (opcode_progress _ H0) as Hop.
  unfold wp in Hop. unfold wp at 1, with_cur, with_dec, on_cursor. destruct (wah_decode_opcode (cursor (s_dec v))) as [[op|e|] c1]; [|done|done].
  destruct Hop as (Hb & Hs & Hl & Hv). destruct (opcode_feature op Hv) as [f Hf]. apply wp_bind. eapply wp_opt; [exact Hf|].
  apply wp_bind, wp_on_v. set (d1 := Decoder c1 _).
  assert (Hi1 : inv E B G false (set_dec d1 v)) by (by apply inv_set_dec).
  eapply wp_features; [apply wah_require_feature_good|exact Hi1|]. intros d Hi2 Hs2. apply wp_ret. simpl in Hs2. apply HQ.
  - done.
  - eapply inv_rebase; [|exact Hi2]. done.
  - eapply Nat.le_lt_trans; [by apply suffix_length|exact Hl].
  - by etrans.
Qed.

(** Instructions of a function. *)
Context (FB : is_func_body E = true).

Lemma touched_inv_state B G o v0 v v' c p p1 p' : is_first_instr p1 = false ->
  (is_first_instr p = true \/ poll_flags p = true <-> instrs (s_code v0) = []) ->
  (poll_flags p1 = true -> is_first_instr p = true \/ poll_flags p = true \/ wah_opcode_is_call (wah_op_value o) = true) ->
  (is_first_instr p = true \/ poll_flags p = true -> no_operands v0 /\ poll_flags p1 = true /\
     maps_to (ref_nodes c) (poll_ref_tops c) (poll_map p1) []) ->
  touched v v' -> step_code E o v0 v v' c p1 p' -> inv E B G false v' -> capture_ok G c -> ainv E p' (AState v' c).
Proof.
  intros Hnf Hfirst Hflags Hpend Ht Hcode Hi Hc.
  assert (HG : exists G0, inv E (cursor (s_dec v')) G0 false v' /\ capture_ok G0 c).
  { exists G. split; [|done]. eapply inv_rebase; [|exact Hi]. done. }
  destruct Hcode as [(Hs & -> & Hsil & Hq)|(di & Hs & _ & _ & Hp1 & Hp2)]; split; try exact HG; simpl; rewrite ?Hs.
  - rewrite Hnf. split; [done|]. intros [Hn Hf]. apply Hfirst in Hn. destruct (Hpend Hn) as (_ & Hp & _). congruence.
  - rewrite Hnf. intros [?|Hp]; [done|]. assert (Hor : is_first_instr p = true \/ poll_flags p = true).
    { destruct (Hflags Hp) as [?|[?|Hcall]]; [by left|by right|]. destruct o; try done. }
    split; [by apply Hfirst|]. destruct (Hpend Hor) as ([Hb1 Hb2] & _ & _). destruct (Hq Hb1 Hb2).
    split; [by rewrite (to_depth _ _ Ht)|by rewrite (to_ctl _ _ Ht)].
  - intros Hp. destruct (Hflags Hp) as [?|[?|Hcall]]; [by apply Hpend; left|by apply Hpend; right|]. by destruct o.
  - rewrite Hp2. split; [done|]. intros [Hn _]. by destruct (instrs (s_code v0)).
  - rewrite Hp1, Hp2. by intros [?|?].
  - by rewrite Hp1.
Qed.

Lemma wp_analyze_step p v c : ainv E p (AState v c) ->
  wp (analyze_step E expected_type p) (fun r s' =>
    match r with
    | Some p' => ainv E p' s' /\ stepped E (AState v c) s' /\
        (length (cursor (s_dec (a_v s'))) < length (cursor (s_dec v)))%nat /\
        cursor (s_dec (a_v s')) `suffix_of` cursor (s_dec v)
    | None => ended E (AState v c) s'
    end) (AState v c).
Proof.
  intros [(G & Hi & Hc) Afirst Aempty Apend]. simpl in *. unfold analyze_step. apply wp_bind.
  eapply wp_next_opcode; [exact Hi|]. intros opcode d Hop Hi1 Hlen Hsuf. cbv beta.
  assert (Hfirst : is_first_instr p = true \/ poll_flags p = true <-> instrs (s_code v) = []).
  { split; [apply Aempty|]. intros Hn. destruct (poll_flags p); [by right|]. left. by apply Afirst. }
  assert (Hfl : poll_flags p = true -> is_first_instr p = false).
  { intros Hp. destruct (is_first_instr p); [|done]. destruct (proj1 Afirst eq_refl). congruence. }
  apply wp_bind. eapply wp_poll_before; [exact FB|exact Hi1|exact Hc|by intros Hp; apply Aempty|by auto|].
  intros a lw c1 G1 p1 m Hi2 Hc1 He1 HP. cbv beta iota. set (v1 := set_ans a _) in *. destruct HP as [P1 P2 P3 P4].
  apply wp_bind, wp_on_v. eapply wp_analyze_end; [exact EO|exact FB|exact Hi2| |].
  - (* an instruction *)
    apply wp_bind, wp_get, wp_bind, wp_on_v.
    eapply wp_mono; [by apply (wah_validate_opcode_wp E EO (cursor d) G1 opcode v1)|]. intros [] v2 (Hi3 & o & Ho & Hem).
    pose proof (opcode_value opcode o Hop Ho) as Hov. apply wp_bind.
    eapply (wp_poll_after E FB (cursor d) opcode o p p1 m G1 v v1 v2 c1); [done|exact Hi3|exact Hc1|exact Hem|done|done| |exact Hfirst|].
    { by split. }
    intros G2 v3 c2 p' Hi4 Hc2 He2 Ht Hcode. apply wp_ret.
    split_and!.
    + eapply (touched_inv_state (cursor d) G2 o v v2 v3 c2 p p1); [exact P1|exact Hfirst| | |exact Ht|exact Hcode|exact Hi4|exact Hc2].
      * rewrite P2, Hov. intros Hp. apply orb_true_iff in Hp as [Hp|Hp]; [|by right; right].
        apply orb_true_iff in Hp as [Hp|Hp]; [by left|by right; left].
      * intros Hp. split; [by apply Aempty|]. split; [rewrite P2; by destruct Hp as [-> | ->]; rewrite ?orb_true_r|].
        eapply maps_to_mono; [exact He2|]. by apply P4.
    + split; [by eapply extends_trans|]. destruct Hcode as [(Hs & _)|(di & Hs & _ & Hm & _)]; [by left|right].
      exists di. split; [exact Hs|]. simpl. by rewrite (to_live _ _ Ht).
    + simpl. pose proof Hi4 as [[_ H4] _ _ _ _ _ _]. apply suffix_length in H4. lia.
    + simpl. pose proof Hi4 as [[_ H4] _ _ _ _ _ _]. by etrans.
  - intros v' _ Hi3 Hend. apply wp_ret. split; [exact He1|]. exists m. split; [|by auto].
    destruct Hend as [E0 Ec E1 E2 E3 E4 E5]. by split.
Qed.
End Step.
