(* ===== verification/Samples.v ===== *)
(** * Sample modules

    Checkers of the well-formedness the theorems on validation assume, and the module,
    bodies and constant expressions on which they are evaluated. *)

From S2P Require Import Prelude Base Alloc Types Opcodes Bytes Leb128 Decode Subtype ModuleEnv Operands Validate ValidInv ValidRules Analyze RefMaps AnalyzeInv.
From stdpp Require Import list sets.
#[local] Open Scope Z_scope.
#[local] Open Scope wah_scope.

(** ** Definitions *)

(** *** Checkers *)
Section Checkers.
Context (m : wah_module_t).
Definition type_valid_b (t : wah_type_t) : bool :=
  bool_decide (t ∈ [WAH_TYPE_I32; WAH_TYPE_I64; WAH_TYPE_F32; WAH_TYPE_F64; WAH_TYPE_V128;
                    WAH_TYPE_PACKED_I8; WAH_TYPE_PACKED_I16]) ||
  ((-54 <=? t) && (t <=? -31)) || ((0 <=? t) && (t <? 2 ^ 31) && (WAH_TYIDX t <? type_count m)).
Definition all_valid_b (ts : list wah_type_t) : bool := forallb type_valid_b ts.
Definition func_type_ok_b (ft : wah_func_type_t) : bool :=
  all_valid_b (param_types ft) && all_valid_b (result_types ft) &&
  (zlen (param_types ft) <=? WAH_MAX_TYPE_STACK_SIZE) && (zlen (result_types ft) <=? WAH_MAX_TYPE_STACK_SIZE).
Definition type_def_ok_b (td : wah_type_def_t) : bool :=
  all_valid_b (field_types td) && (length (field_mutables td) =? length (field_types td))%nat &&
  match kind td with
  | WAH_COMP_ARRAY => zlen (field_types td) =? 1
  | WAH_COMP_STRUCT => Bool.eqb (non_defaultable td) (negb (forallb has_default (field_types td)))
  | _ => true
  end.
End Checkers.
Definition addr_type_ok_b (t : wah_type_t) : bool := (t =? WAH_TYPE_I32) || (t =? WAH_TYPE_I64).
Definition space_ok_b {A} (imps defs : list A) (P : A -> bool) : bool :=
  (zlen imps + zlen defs <? 2 ^ 32) && forallb P imps && forallb P defs.

Definition module_ok_b (M : wah_module_env) : bool :=
  let m := env_types M in
  let idx ti := (0 <=? ti) && (ti <? type_count m) in
  types_wf_b m && (zlen (types m) =? type_count m) &&
  forallb (func_type_ok_b m) (types m) && forallb (type_def_ok_b m) (type_defs m) &&
  space_ok_b (func_imports M) (function_type_indices M) idx &&
  (zlen (func_imports M) + zlen (function_type_indices M) + 7 <? 2 ^ 32) &&
  space_ok_b (table_imports M) (tables M)
    (fun tt => type_valid_b m (elem_type tt) && addr_type_ok_b (tab_addr_type tt)) &&
  space_ok_b (memory_imports M) (memories M) (fun mt => addr_type_ok_b (mem_addr_type mt)) &&
  space_ok_b (global_imports M) (globals M) (fun g => type_valid_b m (global_type g)) &&
  space_ok_b (tag_imports M) (tags M) idx && forallb (type_valid_b m) (element_segments M).

(** *** A module

    Two structs, the second a subtype of the first, an array and function types; an
    imported function without parameters, a table, a memory, an immutable and a mutable
    global and a tag. *)
Definition sample_types : wah_module_t :=
  let td k sup fs ms start := TypeDef k false false sup fs ms start 1 in
  Module
    [FuncType [] []; FuncType [] []; FuncType [] []; FuncType [] []; FuncType [WAH_TYPE_EXTERNREF] [];
     FuncType [WAH_TYPE_I32] [WAH_TYPE_I32]]
    [td WAH_COMP_STRUCT WAH_NO_SUPERTYPE [WAH_TYPE_I32] [true] 0;
     td WAH_COMP_STRUCT 0 [WAH_TYPE_I32; WAH_TYPE_ANYREF] [true; false] 1;
     td WAH_COMP_ARRAY WAH_NO_SUPERTYPE [WAH_TYPE_PACKED_I8] [true] 2;
     td WAH_COMP_FUNC WAH_NO_SUPERTYPE [] [] 3; td WAH_COMP_FUNC WAH_NO_SUPERTYPE [] [] 4;
     td WAH_COMP_FUNC WAH_NO_SUPERTYPE [] [] 5]
    (Some [0; 1; 2; 3; 4; 5]) None [] (FeatureState 0 0).
Definition sample_module : wah_module_env :=
  ModuleEnv sample_types [3] [4; 5]
    [] [TableType WAH_TYPE_FUNCREF WAH_TYPE_I32 0 10] [] [MemoryType WAH_TYPE_I32 1 2]
    [] [GlobalDecl WAH_TYPE_I32 false; GlobalDecl WAH_TYPE_I64 true] [] [4] [] 1 false.

(** A function of type [ft] with the locals [runs], and a constant expression. *)
Definition sample_func (ft : wah_func_type_t) (count : Z) (runs : list wah_local_run_t) : wah_validation_env :=
  ValidationEnv WAH_ANALYZE_FUNC_BODY (Some ft) (zlen (param_types ft) + count) 0 (Some (CodeBody count runs)) sample_module.
Definition sample_expr : wah_validation_env :=
  ValidationEnv WAH_ANALYZE_CONST_EXPR None 0 2 None sample_module.

Definition all_features : feature_state := FeatureState WAH_FEATURE_ALL 0.
Definition start_operands : wah_operands :=
  Operands (TypeStack (replicate (Z.to_nat WAH_MAX_TYPE_STACK_SIZE) 0) 0 0) 0 0.
Definition blank_frame : wah_validation_control_frame_t :=
  ControlFrame WAH_OP_NOP 0 (BlockType [] []) 0 0 false false 0 0.
Definition start_control : wah_control := Control (replicate (Z.to_nat WAH_MAX_CONTROL_DEPTH) blank_frame) 0 false.
Definition start_inits (n : Z) : wah_local_inits_t := LocalInits (replicate (Z.to_nat n) 0) [] 0.

(** The states before them, for an allocator that always succeeds. *)
Definition start_func (n : Z) (bytes : list Z) : astate :=
  AState (VState (Decoder bytes all_features) [] start_operands start_control (Some (start_inits n)) (Some zero_labels)
            (ModuleNotes 0 None) (Instrs [] 0)) capture_init.
Definition start_expr (bytes : list Z) : astate :=
  AState (VState (Decoder bytes all_features) [] start_operands start_control None None (ModuleNotes 0 None) (Instrs [] 0))
    capture_init.

(** ** Theorems *)

Section CheckersOk.
Context (m : wah_module_t).
Lemma type_valid_b_ok t : type_valid_b m t = true -> type_valid m t.
Proof.
  unfold type_valid_b. rewrite !orb_true_iff, !andb_true_iff, bool_decide_eq_true. intros [[H|H]|H]; [by left|right; left; lia|].
  right; right. split; lia.
Qed.
End CheckersOk.

Lemma forallb_Forall {A} (b : A -> bool) (P : A -> Prop) l : (forall x, b x = true -> P x) -> forallb b l = true -> Forall P l.
Proof. intros H Hl. rewrite forallb_forall in Hl. apply Forall_forall. intros x Hx. by apply H, Hl, list_elem_of_In. Qed.
Lemma all_valid_b_ok m ts : all_valid_b m ts = true -> Forall (type_valid m) ts.
Proof. apply forallb_Forall, type_valid_b_ok. Qed.
Lemma func_type_ok_b_ok m ft : func_type_ok_b m ft = true -> func_type_ok m ft.
Proof.
  unfold func_type_ok_b. rewrite !andb_true_iff. intros [[[H1 H2] H3] H4].
  split; try (by apply all_valid_b_ok); by apply Z.leb_le.
Qed.
Lemma type_def_ok_b_ok m td : type_def_ok_b m td = true -> type_def_ok m td.
Proof.
  unfold type_def_ok_b. rewrite !andb_true_iff. intros [[H1 H2] H3].
  split; [by apply all_valid_b_ok|by apply Nat.eqb_eq|..]; intros Hk; rewrite Hk in H3; [by apply Z.eqb_eq|by apply eqb_prop].
Qed.
Lemma addr_type_ok_b_ok t : addr_type_ok_b t = true -> addr_type_ok t.
Proof. unfold addr_type_ok_b, addr_type_ok. rewrite orb_true_iff, !Z.eqb_eq. done. Qed.
Lemma space_ok_b_ok {A} (imps defs : list A) b (P : A -> Prop) : (forall x, b x = true -> P x) ->
  space_ok_b imps defs b = true -> space_ok imps defs P.
Proof.
  intros H. unfold space_ok_b. rewrite !andb_true_iff. intros [[H1 H2] H3].
  split; [lia|]. split; by eapply forallb_Forall.
Qed.

Lemma module_ok_b_ok M : module_ok_b M = true -> module_ok M.
Proof.
  unfold module_ok_b. cbv zeta. rewrite !andb_true_iff. intros [[[[[[[[[[H1 H2] H3] H4] H5] H6] H7] H8] H9] H10] H11].
  split.
  - by apply types_wf_b_correct.
  - by apply Z.eqb_eq.
  - eapply forallb_Forall; [apply func_type_ok_b_ok|done].
  - eapply forallb_Forall; [apply type_def_ok_b_ok|done].
  - eapply space_ok_b_ok; [|exact H5]. intros x; cbv beta; lia.
  - unfold func_space. lia.
  - eapply space_ok_b_ok; [|exact H7]. intros x [Hx1 Hx2]%andb_true_iff. split; [by apply type_valid_b_ok|by apply addr_type_ok_b_ok].
  - eapply space_ok_b_ok; [|exact H8]. intros x. apply addr_type_ok_b_ok.
  - eapply space_ok_b_ok; [|exact H9]. intros x. apply type_valid_b_ok.
  - eapply space_ok_b_ok; [|exact H10]. intros x; cbv beta; lia.
  - eapply forallb_Forall; [apply type_valid_b_ok|done].
Qed.

Lemma sample_module_ok : module_ok sample_module.
Proof. apply module_ok_b_ok. vm_compute. reflexivity. Qed.

(** The locals of a sample are checked one by one. *)
Lemma sample_func_ok ft count runs : func_type_ok_b sample_types ft = true -> 0 <= count ->
  zlen (param_types ft) + count <= WAH_MAX_LOCAL_COUNT ->
  forallb (fun li => match wah_local_type (CodeBody count runs) li with Some t => type_valid_b sample_types t | None => false end)
    (zrange 0 count) = true -> env_ok (sample_func ft count runs).
Proof.
  intros Hft Hc Hmax Hl. split; [apply sample_module_ok| |done]. intros _. exists ft, (CodeBody count runs).
  assert (Hb : body_ok sample_types (CodeBody count runs)); [|by split_and!; [|apply func_type_ok_b_ok| | | |]].
  split; [done|]. intros li Hli. rewrite forallb_forall in Hl.
  specialize (Hl li ltac:(apply list_elem_of_In, elem_of_zrange; simpl in Hli; lia)).
  destruct (wah_local_type _ li) as [t|]; [|done]. exists t. split; [done|by apply type_valid_b_ok].
Qed.
Lemma sample_expr_ok : env_ok sample_expr.
Proof. split; [apply sample_module_ok|done|done]. Qed.

Lemma replicate_nth {A} (n : nat) (x : A) i : 0 <= i < Z.of_nat n -> zget (replicate n x) i = Some x.
Proof. intros Hi. rewrite zget_nat by lia. apply lookup_replicate_2. lia. Qed.

Lemma start_inits_ok n total : 0 <= n < 2 ^ 32 -> total <= n -> inits_ok total (start_inits n).
Proof.
  intros Hn Ht. assert (Hl : zlen (li_inits (start_inits n)) = n) by (unfold zlen; simpl; rewrite length_replicate; lia).
  split; rewrite ?Hl; [done|lia|constructor|constructor| |].
  - intros i Hi. change (li_undo (start_inits n)) with (@nil Z). rewrite decide_False by apply not_elem_of_nil.
    apply replicate_nth. lia.
  - unfold zlen, UINT32_MAX. simpl. lia.
Qed.

Lemma start_func_ok E n bytes : 0 <= n < 2 ^ 32 -> v_total_locals E <= n -> forallb (fun b => (0 <=? b) && (b <? 256)) bytes = true ->
  start_ok E (start_func n bytes).
Proof.
  intros Hn Ht Hb. split; simpl; try done.
  - eapply forallb_Forall; [|exact Hb]. unfold is_byte. intros x; cbv beta; lia.
  - by eexists.
  - by eexists.
  - by apply start_inits_ok.
  - apply zero_labels_ok.
Qed.
Lemma start_expr_ok bytes : forallb (fun b => (0 <=? b) && (b <? 256)) bytes = true -> start_ok sample_expr (start_expr bytes).
Proof.
  intros Hb. split; simpl; try done.
  - eapply forallb_Forall; [|exact Hb]. unfold is_byte. intros x; cbv beta; lia.
  - by eexists.
  - by eexists.
Qed.
