(* ===== verification/AnalyzeOk.v ===== *)
(** * Correctness of the analysis

    [wah_analyze_stream] terminates within its fuel and never leaves its arrays; the
    body it accepts is used up to its last byte, with all blocks closed and the results
    on the stack; and its ref maps are exact. *)

From S2P Require Import Prelude Base Alloc Types Opcodes Bytes Leb128 Decode Subtype ModuleEnv Operands Validate ValidInv ValidRules ValidSafe ValidCtl ValidOpcode Analyze RefMaps AnalyzeInv Samples.
From stdpp Require Import list sets.
#[local] Open Scope Z_scope.
#[local] Open Scope wah_scope.

(** ** Definitions *)

Definition poll_start : poll_vars := PollVars true false UINT32_MAX.

(** The states the loop goes through. *)
Inductive reached (E : wah_validation_env) (t : wah_type_t) (s0 : astate) : poll_vars -> astate -> Prop :=
| reached_start : reached E t s0 poll_start s0
| reached_step p s p' s' : reached E t s0 p s -> cursor (s_dec (a_v s)) <> [] ->
    analyze_step E t p s = (Ok (Some p'), s') -> reached E t s0 p' s'.

(** A map of a stack of the code. *)
Definition small_map (nodes : list wah_ref_node_t) (tops : list Z) (m : Z) (ts : list wah_type_t) : Prop :=
  maps_to nodes tops m ts /\ zlen ts <= WAH_MAX_TYPE_STACK_SIZE.

(** What is known of instruction [k] when the slots and maps are those of [c]: it was
    added by an iteration from a state [s] with [k] instructions. *)
Definition traced (E : wah_validation_env) (t : wah_type_t) (s0 : astate) (c : capture) (k : nat)
    (di : wah_decoded_instr_t) : Prop :=
  exists p s r s', reached E t s0 p s /\ cursor (s_dec (a_v s)) <> [] /\ analyze_step E t p s = (Ok r, s') /\
    length (instrs (s_code (a_v s))) = k /\ (k < length (instrs (s_code (a_v s'))))%nat /\
    (needs_map E di -> small_map (ref_nodes c) (poll_ref_tops c) (di_ref_map di)
       (if is_op (di_opcode di) WAH_OP_LOOP && negb (k =? 0)%nat then live_types (a_v s') else live_types (a_v s))) /\
    (is_op (di_opcode di) WAH_OP_END = false -> polls (k =? 0)%nat di -> is_poll di = true).

(** ** Theorems *)

Lemma capture_init_ok G : ts_lwm G = 0 -> capture_ok G capture_init.
Proof.
  intros HG. assert (Hcap : zlen (A:=Z) [] <= 0 /\ cap_ok 0) by (split; [done|by left]).
  split; rewrite ?HG; [done| |exact Hcap]. split; [done|done|done| | |exact Hcap].
  - lia.
  - intros j Hj. assert (j = 0) as -> by lia. by exists 0.
Qed.

Lemma start_inv E s : start_ok E s ->
  exists G, inv E (cursor (s_dec (a_v s))) G false (a_v s) /\ capture_ok G (a_cap s) /\ no_operands (a_v s).
Proof.
  intros [H1 (data & H2 & Hd) (l & H3 & Hl) H4 H5 H6 H7 H8].
  assert (Hf : frames (s_ctl (a_v s)) = []) by (by rewrite H3).
  exists (TypeStack data 0 0). split; [|split; [rewrite H8; by apply capture_init_ok|split; [by rewrite H2|by rewrite H3]]].
  split; try done.
  - rewrite H2. unfold base. rewrite Hf. simpl. split; simpl; [|done|done|unfold WAH_MAX_TYPE_STACK_SIZE; lia].
    split; simpl; try done; unfold WAH_MAX_TYPE_STACK_SIZE; try lia; try (by constructor). 
  - split; [by rewrite H3|rewrite H3; simpl; unfold WAH_MAX_CONTROL_DEPTH; lia|]. by rewrite Hf.
  - rewrite H7. split; [simpl; unfold zlen; simpl; lia|by left].
Qed.

Lemma start_ainv E s : start_ok E s -> ainv E poll_start s.
Proof.
  intros Hs. destruct (start_inv E s Hs) as (G & Hi & Hc & Hb). pose proof (so_code _ _ Hs) as Hcode.
  split; [by exists G|by rewrite Hcode|by rewrite Hcode|done].
Qed.

(** *** Bodies *)

Section Body.
Context (E : wah_validation_env) (EO : env_ok E) (t : wah_type_t) (FB : is_func_body E = true).

Lemma reached_ainv s0 p s : start_ok E s0 -> reached E t s0 p s -> ainv E p s.
Proof.
  intros Hs. induction 1 as [|p s p' s' _ IH _ Hstep]; [by apply start_ainv|]. destruct s as [v c].
  by destruct (wp_Ok _ _ _ _ _ (wp_analyze_step E EO t FB p v c IH) Hstep) as (H & _).
Qed.

Lemma traced_extends s0 c c' k di : extends c c' -> traced E t s0 c k di -> traced E t s0 c' k di.
Proof.
  intros He (p & s & r & s' & H1 & H2 & H3 & H4 & H5 & H6 & H7). exists p, s, r, s'. split_and!; try done.
  intros Hn. destruct (H6 Hn). split; [|done]. by eapply maps_to_mono.
Qed.

Lemma live_length B G v : inv E B G false v -> zlen (live_types v) <= WAH_MAX_TYPE_STACK_SIZE.
Proof.
  intros Hi. pose proof (i_ops _ _ _ _ _ Hi) as [[H1 _ _ _ _] _ _ _]. unfold live_types, zlen in *.
  destruct (is_unreachable _); simpl; [lia|]. rewrite length_take. lia.
Qed.

(** An instruction just added. *)
Lemma traced_last s0 p s r s' c' di l : reached E t s0 p s -> cursor (s_dec (a_v s)) <> [] ->
  analyze_step E t p s = (Ok r, s') -> l = instrs (s_code (a_v s)) -> instrs (s_code (a_v s')) = l ++ [di] ->
  (needs_map E di -> small_map (ref_nodes c') (poll_ref_tops c') (di_ref_map di)
     (if is_op (di_opcode di) WAH_OP_LOOP && negb (is_nil l) then live_types (a_v s') else live_types (a_v s))) ->
  (is_op (di_opcode di) WAH_OP_END = false -> polls (is_nil l) di -> is_poll di = true) ->
  traced E t s0 c' (length l) di.
Proof.
  intros Hr Hc Hstep -> Hl Hm Hp. exists p, s, r, s'.
  assert (Hz : (length (instrs (s_code (a_v s))) =? 0)%nat = is_nil (instrs (s_code (a_v s))))
    by (by destruct (instrs (s_code (a_v s)))).
  rewrite Hz. split_and!; try done. rewrite Hl, length_app. simpl. lia.
Qed.

Lemma traced_snoc s0 c c' l di : extends c c' -> (forall k d, l !! k = Some d -> traced E t s0 c k d) ->
  traced E t s0 c' (length l) di -> forall k d, (l ++ [di]) !! k = Some d -> traced E t s0 c' k d.
Proof.
  intros He Hl Hd k d Hk. apply lookup_app_Some in Hk as [Hk|[Hge Hk]].
  - eapply traced_extends; [exact He|]. by apply Hl.
  - destruct (k - length l)%nat eqn:Ek; [|done]. injection Hk as <-. by replace k with (length l) by lia.
Qed.

Lemma reached_traced s0 p s : start_ok E s0 -> reached E t s0 p s ->
  forall k di, instrs (s_code (a_v s)) !! k = Some di -> traced E t s0 (a_cap s) k di.
Proof.
  intros Hs Hr. induction Hr as [|p s p' s' Hr IH Hc Hstep]; [by rewrite (so_code _ _ Hs)|].
  pose proof (reached_ainv s0 p s Hs Hr) as Ha. destruct s as [v c].
  destruct (wp_Ok _ _ _ _ _ (wp_analyze_step E EO t FB p v c Ha) Hstep) as (Ha' & [He [Hl|(di & Hl & Hm & Hp)]] & _).
  { rewrite Hl. intros k di Hk. eapply traced_extends; [exact He|]. by apply IH. }
  rewrite Hl. eapply traced_snoc; [exact He|exact IH|]. eapply traced_last; [exact Hr|exact Hc|exact Hstep|done|exact Hl| |].
  - intros Hn. split; [by apply Hm|]. destruct (an_inv _ _ _ Ha) as (G & Hi & _), (an_inv _ _ _ Ha') as (G' & Hi' & _).
    case_match; by eapply live_length.
  - intros _. apply Hp.
Qed.

(** The loop returns within a fuel of more iterations than bytes. *)
Lemma analyze_loop_ok s0 p s fuel : start_ok E s0 -> reached E t s0 p s -> (length (cursor (s_dec (a_v s))) < fuel)%nat ->
  wp (analyze_loop E t fuel p) (fun _ s' => exists p1 s1, reached E t s0 p1 s1 /\ cursor (s_dec (a_v s1)) <> [] /\
    analyze_step E t p1 s1 = (Ok None, s') /\ ended E s1 s') s.
Proof.
  intros Hs. revert p s. induction fuel as [|fuel IH]; intros p s Hr Hf; [lia|]. cbn [analyze_loop]. apply wp_bind, wp_get.
  destruct (cursor (s_dec (a_v s))) as [|b bs] eqn:Ec; [done|]. apply wp_bind. apply wp_intro.
  { pose proof (reached_ainv s0 p s Hs Hr) as Ha. destruct s as [v c]. eapply wp_no_fault, wp_analyze_step; done. }
  intros r s' Hstep. pose proof (reached_ainv s0 p s Hs Hr) as Ha. destruct s as [v c].
  pose proof (wp_Ok _ _ _ _ _ (wp_analyze_step E EO t FB p v c Ha) Hstep) as Hspec.
  destruct r as [p'|].
  - destruct Hspec as (_ & _ & Hlen & _). simpl in Ec, Hf. rewrite Ec in Hlen.
    apply IH; [eapply reached_step; [exact Hr|simpl; congruence|exact Hstep]|]. simpl in *. lia.
  - apply wp_ret. exists p, (AState v c). split; [done|]. split; [simpl in *; congruence|done].
Qed.

Lemma ended_traced s0 p s s' : start_ok E s0 -> reached E t s0 p s -> cursor (s_dec (a_v s)) <> [] ->
  analyze_step E t p s = (Ok None, s') -> ended E s s' ->
  forall k di, instrs (s_code (a_v s')) !! k = Some di -> traced E t s0 (a_cap s') k di.
Proof.
  intros Hs Hr Hc Hstep (He & m & [_ _ _ _ _ _ Hl] & Hm). rewrite Hl.
  eapply traced_snoc; [exact He|by eapply reached_traced|]. eapply traced_last; [exact Hr|exact Hc|exact Hstep|done|exact Hl| |done].
  intros [Hn|[Hn|Hn]]; [done|done|]. split; [by apply Hm|].
  destruct (an_inv _ _ _ (reached_ainv s0 p s Hs Hr)) as (G & Hi & _). by eapply live_length.
Qed.
End Body.

(** *** Constant expressions *)

(** The end of an expression, from [v] to [v']: there was one operand, of the expected
    type, and an [end] is added. *)
Record expr_ended (E : wah_validation_env) (t : wah_type_t) (v v' : vstate) : Prop := {
  ee_operand : exists u, take (Z.to_nat (ts_sp (type_stack (s_ops v)))) (ts_data (type_stack (s_ops v))) = [u] /\
    matches (env_types (v_module E)) u t;
  ee_inv : exists B G, inv E B G false v';
  ee_cursor : cursor (s_dec v') `suffix_of` cursor (s_dec v);
  ee_code : instrs (s_code v') = instrs (s_code v) ++ [DecodedInstr (wah_op_value WAH_OP_END) 0 0 imm_none] }.

(** Between two instructions of an expression. *)
Definition einv (E : wah_validation_env) (v : vstate) : Prop := exists G, inv E (cursor (s_dec v)) G false v.

Section Expr.
Context (E : wah_validation_env) (EO : env_ok E) (t : wah_type_t) (FB : is_func_body E = false).
Notation TM := (env_types (v_module E)).
Context (Ht : type_valid TM t).

Lemma expr_mode : v_mode E = WAH_ANALYZE_CONST_EXPR.
Proof.
  destruct (v_mode E) eqn:Em; [|done]. destruct (eo_body E EO Em) as (ft & body & _ & _ & Hb & _).
  unfold is_func_body in FB. by rewrite Hb in FB.
Qed.

Lemma wp_analyze_end_expr B G v m opcode Q : inv E B G false v -> (is_op opcode WAH_OP_END = false -> Q false v) ->
  (forall v', inv E B G false v' -> expr_ended E t v v' -> Q true v') ->
  wp (analyze_end E t opcode m) Q v.
Proof.
  intros Hi Hf HQ. unfold analyze_end. apply wp_if; intros He; [by apply wp_ret, Hf, negb_true_iff|]. rewrite FB.
  apply wp_bind, wp_get, wp_bind, wp_ensure. intros Hd. apply Z.eqb_eq in Hd.
  pose proof (i_ops _ _ _ _ _ Hi) as [[S1 S2 S3 S4 S5] O2 O3 O4].
  destruct (ts_data (type_stack (s_ops v))) as [|u data] eqn:Edata; [unfold zlen in S1; simpl in S1; done|].
  assert (Hop : take (Z.to_nat (ts_sp (type_stack (s_ops v)))) (ts_data (type_stack (s_ops v))) = [u]) by (by rewrite <- O2, Hd, Edata).
  assert (Hu : operand_ok TM u). { rewrite <- O2, Hd in S4. simpl in S4. by apply Forall_cons in S4 as [? _]. }
  apply wp_bind. eapply (wp_opt _ u); [done|]. apply wp_bind.
  assert (Hgo : forall b, (b = true -> matches TM u t) -> wp (stm_ensure b WAH_ERROR_VALIDATION_FAILED ;;; wah_analyzed_append_end ;;; stm_ret true) Q v).
  { intros b Hb'. apply wp_bind, wp_ensure. intros ->. apply wp_bind. eapply wp_append_end; [exact Hi|].
    intros a cap v1 Hi1. apply wp_ret, HQ; [exact Hi1|]. split; try done; [by exists u; auto|by exists B, G]. }
  apply wp_if; intros Hbot.
  - apply wp_ret, Hgo. intros _. left. by apply Z.eqb_eq.
  - destruct (wah_type_is_subtype_correct TM (types_ok E EO) u t Hu (or_introl Ht)) as (r & Hr & Hiff).
    unfold is_subtype. eapply wp_opt; [exact Hr|]. apply Hgo. intros ->. right. by apply Hiff.
Qed.

(** One iteration: an instruction, of which [R] is shown, or the end. *)
Lemma wp_expr_step (R : vstate -> vstate -> Prop) p v c :
  (forall opcode d G, 0 <= opcode < WAH_FE -> inv E (cursor d) G false (set_dec d v) ->
     wp (wah_validate_opcode E opcode) (fun _ v' => inv E (cursor d) G false v' /\ R (set_dec d v) v') (set_dec d v)) ->
  einv E v ->
  wp (analyze_step E t p) (fun r s' => einv E (a_v s') /\
    match r with
    | Some p' => p' = p /\ (length (cursor (s_dec (a_v s'))) < length (cursor (s_dec v)))%nat /\
        cursor (s_dec (a_v s')) `suffix_of` cursor (s_dec v) /\ exists d, R (set_dec d v) (a_v s')
    | None => expr_ended E t v (a_v s')
    end) (AState v c).
Proof.
  intros HR [G Hi]. unfold analyze_step. apply wp_bind. eapply wp_next_opcode; [exact Hi|]. intros opcode d Hop Hi1 Hlen Hsuf.
  apply wp_bind. unfold poll_before. rewrite FB. apply wp_ret. apply wp_bind, wp_on_v.
  eapply wp_analyze_end_expr; [exact Hi1| |].
  - intros _. apply wp_bind, wp_get, wp_bind, wp_on_v. eapply wp_mono; [by apply (HR opcode d G)|]. intros [] v2 [Hi3 Hr].
    apply wp_bind. unfold poll_after. rewrite FB. apply wp_ret, wp_ret. pose proof Hi3 as [[_ H4] _ _ _ _ _ _].
    split; [exists G; by eapply inv_rebase|]. split; [done|]. split; [apply suffix_length in H4; simpl; lia|].
    split; [by etrans|]. by exists d.
  - intros v' Hi' [H1 H2 H3 H4]. apply wp_ret. split; [exists G; by eapply inv_rebase|]. split; [exact H1|exact H2|by etrans|exact H4].
Qed.

Lemma analyze_step_expr p v c : einv E v ->
  wp (analyze_step E t p) (fun r s' => einv E (a_v s') /\
    match r with
    | Some p' => p' = p /\ (length (cursor (s_dec (a_v s'))) < length (cursor (s_dec v)))%nat
    | None => expr_ended E t v (a_v s')
    end) (AState v c).
Proof.
  intros Hi. eapply wp_mono; [apply (wp_expr_step (fun _ _ => True)); [|exact Hi]|].
  - intros opcode d G Hop Hi1. eapply wp_mono; [by apply (wah_validate_opcode_wp E EO (cursor d) G)|]. by intros _ v' [H _].
  - intros [p'|] s' [He H]; naive_solver.
Qed.

Lemma reached_einv s0 p s : start_ok E s0 -> reached E t s0 p s -> einv E (a_v s).
Proof.
  intros Hs. induction 1 as [|p s p' s' _ IH _ Hstep]; [by destruct (start_inv E s0 Hs) as (G & Hi & _); exists G|].
  destruct s as [v c]. by destruct (wp_Ok _ _ _ _ _ (analyze_step_expr p v c IH) Hstep) as [H _].
Qed.

Lemma analyze_loop_expr_ok s0 p s fuel : start_ok E s0 -> reached E t s0 p s -> (length (cursor (s_dec (a_v s))) < fuel)%nat ->
  wp (analyze_loop E t fuel p) (fun _ s' => exists p1 s1, reached E t s0 p1 s1 /\ cursor (s_dec (a_v s1)) <> [] /\
    analyze_step E t p1 s1 = (Ok None, s') /\ expr_ended E t (a_v s1) (a_v s')) s.
Proof.
  intros Hs. revert p s. induction fuel as [|fuel IH]; intros p s Hr Hf; [lia|]. cbn [analyze_loop]. apply wp_bind, wp_get.
  destruct (cursor (s_dec (a_v s))) as [|b bs] eqn:Ec; [done|]. apply wp_bind.
  pose proof (reached_einv s0 p s Hs Hr) as Hi. destruct s as [v c]. pose proof (analyze_step_expr p v c Hi) as Hwp.
  apply wp_intro; [by eapply wp_no_fault|]. intros r s' Hstep. destruct (wp_Ok _ _ _ _ _ Hwp Hstep) as [_ Hspec].
  destruct r as [p'|].
  - destruct Hspec as [_ Hlen]. simpl in Ec, Hf. rewrite Ec in Hlen.
    apply IH; [eapply reached_step; [exact Hr|simpl; congruence|exact Hstep]|]. simpl in *. lia.
  - apply wp_ret. exists p, (AState v c). split; [done|]. split; [simpl in *; congruence|done].
Qed.
End Expr.

(** *** The analysis *)

Definition max_depth_ok (ac : wah_analyzed_code_t) : Prop := ac_max_stack_depth ac <= 2 * WAH_MAX_TYPE_STACK_SIZE.

(** The last iteration of an accepted run from [s]: it starts in a state [s1] that the run goes through and
    ends the body or the expression. *)
Definition finished (E : wah_validation_env) (t : wah_type_t) (s s' : astate) : Prop :=
  exists p s1, reached E t s p s1 /\ cursor (s_dec (a_v s1)) <> [] /\ analyze_step E t p s1 = (Ok None, s') /\
    if is_func_body E then exists m, body_ended E (a_v s1) m (a_v s') else expr_ended E t (a_v s1) (a_v s').

(** What holds when the code is accepted. *)
Definition accepted (E : wah_validation_env) (t : wah_type_t) (s : astate) (ac : wah_analyzed_code_t) (s' : astate) : Prop :=
  (exists B G, inv E B G false (a_v s')) /\ ac_max_stack_depth ac = max_stack_depth (s_ops (a_v s')) /\
  ac_instrs ac = instrs (s_code (a_v s')) /\ finished E t s s'.

Lemma wah_analyze_stream_ok E t s : env_ok E -> (is_func_body E = false -> type_valid (env_types (v_module E)) t) ->
  start_ok E s ->
  match wah_analyze_stream E t s with
  | (Ok ac, s') => accepted E t s ac s'
  | (Err _, s') => control_sp (s_ctl (a_v s')) = 0
  | (Fault, _) => False
  end.
Proof.
  intros EO Ht Hs. unfold wah_analyze_stream. cbv zeta. set (body := stm_bind _ _).
  enough (Hwp : wp body (accepted E t s) s) by (unfold wp in Hwp; by destruct (body s) as [[ac|e|] s']).
  unfold body, accepted, finished. apply wp_bind. destruct (is_func_body E) eqn:FB.
  - eapply wp_mono; [by apply (analyze_loop_ok E EO t FB s); [|constructor|lia]|].
    intros [] s' (p1 & s1 & Hr & Hc & Hstep & (_ & m & Hb & _)).
    apply wp_bind, wp_get, wp_bind, wp_ensure. intros _. apply wp_ret. split_and!; [apply Hb|done..|].
    exists p1, s1. split_and!; try done. by exists m.
  - eapply wp_mono; [by apply (analyze_loop_expr_ok E EO t FB (Ht eq_refl) s); [|constructor|lia]|].
    intros [] s' (p1 & s1 & Hr & Hc & Hstep & He). apply wp_bind, wp_get, wp_bind, wp_ensure. intros _. apply wp_ret.
    split_and!; [apply He|done..|]. by exists p1, s1.
Qed.

Lemma inv_max_depth E B G v : inv E B G false v -> 0 <= max_stack_depth (s_ops v) <= 2 * WAH_MAX_TYPE_STACK_SIZE.
Proof. intros Hi. pose proof (i_ops _ _ _ _ _ Hi) as [[_ H _ _ _] H1 _ H2]. lia. Qed.

(** C3. [wah_analyze_stream] always returns on the initial states of a well-formed
    module: it never runs out of fuel, reads or writes outside an array, or fails its
    assertion of one instruction per opcode.  An accepted run comes to a state [s1]
    from which its last iteration adds an [end]: for a body, outside of all its blocks, with
    operands that are exactly the results of its function, each of a subtype (some may be
    left out in unreachable code), and no byte is left; for a constant expression, with
    exactly one operand, of a subtype of the expected type.  At most twice the size of
    the type stack is ever used.  After an error the control stack is empty. *)
Theorem wah_analyze_stream_safe E t s : env_ok E -> type_valid (env_types (v_module E)) t -> start_ok E s ->
  match wah_analyze_stream E t s with
  | (Ok ac, s') => max_depth_ok ac /\
      exists p s1 m, reached E t s p s1 /\ cursor (s_dec (a_v s1)) <> [] /\ analyze_step E t p s1 = (Ok None, s') /\
        ac_instrs ac = instrs (s_code (a_v s1)) ++ [DecodedInstr (wah_op_value WAH_OP_END) 0 m imm_none] /\
        if is_func_body E then
          (exists ft, v_func_type E = Some ft /\ popn (env_types (v_module E)) (is_unreachable (s_ctl (a_v s1)))
             (operands (a_v s1)) (reverse (result_types ft)) []) /\
          control_sp (s_ctl (a_v s1)) = 0 /\ cursor (s_dec (a_v s')) = [] /\
          control_sp (s_ctl (a_v s')) = 0 /\ current_stack_depth (s_ops (a_v s')) = 0
        else
          exists u, take (Z.to_nat (ts_sp (type_stack (s_ops (a_v s1))))) (ts_data (type_stack (s_ops (a_v s1)))) = [u] /\
            matches (env_types (v_module E)) u t
  | (Err _, s') => control_sp (s_ctl (a_v s')) = 0
  | (Fault, _) => False
  end.
Proof.
  intros EO Ht Hs. pose proof (wah_analyze_stream_ok E t s EO (fun _ => Ht) Hs) as H.
  destruct (wah_analyze_stream E t s) as [[ac|e|] s']; [|done|done].
  destruct H as ((B & G & Hi) & Hm & Hl & p & s1 & Hr & Hc & Hstep & Hend).
  split; [unfold max_depth_ok; apply inv_max_depth in Hi; lia|]. rewrite Hl. destruct (is_func_body E).
  - destruct Hend as (m & [H1 H2 H3 H4 H5 _ H7]). by exists p, s1, m.
  - destruct Hend as [H1 _ _ H4]. by exists p, s1, 0.
Qed.

(** C4. The ref maps of an accepted body are exact.  Instruction [k] was emitted by one
    iteration of the loop, from a state [v] to a state [v'] that the analysis goes
    through.  If it is a poll point, a bulk operation that can be resumed, or any
    instruction when fuel is metered, the walk of its ref map gives exactly the
    positions of the references of the operand stack, topmost first, and
    [wah_check_ref_map] accepts it; the stack is the one before the instruction, and for
    a loop the one in the loop.  The first instruction, calls and loops are poll points. *)
Theorem wah_analyze_stream_ref_maps E t s ac s' : env_ok E -> is_func_body E = true -> start_ok E s ->
  wah_analyze_stream E t s = (Ok ac, s') ->
  forall k di, ac_instrs ac !! k = Some di ->
  exists p v r v', reached E t s p v /\ analyze_step E t p v = (Ok r, v') /\
    length (instrs (s_code (a_v v))) = k /\ (k < length (instrs (s_code (a_v v'))))%nat /\
    let stk := if is_op (di_opcode di) WAH_OP_LOOP && negb (k =? 0)%nat then live_types (a_v v') else live_types (a_v v) in
    (needs_map E di ->
       (exists top, zget (ac_poll_ref_tops ac) (di_ref_map di) = Some top /\
          forall fuel, (Z.to_nat top <= fuel)%nat -> map_slots fuel (ac_ref_nodes ac) top = Some (ref_slots stk)) /\
       wah_check_ref_map (ac_poll_ref_tops ac) (ac_ref_nodes ac) (di_ref_map di) stk = true) /\
    (is_op (di_opcode di) WAH_OP_END = false -> polls (k =? 0)%nat di -> is_poll di = true).
Proof.
  intros EO FB Hs Hrun. unfold wah_analyze_stream in Hrun. cbv zeta in Hrun. rewrite FB in Hrun.
  pose proof (analyze_loop_ok E EO t FB s poll_start s (S (length (cursor (s_dec (a_v s))))) Hs ltac:(constructor) ltac:(lia)) as Hw.
  change (PollVars true false UINT32_MAX) with poll_start in Hrun. unfold wp in Hw. unfold stm_bind at 1 in Hrun.
  destruct (analyze_loop E t _ poll_start s) as [[[]|e|] s1]; [|done|done].
  destruct Hw as (p1 & v1 & Hr & Hc & Hstep & Hend).
  assert (ac_instrs ac = instrs (s_code (a_v s1)) /\ ac_poll_ref_tops ac = poll_ref_tops (a_cap s1) /\
    ac_ref_nodes ac = ref_nodes (a_cap s1)) as (-> & -> & ->).
  { unfold stm_bind, stm_get, stm_ensure, stm_ret, stm_err in Hrun. simpl in Hrun. by destruct (_ =? 0); simplify_eq. }
  intros k di Hk. destruct (ended_traced E EO t FB s p1 v1 s1 Hs Hr Hc Hstep Hend k di Hk)
    as (p & v & r & v' & H1 & H2 & H3 & H4 & H5 & H6 & H7). exists p, v, r, v'. split_and!; try done.
  cbv zeta. split; [|done]. intros Hn. destruct (H6 Hn) as [(top & Htop & Hpath) Hlen]. split.
  - exists top. split; [done|]. intros fuel Hf. by apply path_map_slots.
  - apply wah_check_ref_map_ok; [by exists top|]. unfold WAH_MAX_TYPE_STACK_SIZE in Hlen. lia.
Qed.

(** *** Witnesses *)

(** [local.get 0; call 0; drop; end] in a function with an [externref] parameter. *)
Definition sample_body : wah_validation_env := sample_func (FuncType [WAH_TYPE_EXTERNREF] []) 0 [].
Definition sample_body_start : astate := start_func 1 [0x20; 0; 0x10; 0; 0x1A; 0x0B].
(** [i32.const 5; i32.const 7; i32.add; end]. *)
Definition sample_expr_start : astate := start_expr [0x41; 5; 0x41; 7; 0x6A; 0x0B].

Lemma sample_body_ok : env_ok sample_body.
Proof. apply sample_func_ok; [vm_compute; reflexivity|lia|vm_compute; congruence|vm_compute; reflexivity]. Qed.
Lemma sample_body_start_ok : start_ok sample_body sample_body_start.
Proof. apply start_func_ok; [lia|vm_compute; congruence|vm_compute; reflexivity]. Qed.

Lemma wah_analyze_stream_safe_witness :
  (exists ac s' p s1, wah_analyze_stream sample_body WAH_TYPE_I32 sample_body_start = (Ok ac, s') /\
     reached sample_body WAH_TYPE_I32 sample_body_start p s1 /\ analyze_step sample_body WAH_TYPE_I32 p s1 = (Ok None, s') /\
     control_sp (s_ctl (a_v s1)) = 0 /\ cursor (s_dec (a_v s')) = []) /\
  (exists ac s' p s1 u, wah_analyze_stream sample_expr WAH_TYPE_I32 sample_expr_start = (Ok ac, s') /\
     reached sample_expr WAH_TYPE_I32 sample_expr_start p s1 /\ analyze_step sample_expr WAH_TYPE_I32 p s1 = (Ok None, s') /\
     take (Z.to_nat (ts_sp (type_stack (s_ops (a_v s1))))) (ts_data (type_stack (s_ops (a_v s1)))) = [u] /\
     matches (env_types sample_module) u WAH_TYPE_I32).
Proof.
  split.
  - pose proof (wah_analyze_stream_safe sample_body WAH_TYPE_I32 sample_body_start sample_body_ok (tv_i32 _) sample_body_start_ok) as H.
    assert (Hok : match wah_analyze_stream sample_body WAH_TYPE_I32 sample_body_start with (Ok _, _) => True | _ => False end)
      by (vm_compute; exact I).
    destruct (wah_analyze_stream sample_body WAH_TYPE_I32 sample_body_start) as [[ac|e|] s']; [|done|done].
    destruct H as (_ & p & s1 & m & H1 & _ & H2 & _ & _ & H3 & H4 & _). exists ac, s', p, s1. split; [reflexivity|]. by split_and!.
  - pose proof (wah_analyze_stream_safe sample_expr WAH_TYPE_I32 sample_expr_start sample_expr_ok (tv_i32 _)
      (start_expr_ok [0x41; 5; 0x41; 7; 0x6A; 0x0B] ltac:(vm_compute; reflexivity))) as H.
    assert (Hok : match wah_analyze_stream sample_expr WAH_TYPE_I32 sample_expr_start with (Ok _, _) => True | _ => False end)
      by (vm_compute; exact I).
    destruct (wah_analyze_stream sample_expr WAH_TYPE_I32 sample_expr_start) as [[ac|e|] s']; [|done|done].
    destruct H as (_ & p & s1 & m & H1 & _ & H2 & _ & u & H3 & H4). exists ac, s', p, s1, u. split; [reflexivity|]. by split_and!.
Defined.

Lemma wah_analyze_stream_ref_maps_witness :
  exists ac s' p v, wah_analyze_stream sample_body WAH_TYPE_I32 sample_body_start = (Ok ac, s') /\
    reached sample_body WAH_TYPE_I32 sample_body_start p v /\ length (instrs (s_code (a_v v))) = 1%nat /\
    wah_check_ref_map (ac_poll_ref_tops ac) (ac_ref_nodes ac) 1 (live_types (a_v v)) = true.
Proof.
  pose proof (wah_analyze_stream_ref_maps sample_body WAH_TYPE_I32 sample_body_start) as H.
  assert (Hok : match wah_analyze_stream sample_body WAH_TYPE_I32 sample_body_start with
    | (Ok ac, _) => ac_instrs ac !! 1%nat = Some (DecodedInstr 16 1 1 (imm_u32 0)) | _ => False end) by (vm_compute; reflexivity).
  destruct (wah_analyze_stream sample_body WAH_TYPE_I32 sample_body_start) as [[ac|e|] s']; [|done|done].
  destruct (H ac s' sample_body_ok eq_refl sample_body_start_ok eq_refl 1%nat _ Hok)
    as (p & v & r & v' & H1 & _ & H3 & _ & H5 & _).
  exists ac, s', p, v. split; [reflexivity|]. split; [exact H1|]. split; [exact H3|]. apply H5. left. reflexivity.
Defined.
