(* ===== verification/ValidTyping.v ===== *)
(** * Typing of instructions

    The numeric and vector instructions without immediates, against the types that the
    specification of WebAssembly gives them: validation is sound and, but for its limits,
    complete. *)

From S2P Require Import Prelude Base Alloc Types Opcodes Bytes Leb128 Decode Subtype ModuleEnv Operands Validate ValidInv ValidRules ValidSafe ValidCtl ValidOpcode Analyze RefMaps AnalyzeInv Samples AnalyzeOk.
From stdpp Require Import list sets.
#[local] Open Scope Z_scope.
#[local] Open Scope wah_scope.

(** ** Definitions *)

(** The limits of the validator: the operand stack, and the code that is kept. *)
Definition limit_error (e : wah_error_t) : Prop := e = WAH_ERROR_TOO_LARGE \/ e = WAH_ERROR_OUT_OF_MEMORY.

(** *** The types of the specification

    The kinds of instructions of the specification, each with what it takes, from the
    first operand to the last, and what it gives. *)
Section Signatures.
Notation i32 := WAH_TYPE_I32.
Notation i64 := WAH_TYPE_I64.
Notation f32 := WAH_TYPE_F32.
Notation f64 := WAH_TYPE_F64.
Notation v128 := WAH_TYPE_V128.
Definition sig := option (list wah_type_t * wah_type_t).
Definition unop (t : wah_type_t) : sig := Some ([t], t).
Definition binop (t : wah_type_t) : sig := Some ([t; t], t).
Definition testop (t : wah_type_t) : sig := Some ([t], i32).
Definition relop (t : wah_type_t) : sig := Some ([t; t], i32).
Definition cvtop (t1 t2 : wah_type_t) : sig := Some ([t1], t2).
Definition splat (t : wah_type_t) : sig := Some ([t], v128).
Definition vunop : sig := Some ([v128], v128).
Definition vbinop : sig := Some ([v128; v128], v128).
Definition vternop : sig := Some ([v128; v128; v128], v128).
Definition vtestop : sig := Some ([v128], i32).
Definition vshift : sig := Some ([v128; i32], v128).

Definition instr_sig (o : wah_op) : sig :=
  match o with
  | WAH_OP_I32_EQZ => testop i32
  | WAH_OP_I64_EQZ => testop i64
  | WAH_OP_I32_EQ | WAH_OP_I32_NE | WAH_OP_I32_LT_S | WAH_OP_I32_LT_U | WAH_OP_I32_GT_S | WAH_OP_I32_GT_U |
    WAH_OP_I32_LE_S | WAH_OP_I32_LE_U | WAH_OP_I32_GE_S | WAH_OP_I32_GE_U => relop i32
  | WAH_OP_I64_EQ | WAH_OP_I64_NE | WAH_OP_I64_LT_S | WAH_OP_I64_LT_U | WAH_OP_I64_GT_S | WAH_OP_I64_GT_U |
    WAH_OP_I64_LE_S | WAH_OP_I64_LE_U | WAH_OP_I64_GE_S | WAH_OP_I64_GE_U => relop i64
  | WAH_OP_F32_EQ | WAH_OP_F32_NE | WAH_OP_F32_LT | WAH_OP_F32_GT | WAH_OP_F32_LE | WAH_OP_F32_GE => relop f32
  | WAH_OP_F64_EQ | WAH_OP_F64_NE | WAH_OP_F64_LT | WAH_OP_F64_GT | WAH_OP_F64_LE | WAH_OP_F64_GE => relop f64
  | WAH_OP_I32_CLZ | WAH_OP_I32_CTZ | WAH_OP_I32_POPCNT | WAH_OP_I32_EXTEND8_S | WAH_OP_I32_EXTEND16_S => unop i32
  | WAH_OP_I64_CLZ | WAH_OP_I64_CTZ | WAH_OP_I64_POPCNT | WAH_OP_I64_EXTEND8_S | WAH_OP_I64_EXTEND16_S |
    WAH_OP_I64_EXTEND32_S => unop i64
  | WAH_OP_F32_ABS | WAH_OP_F32_NEG | WAH_OP_F32_CEIL | WAH_OP_F32_FLOOR | WAH_OP_F32_TRUNC | WAH_OP_F32_NEAREST |
    WAH_OP_F32_SQRT => unop f32
  | WAH_OP_F64_ABS | WAH_OP_F64_NEG | WAH_OP_F64_CEIL | WAH_OP_F64_FLOOR | WAH_OP_F64_TRUNC | WAH_OP_F64_NEAREST |
    WAH_OP_F64_SQRT => unop f64
  | WAH_OP_I32_ADD | WAH_OP_I32_SUB | WAH_OP_I32_MUL | WAH_OP_I32_DIV_S | WAH_OP_I32_DIV_U | WAH_OP_I32_REM_S |
    WAH_OP_I32_REM_U | WAH_OP_I32_AND | WAH_OP_I32_OR | WAH_OP_I32_XOR | WAH_OP_I32_SHL | WAH_OP_I32_SHR_S |
    WAH_OP_I32_SHR_U | WAH_OP_I32_ROTL | WAH_OP_I32_ROTR => binop i32
  | WAH_OP_I64_ADD | WAH_OP_I64_SUB | WAH_OP_I64_MUL | WAH_OP_I64_DIV_S | WAH_OP_I64_DIV_U | WAH_OP_I64_REM_S |
    WAH_OP_I64_REM_U | WAH_OP_I64_AND | WAH_OP_I64_OR | WAH_OP_I64_XOR | WAH_OP_I64_SHL | WAH_OP_I64_SHR_S |
    WAH_OP_I64_SHR_U | WAH_OP_I64_ROTL | WAH_OP_I64_ROTR => binop i64
  | WAH_OP_F32_ADD | WAH_OP_F32_SUB | WAH_OP_F32_MUL | WAH_OP_F32_DIV | WAH_OP_F32_MIN | WAH_OP_F32_MAX |
    WAH_OP_F32_COPYSIGN => binop f32
  | WAH_OP_F64_ADD | WAH_OP_F64_SUB | WAH_OP_F64_MUL | WAH_OP_F64_DIV | WAH_OP_F64_MIN | WAH_OP_F64_MAX |
    WAH_OP_F64_COPYSIGN => binop f64
  | WAH_OP_I32_WRAP_I64 => cvtop i64 i32
  | WAH_OP_I32_TRUNC_F32_S | WAH_OP_I32_TRUNC_F32_U | WAH_OP_I32_REINTERPRET_F32 | WAH_OP_I32_TRUNC_SAT_F32_S |
    WAH_OP_I32_TRUNC_SAT_F32_U => cvtop f32 i32
  | WAH_OP_I32_TRUNC_F64_S | WAH_OP_I32_TRUNC_F64_U | WAH_OP_I32_TRUNC_SAT_F64_S |
    WAH_OP_I32_TRUNC_SAT_F64_U => cvtop f64 i32
  | WAH_OP_I64_EXTEND_I32_S | WAH_OP_I64_EXTEND_I32_U => cvtop i32 i64
  | WAH_OP_I64_TRUNC_F32_S | WAH_OP_I64_TRUNC_F32_U | WAH_OP_I64_TRUNC_SAT_F32_S |
    WAH_OP_I64_TRUNC_SAT_F32_U => cvtop f32 i64
  | WAH_OP_I64_TRUNC_F64_S | WAH_OP_I64_TRUNC_F64_U | WAH_OP_I64_REINTERPRET_F64 | WAH_OP_I64_TRUNC_SAT_F64_S |
    WAH_OP_I64_TRUNC_SAT_F64_U => cvtop f64 i64
  | WAH_OP_F32_CONVERT_I32_S | WAH_OP_F32_CONVERT_I32_U | WAH_OP_F32_REINTERPRET_I32 => cvtop i32 f32
  | WAH_OP_F32_CONVERT_I64_S | WAH_OP_F32_CONVERT_I64_U => cvtop i64 f32
  | WAH_OP_F32_DEMOTE_F64 => cvtop f64 f32
  | WAH_OP_F64_CONVERT_I32_S | WAH_OP_F64_CONVERT_I32_U => cvtop i32 f64
  | WAH_OP_F64_CONVERT_I64_S | WAH_OP_F64_CONVERT_I64_U | WAH_OP_F64_REINTERPRET_I64 => cvtop i64 f64
  | WAH_OP_F64_PROMOTE_F32 => cvtop f32 f64
  | WAH_OP_I8X16_SPLAT | WAH_OP_I16X8_SPLAT | WAH_OP_I32X4_SPLAT => splat i32
  | WAH_OP_I64X2_SPLAT => splat i64
  | WAH_OP_F32X4_SPLAT => splat f32
  | WAH_OP_F64X2_SPLAT => splat f64
  | WAH_OP_V128_ANY_TRUE | WAH_OP_I8X16_ALL_TRUE | WAH_OP_I8X16_BITMASK | WAH_OP_I16X8_ALL_TRUE |
    WAH_OP_I16X8_BITMASK | WAH_OP_I32X4_ALL_TRUE | WAH_OP_I32X4_BITMASK | WAH_OP_I64X2_ALL_TRUE |
    WAH_OP_I64X2_BITMASK => vtestop
  | WAH_OP_I8X16_SHL | WAH_OP_I8X16_SHR_S | WAH_OP_I8X16_SHR_U | WAH_OP_I16X8_SHL | WAH_OP_I16X8_SHR_S |
    WAH_OP_I16X8_SHR_U | WAH_OP_I32X4_SHL | WAH_OP_I32X4_SHR_S | WAH_OP_I32X4_SHR_U | WAH_OP_I64X2_SHL |
    WAH_OP_I64X2_SHR_S | WAH_OP_I64X2_SHR_U => vshift
  | WAH_OP_V128_NOT | WAH_OP_I8X16_ABS | WAH_OP_I8X16_NEG | WAH_OP_I8X16_POPCNT |
    WAH_OP_I16X8_EXTADD_PAIRWISE_I8X16_S | WAH_OP_I16X8_EXTADD_PAIRWISE_I8X16_U | WAH_OP_I16X8_ABS |
    WAH_OP_I16X8_NEG | WAH_OP_I16X8_EXTEND_LOW_I8X16_S | WAH_OP_I16X8_EXTEND_HIGH_I8X16_S |
    WAH_OP_I16X8_EXTEND_LOW_I8X16_U | WAH_OP_I16X8_EXTEND_HIGH_I8X16_U | WAH_OP_I32X4_EXTADD_PAIRWISE_I16X8_S |
    WAH_OP_I32X4_EXTADD_PAIRWISE_I16X8_U | WAH_OP_I32X4_ABS | WAH_OP_I32X4_NEG | WAH_OP_I32X4_EXTEND_LOW_I16X8_S |
    WAH_OP_I32X4_EXTEND_HIGH_I16X8_S | WAH_OP_I32X4_EXTEND_LOW_I16X8_U | WAH_OP_I32X4_EXTEND_HIGH_I16X8_U |
    WAH_OP_I64X2_ABS | WAH_OP_I64X2_NEG | WAH_OP_I64X2_EXTEND_LOW_I32X4_S | WAH_OP_I64X2_EXTEND_HIGH_I32X4_S |
    WAH_OP_I64X2_EXTEND_LOW_I32X4_U | WAH_OP_I64X2_EXTEND_HIGH_I32X4_U | WAH_OP_F32X4_CEIL | WAH_OP_F32X4_FLOOR |
    WAH_OP_F32X4_TRUNC | WAH_OP_F32X4_NEAREST | WAH_OP_F32X4_ABS | WAH_OP_F32X4_NEG | WAH_OP_F32X4_SQRT |
    WAH_OP_F64X2_CEIL | WAH_OP_F64X2_FLOOR | WAH_OP_F64X2_TRUNC | WAH_OP_F64X2_NEAREST | WAH_OP_F64X2_ABS |
    WAH_OP_F64X2_NEG | WAH_OP_F64X2_SQRT | WAH_OP_I32X4_TRUNC_SAT_F32X4_S | WAH_OP_I32X4_TRUNC_SAT_F32X4_U |
    WAH_OP_F32X4_CONVERT_I32X4_S | WAH_OP_F32X4_CONVERT_I32X4_U | WAH_OP_I32X4_TRUNC_SAT_F64X2_S_ZERO |
    WAH_OP_I32X4_TRUNC_SAT_F64X2_U_ZERO | WAH_OP_F64X2_CONVERT_LOW_I32X4_S | WAH_OP_F64X2_CONVERT_LOW_I32X4_U |
    WAH_OP_F32X4_DEMOTE_F64X2_ZERO | WAH_OP_F64X2_PROMOTE_LOW_F32X4 | WAH_OP_I32X4_RELAXED_TRUNC_F32X4_S |
    WAH_OP_I32X4_RELAXED_TRUNC_F32X4_U | WAH_OP_I32X4_RELAXED_TRUNC_F64X2_S |
    WAH_OP_I32X4_RELAXED_TRUNC_F64X2_U => vunop
  | WAH_OP_I8X16_SWIZZLE | WAH_OP_V128_AND | WAH_OP_V128_ANDNOT | WAH_OP_V128_OR | WAH_OP_V128_XOR |
    WAH_OP_I8X16_NARROW_I16X8_S | WAH_OP_I8X16_NARROW_I16X8_U | WAH_OP_I8X16_ADD | WAH_OP_I8X16_ADD_SAT_S |
    WAH_OP_I8X16_ADD_SAT_U | WAH_OP_I8X16_SUB | WAH_OP_I8X16_SUB_SAT_S | WAH_OP_I8X16_SUB_SAT_U |
    WAH_OP_I8X16_MIN_S | WAH_OP_I8X16_MIN_U | WAH_OP_I8X16_MAX_S | WAH_OP_I8X16_MAX_U | WAH_OP_I8X16_AVGR_U |
    WAH_OP_I16X8_Q15MULR_SAT_S | WAH_OP_I16X8_NARROW_I32X4_S | WAH_OP_I16X8_NARROW_I32X4_U | WAH_OP_I16X8_ADD |
    WAH_OP_I16X8_ADD_SAT_S | WAH_OP_I16X8_ADD_SAT_U | WAH_OP_I16X8_SUB | WAH_OP_I16X8_SUB_SAT_S |
    WAH_OP_I16X8_SUB_SAT_U | WAH_OP_I16X8_MUL | WAH_OP_I16X8_MIN_S | WAH_OP_I16X8_MIN_U | WAH_OP_I16X8_MAX_S |
    WAH_OP_I16X8_MAX_U | WAH_OP_I16X8_AVGR_U | WAH_OP_I16X8_EXTMUL_LOW_I8X16_S | WAH_OP_I16X8_EXTMUL_HIGH_I8X16_S |
    WAH_OP_I16X8_EXTMUL_LOW_I8X16_U | WAH_OP_I16X8_EXTMUL_HIGH_I8X16_U | WAH_OP_I32X4_ADD | WAH_OP_I32X4_SUB |
    WAH_OP_I32X4_MUL | WAH_OP_I32X4_MIN_S | WAH_OP_I32X4_MIN_U | WAH_OP_I32X4_MAX_S | WAH_OP_I32X4_MAX_U |
    WAH_OP_I32X4_DOT_I16X8_S | WAH_OP_I32X4_EXTMUL_LOW_I16X8_S | WAH_OP_I32X4_EXTMUL_HIGH_I16X8_S |
    WAH_OP_I32X4_EXTMUL_LOW_I16X8_U | WAH_OP_I32X4_EXTMUL_HIGH_I16X8_U | WAH_OP_I64X2_ADD | WAH_OP_I64X2_SUB |
    WAH_OP_I64X2_MUL | WAH_OP_I64X2_EXTMUL_LOW_I32X4_S | WAH_OP_I64X2_EXTMUL_HIGH_I32X4_S |
    WAH_OP_I64X2_EXTMUL_LOW_I32X4_U | WAH_OP_I64X2_EXTMUL_HIGH_I32X4_U | WAH_OP_F32X4_ADD | WAH_OP_F32X4_SUB |
    WAH_OP_F32X4_MUL | WAH_OP_F32X4_DIV | WAH_OP_F32X4_MIN | WAH_OP_F32X4_MAX | WAH_OP_F32X4_PMIN |
    WAH_OP_F32X4_PMAX | WAH_OP_F64X2_ADD | WAH_OP_F64X2_SUB | WAH_OP_F64X2_MUL | WAH_OP_F64X2_DIV |
    WAH_OP_F64X2_MIN | WAH_OP_F64X2_MAX | WAH_OP_F64X2_PMIN | WAH_OP_F64X2_PMAX | WAH_OP_I8X16_RELAXED_SWIZZLE |
    WAH_OP_F32X4_RELAXED_MIN | WAH_OP_F32X4_RELAXED_MAX | WAH_OP_F64X2_RELAXED_MIN | WAH_OP_F64X2_RELAXED_MAX |
    WAH_OP_I16X8_RELAXED_Q15MULR_S | WAH_OP_I16X8_RELAXED_DOT_I8X16_I7X16_S | WAH_OP_I8X16_EQ | WAH_OP_I8X16_NE |
    WAH_OP_I8X16_LT_S | WAH_OP_I8X16_LT_U | WAH_OP_I8X16_GT_S | WAH_OP_I8X16_GT_U | WAH_OP_I8X16_LE_S |
    WAH_OP_I8X16_LE_U | WAH_OP_I8X16_GE_S | WAH_OP_I8X16_GE_U | WAH_OP_I16X8_EQ | WAH_OP_I16X8_NE |
    WAH_OP_I16X8_LT_S | WAH_OP_I16X8_LT_U | WAH_OP_I16X8_GT_S | WAH_OP_I16X8_GT_U | WAH_OP_I16X8_LE_S |
    WAH_OP_I16X8_LE_U | WAH_OP_I16X8_GE_S | WAH_OP_I16X8_GE_U | WAH_OP_I32X4_EQ | WAH_OP_I32X4_NE |
    WAH_OP_I32X4_LT_S | WAH_OP_I32X4_LT_U | WAH_OP_I32X4_GT_S | WAH_OP_I32X4_GT_U | WAH_OP_I32X4_LE_S |
    WAH_OP_I32X4_LE_U | WAH_OP_I32X4_GE_S | WAH_OP_I32X4_GE_U | WAH_OP_I64X2_EQ | WAH_OP_I64X2_NE |
    WAH_OP_I64X2_LT_S | WAH_OP_I64X2_GT_S | WAH_OP_I64X2_LE_S | WAH_OP_I64X2_GE_S | WAH_OP_F32X4_EQ |
    WAH_OP_F32X4_NE | WAH_OP_F32X4_LT | WAH_OP_F32X4_GT | WAH_OP_F32X4_LE | WAH_OP_F32X4_GE | WAH_OP_F64X2_EQ |
    WAH_OP_F64X2_NE | WAH_OP_F64X2_LT | WAH_OP_F64X2_GT | WAH_OP_F64X2_LE | WAH_OP_F64X2_GE => vbinop
  | WAH_OP_V128_BITSELECT | WAH_OP_F32X4_RELAXED_MADD | WAH_OP_F32X4_RELAXED_NMADD | WAH_OP_F64X2_RELAXED_MADD |
    WAH_OP_F64X2_RELAXED_NMADD | WAH_OP_I8X16_RELAXED_LANESELECT | WAH_OP_I16X8_RELAXED_LANESELECT |
    WAH_OP_I32X4_RELAXED_LANESELECT | WAH_OP_I64X2_RELAXED_LANESELECT |
    WAH_OP_I32X4_RELAXED_DOT_I8X16_I7X16_ADD_S => vternop
  | _ => None
  end.
End Signatures.

(** ** Theorems *)

(** The table of opcodes.h and the cases of the code agree with the specification. *)
Definition sig_ok (r : opcode_row) : bool :=
  match wah_opcode_of (row_val r), zget wah_opclasses (row_val r) with
  | Some op, Some c =>
      negb (opclass_eqb c WAH_OPCLASS_MISSING) &&
      match instr_sig op, opclass_ops c with
      | Some (args, t), Some (pops, push) => bool_decide (pops = reverse args) && (t =? push)
      | Some _, None => match op with WAH_OP_F32_DEMOTE_F64 | WAH_OP_F64_PROMOTE_F32 => true | _ => false end
      | None, Some _ => false
      | None, None => true
      end
  | _, _ => false
  end.
Lemma sigs_ok : forallb sig_ok WAH_OPCODES = true.
Proof. vm_compute. reflexivity. Qed.

Lemma instr_sig_classes v op args t : wah_opcode_of v = Some op -> instr_sig op = Some (args, t) ->
  exists c, zget wah_opclasses v = Some c /\ opclass_eqb c WAH_OPCLASS_MISSING = false /\
    (opclass_ops c = Some (reverse args, t) \/
     opclass_ops c = None /\ (op = WAH_OP_F32_DEMOTE_F64 \/ op = WAH_OP_F64_PROMOTE_F32)).
Proof.
  intros Hop Hs. pose proof Hop as Hf. unfold wah_opcode_of in Hf. destruct (List.find _ _) as [r|] eqn:Er; [|done].
  apply find_some in Er as [Hin Hv]. apply Z.eqb_eq in Hv. pose proof sigs_ok as H. rewrite forallb_forall in H.
  specialize (H r Hin). unfold sig_ok in H. rewrite Hv, Hop, Hs in H. destruct (zget wah_opclasses v) as [c|]; [|done].
  exists c. split; [done|]. apply andb_true_iff in H as [Hm H]. split; [by apply negb_true_iff|].
  destruct (opclass_ops c) as [[pops push]|].
  - apply andb_true_iff in H as [H1 H2]. apply bool_decide_eq_true in H1 as ->. apply Z.eqb_eq in H2 as ->. by left.
  - right. split; [done|]. destruct op; try discriminate H; auto.
Qed.

Lemma grow_loop_error fuel c n e : grow_loop fuel c n = Err e -> e = WAH_ERROR_TOO_LARGE.
Proof.
  revert c. induction fuel as [|fuel IH]; intros c; [done|]. cbn [grow_loop]. case_match; [|done]. case_match; [by intros [= <-]|apply IH].
Qed.
Lemma grow_array_error n k c a e a' : wah_grow_array n k c a = (Err e, a') -> limit_error e.
Proof.
  unfold wah_grow_array. case_match; [done|]. unfold stm_bind, stm_ensure, stm_ret, stm_err.
  destruct (n <=? UINT32_MAX); [|intros [= <- <-]; by left]. destruct (grow_loop _ _ _) as [cap|e'|] eqn:Eg; [|intros [= <- <-]|done].
  - destruct (wah_malloc_c_cases cap k a) as [[a1 ->]|[a1 ->]]; [done|]. intros [= <- <-]. by right.
  - left. by eapply grow_loop_error.
Qed.

Section Typing.
Context (E : wah_validation_env) (EO : env_ok E) (B : list Z) (G : wah_type_stack_t).
Notation TM := (env_types (v_module E)).
Notation INV := (inv E B G false).

(** Popping a sequence of types is decided exactly. *)
Lemma pop_all_exact es s : INV s -> Forall (type_valid TM) es ->
  (exists o, pop_all E es s = (Ok tt, set_ops o s) /\ INV (set_ops o s) /\
     popn TM (is_unreachable (s_ctl s)) (operands s) es (operands (set_ops o s))) \/
  (exists s', pop_all E es s = (Err WAH_ERROR_VALIDATION_FAILED, s') /\
     forall st, ~ popn TM (is_unreachable (s_ctl s)) (operands s) es st).
Proof.
  revert s. induction es as [|e es IH]; intros s Hi He; cbn [pop_all].
  { left. exists (s_ops s). rewrite set_ops_same. by split_and!. }
  apply Forall_cons in He as [He Hes].
  assert (Hstep : (exists o, wah_validation_pop_and_match_type E e s = (Ok tt, set_ops o s) /\ INV (set_ops o s) /\
      forall st, pop1 TM (is_unreachable (s_ctl s)) (operands s) e st <-> st = operands (set_ops o s)) \/
    (exists s', wah_validation_pop_and_match_type E e s = (Err WAH_ERROR_VALIDATION_FAILED, s') /\
      forall st, ~ pop1 TM (is_unreachable (s_ctl s)) (operands s) e st)).
  { unfold wah_validation_pop_and_match_type, stm_bind.
    destruct (pop_type_cases E B G false s Hi) as [[Hemp ->]|(t & Ht & Hok & Hi' & ->)].
    - rewrite Hemp. destruct (is_unreachable (s_ctl s)); [left|right].
      + exists (s_ops s). rewrite set_ops_same. split; [done|]. split; [done|]. rewrite Hemp. intros st. split.
        * by intros [(t & Hc & _)|(_ & -> & _)].
        * intros ->. by right.
      + eexists. split; [done|]. by intros st [(t & Hc & _)|(_ & _ & Hc)].
    - destruct (type_match_run E EO t e (set_ops (pop_ops (s_ops s)) s) Hok He) as (b & Hb & ->). rewrite Ht.
      destruct b; [left|right]; eexists; (split; [done|]).
      + split; [done|]. intros st. split.
        * by intros [(t' & [= -> ->] & _)|(Hc & _)].
        * intros ->. left. exists t. split; [done|by apply Hb].
      + intros st [(t' & [= <- <-] & Hm)|(Hc & _)]; [|done]. by apply Hb in Hm. }
  unfold stm_bind. destruct Hstep as [(o & -> & Hi1 & Hp)|(s' & -> & Hp)].
  - destruct (IH (set_ops o s) Hi1 Hes) as [(o' & -> & Hi2 & Hp2)|(s' & -> & Hp2)]; [left|right].
    + exists o'. split; [done|]. split; [done|]. eexists. split; [by apply Hp|exact Hp2].
    + exists s'. split; [done|]. intros st (st1 & H1 & H2). apply Hp in H1 as ->. by eapply Hp2.
  - right. exists s'. split; [done|]. intros st (st1 & H1 & _). by eapply Hp.
Qed.

Lemma emit_outcome o s : INV s -> room s ->
  match emit_simple o s with
  | (Ok _, s') => operands s' = operands s /\ is_unreachable (s_ctl s') = is_unreachable (s_ctl s) /\ exists di,
      instrs (s_code s') = instrs (s_code s) ++ [di] /\ fresh_instr o di
  | (Err e, _) => limit_error e
  | (Fault, _) => False
  end.
Proof.
  intros Hi Hr. pose proof (wp_emit E B G false o imm_none (fun _ s' => operands s' = operands s /\
    is_unreachable (s_ctl s') = is_unreachable (s_ctl s) /\ exists di, instrs (s_code s') = instrs (s_code s) ++ [di] /\ fresh_instr o di) s Hi Hr) as Hwp.
  unfold wp, emit_simple in *. destruct (emit_instr o imm_none s) as [[u|e|] s'] eqn:Eq.
  - apply Hwp. intros a cap di Hdi _. split; [done|]. split; [done|]. by exists di.
  - unfold emit_instr, grow_instrs, stm_bind, stm_get, with_ans, modify in Eq.
    destruct (wah_grow_array _ _ _ _) as [[c|e'|] a'] eqn:Eg; simplify_eq. by eapply grow_array_error.
  - apply Hwp. intros a cap di Hdi _. split; [done|]. split; [done|]. by exists di.
Qed.

(** The conversions between the floating-point types have cases of their own. *)
Definition pop_then_push (t u : wah_type_t) (op : wah_op) : comp vstate unit :=
  wah_validation_pop_and_match_type E t ;;; wah_validation_push_type u ;;; emit_simple op.
Lemma pop_then_push_class t u op s : pop_then_push t u op s = validate_class E op (reverse [t]) u s.
Proof.
  unfold pop_then_push, validate_class. cbn [reverse rev_append pop_all]. unfold stm_bind, stm_ret.
  by destruct (wah_validation_pop_and_match_type E t s) as [[[]|e|] s'].
Qed.

(** What the validation of an instruction with a signature does. *)
Lemma validate_sig_run v op args t s : v_mode E = WAH_ANALYZE_FUNC_BODY -> wah_opcode_of v = Some op ->
  instr_sig op = Some (args, t) -> wah_validate_opcode E v s = validate_class E op (reverse args) t s.
Proof.
  intros FB Hop Hs. destruct (instr_sig_classes v op args t Hop Hs) as (c & Hc & Hm & Ho).
  unfold wah_validate_opcode, check_const_expr_op, stm_bind, stm_opt, stm_ensure, stm_ret. rewrite Hc, Hm, Hop, FB. simpl.
  destruct Ho as [->|[-> Ho]]; [done|]. destruct Ho as [-> | ->]; injection Hs as <- <-.
  - change (validate_special E WAH_OP_F32_DEMOTE_F64) with (pop_then_push WAH_TYPE_F64 WAH_TYPE_F32 WAH_OP_F32_DEMOTE_F64).
    apply pop_then_push_class.
  - change (validate_special E WAH_OP_F64_PROMOTE_F32) with (pop_then_push WAH_TYPE_F32 WAH_TYPE_F64 WAH_OP_F64_PROMOTE_F32).
    apply pop_then_push_class.
Qed.

Lemma instr_sig_valid op args t : instr_sig op = Some (args, t) ->
  Forall (type_valid TM) (reverse args) /\ type_valid TM t.
Proof.
  intros Hs. destruct op; try discriminate Hs; injection Hs as <- <-; cbn [reverse rev_append];
    repeat first [split|apply Forall_cons_2|apply Forall_nil_2|apply tv_i32|apply tv_i64|apply tv_f32|apply tv_f64|apply tv_v128].
Qed.

(** C13. The numeric and vector instructions without immediates, in a function body, from any
    state that validation reaches: if the instruction is accepted, its operands were those
    that the specification of WebAssembly gives it ([instr_sig], the last one popped
    first), or unknown ones in unreachable code, they are replaced by one operand of the
    type of its result, and it alone is emitted; and it is refused for a type error only if
    the operands do not have those types. *)
Theorem wah_validate_class_typed v op args t s : v_mode E = WAH_ANALYZE_FUNC_BODY ->
  wah_opcode_of v = Some op -> instr_sig op = Some (args, t) -> INV s ->
  let u := is_unreachable (s_ctl s) in
  match wah_validate_opcode E v s with
  | (Ok _, s') => exists st, popn TM u (operands s) (reverse args) st /\ operands s' = t :: st /\ is_unreachable (s_ctl s') = u /\
      exists di, instrs (s_code s') = instrs (s_code s) ++ [di] /\ fresh_instr op di
  | (Err e, _) => limit_error e \/ (e = WAH_ERROR_VALIDATION_FAILED /\ forall st, ~ popn TM u (operands s) (reverse args) st)
  | (Fault, _) => False
  end.
Proof.
  intros FB Hop Hs Hi u. rewrite (validate_sig_run v op args t s FB Hop Hs). destruct (instr_sig_valid op args t Hs) as [Hp Hq].
  unfold validate_class, stm_bind. destruct (pop_all_exact (reverse args) s Hi Hp) as [(o & -> & Hi1 & Hpop)|(s' & -> & Hpop)]; [|by right].
  unfold wah_validation_push_type, with_ops. pose proof (i_ops _ _ _ _ _ Hi1) as Hops.
  rewrite (push_operand_run TM G (base (set_ops o s)) t (s_ops (set_ops o s)) Hops) by by left.
  destruct (Z.ltb_spec (current_stack_depth (s_ops (set_ops o s))) WAH_MAX_TYPE_STACK_SIZE) as [Hd|]; [|by left; left].
  set (s2 := set_ops (push_ops t (s_ops (set_ops o s))) (set_ops o s)).
  assert (Hi2 : INV s2) by (apply inv_set_ops; [done|]; apply push_ops_ok; [done|by left|done]).
  assert (Ho2 : operands s2 = t :: operands (set_ops o s)).
  { apply (above_push TM G (base (set_ops o s))); [done|pose proof (inv_base E B G false _ Hi1); lia|done]. }
  pose proof (emit_outcome op s2 Hi2 (inv_room _ _ _ _ _ Hi)) as He. destruct (emit_simple op s2) as [[u2|e|] s3]; [|by left|done].
  destruct He as (H1 & H2 & H3). exists (operands (set_ops o s)). split_and!; [exact Hpop|by rewrite H1|exact H2|exact H3].
Qed.
End Typing.

(** *** Samples *)

(** The state after [i32.const 5], which validation reaches. *)
Definition after_const : vstate := (wah_validate_opcode sample_body (wah_op_value WAH_OP_I32_CONST) (a_v (start_func 2 [5]))).2.
Lemma after_const_inv : exists G, inv sample_body [5] G false after_const.
Proof.
  destruct (start_inv sample_body (start_func 2 [5])) as (G & Hi & _).
  { apply start_func_ok; vm_compute; try done; congruence. }
  exists G. pose proof (wah_validate_opcode_wp sample_body sample_body_ok [5] G (wah_op_value WAH_OP_I32_CONST) _ ltac:(vm_compute; split; congruence) Hi) as H.
  unfold wp in H. unfold after_const.
  assert (Hok : match wah_validate_opcode sample_body (wah_op_value WAH_OP_I32_CONST) (a_v (start_func 2 [5])) with (Ok _, _) => True | _ => False end)
    by (vm_compute; exact I).
  destruct (wah_validate_opcode _ _ _) as [[u|e|] s']; [|done|done]. apply H.
Qed.

Lemma wah_validate_class_typed_witness : exists s',
  wah_validate_opcode sample_body (wah_op_value WAH_OP_I32_EQZ) after_const = (Ok tt, s') /\ operands s' = [WAH_TYPE_I32] /\
  operands after_const = [WAH_TYPE_I32] /\
  (forall st, ~ popn (env_types sample_module) false (operands after_const) [WAH_TYPE_I64] st).
Proof.
  destruct after_const_inv as [G Hi].
  assert (Ha : operands after_const = [WAH_TYPE_I32]) by (vm_compute; reflexivity).
  pose proof (wah_validate_class_typed sample_body sample_body_ok [5] G (wah_op_value WAH_OP_I32_EQZ) WAH_OP_I32_EQZ
    [WAH_TYPE_I32] WAH_TYPE_I32 after_const eq_refl eq_refl eq_refl Hi) as H.
  pose proof (wah_validate_class_typed sample_body sample_body_ok [5] G (wah_op_value WAH_OP_I64_EQZ) WAH_OP_I64_EQZ
    [WAH_TYPE_I64] WAH_TYPE_I32 after_const eq_refl eq_refl eq_refl Hi) as H2.
  assert (Hok : (wah_validate_opcode sample_body (wah_op_value WAH_OP_I32_EQZ) after_const).1 = Ok tt) by (vm_compute; reflexivity).
  assert (Hbad : (wah_validate_opcode sample_body (wah_op_value WAH_OP_I64_EQZ) after_const).1 = Err WAH_ERROR_VALIDATION_FAILED)
    by (vm_compute; reflexivity).
  destruct (wah_validate_opcode sample_body (wah_op_value WAH_OP_I32_EQZ) after_const) as [r s']. cbn [fst] in Hok. rewrite Hok in H.
  destruct (wah_validate_opcode sample_body (wah_op_value WAH_OP_I64_EQZ) after_const) as [r2 s2]. cbn [fst] in Hbad. rewrite Hbad in H2.
  rewrite Hok. exists s'. split; [reflexivity|]. destruct H as (st & Hp & Hs & _). rewrite Hs. split; [|split; [exact Ha|]].
  - rewrite Ha in Hp. destruct Hp as (st1 & [(t & Ht & _)|(Hc & _)] & ->); [|discriminate Hc]. injection Ht as _ <-. reflexivity.
  - destruct H2 as [[H2|H2]|[_ H2]]; [discriminate H2|discriminate H2|exact H2].
Defined.
