(* ===== verification/CodeSection.v ===== *)
(** * The code section

    [wah_parse_code_section] up to the lowering of the code it analyzes.  The state that
    bodies share is passed from one to the next: the flags of initialized locals and the
    labels of br_table, and the uninitialized storage of the stacks. *)

From S2P Require Import Prelude Base Alloc Types Opcodes Bytes Leb128 Decode Subtype ModuleEnv Operands Validate ValidInv ValidRules Locals Analyze RefMaps AnalyzeInv Samples AnalyzeOk.
From stdpp Require Import list sets sorting.
#[local] Open Scope Z_scope.
#[local] Open Scope wah_scope.

(** ** Definitions *)

(** *** The code section *)

(** A body that has been analyzed.  [max_frame_slots] is computed from its locals and its
    stack; the code goes on to be lowered. *)
Record parsed_body := ParsedBody {
  pb_body : wah_code_body_t; pb_code : wah_analyzed_code_t; pb_max_frame_slots : Z }.

Record code_state := CodeState {
  cs_dec : decoder;
  cs_ans : answers;
  cs_inits : wah_local_inits_t;
  cs_labels : wah_br_table_labels_t;
  cs_notes : wah_module_notes;
  cs_stack : list wah_type_t;
  cs_frames : list wah_validation_control_frame_t }.

Definition cs_set_dec d s := CodeState d (cs_ans s) (cs_inits s) (cs_labels s) (cs_notes s) (cs_stack s) (cs_frames s).
Definition cs_set_inits a li s := CodeState (cs_dec s) a li (cs_labels s) (cs_notes s) (cs_stack s) (cs_frames s).
Definition on_cs_locals {A} (m : comp (decoder * answers) A) : comp code_state A := fun s =>
  let '(r, (d, a)) := m (cs_dec s, cs_ans s) in
  (r, CodeState d a (cs_inits s) (cs_labels s) (cs_notes s) (cs_stack s) (cs_frames s)).

(** [inits_cap] is the length of [inits]; new flags are cleared. *)
Definition grow_inits (total_locals : Z) : comp code_state unit := fun s =>
  let li := cs_inits s in
  let old_cap := zlen (li_inits li) in
  if old_cap <? total_locals then
    match wah_grow_array total_locals 1 old_cap (cs_ans s) with
    | (Ok cap, a) =>
        (Ok tt, cs_set_inits a (LocalInits (li_inits li ++ replicate (Z.to_nat (cap - old_cap)) 0) (li_undo li) (li_undo_cap li)) s)
    | (Err e, a) => (Err e, cs_set_inits a li s)
    | (Fault, a) => (Fault, cs_set_inits a li s)
    end
  else (Ok tt, s).

(** The context of a body: all but the storage and what bodies share is reset. *)
Definition body_start (s : code_state) : astate :=
  AState (VState (cs_dec s) (cs_ans s) (Operands (TypeStack (cs_stack s) 0 0) 0 0) (Control (cs_frames s) 0 false)
            (Some (cs_inits s)) (Some (cs_labels s)) (cs_notes s) (Instrs [] 0)) capture_init.
Definition analyze_body (E : wah_validation_env) : comp code_state wah_analyzed_code_t := fun s =>
  let '(r, AState v _) := wah_analyze_stream E 0 (body_start s) in
  (r, CodeState (s_dec v) (s_ans v) (default (cs_inits s) (s_inits v)) (default (cs_labels s) (s_labels v)) (s_notes v)
        (ts_data (type_stack (s_ops v))) (control_stack (s_ctl v))).

Definition sizeof_wah_code_body_t : Z := 104.

Section Code.
Context (M : wah_module_env).

(** One iteration over the bodies: a decoder of the body alone is used until its end. *)
Definition parse_code_body (i : Z) : comp code_state parsed_body :=
  body_size <- on_cs_locals (on_decoder (on_cursor wah_decode_uleb128)) ;;
  s <- stm_get ;;
  let cur := cursor (cs_dec s) in
  stm_ensure (body_size <=? zlen cur) WAH_ERROR_MALFORMED ;;;
  modify (fun s => cs_set_dec (Decoder (take (Z.to_nat body_size) cur) (dec_features (cs_dec s))) s) ;;;
  body <- on_cs_locals (wah_parse_local_decls (env_types M)) ;;
  type_idx <- stm_opt (zget (function_type_indices M) i) ;;
  func_type <- stm_opt (zget (types (env_types M)) type_idx) ;;
  let param_count := zlen (param_types func_type) in
  stm_ensure (local_count body <=? u32 (UINT32_MAX - param_count)) WAH_ERROR_TOO_LARGE ;;;
  let total_locals := u32 (param_count + local_count body) in
  stm_ensure (total_locals <=? WAH_MAX_LOCAL_COUNT) WAH_ERROR_TOO_LARGE ;;;
  grow_inits total_locals ;;;
  ac <- analyze_body (ValidationEnv WAH_ANALYZE_FUNC_BODY (Some func_type) total_locals 0 (Some body) M) ;;
  s <- stm_get ;;
  li <- stm_opt (wah_local_inits_revert (cs_inits s) 0) ;;
  modify (fun s => cs_set_inits (cs_ans s) li s) ;;;
  modify (fun s => cs_set_dec (Decoder (drop (Z.to_nat body_size) cur) (dec_features (cs_dec s))) s) ;;;
  stm_ret (ParsedBody body ac (u32 (local_count body + ac_max_stack_depth ac))).

Fixpoint parse_code_bodies (n : nat) (i : Z) : comp code_state (list parsed_body) :=
  match n with
  | O => stm_ret []
  | S n' =>
      b <- parse_code_body i ;;
      bs <- parse_code_bodies n' (i + 1) ;;
      stm_ret (b :: bs)
  end.

Definition wah_parse_code_section : comp code_state (list parsed_body) :=
  count <- on_cs_locals (on_decoder (on_cursor (wah_decode_and_validate_count 3))) ;;
  stm_ensure (count =? zlen (function_type_indices M)) WAH_ERROR_MALFORMED ;;;
  on_cs_locals (on_answers (wah_malloc_c count sizeof_wah_code_body_t)) ;;;
  parse_code_bodies (Z.to_nat count) 0.
End Code.

(** The state at its beginning; the storage is not initialized. *)
Definition code_start (d : decoder) (a : answers) (notes : wah_module_notes) (stack : list wah_type_t)
    (frames : list wah_validation_control_frame_t) : code_state :=
  CodeState d a (LocalInits [] [] 0) zero_labels notes stack frames.

(** *** What the section is read from *)

(** The bodies, each after its size. *)
Inductive bodies_bytes : list (list Z) -> list Z -> Prop :=
| bodies_nil : bodies_bytes [] []
| bodies_cons body bn bodies bs : uleb 32 bn (zlen body) -> bodies_bytes bodies bs ->
    bodies_bytes (body :: bodies) (bn ++ body ++ bs).

(** The environment of function [i] of the section, with the locals [body]. *)
Definition body_env (M : wah_module_env) (ft : wah_func_type_t) (body : wah_code_body_t) : wah_validation_env :=
  ValidationEnv WAH_ANALYZE_FUNC_BODY (Some ft) (zlen (param_types ft) + local_count body) 0 (Some body) M.

(** The flags that bodies share say that no local is initialized. *)
Definition no_local_set (li : wah_local_inits_t) : Prop :=
  li_undo li = [] /\ forall i, 0 <= i < zlen (li_inits li) -> zget (li_inits li) i = Some 0.

(** Body [b] of function [i] has been parsed from [bytes]: its locals, then its code,
    which has been analyzed with them and the type of the function, from a state in which
    the stacks and the code are empty and no local is initialized. *)
Definition body_parsed (M : wah_module_env) (i : Z) (bytes : list Z) (b : parsed_body) : Prop :=
  exists d ti ft s s', cursor d = bytes /\ parsed_locals (env_types M) d (pb_body b) (s_dec (a_v s)) /\
    zget (function_type_indices M) i = Some ti /\ zget (types (env_types M)) ti = Some ft /\
    let E := body_env M ft (pb_body b) in
    env_ok E /\ start_ok E s /\ (exists li, s_inits (a_v s) = Some li /\ no_local_set li) /\
    wah_analyze_stream E 0 s = (Ok (pb_code b), s') /\
    pb_max_frame_slots b = local_count (pb_body b) + ac_max_stack_depth (pb_code b).

(** What bodies share, between them: no local is initialized. *)
Record shared_ok (M : wah_module_env) (s : code_state) : Prop := {
  sh_bytes : decoder_bytes (cs_dec s);
  sh_inits : inits_ok 0 (cs_inits s);
  sh_undo : li_undo (cs_inits s) = [];
  sh_labels : labels_ok (cs_labels s);
  sh_notes : notes_ok M (cs_notes s);
  sh_stack : zlen (cs_stack s) = WAH_MAX_TYPE_STACK_SIZE;
  sh_frames : zlen (cs_frames s) = WAH_MAX_CONTROL_DEPTH }.

(** ** Theorems *)

Lemma inits_ok_mono t t' li : inits_ok t li -> t' <= zlen (li_inits li) -> inits_ok t' li.
Proof. by intros [] ?; split. Qed.

Lemma wp_grow_inits M total (Q : unit -> code_state -> Prop) s : shared_ok M s -> 0 <= total <= WAH_MAX_LOCAL_COUNT ->
  (forall s', shared_ok M s' -> inits_ok total (cs_inits s') -> cs_dec s' = cs_dec s -> Q tt s') -> wp (grow_inits total) Q s.
Proof.
  intros [H1 H2 H3 H4 H5 H6 H7] Ht HQ. unfold wp, grow_inits.
  destruct (Z.ltb_spec (zlen (li_inits (cs_inits s))) total) as [Hlt|Hge].
  2:{ apply HQ; [by split| |done]. eapply inits_ok_mono; [exact H2|lia]. }
  assert (0 <= zlen (li_inits (cs_inits s))) by (unfold zlen; lia).
  pose proof (wp_grow_array total 1 (zlen (li_inits (cs_inits s))) (cs_ans s)
    (fun c _ => total <= c <= UINT32_MAX /\ zlen (li_inits (cs_inits s)) <= c)) as Hg.
  unfold wp in Hg. unfold WAH_MAX_LOCAL_COUNT, UINT32_MAX in *.
  destruct (wah_grow_array _ _ _ _) as [[cap|e|] a]; [|done|by apply Hg; [lia|lia|]].
  destruct Hg as [Hc1 Hc2]; [lia|lia|done|].
  set (n := zlen (li_inits (cs_inits s))) in *. set (li' := LocalInits _ _ _).
  assert (Hlen : zlen (li_inits li') = cap) by (unfold li', zlen in *; simpl; rewrite length_app, length_replicate; lia).
  assert (Hok : inits_ok total li').
  { destruct H2 as [I1 I2 I3 I4 I5 I6]. split; rewrite ?Hlen; [lia|lia| | | |exact I6].
    - simpl. rewrite H3. constructor.
    - simpl. rewrite H3. constructor.
    - intros i Hi. unfold li'. cbn [li_inits li_undo]. destruct (decide (i < n)) as [Hin|Hin].
      + rewrite <- I5 by lia. rewrite !zget_nat by lia. unfold n, zlen in *. rewrite lookup_app_l by lia. done.
      + rewrite H3, decide_False by apply not_elem_of_nil. rewrite zget_nat by lia.
        unfold n, zlen in *. rewrite lookup_app_r by lia. apply lookup_replicate_2. lia. }
  apply HQ; [|exact Hok|done]. split; try done. simpl. eapply inits_ok_mono; [exact Hok|]. rewrite Hlen. lia.
Qed.

(** The environment of a body is well formed, whatever its locals. *)
Lemma body_env_ok M ft ti d body d' : module_ok M -> zget (types (env_types M)) ti = Some ft ->
  parsed_locals (env_types M) d body d' -> zlen (param_types ft) + local_count body <= WAH_MAX_LOCAL_COUNT ->
  env_ok (body_env M ft body).
Proof.
  intros HM Hft Hl Hmax. split; [exact HM| |done]. intros _. exists ft, body. split; [done|]. split.
  { pose proof (mo_func_types M HM) as Hf. rewrite Forall_forall in Hf. apply Hf. apply zget_Some in Hft as [_ Hft].
    by eapply list_elem_of_lookup_2. }
  split; [done|]. split; [|by split].
  split; [destruct Hl as (ds & _ & _ & _ & _ & _ & _ & -> & _); unfold zlen; lia|].
  intros i Hi. by eapply parsed_locals_types.
Qed.

Lemma body_start_ok M E s : shared_ok M s -> v_module E = M -> inits_ok (v_total_locals E) (cs_inits s) -> start_ok E (body_start s).
Proof. intros [H1 H2 H3 H4 H5 H6 H7] HM Hi. split; simpl; try done; try (by eexists). by rewrite HM. Qed.

Lemma wp_analyze_body M E Q s : shared_ok M s -> v_module E = M -> is_func_body E = true -> env_ok E ->
  inits_ok (v_total_locals E) (cs_inits s) ->
  (forall ac s' li, (exists sf, wah_analyze_stream E 0 (body_start s) = (Ok ac, sf)) ->
     0 <= ac_max_stack_depth ac <= 2 * WAH_MAX_TYPE_STACK_SIZE -> wah_local_inits_revert (cs_inits s') 0 = Some li ->
     (forall a d, decoder_bytes d -> shared_ok M (cs_set_dec d (cs_set_inits a li s'))) -> Q ac s') ->
  wp (analyze_body E) Q s.
Proof.
  intros Hs HM FB EO Hli HQ. pose proof (wah_analyze_stream_ok E 0 (body_start s) EO) as H.
  rewrite FB in H. specialize (H ltac:(done) (body_start_ok M E s Hs HM Hli)).
  unfold wp, analyze_body. destruct (wah_analyze_stream E 0 (body_start s)) as [[ac|e|] [v c]] eqn:Erun; [|done|done].
  destruct H as ((B & G & Hi) & Hm & _). simpl in Hi, Hm. pose proof (inv_max_depth _ _ _ _ Hi) as Hmax.
  pose proof Hi as [[I0 _] [[I1 _ _ _ _] _ _ _] [I2 _ _] I3 I4 I5 _]. destruct (s_inits v) as [li|] eqn:Eli.
  2:{ exfalso. unfold is_func_body in FB. by rewrite (eo_const E EO I3) in FB. }
  destruct (revert_loop_spec (v_total_locals E) (S (length (li_undo li))) li 0 I3) as (li' & Hr & Hok & Hu & _);
    [unfold zlen; lia|lia|].
  eapply (HQ ac _ li'); [by exists (AState v c)|lia|exact Hr|]. intros a d Hd.
  split; simpl; [done| |exact Hu| |by rewrite <- HM|done|done].
  - eapply inits_ok_mono; [exact Hok|unfold zlen; lia].
  - destruct (s_labels v); [exact I4|apply Hs].
Qed.

Lemma shared_no_local_set M s : shared_ok M s -> no_local_set (cs_inits s).
Proof.
  intros [_ [_ _ _ _ Hf _] Hu _ _ _ _]. split; [done|]. intros i Hi. rewrite Hf by done.
  rewrite Hu, decide_False; [done|]. apply not_elem_of_nil.
Qed.

Lemma wp_cs_locals {A} (m : comp (decoder * answers) A) Q s :
  wp m (fun r x => Q r (CodeState x.1 x.2 (cs_inits s) (cs_labels s) (cs_notes s) (cs_stack s) (cs_frames s)))
    (cs_dec s, cs_ans s) -> wp (on_cs_locals m) Q s.
Proof. unfold wp, on_cs_locals. by destruct (m _) as [[r|e|] [d a]]. Qed.

Lemma shared_set M s d a : shared_ok M s -> decoder_bytes d ->
  shared_ok M (CodeState d a (cs_inits s) (cs_labels s) (cs_notes s) (cs_stack s) (cs_frames s)).
Proof. by intros [] ?; split. Qed.

Lemma uleb_small bs v : uleb 32 bs v -> 0 <= v < 2 ^ 32.
Proof. intros H. split; [by eapply uleb_nonneg|by eapply uleb_bound]. Qed.

Section CodeOk.
Context (M : wah_module_env) (HM : module_ok M).

Lemma parse_code_body_spec i s : shared_ok M s -> 0 <= i < zlen (function_type_indices M) ->
  wp (parse_code_body M i) (fun b s' => shared_ok M s' /\ exists bn bytes,
    cursor (cs_dec s) = bn ++ bytes ++ cursor (cs_dec s') /\ uleb 32 bn (zlen bytes) /\ body_parsed M i bytes b) s.
Proof.
  intros Hs Hi. unfold parse_code_body. pose proof (sh_bytes _ _ Hs) as Hb.
  apply wp_bind, wp_cs_locals, wp_on_decoder, wp_uleb; [done|]. intros size bn c0 Ec Hn Hc0. simpl in Ec.
  apply wp_bind, wp_get, wp_bind, wp_ensure. intros Hsize. apply Z.leb_le in Hsize. simpl in Hsize.
  pose proof (uleb_small _ _ Hn). apply wp_bind. unfold wp at 1, modify. simpl.
  set (bytes := take (Z.to_nat size) c0). set (d := Decoder bytes _).
  assert (Hlen : zlen bytes = size) by (unfold bytes, zlen in *; rewrite length_take; lia).
  assert (Hd : decoder_bytes d) by (by apply Forall_take).
  apply wp_bind, wp_cs_locals. eapply wp_mono; [by apply parse_local_decls_wp|]. intros body [d1 a1] [Hb1 Hl]. simpl.
  destruct (zget_is_Some (function_type_indices M) i) as [ti Hti]; [lia|]. apply wp_bind. eapply wp_opt; [exact Hti|].
  assert (Hr : 0 <= ti < type_count (env_types M)).
  { destruct (mo_funcs M HM) as (_ & _ & Hf). rewrite Forall_forall in Hf. apply Hf. apply zget_Some in Hti as [_ Hti].
    by eapply list_elem_of_lookup_2. }
  rewrite <- (mo_count M HM) in Hr. destruct (zget_is_Some _ _ Hr) as [ft Hft]. apply wp_bind. eapply wp_opt; [exact Hft|].
  cbv zeta. pose proof (mo_func_types M HM) as Hfts. rewrite Forall_forall in Hfts.
  destruct (Hfts ft) as [_ _ Hpc _]; [apply zget_Some in Hft as [_ Hft]; by eapply list_elem_of_lookup_2|].
  assert (Hlc : 0 <= local_count body <= WAH_MAX_LOCAL_COUNT).
  { destruct Hl as (ds & bc & bs & _ & _ & _ & _ & Hc & Hm & _). unfold zlen in Hc. lia. }
  assert (0 <= zlen (param_types ft)) by (unfold zlen; lia).
  apply wp_bind, wp_ensure. intros _. unfold WAH_MAX_TYPE_STACK_SIZE, WAH_MAX_LOCAL_COUNT in *.
  rewrite (u32_small (zlen (param_types ft) + local_count body)) by lia.
  apply wp_bind, wp_ensure. intros Htot. apply Z.leb_le in Htot.
  apply wp_bind. eapply (wp_grow_inits M); [by apply shared_set|unfold WAH_MAX_LOCAL_COUNT; lia|].
  intros s2 Hs2 Hli2 Hd2. simpl in Hd2. apply wp_bind.
  assert (EO : env_ok (body_env M ft body)) by (by eapply body_env_ok).
  eapply (wp_analyze_body M (body_env M ft body)); [exact Hs2|done|done|exact EO|exact Hli2|].
  intros ac s3 li [sf Hrun] Hmax Hrev Hs3. apply wp_bind, wp_get, wp_bind. eapply wp_opt; [exact Hrev|].
  apply wp_bind. unfold wp at 1, modify. apply wp_bind. unfold wp at 1, modify. apply wp_ret.
  split; [apply Hs3; unfold decoder_bytes; simpl; by apply Forall_drop|]. exists bn, bytes.
  split; [simpl; rewrite Ec; f_equal; symmetry; apply take_drop|]. split; [by rewrite Hlen|].
  exists d, ti, ft, (body_start s2), sf. split; [done|]. split; [simpl; by rewrite Hd2|]. split; [done|]. split; [done|].
  split; [exact EO|]. split; [by apply (body_start_ok M)|].
  split; [exists (cs_inits s2); split; [done|by eapply shared_no_local_set]|]. split; [exact Hrun|]. simpl. apply u32_small. unfold WAH_MAX_TYPE_STACK_SIZE in Hmax. lia.
Qed.

Lemma parse_code_bodies_spec n i s : shared_ok M s -> 0 <= i -> i + Z.of_nat n = zlen (function_type_indices M) ->
  wp (parse_code_bodies M n i) (fun bs s' => shared_ok M s' /\ exists bodies bytes,
    cursor (cs_dec s) = bytes ++ cursor (cs_dec s') /\ bodies_bytes bodies bytes /\
    length bs = n /\ length bodies = n /\
    forall k b body, bs !! k = Some b -> bodies !! k = Some body -> body_parsed M (i + Z.of_nat k) body b) s.
Proof.
  revert i s. induction n as [|n IH]; intros i s Hs Hi Hn; cbn [parse_code_bodies].
  { apply wp_ret. split; [done|]. exists [], []. split_and!; try done. constructor. }
  apply wp_bind. eapply wp_mono; [apply parse_code_body_spec; [done|lia]|].
  intros b s1 (Hs1 & bn & body & Hc & Hbn & Hb). apply wp_bind. eapply wp_mono; [apply (IH (i + 1)); [done|lia|lia]|].
  intros bs s2 (Hs2 & bodies & bytes & Hc2 & Hbytes & Hl1 & Hl2 & Hall). apply wp_ret. split; [done|].
  exists (body :: bodies), (bn ++ body ++ bytes). split_and!; [|by constructor|simpl; lia|simpl; lia|].
  - by rewrite Hc, Hc2, <- !(assoc_L (++)).
  - intros [|k] b' body' H1 H2; simpl in H1, H2; simplify_eq; [by rewrite Z.add_0_r|].
    replace (i + Z.of_nat (S k)) with (i + 1 + Z.of_nat k) by lia. by eapply Hall.
Qed.

Lemma code_start_ok d a notes stack frames : decoder_bytes d -> notes_ok M notes ->
  zlen stack = WAH_MAX_TYPE_STACK_SIZE -> zlen frames = WAH_MAX_CONTROL_DEPTH ->
  shared_ok M (code_start d a notes stack frames).
Proof.
  intros Hd Hn Hst Hf. split; try done; simpl.
  - split; try done; try (constructor). unfold zlen. simpl. lia.
  - apply zero_labels_ok.
Qed.
End CodeOk.

(** What the section holds: one body per function, each after its size. *)
Lemma wp_code_section M d a notes stack frames : module_ok M -> decoder_bytes d -> notes_ok M notes ->
  zlen stack = WAH_MAX_TYPE_STACK_SIZE -> zlen frames = WAH_MAX_CONTROL_DEPTH ->
  wp (wah_parse_code_section M) (fun bs s' => shared_ok M s' /\ zlen bs = zlen (function_type_indices M) /\ exists bc bodies bytes,
      cursor d = bc ++ bytes ++ cursor (cs_dec s') /\ uleb 32 bc (zlen bs) /\ bodies_bytes bodies bytes /\
      length bodies = length bs /\
      forall k b body, bs !! k = Some b -> bodies !! k = Some body -> body_parsed M (Z.of_nat k) body b)
    (code_start d a notes stack frames).
Proof.
  intros HM Hd Hn Hst Hf.
  pose proof (code_start_ok M d a notes stack frames Hd Hn Hst Hf) as Hs. unfold wah_parse_code_section.
  apply wp_bind, wp_cs_locals, wp_on_decoder, wp_count; [done|]. intros n bc c Ec Hu Hc. simpl in Ec. pose proof (uleb_nonneg _ _ _ Hu).
  apply wp_bind, wp_ensure. intros Hcount. apply Z.eqb_eq in Hcount. apply wp_bind, wp_cs_locals, wp_on_answers. intros a'.
  eapply wp_mono; [apply (parse_code_bodies_spec M HM _ 0)|].
  - apply (shared_set M (code_start d a notes stack frames) (Decoder c (dec_features d)) a'); [exact Hs|exact Hc].
  - lia.
  - lia.
  - intros bs s' (Hs' & bodies & bytes & H1 & H2 & H3 & H4 & H5). simpl in H1.
    assert (Hbs : zlen bs = n) by (unfold zlen; lia). split; [done|]. split; [congruence|].
    exists bc, bodies, bytes. rewrite Hbs, Ec, H1. split_and!; [done|done|done|congruence|].
    intros k b body Hb Hbody. apply (H5 k b body Hb Hbody).
Qed.

(** C11. A code section, of any bytes: its parser always returns, and when it accepts the
    section holds one body per function of the module, each after its size, and the rest
    of the section is left.  Each body has been parsed whole: its locals, then its code,
    which has been analyzed with the type of the function, from a reset state in which,
    whatever the bodies before it did, no local is initialized; its number of frame slots is
    exactly that of its locals and its stack. *)
Theorem wah_parse_code_section_exact M d a notes stack frames : module_ok M -> decoder_bytes d -> notes_ok M notes ->
  zlen stack = WAH_MAX_TYPE_STACK_SIZE -> zlen frames = WAH_MAX_CONTROL_DEPTH ->
  match wah_parse_code_section M (code_start d a notes stack frames) with
  | (Ok bs, s') => zlen bs = zlen (function_type_indices M) /\ exists bc bodies bytes,
      cursor d = bc ++ bytes ++ cursor (cs_dec s') /\ uleb 32 bc (zlen bs) /\ bodies_bytes bodies bytes /\
      length bodies = length bs /\
      forall k b body, bs !! k = Some b -> bodies !! k = Some body -> body_parsed M (Z.of_nat k) body b
  | (Err _, _) => True
  | (Fault, _) => False
  end.
Proof.
  intros HM Hd Hn Hst Hf. pose proof (wp_code_section M d a notes stack frames HM Hd Hn Hst Hf) as Hwp.
  unfold wp in Hwp. destruct (wah_parse_code_section M _) as [[bs|e|] s']; [|done|done]. apply Hwp.
Qed.

(** The two functions of the sample module: one without code, and the identity. *)
Definition sample_section : list Z := [2; 2; 0; 0x0B; 4; 0; 0x20; 0; 0x0B].
Definition sample_code : code_state :=
  code_start (Decoder sample_section all_features) [] (ModuleNotes 0 None)
    (replicate (Z.to_nat WAH_MAX_TYPE_STACK_SIZE) 0) (replicate (Z.to_nat WAH_MAX_CONTROL_DEPTH) blank_frame).

Lemma wah_parse_code_section_exact_witness : exists b1 b2 s' bodies bytes,
  wah_parse_code_section sample_module sample_code = (Ok [b1; b2], s') /\ bodies_bytes bodies bytes /\
  sample_section = [2] ++ bytes /\ zlen (function_type_indices sample_module) = 2.
Proof.
  pose proof (wah_parse_code_section_exact sample_module (Decoder sample_section all_features) [] (ModuleNotes 0 None)
    (replicate (Z.to_nat WAH_MAX_TYPE_STACK_SIZE) 0) (replicate (Z.to_nat WAH_MAX_CONTROL_DEPTH) blank_frame) sample_module_ok) as H.
  fold sample_code in H.
  assert (Hok : match wah_parse_code_section sample_module sample_code with
    | (Ok [_; _], s') => cursor (cs_dec s') = [] | _ => False end) by (vm_compute; reflexivity).
  destruct (wah_parse_code_section sample_module sample_code) as [[[|b1 [|b2 [|]]]|e|] s']; try done.
  destruct H as (Hn & bc & bodies & bytes & H1 & H2 & H3 & _).
  - repeat (constructor; [unfold is_byte; lia|]). constructor.
  - done.
  - reflexivity.
  - reflexivity.
  - exists b1, b2, s', bodies, bytes. split; [reflexivity|]. split; [exact H3|]. split; [|exact (eq_sym Hn)].
    rewrite Hok, (right_id_L [] (++)) in H1. simpl in H1. change (zlen [b1; b2]) with 2 in H2.
    inversion H2; subst; simpl in H1; [by injection H1 as <-|]. injection H1 as Hb _. lia.
Defined.
