(* ===== verification/ConstTyping.v ===== *)
(** * Typing of constant expressions

    The typing rules of the specification for the instructions of constant expressions, and
    that the validation of these instructions follows them. *)

From S2P Require Import Prelude Base Alloc Types Opcodes Bytes Leb128 Decode Subtype ModuleEnv Operands Validate ValidInv ValidRules ValidSafe ValidCtl ValidOpcode Analyze RefMaps AnalyzeInv Samples AnalyzeOk.
From stdpp Require Import list sets.
#[local] Open Scope Z_scope.
#[local] Open Scope wah_scope.

(** ** Definitions *)

(** *** The rules *)

Section Rules.
Context (M : wah_module_env).
Notation TM := (env_types M).

Definition type_def_of (i : Z) (k : wah_comp_type_kind_t) (td : wah_type_def_t) : Prop :=
  zget (type_defs TM) i = Some td /\ kind td = k.

(** An instruction with its immediate takes operands, here from the topmost down, and
    gives one. *)
Inductive const_sig : wah_op -> wah_imm -> list wah_type_t -> wah_type_t -> Prop :=
| cs_i32_const x : const_sig WAH_OP_I32_CONST (imm_i32 x) [] WAH_TYPE_I32
| cs_i64_const x : const_sig WAH_OP_I64_CONST (imm_i64 x) [] WAH_TYPE_I64
| cs_f32_const x : const_sig WAH_OP_F32_CONST (imm_f32_bits x) [] WAH_TYPE_F32
| cs_f64_const x : const_sig WAH_OP_F64_CONST (imm_f64_bits x) [] WAH_TYPE_F64
| cs_v128_const x : const_sig WAH_OP_V128_CONST (imm_v128 x) [] WAH_TYPE_V128
| cs_i32_binop o : o ∈ [WAH_OP_I32_ADD; WAH_OP_I32_SUB; WAH_OP_I32_MUL] ->
    const_sig o imm_none [WAH_TYPE_I32; WAH_TYPE_I32] WAH_TYPE_I32
| cs_i64_binop o : o ∈ [WAH_OP_I64_ADD; WAH_OP_I64_SUB; WAH_OP_I64_MUL] ->
    const_sig o imm_none [WAH_TYPE_I64; WAH_TYPE_I64] WAH_TYPE_I64
| cs_global_get i t : wah_global_type M i = Some t -> const_sig WAH_OP_GLOBAL_GET (imm_u32 i) [] t
| cs_ref_null ht : type_valid TM ht -> WAH_TYPE_IS_REF ht = true ->
    const_sig WAH_OP_REF_NULL (imm_u32 (u32 ht)) [] (WAH_TYPE_AS_NULLABLE ht)
| cs_ref_func f ti : func_type_index M f = Some ti ->
    const_sig WAH_OP_REF_FUNC (imm_u32 f) [] (WAH_TYPE_FROM_IDX ti false)
| cs_ref_i31 : const_sig WAH_OP_REF_I31 imm_none [WAH_TYPE_I32] WAH_TYPE_I31
| cs_struct_new i td : type_def_of i WAH_COMP_STRUCT td ->
    const_sig WAH_OP_STRUCT_NEW (imm_u32 i) (unpacked <$> reverse (field_types td)) (struct_ref i)
| cs_struct_new_default i td : type_def_of i WAH_COMP_STRUCT td -> forallb has_default (field_types td) = true ->
    const_sig WAH_OP_STRUCT_NEW_DEFAULT (imm_u32 i) [] (struct_ref i)
| cs_array_new i td et : type_def_of i WAH_COMP_ARRAY td -> field_types td = [et] ->
    const_sig WAH_OP_ARRAY_NEW (imm_u32 i) [WAH_TYPE_I32; unpacked et] (struct_ref i)
| cs_array_new_default i td et : type_def_of i WAH_COMP_ARRAY td -> field_types td = [et] -> has_default et = true ->
    const_sig WAH_OP_ARRAY_NEW_DEFAULT (imm_u32 i) [WAH_TYPE_I32] (struct_ref i)
| cs_array_new_fixed i n td et : type_def_of i WAH_COMP_ARRAY td -> field_types td = [et] ->
    const_sig WAH_OP_ARRAY_NEW_FIXED (imm_type_length i n) (replicate (Z.to_nat n) (unpacked et)) (struct_ref i).

(** Code from the empty stack to the operands [st].  The conversions between external and
    internal references leave no instruction. *)
Inductive const_typed : list wah_decoded_instr_t -> list wah_type_t -> Prop :=
| ct_nil : const_typed [] []
| ct_instr l st di o pops st1 t : const_typed l st -> di_opcode di = wah_op_value o -> const_sig o (di_imm di) pops t ->
    popn TM false st pops st1 -> const_typed (l ++ [di]) (t :: st1)
| ct_any_convert_extern l st t : const_typed l (t :: st) -> matches TM t WAH_TYPE_EXTERNREF ->
    const_typed l ((if WAH_TYPE_IS_NULLABLE t then WAH_TYPE_ANYREF else WAH_TYPE_ANY) :: st)
| ct_extern_convert_any l st t : const_typed l (t :: st) -> matches TM t WAH_TYPE_ANYREF ->
    const_typed l ((if WAH_TYPE_IS_NULLABLE t then WAH_TYPE_EXTERNREF else WAH_TYPE_EXTERN) :: st).

(** The code added by one instruction follows a rule. *)
Definition const_step (s s' : vstate) : Prop :=
  s_ctl s' = s_ctl s /\
  (const_typed (instrs (s_code s)) (operands s) -> const_typed (instrs (s_code s')) (operands s')).
End Rules.

(** ** Theorems *)

Lemma hierarchy_top_matches m t top : types_wf m -> operand_ok m t -> top ∈ [WAH_TYPE_EXTERN; WAH_TYPE_ANY] ->
  (t =? WAH_TYPE_BOT) || (wah_type_hierarchy_top t (Some m) =? top) = true -> matches m t (WAH_TYPE_AS_NULLABLE top).
Proof.
  intros WF Ht Htop H. destruct (Z.eqb_spec t WAH_TYPE_BOT) as [->|Hne]; [by left|]. apply Z.eqb_eq in H.
  pose proof (operand_non_null _ _ Ht Hne) as Hv. right. right; right.
  assert (Hr : WAH_TYPE_IS_REF t = true).
  { destruct Hv as [Hv|[Hv|[Hv _]]]; [|unfold WAH_TYPE_IS_REF; case_bools; lia|unfold WAH_TYPE_IS_REF; case_bools; lia].
    exfalso. clear Hne Ht. rewrite !elem_of_cons, elem_of_nil in Hv. rewrite !elem_of_cons, elem_of_nil in Htop. destruct_or?; subst; vm_compute in H; done. }
  destruct (top_above m WF _ (type_valid_heap m t Hv Hr)) as [_ Hs]. rewrite top_non_null, H in Hs.
  rewrite !elem_of_cons, elem_of_nil in Htop. destruct_or?; subst; [split_and!..|done]; try done.
Qed.

Section Const.
Context (E : wah_validation_env) (EO : env_ok E) (CE : v_mode E = WAH_ANALYZE_CONST_EXPR) (B : list Z) (G : wah_type_stack_t).
Notation M := (v_module E).
Notation TM := (env_types M).
Notation INV := (inv E B G false).

Lemma step_instr s s' o imm f m pops t st1 : is_unreachable (s_ctl s) = false -> s_ctl s' = s_ctl s ->
  instrs (s_code s') = instrs (s_code s) ++ [DecodedInstr (wah_op_value o) f m imm] -> const_sig M o imm pops t ->
  popn TM (is_unreachable (s_ctl s)) (operands s) pops st1 -> operands s' = t :: st1 -> const_step M s s'.
Proof. intros -> Hc Hl Hs Hp Ho. split; [done|]. intros Ht. rewrite Hl, Ho. by eapply ct_instr. Qed.

Lemma wp_type_def_at i k Q s : 0 <= i ->
  (forall td, 0 <= i < type_count TM -> type_def_ok TM td -> type_def_of M i k td -> Q td s) -> wp (the_type_def E i k) Q s.
Proof.
  intros Hp HQ. unfold the_type_def. repeat vstep EO Hp. apply Z.ltb_lt in Hc.
  destruct (type_def_at E EO i ltac:(lia)) as (td & Htd & Hok). eapply wp_opt; [done|]. repeat vstep EO Hp.
  apply HQ; [lia|done|]. split; [done|]. by destruct (kind td), k.
Qed.
Lemma wp_array_def_at i Q s : 0 <= i ->
  (forall td t, 0 <= i < type_count TM -> type_valid TM t -> type_def_of M i WAH_COMP_ARRAY td -> field_types td = [t] -> Q (td, t) s) ->
  wp (array_def E i) Q s.
Proof.
  intros Hp HQ. unfold array_def. apply wp_bind, wp_type_def_at; [done|]. intros td Hr [H1 H2 H3 _] Htd.
  specialize (H3 (proj2 Htd)). vstep EO Hp. destruct (field_types td) as [|t [|? ?]] eqn:Ef; unfold zlen in H3; simpl in H3; try lia.
  eapply (wp_opt _ t); [done|]. vstep EO Hp. apply Forall_cons in H1 as [H1 _]. by apply HQ.
Qed.

Ltac cs :=
  match goal with
  | R : room _ |- wp ?m _ _ =>
    lazymatch m with
    | the_type_def _ _ _ => eapply wp_type_def_at; [lia|]; intros ? ? ? ?
    | array_def _ _ => eapply wp_array_def_at; [lia|]; intros ? ? ? ? ? ?
    | available => eapply wp_available; [eassumption|]; intros ? ?
    | with_cur wah_decode_sleb128_32 => eapply wp_with_cur; [apply decode_s32_good|eassumption|]; intros ? ? _ ? _
    | with_cur wah_decode_sleb128_64 => eapply wp_with_cur; [apply decode_s64_good|eassumption|]; intros ? ? _ ? _
    | with_cur (take_bytes _) => eapply wp_with_cur; [apply take_bytes_good|eassumption|]; intros ? ? _ ? _
    | pop_fields _ _ => eapply wp_pop_fields; [exact EO|eassumption|tv|]; intros ? ? ? ?
    | emit_instr _ _ => eapply wp_emit_exact; [eassumption|eapply inv_room; eassumption|]; intros ? ? ? ?
    | _ => vstep EO R
    end
  end; cbv beta zeta iota.

(** Closes the final state of an instruction: it follows its rule. *)
Ltac cdone H :=
  split; [eassumption|eapply step_instr; [exact H|reflexivity|reflexivity|..]].

Lemma const_body_wp o s : INV s -> is_unreachable (s_ctl s) = false ->
  match validate_const E o with
  | Some m => o <> WAH_OP_F32_DEMOTE_F64 -> o <> WAH_OP_F64_PROMOTE_F32 -> wp m (fun _ s' => INV s' /\ const_step M s s') s
  | None => True
  end.
Proof.
  intros Hi Hu. assert (R : room s) by (by eapply inv_room). destruct o; try exact I; intros H1 H2; try done; clear H1 H2.
  all: repeat cs; cdone Hu; [constructor|reflexivity|eassumption].
Qed.

Lemma const_class_wp o T s : const_sig M o imm_none [T; T] T -> type_valid TM T -> INV s -> is_unreachable (s_ctl s) = false ->
  wp (validate_class E o [T; T] T) (fun _ s' => INV s' /\ const_step M s s') s.
Proof.
  intros Hs HT Hi Hu. assert (R : room s) by (by eapply inv_room). unfold validate_class.
  apply wp_bind. eapply wp_pop_all; [exact EO|exact Hi|by repeat first [apply Forall_cons_2|apply Forall_nil_2]|]. intros o1 Hi1 Hp _.
  unfold emit_simple. repeat cs. cdone Hu; [exact Hs|exact Hp|assumption].
Qed.

(** All fields are on the stack of reachable code. *)
Lemma wp_pop_all_fields ts n Q s : INV s -> Forall (type_valid TM) ts -> is_unreachable (s_ctl s) || (zlen ts <=? n) = true ->
  is_unreachable (s_ctl s) = false ->
  (forall o, INV (set_ops o s) -> popn TM (is_unreachable (s_ctl s)) (operands s) (unpacked <$> ts) (operands (set_ops o s)) -> Q tt (set_ops o s)) ->
  wp (pop_fields E (take (Z.to_nat n) ts)) Q s.
Proof.
  intros Hi Ht Hn Hu HQ. rewrite Hu in Hn. simpl in Hn. apply Z.leb_le in Hn. unfold zlen in Hn. rewrite take_ge by lia.
  eapply wp_pop_fields; [exact EO|exact Hi|exact Ht|]. intros o Hi1 Hp _. by apply HQ.
Qed.

Lemma const_struct_wp o s : const_expr_op o <> None -> INV s -> is_unreachable (s_ctl s) = false ->
  match validate_struct E o with Some m => wp m (fun _ s' => INV s' /\ const_step M s s') s | None => True end.
Proof.
  intros Hc Hi Hu. assert (R : room s) by (by eapply inv_room). destruct o; try exact I; try done; clear Hc; cbn [validate_struct].
  - do 2 cs. apply wp_bind. apply wp_type_def_at; [lia|]. intros td Hr Hok Htd. do 7 cs.
    eapply wp_pop_all_fields; [eassumption|apply Forall_reverse, Hok| |exact Hu|].
    { unfold zlen in *. rewrite length_reverse. eassumption. }
    intros o1 Hi1 Hp. repeat cs. cdone Hu; [by apply cs_struct_new|exact Hp|assumption].
  - do 2 cs. apply wp_bind. apply wp_type_def_at; [lia|]. intros td Hr Hok Htd. do 2 cs. apply negb_true_iff in Hc.
    repeat cs. cdone Hu; [eapply cs_struct_new_default; [exact Htd|]|reflexivity|eassumption].
    rewrite (td_default _ _ Hok (proj2 Htd)) in Hc. by apply negb_false_iff.
Qed.

Lemma const_array_wp o s : const_expr_op o <> None -> INV s -> is_unreachable (s_ctl s) = false ->
  match validate_array E o with Some m => wp m (fun _ s' => INV s' /\ const_step M s s') s | None => True end.
Proof.
  intros Hc Hi Hu. assert (R : room s) by (by eapply inv_room). destruct o; try exact I; try done; clear Hc; cbn [validate_array].
  - do 2 cs. apply wp_bind, wp_array_def_at; [lia|]. intros td et Hr Het Htd Hf. repeat cs.
    cdone Hu; [by eapply cs_array_new| |eassumption]. eexists. split; [exact Hp|]. eexists. split; [exact Hp0|reflexivity].
  - do 2 cs. apply wp_bind, wp_array_def_at; [lia|]. intros td et Hr Het Htd Hf. repeat cs.
    cdone Hu; [by eapply cs_array_new_default| |eassumption]. eexists. split; [exact Hp|reflexivity].
  - do 4 cs. apply wp_bind, wp_array_def_at; [lia|]. intros td et Hr Het Htd Hf. do 7 cs.
    change (is_unreachable (s_ctl s) || (v0 <=? n) = true) in Hc. rewrite Hu in Hc. apply Z.leb_le in Hc. rewrite Z.min_l by done.
    repeat cs. cdone Hu; [by eapply cs_array_new_fixed| |eassumption]. rewrite <- fmap_replicate. eassumption.
Qed.

Lemma const_convert_wp s t u v l : v ∈ [WAH_TYPE_EXTERN; WAH_TYPE_ANY] -> type_valid TM t -> type_valid TM u ->
  (forall st x, const_typed M l (x :: st) -> matches TM x (WAH_TYPE_AS_NULLABLE v) -> const_typed M l ((if WAH_TYPE_IS_NULLABLE x then t else u) :: st)) ->
  l = instrs (s_code s) -> INV s -> is_unreachable (s_ctl s) = false ->
  wp (x <- wah_validation_pop_type ;;
      stm_ensure ((x =? WAH_TYPE_BOT) || (wah_type_hierarchy_top x (Some TM) =? v)) WAH_ERROR_VALIDATION_FAILED ;;;
      wah_validation_push_type (if WAH_TYPE_IS_NULLABLE x then t else u))
    (fun _ s' => INV s' /\ const_step M s s') s.
Proof.
  intros Hv Ht Hu' Hrule -> Hi Hu. apply wp_bind. eapply wp_pop_into; [exact Hi|]. intros x o Hx Hi1 Hp _.
  apply wp_bind, wp_ensure. intros Hc. apply (hierarchy_top_matches TM x v (types_ok E EO) Hx Hv) in Hc.
  eapply wp_push; [exact Hi1|left; by apply tv_if|]. intros o2 Hi2 Hp2 _. split; [exact Hi2|]. split; [done|].
  intros Hty. rewrite Hp2. apply Hrule; [|exact Hc]. destruct Hp as [Hp|(_ & _ & _ & Hp)]; [by rewrite <- Hp|by rewrite Hu in Hp].
Qed.

Lemma const_ref_wp o s : const_expr_op o <> None -> INV s -> is_unreachable (s_ctl s) = false ->
  match validate_ref E o with Some m => wp m (fun _ s' => INV s' /\ const_step M s s') s | None => True end.
Proof.
  intros Hc Hi Hu. assert (R : room s) by (by eapply inv_room). destruct o; try exact I; try done; clear Hc; cbn [validate_ref].
  - (* ref.null *)
    apply wp_bind. eapply wp_decode_heap_type; [exact Hi|]. intros ht d Hht Hr Hi1. repeat cs.
    cdone Hu; [by apply cs_ref_null|reflexivity|eassumption].
  - (* ref.func *)
    do 4 cs. rewrite CE. apply wp_bind. eapply wp_declare_func; [exact EO|eassumption|eassumption|lia|]. intros a n Hi2.
    destruct (func_at E EO v ltac:(lia) Hc) as (ti & ft & Hti & Hr & _). apply wp_bind. eapply wp_opt; [exact Hti|].
    repeat cs. cdone Hu; [by apply cs_ref_func|reflexivity|eassumption].
  - (* any.convert_extern *)
    eapply const_convert_wp; [set_solver|tv|tv| |reflexivity|exact Hi|exact Hu]. intros st x. apply ct_any_convert_extern.
  - (* extern.convert_any *)
    eapply const_convert_wp; [set_solver|tv|tv| |reflexivity|exact Hi|exact Hu]. intros st x. apply ct_extern_convert_any.
  - (* ref.i31 *)
    repeat cs. cdone Hu; [apply cs_ref_i31| |eassumption]. eexists. split; [exact Hp|reflexivity].
Qed.

Lemma const_global_wp o s : const_expr_op o <> None -> INV s -> is_unreachable (s_ctl s) = false ->
  match validate_variable E o with Some m => wp m (fun _ s' => INV s' /\ const_step M s s') s | None => True end.
Proof.
  intros Hc Hi Hu. assert (R : room s) by (by eapply inv_room). destruct o; try exact I; try done; clear Hc; cbn [validate_variable].
  rewrite CE. do 4 cs. destruct (global_at E EO v Hc ltac:(lia)) as (g & Hg & Hgt).
  assert (Ht : wah_global_type M v = Some (global_type g)) by (unfold wah_global_type; by rewrite Hg).
  assert (Hgo : forall d', INV (set_dec d' s) -> wp (t <- stm_opt (wah_global_type M v) ;;
      wah_validation_push_type t ;;; emit_instr WAH_OP_GLOBAL_GET (imm_u32 v)) (fun _ s' => INV s' /\ const_step M s s') (set_dec d' s)).
  { intros d' Hi2. apply wp_bind. eapply wp_opt; [exact Ht|]. repeat cs. cdone Hu; [by apply cs_global_get|reflexivity|eassumption]. }
  do 4 cs. eapply (wp_opt _ (global_mutable g)); [unfold wah_global_is_mutable; by rewrite Hg|]. do 3 cs.
  - cs. by apply Hgo.
  - cs. by apply Hgo.
Qed.

(** *** Whole code *)

Definition const_body (o : wah_op) : comp vstate unit :=
  match o with
  | WAH_OP_I32_ADD | WAH_OP_I32_SUB | WAH_OP_I32_MUL => validate_class E o [WAH_TYPE_I32; WAH_TYPE_I32] WAH_TYPE_I32
  | WAH_OP_I64_ADD | WAH_OP_I64_SUB | WAH_OP_I64_MUL => validate_class E o [WAH_TYPE_I64; WAH_TYPE_I64] WAH_TYPE_I64
  | _ =>
      match validate_const E o with Some m => m | None =>
      match validate_variable E o with Some m => m | None =>
      match validate_ref E o with Some m => m | None =>
      match validate_struct E o with Some m => m | None =>
      match validate_array E o with Some m => m | None => stm_err WAH_ERROR_MALFORMED
      end end end end end
  end.

Lemma opcode_run v c o s : zget wah_opclasses v = Some c -> opclass_eqb c WAH_OPCLASS_MISSING = false -> wah_opcode_of v = Some o ->
  wah_validate_opcode E v s =
    (check_const_expr_op E o ;;; match opclass_ops c with Some (pops, push) => validate_class E o pops push | None => validate_special E o end) s.
Proof. intros Hc Hm Ho. unfold wah_validate_opcode, stm_bind, stm_opt, stm_ensure, stm_ret. by rewrite Hc, Hm, Ho. Qed.

Lemma const_opcode_run o s : const_expr_op o <> None ->
  wah_validate_opcode E (wah_op_value o) s = (check_const_expr_op E o ;;; const_body o) s.
Proof.
  intros Hc. destruct (const_expr_op o) eqn:Eo; [clear Hc|done].
  destruct o; try discriminate Eo; (erewrite opcode_run by (vm_compute; reflexivity)); reflexivity.
Qed.

(** Only constant instructions pass the check of the mode. *)
Lemma opcode_const v s s' : wah_validate_opcode E v s = (Ok tt, s') ->
  exists o, wah_opcode_of v = Some o /\ is_Some (const_expr_op o).
Proof.
  unfold wah_validate_opcode, stm_bind. destruct (zget _ v) as [c|]; [|done]. simpl.
  unfold stm_ensure. destruct (negb _); [|done]. simpl. destruct (wah_opcode_of v) as [o|]; [|done]. simpl.
  unfold check_const_expr_op. rewrite CE. intros H. exists o. split; [done|]. destruct (const_expr_op o); [by eexists|done].
Qed.

(** The cascade of cases. *)
Lemma const_body_cases (P : comp vstate unit -> Prop) o : const_expr_op o <> None ->
  (o ∈ [WAH_OP_I32_ADD; WAH_OP_I32_SUB; WAH_OP_I32_MUL] -> P (validate_class E o [WAH_TYPE_I32; WAH_TYPE_I32] WAH_TYPE_I32)) ->
  (o ∈ [WAH_OP_I64_ADD; WAH_OP_I64_SUB; WAH_OP_I64_MUL] -> P (validate_class E o [WAH_TYPE_I64; WAH_TYPE_I64] WAH_TYPE_I64)) ->
  match validate_const E o with Some m => o <> WAH_OP_F32_DEMOTE_F64 -> o <> WAH_OP_F64_PROMOTE_F32 -> P m | None => True end ->
  match validate_variable E o with Some m => P m | None => True end ->
  match validate_ref E o with Some m => P m | None => True end ->
  match validate_struct E o with Some m => P m | None => True end ->
  match validate_array E o with Some m => P m | None => True end -> P (const_body o).
Proof.
  intros Hc H32 H64 H1 H2 H3 H4 H5. destruct (const_expr_op o) eqn:Eo; [clear Hc|done].
  destruct o; try discriminate Eo; cbn [validate_const validate_variable validate_ref validate_struct validate_array] in H1, H2, H3, H4, H5;
    first [exact H2|exact H3|exact H4|exact H5|by apply H1|apply H32; set_solver|apply H64; set_solver].
Qed.

Lemma const_body_ok o s : const_expr_op o <> None -> INV s -> is_unreachable (s_ctl s) = false ->
  wp (const_body o) (fun _ s' => INV s' /\ const_step M s s') s.
Proof.
  intros Hc Hi Hu. apply (const_body_cases (fun m => wp m (fun _ s' => INV s' /\ const_step M s s') s)); [exact Hc|..].
  - intros Ho. apply const_class_wp; [by apply cs_i32_binop|tv|done|done].
  - intros Ho. apply const_class_wp; [by apply cs_i64_binop|tv|done|done].
  - by apply const_body_wp.
  - by apply const_global_wp.
  - by apply const_ref_wp.
  - by apply const_struct_wp.
  - by apply const_array_wp.
Qed.

(** One instruction. *)
Lemma const_opcode_wp v s : 0 <= v < WAH_FE -> INV s -> is_unreachable (s_ctl s) = false ->
  wp (wah_validate_opcode E v) (fun _ s' => INV s' /\ const_step M s s') s.
Proof.
  intros Hv Hi Hu. pose proof (wah_validate_opcode_wp E EO B G v s Hv Hi) as Hwp. apply wp_intro; [by eapply wp_no_fault|].
  intros [] s' Hrun. destruct (opcode_const v s s' Hrun) as (o & Ho & [b Hb]). assert (Hc : const_expr_op o <> None) by by rewrite Hb.
  rewrite <- (opcode_value v o Hv Ho), const_opcode_run in Hrun by done.
  assert (Hgo : wp (check_const_expr_op E o ;;; const_body o) (fun _ s' => INV s' /\ const_step M s s') s).
  { apply wp_bind. unfold check_const_expr_op. rewrite CE, Hb. destruct b.
    - eapply wp_features; [apply require_good|exact Hi|]. intros d Hi1 _. apply (const_body_ok o (set_dec d s)); done.
    - apply wp_ret. by apply const_body_ok. }
  exact (wp_Ok _ _ _ _ _ Hgo Hrun).
Qed.
End Const.
