(* ===== verification/ConstExpr.v ===== *)
(** * Constant expressions

    [wah_compile_const_expr] up to the lowering of the code it analyzes, and
    [wah_collect_global_deps], which lists the globals an expression reads: the order
    in which globals are initialized relies on them. *)

From S2P Require Import Prelude Base Alloc Types Opcodes Bytes Leb128 Decode Subtype ModuleEnv Operands Validate ValidInv ValidRules ValidSafe ValidCtl ValidOpcode Analyze RefMaps AnalyzeInv Samples AnalyzeOk ConstTyping.
From stdpp Require Import list sets sorting.
#[local] Open Scope Z_scope.
#[local] Open Scope wah_scope.

(** ** Definitions *)

(** *** The globals an expression reads *)

(** -1, 0 or 1. *)
Definition wah_u32_cmp (x y : Z) : Z := (if y <? x then 1 else 0) - (if x <? y then 1 else 0).
Definition u32_cmp_le (x y : Z) : Prop := wah_u32_cmp x y <= 0.
#[export] Instance u32_cmp_le_dec x y : Decision (u32_cmp_le x y) := Z_le_dec _ _.
(** [qsort] with it: the order is total, so that every sort gives the same array. *)
Definition qsort_u32 (l : list Z) : list Z := merge_sort u32_cmp_le l.

(** The loop that keeps one of equal elements: [last] is [deps[n - 1]]. *)
Fixpoint distinct_from (last : Z) (l : list Z) : list Z :=
  match l with
  | [] => []
  | d :: ds => if d =? last then distinct_from last ds else d :: distinct_from d ds
  end.

Definition is_global_get (di : wah_decoded_instr_t) : bool := di_opcode di =? wah_op_value WAH_OP_GLOBAL_GET.
(** The member [u32] of an immediate. *)
Definition imm_as_u32 (i : wah_imm) : option Z := match i with imm_u32 v => Some v | _ => None end.

(** An absent array is the empty list. *)
Definition wah_collect_global_deps (ac : wah_analyzed_code_t) : comp answers (list Z) :=
  let reads := filter (fun di => is_global_get di = true) (ac_instrs ac) in
  if zlen reads =? 0 then stm_ret []
  else
    wah_malloc_c (zlen reads) 4 ;;;
    deps <- stm_opt (mapM (fun di => imm_as_u32 (di_imm di)) reads) ;;
    match qsort_u32 deps with
    | d :: ds => stm_ret (d :: distinct_from d ds)
    | [] => fun s => (Fault, s)
    end.

(** *** The expression *)

(** The context of a constant expression; the storage is not initialized. *)
Definition const_env (M : wah_module_env) (max_global_idx : Z) : wah_validation_env :=
  ValidationEnv WAH_ANALYZE_CONST_EXPR None 0 max_global_idx None M.
Definition const_start (d : decoder) (a : answers) (notes : wah_module_notes) (stack : list wah_type_t)
    (frames : list wah_validation_control_frame_t) : astate :=
  AState (VState d a (Operands (TypeStack stack 0 0) 0 0) (Control frames 0 false) None None notes (Instrs [] 0)) capture_init.

(** The analyzed code, which is lowered next, and the globals it reads if they are asked
    for. *)
Definition wah_compile_const_expr (M : wah_module_env) (expected_type : wah_type_t) (max_global_idx : Z) (global : bool)
    (stack : list wah_type_t) (frames : list wah_validation_control_frame_t)
  : comp (decoder * answers * wah_module_notes) (wah_analyzed_code_t * list Z) := fun '(d, a, notes) =>
  let '(r, AState v _) := wah_analyze_stream (const_env M max_global_idx) expected_type (const_start d a notes stack frames) in
  match r with
  | Ok ac =>
      if global then
        let '(deps, a) := (deps <- wah_collect_global_deps ac ;; stm_ret (ac, deps)) (s_ans v) in
        (deps, (s_dec v, a, s_notes v))
      else (Ok (ac, []), (s_dec v, s_ans v, s_notes v))
  | Err e => (Err e, (s_dec v, s_ans v, s_notes v))
  | Fault => (Fault, (s_dec v, s_ans v, s_notes v))
  end.

(** *** What they promise *)

(** An instruction of a constant expression: it is a constant one, and reads a global
    only if that is immutable and before the limit. *)
Definition const_instr (E : wah_validation_env) (di : wah_decoded_instr_t) : Prop :=
  (exists o, di_opcode di = wah_op_value o /\ is_Some (const_expr_op o)) /\
  (is_global_get di = true -> exists i, di_imm di = imm_u32 i /\ 0 <= i < v_max_global_idx E /\
     wah_global_is_mutable (v_module E) i = Some false).

(** [deps] lists the globals that the code reads, each once and in order. *)
Definition deps_of (l : list wah_decoded_instr_t) (deps : list Z) : Prop :=
  StronglySorted Z.lt deps /\
  forall i, i ∈ deps <-> exists di, di ∈ l /\ is_global_get di = true /\ di_imm di = imm_u32 i.

(** What was compiled: constant instructions and an [end], which by the typing rules leave
    one operand, of a subtype of the expected type; the dependencies are the globals it reads. *)
Definition const_code (M : wah_module_env) (t : wah_type_t) (max_global : Z) (global : bool) (r : wah_analyzed_code_t * list Z) : Prop :=
  (exists l u, ac_instrs r.1 = l ++ [DecodedInstr (wah_op_value WAH_OP_END) 0 0 imm_none] /\
     Forall (const_instr (const_env M max_global)) l /\ const_typed M l [u] /\ matches (env_types M) u t) /\
  if global then deps_of (ac_instrs r.1) r.2 /\
    Forall (fun i => 0 <= i < max_global /\ wah_global_is_mutable M i = Some false) r.2
  else r.2 = [].

(** ** Theorems *)

(** *** Sorting *)

Lemma u32_cmp_le_iff x y : u32_cmp_le x y <-> x <= y.
Proof. unfold u32_cmp_le, wah_u32_cmp. destruct (Z.ltb_spec y x), (Z.ltb_spec x y); lia. Qed.
#[local] Instance u32_cmp_le_trans : Transitive u32_cmp_le.
Proof. intros x y z. rewrite !u32_cmp_le_iff. lia. Qed.
#[local] Instance u32_cmp_le_total : Total u32_cmp_le.
Proof. intros x y. rewrite !u32_cmp_le_iff. lia. Qed.

Lemma qsort_u32_sorted l : StronglySorted u32_cmp_le (qsort_u32 l).
Proof. apply StronglySorted_merge_sort; apply _. Qed.
Lemma qsort_elem_u32 l x : x ∈ qsort_u32 l <-> x ∈ l.
Proof. unfold qsort_u32. by rewrite merge_sort_Permutation. Qed.

Lemma distinct_from_spec last l : StronglySorted u32_cmp_le (last :: l) ->
  StronglySorted Z.lt (last :: distinct_from last l) /\
  forall x, x ∈ last :: distinct_from last l <-> x ∈ last :: l.
Proof.
  revert last. induction l as [|d ds IH]; intros last Hs; cbn [distinct_from].
  { split; [constructor; constructor|done]. }
  apply StronglySorted_inv in Hs as [Hs Hle]. pose proof Hle as Hle0.
  apply Forall_cons in Hle as [Hd Hle]. rewrite u32_cmp_le_iff in Hd.
  destruct (Z.eqb_spec d last) as [->|Hne].
  - destruct (IH last Hs) as [H1 H2]. split; [done|]. intros x. rewrite H2. set_solver.
  - destruct (IH d Hs) as [H1 H2]. split; [|intros x; rewrite !(elem_of_cons _ x last), H2; done].
    constructor; [done|]. apply Forall_forall. intros x Hx. apply H2 in Hx.
    apply StronglySorted_inv in Hs as [_ Hs]. rewrite Forall_forall in Hs.
    apply elem_of_cons in Hx as [->|Hx]; [lia|]. specialize (Hs x Hx). rewrite u32_cmp_le_iff in Hs. lia.
Qed.

Lemma collect_deps_wp ac a : Forall (fun di => is_global_get di = true -> exists i, di_imm di = imm_u32 i) (ac_instrs ac) ->
  wp (wah_collect_global_deps ac) (fun deps _ => deps_of (ac_instrs ac) deps) a.
Proof.
  intros Hall. unfold wah_collect_global_deps. cbv zeta. set (reads := filter _ _).
  assert (Hreads : forall di, di ∈ reads <-> is_global_get di = true /\ di ∈ ac_instrs ac) by (intros di; unfold reads; by rewrite list_elem_of_filter).
  apply wp_if; intros Hn.
  { apply wp_ret. split; [constructor|]. intros i. split; [by intros ?%elem_of_nil|]. intros (di & H1 & H2 & _).
    assert (Hdi : di ∈ reads) by (by apply Hreads). destruct reads; [by apply elem_of_nil in Hdi|]. unfold zlen in Hn. simpl in Hn. lia. }
  apply wp_bind. unfold wp at 1. destruct (wah_malloc_c_cases (zlen reads) 4 a) as [[a' ->]|[a' ->]]; [|done].
  assert (Hmap : exists deps, mapM (fun di => imm_as_u32 (di_imm di)) reads = Some deps).
  { apply mapM_is_Some. apply Forall_forall. intros di [Hg Hin]%Hreads. rewrite Forall_forall in Hall.
    destruct (Hall di Hin Hg) as [i Hi]. simpl. rewrite Hi. by eexists. }
  destruct Hmap as [deps Hmap]. apply wp_bind. eapply wp_opt; [exact Hmap|]. apply mapM_Some in Hmap.
  assert (Hdeps : forall i, i ∈ deps <-> exists di, di ∈ ac_instrs ac /\ is_global_get di = true /\ di_imm di = imm_u32 i).
  { intros i. split.
    - intros (k & Hk)%list_elem_of_lookup. destruct (Forall2_lookup_r _ _ _ _ _ Hmap Hk) as (di & Hdi & Himm).
      apply list_elem_of_lookup_2 in Hdi. apply Hreads in Hdi as [??]. exists di. split_and!; try done.
      unfold imm_as_u32 in Himm. case_match; by simplify_eq.
    - intros (di & H1 & H2 & H3). assert (Hin : di ∈ reads) by (by apply Hreads).
      apply list_elem_of_lookup in Hin as (k & Hk). destruct (Forall2_lookup_l _ _ _ _ _ Hmap Hk) as (j & Hj & Himm).
      rewrite H3 in Himm. simplify_eq/=. by eapply list_elem_of_lookup_2. }
  pose proof (qsort_u32_sorted deps) as Hsort. pose proof (qsort_elem_u32 deps) as Helem.
  destruct (qsort_u32 deps) as [|d ds].
  - exfalso. destruct deps as [|i deps]; [|specialize (Helem i); set_solver].
    apply Forall2_nil_inv_r in Hmap. rewrite Hmap in Hn. done.
  - apply wp_ret. destruct (distinct_from_spec d ds Hsort) as [H1 H2]. split; [done|].
    intros i. by rewrite H2, Helem, Hdeps.
Qed.

(** *** Instructions *)

Section Const.
Context (E : wah_validation_env) (EO : env_ok E) (CE : v_mode E = WAH_ANALYZE_CONST_EXPR).
Notation M := (v_module E).

(** The reads of globals. *)
Lemma emit_global_get B G i s : inv E B G false s -> 0 <= i < v_max_global_idx E -> wah_global_is_mutable M i = Some false ->
  wp (emit_instr WAH_OP_GLOBAL_GET (imm_u32 i))
    (fun _ s' => exists di, instrs (s_code s') = instrs (s_code s) ++ [di] /\ const_instr E di) s.
Proof.
  intros Hi Hr Hm. eapply wp_emit_exact; [exact Hi|by eapply inv_room|]. intros a cap di _. exists di. split; [done|].
  split; [exists WAH_OP_GLOBAL_GET; split; [done|by eexists]|]. intros _. by exists i.
Qed.

Lemma validate_global_get_wp B G s : inv E B G false s ->
  match validate_variable E WAH_OP_GLOBAL_GET with
  | Some m => wp m (fun _ s' => exists di, instrs (s_code s') = instrs (s_code s) ++ [di] /\ const_instr E di) s
  | None => False
  end.
Proof.
  intros Hi. unfold validate_variable. rewrite CE. apply wp_bind.
  eapply wp_u32; [exact Hi|]. intros i d Hv Hi1 _. apply wp_bind, wp_ensure. intros Hlim. apply wp_bind, wp_bind, wp_ensure.
  intros Hmax%Z.ltb_lt. apply wp_bind. destruct (global_at E EO i Hlim ltac:(lia)) as (g & Hg & Ht).
  eapply (wp_opt _ (global_mutable g)); [unfold wah_global_is_mutable; by rewrite Hg|]. apply wp_bind, wp_ensure. intros Hmut%negb_true_iff.
  assert (Hgo : forall d', inv E B G false (set_dec d' s) -> wp (t <- stm_opt (wah_global_type M i) ;;
      wah_validation_push_type t ;;; emit_instr WAH_OP_GLOBAL_GET (imm_u32 i))
    (fun _ s' => exists di, instrs (s_code s') = instrs (s_code s) ++ [di] /\ const_instr E di) (set_dec d' s)).
  { intros d' Hi2. apply wp_bind. eapply wp_global_type; [exact EO|exact Hlim|lia|]. intros t Htv.
    apply wp_bind. eapply wp_push; [exact Hi2|by left|]. intros o Hi3 _ _.
    eapply wp_mono; [eapply emit_global_get; [exact Hi3|lia|]|by intros]. unfold wah_global_is_mutable. rewrite Hg. simpl. by rewrite Hmut. }
  apply wp_if; intros _; [|by apply wp_ret, Hgo].
  eapply wp_features; [apply require_good|exact Hi1|]. intros d' Hi2 _. by apply Hgo.
Qed.

Lemma validate_global_get_run s : wah_validate_opcode E (wah_op_value WAH_OP_GLOBAL_GET) s =
  default (stm_err WAH_ERROR_MALFORMED) (validate_variable E WAH_OP_GLOBAL_GET) s.
Proof.
  unfold wah_validate_opcode, check_const_expr_op. rewrite CE. reflexivity.
Qed.

(** One instruction follows its rule, and is a constant one. *)
Definition const_emits (s s' : vstate) : Prop :=
  const_step M s s' /\ exists l, instrs (s_code s') = instrs (s_code s) ++ l /\ Forall (const_instr E) l.

Lemma opcode_const_wp B G v s : 0 <= v < WAH_FE -> inv E B G false s -> is_unreachable (s_ctl s) = false ->
  wp (wah_validate_opcode E v) (fun _ s' => inv E B G false s' /\ const_emits s s') s.
Proof.
  intros Hv Hi Hu. pose proof (wah_validate_opcode_wp E EO B G v s Hv Hi) as Hwp. apply wp_intro; [by eapply wp_no_fault|].
  intros [] s' Hrun. destruct (wp_Ok _ _ _ _ _ Hwp Hrun) as (Hi' & o & Ho & l & Hl & _ & Hf & _). split; [done|].
  destruct (wp_Ok _ _ _ _ _ (const_opcode_wp E EO CE B G v s Hv Hi Hu) Hrun) as [_ Hstep]. split; [exact Hstep|].
  destruct (opcode_const E CE v s s' Hrun) as (o' & Ho' & Hc). simplify_eq.
  destruct (decide (v = wah_op_value WAH_OP_GLOBAL_GET)) as [->|Hne].
  - rewrite validate_global_get_run in Hrun. pose proof (validate_global_get_wp B G s Hi) as Hg.
    destruct (validate_variable E WAH_OP_GLOBAL_GET) as [m|]; [|done].
    destruct (wp_Ok _ _ _ _ _ Hg Hrun) as (di & Hdi & Hci). exists [di]. split; [done|]. by constructor.
  - exists l. split; [done|]. apply (Forall_impl _ _ _ Hf). intros di (H1 & _ & _). split; [by exists o|].
    rewrite (opcode_value v o Hv Ho) in H1. unfold is_global_get. rewrite H1. intros Hg%Z.eqb_eq. done.
Qed.

(** *** The run *)

Context (t : wah_type_t) (FB : is_func_body E = false) (Ht : type_valid (env_types M) t).

(** What holds of the states that the analysis goes through. *)
Record const_inv (c0 : list Z) (v : vstate) : Prop := {
  ci_inv : einv E v;
  ci_cursor : cursor (s_dec v) `suffix_of` c0;
  ci_reachable : is_unreachable (s_ctl v) = false;
  ci_control : control_sp (s_ctl v) = 0;
  ci_instrs : Forall (const_instr E) (instrs (s_code v));
  ci_typed : const_typed M (instrs (s_code v)) (operands v) }.

Lemma reached_const s0 p s : start_ok E s0 -> reached E t s0 p s -> const_inv (cursor (s_dec (a_v s0))) (a_v s).
Proof.
  intros Hs. induction 1 as [|p s p' s' Hr IH _ Hstep].
  - destruct (start_inv E s0 Hs) as (G & Hi & _). destruct Hs as [_ (data & Hd & _) (fs & Hc & _) _ _ _ Hcode _].
    split; [by exists G|done|by rewrite Hc..|by rewrite Hcode|].
    rewrite Hcode. assert (operands (a_v s0) = []) as -> by (unfold operands; rewrite Hd; simpl; by rewrite take_0, drop_nil).
    constructor.
  - destruct IH as [H1 H2 H3 H4 H5 H6]. destruct s as [v c]. simpl in *.
    assert (Hwp := wp_expr_step E EO t FB Ht const_emits p v c).
    destruct (wp_Ok _ _ _ _ _ (Hwp ltac:(intros opcode d G Hop Hi; by apply opcode_const_wp) H1) Hstep)
      as (Hi' & -> & _ & Hsuf & d & [Hctl Hty] & l & Hl & Hall).
    split; [done|by etrans|by rewrite Hctl|by rewrite Hctl| |by apply Hty]. rewrite Hl. by apply Forall_app.
Qed.

(** The operands, when no block is open, are the whole stack. *)
Lemma const_operands c0 v : const_inv c0 v ->
  operands v = reverse (take (Z.to_nat (ts_sp (type_stack (s_ops v)))) (ts_data (type_stack (s_ops v)))).
Proof. intros H. unfold operands, base, frames. by rewrite (ci_control _ _ H). Qed.

(** What the run leaves. *)
Definition const_ended (c0 : list Z) (v : vstate) : Prop :=
  cursor (s_dec v) `suffix_of` c0 /\ (exists B G, inv E B G false v) /\
  exists l u, instrs (s_code v) = l ++ [DecodedInstr (wah_op_value WAH_OP_END) 0 0 imm_none] /\
    Forall (const_instr E) l /\ const_typed M l [u] /\ matches (env_types M) u t.

Lemma analyze_const s : start_ok E s ->
  wp (wah_analyze_stream E t) (fun ac s' => const_ended (cursor (s_dec (a_v s))) (a_v s') /\ ac_instrs ac = instrs (s_code (a_v s'))) s.
Proof.
  intros Hs. unfold wp. pose proof (wah_analyze_stream_ok E t s EO (fun _ => Ht) Hs) as H.
  destruct (wah_analyze_stream E t s) as [[ac|e|] s']; [|done|done].
  destruct H as (_ & _ & Hl & p & s1 & Hr & _ & _ & Hend). rewrite FB in Hend. destruct Hend as [(u & Hu & Hm) Hi Hc Hcode].
  pose proof (reached_const s p s1 Hs Hr) as Hci. split; [|exact Hl]. split; [etrans; [exact Hc|apply Hci]|]. split; [exact Hi|].
  exists (instrs (s_code (a_v s1))), u. split_and!; [exact Hcode|apply Hci| |exact Hm].
  pose proof (ci_typed _ _ Hci) as Hty. rewrite (const_operands _ _ Hci), Hu in Hty. exact Hty.
Qed.
End Const.

Lemma const_env_ok M k : module_ok M -> env_ok (const_env M k).
Proof. by intros HM; split. Qed.

Lemma const_start_ok M k d a notes stack frames : decoder_bytes d -> notes_ok M notes ->
  zlen stack = WAH_MAX_TYPE_STACK_SIZE -> zlen frames = WAH_MAX_CONTROL_DEPTH ->
  start_ok (const_env M k) (const_start d a notes stack frames).
Proof. intros. split; simpl; try done; by eexists. Qed.

Lemma compile_const_wp M t max_global global d a notes stack frames :
  module_ok M -> type_valid (env_types M) t -> decoder_bytes d -> notes_ok M notes ->
  zlen stack = WAH_MAX_TYPE_STACK_SIZE -> zlen frames = WAH_MAX_CONTROL_DEPTH ->
  wp (wah_compile_const_expr M t max_global global stack frames) (fun r s' => const_code M t max_global global r /\
    decoder_bytes s'.1.1 /\ cursor s'.1.1 `suffix_of` cursor d /\ notes_ok M s'.2) (d, a, notes).
Proof.
  intros HM Ht Hd Hn Hst Hf. unfold wp, wah_compile_const_expr. set (E := const_env M max_global).
  pose proof (analyze_const E (const_env_ok M max_global HM) eq_refl t eq_refl Ht _
    (const_start_ok M max_global d a notes stack frames Hd Hn Hst Hf)) as Hwp. unfold wp in Hwp.
  destruct (wah_analyze_stream E t _) as [[ac|e|] [v c]]; [|done|done]. destruct Hwp as [He Hac]. simpl in He, Hac.
  destruct He as (Hc & (B & G & [[Hb _] _ _ _ _ Hnotes _]) & l & u & Hl & Hall & Hty & Hm).
  assert (Hcode : exists l u, ac_instrs ac = l ++ [DecodedInstr (wah_op_value WAH_OP_END) 0 0 imm_none] /\
     Forall (const_instr E) l /\ const_typed M l [u] /\ matches (env_types M) u t) by (exists l, u; by rewrite Hac).
  unfold const_code. destruct global; [|done].
  assert (Hall' : forall di, di ∈ ac_instrs ac -> is_global_get di = true ->
    exists i, di_imm di = imm_u32 i /\ 0 <= i < max_global /\ wah_global_is_mutable M i = Some false).
  { intros di Hin Hg. rewrite Hac, Hl in Hin. apply elem_of_app in Hin as [Hin|Hin].
    - rewrite Forall_forall in Hall. by apply (Hall di Hin).
    - apply list_elem_of_singleton in Hin as ->. vm_compute in Hg. done. }
  pose proof (collect_deps_wp ac (s_ans v)) as Hdeps. unfold wp in Hdeps. unfold stm_bind.
  destruct (wah_collect_global_deps ac (s_ans v)) as [[deps|e|] a']; [|done|].
  - destruct Hdeps as [H1 H2]. { apply Forall_forall. intros di Hin Hg. destruct (Hall' di Hin Hg) as (i & ? & _). by exists i. }
    split; [|done]. split; [done|]. split; [by split|]. apply Forall_forall. intros i Hi. apply H2 in Hi as (di & Hin & Hg & Himm).
    destruct (Hall' di Hin Hg) as (j & Hj & Hr). congruence.
  - apply Hdeps. apply Forall_forall. intros di Hin Hg. destruct (Hall' di Hin Hg) as (i & ? & _). by exists i.
Qed.

(** C12. Constant expressions, on any bytes: [wah_compile_const_expr] returns; what it accepts
    is an expression of constant instructions only, ended by an [end], that by the typing rules
    of the specification ([const_typed]) leaves exactly one operand, of a subtype of the
    expected type, and reads only immutable globals before the given limit.  The rest of the
    bytes is left.  The dependencies are exactly the globals the code reads, each once and in order. *)
Theorem wah_compile_const_expr_exact M t max_global global d a notes stack frames :
  module_ok M -> type_valid (env_types M) t -> decoder_bytes d -> notes_ok M notes ->
  zlen stack = WAH_MAX_TYPE_STACK_SIZE -> zlen frames = WAH_MAX_CONTROL_DEPTH ->
  match wah_compile_const_expr M t max_global global stack frames (d, a, notes) with
  | (Ok r, (d', _, _)) => cursor d' `suffix_of` cursor d /\ const_code M t max_global global r
  | (Err _, _) => True
  | (Fault, _) => False
  end.
Proof.
  intros HM Ht Hd Hn Hst Hf. pose proof (compile_const_wp M t max_global global d a notes stack frames HM Ht Hd Hn Hst Hf) as H.
  unfold wp in H. destruct (wah_compile_const_expr _ _ _ _ _ _ _) as [[r|e|] [[d' a'] n']]; [|done|done]. naive_solver.
Qed.

(** [global.get 0; global.get 0; i32.add; end], followed by another byte. *)
Definition sample_const : decoder := Decoder [0x23; 0; 0x23; 0; 0x6A; 0x0B; 0x41] all_features.

Lemma wah_compile_const_expr_exact_witness : exists ac deps d' a' n' l u,
  wah_compile_const_expr sample_module WAH_TYPE_I32 1 true (replicate (Z.to_nat WAH_MAX_TYPE_STACK_SIZE) 0)
    (replicate (Z.to_nat WAH_MAX_CONTROL_DEPTH) blank_frame) (sample_const, [], ModuleNotes 0 None) = (Ok (ac, deps), (d', a', n')) /\
  deps = [0] /\ cursor d' = [0x41] /\ Forall (const_instr (const_env sample_module 1)) l /\ length l = 3%nat /\
  const_typed sample_module l [u] /\ matches (env_types sample_module) u WAH_TYPE_I32.
Proof.
  pose proof (wah_compile_const_expr_exact sample_module WAH_TYPE_I32 1 true sample_const [] (ModuleNotes 0 None)
    (replicate (Z.to_nat WAH_MAX_TYPE_STACK_SIZE) 0) (replicate (Z.to_nat WAH_MAX_CONTROL_DEPTH) blank_frame)
    sample_module_ok (tv_i32 _)) as H.
  assert (Hok : match wah_compile_const_expr sample_module WAH_TYPE_I32 1 true (replicate (Z.to_nat WAH_MAX_TYPE_STACK_SIZE) 0)
    (replicate (Z.to_nat WAH_MAX_CONTROL_DEPTH) blank_frame) (sample_const, [], ModuleNotes 0 None) with
    | (Ok (ac, deps), (d', _, _)) => deps = [0] /\ cursor d' = [0x41] /\ length (ac_instrs ac) = 4%nat
    | _ => False end) by (vm_compute; repeat split).
  destruct (wah_compile_const_expr sample_module WAH_TYPE_I32 1 true _ _ _) as [[[ac deps]|e|] [[d' a'] n']]; [|done|done].
  destruct Hok as (H1 & H2 & H3). destruct H as (_ & (l & u & Hl & Hall & Hty & Hm) & _); simpl in *.
  - repeat (constructor; [unfold is_byte; lia|]). constructor.
  - done.
  - reflexivity.
  - reflexivity.
  - exists ac, deps, d', a', n', l, u. split; [reflexivity|]. split; [exact H1|]. split; [exact H2|]. split; [exact Hall|].
    split; [rewrite Hl, length_app in H3; simpl in H3; lia|]. by split.
Defined.
