(* ===== verification/Sections.v ===== *)
(** * The sections of a module

    The parsers of the import, function, table, memory, tag, global, start, element, data
    and custom sections, on any bytes: none faults, and what they accept is within the
    index spaces and well typed, as validation assumes.  An entry may refer to the entries
    before it, which are in the module that its constant expression is compiled in. *)

From S2P Require Import Prelude Base Alloc Types Opcodes Bytes Leb128 Utf8 Decode Subtype ModuleEnv Operands Validate ValidInv ValidRules ValidSafe Locals ParseIo Analyze AnalyzeInv AnalyzeOk ConstExpr.
From stdpp Require Import list sets.
#[local] Open Scope Z_scope.
#[local] Open Scope wah_scope.

(** ** Definitions *)

(** *** Common parts *)

Definition WAH_KIND_FUNCTION : Z := 0.
Definition WAH_KIND_TABLE : Z := 1.
Definition WAH_KIND_MEMORY : Z := 2.
Definition WAH_KIND_GLOBAL : Z := 3.
Definition WAH_KIND_TAG : Z := 4.

(** What sections with constant expressions change. *)
Definition cio : Type := io * wah_module_notes.
Definition on_sec {A} (m : comp io A) : comp cio A := fun s => let '(r, x) := m s.1 in (r, (x, s.2)).

(** [n] more items, after those of [acc]. *)
Fixpoint parse_items {S A} (f : list A -> comp S A) (n : nat) (acc : list A) : comp S (list A) :=
  match n with
  | O => stm_ret acc
  | S n' => a <- f acc ;; parse_items f n' (acc ++ [a])
  end.

(** A name: its bytes, of which the copy that the allocator gives is made. *)
Definition parse_name : comp io (list Z) := fun s =>
  let fits n := match wah_malloc_c n 1 s.2 with (Ok _, _) => true | _ => false end in
  match wah_parse_name fits (cursor s.1) with
  | (Ok (copy, len), c) => (Ok (take (Z.to_nat len) copy), (Decoder c (dec_features s.1), (wah_malloc_c (len + 1) 1 s.2).2))
  | (Err e, c) => (Err e, (Decoder c (dec_features s.1), s.2))
  | (Fault, c) => (Fault, (Decoder c (dec_features s.1), s.2))
  end.

(** The limits of a memory: flags, then its numbers of pages. *)
Definition memory_type : comp io wah_memory_type_t :=
  flags <- read_byte ;;
  addr_type <- (if (flags =? 0) || (flags =? 1) then stm_ret WAH_TYPE_I32
                else if (flags =? 4) || (flags =? 5) then require_io MEMORY64 ;;; stm_ret WAH_TYPE_I64
                else stm_err WAH_ERROR_MALFORMED) ;;
  min <- on_cur wah_decode_uleb128_64 ;;
  max <- (if negb (Z.land flags 1 =? 0) then on_cur wah_decode_uleb128_64 else stm_ret UINT64_MAX) ;;
  let page_limit := if addr_type =? WAH_TYPE_I32 then 65536 else Z.shiftl 1 48 in
  stm_ensure (min <=? page_limit) WAH_ERROR_VALIDATION_FAILED ;;;
  stm_ensure ((Z.land flags 1 =? 0) || (max <=? page_limit)) WAH_ERROR_VALIDATION_FAILED ;;;
  stm_ensure (min <=? max) WAH_ERROR_VALIDATION_FAILED ;;;
  stm_ret (MemoryType addr_type min max).

(** A reference type of the module [m], of which [funcref] needs no feature. *)
Definition table_elem_type (m : wah_module_t) : comp io wah_type_t :=
  t <- on_decoder wah_decode_ref_type ;;
  stm_ensure (type_index_ok m t) WAH_ERROR_VALIDATION_FAILED ;;;
  (if negb (t =? WAH_TYPE_FUNCREF) then on_decoder (on_features (wah_require_type_features t)) else stm_ret tt) ;;;
  stm_ret t.

(** The limits of a table, whose flags are checked by [flags_ok]. *)
Definition table_limits (flags_ok : Z -> bool) (elem : wah_type_t) : comp io wah_table_type_t :=
  flags <- read_byte ;;
  stm_ensure (flags_ok flags) WAH_ERROR_MALFORMED ;;;
  let is64 := negb (Z.land flags 4 =? 0) in
  (if is64 then require_io MEMORY64 else stm_ret tt) ;;;
  min <- on_cur wah_decode_uleb128_64 ;;
  max <- (if negb (Z.land flags 1 =? 0) then
            max <- on_cur wah_decode_uleb128_64 ;;
            stm_ensure (is64 || (max <=? UINT32_MAX)) WAH_ERROR_VALIDATION_FAILED ;;;
            stm_ret max
          else stm_ret UINT64_MAX) ;;
  stm_ensure (is64 || (min <=? UINT32_MAX)) WAH_ERROR_VALIDATION_FAILED ;;;
  stm_ensure (min <=? max) WAH_ERROR_VALIDATION_FAILED ;;;
  stm_ret (TableType elem (if is64 then WAH_TYPE_I64 else WAH_TYPE_I32) min max).

(** A value type of the module and a mutability. *)
Definition parse_global_type (m : wah_module_t) : comp io wah_global_decl :=
  t <- on_decoder wah_decode_val_type ;;
  stm_ensure (type_index_ok m t) WAH_ERROR_VALIDATION_FAILED ;;;
  on_decoder (on_features (wah_require_type_features t)) ;;;
  mut <- read_byte ;;
  stm_ensure (mut <=? 1) WAH_ERROR_MALFORMED ;;;
  stm_ret (GlobalDecl t (mut =? 1)).

(** The index of a function type. *)
Definition func_type_idx (m : wah_module_t) : comp io Z :=
  type_index <- on_cur wah_decode_uleb128 ;;
  stm_ensure (type_index <? type_count m) WAH_ERROR_VALIDATION_FAILED ;;;
  td <- stm_opt (zget (type_defs m) type_index) ;;
  stm_ensure (comp_kind_eqb (kind td) WAH_COMP_FUNC) WAH_ERROR_VALIDATION_FAILED ;;;
  stm_ret type_index.

(** The type of a tag, which has no results. *)
Definition parse_tag_type (m : wah_module_t) : comp io Z :=
  attribute <- read_byte ;;
  stm_ensure (attribute =? 0) WAH_ERROR_MALFORMED ;;;
  type_index <- func_type_idx m ;;
  ft <- stm_opt (zget (types m) type_index) ;;
  stm_ensure (zlen (result_types ft) =? 0) WAH_ERROR_VALIDATION_FAILED ;;;
  stm_ret type_index.

(** *** Imports *)

(** The names of an import are shared with the entry of its kind. *)
Record wah_import_desc_t := ImportDesc {
  imp_kind : Z; imp_index : Z; imp_module : list Z; imp_name : list Z }.

(** The arrays of the kinds, whose lengths are their counts, and their capacities. *)
Record import_arrays := ImportArrays {
  im_descs : list wah_import_desc_t;
  im_funcs : list Z; im_func_cap : Z;
  im_tables : list wah_table_type_t; im_table_cap : Z;
  im_memories : list wah_memory_type_t; im_memory_cap : Z;
  im_globals : list wah_global_decl; im_global_cap : Z;
  im_tags : list Z; im_tag_cap : Z }.
Definition no_imports : import_arrays := ImportArrays [] [] 0 [] 0 [] 0 [] 0 [] 0.

Definition sizeof_wah_import_desc_t : Z := 72.
Definition sizeof_wah_func_import_t : Z := 40.
Definition sizeof_wah_table_import_t : Z := 136.
Definition sizeof_wah_memory_import_t : Z := 56.
Definition sizeof_wah_global_import_t : Z := 40.
Definition sizeof_wah_tag_import_t : Z := 40.

(** [(flags & ~0x05) == 0]. *)
Definition import_table_flags (flags : Z) : bool := Z.land flags (Z.lnot 5) =? 0.

Section Types.
Context (m : wah_module_t).

(** One import, which is added to [im]. *)
Definition parse_import (im : import_arrays) : comp io import_arrays :=
  module <- parse_name ;;
  name <- parse_name ;;
  kind <- read_byte ;;
  let '(ImportArrays ds fs fc ts tc ms mc gs gc tgs tgc) := im in
  let descs index := ds ++ [ImportDesc kind index module name] in
  if kind =? WAH_KIND_FUNCTION then
    fc <- on_answers (wah_grow_array (u32 (zlen fs + 1)) sizeof_wah_func_import_t fc) ;;
    ti <- func_type_idx m ;;
    stm_ret (ImportArrays (descs (zlen fs)) (fs ++ [ti]) fc ts tc ms mc gs gc tgs tgc)
  else if kind =? WAH_KIND_TABLE then
    tc <- on_answers (wah_grow_array (u32 (zlen ts + 1)) sizeof_wah_table_import_t tc) ;;
    elem <- table_elem_type m ;;
    tt <- table_limits import_table_flags elem ;;
    stm_ret (ImportArrays (descs (zlen ts)) fs fc (ts ++ [tt]) tc ms mc gs gc tgs tgc)
  else if kind =? WAH_KIND_MEMORY then
    (if 0 <? zlen ms then require_io MULTI_MEMORY else stm_ret tt) ;;;
    mc <- on_answers (wah_grow_array (u32 (zlen ms + 1)) sizeof_wah_memory_import_t mc) ;;
    mt <- memory_type ;;
    stm_ret (ImportArrays (descs (zlen ms)) fs fc ts tc (ms ++ [mt]) mc gs gc tgs tgc)
  else if kind =? WAH_KIND_GLOBAL then
    gc <- on_answers (wah_grow_array (u32 (zlen gs + 1)) sizeof_wah_global_import_t gc) ;;
    g <- parse_global_type m ;;
    stm_ret (ImportArrays (descs (zlen gs)) fs fc ts tc ms mc (gs ++ [g]) gc tgs tgc)
  else if kind =? WAH_KIND_TAG then
    tgc <- on_answers (wah_grow_array (u32 (zlen tgs + 1)) sizeof_wah_tag_import_t tgc) ;;
    require_io EXCEPTION ;;;
    ti <- parse_tag_type m ;;
    stm_ret (ImportArrays (descs (zlen tgs)) fs fc ts tc ms mc gs gc (tgs ++ [ti]) tgc)
  else stm_err WAH_ERROR_MALFORMED.

Fixpoint parse_imports (n : nat) (im : import_arrays) : comp io import_arrays :=
  match n with
  | O => stm_ret im
  | S n' => im <- parse_import im ;; parse_imports n' im
  end.

Definition wah_parse_import_section : comp io import_arrays :=
  count <- on_cur (wah_decode_and_validate_count 4) ;;
  if count =? 0 then stm_ret no_imports
  else
    malloc_io count sizeof_wah_import_desc_t ;;;
    parse_imports (Z.to_nat count) no_imports.

(** *** Functions, memories and tags *)

Definition wah_parse_function_section : comp io (list Z) :=
  count <- on_cur (wah_decode_and_validate_count 1) ;;
  malloc_io count 4 ;;;
  parse_items (fun _ => func_type_idx m) (Z.to_nat count) [].

Definition sizeof_wah_memory_type_t : Z := 24.
Definition wah_parse_memory_section (import_memory_count : Z) : comp io (list wah_memory_type_t) :=
  count <- on_cur (wah_decode_and_validate_count 2) ;;
  (if 1 <? import_memory_count + count then require_io MULTI_MEMORY else stm_ret tt) ;;;
  if 0 <? count then
    malloc_io count sizeof_wah_memory_type_t ;;;
    parse_items (fun _ => memory_type) (Z.to_nat count) []
  else stm_ret [].

Definition wah_parse_tag_section : comp io (list Z) :=
  require_io EXCEPTION ;;;
  count <- on_cur (wah_decode_and_validate_count 2) ;;
  malloc_io count 4 ;;;
  parse_items (fun _ => parse_tag_type m) (Z.to_nat count) [].
End Types.

Definition wah_parse_custom_section : comp io unit := fun s =>
  match (name_len <- wah_decode_uleb128 ;;
         rest <- stm_get ;;
         stm_ensure (name_len <=? zlen rest) WAH_ERROR_UNEXPECTED_EOF ;;;
         valid <- stm_opt (wah_is_valid_utf8 rest name_len) ;;
         stm_ensure valid WAH_ERROR_MALFORMED ;;;
         stm_put []) (cursor s.1) with
  | (r, c) => (r, (Decoder c (dec_features s.1), s.2))
  end.

(** *** Tables and globals *)

Definition set_tables (l : list wah_table_type_t) (M : wah_module_env) : wah_module_env :=
  ModuleEnv (env_types M) (func_imports M) (function_type_indices M) (table_imports M) l (memory_imports M) (memories M)
    (global_imports M) (globals M) (tag_imports M) (tags M) (element_segments M) (data_segment_count M) (fuel_metering M).
Definition set_globals (l : list wah_global_decl) (M : wah_module_env) : wah_module_env :=
  ModuleEnv (env_types M) (func_imports M) (function_type_indices M) (table_imports M) (tables M) (memory_imports M) (memories M)
    (global_imports M) l (tag_imports M) (tags M) (element_segments M) (data_segment_count M) (fuel_metering M).

(** The storage of the stacks of a validation, which is not initialized: what it holds
    may differ each time. *)
Section Storage.
Context (stack_storage : list Z -> list wah_type_t) (frame_storage : list Z -> list wah_validation_control_frame_t).

Definition const_expr (M : wah_module_env) (t : wah_type_t) (max_global_idx : Z) (global : bool)
  : comp cio (wah_analyzed_code_t * list Z) := fun s =>
  wah_compile_const_expr M t max_global_idx global (stack_storage (cursor s.1.1)) (frame_storage (cursor s.1.1)) s.

Section Module.
Context (M : wah_module_env).

(** A flag of 0x40 announces an initializer, after another byte. *)
Definition table_flags (flags : Z) : bool := (flags =? 0) || (flags =? 1) || (flags =? 4) || (flags =? 5).
Definition parse_table (acc : list (wah_table_type_t * option wah_analyzed_code_t))
  : comp cio (wah_table_type_t * option wah_analyzed_code_t) :=
  first <- on_sec peek_io ;;
  let has_init_expr := first =? 0x40 in
  (if has_init_expr then
     on_sec (require_io TYPED_FUNCREF) ;;;
     on_sec (on_cur take_byte) ;;;
     zero <- on_sec read_byte ;;
     stm_ensure (zero =? 0) WAH_ERROR_MALFORMED
   else stm_ret tt) ;;;
  elem <- on_sec (table_elem_type (env_types M)) ;;
  tt <- on_sec (table_limits table_flags elem) ;;
  if has_init_expr then
    let M := set_tables (acc.*1 ++ [tt]) M in
    e <- const_expr M elem (wah_global_index_limit M) false ;;
    stm_ret (tt, Some e.1)
  else
    stm_ensure (WAH_TYPE_IS_NULLABLE elem) WAH_ERROR_VALIDATION_FAILED ;;;
    stm_ret (tt, None).

Definition sizeof_wah_table_type_t : Z := 104.
Definition wah_parse_table_section : comp cio (list (wah_table_type_t * option wah_analyzed_code_t)) :=
  count <- on_sec (on_cur (wah_decode_and_validate_count 3)) ;;
  if 0 <? count then
    on_sec (malloc_io count sizeof_wah_table_type_t) ;;;
    parse_items parse_table (Z.to_nat count) []
  else stm_ret [].

(** The initializer of a global sees the globals before it. *)
Definition parse_global (acc : list (wah_global_decl * (wah_analyzed_code_t * list Z)))
  : comp cio (wah_global_decl * (wah_analyzed_code_t * list Z)) :=
  g <- on_sec (parse_global_type (env_types M)) ;;
  init <- const_expr (set_globals (acc.*1 ++ [g]) M) (global_type g) (u32 (zlen (global_imports M) + zlen acc)) true ;;
  stm_ret (g, init).

Definition sizeof_wah_global_t : Z := 104.
Definition wah_parse_global_section : comp cio (list (wah_global_decl * (wah_analyzed_code_t * list Z))) :=
  count <- on_sec (on_cur (wah_decode_and_validate_count 3)) ;;
  on_sec (malloc_io count sizeof_wah_global_t) ;;;
  parse_items parse_global (Z.to_nat count) [].

(** *** The start function *)

Definition wah_parse_start_section : comp io Z :=
  idx <- on_cur wah_decode_uleb128 ;;
  stm_ensure (idx <? wah_func_index_limit M) WAH_ERROR_VALIDATION_FAILED ;;;
  type_idx <- stm_opt (func_type_index M idx) ;;
  stm_ensure (type_idx <? type_count (env_types M)) WAH_ERROR_VALIDATION_FAILED ;;;
  ft <- stm_opt (zget (types (env_types M)) type_idx) ;;
  stm_ensure ((zlen (param_types ft) =? 0) && (zlen (result_types ft) =? 0)) WAH_ERROR_VALIDATION_FAILED ;;;
  stm_ret idx.
End Module.
End Storage.

(** *** What is accepted *)

(** A defined function type. *)
Definition is_func_type (m : wah_module_t) (ti : Z) : Prop :=
  0 <= ti < type_count m /\ exists td, zget (type_defs m) ti = Some td /\ kind td = WAH_COMP_FUNC.
Definition is_tag_type (m : wah_module_t) (ti : Z) : Prop :=
  is_func_type m ti /\ exists ft, zget (types m) ti = Some ft /\ result_types ft = [].

(** Limits within the range of the addresses; [UINT64_MAX] is no maximum. *)
Definition limits_ok (bound min max : Z) : Prop := 0 <= min <= max /\ min <= bound /\ (max <= bound \/ max = UINT64_MAX).
Definition memory_ok (mt : wah_memory_type_t) : Prop :=
  addr_type_ok (mem_addr_type mt) /\
  limits_ok (if mem_addr_type mt =? WAH_TYPE_I32 then 65536 else 2 ^ 48) (min_pages mt) (max_pages mt).
Definition table_ok (m : wah_module_t) (tt : wah_table_type_t) : Prop :=
  (type_valid m (elem_type tt) /\ addr_type_ok (tab_addr_type tt)) /\ WAH_TYPE_IS_REF (elem_type tt) = true /\
  limits_ok (if tab_addr_type tt =? WAH_TYPE_I32 then UINT32_MAX else UINT64_MAX) (min_elements tt) (max_elements tt).
Definition global_ok (m : wah_module_t) (g : wah_global_decl) : Prop := type_valid m (global_type g).

(** The arrays of a parsed import section. *)
Record imports_ok (m : wah_module_t) (im : import_arrays) : Prop := {
  ims_funcs : Forall (is_func_type m) (im_funcs im);
  ims_tables : Forall (table_ok m) (im_tables im);
  ims_memories : Forall memory_ok (im_memories im);
  ims_globals : Forall (global_ok m) (im_globals im);
  ims_tags : Forall (is_tag_type m) (im_tags im);
  ims_count : zlen (im_descs im) = zlen (im_funcs im) + zlen (im_tables im) + zlen (im_memories im) + zlen (im_globals im) + zlen (im_tags im);
  ims_caps : cap_ok (im_func_cap im) /\ cap_ok (im_table_cap im) /\ cap_ok (im_memory_cap im) /\ cap_ok (im_global_cap im) /\ cap_ok (im_tag_cap im) }.

(** An entry is judged by the entries before it. *)
Definition items_ok {A} (P : list A -> A -> Prop) (l : list A) : Prop :=
  forall i x, l !! i = Some x -> P (take i l) x.

(** A table has an initializer, in a module in which it is the last table, or its
    elements may be null. *)
Definition table_entry_ok (M : wah_module_env) (acc : list (wah_table_type_t * option wah_analyzed_code_t))
    (x : wah_table_type_t * option wah_analyzed_code_t) : Prop :=
  table_ok (env_types M) x.1 /\
  match x.2 with
  | Some ac => const_code (set_tables (acc.*1 ++ [x.1]) M) (elem_type x.1) (wah_global_index_limit M) false (ac, [])
  | None => WAH_TYPE_IS_NULLABLE (elem_type x.1) = true
  end.
(** The initializer of a global, which reads only globals before it. *)
Definition global_entry_ok (M : wah_module_env) (acc : list (wah_global_decl * (wah_analyzed_code_t * list Z)))
    (x : wah_global_decl * (wah_analyzed_code_t * list Z)) : Prop :=
  global_ok (env_types M) x.1 /\
  const_code (set_globals (acc.*1 ++ [x.1]) M) (global_type x.1) (zlen (global_imports M) + zlen acc) true x.2.

(** A function without parameters and results. *)
Definition start_fn_ok (M : wah_module_env) (i : Z) : Prop :=
  0 <= i < wah_func_index_limit M /\
  exists ft, wah_resolve_func_type M i = Some ft /\ param_types ft = [] /\ result_types ft = [].

(** ** Theorems *)

(** *** Parsers of items *)

Lemma wp_parse_items {S A} (f : list A -> comp S A) (I : list A -> S -> Prop) n acc s : I acc s ->
  (forall l s, (length acc <= length l < length acc + n)%nat -> I l s -> wp (f l) (fun a s' => I (l ++ [a]) s') s) ->
  wp (parse_items f n acc) (fun l s' => I l s' /\ length l = (length acc + n)%nat) s.
Proof.
  revert acc s. induction n as [|n IH]; intros acc s HI Hf; cbn [parse_items].
  - apply wp_ret. split; [done|lia].
  - apply wp_bind. eapply wp_mono; [apply Hf; [lia|done]|]. intros a s' HI'. eapply wp_mono; [apply IH; [exact HI'|]|].
    + intros l s1 Hl HIl. apply Hf; [rewrite length_app in Hl; simpl in Hl; lia|done].
    + intros l s1 [H1 H2]. split; [done|]. rewrite length_app in H2. simpl in H2. lia.
Qed.

Lemma io_items {A} (f : list A -> comp io A) (V : A -> Prop) n : (forall l, Forall V l -> io_good (f l) V) ->
  io_good (parse_items f n []) (fun l => Forall V l /\ length l = n).
Proof.
  intros Hf s Hs. eapply wp_mono.
  - apply (wp_parse_items f (fun l s' => decoder_bytes s'.1 /\ cursor s'.1 `suffix_of` cursor s.1 /\ Forall V l)).
    + split_and!; [done|done|constructor].
    + intros l s1 _ (H1 & H2 & H3). eapply wp_mono; [by apply Hf|]. intros a s2 (H4 & H5 & H6).
      split_and!; [done|by etrans|]. apply Forall_app. split; [done|]. by constructor.
  - intros l s' [(H1 & H2 & H3) H4]. by split_and!.
Qed.

(** A section of items, no more than it has bytes. *)
Definition io_section {A} (m : comp io (list A)) (V : A -> Prop) : Prop :=
  forall s, decoder_bytes s.1 -> zlen (cursor s.1) < 2 ^ 32 ->
    wp m (fun l s' => decoder_bytes s'.1 /\ cursor s'.1 `suffix_of` cursor s.1 /\ Forall V l /\ zlen l <= zlen (cursor s.1)) s.

Lemma wp_counted {A} k (m : Z -> comp io (list A)) V s : 0 < k -> decoder_bytes s.1 -> zlen (cursor s.1) < 2 ^ 32 ->
  (forall n, 0 <= n < 2 ^ 32 -> io_good (m n) (fun l => Forall V l /\ length l = Z.to_nat n)) ->
  wp (n <- on_cur (wah_decode_and_validate_count k) ;; m n)
    (fun l s' => decoder_bytes s'.1 /\ cursor s'.1 `suffix_of` cursor s.1 /\ Forall V l /\ zlen l <= zlen (cursor s.1)) s.
Proof.
  intros Hk Hs Hlen Hm. apply wp_bind, wp_io_count; [done|done|lia|]. intros n s1 Hn Hnk Hb Hsuf _.
  eapply wp_mono; [apply (Hm n Hn s1 Hb)|]. intros l s' (H1 & H2 & H3 & H4). split_and!; [done|by etrans|done|].
  unfold zlen in *. nia.
Qed.

(** *** Types of entries *)

Lemma io_parse_name : io_good parse_name utf8_text.
Proof.
  intros [[c f] a] Hs. unfold wp, parse_name, wah_parse_name. simpl. unfold decoder_bytes in Hs. simpl in Hs.
  destruct (wah_decode_uleb128_faultless c Hs) as [Hf Hb]. unfold stm_bind at 1.
  destruct (wah_decode_uleb128 c) as [[n|e|] c1] eqn:E; [|done|done]. apply (proj1 (wah_decode_uleb128_iff _ _ _ Hs)) in E as (bs & -> & Hu).
  pose proof (uleb_nonneg _ _ _ Hu). simpl in Hb. unfold stm_bind, stm_get, stm_ensure, stm_opt, stm_put, stm_ret, stm_err.
  destruct (Z.leb_spec n (zlen c1)) as [Hle|]; [|done]. set (name := take (Z.to_nat n) c1).
  assert (Hn : zlen name = n) by (unfold name, zlen in *; rewrite length_take; lia).
  destruct (wah_is_valid_utf8_prefix name (drop (Z.to_nat n) c1)) as (b & Eb & Hv); [by apply Forall_take|].
  unfold name in Eb at 1. rewrite take_drop, Hn in Eb. rewrite Eb. destruct b; [|done].
  destruct (wah_malloc_c_cases (n + 1) 1 a) as [[a' ->]|[a' ->]]; [|done].
  assert (Hd : Forall is_byte (drop (Z.to_nat n) c1)) by (by apply Forall_drop). split; [exact Hd|]. simpl.
  split; [by apply suffix_app_r, suffix_drop|]. rewrite take_app_length' by (unfold name, zlen in *; lia). by apply Hv.
Qed.

Lemma io_memory_type : io_good memory_type memory_ok.
Proof.
  unfold memory_type. eapply io_bind; [apply io_read_byte|]. intros flags _.
  eapply (io_bind _ _ addr_type_ok).
  - repeat (apply io_if; intros _); [by apply io_ret; left| |apply io_err]. eapply io_bind; [apply io_require|]. intros _ _.
    apply io_ret. by right.
  - intros at_ Hat. eapply io_bind; [apply io_u64b|]. intros min [Hmin _].
    eapply (io_bind _ _ (fun max => 0 <= max /\ ((Z.land flags 1 =? 0) = true -> max = UINT64_MAX))).
    + apply io_if; intros Hf; [|apply io_ret; by split]. eapply io_mono; [apply io_u64|]. intros v Hv. split; [exact Hv|].
      intros Hf'. by rewrite Hf' in Hf.
    + intros max [Hmax Hno]. cbv zeta. set (limit := if _ =? _ then _ else _).
      eapply io_bind; [apply io_ensure|]. intros [] H1%Z.leb_le. eapply io_bind; [apply io_ensure|]. intros [] H2%orb_true_iff.
      eapply io_bind; [apply io_ensure|]. intros [] H3%Z.leb_le. apply io_ret. split; [done|]. simpl. fold limit.
      split; [lia|]. split; [done|]. destruct H2 as [H2|H2%Z.leb_le]; auto.
Qed.

Lemma io_table_elem_type m : io_good (table_elem_type m) (fun t => type_valid m t /\ WAH_TYPE_IS_REF t = true).
Proof.
  unfold table_elem_type. eapply io_bind; [apply io_ref_type|]. intros t [Ht Hr]. eapply io_bind; [apply io_ensure|]. intros [] Hi.
  eapply (io_bind _ _ (fun _ => True)); [apply io_if; intros _; [apply io_type_features|by apply io_ret]|]. intros [] _.
  apply io_ret. split; [by apply decoded_type_valid|done].
Qed.

Lemma io_table_limits m flags_ok elem : type_valid m elem -> WAH_TYPE_IS_REF elem = true ->
  io_good (table_limits flags_ok elem) (fun tt => table_ok m tt /\ elem_type tt = elem).
Proof.
  intros He Hr. unfold table_limits. eapply io_bind; [apply io_read_byte|]. intros flags _.
  eapply io_bind; [apply io_ensure|]. intros [] _. cbv zeta. set (is64 := negb (Z.land flags 4 =? 0)).
  eapply (io_bind _ _ (fun _ => True)); [apply io_if; intros _; [apply io_require|by apply io_ret]|]. intros [] _.
  eapply io_bind; [apply io_u64b|]. intros min [Hmin Hmin2].
  eapply (io_bind _ _ (fun max => 0 <= max < 2 ^ 64 /\ (is64 = false -> max <= UINT32_MAX \/ max = UINT64_MAX))).
  - apply io_if; intros _; [|apply io_ret; split; [done|by right]]. eapply io_bind; [apply io_u64b|]. intros max [Hm Hm0].
    eapply io_bind; [apply io_ensure|]. intros [] H%orb_true_iff. apply io_ret. split; [done|]. intros Hf. rewrite Hf in H.
    destruct H as [|H%Z.leb_le]; [done|by left].
  - intros max [Hm1 Hm2]. eapply io_bind; [apply io_ensure|]. intros [] H1%orb_true_iff. eapply io_bind; [apply io_ensure|]. intros [] H2%Z.leb_le.
    apply io_ret. split; [|done]. split; [split; [done|]|split; [done|]]; simpl.
    + destruct is64; [by right|by left].
    + unfold limits_ok, UINT64_MAX in *. destruct is64; [simpl; lia|]. specialize (Hm2 eq_refl). destruct H1 as [|H1%Z.leb_le]; [done|].
      simpl. lia.
Qed.

Lemma io_global_type m : io_good (parse_global_type m) (global_ok m).
Proof.
  unfold parse_global_type. eapply io_bind; [apply io_val_type|]. intros t Ht. eapply io_bind; [apply io_ensure|]. intros [] Hi.
  eapply io_bind; [apply io_type_features|]. intros [] _. eapply io_bind; [apply io_read_byte|]. intros mut _.
  eapply io_bind; [apply io_ensure|]. intros [] _. apply io_ret. by apply decoded_type_valid.
Qed.

Lemma io_func_type_idx m : io_good (func_type_idx m) (is_func_type m).
Proof.
  unfold func_type_idx. eapply io_bind; [apply io_u32|]. intros ti [Hti _]. eapply io_bind; [apply io_ensure|]. intros [] Hlt%Z.ltb_lt.
  destruct (zget_is_Some (type_defs m) ti) as [td Htd]; [unfold type_count in Hlt; lia|].
  eapply io_bind; [by apply (io_opt _ td (eq td))|]. intros _ <-. eapply io_bind; [apply io_ensure|]. intros [] Hk%comp_kind_eqb_spec.
  apply io_ret. split; [lia|by exists td].
Qed.

Lemma io_tag_type m : zlen (types m) = type_count m -> io_good (parse_tag_type m) (is_tag_type m).
Proof.
  intros Hc. unfold parse_tag_type. eapply io_bind; [apply io_read_byte|]. intros a _. eapply io_bind; [apply io_ensure|]. intros [] _.
  eapply io_bind; [apply io_func_type_idx|]. intros ti Hti. destruct (zget_is_Some (types m) ti) as [ft Hft]; [rewrite Hc; apply Hti|].
  eapply io_bind; [by apply (io_opt _ ft (eq ft))|]. intros _ <-. eapply io_bind; [apply io_ensure|]. intros [] Hr%Z.eqb_eq.
  apply io_ret. split; [done|]. exists ft. split; [done|]. by destruct (result_types ft).
Qed.

(** *** The import section *)

Lemma io_grow needed k cap : cap_ok cap -> 0 <= needed -> io_good (on_answers (wah_grow_array needed k cap)) cap_ok.
Proof.
  intros Hc Hn. apply io_answers. intros a. pose proof (wah_grow_array_cap needed k cap a Hc Hn) as H. unfold wp.
  destruct (wah_grow_array needed k cap a) as [[c|e|] a']; [|done|done]. apply H.
Qed.
Lemma io_grow_len {A} (l : list A) k cap : cap_ok cap -> io_good (on_answers (wah_grow_array (u32 (zlen l + 1)) k cap)) cap_ok.
Proof. intros Hc. apply io_grow; [done|]. apply u32_range. Qed.

Lemma Forall_snoc_2 {A} (P : A -> Prop) l x : Forall P l -> P x -> Forall P (l ++ [x]).
Proof. intros. apply Forall_app. split; [done|]. by constructor. Qed.

(** The entry of one kind is added, after its capacity. *)
#[local] Ltac import_entry :=
  apply io_ret; split; [|apply zlen_snoc];
  split; simpl; rewrite ?zlen_snoc; first [lia | by apply Forall_snoc_2 | done].

Lemma io_import m im : zlen (types m) = type_count m -> imports_ok m im ->
  io_good (parse_import m im) (fun im' => imports_ok m im' /\ zlen (im_descs im') = zlen (im_descs im) + 1).
Proof.
  intros Ht Him. unfold parse_import. eapply io_bind; [apply io_parse_name|]. intros module _.
  eapply io_bind; [apply io_parse_name|]. intros name _. eapply io_bind; [apply io_read_byte|]. intros kind _.
  destruct im as [ds fs fc ts tc ms mc gs gc tgs tgc]. destruct Him as [I1 I2 I3 I4 I5 I6 (C1 & C2 & C3 & C4 & C5)]. simpl in *.
  repeat (apply io_if; intros _).
  - eapply io_bind; [by apply io_grow_len|]. intros c Hc. eapply io_bind; [apply io_func_type_idx|]. intros ti Hti.
    import_entry.
  - eapply io_bind; [by apply io_grow_len|]. intros c Hc. eapply io_bind; [apply io_table_elem_type|]. intros t [Hv Hr].
    eapply io_bind; [by apply (io_table_limits m)|]. intros tt [Htt _].
    import_entry.
  - eapply (io_bind _ _ (fun _ => True)); [apply io_if; intros _; [apply io_require|by apply io_ret]|]. intros [] _.
    eapply io_bind; [by apply io_grow_len|]. intros c Hc. eapply io_bind; [apply io_memory_type|]. intros mt Hmt.
    import_entry.
  - eapply io_bind; [by apply io_grow_len|]. intros c Hc. eapply io_bind; [apply io_global_type|]. intros g Hg.
    import_entry.
  - eapply io_bind; [by apply io_grow_len|]. intros c Hc. eapply io_bind; [apply io_require|]. intros [] _.
    eapply io_bind; [by apply io_tag_type|]. intros ti Hti.
    import_entry.
  - apply io_err.
Qed.

Lemma io_imports m n im : zlen (types m) = type_count m -> imports_ok m im ->
  io_good (parse_imports m n im) (fun im' => imports_ok m im' /\ zlen (im_descs im') = zlen (im_descs im) + Z.of_nat n).
Proof.
  intros Ht. revert im. induction n as [|n IH]; intros im Him; cbn [parse_imports]; [apply io_ret; split; [done|lia]|].
  eapply io_bind; [by apply io_import|]. intros im1 [H1 H2]. eapply io_mono; [by apply IH|]. intros im2 [H3 H4]. split; [done|lia].
Qed.

Lemma no_imports_ok m : imports_ok m no_imports.
Proof. by split; simpl; try constructor; repeat split; left. Qed.

Lemma wp_import_section m s : zlen (types m) = type_count m -> decoder_bytes s.1 -> zlen (cursor s.1) < 2 ^ 32 ->
  wp (wah_parse_import_section m) (fun im s' => decoder_bytes s'.1 /\ cursor s'.1 `suffix_of` cursor s.1 /\ imports_ok m im /\
    zlen (im_descs im) <= zlen (cursor s.1)) s.
Proof.
  intros Ht Hs Hlen. unfold wah_parse_import_section. apply wp_bind, wp_io_count; [done|lia|lia|]. intros n s1 Hn Hnk Hb Hsuf _.
  apply wp_if; intros _.
  - apply wp_ret. split_and!; [done|done|apply no_imports_ok|]. unfold zlen. simpl. lia.
  - enough (Hg : io_good (malloc_io n sizeof_wah_import_desc_t ;;; parse_imports m (Z.to_nat n) no_imports)
      (fun im => imports_ok m im /\ zlen (im_descs im) = n)).
    { eapply wp_mono; [by apply Hg|]. intros im s2 (H1 & H2 & H3 & H4). split_and!; [done|by etrans|done|lia]. }
    eapply io_bind; [apply io_malloc|]. intros [] _. eapply io_mono; [apply io_imports; [done|apply no_imports_ok]|].
    intros im [H1 H2]. split; [done|]. change (zlen (im_descs no_imports)) with 0 in H2. lia.
Qed.

(** *** Functions, memories, tags and custom sections *)

Lemma section_function m : io_section (wah_parse_function_section m) (is_func_type m).
Proof.
  intros s Hs Hl. apply wp_counted; [lia|done|done|]. intros n Hn. eapply io_bind; [apply io_malloc|]. intros [] _.
  apply io_items. intros l _. apply io_func_type_idx.
Qed.

Lemma section_memory k : io_section (wah_parse_memory_section k) memory_ok.
Proof.
  intros s Hs Hl. apply wp_counted; [lia|done|done|]. intros n Hn.
  eapply (io_bind _ _ (fun _ => True)); [apply io_if; intros _; [apply io_require|by apply io_ret]|]. intros [] _.
  apply io_if; intros H0.
  - eapply io_bind; [apply io_malloc|]. intros [] _. apply io_items. intros l _. apply io_memory_type.
  - apply Z.ltb_ge in H0. apply io_ret. split; [constructor|]. simpl. lia.
Qed.

Lemma section_tag m : zlen (types m) = type_count m -> io_section (wah_parse_tag_section m) (is_tag_type m).
Proof.
  intros Ht s Hs Hl. unfold wah_parse_tag_section. apply wp_bind. eapply wp_mono; [by apply io_require|]. intros [] s1 (H1 & H2 & _).
  assert (Hl1 : zlen (cursor s1.1) <= zlen (cursor s.1)) by (apply suffix_length in H2; unfold zlen; lia).
  eapply wp_mono.
  - apply (wp_counted 2 _ (is_tag_type m)); [lia|done|lia|]. intros n Hn. eapply io_bind; [apply io_malloc|]. intros [] _.
    apply io_items. intros l _. by apply io_tag_type.
  - intros l s2 (H3 & H4 & H5 & H6). split_and!; [done|by etrans|done|lia].
Qed.

Lemma io_custom : io_good wah_parse_custom_section (fun _ => True).
Proof.
  intros [[c f] a] Hs. unfold wp, wah_parse_custom_section. simpl. unfold decoder_bytes in *. simpl in *.
  destruct (wah_decode_uleb128_faultless c Hs) as [Hf Hb]. unfold stm_bind at 1.
  destruct (wah_decode_uleb128 c) as [[n|e|] c1] eqn:E; [|done|done]. apply (proj1 (wah_decode_uleb128_iff _ _ _ Hs)) in E as (bs & -> & Hu).
  pose proof (uleb_nonneg _ _ _ Hu). simpl in Hb. unfold stm_bind, stm_get, stm_ensure, stm_opt, stm_put, stm_ret, stm_err.
  destruct (Z.leb_spec n (zlen c1)) as [Hle|]; [|done]. set (name := take (Z.to_nat n) c1).
  assert (Hn : zlen name = n) by (unfold name, zlen in *; rewrite length_take; lia).
  destruct (wah_is_valid_utf8_prefix name (drop (Z.to_nat n) c1)) as (b & Eb & Hv); [by apply Forall_take|].
  unfold name in Eb at 1. rewrite take_drop, Hn in Eb. rewrite Eb. destruct b; [|done].
  split; [constructor|]. split; [apply suffix_nil|done].
Qed.

(** *** Sections with constant expressions *)

(** What a parser keeps, with the notes of the module. *)
Definition cio_good (M : wah_module_env) {A} (m : comp cio A) (V : A -> Prop) : Prop :=
  forall s, decoder_bytes s.1.1 -> notes_ok M s.2 ->
    wp m (fun v s' => decoder_bytes s'.1.1 /\ cursor s'.1.1 `suffix_of` cursor s.1.1 /\ notes_ok M s'.2 /\ V v) s.

Lemma wp_on_sec {A} (m : comp io A) (Q : A -> cio -> Prop) s :
  wp m (fun v x => Q v (x, s.2)) s.1 -> wp (on_sec m) Q s.
Proof. unfold wp, on_sec. destruct (m s.1) as [[v|e|] x]; auto. Qed.
Lemma cio_sec M {A} (m : comp io A) V : io_good m V -> cio_good M (on_sec m) V.
Proof. intros H s Hb Hn. apply wp_on_sec. eapply wp_mono; [by apply H|]. intros v x (H1 & H2 & H3). by split_and!. Qed.
Lemma cio_bind M {A B} (m : comp cio A) (k : A -> comp cio B) V W :
  cio_good M m V -> (forall v, V v -> cio_good M (k v) W) -> cio_good M (stm_bind k m) W.
Proof.
  intros Hm Hk s Hb Hn. apply wp_bind. eapply wp_mono; [by apply Hm|]. intros v s1 (H1 & H2 & H3 & H4).
  eapply wp_mono; [by apply (Hk v H4)|]. intros w s2 (H5 & H6 & H7 & H8). split_and!; [done|by etrans|done|done].
Qed.
Lemma cio_ret M {A} (a : A) (V : A -> Prop) : V a -> cio_good M (stm_ret a) V.
Proof. by intros HV s Hb Hn. Qed.
Lemma cio_ensure M c e : cio_good M (stm_ensure c e) (fun _ => c = true).
Proof. intros s Hb Hn. by destruct c. Qed.
Lemma cio_if M {A} (c : bool) (m m' : comp cio A) V :
  (c = true -> cio_good M m V) -> (c = false -> cio_good M m' V) -> cio_good M (if c then m else m') V.
Proof. destruct c; auto. Qed.
Lemma cio_mono M {A} (m : comp cio A) (V W : A -> Prop) : cio_good M m V -> (forall v, V v -> W v) -> cio_good M m W.
Proof. intros H HV s Hb Hn. eapply wp_mono; [by apply H|]. naive_solver. Qed.
Lemma cio_opt M {A} (o : option A) a (V : A -> Prop) : o = Some a -> V a -> cio_good M (stm_opt o) V.
Proof. intros -> HV s Hb Hn. done. Qed.

Lemma items_ok_snoc {A} (P : list A -> A -> Prop) l x : items_ok P l -> P l x -> items_ok P (l ++ [x]).
Proof.
  intros Hl Hx i y [H|[Hi [H1 ->]%list_lookup_singleton_Some]]%lookup_app_Some.
  - rewrite take_app_le by (apply lookup_lt_Some in H; lia). by apply Hl.
  - replace i with (length l) by lia. by rewrite take_app_length.
Qed.
Lemma items_ok_Forall {A B} (P : list A -> A -> Prop) (f : A -> B) (Q : B -> Prop) l :
  items_ok P l -> (forall l x, P l x -> Q (f x)) -> Forall Q (f <$> l).
Proof. intros Hl HQ. apply Forall_fmap, Forall_lookup. intros i x Hx. by eapply HQ, Hl. Qed.

Lemma cio_items M {A} (f : list A -> comp cio A) (P : list A -> A -> Prop) n :
  (forall l, items_ok P l -> (length l < n)%nat -> cio_good M (f l) (P l)) ->
  cio_good M (parse_items f n []) (fun l => items_ok P l /\ length l = n).
Proof.
  intros Hf s Hb Hn. eapply wp_mono.
  - apply (wp_parse_items f (fun l s' => decoder_bytes s'.1.1 /\ cursor s'.1.1 `suffix_of` cursor s.1.1 /\ notes_ok M s'.2 /\ items_ok P l)).
    + split_and!; [done|done|done|]. intros i x H. by rewrite lookup_nil in H.
    + intros l s1 Hl (H1 & H2 & H3 & H4). eapply wp_mono; [apply Hf; [done|simpl in Hl; lia|done|done]|]. intros a s2 (H5 & H6 & H7 & H8).
      split_and!; [done|by etrans|done|]. by apply items_ok_snoc.
  - intros l s' [(H1 & H2 & H3 & H4) H5]. by split_and!.
Qed.

Lemma wp_sec_count {A} M k (m : Z -> comp cio (list A)) (P : list A -> A -> Prop) s : 0 < k ->
  decoder_bytes s.1.1 -> notes_ok M s.2 -> zlen (cursor s.1.1) < 2 ^ 32 ->
  (forall n, 0 <= n <= zlen (cursor s.1.1) -> cio_good M (m n) (fun l => items_ok P l /\ length l = Z.to_nat n)) ->
  wp (n <- on_sec (on_cur (wah_decode_and_validate_count k)) ;; m n)
    (fun l s' => decoder_bytes s'.1.1 /\ cursor s'.1.1 `suffix_of` cursor s.1.1 /\ notes_ok M s'.2 /\ items_ok P l /\
       zlen l <= zlen (cursor s.1.1)) s.
Proof.
  destruct s as [x0 n0]. simpl. intros Hk Hb Hn Hlen Hm. apply wp_bind, wp_on_sec, wp_io_count; [done|done|simpl; lia|]. simpl. intros n x Hr Hnk Hb1 Hsuf _.
  eapply wp_mono; [apply (Hm n); [nia|exact Hb1|exact Hn]|]. intros l s2 (H1 & H2 & H3 & H4 & H5).
  split_and!; [done|by etrans|done|done|]. unfold zlen in *. nia.
Qed.

Lemma set_tables_ok M l : module_ok M -> zlen (table_imports M) + zlen l < 2 ^ 32 -> Forall (table_ok (env_types M)) l ->
  module_ok (set_tables l M).
Proof.
  intros [] Hl Ht. split; try done. destruct mo_tables as (_ & H & _). split_and!; [done|done|].
  eapply Forall_impl; [exact Ht|]. intros tt Htt. apply Htt.
Qed.
Lemma set_globals_ok M l : module_ok M -> zlen (global_imports M) + zlen l < 2 ^ 32 -> Forall (global_ok (env_types M)) l ->
  module_ok (set_globals l M).
Proof. intros [] Hl Hg. split; try done. destruct mo_globals as (_ & H & _). by split_and!. Qed.

Section Storage.
Context (stack_storage : list Z -> list wah_type_t) (frame_storage : list Z -> list wah_validation_control_frame_t).
Hypothesis stack_len : forall c, zlen (stack_storage c) = WAH_MAX_TYPE_STACK_SIZE.
Hypothesis frame_len : forall c, zlen (frame_storage c) = WAH_MAX_CONTROL_DEPTH.

(** In a module [M'] with the same functions, a constant expression is compiled. *)
Lemma cio_const_expr M M' t k global : module_ok M' -> type_valid (env_types M') t ->
  wah_func_index_limit M' = wah_func_index_limit M ->
  cio_good M (const_expr stack_storage frame_storage M' t k global) (const_code M' t k global).
Proof.
  intros HM Ht Hl [[d a] n] Hb Hn. simpl in *. unfold const_expr. simpl.
  assert (Hn' : notes_ok M' n) by (unfold notes_ok in *; by rewrite Hl).
  eapply wp_mono; [by apply (compile_const_wp M' t k global d a n)|]. intros r s' (H1 & H2 & H3 & H4).
  split_and!; [done|done| |done]. unfold notes_ok in *. by rewrite <- Hl.
Qed.

Context (M : wah_module_env) (HM : module_ok M).

(** After a byte has been seen, it can be taken. *)
Lemma table_prefix (c : bool) s : decoder_bytes s.1.1 -> notes_ok M s.2 -> cursor s.1.1 <> [] ->
  wp (if c then on_sec (require_io TYPED_FUNCREF) ;;; on_sec (on_cur take_byte) ;;;
       zero <- on_sec read_byte ;; stm_ensure (zero =? 0) WAH_ERROR_MALFORMED
     else stm_ret tt)
    (fun _ s' => decoder_bytes s'.1.1 /\ cursor s'.1.1 `suffix_of` cursor s.1.1 /\ notes_ok M s'.2) s.
Proof.
  destruct s as [x n]. simpl. intros Hb Hn Hc. apply wp_if; intros _; [|by apply wp_ret].
  destruct (cursor x.1) as [|b cur] eqn:Hcur; [done|]. apply wp_bind, wp_on_sec, wp_require_io. intros y Hy.
  apply wp_bind, wp_on_sec. simpl. eapply wp_take_io; [etrans; [exact Hy|exact Hcur]|].
  enough (Hg : cio_good M (zero <- on_sec read_byte ;; stm_ensure (zero =? 0) WAH_ERROR_MALFORMED) (fun _ => True)).
  { eapply wp_mono; [apply Hg; [|done]|].
    - unfold decoder_bytes in *. simpl. rewrite Hcur in Hb. by apply Forall_cons in Hb as [_ Hb].
    - simpl. intros [] s' (H1 & H2 & H3 & _). split_and!; [done| |done]. etrans; [exact H2|]. by exists [b]. }
  eapply cio_bind; [apply cio_sec, io_read_byte|]. intros zero _. eapply cio_mono; [apply cio_ensure|done].
Qed.

Lemma cio_table acc : items_ok (table_entry_ok M) acc -> zlen (table_imports M) + zlen acc + 1 < 2 ^ 32 ->
  cio_good M (parse_table stack_storage frame_storage M acc) (table_entry_ok M acc).
Proof.
  intros Hacc Hlen s Hb Hn. unfold parse_table. apply wp_bind, wp_on_sec, wp_peek_io; [done|].
  intros first cur Hcur _. cbv zeta. apply wp_bind. eapply wp_mono; [apply table_prefix; [done|done|simpl; by rewrite Hcur]|].
  intros [] s1 (Hb1 & Hs1 & Hn1).
  enough (Hg : cio_good M (elem <- on_sec (table_elem_type (env_types M)) ;; tt <- on_sec (table_limits table_flags elem) ;;
    if first =? 0x40 then
      e <- const_expr stack_storage frame_storage (set_tables (acc.*1 ++ [tt]) M) elem (wah_global_index_limit M) false ;;
      stm_ret (tt, Some e.1)
    else stm_ensure (WAH_TYPE_IS_NULLABLE elem) WAH_ERROR_VALIDATION_FAILED ;;; stm_ret (tt, None)) (table_entry_ok M acc)).
  { eapply wp_mono; [by apply Hg|]. intros x s2 (H1 & H2 & H3 & H4). split_and!; [done|by etrans|done|done]. }
  eapply cio_bind; [apply cio_sec, io_table_elem_type|]. intros elem [Hv Hr].
  eapply cio_bind; [by apply cio_sec, io_table_limits|]. intros tt [Htt <-]. apply cio_if; intros _.
  - eapply cio_bind.
    + apply (cio_const_expr M (set_tables (acc.*1 ++ [tt]) M)); [|done|done]. apply set_tables_ok; [done| |].
      * rewrite zlen_snoc. unfold zlen in *. rewrite length_fmap. lia.
      * apply Forall_snoc_2; [|done]. eapply items_ok_Forall; [exact Hacc|]. by intros l x [H _].
    + intros e He. apply cio_ret. split; [done|]. simpl. destruct e as [ac deps]. destruct He as [He1 He2]. by split.
  - eapply cio_bind; [apply cio_ensure|]. intros [] Hnull. apply cio_ret. by split.
Qed.

Lemma cio_global acc : items_ok (global_entry_ok M) acc -> zlen (global_imports M) + zlen acc + 1 < 2 ^ 32 ->
  cio_good M (parse_global stack_storage frame_storage M acc) (global_entry_ok M acc).
Proof.
  intros Hacc Hlen. unfold parse_global. eapply cio_bind; [apply cio_sec, io_global_type|]. intros g Hg.
  assert (HM' : module_ok (set_globals (acc.*1 ++ [g]) M)).
  { apply set_globals_ok; [done| |].
    - rewrite zlen_snoc. unfold zlen in *. rewrite length_fmap. lia.
    - apply Forall_snoc_2; [|done]. eapply items_ok_Forall; [exact Hacc|]. by intros l x [H _]. }
  rewrite u32_small by (unfold zlen in *; lia).
  eapply cio_bind; [by apply (cio_const_expr M)|]. intros init Hi. by apply cio_ret.
Qed.

Lemma wp_table_section s : decoder_bytes s.1.1 -> notes_ok M s.2 -> zlen (table_imports M) + zlen (cursor s.1.1) < 2 ^ 32 ->
  wp (wah_parse_table_section stack_storage frame_storage M)
    (fun l s' => decoder_bytes s'.1.1 /\ cursor s'.1.1 `suffix_of` cursor s.1.1 /\ notes_ok M s'.2 /\
       items_ok (table_entry_ok M) l /\ zlen l <= zlen (cursor s.1.1)) s.
Proof.
  intros Hb Hn Hlen. apply wp_sec_count; [lia|done|done|unfold zlen in *; lia|]. intros n Hn0. apply cio_if; intros H0.
  - eapply cio_bind; [apply cio_sec, io_malloc|]. intros [] _. apply cio_items. intros l Hl Hln.
    apply cio_table; [done|]. unfold zlen in *. lia.
  - apply Z.ltb_ge in H0. apply cio_ret. split; [|simpl; lia]. intros i x H. by rewrite lookup_nil in H.
Qed.

Lemma wp_global_section s : decoder_bytes s.1.1 -> notes_ok M s.2 -> zlen (global_imports M) + zlen (cursor s.1.1) < 2 ^ 32 ->
  wp (wah_parse_global_section stack_storage frame_storage M)
    (fun l s' => decoder_bytes s'.1.1 /\ cursor s'.1.1 `suffix_of` cursor s.1.1 /\ notes_ok M s'.2 /\
       items_ok (global_entry_ok M) l /\ zlen l <= zlen (cursor s.1.1)) s.
Proof.
  intros Hb Hn Hlen. apply wp_sec_count; [lia|done|done|unfold zlen in *; lia|]. intros n Hn0.
  eapply cio_bind; [apply cio_sec, io_malloc|]. intros [] _. apply cio_items. intros l Hl Hln.
  apply cio_global; [done|]. unfold zlen in *. lia.
Qed.
End Storage.

(** *** The start function *)

Lemma func_type_in_range M i : module_ok M -> 0 <= i < wah_func_index_limit M ->
  exists ti, func_type_index M i = Some ti /\ 0 <= ti < type_count (env_types M).
Proof.
  intros HM Hi. destruct (space_get _ _ _ i (mo_funcs M HM)) as (ti & Hti & Hr); [lia|apply Z.ltb_lt, Hi|]. by exists ti.
Qed.

Lemma io_start M : module_ok M -> io_good (wah_parse_start_section M) (start_fn_ok M).
Proof.
  intros HM. unfold wah_parse_start_section. eapply io_bind; [apply io_u32|]. intros i [Hi _].
  eapply io_bind; [apply io_ensure|]. intros [] Hlt%Z.ltb_lt. destruct (func_type_in_range M i HM) as (ti & Hti & Hr); [lia|].
  eapply io_bind; [by apply (io_opt _ ti (eq ti))|]. intros _ <-. eapply io_bind; [apply io_ensure|]. intros [] _.
  destruct (zget_is_Some (types (env_types M)) ti) as [ft Hft]; [rewrite (mo_count M HM); lia|].
  eapply io_bind; [by apply (io_opt _ ft (eq ft))|]. intros _ <-. eapply io_bind; [apply io_ensure|].
  intros [] [H1%Z.eqb_eq H2%Z.eqb_eq]%andb_prop. apply io_ret. split; [lia|]. exists ft. unfold wah_resolve_func_type. rewrite Hti. simpl.
  split_and!; [done|by destruct (param_types ft)|by destruct (result_types ft)].
Qed.
