(* ===== verification/Segments.v ===== *)
(** * Element and data segments

    [wah_parse_element_section], [wah_parse_data_section] and [wah_parse_datacount_section]
    on any bytes.  Segments are checked against the tables and memories they initialize,
    and functions that they list are declared.  Expressions are given by their analyzed
    code: that they are lowered into one array is not modelled. *)

From S2P Require Import Prelude Base Alloc Types Opcodes Bytes Leb128 Decode Subtype ModuleEnv Operands Validate ValidInv ValidRules ValidSafe Locals ParseIo Analyze AnalyzeInv AnalyzeOk ConstExpr Sections.
From stdpp Require Import list sets.
#[local] Open Scope Z_scope.
#[local] Open Scope wah_scope.

(** ** Definitions *)

Record wah_element_segment_t := ElementSegment {
  es_active : bool; es_declarative : bool; es_expr_elem : bool;
  es_table : Z; es_offset : option wah_analyzed_code_t; es_elem_type : wah_type_t;
  es_funcs : list Z; es_exprs : list wah_analyzed_code_t }.
Record wah_data_segment_t := DataSegment {
  ds_flags : Z; ds_memory : Z; ds_offset : option wah_analyzed_code_t; ds_data : list Z }.

Definition sizeof_wah_element_segment_t : Z := 120.
Definition sizeof_wah_data_segment_t : Z := 104.

Definition set_segments (l : list wah_type_t) (M : wah_module_env) : wah_module_env :=
  ModuleEnv (env_types M) (func_imports M) (function_type_indices M) (table_imports M) (tables M) (memory_imports M) (memories M)
    (global_imports M) (globals M) (tag_imports M) (tags M) l (data_segment_count M) (fuel_metering M).
Definition set_data_count (n : Z) (M : wah_module_env) : wah_module_env :=
  ModuleEnv (env_types M) (func_imports M) (function_type_indices M) (table_imports M) (tables M) (memory_imports M) (memories M)
    (global_imports M) (globals M) (tag_imports M) (tags M) (element_segments M) n (fuel_metering M).

(** [wah_declare_func] on the notes of the module. *)
Definition declare (M : wah_module_env) (func_idx : Z) : comp cio unit := fun '(d, a, n) =>
  let '(r, (a, ds)) := wah_declare_func M func_idx (a, declared_funcs n) in (r, (d, a, ModuleNotes (min_data_required n) ds)).

(** [flags], of which [flags & 3] is the mode: active in table 0, passive, active or
    declarative. *)
Definition segment_mode (flags : Z) : Z := Z.land flags 3.
Definition segment_flags : comp io Z :=
  flags <- on_cur wah_decode_uleb128 ;;
  stm_ensure (flags <=? 7) WAH_ERROR_MALFORMED ;;;
  (if negb (flags =? 0) then require_io BULK_MEMORY else stm_ret tt) ;;;
  (if segment_mode flags =? 3 then require_io REF_TYPES else stm_ret tt) ;;;
  stm_ret flags.

Section Storage.
Context (stack_storage : list Z -> list wah_type_t) (frame_storage : list Z -> list wah_validation_control_frame_t).
Notation const_expr M t := (const_expr stack_storage frame_storage M t (wah_global_index_limit M) false).

(** *** One element segment

    [M] has the segments before it; no constant instruction refers to a segment. *)
Section Element.
Context (M : wah_module_env).

Definition segment_table (mode : Z) : comp io Z :=
  if mode =? 0 then
    stm_ensure (0 <? wah_table_index_limit M) WAH_ERROR_VALIDATION_FAILED ;;; stm_ret 0
  else if mode =? 2 then
    table_idx <- on_cur wah_decode_uleb128 ;;
    stm_ensure (table_idx <? wah_table_index_limit M) WAH_ERROR_VALIDATION_FAILED ;;;
    stm_ret table_idx
  else stm_ret 0.

Definition segment_offset (is_active : bool) (table_idx : Z) : comp cio (option wah_analyzed_code_t) :=
  if is_active then
    offset_type <- (if table_idx <? wah_table_index_limit M then
                      tt <- stm_opt (wah_table_type M table_idx) ;;
                      stm_ret (if tab_addr_type tt =? WAH_TYPE_I64 then WAH_TYPE_I64 else WAH_TYPE_I32)
                    else stm_ret WAH_TYPE_I32) ;;
    e <- const_expr M offset_type ;;
    stm_ret (Some e.1)
  else stm_ret None.

Definition segment_elem_type (mode : Z) (is_expr_elem : bool) : comp io wah_type_t :=
  if 0 <? mode then
    if is_expr_elem then
      t <- on_decoder wah_decode_ref_type ;;
      stm_ensure (WAH_TYPE_IS_REF t) WAH_ERROR_VALIDATION_FAILED ;;;
      stm_ensure (type_index_ok (env_types M) t) WAH_ERROR_VALIDATION_FAILED ;;;
      (if negb (t =? WAH_TYPE_FUNCREF) then on_decoder (on_features (wah_require_type_features t)) else stm_ret tt) ;;;
      stm_ret t
    else
      elemkind <- read_byte ;;
      stm_ensure (elemkind =? 0) WAH_ERROR_MALFORMED ;;;
      stm_ret WAH_TYPE_FUNCREF
  else stm_ret WAH_TYPE_FUNCREF.

(** A list of functions has no nulls: nullability is then not compared. *)
Definition segment_fits (is_active is_expr_elem : bool) (table_idx : Z) (elem : wah_type_t) : comp cio unit :=
  if is_active then
    tt <- stm_opt (wah_table_type M table_idx) ;;
    if is_expr_elem then wah_validate_type_match (const_env M 0) elem (elem_type tt)
    else
      b <- is_subtype (const_env M 0) (WAH_TYPE_AS_NON_NULL elem) (WAH_TYPE_AS_NON_NULL (elem_type tt)) ;;
      stm_ensure b WAH_ERROR_VALIDATION_FAILED
  else stm_ret tt.

Definition segment_func : comp cio Z :=
  funcidx <- on_sec (on_cur wah_decode_uleb128) ;;
  stm_ensure (funcidx <? wah_func_index_limit M) WAH_ERROR_VALIDATION_FAILED ;;;
  declare M funcidx ;;;
  stm_ret funcidx.
Definition segment_expr (elem : wah_type_t) : comp cio wah_analyzed_code_t :=
  e <- const_expr M elem ;; stm_ret e.1.

(** The elements, of which a declarative segment stores none. *)
Definition segment_elems (is_declarative is_expr_elem : bool) (elem : wah_type_t)
  : comp cio (list Z * list wah_analyzed_code_t) :=
  num_elems <- on_sec (on_cur (wah_decode_and_validate_count 1)) ;;
  if is_declarative then
    (if is_expr_elem then parse_items (fun _ => segment_expr elem) (Z.to_nat num_elems) [] ;;; stm_ret tt
     else parse_items (fun _ => segment_func) (Z.to_nat num_elems) [] ;;; stm_ret tt) ;;;
    stm_ret ([], [])
  else if 0 <? num_elems then
    if negb is_expr_elem then
      on_sec (malloc_io num_elems 4) ;;;
      fs <- parse_items (fun _ => segment_func) (Z.to_nat num_elems) [] ;;
      stm_ret (fs, [])
    else
      on_sec (malloc_io (num_elems + 1) 4) ;;;
      es <- parse_items (fun _ => segment_expr elem) (Z.to_nat num_elems) [] ;;
      stm_ret ([], es)
  else stm_ret ([], []).

Definition parse_element_segment : comp cio wah_element_segment_t :=
  flags <- on_sec segment_flags ;;
  let mode := segment_mode flags in
  let is_expr_elem := negb (Z.land flags 4 =? 0) in
  let is_active := (mode =? 0) || (mode =? 2) in
  let is_declarative := mode =? 3 in
  table_idx <- on_sec (segment_table mode) ;;
  offset <- segment_offset is_active table_idx ;;
  elem <- on_sec (segment_elem_type mode is_expr_elem) ;;
  segment_fits is_active is_expr_elem table_idx elem ;;;
  ' (fs, es) <- segment_elems is_declarative is_expr_elem elem ;;
  stm_ret (ElementSegment is_active is_declarative is_expr_elem table_idx offset elem fs es).
End Element.

Section Module.
Context (M : wah_module_env).

Definition wah_parse_element_section : comp cio (list wah_element_segment_t) :=
  count <- on_sec (on_cur (wah_decode_and_validate_count 1)) ;;
  if 0 <? count then
    on_sec (malloc_io count sizeof_wah_element_segment_t) ;;;
    parse_items (fun acc => parse_element_segment (set_segments (es_elem_type <$> acc) M)) (Z.to_nat count) []
  else stm_ret [].

(** *** Data segments *)

Definition segment_memory (flags : Z) : comp io Z :=
  if flags =? 0 then stm_ret 0
  else if flags =? 1 then stm_ret 0
  else if flags =? 2 then
    memory_idx <- on_cur wah_decode_uleb128 ;;
    stm_ensure (memory_idx <? wah_memory_index_limit M) WAH_ERROR_VALIDATION_FAILED ;;;
    stm_ret memory_idx
  else stm_err WAH_ERROR_MALFORMED.

(** [data_len] bytes, which are copied. *)
Definition segment_data : comp io (list Z) :=
  data_len <- on_cur wah_decode_uleb128 ;;
  s <- stm_get ;;
  stm_ensure (data_len <=? zlen (cursor s.1)) WAH_ERROR_UNEXPECTED_EOF ;;;
  (if 0 <? data_len then malloc_io data_len 1 else stm_ret tt) ;;;
  on_cur (take_bytes (Z.to_nat data_len)).

Definition parse_data_segment (acc : list wah_data_segment_t) : comp cio wah_data_segment_t :=
  flags <- on_sec (on_cur wah_decode_uleb128) ;;
  (if negb (flags =? 0) then on_sec (require_io BULK_MEMORY) else stm_ret tt) ;;;
  memory_idx <- on_sec (segment_memory flags) ;;
  offset <- (if (flags =? 0) || (flags =? 2) then
               stm_ensure (memory_idx <? wah_memory_index_limit M) WAH_ERROR_VALIDATION_FAILED ;;;
               mt <- stm_opt (wah_memory_type M memory_idx) ;;
               e <- const_expr (set_data_count (zlen acc + 1) M) (mem_addr_type mt) ;;
               stm_ret (Some e.1)
             else stm_ret None) ;;
  data <- on_sec segment_data ;;
  stm_ret (DataSegment flags memory_idx offset data).

(** [has_data_count]: there was a data count section, whose count is in [M]. *)
Definition wah_parse_data_section (has_data_count : bool) : comp cio (list wah_data_segment_t) :=
  count <- on_sec (on_cur (wah_decode_and_validate_count 2)) ;;
  (if has_data_count then stm_ensure (count =? data_segment_count M) WAH_ERROR_MALFORMED else stm_ret tt) ;;;
  if 0 <? count then
    on_sec (malloc_io count sizeof_wah_data_segment_t) ;;;
    parse_items parse_data_segment (Z.to_nat count) []
  else stm_ret [].
End Module.
End Storage.

Definition wah_parse_datacount_section : comp io Z :=
  require_io BULK_MEMORY ;;; on_cur wah_decode_uleb128.

(** *** What is accepted *)

(** The table of an active segment, at an offset of its address type, takes elements of
    the segment's type, and functions of it whether it takes nulls or not. *)
Definition active_ok (M : wah_module_env) (s : wah_element_segment_t) : Prop :=
  exists tt ac, 0 <= es_table s < wah_table_index_limit M /\ wah_table_type M (es_table s) = Some tt /\
    es_offset s = Some ac /\ const_code M (tab_addr_type tt) (wah_global_index_limit M) false (ac, []) /\
    if es_expr_elem s then matches (env_types M) (es_elem_type s) (elem_type tt)
    else type_sub (env_types M) (WAH_TYPE_AS_NON_NULL (es_elem_type s)) (WAH_TYPE_AS_NON_NULL (elem_type tt)).

Record element_ok (M : wah_module_env) (s : wah_element_segment_t) : Prop := {
  el_type : type_valid (env_types M) (es_elem_type s);
  el_active : if es_active s then active_ok M s else es_offset s = None;
  el_funcs : Forall (fun i => 0 <= i < wah_func_index_limit M) (es_funcs s);
  el_exprs : Forall (fun ac => const_code M (es_elem_type s) (wah_global_index_limit M) false (ac, [])) (es_exprs s);
  el_kind : if es_expr_elem s then es_funcs s = [] else es_elem_type s = WAH_TYPE_FUNCREF /\ es_exprs s = [];
  el_declarative : es_declarative s = true -> es_active s = false /\ es_funcs s = [] /\ es_exprs s = [] }.
Definition element_entry_ok (M : wah_module_env) (acc : list wah_element_segment_t) (s : wah_element_segment_t) : Prop :=
  element_ok (set_segments (es_elem_type <$> acc) M) s.

(** An active segment has a memory and an offset of its address type. *)
Definition data_entry_ok (M : wah_module_env) (acc : list wah_data_segment_t) (s : wah_data_segment_t) : Prop :=
  0 <= ds_flags s <= 2 /\ Forall is_byte (ds_data s) /\
  if ds_flags s =? 1 then ds_offset s = None
  else exists mt ac, 0 <= ds_memory s < wah_memory_index_limit M /\ wah_memory_type M (ds_memory s) = Some mt /\
    ds_offset s = Some ac /\
    const_code (set_data_count (zlen acc + 1) M) (mem_addr_type mt) (wah_global_index_limit M) false (ac, []).

(** ** Theorems *)

Lemma set_segments_ok M l : module_ok M -> Forall (type_valid (env_types M)) l -> module_ok (set_segments l M).
Proof. by intros [] Hl; split. Qed.
Lemma set_data_count_ok M n : module_ok M -> module_ok (set_data_count n M).
Proof. by intros []; split. Qed.

Lemma cio_declare M i : module_ok M -> 0 <= i < wah_func_index_limit M -> cio_good M (declare M i) (fun _ => True).
Proof.
  intros HM Hi [[d a] n] Hb Hn. unfold wp, declare. simpl in *.
  destruct (wah_declare_func_cases M i a _ _ (mo_func_bits M HM) Hi (notes_declared (const_env M 0) n Hn))
    as [(a' & bits & -> & Hbits & _)|(a' & ->)]; [|done].
  split_and!; [done|done| |done]. destruct Hn. by split.
Qed.

Lemma io_segment_flags : io_good segment_flags (fun flags => 0 <= flags <= 7).
Proof.
  unfold segment_flags. eapply io_bind; [apply io_u32|]. intros flags [H0 _]. eapply io_bind; [apply io_ensure|]. intros [] H7%Z.leb_le.
  eapply (io_bind _ _ (fun _ => True)); [apply io_if; intros _; [apply io_require|by apply io_ret]|]. intros [] _.
  eapply (io_bind _ _ (fun _ => True)); [apply io_if; intros _; [apply io_require|by apply io_ret]|]. intros [] _. by apply io_ret.
Qed.

Lemma io_segment_elem_type M mode e : io_good (segment_elem_type M mode e)
  (fun t => type_valid (env_types M) t /\ (e = false -> t = WAH_TYPE_FUNCREF)).
Proof.
  assert (Hf : type_valid (env_types M) WAH_TYPE_FUNCREF /\ (e = false -> WAH_TYPE_FUNCREF = WAH_TYPE_FUNCREF)) by (split; [by apply tv_abstract|done]).
  unfold segment_elem_type. apply io_if; intros _; [|by apply io_ret]. apply io_if; intros He.
  - eapply io_bind; [apply io_ref_type|]. intros t [Ht Hr]. eapply io_bind; [apply io_ensure|]. intros [] _.
    eapply io_bind; [apply io_ensure|]. intros [] Hi.
    eapply (io_bind _ _ (fun _ => True)); [apply io_if; intros _; [apply io_type_features|by apply io_ret]|]. intros [] _.
    apply io_ret. split; [by apply decoded_type_valid|by rewrite He].
  - eapply io_bind; [apply io_read_byte|]. intros k _. eapply io_bind; [apply io_ensure|]. intros [] _. by apply io_ret.
Qed.

Section Storage.
Context (stack_storage : list Z -> list wah_type_t) (frame_storage : list Z -> list wah_validation_control_frame_t).
Hypothesis stack_len : forall c, zlen (stack_storage c) = WAH_MAX_TYPE_STACK_SIZE.
Hypothesis frame_len : forall c, zlen (frame_storage c) = WAH_MAX_CONTROL_DEPTH.
Context (M : wah_module_env) (HM : module_ok M).
Notation const_expr M t := (const_expr stack_storage frame_storage M t (wah_global_index_limit M) false).
Notation code_of M t ac := (const_code M t (wah_global_index_limit M) false (ac, [])).

Lemma cio_segment_expr t : type_valid (env_types M) t ->
  cio_good M (segment_expr stack_storage frame_storage M t) (fun ac => code_of M t ac).
Proof.
  intros Ht. eapply cio_bind; [by apply cio_const_expr|]. intros [ac deps] [H1 H2]. apply cio_ret. by split.
Qed.

Lemma cio_segment_func : cio_good M (segment_func M) (fun i => 0 <= i < wah_func_index_limit M).
Proof.
  eapply cio_bind; [apply cio_sec, io_u32|]. intros i [Hi _]. eapply cio_bind; [apply cio_ensure|]. intros [] Hl%Z.ltb_lt.
  eapply cio_bind; [by apply cio_declare|]. intros [] _. by apply cio_ret.
Qed.

Lemma cio_each {A} (f : comp cio A) (V : A -> Prop) n : cio_good M f V ->
  cio_good M (parse_items (fun _ => f) n []) (Forall V).
Proof.
  intros Hf. eapply cio_mono; [by apply (cio_items M (fun _ => f) (fun _ => V)); intros|].
  intros l [H _]. apply Forall_lookup. intros i x Hx. by apply (H i).
Qed.

(** The elements of the fields of a segment. *)
Lemma cio_segment_elems d e t : type_valid (env_types M) t ->
  cio_good M (segment_elems stack_storage frame_storage M d e t) (fun r =>
    Forall (fun i => 0 <= i < wah_func_index_limit M) r.1 /\ Forall (fun ac => code_of M t ac) r.2 /\
    (if e then r.1 = [] else r.2 = []) /\ (d = true -> r = ([], []))).
Proof.
  intros Ht. unfold segment_elems. eapply cio_bind; [apply cio_sec, io_count|]. intros n _.
  assert (H0 : cio_good M (stm_ret ([], [])) (fun r => Forall (fun i => 0 <= i < wah_func_index_limit M) r.1 /\
    Forall (fun ac => code_of M t ac) r.2 /\ (if e then r.1 = [] else r.2 = []) /\ (d = true -> r = ([], [])))).
  { apply cio_ret. by destruct e. }
  apply cio_if; intros Hd.
  - eapply (cio_bind _ _ _ (fun _ => True)); [|by intros [] _].
    apply cio_if; intros _; (eapply cio_bind; [|by intros; apply cio_ret]); apply cio_each; [by apply cio_segment_expr|apply cio_segment_func].
  - apply cio_if; intros _; [|done]. destruct e; simpl.
    + eapply cio_bind; [apply cio_sec, io_malloc|]. intros [] _. eapply cio_bind; [by apply cio_each, cio_segment_expr|].
      intros es Hes. apply cio_ret. by rewrite Hd.
    + eapply cio_bind; [apply cio_sec, io_malloc|]. intros [] _. eapply cio_bind; [apply cio_each, cio_segment_func|].
      intros fs Hfs. apply cio_ret. by rewrite Hd.
Qed.

Lemma index_limit_pos {A} (imps defs : list A) : 0 <= index_limit imps defs.
Proof. apply u32_range. Qed.

Lemma io_segment_table mode : io_good (segment_table M mode)
  (fun i => 0 <= i /\ ((mode =? 0) || (mode =? 2) = true -> i < wah_table_index_limit M)).
Proof.
  unfold segment_table. apply io_if; intros H0.
  - eapply io_bind; [apply io_ensure|]. intros [] Hl%Z.ltb_lt. by apply io_ret.
  - apply io_if; intros H2.
    + eapply io_bind; [apply io_u32|]. intros i [Hi _]. eapply io_bind; [apply io_ensure|]. intros [] Hl%Z.ltb_lt. by apply io_ret.
    + apply io_ret. split; [done|]. by rewrite H0, H2.
Qed.

(** The table of an active segment. *)
Lemma segment_table_at i : 0 <= i < wah_table_index_limit M ->
  exists tt, wah_table_type M i = Some tt /\ type_valid (env_types M) (elem_type tt) /\ addr_type_ok (tab_addr_type tt).
Proof. intros [H1 H2]. apply (space_get _ _ _ i (mo_tables M HM)); [done|]. apply Z.ltb_lt, H2. Qed.

Lemma cio_segment_offset active i tt : (active = true -> 0 <= i < wah_table_index_limit M /\ wah_table_type M i = Some tt) ->
  cio_good M (segment_offset stack_storage frame_storage M active i) (fun o =>
    if active then exists ac, o = Some ac /\ code_of M (tab_addr_type tt) ac else o = None).
Proof.
  intros Hi. unfold segment_offset. apply cio_if; intros Ha; rewrite Ha; [|by apply cio_ret]. destruct (Hi Ha) as [Hl Htt].
  destruct (segment_table_at i Hl) as (tt' & E & _ & Hat). rewrite Htt in E. injection E as <-.
  eapply (cio_bind _ _ _ (eq (tab_addr_type tt))).
  - apply cio_if; intros Hc; [|apply Z.ltb_ge in Hc; lia]. eapply cio_bind; [by apply (cio_opt _ _ tt (eq tt))|].
    intros _ <-. apply cio_ret. by destruct Hat as [-> | ->].
  - intros _ <-. eapply cio_bind; [apply cio_const_expr; [done..|by apply tv_addr|done]|].
    intros [ac deps] [H1 H2]. apply cio_ret. exists ac. by split; [|split].
Qed.

Lemma cio_segment_fits active e i tt t : type_valid (env_types M) t ->
  (active = true -> 0 <= i < wah_table_index_limit M /\ wah_table_type M i = Some tt) ->
  cio_good M (segment_fits M active e i t) (fun _ => active = true ->
    if e then matches (env_types M) t (elem_type tt)
    else type_sub (env_types M) (WAH_TYPE_AS_NON_NULL t) (WAH_TYPE_AS_NON_NULL (elem_type tt))).
Proof.
  intros Ht Hi. unfold segment_fits. apply cio_if; intros Ha; [|by apply cio_ret; rewrite Ha]. destruct (Hi Ha) as [Hl Htt].
  destruct (segment_table_at i Hl) as (tt' & E & Hv & _). rewrite Htt in E. injection E as <-.
  eapply cio_bind; [by apply (cio_opt _ _ tt (eq tt))|]. intros _ <-. destruct e; intros s Hb Hn.
  - eapply wp_type_match; [by apply const_env_ok|by left|done|]. intros Hm. by split_and!.
  - destruct (wah_type_is_subtype_correct (env_types M) (mo_types M HM) (WAH_TYPE_AS_NON_NULL t) (WAH_TYPE_AS_NON_NULL (elem_type tt)))
      as (r & Hr & Hspec); [left; by apply type_valid_non_null..|].
    apply wp_bind. unfold is_subtype. eapply wp_opt; [exact Hr|]. destruct r; [|done]. apply wp_ret. split_and!; [done..|].
    intros _. by apply Hspec.
Qed.

Lemma cio_element_segment : cio_good M (parse_element_segment stack_storage frame_storage M) (element_ok M).
Proof.
  unfold parse_element_segment. eapply cio_bind; [apply cio_sec, io_segment_flags|]. intros flags _. cbv zeta.
  set (mode := segment_mode flags). set (e := negb _). set (active := (mode =? 0) || (mode =? 2)). set (decl := mode =? 3).
  eapply cio_bind; [apply cio_sec, io_segment_table|]. intros i [Hi0 Hi]. fold active in Hi.
  assert (Htab : exists tt, active = true -> 0 <= i < wah_table_index_limit M /\ wah_table_type M i = Some tt).
  { destruct active; [|by exists (TableType 0 0 0 0)]. specialize (Hi eq_refl).
    destruct (segment_table_at i (conj Hi0 Hi)) as (tt & Htt & _). by exists tt. }
  destruct Htab as [tt Htab]. eapply cio_bind; [by apply (cio_segment_offset active i tt)|]. intros o Ho.
  eapply cio_bind; [apply cio_sec, io_segment_elem_type|]. intros t [Ht Hf].
  eapply cio_bind; [by apply (cio_segment_fits active e i tt)|]. intros [] Hfit.
  eapply cio_bind; [by apply (cio_segment_elems decl e t)|]. intros [fs es] (H1 & H2 & H3 & H4). simpl in *.
  apply cio_ret. split; simpl; [done| |done|done| |].
  - destruct active; [|done]. destruct Ho as (ac & -> & Hac). exists tt, ac. destruct (Htab eq_refl) as [Hl Htt]. simpl. split_and!; [lia|lia|done|done|done|]. apply (Hfit eq_refl).
  - destruct e; [done|]. by auto.
  - intros Hd. specialize (H4 Hd). injection H4 as -> ->. split; [|done]. unfold active, decl in *.
    apply Z.eqb_eq in Hd. by rewrite Hd.
Qed.

Lemma io_segment_memory flags : 0 <= flags ->
  io_good (segment_memory M flags) (fun i => 0 <= i /\ 0 <= flags <= 2).
Proof.
  intros Hf. unfold segment_memory. apply io_if; intros H0; [apply io_ret; lia|]. apply io_if; intros H1; [apply io_ret; lia|].
  apply io_if; intros H2; [|apply io_err]. eapply io_bind; [apply io_u32|]. intros i [Hi _].
  eapply io_bind; [apply io_ensure|]. intros [] _. apply io_ret. lia.
Qed.

Lemma io_segment_data : io_good segment_data (Forall is_byte).
Proof.
  intros s Hs. unfold segment_data. apply wp_bind. eapply wp_mono; [by apply io_u32|]. intros n s1 (Hb & Hsuf & Hn).
  apply wp_bind, wp_get. enough (Hg : io_good (stm_ensure (n <=? zlen (cursor s1.1)) WAH_ERROR_UNEXPECTED_EOF ;;;
    (if 0 <? n then malloc_io n 1 else stm_ret tt) ;;; on_cur (take_bytes (Z.to_nat n))) (Forall is_byte)).
  { eapply wp_mono; [by apply Hg|]. intros bs s2 (H1 & H2 & H3). split_and!; [done|by etrans|done]. }
  eapply io_bind; [apply io_ensure|]. intros [] _.
  eapply (io_bind _ _ (fun _ => True)); [apply io_if; intros _; [apply io_malloc|by apply io_ret]|]. intros [] _.
  eapply io_mono; [apply io_decoder, on_cursor_good, take_bytes_good|]. by intros bs [_ H].
Qed.

Lemma cio_data_segment acc : cio_good M (parse_data_segment stack_storage frame_storage M acc) (data_entry_ok M acc).
Proof.
  unfold parse_data_segment. eapply cio_bind; [apply cio_sec, io_u32|]. intros flags [Hf _].
  eapply (cio_bind _ _ _ (fun _ => True)); [apply cio_if; intros _; [apply cio_sec, io_require|by apply cio_ret]|]. intros [] _.
  eapply cio_bind; [by apply cio_sec, io_segment_memory|]. intros i [Hi Hf2].
  eapply (cio_bind _ _ _ (fun o => if flags =? 1 then o = None else exists mt ac, 0 <= i < wah_memory_index_limit M /\
    wah_memory_type M i = Some mt /\ o = Some ac /\
    const_code (set_data_count (zlen acc + 1) M) (mem_addr_type mt) (wah_global_index_limit M) false (ac, []))).
  - apply cio_if; intros Ha.
    + replace (flags =? 1) with false by (apply orb_true_iff in Ha; lia).
      eapply cio_bind; [apply cio_ensure|]. intros [] Hl%Z.ltb_lt.
      destruct (space_get _ _ _ i (mo_memories M HM)) as (mt & Hmt & Hat); [lia|apply Z.ltb_lt, Hl|].
      eapply cio_bind; [by apply (cio_opt _ _ mt (eq mt))|]. intros _ <-.
      eapply cio_bind; [apply (cio_const_expr _ _ stack_len frame_len M); [by apply set_data_count_ok|by apply tv_addr|done]|].
      intros [ac deps] [H1 H2]. apply cio_ret. exists mt, ac. split_and!; [done|done|done|done|by split].
    + replace (flags =? 1) with true by (apply orb_false_iff in Ha; lia). by apply cio_ret.
  - intros o Ho. eapply cio_bind; [apply cio_sec, io_segment_data|]. intros bs Hbs. by apply cio_ret.
Qed.

End Storage.

(** *** The sections *)

Section Storage.
Context (stack_storage : list Z -> list wah_type_t) (frame_storage : list Z -> list wah_validation_control_frame_t).
Hypothesis stack_len : forall c, zlen (stack_storage c) = WAH_MAX_TYPE_STACK_SIZE.
Hypothesis frame_len : forall c, zlen (frame_storage c) = WAH_MAX_CONTROL_DEPTH.
Context (M : wah_module_env) (HM : module_ok M).

Lemma wp_element_section s : decoder_bytes s.1.1 -> notes_ok M s.2 -> zlen (cursor s.1.1) < 2 ^ 32 ->
  wp (wah_parse_element_section stack_storage frame_storage M)
    (fun l s' => decoder_bytes s'.1.1 /\ cursor s'.1.1 `suffix_of` cursor s.1.1 /\ notes_ok M s'.2 /\
       items_ok (element_entry_ok M) l /\ zlen l <= zlen (cursor s.1.1)) s.
Proof.
  intros Hb Hn Hlen. apply wp_sec_count; [lia|done|done|done|]. intros n Hn0. apply cio_if; intros H0.
  - eapply cio_bind; [apply cio_sec, io_malloc|]. intros [] _. apply cio_items. intros l Hl Hln.
    apply (cio_element_segment _ _ stack_len frame_len (set_segments (es_elem_type <$> l) M)).
    apply set_segments_ok; [done|]. eapply items_ok_Forall; [exact Hl|]. intros l' x Hx. apply (el_type _ _ Hx).
  - apply Z.ltb_ge in H0. apply cio_ret. split; [|simpl; lia]. intros i x H. by rewrite lookup_nil in H.
Qed.

Lemma cio_data_section has : cio_good M (wah_parse_data_section stack_storage frame_storage M has)
  (fun l => items_ok (data_entry_ok M) l /\ (has = true -> zlen l = data_segment_count M)).
Proof.
  eapply cio_bind; [apply cio_sec, io_count|]. intros n [Hn0 _].
  eapply (cio_bind _ _ _ (fun _ => has = true -> n = data_segment_count M)).
  { apply cio_if; intros ->; [|by apply cio_ret]. eapply cio_mono; [apply cio_ensure|]. by intros [] ?%Z.eqb_eq. }
  intros [] Hc. apply cio_if; intros H0.
  - eapply cio_bind; [apply cio_sec, io_malloc|]. intros [] _. eapply cio_mono; [by apply cio_items; intros; apply cio_data_segment|].
    intros l [H1 H2]. split; [done|]. intros Hh. rewrite <- Hc by done. unfold zlen. lia.
  - apply Z.ltb_ge in H0. apply cio_ret. split; [intros i x H; by rewrite lookup_nil in H|]. intros Hh. rewrite <- Hc by done. unfold zlen. simpl. lia.
Qed.
End Storage.
