(* ===== verification/Exports.v ===== *)
(** * Exports

    The export section ([wah_parse_export_section]), the lookup of exports by names
    ([wah_find_export]) and the exports that are added to a module made by the program
    ([wah_module_ensure_export], [wah_module_append_export]).  Lookups rely on an array
    of the exports in the order of their names, in which no name comes twice. *)

From S2P Require Import Prelude Base Alloc Types Opcodes Bytes Leb128 Utf8 Decode Subtype ModuleEnv Operands Validate ValidInv ValidRules ValidSafe Locals ParseIo Analyze AnalyzeInv AnalyzeOk ConstExpr Sections Segments.
From stdpp Require Import list sets sorting.
#[local] Open Scope Z_scope.
#[local] Open Scope wah_scope.

(** ** Definitions *)

(** [name_len] is the length of [exp_name]. *)
Record wah_export_t := Export { exp_name : list Z; exp_kind : Z; exp_index : Z }.

(** *** The order of names: by lengths, then by bytes *)

(** The sign of the first difference. *)
Fixpoint memcmp (x y : list Z) : Z :=
  match x, y with
  | a :: x', b :: y' => if a <? b then -1 else if b <? a then 1 else memcmp x' y'
  | _, _ => 0
  end.
Definition wah_export_name_cmp_len (e : wah_export_t) (name : list Z) : Z :=
  if negb (zlen (exp_name e) =? zlen name) then (if zlen (exp_name e) <? zlen name then -1 else 1)
  else memcmp (exp_name e) name.
Definition wah_export_name_cmp (x y : wah_export_t) : Z :=
  if negb (zlen (exp_name x) =? zlen (exp_name y)) then (if zlen (exp_name x) <? zlen (exp_name y) then -1 else 1)
  else memcmp (exp_name x) (exp_name y).

(** *** The exports of a module

    The first [export_count] entries of [export_order] are the positions of the exports
    in the order of their names; both arrays have at least [exports_cap] entries. *)
Record export_table := ExportTable { exports : list wah_export_t; export_order : list Z; exports_cap : Z }.
Definition export_count (t : export_table) : Z := zlen (exports t).

Definition export_at (t : export_table) (pos : Z) : option wah_export_t :=
  i ← zget (export_order t) pos; zget (exports t) i.

(** At most 32 iterations, as the interval at least halves. *)
Fixpoint export_search (fuel : nat) (t : export_table) (name : list Z) (lo hi : Z) : option Z :=
  match fuel with
  | O => None
  | S fuel' =>
      if lo <? hi then
        let mid := lo + (hi - lo) / 2 in
        e ← export_at t mid;
        if wah_export_name_cmp_len e name <? 0 then export_search fuel' t name (mid + 1) hi
        else export_search fuel' t name lo mid
      else Some lo
  end.
Definition wah_export_lower_bound (t : export_table) (name : list Z) : option Z :=
  export_search 33 t name 0 (export_count t).

(** [None] is an access out of bounds, [Some None] a NULL pointer. *)
Definition wah_find_export_by_name (t : export_table) (name : list Z) : option (option wah_export_t) :=
  pos ← wah_export_lower_bound t name;
  if export_count t <=? pos then Some None
  else
    e ← export_at t pos;
    Some (if wah_export_name_cmp_len e name =? 0 then Some e else None).
Definition wah_find_export (t : export_table) (kind : Z) (field : list Z) : option (option wah_export_t) :=
  r ← wah_find_export_by_name t field;
  Some (match r with Some e => if exp_kind e =? kind then Some e else None | None => None end).

(** *** The section *)

Definition sizeof_wah_export_t : Z := 24.

(** The pointers of the array that is sorted: the positions of the exports, with them. *)
Definition export_ptrs (l : list wah_export_t) : list (Z * wah_export_t) := zip (zrange 0 (zlen l)) l.
Definition ptr_le (p q : Z * wah_export_t) : Prop := wah_export_name_cmp p.2 q.2 <= 0.
#[export] Instance ptr_le_dec p q : Decision (ptr_le p q) := Z_le_dec _ _.
(** [qsort] with [wah_export_name_cmp]: names that are equal are refused, in whatever
    order they come, so that every sort gives the same result. *)
Definition qsort_exports (l : list (Z * wah_export_t)) : list (Z * wah_export_t) := merge_sort ptr_le l.

(** The loop over adjacent pointers. *)
Fixpoint same_name_next (l : list (Z * wah_export_t)) : bool :=
  match l with
  | p :: (q :: _) as l' => if wah_export_name_cmp p.2 q.2 =? 0 then true else same_name_next l'
  | _ => false
  end.

Section Module.
Context (M : wah_module_env).

(** The checks on the index, by kind. *)
Definition check_export (kind index : Z) : comp cio unit :=
  if kind =? WAH_KIND_FUNCTION then
    stm_ensure (index <? wah_func_index_limit M) WAH_ERROR_VALIDATION_FAILED ;;;
    declare M index
  else if kind =? WAH_KIND_TABLE then
    stm_ensure (index <? wah_table_index_limit M) WAH_ERROR_VALIDATION_FAILED
  else if kind =? WAH_KIND_MEMORY then
    stm_ensure (index <? wah_memory_index_limit M) WAH_ERROR_VALIDATION_FAILED
  else if kind =? WAH_KIND_GLOBAL then
    stm_ensure (index <? wah_global_index_limit M) WAH_ERROR_VALIDATION_FAILED ;;;
    mutable <- stm_opt (wah_global_is_mutable M index) ;;
    if (mutable : bool) then on_sec (require_io MUTABLE_GLOBALS) else stm_ret tt
  else if kind =? WAH_KIND_TAG then
    stm_ensure (index <? index_limit (tag_imports M) (tags M)) WAH_ERROR_VALIDATION_FAILED
  else stm_err WAH_ERROR_MALFORMED.

Definition parse_export : comp cio wah_export_t :=
  name <- on_sec parse_name ;;
  kind <- on_sec read_byte ;;
  index <- on_sec (on_cur wah_decode_uleb128) ;;
  check_export kind index ;;;
  stm_ret (Export name kind index).

Definition sort_exports (l : list wah_export_t) : comp cio (list Z) :=
  on_sec (malloc_io (zlen l) 8) ;;;
  let sorted := qsort_exports (export_ptrs l) in
  stm_ensure (negb (same_name_next sorted)) WAH_ERROR_VALIDATION_FAILED ;;;
  on_sec (malloc_io (zlen l) 4) ;;;
  stm_ret sorted.*1.

Definition wah_parse_export_section : comp cio export_table :=
  count <- on_sec (on_cur (wah_decode_and_validate_count 3)) ;;
  on_sec (malloc_io count sizeof_wah_export_t) ;;;
  l <- parse_items (fun _ => parse_export) (Z.to_nat count) [] ;;
  order <- (if 0 <? count then sort_exports l else stm_ret []) ;;
  stm_ret (ExportTable l order count).
End Module.

(** *** Modules made by the program *)

(** A module without exports, as [wah_new_module] makes it. *)
Definition new_exports : export_table := ExportTable [] [] 16.

(** The name is not among the exports, and there is room for another. *)
Definition wah_module_ensure_export (t : export_table) (name : list Z) : comp answers export_table :=
  r <- stm_opt (wah_find_export_by_name t name) ;;
  stm_ensure (match r with Some _ => false | None => true end) WAH_ERROR_VALIDATION_FAILED ;;;
  if exports_cap t <=? export_count t then
    stm_ensure (exports_cap t <=? UINT32_MAX / 2) WAH_ERROR_TOO_LARGE ;;;
    let new_cap := if negb (exports_cap t =? 0) then exports_cap t * 2 else 16 in
    wah_malloc_c new_cap 4 ;;;
    wah_malloc_c new_cap sizeof_wah_export_t ;;;
    stm_ret (ExportTable (exports t) (export_order t) new_cap)
  else stm_ret t.

(** Writing past the capacity is [None]. *)
Definition wah_module_append_export (t : export_table) (e : wah_export_t) : option export_table :=
  pos ← wah_export_lower_bound t (exp_name e);
  if export_count t <? exports_cap t then
    Some (ExportTable (exports t ++ [e])
            (take (Z.to_nat pos) (export_order t) ++ [export_count t] ++ drop (Z.to_nat pos) (export_order t)) (exports_cap t))
  else None.

(** An export of the program: the name is checked, then the export is added. *)
Definition add_export (t : export_table) (e : wah_export_t) : comp answers export_table :=
  t <- wah_module_ensure_export t (exp_name e) ;;
  stm_opt (wah_module_append_export t e).

(** *** What they promise *)

Definition name_lt (e e' : wah_export_t) : Prop := wah_export_name_cmp e e' < 0.

(** The order lists each export once, by strictly increasing names. *)
Record exports_sorted (t : export_table) : Prop := {
  xs_count : export_count t <= exports_cap t < 2 ^ 32;
  xs_order : exists ps, ps ≡ₚ export_ptrs (exports t) /\ export_order t = ps.*1 /\ StronglySorted (fun p q => name_lt p.2 q.2) ps }.

(** Exports refer to what the module has. *)
Definition export_ok (M : wah_module_env) (e : wah_export_t) : Prop :=
  utf8_text (exp_name e) /\ 0 <= exp_index e /\
  (exp_kind e = WAH_KIND_FUNCTION /\ exp_index e < wah_func_index_limit M \/
   exp_kind e = WAH_KIND_TABLE /\ exp_index e < wah_table_index_limit M \/
   exp_kind e = WAH_KIND_MEMORY /\ exp_index e < wah_memory_index_limit M \/
   exp_kind e = WAH_KIND_GLOBAL /\ exp_index e < wah_global_index_limit M \/
   exp_kind e = WAH_KIND_TAG /\ exp_index e < index_limit (tag_imports M) (tags M)).

(** The export of a name, if there is one. *)
Definition export_named (l : list wah_export_t) (name : list Z) (r : option wah_export_t) : Prop :=
  forall e, r = Some e <-> e ∈ l /\ exp_name e = name.

(** ** Theorems *)

(** *** The order of names *)

Lemma memcmp_eq x y : length x = length y -> memcmp x y = 0 <-> x = y.
Proof.
  revert y. induction x as [|a x IH]; intros [|b y]; simpl; try done. intros [= Hl].
  destruct (Z.ltb_spec a b), (Z.ltb_spec b a); try (split; [done|]; intros [= -> ->]; lia).
  rewrite IH by done. assert (a = b) as -> by lia. split; congruence.
Qed.
Lemma memcmp_flip x y : memcmp y x = - memcmp x y.
Proof.
  revert y. induction x as [|a x IH]; intros [|b y]; simpl; try done.
  destruct (Z.ltb_spec a b), (Z.ltb_spec b a); done || lia || apply IH.
Qed.
Lemma memcmp_trans x y z : length x = length y -> length y = length z ->
  memcmp x y <= 0 -> memcmp y z <= 0 -> memcmp x z <= 0.
Proof.
  revert y z. induction x as [|a x IH]; intros [|b y] [|c z]; simpl; try done. intros [= H1] [= H2].
  destruct (Z.ltb_spec a b), (Z.ltb_spec b a), (Z.ltb_spec b c), (Z.ltb_spec c b), (Z.ltb_spec a c), (Z.ltb_spec c a); try lia.
  by apply IH.
Qed.

Lemma name_cmp_len x y : wah_export_name_cmp x y = wah_export_name_cmp_len x (exp_name y).
Proof. done. Qed.
Lemma name_cmp_eq e name : wah_export_name_cmp_len e name = 0 <-> exp_name e = name.
Proof.
  unfold wah_export_name_cmp_len. destruct (Z.eqb_spec (zlen (exp_name e)) (zlen name)) as [E|E]; simpl.
  - apply memcmp_eq. unfold zlen in E. lia.
  - split; [by case_match|]. by intros <-.
Qed.
Lemma name_cmp_flip x y : wah_export_name_cmp y x = - wah_export_name_cmp x y.
Proof.
  unfold wah_export_name_cmp. rewrite (Z.eqb_sym (zlen (exp_name y))).
  destruct (Z.eqb_spec (zlen (exp_name x)) (zlen (exp_name y))); simpl; [apply memcmp_flip|].
  destruct (Z.ltb_spec (zlen (exp_name x)) (zlen (exp_name y))), (Z.ltb_spec (zlen (exp_name y)) (zlen (exp_name x))); lia.
Qed.
Lemma name_cmp_trans x y z : wah_export_name_cmp x y <= 0 -> wah_export_name_cmp y z <= 0 -> wah_export_name_cmp x z <= 0.
Proof.
  unfold wah_export_name_cmp. generalize (exp_name x), (exp_name y), (exp_name z). clear. intros x y z.
  destruct (Z.eqb_spec (zlen x) (zlen y)) as [E1|], (Z.eqb_spec (zlen y) (zlen z)) as [E2|], (Z.eqb_spec (zlen x) (zlen z)); simpl; try lia;
    unfold zlen in *.
  1: apply memcmp_trans; lia.
  all: repeat case_match; lia.
Qed.

#[local] Instance ptr_le_trans : Transitive ptr_le.
Proof. intros x y z. apply name_cmp_trans. Qed.
#[local] Instance ptr_le_total : Total ptr_le.
Proof. intros x y. unfold ptr_le. pose proof (name_cmp_flip x.2 y.2). lia. Qed.

Lemma name_lt_le_trans x y z : name_lt x y -> wah_export_name_cmp y z <= 0 -> name_lt x z.
Proof.
  unfold name_lt. intros H1 H2. pose proof (name_cmp_trans x y z ltac:(lia) H2).
  destruct (Z.eq_dec (wah_export_name_cmp x z) 0) as [E|]; [|lia]. apply name_cmp_eq in E.
  rewrite name_cmp_len, <- E, <- name_cmp_len, name_cmp_flip in H2. lia.
Qed.

(** Without adjacent names that are equal, the order is strict. *)
Lemma same_name_next_spec l : StronglySorted ptr_le l -> same_name_next l = false ->
  StronglySorted (fun p q => name_lt p.2 q.2) l.
Proof.
  induction l as [|p [|q l] IH]; intros Hs Hd; [constructor|constructor; constructor|].
  apply StronglySorted_inv in Hs as [Hs Hp]. cbn [same_name_next] in Hd. destruct (Z.eqb_spec (wah_export_name_cmp p.2 q.2) 0) as [|Hne]; [done|].
  assert (Hpq : name_lt p.2 q.2) by (apply Forall_inv in Hp; unfold ptr_le, name_lt in *; lia).
  constructor; [by apply IH|]. apply Forall_cons. split; [done|]. apply Forall_forall. intros x Hx.
  apply StronglySorted_inv in Hs as [_ Hq]. rewrite Forall_forall in Hq. by eapply name_lt_le_trans; [|apply Hq].
Qed.

(** *** Looking names up *)

Lemma sorted_lookup {A} (R : A -> A -> Prop) l i j x y : StronglySorted R l ->
  l !! i = Some x -> l !! j = Some y -> (i < j)%nat -> R x y.
Proof.
  intros Hs. revert i j. induction Hs as [|a l Hs IH Ha]; intros i j Hi Hj Hlt; [by rewrite lookup_nil in Hi|].
  destruct j as [|j]; [lia|]. simpl in Hj. destruct i as [|i]; simpl in Hi.
  - injection Hi as ->. rewrite Forall_lookup in Ha. by eapply Ha.
  - apply (IH i j); [done|done|lia].
Qed.

Lemma export_ptrs_elem l i e : (i, e) ∈ export_ptrs l <-> zget l i = Some e.
Proof.
  unfold export_ptrs. rewrite list_elem_of_lookup. split.
  - intros [k Hk]. apply lookup_zip_with_Some in Hk as (i' & e' & [= -> ->] & H1 & H2).
    unfold zrange in H1. apply list_lookup_fmap_Some in H1 as (j & -> & [-> _]%lookup_seq). by rewrite Z.add_0_l, zget_of_nat.
  - intros [Hi H]%zget_Some. exists (Z.to_nat i). apply lookup_zip_with_Some. exists i, e. split_and!; [done| |done].
    unfold zrange. apply list_lookup_fmap_Some. exists (Z.to_nat i). split; [lia|]. apply lookup_seq. lia.
Qed.

Lemma export_search_S fuel t name lo hi : export_search (S fuel) t name lo hi =
  if lo <? hi then
    e ← export_at t (lo + (hi - lo) / 2);
    if wah_export_name_cmp_len e name <? 0 then export_search fuel t name (lo + (hi - lo) / 2 + 1) hi
    else export_search fuel t name lo (lo + (hi - lo) / 2)
  else Some lo.
Proof. done. Qed.

Section Sorted.
Context (t : export_table) (ps : list (Z * wah_export_t)).
Hypothesis Hperm : ps ≡ₚ export_ptrs (exports t).
Hypothesis Horder : export_order t = ps.*1.
Hypothesis Hsorted : StronglySorted (fun p q => name_lt p.2 q.2) ps.

Lemma sorted_length : zlen ps = export_count t.
Proof.
  unfold export_count, zlen. rewrite Hperm. unfold export_ptrs. rewrite length_zip_with_l_eq; [|]; unfold zrange; rewrite length_fmap, length_seq; unfold zlen; lia.
Qed.

Lemma export_at_sorted pos : export_at t pos = snd <$> zget ps pos.
Proof.
  unfold export_at. rewrite Horder. destruct (zget ps pos) as [[i e]|] eqn:E.
  - assert (Hin : (i, e) ∈ ps) by (apply zget_Some in E as [_ E]; by eapply list_elem_of_lookup_2).
    rewrite Hperm in Hin. apply export_ptrs_elem in Hin. unfold zget in E |- *. case_match; [done|]. rewrite list_lookup_fmap, E. simpl. exact Hin.
  - unfold zget in E |- *. case_match; [done|]. by rewrite list_lookup_fmap, E.
Qed.

(** What the search looks for: the names before [k] are less, the others are not. *)
Definition splits (name : list Z) (k : Z) : Prop :=
  forall j p, zget ps j = Some p -> wah_export_name_cmp_len p.2 name < 0 <-> j < k.

Lemma sorted_lt j j' p p' name : zget ps j = Some p -> zget ps j' = Some p' -> j <= j' ->
  wah_export_name_cmp_len p'.2 name < 0 -> wah_export_name_cmp_len p.2 name < 0.
Proof.
  intros [H1 E1]%zget_Some [H2 E2]%zget_Some Hle Hlt. destruct (Z.eq_dec j j') as [->|]; [by simplify_eq|].
  set (e := Export name 0 0). change (name_lt p.2 e). change (name_lt p'.2 e) in Hlt.
  eapply name_lt_le_trans; [|unfold name_lt in Hlt; by apply Z.lt_le_incl].
  eapply (sorted_lookup _ _ _ _ _ _ Hsorted E1 E2). lia.
Qed.

Lemma export_search_splits name fuel lo hi : 0 <= lo <= hi -> hi <= export_count t -> hi - lo < 2 ^ Z.of_nat fuel ->
  (forall j p, zget ps j = Some p -> j < lo -> wah_export_name_cmp_len p.2 name < 0) ->
  (forall j p, zget ps j = Some p -> hi <= j -> 0 <= wah_export_name_cmp_len p.2 name) ->
  exists k, export_search (S fuel) t name lo hi = Some k /\ lo <= k <= hi /\ splits name k.
Proof.
  revert lo hi. induction fuel as [|fuel IH]; intros lo hi Hl Hh Hf Hlo Hhi; rewrite export_search_S.
  - simpl in Hf. destruct (Z.ltb_spec lo hi); [lia|]. exists lo. split; [done|]. split; [lia|]. intros j p Hp.
    split; intros H'; [|by eapply Hlo]. destruct (Z.lt_ge_cases j lo); [done|]. specialize (Hhi j p Hp ltac:(lia)). lia.
  - destruct (Z.ltb_spec lo hi).
    + set (mid := lo + (hi - lo) / 2). assert (lo <= mid < hi) by (unfold mid; Z.to_euclidean_division_equations; lia).
      rewrite Nat2Z.inj_succ, Z.pow_succ_r in Hf by lia.
      destruct (zget_is_Some ps mid) as [p Hp]; [rewrite sorted_length; lia|].
      rewrite (export_at_sorted mid), Hp. cbn [fmap option_fmap option_map mbind option_bind].
      destruct (Z.ltb_spec (wah_export_name_cmp_len p.2 name) 0) as [Hc|Hc].
      * destruct (IH (mid + 1) hi) as (k & -> & Hk & Hs); [lia|lia|unfold mid; Z.to_euclidean_division_equations; lia| |done|].
        -- intros j p' Hp' Hj. eapply (sorted_lt j mid); [done|done|lia|done].
        -- exists k. split; [done|]. split; [lia|done].
      * destruct (IH lo mid) as (k & -> & Hk & Hs); [lia|lia|unfold mid; Z.to_euclidean_division_equations; lia|done| |].
        -- intros j p' Hp' Hj. destruct (Z.lt_ge_cases (wah_export_name_cmp_len p'.2 name) 0) as [Hlt|]; [|done].
           pose proof (sorted_lt mid j p p' name Hp Hp' ltac:(lia) Hlt). lia.
        -- exists k. split; [done|]. split; [lia|done].
    + exists lo. split; [done|]. split; [lia|]. intros j p Hp.
      split; intros H'; [|by eapply Hlo]. destruct (Z.lt_ge_cases j lo); [done|]. specialize (Hhi j p Hp ltac:(lia)). lia.
Qed.

Lemma lower_bound_splits name : export_count t < 2 ^ 32 ->
  exists k, wah_export_lower_bound t name = Some k /\ 0 <= k <= export_count t /\ splits name k.
Proof.
  intros Hc. pose proof sorted_length as Hl. unfold zlen in Hl. apply export_search_splits; [lia|lia|simpl; lia| |].
  - intros j p [Hj _]%zget_Some. lia.
  - intros j p [Hj _]%zget_Some. unfold zlen in *. lia.
Qed.

Lemma sorted_elem e : e ∈ exports t <-> exists j i, zget ps j = Some (i, e).
Proof.
  split.
  - intros [i Hi]%list_elem_of_lookup. assert (Hin : (Z.of_nat i, e) ∈ ps) by (rewrite Hperm; apply export_ptrs_elem; by rewrite zget_of_nat).
    apply list_elem_of_lookup in Hin as [j Hj]. exists (Z.of_nat j), (Z.of_nat i). by rewrite zget_of_nat.
  - intros (j & i & [_ H]%zget_Some). apply list_elem_of_lookup_2 in H. rewrite Hperm in H. apply export_ptrs_elem in H.
    apply zget_Some in H as [_ H]. by eapply list_elem_of_lookup_2.
Qed.

Lemma find_named name : export_count t < 2 ^ 32 ->
  exists r, wah_find_export_by_name t name = Some r /\ export_named (exports t) name r.
Proof.
  intros Hc. destruct (lower_bound_splits name Hc) as (k & Hk & Hkr & Hs). unfold wah_find_export_by_name. rewrite Hk.
  cbn [mbind option_bind]. pose proof sorted_length as Hl.
  assert (Hat : forall e, e ∈ exports t /\ exp_name e = name -> exists i, zget ps k = Some (i, e)).
  { intros e [(j & i & Hj)%sorted_elem <-]. pose proof Hj as [Hjr _]%zget_Some. destruct (Hs j _ Hj) as [_ H1]. simpl in H1.
    assert (He0 : wah_export_name_cmp_len e (exp_name e) = 0) by by apply name_cmp_eq.
    destruct (Z.lt_ge_cases j k); [lia|]. destruct (zget_is_Some ps k) as [p Hp]; [lia|].
    destruct (Hs k p Hp) as [H2 _]. destruct (Z.eq_dec j k) as [->|]; [by exists i|].
    assert (name_lt p.2 e) as Hlt.
    { apply zget_Some in Hp as [? Hp], Hj as [? Hj]. apply (sorted_lookup _ _ _ _ _ _ Hsorted Hp Hj). lia. }
    unfold name_lt in Hlt. rewrite name_cmp_len in Hlt. lia. }
  destruct (Z.leb_spec (export_count t) k).
  - exists None. split; [done|]. intros e. split; [done|]. intros He. apply Hat in He as (i & [? _]%zget_Some). lia.
  - destruct (zget_is_Some ps k) as [[i e] Hp]; [lia|]. rewrite export_at_sorted, Hp. simpl. eexists. split; [done|].
    intros e'. destruct (Z.eqb_spec (wah_export_name_cmp_len e name) 0) as [E|E].
    + apply name_cmp_eq in E. split.
      * intros [= <-]. split; [|done]. apply sorted_elem. by exists k, i.
      * intros He'. apply Hat in He' as [i' E']. congruence.
    + split; [done|]. intros He'. pose proof He' as [i' E']%Hat. exfalso. apply E, name_cmp_eq. destruct He' as [_ <-]. congruence.
Qed.
End Sorted.

(** *** Adding an export *)

Lemma export_ptrs_snoc l e : export_ptrs (l ++ [e]) = export_ptrs l ++ [(zlen l, e)].
Proof.
  unfold export_ptrs. rewrite zlen_snoc. unfold zlen, zrange. rewrite !Z.sub_0_r, Nat2Z.id.
  replace (Z.to_nat (Z.of_nat (length l) + 1)) with (length l + 1)%nat by lia.
  rewrite seq_app, fmap_app, zip_with_app by by rewrite length_fmap, length_seq. done.
Qed.

Lemma insert_sorted t ps e k : ps ≡ₚ export_ptrs (exports t) -> export_order t = ps.*1 ->
  StronglySorted (fun p q => name_lt p.2 q.2) ps -> splits ps (exp_name e) k -> 0 <= k <= export_count t ->
  (forall e', e' ∈ exports t -> exp_name e' <> exp_name e) ->
  let ps' := take (Z.to_nat k) ps ++ [(export_count t, e)] ++ drop (Z.to_nat k) ps in
  ps' ≡ₚ export_ptrs (exports t ++ [e]) /\ StronglySorted (fun p q => name_lt p.2 q.2) ps'.
Proof.
  intros Hperm Ho Hs Hk Hkr Hne ps'. split.
  - unfold ps'. rewrite Permutation_app_swap_app. simpl. rewrite take_drop, Hperm, export_ptrs_snoc. apply Permutation_cons_append.
  - rewrite <- (take_drop (Z.to_nat k) ps) in Hs. unfold ps'.
    assert (Hlt : Forall (fun p => name_lt p.2 e) (take (Z.to_nat k) ps)).
    { apply Forall_lookup. intros j p [Hp Hj]%lookup_take_Some. apply (Hk (Z.of_nat j)); [by rewrite zget_of_nat|lia]. }
    assert (Hge : Forall (fun p => name_lt e p.2) (drop (Z.to_nat k) ps)).
    { apply Forall_lookup. intros j p Hp. rewrite lookup_drop in Hp. assert (Hin : p ∈ ps) by by eapply list_elem_of_lookup_2.
      pose proof (Hk (Z.of_nat (Z.to_nat k + j)) p) as Hc. rewrite zget_of_nat in Hc. specialize (Hc Hp).
      unfold name_lt. rewrite name_cmp_flip, name_cmp_len.
      assert (wah_export_name_cmp_len p.2 (exp_name e) <> 0); [|lia]. intros E%name_cmp_eq.
      rewrite Hperm in Hin. destruct p as [i e']. apply export_ptrs_elem, zget_Some in Hin as [_ Hin].
      apply (Hne e'); [by eapply list_elem_of_lookup_2|done]. }
    apply StronglySorted_app in Hs as (H1 & H2 & H3). apply StronglySorted_app. split_and!; [|done|].
    + intros p q Hp [->|Hq]%elem_of_cons; [by apply (proj1 (Forall_forall _ _) Hlt)|by apply H1].
    + constructor; [done|exact Hge].
Qed.

Lemma append_sorted t e cap : exports_sorted t -> (forall e', e' ∈ exports t -> exp_name e' <> exp_name e) ->
  export_count t < cap < 2 ^ 32 ->
  exists t', wah_module_append_export (ExportTable (exports t) (export_order t) cap) e = Some t' /\
    exports t' = exports t ++ [e] /\ exports_sorted t'.
Proof.
  intros [Hcap (ps & Hperm & Ho & Hs)] Hne Hc.
  destruct (lower_bound_splits (ExportTable (exports t) (export_order t) cap) ps Hperm Ho Hs (exp_name e)) as (k & Hk & Hkr & Hsp);
    [unfold export_count in *; simpl; lia|].
  unfold wah_module_append_export. simpl exp_name. rewrite Hk. cbn [mbind option_bind exports_cap].
  change (export_count (ExportTable _ _ _)) with (export_count t) in *. destruct (Z.ltb_spec (export_count t) cap); [|lia].
  eexists. split; [done|]. split; [done|]. split; simpl.
  - unfold export_count in *. simpl. rewrite zlen_snoc. lia.
  - destruct (insert_sorted t ps e k Hperm Ho Hs Hsp Hkr Hne) as [H1 H2]. eexists. split; [exact H1|]. split; [|exact H2].
    by rewrite !fmap_app, fmap_take, fmap_drop, Ho.
Qed.

Lemma find_exists t name : exports_sorted t ->
  exists r, wah_find_export_by_name t name = Some r /\ export_named (exports t) name r.
Proof. intros [Hc (ps & H1 & H2 & H3)]. apply (find_named t ps H1 H2 H3). lia. Qed.

(** C19. Adding an export to a module: a name that is there already is refused, as are
    more exports than the arrays can have; otherwise, unless memory runs out, the export
    is added, and the order of the names is kept.  No access is out of bounds. *)
Theorem add_export_exact t e a : exports_sorted t ->
  match add_export t e a with
  | (Ok t', _) => (forall e', e' ∈ exports t -> exp_name e' <> exp_name e) /\ exports t' = exports t ++ [e] /\ exports_sorted t'
  | (Err err, _) => err = WAH_ERROR_OUT_OF_MEMORY \/
      (err = WAH_ERROR_VALIDATION_FAILED /\ exists e', e' ∈ exports t /\ exp_name e' = exp_name e) \/
      (err = WAH_ERROR_TOO_LARGE /\ 2 ^ 31 <= export_count t)
  | (Fault, _) => False
  end.
Proof.
  intros Ht. unfold add_export, wah_module_ensure_export, stm_bind.
  destruct (find_exists t (exp_name e) Ht) as (r & Hr & Hn). rewrite Hr. simpl.
  destruct r as [e0|]; simpl; [right; left; split; [done|exists e0; by apply Hn]|].
  assert (Hne : forall e', e' ∈ exports t -> exp_name e' <> exp_name e).
  { intros e' H1 H2. pose proof (proj2 (Hn e') (conj H1 H2)) as E. discriminate E. }
  assert (Happ : forall cap (a' : answers), export_count t < cap < 2 ^ 32 ->
    exists t', (stm_opt (wah_module_append_export (ExportTable (exports t) (export_order t) cap) e) : comp answers _) a' = (Ok t', a') /\
      exports t' = exports t ++ [e] /\ exports_sorted t').
  { intros cap a' Hcap. destruct (append_sorted t e cap Ht Hne Hcap) as (t' & Ht' & H1 & H2). exists t'. by rewrite Ht'. }
  pose proof (xs_count t Ht) as Hcap. destruct (Z.leb_spec (exports_cap t) (export_count t)) as [Hfull|Hroom].
  - assert (Hc : export_count t = exports_cap t) by lia. destruct (Z.leb_spec (exports_cap t) (UINT32_MAX / 2)) as [Hsm|Hbig]; simpl.
    2: { right; right. split; [done|]. unfold UINT32_MAX in Hbig. change (4294967295 / 2) with (2 ^ 31 - 1) in Hbig. lia. }
    set (new_cap := if negb (exports_cap t =? 0) then exports_cap t * 2 else 16).
    destruct (wah_malloc_c_cases new_cap 4 a) as [[a1 ->]|[a1 ->]]; [|by left].
    destruct (wah_malloc_c_cases new_cap sizeof_wah_export_t a1) as [[a2 ->]|[a2 ->]]; [|by left].
    unfold stm_ret. destruct (Happ new_cap a2) as (t' & -> & H1 & H2); [|done].
    unfold new_cap, UINT32_MAX in *. change (4294967295 / 2) with (2 ^ 31 - 1) in Hsm. assert (0 <= export_count t) by (unfold export_count, zlen; lia).
    destruct (Z.eqb_spec (exports_cap t) 0); simpl; lia.
  - destruct t as [es o cap]. simpl in *. destruct (Happ cap a) as (t' & -> & H1 & H2); [lia|done].
Qed.

(** Looking an export up by kind and name gives it if and only if the module has
    one; it never reads out of bounds and takes at most 33 steps. *)
Theorem wah_find_export_exact t kind field : exports_sorted t ->
  exists r, wah_find_export t kind field = Some r /\
    forall e, r = Some e <-> e ∈ exports t /\ exp_kind e = kind /\ exp_name e = field.
Proof.
  intros Ht. destruct (find_exists t field Ht) as (r & Hr & Hn). unfold wah_find_export. rewrite Hr. simpl.
  eexists. split; [done|]. intros e. destruct r as [e0|].
  - destruct (proj1 (Hn e0) eq_refl) as [H1 H2]. destruct (Z.eqb_spec (exp_kind e0) kind) as [<-|Hne].
    + split; [by intros [= <-]|]. intros (? & ? & ?). by apply Hn.
    + split; [done|]. intros (H3 & H4 & H5). assert (Some e0 = Some e) as [= ->] by by apply Hn. done.
  - split; [done|]. intros (H3 & H4 & H5). by apply Hn.
Qed.

(** *** The section *)

Section Module.
Context (M : wah_module_env) (HM : module_ok M).

Lemma cio_check_export kind i : 0 <= i -> cio_good M (check_export M kind i) (fun _ => forall name, utf8_text name -> export_ok M (Export name kind i)).
Proof.
  intros Hi. unfold check_export. apply cio_if; intros H0; [|apply cio_if; intros H1; [|apply cio_if; intros H2; [|
    apply cio_if; intros H3; [|apply cio_if; intros H4]]]].
  - eapply cio_bind; [apply cio_ensure|]. intros [] Hl%Z.ltb_lt. eapply cio_mono; [by apply cio_declare|]. intros [] _ name Hname.
    split_and!; [done|done|]. apply Z.eqb_eq in H0. simpl. auto.
  - eapply cio_mono; [apply cio_ensure|]. intros [] Hl%Z.ltb_lt name Hname. split_and!; [done|done|]. apply Z.eqb_eq in H1. simpl. auto.
  - eapply cio_mono; [apply cio_ensure|]. intros [] Hl%Z.ltb_lt name Hname. split_and!; [done|done|]. apply Z.eqb_eq in H2. simpl. auto 6.
  - eapply cio_bind; [apply cio_ensure|]. intros [] Hl%Z.ltb_lt.
    destruct (space_get _ _ _ i (mo_globals M HM) Hi) as (g & Hg & _); [by apply Z.ltb_lt|].
    eapply cio_bind; [apply (cio_opt _ _ (global_mutable g) (fun _ => True)); [|done]; unfold wah_global_is_mutable; by rewrite Hg|].
    intros b _. apply (cio_mono _ _ (fun _ => True)).
    + apply cio_if; intros _; [apply cio_sec, io_require|by apply cio_ret].
    + intros [] _ name Hname. split_and!; [done|done|]. apply Z.eqb_eq in H3. simpl. auto 7.
  - eapply cio_mono; [apply cio_ensure|]. intros [] Hl%Z.ltb_lt name Hname. split_and!; [done|done|]. apply Z.eqb_eq in H4. simpl. auto 8.
  - by intros s Hb Hn.
Qed.

Lemma cio_export : cio_good M (parse_export M) (export_ok M).
Proof.
  unfold parse_export. eapply cio_bind; [apply cio_sec, io_parse_name|]. intros name Hname.
  eapply cio_bind; [apply cio_sec, io_read_byte|]. intros kind _. eapply cio_bind; [apply cio_sec, io_u32|]. intros i [Hi _].
  eapply cio_bind; [by apply cio_check_export|]. intros [] Hok. apply cio_ret. by apply Hok.
Qed.

Lemma cio_sort l : zlen l < 2 ^ 32 -> cio_good M (sort_exports l) (fun order => exports_sorted (ExportTable l order (zlen l))).
Proof.
  intros Hl. unfold sort_exports. eapply cio_bind; [apply cio_sec, io_malloc|]. intros [] _. cbv zeta.
  eapply cio_bind; [apply cio_ensure|]. intros [] Hd%negb_true_iff. eapply cio_bind; [apply cio_sec, io_malloc|]. intros [] _.
  apply cio_ret. split; [unfold export_count; simpl; lia|]. exists (qsort_exports (export_ptrs l)). split_and!; [|done|].
  - apply merge_sort_Permutation.
  - apply same_name_next_spec; [|done]. apply StronglySorted_merge_sort; apply _.
Qed.

Lemma wp_export_section s : decoder_bytes s.1.1 -> notes_ok M s.2 -> zlen (cursor s.1.1) < 2 ^ 32 ->
  wp (wah_parse_export_section M)
    (fun t s' => decoder_bytes s'.1.1 /\ cursor s'.1.1 `suffix_of` cursor s.1.1 /\ notes_ok M s'.2 /\
       Forall (export_ok M) (exports t) /\ exports_sorted t) s.
Proof.
  destruct s as [x n]. simpl. intros Hb Hn Hlen. apply wp_bind, wp_on_sec, wp_io_count; [done|done|simpl; lia|]. simpl.
  intros k y Hk Hnk Hb1 Hsuf _.
  enough (Hg : cio_good M (on_sec (malloc_io k sizeof_wah_export_t) ;;; l <- parse_items (fun _ => parse_export M) (Z.to_nat k) [] ;;
    order <- (if 0 <? k then sort_exports l else stm_ret []) ;; stm_ret (ExportTable l order k))
    (fun t => Forall (export_ok M) (exports t) /\ exports_sorted t)).
  { eapply wp_mono; [by apply Hg|]. intros t s2 (H1 & H2 & H3 & H4). split_and!; [done|by etrans|done|apply H4..]. }
  eapply cio_bind; [apply cio_sec, io_malloc|]. intros [] _.
  eapply cio_bind; [by apply (cio_items M (fun _ => parse_export M) (fun _ => export_ok M)); intros; apply cio_export|].
  intros l [Hl Hlk]. assert (Hzl : zlen l = k) by (unfold zlen; lia).
  eapply (cio_bind _ _ _ (fun order => exports_sorted (ExportTable l order (zlen l)))).
  - apply cio_if; intros H0; [apply cio_sort; lia|]. apply Z.ltb_ge in H0. apply cio_ret. destruct l as [|e l]; [|unfold zlen in *; simpl in *; lia].
    split; [unfold export_count, zlen; simpl; lia|]. exists []. by split_and!; constructor.
  - intros order Ho. apply cio_ret. rewrite <- Hzl. split; [|done]. apply Forall_lookup. intros i e He. by apply (Hl i).
Qed.
End Module.

(** *** Samples *)

(** Three exports, not in the order of their names. *)
Definition sample_exports : list wah_export_t := [Export [98] 0 0; Export [97; 97] 2 0; Export [97] 0 1].
Definition sample_export_table : export_table := ExportTable sample_exports [2; 0; 1] 3.
Lemma sample_exports_sorted : exports_sorted sample_export_table.
Proof.
  split; [vm_compute; done|]. exists (qsort_exports (export_ptrs sample_exports)). split_and!; [apply merge_sort_Permutation|done|].
  apply same_name_next_spec; [apply StronglySorted_merge_sort; apply _|done].
Qed.

Lemma add_export_exact_witness : exists t a,
  add_export sample_export_table (Export [97; 98] 0 2) [true; true] = (Ok t, a) /\ export_order t = [2; 0; 1; 3] /\
  exports_sorted t.
Proof.
  pose proof (add_export_exact sample_export_table (Export [97; 98] 0 2) [true; true] sample_exports_sorted) as H. run_in H.
  destruct H as (_ & _ & H). eexists _, _. split; [vm_compute; reflexivity|]. split; [reflexivity|exact H].
Defined.

Lemma wah_find_export_exact_witness : exists r, wah_find_export sample_export_table 2 [97; 97] = Some r /\
  r = Some (Export [97; 97] 2 0).
Proof.
  destruct (wah_find_export_exact sample_export_table 2 [97; 97] sample_exports_sorted) as (r & Hr & H). exists r.
  split; [exact Hr|]. apply H. split; [right; left|split; reflexivity].
Defined.
