(* ===== verification/ParseModule.v ===== *)
(** * Parsing a module

    [wah_parse_module]: the header, the sections, in order and each read to its end by
    its parser, and the checks once all have been read.  For any bytes the parser ends
    without an access out of bounds, and what it accepts has been validated: this puts
    together the theorems on the parsers of the sections. *)

From S2P Require Import Prelude Base Alloc Types Opcodes Bytes Leb128 Utf8 Decode Subtype RecGroups Layout ModuleEnv Operands Validate ValidInv ValidRules ValidSafe Locals ParseIo TypeSection TypeMeta Analyze AnalyzeInv Samples AnalyzeOk CodeSection ConstExpr Sections Segments Exports.
From stdpp Require Import list sets.
#[local] Open Scope Z_scope.
#[local] Open Scope wah_scope.

(** ** Definitions *)

(** *** The module as it is parsed

    The arrays that validation reads are in [ms_env], the types of tables and globals
    also with their initializers. *)
Record module_state := ModuleState {
  ms_env : wah_module_env;
  ms_imports : list wah_import_desc_t;
  ms_tables : list (wah_table_type_t * option wah_analyzed_code_t);
  ms_globals : list (wah_global_decl * (wah_analyzed_code_t * list Z));
  ms_exports : export_table;
  ms_start : option Z;
  ms_elements : list wah_element_segment_t;
  ms_has_data_count : bool;
  ms_bodies : list parsed_body;
  ms_data : list wah_data_segment_t }.

Definition set_types (m : wah_module_t) (M : wah_module_env) : wah_module_env :=
  ModuleEnv m (func_imports M) (function_type_indices M) (table_imports M) (tables M) (memory_imports M) (memories M)
    (global_imports M) (globals M) (tag_imports M) (tags M) (element_segments M) (data_segment_count M) (fuel_metering M).
Definition set_imports (im : import_arrays) (M : wah_module_env) : wah_module_env :=
  ModuleEnv (env_types M) (im_funcs im) (function_type_indices M) (im_tables im) (tables M) (im_memories im) (memories M)
    (im_globals im) (globals M) (im_tags im) (tags M) (element_segments M) (data_segment_count M) (fuel_metering M).
Definition set_functions (l : list Z) (M : wah_module_env) : wah_module_env :=
  ModuleEnv (env_types M) (func_imports M) l (table_imports M) (tables M) (memory_imports M) (memories M)
    (global_imports M) (globals M) (tag_imports M) (tags M) (element_segments M) (data_segment_count M) (fuel_metering M).
Definition set_memories (l : list wah_memory_type_t) (M : wah_module_env) : wah_module_env :=
  ModuleEnv (env_types M) (func_imports M) (function_type_indices M) (table_imports M) (tables M) (memory_imports M) l
    (global_imports M) (globals M) (tag_imports M) (tags M) (element_segments M) (data_segment_count M) (fuel_metering M).
Definition set_tags (l : list Z) (M : wah_module_env) : wah_module_env :=
  ModuleEnv (env_types M) (func_imports M) (function_type_indices M) (table_imports M) (tables M) (memory_imports M) (memories M)
    (global_imports M) (globals M) (tag_imports M) l (element_segments M) (data_segment_count M) (fuel_metering M).

(** What each section changes. *)
Definition ms_with_env (f : wah_module_env -> wah_module_env) (s : module_state) : module_state :=
  ModuleState (f (ms_env s)) (ms_imports s) (ms_tables s) (ms_globals s) (ms_exports s) (ms_start s) (ms_elements s)
    (ms_has_data_count s) (ms_bodies s) (ms_data s).
Definition ms_put_imports (im : import_arrays) (s : module_state) : module_state :=
  ModuleState (set_imports im (ms_env s)) (im_descs im) (ms_tables s) (ms_globals s) (ms_exports s) (ms_start s) (ms_elements s)
    (ms_has_data_count s) (ms_bodies s) (ms_data s).
Definition ms_put_tables l (s : module_state) : module_state :=
  ModuleState (set_tables l.*1 (ms_env s)) (ms_imports s) l (ms_globals s) (ms_exports s) (ms_start s) (ms_elements s)
    (ms_has_data_count s) (ms_bodies s) (ms_data s).
Definition ms_put_globals l (s : module_state) : module_state :=
  ModuleState (set_globals l.*1 (ms_env s)) (ms_imports s) (ms_tables s) l (ms_exports s) (ms_start s) (ms_elements s)
    (ms_has_data_count s) (ms_bodies s) (ms_data s).
Definition ms_put_exports t (s : module_state) : module_state :=
  ModuleState (ms_env s) (ms_imports s) (ms_tables s) (ms_globals s) t (ms_start s) (ms_elements s)
    (ms_has_data_count s) (ms_bodies s) (ms_data s).
Definition ms_put_start i (s : module_state) : module_state :=
  ModuleState (ms_env s) (ms_imports s) (ms_tables s) (ms_globals s) (ms_exports s) (Some i) (ms_elements s)
    (ms_has_data_count s) (ms_bodies s) (ms_data s).
Definition ms_put_elements l (s : module_state) : module_state :=
  ModuleState (set_segments (es_elem_type <$> l) (ms_env s)) (ms_imports s) (ms_tables s) (ms_globals s) (ms_exports s) (ms_start s) l
    (ms_has_data_count s) (ms_bodies s) (ms_data s).
Definition ms_put_data_count n (s : module_state) : module_state :=
  ModuleState (set_data_count n (ms_env s)) (ms_imports s) (ms_tables s) (ms_globals s) (ms_exports s) (ms_start s) (ms_elements s)
    true (ms_bodies s) (ms_data s).
Definition ms_put_bodies l (s : module_state) : module_state :=
  ModuleState (ms_env s) (ms_imports s) (ms_tables s) (ms_globals s) (ms_exports s) (ms_start s) (ms_elements s)
    (ms_has_data_count s) l (ms_data s).
(** [data_segment_count] counts the segments again, if there are any. *)
Definition ms_put_data l (s : module_state) : module_state :=
  ModuleState (if 0 <? zlen l then set_data_count (zlen l) (ms_env s) else ms_env s) (ms_imports s) (ms_tables s) (ms_globals s)
    (ms_exports s) (ms_start s) (ms_elements s) (ms_has_data_count s) (ms_bodies s) l.

(** *** One section *)

Definition pstate : Type := cio * module_state.
Definition on_cio {A} (m : comp cio A) : comp pstate A := fun s => let '(r, x) := m s.1 in (r, (x, s.2)).
Notation on_io m := (on_cio (on_sec m)).
Definition get_env : comp pstate wah_module_env := s <- stm_get ;; stm_ret (ms_env s.2).
Definition update (f : module_state -> module_state) : comp pstate unit := fun s => (Ok tt, (s.1, f s.2)).

Section Storage.
Context (stack_storage : list Z -> list wah_type_t) (frame_storage : list Z -> list wah_validation_control_frame_t).

(** The code section with the decoder, the allocator and the notes of the module. *)
Definition parse_code (M : wah_module_env) : comp cio (list parsed_body) := fun '(d, a, n) =>
  let '(r, s) := wah_parse_code_section M (code_start d a n (stack_storage (cursor d)) (frame_storage (cursor d))) in
  (r, (cs_dec s, cs_ans s, cs_notes s)).

(** The handlers, by section. *)
Definition section_handler (id : Z) : comp pstate unit :=
  M <- get_env ;;
  if id =? 0 then on_io wah_parse_custom_section
  else if id =? 1 then m <- on_io wah_parse_type_section ;; update (ms_with_env (set_types m))
  else if id =? 2 then im <- on_io (wah_parse_import_section (env_types M)) ;; update (ms_put_imports im)
  else if id =? 3 then fs <- on_io (wah_parse_function_section (env_types M)) ;; update (ms_with_env (set_functions fs))
  else if id =? 4 then l <- on_cio (wah_parse_table_section stack_storage frame_storage M) ;; update (ms_put_tables l)
  else if id =? 5 then
    l <- on_io (wah_parse_memory_section (zlen (memory_imports M))) ;; update (ms_with_env (set_memories l))
  else if id =? 6 then l <- on_cio (wah_parse_global_section stack_storage frame_storage M) ;; update (ms_put_globals l)
  else if id =? 7 then t <- on_cio (wah_parse_export_section M) ;; update (ms_put_exports t)
  else if id =? 8 then i <- on_io (wah_parse_start_section M) ;; update (ms_put_start i)
  else if id =? 9 then l <- on_cio (wah_parse_element_section stack_storage frame_storage M) ;; update (ms_put_elements l)
  else if id =? 10 then l <- on_cio (parse_code M) ;; update (ms_put_bodies l)
  else if id =? 11 then
    s <- stm_get ;;
    l <- on_cio (wah_parse_data_section stack_storage frame_storage M (ms_has_data_count s.2)) ;; update (ms_put_data l)
  else if id =? 12 then n <- on_io wah_parse_datacount_section ;; update (ms_put_data_count n)
  else if id =? 13 then l <- on_io (wah_parse_tag_section (env_types M)) ;; update (ms_with_env (set_tags l))
  else fun s => (Fault, s).

(** The orders of the handlers. *)
Definition section_orders : list Z := [0; 1; 2; 3; 4; 5; 7; 8; 9; 10; 12; 13; 11; 6].

(** The handler sees the [size] bytes of the section and reads them all. *)
Definition set_cursor (c : list Z) : comp pstate unit := fun s =>
  (Ok tt, ((Decoder c (dec_features s.1.1.1), s.1.1.2, s.1.2), s.2)).
Definition in_section (size : Z) (m : comp pstate unit) : comp pstate unit :=
  s <- stm_get ;;
  let c := cursor s.1.1.1 in
  stm_ensure (size <=? zlen c) WAH_ERROR_UNEXPECTED_EOF ;;;
  set_cursor (take (Z.to_nat size) c) ;;;
  m ;;;
  s <- stm_get ;;
  stm_ensure (zlen (cursor s.1.1.1) =? 0) WAH_ERROR_MALFORMED ;;;
  set_cursor (drop (Z.to_nat size) c).

(** The loop over the sections, with [fuel] for one more than the bytes that are left. *)
Fixpoint parse_sections (fuel : nat) (last_parsed_order : Z) : comp pstate unit :=
  match fuel with
  | O => fun s => (Fault, s)
  | S fuel' =>
      s <- stm_get ;;
      if zlen (cursor s.1.1.1) =? 0 then stm_ret tt
      else
        ' (section_id, section_size) <- on_io (on_cur wah_read_section_header) ;;
        stm_ensure (section_id <? zlen section_orders) WAH_ERROR_MALFORMED ;;;
        order <- stm_opt (zget section_orders section_id) ;;
        last <- (if negb (section_id =? 0) then
                   stm_ensure (last_parsed_order <? order) WAH_ERROR_MALFORMED ;;; stm_ret order
                 else stm_ret last_parsed_order) ;;
        in_section section_size (section_handler section_id) ;;;
        parse_sections fuel' last
  end.

(** *** Once all sections have been read *)

Definition final_checks : comp pstate unit :=
  s <- stm_get ;;
  let '((_, notes), ms) := s in
  let M := ms_env ms in
  stm_ensure (zlen (function_type_indices M) =? zlen (ms_bodies ms)) WAH_ERROR_MALFORMED ;;;
  (if 0 <? min_data_required notes then stm_ensure (ms_has_data_count ms) WAH_ERROR_MALFORMED else stm_ret tt) ;;;
  stm_ensure (min_data_required notes <=? data_segment_count M) WAH_ERROR_VALIDATION_FAILED ;;;
  (if ms_has_data_count ms && (0 <? data_segment_count M)
   then stm_ensure (negb (zlen (ms_data ms) =? 0)) WAH_ERROR_MALFORMED else stm_ret tt) ;;;
  let uses_multi_value := existsb (fun ft => 1 <? zlen (result_types ft)) (types (env_types M)) in
  let uses_mut_import := existsb global_mutable (global_imports M) in
  (if uses_multi_value then on_io (require_io MULTI_VALUE) else stm_ret tt) ;;;
  (if uses_mut_import then on_io (require_io MUTABLE_GLOBALS) else stm_ret tt) ;;;
  (if 1 <? wah_table_index_limit M then on_io (require_io REF_TYPES) else stm_ret tt).

(** A function of the module, [fn_module]; a host function may follow them later. *)
Record wah_function_t := Function { local_idx : Z; global_idx : Z }.
Definition sizeof_wah_function_holder_t : Z := 120.
Definition module_functions (M : wah_module_env) : list wah_function_t :=
  (fun i => Function i (u32 (zlen (func_imports M) + i))) <$> zrange 0 (zlen (function_type_indices M)).
Definition build_functions : comp pstate (list wah_function_t) :=
  M <- get_env ;;
  if 0 <? zlen (function_type_indices M) then
    on_io (malloc_io (zlen (function_type_indices M)) sizeof_wah_function_holder_t) ;;;
    stm_ret (module_functions M)
  else stm_ret [].

(** *** The module *)

Record wah_parse_options_t {H} := ParseOptions {
  opt_alloc : option (@user_alloc H); opt_features : Z; opt_enable_fuel_metering : bool }.

Definition WAH_COMPILED_FEATURES : Z := WAH_FEATURE_ALL.
Definition WAH_DEFAULT_FEATURES : Z := WAH_COMPILED_FEATURES.

(** A module without anything. *)
Definition empty_types : wah_module_t := Module [] [] None None [] (FeatureState 0 0).
Definition empty_module (fuel : bool) : wah_module_env := ModuleEnv empty_types [] [] [] [] [] [] [] [] [] [] [] 0 fuel.
Definition start_module (fuel : bool) : module_state :=
  ModuleState (empty_module fuel) [] [] [] (ExportTable [] [] 0) None [] false [] [].

Record parsed_module := ParsedModule {
  pm_state : module_state; pm_notes : wah_module_notes; pm_features : feature_state; pm_functions : list wah_function_t }.

(** [binary] may be NULL; [ans] are the answers of the allocator. *)
Definition wah_parse_module {H} (options : option (@wah_parse_options_t H)) (binary : option (list Z)) (ans : answers)
  : result parsed_module :=
  match binary with
  | None => Err WAH_ERROR_MISUSE
  | Some binary =>
      if negb (8 <=? zlen binary) then Err WAH_ERROR_UNEXPECTED_EOF
      else if negb (wah_alloc_valid (o ← options; opt_alloc o)) then Err WAH_ERROR_MISUSE
      else
        let requested := match options with
          | Some o => if negb (opt_features o =? 0) then opt_features o else WAH_DEFAULT_FEATURES
          | None => WAH_DEFAULT_FEATURES end in
        let enabled := Z.land (wah_feature_closure requested) WAH_COMPILED_FEATURES in
        let fuel := match options with Some o => opt_enable_fuel_metering o | None => false end in
        match wah_read_u32_le binary 0 with
        | None => Fault
        | Some magic =>
            if negb (magic =? 0x6D736100) then Err WAH_ERROR_INVALID_MAGIC_NUMBER
            else
              match wah_read_u32_le binary 4 with
              | None => Fault
              | Some version =>
                  if negb (version =? 1) then Err WAH_ERROR_INVALID_VERSION
                  else
                    let c := drop 8 binary in
                    match (parse_sections (S (length c)) 0 ;;; final_checks ;;; build_functions)
                            ((Decoder c (FeatureState enabled 0), ans, ModuleNotes 0 None), start_module fuel) with
                    | (Ok fs, ((d, _, notes), ms)) => Ok (ParsedModule ms notes (dec_features d) fs)
                    | (Err e, _) => Err e
                    | (Fault, _) => Fault
                    end
              end
        end
  end.
End Storage.
