(* ===== verification/ParseOk.v ===== *)
(** * What a parsed module is

    The invariant of the loop over the sections, and the theorem that it gives of
    [wah_parse_module]: no byte string makes it fault or loop, and what it accepts is a
    valid module. *)

From S2P Require Import Prelude Base Alloc Types Opcodes Bytes Leb128 Utf8 Decode Subtype RecGroups Layout ModuleEnv Operands Validate ValidInv ValidRules ValidSafe Locals ParseIo TypeSection TypeMeta Analyze AnalyzeInv Samples AnalyzeOk CodeSection ConstExpr Sections Segments Exports ParseModule.
From stdpp Require Import list sets.
#[local] Open Scope Z_scope.
#[local] Open Scope wah_scope.

(** ** Definitions *)

(** *** A module at its sections

    The environment that a section was read in: what later sections give is not there. *)
Definition at_table (M : wah_module_env) : wah_module_env :=
  ModuleEnv (env_types M) (func_imports M) (function_type_indices M) (table_imports M) (tables M) (memory_imports M) []
    (global_imports M) [] (tag_imports M) [] [] 0 (fuel_metering M).
Definition at_global (M : wah_module_env) : wah_module_env :=
  ModuleEnv (env_types M) (func_imports M) (function_type_indices M) (table_imports M) (tables M) (memory_imports M) (memories M)
    (global_imports M) (globals M) (tag_imports M) (tags M) [] 0 (fuel_metering M).
(** Before the data section, segments are counted by the data count section only. *)
Definition at_code (s : module_state) : wah_module_env :=
  if ms_has_data_count s then ms_env s else set_data_count 0 (ms_env s).

(** *** The parts of a valid module *)

Record spaces_ok (M : wah_module_env) : Prop := {
  so_funcs : Forall (is_func_type (env_types M)) (func_imports M ++ function_type_indices M);
  so_tables : Forall (table_ok (env_types M)) (table_imports M ++ tables M);
  so_memories : Forall memory_ok (memory_imports M ++ memories M);
  so_globals : Forall (global_ok (env_types M)) (global_imports M ++ globals M);
  so_tags : Forall (is_tag_type (env_types M)) (tag_imports M ++ tags M) }.

(** No index space has more than [n] entries. *)
Record sizes_ok (n : Z) (M : wah_module_env) : Prop := {
  sz_funcs : zlen (func_imports M) + zlen (function_type_indices M) <= n;
  sz_tables : zlen (table_imports M) + zlen (tables M) <= n;
  sz_memories : zlen (memory_imports M) + zlen (memories M) <= n;
  sz_globals : zlen (global_imports M) + zlen (globals M) <= n;
  sz_tags : zlen (tag_imports M) + zlen (tags M) <= n }.

Section Parts.
Context (s : module_state).
Notation M := (ms_env s).
Definition tables_part : Prop := tables M = (ms_tables s).*1 /\ items_ok (table_entry_ok (at_table M)) (ms_tables s).
Definition globals_part : Prop := globals M = (ms_globals s).*1 /\ items_ok (global_entry_ok (at_global M)) (ms_globals s).
Definition exports_part : Prop := Forall (export_ok M) (exports (ms_exports s)) /\ exports_sorted (ms_exports s).
Definition start_part : Prop := match ms_start s with Some i => start_fn_ok M i | None => True end.
Definition elements_part : Prop :=
  element_segments M = (es_elem_type <$> ms_elements s) /\ items_ok (element_entry_ok (set_data_count 0 M)) (ms_elements s).
(** Each body was read from the bytes [bodies] of the code section. *)
Definition code_part : Prop := exists bodies, length bodies = length (ms_bodies s) /\
  forall k b body, ms_bodies s !! k = Some b -> bodies !! k = Some body -> body_parsed (at_code s) (Z.of_nat k) body b.
Definition data_part : Prop := items_ok (data_entry_ok M) (ms_data s) /\
  (ms_data s <> [] \/ ms_has_data_count s = false -> data_segment_count M = zlen (ms_data s)).
End Parts.

(** *** The invariant of the loop *)

(** After the section of order [k], what later sections give is not there. *)
Record fresh_after (k : Z) (notes : wah_module_notes) (s : module_state) : Prop := {
  fr_types : k < 1 -> env_types (ms_env s) = empty_types;
  fr_imports : k < 2 -> let M := ms_env s in func_imports M = [] /\ table_imports M = [] /\ memory_imports M = [] /\
    global_imports M = [] /\ tag_imports M = [];
  fr_functions : k < 3 -> function_type_indices (ms_env s) = [];
  fr_tables : k < 4 -> tables (ms_env s) = [] /\ ms_tables s = [] /\ declared_funcs notes = None;
  fr_memories : k < 5 -> memories (ms_env s) = [];
  fr_tags : k < 6 -> tags (ms_env s) = [];
  fr_globals : k < 7 -> globals (ms_env s) = [] /\ ms_globals s = [];
  fr_exports : k < 8 -> ms_exports s = ExportTable [] [] 0;
  fr_start : k < 9 -> ms_start s = None;
  fr_elements : k < 10 -> element_segments (ms_env s) = [] /\ ms_elements s = [];
  fr_count : k < 11 -> ms_has_data_count s = false;
  fr_code : k < 12 -> ms_bodies s = [];
  fr_data : k < 13 -> ms_data s = [] /\ (ms_has_data_count s = false -> data_segment_count (ms_env s) = 0) }.

(** [left] bytes are left of [N] when the section of order [k] was the last. *)
Record parse_inv (N left k : Z) (notes : wah_module_notes) (s : module_state) : Prop := {
  pi_fresh : fresh_after k notes s;
  pi_types : type_section_ok (env_types (ms_env s));
  pi_spaces : spaces_ok (ms_env s);
  pi_sizes : sizes_ok (N - left) (ms_env s);
  pi_notes : notes_ok (ms_env s) notes;
  pi_tables : tables_part s;
  pi_globals : globals_part s;
  pi_exports : exports_part s;
  pi_start : start_part s;
  pi_elements : elements_part s;
  pi_code : code_part s;
  pi_data : data_part s }.

(** *** A valid module *)

Record valid_module (p : parsed_module) : Prop := {
  vm_module : module_ok (ms_env (pm_state p));
  vm_types : type_section_ok (env_types (ms_env (pm_state p)));
  vm_spaces : spaces_ok (ms_env (pm_state p));
  vm_tables : tables_part (pm_state p);
  vm_globals : globals_part (pm_state p);
  vm_exports : exports_part (pm_state p);
  vm_start : start_part (pm_state p);
  vm_elements : elements_part (pm_state p);
  vm_code : code_part (pm_state p);
  vm_code_count : zlen (ms_bodies (pm_state p)) = zlen (function_type_indices (ms_env (pm_state p)));
  vm_data : items_ok (data_entry_ok (ms_env (pm_state p))) (ms_data (pm_state p));
  vm_data_count : data_segment_count (ms_env (pm_state p)) = zlen (ms_data (pm_state p));
  vm_data_required : min_data_required (pm_notes p) <= data_segment_count (ms_env (pm_state p)) /\
    (0 < min_data_required (pm_notes p) -> ms_has_data_count (pm_state p) = true);
  vm_functions : zlen (pm_functions p) = zlen (function_type_indices (ms_env (pm_state p))) /\
    forall i f, pm_functions p !! i = Some f ->
      local_idx f = Z.of_nat i /\ global_idx f = zlen (func_imports (ms_env (pm_state p))) + Z.of_nat i }.

(** ** Theorems *)

(** *** The module that validation sees *)

Lemma parsed_module_ok n M : n + 7 < 2 ^ 32 -> type_section_ok (env_types M) -> spaces_ok M -> sizes_ok n M ->
  Forall (type_valid (env_types M)) (element_segments M) -> module_ok M.
Proof.
  intros Hn [T1 T2 T3 T4 _ _ _ _ _ _] [S1 S2 S3 S4 S5] [Z1 Z2 Z3 Z4 Z5] He.
  apply Forall_app in S1 as [S1 S1'], S2 as [S2 S2'], S3 as [S3 S3'], S4 as [S4 S4'], S5 as [S5 S5'].
  split; try done.
  - split_and!; [lia|eapply Forall_impl; [exact S1|]|eapply Forall_impl; [exact S1'|]]; intros i [Hi _]; exact Hi.
  - unfold func_space. lia.
  - split_and!; [lia|eapply Forall_impl; [exact S2|]|eapply Forall_impl; [exact S2'|]]; intros t [Ht _]; exact Ht.
  - split_and!; [lia|eapply Forall_impl; [exact S3|]|eapply Forall_impl; [exact S3'|]]; intros t [Ht _]; exact Ht.
  - split_and!; [lia|done|done].
  - split_and!; [lia|eapply Forall_impl; [exact S5|]|eapply Forall_impl; [exact S5'|]]; intros t [[Ht _] _]; exact Ht.
Qed.

Lemma elements_valid s : elements_part s -> Forall (type_valid (env_types (ms_env s))) (element_segments (ms_env s)).
Proof. intros [-> H]. eapply items_ok_Forall; [exact H|]. intros acc x Hx. apply (el_type _ _ Hx). Qed.

Lemma inv_module_ok N left k notes s : N + 7 < 2 ^ 32 -> 0 <= left -> parse_inv N left k notes s -> module_ok (ms_env s).
Proof.
  intros HN Hl []. eapply (parsed_module_ok (N - left)); [lia|done..|by apply elements_valid].
Qed.

(** A part that is not there yet. *)
Lemma items_nil {A} (P : list A -> A -> Prop) : items_ok P [].
Proof. intros i x H. by rewrite lookup_nil in H. Qed.
Section Fresh.
Context (k : Z) (notes : wah_module_notes) (s : module_state) (F : fresh_after k notes s).
Lemma fresh_tables_part : k < 4 -> tables_part s.
Proof. intros H. destruct (fr_tables _ _ _ F H) as (H1 & H2 & _). unfold tables_part. rewrite H1, H2. split; [done|apply items_nil]. Qed.
Lemma fresh_globals_part : k < 7 -> globals_part s.
Proof. intros H. destruct (fr_globals _ _ _ F H) as (H1 & H2). unfold globals_part. rewrite H1, H2. split; [done|apply items_nil]. Qed.
Lemma fresh_exports_part : k < 8 -> exports_part s.
Proof.
  intros H. unfold exports_part. rewrite (fr_exports _ _ _ F H). split; [constructor|]. split; [done|]. exists [].
  split_and!; [done|done|constructor].
Qed.
Lemma fresh_start_part : k < 9 -> start_part s.
Proof. intros H. unfold start_part. by rewrite (fr_start _ _ _ F H). Qed.
Lemma fresh_elements_part : k < 10 -> elements_part s.
Proof. intros H. destruct (fr_elements _ _ _ F H) as (H1 & H2). unfold elements_part. rewrite H1, H2. split; [done|apply items_nil]. Qed.
Lemma fresh_code_part : k < 12 -> code_part s.
Proof.
  intros H. exists []. rewrite (fr_code _ _ _ F H). split; [done|]. intros i b body Hb. by rewrite lookup_nil in Hb.
Qed.
Lemma fresh_data_part : k < 13 -> data_part s.
Proof.
  intros H. destruct (fr_data _ _ _ F H) as [H1 H2]. unfold data_part. rewrite H1. split; [apply items_nil|].
  intros [|Hh]; [done|by apply H2].
Qed.
End Fresh.

(** *** What each section keeps *)

Lemma empty_types_ok : type_section_ok empty_types.
Proof.
  assert (Hn : forall i td, ~ type_at empty_types i td) by (intros i td H; by apply zget_Some in H as [_ H]).
  split; try (by intros i td H%Hn); try done.
  - by apply types_wf_b_correct.
  - by apply groups_wf_b_correct.
  - by intros i Hi td std H%Hn.
  - by intros i td std info sinfo H%Hn.
Qed.

(** A later section leaves what earlier ones gave, and nothing after it is there. *)
Lemma fresh_mono j k notes s : j <= k -> fresh_after j notes s -> fresh_after k notes s.
Proof. intros Hj []. split; intros; match goal with H : _ -> ?P |- ?P => apply H; lia end. Qed.
#[local] Ltac fresh_step F k :=
  let M := fresh in
  apply (fresh_mono _ k) in F; [|lia];
  match type of F with fresh_after _ _ ?s => destruct s as [M ? ? ? ? ? ? ? ? ?]; destruct M; destruct F; simpl in * end;
  split; simpl; first [assumption | intros; lia | idtac].
(** A part that is not there, or has not changed. *)
#[local] Ltac part F :=
  lazymatch goal with
  | |- tables_part _ => first [apply (fresh_tables_part _ _ _ F); lia | assumption | idtac]
  | |- globals_part _ => first [apply (fresh_globals_part _ _ _ F); lia | assumption | idtac]
  | |- exports_part _ => first [apply (fresh_exports_part _ _ _ F); lia | assumption | idtac]
  | |- start_part _ => first [apply (fresh_start_part _ _ _ F); lia | assumption | idtac]
  | |- elements_part _ => first [apply (fresh_elements_part _ _ _ F); lia | assumption | idtac]
  | |- code_part _ => first [apply (fresh_code_part _ _ _ F); lia | assumption | idtac]
  | |- data_part _ => first [apply (fresh_data_part _ _ _ F); lia | assumption | idtac]
  | |- _ => idtac
  end.

Section Steps.
Context (N left left' k : Z) (notes : wah_module_notes) (s : module_state).
Hypothesis Hinv : parse_inv N left k notes s.
Hypothesis Hleft : left' <= left.
Notation M := (ms_env s).

Lemma sizes_mono : sizes_ok (N - left') M.
Proof. destruct (pi_sizes _ _ _ _ _ Hinv). split; lia. Qed.

Lemma inv_types m : k < 1 -> type_section_ok m -> parse_inv N left' 1 notes (ms_with_env (set_types m) s).
Proof.
  intros Hk Hm. pose proof sizes_mono as Hz. destruct Hinv as [F P1 P2 P3 P4 P5 P6 P7 P8 P9 P10 P11].
  assert (F' : fresh_after 1 notes (ms_with_env (set_types m) s)) by fresh_step F 1.
  destruct (fr_imports _ _ _ F ltac:(lia)) as (E1 & E2 & E3 & E4 & E5). pose proof (fr_functions _ _ _ F ltac:(lia)) as E6.
  destruct (fr_tables _ _ _ F ltac:(lia)) as (E7 & _). pose proof (fr_memories _ _ _ F ltac:(lia)) as E8.
  pose proof (fr_tags _ _ _ F ltac:(lia)) as E9. destruct (fr_globals _ _ _ F ltac:(lia)) as [E10 _].
  split; [exact F'|exact Hm| |destruct Hz; by split|exact P4|..]; part F'.
  split; simpl; rewrite ?E1, ?E2, ?E3, ?E4, ?E5, ?E6, ?E7, ?E8, ?E9, ?E10; constructor.
Qed.

Lemma inv_imports im n : k < 2 -> imports_ok (env_types M) im -> zlen (im_descs im) = n -> left' + n <= left ->
  parse_inv N left' 2 notes (ms_put_imports im s).
Proof.
  intros Hk [I1 I2 I3 I4 I5 I6 _] Hn Hl. pose proof sizes_mono as Hz. destruct Hinv as [F P1 P2 P3 P4 P5 P6 P7 P8 P9 P10 P11].
  assert (F' : fresh_after 2 notes (ms_put_imports im s)) by fresh_step F 2.
  pose proof (fr_functions _ _ _ F ltac:(lia)) as E6.
  destruct (fr_tables _ _ _ F ltac:(lia)) as (E7 & _ & E0). pose proof (fr_memories _ _ _ F ltac:(lia)) as E8.
  pose proof (fr_tags _ _ _ F ltac:(lia)) as E9. destruct (fr_globals _ _ _ F ltac:(lia)) as [E10 _].
  split; [exact F'|exact P1| | | |..]; part F'.
  - split; simpl; rewrite ?E6, ?E7, ?E8, ?E9, ?E10, app_nil_r; done.
  - destruct P3 as [Z1 Z2 Z3 Z4 Z5]. split; simpl; rewrite ?E6, ?E7, ?E8, ?E9, ?E10; unfold zlen in *; simpl; lia.
  - destruct P4 as [H1 H2]. split; [done|]. by rewrite E0.
Qed.

Lemma inv_functions l : k < 3 -> Forall (is_func_type (env_types M)) l -> left' + zlen l <= left ->
  parse_inv N left' 3 notes (ms_with_env (set_functions l) s).
Proof.
  intros Hk Hf Hl. pose proof sizes_mono as Hz. destruct Hinv as [F P1 P2 P3 P4 P5 P6 P7 P8 P9 P10 P11].
  assert (F' : fresh_after 3 notes (ms_with_env (set_functions l) s)) by fresh_step F 3.
  destruct (fr_tables _ _ _ F ltac:(lia)) as (_ & _ & E0). destruct P2 as [S1 S2 S3 S4 S5]. destruct P3 as [Z1 Z2 Z3 Z4 Z5].
  apply Forall_app in S1 as [S1 _].
  split; [exact F'|exact P1| | | |..]; part F'.
  - split; simpl; try done. by apply Forall_app.
  - destruct Hz as [_ Y2 Y3 Y4 Y5]. split; simpl; try done. unfold zlen in *. lia.
  - destruct P4 as [H1 H2]. split; [done|]. by rewrite E0.
Qed.

Lemma inv_tables l notes' : k < 4 -> items_ok (table_entry_ok M) l -> notes_ok M notes' -> left' + zlen l <= left ->
  parse_inv N left' 4 notes' (ms_put_tables l s).
Proof.
  intros Hk Hi Hn Hl. pose proof sizes_mono as Hz. destruct Hinv as [F P1 P2 P3 P4 P5 P6 P7 P8 P9 P10 P11].
  assert (F' : fresh_after 4 notes' (ms_put_tables l s)) by fresh_step F 4.
  pose proof (fr_memories _ _ _ F ltac:(lia)) as E8. pose proof (fr_tags _ _ _ F ltac:(lia)) as E9.
  destruct (fr_globals _ _ _ F ltac:(lia)) as [E10 _]. destruct (fr_elements _ _ _ F ltac:(lia)) as [E11 _].
  destruct (fr_data _ _ _ F ltac:(lia)) as [_ E12]. specialize (E12 (fr_count _ _ _ F ltac:(lia))).
  destruct P2 as [S1 S2 S3 S4 S5]. destruct P3 as [Z1 Z2 Z3 Z4 Z5]. apply Forall_app in S2 as [S2 _].
  split; [exact F'|exact P1| | |exact Hn|..]; part F'.
  - split; simpl; try done. apply Forall_app. split; [done|]. eapply items_ok_Forall; [exact Hi|]. by intros acc x [H _].
  - destruct Hz as [Y1 _ Y3 Y4 Y5]. split; simpl; try done. unfold zlen in *. rewrite length_fmap. lia.
  - split; [done|]. clear - Hi E8 E9 E10 E11 E12. destruct s as [m ? ? ? ? ? ? ? ? ?]. destruct m. simpl in *. by subst.
Qed.

Lemma inv_memories l : k < 5 -> Forall memory_ok l -> left' + zlen l <= left ->
  parse_inv N left' 5 notes (ms_with_env (set_memories l) s).
Proof.
  intros Hk Hf Hl. pose proof sizes_mono as Hz. destruct Hinv as [F P1 P2 P3 P4 P5 P6 P7 P8 P9 P10 P11].
  assert (F' : fresh_after 5 notes (ms_with_env (set_memories l) s)) by fresh_step F 5.
  destruct P2 as [S1 S2 S3 S4 S5]. destruct P3 as [Z1 Z2 Z3 Z4 Z5]. apply Forall_app in S3 as [S3 _].
  split; [exact F'|exact P1| | |exact P4|exact P5|..]; part F'.
  - split; simpl; try done. by apply Forall_app.
  - destruct Hz as [Y1 Y2 _ Y4 Y5]. split; simpl; try done. unfold zlen in *. lia.
Qed.

Lemma inv_tags l : k < 6 -> Forall (is_tag_type (env_types M)) l -> left' + zlen l <= left ->
  parse_inv N left' 6 notes (ms_with_env (set_tags l) s).
Proof.
  intros Hk Hf Hl. pose proof sizes_mono as Hz. destruct Hinv as [F P1 P2 P3 P4 P5 P6 P7 P8 P9 P10 P11].
  assert (F' : fresh_after 6 notes (ms_with_env (set_tags l) s)) by fresh_step F 6.
  destruct P2 as [S1 S2 S3 S4 S5]. destruct P3 as [Z1 Z2 Z3 Z4 Z5]. apply Forall_app in S5 as [S5 _].
  split; [exact F'|exact P1| | |exact P4|exact P5|..]; part F'.
  - split; simpl; try done. by apply Forall_app.
  - destruct Hz as [Y1 Y2 Y3 Y4 _]. split; simpl; try done. unfold zlen in *. lia.
Qed.

Lemma inv_globals l notes' : k < 7 -> items_ok (global_entry_ok M) l -> notes_ok M notes' -> left' + zlen l <= left ->
  parse_inv N left' 7 notes' (ms_put_globals l s).
Proof.
  intros Hk Hi Hn Hl. pose proof sizes_mono as Hz. destruct Hinv as [F P1 P2 P3 P4 P5 P6 P7 P8 P9 P10 P11].
  assert (F' : fresh_after 7 notes' (ms_put_globals l s)) by fresh_step F 7.
  destruct (fr_elements _ _ _ F ltac:(lia)) as [E11 _].
  destruct (fr_data _ _ _ F ltac:(lia)) as [_ E12]. specialize (E12 (fr_count _ _ _ F ltac:(lia))).
  destruct P2 as [S1 S2 S3 S4 S5]. destruct P3 as [Z1 Z2 Z3 Z4 Z5]. apply Forall_app in S4 as [S4 _].
  split; [exact F'|exact P1| | |exact Hn|exact P5|..]; part F'.
  - split; simpl; try done. apply Forall_app. split; [done|]. eapply items_ok_Forall; [exact Hi|]. by intros acc x [H _].
  - destruct Hz as [Y1 Y2 Y3 _ Y5]. split; simpl; try done. unfold zlen in *. rewrite length_fmap. lia.
  - split; [done|]. clear - Hi E11 E12. destruct s as [m ? ? ? ? ? ? ? ? ?]. destruct m. simpl in *. by subst.
Qed.

Lemma inv_exports t notes' : k < 8 -> Forall (export_ok M) (exports t) -> exports_sorted t -> notes_ok M notes' ->
  parse_inv N left' 8 notes' (ms_put_exports t s).
Proof.
  intros Hk He Ht Hn. pose proof sizes_mono as Hz. destruct Hinv as [F P1 P2 P3 P4 P5 P6 P7 P8 P9 P10 P11].
  assert (F' : fresh_after 8 notes' (ms_put_exports t s)) by fresh_step F 8.
  split; [exact F'|exact P1|exact P2|exact Hz|exact Hn|exact P5|exact P6|..]; part F'. by split.
Qed.

Lemma inv_start i : k < 9 -> start_fn_ok M i -> parse_inv N left' 9 notes (ms_put_start i s).
Proof.
  intros Hk Hi. pose proof sizes_mono as Hz. destruct Hinv as [F P1 P2 P3 P4 P5 P6 P7 P8 P9 P10 P11].
  assert (F' : fresh_after 9 notes (ms_put_start i s)) by fresh_step F 9.
  split; [exact F'|exact P1|exact P2|exact Hz|exact P4|exact P5|exact P6|exact P7|..]; part F'.
Qed.

Lemma inv_elements l notes' : k < 10 -> items_ok (element_entry_ok M) l -> notes_ok M notes' ->
  parse_inv N left' 10 notes' (ms_put_elements l s).
Proof.
  intros Hk Hi Hn. pose proof sizes_mono as Hz. destruct Hinv as [F P1 P2 P3 P4 P5 P6 P7 P8 P9 P10 P11].
  assert (F' : fresh_after 10 notes' (ms_put_elements l s)) by fresh_step F 10.
  destruct (fr_data _ _ _ F ltac:(lia)) as [_ E12]. specialize (E12 (fr_count _ _ _ F ltac:(lia))).
  split; [exact F'|exact P1|destruct P2; by split|destruct Hz; by split|exact Hn|exact P5|exact P6|exact P7|exact P8|..]; part F'.
  split; [done|]. clear - Hi E12. destruct s as [m ? ? ? ? ? ? ? ? ?]. destruct m. simpl in *. by subst.
Qed.

Lemma inv_data_count n : k < 11 -> parse_inv N left' 11 notes (ms_put_data_count n s).
Proof.
  intros Hk. pose proof sizes_mono as Hz. destruct Hinv as [F P1 P2 P3 P4 P5 P6 P7 P8 P9 P10 P11].
  assert (F' : fresh_after 11 notes (ms_put_data_count n s)).
  { fresh_step F 11. intros H13. split; [|done]. match goal with H : _ < 13 -> _ |- _ => apply (H H13) end. }
  split; [exact F'|exact P1|destruct P2; by split|destruct Hz; by split|exact P4|exact P5|exact P6|exact P7|exact P8|exact P9|..]; part F'.
Qed.

Lemma inv_code l notes' bodies : k < 12 -> notes_ok M notes' -> length bodies = length l ->
  (forall i b body, l !! i = Some b -> bodies !! i = Some body -> body_parsed M (Z.of_nat i) body b) ->
  parse_inv N left' 12 notes' (ms_put_bodies l s).
Proof.
  intros Hk Hn Hb Hl. pose proof sizes_mono as Hz. destruct Hinv as [F P1 P2 P3 P4 P5 P6 P7 P8 P9 P10 P11].
  assert (F' : fresh_after 12 notes' (ms_put_bodies l s)) by fresh_step F 12.
  destruct (fr_data _ _ _ F ltac:(lia)) as [_ E12].
  split; [exact F'|exact P1|exact P2|exact Hz|exact Hn|exact P5|exact P6|exact P7|exact P8|exact P9|..]; part F'.
  exists bodies. split; [done|]. replace (at_code (ms_put_bodies l s)) with M; [exact Hl|].
  clear - E12. destruct s as [m ? ? ? ? ? ? has ? ?]. unfold at_code. simpl in *. destruct has; [done|]. destruct m. simpl in *. by rewrite E12.
Qed.

Lemma inv_data l notes' : k < 13 -> items_ok (data_entry_ok M) l -> notes_ok M notes' ->
  (ms_has_data_count s = true -> zlen l = data_segment_count M) -> parse_inv N left' 13 notes' (ms_put_data l s).
Proof.
  intros Hk Hi Hn Hc. pose proof sizes_mono as Hz. destruct Hinv as [F P1 P2 P3 P4 P5 P6 P7 P8 P9 P10 P11].
  assert (F' : fresh_after 13 notes' (ms_put_data l s)) by fresh_step F 13.
  destruct (fr_data _ _ _ F ltac:(lia)) as [_ E12].
  set (n := if 0 <? zlen l then zlen l else data_segment_count M).
  assert (ES : ms_put_data l s = ModuleState (set_data_count n M) (ms_imports s) (ms_tables s) (ms_globals s) (ms_exports s)
    (ms_start s) (ms_elements s) (ms_has_data_count s) (ms_bodies s) l).
  { unfold ms_put_data, n. destruct (0 <? zlen l); [done|]. f_equal. by destruct (ms_env s). }
  rewrite ES in F' |- *.
  split; [exact F'|exact P1|destruct P2; by split|destruct Hz; by split|exact Hn|exact P5|exact P6|exact P7|exact P8|exact P9|..].
  - destruct P10 as (bodies & Hb1 & Hb2). exists bodies. split; [exact Hb1|]. unfold at_code in *. simpl.
    destruct (ms_has_data_count s); [|exact Hb2]. replace (set_data_count n M) with M; [exact Hb2|].
    unfold n. rewrite Hc by done. destruct M. by case_match.
  - split; [exact Hi|]. simpl. intros Hne. unfold n. destruct (Z.ltb_spec 0 (zlen l)); [done|].
    destruct l; [|unfold zlen in *; simpl in *; lia]. destruct Hne as [|Hh]; [done|by apply E12].
Qed.
End Steps.

(** *** The handlers *)

Lemma inv_later N left left' k notes s : parse_inv N left k notes s -> left' <= left -> parse_inv N left' k notes s.
Proof. intros Hinv Hl. pose proof (sizes_mono _ _ left' _ _ _ Hinv Hl). by destruct Hinv. Qed.

Lemma wp_on_cio {A} (m : comp cio A) (Q : A -> pstate -> Prop) s :
  wp m (fun v x => Q v (x, s.2)) s.1 -> wp (on_cio m) Q s.
Proof. unfold wp, on_cio. destruct (m s.1) as [[v|e|] x]; auto. Qed.
Lemma wp_pstate_io {A} (m : comp io A) (Q : A -> pstate -> Prop) s :
  wp m (fun v x => Q v ((x, s.1.2), s.2)) s.1.1 -> wp (on_cio (on_sec m)) Q s.
Proof. intros H. apply wp_on_cio, wp_on_sec, H. Qed.
Lemma wp_update f (Q : unit -> pstate -> Prop) s : Q tt (s.1, f s.2) -> wp (update f) Q s.
Proof. done. Qed.

Section Storage.
Context (stack_storage : list Z -> list wah_type_t) (frame_storage : list Z -> list wah_validation_control_frame_t).
Hypothesis stack_len : forall c, zlen (stack_storage c) = WAH_MAX_TYPE_STACK_SIZE.
Hypothesis frame_len : forall c, zlen (frame_storage c) = WAH_MAX_CONTROL_DEPTH.

Lemma wp_parse_code M s : module_ok M -> decoder_bytes s.1.1 -> notes_ok M s.2 ->
  wp (parse_code stack_storage frame_storage M) (fun bs s' => notes_ok M s'.2 /\ exists bodies, length bodies = length bs /\
    forall k b body, bs !! k = Some b -> bodies !! k = Some body -> body_parsed M (Z.of_nat k) body b) s.
Proof.
  destruct s as [[d a] n]. simpl. intros HM Hb Hn.
  pose proof (wp_code_section M d a n _ _ HM Hb Hn (stack_len (cursor d)) (frame_len (cursor d))) as H.
  unfold wp in *. unfold parse_code. destruct (wah_parse_code_section M _) as [[bs|e|] s']; [|done|done].
  destruct H as (Hs & _ & bc & bodies & bytes & _ & _ & _ & Hl & Hall). split; [apply (sh_notes _ _ Hs)|]. by exists bodies.
Qed.

Context (N : Z) (HN : N + 7 < 2 ^ 32).

Definition handled (left j : Z) : unit -> pstate -> Prop := fun _ s => parse_inv N left j s.1.2 s.2.

Lemma wp_handler id j left k s : zget section_orders id = Some j -> (id <> 0 -> k < j) -> 0 <= left ->
  decoder_bytes s.1.1.1 -> parse_inv N (left + zlen (cursor s.1.1.1)) k s.1.2 s.2 ->
  wp (section_handler stack_storage frame_storage id) (handled left (if id =? 0 then k else j)) s.
Proof.
  destruct s as [[x n] ms]. simpl. intros Hj Hk Hl Hb Hinv. set (len := zlen (cursor x.1)) in *.
  assert (Hlen : 0 <= len) by (unfold len, zlen; lia).
  pose proof (inv_module_ok N (left + len) k n ms HN ltac:(lia) Hinv) as HM. pose proof (pi_sizes _ _ _ _ _ Hinv) as HZ.
  pose proof (pi_notes _ _ _ _ _ Hinv) as Hn. pose proof (mo_count _ HM) as Hc.
  assert (Hcur : zlen (cursor x.1) < 2 ^ 32) by (fold len; clear - HZ HN Hl Hlen;
    destruct HZ as [Z1 _ _ _ _]; assert (0 <= zlen (func_imports (ms_env ms)) + zlen (function_type_indices (ms_env ms))) by (unfold zlen; lia); lia).
  unfold section_handler. apply wp_bind. unfold get_env. apply wp_bind, wp_get, wp_ret. simpl.
  apply wp_if; [intros ->%Z.eqb_eq|intros ?%Z.eqb_neq].
  { apply wp_pstate_io. eapply wp_mono; [by apply io_custom|]. intros [] s' _. apply (inv_later N (left + len) left k n ms Hinv). lia. }
  apply wp_if; [intros ->%Z.eqb_eq|intros ?%Z.eqb_neq].
  { injection Hj as <-. apply wp_bind, wp_pstate_io. eapply wp_mono; [by apply wp_type_section|]. intros m s' [Hm _].
    apply wp_update. eapply inv_types; [exact Hinv|lia|by apply Hk|done]. }
  apply wp_if; [intros ->%Z.eqb_eq|intros ?%Z.eqb_neq].
  { injection Hj as <-. apply wp_bind, wp_pstate_io. eapply wp_mono; [by apply wp_import_section|]. intros im s' (_ & _ & Him & Hd).
    apply wp_update. eapply inv_imports; [exact Hinv|lia|by apply Hk|done|done|]. simpl in Hd. unfold len. lia. }
  apply wp_if; [intros ->%Z.eqb_eq|intros ?%Z.eqb_neq].
  { injection Hj as <-. apply wp_bind, wp_pstate_io. eapply wp_mono; [by apply section_function|]. intros l s' (_ & _ & Hf & Hd).
    apply wp_update. eapply inv_functions; [exact Hinv|lia|by apply Hk|done|]. simpl in Hd. unfold len. lia. }
  apply wp_if; [intros ->%Z.eqb_eq|intros ?%Z.eqb_neq].
  { injection Hj as <-. apply wp_bind, wp_on_cio. eapply wp_mono.
    { apply (wp_table_section _ _ stack_len frame_len _ HM); [done|done|]. destruct HZ as [_ Z2 _ _ _]. simpl. fold len. unfold zlen in *. lia. }
    intros l s' (_ & _ & Hn' & Hi & Hd). apply wp_update. eapply inv_tables; [exact Hinv|lia|by apply Hk|done|done|]. simpl in Hd. unfold len. lia. }
  apply wp_if; [intros ->%Z.eqb_eq|intros ?%Z.eqb_neq].
  { injection Hj as <-. apply wp_bind, wp_pstate_io. eapply wp_mono; [by apply section_memory|]. intros l s' (_ & _ & Hf & Hd).
    apply wp_update. eapply inv_memories; [exact Hinv|lia|by apply Hk|done|]. simpl in Hd. unfold len. lia. }
  apply wp_if; [intros ->%Z.eqb_eq|intros ?%Z.eqb_neq].
  { injection Hj as <-. apply wp_bind, wp_on_cio. eapply wp_mono.
    { apply (wp_global_section _ _ stack_len frame_len _ HM); [done|done|]. destruct HZ as [_ _ _ Z4 _]. simpl. fold len. unfold zlen in *. lia. }
    intros l s' (_ & _ & Hn' & Hi & Hd). apply wp_update. eapply inv_globals; [exact Hinv|lia|by apply Hk|done|done|]. simpl in Hd. unfold len. lia. }
  apply wp_if; [intros ->%Z.eqb_eq|intros ?%Z.eqb_neq].
  { injection Hj as <-. apply wp_bind, wp_on_cio. eapply wp_mono; [by apply (wp_export_section _ HM)|].
    intros t s' (_ & _ & Hn' & He & Ht). apply wp_update. eapply inv_exports; [exact Hinv|lia|by apply Hk|done..]. }
  apply wp_if; [intros ->%Z.eqb_eq|intros ?%Z.eqb_neq].
  { injection Hj as <-. apply wp_bind, wp_pstate_io. eapply wp_mono; [by apply io_start|]. intros i s' (_ & _ & Hi).
    apply wp_update. eapply inv_start; [exact Hinv|lia|by apply Hk|done]. }
  apply wp_if; [intros ->%Z.eqb_eq|intros ?%Z.eqb_neq].
  { injection Hj as <-. apply wp_bind, wp_on_cio. eapply wp_mono; [by apply (wp_element_section _ _ stack_len frame_len _ HM)|].
    intros l s' (_ & _ & Hn' & Hi & _). apply wp_update. eapply inv_elements; [exact Hinv|lia|by apply Hk|done|done]. }
  apply wp_if; [intros ->%Z.eqb_eq|intros ?%Z.eqb_neq].
  { injection Hj as <-. apply wp_bind, wp_on_cio. eapply wp_mono; [by apply wp_parse_code|].
    intros l s' (Hn' & bodies & Hb1 & Hb2). apply wp_update. eapply inv_code; [exact Hinv|lia|by apply Hk|done|exact Hb1|exact Hb2]. }
  apply wp_if; [intros ->%Z.eqb_eq|intros ?%Z.eqb_neq].
  { injection Hj as <-. apply wp_bind, wp_get, wp_bind, wp_on_cio.
    eapply wp_mono; [by apply (cio_data_section _ _ stack_len frame_len _ HM)|]. intros l s' (_ & _ & Hn' & Hi & Hd).
    apply wp_update. eapply inv_data; [exact Hinv|lia|by apply Hk|done|done|exact Hd]. }
  apply wp_if; [intros ->%Z.eqb_eq|intros ?%Z.eqb_neq].
  { injection Hj as <-. apply wp_bind, wp_pstate_io. eapply wp_mono.
    { eapply (io_bind _ _ (fun _ => True) (fun _ => True)); [apply io_require|intros _ _; eapply io_mono; [apply io_u32|done]|done]. }
    intros i s' _. apply wp_update. eapply inv_data_count; [exact Hinv|lia|by apply Hk]. }
  apply wp_if; [intros ->%Z.eqb_eq|intros ?%Z.eqb_neq].
  { injection Hj as <-. apply wp_bind, wp_pstate_io. eapply wp_mono; [by apply section_tag|]. intros l s' (_ & _ & Hf & Hd).
    apply wp_update. eapply inv_tags; [exact Hinv|lia|by apply Hk|done|]. simpl in Hd. unfold len. lia. }
  apply zget_Some in Hj as [Hr _]. change (zlen section_orders) with 14 in Hr. lia.
Qed.

(** *** The loop *)

Lemma wp_header s : decoder_bytes s.1 ->
  wp (on_cur wah_read_section_header) (fun r s' => 0 <= r.1 /\ 0 <= r.2 /\ decoder_bytes s'.1 /\
    (length (cursor s'.1) < length (cursor s.1))%nat) s.
Proof.
  destruct s as [[[|b c] f] a]; intros Hb; [done|]. unfold decoder_bytes in *. simpl in *. apply Forall_cons in Hb as [Hb Hc].
  unfold wp, on_decoder, on_cursor, wah_read_section_header, stm_bind. simpl.
  destruct (wah_decode_uleb128_faultless c Hc) as [Hf Hb']. destruct (wah_decode_uleb128 c) as [[v|e|] c'] eqn:E; [|done|done].
  apply (proj1 (wah_decode_uleb128_iff _ _ _ Hc)) in E as (bs & -> & Hu). simpl. pose proof (uleb_nonneg _ _ _ Hu).
  unfold is_byte in Hb. split_and!; [lia|done|done|]. rewrite length_app. lia.
Qed.

Lemma wp_in_section size m (Q : unit -> pstate -> Prop) s : 0 <= size ->
  let c := cursor s.1.1.1 in
  (size <= zlen c -> wp m (fun _ s1 => Q tt ((Decoder (drop (Z.to_nat size) c) (dec_features s1.1.1.1), s1.1.1.2, s1.1.2), s1.2))
    ((Decoder (take (Z.to_nat size) c) (dec_features s.1.1.1), s.1.1.2, s.1.2), s.2)) ->
  wp (in_section size m) Q s.
Proof.
  intros H0 c Hm. unfold in_section. apply wp_bind, wp_get. fold c. apply wp_bind, wp_ensure. intros Hs%Z.leb_le.
  apply wp_bind. change (wp (m ;;; (s0 <- stm_get ;; stm_ensure (zlen (cursor s0.1.1.1) =? 0) WAH_ERROR_MALFORMED ;;;
    set_cursor (drop (Z.to_nat size) c))) Q ((Decoder (take (Z.to_nat size) c) (dec_features s.1.1.1), s.1.1.2, s.1.2), s.2)).
  apply wp_bind. eapply wp_mono; [by apply Hm|]. intros [] s1 HQ. apply wp_bind, wp_get, wp_bind, wp_ensure. intros _. exact HQ.
Qed.

Lemma wp_parse_sections fuel k s : (length (cursor s.1.1.1) < fuel)%nat -> decoder_bytes s.1.1.1 ->
  parse_inv N (zlen (cursor s.1.1.1)) k s.1.2 s.2 ->
  wp (parse_sections stack_storage frame_storage fuel k) (fun _ s' => exists j, parse_inv N 0 j s'.1.2 s'.2) s.
Proof.
  revert k s. induction fuel as [|fuel IH]; intros k s Hf Hb Hinv; [lia|]. cbn [parse_sections].
  apply wp_bind, wp_get, wp_if; [intros Hz%Z.eqb_eq|intros _].
  { apply wp_ret. exists k. by rewrite <- Hz. }
  apply wp_bind, wp_pstate_io. eapply wp_mono; [by apply wp_header|]. intros [id size] x (Hid & Hsize & Hx & Hlen).
  assert (Hfuel : (length (cursor x.1) < fuel)%nat) by (eapply Nat.lt_le_trans; [exact Hlen|apply Nat.lt_succ_r, Hf]).
  assert (Hleft : zlen (cursor x.1) <= zlen (cursor s.1.1.1)) by (apply inj_le, Nat.lt_le_incl, Hlen). simpl in *.
  apply wp_bind, wp_ensure. intros Hlt%Z.ltb_lt. destruct (zget_is_Some section_orders id) as [j Hj]; [lia|].
  apply wp_bind. eapply wp_opt; [exact Hj|].
  assert (Hloop : forall last, (id <> 0 -> k < j) -> last = (if id =? 0 then k else j) ->
    wp (in_section size (section_handler stack_storage frame_storage id) ;;; parse_sections stack_storage frame_storage fuel last)
      (fun _ s' => exists j, parse_inv N 0 j s'.1.2 s'.2) ((x, s.1.2), s.2)).
  { intros last Hord ->. apply wp_bind, wp_in_section; [done|]. simpl. set (c := cursor x.1). intros Hs.
    assert (Ht : zlen (take (Z.to_nat size) c) = size) by (unfold zlen in *; rewrite length_take; lia).
    assert (Hd : zlen (drop (Z.to_nat size) c) = zlen c - size) by (unfold zlen in *; rewrite length_drop; lia).
    eapply wp_mono; [eapply (wp_handler id j (zlen c - size) k); [exact Hj|exact Hord|lia|by apply Forall_take|]|].
    - simpl. rewrite Ht. eapply inv_later; [exact Hinv|]. replace (zlen c - size + size) with (zlen c) by lia. exact Hleft.
    - intros [] s1 H1. apply IH; simpl; [rewrite length_drop; fold c in Hfuel; lia|by apply Forall_drop|]. rewrite Hd. exact H1. }
  apply wp_bind, wp_if; intros H0.
  - apply wp_bind, wp_ensure. intros Hord%Z.ltb_lt. apply wp_ret, Hloop; [done|]. by destruct (id =? 0).
  - apply negb_false_iff in H0. apply wp_ret, Hloop; [|by rewrite H0]. apply Z.eqb_eq in H0. done.
Qed.
End Storage.

(** *** The whole module *)

Lemma wp_final_checks (Q : unit -> pstate -> Prop) s :
  (forall x, let ms := s.2 in let M := ms_env ms in let notes := s.1.2 in
     zlen (function_type_indices M) = zlen (ms_bodies ms) -> (0 < min_data_required notes -> ms_has_data_count ms = true) ->
     min_data_required notes <= data_segment_count M ->
     (ms_has_data_count ms = true -> 0 < data_segment_count M -> ms_data ms <> []) -> Q tt ((x, notes), ms)) ->
  wp final_checks Q s.
Proof.
  destruct s as [[x notes] ms]. simpl. intros HQ. unfold final_checks. apply wp_bind, wp_get. cbv beta iota zeta.
  apply wp_bind, wp_ensure. intros H1%Z.eqb_eq.
  assert (Hcond : forall (c b : bool) (k : unit -> comp pstate unit) e, ((c = true -> b = true) -> wp (k tt) Q ((x, notes), ms)) ->
    wp (stm_bind k (if c then stm_ensure b e else stm_ret tt)) Q ((x, notes), ms)).
  { intros c b k e Hk. destruct c; apply wp_bind; [apply wp_ensure; auto|apply wp_ret; by apply Hk]. }
  apply Hcond. intros H2. apply wp_bind, wp_ensure. intros H3%Z.leb_le. apply Hcond. intros H4.
  assert (Hreq : forall (c : bool) f (k : unit -> comp pstate unit) y, (forall y, wp (k tt) Q ((y, notes), ms)) ->
    wp (stm_bind k (if c then on_cio (on_sec (require_io f)) else stm_ret tt)) Q ((y, notes), ms)).
  { intros c f k y Hk. destruct c; apply wp_bind; [|by apply wp_ret]. apply wp_pstate_io, wp_require_io. intros z _. apply Hk. }
  assert (HQ' : forall y, Q tt ((y, notes), ms)).
  { intros y. apply HQ; [done|intros H; apply H2, Z.ltb_lt, H|done|]. intros Hh Hc. rewrite Hh in H4. simpl in H4.
    specialize (H4 (proj2 (Z.ltb_lt _ _) Hc)). intros E. by rewrite E in H4. }
  apply Hreq. intros y1. apply Hreq. intros y2. apply wp_if; intros _; [|apply wp_ret, HQ'].
  apply wp_pstate_io, wp_require_io. intros z _. apply HQ'.
Qed.

Lemma wp_io_malloc n k (Q : unit -> io -> Prop) s : (forall x, Q tt x) -> wp (malloc_io n k) Q s.
Proof.
  intros HQ. destruct s as [d a]. unfold wp, malloc_io, on_answers. simpl.
  destruct (wah_malloc_c_cases n k a) as [[a' ->]|[a' ->]]; [apply HQ|done].
Qed.

Lemma functions_numbered M : module_ok M -> zlen (module_functions M) = zlen (function_type_indices M) /\
  forall i f, module_functions M !! i = Some f -> local_idx f = Z.of_nat i /\ global_idx f = zlen (func_imports M) + Z.of_nat i.
Proof.
  intros HM. destruct (mo_funcs M HM) as (Hl & _). unfold module_functions. split.
  - unfold zlen, zrange. rewrite !length_fmap, length_seq. lia.
  - intros i f (j & -> & Hj)%list_lookup_fmap_Some. unfold zrange in Hj. apply list_lookup_fmap_Some in Hj as (k & -> & [-> Hk]%lookup_seq).
    simpl. split; [lia|]. rewrite u32_small; unfold zlen in *; lia.
Qed.

Section Storage.
Context (stack_storage : list Z -> list wah_type_t) (frame_storage : list Z -> list wah_validation_control_frame_t).
Hypothesis stack_len : forall c, zlen (stack_storage c) = WAH_MAX_TYPE_STACK_SIZE.
Hypothesis frame_len : forall c, zlen (frame_storage c) = WAH_MAX_CONTROL_DEPTH.

Lemma module_start_inv N n fuel : 0 <= n <= N -> N + 7 < 2 ^ 32 -> parse_inv N n 0 (ModuleNotes 0 None) (start_module fuel).
Proof.
  intros Hn HN. assert (F : fresh_after 0 (ModuleNotes 0 None) (start_module fuel)) by (split; simpl; done).
  split; [exact F|apply empty_types_ok| | | |..].
  - split; constructor.
  - split; unfold zlen; simpl; lia.
  - split; [done|done].
  - by apply (fresh_tables_part _ _ _ F).
  - by apply (fresh_globals_part _ _ _ F).
  - by apply (fresh_exports_part _ _ _ F).
  - by apply (fresh_start_part _ _ _ F).
  - by apply (fresh_elements_part _ _ _ F).
  - by apply (fresh_code_part _ _ _ F).
  - by apply (fresh_data_part _ _ _ F).
Qed.

Lemma wp_sections_checks N d a fuel : decoder_bytes d -> zlen (cursor d) <= N -> N + 7 < 2 ^ 32 ->
  wp (parse_sections stack_storage frame_storage (S (length (cursor d))) 0 ;;; final_checks ;;; build_functions)
    (fun fs s => forall features, valid_module (ParsedModule s.2 s.1.2 features fs)) ((d, a, ModuleNotes 0 None), start_module fuel).
Proof.
  intros Hb Hl HN. apply wp_bind. eapply wp_mono.
  { apply (wp_parse_sections _ _ stack_len frame_len N HN); [simpl; lia|exact Hb|]. apply module_start_inv; [|done]. simpl. unfold zlen in *. lia. }
  intros [] [[x notes] ms] [j Hinv]. simpl in Hinv. pose proof (inv_module_ok N 0 j notes ms HN ltac:(lia) Hinv) as HM.
  destruct Hinv as [F P1 P2 P3 P4 P5 P6 P7 P8 P9 P10 [P11 P12]].
  apply wp_bind, wp_final_checks. simpl. intros y H1 H2 H3 H4.
  assert (Hd : data_segment_count (ms_env ms) = zlen (ms_data ms)).
  { destruct (ms_has_data_count ms) eqn:Hh; [|apply P12; by right]. destruct (ms_data ms) as [|x0 l] eqn:El; [|apply P12; by left].
    change (zlen (A:=wah_data_segment_t) []) with 0. destruct P4 as [P4 _].
    destruct (Z.lt_ge_cases 0 (data_segment_count (ms_env ms))) as [Hpos|]; [by destruct (H4 eq_refl Hpos)|lia]. }
  unfold build_functions. apply wp_bind. unfold get_env. apply wp_bind, wp_get, wp_ret.
  assert (Hv : forall features, valid_module (ParsedModule ms notes features (module_functions (ms_env ms)))).
  { intros features. split; try done. simpl. by apply functions_numbered. }
  apply wp_if; intros H0.
  - apply wp_bind, wp_pstate_io. apply wp_io_malloc. intros s'. apply wp_ret. exact Hv.
  - apply wp_ret. simpl. intros features. specialize (Hv features). replace (module_functions (ms_env ms)) with (@nil wah_function_t) in Hv; [exact Hv|].
    apply Z.ltb_ge in H0. destruct (functions_numbered _ HM) as [Hz _]. destruct (module_functions _); [done|]. unfold zlen in *. simpl in *. lia.
Qed.

(** C1. For any binary of less than 2^32 - 7 bytes, any options and whatever the allocator
    answers, parsing a module ends without an access out of bounds; and what it accepts
    is a valid module: its types, imports, tables, memories, globals and tags are well
    formed, initializers and offsets are constant expressions that by the typing rules of
    the specification ([const_typed]) give the types expected of them and only read globals
    before them, exports have distinct names, are sorted for lookups and refer to what
    exists, as do the start function and the segments, whose elements fit their tables,
    and each function has a body that has been validated with its type. *)
Theorem wah_parse_module_valid {H} (options : option (@wah_parse_options_t H)) binary ans :
  Forall is_byte binary -> zlen binary + 7 < 2 ^ 32 ->
  match wah_parse_module stack_storage frame_storage options (Some binary) ans with
  | Ok p => valid_module p
  | Err _ => True
  | Fault => False
  end.
Proof.
  intros Hb Hl. unfold wah_parse_module. destruct (Z.leb_spec 8 (zlen binary)) as [H8|]; [|done]. simpl negb. cbv iota.
  destruct (wah_alloc_valid _); [|done]. simpl negb. cbv iota zeta.
  rewrite !wah_read_u32_le_spec by (done || lia). destruct (_ =? 0x6D736100); [|done]. destruct (_ =? 1); [|done]. simpl negb. cbv iota.
  set (d := Decoder _ _). pose proof (wp_sections_checks (zlen binary) d ans
    (match options with Some o => opt_enable_fuel_metering o | None => false end)) as Hwp. unfold wp in Hwp.
  assert (Hd : zlen (cursor d) <= zlen binary) by (unfold d, zlen; simpl; rewrite length_drop; lia).
  specialize (Hwp (Forall_drop _ _ _ Hb) Hd Hl). change (cursor d) with (drop 8 binary) in Hwp.
  destruct (stm_bind _ _ _) as [[fs|e|] [[[d' a'] n'] ms]]; [|done|done]. apply Hwp.
Qed.
End Storage.

(** *** Samples *)

Definition stack_of (c : list Z) : list wah_type_t := replicate (Z.to_nat WAH_MAX_TYPE_STACK_SIZE) 0.
Definition frames_of (c : list Z) : list wah_validation_control_frame_t := replicate (Z.to_nat WAH_MAX_CONTROL_DEPTH) blank_frame.
Lemma stack_of_len c : zlen (stack_of c) = WAH_MAX_TYPE_STACK_SIZE.
Proof. unfold stack_of, zlen. rewrite length_replicate. done. Qed.
Lemma frames_of_len c : zlen (frames_of c) = WAH_MAX_CONTROL_DEPTH.
Proof. unfold frames_of, zlen. rewrite length_replicate. done. Qed.

(** A module with all sections: two types; an imported function and two functions, the
    second the identity; a table, a memory, a tag and a global; two exports; a start
    function; a segment of functions and a segment of data; and a custom section. *)
Definition sample_binary : list Z :=
  [0; 0x61; 0x73; 0x6D; 1; 0; 0; 0] ++
  [1; 9; 2; 0x60; 0; 0; 0x60; 1; 0x7F; 1; 0x7F] ++
  [2; 7; 1; 1; 109; 1; 102; 0; 0] ++
  [3; 3; 2; 0; 1] ++
  [4; 4; 1; 0x70; 0; 2] ++
  [5; 3; 1; 0; 1] ++
  [13; 3; 1; 0; 0] ++
  [6; 6; 1; 0x7F; 0; 0x41; 5; 0x0B] ++
  [7; 9; 2; 1; 98; 0; 2; 1; 97; 2; 0] ++
  [8; 1; 1] ++
  [9; 7; 1; 0; 0x41; 0; 0x0B; 1; 1] ++
  [12; 1; 1] ++
  [10; 9; 2; 2; 0; 0x0B; 4; 0; 0x20; 0; 0x0B] ++
  [11; 8; 1; 0; 0x41; 0; 0x0B; 2; 7; 8] ++
  [0; 5; 1; 120; 1; 2; 3].

Lemma bytes_checked l : forallb (fun b => (0 <=? b) && (b <? 256)) l = true -> Forall is_byte l.
Proof. intros H. eapply forallb_Forall; [|exact H]. intros b [H1 H2]%andb_prop. unfold is_byte. lia. Qed.

Lemma wah_parse_module_valid_witness : exists p,
  wah_parse_module stack_of frames_of (H := unit) None (Some sample_binary) [] = Ok p /\ valid_module p /\
  export_order (ms_exports (pm_state p)) = [1; 0] /\ zlen (ms_bodies (pm_state p)) = 2 /\ ms_start (pm_state p) = Some 1 /\
  (ds_data <$> ms_data (pm_state p)) = [[7; 8]].
Proof.
  pose proof (wah_parse_module_valid stack_of frames_of stack_of_len frames_of_len (H := unit) None sample_binary []
    ltac:(apply bytes_checked; vm_compute; reflexivity) ltac:(vm_compute; reflexivity)) as H.
  run_in H. eexists. split; [vm_compute; reflexivity|]. split; [exact H|]. split_and!; reflexivity.
Defined.

(** *** What is refused *)

Lemma slice_is binary i (w : Z) : Forall is_byte binary -> 0 <= i -> i + 4 <= zlen binary ->
  le_value (mem_slice binary i 4) = w -> mem_slice binary i 4 = le_bytes 4 w.
Proof.
  intros Hb Hi Hl <-. rewrite <- (mem_slice_length binary i 4) at 2 by lia. symmetry. apply le_bytes_value. by apply mem_slice_bytes.
Qed.

(** What does not begin as a module is refused for its first defect: no bytes, fewer
    than eight, an unusable allocator, another magic number than [\0asm], and another
    version than 1. *)
Theorem wah_parse_module_refused stack frames {H} (options : option (@wah_parse_options_t H)) ans :
  wah_parse_module stack frames options None ans = Err WAH_ERROR_MISUSE /\
  forall binary, Forall is_byte binary ->
    let run := wah_parse_module stack frames options (Some binary) ans in
    let valid := wah_alloc_valid (o ← options; opt_alloc o) in
    (zlen binary < 8 -> run = Err WAH_ERROR_UNEXPECTED_EOF) /\
    (8 <= zlen binary -> valid = false -> run = Err WAH_ERROR_MISUSE) /\
    (8 <= zlen binary -> valid = true -> take 4 binary <> [0; 0x61; 0x73; 0x6D] -> run = Err WAH_ERROR_INVALID_MAGIC_NUMBER) /\
    (8 <= zlen binary -> valid = true -> take 4 binary = [0; 0x61; 0x73; 0x6D] -> take 4 (drop 4 binary) <> [1; 0; 0; 0] ->
      run = Err WAH_ERROR_INVALID_VERSION).
Proof.
  split; [done|]. intros binary Hb run valid. unfold run, wah_parse_module. fold valid.
  destruct (Z.leb_spec 8 (zlen binary)) as [H8|H8]; simpl negb; cbv iota; [|split_and!; intros; [done|lia..]].
  assert (E0 : mem_slice binary 0 4 = take 4 binary) by done. assert (E4 : mem_slice binary 4 4 = take 4 (drop 4 binary)) by done.
  rewrite !wah_read_u32_le_spec by (done || lia). rewrite <- E0, <- E4.
  split; [lia|]. split; [by intros _ ->|]. split; intros _ ->; simpl negb; cbv iota zeta.
  - intros Hne. destruct (Z.eqb_spec (le_value (mem_slice binary 0 4)) 0x6D736100) as [E|E]; [|done].
    by destruct Hne; rewrite (slice_is binary 0 _ Hb ltac:(lia) ltac:(lia) E).
  - intros Em Hne. rewrite Em. simpl (le_value [0; 0x61; 0x73; 0x6D] =? 0x6D736100). simpl negb. cbv iota.
    destruct (Z.eqb_spec (le_value (mem_slice binary 4 4)) 1) as [E|E]; [|done].
    by destruct Hne; rewrite (slice_is binary 4 _ Hb ltac:(lia) ltac:(lia) E).
Qed.

(** The header of the next section. *)
Lemma read_header_run c id bs size rest : Forall is_byte c -> c = id :: bs ++ rest -> uleb 32 bs size ->
  wah_read_section_header c = (Ok (id, size), rest).
Proof.
  intros Hb -> Hu. apply Forall_cons in Hb as [_ Hb]. unfold wah_read_section_header, stm_bind, ensure_more, take_byte. simpl.
  by rewrite (wah_decode_uleb128_run bs size rest).
Qed.

Lemma custom_run nb name content f (a : answers) : Forall is_byte (nb ++ name ++ content) -> uleb 32 nb (zlen name) -> utf8_text name ->
  wah_parse_custom_section (Decoder (nb ++ name ++ content) f, a) = (Ok tt, (Decoder [] f, a)).
Proof.
  intros Hb Hn Hu. unfold wah_parse_custom_section. cbn [fst snd cursor dec_features].
  rewrite (stm_bind_run _ _ _ (zlen name) (name ++ content)) by by apply wah_decode_uleb128_run.
  apply Forall_app in Hb as [_ Hb]. apply Forall_app in Hb as [Hb _].
  destruct (wah_is_valid_utf8_prefix name content Hb) as (b & E & Hv). destruct b; [|by apply Hv in Hu].
  unfold stm_bind, stm_get, stm_ensure, stm_opt, stm_put, stm_ret.
  rewrite (proj2 (Z.leb_le _ _)) by (unfold zlen; rewrite length_app; lia). by rewrite E.
Qed.

Section Next.
Context (stack_storage : list Z -> list wah_type_t) (frame_storage : list Z -> list wah_validation_control_frame_t).
Context (d : decoder) (a : answers) (notes : wah_module_notes) (ms : module_state) (id size : Z) (bs rest : list Z).
Hypothesis Hbytes : decoder_bytes d.
Hypothesis Hcur : cursor d = id :: bs ++ rest.
Hypothesis Hsize : uleb 32 bs size.

(** The states before and after the header. *)
Notation s := (((d, a), notes), ms).
Notation past c := (((Decoder c (dec_features d), a), notes), ms).

Lemma next_section fuel last : parse_sections stack_storage frame_storage (S fuel) last s =
  (stm_ensure (id <? 14) WAH_ERROR_MALFORMED ;;;
   order <- stm_opt (zget section_orders id) ;;
   last <- (if negb (id =? 0) then stm_ensure (last <? order) WAH_ERROR_MALFORMED ;;; stm_ret order else stm_ret last) ;;
   in_section size (section_handler stack_storage frame_storage id) ;;;
   parse_sections stack_storage frame_storage fuel last) (past rest).
Proof.
  cbn [parse_sections]. rewrite stm_bind_get. cbn [fst snd].
  replace (zlen (cursor d) =? 0) with false by (by rewrite Hcur).
  rewrite (stm_bind_run _ _ _ (id, size) (past rest)); [reflexivity|]. unfold on_cio, on_sec, on_decoder, on_cursor. cbn [fst snd].
  by rewrite (read_header_run _ id bs size rest Hbytes Hcur Hsize).
Qed.

Lemma section_id_byte : is_byte id.
Proof. unfold decoder_bytes in Hbytes. rewrite Hcur in Hbytes. by apply Forall_inv in Hbytes. Qed.

(** C18. A section is refused without reading it if its identifier is unknown, if it does
    not come after the sections before it in the order of the specification, or if it is longer than
    what is left; custom sections are anywhere. *)
Theorem parse_sections_refused fuel last :
  let r := (parse_sections stack_storage frame_storage (S fuel) last s).1 in
  (14 <= id -> r = Err WAH_ERROR_MALFORMED) /\
  (forall order, zget section_orders id = Some order -> id <> 0 -> order <= last -> r = Err WAH_ERROR_MALFORMED) /\
  (forall order, zget section_orders id = Some order -> id = 0 \/ last < order -> zlen rest < size -> r = Err WAH_ERROR_UNEXPECTED_EOF).
Proof.
  cbv zeta. rewrite next_section. split_and!.
  - intros Hid. by replace (id <? 14) with false by lia.
  - intros order Ho Hid Hle. pose proof (zget_Some _ _ _ Ho) as [Hr _]. change (zlen section_orders) with 14 in Hr.
    unfold stm_bind, stm_ensure, stm_opt. replace (id <? 14) with true by lia. rewrite Ho. simpl.
    replace (id =? 0) with false by lia. simpl. by replace (last <? order) with false by lia.
  - intros order Ho Hor Hlt. pose proof (zget_Some _ _ _ Ho) as [Hr _]. change (zlen section_orders) with 14 in Hr.
    unfold stm_bind, stm_ensure, stm_opt. replace (id <? 14) with true by lia. rewrite Ho. simpl.
    assert (Hin : forall l, (in_section size (section_handler stack_storage frame_storage id) ;;;
      parse_sections stack_storage frame_storage fuel l) (past rest) = (Err WAH_ERROR_UNEXPECTED_EOF, past rest)).
    { intros l. unfold in_section, stm_bind, stm_get, stm_ensure. cbn [fst snd cursor]. by replace (size <=? zlen rest) with false by lia. }
    destruct (Z.eqb_spec id 0) as [->|Hne]; simpl; [by apply (f_equal fst (Hin last))|].
    replace (last <? order) with true by lia. by apply (f_equal fst (Hin order)).
Qed.

(** C17. A custom section changes nothing: parsing goes on after it, whatever it holds
    after its name and wherever it is. *)
Theorem custom_section_skipped fuel last nb name content after :
  id = 0 -> rest = (nb ++ name ++ content) ++ after -> size = zlen (nb ++ name ++ content) ->
  uleb 32 nb (zlen name) -> utf8_text name ->
  parse_sections stack_storage frame_storage (S fuel) last s = parse_sections stack_storage frame_storage fuel last (past after).
Proof.
  intros Hid Hr Hs Hn Hu. rewrite next_section. set (payload := nb ++ name ++ content) in *.
  assert (Hp : Forall is_byte payload).
  { unfold decoder_bytes in Hbytes. rewrite Hcur, Hr in Hbytes. apply Forall_cons in Hbytes as [_ Hb].
    apply Forall_app in Hb as [_ Hb]. by apply Forall_app in Hb as [Hb _]. }
  assert (Ht : take (Z.to_nat size) rest = payload) by (rewrite Hr, Hs; unfold zlen; by rewrite Nat2Z.id, take_app_length).
  assert (Hd : drop (Z.to_nat size) rest = after) by (rewrite Hr, Hs; unfold zlen; by rewrite Nat2Z.id, drop_app_length).
  rewrite Hid, (stm_bind_run _ _ _ tt (past rest)) by done. rewrite (stm_bind_run _ _ _ 0 (past rest)) by done.
  rewrite (stm_bind_run _ _ _ last (past rest)) by done. rewrite (stm_bind_run _ _ _ tt (past after)); [done|].
  unfold in_section. rewrite stm_bind_get. cbn [fst snd cursor]. rewrite (stm_bind_run _ _ _ tt (past rest)).
  2: { unfold stm_ensure. rewrite (proj2 (Z.leb_le _ _)); [done|]. rewrite Hr, Hs. unfold zlen. rewrite length_app. lia. }
  rewrite Ht, Hd, (stm_bind_run _ _ _ tt (past payload)) by done. rewrite (stm_bind_run _ _ _ tt (past [])); [done|].
  unfold section_handler, get_env, on_cio, on_sec. rewrite (stm_bind_run _ _ _ (ms_env ms) (past payload)) by done. simpl (0 =? 0). cbn [fst snd].
  by rewrite (custom_run nb name content).
Qed.
End Next.

Lemma wah_parse_module_refused_witness :
  wah_parse_module stack_of frames_of (H := unit) None (Some [0; 0x61; 0x73; 0x6E; 1; 0; 0; 0]) [] = Err WAH_ERROR_INVALID_MAGIC_NUMBER /\
  wah_parse_module stack_of frames_of (H := unit) None (Some [0; 0x61; 0x73; 0x6D; 2; 0; 0; 0]) [] = Err WAH_ERROR_INVALID_VERSION.
Proof.
  destruct (wah_parse_module_refused stack_of frames_of (H := unit) None []) as [_ R]. split.
  - apply (R [0; 0x61; 0x73; 0x6E; 1; 0; 0; 0]); [apply bytes_checked; reflexivity|vm_compute; congruence|reflexivity|vm_compute; congruence].
  - apply (R [0; 0x61; 0x73; 0x6D; 2; 0; 0; 0]);
      [apply bytes_checked; reflexivity|vm_compute; congruence|reflexivity|reflexivity|vm_compute; congruence].
Defined.

(** A second table section, and a memory section that is too long. *)
Lemma parse_sections_refused_witness :
  (parse_sections stack_of frames_of 4 4 ((Decoder [4; 1; 0] all_features, [], ModuleNotes 0 None), start_module false)).1 = Err WAH_ERROR_MALFORMED /\
  (parse_sections stack_of frames_of 4 4 ((Decoder [5; 9; 0] all_features, [], ModuleNotes 0 None), start_module false)).1 = Err WAH_ERROR_UNEXPECTED_EOF.
Proof.
  split.
  - apply (parse_sections_refused stack_of frames_of (Decoder [4; 1; 0] all_features) [] (ModuleNotes 0 None) (start_module false) 4 1 [1] [0]
      ltac:(apply bytes_checked; reflexivity) eq_refl ltac:(apply uleb_last; vm_compute; [split; congruence|reflexivity]) 3 4) with (order := 4);
      [reflexivity|vm_compute; congruence|vm_compute; congruence].
  - apply (parse_sections_refused stack_of frames_of (Decoder [5; 9; 0] all_features) [] (ModuleNotes 0 None) (start_module false) 5 9 [9] [0]
      ltac:(apply bytes_checked; reflexivity) eq_refl ltac:(apply uleb_last; vm_compute; [split; congruence|reflexivity]) 3 4) with (order := 5);
      [reflexivity|right; vm_compute; reflexivity|vm_compute; reflexivity].
Defined.

(** A custom section named x before a memory section. *)
Lemma custom_section_skipped_witness : exists s',
  parse_sections stack_of frames_of 4 4 ((Decoder ([0; 5; 1; 120; 1; 2; 3] ++ [5; 3; 1; 0; 1]) all_features, [], ModuleNotes 0 None), start_module false)
    = (Ok tt, s') /\ memories (ms_env s'.2) = [MemoryType WAH_TYPE_I32 1 UINT64_MAX].
Proof.
  eexists. split.
  - etransitivity; [apply (custom_section_skipped stack_of frames_of (Decoder ([0; 5; 1; 120; 1; 2; 3] ++ [5; 3; 1; 0; 1]) all_features) []
      (ModuleNotes 0 None) (start_module false) 0 5 [5] ([1; 120; 1; 2; 3] ++ [5; 3; 1; 0; 1])
      ltac:(apply bytes_checked; reflexivity) eq_refl ltac:(apply uleb_last; vm_compute; [split; congruence|reflexivity]) 3 4 [1] [120] [1; 2; 3] [5; 3; 1; 0; 1]
      eq_refl eq_refl eq_refl ltac:(apply uleb_last; vm_compute; [split; congruence|reflexivity])
      ltac:(apply utf8_text_1; [vm_compute; split; congruence|apply utf8_text_nil]))|vm_compute; reflexivity].
  - reflexivity.
Defined.
