(* ===== verification/Lowering.v ===== *)
(** * Lowering of analyzed code

    [wah_lower_analyzed_code]: the bytecode of the interpreter is emitted in one pass,
    with a frame per open block that remembers the branches to be patched once the end
    of the block is known.  Metered code is split into chunks, each of which starts with
    a METER and has a copy, with a TICK per instruction, for when fuel runs out in it.
    The checks of debug builds and the specialized opcodes of x86-64 are left out. *)

From S2P Require Import Prelude Base Alloc Types Opcodes Bytes Leb128 Decode Subtype ModuleEnv Operands Validate Analyze.
From stdpp Require Import list sets.
#[local] Open Scope Z_scope.
#[local] Open Scope wah_scope.

(** ** Definitions *)

(** *** Opcodes of lowered code *)

Definition iop_value (op : wah_internal_op) : Z := WAH_FE + wah_internal_op_index op.

Definition suffix_code (s : wah_op_suffix) : Z :=
  match s with
  | sfx_i32_mem0 => 0 | sfx_i32_to_i64 => 1 | sfx_i64 => 2 | sfx_i64_mem0 => 3 | sfx_i64_to_i32 => 4
  | sfx_i64_to_i64 => 5
  end.
Definition same_extra (x y : wah_op * wah_op_suffix) : bool :=
  (wah_op_value x.1 =? wah_op_value y.1) && (suffix_code x.2 =? suffix_code y.2).
(** The enumerator of [WAH_OP_name_suffix], after those of the internal opcodes. *)
Definition xop_value (op : wah_op) (sfx : wah_op_suffix) : option Z :=
  i ← list_find (fun x => same_extra (op, sfx) x = true) WAH_EXTRA_OPCODES;
  Some (WAH_FE + zlen WAH_INTERNAL_OPCODES + Z.of_nat i.1).

(** *** The result *)

(** [count] types at [start] of the types of the maps, for the label at [offset]. *)
Record wah_stack_map_t := StackMap { sm_offset : Z; sm_count : Z; sm_start : Z }.
Record wah_parsed_code_t := ParsedCode {
  pc_bytecode : list Z;
  pc_poll_ref_tops : list Z;
  pc_ref_nodes : list wah_ref_node_t;
  pc_stack_maps : list wah_stack_map_t;
  pc_stack_map_types : list wah_type_t }.

(** *** The state *)

(** An array that grows: the elements in use and the capacity. *)
Record vec (A : Type) := Vec { vec_list : list A; vec_cap : Z }.
Arguments Vec {A} _ _.
Arguments vec_list {A} _.
Arguments vec_cap {A} _.
Definition vec_size {A} (v : vec A) : Z := zlen (vec_list v).
Definition vec_ensure {A} (needed elemsize : Z) (v : vec A) : comp answers (vec A) :=
  cap <- wah_grow_array needed elemsize (vec_cap v) ;; stm_ret (Vec (vec_list v) cap).
(** [WAH_ENSURE_CAP_GOTO(arr, count + 1, cleanup)] and [arr[count++] = x]. *)
Definition vec_push {A} (elemsize : Z) (x : A) (v : vec A) : comp answers (vec A) :=
  v <- vec_ensure (u32 (vec_size v + 1)) elemsize v ;; stm_ret (Vec (vec_list v ++ [x]) (vec_cap v)).

Record wah_lower_cf_t := LowerFrame {
  lf_opcode : wah_op;
  lf_continuation_offset : Z;
  lf_if_false_patch : Z;
  lf_patch_offsets : vec Z;
  lf_try_depth : Z;
  lf_needs_trim : bool;
  lf_type_idx : Z;
  lf_single : wah_type_t }.

Record wah_meter_chunk_t := MeterChunk {
  mc_meter_offset : Z; mc_next_fast_offset : Z; mc_record_start : Z; mc_cost : Z; mc_record_count : Z }.
Record wah_meter_instr_record_t := MeterRecord { mr_fast_offset : Z; mr_byte_length : Z; mr_ref_map : Z }.
Definition sizeof_wah_meter_chunk_t : Z := 16.
Definition sizeof_wah_meter_instr_record_t : Z := 12.
Definition sizeof_wah_stack_map_t : Z := 12.

(** [me_chunk] is [meter_chunks[meter_chunk_count]]. *)
Record lmeter := LMeter {
  me_need_new : bool; me_cost : Z; me_chunk : wah_meter_chunk_t;
  me_chunks : vec wah_meter_chunk_t; me_records : vec wah_meter_instr_record_t }.

(** The frames are listed from the innermost, [control_stack[control_sp - 1]]. *)
Record lstate := LState {
  l_ans : answers;
  l_buf : vec Z;
  l_maps : vec wah_stack_map_t;
  l_map_types : vec wah_type_t;
  l_frames : list wah_lower_cf_t;
  l_try_depth : Z;
  l_end_patches : vec Z;
  l_meter : lmeter }.

Definition l_set_buf b s := LState (l_ans s) b (l_maps s) (l_map_types s) (l_frames s) (l_try_depth s) (l_end_patches s) (l_meter s).
Definition l_set_maps m t s := LState (l_ans s) (l_buf s) m t (l_frames s) (l_try_depth s) (l_end_patches s) (l_meter s).
Definition l_set_frames f s := LState (l_ans s) (l_buf s) (l_maps s) (l_map_types s) f (l_try_depth s) (l_end_patches s) (l_meter s).
Definition l_set_try d s := LState (l_ans s) (l_buf s) (l_maps s) (l_map_types s) (l_frames s) d (l_end_patches s) (l_meter s).
Definition l_set_ends e s := LState (l_ans s) (l_buf s) (l_maps s) (l_map_types s) (l_frames s) (l_try_depth s) e (l_meter s).
Definition l_set_meter m s := LState (l_ans s) (l_buf s) (l_maps s) (l_map_types s) (l_frames s) (l_try_depth s) (l_end_patches s) m.
Definition on_l_answers {A} (m : comp answers A) : comp lstate A := fun s =>
  let '(r, a) := m (l_ans s) in
  (r, LState a (l_buf s) (l_maps s) (l_map_types s) (l_frames s) (l_try_depth s) (l_end_patches s) (l_meter s)).
Definition buf_size (s : lstate) : Z := vec_size (l_buf s).

Definition stm_fault {S A} : comp S A := fun s => (Fault, s).
Definition skip {S} : comp S unit := stm_ret tt.

(** *** The buffer *)

Definition lower_ensure (needed : Z) : comp lstate unit :=
  s <- stm_get ;; b <- on_l_answers (vec_ensure needed 1 (l_buf s)) ;; modify (l_set_buf b).
(** Bytes are written at [buf_size], within the capacity. *)
Definition lower_append (bs : list Z) : comp lstate unit :=
  s <- stm_get ;;
  if buf_size s + zlen bs <=? vec_cap (l_buf s)
  then modify (l_set_buf (Vec (vec_list (l_buf s) ++ bs) (vec_cap (l_buf s)))) else stm_fault.
Definition get_size : comp lstate Z := s <- stm_get ;; stm_ret (buf_size s).

Definition WAH_LOWER_U8 (v : Z) : comp lstate unit :=
  n <- get_size ;; lower_ensure (u32 (n + 1)) ;;; lower_append [u8 v].
Definition WAH_LOWER_U16 (v : Z) : comp lstate unit :=
  n <- get_size ;; lower_ensure (n + 2) ;;; lower_append (le_bytes 2 v).
Definition WAH_LOWER_U32 (v : Z) : comp lstate unit :=
  n <- get_size ;; lower_ensure (n + 4) ;;; lower_append (le_bytes 4 v).
Definition WAH_LOWER_U64 (v : Z) : comp lstate unit :=
  n <- get_size ;; lower_ensure (n + 8) ;;; lower_append (le_bytes 8 v).
Definition WAH_LOWER_MEM (bs : list Z) : comp lstate unit :=
  n <- get_size ;; lower_ensure (u32 (n + zlen bs)) ;;; lower_append bs.

(** Writes in the buffer at an offset. *)
Definition lower_write (write : list Z -> option (list Z)) : comp lstate unit :=
  s <- stm_get ;; b <- stm_opt (write (vec_list (l_buf s))) ;; modify (l_set_buf (Vec b (vec_cap (l_buf s)))).
Definition WAH_LOWER_PATCH_U32 (off v : Z) : comp lstate unit := lower_write (fun b => wah_write_u32_le b off v).
Fixpoint WAH_LOWER_APPLY_PATCHES (offsets : list Z) (target : Z) : comp lstate unit :=
  match offsets with
  | [] => skip
  | off :: offsets' => WAH_LOWER_PATCH_U32 off target ;;; WAH_LOWER_APPLY_PATCHES offsets' target
  end.
(** [wah_write_u16_le(buf + buf_size - sizeof(uint16_t), op)]. *)
Definition lower_rewrite (op : Z) : comp lstate unit :=
  n <- get_size ;; lower_write (fun b => wah_write_u16_le b (n - 2) op).

(** *** Control frames *)

Definition frame (i : Z) : comp lstate wah_lower_cf_t := s <- stm_get ;; stm_opt (zget (l_frames s) i).
Definition update_frame (i : Z) (f : wah_lower_cf_t -> wah_lower_cf_t) : comp lstate unit :=
  s <- stm_get ;;
  cf <- stm_opt (zget (l_frames s) i) ;;
  l <- stm_opt (zset (l_frames s) i (f cf)) ;;
  modify (l_set_frames l).
Definition lf_set_continuation c f := LowerFrame (lf_opcode f) c (lf_if_false_patch f) (lf_patch_offsets f) (lf_try_depth f) (lf_needs_trim f) (lf_type_idx f) (lf_single f).
Definition lf_set_if_false p f := LowerFrame (lf_opcode f) (lf_continuation_offset f) p (lf_patch_offsets f) (lf_try_depth f) (lf_needs_trim f) (lf_type_idx f) (lf_single f).
Definition lf_set_patches p f := LowerFrame (lf_opcode f) (lf_continuation_offset f) (lf_if_false_patch f) p (lf_try_depth f) (lf_needs_trim f) (lf_type_idx f) (lf_single f).
Definition lf_set_trim f := LowerFrame (lf_opcode f) (lf_continuation_offset f) (lf_if_false_patch f) (lf_patch_offsets f) (lf_try_depth f) true (lf_type_idx f) (lf_single f).
Definition lf_set_else f := LowerFrame WAH_OP_ELSE (lf_continuation_offset f) 0 (lf_patch_offsets f) (lf_try_depth f) (lf_needs_trim f) (lf_type_idx f) (lf_single f).

Definition WAH_LOWER_ADD_PATCH_AT (i pos : Z) : comp lstate unit :=
  cf <- frame i ;;
  p <- on_l_answers (vec_push 4 pos (lf_patch_offsets cf)) ;;
  update_frame i (lf_set_patches p).
Definition WAH_LOWER_ADD_FUNC_END_PATCH : comp lstate unit :=
  s <- stm_get ;;
  e <- on_l_answers (vec_push 4 (buf_size s) (l_end_patches s)) ;;
  modify (l_set_ends e).

Definition is_loop (op : wah_op) : bool := match op with WAH_OP_LOOP => true | _ => false end.
Definition is_try_table (op : wah_op) : bool := match op with WAH_OP_TRY_TABLE => true | _ => false end.

(** The assertion on the depth is the bound of the frames. *)
Definition WAH_LOWER_RESOLVE_BRANCH (relative_depth : Z) : comp lstate unit :=
  s <- stm_get ;;
  if relative_depth =? zlen (l_frames s) then
    WAH_LOWER_ADD_FUNC_END_PATCH ;;; WAH_LOWER_U32 0
  else
    target <- frame relative_depth ;;
    (if lf_try_depth target <? l_try_depth s then update_frame relative_depth lf_set_trim else skip) ;;;
    if is_loop (lf_opcode target) then WAH_LOWER_U32 (lf_continuation_offset target)
    else
      n <- get_size ;;
      WAH_LOWER_ADD_PATCH_AT relative_depth n ;;; WAH_LOWER_U32 0.

Definition WAH_LOWER_PUSH_FRAME (op : wah_op) (type_idx : Z) (single : wah_type_t) : comp lstate unit :=
  s <- stm_get ;;
  if zlen (l_frames s) <? WAH_MAX_CONTROL_DEPTH then
    modify (l_set_frames (LowerFrame op (buf_size s) 0 (Vec [] 0) (l_try_depth s) false type_idx single :: l_frames s))
  else stm_fault.

Definition WAH_LOWER_FINISH_FRAME (end_pos : Z) : comp lstate unit :=
  cf <- frame 0 ;;
  WAH_LOWER_APPLY_PATCHES (vec_list (lf_patch_offsets cf)) end_pos ;;;
  (if is_if (lf_opcode cf) then WAH_LOWER_PATCH_U32 (lf_if_false_patch cf) end_pos else skip) ;;;
  modify (fun s => l_set_frames (drop 1 (l_frames s)) s).

Section Lowering.
Context (M : wah_module_env) (ac : wah_analyzed_code_t).
Notation TM := (env_types M).

Definition emit_poll : bool := match ac_mode ac with WAH_ANALYZE_FUNC_BODY => true | _ => false end.
Definition emit_meter : bool := emit_poll && fuel_metering M.

(** *** Stack maps *)

Definition wah_block_label_types (type_idx : Z) (single : wah_type_t) (loop : bool) : option (list wah_type_t) :=
  if negb (type_idx =? UINT32_MAX) then
    ft ← zget (types TM) type_idx; Some (if loop then param_types ft else result_types ft)
  else Some (if loop || (single =? WAH_TYPE_BOT) then [] else [single]).

(** A map at the same offset is replaced, and keeps its types below the new ones. *)
Definition WAH_LOWER_STACK_MAP (pos type_idx : Z) (single : wah_type_t) (loop : bool) : comp lstate unit :=
  lt <- stm_opt (wah_block_label_types type_idx single loop) ;;
  if negb (existsb WAH_TYPE_IS_REF lt) then skip
  else
    s <- stm_get ;;
    let ln := zlen lt in
    let '(maps, keep, type_count) :=
      match last (vec_list (l_maps s)) with
      | Some prev =>
          if sm_offset prev =? pos then
            let keep := if ln <? sm_count prev then sm_count prev - ln else 0 in
            (take (length (vec_list (l_maps s)) - 1) (vec_list (l_maps s)), keep, u32 (sm_start prev + keep))
          else (vec_list (l_maps s), 0, vec_size (l_map_types s))
      | None => (vec_list (l_maps s), 0, vec_size (l_map_types s))
      end in
    maps <- on_l_answers (vec_push sizeof_wah_stack_map_t (StackMap pos (u32 (keep + ln)) (u32 (type_count - keep)))
                            (Vec maps (vec_cap (l_maps s)))) ;;
    ts <- on_l_answers (vec_ensure (type_count + ln) 4 (l_map_types s)) ;;
    modify (l_set_maps maps (Vec (take (Z.to_nat type_count) (vec_list ts) ++ lt) (vec_cap ts))).

(** *** Loops with try_tables inside *)

Definition instr_is (di : wah_decoded_instr_t) (op : wah_op) : bool := di_opcode di =? wah_op_value op.
(** The indices of open blocks, from the innermost. *)
Fixpoint mark_loops (opens : list Z) (marks : list bool) : option (list bool) :=
  match opens with
  | [] => Some marks
  | k :: opens' =>
      di ← zget (ac_instrs ac) k;
      if negb (instr_is di WAH_OP_LOOP) then mark_loops opens' marks
      else
        marked ← zget marks k;
        if marked : bool then Some marks
        else marks ← zset marks k true; mark_loops opens' marks
  end.
Fixpoint find_try_loops (instrs : list wah_decoded_instr_t) (ii : Z) (opens : list Z) (marks : list bool)
  : option (list bool) :=
  match instrs with
  | [] => Some marks
  | di :: instrs' =>
      if instr_is di WAH_OP_BLOCK || instr_is di WAH_OP_LOOP || instr_is di WAH_OP_IF then
        if zlen opens <? WAH_MAX_CONTROL_DEPTH then find_try_loops instrs' (ii + 1) (ii :: opens) marks else None
      else if instr_is di WAH_OP_TRY_TABLE then
        marks ← mark_loops opens marks;
        if zlen opens <? WAH_MAX_CONTROL_DEPTH then find_try_loops instrs' (ii + 1) (ii :: opens) marks else None
      else if instr_is di WAH_OP_END then find_try_loops instrs' (ii + 1) (drop 1 opens) marks
      else find_try_loops instrs' (ii + 1) opens marks
  end.
(** The marks are only allocated when there is a try_table. *)
Definition loop_marks : comp answers (option (list bool)) :=
  if existsb (fun di => instr_is di WAH_OP_TRY_TABLE) (ac_instrs ac) then
    wah_malloc_c (zlen (ac_instrs ac)) 1 ;;;
    marks <- stm_opt (find_try_loops (ac_instrs ac) 0 [] (replicate (length (ac_instrs ac)) false)) ;;
    stm_ret (Some marks)
  else stm_ret None.

(** *** Fuel metering *)

Definition WAH_METER_MAX_CHUNK_COST : Z := 100.
Definition WAH_METER_SIZE : Z := 8.
Definition UINT16_MAX : Z := 65535.

Definition me_set_need_new b m := LMeter b (me_cost m) (me_chunk m) (me_chunks m) (me_records m).
Definition me_set_cost c m := LMeter (me_need_new m) c (me_chunk m) (me_chunks m) (me_records m).
Definition on_meter (f : lmeter -> lmeter) : comp lstate unit := modify (fun s => l_set_meter (f (l_meter s)) s).

Definition WAH_METER_START_CHUNK : comp lstate unit :=
  s <- stm_get ;;
  if emit_meter && me_need_new (l_meter s) then
    let m := l_meter s in
    v <- on_l_answers (vec_ensure (u32 (vec_size (me_chunks m) + 1)) sizeof_wah_meter_chunk_t (me_chunks m)) ;;
    on_meter (fun m => LMeter (me_need_new m) (me_cost m) (MeterChunk (buf_size s) 0 (vec_size (me_records m)) 0 0) v (me_records m)) ;;;
    WAH_LOWER_U16 (iop_value WAH_IOP_METER) ;;;
    WAH_LOWER_U16 0 ;;;
    WAH_LOWER_U32 0 ;;;
    on_meter (fun m => me_set_need_new false (me_set_cost 0 m))
  else skip.

(** An empty chunk is retracted. *)
Definition WAH_METER_END_CHUNK : comp lstate unit :=
  s <- stm_get ;;
  let m := l_meter s in
  let c := me_chunk m in
  if emit_meter && (0 <? me_cost m) then
    lower_write (fun b => wah_write_u16_le b (mc_meter_offset c + 2) (me_cost m)) ;;;
    let c' := MeterChunk (mc_meter_offset c) (buf_size s) (mc_record_start c) (me_cost m)
                (u16 (vec_size (me_records m) - mc_record_start c)) in
    (if vec_size (me_chunks m) <? vec_cap (me_chunks m) then skip else stm_fault) ;;;
    on_meter (fun m => LMeter true 0 c' (Vec (vec_list (me_chunks m) ++ [c']) (vec_cap (me_chunks m))) (me_records m))
  else if emit_meter && negb (me_need_new m) then
    (if mc_meter_offset c + WAH_METER_SIZE =? buf_size s then skip else stm_fault) ;;;
    modify (l_set_buf (Vec (take (Z.to_nat (mc_meter_offset c)) (vec_list (l_buf s))) (vec_cap (l_buf s)))) ;;;
    on_meter (me_set_need_new true)
  else skip.

(** [start] is where the instruction starts. *)
Definition WAH_METER_RECORD_INSTR_END (start ref_map : Z) : comp lstate unit :=
  if emit_meter then
    s <- stm_get ;;
    (if me_need_new (l_meter s) then stm_fault else skip) ;;;
    v <- on_l_answers (vec_push sizeof_wah_meter_instr_record_t
                         (MeterRecord start (u32 (buf_size s - start)) ref_map) (me_records (l_meter s))) ;;
    on_meter (fun m => LMeter (me_need_new m) (u16 (me_cost m + 1)) (me_chunk m) (me_chunks m) v) ;;;
    s <- stm_get ;;
    if me_cost (l_meter s) =? UINT16_MAX then WAH_METER_END_CHUNK else skip
  else skip.

Definition WAH_EMIT_POLL (di : wah_decoded_instr_t) : comp lstate unit :=
  WAH_LOWER_U16 (iop_value WAH_IOP_POLL) ;;; WAH_LOWER_U32 (di_ref_map di).

(** *** Immediates

    Members of the union; [a] and [b] of [u32_u32] are also [type_idx] and [length]. *)
Definition the_u32 (i : wah_imm) : option Z := match i with imm_u32 v => Some v | _ => None end.
Definition the_u32_u32 (i : wah_imm) : option (Z * Z) :=
  match i with imm_u32_u32 a b | imm_type_length a b => Some (a, b) | _ => None end.
Definition the_type_length (i : wah_imm) : option (Z * Z) := match i with imm_type_length a b => Some (a, b) | _ => None end.
Definition the_type_field (i : wah_imm) : option (Z * Z) := match i with imm_type_field t f => Some (t, f) | _ => None end.
Definition the_memarg (i : wah_imm) : option wah_memarg_t := match i with imm_memarg m => Some m | _ => None end.
Definition the_memarg_lane (i : wah_imm) : option (wah_memarg_t * Z) := match i with imm_memarg_lane m l => Some (m, l) | _ => None end.
Definition the_block (i : wah_imm) : option (Z * wah_type_t) := match i with imm_block t s => Some (t, s) | _ => None end.

Definition is_memory64 (a : Z) : comp lstate bool :=
  if a <? wah_memory_index_limit M then
    mt <- stm_opt (wah_memory_type M a) ;; stm_ret (mem_addr_type mt =? WAH_TYPE_I64)
  else stm_ret false.
Definition is_table64 (a : Z) : comp lstate bool :=
  if a <? wah_table_index_limit M then
    tt <- stm_opt (wah_table_type M a) ;; stm_ret (tab_addr_type tt =? WAH_TYPE_I64)
  else stm_ret false.
Definition rewrite_to (op : wah_op) (sfx : wah_op_suffix) : comp lstate unit :=
  v <- stm_opt (xop_value op sfx) ;; lower_rewrite v.
Definition rewrite_if (b : bool) (op : wah_op) (sfx : wah_op_suffix) : comp lstate unit :=
  if b then rewrite_to op sfx else skip.
Definition rewrite_pair (da db : bool) (op : wah_op) : comp lstate unit :=
  if da && db then rewrite_to op sfx_i64_to_i64
  else if da && negb db then rewrite_to op sfx_i32_to_i64
  else if negb da && db then rewrite_to op sfx_i64_to_i32
  else skip.

(** WAH_OPCLASS_I. *)
Definition lower_I (op : wah_op) (a : Z) : comp lstate unit :=
  match op with
  | WAH_OP_GLOBAL_GET | WAH_OP_GLOBAL_SET =>
      if a <? zlen (global_imports M) then
        g <- stm_opt (zget (global_imports M) a) ;;
        if global_mutable g then
          lower_rewrite (iop_value (match op with WAH_OP_GLOBAL_GET => WAH_IOP_GLOBAL_GET_INDIRECT | _ => WAH_IOP_GLOBAL_SET_INDIRECT end))
        else skip
      else skip
  | WAH_OP_MEMORY_SIZE | WAH_OP_MEMORY_GROW | WAH_OP_MEMORY_FILL =>
      b <- is_memory64 a ;; rewrite_if b op sfx_i64
  | WAH_OP_TABLE_GET | WAH_OP_TABLE_SET | WAH_OP_TABLE_SIZE | WAH_OP_TABLE_GROW | WAH_OP_TABLE_FILL =>
      b <- is_table64 a ;; rewrite_if b op sfx_i64
  | _ => skip
  end ;;;
  WAH_LOWER_U32 a.

(** WAH_OPCLASS_II. *)
Definition lower_II (op : wah_op) (a b : Z) : comp lstate unit :=
  match op with
  | WAH_OP_MEMORY_INIT => m <- is_memory64 b ;; rewrite_if m op sfx_i64
  | WAH_OP_MEMORY_COPY => da <- is_memory64 a ;; db <- is_memory64 b ;; rewrite_pair da db op
  | WAH_OP_TABLE_COPY => da <- is_table64 a ;; db <- is_table64 b ;; rewrite_pair da db op
  | WAH_OP_TABLE_INIT | WAH_OP_CALL_INDIRECT | WAH_OP_RETURN_CALL_INDIRECT =>
      t <- is_table64 b ;; rewrite_if t op sfx_i64
  | _ => skip
  end ;;;
  WAH_LOWER_U32 a ;;; WAH_LOWER_U32 b.

(** [WAH_LOWER_MEM_REWRITE]: the switch over a listing gives the opcode written. *)
Definition listed_opcode (l : list (wah_op * wah_op_suffix)) (op : wah_op) : option Z :=
  match list_find (fun x => (wah_op_value x.1 =? wah_op_value op) = true) l with
  | Some (_, x) => xop_value x.1 x.2
  | None => Some (wah_op_value op)
  end.
Definition WAH_LOWER_MEM_REWRITE (op : wah_op) (mem_idx : Z) (MEM0 I64_MEM0 I64_MEM : list (wah_op * wah_op_suffix))
  : comp lstate unit :=
  mt <- stm_opt (wah_memory_type M mem_idx) ;;
  let is_i64 := mem_addr_type mt =? WAH_TYPE_I64 in
  if (mem_idx =? 0) && negb is_i64 then v <- stm_opt (listed_opcode MEM0 op) ;; lower_rewrite v
  else if (mem_idx =? 0) && is_i64 then v <- stm_opt (listed_opcode I64_MEM0 op) ;; lower_rewrite v
  else if is_i64 then v <- stm_opt (listed_opcode I64_MEM op) ;; lower_rewrite v ;;; WAH_LOWER_U32 mem_idx
  else WAH_LOWER_U32 mem_idx.

(** [WAH_XLAT_OP]: the opcode for a storage type, on 64-bit hosts. *)
Definition xlat_op (ft : wah_type_t) (o8 o16 o32 o64 o128 : wah_internal_op) : wah_internal_op :=
  if ft =? WAH_TYPE_PACKED_I8 then o8
  else if ft =? WAH_TYPE_PACKED_I16 then o16
  else if (ft =? WAH_TYPE_I32) || (ft =? WAH_TYPE_F32) then o32
  else if (ft =? WAH_TYPE_I64) || (ft =? WAH_TYPE_F64) then o64
  else if ft =? WAH_TYPE_V128 then o128
  else o64.

(** [type_defs[typeidx].field_types[fieldidx]] and the offset of the field. *)
Definition field_type_at (typeidx fieldidx : Z) : option wah_type_t :=
  td ← zget (type_defs TM) typeidx; zget (field_types td) fieldidx.
Definition field_offset (typeidx fieldidx : Z) : option Z :=
  map ← typeidx_to_repr TM;
  r ← zget map typeidx;
  ri ← zget (repr_infos TM) r;
  f ← zget (repr_fields ri) fieldidx;
  Some (fld_offset f).
Definition lower_field (di : wah_decoded_instr_t) (o8 o16 o32 o64 o128 : wah_internal_op) : comp lstate unit :=
  ' (typeidx, fieldidx) <- stm_opt (the_type_field (di_imm di)) ;;
  ft <- stm_opt (field_type_at typeidx fieldidx) ;;
  off <- stm_opt (field_offset typeidx fieldidx) ;;
  lower_rewrite (iop_value (xlat_op ft o8 o16 o32 o64 o128)) ;;;
  WAH_LOWER_U32 off.
Definition lower_element (di : wah_decoded_instr_t) (o8 o16 o32 o64 o128 : wah_internal_op) : comp lstate unit :=
  typeidx <- stm_opt (the_u32 (di_imm di)) ;;
  et <- stm_opt (field_type_at typeidx 0) ;;
  lower_rewrite (iop_value (xlat_op et o8 o16 o32 o64 o128)).

(** [br_table]: a record per label. *)
Fixpoint lower_records (n : nat) (r : Z) (bt : wah_br_table_imm_t) : comp lstate unit :=
  match n with
  | O => skip
  | S n' =>
      symbol <- stm_opt (wah_br_table_symbol bt r) ;;
      WAH_LOWER_RESOLVE_BRANCH symbol ;;;
      drop <- stm_opt (wah_br_table_drop bt r) ;;
      WAH_LOWER_U32 drop ;;;
      lower_records n' (r + 1) bt
  end.
Fixpoint lower_targets (n : nat) (i : Z) (bt : wah_br_table_imm_t) : comp lstate unit :=
  match n with
  | O => skip
  | S n' =>
      t <- stm_opt (wah_br_table_target bt i) ;;
      lower_append (le_bytes 2 t) ;;;
      lower_targets n' (i + 1) bt
  end.
Definition lower_br_table (bt : wah_br_table_imm_t) : comp lstate unit :=
  WAH_LOWER_U32 (bti_target_count bt) ;;;
  WAH_LOWER_U32 (bti_keep bt) ;;;
  n <- get_size ;;
  lower_ensure (n + (bti_target_count bt + 1) * 2) ;;;
  lower_targets (Z.to_nat (bti_target_count bt + 1)) 0 bt ;;;
  lower_records (Z.to_nat (bti_record_count bt)) 0 bt.

(** Branches, and the frame of [if]. *)
Definition lower_branch (di : wah_decoded_instr_t) : comp lstate unit :=
  match di_imm di with
  | imm_branch label _ keep drop =>
      WAH_LOWER_RESOLVE_BRANCH label ;;; WAH_LOWER_U32 keep ;;; WAH_LOWER_U32 drop
  | _ => stm_fault
  end.
Definition lower_br_on_cast (di : wah_decoded_instr_t) : comp lstate unit :=
  match di_imm di with
  | imm_br_on_cast cast_flags target _ dst_type _ keep drop =>
      WAH_LOWER_U8 cast_flags ;;;
      WAH_LOWER_RESOLVE_BRANCH target ;;;
      WAH_LOWER_U32 (u32 dst_type) ;;; WAH_LOWER_U32 keep ;;; WAH_LOWER_U32 drop
  | _ => stm_fault
  end.
Definition lower_if (di : wah_decoded_instr_t) : comp lstate unit :=
  ' (ti, single) <- stm_opt (the_block (di_imm di)) ;;
  n <- get_size ;;
  WAH_LOWER_U32 0 ;;;
  WAH_LOWER_PUSH_FRAME WAH_OP_IF ti single ;;;
  update_frame 0 (lf_set_if_false n).
(** The assertion that the frame is that of an [if]. *)
Definition lower_else : comp lstate unit :=
  cf <- frame 0 ;;
  (if is_if (lf_opcode cf) then skip else stm_fault) ;;;
  else_end_patch <- get_size ;;
  WAH_LOWER_U32 0 ;;;
  n <- get_size ;;
  WAH_LOWER_PATCH_U32 (lf_if_false_patch cf) n ;;;
  update_frame 0 lf_set_else ;;;
  WAH_LOWER_ADD_PATCH_AT 0 else_end_patch.

(** The cases of the second switch. *)
Definition lower_other (op : wah_op) (di : wah_decoded_instr_t) : comp lstate unit :=
  match op with
  | WAH_OP_IF => lower_if di
  | WAH_OP_ELSE => lower_else
  | WAH_OP_BR | WAH_OP_BR_IF | WAH_OP_BR_ON_NULL | WAH_OP_BR_ON_NON_NULL => lower_branch di
  | WAH_OP_BR_ON_CAST | WAH_OP_BR_ON_CAST_FAIL => lower_br_on_cast di
  | WAH_OP_BR_TABLE => match di_imm di with imm_br_table bt => lower_br_table bt | _ => stm_fault end
  | WAH_OP_I32_CONST | WAH_OP_SELECT_T => match di_imm di with imm_i32 v => WAH_LOWER_U32 (u32 v) | _ => stm_fault end
  | WAH_OP_I64_CONST => match di_imm di with imm_i64 v => WAH_LOWER_U64 (u64 v) | _ => stm_fault end
  | WAH_OP_F32_CONST => match di_imm di with imm_f32_bits v => WAH_LOWER_U32 v | _ => stm_fault end
  | WAH_OP_F64_CONST => match di_imm di with imm_f64_bits v => WAH_LOWER_U64 v | _ => stm_fault end
  | WAH_OP_V128_CONST | WAH_OP_I8X16_SHUFFLE =>
      match di_imm di with imm_v128 bs => WAH_LOWER_MEM bs | _ => stm_fault end
  | WAH_OP_REF_FUNC | WAH_OP_REF_NULL | WAH_OP_STRUCT_NEW | WAH_OP_STRUCT_NEW_DEFAULT
  | WAH_OP_ARRAY_NEW | WAH_OP_ARRAY_NEW_DEFAULT =>
      v <- stm_opt (the_u32 (di_imm di)) ;; WAH_LOWER_U32 v
  | WAH_OP_REF_TEST_NULL | WAH_OP_REF_TEST | WAH_OP_REF_CAST_NULL | WAH_OP_REF_CAST =>
      match di_imm di with imm_ref_cast ht => WAH_LOWER_U32 (u32 ht) | _ => stm_fault end
  | WAH_OP_STRUCT_GET | WAH_OP_STRUCT_GET_U =>
      lower_field di WAH_IOP_STRUCT_GET_U8 WAH_IOP_STRUCT_GET_U16 WAH_IOP_STRUCT_GET_32 WAH_IOP_STRUCT_GET_64 WAH_IOP_STRUCT_GET_128
  | WAH_OP_STRUCT_GET_S =>
      lower_field di WAH_IOP_STRUCT_GET_S8 WAH_IOP_STRUCT_GET_S16 WAH_IOP_STRUCT_GET_32 WAH_IOP_STRUCT_GET_64 WAH_IOP_STRUCT_GET_128
  | WAH_OP_STRUCT_SET =>
      lower_field di WAH_IOP_STRUCT_SET_8 WAH_IOP_STRUCT_SET_16 WAH_IOP_STRUCT_SET_32 WAH_IOP_STRUCT_SET_64 WAH_IOP_STRUCT_SET_128
  | WAH_OP_ARRAY_GET | WAH_OP_ARRAY_GET_U =>
      lower_element di WAH_IOP_ARRAY_GET_U8 WAH_IOP_ARRAY_GET_U16 WAH_IOP_ARRAY_GET_32 WAH_IOP_ARRAY_GET_64 WAH_IOP_ARRAY_GET_128
  | WAH_OP_ARRAY_GET_S =>
      lower_element di WAH_IOP_ARRAY_GET_S8 WAH_IOP_ARRAY_GET_S16 WAH_IOP_ARRAY_GET_32 WAH_IOP_ARRAY_GET_64 WAH_IOP_ARRAY_GET_128
  | WAH_OP_ARRAY_SET =>
      lower_element di WAH_IOP_ARRAY_SET_8 WAH_IOP_ARRAY_SET_16 WAH_IOP_ARRAY_SET_32 WAH_IOP_ARRAY_SET_64 WAH_IOP_ARRAY_SET_128
  | WAH_OP_ARRAY_NEW_FIXED =>
      ' (a, b) <- stm_opt (the_type_length (di_imm di)) ;; WAH_LOWER_U32 a ;;; WAH_LOWER_U32 b
  | WAH_OP_ARRAY_INIT_ELEM =>
      ' (_, b) <- stm_opt (the_type_length (di_imm di)) ;; WAH_LOWER_U32 b
  | _ => skip
  end.

(** The switch on the operand class. *)
Definition lower_imm (cls : wah_opclass_t) (op : wah_op) (di : wah_decoded_instr_t) : comp lstate unit :=
  match cls with
  | WAH_OPCLASS_B => v <- stm_opt (the_u32 (di_imm di)) ;; WAH_LOWER_U8 v
  | WAH_OPCLASS_I => a <- stm_opt (the_u32 (di_imm di)) ;; lower_I op a
  | WAH_OPCLASS_II => ' (a, b) <- stm_opt (the_u32_u32 (di_imm di)) ;; lower_II op a b
  | WAH_OPCLASS_M =>
      m <- stm_opt (the_memarg (di_imm di)) ;;
      WAH_LOWER_MEM_REWRITE op (memidx m) WAH_I32_MEM0_OPCODES_M WAH_I64_MEM0_OPCODES_M WAH_I64_MEM_OPCODES_M ;;;
      WAH_LOWER_U64 (offset m)
  | WAH_OPCLASS_MB =>
      ' (m, lane) <- stm_opt (the_memarg_lane (di_imm di)) ;;
      WAH_LOWER_MEM_REWRITE op (memidx m) WAH_I32_MEM0_OPCODES_MB WAH_I64_MEM0_OPCODES_MB WAH_I64_MEM_OPCODES_MB ;;;
      WAH_LOWER_U64 (offset m) ;;;
      WAH_LOWER_U8 lane
  | _ => lower_other op di
  end.

(** *** One instruction *)

Definition polls (di : wah_decoded_instr_t) : bool := emit_poll && is_poll di.
Definition when (b : bool) (m : comp lstate unit) : comp lstate unit := if b then m else skip.

Section Instr.
Context (marks : option (list bool)).

Definition lower_block (ii : Z) (op : wah_op) (di : wah_decoded_instr_t) : comp lstate unit :=
  when (polls di && is_loop op) WAH_METER_END_CHUNK ;;;
  continuation_offset <- get_size ;;
  when (polls di) (
    WAH_EMIT_POLL di ;;;
    when (is_loop op) (on_meter (me_set_need_new emit_meter))) ;;;
  WAH_METER_START_CHUNK ;;;
  start <- get_size ;;
  ' (ti, single) <- stm_opt (the_block (di_imm di)) ;;
  WAH_LOWER_PUSH_FRAME op ti single ;;;
  when (is_loop op) (
    update_frame 0 (lf_set_continuation continuation_offset) ;;;
    WAH_LOWER_STACK_MAP continuation_offset ti single true ;;;
    marked <- (match marks with None => stm_ret false | Some l => stm_opt (zget l ii) end) ;;
    when marked (
      WAH_LOWER_U16 (iop_value WAH_IOP_TRIM_HANDLERS) ;;;
      s <- stm_get ;;
      WAH_LOWER_U32 (l_try_depth s))) ;;;
  WAH_METER_RECORD_INSTR_END start (di_ref_map di).

Fixpoint lower_catches (cs : list wah_catch_imm) : comp lstate unit :=
  match cs with
  | [] => skip
  | c :: cs' =>
      WAH_LOWER_U8 (ct_kind c) ;;;
      WAH_LOWER_U32 (ct_tag_idx c) ;;;
      s <- stm_get ;;
      (if ct_target_symbol c <=? zlen (l_frames s) then skip else stm_fault) ;;;
      WAH_LOWER_RESOLVE_BRANCH (ct_target_symbol c) ;;;
      WAH_LOWER_U32 (ct_drop c) ;;;
      lower_catches cs'
  end.
Definition lower_try_table (di : wah_decoded_instr_t) : comp lstate unit :=
  match di_imm di with
  | imm_try_table ti single catches =>
      when (polls di) (WAH_EMIT_POLL di) ;;;
      WAH_METER_START_CHUNK ;;;
      start <- get_size ;;
      WAH_LOWER_U16 (wah_op_value WAH_OP_TRY_TABLE) ;;;
      WAH_LOWER_U32 (zlen catches) ;;;
      lower_catches catches ;;;
      WAH_LOWER_PUSH_FRAME WAH_OP_TRY_TABLE ti single ;;;
      modify (fun s => l_set_try (u32 (l_try_depth s + 1)) s) ;;;
      WAH_METER_RECORD_INSTR_END start (di_ref_map di)
  | _ => stm_fault
  end.

(** The end of a block; [next_map] is the ref map of the next instruction. *)
Definition lower_end_block (di : wah_decoded_instr_t) (next_map : option Z) : comp lstate unit :=
  cf <- frame 0 ;;
  let loop := is_loop (lf_opcode cf) in
  let trim := lf_needs_trim cf && negb loop in
  let is_target := (0 <? vec_size (lf_patch_offsets cf)) || is_if (lf_opcode cf) in
  WAH_METER_START_CHUNK ;;;
  start <- get_size ;;
  when (is_try_table (lf_opcode cf)) (
    WAH_LOWER_U16 (iop_value WAH_IOP_END_TRY_TABLE) ;;;
    modify (fun s => l_set_try (u32 (l_try_depth s - 1)) s)) ;;;
  WAH_METER_RECORD_INSTR_END start (di_ref_map di) ;;;
  end_pos <- get_size ;;
  end_pos <- (if emit_meter && is_target then
                WAH_METER_END_CHUNK ;;;
                WAH_METER_START_CHUNK ;;;
                s <- stm_get ;;
                stm_ret (mc_meter_offset (me_chunk (l_meter s)))
              else stm_ret end_pos) ;;
  when (negb loop) (WAH_LOWER_STACK_MAP end_pos (lf_type_idx cf) (lf_single cf) false) ;;;
  WAH_LOWER_FINISH_FRAME end_pos ;;;
  when trim (
    start <- get_size ;;
    map <- stm_opt next_map ;;
    WAH_LOWER_U16 (iop_value WAH_IOP_TRIM_HANDLERS) ;;;
    WAH_LOWER_U32 (lf_try_depth cf) ;;;
    WAH_METER_RECORD_INSTR_END start map).

(** The end of the function. *)
Definition lower_end_func (di : wah_decoded_instr_t) : comp lstate unit :=
  WAH_METER_START_CHUNK ;;;
  start <- get_size ;;
  WAH_LOWER_U16 (wah_op_value WAH_OP_END) ;;;
  WAH_METER_RECORD_INSTR_END start (di_ref_map di) ;;;
  WAH_METER_END_CHUNK ;;;
  n <- get_size ;;
  s <- stm_get ;;
  WAH_LOWER_APPLY_PATCHES (vec_list (l_end_patches s)) (u32 (n - 2)).

(** Instructions after which a chunk that has become long enough ends. *)
Definition may_split (op : wah_op) : bool :=
  match op with
  | WAH_OP_BR | WAH_OP_BR_IF | WAH_OP_BR_ON_NULL | WAH_OP_BR_ON_NON_NULL | WAH_OP_BR_ON_CAST | WAH_OP_BR_ON_CAST_FAIL
  | WAH_OP_BR_TABLE | WAH_OP_CALL | WAH_OP_CALL_INDIRECT | WAH_OP_CALL_REF | WAH_OP_RETURN_CALL
  | WAH_OP_RETURN_CALL_INDIRECT | WAH_OP_RETURN | WAH_OP_RETURN_CALL_REF | WAH_OP_IF | WAH_OP_THROW | WAH_OP_THROW_REF => true
  | _ => false
  end.
Definition is_else (op : wah_op) : bool := match op with WAH_OP_ELSE => true | _ => false end.
Definition split_chunk (op : wah_op) : comp lstate unit :=
  s <- stm_get ;;
  if emit_meter && (0 <? me_cost (l_meter s)) then
    if may_split op then when (WAH_METER_MAX_CHUNK_COST <=? me_cost (l_meter s)) WAH_METER_END_CHUNK
    else when (is_else op) WAH_METER_END_CHUNK
  else skip.

Definition lower_plain (op : wah_op) (di : wah_decoded_instr_t) : comp lstate unit :=
  WAH_METER_START_CHUNK ;;;
  start <- get_size ;;
  when (polls di) (WAH_EMIT_POLL di) ;;;
  WAH_LOWER_U16 (di_opcode di) ;;;
  cls <- stm_opt (zget wah_opclasses (di_opcode di)) ;;
  lower_imm cls op di ;;;
  when (wah_opcode_is_resumable_bulk (di_opcode di)) (WAH_LOWER_U32 (di_ref_map di)) ;;;
  WAH_METER_RECORD_INSTR_END start (di_ref_map di) ;;;
  split_chunk op.

Definition lower_instr (ii : Z) (di : wah_decoded_instr_t) (next_map : option Z) : comp lstate unit :=
  op <- stm_opt (wah_opcode_of (di_opcode di)) ;;
  match op with
  | WAH_OP_BLOCK | WAH_OP_LOOP => lower_block ii op di
  | WAH_OP_TRY_TABLE => lower_try_table di
  | WAH_OP_END =>
      s <- stm_get ;;
      if 0 <? zlen (l_frames s) then lower_end_block di next_map else lower_end_func di
  | _ => lower_plain op di
  end.

(** The loop over the instructions, from [ii]. *)
Fixpoint lower_instrs (ii : Z) (instrs : list wah_decoded_instr_t) : comp lstate unit :=
  match instrs with
  | [] => skip
  | di :: instrs' => lower_instr ii di (di_ref_map <$> head instrs') ;;; lower_instrs (ii + 1) instrs'
  end.
End Instr.

(** *** Slow islands *)

Fixpoint lower_ticks (records : list wah_meter_instr_record_t) : comp lstate unit :=
  match records with
  | [] => skip
  | rec :: records' =>
      WAH_LOWER_U16 (iop_value WAH_IOP_TICK) ;;;
      WAH_LOWER_U32 (mr_ref_map rec) ;;;
      when (0 <? mr_byte_length rec) (
        n <- get_size ;;
        lower_ensure (u32 (n + mr_byte_length rec)) ;;;
        s <- stm_get ;;
        (if mr_fast_offset rec + mr_byte_length rec <=? n then skip else stm_fault) ;;;
        lower_append (mem_slice (vec_list (l_buf s)) (mr_fast_offset rec) (Z.to_nat (mr_byte_length rec)))) ;;;
      lower_ticks records'
  end.

(** Opcodes after which the next chunk is not reached. *)
Definition falls_through (op : Z) : bool :=
  negb (existsb (fun o => op =? wah_op_value o)
          [WAH_OP_BR; WAH_OP_RETURN; WAH_OP_RETURN_CALL; WAH_OP_RETURN_CALL_INDIRECT; WAH_OP_RETURN_CALL_REF;
           WAH_OP_BR_TABLE; WAH_OP_UNREACHABLE; WAH_OP_THROW; WAH_OP_THROW_REF; WAH_OP_END]
        || match xop_value WAH_OP_RETURN_CALL_INDIRECT sfx_i64 with Some v => op =? v | None => false end).

Definition lower_island (c : wah_meter_chunk_t) : comp lstate unit :=
  slow_island_start <- get_size ;;
  WAH_LOWER_PATCH_U32 (mc_meter_offset c + 4) slow_island_start ;;;
  s <- stm_get ;;
  let records := take (Z.to_nat (mc_record_count c)) (drop (Z.to_nat (mc_record_start c)) (vec_list (me_records (l_meter s)))) in
  (if zlen records =? mc_record_count c then skip else stm_fault) ;;;
  lower_ticks records ;;;
  match last records with
  | Some rec =>
      s <- stm_get ;;
      needs_fallthrough <-
        (if 2 <=? mr_byte_length rec then
           last_op <- stm_opt (wah_read_u16_le (vec_list (l_buf s)) (mr_fast_offset rec)) ;;
           stm_ret (falls_through last_op)
         else stm_ret true) ;;
      when needs_fallthrough (
        WAH_LOWER_U16 (wah_op_value WAH_OP_ELSE) ;;;
        WAH_LOWER_U32 (mc_next_fast_offset c))
  | None => skip
  end.
Fixpoint lower_islands (cs : list wah_meter_chunk_t) : comp lstate unit :=
  match cs with
  | [] => skip
  | c :: cs' => lower_island c ;;; lower_islands cs'
  end.

(** *** The whole *)

Definition lower_start (a : answers) : lstate :=
  LState a (Vec [] 0) (Vec [] 0) (Vec [] 0) [] 0 (Vec [] 0)
    (LMeter emit_meter 0 (MeterChunk 0 0 0 0 0) (Vec [] 0) (Vec [] 0)).

Definition lower_code : comp lstate unit :=
  on_l_answers (wah_malloc_c 256 1) ;;;
  modify (l_set_buf (Vec [] 256)) ;;;
  marks <- on_l_answers loop_marks ;;
  lower_instrs marks 0 (ac_instrs ac) ;;;
  s <- stm_get ;;
  when (emit_meter && (0 <? vec_size (me_chunks (l_meter s)))) (lower_islands (vec_list (me_chunks (l_meter s)))).

(** [parsed_code] already has the ref maps. *)
Definition wah_lower_analyzed_code (poll_ref_tops : list Z) (ref_nodes : list wah_ref_node_t) : comp answers wah_parsed_code_t :=
  fun a =>
    let '(r, s) := lower_code (lower_start a) in
    (match r with
     | Ok _ => Ok (ParsedCode (vec_list (l_buf s)) poll_ref_tops ref_nodes (vec_list (l_maps s)) (vec_list (l_map_types s)))
     | Err e => Err e
     | Fault => Fault
     end, l_ans s).
End Lowering.
