(* ===== verification/Assembly.v ===== *)
(** * Symbolic code

    The reference the lowering is compared with: code as a list of pieces, in which the
    targets of branches and the costs of metered chunks are symbolic, and a two-pass
    assembler for it.  Backpatching a buffer is shown to be placing a label. *)

From S2P Require Import Prelude Bytes.
From stdpp Require Import list sets.
#[local] Open Scope Z_scope.

(** ** Definitions *)

(** The labels of code: the end, the [else] part and the header of the block opened by
    an instruction, the end of the function, and, for a metered chunk, its copy and the
    code that follows it. *)
Inductive label :=
| LEnd (ii : Z) | LElse (ii : Z) | LLoop (ii : Z) | LReturn
| LSlow (c : Z) | LNext (c : Z).
#[export] Instance label_eq_dec : EqDecision label.
Proof. solve_decision. Defined.

(** Bytes, the address of a label, the cost of a chunk, and the place of a label. *)
Inductive piece := PB (bs : list Z) | PT (l : label) | PC (c : Z) | PL (l : label).

Definition piece_size (p : piece) : Z :=
  match p with PB bs => zlen bs | PT _ => 4 | PC _ => 2 | PL _ => 0 end.
Fixpoint code_size (ps : list piece) : Z :=
  match ps with [] => 0 | p :: ps' => piece_size p + code_size ps' end.

(** The first pass: the address of a label. *)
Fixpoint address (ps : list piece) (l : label) : option Z :=
  match ps with
  | [] => None
  | PL l' :: ps' => if decide (l' = l) then Some 0 else address ps' l
  | p :: ps' => a ← address ps' l; Some (piece_size p + a)
  end.
(** The labels that are not placed are at 0. *)
Definition layout (ps : list piece) (l : label) : Z := default 0 (address ps l).

(** The second pass. *)
Definition assemble_piece (e : label -> Z) (cost : Z -> Z) (p : piece) : list Z :=
  match p with
  | PB bs => bs
  | PT l => le_bytes 4 (e l)
  | PC c => le_bytes 2 (cost c)
  | PL _ => []
  end.
Definition assemble (e : label -> Z) (cost : Z -> Z) (ps : list piece) : list Z := ps ≫= assemble_piece e cost.

(** What a piece is about. *)
Definition place_of (p : piece) : list label := match p with PL l => [l] | _ => [] end.
Definition target_of (p : piece) : list label := match p with PT l => [l] | _ => [] end.
Definition cost_of (p : piece) : list Z := match p with PC c => [c] | _ => [] end.
Definition placed (ps : list piece) : list label := ps ≫= place_of.
Definition targets (ps : list piece) : list label := ps ≫= target_of.
Definition costs (ps : list piece) : list Z := ps ≫= cost_of.
(** Code without its labels. *)
Definition is_label (p : piece) : bool := match p with PL _ => true | _ => false end.
Definition strip (ps : list piece) : list piece := filter (fun p => is_label p = false) ps.

(** The addresses at which a label is referred to in code that starts at [off]. *)
Fixpoint holes (l : label) (off : Z) (ps : list piece) : list Z :=
  match ps with
  | [] => []
  | p :: ps' => (if bool_decide (target_of p = [l]) then [off] else []) ++ holes l (off + piece_size p) ps'
  end.

(** An address changed in a map, and addresses in memory. *)
Definition upd (e : label -> Z) (l : label) (v : Z) : label -> Z := fun l' => if decide (l = l') then v else e l'.
Definition apply_patches (offs : list Z) (v : Z) (mem : list Z) : list Z :=
  foldl (fun m off => mem_store m off (le_bytes 4 v)) mem offs.

(** ** Sizes *)

Lemma piece_size_nonneg p : 0 <= piece_size p.
Proof. destruct p; simpl; unfold zlen; lia. Qed.

Lemma code_size_nonneg ps : 0 <= code_size ps.
Proof. induction ps as [|p ps IH]; simpl; [lia|]. pose proof (piece_size_nonneg p). lia. Qed.
#[export] Hint Resolve code_size_nonneg piece_size_nonneg : wah.

Lemma code_size_app ps qs : code_size (ps ++ qs) = code_size ps + code_size qs.
Proof. induction ps as [|p ps IH]; simpl; [lia|]. rewrite IH. lia. Qed.

Lemma zlen_app {A} (l1 l2 : list A) : zlen (l1 ++ l2) = zlen l1 + zlen l2.
Proof. unfold zlen. rewrite length_app. lia. Qed.

Lemma zlen_nonneg {A} (l : list A) : 0 <= zlen l.
Proof. unfold zlen. lia. Qed.
#[export] Hint Resolve zlen_nonneg : wah.

Lemma assemble_piece_size e c p : zlen (assemble_piece e c p) = piece_size p.
Proof. destruct p; simpl; reflexivity. Qed.

Lemma assemble_cons e c p ps : assemble e c (p :: ps) = assemble_piece e c p ++ assemble e c ps.
Proof. done. Qed.

Lemma assemble_app e c ps qs : assemble e c (ps ++ qs) = assemble e c ps ++ assemble e c qs.
Proof. apply bind_app. Qed.

Lemma assemble_size e c ps : zlen (assemble e c ps) = code_size ps.
Proof.
  induction ps as [|p ps IH]; [done|]. rewrite assemble_cons, zlen_app, IH, assemble_piece_size. done.
Qed.

(** ** Labels *)

Lemma placed_app ps qs : placed (ps ++ qs) = placed ps ++ placed qs.
Proof. apply bind_app. Qed.
Lemma targets_app ps qs : targets (ps ++ qs) = targets ps ++ targets qs.
Proof. apply bind_app. Qed.
Lemma costs_app ps qs : costs (ps ++ qs) = costs ps ++ costs qs.
Proof. apply bind_app. Qed.
Lemma strip_app ps qs : strip (ps ++ qs) = strip ps ++ strip qs.
Proof. apply filter_app. Qed.

Lemma address_None ps l : address ps l = None <-> l ∉ placed ps.
Proof.
  induction ps as [|[bs|l'|c|l'] ps IH]; simpl; [set_solver| | | |];
    try (destruct (address ps l); simpl in *; set_solver).
  rewrite elem_of_cons. destruct (decide (l' = l)); [naive_solver|]. naive_solver.
Qed.

Lemma address_app ps qs l :
  address (ps ++ qs) l = match address ps l with Some a => Some a | None => a ← address qs l; Some (code_size ps + a) end.
Proof.
  induction ps as [|p ps IH]; simpl; [by destruct (address qs l)|]. rewrite IH.
  destruct p as [bs|l'|c|l']; cbn [piece_size]; destruct (address ps l), (address qs l); simpl;
    try destruct (decide (l' = l)); f_equal; lia.
Qed.

Lemma address_placed ps l : l ∈ placed ps -> is_Some (address ps l).
Proof.
  intros H. destruct (address ps l) eqn:E; [done|]. by apply address_None in E.
Qed.

Lemma address_snoc ps l : l ∉ placed ps -> address (ps ++ [PL l]) l = Some (code_size ps).
Proof.
  intros H. apply address_None in H. rewrite address_app, H. simpl.
  rewrite decide_True by done. simpl. f_equal. lia.
Qed.

Lemma address_app_Some ps qs l a : address ps l = Some a -> address (ps ++ qs) l = Some a.
Proof. intros H. by rewrite address_app, H. Qed.

Lemma address_range ps l a : address ps l = Some a -> 0 <= a <= code_size ps.
Proof.
  revert a. induction ps as [|p ps IH]; intros a; [done|]. simpl. pose proof (piece_size_nonneg p). pose proof (code_size_nonneg ps).
  destruct p; try (destruct (address ps l) as [b|]; [|done]; intros [= <-]; specialize (IH b eq_refl); simpl in *; lia).
  destruct (decide (l0 = l)); [intros [= <-]; simpl; lia|]. intros H'. specialize (IH a H'). simpl. lia.
Qed.

Lemma layout_None ps l : l ∉ placed ps -> layout ps l = 0.
Proof. intros H. apply address_None in H. unfold layout. by rewrite H. Qed.

(** Code without labels adds none. *)
Lemma layout_app ps qs l : l ∉ placed qs -> layout (ps ++ qs) l = layout ps l.
Proof.
  intros H. apply address_None in H. unfold layout. rewrite address_app, H.
  by destruct (address ps l).
Qed.

(** ** The second pass *)

Lemma assemble_ext e e' c c' ps : (forall l, l ∈ targets ps -> e l = e' l) -> (forall k, k ∈ costs ps -> c k = c' k) ->
  assemble e c ps = assemble e' c' ps.
Proof.
  induction ps as [|p ps IH]; [done|]. intros He Hc. rewrite !assemble_cons. f_equal.
  - destruct p; simpl in *; try done; [rewrite He|rewrite Hc]; set_solver.
  - apply IH; [intros l Hl; apply He|intros k Hk; apply Hc]; destruct p; simpl; set_solver.
Qed.

Lemma assemble_strip e c ps : assemble e c (strip ps) = assemble e c ps.
Proof.
  induction ps as [|p ps IH]; [done|]. unfold strip. rewrite filter_cons.
  fold (strip ps). destruct p; cbn [is_label]; first [rewrite decide_True by done|rewrite decide_False by done];
    by rewrite !assemble_cons, IH || rewrite assemble_cons, IH.
Qed.

Lemma code_size_strip ps : code_size (strip ps) = code_size ps.
Proof. rewrite <- (assemble_size (fun _ => 0) (fun _ => 0)), assemble_strip, assemble_size. done. Qed.

Lemma strip_id ps : placed ps = [] -> strip ps = ps.
Proof.
  induction ps as [|p ps IH]; [done|]. unfold strip. rewrite filter_cons.
  fold (strip ps). destruct p; cbn [is_label]; intros H; try done; rewrite decide_True by done; f_equal; by apply IH.
Qed.

(** ** Patches *)

Lemma holes_app l off ps qs : holes l off (ps ++ qs) = holes l off ps ++ holes l (off + code_size ps) qs.
Proof.
  revert off. induction ps as [|p ps IH]; intros off; simpl; [by rewrite Z.add_0_r|].
  rewrite IH, <- app_assoc, Z.add_assoc. done.
Qed.

Lemma holes_nil l off ps : l ∉ targets ps -> holes l off ps = [].
Proof.
  revert off. induction ps as [|p ps IH]; intros off H; [done|]. simpl. rewrite bool_decide_false.
  - apply IH. intros Hi. apply H. destruct p; simpl; set_solver.
  - intros E. apply H. destruct p; simpl in *; set_solver.
Qed.

Lemma holes_in_range l off ps a : a ∈ holes l off ps -> off <= a /\ a + 4 <= off + code_size ps.
Proof.
  revert off. induction ps as [|p ps IH]; intros off; cbn [holes code_size]; [set_solver|].
  rewrite elem_of_app. pose proof (piece_size_nonneg p). pose proof (code_size_nonneg ps). intros [Hi|Hi].
  - case_bool_decide as E; [|set_solver]. destruct p; simpl in *; simplify_eq. apply list_elem_of_singleton in Hi as ->. lia.
  - apply IH in Hi. lia.
Qed.

Lemma mem_store_app A B B' C : length B' = length B -> mem_store (A ++ B ++ C) (zlen A) B' = A ++ B' ++ C.
Proof.
  intros H. unfold mem_store, zlen. rewrite Nat2Z.id.
  replace (length A) with (length A + 0)%nat by lia. rewrite list_inserts_app_r. f_equal.
  by rewrite list_inserts_0_r.
Qed.

Lemma mem_slice_app A B C : mem_slice (A ++ B ++ C) (zlen A) (length B) = B.
Proof.
  unfold mem_slice, zlen. rewrite Nat2Z.id, drop_app_length, take_app_length. done.
Qed.

Lemma apply_patches_app offs offs' v mem :
  apply_patches (offs ++ offs') v mem = apply_patches offs' v (apply_patches offs v mem).
Proof. apply foldl_app. Qed.

(** Writing an address where a label is referred to. *)
Lemma assemble_patch l v e c ps m0 m1 off : off = zlen m0 ->
  apply_patches (holes l off ps) v (m0 ++ assemble e c ps ++ m1) = m0 ++ assemble (upd e l v) c ps ++ m1.
Proof.
  revert m0 off. induction ps as [|p ps IH]; intros m0 off ->; [done|].
  rewrite !assemble_cons. simpl holes. rewrite apply_patches_app.
  assert (E : apply_patches (if bool_decide (target_of p = [l]) then [zlen m0] else []) v
     (m0 ++ (assemble_piece e c p ++ assemble e c ps) ++ m1) =
     (m0 ++ assemble_piece (upd e l v) c p) ++ assemble e c ps ++ m1).
  { rewrite <- !app_assoc. case_bool_decide as Et.
    - destruct p as [|l'| |]; cbn [target_of] in Et; simplify_eq. cbn [assemble_piece apply_patches foldl].
      rewrite mem_store_app by done. unfold upd. by rewrite decide_True.
    - destruct p; try done. simpl. unfold upd. rewrite decide_False; [done|]. intros ->. by apply Et. }
  rewrite E, IH; [by rewrite <- !app_assoc|]. by rewrite zlen_app, assemble_piece_size.
Qed.

Lemma assemble_patch_all l v e c ps :
  apply_patches (holes l 0 ps) v (assemble e c ps) = assemble (upd e l v) c ps.
Proof.
  pose proof (assemble_patch l v e c ps [] [] 0 eq_refl) as H. by rewrite !app_nil_r in H.
Qed.

Lemma targets_insert ps qs l : targets (ps ++ PL l :: qs) = targets (ps ++ qs).
Proof. by rewrite !targets_app. Qed.
Lemma costs_insert ps qs l : costs (ps ++ PL l :: qs) = costs (ps ++ qs).
Proof. by rewrite !costs_app. Qed.
Lemma strip_insert ps qs l : strip (ps ++ PL l :: qs) = strip (ps ++ qs).
Proof. by rewrite !strip_app. Qed.
Lemma code_size_insert ps qs l : code_size (ps ++ PL l :: qs) = code_size (ps ++ qs).
Proof. rewrite !code_size_app. simpl. lia. Qed.
Lemma holes_insert l' ps qs l : holes l' 0 (ps ++ PL l :: qs) = holes l' 0 (ps ++ qs).
Proof. rewrite !holes_app. simpl. by rewrite Z.add_0_r. Qed.
Lemma elem_of_placed_insert l' ps qs l : l' ∈ placed (ps ++ PL l :: qs) <-> l' = l \/ l' ∈ placed (ps ++ qs).
Proof. rewrite !placed_app, !elem_of_app. simpl. rewrite elem_of_cons. naive_solver. Qed.

Lemma address_insert ps qs l l' : l' <> l -> address (ps ++ PL l :: qs) l' = address (ps ++ qs) l'.
Proof.
  intros H. rewrite !address_app. simpl. by rewrite decide_False by done.
Qed.

Lemma layout_insert ps qs l l' : l ∉ placed ps ->
  layout (ps ++ PL l :: qs) l' = upd (layout (ps ++ qs)) l (code_size ps) l'.
Proof.
  intros H. unfold upd. case_decide as E; [subst l'|unfold layout; by rewrite address_insert].
  apply address_None in H. unfold layout. rewrite address_app, H. simpl. rewrite decide_True by done. simpl. lia.
Qed.

(** Placing a label patches the code for it: the address is the one at which it is placed. *)
Lemma assemble_insert c ps qs l : l ∉ placed ps ->
  assemble (layout (ps ++ PL l :: qs)) c (ps ++ PL l :: qs) =
  apply_patches (holes l 0 (ps ++ qs)) (code_size ps) (assemble (layout (ps ++ qs)) c (ps ++ qs)).
Proof.
  intros H. rewrite assemble_patch_all, !assemble_app, assemble_cons. simpl.
  f_equal; apply assemble_ext; intros; by rewrite ?layout_insert.
Qed.

(** Appending code without labels. *)
Lemma assemble_snoc c ps qs : placed qs = [] ->
  assemble (layout (ps ++ qs)) c (ps ++ qs) = assemble (layout ps) c ps ++ assemble (layout ps) c qs.
Proof.
  intros H. rewrite assemble_app. f_equal; apply assemble_ext; try done; intros l Hl; apply layout_app; rewrite H; set_solver.
Qed.
