(* ===== verification/LowerSpec.v ===== *)
(** * The lowered code, symbolically

    What [wah_lower_analyzed_code] is meant to emit: the pieces of code of each
    instruction, in which branches name the blocks they leave, and the copy of each
    metered chunk.  The lowering is compared with it in LowerInv, LowerCode and
    LowerOk. *)

From S2P Require Import Prelude Base Alloc Types Opcodes Bytes Decode Subtype ModuleEnv Operands Validate Analyze Lowering Assembly.
From stdpp Require Import list sets.
#[local] Open Scope Z_scope.

(** ** Definitions *)

(** An instruction of a chunk as it is copied, with the ref map before it. *)
Record slow_instr := SlowInstr { si_code : list piece; si_map : Z }.
(** An open block, named by the instruction that opened it. *)
Record aframe := AFrame {
  af_id : Z; af_op : wah_op; af_try : Z; af_trim : bool; af_type_idx : Z; af_single : wah_type_t }.
(** The code so far, split at the start of the current chunk; the instructions of that
    chunk if it is open, and those of the chunks before it. *)
Record asm := Asm {
  a_base : list piece;
  a_tail : list piece;
  a_frames : list aframe;
  a_try : Z;
  a_open : option (list slow_instr);
  a_chunks : list (list slow_instr);
  a_maps : list (Z * list wah_type_t) }.
Definition a_code (a : asm) : list piece := a_base a ++ a_tail a.
Definition asm_size (a : asm) : Z := code_size (a_code a).
Definition asm_start : asm := Asm [] [] [] 0 None [] [].

Definition emit (ps : list piece) (a : asm) : asm :=
  Asm (a_base a) (a_tail a ++ ps) (a_frames a) (a_try a) (a_open a) (a_chunks a) (a_maps a).
Definition set_frames (fs : list aframe) (a : asm) : asm :=
  Asm (a_base a) (a_tail a) fs (a_try a) (a_open a) (a_chunks a) (a_maps a).
Definition set_try (d : Z) (a : asm) : asm :=
  Asm (a_base a) (a_tail a) (a_frames a) d (a_open a) (a_chunks a) (a_maps a).
Definition set_maps (ms : list (Z * list wah_type_t)) (a : asm) : asm :=
  Asm (a_base a) (a_tail a) (a_frames a) (a_try a) (a_open a) (a_chunks a) ms.
Definition set_open (o : option (list slow_instr)) (a : asm) : asm :=
  Asm (a_base a) (a_tail a) (a_frames a) (a_try a) o (a_chunks a) (a_maps a).

Definition P16 (v : Z) : piece := PB (le_bytes 2 v).
Definition P32 (v : Z) : piece := PB (le_bytes 4 v).
Definition P64 (v : Z) : piece := PB (le_bytes 8 v).

(** *** Chunks *)

Definition meter_code (n : Z) : list piece := [P16 (iop_value WAH_IOP_METER); PC n; PT (LSlow n)].

Definition end_chunk (a : asm) : asm :=
  match a_open a with
  | None => a
  | Some [] => Asm (a_base a) [] (a_frames a) (a_try a) None (a_chunks a) (a_maps a)
  | Some rs =>
      Asm (a_base a) (a_tail a ++ [PL (LNext (zlen (a_chunks a)))]) (a_frames a) (a_try a) None (a_chunks a ++ [rs]) (a_maps a)
  end.

(** Code that belongs to an instruction, which is copied without its labels; a chunk has
    less than 2^16 instructions. *)
Definition record (ps : list piece) (map : Z) (a : asm) : asm :=
  let a := emit ps a in
  match a_open a with
  | None => a
  | Some rs =>
      let a := set_open (Some (rs ++ [SlowInstr (strip ps) map])) a in
      if zlen rs + 1 =? UINT16_MAX then end_chunk a else a
  end.

(** *** Stack maps *)

(** A map replaces the one at the same offset, but for the types below its own. *)
Definition add_map (pos : Z) (lt : list wah_type_t) (maps : list (Z * list wah_type_t)) : list (Z * list wah_type_t) :=
  match last maps with
  | Some (p, ts) =>
      if p =? pos then take (length maps - 1) maps ++ [(pos, take (length ts - length lt) ts ++ lt)]
      else maps ++ [(pos, lt)]
  | None => [(pos, lt)]
  end.

(** *** Branches *)

Definition mark (cur : Z) (f : aframe) : aframe :=
  AFrame (af_id f) (af_op f) (af_try f) (af_trim f || (af_try f <? cur)) (af_type_idx f) (af_single f).
Definition end_label (f : aframe) : label := if is_loop (af_op f) then LLoop (af_id f) else LEnd (af_id f).
(** The label of a branch; a block left from inside a try_table is marked. *)
Definition branch_to (depth : Z) (a : asm) : option (label * asm) :=
  if depth =? zlen (a_frames a) then Some (LReturn, a)
  else
    f ← zget (a_frames a) depth;
    fs ← zset (a_frames a) depth (mark (a_try a) f);
    Some (end_label f, set_frames fs a).

Section Spec.
Context (M : wah_module_env) (ac : wah_analyzed_code_t).
Notation TM := (env_types M).
Notation metered := (emit_meter M ac).

Definition start_chunk (a : asm) : asm :=
  match a_open a with
  | None =>
      if metered then
        Asm (a_code a) (meter_code (zlen (a_chunks a))) (a_frames a) (a_try a) (Some []) (a_chunks a) (a_maps a)
      else a
  | Some _ => a
  end.
Definition poll_code (di : wah_decoded_instr_t) : list piece :=
  if polls ac di then [P16 (iop_value WAH_IOP_POLL); P32 (di_ref_map di)] else [].
Definition trim_code (d : Z) : list piece := [P16 (iop_value WAH_IOP_TRIM_HANDLERS); P32 d].

Definition map_label (pos ti : Z) (single : wah_type_t) (loop : bool) (a : asm) : option asm :=
  lt ← wah_block_label_types M ti single loop;
  Some (if existsb WAH_TYPE_IS_REF lt then set_maps (add_map pos lt (a_maps a)) a else a).
Definition push_frame (ii : Z) (op : wah_op) (ti : Z) (single : wah_type_t) (a : asm) : option asm :=
  if zlen (a_frames a) <? WAH_MAX_CONTROL_DEPTH
  then Some (set_frames (AFrame ii op (a_try a) false ti single :: a_frames a) a) else None.

(** *** The opcode of an instruction *)

Definition mem64 (i : Z) : option bool :=
  if i <? wah_memory_index_limit M then mt ← wah_memory_type M i; Some (mem_addr_type mt =? WAH_TYPE_I64) else Some false.
Definition tab64 (i : Z) : option bool :=
  if i <? wah_table_index_limit M then tt ← wah_table_type M i; Some (tab_addr_type tt =? WAH_TYPE_I64) else Some false.
Definition variant (b : bool) (op : wah_op) (sfx : wah_op_suffix) : option Z :=
  if b then xop_value op sfx else Some (wah_op_value op).
Definition copy_variant (da db : bool) (op : wah_op) : option Z :=
  match da, db with
  | true, true => xop_value op sfx_i64_to_i64
  | true, false => xop_value op sfx_i32_to_i64
  | false, true => xop_value op sfx_i64_to_i32
  | false, false => Some (wah_op_value op)
  end.

Definition opcode_I (op : wah_op) (a : Z) : option Z :=
  match op with
  | WAH_OP_GLOBAL_GET | WAH_OP_GLOBAL_SET =>
      if a <? zlen (global_imports M) then
        g ← zget (global_imports M) a;
        Some (if global_mutable g then
                iop_value (match op with WAH_OP_GLOBAL_GET => WAH_IOP_GLOBAL_GET_INDIRECT | _ => WAH_IOP_GLOBAL_SET_INDIRECT end)
              else wah_op_value op)
      else Some (wah_op_value op)
  | WAH_OP_MEMORY_SIZE | WAH_OP_MEMORY_GROW | WAH_OP_MEMORY_FILL => b ← mem64 a; variant b op sfx_i64
  | WAH_OP_TABLE_GET | WAH_OP_TABLE_SET | WAH_OP_TABLE_SIZE | WAH_OP_TABLE_GROW | WAH_OP_TABLE_FILL =>
      b ← tab64 a; variant b op sfx_i64
  | _ => Some (wah_op_value op)
  end.
Definition opcode_II (op : wah_op) (a b : Z) : option Z :=
  match op with
  | WAH_OP_MEMORY_INIT => m ← mem64 b; variant m op sfx_i64
  | WAH_OP_MEMORY_COPY => da ← mem64 a; db ← mem64 b; copy_variant da db op
  | WAH_OP_TABLE_COPY => da ← tab64 a; db ← tab64 b; copy_variant da db op
  | WAH_OP_TABLE_INIT | WAH_OP_CALL_INDIRECT | WAH_OP_RETURN_CALL_INDIRECT => t ← tab64 b; variant t op sfx_i64
  | _ => Some (wah_op_value op)
  end.

(** Instructions on memories have variants without the index of the memory. *)
Definition mem_code (op : wah_op) (idx : Z) (MEM0 I64_MEM0 I64_MEM : list (wah_op * wah_op_suffix)) : option (list piece) :=
  mt ← wah_memory_type M idx;
  let is_i64 := mem_addr_type mt =? WAH_TYPE_I64 in
  if idx =? 0 then v ← listed_opcode (if is_i64 then I64_MEM0 else MEM0) op; Some [P16 v]
  else v ← (if is_i64 then listed_opcode I64_MEM op else Some (wah_op_value op)); Some [P16 v; P32 idx].

Definition field_code (di : wah_decoded_instr_t) (o8 o16 o32 o64 o128 : wah_internal_op) : option (list piece) :=
  p ← the_type_field (di_imm di); let '(typeidx, fieldidx) := p in
  ft ← field_type_at M typeidx fieldidx;
  off ← field_offset M typeidx fieldidx;
  Some [P16 (iop_value (xlat_op ft o8 o16 o32 o64 o128)); P32 off].
Definition element_code (di : wah_decoded_instr_t) (o8 o16 o32 o64 o128 : wah_internal_op) : option (list piece) :=
  typeidx ← the_u32 (di_imm di);
  et ← field_type_at M typeidx 0;
  Some [P16 (iop_value (xlat_op et o8 o16 o32 o64 o128))].

(** *** Instructions with labels *)

Fixpoint table_targets (n : nat) (i : Z) (bt : wah_br_table_imm_t) : option (list piece) :=
  match n with
  | O => Some []
  | S n' => t ← wah_br_table_target bt i; ps ← table_targets n' (i + 1) bt; Some (P16 t :: ps)
  end.
Fixpoint table_records (n : nat) (r : Z) (bt : wah_br_table_imm_t) (a : asm) : option (list piece * asm) :=
  match n with
  | O => Some ([], a)
  | S n' =>
      symbol ← wah_br_table_symbol bt r;
      p ← branch_to symbol a; let '(l, a) := p in
      drop ← wah_br_table_drop bt r;
      p ← table_records n' (r + 1) bt a; let '(ps, a) := p in
      Some (PT l :: P32 drop :: ps, a)
  end.
Definition table_code (bt : wah_br_table_imm_t) (a : asm) : option (list piece * asm) :=
  ts ← table_targets (Z.to_nat (bti_target_count bt + 1)) 0 bt;
  p ← table_records (Z.to_nat (bti_record_count bt)) 0 bt a; let '(rs, a) := p in
  Some (P16 (wah_op_value WAH_OP_BR_TABLE) :: P32 (bti_target_count bt) :: P32 (bti_keep bt) :: ts ++ rs, a).
Definition branch_code (op : wah_op) (di : wah_decoded_instr_t) (a : asm) : option (list piece * asm) :=
  match di_imm di with
  | imm_branch depth _ keep drop =>
      p ← branch_to depth a; let '(l, a) := p in Some ([P16 (wah_op_value op); PT l; P32 keep; P32 drop], a)
  | _ => None
  end.
Definition cast_code (op : wah_op) (di : wah_decoded_instr_t) (a : asm) : option (list piece * asm) :=
  match di_imm di with
  | imm_br_on_cast cast_flags depth _ dst_type _ keep drop =>
      p ← branch_to depth a; let '(l, a) := p in
      Some ([P16 (wah_op_value op); PB [u8 cast_flags]; PT l; P32 (u32 dst_type); P32 keep; P32 drop], a)
  | _ => None
  end.
(** The false edge of [if] goes to its [else] part. *)
Definition if_code (ii : Z) (di : wah_decoded_instr_t) (a : asm) : option (list piece * asm) :=
  p ← the_block (di_imm di); let '(ti, single) := p in
  a ← push_frame ii WAH_OP_IF ti single a;
  Some ([P16 (wah_op_value WAH_OP_IF); PT (LElse ii)], a).
Definition else_code (a : asm) : option (list piece * asm) :=
  match a_frames a with
  | f :: fs =>
      if is_if (af_op f) then
        Some ([P16 (wah_op_value WAH_OP_ELSE); PT (LEnd (af_id f)); PL (LElse (af_id f))],
              set_frames (AFrame (af_id f) WAH_OP_ELSE (af_try f) (af_trim f) (af_type_idx f) (af_single f) :: fs) a)
      else None
  | [] => None
  end.

(** *** Other instructions *)

Definition other_code (ii : Z) (op : wah_op) (di : wah_decoded_instr_t) (a : asm) : option (list piece * asm) :=
  let o := P16 (wah_op_value op) in
  let pure (ps : option (list piece)) := ps ← ps; Some (ps, a) in
  match op with
  | WAH_OP_IF => if_code ii di a
  | WAH_OP_ELSE => else_code a
  | WAH_OP_BR | WAH_OP_BR_IF | WAH_OP_BR_ON_NULL | WAH_OP_BR_ON_NON_NULL => branch_code op di a
  | WAH_OP_BR_ON_CAST | WAH_OP_BR_ON_CAST_FAIL => cast_code op di a
  | WAH_OP_BR_TABLE => match di_imm di with imm_br_table bt => table_code bt a | _ => None end
  | WAH_OP_I32_CONST | WAH_OP_SELECT_T => match di_imm di with imm_i32 v => Some ([o; P32 (u32 v)], a) | _ => None end
  | WAH_OP_I64_CONST => match di_imm di with imm_i64 v => Some ([o; P64 (u64 v)], a) | _ => None end
  | WAH_OP_F32_CONST => match di_imm di with imm_f32_bits v => Some ([o; P32 v], a) | _ => None end
  | WAH_OP_F64_CONST => match di_imm di with imm_f64_bits v => Some ([o; P64 v], a) | _ => None end
  | WAH_OP_V128_CONST | WAH_OP_I8X16_SHUFFLE => match di_imm di with imm_v128 bs => if zlen bs =? 16 then Some ([o; PB bs], a) else None | _ => None end
  | WAH_OP_REF_FUNC | WAH_OP_REF_NULL | WAH_OP_STRUCT_NEW | WAH_OP_STRUCT_NEW_DEFAULT
  | WAH_OP_ARRAY_NEW | WAH_OP_ARRAY_NEW_DEFAULT => v ← the_u32 (di_imm di); Some ([o; P32 v], a)
  | WAH_OP_REF_TEST_NULL | WAH_OP_REF_TEST | WAH_OP_REF_CAST_NULL | WAH_OP_REF_CAST =>
      match di_imm di with imm_ref_cast ht => Some ([o; P32 (u32 ht)], a) | _ => None end
  | WAH_OP_STRUCT_GET | WAH_OP_STRUCT_GET_U =>
      pure (field_code di WAH_IOP_STRUCT_GET_U8 WAH_IOP_STRUCT_GET_U16 WAH_IOP_STRUCT_GET_32 WAH_IOP_STRUCT_GET_64 WAH_IOP_STRUCT_GET_128)
  | WAH_OP_STRUCT_GET_S =>
      pure (field_code di WAH_IOP_STRUCT_GET_S8 WAH_IOP_STRUCT_GET_S16 WAH_IOP_STRUCT_GET_32 WAH_IOP_STRUCT_GET_64 WAH_IOP_STRUCT_GET_128)
  | WAH_OP_STRUCT_SET =>
      pure (field_code di WAH_IOP_STRUCT_SET_8 WAH_IOP_STRUCT_SET_16 WAH_IOP_STRUCT_SET_32 WAH_IOP_STRUCT_SET_64 WAH_IOP_STRUCT_SET_128)
  | WAH_OP_ARRAY_GET | WAH_OP_ARRAY_GET_U =>
      pure (element_code di WAH_IOP_ARRAY_GET_U8 WAH_IOP_ARRAY_GET_U16 WAH_IOP_ARRAY_GET_32 WAH_IOP_ARRAY_GET_64 WAH_IOP_ARRAY_GET_128)
  | WAH_OP_ARRAY_GET_S =>
      pure (element_code di WAH_IOP_ARRAY_GET_S8 WAH_IOP_ARRAY_GET_S16 WAH_IOP_ARRAY_GET_32 WAH_IOP_ARRAY_GET_64 WAH_IOP_ARRAY_GET_128)
  | WAH_OP_ARRAY_SET =>
      pure (element_code di WAH_IOP_ARRAY_SET_8 WAH_IOP_ARRAY_SET_16 WAH_IOP_ARRAY_SET_32 WAH_IOP_ARRAY_SET_64 WAH_IOP_ARRAY_SET_128)
  | WAH_OP_ARRAY_NEW_FIXED => p ← the_type_length (di_imm di); let '(t, n) := p in Some ([o; P32 t; P32 n], a)
  | WAH_OP_ARRAY_INIT_ELEM => p ← the_type_length (di_imm di); let '(_, n) := p in Some ([o; P32 n], a)
  | _ => Some ([o], a)
  end.

Definition imm_code (ii : Z) (cls : wah_opclass_t) (op : wah_op) (di : wah_decoded_instr_t) (a : asm) : option (list piece * asm) :=
  match cls with
  | WAH_OPCLASS_B => v ← the_u32 (di_imm di); Some ([P16 (wah_op_value op); PB [u8 v]], a)
  | WAH_OPCLASS_I => i ← the_u32 (di_imm di); o ← opcode_I op i; Some ([P16 o; P32 i], a)
  | WAH_OPCLASS_II => p ← the_u32_u32 (di_imm di); let '(i, j) := p in o ← opcode_II op i j; Some ([P16 o; P32 i; P32 j], a)
  | WAH_OPCLASS_M =>
      m ← the_memarg (di_imm di);
      ps ← mem_code op (memidx m) WAH_I32_MEM0_OPCODES_M WAH_I64_MEM0_OPCODES_M WAH_I64_MEM_OPCODES_M;
      Some (ps ++ [P64 (offset m)], a)
  | WAH_OPCLASS_MB =>
      p ← the_memarg_lane (di_imm di); let '(m, lane) := p in
      ps ← mem_code op (memidx m) WAH_I32_MEM0_OPCODES_MB WAH_I64_MEM0_OPCODES_MB WAH_I64_MEM_OPCODES_MB;
      Some (ps ++ [P64 (offset m); PB [u8 lane]], a)
  | _ => other_code ii op di a
  end.

Definition split_after (op : wah_op) (a : asm) : asm :=
  match a_open a with
  | Some rs =>
      if (may_split op && (WAH_METER_MAX_CHUNK_COST <=? zlen rs)) || (is_else op && (0 <? zlen rs)) then end_chunk a else a
  | None => a
  end.
Definition plain_instr (ii : Z) (op : wah_op) (di : wah_decoded_instr_t) (a : asm) : option asm :=
  let a := start_chunk a in
  cls ← zget wah_opclasses (di_opcode di);
  p ← imm_code ii cls op di a; let '(ps, a) := p in
  let ps := poll_code di ++ ps ++ (if wah_opcode_is_resumable_bulk (di_opcode di) then [P32 (di_ref_map di)] else []) in
  Some (split_after op (record ps (di_ref_map di) a)).

(** *** Blocks *)

(** Whether there is a try_table before the end of the block the code is in. *)
Fixpoint try_inside (depth : nat) (instrs : list wah_decoded_instr_t) : bool :=
  match instrs with
  | [] => false
  | di :: instrs' =>
      if instr_is di WAH_OP_TRY_TABLE then true
      else if instr_is di WAH_OP_BLOCK || instr_is di WAH_OP_LOOP || instr_is di WAH_OP_IF then try_inside (S depth) instrs'
      else if instr_is di WAH_OP_END then match depth with O => false | S d => try_inside d instrs' end
      else try_inside depth instrs'
  end.

Definition block_instr (ii : Z) (op : wah_op) (di : wah_decoded_instr_t) (a : asm) : option asm :=
  p ← the_block (di_imm di); let '(ti, single) := p in
  push_frame ii op ti single (start_chunk (emit (poll_code di) a)) ≫= fun a => Some (record [] (di_ref_map di) a).
Definition loop_instr (ii : Z) (op : wah_op) (di : wah_decoded_instr_t) (rest : list wah_decoded_instr_t) (a : asm) : option asm :=
  p ← the_block (di_imm di); let '(ti, single) := p in
  let a := if polls ac di then end_chunk a else a in
  let pos := asm_size a in
  a ← push_frame ii op ti single (start_chunk (emit (PL (LLoop ii) :: poll_code di) a));
  a ← map_label pos ti single true a;
  Some (record (if try_inside 0 rest then trim_code (a_try a) else []) (di_ref_map di) a).

Fixpoint catch_code (cs : list wah_catch_imm) (a : asm) : option (list piece * asm) :=
  match cs with
  | [] => Some ([], a)
  | c :: cs' =>
      p ← branch_to (ct_target_symbol c) a; let '(l, a) := p in
      p ← catch_code cs' a; let '(ps, a) := p in
      Some (PB [u8 (ct_kind c)] :: P32 (ct_tag_idx c) :: PT l :: P32 (ct_drop c) :: ps, a)
  end.
Definition try_instr (ii : Z) (di : wah_decoded_instr_t) (a : asm) : option asm :=
  match di_imm di with
  | imm_try_table ti single catches =>
      p ← catch_code catches (start_chunk (emit (poll_code di) a)); let '(ps, a) := p in
      a ← push_frame ii WAH_OP_TRY_TABLE ti single a;
      Some (record (P16 (wah_op_value WAH_OP_TRY_TABLE) :: P32 (zlen catches) :: ps) (di_ref_map di) (set_try (u32 (a_try a + 1)) a))
  | _ => None
  end.

(** The end of a block, at which a chunk starts if there are branches to it. *)
Definition is_target (f : aframe) (a : asm) : bool := bool_decide (LEnd (af_id f) ∈ targets (a_code a)) || is_if (af_op f).
Definition place_end (f : aframe) (a : asm) : asm :=
  emit ((if is_if (af_op f) then [PL (LElse (af_id f))] else []) ++ [PL (LEnd (af_id f))]) a.
Definition end_block (f : aframe) (fs : list aframe) (di : wah_decoded_instr_t) (next_map : option Z) (a : asm) : option asm :=
  let target := is_target f a in
  let a := start_chunk a in
  let a := if is_try_table (af_op f)
           then record [P16 (iop_value WAH_IOP_END_TRY_TABLE)] (di_ref_map di) (set_try (u32 (a_try a - 1)) a)
           else record [] (di_ref_map di) a in
  let a := if metered && target then end_chunk a else a in
  let pos := asm_size a in
  let a := set_frames fs (place_end f a) in
  let a := if metered && target then start_chunk a else a in
  if is_loop (af_op f) then Some a
  else
    a ← map_label pos (af_type_idx f) (af_single f) false a;
    if af_trim f then map ← next_map; Some (record (trim_code (af_try f)) map a) else Some a.

Definition end_func (di : wah_decoded_instr_t) (a : asm) : asm :=
  end_chunk (record [P16 (wah_op_value WAH_OP_END)] (di_ref_map di) (emit [PL LReturn] (start_chunk a))).

(** *** The whole *)

Definition asm_instr (ii : Z) (di : wah_decoded_instr_t) (rest : list wah_decoded_instr_t) (a : asm) : option asm :=
  op ← wah_opcode_of (di_opcode di);
  match op with
  | WAH_OP_BLOCK => block_instr ii op di a
  | WAH_OP_LOOP => loop_instr ii op di rest a
  | WAH_OP_TRY_TABLE => try_instr ii di a
  | WAH_OP_END =>
      match a_frames a with
      | f :: fs => end_block f fs di (di_ref_map <$> head rest) a
      | [] => match rest with [] => Some (end_func di a) | _ :: _ => None end
      end
  | _ => plain_instr ii op di a
  end.
Fixpoint asm_instrs (ii : Z) (instrs : list wah_decoded_instr_t) (a : asm) : option asm :=
  match instrs with
  | [] => Some a
  | di :: rest => a ← asm_instr ii di rest a; asm_instrs (ii + 1) rest a
  end.

(** The copy of a chunk, with a TICK before each instruction, and the jump to the code
    after the chunk unless its last instruction leaves. *)
Definition tick_code (r : slow_instr) : list piece := P16 (iop_value WAH_IOP_TICK) :: P32 (si_map r) :: si_code r.
Definition continues (r : slow_instr) : bool :=
  match si_code r with PB (b0 :: b1 :: _) :: _ => falls_through (b0 + 256 * b1) | _ => true end.
Definition island_code (n : Z) (rs : list slow_instr) : list piece :=
  PL (LSlow n) :: (rs ≫= tick_code) ++
  match last rs with
  | Some r => if continues r then [P16 (wah_op_value WAH_OP_ELSE); PT (LNext n)] else []
  | None => []
  end.
Fixpoint islands (n : Z) (chunks : list (list slow_instr)) : list piece :=
  match chunks with [] => [] | rs :: chunks' => island_code n rs ++ islands (n + 1) chunks' end.

(** The costs of the chunks. *)
Definition chunk_cost (chunks : list (list slow_instr)) (n : Z) : Z := default 0 (zlen <$> zget chunks n).
(** All of the code, and its bytes. *)
Definition asm_code (a : asm) : list piece := a_code a ++ islands 0 (a_chunks a).
Definition asm_bytes (a : asm) : list Z := assemble (layout (asm_code a)) (chunk_cost (a_chunks a)) (asm_code a).

(** The stack maps as they are stored. *)
Fixpoint encode_maps (start : Z) (maps : list (Z * list wah_type_t)) : list wah_stack_map_t :=
  match maps with
  | [] => []
  | (off, ts) :: maps' => StackMap off (zlen ts) start :: encode_maps (start + zlen ts) maps'
  end.
Definition lowered_code (poll_ref_tops : list Z) (ref_nodes : list wah_ref_node_t) : option wah_parsed_code_t :=
  a ← asm_instrs 0 (ac_instrs ac) asm_start;
  if bool_decide (a_frames a = []) && bool_decide (LReturn ∈ placed (a_code a)) then
    Some (ParsedCode (asm_bytes a) poll_ref_tops ref_nodes (encode_maps 0 (a_maps a)) (a_maps a ≫= snd))
  else None.
End Spec.
