(* ===== verification/LowerInv.v ===== *)
(** * Lowering as placing labels

    The relation between the state of the lowering and symbolic code, and that the
    macros of [wah_lower_analyzed_code] keep it: the buffer is the code assembled with
    the labels placed so far, and the patches of a frame are the places that refer to
    its end. *)

From S2P Require Import Prelude Base Alloc Types Opcodes Bytes Decode Subtype ModuleEnv Operands Validate Analyze Lowering Assembly LowerSpec.
From stdpp Require Import list sets.
#[local] Open Scope Z_scope.
#[local] Open Scope wah_scope.

(** ** Definitions *)

Definition vec_ok {A} (v : vec A) : Prop := cap_ok (vec_cap v) /\ vec_size v <= vec_cap v.

(** The labels that may be in the code: [K] tells those of blocks, [n] is the number of
    closed chunks and [m] that of chunks. *)
Definition place_ok (K : label -> Prop) (n : Z) (l : label) : Prop :=
  match l with LSlow _ => False | LNext c => 0 <= c < n | _ => K l end.
Definition target_ok (K : label -> Prop) (m : Z) (l : label) : Prop :=
  match l with LSlow c => 0 <= c < m | LNext _ => False | LReturn => True | _ => K l end.
Definition chunk_count (a : asm) : Z := zlen (a_chunks a) + match a_open a with Some _ => 1 | None => 0 end.

(** Labels of an open block. *)
Definition frame_label (f : aframe) (l : label) : Prop :=
  l = LEnd (af_id f) \/ is_if (af_op f) = true /\ l = LElse (af_id f).
Definition frame_ok (K : label -> Prop) (code : list piece) (f : aframe) : Prop :=
  (forall l, frame_label f l -> K l /\ l ∉ placed code) /\
  (af_trim f = true -> is_loop (af_op f) = false -> LEnd (af_id f) ∈ targets code).
(** A label that is placed, or will be. *)
Definition settled (fs : list aframe) (code : list piece) (l : label) : Prop :=
  l ∈ placed code \/ l = LReturn \/ (exists c, l = LSlow c) \/ Exists (fun f => frame_label f l) fs.

(** The code of the chunks that are closed. *)
Definition closed_code (a : asm) : list piece := match a_open a with Some _ => a_base a | None => a_code a end.

Record asm_ok (K : label -> Prop) (a : asm) : Prop := AsmOk {
  ao_placed : forall l, l ∈ placed (a_code a) -> place_ok K (zlen (a_chunks a)) l;
  ao_targets : forall l, l ∈ targets (a_code a) -> target_ok K (chunk_count a) l;
  ao_costs : forall c, c ∈ costs (a_code a) -> 0 <= c < chunk_count a;
  ao_nodup : NoDup (placed (a_code a));
  ao_settled : forall l, l ∈ targets (a_code a) -> settled (a_frames a) (a_code a) l;
  ao_frames : Forall (frame_ok K (a_code a)) (a_frames a);
  ao_ids : NoDup (af_id <$> a_frames a);
  ao_open : forall rs, a_open a = Some rs -> zlen rs <= UINT16_MAX /\
    (forall c, c ∈ costs (a_base a) -> c < zlen (a_chunks a)) /\
    (forall c, LSlow c ∈ targets (a_base a) -> c < zlen (a_chunks a)) /\
    exists tl, a_tail a = meter_code (zlen (a_chunks a)) ++ tl /\ costs tl = [] /\ forall c, LSlow c ∉ targets tl }.

(** An instruction in the code, with its offset and length in bytes. *)
Definition occurs (code : list piece) (off len : Z) (ps : list piece) : Prop :=
  exists pre post, strip code = pre ++ ps ++ post /\ code_size pre = off /\ code_size ps = len.
Definition record_rel (code : list piece) (mr : wah_meter_instr_record_t) (r : slow_instr) : Prop :=
  mr_ref_map mr = si_map r /\ occurs code (mr_fast_offset mr) (mr_byte_length mr) (si_code r).
(** The code of an instruction: its opcode first, and branches to blocks. *)
Definition instr_code (ps : list piece) : Prop :=
  costs ps = [] /\ (forall l, l ∈ targets ps -> match l with LSlow _ | LNext _ => False | _ => True end) /\
  (strip ps = [] \/ exists op rest, strip ps = P16 op :: rest).

Record frame_rel (code : list piece) (f : wah_lower_cf_t) (af : aframe) : Prop := FrameRel {
  fr_op : lf_opcode f = af_op af;
  fr_try : lf_try_depth f = af_try af;
  fr_trim : lf_needs_trim f = af_trim af;
  fr_type : lf_type_idx f = af_type_idx af;
  fr_single : lf_single f = af_single af;
  fr_vec : vec_ok (lf_patch_offsets f);
  fr_patches : vec_list (lf_patch_offsets f) = holes (LEnd (af_id af)) 0 code;
  fr_loop : is_loop (af_op af) = true -> address code (LLoop (af_id af)) = Some (lf_continuation_offset f);
  fr_if : is_if (af_op af) = true -> holes (LElse (af_id af)) 0 code = [lf_if_false_patch f] }.

(** The [i]-th closed chunk; [closed] is the code of closed chunks. *)
Record chunk_rel (code closed : list piece) (chunks : list (list slow_instr)) (i : nat) (mc : wah_meter_chunk_t) : Prop := ChunkRel {
  cr_meter : holes (LSlow (Z.of_nat i)) 0 code = [mc_meter_offset mc + 4];
  cr_next : address closed (LNext (Z.of_nat i)) = Some (mc_next_fast_offset mc);
  cr_start : mc_record_start mc = zlen (concat (take i chunks));
  cr_count : exists rs, chunks !! i = Some rs /\ mc_record_count mc = zlen rs /\ rs <> [] }.

Record meter_rel (m : lmeter) (a : asm) : Prop := MeterRel {
  mt_new : me_need_new m = match a_open a with None => true | Some _ => false end;
  mt_cost : me_cost m = match a_open a with None => 0 | Some rs => zlen rs end;
  mt_chunks_ok : vec_ok (me_chunks m);
  mt_records_ok : vec_ok (me_records m);
  mt_length : length (vec_list (me_chunks m)) = length (a_chunks a);
  mt_chunks : forall i mc, vec_list (me_chunks m) !! i = Some mc -> chunk_rel (a_code a) (closed_code a) (a_chunks a) i mc;
  mt_records : exists R1 R2, vec_list (me_records m) = R1 ++ R2 /\
    Forall2 (record_rel (closed_code a)) R1 (concat (a_chunks a)) /\
    Forall2 (record_rel (a_code a)) R2 (default [] (a_open a));
  mt_instrs : Forall (fun r => instr_code (si_code r) /\ placed (si_code r) = []) (concat (a_chunks a) ++ default [] (a_open a));
  mt_open : a_open a <> None -> mc_meter_offset (me_chunk m) = code_size (a_base a) /\
    mc_record_start (me_chunk m) = zlen (concat (a_chunks a)) /\ vec_size (me_chunks m) + 1 <= vec_cap (me_chunks m) }.

(** A chunk that is empty at the end of an instruction. *)
Definition at_boundary (a : asm) : Prop := a_open a = Some [] -> a_tail a = meter_code (zlen (a_chunks a)).

Section Rel.
Context (M : wah_module_env) (ac : wah_analyzed_code_t).
Notation metered := (emit_meter M ac).

Definition metering_rel (m : lmeter) (a : asm) : Prop :=
  if metered then meter_rel m a
  else a_open a = None /\ a_chunks a = [] /\ me_need_new m = false /\ vec_list (me_chunks m) = [].

Record synced (s : lstate) (a : asm) : Prop := Synced {
  sy_buf : vec_list (l_buf s) = assemble (layout (a_code a)) (chunk_cost (a_chunks a)) (a_code a);
  sy_buf_ok : vec_ok (l_buf s);
  sy_frames : Forall2 (frame_rel (a_code a)) (l_frames s) (a_frames a);
  sy_try : l_try_depth s = a_try a;
  sy_ends : vec_list (l_end_patches s) = holes LReturn 0 (a_code a);
  sy_ends_ok : vec_ok (l_end_patches s);
  sy_meter : metering_rel (l_meter s) a;
  sy_maps : vec_list (l_maps s) = encode_maps 0 (a_maps a);
  sy_maps_ok : vec_ok (l_maps s);
  sy_types : vec_list (l_map_types s) = a_maps a ≫= snd;
  sy_types_ok : vec_ok (l_map_types s) }.
Definition lowered (K : label -> Prop) (s : lstate) (a : asm) : Prop := asm_ok K a /\ synced s a.
End Rel.

(** ** Running the lowering *)

Section Run.
Implicit Types (s : lstate).

Lemma vec_size_nonneg {A} (v : vec A) : 0 <= vec_size v.
Proof. apply zlen_nonneg. Qed.
Lemma vec_ok_bound {A} (v : vec A) : vec_ok v -> 0 <= vec_size v <= 2 ^ 31.
Proof. intros [H1 H2]. pose proof (cap_ok_range _ H1). pose proof (vec_size_nonneg v). lia. Qed.
Lemma vec_ok_nil {A} : vec_ok (@Vec A [] 0).
Proof. split; [by left|done]. Qed.

Lemma wp_vec_ensure {A} n k (v : vec A) (Q : vec A -> answers -> Prop) ans : vec_ok v ->
  (forall c ans', n <= c -> vec_cap v <= c -> cap_ok c -> Q (Vec (vec_list v) c) ans') -> wp (vec_ensure n k v) Q ans.
Proof.
  intros [Hc Hs] HQ. apply wp_bind. pose proof (cap_ok_range _ Hc). destruct (Z.leb_spec n (vec_cap v)) as [Hn|Hn].
  - unfold wah_grow_array. rewrite (proj2 (Z.leb_le _ _)) by lia. by apply wp_ret, HQ.
  - pose proof (wah_grow_array_cap n k (vec_cap v) ans Hc ltac:(lia)) as H'.
    unfold wp. destruct (wah_grow_array n k (vec_cap v) ans) as [[c|e|] ans']; [|done|done].
    destruct H' as (? & ? & ?). by apply HQ.
Qed.

Lemma wp_vec_push {A} k (x : A) (v : vec A) (Q : vec A -> answers -> Prop) ans : vec_ok v ->
  (forall v' ans', vec_ok v' -> vec_list v' = vec_list v ++ [x] -> Q v' ans') -> wp (vec_push k x v) Q ans.
Proof.
  intros Hv HQ. pose proof (vec_ok_bound v Hv). apply wp_bind. rewrite u32_small by lia.
  apply wp_vec_ensure; [done|]. intros c ans' Hc _ Hok. apply HQ; [|done]. split; [done|].
  unfold vec_size in *. simpl. rewrite zlen_app. exact Hc.
Qed.

Lemma wp_on_l_answers {A} (m : comp answers A) (Q : A -> lstate -> Prop) s :
  wp m (fun x ans => Q x (LState ans (l_buf s) (l_maps s) (l_map_types s) (l_frames s) (l_try_depth s) (l_end_patches s) (l_meter s)))
    (l_ans s) -> wp (on_l_answers m) Q s.
Proof. unfold wp, on_l_answers. by destruct (m (l_ans s)) as [[x|e|] ans]. Qed.

Lemma wp_modify f (Q : unit -> lstate -> Prop) s : Q tt (f s) -> wp (modify f) Q s.
Proof. done. Qed.
Lemma wp_get_size (Q : Z -> lstate -> Prop) s : Q (buf_size s) s -> wp get_size Q s.
Proof. done. Qed.
Lemma wp_skip (Q : unit -> lstate -> Prop) s : Q tt s -> wp skip Q s.
Proof. done. Qed.
Lemma wp_when b m (Q : unit -> lstate -> Prop) s : (b = true -> wp m Q s) -> (b = false -> Q tt s) -> wp (when b m) Q s.
Proof. destruct b; intros H1 H2; [by apply H1|by apply H2]. Qed.
End Run.

(** ** Appending code *)

Lemma occurs_app code qs off len ps : occurs code off len ps -> occurs (code ++ qs) off len ps.
Proof.
  intros (pre & post & E & H). exists pre, (post ++ strip qs). split; [|done].
  by rewrite strip_app, E, <- !app_assoc.
Qed.
Lemma record_rel_app code qs mr r : record_rel code mr r -> record_rel (code ++ qs) mr r.
Proof. intros [? ?]. split; [done|by apply occurs_app]. Qed.
Lemma frame_rel_app code qs f af : frame_rel code f af -> LEnd (af_id af) ∉ targets qs -> LElse (af_id af) ∉ targets qs ->
  frame_rel (code ++ qs) f af.
Proof.
  intros [] H1 H2. constructor; try done.
  - by rewrite holes_app, (holes_nil (LEnd _) _ qs), app_nil_r.
  - intros H. by apply address_app_Some, fr_loop0.
  - intros H. rewrite holes_app, (holes_nil (LElse _) _ qs), app_nil_r by done. by apply fr_if0.
Qed.
Lemma chunk_rel_app code closed chunks i mc qs qs' : chunk_rel code closed chunks i mc -> LSlow (Z.of_nat i) ∉ targets qs ->
  chunk_rel (code ++ qs) (closed ++ qs') chunks i mc.
Proof.
  intros [] H. constructor; try done.
  - by rewrite holes_app, (holes_nil _ _ qs), app_nil_r.
  - by apply address_app_Some.
Qed.

Lemma a_code_emit qs a : a_code (emit qs a) = a_code a ++ qs.
Proof. unfold a_code. simpl. by rewrite app_assoc. Qed.
Lemma emit_nil a : emit [] a = a.
Proof. destruct a. unfold emit. simpl. by rewrite app_nil_r. Qed.
Lemma emit_emit ps qs a : emit qs (emit ps a) = emit (ps ++ qs) a.
Proof. unfold emit. simpl. by rewrite app_assoc. Qed.
Lemma closed_code_emit qs a : exists qs', closed_code (emit qs a) = closed_code a ++ qs'.
Proof.
  unfold closed_code. rewrite a_code_emit. simpl.
  destruct (a_open a); [exists []; by rewrite app_nil_r|by exists qs].
Qed.

Lemma meter_rel_emit m a qs fs : meter_rel m a -> (forall c, LSlow c ∉ targets qs) -> meter_rel m (set_frames fs (emit qs a)).
Proof.
  intros [] Hs. destruct (closed_code_emit qs a) as [qs' Ec].
  change (a_code (set_frames fs (emit qs a))) with (a_code (emit qs a)) in *.
  constructor; try done.
  - intros i mc Hi. change (closed_code (set_frames _ _)) with (closed_code (emit qs a)).
    change (a_code (set_frames fs (emit qs a))) with (a_code (emit qs a)).
    rewrite Ec, a_code_emit. apply chunk_rel_app; [by apply mt_chunks0|apply Hs].
  - destruct mt_records0 as (R1 & R2 & E & H1 & H2). exists R1, R2. split_and!; [done| |].
    + change (closed_code (set_frames _ _)) with (closed_code (emit qs a)). rewrite Ec.
      eapply Forall2_impl; [done|]. intros; by apply record_rel_app.
    + change (a_code (set_frames fs (emit qs a))) with (a_code (emit qs a)). rewrite a_code_emit.
      eapply Forall2_impl; [done|]. intros; by apply record_rel_app.
Qed.

(** Frames that differ only in the branches that left a try_table in the code [qs]. *)
Definition marked_by (qs : list piece) (f f' : aframe) : Prop :=
  af_id f' = af_id f /\ af_op f' = af_op f /\
  (af_trim f' = true -> af_trim f = true \/ is_loop (af_op f) = true \/ LEnd (af_id f) ∈ targets qs).
(** The targets of code that is not a METER. *)
Definition branch_ok (K : label -> Prop) (l : label) : Prop :=
  match l with LSlow _ | LNext _ => False | LReturn => True | _ => K l end.

#[local] Instance marked_reflexive qs : Reflexive (marked_by qs).
Proof. intros f. split_and!; auto. Qed.
Lemma marked_refl qs fs : Forall2 (marked_by qs) fs fs.
Proof. apply (reflexivity (R:=Forall2 _)). Qed.
Lemma marked_ids qs fs fs' : Forall2 (marked_by qs) fs fs' -> af_id <$> fs' = af_id <$> fs.
Proof. induction 1 as [|f f' fs fs' (E & _) _ IH]; [done|]. rewrite !fmap_cons. by f_equal. Qed.
Lemma marked_label qs f f' l : marked_by qs f f' -> frame_label f l <-> frame_label f' l.
Proof. intros (E1 & E2 & _). unfold frame_label. by rewrite E1, E2. Qed.
Lemma marked_settled qs fs fs' code l : Forall2 (marked_by qs) fs fs' -> settled fs code l -> settled fs' code l.
Proof.
  intros H [Hl|[Hl|[Hl|Hl]]]; [by left|by right; left|by right; right; left|right; right; right].
  induction H as [|f f' fs fs' Hf _ IH]; [by inversion Hl|]. inversion Hl; subst; [left|right; by apply IH].
  by rewrite <- (marked_label qs f f').
Qed.
Lemma settled_app fs code qs l : settled fs code l -> settled fs (code ++ qs) l.
Proof. unfold settled. rewrite placed_app, elem_of_app. naive_solver. Qed.

Lemma asm_ok_emit K a qs fs : asm_ok K a -> placed qs = [] -> costs qs = [] ->
  (forall l, l ∈ targets qs -> branch_ok K l /\ settled fs (a_code a) l) ->
  Forall2 (marked_by qs) (a_frames a) fs -> asm_ok K (set_frames fs (emit qs a)).
Proof.
  intros [] Hp Hc Ht Hf. constructor; try (change (a_code (set_frames fs (emit qs a))) with (a_code (emit qs a)));
    rewrite ?a_code_emit, ?placed_app, ?targets_app, ?costs_app, ?Hp, ?Hc, ?app_nil_r; try done; simpl.
  - intros l [Hl|Hl]%elem_of_app; [by apply ao_targets0|]. apply Ht in Hl as [Hl _]. by destruct l.
  - intros l [Hl|Hl]%elem_of_app; apply settled_app; [|by apply Ht].
    eapply marked_settled; [done|]. by apply ao_settled0.
  - eapply Forall2_Forall_r; [done|]. eapply Forall_impl; [done|]. intros f [Hl Htr] f' Hm. split.
    + intros l Hfl%(marked_label qs f f'); [|done]. rewrite placed_app, Hp, app_nil_r. by apply Hl.
    + destruct Hm as (-> & -> & Hm). intros [H|[H|H]]%Hm Hlo; rewrite targets_app, elem_of_app; [left; by apply Htr|congruence|by right].
  - by rewrite (marked_ids qs (a_frames a)).
  - intros rs Hrs. destruct (ao_open0 rs Hrs) as (H1 & H2 & H3 & tl & E & H4 & H5). split_and!; try done.
    exists (tl ++ qs). rewrite E, costs_app, H4, Hc, <- app_assoc. split_and!; try done.
    intros c. rewrite targets_app. intros [H|H]%elem_of_app; [by eapply H5|by apply Ht in H as [H _]].
Qed.

(** ** Branches *)

Lemma wp_frame i cf (Q : wah_lower_cf_t -> lstate -> Prop) s : zget (l_frames s) i = Some cf -> Q cf s -> wp (frame i) Q s.
Proof. intros Hi HQ. apply wp_bind, wp_get. by eapply wp_opt. Qed.
Lemma wp_update_frame i f cf l (Q : unit -> lstate -> Prop) s :
  zget (l_frames s) i = Some cf -> zset (l_frames s) i (f cf) = Some l -> Q tt (l_set_frames l s) -> wp (update_frame i f) Q s.
Proof. intros Hi Hl HQ. apply wp_bind, wp_get, wp_bind. eapply wp_opt; [done|]. apply wp_bind. eapply wp_opt; [done|]. done. Qed.

Lemma zset_inv {A} (l l' : list A) i x : zset l i x = Some l' -> 0 <= i < zlen l /\ l' = <[Z.to_nat i := x]> l.
Proof. unfold zset, zlen. case_bools; [done|]. intros [= <-]. split; [lia|done]. Qed.
Lemma zset_twice {A} (l l1 : list A) i x y : zset l i x = Some l1 -> zset l1 i y = Some (<[Z.to_nat i := y]> l).
Proof.
  intros [Hi ->]%zset_inv. rewrite zset_Some by (unfold zlen in *; rewrite length_insert; lia). by rewrite list_insert_insert_eq.
Qed.
Lemma Forall2_zget {A B} (P : A -> B -> Prop) l k i y : Forall2 P l k -> zget k i = Some y -> exists x, zget l i = Some x /\ P x y.
Proof.
  intros H Hi. unfold zget in *. destruct (i <? 0); [done|]. by eapply Forall2_lookup_r.
Qed.
Lemma Forall2_zlen {A B} (P : A -> B -> Prop) l k : Forall2 P l k -> zlen l = zlen k.
Proof. intros H. unfold zlen. by rewrite (Forall2_length _ _ _ H). Qed.

Lemma frame_rel_mark code cf f cur : frame_rel code cf f ->
  frame_rel code (if lf_try_depth cf <? cur then lf_set_trim cf else cf) (mark cur f).
Proof.
  intros []. rewrite fr_try0. destruct (af_try f <? cur) eqn:E; constructor; simpl; try done.
  - by rewrite E, orb_true_r.
  - by rewrite fr_trim0, E, orb_false_r.
Qed.

Lemma frames_branch code fs afs i cf f l : Forall2 (frame_rel code) fs afs -> NoDup (af_id <$> afs) ->
  zget afs i = Some f -> l = end_label f -> forall f', frame_rel (code ++ [PT l]) cf f' ->
  Forall2 (frame_rel (code ++ [PT l])) (<[Z.to_nat i := cf]> fs) (<[Z.to_nat i := f']> afs).
Proof.
  intros Hf Hn Hi -> f' Hcf. apply zget_Some in Hi as [Hir Hi]. apply Forall2_lookup. intros j.
  pose proof (proj1 (Forall2_lookup _ _ _) Hf) as Hl. pose proof (Forall2_length _ _ _ Hf) as Hlen.
  destruct (decide (Z.to_nat i = j)) as [<-|Hne].
  - apply lookup_lt_Some in Hi as Hlt. rewrite !list_lookup_insert_eq by lia. by constructor.
  - rewrite !list_lookup_insert_ne by done. specialize (Hl j). inversion Hl as [x y Hxy Ex Ey|Ex Ey]; constructor.
    apply frame_rel_app; [done| |].
    + unfold end_label. destruct (is_loop (af_op f)); simpl; [set_solver|]. intros H. assert (E : af_id y = af_id f) by set_solver.
      apply Hne. eapply (NoDup_lookup (af_id <$> afs)); [done| |]; rewrite list_lookup_fmap; [by rewrite Hi|by rewrite <- Ey; simpl; f_equal].
    + unfold end_label. destruct (is_loop (af_op f)); simpl; set_solver.
Qed.

Lemma settled_frame fs code f l : f ∈ fs -> frame_label f l -> settled fs code l.
Proof. intros Hf Hl. right; right; right. apply Exists_exists. by exists f. Qed.

Lemma branch_to_inv depth a l a' : branch_to depth a = Some (l, a') ->
  depth = zlen (a_frames a) /\ l = LReturn /\ a' = a \/
  exists f, zget (a_frames a) depth = Some f /\ 0 <= depth < zlen (a_frames a) /\ l = end_label f /\
    a' = set_frames (<[Z.to_nat depth := mark (a_try a) f]> (a_frames a)) a.
Proof.
  unfold branch_to. destruct (Z.eqb_spec depth (zlen (a_frames a))); [intros [= <- <-]; by left|].
  destruct (zget (a_frames a) depth) as [f|] eqn:Hf; [|done]. simpl. apply zget_Some in Hf as Hr. destruct Hr as [Hr _].
  rewrite zset_Some by done. intros [= <- <-]. right. by exists f.
Qed.

Lemma branch_settled K a depth l a' : asm_ok K a -> branch_to depth a = Some (l, a') ->
  (forall f, f ∈ a_frames a -> is_loop (af_op f) = true -> LLoop (af_id f) ∈ placed (a_code a)) ->
  branch_ok K l /\ settled (a_frames a') (a_code a) l.
Proof.
  intros Ha [(-> & -> & ->)|(f & Hf & Hr & -> & ->)]%branch_to_inv Hp; [by split; [|right; left]|].
  apply zget_Some in Hf as [_ Hf].
  assert (Hin : f ∈ a_frames a) by (by eapply list_elem_of_lookup_2). unfold end_label.
  destruct (is_loop (af_op f)) eqn:El.
  - specialize (Hp f Hin El). split; [apply (ao_placed K a Ha _ Hp)|by left].
  - pose proof (proj1 (Forall_forall _ _) (ao_frames K a Ha) f Hin) as [Hl _].
    split; [apply (Hl (LEnd (af_id f))); by left|]. eapply (settled_frame _ _ (mark (a_try a) f)); [|by left].
    apply list_elem_of_insert. unfold zlen in Hr. lia.
Qed.

Lemma branch_marked a depth l a' : branch_to depth a = Some (l, a') ->
  exists fs, a' = set_frames fs a /\ Forall2 (marked_by [PT l]) (a_frames a) fs.
Proof.
  intros [(-> & -> & ->)|(f & Hf & Hr & -> & ->)]%branch_to_inv.
  - exists (a_frames a). split; [by destruct a|apply marked_refl].
  - eexists. split; [done|]. apply zget_Some in Hf as [_ Hf].
    rewrite <- (list_insert_id (a_frames a) (Z.to_nat depth) f) at 1 by done.
    apply Forall2_insert; [apply marked_refl|]. split_and!; [done|done|]. simpl. intros _. right.
    unfold end_label. destruct (is_loop (af_op f)); [by left|right; set_solver].
Qed.

Section Append.
Context (M : wah_module_env) (ac : wah_analyzed_code_t).
Notation synced := (synced M ac).
Notation lowered := (lowered M ac).

Lemma synced_emit s a qs fs fs' b e ans : synced s a -> placed qs = [] -> (forall c, LSlow c ∉ targets qs) ->
  vec_ok b -> vec_list b = vec_list (l_buf s) ++ assemble (layout (a_code a)) (chunk_cost (a_chunks a)) qs ->
  Forall2 (frame_rel (a_code a ++ qs)) fs fs' -> vec_list e = holes LReturn 0 (a_code a ++ qs) -> vec_ok e ->
  synced (LState ans b (l_maps s) (l_map_types s) fs (l_try_depth s) e (l_meter s)) (set_frames fs' (emit qs a)).
Proof.
  intros [] Hp Hs Hb Eb Hf He Hv. constructor; try done; change (a_code (set_frames _ (emit qs a))) with (a_code (emit qs a));
    rewrite ?a_code_emit; try done; simpl.
  - rewrite Eb, assemble_snoc by done. by rewrite sy_buf0.
  - unfold metering_rel in *. destruct (emit_meter M ac); [by apply meter_rel_emit|done].
Qed.

(** Bytes are written at the end of the buffer. *)
Lemma wp_put_raw n bs (Q : unit -> lstate -> Prop) s : vec_ok (l_buf s) -> n = buf_size s + zlen bs ->
  (forall b ans, vec_ok b -> vec_list b = vec_list (l_buf s) ++ bs ->
    Q tt (LState ans b (l_maps s) (l_map_types s) (l_frames s) (l_try_depth s) (l_end_patches s) (l_meter s))) ->
  wp (lower_ensure n ;;; lower_append bs) Q s.
Proof.
  intros Hs -> HQ. pose proof (vec_ok_bound _ Hs). unfold buf_size in *. pose proof (zlen_nonneg bs).
  apply wp_bind, wp_bind, wp_get, wp_bind, wp_on_l_answers. apply wp_vec_ensure; [done|]. intros c ans Hc _ Hcap.
  apply wp_modify. apply wp_bind, wp_get. unfold buf_size, vec_size in *. simpl. rewrite (proj2 (Z.leb_le _ _)) by lia.
  apply wp_modify, HQ; [|done]. split; [done|]. unfold vec_size. simpl. rewrite zlen_app. lia.
Qed.
Lemma wp_u32_raw v (Q : unit -> lstate -> Prop) s : vec_ok (l_buf s) ->
  (forall b ans, vec_ok b -> vec_list b = vec_list (l_buf s) ++ le_bytes 4 v ->
    Q tt (LState ans b (l_maps s) (l_map_types s) (l_frames s) (l_try_depth s) (l_end_patches s) (l_meter s))) ->
  wp (WAH_LOWER_U32 v) Q s.
Proof. intros Hs HQ. apply wp_bind, wp_get_size. by apply wp_put_raw. Qed.
Lemma wp_u16_raw v (Q : unit -> lstate -> Prop) s : vec_ok (l_buf s) ->
  (forall b ans, vec_ok b -> vec_list b = vec_list (l_buf s) ++ le_bytes 2 v ->
    Q tt (LState ans b (l_maps s) (l_map_types s) (l_frames s) (l_try_depth s) (l_end_patches s) (l_meter s))) ->
  wp (WAH_LOWER_U16 v) Q s.
Proof. intros Hs HQ. apply wp_bind, wp_get_size. by apply wp_put_raw. Qed.

Lemma lowered_put K s a b ans bs : lowered K s a -> vec_ok b -> vec_list b = vec_list (l_buf s) ++ bs ->
  lowered K (LState ans b (l_maps s) (l_map_types s) (l_frames s) (l_try_depth s) (l_end_patches s) (l_meter s)) (emit [PB bs] a).
Proof.
  intros [Ha Hs] Hb Eb. pose proof (marked_refl [PB bs] (a_frames a)) as Hm. split.
  - apply (asm_ok_emit K a [PB bs] (a_frames a)); [done|done|done|set_solver|done].
  - apply (synced_emit s a [PB bs] (l_frames s) (a_frames a)); try done.
    + set_solver.
    + rewrite Eb. simpl. by rewrite app_nil_r.
    + eapply Forall2_impl; [apply Hs|]. intros f af Hf. apply frame_rel_app; [done|set_solver..].
    + rewrite holes_app, (holes_nil _ _ [PB bs]), app_nil_r by set_solver. apply Hs.
    + apply Hs.
Qed.
Lemma wp_put_bytes K n bs (Q : unit -> lstate -> Prop) s a : lowered K s a -> n = buf_size s + zlen bs ->
  (forall s', lowered K s' (emit [PB bs] a) -> Q tt s') -> wp (lower_ensure n ;;; lower_append bs) Q s.
Proof.
  intros Hl Hn HQ. apply wp_put_raw; [apply Hl|done|]. intros b ans Hb Eb. by apply HQ, lowered_put.
Qed.

Lemma wp_put_u8 K v (Q : unit -> lstate -> Prop) s a : lowered K s a ->
  (forall s', lowered K s' (emit [PB [u8 v]] a) -> Q tt s') -> wp (WAH_LOWER_U8 v) Q s.
Proof.
  intros Hl HQ. pose proof (vec_ok_bound _ (sy_buf_ok _ _ _ _ (proj2 Hl))). apply wp_bind, wp_get_size.
  eapply wp_put_bytes; [done| |done]. rewrite u32_small by (unfold buf_size; lia). done.
Qed.
Lemma wp_put_u32 K v (Q : unit -> lstate -> Prop) s a : lowered K s a ->
  (forall s', lowered K s' (emit [P32 v] a) -> Q tt s') -> wp (WAH_LOWER_U32 v) Q s.
Proof. intros Hl HQ. apply wp_bind, wp_get_size. by eapply wp_put_bytes. Qed.
Lemma wp_put_u64 K v (Q : unit -> lstate -> Prop) s a : lowered K s a ->
  (forall s', lowered K s' (emit [P64 v] a) -> Q tt s') -> wp (WAH_LOWER_U64 v) Q s.
Proof. intros Hl HQ. apply wp_bind, wp_get_size. by eapply wp_put_bytes. Qed.
Lemma wp_put_u16 K v (Q : unit -> lstate -> Prop) s a : lowered K s a ->
  (forall s', lowered K s' (emit [P16 v] a) -> Q tt s') -> wp (WAH_LOWER_U16 v) Q s.
Proof. intros Hl HQ. apply wp_bind, wp_get_size. by eapply wp_put_bytes. Qed.
Lemma wp_mem K bs (Q : unit -> lstate -> Prop) s a : lowered K s a -> zlen bs <= 2 ^ 31 - 1 ->
  (forall s', lowered K s' (emit [PB bs] a) -> Q tt s') -> wp (WAH_LOWER_MEM bs) Q s.
Proof.
  intros Hl Hb HQ. pose proof (vec_ok_bound _ (sy_buf_ok _ _ _ _ (proj2 Hl))). pose proof (zlen_nonneg bs).
  apply wp_bind, wp_get_size. eapply wp_put_bytes; [done| |done]. rewrite u32_small by (unfold buf_size; lia). done.
Qed.
(** The address of a branch is known, or is to be patched. *)
Lemma loops_placed s a : synced s a -> forall f, f ∈ a_frames a -> is_loop (af_op f) = true -> LLoop (af_id f) ∈ placed (a_code a).
Proof.
  intros Hs f (j & Hj)%list_elem_of_lookup_1 Hl. destruct (Forall2_lookup_r _ _ _ _ _ (sy_frames _ _ _ _ Hs) Hj) as (cf & _ & Hcf).
  destruct (decide (LLoop (af_id f) ∈ placed (a_code a))) as [|H]; [done|].
  apply address_None in H. by rewrite (fr_loop _ _ _ Hcf Hl) in H.
Qed.

Lemma emit_set_frames qs fs a : emit qs (set_frames fs a) = set_frames fs (emit qs a).
Proof. done. Qed.

Lemma wp_ref K l n ans fs e (Q : unit -> lstate -> Prop) s a fs' : lowered K s a ->
  branch_ok K l -> settled fs' (a_code a) l -> Forall2 (marked_by [PT l]) (a_frames a) fs' ->
  layout (a_code a) l = n -> Forall2 (frame_rel (a_code a ++ [PT l])) fs fs' ->
  vec_list e = holes LReturn 0 (a_code a ++ [PT l]) -> vec_ok e ->
  (forall s', lowered K s' (emit [PT l] (set_frames fs' a)) -> Q tt s') ->
  wp (WAH_LOWER_U32 n) Q (LState ans (l_buf s) (l_maps s) (l_map_types s) fs (l_try_depth s) e (l_meter s)).
Proof.
  intros [Ha Hs] Hb Hset Hm Hlay Hf He Hv HQ. apply wp_u32_raw; [apply Hs|]. intros b ans' Hvb Eb. simpl in *.
  apply HQ. rewrite emit_set_frames. split.
  - apply asm_ok_emit; try done. intros l' ->%list_elem_of_singleton. done.
  - apply (synced_emit s a [PT l] fs fs'); try done.
    + intros c'. simpl. intros Hc'%list_elem_of_singleton. subst l. done.
    + rewrite Eb. simpl. by rewrite Hlay.
Qed.

Lemma wp_trim b i cf (Q : unit -> lstate -> Prop) s : zget (l_frames s) i = Some cf ->
  Q tt (l_set_frames (<[Z.to_nat i := if b : bool then lf_set_trim cf else cf]> (l_frames s)) s) ->
  wp (if b then update_frame i lf_set_trim else skip) Q s.
Proof.
  intros Hi HQ. apply zget_Some in Hi as Hr. destruct Hr as [Hr Hn]. destruct b.
  - eapply wp_update_frame; [done|by apply zset_Some|done].
  - apply wp_skip. rewrite list_insert_id in HQ by done. by destruct s.
Qed.

Lemma wp_branch K depth l a' (Q : unit -> lstate -> Prop) s a : lowered K s a -> ~ K LReturn -> branch_to depth a = Some (l, a') ->
  (forall s', lowered K s' (emit [PT l] a') -> Q tt s') -> wp (WAH_LOWER_RESOLVE_BRANCH depth) Q s.
Proof.
  intros [Ha Hs] HK Hb HQ. pose proof (branch_settled K a depth l a' Ha Hb (loops_placed s a Hs)) as [Hbr Hset].
  destruct (branch_marked _ _ _ _ Hb) as (fs' & Ea' & Hm). pose proof (sy_frames _ _ _ _ Hs) as Hf.
  pose proof (vec_ok_bound _ (sy_buf_ok _ _ _ _ Hs)) as Hbb.
  assert (Esz : buf_size s = code_size (a_code a)) by (unfold buf_size, vec_size; rewrite (sy_buf _ _ _ _ Hs); apply assemble_size).
  apply wp_bind, wp_get. rewrite (Forall2_zlen _ _ _ Hf).
  destruct (branch_to_inv _ _ _ _ Hb) as [(-> & -> & ->)|(f & Hfz & Hr & -> & E)]; [rewrite Z.eqb_refl|rewrite (proj2 (Z.eqb_neq _ _)) by lia].
  - apply wp_bind, wp_bind, wp_get, wp_bind, wp_on_l_answers. apply wp_vec_push; [apply Hs|]. intros v ans Hv Ev. apply wp_modify.
    eapply (wp_ref K LReturn 0 ans (l_frames s) v _ s a (a_frames a)); try done.
    + rewrite layout_None; [done|]. intros H. apply HK, (ao_placed K a Ha LReturn H).
    + eapply Forall2_impl; [done|]. intros; by apply frame_rel_app; [|set_solver..].
    + rewrite Ev, Esz, (sy_ends _ _ _ _ Hs), holes_app. simpl. done.
  - subst a'. simpl in Hset. destruct (Forall2_zget _ _ _ _ _ Hf Hfz) as (cf & Hcf & Hrel).
    apply wp_bind. eapply wp_frame; [done|].
    pose proof (frame_rel_mark _ _ _ (l_try_depth s) Hrel) as Hmk. rewrite (sy_try _ _ _ _ Hs) in Hmk.
    set (cf1 := if lf_try_depth cf <? a_try a then lf_set_trim cf else cf) in *.
    assert (Hz : zset (l_frames s) depth cf1 = Some (<[Z.to_nat depth := cf1]> (l_frames s)))
      by (apply zset_Some; rewrite (Forall2_zlen _ _ _ Hf); done).
    apply wp_bind. rewrite (sy_try _ _ _ _ Hs). eapply wp_trim; [done|]. fold cf1.
    assert (Hzl : zget (<[Z.to_nat depth := cf1]> (l_frames s)) depth = Some cf1) by (by rewrite (zset_lookup _ _ _ _ _ Hz), Z.eqb_refl).
    rewrite (fr_op _ _ _ Hrel). assert (Hin : f ∈ a_frames a) by (apply zget_Some in Hfz as [_ Hj]; by eapply list_elem_of_lookup_2).
    destruct (branch_marked _ _ _ _ Hb) as (fs2 & E2 & Hm2). injection E2 as <-.
    assert (Hlen : (Z.to_nat depth < length (l_frames s))%nat) by (rewrite (Forall2_length _ _ _ Hf); unfold zlen in Hr; lia).
    assert (Hfr : forall cf', frame_rel (a_code a ++ [PT (end_label f)]) cf' (mark (a_try a) f) ->
      Forall2 (frame_rel (a_code a ++ [PT (end_label f)])) (<[Z.to_nat depth := cf']> (<[Z.to_nat depth := cf1]> (l_frames s)))
        (<[Z.to_nat depth := mark (a_try a) f]> (a_frames a))).
    { intros cf' Hcf'. rewrite list_insert_insert_eq. eapply frames_branch; [done|apply Ha|done|done|done]. }
    assert (Hnew : frame_rel (a_code a ++ [PT (end_label f)]) cf1 (mark (a_try a) f) \/ is_loop (af_op f) = false).
    { destruct (is_loop (af_op f)) eqn:El; [left|by right]. apply frame_rel_app; [done| |]; unfold end_label; rewrite El; set_solver. }
    assert (Hends : holes LReturn 0 (a_code a ++ [PT (end_label f)]) = vec_list (l_end_patches s)).
    { rewrite holes_app, (holes_nil _ _ [_]), app_nil_r; [by rewrite (sy_ends _ _ _ _ Hs)|]. unfold end_label. destruct (is_loop _); set_solver. }
    destruct (is_loop (af_op f)) eqn:El.
    + destruct Hnew as [Hnew|]; [|done].
      eapply (wp_ref K (end_label f) _ (l_ans s) _ (l_end_patches s) Q s a _); try done.
      * unfold end_label, layout. rewrite El. by rewrite (fr_loop _ _ _ Hrel El).
      * specialize (Hfr cf1 Hnew). rewrite list_insert_insert_eq in Hfr. injection E as ->. exact Hfr.
      * apply Hs.
    + apply wp_bind, wp_get_size. apply wp_bind, wp_bind. unfold buf_size. cbn [l_buf l_set_frames]. fold (buf_size s).
      eapply wp_frame; [exact Hzl|].
      apply wp_bind, wp_on_l_answers. apply wp_vec_push; [apply Hmk|]. intros v ans Hv Ev.
      eapply wp_update_frame; [exact Hzl|by eapply zset_twice|].
      eapply (wp_ref K (end_label f) _ ans _ (l_end_patches s) Q s a _); try done; [| |by apply Hs].
      * rewrite layout_None; [done|]. pose proof (proj1 (Forall_forall _ _) (ao_frames K a Ha) f Hin) as [Hl _].
        unfold end_label. rewrite El. apply Hl. by left.
      * assert (Hcf2 : frame_rel (a_code a ++ [PT (end_label f)]) (lf_set_patches v cf1) (mark (a_try a) f)).
        { destruct Hmk. constructor; simpl; try done.
          - rewrite Ev, fr_patches0, Esz, holes_app. simpl. unfold end_label. rewrite El. by rewrite bool_decide_true.
          - simpl in *. by rewrite El.
          - intros Hi. rewrite holes_app, (holes_nil _ _ [_]), app_nil_r; [by apply fr_if0|]. unfold end_label. rewrite El. set_solver. }
        specialize (Hfr _ Hcf2). rewrite list_insert_insert_eq in Hfr. injection E as ->. exact Hfr.
Qed.
End Append.
