(* ===== verification/LowerChunk.v ===== *)
(** * Lowering: chunks, labels, frames and maps

    The macros for metered chunks keep the relation of LowerInv, and so do placing the
    labels of a block, opening one and the maps of a label. *)

From S2P Require Import Prelude Base Alloc Types Opcodes Bytes Decode Subtype ModuleEnv Operands Validate Analyze Lowering Assembly LowerSpec LowerInv.
From stdpp Require Import list sets.
#[local] Open Scope Z_scope.
#[local] Open Scope wah_scope.

(** ** Definitions *)

(** The chunk takes another instruction. *)
Definition short (a : asm) : Prop := forall rs, a_open a = Some rs -> zlen rs < UINT16_MAX.

(** ** Chunks *)

Section Chunks.
Context (M : wah_module_env) (ac : wah_analyzed_code_t).
Notation synced := (synced M ac).
Notation lowered := (lowered M ac).
Notation metered := (emit_meter M ac).

Lemma asm_ok_start K a : asm_ok K a -> asm_ok K (start_chunk M ac a).
Proof.
  intros Ha. unfold start_chunk. destruct (a_open a) eqn:Eo; [done|]. destruct metered; [|done]. destruct Ha.
  pose proof (zlen_nonneg (a_chunks a)) as Hn.
  assert (Ec : forall b t f d o c m, a_code (Asm b t f d o c m) = b ++ t) by done. unfold chunk_count in *. rewrite Eo in *.
  constructor; rewrite ?Ec, ?placed_app, ?targets_app, ?costs_app; simpl.
  - rewrite app_nil_r. done.
  - intros l [Hl|Hl]%elem_of_app; [|set_unfold; destruct Hl as [->|[]]; unfold chunk_count; simpl; lia].
    apply ao_targets in Hl. unfold chunk_count. simpl. destruct l; simpl in *; try done. lia.
  - intros c [Hl|Hl]%elem_of_app; unfold chunk_count; simpl; [apply ao_costs in Hl; lia|set_unfold; destruct Hl as [->|[]]; lia].
  - by rewrite app_nil_r.
  - intros l [Hl|Hl]%elem_of_app; apply settled_app; [by apply ao_settled|].
    set_unfold. destruct Hl as [->|[]]. right; right; left. by eexists.
  - eapply Forall_impl; [done|]. intros f [H1 H2]. split.
    + intros l Hl. rewrite placed_app. simpl. rewrite app_nil_r. by apply H1.
    + intros H H'. rewrite targets_app. apply elem_of_app. left. by apply H2.
  - done.
  - intros rs [= <-]. split_and!; [done| | |].
    + intros c Hc. apply ao_costs in Hc. lia.
    + intros c Hc. apply ao_targets in Hc. simpl in Hc. lia.
    + exists []. split_and!; [done|done|set_solver].
Qed.

Lemma metering_emit m a : metered = true -> metering_rel M ac m a = meter_rel m a.
Proof. unfold metering_rel. by intros ->. Qed.

Lemma wp_start K (Q : unit -> lstate -> Prop) s a : lowered K s a ->
  (forall s', lowered K s' (start_chunk M ac a) -> Q tt s') -> wp (WAH_METER_START_CHUNK M ac) Q s.
Proof.
  intros [Ha Hs] HQ. pose proof (asm_ok_start K a Ha) as Ha'. apply wp_bind, wp_get. pose proof (sy_meter _ _ _ _ Hs) as Hm.
  unfold start_chunk in *. destruct metered eqn:Em.
  2: { apply wp_skip, HQ. destruct (a_open a); done. }
  rewrite (metering_emit _ _ Em) in Hm. rewrite (mt_new _ _ Hm). destruct (a_open a) as [rs|] eqn:Eo; [by apply wp_skip, HQ|].
  assert (Esz : buf_size s = code_size (a_code a)) by (unfold buf_size, vec_size; rewrite (sy_buf _ _ _ _ Hs); apply assemble_size).
  pose proof (vec_ok_bound _ (mt_chunks_ok _ _ Hm)). apply wp_bind, wp_on_l_answers. rewrite u32_small by lia.
  apply wp_vec_ensure; [apply Hm|]. intros c ans Hc Hc' Hcap. cbv beta.
  apply wp_bind, wp_modify. apply wp_bind, wp_u16_raw; [apply Hs|]. intros b1 a1 Hb1 Eb1. simpl in Eb1.
  apply wp_bind, wp_u16_raw; [done|]. intros b2 a2 Hb2 Eb2. simpl in Eb2.
  apply wp_bind, wp_u32_raw; [done|]. intros b3 a3 Hb3 Eb3. simpl in Eb3. apply wp_modify, HQ. split; [done|].
  assert (Hns : forall c, LSlow c ∉ placed (a_code a)) by (intros c' Hp; by apply (ao_placed _ _ Ha) in Hp).
  assert (Hnt : LSlow (zlen (a_chunks a)) ∉ targets (a_code a)).
  { intros Ht. apply (ao_targets _ _ Ha) in Ht. unfold chunk_count in Ht. rewrite Eo in Ht. simpl in Ht. lia. }
  destruct Hs. constructor; simpl; try done; change (a_code (Asm ?b ?t _ _ _ _ _)) with (b ++ t).
  - rewrite Eb3, Eb2, Eb1, sy_buf, assemble_snoc by done. rewrite <- !app_assoc. repeat f_equal. simpl.
    rewrite layout_None by done. unfold chunk_cost. by rewrite zget_None by lia.
  - eapply Forall2_impl; [done|]. intros f af Hf. apply frame_rel_app; [done|set_solver..].
  - rewrite holes_app, (holes_nil _ _ (meter_code _)), app_nil_r; [done|set_solver].
  - rewrite (metering_emit _ _ Em). destruct Hm. rewrite Eo in *.
    assert (Ecl : closed_code a = a_code a) by (unfold closed_code; by rewrite Eo). rewrite Ecl in *.
    constructor; simpl; try done.
    + split; [done|]. unfold vec_size in *. simpl. lia.
    + intros i mc Hi. unfold closed_code. simpl.
      pose proof (chunk_rel_app _ _ _ _ _ (meter_code (zlen (a_chunks a))) [] (mt_chunks i mc Hi)) as Hcr.
      rewrite app_nil_r in Hcr. apply Hcr. simpl. intros Hin%list_elem_of_singleton.
      injection Hin as Hin. apply lookup_lt_Some in Hi. unfold zlen in Hin. lia.
    + destruct mt_records as (R1 & R2 & E & H1 & H2). exists R1, R2. split_and!; [done|done|].
      by inversion H2.
    + intros _. split_and!; [done| |].
      * destruct mt_records as (R1 & R2 & E & H1 & H2). rewrite <- (Forall2_zlen _ _ _ H1). unfold vec_size. rewrite E, zlen_app.
        inversion H2. unfold zlen. simpl. lia.
      * unfold vec_size in *. simpl. lia.
Qed.
Lemma elem_of_meter_targets n l : l ∈ targets (meter_code n) <-> l = LSlow n.
Proof. simpl. by rewrite list_elem_of_singleton. Qed.

Lemma frame_ok_cut K code n f : frame_ok K (code ++ meter_code n) f -> frame_ok K code f.
Proof.
  intros [H1 H2]. split.
  - intros l Hl. destruct (H1 l Hl) as [? Hp]. rewrite placed_app, app_nil_r in Hp. done.
  - intros H H'. specialize (H2 H H'). rewrite targets_app, elem_of_app, elem_of_meter_targets in H2. by destruct H2.
Qed.

Lemma asm_ok_end K a : asm_ok K a -> at_boundary a -> asm_ok K (end_chunk a).
Proof.
  intros Ha Hb. unfold end_chunk. destruct (a_open a) as [[|r rs]|] eqn:Eo; [| |done]; pose proof (ao_open _ _ Ha _ Eo) as Hop;
    destruct Ha; destruct Hop as (Hlen & Hcb & Htb & tl & Et & Hct & Htt); unfold chunk_count in *; rewrite Eo in *.
  - specialize (Hb Eo). unfold a_code in *. rewrite Hb in *. rewrite ?placed_app, ?targets_app, ?costs_app, app_nil_r in *.
    constructor; unfold a_code, chunk_count; simpl; rewrite ?app_nil_r; try done.
    + intros l Hl. assert (Hl' : l ∈ targets (a_base a) ++ targets (meter_code (zlen (a_chunks a)))) by (apply elem_of_app; by left).
      apply ao_targets in Hl'. destruct l; try done. split; [apply Hl'|]. apply Htb in Hl. lia.
    + intros c Hc. assert (Hc' : c ∈ costs (a_base a) ++ costs (meter_code (zlen (a_chunks a)))) by (apply elem_of_app; by left).
      apply ao_costs in Hc'. split; [lia|]. apply Hcb in Hc. lia.
    + intros l Hl. assert (Hl' : l ∈ targets (a_base a) ++ targets (meter_code (zlen (a_chunks a)))) by (apply elem_of_app; by left).
      apply ao_settled in Hl'. unfold settled in *. rewrite placed_app, app_nil_r in Hl'. done.
    + eapply Forall_impl; [done|]. intros f. apply frame_ok_cut.
  - pose proof (zlen_nonneg (a_chunks a)).
    assert (Ec : a_base a ++ a_tail a ++ [PL (LNext (zlen (a_chunks a)))] = a_code a ++ [PL (LNext (zlen (a_chunks a)))])
      by (unfold a_code; by rewrite <- app_assoc).
    assert (Hnn : LNext (zlen (a_chunks a)) ∉ placed (a_code a)) by (intros Hp; apply ao_placed in Hp; simpl in Hp; lia).
    constructor; change (a_code (Asm ?b ?t _ _ _ _ _)) with (b ++ t); rewrite ?Ec; unfold chunk_count; simpl; rewrite ?zlen_app;
      rewrite ?placed_app, ?targets_app, ?costs_app, ?app_nil_r; simpl.
    + intros l [Hl|Hl]%elem_of_app.
      * apply ao_placed in Hl. destruct l; simpl in *; try done. unfold zlen in *. simpl. lia.
      * apply list_elem_of_singleton in Hl as ->. unfold zlen in *. simpl. lia.
    + intros l Hl. apply ao_targets in Hl. unfold zlen in *. simpl in *. destruct l; simpl in *; try done. lia.
    + intros c Hc. apply ao_costs in Hc. unfold zlen in *. simpl in *. lia.
    + apply NoDup_app. split_and!; [done| |apply NoDup_singleton]. intros l Hl ->%list_elem_of_singleton. done.
    + intros l Hl. apply settled_app. by apply ao_settled.
    + eapply Forall_impl; [done|]. intros f [H1 H2]. split.
      * intros l Hl. destruct (H1 l Hl) as [? Hp]. split; [done|]. rewrite placed_app, elem_of_app. intros [?|Hn]; [done|].
        apply list_elem_of_singleton in Hn as ->. by destruct Hl as [?|[_ ?]].
      * rewrite targets_app, app_nil_r. done.
    + done.
    + done.
Qed.

Lemma chunk_cost_snoc chunks rs c : c <> zlen chunks -> chunk_cost (chunks ++ [rs]) c = chunk_cost chunks c.
Proof.
  intros H. unfold chunk_cost, zget. destruct (c <? 0) eqn:E; [done|]. do 2 f_equal. unfold zlen in H.
  destruct (decide (Z.to_nat c < length chunks)%nat); [by rewrite lookup_app_l|].
  rewrite lookup_app_r by lia. rewrite (lookup_ge_None_2 chunks) by lia. apply lookup_ge_None_2. simpl. lia.
Qed.
Lemma chunk_cost_last chunks rs : chunk_cost (chunks ++ [rs]) (zlen chunks) = zlen rs.
Proof. unfold chunk_cost, zlen. rewrite zget_of_nat, lookup_app_r, Nat.sub_diag by lia. done. Qed.

(** The cost of the chunk is written after the opcode of its METER. *)
Lemma assemble_cost e chunks rs base n tl : n = zlen chunks -> n ∉ costs base -> n ∉ costs tl ->
  assemble e (chunk_cost (chunks ++ [rs])) (base ++ meter_code n ++ tl) =
  mem_store (assemble e (chunk_cost chunks) (base ++ meter_code n ++ tl)) (code_size base + 2) (le_bytes 2 (zlen rs)).
Proof.
  intros -> Hb Ht. rewrite !assemble_app.
  assert (E : forall ps, zlen chunks ∉ costs ps -> assemble e (chunk_cost (chunks ++ [rs])) ps = assemble e (chunk_cost chunks) ps).
  { intros ps Hps. apply assemble_ext; [done|]. intros k Hk. apply chunk_cost_snoc. intros ->. done. }
  rewrite (E base), (E tl) by done. unfold meter_code. rewrite !assemble_cons.
  cbn [assemble_piece]. rewrite chunk_cost_last.
  assert (Hz : code_size base + 2 = zlen (assemble e (chunk_cost chunks) base ++ le_bytes 2 (iop_value WAH_IOP_METER)))
    by (rewrite zlen_app, assemble_size; done).
  pose proof (mem_store_app (assemble e (chunk_cost chunks) base ++ le_bytes 2 (iop_value WAH_IOP_METER))
    (le_bytes 2 (chunk_cost chunks (zlen chunks))) (le_bytes 2 (zlen rs))
    (le_bytes 4 (e (LSlow (zlen chunks))) ++ assemble e (chunk_cost chunks) tl) eq_refl) as Hm.
  rewrite <- Hz, <- !app_assoc in Hm. symmetry. exact Hm.
Qed.
Lemma wp_write f b (Q : unit -> lstate -> Prop) s : f (vec_list (l_buf s)) = Some b ->
  Q tt (l_set_buf (Vec b (vec_cap (l_buf s))) s) -> wp (lower_write f) Q s.
Proof. intros Hf HQ. apply wp_bind, wp_get, wp_bind. eapply wp_opt; [done|]. done. Qed.

(** The chunk that is closed. *)
Lemma chunk_rel_new K a rs m : asm_ok K a -> a_open a = Some rs -> rs <> [] -> meter_rel m a ->
  chunk_rel (a_code a ++ [PL (LNext (zlen (a_chunks a)))]) (a_code a ++ [PL (LNext (zlen (a_chunks a)))]) (a_chunks a ++ [rs])
    (length (a_chunks a))
    (MeterChunk (mc_meter_offset (me_chunk m)) (code_size (a_code a)) (mc_record_start (me_chunk m)) (me_cost m)
       (u16 (vec_size (me_records m) - mc_record_start (me_chunk m)))).
Proof.
  intros Ha Eo Hne Hm. destruct (ao_open _ _ Ha _ Eo) as (Hlen & Hcb & Htb & tl & Et & Hct & Htt).
  destruct (mt_open _ _ Hm) as (E1 & E2 & _); [by rewrite Eo|]. destruct (mt_records _ _ Hm) as (R1 & R2 & E & H1 & H2).
  rewrite Eo in H2. simpl in H2. constructor; simpl.
  - fold (zlen (a_chunks a)). unfold a_code. rewrite Et, !holes_app, (holes_nil _ _ (a_base a)), (holes_nil _ _ tl), (holes_nil _ _ [_]).
    + simpl. rewrite bool_decide_true by done. simpl. rewrite E1. f_equal. unfold zlen. simpl. lia.
    + set_solver.
    + apply Htt.
    + intros H%Htb. lia.
  - apply address_snoc. intros Hp. apply (ao_placed _ _ Ha) in Hp. simpl in Hp. unfold zlen in Hp. lia.
  - by rewrite take_app_length.
  - exists rs. split_and!; [by rewrite lookup_app_r, Nat.sub_diag by lia| |done].
    unfold vec_size. rewrite E2, E, zlen_app, (Forall2_zlen _ _ _ H1), (Forall2_zlen _ _ _ H2).
    replace (zlen (concat (a_chunks a)) + zlen rs - zlen (concat (a_chunks a))) with (zlen rs) by lia.
    unfold u16. apply Z.mod_small. unfold UINT16_MAX in Hlen. unfold zlen in *. lia.
Qed.

Lemma chunk_rel_old code chunks rs closed i mc : chunk_rel code closed chunks i mc -> chunk_rel code closed (chunks ++ [rs]) i mc.
Proof.
  intros [H1 H2 H3 (rs' & H4 & H5)]. pose proof (lookup_lt_Some _ _ _ H4). constructor; try done.
  - by rewrite take_app_le by lia.
  - exists rs'. split; [by rewrite lookup_app_l by lia|done].
Qed.

Lemma meter_rel_end K a rs m b : asm_ok K a -> a_open a = Some rs -> rs <> [] -> meter_rel m a ->
  vec_size (me_chunks m) < vec_cap (me_chunks m) -> b = code_size (a_code a) ->
  meter_rel (LMeter true 0 (MeterChunk (mc_meter_offset (me_chunk m)) b (mc_record_start (me_chunk m)) (me_cost m)
       (u16 (vec_size (me_records m) - mc_record_start (me_chunk m))))
      (Vec (vec_list (me_chunks m) ++ [MeterChunk (mc_meter_offset (me_chunk m)) b (mc_record_start (me_chunk m)) (me_cost m)
       (u16 (vec_size (me_records m) - mc_record_start (me_chunk m)))]) (vec_cap (me_chunks m))) (me_records m))
    (end_chunk a).
Proof.
  intros Ha Eo Hne Hm Hcap ->. pose proof (chunk_rel_new K a rs m Ha Eo Hne Hm) as Hnew.
  destruct rs as [|r rs]; [done|]. unfold end_chunk. rewrite Eo. set (rs0 := r :: rs) in *.
  assert (Ecode : forall f d c ms, a_code (Asm (a_base a) (a_tail a ++ [PL (LNext (zlen (a_chunks a)))]) f d None c ms) =
    a_code a ++ [PL (LNext (zlen (a_chunks a)))]) by (intros; unfold a_code; simpl; by rewrite app_assoc).
  destruct Hm. constructor; simpl; try done; unfold closed_code; cbn [a_open]; rewrite ?Ecode.
  - split; [apply mt_chunks_ok|]. unfold vec_size in *. simpl. rewrite zlen_app. unfold zlen in *. simpl. lia.
  - rewrite !length_app. simpl. lia.
  - intros i mc Hi. cbn [a_open a_chunks]. apply lookup_app_Some in Hi as [Hi|[Hi1 Hi2]].
    + apply chunk_rel_old. assert (Eb : a_code a ++ [PL (LNext (zlen (a_chunks a)))] = closed_code a ++ (a_tail a ++ [PL (LNext (zlen (a_chunks a)))]))
        by (unfold closed_code, a_code; rewrite Eo; by rewrite <- app_assoc).
      rewrite Eb at 2. apply chunk_rel_app; [by apply mt_chunks|]. set_solver.
    + apply list_lookup_singleton_Some in Hi2 as [Hi2 <-]. replace i with (length (a_chunks a)) by lia. exact Hnew.
  - cbn [a_open a_chunks]. destruct mt_records as (R1 & R2 & E & H1 & H2). exists (R1 ++ R2), []. split_and!; [by rewrite app_nil_r| |done].
    rewrite concat_app. simpl. rewrite app_nil_r. rewrite Eo in H2. apply Forall2_app.
    + assert (Eb : a_code a ++ [PL (LNext (zlen (a_chunks a)))] = closed_code a ++ (a_tail a ++ [PL (LNext (zlen (a_chunks a)))]))
        by (unfold closed_code, a_code; rewrite Eo; by rewrite <- app_assoc).
      rewrite Eb. eapply Forall2_impl; [done|]. intros; by apply record_rel_app.
    + eapply Forall2_impl; [done|]. intros; by apply record_rel_app.
  - rewrite Eo in mt_instrs. cbn [a_chunks a_open default]. rewrite concat_app. simpl. rewrite !app_nil_r. done.
Qed.

Lemma synced_size s a : synced s a -> buf_size s = code_size (a_code a).
Proof. intros Hs. unfold buf_size, vec_size. rewrite (sy_buf _ _ _ _ Hs). apply assemble_size. Qed.

Lemma synced_close K s a rs m : asm_ok K a -> synced s a -> a_open a = Some rs -> rs <> [] ->
  metering_rel M ac m (end_chunk a) ->
  synced (l_set_meter m (l_set_buf (Vec (mem_store (vec_list (l_buf s)) (code_size (a_base a) + 2) (le_bytes 2 (zlen rs))) (vec_cap (l_buf s))) s))
    (end_chunk a).
Proof.
  intros Ha Hs Eo Hne Hm. destruct (ao_open _ _ Ha _ Eo) as (Hlen & Hcb & Htb & tl & Et & Hct & Htt).
  destruct rs as [|r rs]; [done|]. unfold end_chunk in *. rewrite Eo in *. set (rs0 := r :: rs) in *.
  assert (Ecode : a_code (Asm (a_base a) (a_tail a ++ [PL (LNext (zlen (a_chunks a)))]) (a_frames a) (a_try a) None (a_chunks a ++ [rs0]) (a_maps a)) =
    a_code a ++ [PL (LNext (zlen (a_chunks a)))]) by (unfold a_code; simpl; by rewrite app_assoc).
  destruct Hs. constructor; simpl; rewrite ?Ecode; try done.
  - pose proof (assemble_insert (chunk_cost (a_chunks a ++ [rs0])) (a_code a) [] (LNext (zlen (a_chunks a)))) as Hi.
    rewrite app_nil_r in Hi. rewrite Hi.
    + rewrite holes_nil by (intros Ht; by apply (ao_targets _ _ Ha) in Ht). simpl. rewrite sy_buf.
      unfold a_code at 2 4. rewrite Et. symmetry. apply assemble_cost; [done| |by rewrite Hct; set_solver].
      intros Hc%Hcb. lia.
    + intros Hp. apply (ao_placed _ _ Ha) in Hp. simpl in Hp. lia.
  - split; [apply sy_buf_ok|]. destruct sy_buf_ok as [_ Hb]. unfold vec_size, zlen in *. simpl. by rewrite mem_store_length.
  - eapply Forall2_impl; [done|]. intros f af Hf. apply frame_rel_app; [done|set_solver..].
  - rewrite holes_app. simpl. by rewrite app_nil_r.
Qed.

Lemma synced_retract s a b m : synced s a -> a_open a = Some [] -> a_tail a = meter_code (zlen (a_chunks a)) ->
  b = take (Z.to_nat (code_size (a_base a))) (vec_list (l_buf s)) -> metering_rel M ac m (end_chunk a) ->
  synced (l_set_meter m (l_set_buf (Vec b (vec_cap (l_buf s))) s)) (end_chunk a).
Proof.
  intros Hs Eo Et -> Hm. unfold end_chunk in *. rewrite Eo in *.
  assert (Ec : a_code a = a_base a ++ meter_code (zlen (a_chunks a))) by (unfold a_code; by rewrite Et).
  destruct Hs. rewrite Ec in *. constructor; unfold a_code; simpl; rewrite ?app_nil_r; try done.
  - rewrite sy_buf, assemble_snoc by done. rewrite <- (assemble_size (layout (a_base a)) (chunk_cost (a_chunks a)) (a_base a)).
    unfold zlen. rewrite Nat2Z.id. by rewrite take_app_length.
  - split; [apply sy_buf_ok|]. destruct sy_buf_ok as [_ Hb]. unfold vec_size, zlen in *. simpl. rewrite length_take. lia.
  - eapply Forall2_impl; [done|]. intros f af Hf. destruct Hf. constructor; try done.
    + rewrite fr_patches, holes_app, (holes_nil _ _ (meter_code _)), app_nil_r; [done|]. rewrite elem_of_meter_targets. done.
    + intros H. specialize (fr_loop H). rewrite address_app in fr_loop. destruct (address (a_base a) _); done.
    + intros H. specialize (fr_if H). rewrite holes_app, (holes_nil _ _ (meter_code _)), app_nil_r in fr_if; [done|]. rewrite elem_of_meter_targets. done.
  - rewrite sy_ends, holes_app, (holes_nil _ _ (meter_code _)), app_nil_r; [done|]. rewrite elem_of_meter_targets. done.
Qed.

Lemma meter_rel_retract m a : meter_rel m a -> a_open a = Some [] -> a_tail a = meter_code (zlen (a_chunks a)) ->
  meter_rel (me_set_need_new true m) (end_chunk a).
Proof.
  intros Hm Eo Et. unfold end_chunk. rewrite Eo. assert (Ec : a_code a = a_base a ++ meter_code (zlen (a_chunks a))) by (unfold a_code; by rewrite Et).
  destruct Hm. unfold closed_code in *. rewrite Eo in *. constructor; unfold closed_code, a_code; simpl; rewrite ?app_nil_r; try done.
  - intros i mc Hi. specialize (mt_chunks i mc Hi). pose proof (lookup_lt_Some _ _ _ Hi) as Hlt. rewrite mt_length in Hlt.
    rewrite Ec in mt_chunks. destruct mt_chunks. constructor; try done.
    rewrite <- cr_meter, holes_app, (holes_nil _ _ (meter_code _)), app_nil_r; [done|]. rewrite elem_of_meter_targets.
    intros [= H]. unfold zlen in H. lia.
  - destruct mt_records as (R1 & R2 & E & H1 & H2). exists R1, R2. split_and!; [done|done|]. by inversion H2.
  - by rewrite app_nil_r in mt_instrs.
Qed.

Lemma wp_end K (Q : unit -> lstate -> Prop) s a : lowered K s a -> at_boundary a ->
  (forall s', lowered K s' (end_chunk a) -> Q tt s') -> wp (WAH_METER_END_CHUNK M ac) Q s.
Proof.
  intros [Ha Hs] Hb HQ. pose proof (asm_ok_end K a Ha Hb) as Ha'. apply wp_bind, wp_get. pose proof (sy_meter _ _ _ _ Hs) as Hm.
  destruct metered eqn:Em; cbn [andb].
  2: { apply wp_skip, HQ. unfold metering_rel in Hm. rewrite Em in Hm. destruct Hm as (Eo & _). unfold end_chunk in *. by rewrite Eo in *. }
  rewrite (metering_emit _ _ Em) in Hm. rewrite (mt_cost _ _ Hm), (mt_new _ _ Hm).
  destruct (a_open a) as [rs|] eqn:Eo.
  2: { simpl. apply wp_skip, HQ. unfold end_chunk in *. by rewrite Eo in *. }
  destruct (mt_open _ _ Hm) as (E1 & E2 & E3); [by rewrite Eo|].
  assert (Ez : zlen (vec_list (l_buf s)) = code_size (a_code a)) by apply (synced_size s a Hs).
  destruct (ao_open _ _ Ha _ Eo) as (Hlen & Hcb & Htb & tl & Et & Hct & Htt).
  assert (Ecs : code_size (a_code a) = code_size (a_base a) + 8 + code_size tl).
  { unfold a_code. rewrite Et, !code_size_app. simpl. unfold zlen. simpl. lia. }
  pose proof (code_size_nonneg (a_base a)). pose proof (code_size_nonneg tl).
  destruct rs as [|r rs].
  - change (0 <? zlen []) with false. cbn [andb negb]. specialize (Hb Eo). rewrite E1.
    assert (Etl : tl = []) by (rewrite Hb in Et; by destruct tl). subst tl. simpl in Ecs.
    apply wp_bind. rewrite (synced_size s a Hs), Ecs.
    replace (code_size (a_base a) + WAH_METER_SIZE =? code_size (a_base a) + 8 + 0) with true
      by (symmetry; apply Z.eqb_eq; unfold WAH_METER_SIZE; lia).
    apply wp_skip. apply wp_bind, wp_modify, wp_modify, HQ. split; [done|].
    eapply (synced_retract s a); [done|done|done|done|]. rewrite (metering_emit _ _ Em). by apply meter_rel_retract.
  - rewrite (proj2 (Z.ltb_lt _ _)) by (unfold zlen; simpl; lia). rewrite E1.
    apply wp_bind. eapply wp_write; [apply wah_write_u16_le_spec; lia|]. cbv zeta.
    rewrite (proj2 (Z.ltb_lt _ _)) by lia. apply wp_bind, wp_skip, wp_modify, HQ. split; [done|].
    pose proof (synced_close K s a (r :: rs)
      (LMeter true 0 (MeterChunk (mc_meter_offset (me_chunk (l_meter s))) (buf_size s) (mc_record_start (me_chunk (l_meter s))) (me_cost (l_meter s))
         (u16 (vec_size (me_records (l_meter s)) - mc_record_start (me_chunk (l_meter s)))))
        (Vec (vec_list (me_chunks (l_meter s)) ++ [MeterChunk (mc_meter_offset (me_chunk (l_meter s))) (buf_size s) (mc_record_start (me_chunk (l_meter s)))
           (me_cost (l_meter s)) (u16 (vec_size (me_records (l_meter s)) - mc_record_start (me_chunk (l_meter s))))]) (vec_cap (me_chunks (l_meter s))))
        (me_records (l_meter s)))) as Hcl.
    rewrite (mt_cost _ _ Hm), Eo in Hcl. rewrite E1 in Hcl. apply Hcl; try done.
    rewrite (metering_emit _ _ Em). pose proof (meter_rel_end K a (r :: rs) (l_meter s) (buf_size s) Ha Eo) as Hme.
    rewrite (mt_cost _ _ Hm), Eo, E1 in Hme. apply Hme; [done|done|lia|by apply synced_size].
Qed.

(** ** Instructions of a chunk *)

Lemma costs_strip ps : costs (strip ps) = costs ps.
Proof.
  induction ps as [|p ps IH]; [done|]. unfold strip. rewrite filter_cons. fold (strip ps).
  destruct p; cbn [is_label]; first [rewrite decide_True by done|rewrite decide_False by done]; simpl; by rewrite ?IH.
Qed.
Lemma targets_strip ps : targets (strip ps) = targets ps.
Proof.
  induction ps as [|p ps IH]; [done|]. unfold strip. rewrite filter_cons. fold (strip ps).
  destruct p; cbn [is_label]; first [rewrite decide_True by done|rewrite decide_False by done]; simpl; by rewrite ?IH.
Qed.
Lemma placed_strip ps : placed (strip ps) = [].
Proof.
  induction ps as [|p ps IH]; [done|]. unfold strip. rewrite filter_cons. fold (strip ps).
  destruct p; cbn [is_label]; first [rewrite decide_True by done|rewrite decide_False by done]; simpl; by rewrite ?IH.
Qed.
Lemma instr_code_strip ps : instr_code ps -> instr_code (strip ps).
Proof.
  intros (H1 & H2 & H3). unfold instr_code. rewrite costs_strip, targets_strip, (strip_id (strip ps)) by apply placed_strip. done.
Qed.

Lemma asm_ok_set_open K a rs rs' : asm_ok K a -> a_open a = Some rs -> zlen rs' <= UINT16_MAX -> asm_ok K (set_open (Some rs') a).
Proof.
  intros [] Eo Hl. unfold chunk_count in *. rewrite Eo in *. destruct (ao_open rs eq_refl) as (_ & H). constructor; try done.
  intros ? [= <-]. split; [done|exact H].
Qed.

Lemma record_new code ps map off len : off = code_size code -> len = code_size ps ->
  record_rel (code ++ ps) (MeterRecord off len map) (SlowInstr (strip ps) map).
Proof.
  intros -> ->. split; [done|]. exists (strip code), []. simpl. rewrite app_nil_r, strip_app, !code_size_strip. done.
Qed.

Lemma meter_rel_record m a ps map rs v : meter_rel m (emit ps a) -> a_open a = Some rs -> instr_code ps -> zlen rs + 1 <= UINT16_MAX ->
  vec_ok v -> vec_list v = vec_list (me_records m) ++ [MeterRecord (code_size (a_code a)) (code_size ps) map] ->
  meter_rel (LMeter (me_need_new m) (u16 (me_cost m + 1)) (me_chunk m) (me_chunks m) v)
    (set_open (Some (rs ++ [SlowInstr (strip ps) map])) (emit ps a)).
Proof.
  intros [] Eo Hi Hl Hv Ev. pose proof (zlen_nonneg rs). cbn [a_open emit] in *. rewrite Eo in *. constructor; simpl; try done.
  - rewrite mt_cost, zlen_app. unfold u16, UINT16_MAX in *. rewrite Z.mod_small by lia. done.
  - intros i mc Hmc. specialize (mt_chunks i mc Hmc). unfold closed_code in *. cbn [a_open emit set_open] in *. by rewrite Eo in mt_chunks.
  - destruct mt_records as (R1 & R2 & E & H1 & H2). exists R1, (R2 ++ [MeterRecord (code_size (a_code a)) (code_size ps) map]).
    rewrite Ev, E, <- app_assoc. split_and!; [done| |].
    + unfold closed_code in *. cbn [a_open emit set_open] in *. by rewrite Eo in H1.
    + change (a_code (set_open _ (emit ps a))) with (a_code (emit ps a)). apply Forall2_app; [done|]. constructor; [|constructor].
      rewrite a_code_emit. by apply record_new.
  - rewrite app_assoc. apply Forall_app. split; [done|]. constructor; [|constructor]. simpl. split; [by apply instr_code_strip|apply placed_strip].
  - intros _. by apply mt_open.
Qed.

Lemma synced_meter s a m o ans : synced s a -> metering_rel M ac m (set_open o a) ->
  synced (l_set_meter m (LState ans (l_buf s) (l_maps s) (l_map_types s) (l_frames s) (l_try_depth s) (l_end_patches s) (l_meter s)))
    (set_open o a).
Proof. intros [] Hm. by constructor. Qed.

Lemma wp_record K ps map start (Q : unit -> lstate -> Prop) s a : lowered K s (emit ps a) -> short a ->
  (metered = true -> a_open a <> None) -> instr_code ps -> start = asm_size a ->
  (forall s', lowered K s' (record ps map a) -> Q tt s') -> wp (WAH_METER_RECORD_INSTR_END M ac start map) Q s.
Proof.
  intros [Ha Hs] Hsh Hop Hi -> HQ. unfold WAH_METER_RECORD_INSTR_END, record in *. cbn [a_open emit] in HQ. fold (emit ps a) in HQ.
  pose proof (sy_meter _ _ _ _ Hs) as Hm. pose proof (synced_size _ _ Hs) as Hsz. rewrite a_code_emit, code_size_app in Hsz.
  destruct metered eqn:Em.
  2: { apply wp_skip, HQ. unfold metering_rel in Hm. rewrite Em in Hm. destruct Hm as (Eo & _). cbn [a_open emit] in Eo. by rewrite Eo. }
  rewrite (metering_emit _ _ Em) in Hm. specialize (Hop eq_refl). destruct (a_open a) as [rs|] eqn:Eo; [|done].
  specialize (Hsh rs Eo). pose proof (vec_ok_bound _ (sy_buf_ok _ _ _ _ Hs)) as Hbb. fold (buf_size s) in Hbb.
  pose proof (code_size_nonneg (a_code a)). pose proof (code_size_nonneg ps). pose proof (zlen_nonneg rs).
  apply wp_bind, wp_get. rewrite (mt_new _ _ Hm). cbn [a_open emit]. rewrite Eo. apply wp_bind, wp_skip.
  apply wp_bind, wp_on_l_answers. apply wp_vec_push; [apply Hm|]. intros v ans Hv Ev. cbv beta.
  apply wp_bind, wp_modify. apply wp_bind, wp_get. cbn [l_meter l_set_meter me_cost]. rewrite (mt_cost _ _ Hm). cbn [a_open emit]. rewrite Eo.
  assert (Hl : lowered K (l_set_meter (LMeter (me_need_new (l_meter s)) (u16 (zlen rs + 1)) (me_chunk (l_meter s)) (me_chunks (l_meter s)) v)
     (LState ans (l_buf s) (l_maps s) (l_map_types s) (l_frames s) (l_try_depth s) (l_end_patches s) (l_meter s)))
     (set_open (Some (rs ++ [SlowInstr (strip ps) map])) (emit ps a))).
  { split.
    - eapply asm_ok_set_open; [done|done|]. rewrite zlen_app. unfold zlen in *. simpl. lia.
    - apply synced_meter; [done|]. rewrite (metering_emit _ _ Em).
      replace (zlen rs) with (me_cost (l_meter s)) by (rewrite (mt_cost _ _ Hm); cbn [a_open emit]; by rewrite Eo).
      apply meter_rel_record; try done; [lia|]. rewrite Ev. unfold asm_size. do 3 f_equal.
      rewrite Hsz in *. rewrite u32_small by lia. lia. }
  assert (Eu : u16 (zlen rs + 1) = zlen rs + 1) by (unfold u16, UINT16_MAX in *; apply Z.mod_small; lia).
  rewrite Eu in *. destruct (zlen rs + 1 =? UINT16_MAX).
  - eapply wp_end; [exact Hl| |exact HQ]. intros H'. cbn [a_open set_open] in H'. by destruct rs.
  - by apply wp_skip, HQ.
Qed.

Lemma short_record ps map a : short a -> short (record ps map a).
Proof.
  intros Hs. unfold record. cbn [a_open emit]. destruct (a_open a) as [rs|] eqn:Eo; [|intros rs; cbn [a_open emit]; by rewrite Eo].
  specialize (Hs rs Eo). destruct (Z.eqb_spec (zlen rs + 1) UINT16_MAX) as [E|E].
  - unfold end_chunk. cbn [a_open set_open]. destruct rs; done.
  - intros ? [= <-]. rewrite zlen_app. unfold zlen in *. simpl. lia.
Qed.
Lemma boundary_record ps map a : (metered = true -> a_open a <> None) -> (metered = false -> a_open a = None) -> at_boundary (record ps map a).
Proof.
  intros H1 H2. unfold record. cbn [a_open emit]. destruct (a_open a) as [rs|] eqn:Eo; [|unfold at_boundary; cbn [a_open emit]; by rewrite Eo].
  unfold at_boundary. destruct (zlen rs + 1 =? UINT16_MAX); [unfold end_chunk; cbn [a_open set_open]; by destruct rs|].
  cbn [a_open set_open]. by destruct rs.
Qed.

End Chunks.
