(* ===== verification/LowerFrame.v ===== *)
(** * Lowering: blocks

    Opening a block, placing its labels, by which the branches to it are patched, and
    the stack maps of labels keep the relation of LowerInv. *)

From S2P Require Import Prelude Base Alloc Types Opcodes Bytes Decode Subtype ModuleEnv Operands Validate Analyze Lowering Assembly LowerSpec LowerInv LowerChunk.
From stdpp Require Import list sets.
#[local] Open Scope Z_scope.
#[local] Open Scope wah_scope.

(** ** Placing a label *)

Lemma apply_patches_length offs v mem : length (apply_patches offs v mem) = length mem.
Proof. revert mem. induction offs as [|o offs IH]; intros mem; [done|]. simpl. by rewrite IH, mem_store_length. Qed.

Lemma closed_in_code a l : l ∈ placed (closed_code a) -> l ∈ placed (a_code a).
Proof. unfold closed_code. destruct (a_open a); [|done]. unfold a_code. rewrite placed_app, elem_of_app. by left. Qed.

Definition inserted (l : label) (ps qs : list piece) : Prop := exists p q, ps = p ++ q /\ qs = p ++ PL l :: q.

Lemma inserted_holes l ps qs l' : inserted l ps qs -> holes l' 0 qs = holes l' 0 ps.
Proof. intros (p & q & -> & ->). apply holes_insert. Qed.
Lemma inserted_address l ps qs l' : inserted l ps qs -> l' <> l -> address qs l' = address ps l'.
Proof. intros (p & q & -> & ->). apply address_insert. Qed.
Lemma inserted_strip l ps qs : inserted l ps qs -> strip qs = strip ps.
Proof. intros (p & q & -> & ->). apply strip_insert. Qed.
Lemma inserted_occurs l ps qs off len x : inserted l ps qs -> occurs ps off len x -> occurs qs off len x.
Proof. intros Hi (pre & post & H). exists pre, post. by rewrite (inserted_strip l ps qs). Qed.

Lemma frame_rel_insert l ps qs f af : inserted l ps qs -> l ∉ placed ps -> frame_rel ps f af -> frame_rel qs f af.
Proof.
  intros Hi Hl []. constructor; try done.
  - by rewrite (inserted_holes l ps qs).
  - intros H. rewrite (inserted_address l ps qs); [by apply fr_loop|done|]. intros <-. apply Hl.
    destruct (decide (LLoop (af_id af) ∈ placed ps)) as [|Hn]; [done|]. apply address_None in Hn. by rewrite fr_loop in Hn.
  - intros H. rewrite (inserted_holes l ps qs); [by apply fr_if|done].
Qed.

(** The same code with one more label. *)
Record with_label (l : label) (a a' : asm) : Prop := WithLabel {
  wl_code : inserted l (a_code a) (a_code a');
  wl_closed : closed_code a' = closed_code a \/ inserted l (closed_code a) (closed_code a');
  wl_base : code_size (a_base a') = code_size (a_base a);
  wl_frames : a_frames a' = a_frames a;
  wl_try : a_try a' = a_try a;
  wl_open : a_open a' = a_open a;
  wl_chunks : a_chunks a' = a_chunks a;
  wl_maps : a_maps a' = a_maps a }.

Lemma meter_rel_insert l m a a' : with_label l a a' -> l ∉ placed (a_code a) -> meter_rel m a -> meter_rel m a'.
Proof.
  intros [] Hl [].
  assert (Hr : forall code code' mr r, code' = code \/ inserted l code code' -> record_rel code mr r -> record_rel code' mr r).
  { intros code code' mr r [->|Hi] [? ?]; [done|]. split; [done|by eapply inserted_occurs]. }
  constructor; rewrite ?wl_open0, ?wl_chunks0; try done.
  - intros i mc Hi. specialize (mt_chunks i mc Hi). destruct mt_chunks. constructor; try done.
    + by rewrite (inserted_holes l (a_code a) (a_code a')).
    + destruct wl_closed0 as [->|Hc]; [done|]. rewrite (inserted_address l (closed_code a) (closed_code a')); [done|done|].
      intros <-. apply Hl, closed_in_code. destruct (decide (LNext (Z.of_nat i) ∈ placed (closed_code a))) as [|Hn]; [done|].
      apply address_None in Hn. congruence.
  - destruct mt_records as (R1 & R2 & E & H1 & H2). exists R1, R2. split_and!; [done| |];
      (eapply Forall2_impl; [done|]; intros; eapply Hr; [|done]); [done|by right].
  - rewrite wl_base0. done.
Qed.

Section Frames.
Context (M : wah_module_env) (ac : wah_analyzed_code_t).
Notation synced := (synced M ac).
Notation lowered := (lowered M ac).
Notation metered := (emit_meter M ac).

Lemma synced_insert s a a' l b ps qs : synced s a -> with_label l a a' -> l ∉ placed (a_code a) ->
  a_code a = ps ++ qs -> a_code a' = ps ++ PL l :: qs ->
  vec_list b = apply_patches (holes l 0 (a_code a)) (code_size ps) (vec_list (l_buf s)) -> vec_cap b = vec_cap (l_buf s) ->
  synced (l_set_buf b s) a'.
Proof.
  intros Hs Hw Hl E1 E2 Eb Ec. pose proof (meter_rel_insert l (l_meter s) a a' Hw Hl) as Hmr. destruct Hw, Hs.
  constructor; simpl; try congruence.
  - rewrite Eb, E2, wl_chunks0, assemble_insert, <- E1; [by rewrite sy_buf|]. rewrite E1, placed_app in Hl. set_solver.
  - split; [rewrite Ec; apply sy_buf_ok|]. destruct sy_buf_ok as [_ Hb]. rewrite Ec. unfold vec_size, zlen in *.
    by rewrite Eb, apply_patches_length.
  - rewrite wl_frames0. eapply Forall2_impl; [done|]. intros f af. by apply (frame_rel_insert l).
  - by rewrite (inserted_holes l (a_code a) (a_code a')).
  - unfold metering_rel in *. destruct metered; [by apply Hmr|]. by rewrite wl_open0, wl_chunks0.
Qed.

Lemma with_label_emit l a : with_label l a (emit [PL l] a).
Proof.
  assert (Hc : inserted l (a_code a) (a_code (emit [PL l] a))) by (exists (a_code a), []; rewrite app_nil_r, a_code_emit; done).
  constructor; try done. unfold closed_code. cbn [a_open emit]. destruct (a_open a); [by left|by right].
Qed.

Lemma asm_ok_mono K K' a : asm_ok K a -> (forall l, K l -> K' l) -> asm_ok K' a.
Proof.
  intros [] HK. constructor; try done.
  - intros l Hl. apply ao_placed in Hl. destruct l; simpl in *; auto.
  - intros l Hl. apply ao_targets in Hl. destruct l; simpl in *; auto.
  - eapply Forall_impl; [done|]. intros f [H1 H2]. split; [|done]. intros l Hl. destruct (H1 l Hl). auto.
Qed.

(** Labels that are not of an open block. *)
Lemma asm_ok_place K a l : asm_ok K a -> place_ok K (zlen (a_chunks a)) l -> l ∉ placed (a_code a) ->
  Forall (fun f => ~ frame_label f l) (a_frames a) -> asm_ok K (emit [PL l] a).
Proof.
  intros [] Hl Hn Hf. constructor; rewrite ?a_code_emit, ?placed_app, ?targets_app, ?costs_app, ?app_nil_r; try done; simpl.
  - intros l' [H|H]%elem_of_app; [by apply ao_placed|]. by apply list_elem_of_singleton in H as ->.
  - apply NoDup_app. split_and!; [done| |apply NoDup_singleton]. intros l' H ->%list_elem_of_singleton. done.
  - rewrite ?app_nil_r. intros l' H. apply settled_app. by apply ao_settled.
  - apply Forall_forall. intros f Hin. pose proof (proj1 (Forall_forall _ _) ao_frames f Hin) as [H1 H2].
    pose proof (proj1 (Forall_forall _ _) Hf f Hin) as H3. split.
    + intros l' H. destruct (H1 l' H). split; [done|]. rewrite placed_app, elem_of_app. intros [?|Hs]; [done|]. by apply list_elem_of_singleton in Hs as ->.
    + intros H H'. rewrite targets_app, ?app_nil_r. by apply H2.
  - intros rs Hrs. destruct (ao_open rs Hrs) as (H1 & H2 & H3 & tl & E & H4 & H5). split_and!; try done.
    exists (tl ++ [PL l]). rewrite E, costs_app, targets_app, H4, <- app_assoc. split_and!; try done. intros c. rewrite ?app_nil_r. apply H5.
Qed.
(** ** Opening blocks *)

Lemma metering_frames m fs a : metering_rel M ac m a -> metering_rel M ac m (set_frames fs a).
Proof. unfold metering_rel. destruct metered; [|done]. intros []. by constructor. Qed.
Lemma metering_maps m ms a : metering_rel M ac m a -> metering_rel M ac m (set_maps ms a).
Proof. unfold metering_rel. destruct metered; [|done]. intros []. by constructor. Qed.
Lemma metering_try m d a : metering_rel M ac m a -> metering_rel M ac m (set_try d a).
Proof. unfold metering_rel. destruct metered; [|done]. intros []. by constructor. Qed.

Lemma synced_frames s a l fs : synced s a -> Forall2 (frame_rel (a_code a)) l fs -> synced (l_set_frames l s) (set_frames fs a).
Proof. intros [] Hf. constructor; try done. by apply metering_frames. Qed.
Lemma synced_try s a d : synced s a -> synced (l_set_try d s) (set_try d a).
Proof. intros []. constructor; try done. by apply metering_try. Qed.
Lemma asm_ok_try K a d : asm_ok K a -> asm_ok K (set_try d a).
Proof. intros []. by constructor. Qed.
Lemma asm_ok_maps K a ms : asm_ok K a -> asm_ok K (set_maps ms a).
Proof. intros []. by constructor. Qed.

Lemma asm_ok_push K K' a f : asm_ok K a -> (forall l, K l -> K' l) -> (forall l, frame_label f l -> K' l /\ l ∉ placed (a_code a)) ->
  ~ K (LEnd (af_id f)) -> af_trim f = false -> asm_ok K' (set_frames (f :: a_frames a) a).
Proof.
  intros Ha HK Hf Hn Ht. pose proof (asm_ok_mono K K' a Ha HK) as []. constructor; try done; simpl.
  - intros l Hl. destruct (ao_settled l Hl) as [H|[H|[H|H]]]; [by left|by right; left|by right; right; left|].
    right; right; right. by apply Exists_cons_tl.
  - constructor; [|done]. split; [done|]. by rewrite Ht.
  - constructor; [|done]. intros (g & E & Hg)%list_elem_of_fmap. apply Hn. rewrite E.
    pose proof (proj1 (Forall_forall _ _) (LowerInv.ao_frames _ _ Ha) g Hg) as [H1 _]. apply (H1 (LEnd (af_id g))). by left.
Qed.

Lemma not_known_targets K a l : asm_ok K a -> ~ K l -> match l with LEnd _ | LElse _ | LLoop _ => l ∉ targets (a_code a) | _ => True end.
Proof. intros Ha Hn. destruct l; try done; intros Hl; apply (ao_targets _ _ Ha) in Hl; done. Qed.
Lemma not_known_placed K a l : asm_ok K a -> ~ K l -> match l with LSlow _ | LNext _ => True | _ => l ∉ placed (a_code a) end.
Proof. intros Ha Hn. destruct l; try done; intros Hl; apply (ao_placed _ _ Ha) in Hl; done. Qed.

Lemma new_frame_rel K a ii op ti single : asm_ok K a -> ~ K (LEnd ii) -> is_loop op = false -> is_if op = false ->
  frame_rel (a_code a) (LowerFrame op (code_size (a_code a)) 0 (Vec [] 0) (a_try a) false ti single) (AFrame ii op (a_try a) false ti single).
Proof.
  intros Ha Hn Hl Hi. pose proof (not_known_targets K a _ Ha Hn) as Ht. simpl in Ht.
  constructor; simpl; try done; [apply vec_ok_nil|by rewrite holes_nil|congruence|congruence].
Qed.

Lemma wp_push_raw op ti single (Q : unit -> lstate -> Prop) s : zlen (l_frames s) < WAH_MAX_CONTROL_DEPTH ->
  Q tt (l_set_frames (LowerFrame op (buf_size s) 0 (Vec [] 0) (l_try_depth s) false ti single :: l_frames s) s) ->
  wp (WAH_LOWER_PUSH_FRAME op ti single) Q s.
Proof. intros Hd HQ. apply wp_bind, wp_get. by rewrite (proj2 (Z.ltb_lt _ _)) by lia. Qed.

Lemma push_frame_inv ii op ti single a a' : push_frame ii op ti single a = Some a' ->
  zlen (a_frames a) < WAH_MAX_CONTROL_DEPTH /\ a' = set_frames (AFrame ii op (a_try a) false ti single :: a_frames a) a.
Proof. unfold push_frame. destruct (Z.ltb_spec (zlen (a_frames a)) WAH_MAX_CONTROL_DEPTH); [|done]. by intros [= <-]. Qed.

Lemma wp_push_label K K' ii op ti single a' (Q : unit -> lstate -> Prop) s a : lowered K s a -> push_frame ii op ti single a = Some a' ->
  ~ K (LEnd ii) -> (forall l, K l -> K' l) -> K' (LEnd ii) -> is_loop op = false -> is_if op = false ->
  (forall s', lowered K' s' a' -> Q tt s') -> wp (WAH_LOWER_PUSH_FRAME op ti single) Q s.
Proof.
  intros [Ha Hs] [Hd ->]%push_frame_inv Hn HK HK' Hl Hi HQ. apply wp_push_raw; [by rewrite (Forall2_zlen _ _ _ (sy_frames _ _ _ _ Hs))|].
  apply HQ. split.
  - eapply asm_ok_push; [done|done| |done|done]. intros l [->|[Hf _]]; [|simpl in Hf; congruence]. split; [done|].
    by apply (not_known_placed K a (LEnd ii)).
  - apply synced_frames; [done|]. constructor; [|apply Hs]. rewrite (synced_size M ac s a Hs), (sy_try _ _ _ _ Hs).
    by eapply new_frame_rel.
Qed.

Lemma new_loop_rel K a ii op ti single pos : asm_ok K a -> ~ K (LEnd ii) -> is_if op = false -> address (a_code a) (LLoop ii) = Some pos ->
  frame_rel (a_code a) (LowerFrame op pos 0 (Vec [] 0) (a_try a) false ti single) (AFrame ii op (a_try a) false ti single).
Proof.
  intros Ha Hn Hi Hp. pose proof (not_known_targets K a _ Ha Hn) as Ht. simpl in Ht.
  constructor; simpl; try done; [apply vec_ok_nil|by rewrite holes_nil|congruence].
Qed.

Lemma wp_push_loop K K' ii op ti single pos a' (Q : unit -> lstate -> Prop) s a : lowered K s a -> push_frame ii op ti single a = Some a' ->
  ~ K (LEnd ii) -> (forall l, K l -> K' l) -> K' (LEnd ii) -> is_if op = false -> address (a_code a) (LLoop ii) = Some pos ->
  (forall s', lowered K' s' a' -> Q tt s') ->
  wp (WAH_LOWER_PUSH_FRAME op ti single) (fun _ s' => wp (update_frame 0 (lf_set_continuation pos)) Q s') s.
Proof.
  intros [Ha Hs] [Hd ->]%push_frame_inv Hn HK HK' Hi Hp HQ. apply wp_push_raw; [by rewrite (Forall2_zlen _ _ _ (sy_frames _ _ _ _ Hs))|].
  eapply wp_update_frame; [done|by apply zset_Some; unfold zlen; simpl; lia|]. apply HQ. split.
  - eapply asm_ok_push; [done|done| |done|done]. intros l [->|[Hf _]]; [|simpl in Hf; congruence]. split; [done|].
    by apply (not_known_placed K a (LEnd ii)).
  - apply (synced_frames s); [done|]. constructor; [|apply Hs]. cbn [lf_set_continuation]. rewrite (sy_try _ _ _ _ Hs).
    by eapply new_loop_rel.
Qed.

Lemma frames_app code qs fs afs : Forall2 (frame_rel code) fs afs ->
  Forall (fun f => LEnd (af_id f) ∉ targets qs /\ LElse (af_id f) ∉ targets qs) afs -> Forall2 (frame_rel (code ++ qs)) fs afs.
Proof.
  intros H. induction H as [|f af fs afs Hf _ IH]; [done|]. intros [[H1 H2] H3]%Forall_cons_1.
  constructor; [by apply frame_rel_app|by apply IH].
Qed.
Lemma fresh_id K a ii : asm_ok K a -> ~ K (LEnd ii) -> Forall (fun f => af_id f <> ii) (a_frames a).
Proof.
  intros Ha Hn. eapply Forall_impl; [apply Ha|]. intros f [H _] <-. apply Hn, (H (LEnd (af_id f))). by left.
Qed.

(** [if]: its false edge is patched at its [else] or its end. *)
Lemma wp_push_if K K' ii ti single a' (Q : unit -> lstate -> Prop) s a : lowered K s a -> push_frame ii WAH_OP_IF ti single a = Some a' ->
  ~ K (LEnd ii) -> ~ K (LElse ii) -> (forall l, K l -> K' l) -> K' (LEnd ii) -> K' (LElse ii) ->
  (forall s', lowered K' s' (emit [PT (LElse ii)] a') -> Q tt s') ->
  wp (n <- get_size ;; WAH_LOWER_U32 0 ;;; WAH_LOWER_PUSH_FRAME WAH_OP_IF ti single ;;; update_frame 0 (lf_set_if_false n)) Q s.
Proof.
  intros [Ha Hs] [Hd ->]%push_frame_inv Hn Hn' HK HK1 HK2 HQ. apply wp_bind, wp_get_size. apply wp_bind, wp_u32_raw; [apply Hs|].
  intros b ans Hb Eb. apply wp_bind, wp_push_raw; [cbn [l_frames]; by rewrite (Forall2_zlen _ _ _ (sy_frames _ _ _ _ Hs))|].
  eapply wp_update_frame; [done|by apply zset_Some; unfold zlen; simpl; lia|]. cbn [l_try_depth]. apply HQ.
  pose proof (not_known_targets K a _ Ha Hn) as Ht. pose proof (not_known_targets K a _ Ha Hn') as Ht'.
  pose proof (not_known_placed K a _ Ha Hn) as Hp. pose proof (not_known_placed K a _ Ha Hn') as Hp'. simpl in *.
  assert (Ha' : asm_ok K' (set_frames (AFrame ii WAH_OP_IF (a_try a) false ti single :: a_frames a) a)).
  { eapply asm_ok_push; [done|done| |done|done]. intros l [->|[_ ->]]; done. }
  rewrite emit_set_frames. split.
  - apply (asm_ok_emit K' _ [PT (LElse ii)] _ Ha'); [done|done| |apply marked_refl].
    intros l ->%list_elem_of_singleton. split; [done|]. right; right; right. apply Exists_cons_hd. by right.
  - eapply (synced_emit M ac s a [PT (LElse ii)]); try done; cbn [l_frames l_set_frames lf_set_if_false].
    + set_solver.
    + simpl. rewrite Eb. by rewrite layout_None.
    + constructor.
      * rewrite (sy_try _ _ _ _ Hs). constructor; simpl; try done; [apply vec_ok_nil| |].
        -- rewrite holes_nil; [done|]. rewrite targets_app. set_solver.
        -- intros _. rewrite holes_app, (holes_nil _ _ (a_code a)) by done. simpl. rewrite bool_decide_true by done. simpl.
           by rewrite (synced_size M ac s a Hs).
      * apply frames_app; [apply Hs|]. eapply Forall_impl; [by apply (fresh_id K a ii)|]. intros f Hf. set_solver.
    + rewrite holes_app. simpl. rewrite app_nil_r. apply Hs.
    + apply Hs.
Qed.

(** ** Placing the labels of a block *)

(** The labels [ls] of the innermost frame are placed, and the others left to [f1]. *)
Lemma asm_ok_settle K a f fs ls f1 : asm_ok K a -> a_frames a = f :: fs -> NoDup ls -> Forall (frame_label f) ls ->
  (forall l, frame_label f l -> l ∈ ls \/ Exists (fun g => frame_label g l) f1) ->
  (f1 = [] \/ exists g, f1 = [g] /\ af_id g = af_id f /\ (forall l, frame_label g l -> frame_label f l /\ l ∉ ls) /\
     af_trim g = af_trim f /\ is_loop (af_op f) = false) ->
  asm_ok K (set_frames (f1 ++ fs) (emit (PL <$> ls) a)).
Proof.
  intros [] Ef Hnd Hls Hall Hf1. rewrite Ef in *.
  assert (Hpl : placed (PL <$> ls) = ls) by (clear; induction ls as [|l ls IH]; [done|]; rewrite fmap_cons; simpl; by f_equal).
  assert (Htg : targets (PL <$> ls) = []) by (clear; by induction ls).
  assert (Hcs : costs (PL <$> ls) = []) by (clear; by induction ls).
  apply Forall_cons_1 in ao_frames as [[Hfl Hft] Hfs]. rewrite fmap_cons in ao_ids. apply NoDup_cons in ao_ids as [Hnid Hids].
  assert (Hls' : forall l, l ∈ ls -> K l /\ l ∉ placed (a_code a)) by (intros l Hl; apply Hfl; by apply (proj1 (Forall_forall _ _) Hls)).
  assert (Hother : forall g l, g ∈ fs -> frame_label g l -> l ∉ ls).
  { intros g l Hg Hgl Hl. pose proof (proj1 (Forall_forall _ _) Hls l Hl) as Hlf. apply Hnid, list_elem_of_fmap. exists g. split; [|done].
    destruct Hgl as [->|[_ ->]], Hlf as [E|[_ E]]; congruence. }
  constructor; change (a_code (set_frames (f1 ++ fs) (emit (PL <$> ls) a))) with (a_code (emit (PL <$> ls) a));
    rewrite ?a_code_emit, ?placed_app, ?targets_app, ?costs_app, ?Hpl, ?Htg, ?Hcs, ?app_nil_r; try done; simpl.
  - intros l [Hl|Hl]%elem_of_app; [by apply ao_placed|]. pose proof (proj1 (Forall_forall _ _) Hls l Hl) as Hlf.
    destruct (Hls' l Hl). by destruct Hlf as [->|[_ ->]].
  - apply NoDup_app. split_and!; [done| |done]. intros l Hl1 Hl2. by destruct (Hls' l Hl2).
  - intros l Hl. unfold settled. rewrite placed_app, Hpl, elem_of_app, Exists_app.
    destruct (ao_settled l Hl) as [H|[H|[H|H]]]; [tauto..|]. apply Exists_cons in H as [H|H]; [|tauto].
    destruct (Hall l H); tauto.
  - apply Forall_app. split.
    + destruct Hf1 as [->|(g & -> & Eg & Hg & Et & Elo)]; [done|]. constructor; [|done]. split.
      * intros l Hl. destruct (Hg l Hl) as [Hl1 Hl2]. destruct (Hfl l Hl1). split; [done|].
        rewrite placed_app, Hpl, elem_of_app. tauto.
      * rewrite Et, Eg, targets_app, Htg, app_nil_r. intros H _. by apply Hft.
    + apply Forall_forall. intros g Hg. pose proof (proj1 (Forall_forall _ _) Hfs g Hg) as [H1 H2]. split.
      * intros l Hl. destruct (H1 l Hl). split; [done|]. rewrite placed_app, Hpl, elem_of_app. intros [?|?]; [done|].
        by eapply Hother.
      * rewrite targets_app, Htg, app_nil_r. done.
  - rewrite fmap_app. destruct Hf1 as [->|(g & -> & Eg & _)]; [done|]. simpl. rewrite Eg. by constructor.
  - intros rs Hrs. destruct (ao_open rs Hrs) as (H1 & H2 & H3 & tl & E & H4 & H5). split_and!; try done.
    exists (tl ++ (PL <$> ls)). rewrite E, costs_app, targets_app, H4, Htg, Hcs, <- app_assoc. split_and!; [done|done|]. intros c. rewrite app_nil_r. apply H5.
Qed.

Lemma wp_patch off v (Q : unit -> lstate -> Prop) s : 0 <= off -> off + 4 <= buf_size s ->
  Q tt (l_set_buf (Vec (mem_store (vec_list (l_buf s)) off (le_bytes 4 v)) (vec_cap (l_buf s))) s) -> wp (WAH_LOWER_PATCH_U32 off v) Q s.
Proof. intros H1 H2 HQ. eapply wp_write; [|done]. by apply wah_write_u32_le_spec. Qed.

Lemma wp_patches offs v (Q : unit -> lstate -> Prop) s : Forall (fun off => 0 <= off /\ off + 4 <= buf_size s) offs ->
  Q tt (l_set_buf (Vec (apply_patches offs v (vec_list (l_buf s))) (vec_cap (l_buf s))) s) -> wp (WAH_LOWER_APPLY_PATCHES offs v) Q s.
Proof.
  revert s. induction offs as [|off offs IH]; intros s Hf HQ.
  - apply wp_skip. destruct s as [? [] ? ? ? ? ? ?]. exact HQ.
  - apply Forall_cons_1 in Hf as [[H1 H2] Hf]. apply wp_bind, wp_patch; [done|done|]. apply IH; [|exact HQ].
    eapply Forall_impl; [done|]. intros x [Hx1 Hx2]. split; [done|]. unfold buf_size, vec_size, zlen in *. simpl.
    by rewrite mem_store_length.
Qed.

Lemma holes_bounds l ps : Forall (fun off => 0 <= off /\ off + 4 <= code_size ps) (holes l 0 ps).
Proof. apply Forall_forall. intros off H%holes_in_range. lia. Qed.

(** The branches to the end of the innermost block, and the false edge of an [if]
    without an [else], are patched when its labels are placed between [ps] and [qs]. *)
Lemma wp_finish s a a1 a2 f fs ps qs (Q : unit -> lstate -> Prop) : synced s a -> a_frames a = f :: fs ->
  LEnd (af_id f) ∉ placed (a_code a) -> LElse (af_id f) ∉ placed (a_code a) \/ is_if (af_op f) = false ->
  a_code a = ps ++ qs -> with_label (LEnd (af_id f)) a a1 -> a_code a1 = ps ++ PL (LEnd (af_id f)) :: qs ->
  (if is_if (af_op f) then with_label (LElse (af_id f)) a1 a2 /\ a_code a2 = ps ++ PL (LElse (af_id f)) :: PL (LEnd (af_id f)) :: qs
   else a2 = a1) ->
  (forall s', synced s' (set_frames fs a2) -> Q tt s') -> wp (WAH_LOWER_FINISH_FRAME (code_size ps)) Q s.
Proof.
  intros Hs Ef Hn1 Hn2 E1 Hw1 E2 Hi HQ. pose proof (sy_frames _ _ _ _ Hs) as Hf. rewrite Ef in Hf.
  destruct (l_frames s) as [|cf l] eqn:El; inversion Hf as [|? ? ? ? Hcf Hfs]; subst.
  pose proof (synced_size M ac s a Hs) as Hsz.
  apply wp_bind. eapply wp_frame; [by rewrite El|]. rewrite (fr_patches _ _ _ Hcf), (fr_op _ _ _ Hcf).
  apply wp_bind, wp_patches; [rewrite Hsz; apply holes_bounds|].
  set (b1 := Vec (apply_patches (holes (LEnd (af_id f)) 0 (a_code a)) (code_size ps) (vec_list (l_buf s))) (vec_cap (l_buf s))).
  pose proof (synced_insert s a a1 _ b1 ps qs Hs Hw1 Hn1 E1 E2 eq_refl eq_refl) as Hs1.
  assert (Hpop : forall s' a', synced s' a' -> l_frames s' = cf :: l -> a_frames a' = f :: fs -> synced (l_set_frames (drop 1 (l_frames s')) s') (set_frames fs a')).
  { intros s' a' Hs' Es' Ea'. apply synced_frames; [done|]. pose proof (sy_frames _ _ _ _ Hs') as Hf'. rewrite Es', Ea' in Hf'.
    rewrite Es'. by inversion Hf'. }
  destruct (is_if (af_op f)) eqn:Eif.
  - destruct Hi as [Hw2 E3]. destruct Hn2 as [Hn2|]; [|done]. apply wp_bind.
    assert (Hh : holes (LElse (af_id f)) 0 (a_code a1) = [lf_if_false_patch cf])
      by (rewrite (inserted_holes _ _ _ _ (wl_code _ _ _ Hw1)); by apply (fr_if _ _ _ Hcf)).
    assert (Hr : lf_if_false_patch cf ∈ holes (LElse (af_id f)) 0 (a_code a1)) by (rewrite Hh; set_solver).
    apply holes_in_range in Hr. pose proof (synced_size M ac _ _ Hs1) as Hsz1.
    apply wp_patch; [lia|rewrite Hsz1; lia|]. apply wp_modify, HQ, Hpop; [|done|].
    + eapply (synced_insert _ a1 a2 _ _ ps (PL (LEnd (af_id f)) :: qs) Hs1 Hw2); [|done|done|by rewrite Hh|done].
      rewrite E2, elem_of_placed_insert, <- E1. intros [|]; done.
    + by rewrite (wl_frames _ _ _ Hw2), (wl_frames _ _ _ Hw1).
  - subst a2. apply wp_bind, wp_skip, wp_modify, HQ, Hpop; [done|done|]. by rewrite (wl_frames _ _ _ Hw1).
Qed.

(** ** Stack maps *)

Lemma encode_maps_snoc start ms p ts : encode_maps start (ms ++ [(p, ts)]) = encode_maps start ms ++ [StackMap p (zlen ts) (start + zlen (ms ≫= snd))].
Proof.
  revert start. induction ms as [|[p' ts'] ms IH]; intros start; simpl; [by rewrite Z.add_0_r|].
  by rewrite IH, zlen_app, Z.add_assoc.
Qed.
Lemma encode_maps_length start ms : length (encode_maps start ms) = length ms.
Proof. revert start. induction ms as [|[p ts] ms IH]; intros start; simpl; [done|]. by rewrite IH. Qed.

Lemma last_snoc_cases {A} (l : list A) : l = [] \/ exists l0 x, l = l0 ++ [x].
Proof. destruct l as [|x l] using rev_ind; [by left|right; eauto]. Qed.

Lemma map_label_inv pos ti single loop a a' : map_label M pos ti single loop a = Some a' ->
  exists ms, a' = set_maps ms a /\ forall x, a_maps x = a_maps a -> map_label M pos ti single loop x = Some (set_maps ms x).
Proof.
  unfold map_label. destruct (wah_block_label_types M ti single loop) as [lt|]; [|done]. simpl.
  destruct (existsb WAH_TYPE_IS_REF lt); intros [= <-].
  - eexists. split; [done|]. by intros x ->.
  - exists (a_maps a). split; [by destruct a|]. intros x <-. by destruct x.
Qed.

(** The types kept, and the number of types before those of the new map. *)
Lemma wp_map pos ti single loop a' (Q : unit -> lstate -> Prop) s a : synced s a -> map_label M pos ti single loop a = Some a' ->
  (forall s', synced s' a' -> Q tt s') -> wp (WAH_LOWER_STACK_MAP M pos ti single loop) Q s.
Proof.
  intros Hs Hm HQ. unfold map_label in Hm. apply wp_bind.
  destruct (wah_block_label_types M ti single loop) as [lt|]; [|done]. eapply wp_opt; [done|]. simpl in Hm.
  destruct (existsb WAH_TYPE_IS_REF lt); [|injection Hm as <-; by apply wp_skip, HQ]. injection Hm as <-. cbn [negb].
  apply wp_bind, wp_get. pose proof Hs as Hs0. destruct Hs.
  pose proof (vec_ok_bound _ sy_types_ok) as Hbt. pose proof (vec_ok_bound _ sy_maps_ok) as Hbm. pose proof (zlen_nonneg lt) as Hlt.
  assert (Hgo : forall (maps : list wah_stack_map_t) keep tc start (ts0 : list wah_type_t) (ms0 : list (Z * list wah_type_t)),
    maps = encode_maps 0 ms0 -> zlen maps <= vec_cap (l_maps s) -> keep = zlen ts0 -> start = zlen (ms0 ≫= snd) -> tc = start + keep -> tc <= 2 ^ 31 ->
    take (Z.to_nat tc) (vec_list (l_map_types s)) = (ms0 ≫= snd) ++ ts0 ->
    add_map pos lt (a_maps a) = ms0 ++ [(pos, ts0 ++ lt)] ->
    wp (maps <- on_l_answers (vec_push sizeof_wah_stack_map_t (StackMap pos (u32 (keep + zlen lt)) (u32 (tc - keep))) (Vec maps (vec_cap (l_maps s)))) ;;
        ts <- on_l_answers (vec_ensure (tc + zlen lt) 4 (l_map_types s)) ;;
        modify (l_set_maps maps (Vec (take (Z.to_nat tc) (vec_list ts) ++ lt) (vec_cap ts)))) Q s).
  { intros maps keep tc start ts0 ms0 -> Hcap -> -> -> Htc Htk Hadd. pose proof (zlen_nonneg ts0). pose proof (zlen_nonneg (ms0 ≫= snd)).
    apply wp_bind, wp_on_l_answers. apply wp_vec_push; [split; [apply sy_maps_ok|exact Hcap]|]. intros v ans Hv Ev. simpl in Ev.
    apply wp_bind, wp_on_l_answers. apply wp_vec_ensure; [done|]. intros c ans' Hc Hc' Hcok. simpl.
    pose proof (cap_ok_range c Hcok). apply wp_modify, HQ. constructor; simpl; try done.
    - by apply metering_maps.
    - rewrite Ev, Hadd, encode_maps_snoc. rewrite !u32_small by lia. do 2 f_equal. rewrite zlen_app. f_equal. lia.
    - rewrite Htk, Hadd, bind_app. simpl. by rewrite app_nil_r, app_assoc.
    - split; [done|]. unfold vec_size. simpl. rewrite Htk, !zlen_app. lia. }
  assert (Hnew : (a_maps a = [] \/ exists l p ts, a_maps a = l ++ [(p, ts)] /\ p <> pos) ->
    wp (maps <- on_l_answers (vec_push sizeof_wah_stack_map_t (StackMap pos (u32 (0 + zlen lt)) (u32 (vec_size (l_map_types s) - 0))) (Vec (vec_list (l_maps s)) (vec_cap (l_maps s)))) ;;
        ts <- on_l_answers (vec_ensure (vec_size (l_map_types s) + zlen lt) 4 (l_map_types s)) ;;
        modify (l_set_maps maps (Vec (take (Z.to_nat (vec_size (l_map_types s))) (vec_list ts) ++ lt) (vec_cap ts)))) Q s).
  { intros Hcase. assert (Hts : vec_size (l_map_types s) = zlen (a_maps a ≫= snd)) by (unfold vec_size; by rewrite sy_types).
    apply (Hgo _ _ _ (zlen (a_maps a ≫= snd)) [] (a_maps a)); try done.
    - apply sy_maps_ok.
    - change (zlen []) with 0. lia.
    - lia.
    - rewrite app_nil_r, <- sy_types. unfold vec_size, zlen. rewrite Nat2Z.id. by rewrite take_ge.
    - unfold add_map. destruct Hcase as [->|(l & p & ts & -> & Hp)]; [done|]. rewrite last_snoc. by rewrite (proj2 (Z.eqb_neq _ _)). }
  destruct (last (vec_list (l_maps s))) as [prev|] eqn:Elast; rewrite sy_maps in Elast;
    destruct (last_snoc_cases (a_maps a)) as [El|(l & [p ts] & El)]; rewrite El in Elast; rewrite ?encode_maps_snoc, ?last_snoc in Elast;
    simplify_eq/=; [|apply Hnew; by left].
  destruct (Z.eqb_spec p pos) as [->|Hp]; [|apply Hnew; right; by exists l, p, ts].
  assert (Ety : vec_list (l_map_types s) = (l ≫= snd) ++ ts) by (rewrite sy_types, El, bind_app; simpl; by rewrite app_nil_r).
  assert (Elen : vec_size (l_map_types s) = zlen (l ≫= snd) + zlen ts) by (unfold vec_size; by rewrite Ety, zlen_app).
  assert (Ekeep : (if zlen lt <? zlen ts then zlen ts - zlen lt else 0) = zlen (take (length ts - length lt) ts)).
  { unfold zlen. rewrite length_take. destruct (Z.ltb_spec (Z.of_nat (length lt)) (Z.of_nat (length ts))); lia. }
  rewrite Ekeep. pose proof (zlen_nonneg (l ≫= snd)).
  assert (Hk : 0 <= zlen (take (length ts - length lt) ts) <= zlen ts) by (unfold zlen; rewrite length_take; lia).
  rewrite Z.add_0_l, (u32_small (_ + _)) by lia. apply (Hgo _ _ _ (zlen (l ≫= snd)) (take (length ts - length lt) ts) l); try done; try lia.
  - rewrite sy_maps, El, encode_maps_snoc, length_app, encode_maps_length. simpl.
    rewrite take_app_le by (rewrite encode_maps_length; lia). apply take_ge. rewrite encode_maps_length. lia.
  - destruct sy_maps_ok as [_ Hsz]. unfold vec_size, zlen in *. rewrite length_take. lia.
  - rewrite Ety. rewrite take_app. unfold zlen. rewrite !length_take. f_equal; [apply take_ge; lia|]. f_equal. lia.
  - unfold add_map. rewrite El, last_snoc, Z.eqb_refl, length_app. simpl. rewrite take_app_le by lia. by rewrite take_ge by lia.
Qed.

(** ** The [else] of an [if] *)

Lemma is_if_not_loop op : is_if op = true -> is_loop op = false.
Proof. by destruct op. Qed.

Lemma synced_else s a f fs s1 f' : synced s (emit [PT (LEnd (af_id f))] a) -> a_frames a = f :: fs -> is_if (af_op f) = true ->
  LElse (af_id f) ∉ placed (a_code a) -> f' = AFrame (af_id f) WAH_OP_ELSE (af_try f) (af_trim f) (af_type_idx f) (af_single f) ->
  (forall cf l, l_frames s = cf :: l -> s1 = l_set_frames (lf_set_else cf :: l)
     (l_set_buf (Vec (mem_store (vec_list (l_buf s)) (lf_if_false_patch cf) (le_bytes 4 (code_size (a_code a) + 4))) (vec_cap (l_buf s))) s)) ->
  synced s1 (emit [PT (LEnd (af_id f)); PL (LElse (af_id f))] (set_frames (f' :: fs) a)).
Proof.
  intros Hs Ef Hi Hn -> Hs1. pose proof (sy_frames _ _ _ _ Hs) as Hf. cbn [a_frames emit] in Hf. rewrite Ef in Hf.
  destruct (l_frames s) as [|cf l] eqn:El; inversion Hf as [|? ? ? ? Hcf Hfs]; subst. specialize (Hs1 cf l eq_refl). subst s1.
  rewrite a_code_emit in Hcf, Hfs.
  set (a1 := emit [PT (LEnd (af_id f))] a) in *. assert (Ec1 : a_code a1 = a_code a ++ [PT (LEnd (af_id f))]) by apply a_code_emit.
  assert (Hn1 : LElse (af_id f) ∉ placed (a_code a1)) by (rewrite Ec1, placed_app, app_nil_r; done).
  pose proof (fr_if _ _ _ Hcf Hi) as Hh. rewrite <- Ec1 in Hh.
  pose proof (with_label_emit (LElse (af_id f)) a1) as Hw.
  assert (Hs2 : synced (l_set_buf (Vec (mem_store (vec_list (l_buf s)) (lf_if_false_patch cf) (le_bytes 4 (code_size (a_code a) + 4))) (vec_cap (l_buf s))) s)
    (emit [PL (LElse (af_id f))] a1)).
  { eapply (synced_insert s a1 _ _ _ (a_code a1) [] Hs Hw); [done|by rewrite app_nil_r|apply a_code_emit| |done].
    rewrite Hh. simpl. by rewrite Ec1, code_size_app. }
  assert (Ea : emit [PT (LEnd (af_id f)); PL (LElse (af_id f))] (set_frames (AFrame (af_id f) WAH_OP_ELSE (af_try f) (af_trim f) (af_type_idx f) (af_single f) :: fs) a)
    = set_frames (AFrame (af_id f) WAH_OP_ELSE (af_try f) (af_trim f) (af_type_idx f) (af_single f) :: fs) (emit [PL (LElse (af_id f))] a1)).
  { unfold a1. rewrite emit_emit. done. }
  rewrite Ea. apply synced_frames; [done|]. pose proof (sy_frames _ _ _ _ Hs2) as Hf2. cbn [l_frames l_set_buf a_frames emit a1] in Hf2.
  rewrite El, Ef in Hf2. inversion Hf2 as [|? ? ? ? Hc2 Hfs2]; subst. constructor; [|done].
  destruct Hc2. constructor; simpl; done.
Qed.

Lemma wp_else K f fs f' (Q : unit -> lstate -> Prop) s a : lowered K s a -> a_frames a = f :: fs -> is_if (af_op f) = true ->
  f' = AFrame (af_id f) WAH_OP_ELSE (af_try f) (af_trim f) (af_type_idx f) (af_single f) ->
  (forall s', lowered K s' (emit [PT (LEnd (af_id f)); PL (LElse (af_id f))] (set_frames (f' :: fs) a)) -> Q tt s') ->
  wp lower_else Q s.
Proof.
  intros [Ha Hs] Ef Hi Ef' HQ. pose proof (sy_frames _ _ _ _ Hs) as Hf. rewrite Ef in Hf.
  destruct (l_frames s) as [|cf l] eqn:El; inversion Hf as [|? ? ? ? Hcf Hfs]; subst.
  pose proof (ao_frames _ _ Ha) as Hfo. rewrite Ef in Hfo. apply Forall_cons_1 in Hfo as [[Hfl Hft] _].
  destruct (Hfl (LEnd (af_id f))) as [HK1 Hp1]; [by left|]. destruct (Hfl (LElse (af_id f))) as [HK2 Hp2]; [by right|].
  pose proof (synced_size M ac s a Hs) as Hsz.
  assert (Hr : lf_if_false_patch cf ∈ holes (LElse (af_id f)) 0 (a_code a)) by (rewrite (fr_if _ _ _ Hcf Hi); set_solver).
  apply holes_in_range in Hr.
  apply wp_bind. eapply wp_frame; [by rewrite El|]. rewrite (fr_op _ _ _ Hcf), Hi. apply wp_bind, wp_skip.
  apply wp_bind, wp_get_size. apply wp_bind, wp_u32_raw; [apply Hs|]. intros b ans Hb Eb.
  apply wp_bind, wp_get_size. unfold buf_size at 1. cbn [l_buf].
  assert (Hszb : vec_size b = code_size (a_code a) + 4) by (unfold vec_size; rewrite Eb, zlen_app; unfold buf_size, vec_size in Hsz; rewrite Hsz; done).
  apply wp_bind, wp_patch; [lia|unfold buf_size; cbn [l_buf]; lia|]. cbn [l_buf l_set_buf].
  apply wp_bind. eapply wp_update_frame; [cbn [l_frames l_set_buf]; by rewrite El|by apply zset_Some; cbn [l_frames l_set_buf]; rewrite El; unfold zlen; simpl; lia|].
  apply wp_bind. eapply wp_frame; [cbn [l_frames l_set_buf l_set_frames]; by rewrite El|]. cbn [lf_set_else lf_patch_offsets].
  apply wp_bind, wp_on_l_answers, wp_vec_push; [apply Hcf|]. intros v ans' Hv Ev.
  eapply wp_update_frame; [cbn [l_frames l_set_buf l_set_frames]; by rewrite El|by apply zset_Some; cbn [l_frames l_set_buf l_set_frames]; rewrite El; unfold zlen; simpl; lia|].
  apply HQ. split.
  - set (a1 := emit [PT (LEnd (af_id f))] a).
    assert (Ha1 : asm_ok K (set_frames (f :: fs) a1)).
    { apply asm_ok_emit; [done|done|done| |rewrite Ef; apply marked_refl]. intros l' ->%list_elem_of_singleton. split; [done|].
      right; right; right. apply Exists_cons_hd. by left. }
    pose proof (asm_ok_settle K (set_frames (f :: fs) a1) f fs [LElse (af_id f)]
      [AFrame (af_id f) WAH_OP_ELSE (af_try f) (af_trim f) (af_type_idx f) (af_single f)] Ha1 eq_refl) as Hset.
    rewrite emit_set_frames in *. unfold a1 in Hset. rewrite emit_emit in Hset. apply Hset.
    + apply NoDup_singleton.
    + constructor; [by right|done].
    + intros l' [->|[_ ->]]; [right|left; set_solver]. apply Exists_cons_hd. by left.
    + right. eexists. split_and!; [done|done| |done|by apply is_if_not_loop]. intros l' [->|[H _]]; [|done].
      split; [by left|]. intros H. apply list_elem_of_singleton in H. done.
  - set (sA := LState ans' b (l_maps s) (l_map_types s) (lf_set_patches v cf :: l) (l_try_depth s) (l_end_patches s) (l_meter s)).
    apply (synced_else sA a f fs); try done.
    + assert (Ea : emit [PT (LEnd (af_id f))] a = set_frames (f :: fs) (emit [PT (LEnd (af_id f))] a)) by (rewrite <- Ef; by destruct a).
      rewrite Ea. apply (synced_emit M ac s a [PT (LEnd (af_id f))] _ (f :: fs) b (l_end_patches s) ans'); try done.
      * set_solver.
      * rewrite Eb. simpl. by rewrite layout_None.
      * pose proof (ao_ids _ _ Ha) as Hid. rewrite Ef, fmap_cons in Hid. apply NoDup_cons in Hid as [Hid _]. constructor.
        -- destruct Hcf. constructor; simpl; try done.
           ++ unfold buf_size in Hsz. rewrite Ev, fr_patches, Hsz, holes_app. simpl. by rewrite bool_decide_true.
           ++ intros H. by apply address_app_Some, fr_loop.
           ++ intros H. rewrite holes_app, (holes_nil _ _ [_]), app_nil_r by set_solver. by apply fr_if.
        -- apply frames_app; [done|]. apply Forall_forall. intros g Hg. split; [|set_solver]. simpl. intros H%list_elem_of_singleton.
           apply Hid, list_elem_of_fmap. exists g. split; [congruence|done].
      * rewrite holes_app. simpl. rewrite app_nil_r. apply Hs.
      * apply Hs.
    + intros cf0 l0 [= <- <-]. unfold buf_size. simpl. rewrite Hszb, El. done.
Qed.

(** ** The end of a block *)

Definition end_labels (f : aframe) : list label := (if is_if (af_op f) then [LElse (af_id f)] else []) ++ [LEnd (af_id f)].

Lemma place_end_labels f a : place_end f a = emit (PL <$> end_labels f) a.
Proof. unfold place_end, end_labels. by destruct (is_if (af_op f)). Qed.

Lemma asm_ok_place_end K a f fs : asm_ok K a -> a_frames a = f :: fs -> asm_ok K (set_frames fs (place_end f a)).
Proof.
  intros Ha Ef. rewrite place_end_labels. apply (asm_ok_settle K a f fs (end_labels f) [] Ha Ef); [| | |by left]; unfold end_labels.
  - destruct (is_if (af_op f)); simpl; repeat constructor; set_solver.
  - destruct (is_if (af_op f)) eqn:E; simpl; repeat apply Forall_cons_2; try apply Forall_nil_2; [by right|by left|by left].
  - intros l [->|[E ->]]; left; [destruct (is_if (af_op f)); set_solver|rewrite E; set_solver].
Qed.

Lemma frame_unplaced K a f fs : asm_ok K a -> a_frames a = f :: fs ->
  LEnd (af_id f) ∉ placed (a_code a) /\ (LElse (af_id f) ∉ placed (a_code a) \/ is_if (af_op f) = false).
Proof.
  intros Ha Ef. pose proof (ao_frames _ _ Ha) as Hf. rewrite Ef in Hf. apply Forall_cons_1 in Hf as [[Hl _] _].
  split; [apply (Hl (LEnd (af_id f))); by left|]. destruct (is_if (af_op f)) eqn:E; [left|by right].
  apply (Hl (LElse (af_id f))). by right.
Qed.

Lemma wp_finish_plain K s a f fs (Q : unit -> lstate -> Prop) : lowered K s a -> a_frames a = f :: fs ->
  (forall s', lowered K s' (set_frames fs (place_end f a)) -> Q tt s') -> wp (WAH_LOWER_FINISH_FRAME (asm_size a)) Q s.
Proof.
  intros [Ha Hs] Ef HQ. destruct (frame_unplaced K a f fs Ha Ef) as [Hn1 Hn2]. pose proof (asm_ok_place_end K a f fs Ha Ef) as Ha'.
  apply (wp_finish s a (emit [PL (LEnd (af_id f))] a) (place_end f a) f fs (a_code a) []); try done.
  - by rewrite app_nil_r.
  - apply with_label_emit.
  - apply a_code_emit.
  - unfold place_end. destruct (is_if (af_op f)); [|done]. split; [|by rewrite a_code_emit].
    assert (Hc : inserted (LElse (af_id f)) (a_code (emit [PL (LEnd (af_id f))] a)) (a_code (emit [PL (LElse (af_id f)); PL (LEnd (af_id f))] a)))
      by (exists (a_code a), [PL (LEnd (af_id f))]; by rewrite !a_code_emit).
    constructor; try done. unfold closed_code. cbn [a_open emit]. destruct (a_open a); [by left|by right].
  - intros s' Hs'. apply HQ. by split.
Qed.

(** In metered code the labels come before the METER of the chunk that starts there. *)
Lemma wp_finish_chunk K s b ms f fs (Q : unit -> lstate -> Prop) : metered = true -> a_open b = None -> asm_ok K b -> a_frames b = f :: fs ->
  synced s (set_maps ms (start_chunk M ac b)) ->
  (forall s', lowered K s' (set_maps ms (start_chunk M ac (set_frames fs (place_end f b)))) -> Q tt s') ->
  wp (WAH_LOWER_FINISH_FRAME (asm_size b)) Q s.
Proof.
  intros Em Eo Hb Ef Hs HQ. destruct (frame_unplaced K b f fs Hb Ef) as [Hn1 Hn2].
  pose proof (asm_ok_maps K _ ms (asm_ok_start M ac K _ (asm_ok_place_end K b f fs Hb Ef))) as Ha'.
  unfold start_chunk in *. cbn [a_open set_frames place_end emit] in *. rewrite Eo, Em in *.
  set (mc := meter_code (zlen (a_chunks b))) in *.
  set (mk := fun ps => Asm (a_code b ++ ps) mc (a_frames b) (a_try b) (Some []) (a_chunks b) ms).
  assert (Hmk : forall ps, a_code (mk ps) = a_code b ++ ps ++ mc) by (intros ps; unfold mk, a_code at 1; simpl; by rewrite <- app_assoc).
  assert (Hw : forall l ps, with_label l (mk ps) (mk (PL l :: ps))).
  { intros l ps. assert (Hi : inserted l (a_code b ++ ps) (a_code b ++ PL l :: ps)) by (by exists (a_code b), ps).
    constructor; try done; [|by right|].
    - exists (a_code b), (ps ++ mc). by rewrite !Hmk.
    - simpl. by rewrite code_size_insert. }
  assert (E0 : set_maps ms (Asm (a_code b) mc (a_frames b) (a_try b) (Some []) (a_chunks b) (a_maps b)) = mk []) by (unfold mk; by rewrite app_nil_r).
  rewrite E0 in Hs.
  assert (Hpl : placed (a_code (mk [])) = placed (a_code b)) by (rewrite Hmk; simpl; rewrite placed_app; unfold mc; simpl; by rewrite app_nil_r).
  apply (wp_finish s (mk []) (mk [PL (LEnd (af_id f))]) (mk (PL <$> end_labels f)) f fs (a_code b) mc);
    [exact Hs|exact Ef|by rewrite Hpl|by rewrite Hpl|by rewrite Hmk|apply Hw|by rewrite Hmk| |].
  - unfold end_labels. destruct (is_if (af_op f)); [|done]. split; [apply Hw|by rewrite Hmk].
  - intros s' Hs'. apply HQ. split; [exact Ha'|].
    assert (Efin : set_frames fs (mk (PL <$> end_labels f)) =
      set_maps ms (Asm (a_code (set_frames fs (place_end f b))) mc fs (a_try b) (Some []) (a_chunks b) (a_maps b))).
    { rewrite place_end_labels. change (a_code (set_frames fs (emit ?ps b))) with (a_code (emit ps b)). by rewrite a_code_emit. }
    rewrite Efin in Hs'. exact Hs'.
Qed.

End Frames.
