(* ===== verification/LowerCode.v ===== *)
(** * Lowering: the code of an instruction

    The opcode and the immediates that the switch of [wah_lower_analyzed_code] writes
    for an instruction are the code of LowerSpec for it. *)

From S2P Require Import Prelude Base Alloc Types Opcodes Bytes Decode Subtype ModuleEnv Operands Validate Analyze Lowering Assembly LowerSpec LowerInv LowerChunk LowerFrame.
From stdpp Require Import list sets.
#[local] Open Scope Z_scope.
#[local] Open Scope wah_scope.

(** ** Definitions *)

(** The code of an instruction only changes the frames. *)
Definition frames_only (f : asm -> option (list piece * asm)) (a : asm) : Prop := forall ps a', f a = Some (ps, a') ->
  exists fs, a' = set_frames fs a /\ forall x, a_frames x = a_frames a -> a_try x = a_try a -> f x = Some (ps, set_frames fs x).
(** Operands: no METER and no branch to a chunk; a label is only placed last. *)
Definition operands_ok (ps : list piece) : Prop :=
  costs ps = [] /\ forall l, l ∈ targets ps -> match l with LSlow _ | LNext _ => False | _ => True end.
Definition code_ok (ps : list piece) : Prop := operands_ok ps /\ exists o rest, ps = P16 o :: rest.

(** ** The shape of code *)

Lemma operands_nil : operands_ok [].
Proof. split; [done|set_solver]. Qed.
Lemma operands_PB bs ps : operands_ok ps -> operands_ok (PB bs :: ps).
Proof. done. Qed.
Lemma operands_PL l ps : operands_ok ps -> operands_ok (PL l :: ps).
Proof. done. Qed.
Lemma operands_PT l ps : operands_ok ps -> match l with LSlow _ | LNext _ => False | _ => True end -> operands_ok (PT l :: ps).
Proof. intros [H1 H2] Hl. split; [done|]. simpl. intros l' [->|H]%elem_of_cons; [done|by apply H2]. Qed.
Lemma operands_app ps qs : operands_ok ps -> operands_ok qs -> operands_ok (ps ++ qs).
Proof. intros [H1 H2] [H3 H4]. split; [by rewrite costs_app, H1, H3|]. intros l. rewrite targets_app, elem_of_app. naive_solver. Qed.
Lemma code_P16 o ps : operands_ok ps -> code_ok (P16 o :: ps).
Proof. intros H. split; [by apply operands_PB|by eexists _, _]. Qed.
#[export] Hint Resolve operands_nil operands_PB operands_PL operands_app code_P16 : lower.
#[export] Hint Unfold P16 P32 P64 : lower.

Lemma branch_ok_label depth a l a' : branch_to depth a = Some (l, a') -> match l with LSlow _ | LNext _ => False | _ => True end.
Proof.
  intros [(_ & -> & _)|(f & _ & _ & -> & _)]%branch_to_inv; [done|]. unfold end_label. by destruct (is_loop (af_op f)).
Qed.

Lemma code_ok_instr ps : code_ok ps -> instr_code ps.
Proof. intros ([H1 H2] & o & rest & ->). split; [done|]. split; [done|]. right. by exists o, (strip rest). Qed.

Lemma frames_only_pure (g : option (list piece)) a : frames_only (fun a => ps ← g; Some (ps, a)) a.
Proof. intros ps a'. destruct g; simpl; [|done]. intros [= <- <-]. exists (a_frames a). split; [by destruct a|]. intros x <- _. by destruct x. Qed.

Lemma branch_frames depth a l a' : branch_to depth a = Some (l, a') ->
  exists fs, a' = set_frames fs a /\ forall x, a_frames x = a_frames a -> a_try x = a_try a -> branch_to depth x = Some (l, set_frames fs x).
Proof.
  unfold branch_to. destruct (depth =? zlen (a_frames a)) eqn:E.
  - intros [= <- <-]. exists (a_frames a). split; [by destruct a|]. intros x Hx _. rewrite Hx, E. rewrite <- Hx. by destruct x.
  - destruct (zget (a_frames a) depth) as [f|] eqn:Hf; [|done]. simpl. destruct (zset (a_frames a) depth (mark (a_try a) f)) as [fs|] eqn:Hs; [|done].
    intros [= <- <-]. exists fs. split; [done|]. intros x -> ->. rewrite E, Hf. simpl. by rewrite Hs.
Qed.
Lemma push_frames ii op ti single a a' : push_frame ii op ti single a = Some a' ->
  exists fs, a' = set_frames fs a /\ forall x, a_frames x = a_frames a -> a_try x = a_try a -> push_frame ii op ti single x = Some (set_frames fs x).
Proof.
  unfold push_frame. destruct (zlen (a_frames a) <? WAH_MAX_CONTROL_DEPTH) eqn:E; [|done]. intros [= <-].
  eexists. split; [done|]. intros x -> ->. by rewrite E.
Qed.
Lemma set_frames_twice fs fs' a : set_frames fs (set_frames fs' a) = set_frames fs a.
Proof. done. Qed.

Lemma table_records_frames n r bt a : frames_only (table_records n r bt) a.
Proof.
  revert r a. induction n as [|n IH]; intros r a ps a'; simpl.
  - intros [= <- <-]. exists (a_frames a). split; [by destruct a|]. intros x <- _. by destruct x.
  - destruct (wah_br_table_symbol bt r) as [symbol|]; [|done]. simpl. destruct (branch_to symbol a) as [[l a1]|] eqn:Eb; [|done]. simpl.
    destruct (branch_frames _ _ _ _ Eb) as (fs & -> & Hfs). destruct (wah_br_table_drop bt r) as [d|]; [|done]. simpl.
    destruct (table_records n (r + 1) bt (set_frames fs a)) as [[ps1 a2]|] eqn:Er; [|done]. simpl. intros [= <- <-].
    destruct (IH _ _ _ _ Er) as (fs' & -> & Hfs'). exists fs'. split; [done|]. intros x Hx Ht. rewrite (Hfs x Hx Ht). simpl.
    by rewrite (Hfs' (set_frames fs x)).
Qed.
Lemma table_targets_ok n i bt ps : table_targets n i bt = Some ps -> operands_ok ps.
Proof.
  revert i ps. induction n as [|n IH]; intros i ps; simpl; [intros [= <-]; apply operands_nil|].
  destruct (wah_br_table_target bt i); [|done]. simpl. destruct (table_targets n (i + 1) bt) eqn:E; [|done]. simpl. intros [= <-].
  apply operands_PB. by eapply IH.
Qed.
Lemma table_records_ok n r bt a ps a' : table_records n r bt a = Some (ps, a') -> operands_ok ps.
Proof.
  revert r a ps a'. induction n as [|n IH]; intros r a ps a'; simpl; [intros [= <- <-]; apply operands_nil|].
  destruct (wah_br_table_symbol bt r) as [symbol|]; [|done]. simpl. destruct (branch_to symbol a) as [[l a1]|] eqn:Eb; [|done]. simpl.
  destruct (wah_br_table_drop bt r) as [d|]; [|done]. simpl. destruct (table_records n (r + 1) bt a1) as [[ps1 a2]|] eqn:Er; [|done].
  simpl. intros [= <- <-]. apply operands_PT; [apply operands_PB; by eapply IH|by eapply branch_ok_label].
Qed.

Section Shape.
Context (M : wah_module_env) (ac : wah_analyzed_code_t).

(** Code that does not look at the state. *)
Lemma constant_frames f a : (exists o, forall x, f x = (ps ← o; Some (ps, x))) -> frames_only f a.
Proof.
  intros (o & Ho) ps a' H. rewrite Ho in H. destruct (frames_only_pure o a ps a' H) as (fs & E & Hf).
  exists fs. split; [done|]. intros x Hx Ht. rewrite Ho. by apply Hf.
Qed.

Lemma branch_code_shape op di a : frames_only (branch_code op di) a /\ forall ps a', branch_code op di a = Some (ps, a') -> code_ok ps.
Proof.
  unfold branch_code. destruct (di_imm di); try (split; [intros ps a' H; done|done]). split.
  - intros ps a'. destruct (branch_to _ a) as [[l a1]|] eqn:E; [|done]. simpl. intros [= <- <-].
    destruct (branch_frames _ _ _ _ E) as (fs & -> & Hf). exists fs. split; [done|]. intros x Hx Ht. by rewrite Hf.
  - intros ps a'. destruct (branch_to _ a) as [[l a1]|] eqn:E; [|done]. simpl. intros [= <- <-].
    apply code_P16, operands_PT; [|by eapply branch_ok_label]. repeat apply operands_PB. apply operands_nil.
Qed.
Lemma cast_code_shape op di a : frames_only (cast_code op di) a /\ forall ps a', cast_code op di a = Some (ps, a') -> code_ok ps.
Proof.
  unfold cast_code. destruct (di_imm di); try (split; [intros ps a' H; done|done]). split.
  - intros ps a'. destruct (branch_to _ a) as [[l a1]|] eqn:E; [|done]. simpl. intros [= <- <-].
    destruct (branch_frames _ _ _ _ E) as (fs & -> & Hf). exists fs. split; [done|]. intros x Hx Ht. by rewrite Hf.
  - intros ps a'. destruct (branch_to _ a) as [[l a1]|] eqn:E; [|done]. simpl. intros [= <- <-].
    apply code_P16, operands_PB, operands_PT; [|by eapply branch_ok_label]. repeat apply operands_PB. apply operands_nil.
Qed.
Lemma table_code_shape bt a : frames_only (table_code bt) a /\ forall ps a', table_code bt a = Some (ps, a') -> code_ok ps.
Proof.
  unfold table_code. destruct (table_targets _ 0 bt) as [ts|] eqn:Et; [|by split; [intros ps a'|]]. simpl. split.
  - intros ps a'. destruct (table_records _ 0 bt a) as [[rs a1]|] eqn:E; [|done]. simpl. intros [= <- <-].
    destruct (table_records_frames _ _ _ _ _ _ E) as (fs & -> & Hf). exists fs. split; [done|]. intros x Hx Ht. by rewrite Hf.
  - intros ps a'. destruct (table_records _ 0 bt a) as [[rs a1]|] eqn:E; [|done]. simpl. intros [= <- <-].
    apply code_P16. do 2 apply operands_PB. apply operands_app; [by eapply table_targets_ok|by eapply table_records_ok].
Qed.
Lemma if_code_shape ii di a : frames_only (if_code ii di) a /\ forall ps a', if_code ii di a = Some (ps, a') -> code_ok ps.
Proof.
  unfold if_code. destruct (the_block (di_imm di)) as [[ti single]|]; [|by split; [intros ps a'|]]. simpl. split.
  - intros ps a'. destruct (push_frame ii WAH_OP_IF ti single a) as [a1|] eqn:E; [|done]. simpl. intros [= <- <-].
    destruct (push_frames _ _ _ _ _ _ E) as (fs & -> & Hf). exists fs. split; [done|]. intros x Hx Ht. by rewrite Hf.
  - intros ps a'. destruct (push_frame ii WAH_OP_IF ti single a) as [a1|] eqn:E; [|done]. simpl. intros [= <- <-].
    apply code_P16, operands_PT; [apply operands_nil|done].
Qed.
Lemma else_code_shape a : frames_only else_code a /\ forall ps a', else_code a = Some (ps, a') -> code_ok ps.
Proof.
  unfold else_code. split.
  - intros ps a'. destruct (a_frames a) as [|f fs] eqn:Ef; [done|]. destruct (is_if (af_op f)) eqn:Ei; [|done].
    intros [= <- <-]. eexists. split; [done|]. intros x -> _. by rewrite Ei.
  - intros ps a'. destruct (a_frames a) as [|f fs]; [done|]. destruct (is_if (af_op f)); [|done]. intros [= <- <-].
    apply code_P16, operands_PT; [apply operands_PL, operands_nil|done].
Qed.

Lemma constant_shape f a o : (forall x, f x = (ps ← o; Some (ps, x))) -> (forall ps, o = Some ps -> code_ok ps) ->
  frames_only f a /\ forall ps a', f a = Some (ps, a') -> code_ok ps.
Proof.
  intros Hf Ho. split; [apply constant_frames; by exists o|]. intros ps a' H. rewrite Hf in H. destruct o as [qs|]; [|done].
  simpl in H. injection H as <- <-. by apply Ho.
Qed.

Lemma none_shape f a : (forall x, f x = None) -> frames_only f a /\ forall ps a', f a = Some (ps, a') -> code_ok ps.
Proof. intros H. split; [intros ps a' H'|intros ps a' H']; by rewrite H in H'. Qed.

Lemma shape_ext f g a : (forall x, f x = g x) -> frames_only g a /\ (forall ps a', g a = Some (ps, a') -> code_ok ps) ->
  frames_only f a /\ forall ps a', f a = Some (ps, a') -> code_ok ps.
Proof.
  intros H [Hg Ho]. split; [|intros ps a'; rewrite H; apply Ho]. intros ps a' H'. rewrite H in H'.
  destruct (Hg ps a' H') as (fs & E & Hf). exists fs. split; [done|]. intros x Hx Ht. rewrite H. by apply Hf.
Qed.

Ltac operands := repeat first [apply operands_nil|apply operands_PB].
Ltac const_shape := eapply (constant_shape _ _ (Some _)); [intros; simpl; reflexivity|intros ? [= <-]; apply code_P16; operands].

Lemma field_code_ok di o8 o16 o32 o64 o128 ps : field_code M di o8 o16 o32 o64 o128 = Some ps -> code_ok ps.
Proof.
  unfold field_code. destruct (the_type_field _) as [[t f]|]; [|done]. simpl. destruct (field_type_at M t f); [|done]. simpl.
  destruct (field_offset M t f); [|done]. simpl. intros [= <-]. apply code_P16. operands.
Qed.
Lemma element_code_ok di o8 o16 o32 o64 o128 ps : element_code M di o8 o16 o32 o64 o128 = Some ps -> code_ok ps.
Proof.
  unfold element_code. destruct (the_u32 _) as [t|]; [|done]. simpl. destruct (field_type_at M t 0); [|done]. simpl.
  intros [= <-]. apply code_P16. operands.
Qed.
Lemma mem_code_ok op idx l1 l2 l3 ps : mem_code M op idx l1 l2 l3 = Some ps -> exists o rest, ps = P16 o :: rest /\ operands_ok rest.
Proof.
  unfold mem_code. destruct (wah_memory_type M idx) as [mt|]; [|done]. simpl. destruct (idx =? 0).
  - destruct (listed_opcode _ op); [|done]. simpl. intros [= <-]. eexists _, _. split; [done|]. operands.
  - destruct (if mem_addr_type mt =? WAH_TYPE_I64 then listed_opcode l3 op else Some (wah_op_value op)); simpl; [|done]. intros [= <-]. eexists _, _. split; [done|]. operands.
Qed.

Lemma other_code_shape ii op di a : frames_only (other_code M ii op di) a /\ forall ps a', other_code M ii op di a = Some (ps, a') -> code_ok ps.
Proof.
  destruct op; try const_shape;
    try apply if_code_shape; try apply else_code_shape; try apply branch_code_shape; try apply cast_code_shape;
    try (eapply constant_shape; [reflexivity|]; first [apply field_code_ok|apply element_code_ok]).
  all: destruct (di_imm di) eqn:Ed; try (apply none_shape; intros; simpl; by rewrite Ed);
    try (eapply (constant_shape _ _ (Some _)); [intros; simpl; rewrite Ed; simpl; reflexivity|intros ? [= <-]; apply code_P16; operands]).
  { apply (shape_ext _ (table_code bt)); [intros; simpl; by rewrite Ed|apply table_code_shape]. }
  all: match type of Ed with _ = imm_v128 ?bs => destruct (zlen bs =? 16) eqn:El end; [|apply none_shape; intros; simpl; by rewrite Ed, El];
    (eapply (constant_shape _ _ (Some _)); [intros; simpl; rewrite Ed, El; simpl; reflexivity|intros ? [= <-]; apply code_P16; operands]).
Qed.

Lemma imm_code_shape ii cls op di a : frames_only (imm_code M ii cls op di) a /\ forall ps a', imm_code M ii cls op di a = Some (ps, a') -> code_ok ps.
Proof.
  destruct cls; try apply other_code_shape.
  - apply (constant_shape _ _ (v ← the_u32 (di_imm di); Some [P16 (wah_op_value op); PB [u8 v]])).
    + intros x. simpl. by destruct (the_u32 _).
    + intros ps. destruct (the_u32 _); [|done]. intros [= <-]. apply code_P16. operands.
  - apply (constant_shape _ _ (i ← the_u32 (di_imm di); o ← opcode_I M op i; Some [P16 o; P32 i])).
    + intros x. simpl. destruct (the_u32 _) as [i|]; [|done]. simpl. by destruct (opcode_I M op i).
    + intros ps. destruct (the_u32 _) as [i|]; [|done]. simpl. destruct (opcode_I M op i); [|done]. intros [= <-]. apply code_P16. operands.
  - apply (constant_shape _ _ (p ← the_u32_u32 (di_imm di); o ← opcode_II M op p.1 p.2; Some [P16 o; P32 p.1; P32 p.2])).
    + intros x. simpl. destruct (the_u32_u32 _) as [[i j]|]; [|done]. simpl. by destruct (opcode_II M op i j).
    + intros ps. destruct (the_u32_u32 _) as [[i j]|]; [|done]. simpl. destruct (opcode_II M op i j); [|done]. intros [= <-]. apply code_P16. operands.
  - apply (constant_shape _ _ (m ← the_memarg (di_imm di);
      ps ← mem_code M op (memidx m) WAH_I32_MEM0_OPCODES_M WAH_I64_MEM0_OPCODES_M WAH_I64_MEM_OPCODES_M; Some (ps ++ [P64 (offset m)]))).
    + intros x. cbn [imm_code]. destruct (the_memarg _) as [m|]; [|done]. cbn [mbind option_bind]. by destruct (mem_code M op _ _ _ _).
    + intros ps. destruct (the_memarg _) as [m|]; [|done]. cbn [mbind option_bind]. destruct (mem_code M op _ _ _ _) as [qs|] eqn:E; [|done].
      intros [= <-]. destruct (mem_code_ok _ _ _ _ _ _ E) as (o & rest & -> & Ho). apply code_P16, operands_app; [done|]. operands.
  - apply (constant_shape _ _ (p ← the_memarg_lane (di_imm di);
      ps ← mem_code M op (memidx p.1) WAH_I32_MEM0_OPCODES_MB WAH_I64_MEM0_OPCODES_MB WAH_I64_MEM_OPCODES_MB; Some (ps ++ [P64 (offset p.1); PB [u8 p.2]]))).
    + intros x. cbn [imm_code]. destruct (the_memarg_lane _) as [[m k]|]; [|done]. cbn [mbind option_bind fst snd]. by destruct (mem_code M op _ _ _ _).
    + intros ps. destruct (the_memarg_lane _) as [[m k]|]; [|done]. cbn [mbind option_bind fst snd]. destruct (mem_code M op _ _ _ _) as [qs|] eqn:E; [|done].
      intros [= <-]. destruct (mem_code_ok _ _ _ _ _ _ E) as (o & rest & -> & Ho). apply code_P16, operands_app; [done|]. operands.
Qed.
End Shape.
(** ** The opcode *)

Section Code.
Context (M : wah_module_env) (ac : wah_analyzed_code_t).
Notation synced := (synced M ac).
Notation lowered := (lowered M ac).

(** The opcode has just been written, and may be replaced. *)
Definition opcode_written (K : label -> Prop) (s : lstate) (a : asm) (o : Z) : Prop :=
  exists s0, lowered K s0 a /\ vec_ok (l_buf s) /\ s = l_set_buf (Vec (vec_list (l_buf s0) ++ le_bytes 2 o) (vec_cap (l_buf s))) s0.

Lemma synced_ans s a ans : synced s a ->
  synced (LState ans (l_buf s) (l_maps s) (l_map_types s) (l_frames s) (l_try_depth s) (l_end_patches s) (l_meter s)) a.
Proof. intros []. by constructor. Qed.

Lemma wp_opcode K o (Q : unit -> lstate -> Prop) s a : lowered K s a ->
  (forall s', opcode_written K s' a o -> Q tt s') -> wp (WAH_LOWER_U16 o) Q s.
Proof.
  intros [Ha Hs] HQ. apply wp_u16_raw; [apply Hs|]. intros b ans Hb Eb. apply HQ.
  exists (LState ans (l_buf s) (l_maps s) (l_map_types s) (l_frames s) (l_try_depth s) (l_end_patches s) (l_meter s)).
  split_and!; [split; [done|by apply synced_ans]|done|]. destruct b as [l c]. simpl in *. by rewrite Eb.
Qed.

Lemma opcode_lowered K s a o : opcode_written K s a o -> lowered K s (emit [P16 o] a).
Proof. intros (s0 & Hl & Hv & E). rewrite E in *. by apply (lowered_put M ac K s0 a). Qed.

Lemma wp_rewrite K o v (Q : unit -> lstate -> Prop) s a : opcode_written K s a o ->
  (forall s', opcode_written K s' a v -> Q tt s') -> wp (lower_rewrite v) Q s.
Proof.
  intros (s0 & Hl & Hv & E) HQ. apply wp_bind, wp_get_size. set (L := vec_list (l_buf s0)) in *.
  assert (En : buf_size s - 2 = zlen L) by (rewrite E; unfold buf_size, vec_size; simpl; rewrite zlen_app; unfold zlen; simpl; lia).
  assert (El : vec_list (l_buf s) = L ++ le_bytes 2 o ++ []) by (rewrite E; cbn [l_buf l_set_buf vec_list]; by rewrite app_nil_r).
  rewrite En. eapply wp_write.
  - apply wah_write_u16_le_spec; [apply zlen_nonneg|]. rewrite El, app_nil_r, zlen_app. unfold zlen. simpl. lia.
  - rewrite El, mem_store_app by done. apply HQ. exists s0. rewrite app_nil_r. split_and!; [done| |by rewrite E].
    destruct Hv as [Hv1 Hv2]. split; [done|]. revert Hv2. unfold vec_size. simpl. rewrite El, app_nil_r, !zlen_app. done.
Qed.

Lemma wp_mem64 i b (Q : bool -> lstate -> Prop) s : mem64 M i = Some b -> Q b s -> wp (is_memory64 M i) Q s.
Proof.
  unfold mem64, is_memory64. destruct (i <? wah_memory_index_limit M); [|intros [= <-] HQ; exact HQ].
  destruct (wah_memory_type M i); [|done]. simpl. intros [= <-] HQ. exact HQ.
Qed.
Lemma wp_tab64 i b (Q : bool -> lstate -> Prop) s : tab64 M i = Some b -> Q b s -> wp (is_table64 M i) Q s.
Proof.
  unfold tab64, is_table64. destruct (i <? wah_table_index_limit M); [|intros [= <-] HQ; exact HQ].
  destruct (wah_table_type M i); [|done]. simpl. intros [= <-] HQ. exact HQ.
Qed.
Lemma wp_rewrite_to K op sfx o (Q : unit -> lstate -> Prop) s a o0 : xop_value op sfx = Some o -> opcode_written K s a o0 ->
  (forall s', opcode_written K s' a o -> Q tt s') -> wp (rewrite_to op sfx) Q s.
Proof. intros Ho Hw HQ. apply wp_bind. eapply wp_opt; [done|]. by eapply wp_rewrite. Qed.
Lemma wp_rewrite_if K b op sfx o (Q : unit -> lstate -> Prop) s a : variant b op sfx = Some o -> opcode_written K s a (wah_op_value op) ->
  (forall s', opcode_written K s' a o -> Q tt s') -> wp (rewrite_if b op sfx) Q s.
Proof. destruct b; intros Ho Hw HQ; [by eapply wp_rewrite_to|]. injection Ho as <-. by apply wp_skip, HQ. Qed.
Lemma wp_rewrite_pair K da db op o (Q : unit -> lstate -> Prop) s a : copy_variant da db op = Some o -> opcode_written K s a (wah_op_value op) ->
  (forall s', opcode_written K s' a o -> Q tt s') -> wp (rewrite_pair da db op) Q s.
Proof.
  destruct da, db; intros Ho Hw HQ; try (by eapply wp_rewrite_to). injection Ho as <-. by apply wp_skip, HQ.
Qed.

Lemma wp_opcode_I K op i o (Q : unit -> lstate -> Prop) s a : opcode_I M op i = Some o -> opcode_written K s a (wah_op_value op) ->
  (forall s', lowered K s' (emit [P16 o; P32 i] a) -> Q tt s') -> wp (lower_I M op i) Q s.
Proof.
  intros Ho Hw HQ. apply wp_bind. apply (wp_mono _ (fun _ s' => opcode_written K s' a o)).
  2: { intros _ s' Hw'. eapply wp_put_u32; [by apply opcode_lowered|]. intros s1 Hs1. by rewrite emit_emit in Hs1; apply HQ. }
  destruct op; try (injection Ho as <-; exact Hw); cbn [opcode_I] in Ho.
  all: try (destruct (mem64 M i) as [b|] eqn:E; [|done]; apply wp_bind; eapply wp_mem64; [exact E|]; by eapply wp_rewrite_if).
  all: try (destruct (tab64 M i) as [b|] eqn:E; [|done]; apply wp_bind; eapply wp_tab64; [exact E|]; by eapply wp_rewrite_if).
  all: destruct (i <? zlen (global_imports M)); [|injection Ho as <-; exact Hw].
  all: destruct (zget (global_imports M) i) as [g|]; [|done]; simpl in Ho; injection Ho as <-; apply wp_bind; (eapply wp_opt; [done|]);
    destruct (global_mutable g); [eapply wp_rewrite; [done|by intros]|by apply wp_skip].
Qed.
Lemma wp_opcode_II K op i j o (Q : unit -> lstate -> Prop) s a : opcode_II M op i j = Some o -> opcode_written K s a (wah_op_value op) ->
  (forall s', lowered K s' (emit [P16 o; P32 i; P32 j] a) -> Q tt s') -> wp (lower_II M op i j) Q s.
Proof.
  intros Ho Hw HQ. apply wp_bind. apply (wp_mono _ (fun _ s' => opcode_written K s' a o)).
  2: { intros _ s' Hw'. apply wp_bind. eapply wp_put_u32; [by apply opcode_lowered|]. intros s1 Hs1.
       eapply wp_put_u32; [done|]. intros s2 Hs2. by rewrite !emit_emit in Hs2; apply HQ. }
  destruct op; try (injection Ho as <-; exact Hw); cbn [opcode_II] in Ho.
  all: try (destruct (mem64 M j) as [b|] eqn:E; [|done]; apply wp_bind; eapply wp_mem64; [exact E|]; by eapply wp_rewrite_if).
  all: try (destruct (tab64 M j) as [b|] eqn:E; [|done]; apply wp_bind; eapply wp_tab64; [exact E|]; by eapply wp_rewrite_if).
  - destruct (tab64 M i) as [da|] eqn:E1; [|done]. destruct (tab64 M j) as [db|] eqn:E2; [|done]. simpl in Ho.
    apply wp_bind. eapply wp_tab64; [exact E1|]. apply wp_bind. eapply wp_tab64; [exact E2|]. by eapply wp_rewrite_pair.
  - destruct (mem64 M i) as [da|] eqn:E1; [|done]. destruct (mem64 M j) as [db|] eqn:E2; [|done]. simpl in Ho.
    apply wp_bind. eapply wp_mem64; [exact E1|]. apply wp_bind. eapply wp_mem64; [exact E2|]. by eapply wp_rewrite_pair.
Qed.

Lemma wp_mem_rewrite K op idx l1 l2 l3 ps (Q : unit -> lstate -> Prop) s a : mem_code M op idx l1 l2 l3 = Some ps ->
  opcode_written K s a (wah_op_value op) -> (forall s', lowered K s' (emit ps a) -> Q tt s') -> wp (WAH_LOWER_MEM_REWRITE M op idx l1 l2 l3) Q s.
Proof.
  unfold mem_code. intros Ho Hw HQ. apply wp_bind. destruct (wah_memory_type M idx) as [mt|]; [|done]. eapply wp_opt; [done|].
  cbv zeta. cbn [mbind option_bind] in Ho. destruct (idx =? 0); cbn [andb].
  - destruct (mem_addr_type mt =? WAH_TYPE_I64); cbn [negb].
    + destruct (listed_opcode l2 op) as [v|]; [|done]. simpl in Ho. injection Ho as <-. apply wp_bind. eapply wp_opt; [done|].
      eapply wp_rewrite; [done|]. intros s' Hs'. by apply HQ, opcode_lowered.
    + destruct (listed_opcode l1 op) as [v|]; [|done]. simpl in Ho. injection Ho as <-. apply wp_bind. eapply wp_opt; [done|].
      eapply wp_rewrite; [done|]. intros s' Hs'. by apply HQ, opcode_lowered.
  - destruct (mem_addr_type mt =? WAH_TYPE_I64).
    + destruct (listed_opcode l3 op) as [v|]; [|done]. simpl in Ho. injection Ho as <-. apply wp_bind. eapply wp_opt; [done|].
      apply wp_bind. eapply wp_rewrite; [done|]. intros s' Hs'. eapply wp_put_u32; [by apply opcode_lowered|]. intros s1 Hs1.
      by rewrite emit_emit in Hs1; apply HQ.
    + simpl in Ho. injection Ho as <-. eapply wp_put_u32; [by apply opcode_lowered|]. intros s1 Hs1. by rewrite emit_emit in Hs1; apply HQ.
Qed.
End Code.

(** ** The operands *)

Section Operands.
Context (M : wah_module_env) (ac : wah_analyzed_code_t).
Notation synced := (synced M ac).
Notation lowered := (lowered M ac).
Notation opcode_written := (opcode_written M ac).

Lemma lowered_mono K K' s a : lowered K s a -> (forall l, K l -> K' l) -> lowered K' s a.
Proof. intros [Ha Hs] HK. split; [by eapply asm_ok_mono|done]. Qed.
Lemma frames_emit fs qs a : set_frames fs (emit qs a) = emit qs (set_frames fs a).
Proof. done. Qed.

Lemma wp_append K bs (Q : unit -> lstate -> Prop) s a : lowered K s a -> buf_size s + zlen bs <= vec_cap (l_buf s) ->
  (forall s', lowered K s' (emit [PB bs] a) -> vec_cap (l_buf s') = vec_cap (l_buf s) -> buf_size s' = buf_size s + zlen bs -> Q tt s') ->
  wp (lower_append bs) Q s.
Proof.
  intros Hl Hc HQ. apply wp_bind, wp_get. rewrite (proj2 (Z.leb_le _ _)) by lia. apply wp_modify, HQ; [|done|].
  - apply (lowered_put M ac K s a (Vec (vec_list (l_buf s) ++ bs) (vec_cap (l_buf s))) (l_ans s)); [done| |done].
    split; [apply Hl|]. unfold buf_size, vec_size in *. simpl. by rewrite zlen_app.
  - unfold buf_size, vec_size. simpl. by rewrite zlen_app.
Qed.

Lemma wp_targets K n i bt ts (Q : unit -> lstate -> Prop) s a : table_targets n i bt = Some ts -> lowered K s a ->
  buf_size s + 2 * Z.of_nat n <= vec_cap (l_buf s) -> (forall s', lowered K s' (emit ts a) -> Q tt s') -> wp (lower_targets n i bt) Q s.
Proof.
  revert i ts s a. induction n as [|n IH]; intros i ts s a; cbn [table_targets lower_targets].
  - intros [= <-] Hl _ HQ. apply wp_skip, HQ. by rewrite emit_nil.
  - destruct (wah_br_table_target bt i) as [t|]; [|done]. cbn [mbind option_bind].
    destruct (table_targets n (i + 1) bt) as [ts'|] eqn:E; [|done]. simpl. intros [= <-] Hl Hc HQ.
    apply wp_bind. eapply wp_opt; [done|]. apply wp_bind. eapply wp_append; [done|unfold zlen; simpl; lia|].
    intros s1 Hl1 Hc1 Hs1. eapply IH; [done|done| |].
    + rewrite Hc1, Hs1. unfold zlen. simpl. lia.
    + intros s2 Hl2. rewrite emit_emit in Hl2. by apply HQ.
Qed.

Lemma wp_records K n r bt ps a' (Q : unit -> lstate -> Prop) s a : table_records n r bt a = Some (ps, a') -> lowered K s a -> ~ K LReturn ->
  (forall s', lowered K s' (emit ps a') -> Q tt s') -> wp (lower_records n r bt) Q s.
Proof.
  revert r ps a' s a. induction n as [|n IH]; intros r ps a' s a Hr Hl HK HQ; cbn [table_records lower_records] in *.
  - injection Hr as <- <-. apply wp_skip, HQ. by rewrite emit_nil.
  - destruct (wah_br_table_symbol bt r) as [symbol|]; [|done]. cbn [mbind option_bind] in Hr.
    destruct (branch_to symbol a) as [[l a1]|] eqn:Eb; [|done]. cbn [mbind option_bind] in Hr.
    destruct (wah_br_table_drop bt r) as [d|]; [|done]. cbn [mbind option_bind] in Hr.
    destruct (table_records n (r + 1) bt a1) as [[ps1 a2]|] eqn:Er; [|done]. simpl in Hr. injection Hr as <- <-.
    apply wp_bind. eapply wp_opt; [done|]. apply wp_bind. eapply wp_branch; [done|done|done|]. intros s1 Hl1.
    apply wp_bind. eapply wp_opt; [done|]. apply wp_bind. eapply wp_put_u32; [done|]. intros s2 Hl2. rewrite emit_emit in Hl2.
    destruct (table_records_frames _ _ _ _ _ _ Er) as (fs & -> & Hf).
    eapply IH; [|exact Hl2|done|]; [by apply Hf|]. intros s3 Hl3. rewrite frames_emit, emit_emit in Hl3. by apply HQ.
Qed.

Lemma wp_ensure_size K n (Q : unit -> lstate -> Prop) s a : lowered K s a ->
  (forall s', lowered K s' a -> n <= vec_cap (l_buf s') -> buf_size s' = buf_size s -> vec_ok (l_buf s') -> Q tt s') -> wp (lower_ensure n) Q s.
Proof.
  intros [Ha Hs] HQ. apply wp_bind, wp_get, wp_bind, wp_on_l_answers. apply wp_vec_ensure; [apply Hs|]. intros c ans Hc Hc' Hok.
  assert (Hv : vec_ok (Vec (vec_list (l_buf s)) c)) by (split; [done|]; destruct (sy_buf_ok _ _ _ _ Hs) as [_ H]; unfold vec_size in *; simpl; lia).
  apply wp_modify, HQ; [|done|done|done]. split; [done|]. destruct Hs. by constructor.
Qed.

Lemma wp_table K bt ps a' (Q : unit -> lstate -> Prop) s a : table_code bt a = Some (ps, a') -> opcode_written K s a (wah_op_value WAH_OP_BR_TABLE) ->
  ~ K LReturn -> (forall s', lowered K s' (emit ps a') -> Q tt s') -> wp (lower_br_table bt) Q s.
Proof.
  intros Hc Hw HK HQ. unfold table_code in Hc. destruct (table_targets _ 0 bt) as [ts|] eqn:Et; [|done]. cbn [mbind option_bind] in Hc.
  destruct (table_records _ 0 bt a) as [[rs a1]|] eqn:Er; [|done]. simpl in Hc. injection Hc as <- <-.
  apply wp_bind. eapply wp_put_u32; [by apply opcode_lowered|]. intros s1 Hl1. rewrite emit_emit in Hl1.
  apply wp_bind. eapply wp_put_u32; [done|]. intros s2 Hl2. rewrite emit_emit in Hl2. apply wp_bind, wp_get_size.
  apply wp_bind. eapply wp_ensure_size; [done|]. intros s3 Hl3 Hn Hsz [_ Hok]. fold (buf_size s3) in Hok.
  apply wp_bind. eapply wp_targets; [done|done|unfold buf_size in *; lia|]. intros s4 Hl4. rewrite emit_emit in Hl4.
  destruct (table_records_frames _ _ _ _ _ _ Er) as (fs & -> & Hf).
  eapply wp_records; [|exact Hl4|done|]; [by apply Hf|]. intros s5 Hl5. rewrite frames_emit, emit_emit in Hl5. by apply HQ.
Qed.

Lemma wp_branch_code K op di ps a' (Q : unit -> lstate -> Prop) s a : branch_code op di a = Some (ps, a') -> opcode_written K s a (wah_op_value op) ->
  ~ K LReturn -> (forall s', lowered K s' (emit ps a') -> Q tt s') -> wp (lower_branch di) Q s.
Proof.
  unfold branch_code, lower_branch. destruct (di_imm di); try done. intros Hc Hw HK HQ.
  destruct (branch_to _ a) as [[l a1]|] eqn:Eb; [|done]. simpl in Hc. injection Hc as <- <-.
  destruct (branch_frames _ _ _ _ Eb) as (fs & -> & Hf).
  apply wp_bind. eapply wp_branch; [by apply opcode_lowered|done| |]; [by apply Hf|]. intros s1 Hl1. rewrite frames_emit, emit_emit in Hl1.
  apply wp_bind. eapply wp_put_u32; [done|]. intros s2 Hl2. rewrite emit_emit in Hl2.
  eapply wp_put_u32; [done|]. intros s3 Hl3. rewrite emit_emit in Hl3. by apply HQ.
Qed.
Lemma wp_cast_code K op di ps a' (Q : unit -> lstate -> Prop) s a : cast_code op di a = Some (ps, a') -> opcode_written K s a (wah_op_value op) ->
  ~ K LReturn -> (forall s', lowered K s' (emit ps a') -> Q tt s') -> wp (lower_br_on_cast di) Q s.
Proof.
  unfold cast_code, lower_br_on_cast. destruct (di_imm di); try done. intros Hc Hw HK HQ.
  destruct (branch_to _ a) as [[l a1]|] eqn:Eb; [|done]. simpl in Hc. injection Hc as <- <-.
  destruct (branch_frames _ _ _ _ Eb) as (fs & -> & Hf).
  apply wp_bind. eapply wp_put_u8; [by apply opcode_lowered|]. intros s0 Hl0. rewrite emit_emit in Hl0.
  apply wp_bind. eapply wp_branch; [exact Hl0|done| |]; [by apply Hf|]. intros s1 Hl1. rewrite frames_emit, emit_emit in Hl1.
  apply wp_bind. eapply wp_put_u32; [done|]. intros s2 Hl2. rewrite emit_emit in Hl2.
  apply wp_bind. eapply wp_put_u32; [done|]. intros s3 Hl3. rewrite emit_emit in Hl3.
  eapply wp_put_u32; [done|]. intros s4 Hl4. rewrite emit_emit in Hl4. by apply HQ.
Qed.

(** The labels of the blocks opened before instruction [ii]. *)
Definition known (ii : Z) (l : label) : Prop := match l with LEnd i | LElse i | LLoop i => i < ii | _ => False end.
Lemma known_mono i j l : i <= j -> known i l -> known j l.
Proof. destruct l; simpl; lia || done. Qed.

Lemma wp_if_code ii di ps a' (Q : unit -> lstate -> Prop) s a : if_code ii di a = Some (ps, a') -> opcode_written (known ii) s a (wah_op_value WAH_OP_IF) ->
  (forall s', lowered (known (ii + 1)) s' (emit ps a') -> Q tt s') -> wp (lower_if di) Q s.
Proof.
  unfold if_code, lower_if. intros Hc Hw HQ. apply wp_bind. destruct (the_block (di_imm di)) as [[ti single]|]; [|done].
  eapply wp_opt; [done|]. cbv iota beta. cbn [mbind option_bind] in Hc. destruct (push_frame ii WAH_OP_IF ti single a) as [a1|] eqn:Ep; [|done].
  simpl in Hc. injection Hc as <- <-. destruct (push_frames _ _ _ _ _ _ Ep) as (fs & -> & Hf).
  eapply (wp_push_if M ac (known ii) (known (ii + 1))); [by apply opcode_lowered| | | |intros l; apply known_mono; lia| | |]; [by apply Hf|simpl; lia..|].
  intros s1 Hl1. rewrite frames_emit, emit_emit in Hl1. by apply HQ.
Qed.
Lemma wp_else_code K ps a' (Q : unit -> lstate -> Prop) s a : else_code a = Some (ps, a') -> opcode_written K s a (wah_op_value WAH_OP_ELSE) ->
  (forall s', lowered K s' (emit ps a') -> Q tt s') -> wp lower_else Q s.
Proof.
  unfold else_code. intros Hc Hw HQ. destruct (a_frames a) as [|f fs] eqn:Ef; [done|]. destruct (is_if (af_op f)) eqn:Ei; [|done].
  injection Hc as <- <-. eapply wp_else; [by apply opcode_lowered|exact Ef|done|done|]. intros s1 Hl1. rewrite frames_emit, emit_emit in Hl1. by apply HQ.
Qed.
Lemma wp_field K di o8 o16 o32 o64 o128 ps (Q : unit -> lstate -> Prop) s a o : field_code M di o8 o16 o32 o64 o128 = Some ps -> opcode_written K s a o ->
  (forall s', lowered K s' (emit ps a) -> Q tt s') -> wp (lower_field M di o8 o16 o32 o64 o128) Q s.
Proof.
  unfold field_code, lower_field. intros Hc Hw HQ. destruct (the_type_field (di_imm di)) as [[t f]|]; [|done].
  cbn [mbind option_bind] in Hc. destruct (field_type_at M t f) as [ft|] eqn:E1; [|done]. cbn [mbind option_bind] in Hc.
  destruct (field_offset M t f) as [off|] eqn:E2; [|done]. simpl in Hc. injection Hc as <-.
  apply wp_bind. eapply wp_opt; [done|]. cbv iota beta. apply wp_bind. eapply wp_opt; [done|]. apply wp_bind. eapply wp_opt; [done|].
  apply wp_bind. eapply wp_rewrite; [done|]. intros s1 Hw1. eapply wp_put_u32; [by apply opcode_lowered|]. intros s2 Hl2.
  rewrite emit_emit in Hl2. by apply HQ.
Qed.
Lemma wp_element K di o8 o16 o32 o64 o128 ps (Q : unit -> lstate -> Prop) s a o : element_code M di o8 o16 o32 o64 o128 = Some ps -> opcode_written K s a o ->
  (forall s', lowered K s' (emit ps a) -> Q tt s') -> wp (lower_element M di o8 o16 o32 o64 o128) Q s.
Proof.
  unfold element_code, lower_element. intros Hc Hw HQ. destruct (the_u32 (di_imm di)) as [t|]; [|done].
  cbn [mbind option_bind] in Hc. destruct (field_type_at M t 0) as [ft|] eqn:E1; [|done]. simpl in Hc. injection Hc as <-.
  apply wp_bind. eapply wp_opt; [done|]. apply wp_bind. eapply wp_opt; [done|].
  eapply wp_rewrite; [done|]. intros s1 Hw1. by apply HQ, opcode_lowered.
Qed.

(** Operands of fixed width. *)
Lemma wp_op_u32 K o v (Q : unit -> lstate -> Prop) s a : opcode_written K s a o ->
  (forall s', lowered K s' (emit [P16 o; P32 v] a) -> Q tt s') -> wp (WAH_LOWER_U32 v) Q s.
Proof. intros Hw HQ. eapply wp_put_u32; [by apply opcode_lowered|]. intros s1 Hl1. rewrite emit_emit in Hl1. by apply HQ. Qed.
Lemma wp_op_u64 K o v (Q : unit -> lstate -> Prop) s a : opcode_written K s a o ->
  (forall s', lowered K s' (emit [P16 o; P64 v] a) -> Q tt s') -> wp (WAH_LOWER_U64 v) Q s.
Proof. intros Hw HQ. eapply wp_put_u64; [by apply opcode_lowered|]. intros s1 Hl1. rewrite emit_emit in Hl1. by apply HQ. Qed.
Lemma wp_op_mem K o bs (Q : unit -> lstate -> Prop) s a : opcode_written K s a o -> zlen bs <= 16 ->
  (forall s', lowered K s' (emit [P16 o; PB bs] a) -> Q tt s') -> wp (WAH_LOWER_MEM bs) Q s.
Proof. intros Hw Hb HQ. eapply wp_mem; [by apply opcode_lowered|lia|]. intros s1 Hl1. rewrite emit_emit in Hl1. by apply HQ. Qed.

Lemma wp_other ii op di ps a' (Q : unit -> lstate -> Prop) s a : other_code M ii op di a = Some (ps, a') ->
  opcode_written (known ii) s a (wah_op_value op) -> (forall s', lowered (known (ii + 1)) s' (emit ps a') -> Q tt s') -> wp (lower_other M op di) Q s.
Proof.
  intros Hc Hw HQ'.
  assert (HQ : forall s', lowered (known ii) s' (emit ps a') -> Q tt s')
    by (intros s' Hl; apply HQ'; eapply lowered_mono; [done|intros l; apply known_mono; lia]).
  assert (HK : ~ known ii LReturn) by tauto.
  destruct op; try (injection Hc as <- <-; apply wp_skip, HQ, opcode_lowered; exact Hw); cbn [other_code lower_other] in Hc |- *.
  all: try (by eapply wp_if_code); try (by eapply wp_else_code); try (by eapply wp_branch_code); try (by eapply wp_cast_code).
  all: try (first [destruct (field_code M di _ _ _ _ _) as [qs|] eqn:E|destruct (element_code M di _ _ _ _ _) as [qs|] eqn:E]; [|done]; simpl in Hc; injection Hc as <- <-;
    first [by eapply wp_field|by eapply wp_element]).
  all: destruct (di_imm di); try discriminate Hc; cbn [the_u32 the_type_length mbind option_bind] in Hc |- *.
  all: lazymatch goal with
    | |- wp (lower_br_table _) _ _ => by eapply wp_table
    | |- wp (WAH_LOWER_MEM ?bs) _ _ =>
        destruct (Z.eqb_spec (zlen bs) 16); [|discriminate Hc]; injection Hc as <- <-; eapply wp_op_mem; [exact Hw|lia|exact HQ]
    | |- wp (WAH_LOWER_U64 _) _ _ => injection Hc as <- <-; eapply wp_op_u64; [exact Hw|exact HQ]
    | |- wp (WAH_LOWER_U32 _) _ _ => injection Hc as <- <-; eapply wp_op_u32; [exact Hw|exact HQ]
    | _ => injection Hc as <- <-; apply wp_bind; eapply wp_opt; [reflexivity|]; cbv iota beta
    end.
  all: try (eapply wp_op_u32; [exact Hw|exact HQ]).
  apply wp_bind. eapply wp_op_u32; [exact Hw|]. intros s1 Hl1. eapply wp_put_u32; [exact Hl1|]. intros s2 Hl2.
  rewrite emit_emit in Hl2. by apply HQ.
Qed.

Lemma wp_imm ii cls op di ps a' (Q : unit -> lstate -> Prop) s a : imm_code M ii cls op di a = Some (ps, a') ->
  opcode_written (known ii) s a (wah_op_value op) -> (forall s', lowered (known (ii + 1)) s' (emit ps a') -> Q tt s') -> wp (lower_imm M cls op di) Q s.
Proof.
  intros Hc Hw HQ'. assert (HQ : forall s', lowered (known ii) s' (emit ps a') -> Q tt s')
    by (intros s' Hl; apply HQ'; eapply lowered_mono; [done|intros l; apply known_mono; lia]).
  destruct cls; try (by eapply wp_other); cbn [imm_code lower_imm] in Hc |- *.
  - destruct (the_u32 (di_imm di)) as [v|]; [|done]. simpl in Hc. injection Hc as <- <-. apply wp_bind. eapply wp_opt; [done|].
    eapply wp_put_u8; [by apply opcode_lowered|]. intros s1 Hl1. rewrite emit_emit in Hl1. by apply HQ.
  - destruct (the_u32 (di_imm di)) as [i|]; [|done]. simpl in Hc. destruct (opcode_I M op i) as [o|] eqn:Eo; [|done].
    simpl in Hc. injection Hc as <- <-. apply wp_bind. eapply wp_opt; [done|]. by eapply wp_opcode_I.
  - destruct (the_u32_u32 (di_imm di)) as [[i j]|]; [|done]. simpl in Hc. destruct (opcode_II M op i j) as [o|] eqn:Eo; [|done].
    simpl in Hc. injection Hc as <- <-. apply wp_bind. eapply wp_opt; [done|]. by eapply wp_opcode_II.
  - destruct (the_memarg (di_imm di)) as [m|]; [|done]. cbn [mbind option_bind] in Hc. destruct (mem_code M op _ _ _ _) as [qs|] eqn:Eo; [|done].
    cbn [mbind option_bind] in Hc. injection Hc as <- <-. apply wp_bind. eapply wp_opt; [done|]. apply wp_bind. eapply wp_mem_rewrite; [done|done|].
    intros s1 Hl1. eapply wp_put_u64; [done|]. intros s2 Hl2. rewrite emit_emit in Hl2. by apply HQ.
  - destruct (the_memarg_lane (di_imm di)) as [[m k]|]; [|done]. cbn [mbind option_bind] in Hc. destruct (mem_code M op _ _ _ _) as [qs|] eqn:Eo; [|done].
    cbn [mbind option_bind] in Hc. injection Hc as <- <-. apply wp_bind. eapply wp_opt; [done|]. cbv iota beta. apply wp_bind. eapply wp_mem_rewrite; [done|done|].
    intros s1 Hl1. apply wp_bind. eapply wp_put_u64; [done|]. intros s2 Hl2. rewrite emit_emit in Hl2.
    eapply wp_put_u8; [done|]. intros s3 Hl3. rewrite emit_emit, <- app_assoc in Hl3. by apply HQ.
Qed.
End Operands.
