(* ===== verification/LowerInstr.v ===== *)
(** * Lowering: instructions

    Each instruction, and each end of a block, keeps the relation of LowerInv: the state
    of the lowering is that of the symbolic code, and no instruction faults. *)

From S2P Require Import Prelude Base Alloc Types Opcodes Bytes Decode Subtype ModuleEnv Operands Validate Analyze Lowering Assembly LowerSpec LowerInv LowerChunk LowerFrame LowerCode.
From stdpp Require Import list sets.
#[local] Open Scope Z_scope.
#[local] Open Scope wah_scope.

(** ** Definitions *)

(** Between two instructions. *)
Definition ready (a : asm) : Prop := at_boundary a /\ short a.
(** The marks of loops with try_tables inside. *)
Definition marks_at (marks : option (list bool)) (ii : Z) (rest : list wah_decoded_instr_t) : Prop :=
  match marks with None => try_inside 0 rest = false | Some l => zget l ii = Some (try_inside 0 rest) end.

(** ** Instructions *)

Section Instr.
Context (M : wah_module_env) (ac : wah_analyzed_code_t).
Notation synced := (synced M ac).
Notation lowered := (lowered M ac).
Notation opcode_written := (opcode_written M ac).
Notation metered := (emit_meter M ac).
Notation start_chunk := (start_chunk M ac).

Lemma end_chunk_open a : a_open (end_chunk a) = None.
Proof. unfold end_chunk. by destruct (a_open a) as [[|]|] eqn:E. Qed.
Lemma ready_end a : ready (end_chunk a).
Proof. split; [intros H|intros rs H]; by rewrite end_chunk_open in H. Qed.
Lemma start_chunk_code a : exists qs, a_code (start_chunk a) = a_code a ++ qs /\ placed qs = [].
Proof.
  unfold LowerSpec.start_chunk. destruct (a_open a); [exists []; by rewrite app_nil_r|].
  destruct metered; [by eexists|exists []; by rewrite app_nil_r].
Qed.
Lemma start_chunk_open a : metered = true -> a_open (start_chunk a) <> None.
Proof. unfold LowerSpec.start_chunk. intros ->. destruct (a_open a) eqn:E; [by rewrite E|done]. Qed.
Lemma start_chunk_frames a : a_frames (start_chunk a) = a_frames a.
Proof. unfold LowerSpec.start_chunk. destruct (a_open a); [done|]. by destruct metered. Qed.
Lemma start_chunk_try a : a_try (start_chunk a) = a_try a.
Proof. unfold LowerSpec.start_chunk. destruct (a_open a); [done|]. by destruct metered. Qed.
Lemma start_chunk_maps a : a_maps (start_chunk a) = a_maps a.
Proof. unfold LowerSpec.start_chunk. destruct (a_open a); [done|]. by destruct metered. Qed.
Lemma short_start a : short a -> short (start_chunk a).
Proof.
  intros H. unfold LowerSpec.start_chunk. destruct (a_open a) eqn:E; [done|]. destruct metered; [|done]. intros rs [= <-]. done.
Qed.
Lemma unmetered_open K s a : lowered K s a -> metered = false -> a_open a = None.
Proof. intros [_ Hs] Em. pose proof (sy_meter _ _ _ _ Hs) as Hm. unfold metering_rel in Hm. rewrite Em in Hm. apply Hm. Qed.

Lemma lowered_size K s a : lowered K s a -> buf_size s = asm_size a.
Proof. intros [_ Hs]. by apply (synced_size M ac). Qed.

(** The record of an instruction ends its code. *)
Lemma wp_record_ready K ps map start (Q : unit -> lstate -> Prop) s a : lowered K s (emit ps a) -> short a -> (metered = true -> a_open a <> None) ->
  instr_code ps -> start = asm_size a -> (forall s', lowered K s' (record ps map a) -> ready (record ps map a) -> Q tt s') ->
  wp (WAH_METER_RECORD_INSTR_END M ac start map) Q s.
Proof.
  intros Hl Hsh Hop Hi Hst HQ. eapply wp_record; try done. intros s' Hl'. apply HQ; [done|]. split; [|by apply short_record].
  apply (boundary_record M ac); [done|]. intros Em. by pose proof (unmetered_open _ _ _ Hl Em).
Qed.

Lemma wp_poll K di (Q : unit -> lstate -> Prop) s a : lowered K s a -> (forall s', lowered K s' (emit (poll_code ac di) a) -> Q tt s') ->
  wp (when (polls ac di) (WAH_EMIT_POLL di)) Q s.
Proof.
  intros Hl HQ. unfold poll_code in HQ. apply wp_when; intros E; rewrite E in HQ; [|apply HQ; by rewrite emit_nil].
  apply wp_bind. eapply wp_put_u16; [done|]. intros s1 Hl1. eapply wp_put_u32; [done|]. intros s2 Hl2. rewrite emit_emit in Hl2. by apply HQ.
Qed.

Lemma poll_operands di : operands_ok (poll_code ac di).
Proof. unfold poll_code. destruct (polls ac di); repeat apply operands_PB; apply operands_nil. Qed.

Lemma may_split_not_else op : may_split op = true -> is_else op = false.
Proof. by destruct op. Qed.

Lemma wp_split K op (Q : unit -> lstate -> Prop) s a : lowered K s a -> ready a ->
  (forall s', lowered K s' (split_after op a) -> ready (split_after op a) -> Q tt s') -> wp (split_chunk M ac op) Q s.
Proof.
  intros Hl Hr HQ. apply wp_bind, wp_get. unfold split_after in HQ. destruct metered eqn:Em; cbn [andb].
  2: { rewrite (unmetered_open _ _ _ Hl Em) in HQ. by apply wp_skip, HQ. }
  pose proof (sy_meter _ _ _ _ (proj2 Hl)) as Hm. rewrite (metering_emit M ac _ _ Em) in Hm. rewrite (mt_cost _ _ Hm).
  destruct (a_open a) as [rs|] eqn:Eo; [|simpl; by apply wp_skip, HQ].
  assert (Hend : forall b, ((may_split op && (WAH_METER_MAX_CHUNK_COST <=? zlen rs)) || (is_else op && (0 <? zlen rs))) = b ->
    wp (if b then WAH_METER_END_CHUNK M ac else skip) Q s).
  { intros b Eb. rewrite Eb in HQ. destruct b; [|by apply wp_skip, HQ]. eapply wp_end; [done|apply Hr|]. intros s' Hl'. apply HQ; [done|apply ready_end]. }
  pose proof (zlen_nonneg rs). destruct (may_split op) eqn:E1.
  - rewrite (may_split_not_else op E1) in Hend. cbn [andb orb] in Hend. rewrite orb_false_r in Hend.
    destruct (Z.ltb_spec 0 (zlen rs)); [by apply (Hend (WAH_METER_MAX_CHUNK_COST <=? zlen rs))|].
    apply (Hend false). apply Z.leb_gt. unfold WAH_METER_MAX_CHUNK_COST. lia.
  - cbn [andb orb] in Hend. destruct (0 <? zlen rs); [|apply (Hend false); by rewrite andb_false_r].
    rewrite andb_true_r in Hend. by apply (Hend (is_else op)).
Qed.

Lemma wp_plain ii op di a' (Q : unit -> lstate -> Prop) s a : plain_instr M ac ii op di a = Some a' -> di_opcode di = wah_op_value op ->
  lowered (known ii) s a -> ready a ->
  (forall s', lowered (known (ii + 1)) s' a' -> ready a' -> Q tt s') -> wp (lower_plain M ac op di) Q s.
Proof.
  unfold plain_instr, lower_plain. intros Hp Eop Hl Hr HQ. destruct (zget wah_opclasses (di_opcode di)) as [cls|] eqn:Ec; [|done].
  cbn [mbind option_bind] in Hp. destruct (imm_code M ii cls op di (start_chunk a)) as [[ps a1]|] eqn:Ei; [|done].
  cbn [mbind option_bind] in Hp. injection Hp as <-.
  destruct (imm_code_shape M ii cls op di (start_chunk a)) as [Hfr Hok]. specialize (Hok _ _ Ei).
  destruct (Hfr _ _ Ei) as (fs & -> & Hf). clear Hfr.
  apply wp_bind. eapply wp_start; [done|]. intros s1 Hl1. apply wp_bind, wp_get_size. rewrite (lowered_size _ _ _ Hl1).
  apply wp_bind. eapply wp_poll; [done|]. intros s2 Hl2. apply wp_bind. eapply wp_opcode; [done|]. intros s3 Hw3.
  apply wp_bind. eapply wp_opt; [done|]. apply wp_bind. rewrite Eop in Hw3.
  eapply wp_imm; [|exact Hw3|]; [by apply Hf|]. intros s4 Hl4. rewrite frames_emit, emit_emit in Hl4.
  set (bulk := if wah_opcode_is_resumable_bulk (di_opcode di) then [P32 (di_ref_map di)] else []) in *.
  apply wp_bind. apply (wp_mono _ (fun _ s' => lowered (known (ii + 1)) s' (emit (poll_code ac di ++ ps ++ bulk) (set_frames fs (start_chunk a))))).
  { apply wp_when; intros E; unfold bulk; rewrite E; [|by rewrite app_nil_r]. eapply wp_put_u32; [done|]. intros s5 Hl5.
    by rewrite emit_emit, <- app_assoc in Hl5. }
  intros _ s5 Hl5. apply wp_bind. eapply wp_record_ready; [exact Hl5| | | |done|].
  - intros rs Hrs. by apply (short_start a (proj2 Hr)).
  - intros Em. by apply (start_chunk_open a).
  - apply code_ok_instr. destruct Hok as [Ho (o & rest & ->)]. split.
    + apply operands_app; [apply poll_operands|]. apply operands_app; [done|]. unfold bulk.
      destruct (wah_opcode_is_resumable_bulk _); repeat apply operands_PB; apply operands_nil.
    + unfold poll_code. destruct (polls ac di); eexists _, _; reflexivity.
  - intros s6 Hl6 Hr6. eapply wp_split; [done|done|]. exact HQ.
Qed.
Lemma wp_block ii op di marks a' (Q : unit -> lstate -> Prop) s a : is_loop op = false -> is_if op = false -> block_instr M ac ii op di a = Some a' ->
  lowered (known ii) s a -> ready a ->
  (forall s', lowered (known (ii + 1)) s' a' -> ready a' -> Q tt s') -> wp (lower_block M ac marks ii op di) Q s.
Proof.
  unfold block_instr, lower_block. intros Hlo Hif Hb Hl Hr HQ. rewrite Hlo, andb_false_r.
  destruct (the_block (di_imm di)) as [[ti single]|]; [|done]. cbn [mbind option_bind] in Hb.
  destruct (push_frame ii op ti single _) as [a1|] eqn:Ep; [|done]. injection Hb as <-.
  apply wp_bind, wp_skip, wp_bind, wp_get_size.
  apply wp_bind. apply (wp_mono _ (fun _ s' => lowered (known ii) s' (emit (poll_code ac di) a))).
  { unfold when at 1. destruct (polls ac di) eqn:Epd.
    - apply wp_bind. pose proof (wp_poll (known ii) di) as Hpp. rewrite Epd in Hpp. eapply Hpp; [done|]. intros s1 Hl1. by apply wp_skip.
    - apply wp_skip. unfold poll_code. rewrite Epd. by rewrite emit_nil. }
  intros _ s1 Hl1. apply wp_bind. eapply wp_start; [done|]. intros s2 Hl2. apply wp_bind, wp_get_size. rewrite (lowered_size _ _ _ Hl2).
  apply wp_bind. eapply wp_opt; [done|]. cbv iota beta.
  apply wp_bind. eapply (wp_push_label M ac (known ii) (known (ii + 1))); [exact Hl2|exact Ep|simpl; lia|intros l; apply known_mono; lia|simpl; lia|done|done|].
  intros s3 Hl3. apply wp_bind, wp_skip. destruct (push_frame_inv _ _ _ _ _ _ Ep) as [_ E].
  eapply wp_record_ready; [rewrite emit_nil; exact Hl3| | | | |exact HQ].
  - intros rs. rewrite E. apply (short_start (emit (poll_code ac di) a)). apply Hr.
  - intros Em. rewrite E. by apply (start_chunk_open (emit (poll_code ac di) a)).
  - split_and!; [done|set_solver|by left].
  - by rewrite E.
Qed.

Lemma wp_need_new K (Q : unit -> lstate -> Prop) s a : lowered K s a -> a_open a = None ->
  (forall s', lowered K s' a -> Q tt s') -> wp (on_meter (me_set_need_new metered)) Q s.
Proof.
  intros [Ha Hs] Eo HQ. apply wp_modify, HQ. split; [done|]. pose proof (sy_meter _ _ _ _ Hs) as Hm.
  assert (Hm' : metering_rel M ac (me_set_need_new metered (l_meter s)) a).
  { unfold metering_rel in *. destruct metered eqn:Em.
    - destruct Hm. constructor; try done. simpl. by rewrite Eo.
    - destruct Hm as (? & ? & ? & ?). by split_and!. }
  destruct Hs. by constructor.
Qed.

(** The header of a loop is placed where its code starts. *)
Lemma lowered_loop_label ii s a : lowered (known ii) s a ->
  lowered (fun l => known ii l \/ l = LLoop ii) s (emit [PL (LLoop ii)] a) /\ address (a_code (emit [PL (LLoop ii)] a)) (LLoop ii) = Some (asm_size a).
Proof.
  intros [Ha Hs]. assert (Hn : ~ known ii (LLoop ii)) by (simpl; lia).
  pose proof (not_known_targets _ _ _ Ha Hn) as Ht. pose proof (not_known_placed _ _ _ Ha Hn) as Hp. simpl in Ht, Hp.
  assert (Ha' : asm_ok (fun l => known ii l \/ l = LLoop ii) a) by (eapply asm_ok_mono; [done|by left]).
  split; [split|].
  - apply asm_ok_place; [done|by right|done|]. apply Forall_forall. intros f Hf [E|[_ E]]; done.
  - pose proof (synced_insert M ac s a _ (LLoop ii) (l_buf s) (a_code a) [] Hs (with_label_emit _ a) Hp) as Hi.
    rewrite app_nil_r, a_code_emit in Hi. rewrite (holes_nil (LLoop ii) 0 (a_code a) Ht) in Hi.
    specialize (Hi eq_refl eq_refl eq_refl eq_refl). by destruct s.
  - rewrite a_code_emit. by apply address_snoc.
Qed.

Lemma wp_marked marks ii rest (Q : bool -> lstate -> Prop) s : marks_at marks ii rest -> Q (try_inside 0 rest) s ->
  wp (match marks return comp lstate bool with None => stm_ret false | Some l => stm_opt (zget l ii) end) Q s.
Proof.
  unfold marks_at. destruct marks as [l|]; intros Hm HQ; [by eapply wp_opt|]. rewrite Hm in HQ. exact HQ.
Qed.

Lemma is_loop_not_if op : is_loop op = true -> is_if op = false.
Proof. by destruct op. Qed.

Lemma wp_loop ii op di rest marks a' (Q : unit -> lstate -> Prop) s a : is_loop op = true -> loop_instr M ac ii op di rest a = Some a' ->
  marks_at marks ii rest -> lowered (known ii) s a -> ready a ->
  (forall s', lowered (known (ii + 1)) s' a' -> ready a' -> Q tt s') -> wp (lower_block M ac marks ii op di) Q s.
Proof.
  unfold loop_instr, lower_block. intros Hlo Hb Hmk Hl Hr HQ. rewrite Hlo, andb_true_r.
  destruct (the_block (di_imm di)) as [[ti single]|]; [|done]. cbn [mbind option_bind] in Hb.
  set (a0 := if polls ac di then end_chunk a else a) in *.
  destruct (push_frame ii op ti single _) as [a1|] eqn:Ep; [|done]. cbn [mbind option_bind] in Hb.
  destruct (map_label M (asm_size a0) ti single true a1) as [a2|] eqn:Em2; [|done]. injection Hb as <-.
  apply wp_bind. apply (wp_mono _ (fun _ s' => lowered (known ii) s' a0)).
  { apply wp_when; intros E; unfold a0; rewrite E; [|done]. eapply wp_end; [done|apply Hr|done]. }
  intros _ s0 Hl0. apply wp_bind, wp_get_size. rewrite (lowered_size _ _ _ Hl0).
  destruct (lowered_loop_label ii s0 a0 Hl0) as [Hl0' Hadr].
  assert (Hop0 : polls ac di = true -> a_open a0 = None) by (unfold a0; intros ->; apply end_chunk_open).
  assert (Hsh0 : short a0) by (unfold a0; destruct (polls ac di); [apply ready_end|apply Hr]).
  apply wp_bind. apply (wp_mono _ (fun _ s' => lowered (fun l => known ii l \/ l = LLoop ii) s' (emit (PL (LLoop ii) :: poll_code ac di) a0))).
  { unfold when at 1. destruct (polls ac di) eqn:Epd.
    - apply wp_bind. pose proof (wp_poll (fun l => known ii l \/ l = LLoop ii) di) as Hpp. rewrite Epd in Hpp. eapply Hpp; [done|].
      intros s1 Hl1. rewrite emit_emit in Hl1. eapply wp_need_new; [done| |done]. by apply Hop0.
    - apply wp_skip. unfold poll_code. by rewrite Epd. }
  intros _ s1 Hl1. apply wp_bind. eapply wp_start; [done|]. intros s2 Hl2. apply wp_bind, wp_get_size. rewrite (lowered_size _ _ _ Hl2).
  apply wp_bind. eapply wp_opt; [done|]. cbv iota beta.
  set (ax := emit (PL (LLoop ii) :: poll_code ac di) a0) in *.
  assert (Hadr' : address (a_code (start_chunk ax)) (LLoop ii) = Some (asm_size a0)).
  { destruct (start_chunk_code ax) as (qs & -> & _). apply address_app_Some. unfold ax.
    change (PL (LLoop ii) :: poll_code ac di) with ([PL (LLoop ii)] ++ poll_code ac di). rewrite <- emit_emit, a_code_emit. by apply address_app_Some. }
  apply wp_bind. eapply wp_mono.
  { eapply (wp_push_loop M ac _ (known (ii + 1)) ii op ti single (asm_size a0) a1 (fun _ s' => lowered (known (ii + 1)) s' a1) s2 _ Hl2 Ep); [| | | |done|done].
    - intros [H|H]; [simpl in H; lia|done].
    - intros l [H| ->]; [revert H; apply known_mono; lia|simpl; lia].
    - simpl. lia.
    - exact (is_loop_not_if op Hlo). }
  intros [] s2'. intros Hup. cbn [when]. apply wp_bind, wp_bind. eapply wp_mono; [exact Hup|]. intros [] s3 Hl3.
  apply wp_bind. eapply wp_map; [apply Hl3|exact Em2|]. intros s4 Hs4.
  assert (Ha2 : asm_ok (known (ii + 1)) a2).
  { destruct (map_label_inv _ _ _ _ _ _ _ Em2) as (ms & -> & _). apply asm_ok_maps, Hl3. }
  apply wp_bind. eapply wp_marked; [done|].
  destruct (push_frame_inv _ _ _ _ _ _ Ep) as [_ E1]. destruct (map_label_inv _ _ _ _ _ _ _ Em2) as (ms & E2 & _).
  assert (Hrec : forall s', lowered (known (ii + 1)) s' (emit (if try_inside 0 rest then trim_code (a_try a2) else []) a2) ->
    wp (WAH_METER_RECORD_INSTR_END M ac (asm_size (start_chunk ax)) (di_ref_map di)) Q s').
  { intros s' Hl'. eapply wp_record_ready; [exact Hl'| | | | |exact HQ].
    - intros rs. rewrite E2, E1. apply (short_start ax). exact Hsh0.
    - intros Em. rewrite E2, E1. by apply (start_chunk_open ax).
    - unfold trim_code. destruct (try_inside 0 rest); (split_and!; [done|set_solver|]); [right; by eexists _, _|by left].
    - by rewrite E2, E1. }
  unfold when. destruct (try_inside 0 rest).
  - apply wp_bind. eapply wp_put_u16; [exact (conj Ha2 Hs4)|]. intros s5 Hl5. apply wp_bind, wp_get.
    assert (Ht : l_try_depth s5 = a_try a2) by (apply (sy_try _ _ _ _ (proj2 Hl5))). rewrite Ht.
    eapply wp_put_u32; [done|]. intros s6 Hl6. rewrite emit_emit in Hl6. by apply Hrec.
  - apply wp_skip, Hrec. rewrite emit_nil. by split.
Qed.

(** ** try_table *)

Lemma catch_code_frames cs a : frames_only (catch_code cs) a.
Proof.
  revert a. induction cs as [|c cs IH]; intros a ps a'; simpl.
  - intros [= <- <-]. exists (a_frames a). split; [by destruct a|]. intros x <- _. by destruct x.
  - destruct (branch_to (ct_target_symbol c) a) as [[l a1]|] eqn:Eb; [|done]. simpl.
    destruct (branch_frames _ _ _ _ Eb) as (fs & -> & Hfs). destruct (catch_code cs (set_frames fs a)) as [[ps1 a2]|] eqn:Er; [|done].
    simpl. intros [= <- <-]. destruct (IH _ _ _ Er) as (fs' & -> & Hfs'). exists fs'. split; [done|]. intros x Hx Ht.
    rewrite (Hfs x Hx Ht). simpl. by rewrite (Hfs' (set_frames fs x)).
Qed.
Lemma catch_code_ok cs a ps a' : catch_code cs a = Some (ps, a') -> operands_ok ps.
Proof.
  revert a ps a'. induction cs as [|c cs IH]; intros a ps a'; simpl; [intros [= <- <-]; apply operands_nil|].
  destruct (branch_to (ct_target_symbol c) a) as [[l a1]|] eqn:Eb; [|done]. simpl.
  destruct (catch_code cs a1) as [[ps1 a2]|] eqn:Er; [|done]. simpl. intros [= <- <-].
  do 2 apply operands_PB. apply operands_PT; [|by eapply branch_ok_label]. apply operands_PB. by eapply IH.
Qed.

Lemma branch_depth depth a l a' : branch_to depth a = Some (l, a') -> depth <= zlen (a_frames a).
Proof. intros [(-> & _)|(f & _ & H & _)]%branch_to_inv; lia. Qed.

Lemma wp_catches K cs ps a' (Q : unit -> lstate -> Prop) s a : catch_code cs a = Some (ps, a') -> lowered K s a -> ~ K LReturn ->
  (forall s', lowered K s' (emit ps a') -> Q tt s') -> wp (lower_catches cs) Q s.
Proof.
  revert ps a' s a. induction cs as [|c cs IH]; intros ps a' s a Hc Hl HK HQ; cbn [catch_code lower_catches] in *.
  - injection Hc as <- <-. apply wp_skip, HQ. by rewrite emit_nil.
  - destruct (branch_to (ct_target_symbol c) a) as [[l a1]|] eqn:Eb; [|done]. cbn [mbind option_bind] in Hc.
    destruct (branch_frames _ _ _ _ Eb) as (fs & -> & Hfs). destruct (catch_code cs (set_frames fs a)) as [[ps1 a2]|] eqn:Er; [|done].
    simpl in Hc. injection Hc as <- <-. destruct (catch_code_frames _ _ _ _ Er) as (fs' & -> & Hf').
    apply wp_bind. eapply wp_put_u8; [done|]. intros s1 Hl1. apply wp_bind. eapply wp_put_u32; [done|]. intros s2 Hl2. rewrite emit_emit in Hl2.
    apply wp_bind, wp_get. pose proof (branch_depth _ _ _ _ Eb) as Hd.
    assert (El : zlen (l_frames s2) = zlen (a_frames a)) by apply (Forall2_zlen _ _ _ (sy_frames _ _ _ _ (proj2 Hl2))).
    rewrite El, (proj2 (Z.leb_le _ _)) by lia. apply wp_bind, wp_skip.
    apply wp_bind. eapply wp_branch; [exact Hl2|done| |]; [by apply Hfs|]. intros s3 Hl3. rewrite frames_emit, emit_emit in Hl3.
    apply wp_bind. eapply wp_put_u32; [done|]. intros s4 Hl4. rewrite emit_emit in Hl4.
    eapply IH; [|exact Hl4|done|]; [by apply Hf'|]. intros s5 Hl5. rewrite frames_emit, emit_emit in Hl5. by apply HQ.
Qed.

Lemma lowered_try K s a d : lowered K s a -> lowered K (l_set_try d s) (set_try d a).
Proof. intros [Ha Hs]. split; [by apply asm_ok_try|by apply synced_try]. Qed.

Lemma wp_try ii di a' (Q : unit -> lstate -> Prop) s a : try_instr M ac ii di a = Some a' -> lowered (known ii) s a -> ready a ->
  (forall s', lowered (known (ii + 1)) s' a' -> ready a' -> Q tt s') -> wp (lower_try_table M ac di) Q s.
Proof.
  unfold try_instr, lower_try_table. intros Hb Hl Hr HQ. destruct (di_imm di); try discriminate Hb. rename type_idx into ti.
  set (y := start_chunk (emit (poll_code ac di) a)) in *.
  destruct (catch_code catches y) as [[ps a1]|] eqn:Ec; [|done]. cbn [mbind option_bind] in Hb.
  destruct (push_frame ii WAH_OP_TRY_TABLE ti single a1) as [a2|] eqn:Ep; [|done]. simpl in Hb. injection Hb as <-.
  destruct (catch_code_frames _ _ _ _ Ec) as (fs & -> & Hfc). destruct (push_frames _ _ _ _ _ _ Ep) as (fs2 & -> & Hfp).
  apply wp_bind. eapply wp_poll; [done|]. intros s1 Hl1. apply wp_bind. eapply wp_start; [done|]. intros s2 Hl2. fold y in Hl2.
  apply wp_bind, wp_get_size. rewrite (lowered_size _ _ _ Hl2). apply wp_bind. eapply wp_put_u16; [done|]. intros s3 Hl3.
  apply wp_bind. eapply wp_put_u32; [done|]. intros s4 Hl4. rewrite emit_emit in Hl4.
  apply wp_bind. eapply wp_catches; [|exact Hl4|tauto|]; [by apply Hfc|]. intros s5 Hl5. rewrite frames_emit, emit_emit in Hl5.
  apply wp_bind. eapply (wp_push_label M ac (known ii) (known (ii + 1))); [exact Hl5|by apply Hfp|simpl; lia|intros l; apply known_mono; lia|simpl; lia|done|done|].
  intros s6 Hl6. rewrite frames_emit in Hl6. apply wp_bind, wp_modify.
  assert (Et : l_try_depth s6 = a_try y) by apply (sy_try _ _ _ _ (proj2 Hl6)). rewrite Et.
  apply (lowered_try _ _ _ (u32 (a_try y + 1))) in Hl6.
  set (ps' := P16 (wah_op_value WAH_OP_TRY_TABLE) :: P32 (zlen catches) :: ps) in *.
  change (set_try ?d (emit _ ?x)) with (emit ps' (set_try d x)) in Hl6.
  eapply wp_record_ready; [exact Hl6| | | |done|exact HQ].
  - apply (short_start (emit (poll_code ac di) a)). apply Hr.
  - intros Em. by apply (start_chunk_open (emit (poll_code ac di) a)).
  - apply code_ok_instr, code_P16, operands_PB. by eapply catch_code_ok.
Qed.

(** ** The end of a block *)

Lemma holes_targets l off ps : holes l off ps = [] <-> l ∉ targets ps.
Proof.
  split; [|apply holes_nil]. revert off. induction ps as [|p ps IH]; intros off H; [set_solver|]. simpl in H.
  apply app_eq_nil in H as [H1 H2]. case_bool_decide as Et; [done|]. apply IH in H2. destruct p; set_solver.
Qed.
Lemma target_known a f cf : frame_rel (a_code a) cf f ->
  (0 <? vec_size (lf_patch_offsets cf)) || is_if (lf_opcode cf) = is_target f a.
Proof.
  intros []. rewrite fr_op. unfold is_target. f_equal. unfold vec_size. rewrite fr_patches. apply eq_true_iff_eq.
  rewrite Z.ltb_lt, bool_decide_eq_true. destruct (decide (LEnd (af_id f) ∈ targets (a_code a))) as [H|H].
  - split; [done|]. intros _. destruct (holes _ _ _) eqn:E; [by apply holes_targets in E|]. unfold zlen. simpl. lia.
  - rewrite holes_nil by done. done.
Qed.
Lemma record_not_empty ps map a : a_open (record ps map a) <> Some [].
Proof.
  unfold record. cbn [a_open emit]. destruct (a_open a) as [rs|] eqn:Eo; [|cbn [a_open emit]; by rewrite Eo].
  destruct (zlen rs + 1 =? UINT16_MAX); [by rewrite end_chunk_open|]. cbn [a_open set_open]. intros [= H]. by destruct rs.
Qed.
Lemma record_frames ps map a : a_frames (record ps map a) = a_frames a.
Proof.
  unfold record. cbn [a_open emit]. destruct (a_open a) as [rs|] eqn:Eo; [|done]. destruct (zlen rs + 1 =? UINT16_MAX); [|done].
  unfold end_chunk. cbn [a_open set_open]. by destruct (rs ++ _).
Qed.
Lemma end_chunk_frames a : a_frames (end_chunk a) = a_frames a.
Proof. unfold end_chunk. by destruct (a_open a) as [[|]|]. Qed.
Lemma end_chunk_maps a : a_maps (end_chunk a) = a_maps a.
Proof. unfold end_chunk. by destruct (a_open a) as [[|]|]. Qed.
Lemma set_maps_id a : set_maps (a_maps a) a = a.
Proof. by destruct a. Qed.

(** The map of the end of a block that is not a loop. *)
Definition end_map (pos : Z) (f : aframe) (a : asm) : option asm :=
  if is_loop (af_op f) then Some a else map_label M pos (af_type_idx f) (af_single f) false a.
Lemma wp_end_map pos f a a' : end_map pos f a = Some a' -> exists ms, a' = set_maps ms a /\
  forall x s (Q : unit -> lstate -> Prop), a_maps x = a_maps a -> synced s x -> (forall s', synced s' (set_maps ms x) -> Q tt s') ->
  wp (when (negb (is_loop (af_op f))) (WAH_LOWER_STACK_MAP M pos (af_type_idx f) (af_single f) false)) Q s.
Proof.
  unfold end_map. destruct (is_loop (af_op f)); cbn [negb when]; intros H.
  - injection H as <-. exists (a_maps a). split; [by rewrite set_maps_id|]. intros x s Q <- Hs HQ. apply wp_skip, HQ. by rewrite set_maps_id.
  - destruct (map_label_inv _ _ _ _ _ _ _ H) as (ms & -> & Hx). exists ms. split; [done|]. intros x s Q Ex Hs HQ.
    eapply wp_map; [done|by apply Hx|done].
Qed.

Lemma meter_offset s b : metered = true -> synced s (start_chunk b) -> a_open b = None ->
  mc_meter_offset (me_chunk (l_meter s)) = asm_size b.
Proof.
  intros Em Hs Eo. pose proof (sy_meter _ _ _ _ Hs) as Hm. rewrite (metering_emit M ac _ _ Em) in Hm.
  destruct (mt_open _ _ Hm) as (E & _ & _); [by apply start_chunk_open|]. rewrite E. unfold LowerSpec.start_chunk. by rewrite Eo, Em.
Qed.

(** The labels of the end are placed, at the start of a chunk if they are branched to. *)
Lemma wp_close K f fs target b a' rest (Q : unit -> lstate -> Prop) s :
  lowered K s b -> ready b -> a_open b <> Some [] -> a_frames b = f :: fs ->
  let b' := if metered && target then end_chunk b else b in
  end_map (asm_size b') f (if metered && target then start_chunk (set_frames fs (place_end f b')) else set_frames fs (place_end f b')) = Some a' ->
  (forall s', lowered K s' a' -> ready a' -> (metered = true -> target = true -> a_open a' <> None) -> wp rest Q s') ->
  wp (end_pos <- get_size ;;
      end_pos <- (if metered && target then
                    WAH_METER_END_CHUNK M ac ;;; WAH_METER_START_CHUNK M ac ;;; s <- stm_get ;; stm_ret (mc_meter_offset (me_chunk (l_meter s)))
                  else stm_ret end_pos) ;;
      when (negb (is_loop (af_op f))) (WAH_LOWER_STACK_MAP M end_pos (af_type_idx f) (af_single f) false) ;;;
      WAH_LOWER_FINISH_FRAME end_pos ;;; rest) Q s.
Proof.
  intros Hl Hr Hne Ef b' Hm HQ. apply wp_bind, wp_get_size. rewrite (lowered_size _ _ _ Hl). unfold b' in *.
  destruct (metered && target) eqn:Et.
  - apply andb_true_iff in Et as [Em ->]. destruct (wp_end_map _ _ _ _ Hm) as (ms & -> & Hmap).
    apply wp_bind, wp_bind. eapply wp_end; [done|apply Hr|]. intros s1 Hl1. apply wp_bind. eapply wp_start; [done|]. intros s2 Hl2.
    apply wp_bind, wp_get, wp_ret. rewrite (meter_offset s2 (end_chunk b) Em) by (apply Hl2 || apply end_chunk_open).
    apply wp_bind. apply (Hmap (start_chunk (end_chunk b)));
      [by rewrite !start_chunk_maps|apply Hl2|]. intros s3 Hs3.
    apply wp_bind. eapply (wp_finish_chunk M ac K s3 (end_chunk b) ms f fs); [done|apply end_chunk_open|apply Hl1|by rewrite end_chunk_frames|done|].
    intros s4 Hl4. assert (Hop : a_open (start_chunk (set_frames fs (place_end f (end_chunk b)))) <> None) by by apply start_chunk_open.
    apply HQ; [done| |done]. unfold LowerSpec.start_chunk. cbn [a_open set_frames place_end emit]. rewrite end_chunk_open, Em.
    split; [done|]. by intros rs [= <-].
  - destruct (wp_end_map _ _ _ _ Hm) as (ms & -> & Hmap). apply wp_bind, wp_ret, wp_bind. apply (Hmap b); [done|apply Hl|]. intros s3 Hs3.
    apply wp_bind. eapply (wp_finish_plain M ac K s3 (set_maps ms b) f fs); [split; [apply asm_ok_maps, Hl|done]|done|]. intros s4 Hl4.
    apply HQ; [done| |].
    + split; [intros H; by apply Hne in H|]. apply Hr.
    + intros Em Etg. by rewrite Em, Etg in Et.
Qed.

Lemma wp_end_head K f di rest (Q : unit -> lstate -> Prop) s a start : lowered K s a -> short a -> (metered = true -> a_open a <> None) -> start = asm_size a ->
  (let a2 := if is_try_table (af_op f)
             then record [P16 (iop_value WAH_IOP_END_TRY_TABLE)] (di_ref_map di) (set_try (u32 (a_try a - 1)) a)
             else record [] (di_ref_map di) a in
   forall s', lowered K s' a2 -> ready a2 -> wp rest Q s') ->
  wp (when (is_try_table (af_op f)) (WAH_LOWER_U16 (iop_value WAH_IOP_END_TRY_TABLE) ;;; modify (fun s => l_set_try (u32 (l_try_depth s - 1)) s)) ;;;
      WAH_METER_RECORD_INSTR_END M ac start (di_ref_map di) ;;; rest) Q s.
Proof.
  intros Hl Hsh Hop -> HQ. destruct (is_try_table (af_op f)); cbn [when]; cbv zeta in HQ.
  - apply wp_bind, wp_bind. eapply wp_put_u16; [done|]. intros s1 Hl1. apply wp_modify, wp_bind.
    assert (Et : l_try_depth s1 = a_try a) by apply (sy_try _ _ _ _ (proj2 Hl1)). rewrite Et.
    apply (lowered_try _ _ _ (u32 (a_try a - 1))) in Hl1. change (set_try ?d (emit ?ps a)) with (emit ps (set_try d a)) in Hl1.
    eapply wp_record_ready; [exact Hl1|done|done| |done|exact HQ]. apply code_ok_instr, code_P16, operands_nil.
  - apply wp_bind, wp_skip, wp_bind. eapply wp_record_ready; [rewrite emit_nil; exact Hl|done|done| |done|exact HQ].
    split_and!; [done|set_solver|by left].
Qed.

Lemma trim_instr d : instr_code (trim_code d).
Proof. split_and!; [done|set_solver|right; by eexists _, _]. Qed.

Lemma wp_end_block K f fs di next_map a' (Q : unit -> lstate -> Prop) s a : end_block M ac f fs di next_map a = Some a' -> a_frames a = f :: fs ->
  lowered K s a -> ready a -> (forall s', lowered K s' a' -> ready a' -> Q tt s') -> wp (lower_end_block M ac di next_map) Q s.
Proof.
  intros Hb Ef Hl Hr HQ. unfold lower_end_block. pose proof (sy_frames _ _ _ _ (proj2 Hl)) as Hf. rewrite Ef in Hf.
  destruct (l_frames s) as [|cf l] eqn:El; [by inversion Hf|]. apply Forall2_cons in Hf as [Hcf _].
  pose proof (target_known a f cf Hcf) as Htg.
  assert (Hft : af_trim f = true -> is_loop (af_op f) = false -> is_target f a = true).
  { intros H1 H2. pose proof (ao_frames _ _ (proj1 Hl)) as Hfo. rewrite Ef in Hfo. apply Forall_cons_1 in Hfo as [[_ Ht] _].
    unfold is_target. by rewrite bool_decide_true by auto. }
  apply wp_bind. eapply wp_frame; [by rewrite El|]. rewrite Htg. destruct Hcf. rewrite fr_op, fr_trim, fr_type, fr_single, fr_try.
  unfold end_block in Hb. set (target := is_target f a) in *. cbv zeta in Hb |- *.
  apply wp_bind. eapply wp_start; [done|]. intros s1 Hl1. apply wp_bind, wp_get_size. rewrite (lowered_size _ _ _ Hl1).
  set (b := if is_try_table (af_op f) then _ else _) in Hb.
  assert (Eb : a_frames b = f :: fs) by (unfold b; destruct (is_try_table (af_op f)); by rewrite record_frames; cbn [a_frames set_try]; rewrite start_chunk_frames).
  assert (Hne : a_open b <> Some []) by (unfold b; destruct (is_try_table (af_op f)); apply record_not_empty).
  eapply wp_end_head; [exact Hl1|apply short_start, Hr|apply start_chunk_open|done|]. cbv zeta. fold b. intros s2 Hl2 Hr2.
  set (b' := if metered && target then end_chunk b else b) in *.
  set (d := if metered && target then start_chunk (set_frames fs (place_end f b')) else set_frames fs (place_end f b')) in *.
  destruct (end_map (asm_size b') f d) as [d'|] eqn:Ed.
  2: { unfold end_map in Ed. destruct (is_loop (af_op f)); [done|]. by rewrite Ed in Hb. }
  eapply (wp_close K f fs target b d'); [done|done|done|done|exact Ed|]. intros s3 Hl3 Hr3 Hop3. unfold end_map in Ed.
  destruct (is_loop (af_op f)) eqn:Elo; [rewrite andb_false_r; injection Ed as <-; injection Hb as <-; by apply wp_skip, HQ|].
  rewrite Ed in Hb. cbn [mbind option_bind negb] in Hb |- *. rewrite andb_true_r.
  destruct (af_trim f) eqn:Etr; cbn [when]; [|injection Hb as <-; by apply wp_skip, HQ].
  destruct next_map as [map|]; [|done]. simpl in Hb. injection Hb as <-.
  apply wp_bind, wp_get_size. rewrite (lowered_size _ _ _ Hl3). apply wp_bind. eapply wp_opt; [done|].
  apply wp_bind. eapply wp_put_u16; [done|]. intros s4 Hl4. apply wp_bind. eapply wp_put_u32; [done|]. intros s5 Hl5. rewrite emit_emit in Hl5.
  eapply wp_record_ready; [exact Hl5|apply Hr3| |apply trim_instr|done|exact HQ]. intros Em. apply Hop3; [done|by apply Hft].
Qed.

(** ** The end of the function *)

Lemma end_record ps map a : exists nx cs, code_size nx = 0 /\ forall x, a_open x = a_open a -> a_chunks x = a_chunks a ->
  end_chunk (record ps map x) = Asm (a_base x) (a_tail x ++ ps ++ nx) (a_frames x) (a_try x) None (a_chunks x ++ cs) (a_maps x).
Proof.
  destruct (a_open a) as [rs|] eqn:Eo.
  - exists [PL (LNext (zlen (a_chunks a)))], [rs ++ [SlowInstr (strip ps) map]]. split; [done|]. intros x Ex Ec.
    assert (E : end_chunk (set_open (Some (rs ++ [SlowInstr (strip ps) map])) (emit ps x)) =
      Asm (a_base x) (a_tail x ++ ps ++ [PL (LNext (zlen (a_chunks a)))]) (a_frames x) (a_try x) None (a_chunks x ++ [rs ++ [SlowInstr (strip ps) map]]) (a_maps x)).
    { unfold end_chunk. cbn [a_open set_open a_tail emit a_base a_frames a_try a_chunks a_maps]. rewrite <- Ec, <- app_assoc.
      destruct rs; done. }
    unfold record. cbn [a_open emit]. rewrite Ex. destruct (zlen rs + 1 =? UINT16_MAX); rewrite E; [|done]. done.
  - exists [], []. split; [done|]. intros x Ex _. unfold record. cbn [a_open emit]. rewrite Ex. unfold end_chunk. cbn [a_open emit]. rewrite Ex.
    unfold emit. by rewrite Ex, !app_nil_r.
Qed.

Lemma asm_ok_record K ps map a : asm_ok K (emit ps a) -> short a -> asm_ok K (record ps map a).
Proof.
  intros Ha Hs. unfold record. cbn [a_open emit]. destruct (a_open a) as [rs|] eqn:Eo; [|done]. specialize (Hs rs Eo).
  assert (Ha' : asm_ok K (set_open (Some (rs ++ [SlowInstr (strip ps) map])) (emit ps a))).
  { eapply asm_ok_set_open; [done|done|]. rewrite zlen_app. unfold zlen in *. simpl. lia. }
  destruct (zlen rs + 1 =? UINT16_MAX); [|done]. apply asm_ok_end; [done|]. intros H. cbn [a_open set_open] in H. by destruct rs.
Qed.

Definition final (ii : Z) (l : label) : Prop := known ii l \/ l = LReturn.

Lemma end_func_ok ii di a : asm_ok (known ii) a -> short a -> a_frames a = [] -> asm_ok (final ii) (end_func M ac di a).
Proof.
  intros Ha Hs Ef. apply (asm_ok_start M ac) in Ha. unfold end_func. set (a1 := start_chunk a) in *.
  assert (Ef1 : a_frames a1 = []) by (unfold a1; by rewrite start_chunk_frames).
  assert (Ha1 : asm_ok (final ii) (emit [PL LReturn] a1)).
  { apply asm_ok_place; [|by right| |by rewrite Ef1].
    - eapply asm_ok_mono; [exact Ha|by left].
    - apply (not_known_placed _ _ LReturn Ha). tauto. }
  apply asm_ok_end; [|intros H; by apply record_not_empty in H]. apply asm_ok_record; [|by apply (short_start a)].
  replace (emit [P16 (wah_op_value WAH_OP_END)] (emit [PL LReturn] a1)) with (set_frames (a_frames a1) (emit [P16 (wah_op_value WAH_OP_END)] (emit [PL LReturn] a1))) by done.
  apply asm_ok_emit; [done|done|done|set_solver|]. apply marked_refl.
Qed.

Lemma end_func_label di a : let a1 := start_chunk a in let x := end_chunk (record [P16 (wah_op_value WAH_OP_END)] (di_ref_map di) a1) in
  exists nx, code_size nx = 0 /\ with_label LReturn x (end_func M ac di a) /\
    a_code x = a_code a1 ++ P16 (wah_op_value WAH_OP_END) :: nx /\
    a_code (end_func M ac di a) = a_code a1 ++ PL LReturn :: P16 (wah_op_value WAH_OP_END) :: nx.
Proof.
  intros a1 x. unfold end_func. fold a1. destruct (end_record [P16 (wah_op_value WAH_OP_END)] (di_ref_map di) a1) as (nx & cs & Hz & Hx).
  exists nx. split; [done|]. unfold x. rewrite (Hx a1), (Hx (emit [PL LReturn] a1)) by done.
  assert (E1 : forall f d c m, a_code (Asm (a_base a1) (a_tail a1 ++ [P16 (wah_op_value WAH_OP_END)] ++ nx) f d None c m) =
    a_code a1 ++ P16 (wah_op_value WAH_OP_END) :: nx) by (intros; unfold a_code; simpl; by rewrite <- app_assoc).
  assert (E2 : forall f d c m, a_code (Asm (a_base a1) (a_tail (emit [PL LReturn] a1) ++ [P16 (wah_op_value WAH_OP_END)] ++ nx) f d None c m) =
    a_code a1 ++ PL LReturn :: P16 (wah_op_value WAH_OP_END) :: nx) by (intros; unfold a_code; simpl; by rewrite <- !app_assoc).
  split_and!; [|apply E1|apply E2]. assert (Hi : forall f d c m f' d' c' m', inserted LReturn (a_code (Asm (a_base a1) (a_tail a1 ++ [P16 (wah_op_value WAH_OP_END)] ++ nx) f d None c m))
    (a_code (Asm (a_base a1) (a_tail (emit [PL LReturn] a1) ++ [P16 (wah_op_value WAH_OP_END)] ++ nx) f' d' None c' m')))
    by (intros; rewrite E1, E2; by exists (a_code a1), (P16 (wah_op_value WAH_OP_END) :: nx)).
  constructor; try done. right; apply Hi.
Qed.

(** The branches out of the function are to its last instruction. *)
Lemma wp_end_func ii di (Q : unit -> lstate -> Prop) s a : lowered (known ii) s a -> ready a -> a_frames a = [] ->
  (forall s', lowered (final ii) s' (end_func M ac di a) -> Q tt s') -> wp (lower_end_func M ac di) Q s.
Proof.
  intros Hl Hr Ef HQ. unfold lower_end_func. pose proof (end_func_ok ii di a (proj1 Hl) (proj2 Hr) Ef) as Hfin.
  destruct (end_func_label di a) as (nx & Hz & Hw & E1 & E2).
  apply wp_bind. eapply wp_start; [done|]. intros s1 Hl1. apply wp_bind, wp_get_size. rewrite (lowered_size _ _ _ Hl1).
  apply wp_bind. eapply wp_put_u16; [done|]. intros s2 Hl2.
  apply wp_bind. eapply wp_record_ready; [exact Hl2|apply short_start, Hr|apply start_chunk_open|apply code_ok_instr, code_P16, operands_nil|done|].
  intros s3 Hl3 Hr3. apply wp_bind. eapply wp_end; [done|apply Hr3|]. intros s4 Hl4.
  apply wp_bind, wp_get_size. rewrite (lowered_size _ _ _ Hl4). apply wp_bind, wp_get.
  rewrite (sy_ends _ _ _ _ (proj2 Hl4)). pose proof (synced_size M ac _ _ (proj2 Hl4)) as Hsz.
  pose proof (vec_ok_bound _ (sy_buf_ok _ _ _ _ (proj2 Hl4))) as Hb. fold (buf_size s4) in Hb.
  assert (En : u32 (asm_size (end_chunk (record [P16 (wah_op_value WAH_OP_END)] (di_ref_map di) (start_chunk a))) - 2) = code_size (a_code (start_chunk a))).
  { unfold asm_size. rewrite E1 in *. rewrite code_size_app in *. cbn [code_size] in *. rewrite Hz in *. change (piece_size (P16 _)) with 2 in *.
    pose proof (code_size_nonneg (a_code (start_chunk a))). rewrite u32_small by lia. lia. }
  rewrite En. apply wp_patches; [rewrite Hsz; apply holes_bounds|]. apply HQ. split; [done|].
  eapply (synced_insert M ac s4 _ _ LReturn _ _ _ (proj2 Hl4) Hw); [|exact E1|exact E2|done|done].
  apply (not_known_placed _ _ LReturn (proj1 Hl4)). tauto.
Qed.

(** ** All of the instructions *)

Lemma opcode_row_value : forallb (fun r => wah_op_value (row_op r) =? row_val r) WAH_OPCODES = true.
Proof. vm_compute. reflexivity. Qed.
Lemma opcode_of_value v op : wah_opcode_of v = Some op -> v = wah_op_value op.
Proof.
  unfold wah_opcode_of. destruct (List.find _ WAH_OPCODES) as [r|] eqn:E; [|done]. intros [= <-].
  apply List.find_some in E as [Hin Hv]. pose proof (proj1 (forallb_forall _ _) opcode_row_value r Hin) as Hr. apply Z.eqb_eq in Hr, Hv. congruence.
Qed.

(** The marks of the loops among the instructions from [ii]. *)
Definition marks_ok (marks : option (list bool)) (ii : Z) (instrs : list wah_decoded_instr_t) : Prop :=
  forall i di, instrs !! i = Some di -> instr_is di WAH_OP_LOOP = true -> marks_at marks (ii + Z.of_nat i) (drop (S i) instrs).

Lemma wp_instr marks ii di rest a' (Q : unit -> lstate -> Prop) s a : asm_instr M ac ii di rest a = Some a' ->
  (instr_is di WAH_OP_LOOP = true -> marks_at marks ii rest) -> lowered (known ii) s a -> ready a ->
  (forall s', lowered (known (ii + 1)) s' a' -> ready a' -> Q tt s') ->
  (forall s', lowered (final ii) s' a' -> a_open a' = None -> rest = [] -> Q tt s') ->
  wp (lower_instr M ac marks ii di (di_ref_map <$> head rest)) Q s.
Proof.
  unfold asm_instr, lower_instr. intros Hi Hm Hl Hr HQ HF. destruct (wah_opcode_of (di_opcode di)) as [op|] eqn:Eop; [|done].
  apply opcode_of_value in Eop. cbn [mbind option_bind] in Hi. apply wp_bind. eapply wp_opt; [done|].
  destruct op; try (eapply wp_plain; [exact Hi|exact Eop|exact Hl|exact Hr|exact HQ]).
  - by eapply wp_block.
  - eapply wp_loop; [done|exact Hi| |done|done|done]. apply Hm. unfold instr_is. by rewrite Eop.
  - apply wp_bind, wp_get. rewrite (Forall2_zlen _ _ _ (sy_frames _ _ _ _ (proj2 Hl))). destruct (a_frames a) as [|f fs] eqn:Ef.
    + destruct rest; [|done]. injection Hi as <-. eapply wp_end_func; [done|done|done|]. intros s' Hl'. apply HF; [done| |done]. apply end_chunk_open.
    + rewrite (proj2 (Z.ltb_lt _ _)) by (unfold zlen; simpl; lia). eapply wp_end_block; [exact Hi|done|done|done|].
      intros s' Hl'. apply HQ. eapply lowered_mono; [done|]. intros l. apply known_mono. lia.
  - by eapply wp_try.
Qed.

Lemma wp_instrs marks ii instrs a' (Q : unit -> lstate -> Prop) s a : asm_instrs M ac ii instrs a = Some a' ->
  marks_ok marks ii instrs -> lowered (known ii) s a -> ready a ->
  (forall s' n, lowered (known n) s' a' -> Q tt s') ->
  (forall s' n, lowered (final n) s' a' -> a_open a' = None -> Q tt s') ->
  wp (lower_instrs M ac marks ii instrs) Q s.
Proof.
  revert ii s a. induction instrs as [|di rest IH]; intros ii s a Hi Hm Hl Hr HQ HF; cbn [asm_instrs lower_instrs] in *.
  - injection Hi as <-. by eapply wp_skip, HQ.
  - destruct (asm_instr M ac ii di rest a) as [a1|] eqn:Ei; [|done]. simpl in Hi.
    apply wp_bind. eapply wp_instr; [exact Ei| |done|done| |].
    + intros Hlo. specialize (Hm 0%nat di eq_refl Hlo). by rewrite Z.add_0_r in Hm.
    + intros s' Hl' Hr'. eapply IH; [exact Hi| |done|done|done|done]. intros i di' Hd Hlo. specialize (Hm (S i) di' Hd Hlo).
      replace (ii + 1 + Z.of_nat i) with (ii + Z.of_nat (S i)) by lia. exact Hm.
    + intros s' Hl' Ho ->. simpl in Hi |- *. injection Hi as <-. by eapply wp_skip, HF.
Qed.

End Instr.
