(* ===== verification/LowerLoops.v ===== *)
(** * Lowering: loops with try_tables inside

    The first pass of [wah_lower_analyzed_code] marks the loops that have a try_table
    inside, with a stack of the open blocks that stops at loops already marked.  The
    marks are compared with a search from the header of each loop to its end. *)

From S2P Require Import Prelude Base Alloc Types Opcodes Bytes Decode Subtype ModuleEnv Operands Validate Analyze Lowering Assembly LowerSpec LowerInv LowerChunk LowerFrame LowerCode LowerInstr.
From stdpp Require Import list sets sorting.
#[local] Open Scope Z_scope.
#[local] Open Scope wah_scope.

(** ** Definitions *)

(** The instructions that opened the blocks that are open. *)
Definition ids (a : asm) : list Z := af_id <$> a_frames a.
Definition opens_block (di : wah_decoded_instr_t) : bool :=
  instr_is di WAH_OP_BLOCK || instr_is di WAH_OP_LOOP || instr_is di WAH_OP_IF.
(** The open blocks after an instruction. *)
Definition ids_after (ii : Z) (di : wah_decoded_instr_t) (l : list Z) : list Z :=
  if opens_block di || instr_is di WAH_OP_TRY_TABLE then ii :: l else if instr_is di WAH_OP_END then drop 1 l else l.

(** ** The blocks of symbolic code *)

Section Ids.
Context (M : wah_module_env) (ac : wah_analyzed_code_t).

Lemma ids_length a : zlen (ids a) = zlen (a_frames a).
Proof. unfold ids, zlen. by rewrite length_fmap. Qed.
Lemma branch_ids depth a l a' : branch_to depth a = Some (l, a') -> ids a' = ids a.
Proof. intros (fs & -> & H)%branch_marked. exact (marked_ids _ _ _ H). Qed.
Lemma table_ids n r bt a ps a' : table_records n r bt a = Some (ps, a') -> ids a' = ids a.
Proof.
  revert r a ps a'. induction n as [|n IH]; intros r a ps a'; simpl; [by intros [= _ <-]|].
  destruct (wah_br_table_symbol bt r) as [symbol|]; [|done]. simpl. destruct (branch_to symbol a) as [[l a1]|] eqn:Eb; [|done]. simpl.
  destruct (wah_br_table_drop bt r) as [d|]; [|done]. simpl. destruct (table_records n (r + 1) bt a1) as [[ps1 a2]|] eqn:Er; [|done].
  simpl. intros [= _ <-]. rewrite (IH _ _ _ _ Er). by eapply branch_ids.
Qed.
Lemma catch_ids cs a ps a' : catch_code cs a = Some (ps, a') -> ids a' = ids a.
Proof.
  revert a ps a'. induction cs as [|c cs IH]; intros a ps a'; simpl; [by intros [= _ <-]|].
  destruct (branch_to (ct_target_symbol c) a) as [[l a1]|] eqn:Eb; [|done]. simpl.
  destruct (catch_code cs a1) as [[ps1 a2]|] eqn:Er; [|done]. simpl. intros [= _ <-]. rewrite (IH _ _ _ Er). by eapply branch_ids.
Qed.
Lemma push_ids ii op ti single a a' : push_frame ii op ti single a = Some a' -> zlen (ids a) < WAH_MAX_CONTROL_DEPTH /\ ids a' = ii :: ids a.
Proof. intros [H ->]%push_frame_inv. by rewrite ids_length. Qed.
Lemma start_ids a : ids (start_chunk M ac a) = ids a.
Proof. unfold ids. by rewrite start_chunk_frames. Qed.
Lemma end_ids a : ids (end_chunk a) = ids a.
Proof. unfold ids. by rewrite end_chunk_frames. Qed.
Lemma record_ids ps map a : ids (record ps map a) = ids a.
Proof. unfold ids. by rewrite record_frames. Qed.
Lemma split_ids op a : ids (split_after op a) = ids a.
Proof. unfold split_after. destruct (a_open a); [|done]. destruct (_ || _); [apply end_ids|done]. Qed.
Lemma map_ids pos ti single loop a a' : map_label M pos ti single loop a = Some a' -> ids a' = ids a.
Proof. by intros (ms & -> & _)%map_label_inv. Qed.
Hint Rewrite start_ids end_ids record_ids split_ids : ids.

Lemma bind_Some_pair {A B C} (o : option A) (f : A -> B) (a a' : C) x : (ps ← o; Some (f ps, a)) = Some (x, a') -> a' = a.
Proof. destruct o; [|done]. by intros [= _ <-]. Qed.

(** The blocks after an instruction that is not a block but may be an [if]. *)
Definition if_after (op : wah_op) (ii : Z) (l l' : list Z) : Prop :=
  if is_if op then zlen l < WAH_MAX_CONTROL_DEPTH /\ l' = ii :: l else l' = l.

Lemma other_ids ii op di ps a a' : other_code M ii op di a = Some (ps, a') -> if_after op ii (ids a) (ids a').
Proof.
  unfold if_after. destruct op; cbn [is_if other_code]; intros H; try (injection H as _ <-; done);
    try (unfold branch_code, cast_code in H; destruct (di_imm di); try done; destruct (branch_to _ a) as [[l a1]|] eqn:Eb; [|done];
         injection H as _ <-; by eapply branch_ids);
    try (apply bind_Some_pair in H; by subst); try (destruct (di_imm di); try done; repeat case_match; by simplify_eq).
  - unfold if_code in H. destruct (the_block (di_imm di)) as [[ti single]|]; [|done]. simpl in H.
    destruct (push_frame ii WAH_OP_IF ti single a) as [a1|] eqn:Ep; [|done]. injection H as _ <-. by eapply push_ids.
  - unfold else_code in H. destruct (a_frames a) as [|f fs] eqn:Ef; [done|]. destruct (is_if (af_op f)); [|done].
    injection H as _ <-. unfold ids. by rewrite Ef.
  - destruct (di_imm di); try done. unfold table_code in H. destruct (table_targets _ 0 _) as [ts|]; [|done]. simpl in H.
    destruct (table_records _ 0 _ a) as [[rs a1]|] eqn:Er; [|done]. injection H as _ <-. by eapply table_ids.
  - destruct (the_type_length (di_imm di)) as [[t n]|]; [|done]. by injection H as _ <-.
  - destruct (the_type_length (di_imm di)) as [[t n]|]; [|done]. by injection H as _ <-.
Qed.

Lemma imm_ids ii cls op di ps a a' : zget wah_opclasses (wah_op_value op) = Some cls -> imm_code M ii cls op di a = Some (ps, a') ->
  if_after op ii (ids a) (ids a').
Proof.
  intros Hc H. destruct (is_if op) eqn:Ei.
  - assert (E : imm_code M ii cls op di a = other_code M ii op di a).
    { destruct op; try done. vm_compute in Hc. injection Hc as <-. done. }
    rewrite E in H. by eapply other_ids.
  - destruct cls; try (by eapply other_ids); unfold if_after; rewrite Ei; cbn [imm_code] in H; repeat case_match; simplify_option_eq; try done;
      repeat case_match; simplify_option_eq; done.
Qed.

Lemma plain_ids ii op di a a' : di_opcode di = wah_op_value op -> plain_instr M ac ii op di a = Some a' -> if_after op ii (ids a) (ids a').
Proof.
  unfold plain_instr. intros ->. destruct (zget wah_opclasses (wah_op_value op)) as [cls|] eqn:Ec; [|done]. cbn [mbind option_bind].
  destruct (imm_code M ii cls op di (start_chunk M ac a)) as [[ps a1]|] eqn:Ei; [|done]. simpl. intros [= <-].
  rewrite split_ids, record_ids, <- (start_ids a). by eapply imm_ids.
Qed.

Lemma end_block_ids f fs di map a a' : end_block M ac f fs di map a = Some a' -> ids a' = af_id <$> fs.
Proof.
  unfold end_block. set (d := if emit_meter M ac && _ then start_chunk M ac _ else _). intros H.
  assert (Ed : ids d = af_id <$> fs) by (unfold d; destruct (_ && _); by rewrite ?start_ids).
  destruct (is_loop (af_op f)); [by injection H as <-|]. destruct (map_label M _ _ _ _ d) as [d'|] eqn:Em; [|done].
  apply map_ids in Em. cbn [mbind option_bind] in H. destruct (af_trim f); [|injection H as <-; congruence].
  destruct map; [|done]. simpl in H. injection H as <-. rewrite record_ids. congruence.
Qed.

(** The frames are those of the open blocks. *)
Lemma asm_instr_ids ii di rest a a' : asm_instr M ac ii di rest a = Some a' -> ids a' = ids_after ii di (ids a) /\
  (opens_block di || instr_is di WAH_OP_TRY_TABLE = true -> zlen (ids a) < WAH_MAX_CONTROL_DEPTH).
Proof.
  unfold asm_instr. destruct (wah_opcode_of (di_opcode di)) as [op|] eqn:Eop; [|done]. apply opcode_of_value in Eop. cbn [mbind option_bind].
  intros H. unfold ids_after, opens_block, instr_is. rewrite Eop.
  destruct op; try (apply (plain_ids _ _ _ _ _ Eop) in H; done).
  - unfold block_instr in H. destruct (the_block (di_imm di)) as [[ti single]|]; [|done]. cbn [mbind option_bind] in H.
    destruct (push_frame ii _ ti single _) as [a1|] eqn:Ep; [|done]. simpl in H. injection H as <-.
    apply push_ids in Ep as [Hd Ep]. rewrite start_ids in Hd, Ep. by rewrite record_ids.
  - unfold loop_instr in H. destruct (the_block (di_imm di)) as [[ti single]|]; [|done]. cbn [mbind option_bind] in H.
    destruct (push_frame ii _ ti single _) as [a1|] eqn:Ep; [|done]. cbn [mbind option_bind] in H.
    destruct (map_label M _ ti single true a1) as [a2|] eqn:Em; [|done]. simpl in H. injection H as <-.
    apply push_ids in Ep as [Hd Ep]. rewrite start_ids in Hd, Ep. apply map_ids in Em. rewrite record_ids, Em, Ep.
    assert (E : forall x y, ids (emit x y) = ids y) by done. rewrite E in Hd |- *. destruct (polls ac di); [rewrite end_ids in Hd |- *|]; done.
  - apply (plain_ids _ _ _ _ _ Eop) in H as [Hd H]. done.
  - destruct (a_frames a) as [|f fs] eqn:Ef.
    + destruct rest; [|done]. injection H as <-. split; [|done]. unfold end_func. rewrite end_ids, record_ids.
      assert (E : forall x y, ids (emit x y) = ids y) by done. rewrite E, start_ids. unfold ids. by rewrite Ef.
    + apply end_block_ids in H. split; [|done]. rewrite H. unfold ids. by rewrite Ef.
  - unfold try_instr in H. destruct (di_imm di); try done. destruct (catch_code catches _) as [[ps a1]|] eqn:Ec; [|done]. cbn [mbind option_bind] in H.
    destruct (push_frame ii _ _ _ a1) as [a2|] eqn:Ep; [|done]. simpl in H. injection H as <-.
    apply push_ids in Ep as [Hd Ep]. apply catch_ids in Ec. rewrite Ec, start_ids in Hd, Ep. by rewrite record_ids.
Qed.
End Ids.

(** ** The marks *)

Section Marks.
Context (ac : wah_analyzed_code_t).
Notation L := (ac_instrs ac).

Lemma instr_kinds di : (instr_is di WAH_OP_TRY_TABLE = true -> opens_block di = false /\ instr_is di WAH_OP_END = false /\ instr_is di WAH_OP_LOOP = false) /\
  (opens_block di = true -> instr_is di WAH_OP_TRY_TABLE = false /\ instr_is di WAH_OP_END = false) /\
  (instr_is di WAH_OP_LOOP = true -> opens_block di = true).
Proof.
  unfold opens_block, instr_is. change (wah_op_value WAH_OP_TRY_TABLE) with 31. change (wah_op_value WAH_OP_BLOCK) with 2.
  change (wah_op_value WAH_OP_LOOP) with 3. change (wah_op_value WAH_OP_IF) with 4. change (wah_op_value WAH_OP_END) with 11.
  split_and!; intros H; lia.
Qed.

Definition loop_at (k : Z) : bool := match zget L k with Some di => instr_is di WAH_OP_LOOP | None => false end.
(** A marked loop is inside marked loops. *)
Definition marks_closed (opens : list Z) (marks : list bool) : Prop := forall k k', k ∈ opens -> k' ∈ opens -> k' < k ->
  loop_at k = true -> loop_at k' = true -> zget marks k = Some true -> zget marks k' = Some true.
Definition descending (opens : list Z) : Prop := StronglySorted (fun x y => y < x) opens.

Lemma zset_zlen {A} (l l' : list A) i x : zset l i x = Some l' -> zlen l' = zlen l.
Proof. intros [_ ->]%zset_inv. unfold zlen. by rewrite length_insert. Qed.

Lemma mark_loops_ok opens marks : zlen marks = zlen L -> descending opens -> Forall (fun k => 0 <= k < zlen L) opens -> marks_closed opens marks ->
  exists marks', mark_loops ac opens marks = Some marks' /\ zlen marks' = zlen L /\
    forall k, zget marks' k = if loop_at k && bool_decide (k ∈ opens) then Some true else zget marks k.
Proof.
  revert marks. induction opens as [|k opens IH]; intros marks Hlen Hd Hr Hc; cbn [mark_loops].
  - exists marks. split_and!; [done|done|]. intros k. rewrite bool_decide_false by set_solver. by rewrite andb_false_r.
  - apply StronglySorted_inv in Hd as [Hd Hk]. apply Forall_cons_1 in Hr as [Hkr Hr].
    destruct (zget_is_Some L k Hkr) as [di Edi]. rewrite Edi.
    assert (Elo : loop_at k = instr_is di WAH_OP_LOOP) by (unfold loop_at; by rewrite Edi). cbn [mbind option_bind].
    assert (Hc' : marks_closed opens marks) by (intros x y Hx Hy; apply Hc; set_solver).
    destruct (instr_is di WAH_OP_LOOP) eqn:El; cbn [negb].
    2: { destruct (IH marks Hlen Hd Hr Hc') as (m' & -> & Hl & Hm). exists m'. split_and!; [done|done|]. intros x. rewrite Hm.
         destruct (decide (x = k)) as [->|Hx]; [by rewrite Elo|]. by rewrite (bool_decide_ext (x ∈ k :: opens) (x ∈ opens)) by set_solver. }
    rewrite <- Hlen in Hkr. destruct (zget_is_Some marks k Hkr) as [[|] Em]; rewrite Em; cbn [mbind option_bind].
    + exists marks. split_and!; [done|done|]. intros x. destruct (loop_at x) eqn:Ex; [|done]. case_bool_decide as Hx; [|done].
      apply elem_of_cons in Hx as [->|Hx]; [done|]. apply (Hc k x); [set_solver..| |done|done|done].
      by apply (proj1 (Forall_forall _ _) Hk).
    + destruct (zset marks k true) as [m1|] eqn:E1; [|by rewrite zset_Some in E1]. cbn [mbind option_bind].
      pose proof (zset_zlen _ _ _ _ E1) as Hl1. assert (Hlt : forall x, x ∈ opens -> x < k) by apply (proj1 (Forall_forall _ _) Hk).
      destruct (IH m1) as (m' & -> & Hl & Hm); [congruence|done|done| |].
      * intros x y Hx Hy. rewrite !(zset_lookup _ _ _ _ _ E1). pose proof (Hlt x Hx). pose proof (Hlt y Hy).
        rewrite !(proj2 (Z.eqb_neq _ _)) by lia. by apply Hc'.
      * exists m'. split_and!; [done|done|]. intros x. rewrite Hm, (zset_lookup _ _ _ _ _ E1).
        destruct (Z.eqb_spec x k) as [->|Hx].
        -- rewrite Elo, (bool_decide_true (k ∈ k :: opens)) by set_solver. simpl. by destruct (bool_decide (k ∈ opens)).
        -- by rewrite (bool_decide_ext (x ∈ k :: opens) (x ∈ opens)) by set_solver.
Qed.

Record scan_ok (ii : Z) (opens : list Z) (marks : list bool) : Prop := ScanOk {
  sc_len : zlen marks = zlen L;
  sc_sorted : descending opens;
  sc_range : Forall (fun k => 0 <= k < ii) opens;
  sc_closed : marks_closed opens marks;
  sc_open : forall j k, opens !! j = Some k -> loop_at k = true ->
    exists m, zget marks k = Some m /\ try_inside 0 (drop (S (Z.to_nat k)) L) = m || try_inside j (drop (Z.to_nat ii) L);
  sc_done : forall k, 0 <= k < ii -> loop_at k = true -> k ∉ opens -> zget marks k = Some (try_inside 0 (drop (S (Z.to_nat k)) L));
  sc_new : forall k, ii <= k < zlen L -> zget marks k = Some false }.

Lemma loop_at_range k : loop_at k = true -> 0 <= k < zlen L.
Proof. unfold loop_at. destruct (zget L k) eqn:E; [|done]. intros _. by apply zget_Some in E as [E _]. Qed.

(** Another block is opened by the instruction [di] at [ii]. *)
Lemma scan_open ii opens marks di : scan_ok ii opens marks -> zget L ii = Some di -> 
  (forall j, try_inside j (di :: drop (S (Z.to_nat ii)) L) = try_inside (S j) (drop (S (Z.to_nat ii)) L)) ->
  scan_ok (ii + 1) (ii :: opens) marks.
Proof.
  intros [] Hdi Ht. pose proof (zget_Some _ _ _ Hdi) as [Hii Hn]. rewrite (drop_S _ _ _ Hn) in sc_open0. setoid_rewrite Ht in sc_open0.
  assert (Hlt : forall x, x ∈ opens -> 0 <= x < ii) by apply (proj1 (Forall_forall _ _) sc_range0).
  replace (Z.to_nat (ii + 1)) with (S (Z.to_nat ii)) in * by lia. constructor.
  - done.
  - constructor; [done|]. eapply Forall_impl; [done|]. simpl. lia.
  - constructor; [lia|]. eapply Forall_impl; [done|]. simpl. lia.
  - intros x y Hx Hy Hxy. apply elem_of_cons in Hx, Hy. destruct Hx as [->|Hx].
    + intros _ _. by rewrite sc_new0 by lia.
    + destruct Hy as [->|Hy]; [pose proof (Hlt x Hx); lia|]. by apply sc_closed0.
  - replace (Z.to_nat (ii + 1)) with (S (Z.to_nat ii)) by lia. intros [|j] k Hk Hl.
    + injection Hk as <-. exists false. split; [apply sc_new0; lia|done].
    + by apply sc_open0.
  - intros k Hk Hl Hno. apply not_elem_of_cons in Hno as [H1 H2]. apply sc_done0; [lia|done|done].
  - intros k Hk. apply sc_new0. lia.
Qed.

(** An instruction that opens no block. *)
Lemma scan_next ii opens marks di : scan_ok ii opens marks -> zget L ii = Some di -> instr_is di WAH_OP_LOOP = false ->
  (forall j, try_inside j (di :: drop (S (Z.to_nat ii)) L) = try_inside j (drop (S (Z.to_nat ii)) L)) ->
  scan_ok (ii + 1) opens marks.
Proof.
  intros [] Hdi Hnl Ht. pose proof (zget_Some _ _ _ Hdi) as [Hii Hn]. rewrite (drop_S _ _ _ Hn) in sc_open0. setoid_rewrite Ht in sc_open0.
  replace (Z.to_nat (ii + 1)) with (S (Z.to_nat ii)) in * by lia. constructor; try done.
  - eapply Forall_impl; [done|]. simpl. lia.
  - by replace (Z.to_nat (ii + 1)) with (S (Z.to_nat ii)) by lia.
  - intros k Hk Hl Hno. apply sc_done0; [|done|done]. destruct (decide (k = ii)) as [->|]; [|lia].
    unfold loop_at in Hl. rewrite Hdi in Hl. congruence.
  - intros k Hk. apply sc_new0. lia.
Qed.

(** The innermost block ends. *)
Lemma scan_end ii opens marks di : scan_ok ii opens marks -> zget L ii = Some di -> instr_is di WAH_OP_END = true ->
  scan_ok (ii + 1) (drop 1 opens) marks.
Proof.
  intros [] Hdi He. pose proof (zget_Some _ _ _ Hdi) as [Hii Hn]. rewrite (drop_S _ _ _ Hn) in sc_open0.
  assert (Ht : forall j, try_inside j (di :: drop (S (Z.to_nat ii)) L) = match j with O => false | S d => try_inside d (drop (S (Z.to_nat ii)) L) end).
  { intros j. simpl. destruct (instr_kinds di) as (H1 & H2 & _). fold (opens_block di).
    destruct (instr_is di WAH_OP_TRY_TABLE); [destruct (H1 eq_refl) as (_ & ? & _); congruence|].
    destruct (opens_block di); [destruct (H2 eq_refl); congruence|]. by rewrite He. }
  setoid_rewrite Ht in sc_open0. replace (Z.to_nat (ii + 1)) with (S (Z.to_nat ii)) in * by lia.
  assert (Hnl : loop_at ii = false).
  { unfold loop_at. rewrite Hdi. destruct (instr_is di WAH_OP_LOOP) eqn:El; [|done]. destruct (instr_kinds di) as (_ & H2 & H3).
    destruct (H2 (H3 El)). congruence. }
  assert (Hsub : forall k, k ∈ drop 1 opens -> k ∈ opens) by (intros k; destruct opens; [done|simpl; rewrite drop_0; set_solver]).
  constructor; try done.
  - destruct opens as [|o opens]; [done|]. simpl. rewrite drop_0. by apply StronglySorted_inv in sc_sorted0 as [? _].
  - apply Forall_forall. intros k Hk%Hsub. pose proof (proj1 (Forall_forall _ _) sc_range0 k Hk). simpl in *. lia.
  - intros x y Hx Hy. apply sc_closed0; by apply Hsub.
  - replace (Z.to_nat (ii + 1)) with (S (Z.to_nat ii)) by lia. intros j k. rewrite lookup_drop. apply sc_open0.
  - intros k Hk Hl Hno. destruct (decide (k = ii)) as [->|]; [congruence|].
    destruct opens as [|o opens]; [apply sc_done0; [lia|done|set_solver]|]. simpl in Hno. rewrite drop_0 in Hno.
    destruct (decide (k = o)) as [->|]; [|apply sc_done0; [lia|done|set_solver]].
    destruct (sc_open0 0%nat o eq_refl Hl) as (m & Hm & ->). by rewrite orb_false_r.
  - intros k Hk. apply sc_new0. lia.
Qed.

(** A try_table marks the loops it is in. *)
Lemma scan_try ii opens marks di : scan_ok ii opens marks -> zget L ii = Some di -> instr_is di WAH_OP_TRY_TABLE = true ->
  exists marks', mark_loops ac opens marks = Some marks' /\ scan_ok (ii + 1) (ii :: opens) marks'.
Proof.
  intros Hs Hdi Ht. pose proof (zget_Some _ _ _ Hdi) as [Hii Hn]. pose proof Hs as [].
  assert (Hlt : forall x, x ∈ opens -> 0 <= x < ii) by apply (proj1 (Forall_forall _ _) sc_range0).
  destruct (mark_loops_ok opens marks) as (m' & Em & Hl & Hm); [done|done| |done|].
  { eapply Forall_impl; [done|]. simpl. lia. }
  exists m'. split; [done|]. rewrite (drop_S _ _ _ Hn) in sc_open0.
  assert (Hnl : loop_at ii = false) by (unfold loop_at; rewrite Hdi; by destruct (instr_kinds di) as (H & _); destruct (H Ht) as (_ & _ & ?)).
  assert (Hin : forall k, loop_at k = true -> k ∈ opens -> zget m' k = Some true) by (intros k H1 H2; by rewrite Hm, H1, bool_decide_true).
  assert (Hout : forall k, k ∉ opens -> zget m' k = zget marks k) by (intros k H2; by rewrite Hm, bool_decide_false, andb_false_r).
  constructor; [done| | | | | |].
  - constructor; [done|]. eapply Forall_impl; [done|]. simpl. lia.
  - constructor; [lia|]. eapply Forall_impl; [done|]. simpl. lia.
  - intros x y Hx Hy Hxy Lx Ly _. apply elem_of_cons in Hy as [->|Hy]; [congruence|]. by apply Hin.
  - intros [|j] k Hk Hlk; [injection Hk as <-; congruence|]. destruct (sc_open0 j k Hk Hlk) as (m & _ & ->).
    exists true. split; [apply Hin; [done|by eapply list_elem_of_lookup_2]|]. simpl. by rewrite Ht, orb_true_r.
  - intros k Hk Hlk Hno. apply not_elem_of_cons in Hno as [H1 H2]. rewrite Hout by done. apply sc_done0; [lia|done|done].
  - intros k Hk. rewrite Hout; [apply sc_new0; lia|]. intros H. apply Hlt in H. lia.
Qed.

Lemma find_ok M instrs ii opens marks a a' : drop (Z.to_nat ii) L = instrs -> 0 <= ii -> asm_instrs M ac ii instrs a = Some a' ->
  ids a = opens -> scan_ok ii opens marks ->
  exists marks', find_try_loops ac instrs ii opens marks = Some marks' /\
    forall k, loop_at k = true -> zget marks' k = Some (try_inside 0 (drop (S (Z.to_nat k)) L)).
Proof.
  revert ii opens marks a. induction instrs as [|di rest IH]; intros ii opens marks a Ed Hii Hi <- Hs; cbn [asm_instrs find_try_loops] in *.
  - exists marks. split; [done|]. intros k Hk. pose proof (loop_at_range k Hk). destruct Hs.
    assert (zlen L <= ii) by (apply (f_equal length) in Ed; rewrite length_drop in Ed; unfold zlen; simpl in Ed; lia).
    destruct (decide (k ∈ ids a)) as [Hin|Hin]; [|apply sc_done0; [lia|done|done]].
    apply list_elem_of_lookup_1 in Hin as (j & Hj). destruct (sc_open0 j k Hj Hk) as (m & -> & ->). rewrite Ed. simpl. by rewrite orb_false_r.
  - assert (Hdi : zget L ii = Some di).
    { rewrite zget_nat by done. rewrite <- (Nat.add_0_r (Z.to_nat ii)), <- lookup_drop, Ed. done. }
    assert (Ed' : drop (Z.to_nat (ii + 1)) L = rest).
    { replace (Z.to_nat (ii + 1)) with (1 + Z.to_nat ii)%nat by lia. rewrite Nat.add_comm, <- drop_drop, Ed. done. }
    assert (Ed2 : drop (S (Z.to_nat ii)) L = rest) by (rewrite <- Ed'; f_equal; lia).
    destruct (asm_instr M ac ii di rest a) as [a1|] eqn:Ei; [|done]. simpl in Hi.
    apply asm_instr_ids in Ei as [Hids Hd]. unfold ids_after in Hids. destruct (instr_kinds di) as (K1 & K2 & K3).
    fold (opens_block di). destruct (opens_block di) eqn:Eo; cbn [orb] in *.
    + rewrite (proj2 (Z.ltb_lt _ _)) by by apply Hd. eapply IH; [done|lia|done|done|]. eapply scan_open; [done|done|].
      intros j. simpl. fold (opens_block di). destruct (K2 eq_refl) as [-> _]. by rewrite Eo.
    + destruct (instr_is di WAH_OP_TRY_TABLE) eqn:Et.
      * destruct (scan_try _ _ _ _ Hs Hdi Et) as (m' & -> & Hs'). cbn [mbind option_bind].
        rewrite (proj2 (Z.ltb_lt _ _)) by by apply Hd. by eapply IH; [|lia| |done|].
      * destruct (instr_is di WAH_OP_END) eqn:Ee; [by eapply IH; [|lia| |done|eapply scan_end]|].
        eapply IH; [done|lia|done|done|]. eapply scan_next; [done|done| |].
        -- destruct (instr_is di WAH_OP_LOOP); [by specialize (K3 eq_refl)|done].
        -- intros j. simpl. fold (opens_block di). by rewrite Et, Eo, Ee.
Qed.

Lemma no_try_inside depth instrs : existsb (fun di => instr_is di WAH_OP_TRY_TABLE) instrs = false -> try_inside depth instrs = false.
Proof.
  revert depth. induction instrs as [|di rest IH]; intros depth; [done|]. simpl. intros [H1 H2]%orb_false_iff. rewrite H1.
  destruct (_ || _); [by apply IH|]. destruct (instr_is di WAH_OP_END); [|by apply IH]. destruct depth; [done|by apply IH].
Qed.

Lemma existsb_drop {A} (p : A -> bool) n l : existsb p l = false -> existsb p (drop n l) = false.
Proof.
  rewrite <- (take_drop n l) at 1. rewrite existsb_app. by intros [_ ?]%orb_false_iff.
Qed.

Lemma wp_malloc_any n k (Q : unit -> answers -> Prop) ans : (forall ans', Q tt ans') -> wp (wah_malloc_c n k) Q ans.
Proof. intros HQ. destruct (wah_malloc_c_cases n k ans) as [[ans' E]|[ans' E]]; unfold wp; by rewrite E. Qed.

(** The marks are those of a search. *)
Lemma wp_loop_marks M a' (Q : option (list bool) -> answers -> Prop) ans : asm_instrs M ac 0 L asm_start = Some a' ->
  (forall marks ans', marks_ok marks 0 L -> Q marks ans') -> wp (loop_marks ac) Q ans.
Proof.
  intros Hi HQ. unfold loop_marks. destruct (existsb _ L) eqn:Ex.
  - apply wp_bind, wp_malloc_any. intros ans'.
    destruct (find_ok M L 0 [] (replicate (length L) false) asm_start a') as (m & Em & Hm); [done|done|done|done| |].
    { constructor; try done; [unfold zlen; by rewrite length_replicate|constructor| |lia|].
      - intros x y Hx. by apply elem_of_nil in Hx.
      - intros k Hk. rewrite zget_nat by lia. apply lookup_replicate_2. unfold zlen in *. lia. }
    apply wp_bind. eapply wp_opt; [done|]. apply wp_ret, HQ. intros i di Hdi Hlo. rewrite Z.add_0_l. simpl.
    assert (Hl : loop_at (Z.of_nat i) = true) by (unfold loop_at; by rewrite zget_of_nat, Hdi).
    specialize (Hm _ Hl). by rewrite Nat2Z.id in Hm.
  - apply wp_ret, HQ. intros i di Hdi Hlo. simpl. apply no_try_inside. by apply existsb_drop.
Qed.
End Marks.
