(* ===== verification/LowerIslands.v ===== *)
(** * Lowering: slow islands

    The copies of the chunks of metered code are those of the symbolic code: each has
    its TICKs, the code of its instructions as it is in the chunk, and the jump back. *)

From S2P Require Import Prelude Base Alloc Types Opcodes Bytes Decode Subtype ModuleEnv Operands Validate Analyze Lowering Assembly LowerSpec LowerInv LowerChunk LowerFrame.
From stdpp Require Import list sets.
#[local] Open Scope Z_scope.
#[local] Open Scope wah_scope.

(** ** Definitions *)

(** The code with the copies so far. *)
Record copied (cost : Z -> Z) (s0 : lstate) (code : list piece) (s : lstate) : Prop := Copied {
  cp_buf : vec_list (l_buf s) = assemble (layout code) cost code;
  cp_ok : vec_ok (l_buf s);
  cp_maps : l_maps s = l_maps s0;
  cp_types : l_map_types s = l_map_types s0;
  cp_meter : l_meter s = l_meter s0 }.

(** ** Copies *)

Lemma occurs_bytes e c code off len ps : occurs code off len ps ->
  exists pre post, assemble e c code = pre ++ assemble e c ps ++ post /\ zlen pre = off /\ zlen (assemble e c ps) = len.
Proof.
  intros (pre & post & E & <- & <-). exists (assemble e c pre), (assemble e c post).
  rewrite <- (assemble_strip e c code), E, !assemble_app, !assemble_size. done.
Qed.

Lemma read_u16_at mem p b0 b1 : 0 <= p -> mem_slice mem p 2 = [b0; b1] -> is_byte b0 -> is_byte b1 ->
  wah_read_u16_le mem p = Some (b0 + 256 * b1).
Proof.
  intros Hp Hs H0 H1. unfold wah_read_u16_le, mem_slice in *.
  assert (E : forall i b, [b0; b1] !! i = Some b -> zget mem (p + Z.of_nat i) = Some b).
  { intros i b Hi. rewrite zget_nat by lia. rewrite <- Hs in Hi. apply lookup_take_Some in Hi as [Hi _]. rewrite lookup_drop in Hi.
    rewrite <- Hi. f_equal. lia. }
  pose proof (E 0%nat b0 eq_refl) as E0. pose proof (E 1%nat b1 eq_refl) as E1. rewrite Z.add_0_r in E0. change (Z.of_nat 1) with 1 in E1.
  rewrite E0, E1. cbn [mbind option_bind]. f_equal. rewrite Z.shiftl_0_r, lor_shiftl by (unfold is_byte in *; lia).
  unfold u16, is_byte in *. rewrite Z.mod_small by lia. lia.
Qed.

Lemma copied_append cost s0 s code qs b ans : copied cost s0 code s -> placed qs = [] -> vec_ok b ->
  vec_list b = vec_list (l_buf s) ++ assemble (layout code) cost qs ->
  copied cost s0 (code ++ qs) (LState ans b (l_maps s) (l_map_types s) (l_frames s) (l_try_depth s) (l_end_patches s) (l_meter s)).
Proof. intros [] Hp Hb Eb. constructor; try done. simpl. by rewrite Eb, assemble_snoc, cp_buf0. Qed.

Lemma copied_size cost s0 s code : copied cost s0 code s -> buf_size s = code_size code.
Proof. intros []. unfold buf_size, vec_size. rewrite cp_buf0. apply assemble_size. Qed.

Lemma wp_copy_u16 cost s0 v (Q : unit -> lstate -> Prop) s code : copied cost s0 code s ->
  (forall s', copied cost s0 (code ++ [P16 v]) s' -> Q tt s') -> wp (WAH_LOWER_U16 v) Q s.
Proof.
  intros Hc HQ. apply wp_u16_raw; [apply Hc|]. intros b ans Hb Eb. apply HQ. eapply copied_append; [done|done|done|]. by rewrite Eb.
Qed.
Lemma wp_copy_u32 cost s0 v p (Q : unit -> lstate -> Prop) s code : copied cost s0 code s -> placed [p] = [] ->
  assemble_piece (layout code) cost p = le_bytes 4 v ->
  (forall s', copied cost s0 (code ++ [p]) s' -> Q tt s') -> wp (WAH_LOWER_U32 v) Q s.
Proof.
  intros Hc Hp Ev HQ. apply wp_u32_raw; [apply Hc|]. intros b ans Hb Eb. apply HQ. eapply copied_append; [done|done|done|].
  rewrite Eb. simpl. by rewrite app_nil_r, Ev.
Qed.

(** The code of an instruction is copied as it is. *)
Lemma wp_copy_instr cost s0 rec r (Q : unit -> lstate -> Prop) s code : copied cost s0 code s -> record_rel code rec r -> placed (si_code r) = [] ->
  mr_byte_length rec < code_size code ->
  (forall s', copied cost s0 (code ++ si_code r) s' -> Q tt s') ->
  wp (when (0 <? mr_byte_length rec) (
        n <- get_size ;;
        lower_ensure (u32 (n + mr_byte_length rec)) ;;;
        s <- stm_get ;;
        (if mr_fast_offset rec + mr_byte_length rec <=? n then skip else stm_fault) ;;;
        lower_append (mem_slice (vec_list (l_buf s)) (mr_fast_offset rec) (Z.to_nat (mr_byte_length rec))))) Q s.
Proof.
  intros Hc [_ Ho] Hp Hlt HQ. destruct (occurs_bytes (layout code) cost _ _ _ _ Ho) as (pre & post & E & Eo & El).
  pose proof (zlen_nonneg pre). pose proof (zlen_nonneg post). pose proof (zlen_nonneg (assemble (layout code) cost (si_code r))).
  pose proof (copied_size _ _ _ _ Hc) as Hsz. pose proof (cp_buf _ _ _ _ Hc) as Hbuf. rewrite E in Hbuf.
  assert (Hin : mr_fast_offset rec + mr_byte_length rec <= code_size code).
  { rewrite <- (assemble_size (layout code) cost code), E, !zlen_app. lia. }
  pose proof (vec_ok_bound _ (cp_ok _ _ _ _ Hc)) as Hb. fold (buf_size s) in Hb.
  apply wp_when; intros Hz.
  - apply wp_bind, wp_get_size. rewrite Hsz, u32_small by lia.
    apply wp_bind, wp_bind, wp_get, wp_bind, wp_on_l_answers. apply wp_vec_ensure; [apply Hc|]. intros c ans Hcl _ Hcap. apply wp_modify.
    apply wp_bind, wp_get. rewrite (proj2 (Z.leb_le _ _)) by lia. apply wp_bind, wp_skip. cbn [l_buf l_set_buf vec_list].
    rewrite Hbuf, <- Eo, <- El. unfold zlen at 2. rewrite Nat2Z.id, mem_slice_app.
    apply wp_bind, wp_get. unfold buf_size at 1. cbn [l_buf l_set_buf vec_cap]. unfold vec_size. cbn [vec_list].
    unfold buf_size, vec_size in Hsz. rewrite Hbuf in Hsz. rewrite Hsz.
    rewrite (proj2 (Z.leb_le _ _)) by lia. apply wp_modify, HQ. rewrite <- Hbuf.
    eapply (copied_append cost s0 s code (si_code r) (Vec (vec_list (l_buf s) ++ assemble (layout code) cost (si_code r)) c) ans); [done|done| |done].
    split; [done|]. unfold vec_size. cbn [vec_list vec_cap]. rewrite zlen_app, Hbuf. lia.
  - assert (E0 : assemble (layout code) cost (si_code r) = []).
    { apply nil_length_inv. unfold zlen in *. lia. }
    destruct s as [ans b ? ? ? ? ? ?]. apply HQ. apply (copied_append cost s0 (LState ans b _ _ _ _ _ _) code (si_code r) b ans); [done|done|apply Hc|].
    simpl in *. by rewrite E0, app_nil_r.
Qed.

Lemma wp_ticks cost s0 recs rs (Q : unit -> lstate -> Prop) s code : copied cost s0 code s -> Forall2 (record_rel code) recs rs ->
  Forall (fun r => placed (si_code r) = []) rs ->
  (forall s', copied cost s0 (code ++ (rs ≫= tick_code)) s' -> Q tt s') -> wp (lower_ticks recs) Q s.
Proof.
  revert rs s code. induction recs as [|rec recs IH]; intros rs s code Hc H Hp HQ; inversion H as [|? r ? rs' Hr Hrs]; subst; cbn [lower_ticks].
  - apply wp_skip, HQ. by rewrite app_nil_r.
  - apply Forall_cons_1 in Hp as [Hp Hps].
    apply wp_bind. eapply wp_copy_u16; [done|]. intros s1 Hc1. apply wp_bind.
    eapply (wp_copy_u32 _ _ _ (P32 (si_map r))); [exact Hc1|done|simpl; by rewrite (proj1 Hr)|]. intros s2 Hc2. rewrite <- app_assoc in Hc2.
    apply wp_bind. eapply wp_copy_instr; [exact Hc2|by apply record_rel_app|done| |].
    + destruct Hr as [_ Ho]. destruct (occurs_bytes (layout code) cost _ _ _ _ Ho) as (pre & post & E & Eo & El).
      apply (f_equal zlen) in E. rewrite !zlen_app, assemble_size in E. rewrite code_size_app. simpl.
      pose proof (zlen_nonneg pre). pose proof (zlen_nonneg post). unfold zlen in *. simpl in *. lia.
    + intros s3 Hc3. rewrite <- app_assoc in Hc3. eapply IH; [exact Hc3| |done|].
      * eapply Forall2_impl; [done|]. intros; by apply record_rel_app.
      * intros s4 Hc4. rewrite <- app_assoc in Hc4. by apply HQ.
Qed.

(** The last instruction of a chunk tells whether the code after it is reached. *)
Lemma wp_last_instr cost s0 rec r (Q : bool -> lstate -> Prop) s code : copied cost s0 code s -> record_rel code rec r ->
  instr_code (si_code r) -> placed (si_code r) = [] -> Q (continues r) s ->
  wp (if 2 <=? mr_byte_length rec then
        last_op <- stm_opt (wah_read_u16_le (vec_list (l_buf s)) (mr_fast_offset rec)) ;; stm_ret (falls_through last_op)
      else stm_ret true : comp lstate bool) Q s.
Proof.
  intros Hc [_ Ho] (_ & _ & Hi) Hp HQ. destruct (occurs_bytes (layout code) cost _ _ _ _ Ho) as (pre & post & E & Eo & El).
  rewrite (strip_id _ Hp) in Hi. unfold continues in HQ. destruct Hi as [Hi|(op & rest & Hi)]; rewrite Hi in *.
  - replace (2 <=? mr_byte_length rec) with false by (rewrite <- El; done). by apply wp_ret.
  - rewrite assemble_cons in E, El. rewrite zlen_app in El. pose proof (zlen_nonneg (assemble (layout code) cost rest)).
    change (zlen (assemble_piece _ _ (P16 op))) with 2 in El. rewrite (proj2 (Z.leb_le _ _)) by lia.
    set (b0 := op mod 256) in *. set (b1 := op / 256 mod 256) in *.
    assert (Eb : le_bytes 2 op = [b0; b1]) by done. unfold P16 in HQ. rewrite Eb in HQ.
    apply wp_bind. eapply wp_opt; [|apply wp_ret; exact HQ]. pose proof (zlen_nonneg pre).
    apply read_u16_at; [lia| |unfold is_byte, b0; apply Z.mod_pos_bound; lia|unfold is_byte, b1; apply Z.mod_pos_bound; lia].
    rewrite (cp_buf _ _ _ _ Hc), E, <- Eo. rewrite <- !app_assoc.
    apply (mem_slice_app pre [b0; b1]).
Qed.

Lemma copied_place cost s0 s code l off : copied cost s0 code s -> l ∉ placed code -> holes l 0 code = [off] ->
  copied cost s0 (code ++ [PL l]) (l_set_buf (Vec (mem_store (vec_list (l_buf s)) off (le_bytes 4 (code_size code))) (vec_cap (l_buf s))) s).
Proof.
  intros [] Hl Hh. constructor; try done; simpl.
  - pose proof (assemble_insert cost code [] l Hl) as Hi. rewrite app_nil_r, Hh in Hi. by rewrite Hi, cp_buf0.
  - split; [apply cp_ok0|]. destruct cp_ok0 as [_ Hb]. unfold vec_size, zlen in *. simpl. by rewrite mem_store_length.
Qed.

Lemma island_targets n rs l : Forall (fun r => instr_code (si_code r)) rs -> l ∈ targets (island_code n rs) -> match l with LSlow _ => False | _ => True end.
Proof.
  intros Hi Hl. unfold island_code in Hl. change (PL (LSlow n) :: ?x) with ([PL (LSlow n)] ++ x) in Hl. rewrite !targets_app in Hl.
  apply elem_of_app in Hl as [Hl|Hl]; [by apply elem_of_nil in Hl|]. apply elem_of_app in Hl as [Hl|Hl].
  - induction rs as [|r rs IH]; [by apply elem_of_nil in Hl|]. apply Forall_cons_1 in Hi as [(_ & Hi & _) His]. simpl in Hl. rewrite targets_app in Hl.
    apply elem_of_app in Hl as [Hl|Hl]; [|by apply IH]. apply Hi in Hl. by destruct l.
  - destruct (last rs) as [r|]; [|by apply elem_of_nil in Hl]. destruct (continues r); [|by apply elem_of_nil in Hl]. simpl in Hl. apply list_elem_of_singleton in Hl as ->. done.
Qed.
Lemma island_placed n rs : Forall (fun r => placed (si_code r) = []) rs -> placed (island_code n rs) = [LSlow n].
Proof.
  intros Hp. unfold island_code. change (PL (LSlow n) :: ?x) with ([PL (LSlow n)] ++ x). rewrite !placed_app. simpl. f_equal.
  assert (E : placed (rs ≫= tick_code) = []) by (induction Hp as [|r rs Hr _ IH]; [done|]; rewrite bind_cons, placed_app; simpl; by rewrite Hr, IH).
  rewrite E. destruct (last rs) as [r|]; [|done]. by destruct (continues r).
Qed.

Lemma wp_island cost s0 n rs c records (Q : unit -> lstate -> Prop) s code : copied cost s0 code s ->
  records = take (Z.to_nat (mc_record_count c)) (drop (Z.to_nat (mc_record_start c)) (vec_list (me_records (l_meter s0)))) ->
  mc_record_count c = zlen records -> Forall2 (record_rel code) records rs ->
  Forall (fun r => instr_code (si_code r) /\ placed (si_code r) = []) rs ->
  holes (LSlow n) 0 code = [mc_meter_offset c + 4] -> LSlow n ∉ placed code -> address code (LNext n) = Some (mc_next_fast_offset c) ->
  (forall s', copied cost s0 (code ++ island_code n rs) s' -> Q tt s') -> wp (lower_island c) Q s.
Proof.
  intros Hc Er En Hr Hok Hh Hl Ha HQ. apply Forall_and in Hok as [Hi Hp]. pose proof (copied_size _ _ _ _ Hc) as Hsz.
  assert (Hin : mc_meter_offset c + 4 ∈ holes (LSlow n) 0 code) by (rewrite Hh; set_solver). apply holes_in_range in Hin.
  apply wp_bind, wp_get_size. rewrite Hsz. apply wp_bind, wp_patch; [lia|lia|].
  pose proof (copied_place _ _ _ _ _ _ Hc Hl Hh) as Hc1. set (s1 := l_set_buf _ s) in *.
  apply wp_bind, wp_get. rewrite (cp_meter _ _ _ _ Hc1), <- Er. cbv zeta. rewrite <- En, Z.eqb_refl. apply wp_bind, wp_skip.
  assert (Hr1 : forall qs, Forall2 (record_rel (code ++ qs)) records rs) by (intros qs; eapply Forall2_impl; [done|]; intros; by apply record_rel_app).
  apply wp_bind. eapply wp_ticks; [exact Hc1|done|done|]. intros s2 Hc2. rewrite <- app_assoc in Hc2. unfold island_code in HQ.
  destruct (last records) as [rec|] eqn:El.
  - apply last_Some in El as (recs' & Ere). rewrite Ere in Hr1. specialize (Hr1 ([PL (LSlow n)] ++ (rs ≫= tick_code))).
    apply Forall2_app_inv_l in Hr1 as (rs' & l2 & _ & Hlast & Ers). apply Forall2_cons_inv_l in Hlast as (r & l3 & Hrec & Hnil & ->).
    apply Forall2_nil_inv_l in Hnil as ->. rewrite Ers, last_snoc in HQ. rewrite Ers in Hi, Hp.
    apply Forall_app in Hi as [_ Hi]. apply Forall_app in Hp as [_ Hp]. apply Forall_cons_1 in Hi as [Hi _]. apply Forall_cons_1 in Hp as [Hp _].
    apply wp_bind, wp_get, wp_bind. eapply wp_last_instr; [exact Hc2|exact Hrec|done|done|].
    apply wp_when; intros Ec; rewrite Ec in HQ; [|apply HQ; rewrite <- Ers; by rewrite app_nil_r].
    apply wp_bind. eapply wp_copy_u16; [exact Hc2|]. intros s3 Hc3.
    eapply (wp_copy_u32 _ _ _ (PT (LNext n))); [exact Hc3|done| |].
    + simpl. unfold layout. rewrite <- !app_assoc. by rewrite (address_app_Some _ _ _ _ Ha).
    + intros s4 Hc4. apply HQ. rewrite <- !app_assoc in Hc4. rewrite <- Ers. exact Hc4.
  - apply last_None in El as Ere. rewrite Ere in Hr1. specialize (Hr1 []). apply Forall2_nil_inv_l in Hr1 as ->. apply wp_skip, HQ.
    exact Hc2.
Qed.

Lemma Forall2_segment {A B} (P : A -> B -> Prop) R (chunks : list (list B)) n rs : Forall2 P R (concat chunks) -> chunks !! n = Some rs ->
  Forall2 P (take (length rs) (drop (length (concat (take n chunks))) R)) rs.
Proof.
  intros H Hn. rewrite <- (take_drop_middle chunks n rs Hn), concat_app in H. simpl in H.
  apply (Forall2_drop _ _ _ (length (concat (take n chunks)))) in H. rewrite drop_app_length in H.
  apply (Forall2_take _ _ _ (length rs)) in H. by rewrite take_app_length in H.
Qed.

Lemma Forall_segment {A} (P : A -> Prop) (chunks : list (list A)) n rs : Forall P (concat chunks) -> chunks !! n = Some rs -> Forall P rs.
Proof. intros H Hn. rewrite <- (take_drop_middle chunks n rs Hn), concat_app, !Forall_app in H. simpl in H. rewrite Forall_app in H. tauto. Qed.

(** The copies follow the code. *)
Lemma wp_islands K s0 a cs n X (Q : unit -> lstate -> Prop) s : asm_ok K a -> a_open a = None -> meter_rel (l_meter s0) a ->
  cs = drop n (vec_list (me_chunks (l_meter s0))) -> copied (chunk_cost (a_chunks a)) s0 (a_code a ++ X) s ->
  (forall l, l ∈ targets X -> match l with LSlow _ => False | _ => True end) ->
  (forall c, LSlow c ∈ placed X -> c < Z.of_nat n) ->
  (forall s', copied (chunk_cost (a_chunks a)) s0 (a_code a ++ X ++ islands (Z.of_nat n) (drop n (a_chunks a))) s' -> Q tt s') ->
  wp (lower_islands cs) Q s.
Proof.
  intros Ha Ho Hm. revert n X s. induction cs as [|c cs IH]; intros n X s Ecs Hc Ht Hp HQ; cbn [lower_islands].
  - assert (En : drop n (a_chunks a) = []).
    { apply drop_ge. rewrite <- (mt_length _ _ Hm). apply (f_equal length) in Ecs. rewrite length_drop in Ecs. simpl in Ecs. lia. }
    rewrite En in HQ. apply wp_skip, HQ. simpl. by rewrite app_nil_r.
  - assert (Hn : vec_list (me_chunks (l_meter s0)) !! n = Some c).
    { rewrite <- (Nat.add_0_r n), <- lookup_drop, <- Ecs. done. }
    pose proof (mt_chunks _ _ Hm n c Hn) as [Hmeter Hnext Hstart (rs & Hrs & Hcount & Hne)].
    unfold closed_code in Hnext. rewrite Ho in Hnext. destruct (mt_records _ _ Hm) as (R1 & R2 & ER & HR1 & HR2).
    unfold closed_code in HR1. rewrite Ho in HR1, HR2. simpl in HR2. apply Forall2_nil_inv_r in HR2 as ->. rewrite app_nil_r in ER.
    pose proof (mt_instrs _ _ Hm) as Hi. rewrite Ho in Hi. simpl in Hi. rewrite app_nil_r in Hi. pose proof (Forall_segment _ _ _ _ Hi Hrs) as Hirs.
    pose proof (Forall2_segment _ _ _ _ _ HR1 Hrs) as Hseg.
    set (records := take (Z.to_nat (mc_record_count c)) (drop (Z.to_nat (mc_record_start c)) (vec_list (me_records (l_meter s0))))).
    assert (Erec : records = take (length rs) (drop (length (concat (take n (a_chunks a)))) R1)).
    { unfold records. rewrite ER, Hcount, Hstart. unfold zlen. by rewrite !Nat2Z.id. }
    rewrite <- Erec in Hseg. pose proof (drop_S _ _ _ Hrs) as Ers. rewrite Ers in HQ. cbn [islands] in HQ.
    pose proof (proj1 (Forall_and _ _) Hirs) as [Hirs1 Hirs2].
    apply wp_bind. eapply (wp_island _ _ (Z.of_nat n) rs c records); [exact Hc|done| | |done| | | |].
    + rewrite Hcount. unfold zlen. by rewrite (Forall2_length _ _ _ Hseg).
    + eapply Forall2_impl; [done|]. intros; by apply record_rel_app.
    + rewrite holes_app, Hmeter, (holes_nil _ _ X), app_nil_r; [done|]. intros H. by apply Ht in H.
    + rewrite placed_app, elem_of_app. intros [H|H]; [by apply (ao_placed _ _ Ha) in H|apply Hp in H; lia].
    + by apply address_app_Some.
    + intros s1 Hc1. rewrite <- app_assoc in Hc1. eapply (IH (S n)); [|exact Hc1| | |].
      * rewrite (drop_S _ _ _ Hn) in Ecs. by injection Ecs.
      * intros l. rewrite targets_app, elem_of_app. intros [H|H]; [by apply Ht|]. by eapply island_targets.
      * intros k. rewrite placed_app, elem_of_app, island_placed by done. intros [H|H]; [apply Hp in H; lia|].
        apply list_elem_of_singleton in H. injection H as ->. lia.
      * intros s2 Hc2. apply HQ. rewrite <- app_assoc in Hc2. replace (Z.of_nat (S n)) with (Z.of_nat n + 1) in Hc2 by lia. exact Hc2.
Qed.
