(* ===== verification/LowerMaps.v ===== *)
(** * Lowering: the order of the stack maps

    The stack maps of lowered code are at increasing offsets of the bytecode, although
    the METER of an empty chunk is taken back, and no two are at the same label. *)

From S2P Require Import Prelude Base Alloc Types Opcodes Bytes Decode Subtype ModuleEnv Operands Validate Analyze Lowering Assembly LowerSpec LowerInv LowerChunk LowerFrame LowerCode LowerInstr LowerLoops.
From stdpp Require Import list sets sorting.
#[local] Open Scope Z_scope.
#[local] Open Scope wah_scope.

(** ** Definitions *)

(** The size of the code once an empty chunk is taken back. *)
Definition kept_size (a : asm) : Z := match a_open a with Some [] => code_size (a_base a) | _ => asm_size a end.
Definition map_before (x y : Z * list wah_type_t) : Prop := x.1 < y.1.
Record maps_ok (a : asm) : Prop := MapsOk {
  mo_sorted : StronglySorted map_before (a_maps a);
  mo_range : Forall (fun x => 0 <= x.1 <= kept_size a) (a_maps a) }.

(** ** Appending maps *)

Lemma kept_size_le a : 0 <= kept_size a <= asm_size a.
Proof.
  unfold kept_size, asm_size, a_code. rewrite code_size_app. pose proof (code_size_nonneg (a_base a)). pose proof (code_size_nonneg (a_tail a)).
  destruct (a_open a) as [[|]|]; lia.
Qed.

Lemma sorted_snoc l x : StronglySorted map_before l -> Forall (fun y => map_before y x) l -> StronglySorted map_before (l ++ [x]).
Proof.
  induction 1 as [|y l Hl IH Hy]; intros Hf; simpl; [repeat constructor|]. apply Forall_cons_1 in Hf as [Hyx Hf].
  constructor; [by apply IH|]. apply Forall_app. split; [done|by constructor].
Qed.
Lemma sorted_prefix l l' : StronglySorted map_before (l ++ l') -> StronglySorted map_before l.
Proof.
  induction l as [|y l IH]; simpl; [constructor|]. intros [Hl Hy]%StronglySorted_inv. apply Forall_app in Hy as [Hy _]. constructor; [by apply IH|done].
Qed.

Lemma add_map_ok b pos lt maps : StronglySorted map_before maps -> Forall (fun x => 0 <= x.1 <= b) maps -> 0 <= b <= pos ->
  StronglySorted map_before (add_map pos lt maps) /\ Forall (fun x => 0 <= x.1 <= pos) (add_map pos lt maps).
Proof.
  intros Hs Hr Hb. destruct (last_snoc_cases maps) as [->|(l & [p ts] & ->)]; unfold add_map; simpl.
  - split; [repeat constructor|]. constructor; [simpl; lia|done].
  - rewrite last_snoc. pose proof (sorted_prefix _ _ Hs) as Hl. pose proof Hr as Hr0. apply Forall_app in Hr as [Hr Hp].
    apply Forall_cons_1 in Hp as [Hp _]. simpl in Hp.
    assert (Hlt : Forall (fun y => y.1 < p) l).
    { clear -Hs. induction l as [|y l IH]; simpl in Hs; [done|]. apply StronglySorted_inv in Hs as [Hs Hy].
      apply Forall_app in Hy as [_ Hy]. apply Forall_cons_1 in Hy as [Hy _]. constructor; [done|by apply IH]. }
    destruct (Z.eqb_spec p pos) as [->|Hne].
    + rewrite length_app, Nat.add_sub, take_app_length. split; [by apply sorted_snoc|].
      apply Forall_app. split; [eapply Forall_impl; [exact Hr|]; simpl; lia|]. constructor; [simpl; lia|done].
    + assert (Hall : Forall (fun y => map_before y (pos, lt)) (l ++ [(p, ts)])).
      { apply Forall_app. split; [eapply Forall_impl; [exact Hlt|]; unfold map_before; simpl; lia|]. constructor; [unfold map_before; simpl; lia|done]. }
      split; [by apply sorted_snoc|]. apply Forall_app. split; [eapply Forall_impl; [exact Hr0|]; simpl; lia|]. constructor; [simpl; lia|done].
Qed.

(** ** Instructions *)

(** The code grows, and the maps are the same. *)
Definition grows (a a' : asm) : Prop := a_maps a' = a_maps a /\ kept_size a <= kept_size a'.
#[local] Instance grows_preorder : PreOrder grows.
Proof. split; [intros a; by split|]. intros a b c [E1 H1] [E2 H2]. split; [congruence|lia]. Qed.

Lemma grows_ok a a' : grows a a' -> maps_ok a -> maps_ok a'.
Proof. intros [E H] []. constructor; rewrite E; [done|]. eapply Forall_impl; [done|]. simpl. lia. Qed.

Lemma asm_size_emit ps a : asm_size (emit ps a) = asm_size a + code_size ps.
Proof. unfold asm_size. by rewrite a_code_emit, code_size_app. Qed.
Lemma grows_emit ps a : grows a (emit ps a).
Proof.
  split; [done|]. pose proof (code_size_nonneg ps). pose proof (asm_size_emit ps a). unfold kept_size in *. cbn [a_open emit a_base].
  destruct (a_open a) as [[|]|]; lia.
Qed.
Lemma grows_frames fs a : grows a (set_frames fs a).
Proof. by split. Qed.
Lemma grows_try d a : grows a (set_try d a).
Proof. by split. Qed.
Lemma end_chunk_kept a : kept_size (end_chunk a) = kept_size a /\ asm_size (end_chunk a) = kept_size a.
Proof.
  unfold end_chunk, kept_size, asm_size, a_code. destruct (a_open a) as [[|r rs]|] eqn:Eo; cbn [a_open a_base a_tail]; rewrite ?Eo, ?app_nil_r; [done| |done].
  rewrite !code_size_app. simpl. split; lia.
Qed.
Lemma grows_end a : grows a (end_chunk a).
Proof. split; [apply end_chunk_maps|]. destruct (end_chunk_kept a) as [-> _]. lia. Qed.
Lemma grows_record ps map a : grows a (record ps map a) /\ kept_size (record ps map a) = asm_size a + code_size ps.
Proof.
  unfold record. cbn [a_open emit]. pose proof (asm_size_emit ps a) as Hs. pose proof (grows_emit ps a) as Hg. pose proof (kept_size_le a).
  pose proof (code_size_nonneg ps). destruct (a_open a) as [rs|] eqn:Eo.
  - set (a1 := set_open _ (emit ps a)).
    assert (E1 : kept_size a1 = asm_size a + code_size ps) by (unfold kept_size; cbn [a_open a1 set_open]; destruct rs; exact Hs).
    assert (G1 : grows a a1) by (split; [done|lia]).
    destruct (zlen rs + 1 =? UINT16_MAX); [|done]. split; [by etransitivity; [|apply grows_end]|]. destruct (end_chunk_kept a1) as [-> _]. done.
  - split; [done|]. unfold kept_size. cbn [a_open emit]. by rewrite Eo.
Qed.

Section Instr.
Context (M : wah_module_env) (ac : wah_analyzed_code_t).
Notation start_chunk := (start_chunk M ac).

Lemma start_chunk_kept a : kept_size (start_chunk a) = kept_size a.
Proof.
  unfold LowerSpec.start_chunk. destruct (a_open a) eqn:Eo; [done|]. destruct (emit_meter M ac); [|done]. unfold kept_size. simpl. by rewrite Eo.
Qed.
Lemma grows_start a : grows a (start_chunk a).
Proof. split; [apply start_chunk_maps|]. rewrite start_chunk_kept. lia. Qed.

Lemma grows_frames_only f a ps a' : frames_only f a -> f a = Some (ps, a') -> grows a a'.
Proof. intros Hf H. destruct (Hf _ _ H) as (fs & -> & _). apply grows_frames. Qed.
Lemma grows_push ii op ti single a a' : push_frame ii op ti single a = Some a' -> grows a a'.
Proof. intros [_ ->]%push_frame_inv. apply grows_frames. Qed.
Hint Resolve grows_emit grows_frames grows_try grows_end grows_start : grows.

Lemma map_label_ok pos ti single loop a a' : map_label M pos ti single loop a = Some a' -> maps_ok a -> kept_size a <= pos ->
  StronglySorted map_before (a_maps a') /\ Forall (fun x => 0 <= x.1 <= pos) (a_maps a').
Proof.
  unfold map_label. destruct (wah_block_label_types M ti single loop) as [lt|]; [|done]. simpl. intros H [Hs Hr] Hp. pose proof (kept_size_le a).
  destruct (existsb WAH_TYPE_IS_REF lt); injection H as <-.
  - eapply add_map_ok; [done|exact Hr|lia].
  - split; [done|]. eapply Forall_impl; [exact Hr|]. simpl. lia.
Qed.

Lemma plain_maps ii op di a a' : plain_instr M ac ii op di a = Some a' -> grows a a'.
Proof.
  unfold plain_instr. destruct (zget wah_opclasses (di_opcode di)) as [cls|]; [|done]. cbn [mbind option_bind].
  destruct (imm_code M ii cls op di (start_chunk a)) as [[ps a1]|] eqn:Ei; [|done]. simpl. intros [= <-].
  etransitivity; [apply grows_start|]. etransitivity; [eapply grows_frames_only; [apply imm_code_shape|exact Ei]|].
  etransitivity; [apply grows_record|]. unfold split_after. destruct (a_open _); [|reflexivity]. destruct (_ || _); [apply grows_end|reflexivity].
Qed.

Lemma loop_maps ii op di rest a a' : loop_instr M ac ii op di rest a = Some a' -> maps_ok a -> maps_ok a'.
Proof.
  unfold loop_instr. destruct (the_block (di_imm di)) as [[ti single]|]; [|done]. cbn [mbind option_bind].
  set (a0 := if polls ac di then end_chunk a else a). destruct (push_frame ii op ti single _) as [a1|] eqn:Ep; [|done]. cbn [mbind option_bind].
  destruct (map_label M (asm_size a0) ti single true a1) as [a2|] eqn:Em; [|done]. simpl. intros [= <-] Ha.
  assert (Hg0 : grows a a0) by (unfold a0; destruct (polls ac di); [apply grows_end|reflexivity]).
  set (ax := start_chunk (emit (PL (LLoop ii) :: poll_code ac di) a0)) in *.
  assert (Hg1 : grows a a1).
  { etransitivity; [exact Hg0|]. etransitivity; [apply (grows_emit (PL (LLoop ii) :: poll_code ac di))|].
    etransitivity; [apply grows_start|]. by eapply grows_push. }
  destruct (map_label_inv _ _ _ _ _ _ _ Em) as (ms & E2 & Hx).
  (* The map is added to the maps of the code before the loop. *)
  assert (Hm0 : exists a2', map_label M (asm_size a0) ti single true a0 = Some a2' /\ a_maps a2' = a_maps a2).
  { exists (set_maps ms a0). rewrite E2. split; [|done]. apply Hx. destruct Hg0 as [-> _], Hg1 as [-> _]. done. }
  destruct Hm0 as (a2' & Em0 & Eq). apply grows_ok in Hg0 as Ha0; [|done].
  apply map_label_ok in Em0 as [H1 H2]; [|done|apply kept_size_le]. rewrite Eq in H1, H2.
  assert (Hsz : asm_size a0 <= asm_size a2).
  { rewrite E2. apply push_frame_inv in Ep as [_ ->]. change (asm_size (set_maps ms (set_frames _ ax))) with (asm_size ax). unfold ax, asm_size.
    destruct (start_chunk_code M ac (emit (PL (LLoop ii) :: poll_code ac di) a0)) as (qs & -> & _). rewrite a_code_emit, !code_size_app.
    pose proof (code_size_nonneg qs). pose proof (code_size_nonneg (PL (LLoop ii) :: poll_code ac di)). lia. }
  destruct (grows_record (if try_inside 0 rest then trim_code (a_try a2) else []) (di_ref_map di) a2) as [[Er _] Ek].
  pose proof (code_size_nonneg (if try_inside 0 rest then trim_code (a_try a2) else [])).
  constructor; rewrite Er; [done|]. eapply Forall_impl; [exact H2|]. simpl. lia.
Qed.

Lemma end_maps f fs di next a a' : end_block M ac f fs di next a = Some a' -> maps_ok a -> maps_ok a'.
Proof.
  unfold end_block. set (target := is_target f a). set (b := if is_try_table (af_op f) then _ else _).
  assert (Hb : grows a b).
  { etransitivity; [apply grows_start|]. unfold b. destruct (is_try_table (af_op f)); [|apply grows_record].
    etransitivity; [|apply grows_record]. apply grows_try. }
  assert (Hne : kept_size b = asm_size b).
  { unfold kept_size. assert (H : a_open b <> Some []) by (unfold b; destruct (is_try_table _); apply record_not_empty).
    destruct (a_open b) as [[|]|]; done. }
  cbv zeta. set (b' := if emit_meter M ac && target then end_chunk b else b).
  assert (Hb' : grows a b' /\ kept_size b' = asm_size b').
  { unfold b'. destruct (_ && _); [|done]. split; [etransitivity; [exact Hb|apply grows_end]|]. destruct (end_chunk_kept b) as [-> ->]. done. }
  destruct Hb' as [Hg' Ek']. set (c := set_frames fs (place_end f b')).
  assert (Hc : grows b' c /\ kept_size c = asm_size b').
  { assert (Hz : code_size (PL <$> end_labels f) = 0) by (unfold end_labels; by destruct (is_if (af_op f))).
    unfold c. rewrite place_end_labels. split; [etransitivity; [apply (grows_emit (PL <$> end_labels f))|apply grows_frames]|].
    change (kept_size (set_frames fs ?x)) with (kept_size x). rewrite <- Ek'. unfold kept_size. cbn [a_open emit a_base]. rewrite asm_size_emit, Hz.
    destruct (a_open b') as [[|]|]; lia. }
  destruct Hc as [Hgc Ekc]. set (d := if emit_meter M ac && target then start_chunk c else c).
  assert (Hd : grows a d /\ kept_size d = asm_size b').
  { assert (Hac : grows a c) by (by etransitivity). unfold d. destruct (_ && _); [|done].
    split; [etransitivity; [exact Hac|apply grows_start]|]. by rewrite start_chunk_kept. }
  destruct Hd as [Hgd Ekd]. destruct (is_loop (af_op f)); [intros [= <-] Ha; by eapply grows_ok|].
  destruct (map_label M (asm_size b') _ _ false d) as [d'|] eqn:Em; [|done]. cbn [mbind option_bind]. intros H Ha.
  apply (grows_ok _ _ Hgd) in Ha. apply map_label_ok in Em as Hm; [|done|lia]. destruct Hm as [H1 H2].
  assert (Hd' : maps_ok d').
  { destruct (map_label_inv _ _ _ _ _ _ _ Em) as (ms & E & _). constructor; [done|]. rewrite E. change (kept_size (set_maps ms d)) with (kept_size d).
    rewrite Ekd, <- E. done. }
  destruct (af_trim f); [|by injection H as <-]. destruct next as [map|]; [|done]. simpl in H. injection H as <-.
  eapply grows_ok; [apply grows_record|done].
Qed.

Lemma instr_maps ii di rest a a' : asm_instr M ac ii di rest a = Some a' -> maps_ok a -> maps_ok a'.
Proof.
  unfold asm_instr. destruct (wah_opcode_of (di_opcode di)) as [op|]; [|done]. cbn [mbind option_bind]. intros H Ha.
  destruct op; try (eapply grows_ok; [eapply plain_maps; exact H|done]).
  - unfold block_instr in H. destruct (the_block (di_imm di)) as [[ti single]|]; [|done]. cbn [mbind option_bind] in H.
    destruct (push_frame ii _ ti single _) as [a1|] eqn:Ep; [|done]. simpl in H. injection H as <-. eapply grows_ok; [|done].
    etransitivity; [apply (grows_emit (poll_code ac di))|]. etransitivity; [apply grows_start|]. etransitivity; [by eapply grows_push|apply grows_record].
  - by eapply loop_maps.
  - destruct (a_frames a) as [|f fs]; [|by eapply end_maps]. destruct rest; [|done]. injection H as <-. eapply grows_ok; [|done].
    unfold end_func. etransitivity; [apply grows_start|]. etransitivity; [apply (grows_emit [PL LReturn])|].
    etransitivity; [apply grows_record|apply grows_end].
  - unfold try_instr in H. destruct (di_imm di); try done. destruct (catch_code catches _) as [[ps a1]|] eqn:Ec; [|done]. cbn [mbind option_bind] in H.
    destruct (push_frame ii _ _ _ a1) as [a2|] eqn:Ep; [|done]. simpl in H. injection H as <-. eapply grows_ok; [|done].
    etransitivity; [apply (grows_emit (poll_code ac di))|]. etransitivity; [apply grows_start|].
    etransitivity; [eapply grows_frames_only; [apply catch_code_frames|exact Ec]|]. etransitivity; [by eapply grows_push|].
    etransitivity; [apply grows_try|apply grows_record].
Qed.

Lemma instrs_maps ii instrs a a' : asm_instrs M ac ii instrs a = Some a' -> maps_ok a -> maps_ok a'.
Proof.
  revert ii a. induction instrs as [|di rest IH]; intros ii a; cbn [asm_instrs]; [by intros [= <-]|].
  destruct (asm_instr M ac ii di rest a) as [a1|] eqn:E; [|done]. simpl. intros H Ha. eapply IH; [done|]. by eapply instr_maps.
Qed.
End Instr.
