(* ===== verification/LowerErr.v ===== *)
(** * Lowering: errors

    The only errors of [wah_lower_analyzed_code] are those of the memory it asks for. *)

From S2P Require Import Prelude Base Alloc Types Opcodes Bytes Decode Subtype ModuleEnv Operands Validate Analyze Lowering.
From stdpp Require Import list sets.
#[local] Open Scope Z_scope.
#[local] Open Scope wah_scope.

(** ** Definitions *)

(** The only errors are those of memory that is short. *)
Definition memory_error (e : wah_error_t) : Prop := e = WAH_ERROR_OUT_OF_MEMORY \/ e = WAH_ERROR_TOO_LARGE.
Definition needs_memory {S A} (m : comp S A) : Prop := forall s e s', m s = (Err e, s') -> memory_error e.

(** ** Composition *)

Section Errors.
Context {S : Type}.
Lemma nm_bind {A B} (m : comp S A) (f : A -> comp S B) : needs_memory m -> (forall x, needs_memory (f x)) -> needs_memory (x <- m ;; f x).
Proof.
  intros Hm Hf s e s'. unfold mbind, stm_bind. destruct (m s) as [[x|e'|] s1] eqn:E; [apply Hf| |done]. intros [= <- <-]. by eapply Hm.
Qed.
Lemma nm_ret {A} (x : A) : needs_memory (stm_ret x : comp S A).
Proof. done. Qed.
Lemma nm_get : needs_memory (stm_get : comp S S).
Proof. done. Qed.
Lemma nm_modify f : needs_memory (modify f : comp S unit).
Proof. done. Qed.
Lemma nm_opt {A} (o : option A) : needs_memory (stm_opt o : comp S A).
Proof. by destruct o. Qed.
Lemma nm_fault {A} : needs_memory (stm_fault : comp S A).
Proof. done. Qed.
End Errors.
Lemma nm_malloc n k : needs_memory (wah_malloc_c n k).
Proof. intros s e s' H. destruct (wah_malloc_c_cases n k s) as [[a E]|[a E]]; rewrite E in H; simplify_eq. by left. Qed.
Lemma nm_grow_loop fuel c n e : grow_loop fuel c n = Err e -> memory_error e.
Proof. revert c. induction fuel as [|f IH]; intros c; simpl; [done|]. repeat case_match; [by intros [= <-]; right|apply IH|done]. Qed.
Lemma nm_grow n k c : needs_memory (wah_grow_array n k c).
Proof.
  unfold wah_grow_array. case_match; [apply nm_ret|]. apply nm_bind.
  - unfold stm_ensure. case_match; [apply nm_ret|]. intros s e s' [= <- <-]. by right.
  - intros _. destruct (grow_loop 34 _ n) as [x|e|] eqn:E; [|intros s e' s' [= <- <-]; by eapply nm_grow_loop|done].
    apply nm_bind; [apply nm_malloc|]. intros _. apply nm_ret.
Qed.
Lemma nm_answers {A} (m : comp answers A) : needs_memory m -> needs_memory (on_l_answers m).
Proof. intros Hm s e s'. unfold on_l_answers. destruct (m (l_ans s)) as [[x|e'|] a] eqn:E; try done. intros [= <- <-]. by eapply Hm. Qed.
Create HintDb memory.
#[local] Hint Resolve nm_ret nm_get nm_modify nm_opt nm_fault nm_malloc nm_grow nm_answers : memory.
Ltac nm := repeat first [progress intros | apply nm_bind | solve [auto with memory] | case_match].

Lemma nm_ensure {A} n k (v : vec A) : needs_memory (vec_ensure n k v).
Proof. unfold vec_ensure. nm. Qed.
#[local] Hint Resolve nm_ensure : memory.
Lemma nm_push {A} k (x : A) v : needs_memory (vec_push k x v).
Proof. unfold vec_push. nm. Qed.
#[local] Hint Resolve nm_push : memory.
(** ** The lowering *)

Section Lower.
Context (M : wah_module_env) (ac : wah_analyzed_code_t).
#[local] Hint Unfold lower_ensure lower_append get_size WAH_LOWER_U8 WAH_LOWER_U16 WAH_LOWER_U32 WAH_LOWER_U64 WAH_LOWER_MEM lower_write
  WAH_LOWER_PATCH_U32 lower_rewrite frame update_frame WAH_LOWER_ADD_PATCH_AT WAH_LOWER_ADD_FUNC_END_PATCH WAH_LOWER_RESOLVE_BRANCH
  WAH_LOWER_PUSH_FRAME WAH_LOWER_FINISH_FRAME WAH_LOWER_STACK_MAP on_meter WAH_METER_START_CHUNK WAH_METER_END_CHUNK
  WAH_METER_RECORD_INSTR_END WAH_EMIT_POLL is_memory64 is_table64 rewrite_to rewrite_if rewrite_pair lower_field lower_element
  lower_branch lower_br_on_cast lower_if lower_else when skip split_chunk : lower_ops.
Ltac nm_op := autounfold with lower_ops; nm.
Lemma nm_u8 v : needs_memory (WAH_LOWER_U8 v).
Proof. nm_op. Qed.
Lemma nm_u16 v : needs_memory (WAH_LOWER_U16 v).
Proof. nm_op. Qed.
Lemma nm_u32 v : needs_memory (WAH_LOWER_U32 v).
Proof. nm_op. Qed.
Lemma nm_u64 v : needs_memory (WAH_LOWER_U64 v).
Proof. nm_op. Qed.
Lemma nm_mem bs : needs_memory (WAH_LOWER_MEM bs).
Proof. nm_op. Qed.
Lemma nm_append bs : needs_memory (lower_append bs).
Proof. nm_op. Qed.
Lemma nm_patch off v : needs_memory (WAH_LOWER_PATCH_U32 off v).
Proof. nm_op. Qed.
#[local] Hint Resolve nm_u8 nm_u16 nm_u32 nm_u64 nm_mem nm_append nm_patch : memory.
Lemma nm_patches l v : needs_memory (WAH_LOWER_APPLY_PATCHES l v).
Proof. induction l as [|o l IH]; cbn [WAH_LOWER_APPLY_PATCHES]; nm_op. Qed.
Lemma nm_branch d : needs_memory (WAH_LOWER_RESOLVE_BRANCH d).
Proof. nm_op. Qed.
#[local] Hint Resolve nm_patches nm_branch : memory.
Lemma nm_records n r bt : needs_memory (lower_records n r bt).
Proof. revert r. induction n as [|n IH]; intros r; cbn [lower_records]; nm_op. Qed.
Lemma nm_targets n r bt : needs_memory (lower_targets n r bt).
Proof. revert r. induction n as [|n IH]; intros r; cbn [lower_targets]; nm_op. Qed.
#[local] Hint Resolve nm_records nm_targets : memory.
Lemma nm_table bt : needs_memory (lower_br_table bt).
Proof. unfold lower_br_table. nm_op. Qed.
Lemma nm_catches cs : needs_memory (lower_catches cs).
Proof. induction cs as [|c cs IH]; cbn [lower_catches]; nm_op. Qed.
#[local] Hint Resolve nm_table nm_catches : memory.
Lemma nm_rewrite op i l1 l2 l3 : needs_memory (WAH_LOWER_MEM_REWRITE M op i l1 l2 l3).
Proof. unfold WAH_LOWER_MEM_REWRITE. nm_op. Qed.
#[local] Hint Resolve nm_rewrite : memory.
Lemma nm_record start map : needs_memory (WAH_METER_RECORD_INSTR_END M ac start map).
Proof. nm_op. Qed.
Lemma nm_end : needs_memory (WAH_METER_END_CHUNK M ac).
Proof. nm_op. Qed.
Lemma nm_start : needs_memory (WAH_METER_START_CHUNK M ac).
Proof. nm_op. Qed.
Lemma nm_map p t s l : needs_memory (WAH_LOWER_STACK_MAP M p t s l).
Proof. nm_op. Qed.
#[local] Hint Resolve nm_record nm_end nm_start nm_map : memory.
Lemma nm_other op di : needs_memory (lower_other M op di).
Proof. destruct op; cbn [lower_other]; nm_op. Qed.
#[local] Hint Resolve nm_other : memory.
Lemma nm_imm cls op di : needs_memory (lower_imm M cls op di).
Proof. destruct cls; cbn [lower_imm]; try solve [auto with memory]; unfold lower_I, lower_II; nm_op. Qed.
#[local] Hint Resolve nm_imm : memory.
Lemma nm_instr marks ii di map : needs_memory (lower_instr M ac marks ii di map).
Proof.
  unfold lower_instr. apply nm_bind; [nm|]. intros op.
  assert (Hp : needs_memory (lower_plain M ac op di)) by (unfold lower_plain; nm_op).
  destruct op; try exact Hp; unfold lower_block, lower_try_table, lower_end_block, lower_end_func; nm_op.
Qed.
Lemma nm_instrs marks ii instrs : needs_memory (lower_instrs M ac marks ii instrs).
Proof. revert ii. induction instrs as [|di rest IH]; intros ii; cbn [lower_instrs]; [nm_op|]. apply nm_bind; [apply nm_instr|]. intros _. apply IH. Qed.
Lemma nm_ticks recs : needs_memory (lower_ticks recs).
Proof. induction recs as [|r recs IH]; cbn [lower_ticks]; nm_op. Qed.
#[local] Hint Resolve nm_ticks nm_instrs : memory.
Lemma nm_islands cs : needs_memory (lower_islands cs).
Proof. induction cs as [|c cs IH]; cbn [lower_islands]; [nm_op|]. apply nm_bind; [|intros _; exact IH]. unfold lower_island. nm_op. Qed.
#[local] Hint Resolve nm_islands : memory.
Lemma nm_marks : needs_memory (loop_marks ac).
Proof. unfold loop_marks. nm. Qed.
#[local] Hint Resolve nm_marks : memory.
Lemma nm_code : needs_memory (lower_code M ac).
Proof. unfold lower_code. nm_op. Qed.
End Lower.
