(* ===== verification/LowerOk.v ===== *)
(** * The lowering of code

    [wah_lower_analyzed_code] does not fault on code that LowerSpec gives a meaning to;
    its bytecode is the assembled symbolic code, with the copies of its chunks, and its
    stack maps are those of the symbolic code.  It fails only when memory is short. *)

From S2P Require Import Prelude Base Alloc Types Opcodes Bytes Decode Subtype ModuleEnv Operands Validate Analyze Lowering Assembly LowerSpec LowerInv LowerChunk LowerFrame LowerCode LowerInstr LowerLoops LowerIslands LowerMaps LowerErr Samples.
From stdpp Require Import list sets sorting.
#[local] Open Scope Z_scope.
#[local] Open Scope wah_scope.

(** ** Definitions *)

(** A body with a block, a loop with a try_table inside, an [if] with an [else] that
    leaves the function, a branch table, and a block with a reference as its result. *)
Definition lower_body : list Z :=
  [0x02; 0x40; 0x03; 0x40; 0x1f; 0x40; 0x01; 0x02; 0x00; 0x10; 0x00; 0x0c; 0x01; 0x0b; 0x0b;
   0x41; 0x01; 0x04; 0x40; 0x0c; 0x01; 0x05; 0x0c; 0x02; 0x0b;
   0x41; 0x00; 0x0e; 0x02; 0x00; 0x01; 0x00; 0x0b;
   0x02; 0x6e; 0xd0; 0x6e; 0x0b; 0x1a; 0x0b].
(** Its instructions, and the module with fuel metering or without. *)
Definition lower_module (metering : bool) : wah_module_env :=
  let m := sample_module in
  ModuleEnv (env_types m) (func_imports m) (function_type_indices m) (table_imports m) (tables m) (memory_imports m) (memories m)
    (global_imports m) (globals m) (tag_imports m) (tags m) (element_segments m) (data_segment_count m) metering.
Definition lower_env (metering : bool) : wah_validation_env :=
  ValidationEnv WAH_ANALYZE_FUNC_BODY (Some (FuncType [] [])) 0 0 (Some (CodeBody 0 [])) (lower_module metering).
Definition lower_sample (metering : bool) : wah_analyzed_code_t :=
  match wah_analyze_stream (lower_env metering) WAH_TYPE_I32 (start_func 0 lower_body) with
  | (Ok ac, _) => ac
  | _ => AnalyzedCode WAH_ANALYZE_FUNC_BODY [] [] [] 0
  end.

(** ** The whole *)

Section Whole.
Context (M : wah_module_env) (ac : wah_analyzed_code_t).
Notation metered := (emit_meter M ac).

Lemma asm_ok_empty K : asm_ok K asm_start.
Proof. constructor; try done; try (intros ? H; by apply elem_of_nil in H); constructor. Qed.

Lemma lowered_start ans : lowered M ac (known 0) (l_set_buf (Vec [] 256)
  (LState ans (Vec [] 0) (Vec [] 0) (Vec [] 0) [] 0 (Vec [] 0) (LMeter metered 0 (MeterChunk 0 0 0 0 0) (Vec [] 0) (Vec [] 0)))) asm_start.
Proof.
  split; [apply asm_ok_empty|]. constructor; try done; simpl.
  - split; [right; exists 8; done|done].
  - by apply vec_ok_nil.
  - unfold metering_rel. destruct metered eqn:Em; [|by split_and!]. constructor; try done; [apply vec_ok_nil|apply vec_ok_nil|].
    exists [], []. by split_and!.
  - apply vec_ok_nil.
  - apply vec_ok_nil.
Qed.

Definition is_lowered (a : asm) (s : lstate) : Prop :=
  vec_list (l_buf s) = asm_bytes a /\ vec_list (l_maps s) = encode_maps 0 (a_maps a) /\ vec_list (l_map_types s) = a_maps a ≫= snd.

(** The copies of the chunks, if there are any. *)
Lemma wp_copies K a (Q : unit -> lstate -> Prop) s : lowered M ac K s a -> a_open a = None -> (forall s', is_lowered a s' -> Q tt s') ->
  wp (when (metered && (0 <? vec_size (me_chunks (l_meter s)))) (lower_islands (vec_list (me_chunks (l_meter s))))) Q s.
Proof.
  intros [Ha Hs] Ho HQ. pose proof (sy_meter _ _ _ _ Hs) as Hm.
  assert (Hnone : a_chunks a = [] -> is_lowered a s).
  { intros E. split_and!; [|apply Hs|apply Hs]. unfold asm_bytes, asm_code. rewrite E. simpl. rewrite app_nil_r, <- E. apply Hs. }
  unfold metering_rel in Hm. destruct metered eqn:Em; cbn [andb].
  2: { destruct Hm as (_ & E & _). by apply wp_skip, HQ, Hnone. }
  apply wp_when; intros Hz.
  - eapply (wp_islands K s a _ 0 []); [done|done|done|by rewrite drop_0| |intros ? H; by apply elem_of_nil in H|intros ? H; by apply elem_of_nil in H|].
    + rewrite app_nil_r. constructor; try done; apply Hs.
    + intros s' [Eb _ E1 E2 _]. apply HQ. rewrite drop_0 in Eb. simpl in Eb. split_and!; [exact Eb|rewrite E1; apply Hs|rewrite E2; apply Hs].
  - apply HQ, Hnone. apply nil_length_inv. rewrite <- (mt_length _ _ Hm). unfold vec_size, zlen in Hz. lia.
Qed.

(** The symbolic code of a lowering that has ended. *)
Record finished (a : asm) : Prop := Finished {
  fi_ok : exists K, asm_ok K a;
  fi_open : a_open a = None;
  fi_next : forall n, (n < length (a_chunks a))%nat -> LNext (Z.of_nat n) ∈ placed (a_code a);
  fi_records : Forall (fun r => instr_code (si_code r) /\ placed (si_code r) = [] /\ exists off len, occurs (a_code a) off len (si_code r)) (concat (a_chunks a)) }.

Lemma lowered_finished K s a : lowered M ac K s a -> a_open a = None -> finished a.
Proof.
  intros [Ha Hs] Ho. pose proof (sy_meter _ _ _ _ Hs) as Hm. unfold metering_rel in Hm. destruct metered.
  2: { destruct Hm as (_ & E & _). constructor; rewrite ?E; [by exists K|done|simpl; lia|constructor]. }
  constructor; [by exists K|done| |].
  - intros n Hn. rewrite <- (mt_length _ _ Hm) in Hn. destruct (lookup_lt_is_Some_2 _ _ Hn) as [mc Hmc].
    pose proof (cr_next _ _ _ _ _ (mt_chunks _ _ Hm n mc Hmc)) as Hx. unfold closed_code in Hx. rewrite Ho in Hx.
    destruct (decide (LNext (Z.of_nat n) ∈ placed (a_code a))) as [|Hno]; [done|]. apply address_None in Hno. congruence.
  - pose proof (mt_instrs _ _ Hm) as Hi. destruct (mt_records _ _ Hm) as (R1 & R2 & _ & HR & _). unfold closed_code in HR. rewrite Ho in HR, Hi.
    simpl in Hi. rewrite app_nil_r in Hi. apply Forall_forall. intros r Hr. pose proof (proj1 (Forall_forall _ _) Hi r Hr) as [H1 H2].
    split_and!; [done|done|]. apply list_elem_of_lookup_1 in Hr as (j & Hj). destruct (Forall2_lookup_r _ _ _ _ _ HR Hj) as (mr & _ & _ & Hoc).
    by eexists _, _.
Qed.

Lemma wp_lower_code a (Q : unit -> lstate -> Prop) ans : asm_instrs M ac 0 (ac_instrs ac) asm_start = Some a -> LReturn ∈ placed (a_code a) ->
  (forall s', finished a -> is_lowered a s' -> Q tt s') -> wp (lower_code M ac) Q (lower_start M ac ans).
Proof.
  intros Hi Hr HQ. apply wp_bind, wp_on_l_answers, wp_malloc_any. intros ans1. apply wp_bind, wp_modify.
  apply wp_bind, wp_on_l_answers. eapply wp_loop_marks; [done|]. intros marks ans2 Hm.
  apply wp_bind. eapply (wp_instrs M ac marks 0 _ a); [done|done|apply lowered_start|by split| |].
  - intros s' n [Ha _]. by apply (ao_placed _ _ Ha) in Hr.
  - intros s' n Hl Ho. apply wp_bind, wp_get. eapply wp_copies; [done|done|]. intros s''. apply HQ. by eapply lowered_finished.
Qed.

(** ** Labels *)

Lemma islands_placed n chunks : Forall (fun r => placed (si_code r) = []) (concat chunks) ->
  placed (islands n chunks) = (fun i => LSlow (n + Z.of_nat i)) <$> seq 0 (length chunks).
Proof.
  revert n. induction chunks as [|rs chunks IH]; intros n H; [done|]. simpl in H. apply Forall_app in H as [H1 H2].
  cbn [islands length seq]. rewrite placed_app, island_placed, IH by done. rewrite fmap_cons, Z.add_0_r. simpl. f_equal.
  rewrite <- fmap_S_seq, <- list_fmap_compose. apply list_fmap_ext. intros i j _. simpl. f_equal. lia.
Qed.

Lemma islands_targets n chunks l : l ∈ targets (islands n chunks) -> (exists r, r ∈ concat chunks /\ l ∈ targets (si_code r)) \/
  exists i, (i < length chunks)%nat /\ l = LNext (n + Z.of_nat i).
Proof.
  revert n. induction chunks as [|rs chunks IH]; intros n H; [by apply elem_of_nil in H|]. cbn [islands] in H.
  rewrite targets_app, elem_of_app in H. destruct H as [H|H].
  - unfold island_code in H. change (PL (LSlow n) :: ?x) with ([PL (LSlow n)] ++ x) in H. rewrite !targets_app, !elem_of_app in H.
    destruct H as [H|[H|H]]; [by apply elem_of_nil in H| |].
    + left. induction rs as [|r rs IHr]; [by apply elem_of_nil in H|]. rewrite bind_cons, targets_app, elem_of_app in H.
      destruct H as [H|H]; [exists r; simpl; set_solver|]. destruct (IHr H) as (r' & Hr & Hl). exists r'. simpl in *. set_solver.
    + right. exists 0%nat. destruct (last rs) as [r|]; [|by apply elem_of_nil in H]. destruct (continues r); [|by apply elem_of_nil in H].
      simpl in H. apply list_elem_of_singleton in H as ->. split; [simpl; lia|f_equal; lia].
  - destruct (IH _ H) as [(r & Hr & Hl)|(i & Hi & ->)]; [left; exists r; simpl; set_solver|].
    right. exists (S i). simpl. split; [lia|f_equal; lia].
Qed.

Lemma finished_labels a : finished a -> a_frames a = [] -> LReturn ∈ placed (a_code a) ->
  NoDup (placed (asm_code a)) /\ forall l, l ∈ targets (asm_code a) -> l ∈ placed (asm_code a).
Proof.
  intros [[K Ha] Ho Hn Hr] Ef Hret.
  assert (Hp : Forall (fun r => placed (si_code r) = []) (concat (a_chunks a))) by (eapply Forall_impl; [done|]; by intros r (_ & H & _)).
  unfold asm_code. rewrite placed_app, islands_placed, targets_app by done.
  assert (Hcode : forall l, l ∈ targets (a_code a) -> l ∈ placed (a_code a) \/ exists i, (i < length (a_chunks a))%nat /\ l = LSlow (Z.of_nat i)).
  { intros l Hl. destruct (ao_settled _ _ Ha l Hl) as [H|[->|[(c & ->)|H]]]; [by left|by left| |].
    - right. apply (ao_targets _ _ Ha) in Hl. unfold chunk_count in Hl. rewrite Ho in Hl. simpl in Hl. exists (Z.to_nat c).
      unfold zlen in Hl. split; [lia|f_equal; lia].
    - rewrite Ef in H. by apply Exists_nil in H. }
  assert (Hslow : forall i, (i < length (a_chunks a))%nat -> LSlow (Z.of_nat i) ∈ (fun i => LSlow (0 + Z.of_nat i)) <$> seq 0 (length (a_chunks a))).
  { intros i Hi. apply list_elem_of_fmap. exists i. split; [done|]. apply elem_of_seq. lia. }
  split.
  - apply NoDup_app. split_and!; [apply Ha| |].
    + intros l Hl (i & -> & _)%list_elem_of_fmap. by apply (ao_placed _ _ Ha) in Hl.
    + apply NoDup_fmap_2; [|apply NoDup_seq]. intros i j [= H]. lia.
  - intros l. rewrite !elem_of_app. intros [Hl|Hl].
    + destruct (Hcode l Hl) as [?|(i & Hi & ->)]; [by left|right; by apply Hslow].
    + apply islands_targets in Hl as [(r & Hin & Hl)|(i & Hi & ->)]; [|left; by apply Hn].
      pose proof (proj1 (Forall_forall _ _) Hr r Hin) as (Hic & _ & off & len & pre & post & E & _).
      assert (Hlc : l ∈ targets (a_code a)) by (rewrite <- targets_strip, E, !targets_app, !elem_of_app; tauto).
      destruct (Hcode l Hlc) as [?|(i & Hi & ->)]; [by left|right; by apply Hslow].
Qed.

End Whole.

(** ** Properties *)

Lemma lowered_code_inv M ac tops nodes r : lowered_code M ac tops nodes = Some r -> exists a,
  asm_instrs M ac 0 (ac_instrs ac) asm_start = Some a /\ a_frames a = [] /\ LReturn ∈ placed (a_code a) /\
  r = ParsedCode (asm_bytes a) tops nodes (encode_maps 0 (a_maps a)) (a_maps a ≫= snd).
Proof.
  unfold lowered_code. intros H. destruct (asm_instrs M ac 0 (ac_instrs ac) asm_start) as [a|] eqn:Ea; [|done]. simpl in H.
  destruct (bool_decide (a_frames a = []) && bool_decide (LReturn ∈ placed (a_code a))) eqn:Ec; [|done]. injection H as <-.
  apply andb_true_iff in Ec as [?%bool_decide_eq_true ?%bool_decide_eq_true]. by exists a.
Qed.

Lemma lower_analyzed_code_run M ac tops nodes a ans : asm_instrs M ac 0 (ac_instrs ac) asm_start = Some a -> LReturn ∈ placed (a_code a) ->
  match (wah_lower_analyzed_code M ac tops nodes ans).1 with
  | Ok r => finished a /\ r = ParsedCode (asm_bytes a) tops nodes (encode_maps 0 (a_maps a)) (a_maps a ≫= snd)
  | Err e => memory_error e
  | Fault => False
  end.
Proof.
  intros Ea Hr. pose proof (wp_lower_code M ac a (fun _ s => finished a /\ is_lowered a s) ans Ea Hr (fun s Hf Hs => conj Hf Hs)) as Hw.
  pose proof (nm_code M ac (lower_start M ac ans)) as He. unfold wah_lower_analyzed_code, wp in *.
  destruct (lower_code M ac (lower_start M ac ans)) as [[u|e|] s]; [|by eapply He|done].
  destruct Hw as (Hf & E1 & E2 & E3). simpl. by rewrite E1, E2, E3.
Qed.

(** C8. The lowering of analyzed code: if the code has a meaning as symbolic code (its
    blocks nest, its branches lead to open blocks, its instructions have the immediates
    of their opcodes), the bytecode emitted in one pass, with the addresses of forward
    branches written when the end of a block is reached, is the one a two-pass assembler
    gives, the slow copies of metered chunks and the stack maps of labels included.  The
    function never leaves its buffers, and fails only when memory is short. *)
Theorem wah_lower_analyzed_code_exact (M : wah_module_env) (ac : wah_analyzed_code_t) tops nodes r ans
    (H : lowered_code M ac tops nodes = Some r) :
  match (wah_lower_analyzed_code M ac tops nodes ans).1 with
  | Ok r' => r' = r
  | Err e => memory_error e
  | Fault => False
  end.
Proof.
  destruct (lowered_code_inv _ _ _ _ _ H) as (a & Ea & _ & Hr & ->). pose proof (lower_analyzed_code_run M ac tops nodes a ans Ea Hr) as Hw.
  destruct (wah_lower_analyzed_code M ac tops nodes ans).1; [by destruct Hw|done|done].
Qed.

Lemma wah_lower_analyzed_code_exact_witness :
  match lowered_code (lower_module true) (lower_sample true) [] [] with
  | Some r => (200 <? zlen (pc_bytecode r)) = true /\
      match (wah_lower_analyzed_code (lower_module true) (lower_sample true) [] [] []).1 with Ok r' => r' = r | Err e => memory_error e | Fault => False end
  | None => False
  end.
Proof.
  destruct (lowered_code (lower_module true) (lower_sample true) [] []) as [r|] eqn:E; [|vm_compute in E; discriminate E].
  split; [vm_compute in E; injection E as <-; vm_compute; reflexivity|].
  exact (wah_lower_analyzed_code_exact (lower_module true) (lower_sample true) [] [] r [] E).
Defined.

Lemma holes_slice e c l code off : off ∈ holes l 0 code -> mem_slice (assemble e c code) off 4 = le_bytes 4 (e l).
Proof.
  assert (G : forall pre code, off ∈ holes l (zlen pre) code -> mem_slice (pre ++ assemble e c code) off 4 = le_bytes 4 (e l)).
  { clear. intros pre code. revert pre. induction code as [|p code IH]; intros pre; cbn [holes]; [intros H; by apply elem_of_nil in H|].
    rewrite elem_of_app, assemble_cons. intros [H|H].
    - case_bool_decide as Et; [|by apply elem_of_nil in H]. apply list_elem_of_singleton in H as ->.
      destruct p; cbn [target_of] in Et; simplify_eq. apply (mem_slice_app pre (le_bytes 4 (e l)) (assemble e c code)).
    - rewrite app_assoc. apply IH. by rewrite zlen_app, assemble_piece_size. }
  intros H. apply (G []). done.
Qed.

(** C9. The branches of lowered code: each label is placed once, every label a branch
    refers to is placed, those of the copies of metered chunks too, and the four bytes
    of the branch are the address of its label, which is in the bytecode. *)
Theorem wah_lower_analyzed_code_labels (M : wah_module_env) (ac : wah_analyzed_code_t) tops nodes a r ans
    (Ha : asm_instrs M ac 0 (ac_instrs ac) asm_start = Some a) (Hf : a_frames a = []) (Hr : LReturn ∈ placed (a_code a))
    (Hok : (wah_lower_analyzed_code M ac tops nodes ans).1 = Ok r) :
  NoDup (placed (asm_code a)) /\
  forall l off, off ∈ holes l 0 (asm_code a) -> exists p, address (asm_code a) l = Some p /\
    mem_slice (pc_bytecode r) off 4 = le_bytes 4 p /\ 0 <= p <= zlen (pc_bytecode r).
Proof.
  pose proof (lower_analyzed_code_run M ac tops nodes a ans Ha Hr) as Hw. rewrite Hok in Hw. destruct Hw as [Hfi ->].
  destruct (finished_labels a Hfi Hf Hr) as [Hnd Hpl]. split; [done|]. intros l off Hoff.
  assert (Hl : l ∈ targets (asm_code a)).
  { destruct (decide (l ∈ targets (asm_code a))) as [|Hn]; [done|]. rewrite holes_nil in Hoff by done. by apply elem_of_nil in Hoff. }
  destruct (address_placed _ _ (Hpl l Hl)) as [p Hp]. exists p. split; [done|]. simpl. unfold asm_bytes. rewrite assemble_size. split.
  - rewrite (holes_slice _ _ l _ off Hoff). unfold layout. by rewrite Hp.
  - by eapply address_range.
Qed.

(** The labels and the references of the sample. *)
Lemma wah_lower_analyzed_code_labels_witness :
  match asm_instrs (lower_module true) (lower_sample true) 0 (ac_instrs (lower_sample true)) asm_start,
        (wah_lower_analyzed_code (lower_module true) (lower_sample true) [] [] []).1 with
  | Some a, Ok r => holes LReturn 0 (asm_code a) <> [] /\ NoDup (placed (asm_code a))
  | _, _ => False
  end.
Proof.
  destruct (asm_instrs (lower_module true) (lower_sample true) 0 (ac_instrs (lower_sample true)) asm_start) as [a|] eqn:Ea;
    [|vm_compute in Ea; discriminate Ea].
  destruct (wah_lower_analyzed_code (lower_module true) (lower_sample true) [] [] []).1 as [r|e|] eqn:Er;
    [|vm_compute in Er; discriminate Er|vm_compute in Er; discriminate Er].
  assert (Hf : a_frames a = []) by (vm_compute in Ea; injection Ea as <-; reflexivity).
  assert (Hr : LReturn ∈ placed (a_code a)).
  { assert (Hb : bool_decide (LReturn ∈ placed (a_code a)) = true) by (vm_compute in Ea; injection Ea as <-; vm_compute; reflexivity).
    by apply bool_decide_eq_true in Hb. }
  split; [vm_compute in Ea; injection Ea as <-; vm_compute; discriminate|].
  exact (proj1 (wah_lower_analyzed_code_labels (lower_module true) (lower_sample true) [] [] a r [] Ea Hf Hr Er)).
Defined.

Lemma encode_maps_ok start maps size types : 0 <= start -> StronglySorted map_before maps -> Forall (fun x => 0 <= x.1 <= size) maps ->
  start + zlen (maps ≫= snd) <= types ->
  StronglySorted (fun x y => sm_offset x < sm_offset y) (encode_maps start maps) /\
  Forall (fun m => 0 <= sm_offset m <= size /\ 0 <= sm_start m /\ sm_start m + sm_count m <= types) (encode_maps start maps) /\
  forall p, Forall (fun x => p < x.1) maps -> Forall (fun m => p < sm_offset m) (encode_maps start maps).
Proof.
  revert start. induction maps as [|[off ts] maps IH]; intros start H0 Hs Hr Ht; [split_and!; [constructor|done|done]|].
  apply StronglySorted_inv in Hs as [Hs Hb]. apply Forall_cons_1 in Hr as [Hr1 Hr]. rewrite bind_cons, zlen_app in Ht. simpl in Ht, Hr1.
  pose proof (zlen_nonneg ts). pose proof (zlen_nonneg (maps ≫= snd)).
  destruct (IH (start + zlen ts)) as (I1 & I2 & I3); [lia|done|done|lia|]. cbn [encode_maps]. split_and!.
  - constructor; [done|]. apply I3. exact Hb.
  - constructor; [simpl; lia|done].
  - intros p [Hp Hps]%Forall_cons_1. constructor; [exact Hp|by apply I3].
Qed.

(** The stack maps of lowered code, by which its operands are known at the labels:
    they are at increasing offsets of the bytecode, so that no label has two, although
    the map of a label is replaced when another block ends there and the METER of an
    empty chunk is taken back, and their types are within the types stored. *)
Theorem lowered_code_stack_maps (M : wah_module_env) (ac : wah_analyzed_code_t) tops nodes r (H : lowered_code M ac tops nodes = Some r) :
  StronglySorted (fun x y => sm_offset x < sm_offset y) (pc_stack_maps r) /\
  Forall (fun m => 0 <= sm_offset m <= zlen (pc_bytecode r) /\ 0 <= sm_start m /\
    sm_start m + sm_count m <= zlen (pc_stack_map_types r)) (pc_stack_maps r).
Proof.
  destruct (lowered_code_inv _ _ _ _ _ H) as (a & Ea & _ & _ & ->). simpl.
  assert (Hm : maps_ok a) by (eapply instrs_maps; [exact Ea|]; split; constructor). destruct Hm as [Hs Hr].
  assert (Hz : kept_size a <= zlen (asm_bytes a)).
  { unfold asm_bytes. rewrite assemble_size. unfold asm_code. rewrite code_size_app. pose proof (kept_size_le a).
    pose proof (code_size_nonneg (islands 0 (a_chunks a))). unfold asm_size in *. lia. }
  destruct (encode_maps_ok 0 (a_maps a) (zlen (asm_bytes a)) (zlen (a_maps a ≫= snd))) as (I1 & I2 & _); [lia|done| |lia|by split].
  eapply Forall_impl; [exact Hr|]. simpl. lia.
Qed.

Lemma lowered_code_stack_maps_witness :
  match lowered_code (lower_module true) (lower_sample true) [] [] with
  | Some r => pc_stack_maps r <> [] /\ Forall (fun m => 0 <= sm_offset m <= zlen (pc_bytecode r) /\ 0 <= sm_start m /\
      sm_start m + sm_count m <= zlen (pc_stack_map_types r)) (pc_stack_maps r)
  | None => False
  end.
Proof.
  destruct (lowered_code (lower_module true) (lower_sample true) [] []) as [r|] eqn:E; [|vm_compute in E; discriminate E].
  split; [vm_compute in E; injection E as <-; vm_compute; discriminate|].
  exact (proj2 (lowered_code_stack_maps (lower_module true) (lower_sample true) [] [] r E)).
Defined.

Lemma nm_loop_marks ac ans : match (loop_marks ac ans).1 with Err e => memory_error e | _ => True end.
Proof. pose proof (nm_marks ac ans) as H. destruct (loop_marks ac ans) as [[m|e|] a]; try done. by eapply H. Qed.

(** C10. The pass for loops with try_tables inside: with a stack of the open blocks
    only, which stops at the loops already marked, it marks exactly the loops before the
    end of which a search from their headers meets a try_table; a function without any
    is given no marks.  The stack does not overflow. *)
Theorem loop_marks_exact (M : wah_module_env) (ac : wah_analyzed_code_t) a ans
    (H : asm_instrs M ac 0 (ac_instrs ac) asm_start = Some a) :
  match (loop_marks ac ans).1 with
  | Ok marks => forall i di, ac_instrs ac !! i = Some di -> instr_is di WAH_OP_LOOP = true ->
      match marks with Some l => l !! i = Some (try_inside 0 (drop (S i) (ac_instrs ac))) | None => try_inside 0 (drop (S i) (ac_instrs ac)) = false end
  | Err e => memory_error e
  | Fault => False
  end.
Proof.
  pose proof (wp_loop_marks ac M a (fun marks _ => marks_ok marks 0 (ac_instrs ac)) ans H (fun marks _ Hm => Hm)) as Hw.
  pose proof (nm_loop_marks ac ans) as He. unfold wp in Hw. destruct (loop_marks ac ans) as [[marks|e|] ans']; [|done|done].
  intros i di Hdi Hlo. specialize (Hw i di Hdi Hlo). rewrite Z.add_0_l in Hw. unfold marks_at in Hw.
  destruct marks as [l|]; [by rewrite zget_of_nat in Hw|done].
Qed.

Lemma loop_marks_exact_witness :
  match asm_instrs (lower_module false) (lower_sample false) 0 (ac_instrs (lower_sample false)) asm_start, (loop_marks (lower_sample false) []).1 with
  | Some _, Ok (Some l) => l !! 1%nat = Some true
  | _, _ => False
  end.
Proof.
  destruct (asm_instrs (lower_module false) (lower_sample false) 0 (ac_instrs (lower_sample false)) asm_start) as [a|] eqn:Ea;
    [|vm_compute in Ea; discriminate Ea].
  pose proof (loop_marks_exact (lower_module false) (lower_sample false) a [] Ea) as H.
  destruct (loop_marks (lower_sample false) []).1 as [[l|]|e|] eqn:El; try (vm_compute in El; discriminate El).
  destruct (ac_instrs (lower_sample false) !! 1%nat) as [di|] eqn:Edi; [|vm_compute in Edi; discriminate Edi].
  assert (Hlo : instr_is di WAH_OP_LOOP = true) by (vm_compute in Edi; injection Edi as <-; reflexivity).
  rewrite (H 1%nat di Edi Hlo). vm_compute. reflexivity.
Defined.
