(* ===== verification/Total.v ===== *)
(** * Total correctness of stateful code

    [runs m Q s]: running [m] from [s] ends with a value, neither a fault nor an error,
    that satisfies [Q] together with the state reached. *)

From S2P Require Import Prelude.
#[local] Open Scope Z_scope.
#[local] Open Scope wah_scope.

(** ** Definitions *)

Definition runs {E S A} (m : stm E S A) (Q : A -> S -> Prop) (s : S) : Prop :=
  match m s with (Ok a, s') => Q a s' | _ => False end.

(** ** Theorems *)

Section Runs.
Context {E S : Type}.
Implicit Types s : S.

Lemma runs_iff {A} (m : stm E S A) Q s : runs m Q s <-> exists a s', m s = (Ok a, s') /\ Q a s'.
Proof. unfold runs. destruct (m s) as [[a|e|] s']; naive_solver. Qed.
Lemma runs_ret {A} (a : A) Q s : Q a s -> runs (stm_ret (E:=E) a) Q s.
Proof. done. Qed.
Lemma runs_bind {A B} (m : stm E S A) (f : A -> stm E S B) Q s :
  runs m (fun a s1 => runs (f a) Q s1) s -> runs (stm_bind f m) Q s.
Proof. unfold runs, stm_bind. by destruct (m s) as [[a|e|] s']. Qed.
Lemma runs_mono {A} (m : stm E S A) (Q Q' : A -> S -> Prop) s :
  runs m Q s -> (forall a s', Q a s' -> Q' a s') -> runs m Q' s.
Proof. unfold runs. destruct (m s) as [[a|e|] s']; auto. Qed.
Lemma runs_then {A B} (m : stm E S A) (f : A -> stm E S B) (P : A -> S -> Prop) Q s :
  runs m P s -> (forall a s', P a s' -> runs (f a) Q s') -> runs (stm_bind f m) Q s.
Proof. intros H1 H2. apply runs_bind. eapply runs_mono; [exact H1|exact H2]. Qed.
Lemma runs_get (Q : S -> S -> Prop) s : Q s s -> runs (stm_get (E:=E)) Q s.
Proof. done. Qed.
Lemma runs_put (s0 : S) (Q : unit -> S -> Prop) s : Q tt s0 -> runs (stm_put (E:=E) s0) Q s.
Proof. done. Qed.
Lemma runs_opt {A} (o : option A) a Q s : o = Some a -> Q a s -> runs (stm_opt (E:=E) o) Q s.
Proof. by intros ->. Qed.
Lemma runs_ensure c (e : E) (Q : unit -> S -> Prop) s : c = true -> Q tt s -> runs (stm_ensure c e) Q s.
Proof. by intros ->. Qed.
Lemma runs_eq {A} (m m' : stm E S A) Q s : m s = m' s -> runs m' Q s -> runs m Q s.
Proof. unfold runs. by intros ->. Qed.
Lemma runs_from {A} (m m' : stm E S A) Q s s' : m s = m' s' -> runs m' Q s' -> runs m Q s.
Proof. unfold runs. by intros ->. Qed.
Lemma runs_wp {A} (m : stm E S A) Q s : runs m Q s -> wp m Q s.
Proof. unfold runs, wp. by destruct (m s) as [[a|e|] s']. Qed.
End Runs.

#[export] Hint Resolve runs_ret : wah.
