(* ===== verification/Heap.v ===== *)
(** * The garbage collected heap (wah.h, "GC State" and "Garbage collection")

    The memory that the collector works on: objects with their tagged headers, the
    state of each heap, and the parts of execution contexts that hold references
    ([wah_exec_context_t], [wah_call_frame_t], [wah_table_inst_t]).  Then the operations
    that do not trace: [wah_gc_start], [wah_gc_alloc] and the kinds of objects, fields,
    [wah_gc_free_all_objects], [wah_gc_end], [wah_gc_heap_stats] and
    [wah_gc_verify_heap]. *)

From S2P Require Import Prelude Base Types Bytes Alloc ModuleEnv Analyze.
From stdpp Require Import gmap list.
#[local] Open Scope Z_scope.
#[local] Open Scope wah_scope.

(** ** Definitions *)

(** *** Objects

    A pointer is its address, 0 for NULL.  The link to the next object holds the mark and
    gray bits in its lowest bits.  The payload follows the 24 bytes of the header. *)
Record wah_gc_object_t := GcObject {
  next_tagged : Z;
  obj_repr_id : wah_repr_t;
  size_bytes : Z;
  obj_module : Z;
  payload : list Z }.

Definition WAH_GC_TAG_MARK : Z := 1.
Definition WAH_GC_TAG_AUX : Z := 2.
Definition WAH_GC_TAG_MASK : Z := 3.
Definition sizeof_wah_gc_object_t : Z := 24.
Definition sizeof_wah_gc_array_body_t : Z := 8.
Definition sizeof_wah_exception_t : Z := 40.
Definition sizeof_wah_type_t : Z := 4.

Definition set_next_tagged (w : Z) (o : wah_gc_object_t) : wah_gc_object_t :=
  GcObject w (obj_repr_id o) (size_bytes o) (obj_module o) (payload o).
Definition set_payload (p : list Z) (o : wah_gc_object_t) : wah_gc_object_t :=
  GcObject (next_tagged o) (obj_repr_id o) (size_bytes o) (obj_module o) p.

Definition wah_gc_next (o : wah_gc_object_t) : Z := Z.land (next_tagged o) (Z.lnot WAH_GC_TAG_MASK).
Definition wah_gc_set_next (o : wah_gc_object_t) (next : Z) : wah_gc_object_t :=
  set_next_tagged (Z.lor next (Z.land (next_tagged o) WAH_GC_TAG_MASK)) o.
Definition wah_gc_marked (o : wah_gc_object_t) : bool := negb (Z.land (next_tagged o) WAH_GC_TAG_MARK =? 0).
Definition wah_gc_set_mark (o : wah_gc_object_t) (marked : bool) : wah_gc_object_t :=
  set_next_tagged (if marked then Z.lor (next_tagged o) WAH_GC_TAG_MARK
                   else Z.land (next_tagged o) (Z.lnot WAH_GC_TAG_MARK)) o.
Definition wah_gc_gray (o : wah_gc_object_t) : bool := negb (Z.land (next_tagged o) WAH_GC_TAG_AUX =? 0).
Definition wah_gc_set_gray (o : wah_gc_object_t) (gray : bool) : wah_gc_object_t :=
  set_next_tagged (if gray then Z.lor (next_tagged o) WAH_GC_TAG_AUX
                   else Z.land (next_tagged o) (Z.lnot WAH_GC_TAG_AUX)) o.

Definition wah_gc_header (payload : Z) : Z := payload - sizeof_wah_gc_object_t.
Definition wah_gc_payload (obj : Z) : Z := obj + sizeof_wah_gc_object_t.
Definition wah_exception_to_ref (exc : Z) : Z := wah_gc_payload exc.

(** The fields of [wah_exception_t] after its header: the identity and the index of its
    tag, the number of values; then the values and their types. *)
Definition exception_value_count (o : wah_gc_object_t) : option Z := wah_read_u32_le (payload o) 12.
Definition exception_values_start : Z := sizeof_wah_exception_t - sizeof_wah_gc_object_t.
(** The reference in [wah_exception_get_value(exc, i)]. *)
Definition wah_exception_get_ref (o : wah_gc_object_t) (i : Z) : option Z :=
  wah_read_u64_le (payload o) (exception_values_start + i * sizeof_wah_value_t).
(** [wah_exception_value_types(exc)[i]]. *)
Definition wah_exception_value_type (o : wah_gc_object_t) (value_count i : Z) : option wah_type_t :=
  s32 <$> wah_read_u32_le (payload o)
            (exception_values_start + value_count * sizeof_wah_value_t + i * sizeof_wah_type_t).

(** *** Heaps *)
Inductive wah_gc_phase_t := WAH_GC_PHASE_IDLE | WAH_GC_PHASE_MARK | WAH_GC_PHASE_SWEEP.

(** [wah_function_t], as far as roots depend on it. *)
Record wah_function_sig := FunctionSig { is_host : bool; fn_params : list wah_type_t; fn_results : list wah_type_t }.

Record wah_gc_state_t := GcState {
  all_objects : Z;
  sweep_cursor : Z;
  phase : wah_gc_phase_t;
  object_count : Z;
  exception_count : Z;
  allocated_bytes : Z;
  allocation_threshold : Z;
  other_heap_bytes : Z;
  gc_pending : bool;
  owner : Z;
  gc_dependents : list Z;
  gc_dependents_cap : Z;
  host_call_fn : option wah_function_sig;
  host_call_results : Z }.

Definition gc_set_objects (a count exn bytes : Z) (g : wah_gc_state_t) : wah_gc_state_t :=
  GcState a (sweep_cursor g) (phase g) count exn bytes (allocation_threshold g) (other_heap_bytes g)
          (gc_pending g) (owner g) (gc_dependents g)
          (gc_dependents_cap g) (host_call_fn g) (host_call_results g).
Definition gc_set_phase (p : wah_gc_phase_t) (g : wah_gc_state_t) : wah_gc_state_t :=
  GcState (all_objects g) (sweep_cursor g) p (object_count g) (exception_count g) (allocated_bytes g)
          (allocation_threshold g) (other_heap_bytes g) (gc_pending g) (owner g) (gc_dependents g)
          (gc_dependents_cap g) (host_call_fn g) (host_call_results g).
Definition gc_set_cursor (c : Z) (g : wah_gc_state_t) : wah_gc_state_t :=
  GcState (all_objects g) c (phase g) (object_count g) (exception_count g) (allocated_bytes g)
          (allocation_threshold g) (other_heap_bytes g) (gc_pending g) (owner g) (gc_dependents g)
          (gc_dependents_cap g) (host_call_fn g) (host_call_results g).
Definition gc_set_threshold (t : Z) (g : wah_gc_state_t) : wah_gc_state_t :=
  GcState (all_objects g) (sweep_cursor g) (phase g) (object_count g) (exception_count g) (allocated_bytes g)
          t (other_heap_bytes g) (gc_pending g) (owner g) (gc_dependents g)
          (gc_dependents_cap g) (host_call_fn g) (host_call_results g).
Definition gc_set_other (n : Z) (g : wah_gc_state_t) : wah_gc_state_t :=
  GcState (all_objects g) (sweep_cursor g) (phase g) (object_count g) (exception_count g) (allocated_bytes g)
          (allocation_threshold g) n (gc_pending g) (owner g) (gc_dependents g)
          (gc_dependents_cap g) (host_call_fn g) (host_call_results g).
Definition gc_set_pending (b : bool) (g : wah_gc_state_t) : wah_gc_state_t :=
  GcState (all_objects g) (sweep_cursor g) (phase g) (object_count g) (exception_count g) (allocated_bytes g)
          (allocation_threshold g) (other_heap_bytes g) b (owner g) (gc_dependents g)
          (gc_dependents_cap g) (host_call_fn g) (host_call_results g).
Definition gc_set_dependents (ds : list Z) (cap : Z) (g : wah_gc_state_t) : wah_gc_state_t :=
  GcState (all_objects g) (sweep_cursor g) (phase g) (object_count g) (exception_count g) (allocated_bytes g)
          (allocation_threshold g) (other_heap_bytes g) (gc_pending g) (owner g) ds
          cap (host_call_fn g) (host_call_results g).

(** *** Contexts *)
Inductive wah_exec_state_t :=
  WAH_EXEC_READY | WAH_EXEC_RUNNING | WAH_EXEC_SUSPENDED | WAH_EXEC_FINISHED | WAH_EXEC_TRAPPED.
#[export] Instance wah_exec_state_eq : EqDecision wah_exec_state_t.
Proof. solve_decision. Defined.

(** The code a frame runs: its locals and its ref maps. *)
Record frame_code := FrameCode {
  fc_body : wah_code_body_t;
  fc_poll_ref_tops : list Z;
  fc_ref_nodes : list wah_ref_node_t }.
(** [fr_code] is [None] for a NULL pointer; [fr_locals] is the address of the slots. *)
Record wah_call_frame_t := CallFrame {
  fr_code : option frame_code;
  fr_module : Z;
  fr_func_idx : Z;
  fr_locals : Z;
  fr_poll_idx : Z }.

Record wah_table_inst_t := TableInst { ti_entries : Z; ti_size : Z; ti_is_imported : bool }.
Record wah_linked_module_t := LinkedModule { lm_module : Z; lm_ctx : Z; lm_owns_ctx : bool }.

(** Frames are in the order of their depths.  [cx_pins] are the values of the slots of pinned
    references, null ones included; [cx_entry] is the entry function of the activation with
    the module of its result types. *)
Record wah_exec_context_t := ExecContext {
  cx_module : Z;
  cx_gc : Z;
  cx_linked_modules : list wah_linked_module_t;
  cx_dependents : list Z;
  cx_dependents_cap : Z;
  cx_is_instantiated : bool;
  cx_may_share_refs : bool;
  cx_poisoned : bool;
  cx_state : wah_exec_state_t;
  cx_base_sp : Z;
  cx_base_call_depth : Z;
  cx_entry_result_count : Z;
  cx_entry_fn : option wah_function_sig;
  cx_frames : list wah_call_frame_t;
  cx_sp : Z;
  cx_globals : Z;
  cx_tables : list wah_table_inst_t;
  cx_pins : list Z;
  cx_pending_exception : Z;
  cx_budget : budget;
  cx_poll_flag : bool;
  cx_interrupt_flag : bool }.
Definition cx_call_depth (c : wah_exec_context_t) : Z := zlen (cx_frames c).

Definition cx_set_budget (b : budget) (c : wah_exec_context_t) : wah_exec_context_t :=
  ExecContext (cx_module c) (cx_gc c) (cx_linked_modules c) (cx_dependents c) (cx_dependents_cap c) (cx_is_instantiated c)
    (cx_may_share_refs c) (cx_poisoned c) (cx_state c) (cx_base_sp c) (cx_base_call_depth c)
    (cx_entry_result_count c) (cx_entry_fn c) (cx_frames c) (cx_sp c) (cx_globals c) (cx_tables c)
    (cx_pins c) (cx_pending_exception c) b (cx_poll_flag c) (cx_interrupt_flag c).
Definition cx_set_flags (poll interrupt : bool) (c : wah_exec_context_t) : wah_exec_context_t :=
  ExecContext (cx_module c) (cx_gc c) (cx_linked_modules c) (cx_dependents c) (cx_dependents_cap c) (cx_is_instantiated c)
    (cx_may_share_refs c) (cx_poisoned c) (cx_state c) (cx_base_sp c) (cx_base_call_depth c)
    (cx_entry_result_count c) (cx_entry_fn c) (cx_frames c) (cx_sp c) (cx_globals c) (cx_tables c)
    (cx_pins c) (cx_pending_exception c) (cx_budget c) poll interrupt.
Definition cx_set_gc (g : Z) (c : wah_exec_context_t) : wah_exec_context_t :=
  ExecContext (cx_module c) g (cx_linked_modules c) (cx_dependents c) (cx_dependents_cap c) (cx_is_instantiated c)
    (cx_may_share_refs c) (cx_poisoned c) (cx_state c) (cx_base_sp c) (cx_base_call_depth c)
    (cx_entry_result_count c) (cx_entry_fn c) (cx_frames c) (cx_sp c) (cx_globals c) (cx_tables c)
    (cx_pins c) (cx_pending_exception c) (cx_budget c) (cx_poll_flag c) (cx_interrupt_flag c).
Definition cx_set_poisoned (b : bool) (c : wah_exec_context_t) : wah_exec_context_t :=
  ExecContext (cx_module c) (cx_gc c) (cx_linked_modules c) (cx_dependents c) (cx_dependents_cap c) (cx_is_instantiated c)
    (cx_may_share_refs c) b (cx_state c) (cx_base_sp c) (cx_base_call_depth c)
    (cx_entry_result_count c) (cx_entry_fn c) (cx_frames c) (cx_sp c) (cx_globals c) (cx_tables c)
    (cx_pins c) (cx_pending_exception c) (cx_budget c) (cx_poll_flag c) (cx_interrupt_flag c).

(** *** The memory

    [slots] holds the reference of the value slot at each address; [blocks] are the
    addresses that [wah_malloc] returns, 0 for a failure, and [more] its answers for arrays
    whose address does not matter. *)
Record memory := Memory {
  objs : gmap Z wah_gc_object_t;
  heaps : gmap Z wah_gc_state_t;
  ctxs : gmap Z wah_exec_context_t;
  slots : gmap Z Z;
  blocks : list Z;
  more : answers }.

Definition set_objs (x : gmap Z wah_gc_object_t) (m : memory) : memory :=
  Memory x (heaps m) (ctxs m) (slots m) (blocks m) (more m).
Definition set_heaps (x : gmap Z wah_gc_state_t) (m : memory) : memory :=
  Memory (objs m) x (ctxs m) (slots m) (blocks m) (more m).
Definition set_ctxs (x : gmap Z wah_exec_context_t) (m : memory) : memory :=
  Memory (objs m) (heaps m) x (slots m) (blocks m) (more m).
Definition set_blocks (x : list Z) (m : memory) : memory :=
  Memory (objs m) (heaps m) (ctxs m) (slots m) x (more m).
Definition set_more (x : answers) (m : memory) : memory :=
  Memory (objs m) (heaps m) (ctxs m) (slots m) (blocks m) x.

(** Reads and writes through pointers; a pointer to nothing is a fault. *)
Definition get_obj (a : Z) : comp memory wah_gc_object_t := fun m => stm_opt (objs m !! a) m.
Definition get_heap (a : Z) : comp memory wah_gc_state_t := fun m => stm_opt (heaps m !! a) m.
Definition get_ctx (a : Z) : comp memory wah_exec_context_t := fun m => stm_opt (ctxs m !! a) m.
Definition put_obj (a : Z) (o : wah_gc_object_t) : comp memory unit := fun m => (Ok tt, set_objs (<[a := o]> (objs m)) m).
Definition put_heap (a : Z) (g : wah_gc_state_t) : comp memory unit := fun m => (Ok tt, set_heaps (<[a := g]> (heaps m)) m).
Definition put_ctx (a : Z) (c : wah_exec_context_t) : comp memory unit := fun m => (Ok tt, set_ctxs (<[a := c]> (ctxs m)) m).
Definition upd_heap (a : Z) (f : wah_gc_state_t -> wah_gc_state_t) : comp memory unit :=
  g <- get_heap a ;; put_heap a (f g).
Definition upd_ctx (a : Z) (f : wah_exec_context_t -> wah_exec_context_t) : comp memory unit :=
  c <- get_ctx a ;; put_ctx a (f c).
Definition free_obj (a : Z) : comp memory unit := fun m =>
  match objs m !! a with Some _ => (Ok tt, set_objs (delete a (objs m)) m) | None => (Fault, m) end.
Definition gc_assert (b : bool) : comp memory unit := fun m => if b then (Ok tt, m) else (Fault, m).
Definition gc_malloc : comp memory Z := fun m =>
  match blocks m with [] => (Ok 0, m) | a :: bs => (Ok a, set_blocks bs m) end.
Definition on_more {A} (c : comp answers A) : comp memory A := fun m =>
  let '(r, a) := c (more m) in (r, set_more a m).

Definition budget_release (a bytes : Z) : comp memory unit :=
  c <- get_ctx a ;; b <- stm_opt (wah_budget_release (cx_budget c) bytes) ;; put_ctx a (cx_set_budget b c).

(** [for (obj = first; obj; obj = wah_gc_next(obj)) body(obj)], for at most [fuel] objects. *)
Fixpoint for_objects (fuel : nat) (obj : Z) (body : Z -> comp memory unit) : comp memory unit :=
  if obj =? 0 then stm_ret tt
  else match fuel with
       | O => gc_assert false
       | S fuel' => body obj ;;; o <- get_obj obj ;; for_objects fuel' (wah_gc_next o) body
       end.
Definition object_fuel (m : memory) : nat := size (objs m).
Definition for_heap (first : Z) (body : Z -> comp memory unit) : comp memory unit := fun m =>
  for_objects (object_fuel m) first body m.

(** *** Starting, ending and looking at a heap *)
Definition WAH_GC_DEFAULT_THRESHOLD : Z := 256 * 1024.

Fixpoint free_objects (fuel : nat) (obj : Z) : comp memory unit :=
  if obj =? 0 then stm_ret tt
  else match fuel with
       | O => gc_assert false
       | S fuel' => o <- get_obj obj ;; free_obj obj ;;; free_objects fuel' (wah_gc_next o)
       end.
Definition wah_gc_free_all_objects (gc : Z) : comp memory unit :=
  g <- get_heap gc ;;
  m <- stm_get ;;
  free_objects (object_fuel m) (all_objects g) ;;;
  upd_heap gc (fun g => gc_set_objects 0 0 0 0 (gc_set_cursor 0 g)).

Definition wah_gc_start (ctx : Z) : comp memory unit :=
  stm_ensure (negb (ctx =? 0)) WAH_ERROR_MISUSE ;;;
  c <- get_ctx ctx ;;
  stm_ensure (negb (cx_poisoned c)) WAH_ERROR_MISUSE ;;;
  if negb (cx_gc c =? 0) then stm_ret tt
  else
    gc <- gc_malloc ;;
    stm_ensure (negb (gc =? 0)) WAH_ERROR_OUT_OF_MEMORY ;;;
    put_ctx ctx (cx_set_gc gc c) ;;;
    put_heap gc (GcState 0 0 WAH_GC_PHASE_IDLE 0 0 0 WAH_GC_DEFAULT_THRESHOLD 0 false ctx [] 0 None 0).

Definition wah_gc_end (ctx : Z) : comp memory unit :=
  c <- get_ctx ctx ;;
  if cx_gc c =? 0 then stm_ret tt
  else
    g <- get_heap (cx_gc c) ;;
    budget_release (owner g) (allocated_bytes g) ;;;
    wah_gc_free_all_objects (cx_gc c) ;;;
    m <- stm_get ;;
    stm_put (set_heaps (delete (cx_gc c) (heaps m)) m) ;;;
    upd_ctx ctx (cx_set_gc 0).

(** The size of an element of an array of pointers. *)
Definition sizeof_pointer : Z := 8.
Definition wah_gc_register_dependent (gc dep : Z) : comp memory unit :=
  g <- get_heap gc ;;
  if bool_decide (dep ∈ gc_dependents g) then stm_ret tt
  else
    cap <- on_more (wah_grow_array (zlen (gc_dependents g) + 1) sizeof_pointer (gc_dependents_cap g)) ;;
    put_heap gc (gc_set_dependents (gc_dependents g ++ [dep]) cap g).

(** Replaces the first [dep] by the last element. *)
Fixpoint swap_out (dep : Z) (seen ds : list Z) : list Z :=
  match ds with
  | [] => seen
  | d :: ds' =>
      if d =? dep then
        match rev ds' with [] => seen | z :: _ => seen ++ z :: removelast ds' end
      else swap_out dep (seen ++ [d]) ds'
  end.
Definition wah_gc_unregister_dependent (gc dep : Z) : comp memory unit :=
  upd_heap gc (fun g => gc_set_dependents (swap_out dep [] (gc_dependents g)) (gc_dependents_cap g) g).

(** *** Allocation *)
Definition wah_gc_alloc (ctx module : Z) (repr_id : wah_repr_t) (payload_size : Z) : comp memory Z :=
  c <- get_ctx ctx ;;
  if cx_gc c =? 0 then stm_ret 0
  else
    g <- get_heap (cx_gc c) ;;
    if UINT32_MAX - sizeof_wah_gc_object_t <? payload_size then stm_ret 0
    else
      let total := u32 (sizeof_wah_gc_object_t + payload_size) in
      oc <- get_ctx (owner g) ;;
      if negb (wah_budget_check (cx_budget oc) total) then stm_ret 0
      else
        obj <- gc_malloc ;;
        if obj =? 0 then stm_ret 0
        else
          gc_assert (Z.land obj WAH_I31_TAG =? 0) ;;;
          let o := GcObject 0 repr_id total module (replicate (Z.to_nat payload_size) 0) in
          put_obj obj (wah_gc_set_next o (all_objects g)) ;;;
          put_heap (cx_gc c) (gc_set_objects obj (u32 (object_count g + 1)) (exception_count g)
                                             (u64 (allocated_bytes g + total)) g) ;;;
          put_ctx (owner g) (cx_set_budget (wah_budget_charge (cx_budget oc) total) oc) ;;;
          (if allocation_threshold g <=? u64 (allocated_bytes g + total) then
             upd_heap (cx_gc c) (gc_set_pending true) ;;;
             upd_ctx ctx (fun c => cx_set_flags true (cx_interrupt_flag c) c)
           else stm_ret tt) ;;;
          stm_ret (wah_gc_payload obj).

Definition is_struct (i : wah_repr_info_t) : bool := match repr_type i with WAH_REPR_STRUCT => true | _ => false end.

Definition wah_gc_alloc_struct (ctx module : Z) (repr_id : wah_repr_t) (info : wah_repr_info_t) : comp memory Z :=
  gc_assert (is_struct info) ;;;
  wah_gc_alloc ctx module repr_id (repr_size info).

Definition poke_payload (ref off : Z) (f : list Z -> option (list Z)) : comp memory unit :=
  o <- get_obj (wah_gc_header ref) ;;
  p <- stm_opt (f (payload o)) ;;
  put_obj (wah_gc_header ref) (set_payload p o).

Definition wah_gc_alloc_array (ctx module : Z) (repr_id : wah_repr_t) (info : wah_repr_info_t) (length : Z)
  : comp memory Z :=
  gc_assert (negb (is_struct info)) ;;;
  let payload64 := u64 (sizeof_wah_gc_array_body_t + u64 (repr_size info * length)) in
  if UINT32_MAX <? payload64 then stm_ret 0
  else
    p <- wah_gc_alloc ctx module repr_id (u32 payload64) ;;
    (if negb (p =? 0) then poke_payload p 0 (fun b => wah_write_u32_le b 0 length) else stm_ret tt) ;;;
    stm_ret p.

Definition wah_gc_alloc_host (ctx size : Z) : comp memory Z :=
  if ctx =? 0 then stm_ret 0
  else
    c <- get_ctx ctx ;;
    if cx_poisoned c then stm_ret 0
    else if UINT32_MAX <? size then stm_ret 0
    else wah_gc_alloc ctx 0 WAH_REPR_HOST (u32 size).

(** Returns the address of the header, as the C code does. *)
Definition wah_gc_alloc_exception (ctx value_count : Z) : comp memory Z :=
  let fields_size := u32 (sizeof_wah_exception_t - sizeof_wah_gc_object_t) in
  let payload64 := u64 (fields_size + u64 (value_count * (sizeof_wah_value_t + sizeof_wah_type_t))) in
  if UINT32_MAX <? payload64 then stm_ret 0
  else
    p <- wah_gc_alloc ctx 0 WAH_TYPE_EXN (u32 payload64) ;;
    if p =? 0 then stm_ret 0
    else
      c <- get_ctx ctx ;;
      upd_heap (cx_gc c) (fun g => gc_set_objects (all_objects g) (object_count g)
                                     (u32 (exception_count g + 1)) (allocated_bytes g) g) ;;;
      stm_ret (wah_gc_header p).

(** *** Fields of objects

    The parts of the union [wah_value_t] that a field type uses, as one unsigned value of the
    slot: its lowest 4 or 8 bytes, or all 16 of them. *)
Definition wah_gc_store_field (ft : wah_type_t) (mem : list Z) (addr val : Z) : option (list Z) :=
  if ft =? WAH_TYPE_PACKED_I8 then wah_write_u8_le mem addr val
  else if ft =? WAH_TYPE_PACKED_I16 then wah_write_u16_le mem addr val
  else if (ft =? WAH_TYPE_I32) || (ft =? WAH_TYPE_F32) then wah_write_u32_le mem addr val
  else if (ft =? WAH_TYPE_I64) || (ft =? WAH_TYPE_F64) then wah_write_u64_le mem addr val
  else if ft =? WAH_TYPE_V128 then
    mem ← wah_write_u64_le mem addr val; wah_write_u64_le mem (addr + 8) (Z.shiftr val 64)
  else if WAH_TYPE_IS_REF ft then wah_write_u64_le mem addr val
  else None.

Definition wah_gc_load_field (ft : wah_type_t) (mem : list Z) (addr : Z) : option Z :=
  if ft =? WAH_TYPE_PACKED_I8 then wah_read_u8_le mem addr
  else if ft =? WAH_TYPE_PACKED_I16 then wah_read_u16_le mem addr
  else if (ft =? WAH_TYPE_I32) || (ft =? WAH_TYPE_F32) then wah_read_u32_le mem addr
  else if (ft =? WAH_TYPE_I64) || (ft =? WAH_TYPE_F64) then wah_read_u64_le mem addr
  else if ft =? WAH_TYPE_V128 then
    lo ← wah_read_u64_le mem addr; hi ← wah_read_u64_le mem (addr + 8);
    Some (Z.lor lo (Z.shiftl hi 64))
  else if WAH_TYPE_IS_REF ft then wah_read_u64_le mem addr
  else None.

(** The [int32_t] it returns. *)
Definition wah_gc_load_packed (ft : wah_type_t) (mem : list Z) (addr : Z) (sign_extend : bool) : option Z :=
  if ft =? WAH_TYPE_PACKED_I8 then
    (fun b => if sign_extend then s8 b else b) <$> wah_read_u8_le mem addr
  else (fun b => if sign_extend then s16 b else b) <$> wah_read_u16_le mem addr.

(** *** Statistics and verification *)
Record wah_gc_heap_stats_t := HeapStats {
  hs_object_count : Z; hs_allocated_bytes : Z; hs_allocation_threshold : Z; hs_phase : wah_gc_phase_t }.
Definition wah_gc_heap_stats (ctx : Z) : comp memory wah_gc_heap_stats_t :=
  if ctx =? 0 then stm_ret (HeapStats 0 0 0 WAH_GC_PHASE_IDLE)
  else
    c <- get_ctx ctx ;;
    if cx_gc c =? 0 then stm_ret (HeapStats 0 0 0 WAH_GC_PHASE_IDLE)
    else
      g <- get_heap (cx_gc c) ;;
      stm_ret (HeapStats (object_count g) (allocated_bytes g) (allocation_threshold g) (phase g)).

(** The loop stops once it has seen more than [object_count + 1] objects. *)
Fixpoint count_objects (fuel : nat) (limit obj counted counted_bytes : Z) : comp memory (option (Z * Z)) :=
  if obj =? 0 then stm_ret (Some (counted, counted_bytes))
  else match fuel with
       | O => gc_assert false ;;; stm_ret None
       | S fuel' =>
           o <- get_obj obj ;;
           let counted := u32 (counted + 1) in
           let counted_bytes := u64 (counted_bytes + size_bytes o) in
           if u32 (limit + 1) <? counted then stm_ret None
           else count_objects fuel' limit (wah_gc_next o) counted counted_bytes
       end.
Definition wah_gc_verify_heap (ctx : Z) : comp memory bool :=
  if ctx =? 0 then stm_ret false
  else
    c <- get_ctx ctx ;;
    if cx_gc c =? 0 then stm_ret true
    else
      g <- get_heap (cx_gc c) ;;
      r <- count_objects (Z.to_nat (object_count g) + 2) (object_count g) (all_objects g) 0 0 ;;
      stm_ret (match r with
               | None => false
               | Some (counted, counted_bytes) =>
                   (counted =? object_count g) && (counted_bytes =? allocated_bytes g)
               end).
