(* ===== verification/GcRoots.v ===== *)
(** * Roots of the collector: [wah_gc_enumerate_roots]

    The references that a context holds outside the heaps: the slots of its frames that
    their ref maps list, its globals, tables, pinned references and pending exception.
    The collector's visitor only reads the slot it is called with, so the enumeration is
    the list of the references it is called with, in order; [None] is a read outside the
    objects of the program. *)

From S2P Require Import Prelude Base Types Bytes Alloc ModuleEnv Analyze Heap.
From stdpp Require Import gmap list.
#[local] Open Scope Z_scope.

(** ** Definitions *)

(** [base + i] for a pointer to values. *)
Definition slot_at (base i : Z) : Z := base + sizeof_wah_value_t * i.

Definition flat {A} (l : list (option (list A))) : option (list A) := @concat A <$> mapM id l.

Section Roots.
(** The parsed modules, which never change. *)
Context (mods : Z -> option wah_module_env) (m : memory).

Definition visit_slot (addr : Z) : option (list Z) := r ← slots m !! addr; Some [r].

(** The slots [base + i] whose type [types[i]] is a reference. *)
Definition visit_typed (types : list wah_type_t) (base : Z) : option (list Z) :=
  flat (imap (fun i t => if WAH_TYPE_IS_REF t then visit_slot (slot_at base (Z.of_nat i)) else Some []) types).

Definition wah_gc_visit_module_globals (module : wah_module_env) (globals : Z) : option (list Z) :=
  flat ((fun i =>
    gt ← wah_global_type module i;
    if negb (WAH_TYPE_IS_REF gt) then Some []
    else
      indirect ← (if i <? zlen (global_imports module)
                  then global_mutable <$> zget (global_imports module) i else Some false);
      if (indirect : bool) then
        p ← slots m !! slot_at globals i;
        if p =? 0 then Some [] else visit_slot p
      else visit_slot (slot_at globals i)) <$> zrange 0 (wah_global_index_limit module)).

Definition wah_gc_visit_pins (c : wah_exec_context_t) : option (list Z) :=
  Some (List.filter (fun r => negb (r =? 0)) (cx_pins c)).

(** [for (n = top; n; n = nodes[n - 1].parent)], keeping the positions below [depth]. *)
Fixpoint visit_ref_map (fuel : nat) (nodes : list wah_ref_node_t) (operand_base depth n : Z) : option (list Z) :=
  if n =? 0 then Some []
  else match fuel with
       | O => None
       | S fuel' =>
           node ← zget nodes (n - 1);
           v ← (if node_pos node <? depth then visit_slot (slot_at operand_base (node_pos node)) else Some []);
           vs ← visit_ref_map fuel' nodes operand_base depth (node_parent node);
           Some (v ++ vs)
       end.

(** 1b: the runs of declared locals. *)
Definition visit_runs (body : wah_code_body_t) (locals param_count : Z) : option (list Z) :=
  flat ((fun ri =>
    r ← zget (local_runs body) ri;
    if negb (WAH_TYPE_IS_REF (run_type r)) then Some []
    else
      start ← wah_local_run_start body ri;
      flat ((fun i => visit_slot (slot_at locals (param_count + i))) <$> zrange start (run_end r)))
    <$> zrange 0 (zlen (local_runs body))).

(** 1c: the operands described by the ref map of the last POLL, down to the locals of the
    next frame or the stack pointer. *)
Definition visit_operands (c : wah_exec_context_t) (d : Z) (frame : wah_call_frame_t) (code : frame_code)
  (param_count : Z) : option (list Z) :=
  let operand_base := slot_at (fr_locals frame) (param_count + local_count (fc_body code)) in
  if fr_poll_idx frame <? zlen (fc_poll_ref_tops code) then
    next_frame_base ← (if d <? cx_call_depth c - 1 then fr_locals <$> zget (cx_frames c) (d + 1) else Some (cx_sp c));
    let actual_depth := if operand_base <? next_frame_base
                        then u32 ((next_frame_base - operand_base) / sizeof_wah_value_t) else 0 in
    top ← zget (fc_poll_ref_tops code) (fr_poll_idx frame);
    visit_ref_map (S (length (fc_ref_nodes code))) (fc_ref_nodes code) operand_base actual_depth top
  else Some [].

Definition visit_frame (c : wah_exec_context_t) (d : Z) : option (list Z) :=
  frame ← zget (cx_frames c) d;
  match fr_code frame with
  | None => Some []
  | Some code =>
      fmod ← mods (fr_module frame);
      ti ← zget (function_type_indices fmod) (fr_func_idx frame);
      ftype ← zget (types (env_types fmod)) ti;
      flat [visit_typed (param_types ftype) (fr_locals frame);
            visit_runs (fc_body code) (fr_locals frame) (zlen (param_types ftype));
            visit_operands c d frame code (zlen (param_types ftype))]
  end.

Definition visit_frames (c : wah_exec_context_t) : option (list Z) :=
  let live_depth := if bool_decide (cx_state c = WAH_EXEC_TRAPPED)
                    then cx_base_call_depth c else cx_call_depth c in
  flat (visit_frame c <$> zrange 0 live_depth).

(** 1d *)
Definition visit_entry_host (c : wah_exec_context_t) : option (list Z) :=
  match cx_entry_fn c with
  | Some fn =>
      if is_host fn && (bool_decide (cx_state c = WAH_EXEC_SUSPENDED) || bool_decide (cx_state c = WAH_EXEC_RUNNING))
      then flat [visit_typed (fn_params fn) (cx_base_sp c);
                 visit_typed (fn_results fn) (slot_at (cx_base_sp c) (zlen (fn_params fn)))]
      else Some []
  | None => Some []
  end.

(** 1e *)
Definition visit_host_call (ctx : Z) (c : wah_exec_context_t) : option (list Z) :=
  if cx_gc c =? 0 then Some []
  else
    g ← heaps m !! cx_gc c;
    if negb (owner g =? ctx) then Some []
    else match host_call_fn g with
         | Some fn => visit_typed (fn_results fn) (host_call_results g)
         | None => Some []
         end.

(** 1f: [fn_results] of the entry function are the result types of its module. *)
Definition wah_entry_result_types (c : wah_exec_context_t) : option (list wah_type_t) :=
  fn_results <$> cx_entry_fn c.
Definition visit_finished (c : wah_exec_context_t) : option (list Z) :=
  if bool_decide (cx_state c = WAH_EXEC_FINISHED) then
    match wah_entry_result_types c with
    | None => Some []
    | Some types =>
        flat ((fun i =>
          t ← zget types i;
          if WAH_TYPE_IS_REF t then visit_slot (slot_at (cx_sp c) (i - cx_entry_result_count c)) else Some [])
          <$> zrange 0 (cx_entry_result_count c))
    end
  else Some [].

(** 2: the globals of linked modules follow those of the primary module. *)
Fixpoint visit_linked_globals (globals g_offset : Z) (ls : list wah_linked_module_t) : option (list Z) :=
  match ls with
  | [] => Some []
  | l :: ls' =>
      linked ← mods (lm_module l);
      let linked_globals := wah_global_index_limit linked in
      v ← (if (0 <? linked_globals) && ((lm_ctx l =? 0) || lm_owns_ctx l)
           then wah_gc_visit_module_globals linked (slot_at globals g_offset) else Some []);
      vs ← visit_linked_globals globals (u32 (g_offset + linked_globals)) ls';
      Some (v ++ vs)
  end.

(** 3: the tables that the context owns. *)
Definition visit_tables (module : wah_module_env) (tabs : list wah_table_inst_t) : option (list Z) :=
  flat (imap (fun t (ti : wah_table_inst_t) =>
    if ti_is_imported ti then Some []
    else
      tt ← wah_table_type module (Z.of_nat t);
      if WAH_TYPE_IS_REF (elem_type tt)
      then flat ((fun e => visit_slot (slot_at (ti_entries ti) e)) <$> zrange 0 (ti_size ti))
      else Some []) tabs).

Definition visit_owned_tables (ls : list wah_linked_module_t) : option (list Z) :=
  flat ((fun l =>
    if (lm_ctx l =? 0) || negb (lm_owns_ctx l) then Some []
    else
      lctx ← ctxs m !! lm_ctx l;
      lmod ← mods (lm_module l);
      visit_tables lmod (cx_tables lctx)) <$> ls).

Definition wah_gc_enumerate_roots (ctx : Z) : option (list Z) :=
  c ← ctxs m !! ctx;
  module ← mods (cx_module c);
  flat [visit_frames c;
        visit_entry_host c;
        visit_host_call ctx c;
        visit_finished c;
        wah_gc_visit_module_globals module (cx_globals c);
        visit_linked_globals (cx_globals c) (wah_global_index_limit module) (cx_linked_modules c);
        wah_gc_visit_pins c;
        visit_tables module (cx_tables c);
        visit_owned_tables (cx_linked_modules c);
        Some (if cx_pending_exception c =? 0 then [] else [wah_exception_to_ref (cx_pending_exception c)])].
End Roots.
