(* ===== verification/Gc.v ===== *)
(** * Mark and sweep (wah.h, from [wah_gc_gray] to [wah_gc_step])

    The domain of a context, that is every context whose heap or roots may refer to its
    objects; marking from the roots of the domain with a work list that may fail to grow;
    sweeping; and the steps of a collection. *)

From S2P Require Import Prelude Base Types Bytes Alloc ModuleEnv Analyze Heap GcRoots.
From stdpp Require Import gmap list.
#[local] Open Scope Z_scope.
#[local] Open Scope wah_scope.

(** ** Definitions *)

(** *** The work list

    [wl_items] is the array from its last item to its first, so its count is the length. *)
Record wah_gc_worklist_t := Worklist { wl_items : list Z; wl_cap : Z; wl_overflow : bool; wl_module : Z }.
Definition wl_count (wl : wah_gc_worklist_t) : Z := zlen (wl_items wl).
Definition wl_set_items (l : list Z) (cap : Z) (wl : wah_gc_worklist_t) : wah_gc_worklist_t :=
  Worklist l cap (wl_overflow wl) (wl_module wl).
Definition wl_set_overflow (b : bool) (wl : wah_gc_worklist_t) : wah_gc_worklist_t :=
  Worklist (wl_items wl) (wl_cap wl) b (wl_module wl).

(** Marking works on the memory and a work list. *)
Definition marking : Type := memory * wah_gc_worklist_t.
Definition on_mem {A} (c : comp memory A) : comp marking A := fun s =>
  let '(r, m) := c s.1 in (r, (m, s.2)).
Definition upd_wl (f : wah_gc_worklist_t -> wah_gc_worklist_t) : comp marking unit := fun s =>
  (Ok tt, (s.1, f s.2)).

(** Whether an allocation succeeds. *)
Definition succeeds (c : comp answers unit) : comp memory bool := fun m =>
  match c (more m) with
  | (Ok _, a) => (Ok true, set_more a m)
  | (Err _, a) => (Ok false, set_more a m)
  | (Fault, a) => (Fault, set_more a m)
  end.

Definition wl_push (obj : Z) : comp marking unit :=
  upd_wl (fun wl => wl_set_items (obj :: wl_items wl) (wl_cap wl) wl).

Definition wah_gc_mark_object (obj : Z) : comp marking unit :=
  if obj =? 0 then stm_ret tt
  else
    o <- on_mem (get_obj obj) ;;
    if wah_gc_marked o then stm_ret tt
    else
      on_mem (put_obj obj (wah_gc_set_mark o true)) ;;;
      s <- stm_get ;;
      if wl_cap s.2 <=? wl_count s.2 then
        let new_cap := if negb (wl_cap s.2 =? 0) then u32 (wl_cap s.2 * 2) else 256 in
        grown <- (if new_cap <? wl_cap s.2 then stm_ret false
                  else on_mem (succeeds (wah_malloc_c new_cap sizeof_pointer))) ;;
        if negb grown then
          o <- on_mem (get_obj obj) ;;
          on_mem (put_obj obj (wah_gc_set_gray o true)) ;;;
          upd_wl (wl_set_overflow true)
        else
          upd_wl (fun wl => wl_set_items (wl_items wl) new_cap wl) ;;;
          wl_push obj
      else wl_push obj.

Definition wah_gc_mark_ref (ref : Z) : comp marking unit :=
  if (ref =? 0) || wah_ref_is_i31 ref then stm_ret tt
  else wah_gc_mark_object (wah_gc_header ref).

(** The visitor on the roots, in order. *)
Fixpoint mark_refs (refs : list Z) : comp marking unit :=
  match refs with
  | [] => stm_ret tt
  | r :: rs => wah_gc_mark_ref r ;;; mark_refs rs
  end.

(** The values of an exception with [types] from the index [i]. *)
Fixpoint scan_values (o : wah_gc_object_t) (n : nat) (value_count i : Z) : comp marking unit :=
  match n with
  | O => stm_ret tt
  | S n' =>
      t <- stm_opt (wah_exception_value_type o value_count i) ;;
      (if negb (WAH_TYPE_IS_REF t) then stm_ret tt
       else
         r <- stm_opt (wah_exception_get_ref o i) ;;
         if (r =? 0) || wah_ref_is_i31 r then stm_ret tt else wah_gc_mark_ref r) ;;;
      scan_values o n' value_count (i + 1)
  end.

(** [void **ref = base + offset; if ( *ref) wah_gc_mark_ref( *ref)]. *)
Definition scan_ref (o : wah_gc_object_t) (off : Z) : comp marking unit :=
  r <- stm_opt (wah_read_u64_le (payload o) off) ;;
  if negb (r =? 0) then wah_gc_mark_ref r else stm_ret tt.

Fixpoint scan_fields (o : wah_gc_object_t) (fs : list wah_repr_field_t) : comp marking unit :=
  match fs with
  | [] => stm_ret tt
  | f :: fs' =>
      (if negb (wah_repr_field_is_ref f) then stm_ret tt else scan_ref o (fld_offset f)) ;;;
      scan_fields o fs'
  end.

(** The elements of an array from the index [i]; [i * elem_size] is a [uint32_t]. *)
Fixpoint scan_elems (o : wah_gc_object_t) (n : nat) (elem_size offset i : Z) : comp marking unit :=
  match n with
  | O => stm_ret tt
  | S n' =>
      scan_ref o (sizeof_wah_gc_array_body_t + u32 (i * elem_size) + offset) ;;;
      scan_elems o n' elem_size offset (i + 1)
  end.

Section Collector.
Context (mods : Z -> option wah_module_env).

Definition wah_gc_scan_object (obj : Z) : comp marking unit :=
  o <- on_mem (get_obj obj) ;;
  if obj_repr_id o =? WAH_TYPE_EXN then
    n <- stm_opt (exception_value_count o) ;; scan_values o (Z.to_nat n) n 0
  else if obj_repr_id o <? 0 then stm_ret tt
  else
    s <- stm_get ;;
    obj_mod <- stm_opt (mods (if negb (obj_module o =? 0) then obj_module o else wl_module s.2)) ;;
    match wah_repr_info_get (env_types obj_mod) (obj_repr_id o) with
    | None => stm_ret tt
    | Some info =>
        match repr_type info with
        | WAH_REPR_STRUCT => scan_fields o (repr_fields info)
        | WAH_REPR_ARRAY =>
            match repr_fields info with
            | [] => stm_ret tt
            | f :: _ =>
                if negb (wah_repr_field_is_ref f) then stm_ret tt
                else
                  length <- stm_opt (wah_read_u32_le (payload o) 0) ;;
                  scan_elems o (Z.to_nat length) (repr_size info) (fld_offset f) 0
            end
        end
    end.

(** *** The domain

    [dm_list] grows from the 8 places inside the structure. *)
Record wah_gc_domain_t := Domain { dm_list : list Z; dm_cap : Z }.
Definition WAH_GC_INLINE_DOMAIN_SIZE : Z := 8.

Definition wah_gc_domain_add (c : Z) (d : wah_gc_domain_t) : comp memory wah_gc_domain_t :=
  if c =? 0 then stm_ret d
  else if bool_decide (c ∈ dm_list d) then stm_ret d
  else if dm_cap d <=? zlen (dm_list d) then
    let new_cap := u32 (dm_cap d * 2) in
    on_more (wah_malloc_c new_cap sizeof_pointer) ;;;
    stm_ret (Domain (dm_list d ++ [c]) new_cap)
  else stm_ret (Domain (dm_list d ++ [c]) (dm_cap d)).

Fixpoint domain_add_all (cs : list Z) (d : wah_gc_domain_t) : comp memory wah_gc_domain_t :=
  match cs with
  | [] => stm_ret d
  | c :: cs' => d <- wah_gc_domain_add c d ;; domain_add_all cs' d
  end.

Definition gc_dependents_of (c : wah_exec_context_t) : comp memory (list Z) :=
  if cx_gc c =? 0 then stm_ret [] else g <- get_heap (cx_gc c) ;; stm_ret (gc_dependents g).

(** [for (i = 0; i < d->count; i++)]: the list may grow while it is walked. *)
Fixpoint domain_loop (fuel : nat) (i : Z) (d : wah_gc_domain_t) : comp memory wah_gc_domain_t :=
  if zlen (dm_list d) <=? i then stm_ret d
  else match fuel with
       | O => gc_assert false ;;; stm_ret d
       | S fuel' =>
           a <- stm_opt (zget (dm_list d) i) ;;
           c <- get_ctx a ;;
           d <- domain_add_all (lm_ctx <$> cx_linked_modules c) d ;;
           d <- domain_add_all (cx_dependents c) d ;;
           gds <- gc_dependents_of c ;;
           d <- domain_add_all gds d ;;
           domain_loop fuel' (i + 1) d
       end.

Definition wah_gc_collect_domain (ctx : Z) : comp memory (list Z) :=
  d <- wah_gc_domain_add ctx (Domain [] WAH_GC_INLINE_DOMAIN_SIZE) ;;
  m <- stm_get ;;
  d <- domain_loop (size (ctxs m)) 0 d ;;
  stm_ret (dm_list d).

(** The heaps of a domain, each once: [wah_gc_domain_first_heap(domain, i)] is whether
    the heap of [domain[i]] is among them and not before. *)
Fixpoint domain_heaps (seen : list Z) (domain : list Z) : comp memory (list Z) :=
  match domain with
  | [] => stm_ret []
  | a :: rest =>
      c <- get_ctx a ;;
      let first := negb (cx_gc c =? 0) && negb (bool_decide (cx_gc c ∈ seen)) in
      hs <- domain_heaps (seen ++ [cx_gc c]) rest ;;
      stm_ret (if first then cx_gc c :: hs else hs)
  end.

(** *** Marking *)

Definition clear_object (obj : Z) : comp memory unit :=
  o <- get_obj obj ;; put_obj obj (wah_gc_set_gray (wah_gc_set_mark o false) false).

Fixpoint clear_heaps (gc : Z) (hs : list Z) : comp memory unit :=
  match hs with
  | [] => stm_ret tt
  | h :: hs' =>
      g <- get_heap h ;;
      (if negb (h =? gc)
       then upd_heap gc (fun g0 => gc_set_other (u64 (other_heap_bytes g0 + allocated_bytes g)) g0)
       else stm_ret tt) ;;;
      for_heap (all_objects g) clear_object ;;;
      clear_heaps gc hs'
  end.

Fixpoint mark_roots (ctx : Z) (domain : list Z) : comp marking unit :=
  match domain with
  | [] => stm_ret tt
  | a :: rest =>
      c <- on_mem (get_ctx a) ;;
      s <- stm_get ;;
      refs <- stm_opt (if negb (a =? ctx) && negb (cx_is_instantiated c) && negb (cx_may_share_refs c)
                       then wah_gc_visit_pins c else wah_gc_enumerate_roots mods s.1 a) ;;
      mark_refs refs ;;;
      mark_roots ctx rest
  end.

(** [while (wl.count > 0) wah_gc_scan_object(wl.items[--wl.count], &wl)]. *)
Fixpoint drain (fuel : nat) : comp marking unit :=
  s <- stm_get ;;
  match wl_items s.2 with
  | [] => stm_ret tt
  | obj :: rest =>
      match fuel with
      | O => on_mem (gc_assert false)
      | S fuel' =>
          upd_wl (fun wl => wl_set_items rest (wl_cap wl) wl) ;;;
          wah_gc_scan_object obj ;;;
          drain fuel'
      end
  end.
Definition drain_fuel (s : marking) : nat := S (2 * size (objs s.1) + length (wl_items s.2)).

(** The scan of a heap for gray objects. *)
Definition scan_gray (obj : Z) : comp marking unit :=
  o <- on_mem (get_obj obj) ;;
  if wah_gc_gray o then on_mem (put_obj obj (wah_gc_set_gray o false)) ;;; wah_gc_scan_object obj
  else stm_ret tt.
Fixpoint scan_gray_list (fuel : nat) (obj : Z) : comp marking unit :=
  if obj =? 0 then stm_ret tt
  else match fuel with
       | O => on_mem (gc_assert false)
       | S fuel' => scan_gray obj ;;; o <- on_mem (get_obj obj) ;; scan_gray_list fuel' (wah_gc_next o)
       end.
Fixpoint scan_gray_heaps (hs : list Z) : comp marking unit :=
  match hs with
  | [] => stm_ret tt
  | h :: hs' =>
      g <- on_mem (get_heap h) ;;
      s <- stm_get ;;
      scan_gray_list (object_fuel s.1) (all_objects g) ;;;
      scan_gray_heaps hs'
  end.

(** The [for (;;)] loop: each turn after the first follows a turn that marked an object. *)
Fixpoint trace (fuel : nat) (hs : list Z) : comp marking unit :=
  s <- stm_get ;;
  drain (drain_fuel s) ;;;
  s <- stm_get ;;
  if negb (wl_overflow s.2) then stm_ret tt
  else match fuel with
       | O => on_mem (gc_assert false)
       | S fuel' =>
           upd_wl (wl_set_overflow false) ;;;
           scan_gray_heaps hs ;;;
           trace fuel' hs
       end.

(** A list, or [None] after an error. *)
Definition attempt {A} (c : comp memory A) : comp memory (option A) := fun m =>
  match c m with
  | (Ok a, m') => (Ok (Some a), m')
  | (Err _, m') => (Ok None, m')
  | (Fault, m') => (Fault, m')
  end.

Definition mark_phase (ctx : Z) (domain : list Z) : comp memory unit := fun m =>
  match ctxs m !! ctx with
  | None => (Fault, m)
  | Some c =>
      let wl := Worklist [] 0 false (cx_module c) in
      let run := mark_roots ctx domain ;;;
                 hs <- on_mem (domain_heaps [] domain) ;;
                 trace (size (objs m)) hs in
      let '(r, s) := run (m, wl) in (r, s.1)
  end.

Definition wah_gc_step_mark (ctx : Z) : comp memory bool :=
  c <- get_ctx ctx ;;
  domain <- attempt (wah_gc_collect_domain ctx) ;;
  match domain with
  | None => upd_heap (cx_gc c) (gc_set_phase WAH_GC_PHASE_IDLE) ;;; stm_ret false
  | Some domain =>
      upd_heap (cx_gc c) (gc_set_other 0) ;;;
      hs <- domain_heaps [] domain ;;
      clear_heaps (cx_gc c) hs ;;;
      mark_phase ctx domain ;;;
      upd_heap (cx_gc c) (fun g => gc_set_cursor 0 (gc_set_phase WAH_GC_PHASE_SWEEP g)) ;;;
      stm_ret true
  end.

(** *** Sweeping *)

(** Unlinks and frees the objects of [dead]. *)
Fixpoint sweep_objects (fuel : nat) (dead : wah_gc_object_t -> bool) (gc prev_obj obj : Z) : comp memory unit :=
  if obj =? 0 then stm_ret tt
  else match fuel with
       | O => gc_assert false
       | S fuel' =>
           o <- get_obj obj ;;
           let next := wah_gc_next o in
           if dead o then
             (if negb (prev_obj =? 0) then p <- get_obj prev_obj ;; put_obj prev_obj (wah_gc_set_next p next)
              else upd_heap gc (fun g => gc_set_objects next (object_count g) (exception_count g) (allocated_bytes g) g)) ;;;
             upd_heap gc (fun g =>
               gc_set_objects (all_objects g) (u32 (object_count g - 1))
                 (if obj_repr_id o =? WAH_TYPE_EXN then u32 (exception_count g - 1) else exception_count g)
                 (u64 (allocated_bytes g - size_bytes o)) g) ;;;
             g <- get_heap gc ;;
             budget_release (owner g) (size_bytes o) ;;;
             free_obj obj ;;;
             sweep_objects fuel' dead gc prev_obj next
           else sweep_objects fuel' dead gc obj next
       end.

Definition sweep_heap (dead : wah_gc_object_t -> bool) (gc : Z) : comp memory unit :=
  g <- get_heap gc ;;
  m <- stm_get ;;
  sweep_objects (object_fuel m) dead gc 0 (all_objects g).

Definition wah_gc_step_sweep (ctx : Z) : comp memory unit :=
  c <- get_ctx ctx ;;
  sweep_heap (fun o => negb (wah_gc_marked o)) (cx_gc c) ;;;
  upd_heap (cx_gc c) (fun g =>
    let t := u64 (u64 (allocated_bytes g * 2) + other_heap_bytes g) in
    gc_set_threshold (if t <? WAH_GC_DEFAULT_THRESHOLD then WAH_GC_DEFAULT_THRESHOLD else t)
                     (gc_set_phase WAH_GC_PHASE_IDLE g)).

Definition mark_and_sweep (ctx : Z) : comp memory unit :=
  marked <- wah_gc_step_mark ctx ;;
  if (marked : bool) then wah_gc_step_sweep ctx else stm_ret tt.

Definition wah_gc_step (ctx : Z) : comp memory unit :=
  c <- get_ctx ctx ;;
  if cx_gc c =? 0 then stm_ret tt
  else
    g <- get_heap (cx_gc c) ;;
    match phase g with
    | WAH_GC_PHASE_IDLE => upd_heap (cx_gc c) (gc_set_phase WAH_GC_PHASE_MARK) ;;; mark_and_sweep ctx
    | WAH_GC_PHASE_MARK => mark_and_sweep ctx
    | WAH_GC_PHASE_SWEEP => wah_gc_step_sweep ctx
    end.

(** The threshold stays as it was. *)
Definition wah_gc_sweep_unreachable_exceptions (ctx : Z) : comp memory unit :=
  c <- get_ctx ctx ;;
  if cx_gc c =? 0 then stm_ret tt
  else
    g <- get_heap (cx_gc c) ;;
    if exception_count g =? 0 then stm_ret tt
    else
      marked <- wah_gc_step_mark ctx ;;
      if negb marked then stm_ret tt
      else
        sweep_heap (fun o => negb (wah_gc_marked o) && (obj_repr_id o =? WAH_TYPE_EXN)) (cx_gc c) ;;;
        upd_heap (cx_gc c) (gc_set_phase WAH_GC_PHASE_IDLE).

(** *** Polling *)
Definition wah_recompute_poll_flag (ctx : Z) : comp memory unit :=
  c <- get_ctx ctx ;;
  pending <- (if cx_gc c =? 0 then stm_ret false else g <- get_heap (cx_gc c) ;; stm_ret (gc_pending g)) ;;
  if (pending : bool) then put_ctx ctx (cx_set_flags true (cx_interrupt_flag c) c)
  else put_ctx ctx (cx_set_flags (cx_interrupt_flag c) (cx_interrupt_flag c) c).

(** The status is whether the activation yields. *)
Definition wah_poll_handler (ctx : Z) : comp memory bool :=
  c <- get_ctx ctx ;;
  if cx_interrupt_flag c then
    put_ctx ctx (cx_set_flags (cx_poll_flag c) false c) ;;;
    wah_recompute_poll_flag ctx ;;;
    stm_ret true
  else
    pending <- (if cx_gc c =? 0 then stm_ret false else g <- get_heap (cx_gc c) ;; stm_ret (gc_pending g)) ;;
    (if (pending : bool) then upd_heap (cx_gc c) (gc_set_pending false) ;;; wah_gc_step ctx else stm_ret tt) ;;;
    wah_recompute_poll_flag ctx ;;;
    stm_ret false.
End Collector.
