(* ===== verification/GcGraph.v ===== *)
(** * The object graph

    The references of an object, reachability from the roots, the lists of the objects of
    a heap, and the lemmas on tagged headers that marking and sweeping rely on. *)

From S2P Require Import Prelude Base Types Bytes Alloc ModuleEnv Analyze Heap GcRoots Gc.
From stdpp Require Import gmap list.
From Stdlib Require Import Btauto.
#[local] Open Scope Z_scope.
#[local] Open Scope wah_scope.

(** ** Definitions *)

(** What an object is apart from its tags. *)
Definition untag (o : wah_gc_object_t) : wah_gc_object_t := set_next_tagged (wah_gc_next o) o.
Definition same_objs (O O' : gmap Z wah_gc_object_t) : Prop := forall a, untag <$> O !! a = untag <$> O' !! a.

(** The objects linked from the address [a], in order. *)
Fixpoint chain (O : gmap Z wah_gc_object_t) (a : Z) (l : list Z) : Prop :=
  match l with
  | [] => a = 0
  | x :: l' => a = x /\ x <> 0 /\ exists o, O !! x = Some o /\ chain O (wah_gc_next o) l'
  end.

(** The header a reference leads to. *)
Definition target (r : Z) : option Z :=
  if (r =? 0) || wah_ref_is_i31 r || (wah_gc_header r =? 0) then None else Some (wah_gc_header r).

Section Graph.
Context (mods : Z -> option wah_module_env) (fallback : Z).

(** The references of an exception, a struct, an array: those its type says, in order. *)
Fixpoint value_refs (o : wah_gc_object_t) (n : nat) (value_count i : Z) : option (list Z) :=
  match n with
  | O => Some []
  | S n' =>
      t ← wah_exception_value_type o value_count i;
      rs ← (if WAH_TYPE_IS_REF t then r ← wah_exception_get_ref o i; Some [r] else Some []);
      rest ← value_refs o n' value_count (i + 1);
      Some (rs ++ rest)
  end.
Definition word_at (o : wah_gc_object_t) (off : Z) : option (list Z) :=
  r ← wah_read_u64_le (payload o) off; Some [r].
Fixpoint field_refs (o : wah_gc_object_t) (fs : list wah_repr_field_t) : option (list Z) :=
  match fs with
  | [] => Some []
  | f :: fs' =>
      rs ← (if wah_repr_field_is_ref f then word_at o (fld_offset f) else Some []);
      rest ← field_refs o fs';
      Some (rs ++ rest)
  end.
Fixpoint elem_refs (o : wah_gc_object_t) (n : nat) (elem_size offset i : Z) : option (list Z) :=
  match n with
  | O => Some []
  | S n' =>
      rs ← word_at o (sizeof_wah_gc_array_body_t + u32 (i * elem_size) + offset);
      rest ← elem_refs o n' elem_size offset (i + 1);
      Some (rs ++ rest)
  end.

(** [None] is an object whose contents do not fit its type. *)
Definition object_refs (o : wah_gc_object_t) : option (list Z) :=
  if obj_repr_id o =? WAH_TYPE_EXN then
    n ← exception_value_count o; value_refs o (Z.to_nat n) n 0
  else if obj_repr_id o <? 0 then Some []
  else
    obj_mod ← mods (if negb (obj_module o =? 0) then obj_module o else fallback);
    match wah_repr_info_get (env_types obj_mod) (obj_repr_id o) with
    | None => Some []
    | Some info =>
        match repr_type info, repr_fields info with
        | WAH_REPR_STRUCT, fs => field_refs o fs
        | WAH_REPR_ARRAY, [] => Some []
        | WAH_REPR_ARRAY, f :: _ =>
            if wah_repr_field_is_ref f then
              length ← wah_read_u32_le (payload o) 0;
              elem_refs o (Z.to_nat length) (repr_size info) (fld_offset f) 0
            else Some []
        end
    end.

(** [y] is the target of a reference of [o]. *)
Definition refers (o : wah_gc_object_t) (y : Z) : Prop :=
  exists rs r, object_refs o = Some rs /\ r ∈ rs /\ target r = Some y.

(** The objects that the program can get to from the references [R]. *)
Inductive reach (O : gmap Z wah_gc_object_t) (R : list Z) : Z -> Prop :=
| reach_root r y : r ∈ R -> target r = Some y -> reach O R y
| reach_step x o y : reach O R x -> O !! x = Some o -> refers o y -> reach O R y.

(** What the program can get to exists and fits its type. *)
Definition sound (O : gmap Z wah_gc_object_t) (R : list Z) : Prop :=
  forall x, reach O R x -> exists o rs, O !! x = Some o /\ object_refs o = Some rs.
End Graph.

(** ** Theorems *)

(** *** Tags *)
Lemma land_tag_mask x : Z.land x 3 = x mod 4.
Proof. change 3 with (Z.ones 2). rewrite Z.land_ones by lia. done. Qed.
Lemma land_not_mask x : Z.land x (Z.lnot 3) = 4 * (x / 4).
Proof.
  rewrite <- Z.ldiff_land. change 3 with (Z.ones 2). rewrite Z.ldiff_ones_r by lia.
  rewrite Z.shiftr_div_pow2, Z.shiftl_mul_pow2 by lia. change (2 ^ 2) with 4. lia.
Qed.

Lemma tag_bit_mark i : 0 <= i -> Z.testbit WAH_GC_TAG_MARK i = (i =? 0).
Proof.
  intros. destruct (Z.eqb_spec i 0) as [->|]; [done|]. apply (testbit_high _ 1); [|lia].
  unfold WAH_GC_TAG_MARK. lia.
Qed.
Lemma tag_bit_aux i : 0 <= i -> Z.testbit WAH_GC_TAG_AUX i = (i =? 1).
Proof. intros. unfold WAH_GC_TAG_AUX. change 2 with (2 ^ 1). rewrite Z.pow2_bits_eqb by lia. by rewrite Z.eqb_sym. Qed.
Lemma tag_bit_mask i : 0 <= i -> Z.testbit WAH_GC_TAG_MASK i = (i =? 0) || (i =? 1).
Proof.
  intros. change WAH_GC_TAG_MASK with (Z.lor WAH_GC_TAG_MARK WAH_GC_TAG_AUX).
  by rewrite Z.lor_spec, tag_bit_mark, tag_bit_aux.
Qed.

Lemma land_single x t k : 0 <= k -> (forall i, 0 <= i -> Z.testbit t i = (i =? k)) ->
  negb (Z.land x t =? 0) = Z.testbit x k.
Proof.
  intros Hk Ht. destruct (Z.testbit x k) eqn:E.
  - destruct (Z.eqb_spec (Z.land x t) 0) as [E0|]; [|done].
    pose proof (f_equal (fun w => Z.testbit w k) E0) as Eb. simpl in Eb.
    by rewrite Z.land_spec, E, Ht, Z.eqb_refl, Z.bits_0 in Eb by lia.
  - replace (Z.land x t) with 0; [done|]. apply Z.bits_inj'. intros i Hi.
    rewrite Z.bits_0, Z.land_spec, Ht by lia. destruct (Z.eqb_spec i k) as [->|]; [by rewrite E|by rewrite andb_false_r].
Qed.
Lemma marked_bit o : wah_gc_marked o = Z.testbit (next_tagged o) 0.
Proof. apply land_single; [lia|apply tag_bit_mark]. Qed.
Lemma gray_bit o : wah_gc_gray o = Z.testbit (next_tagged o) 1.
Proof. apply land_single; [lia|apply tag_bit_aux]. Qed.

Ltac tag_bits :=
  repeat (rewrite ?Z.land_spec, ?Z.lor_spec, ?Z.lnot_spec by lia);
  rewrite ?tag_bit_mark, ?tag_bit_aux, ?tag_bit_mask by lia.

Lemma aligned_bit n i : n mod 4 = 0 -> i = 0 \/ i = 1 -> Z.testbit n i = false.
Proof.
  intros Hn Hi. rewrite (Z.div_mod n 4), Hn, Z.add_0_r by lia.
  change 4 with (2 ^ 2). rewrite Z.mul_comm, Z.mul_pow2_bits by lia. apply Z.testbit_neg_r. lia.
Qed.

Section Tags.
Context (o : wah_gc_object_t) (b : bool).

Lemma next_set_mark : wah_gc_next (wah_gc_set_mark o b) = wah_gc_next o.
Proof.
  unfold wah_gc_next, wah_gc_set_mark. simpl. apply Z.bits_inj'. intros i Hi.
  destruct b; tag_bits; destruct (Z.eqb_spec i 0) as [->|]; simpl; btauto.
Qed.
Lemma next_set_gray : wah_gc_next (wah_gc_set_gray o b) = wah_gc_next o.
Proof.
  unfold wah_gc_next, wah_gc_set_gray. simpl. apply Z.bits_inj'. intros i Hi.
  destruct b; tag_bits; destruct (Z.eqb_spec i 1) as [->|]; simpl; btauto.
Qed.
Lemma marked_set_mark : wah_gc_marked (wah_gc_set_mark o b) = b.
Proof. rewrite marked_bit. unfold wah_gc_set_mark. cbn [next_tagged set_next_tagged]. destruct b; tag_bits; cbn; btauto. Qed.
Lemma gray_set_gray : wah_gc_gray (wah_gc_set_gray o b) = b.
Proof. rewrite gray_bit. unfold wah_gc_set_gray. cbn [next_tagged set_next_tagged]. destruct b; tag_bits; cbn; btauto. Qed.
Lemma marked_set_gray : wah_gc_marked (wah_gc_set_gray o b) = wah_gc_marked o.
Proof. rewrite !marked_bit. unfold wah_gc_set_gray. cbn [next_tagged set_next_tagged]. destruct b; tag_bits; cbn; btauto. Qed.
Lemma gray_set_mark : wah_gc_gray (wah_gc_set_mark o b) = wah_gc_gray o.
Proof. rewrite !gray_bit. unfold wah_gc_set_mark. cbn [next_tagged set_next_tagged]. destruct b; tag_bits; cbn; btauto. Qed.
Lemma untag_set_mark : untag (wah_gc_set_mark o b) = untag o.
Proof. unfold untag. by rewrite next_set_mark. Qed.
Lemma untag_set_gray : untag (wah_gc_set_gray o b) = untag o.
Proof. unfold untag. by rewrite next_set_gray. Qed.

(** Links are multiples of 4, so that they leave the tags alone. *)
Lemma next_set_next n : n mod 4 = 0 -> wah_gc_next (wah_gc_set_next o n) = n.
Proof.
  intros Hn. unfold wah_gc_next, wah_gc_set_next. simpl.
  pose proof (aligned_bit n) as Hb.
  apply Z.bits_inj'. intros i Hi. tag_bits.
  destruct (Z.eqb_spec i 0) as [->|]; [rewrite Hb by (done || lia); simpl; btauto|].
  destruct (Z.eqb_spec i 1) as [->|]; [rewrite Hb by (done || lia); simpl; btauto|]. simpl. btauto.
Qed.
Lemma marked_set_next n : n mod 4 = 0 -> wah_gc_marked (wah_gc_set_next o n) = wah_gc_marked o.
Proof.
  intros Hn. rewrite !marked_bit. unfold wah_gc_set_next. cbn [next_tagged set_next_tagged]. tag_bits.
  rewrite aligned_bit by (done || lia). cbn. btauto.
Qed.
End Tags.

Lemma untag_next o : wah_gc_next (untag o) = wah_gc_next o.
Proof.
  unfold untag, wah_gc_next. simpl. change WAH_GC_TAG_MASK with 3. rewrite !land_not_mask.
  rewrite (Z.mul_comm 4 (next_tagged o / 4)), Z.div_mul by done. lia.
Qed.
Lemma untag_eq_next o o' : untag o = untag o' -> wah_gc_next o = wah_gc_next o'.
Proof. intros H. by rewrite <- untag_next, H, untag_next. Qed.
(** The references of an object do not depend on its header's link. *)
Lemma set_next_tagged_refs mods fb w o : object_refs mods fb (set_next_tagged w o) = object_refs mods fb o.
Proof.
  assert (Hv : forall n vc i, value_refs (set_next_tagged w o) n vc i = value_refs o n vc i).
  { induction n as [|n IH]; intros vc i; simpl; [done|]. rewrite IH. done. }
  assert (Hf : forall fs, field_refs (set_next_tagged w o) fs = field_refs o fs).
  { induction fs as [|f fs IH]; simpl; [done|]. rewrite IH. done. }
  assert (He : forall n e off i, elem_refs (set_next_tagged w o) n e off i = elem_refs o n e off i).
  { induction n as [|n IH]; intros e off i; simpl; [done|]. rewrite IH. done. }
  unfold object_refs. cbn [obj_repr_id obj_module set_next_tagged].
  destruct (obj_repr_id o =? WAH_TYPE_EXN).
  { unfold exception_value_count. simpl. destruct (wah_read_u32_le (payload o) 12); simpl; [by rewrite Hv|done]. }
  destruct (obj_repr_id o <? 0); [done|]. destruct (mods _) as [M|]; simpl; [|done].
  destruct (wah_repr_info_get _ _) as [info|]; [|done].
  destruct (repr_type info); [by rewrite Hf|]. destruct (repr_fields info) as [|f fs]; [done|].
  destruct (wah_repr_field_is_ref f); [|done]. destruct (wah_read_u32_le (payload o) 0); simpl; [by rewrite He|done].
Qed.
Lemma untag_eq_refs mods fb o o' : untag o = untag o' -> object_refs mods fb o = object_refs mods fb o'.
Proof.
  intros H. rewrite <- (set_next_tagged_refs mods fb (wah_gc_next o) o).
  fold (untag o). rewrite H. apply set_next_tagged_refs.
Qed.
Lemma untag_eq_refers mods fb o o' y : untag o = untag o' -> refers mods fb o y -> refers mods fb o' y.
Proof. unfold refers. intros H. by rewrite (untag_eq_refs mods fb _ _ H). Qed.
Lemma untag_set_next_tagged w o : untag o = untag (set_next_tagged w o) <-> wah_gc_next o = wah_gc_next (set_next_tagged w o).
Proof. destruct o. unfold untag, set_next_tagged, wah_gc_next. simpl. split; [by intros [= ->]|by intros ->]. Qed.

#[export] Instance same_objs_equiv : Equivalence same_objs.
Proof. split; [done|intros O O' H a; by rewrite H|intros O1 O2 O3 H1 H2 a; by rewrite H1]. Qed.

Lemma same_objs_Some O O' a o : same_objs O O' -> O !! a = Some o -> exists o', O' !! a = Some o' /\ untag o' = untag o.
Proof.
  intros H Ha. specialize (H a). rewrite Ha in H. simpl in H. destruct (O' !! a) as [o'|]; [|done].
  apply (inj Some) in H. by exists o'.
Qed.
Lemma same_objs_insert O a o o' : O !! a = Some o -> untag o' = untag o -> same_objs (<[a := o']> O) O.
Proof.
  intros Ha Ht b. destruct (decide (a = b)) as [<-|].
  - rewrite lookup_insert_eq, Ha. simpl. by rewrite Ht.
  - by rewrite lookup_insert_ne.
Qed.
Lemma same_objs_size O O' : same_objs O O' -> size O = size O'.
Proof.
  intros H. rewrite <- !(size_dom (D:=gset Z)). f_equal. apply set_eq. intros a. rewrite !elem_of_dom. specialize (H a).
  destruct (O !! a), (O' !! a); simpl in H; (split; intros [? ?]); by eauto || done.
Qed.

Lemma same_objs_chain O O' a l : same_objs O O' -> chain O a l -> chain O' a l.
Proof.
  intros H. revert a. induction l as [|x l IH]; intros a; simpl; [done|].
  intros (-> & Hx & o & Ho & Hl). destruct (same_objs_Some _ _ _ _ H Ho) as (o' & Ho' & Ht).
  split; [done|]. split; [done|]. exists o'. split; [done|]. rewrite (untag_eq_next _ _ Ht). by apply IH.
Qed.
Lemma same_objs_reach mods fb O O' R x : same_objs O O' -> reach mods fb O R x -> reach mods fb O' R x.
Proof.
  intros H. induction 1 as [r y Hr Ht|x o y _ IH Hx Hy]; [by eapply reach_root|].
  destruct (same_objs_Some _ _ _ _ H Hx) as (o' & Ho' & Ht).
  eapply reach_step; [done..|]. by eapply untag_eq_refers.
Qed.
Lemma same_objs_sound mods fb O O' R : same_objs O O' -> sound mods fb O R -> sound mods fb O' R.
Proof.
  intros H Hs x Hx. destruct (Hs x) as (o & rs & Ho & Hr); [by eapply same_objs_reach|].
  destruct (same_objs_Some _ _ _ _ H Ho) as (o' & Ho' & Ht). exists o', rs. split; [done|].
  by rewrite (untag_eq_refs _ _ _ _ Ht).
Qed.
#[export] Instance chain_proper : Proper (same_objs ==> eq ==> eq ==> iff) chain.
Proof. intros O O' H a ? <- l ? <-. split; apply same_objs_chain; [done|by symmetry]. Qed.
#[export] Instance reach_proper mods fb : Proper (same_objs ==> eq ==> eq ==> iff) (reach mods fb).
Proof. intros O O' H a ? <- l ? <-. split; apply same_objs_reach; [done|by symmetry]. Qed.
#[export] Instance sound_proper mods fb : Proper (same_objs ==> eq ==> iff) (sound mods fb).
Proof. intros O O' H a ? <-. split; apply same_objs_sound; [done|by symmetry]. Qed.

(** *** Lists of objects *)
Lemma chain_det O a l l' : chain O a l -> chain O a l' -> l = l'.
Proof.
  revert a l'. induction l as [|x l IH]; intros a [|y l']; simpl; [done|naive_solver|naive_solver|].
  intros (-> & Hx & o & Ho & Hl) (-> & _ & o' & Ho' & Hl'). simplify_eq. f_equal. by eapply IH.
Qed.
Lemma chain_app O a l1 l2 : chain O a (l1 ++ l2) -> exists b, chain O b l2.
Proof.
  revert a. induction l1 as [|x l1 IH]; intros a; simpl; [eauto|].
  intros (-> & _ & o & _ & Hl). by eapply IH.
Qed.
Lemma chain_NoDup O a l : chain O a l -> NoDup l.
Proof.
  revert a. induction l as [|x l IH]; intros a Hl; [constructor|].
  pose proof Hl as (-> & Hx & o & Ho & Hl'). constructor; [|by eapply IH].
  intros Hin. apply list_elem_of_split in Hin as (l1 & l2 & ->).
  destruct (chain_app O (wah_gc_next o) l1 (x :: l2) Hl') as (b & Hb).
  pose proof Hb as (-> & _). pose proof (chain_det _ _ _ _ Hl Hb) as E.
  apply (f_equal length) in E. simpl in E. rewrite length_app in E. simpl in E. lia.
Qed.
Lemma chain_elem O a l x : chain O a l -> x ∈ l -> x <> 0 /\ is_Some (O !! x).
Proof.
  revert a. induction l as [|y l IH]; intros a; simpl; [by intros _ ?%elem_of_nil|].
  intros (-> & Hy & o & Ho & Hl) [->|Hx]%elem_of_cons; [by split; [|exists o]|by eapply IH].
Qed.
Lemma chain_length O a l : chain O a l -> (length l <= size O)%nat.
Proof.
  intros Hl. rewrite <- size_dom. rewrite <- (size_list_to_set (C:=gset Z) l) by by eapply chain_NoDup.
  apply subseteq_size. intros x Hx%elem_of_list_to_set. apply elem_of_dom. by eapply chain_elem.
Qed.
