(* ===== verification/GcMarking.v ===== *)
(** * Marking visits what is reachable

    The tri-colour invariant of marking, in which an object that failed to enter the work
    list is gray until a scan of the heaps finds it, and that every part of the marking
    phase keeps it.  [drain] and [trace] end with their fuel. *)

From S2P Require Import Prelude Base Types Bytes Alloc ModuleEnv Analyze Heap GcRoots Gc Total GcGraph.
From stdpp Require Import gmap list.
#[local] Open Scope Z_scope.
#[local] Open Scope wah_scope.

(** ** Definitions *)

Definition marked_in (O : gmap Z wah_gc_object_t) (x : Z) : Prop := exists o, O !! x = Some o /\ wah_gc_marked o = true.
Definition gray_in (O : gmap Z wah_gc_object_t) (x : Z) : Prop := exists o, O !! x = Some o /\ wah_gc_gray o = true.

(** The number of objects that are not marked. *)
Definition white (O : gmap Z wah_gc_object_t) : nat := size (filter (fun p => wah_gc_marked p.2 = false) O).

(** Only objects and answers of the allocator differ. *)
Record only_objs (m m' : memory) : Prop := {
  oo_heaps : heaps m' = heaps m;
  oo_ctxs : ctxs m' = ctxs m;
  oo_slots : slots m' = slots m;
  oo_blocks : blocks m' = blocks m }.

(** The objects of the heaps [hs] are listed by [ls]. *)
Definition heap_lists (m : memory) (hs : list Z) (ls : list (list Z)) : Prop :=
  Forall2 (fun h l => exists g, heaps m !! h = Some g /\ chain (objs m) (all_objects g) l) hs ls.

Section Invariant.
Context (mods : Z -> option wah_module_env) (fb : Z) (m0 : memory) (R : list Z) (in_heap : Z -> Prop).

(** The invariant of marking that started from [m0] with the roots [R]: [E] are the objects
    being scanned, [G] those a scan for gray objects is yet to visit. *)
Record marking_inv (E G : Z -> Prop) (s : marking) : Prop := {
  mi_only : only_objs m0 s.1;
  mi_same : same_objs (objs m0) (objs s.1);
  mi_module : wl_module s.2 = fb;
  mi_sound x : marked_in (objs s.1) x -> reach mods fb (objs m0) R x \/ marked_in (objs m0) x;
  mi_black x o y : reach mods fb (objs m0) R x -> objs s.1 !! x = Some o -> wah_gc_marked o = true ->
    x ∉ wl_items s.2 -> wah_gc_gray o = false -> ~ E x -> refers mods fb o y -> marked_in (objs s.1) y;
  mi_NoDup : NoDup (wl_items s.2);
  mi_items x : x ∈ wl_items s.2 -> marked_in (objs s.1) x /\ reach mods fb (objs m0) R x;
  mi_gray x : gray_in (objs s.1) x -> in_heap x ->
    marked_in (objs s.1) x /\ (wl_overflow s.2 = true \/ G x) }.

(** Progress: what is marked stays so, and the work left does not grow. *)
Record marks_more (s s' : marking) : Prop := {
  mm_marked x : marked_in (objs s.1) x -> marked_in (objs s'.1) x;
  mm_work : (2 * white (objs s'.1) + length (wl_items s'.2) <= 2 * white (objs s.1) + length (wl_items s.2))%nat;
  mm_white : (white (objs s'.1) <= white (objs s.1))%nat;
  mm_overflow : wl_overflow s'.2 = true -> wl_overflow s.2 = true \/ (white (objs s'.1) < white (objs s.1))%nat;
  mm_gray x : gray_in (objs s'.1) x -> gray_in (objs s.1) x \/ ~ marked_in (objs s.1) x }.
End Invariant.

(** ** Theorems *)

Lemma mark_refs_app rs1 rs2 s : mark_refs (rs1 ++ rs2) s = (mark_refs rs1 ;;; mark_refs rs2) s.
Proof.
  revert s. induction rs1 as [|r rs1 IH]; intros s; simpl; [done|].
  unfold stm_bind at 1 2 3. destruct (wah_gc_mark_ref r s) as [[u|e|] s']; [|done..].
  rewrite IH. done.
Qed.

(** *** A scan marks the references of the object *)
Lemma scan_word o off rs s : word_at o off = Some rs -> scan_ref o off s = mark_refs rs s.
Proof.
  unfold word_at, scan_ref. intros H. destruct (wah_read_u64_le (payload o) off) as [r|]; simplify_eq/=.
  unfold stm_bind at 1, stm_opt. destruct (Z.eqb_spec r 0) as [->|]; simpl; unfold stm_bind; simpl; [done|].
  by destruct (wah_gc_mark_ref r s) as [[[]|e|] s'].
Qed.

Lemma then_mark c rs rest s : (forall s, c s = mark_refs rs s) ->
  (c ;;; mark_refs rest) s = mark_refs (rs ++ rest) s.
Proof. intros Hc. rewrite mark_refs_app. unfold stm_bind. by rewrite Hc. Qed.

Lemma then_eq {A B} (c : comp marking A) (f g : A -> comp marking B) s : (forall a s, f a s = g a s) -> stm_bind f c s = stm_bind g c s.
Proof. intros H. unfold stm_bind. destruct (c s) as [[a|e|] s']; [apply H|done..]. Qed.

Lemma mark_one r s : (if (r =? 0) || wah_ref_is_i31 r then stm_ret tt else wah_gc_mark_ref r) s = mark_refs [r] s.
Proof.
  simpl. unfold stm_bind, wah_gc_mark_ref. destruct ((r =? 0) || wah_ref_is_i31 r); [done|].
  by destruct (wah_gc_mark_object _ s) as [[[]|e|] s'].
Qed.

Lemma scan_values_refs o n vc i rs s : value_refs o n vc i = Some rs -> scan_values o n vc i s = mark_refs rs s.
Proof.
  revert i rs s. induction n as [|n IH]; intros i rs s; simpl; [by intros [= <-]|]. intros H.
  destruct (wah_exception_value_type o vc i) as [t|]; [|done]. simpl in H. unfold stm_bind at 1, stm_opt at 1.
  destruct (WAH_TYPE_IS_REF t); simpl in H |- *.
  - destruct (wah_exception_get_ref o i) as [r|]; [|done]. simpl in H.
    destruct (value_refs o n vc (i + 1)) as [rest|] eqn:E; simplify_eq/=.
    rewrite (then_eq _ _ (fun _ => mark_refs rest)) by (intros; by apply IH).
    apply (then_mark _ [r] rest s). apply mark_one.
  - destruct (value_refs o n vc (i + 1)) as [rest|] eqn:E; simplify_eq/=.
    unfold stm_bind, stm_ret. by apply IH.
Qed.
Lemma scan_fields_refs o fs rs s : field_refs o fs = Some rs -> scan_fields o fs s = mark_refs rs s.
Proof.
  revert rs s. induction fs as [|f fs IH]; intros rs s; simpl; [by intros [= <-]|]. intros H.
  destruct (wah_repr_field_is_ref f); simpl in H |- *.
  - destruct (word_at o (fld_offset f)) as [r|] eqn:Ew; [|done]. simpl in H.
    destruct (field_refs o fs) as [rest|] eqn:E; simplify_eq/=.
    rewrite (then_eq _ _ (fun _ => mark_refs rest)) by (intros; by apply IH).
    apply then_mark. intros. by apply scan_word.
  - destruct (field_refs o fs) as [rest|] eqn:E; simplify_eq/=. unfold stm_bind, stm_ret. by apply IH.
Qed.
Lemma scan_elems_refs o n esz off i rs s : elem_refs o n esz off i = Some rs -> scan_elems o n esz off i s = mark_refs rs s.
Proof.
  revert i rs s. induction n as [|n IH]; intros i rs s; simpl; [by intros [= <-]|]. intros H.
  destruct (word_at o _) as [r|] eqn:Ew; [|done]. simpl in H.
  destruct (elem_refs o n esz off (i + 1)) as [rest|] eqn:E; simplify_eq/=.
  rewrite (then_eq _ _ (fun _ => mark_refs rest)) by (intros; by apply IH).
  apply then_mark. intros. by apply scan_word.
Qed.

Section Marking.
Context (mods : Z -> option wah_module_env).

Lemma scan_object_refs x o rs s :
  objs s.1 !! x = Some o -> object_refs mods (wl_module s.2) o = Some rs ->
  wah_gc_scan_object mods x s = mark_refs rs s.
Proof.
  intros Hx Hr. destruct s as [m wl]. unfold wah_gc_scan_object, on_mem, get_obj, stm_opt. simpl in Hx, Hr.
  unfold stm_bind at 1. simpl. rewrite Hx. unfold object_refs in Hr.
  destruct (obj_repr_id o =? WAH_TYPE_EXN).
  { destruct (exception_value_count o) as [n|]; [|done]. simpl in Hr. unfold stm_bind. by apply scan_values_refs. }
  destruct (obj_repr_id o <? 0); [by simplify_eq|].
  unfold stm_bind at 1, stm_get. simpl. destruct (mods _) as [M|]; [|done]. simpl in Hr. unfold stm_bind at 1.
  destruct (wah_repr_info_get _ _) as [info|]; [|by simplify_eq].
  destruct (repr_type info); [by apply scan_fields_refs|].
  destruct (repr_fields info) as [|f fs]; [by simplify_eq|]. destruct (wah_repr_field_is_ref f); simpl; [|by simplify_eq].
  destruct (wah_read_u32_le (payload o) 0) as [n|]; [|done]. simpl in Hr. unfold stm_bind. by apply scan_elems_refs.
Qed.

(** *** The invariant *)
Lemma marks_more_refl s : marks_more s s.
Proof. split; auto. Qed.
Lemma marks_more_trans s1 s2 s3 : marks_more s1 s2 -> marks_more s2 s3 -> marks_more s1 s3.
Proof.
  intros [A1 A2 A3 A4 A5] [B1 B2 B3 B4 B5]. split; [auto|lia|lia|..].
  - intros H. destruct (B4 H) as [H2|]; [|right; lia]. destruct (A4 H2); [by left|right; lia].
  - intros x H. destruct (B5 x H) as [H2|H2]; [auto|]. right. naive_solver.
Qed.

Lemma white_insert O x o o' : O !! x = Some o -> wah_gc_marked o = false -> wah_gc_marked o' = true ->
  S (white (<[x := o']> O)) = white O.
Proof.
  intros Hx Ho Ho'. unfold white.
  replace (filter (fun p => wah_gc_marked p.2 = false) (<[x:=o']> O)) with (delete x (filter (fun p => wah_gc_marked p.2 = false) O)).
  - rewrite map_size_delete_Some by (exists o; by apply map_lookup_filter_Some).
    assert (size (filter (fun p => wah_gc_marked p.2 = false) O) <> 0)%nat; [|lia].
    intros E0%map_size_empty_inv. assert (H : filter (fun p => wah_gc_marked p.2 = false) O !! x = Some o) by by apply map_lookup_filter_Some.
    by rewrite E0, lookup_empty in H.
  - rewrite map_filter_insert_False by (simpl; congruence). by rewrite map_filter_delete.
Qed.
Lemma white_same O x o o' : O !! x = Some o -> wah_gc_marked o = wah_gc_marked o' -> white (<[x := o']> O) = white O.
Proof.
  intros Hx Ho. destruct (wah_gc_marked o) eqn:Em.
  - unfold white. rewrite map_filter_insert_False by (simpl; congruence). rewrite map_filter_delete.
    rewrite delete_id; [done|]. apply map_lookup_filter_None. right. intros o2 ?. simplify_eq. simpl. congruence.
  - unfold white. rewrite map_filter_insert_True by (simpl; congruence).
    apply map_size_insert_Some. exists o. by apply map_lookup_filter_Some.
Qed.

Lemma only_objs_refl m : only_objs m m.
Proof. done. Qed.
Lemma only_objs_trans m1 m2 m3 : only_objs m1 m2 -> only_objs m2 m3 -> only_objs m1 m3.
Proof. intros [] []. split; congruence. Qed.

Lemma marked_insert O x o o' z : O !! x = Some o -> (wah_gc_marked o = true -> wah_gc_marked o' = true) ->
  marked_in O z -> marked_in (<[x := o']> O) z.
Proof.
  intros Hx Hm (oz & Hz & Mz). destruct (decide (x = z)) as [<-|].
  - exists o'. rewrite lookup_insert_eq. simplify_eq. auto.
  - exists oz. by rewrite lookup_insert_ne.
Qed.

Section Inv.
Context (fb : Z) (m0 : memory) (R : list Z) (in_heap : Z -> Prop) {Hdec : forall x, Decision (in_heap x)}.
Notation inv := (marking_inv mods fb m0 R in_heap).
Notation live := (reach mods fb (objs m0) R).

(** An object becomes marked: it enters the work list, or it is gray. *)
Lemma marking_mark E G s s' y o o' :
  inv E G s -> objs s.1 !! y = Some o -> wah_gc_marked o = false -> live y ->
  only_objs s.1 s'.1 -> objs s'.1 = <[y := o']> (objs s.1) -> wl_module s'.2 = wl_module s.2 ->
  untag o' = untag o -> wah_gc_marked o' = true ->
  (wah_gc_gray o' = wah_gc_gray o /\ wl_items s'.2 = y :: wl_items s.2 /\ wl_overflow s'.2 = wl_overflow s.2 \/
   wah_gc_gray o' = true /\ wl_items s'.2 = wl_items s.2 /\ wl_overflow s'.2 = true) ->
  inv E G s' /\ marks_more s s' /\ marked_in (objs s'.1) y.
Proof.
  intros [I1 I2 I3 I4 I5 I6 I7 I8] Hy Hm Hl Hoo Ho Hmod Hu Hm' Hc.
  assert (Hnew : forall z, marked_in (objs s.1) z -> marked_in (objs s'.1) z).
  { intros z. rewrite Ho. apply (marked_insert _ _ o); [done|congruence]. }
  assert (Hyy : marked_in (objs s'.1) y). { exists o'. by rewrite Ho, lookup_insert_eq. }
  assert (Hold : forall z oz, objs s'.1 !! z = Some oz -> z <> y -> objs s.1 !! z = Some oz).
  { intros z oz. rewrite Ho. by intros; rewrite lookup_insert_ne in *. }
  assert (Hny : y ∉ wl_items s.2). { intros [(o2 & ? & ?) _]%I7. congruence. }
  assert (Hsub : forall z, z ∈ wl_items s'.2 -> z = y \/ z ∈ wl_items s.2).
  { intros z. destruct Hc as [(_ & -> & _)|(_ & -> & _)]; rewrite ?elem_of_cons; tauto. }
  assert (Hsup : forall z, z ∈ wl_items s.2 -> z ∈ wl_items s'.2).
  { intros z. destruct Hc as [(_ & -> & _)|(_ & -> & _)]; rewrite ?elem_of_cons; tauto. }
  pose proof (white_insert (objs s.1) y o o' Hy Hm Hm') as Hw. rewrite <- Ho in Hw.
  split; [split|split; [split|done]].
  - by eapply only_objs_trans.
  - rewrite Ho. etransitivity; [exact I2|]. symmetry. by apply (same_objs_insert _ _ o).
  - congruence.
  - intros z (oz & Hz & Mz). destruct (decide (z = y)) as [->|]; [by left|]. apply I4. exists oz. by auto.
  - intros x ox z Hlx Hx Mx Nx Gx Ex Rz. destruct (decide (x = y)) as [->|Hne].
    { rewrite Ho, lookup_insert_eq in Hx. simplify_eq.
      destruct Hc as [(_ & Hi & _)|(Hg & _)]; [|congruence]. rewrite Hi in Nx. set_solver. }
    apply Hnew. eapply I5; eauto.
  - destruct Hc as [(_ & -> & _)|(_ & -> & _)]; [by constructor|done].
  - intros z [->|Hz]%Hsub; [done|]. destruct (I7 z Hz). auto.
  - intros z (oz & Hz & Gz) Hh. destruct (decide (z = y)) as [->|Hne].
    { split; [done|]. rewrite Ho, lookup_insert_eq in Hz. simplify_eq.
      destruct Hc as [(Hg & _ & ->)|(_ & _ & ->)]; [|by left].
      apply I8; [|done]. exists o. split; [done|congruence]. }
    assert (Hgz : gray_in (objs s.1) z) by (exists oz; by auto).
    destruct (I8 z Hgz Hh) as [? [?|?]]; (split; [by auto|]); [|by right].
    left. destruct Hc as [(_ & _ & ->)|(_ & _ & ->)]; done.
  - done.
  - destruct Hc as [(_ & -> & _)|(_ & -> & _)]; simpl; lia.
  - lia.
  - destruct Hc as [(_ & _ & ->)|(_ & _ & ->)]; [by left|right; lia].
  - intros z (oz & Hz & Gz). destruct (decide (z = y)) as [->|Hne]; [|left; exists oz; by auto].
    right. intros (o2 & ? & ?). congruence.
Qed.

Lemma succeeds_malloc n e m : exists b a, succeeds (wah_malloc_c n e) m = (Ok b, set_more a m).
Proof.
  unfold succeeds, wah_malloc_c, alloc_answer, stm_ret, stm_err. case_bools; eauto.
  destruct (more m) as [|[] a]; eauto.
Qed.

(** The object that is marked, once its tags are changed and it is in the list or not. *)
Ltac marking_done I Ho Hm Hl :=
  match goal with |- _ /\ marks_more _ ?s' /\ _ => eapply (marking_mark _ _ _ s' _ _ _ I Ho Hm Hl) end;
  [done|done|done| | |]; rewrite ?untag_set_gray, ?marked_set_gray, ?gray_set_gray, ?gray_set_mark; [apply untag_set_mark|apply marked_set_mark|].

Lemma mark_object_runs E G s y o : inv E G s -> objs s.1 !! y = Some o -> live y -> y <> 0 ->
  runs (wah_gc_mark_object y) (fun _ s' => inv E G s' /\ marks_more s s' /\ marked_in (objs s'.1) y) s.
Proof.
  intros I Ho Hl Hy. unfold wah_gc_mark_object. destruct (Z.eqb_spec y 0); [done|].
  destruct s as [m wl]. simpl in Ho. unfold runs, stm_bind, on_mem, get_obj, stm_opt. simpl. rewrite Ho.
  destruct (wah_gc_marked o) eqn:Hm; simpl.
  { split; [done|]. split; [apply marks_more_refl|]. by exists o. }
  destruct (wl_cap wl <=? wl_count wl); [|simpl; marking_done I Ho Hm Hl; by left].
  set (cap := if negb (wl_cap wl =? 0) then u32 (wl_cap wl * 2) else 256).
  destruct (cap <? wl_cap wl); simpl.
  - rewrite lookup_insert_eq. simpl. rewrite insert_insert_eq. simpl. marking_done I Ho Hm Hl. by right.
  - destruct (succeeds_malloc cap sizeof_pointer (set_objs (<[y:=wah_gc_set_mark o true]> (objs m)) m)) as (b & a & ->).
    destruct b; simpl; [marking_done I Ho Hm Hl; by left|].
    rewrite lookup_insert_eq. simpl. rewrite insert_insert_eq. simpl. marking_done I Ho Hm Hl. by right.
Qed.

Lemma mark_ref_runs E G s r : sound mods fb (objs m0) R -> (forall y, target r = Some y -> live y) -> inv E G s ->
  runs (wah_gc_mark_ref r)
       (fun _ s' => inv E G s' /\ marks_more s s' /\ forall y, target r = Some y -> marked_in (objs s'.1) y) s.
Proof.
  intros Hs Hr I. unfold wah_gc_mark_ref, target in *.
  destruct ((r =? 0) || wah_ref_is_i31 r); simpl in Hr |- *; [by split; [|split; [apply marks_more_refl|]]|].
  destruct (Z.eqb_spec (wah_gc_header r) 0) as [E0|Hn].
  { rewrite E0. by split; [|split; [apply marks_more_refl|]]. }
  specialize (Hr _ eq_refl). destruct (Hs _ Hr) as (o & rs & Ho & _).
  destruct (same_objs_Some _ _ _ _ (mi_same _ _ _ _ _ _ _ _ I) Ho) as (o' & Ho' & _).
  eapply runs_mono; [by eapply mark_object_runs|]. intros _ s' (I' & M & Hm). split; [done|]. split; [done|].
  by intros y [= <-].
Qed.

Lemma mark_refs_runs E G s rs : sound mods fb (objs m0) R ->
  (forall r y, r ∈ rs -> target r = Some y -> live y) -> inv E G s ->
  runs (mark_refs rs)
       (fun _ s' => inv E G s' /\ marks_more s s' /\ forall r y, r ∈ rs -> target r = Some y -> marked_in (objs s'.1) y) s.
Proof.
  intros Hs. revert s. induction rs as [|r rs IH]; intros s Hr I; simpl.
  { split; [done|]. split; [apply marks_more_refl|]. by intros r y ?%elem_of_nil. }
  eapply runs_then; [apply (mark_ref_runs E G); [done| |done]; intros; eapply Hr; [left|done]|].
  intros _ s1 (I1 & M1 & H1). simpl.
  eapply runs_mono; [apply IH; [|done]; intros; eapply Hr; [by right|done]|]. intros _ s2 (I2 & M2 & H2).
  split; [done|]. split; [by eapply marks_more_trans|]. intros r' y [->|Hin]%elem_of_cons Ht; [|by eapply H2].
  apply M2. by apply H1.
Qed.

(** Once the references of [x] are marked, it needs no excuse. *)
Lemma inv_close E G s x : inv (fun z => E z \/ z = x) G s ->
  (forall o y, objs s.1 !! x = Some o -> refers mods fb o y -> marked_in (objs s.1) y) -> inv E G s.
Proof.
  intros [] Hx. split; try done. intros z o y Hl Ho Hm Hi Hg HE Hr.
  destruct (decide (z = x)) as [->|]; [by eapply Hx|]. eapply mi_black0; eauto. naive_solver.
Qed.

Lemma scan_object_runs E G s x : sound mods fb (objs m0) R -> inv (fun z => E z \/ z = x) G s -> live x ->
  runs (wah_gc_scan_object mods x) (fun _ s' => inv E G s' /\ marks_more s s') s.
Proof.
  intros Hs I Hl. destruct (Hs x Hl) as (o & rs & Ho & Hr).
  destruct (same_objs_Some _ _ _ _ (mi_same _ _ _ _ _ _ _ _ I) Ho) as (o' & Ho' & Hu).
  eapply runs_eq.
  { eapply scan_object_refs; [done|]. rewrite (mi_module _ _ _ _ _ _ _ _ I), (untag_eq_refs mods fb _ _ Hu). done. }
  eapply runs_mono; [eapply mark_refs_runs; [done| |done]|].
  - intros r y Hin Ht. eapply reach_step; [done..|]. by exists rs, r.
  - intros _ s' (I' & M & H). split; [|done]. eapply inv_close; [done|]. intros o2 y Ho2 (rs2 & r & Hr2 & Hin & Ht).
    destruct (same_objs_Some _ _ _ _ (mi_same _ _ _ _ _ _ _ _ I') Ho) as (o3 & Ho3 & Hu3).
    replace o3 with o2 in Hu3 by congruence. rewrite (untag_eq_refs mods fb _ _ Hu3) in Hr2.
    replace rs2 with rs in Hin by congruence. by eapply H.
Qed.

(** Taking [x] from the list, and no longer gray. *)
Lemma inv_pop E G m wl x rest cap : inv E G (m, wl) -> wl_items wl = x :: rest ->
  inv (fun z => E z \/ z = x) G (m, wl_set_items rest cap wl) /\ live x.
Proof.
  intros [I1 I2 I3 I4 I5 I6 I7 I8] Hi. simpl in *. rewrite Hi in *. split; [split; simpl; try done|].
  - intros z o y Hl Ho Hm Hn Hg HE. eapply I5; eauto. rewrite elem_of_cons. naive_solver.
  - by inversion I6.
  - intros z Hz. apply I7. by right.
  - apply (I7 x). left.
Qed.

Lemma inv_ungray E G s x o l : inv E (fun z => G z \/ z ∈ x :: l) s -> objs s.1 !! x = Some o ->
  inv (fun z => E z \/ z = x) (fun z => G z \/ z ∈ l)
      (set_objs (<[x := wah_gc_set_gray o false]> (objs s.1)) s.1, s.2).
Proof.
  intros [I1 I2 I3 I4 I5 I6 I7 I8] Hx.
  assert (Hm : forall z, marked_in (<[x := wah_gc_set_gray o false]> (objs s.1)) z <-> marked_in (objs s.1) z).
  { intros z. split; [|apply (marked_insert _ _ o); [done|by rewrite marked_set_gray]]. intros (oz & Hz & Mz).
    destruct (decide (x = z)) as [<-|]; [|exists oz; by rewrite lookup_insert_ne in Hz].
    rewrite lookup_insert_eq in Hz. simplify_eq. exists o. by rewrite marked_set_gray in Mz. }
  split; simpl; try done.
  - destruct I1. by split.
  - etransitivity; [exact I2|]. symmetry. apply (same_objs_insert _ _ o); [done|apply untag_set_gray].
  - intros z. rewrite Hm. apply I4.
  - intros z oz y Hl Hz Mz Ni Gz HE Hr. rewrite Hm. rewrite lookup_insert_ne in Hz by naive_solver. eapply I5; eauto.
  - intros z Hz. rewrite Hm. by apply I7.
  - intros z (oz & Hz & Gz) Hh. rewrite Hm. destruct (decide (x = z)) as [<-|Hne].
    { rewrite lookup_insert_eq in Hz. simplify_eq. by rewrite gray_set_gray in Gz. }
    rewrite lookup_insert_ne in Hz by done. destruct (I8 z) as [? [?|[?|?]]]; [by exists oz|done|..]; (split; [done|]); auto.
    right. right. set_solver.
Qed.

(** *** The loops *)
Lemma inv_weaken E E' G G' s : inv E G s -> (forall x, E x -> E' x) -> (forall x, G x -> G' x) -> inv E' G' s.
Proof.
  intros [I1 I2 I3 I4 I5 I6 I7 I8] HE HG. split; try done.
  - intros x o y ? ? ? ? ? HnE. eapply I5; eauto.
  - intros x Hg Hh. destruct (I8 x Hg Hh) as [? [?|?]]; auto.
Qed.

Lemma drain_runs E G fuel s : sound mods fb (objs m0) R -> inv E G s ->
  (2 * white (objs s.1) + length (wl_items s.2) <= fuel)%nat ->
  runs (drain mods fuel) (fun _ s' => inv E G s' /\ marks_more s s' /\ wl_items s'.2 = []) s.
Proof.
  intros Hs. revert s. induction fuel as [|fuel IH]; intros [m wl] I Hf; simpl in Hf |- *;
    apply runs_bind, runs_get; simpl; destruct (wl_items wl) as [|x rest] eqn:Ei; simpl in Hf.
  1,3: apply runs_ret; split; [done|]; by split; [apply marks_more_refl|].
  { lia. }
  destruct (inv_pop E G m wl x rest (wl_cap wl) I Ei) as (I' & Hl).
  set (s1 := (m, wl_set_items rest (wl_cap wl) wl)).
  apply runs_bind. change (runs (wah_gc_scan_object mods x ;;; drain mods fuel)
    (fun _ s' => inv E G s' /\ marks_more (m, wl) s' /\ wl_items s'.2 = []) s1).
  eapply runs_then; [by apply (scan_object_runs E G s1)|]. intros _ s2 (I2 & M2).
  assert (M1 : marks_more (m, wl) s1). { split; simpl; try done; [rewrite Ei; simpl; lia|by left|by left]. }
  pose proof (mm_work _ _ M2) as Hw. simpl in Hw.
  eapply runs_mono; [apply IH; [done|lia]|]. intros _ s3 (I3 & M3 & H3). split; [done|]. split; [|done].
  eapply marks_more_trans; [done|]. by eapply marks_more_trans.
Qed.

Lemma white_le_size O : (white O <= size O)%nat.
Proof. unfold white. apply map_size_filter. Qed.

Lemma scan_gray_runs E G s x l : sound mods fb (objs m0) R -> (forall z, in_heap z -> ~ marked_in (objs m0) z) ->
  inv E (fun z => G z \/ z ∈ x :: l) s -> in_heap x -> is_Some (objs s.1 !! x) ->
  runs (scan_gray mods x) (fun _ s' => inv E (fun z => G z \/ z ∈ l) s' /\ marks_more s s') s.
Proof.
  destruct s as [m wl]. intros Hs Hc I Hh [o Ho]. simpl in Ho. unfold scan_gray. unfold runs, stm_bind at 1, on_mem, get_obj, stm_opt. simpl. rewrite Ho.
  destruct (wah_gc_gray o) eqn:Eg; simpl; [|split; [|apply marks_more_refl]].
  - set (s1 := (set_objs (<[x:=wah_gc_set_gray o false]> (objs m)) m, wl)).
    pose proof (inv_ungray E G (m, wl) x o l I Ho) as I1.
    assert (Hl : live x).
    { destruct (mi_gray _ _ _ _ _ _ _ _ I x) as [Hm _]; [by exists o|done|].
      destruct (mi_sound _ _ _ _ _ _ _ _ I x Hm); [done|]. by destruct (Hc x). }
    assert (M1 : marks_more (m, wl) s1).
    { assert (Hw : white (objs s1.1) = white (objs m)) by (apply (white_same _ _ o); [done|by rewrite marked_set_gray]).
      split; simpl in *; rewrite ?Hw; auto.
      - intros z. apply (marked_insert _ _ o); [done|by rewrite marked_set_gray].
      - intros z (oz & Hz & Gz). left. destruct (decide (x = z)) as [<-|].
        + rewrite lookup_insert_eq in Hz. simplify_eq. by rewrite gray_set_gray in Gz.
        + exists oz. by rewrite lookup_insert_ne in Hz. }
    change (runs (wah_gc_scan_object mods x) (fun _ s' => inv E (fun z => G z \/ z ∈ l) s' /\ marks_more (m, wl) s') s1).
    eapply runs_mono; [by apply (scan_object_runs E (fun z => G z \/ z ∈ l))|]. intros _ s' (I' & M').
    split; [done|]. by eapply marks_more_trans.
  - destruct I as [I1 I2 I3 I4 I5 I6 I7 I8]. split; try done. intros z Hz Hhz.
    destruct (I8 z Hz Hhz) as [Hm [?|[?|[->|?]%elem_of_cons]]]; auto.
    destruct Hz as (oz & Hoz & Gz). simpl in Hoz. congruence.
Qed.

Lemma scan_gray_list_runs E G fuel s a l : sound mods fb (objs m0) R -> (forall z, in_heap z -> ~ marked_in (objs m0) z) ->
  inv E (fun z => G z \/ z ∈ l) s -> (forall z, z ∈ l -> in_heap z) -> chain (objs m0) a l -> (length l <= fuel)%nat ->
  runs (scan_gray_list mods fuel a) (fun _ s' => inv E G s' /\ marks_more s s') s.
Proof.
  intros Hs Hc. revert a l s. induction fuel as [|fuel IH]; intros a [|x l] s I Hin Ha Hf; simpl in Hf; try lia.
  1,2: simpl in Ha; subst a; simpl; (split; [|apply marks_more_refl]);
    eapply inv_weaken; [done|done|]; by intros x [|?%elem_of_nil].
  destruct Ha as (-> & Hx & o & Ho & Hl). simpl. destruct (Z.eqb_spec x 0); [done|].
  destruct (same_objs_Some _ _ _ _ (mi_same _ _ _ _ _ _ _ _ I) Ho) as (o1 & Ho1 & _).
  eapply runs_then; [apply (scan_gray_runs E G s x l Hs Hc I); [apply Hin; left|by exists o1]|].
  intros _ s1 (I1 & M1). destruct (same_objs_Some _ _ _ _ (mi_same _ _ _ _ _ _ _ _ I1) Ho) as (o2 & Ho2 & Hu2).
  apply runs_bind. unfold runs at 1, on_mem, get_obj, stm_opt. rewrite Ho2.
  rewrite <- (surjective_pairing s1). rewrite (untag_eq_next _ _ Hu2).
  eapply runs_mono; [apply (IH _ l s1 I1); [intros; apply Hin; by right|done|lia]|].
  intros _ s2 (I2 & M2). split; [done|]. by eapply marks_more_trans.
Qed.

Lemma scan_gray_heaps_runs E G hs ls s : sound mods fb (objs m0) R -> (forall z, in_heap z -> ~ marked_in (objs m0) z) ->
  heap_lists m0 hs ls -> (forall z, z ∈ concat ls -> in_heap z) -> inv E (fun z => G z \/ z ∈ concat ls) s ->
  runs (scan_gray_heaps mods hs) (fun _ s' => inv E G s' /\ marks_more s s') s.
Proof.
  intros Hs Hc Hl. revert s. induction Hl as [|h l hs ls (g & Hg & Hch) Hl IH]; intros s Hin I; simpl.
  { apply runs_ret. split; [|apply marks_more_refl]. eapply inv_weaken; [done|done|]. by intros x [|?%elem_of_nil]. }
  destruct s as [m wl]. apply runs_bind. unfold runs at 1, on_mem, get_heap, stm_opt. simpl.
  destruct (mi_only _ _ _ _ _ _ _ _ I) as [Oh _ _ _]. simpl in Oh. rewrite Oh, Hg. apply runs_bind, runs_get.
  eapply runs_then; [apply (scan_gray_list_runs E (fun z => G z \/ z ∈ concat ls) _ (m, wl) (all_objects g) l Hs Hc)|].
  - eapply inv_weaken; [done|done|]. intros z. simpl. rewrite elem_of_app. tauto.
  - intros z Hz. apply Hin. simpl. rewrite elem_of_app. by left.
  - done.
  - pose proof (same_objs_size _ _ (mi_same _ _ _ _ _ _ _ _ I)) as Hsz. simpl in Hsz.
    unfold object_fuel. simpl. rewrite <- Hsz. by eapply chain_length.
  - intros _ s1 (I1 & M1). eapply runs_mono; [apply IH; [|done]|].
    + intros z Hz. apply Hin. simpl. rewrite elem_of_app. by right.
    + intros _ s2 (I2 & M2). split; [done|]. by eapply marks_more_trans.
Qed.

Lemma trace_runs fuel hs ls s : sound mods fb (objs m0) R -> (forall z, in_heap z -> ~ marked_in (objs m0) z) ->
  heap_lists m0 hs ls -> (forall z, z ∈ concat ls <-> in_heap z) -> inv (fun _ => False) (fun _ => False) s ->
  (white (objs s.1) <= fuel)%nat -> (wl_overflow s.2 = true -> white (objs s.1) < fuel)%nat ->
  runs (trace mods fuel hs)
       (fun _ s' => inv (fun _ => False) (fun _ => False) s' /\ marks_more s s' /\
                    wl_items s'.2 = [] /\ wl_overflow s'.2 = false) s.
Proof.
  intros Hs Hc Hl Hin. revert s. induction fuel as [|fuel IH]; intros s I Hf Ho;
    cbn [trace]; apply runs_bind, runs_get;
    (eapply runs_then; [apply (drain_runs (fun _ => False) (fun _ => False) _ _ Hs I); pose proof (white_le_size (objs s.1)); unfold drain_fuel; lia|]);
    intros _ s1 (I1 & M1 & E1); apply runs_bind, runs_get;
    (destruct (wl_overflow s1.2) eqn:Ov; simpl; [|apply runs_ret; by rewrite Ov]);
    pose proof (mm_white _ _ M1); destruct (mm_overflow _ _ M1 Ov) as [Ho1|]; try (pose proof (Ho Ho1)); try lia.
  all: set (s2 := (s1.1, wl_set_overflow false s1.2)); apply runs_bind;
    change (runs (scan_gray_heaps mods hs ;;; trace mods fuel hs)
      (fun _ s' => inv (fun _ => False) (fun _ => False) s' /\ marks_more s s' /\ wl_items s'.2 = [] /\ wl_overflow s'.2 = false) s2).
  all: assert (I2 : inv (fun _ => False) (fun z => False \/ z ∈ concat ls) s2)
    by (destruct I1 as [J1 J2 J3 J4 J5 J6 J7 J8]; split; simpl; try done;
        intros z Hz Hhz; destruct (J8 z Hz Hhz) as [? _]; split; [done|]; right; right; by apply Hin).
  all: assert (M2 : marks_more s1 s2) by (split; simpl; auto; done).
  all: eapply runs_then; [apply (scan_gray_heaps_runs (fun _ => False) (fun _ => False) _ _ _ Hs Hc Hl); [intros; by apply Hin|exact I2]|].
  all: intros _ s3 (I3 & M3); pose proof (mm_white _ _ M3) as Hw; simpl in Hw.
  all: eapply runs_mono; [apply (IH s3 I3); [lia|intros Ho3; destruct (mm_overflow _ _ M3 Ho3); simpl in *; [done|lia]]|].
  all: intros _ s4 (I4 & M4 & H4); split; [done|]; split; [|done].
  all: eapply marks_more_trans; [exact M1|]; eapply marks_more_trans; [exact M2|]; by eapply marks_more_trans.
Qed.

(** At the end, the marked objects of the heaps are the reachable ones. *)
Lemma marked_exact s :
  sound mods fb (objs m0) R -> (forall z, in_heap z -> ~ marked_in (objs m0) z) ->
  (forall x o, live x -> ~ in_heap x -> objs m0 !! x = Some o -> object_refs mods fb o = Some []) ->
  inv (fun _ => False) (fun _ => False) s -> wl_items s.2 = [] -> wl_overflow s.2 = false ->
  (forall r y, r ∈ R -> target r = Some y -> marked_in (objs s.1) y) ->
  forall x, in_heap x -> marked_in (objs s.1) x <-> live x.
Proof.
  intros Hs Hc Hout I Hi Ho Hr x Hx. split.
  { intros Hm. destruct (mi_sound _ _ _ _ _ _ _ _ I x Hm); [done|]. by destruct (Hc x). }
  intros Hl. clear Hx. induction Hl as [r y Hin Ht|x o y Hl IH Hxo Hy]; [by eapply Hr|].
  destruct IH as (o' & Ho' & Hm').
  destruct (same_objs_Some _ _ _ _ (mi_same _ _ _ _ _ _ _ _ I) Hxo) as (o2 & Ho2 & Hu).
  replace o2 with o' in Hu by congruence.
  destruct (decide (in_heap x)) as [Hh|Hh].
  - eapply (mi_black _ _ _ _ _ _ _ _ I x o'); try done.
    + rewrite Hi. by intros ?%elem_of_nil.
    + destruct (wah_gc_gray o') eqn:Eg; [|done].
      destruct (mi_gray _ _ _ _ _ _ _ _ I x) as [_ [|[]]]; [by exists o'|done|congruence].
    + auto.
    + by eapply untag_eq_refers.
  - destruct Hy as (rs & r & Hrs & Hin & _). rewrite (Hout x o Hl Hh Hxo) in Hrs. injection Hrs as <-.
    by apply elem_of_nil in Hin.
Qed.
End Inv.
End Marking.
