(* ===== verification/LinkDomain.v ===== *)
(** * Contexts linked together (wah.h, [wah_gc_collect_domain], [wah_poison_context])

    Contexts refer to each other as providers ([linked_modules]) and consumers
    ([dependents]).  The collector works on all the contexts that may share references,
    and freeing a context poisons them. *)

From S2P Require Import Prelude Base Types Bytes Alloc ModuleEnv Analyze Heap GcRoots Gc Total.
From stdpp Require Import gmap list relations.
#[local] Open Scope Z_scope.
#[local] Open Scope wah_scope.

(** ** Definitions *)

(** [a] refers to the context [b]. *)
Definition linked (m : memory) (a b : Z) : Prop :=
  exists c, ctxs m !! a = Some c /\ b <> 0 /\
    (b ∈ lm_ctx <$> cx_linked_modules c \/ b ∈ cx_dependents c \/
     exists g, cx_gc c <> 0 /\ heaps m !! cx_gc c = Some g /\ b ∈ gc_dependents g).
(** The domain of [ctx] has no dangling pointers to contexts and heaps. *)
Definition domain_sound (m : memory) (ctx : Z) : Prop :=
  ctx <> 0 /\ forall a, rtc (linked m) ctx a ->
    exists c, ctxs m !! a = Some c /\ (cx_gc c <> 0 -> is_Some (heaps m !! cx_gc c)).

(** Only answers of the allocator are consumed. *)
Record only_more (m m' : memory) : Prop := {
  om_objs : objs m' = objs m;
  om_heaps : heaps m' = heaps m;
  om_ctxs : ctxs m' = ctxs m;
  om_slots : slots m' = slots m;
  om_blocks : blocks m' = blocks m;
  om_more : forall b, b ∈ more m' -> b ∈ more m }.
(** Code that may only fail as the allocator does, without other effects. *)
Definition tries {A} (c : comp memory A) (Q : A -> Prop) (m : memory) : Prop :=
  only_more m (c m).2 /\
  match (c m).1 with
  | Ok a => Q a
  | Err e => e = WAH_ERROR_OUT_OF_MEMORY /\ false ∈ more m
  | Fault => False
  end.

(** *** Dependents *)
Definition cx_set_dependents (ds : list Z) (cap : Z) (c : wah_exec_context_t) : wah_exec_context_t :=
  ExecContext (cx_module c) (cx_gc c) (cx_linked_modules c) ds cap (cx_is_instantiated c)
    (cx_may_share_refs c) (cx_poisoned c) (cx_state c) (cx_base_sp c) (cx_base_call_depth c)
    (cx_entry_result_count c) (cx_entry_fn c) (cx_frames c) (cx_sp c) (cx_globals c) (cx_tables c)
    (cx_pins c) (cx_pending_exception c) (cx_budget c) (cx_poll_flag c) (cx_interrupt_flag c).

Definition wah_register_dependent (provider consumer : Z) : comp memory unit :=
  c <- get_ctx provider ;;
  if bool_decide (consumer ∈ cx_dependents c) then stm_ret tt
  else
    cap <- on_more (wah_grow_array (zlen (cx_dependents c) + 1) sizeof_pointer (cx_dependents_cap c)) ;;
    put_ctx provider (cx_set_dependents (cx_dependents c ++ [consumer]) cap c).
Definition wah_unregister_dependent (provider consumer : Z) : comp memory unit :=
  upd_ctx provider (fun c => cx_set_dependents (swap_out consumer [] (cx_dependents c)) (cx_dependents_cap c) c).

(** *** Poisoning *)
Fixpoint each {S} (f : Z -> comp S unit) (l : list Z) : comp S unit :=
  match l with
  | [] => stm_ret tt
  | a :: l' => f a ;;; each f l'
  end.

(** [wah_poison_context] and [wah_poison_link_domain] call each other, at most as deep as
    there are contexts left to poison. *)
Definition poison_links (poison : Z -> comp memory unit) (ctx : Z) : comp memory unit :=
  c <- get_ctx ctx ;;
  each poison (lm_ctx <$> cx_linked_modules c) ;;;
  c <- get_ctx ctx ;;
  each poison (cx_dependents c).
Fixpoint wah_poison_context (fuel : nat) (ctx : Z) : comp memory unit :=
  if ctx =? 0 then stm_ret tt
  else
    c <- get_ctx ctx ;;
    if cx_poisoned c then stm_ret tt
    else
      gc_assert (negb (bool_decide (cx_state c = WAH_EXEC_RUNNING))) ;;;
      put_ctx ctx (cx_set_poisoned true c) ;;;
      match fuel with
      | O => gc_assert false
      | S fuel' => poison_links (wah_poison_context fuel') ctx
      end.
Definition wah_poison_link_domain (ctx : Z) : comp memory unit := fun m =>
  poison_links (wah_poison_context (size (ctxs m))) ctx m.

(** The contexts that [a] links to or that depend on it. *)
Definition poison_link (m : memory) (a b : Z) : Prop :=
  exists c, ctxs m !! a = Some c /\ b <> 0 /\ (b ∈ lm_ctx <$> cx_linked_modules c \/ b ∈ cx_dependents c).
Definition poisoned_in (m : memory) (a : Z) : Prop := exists c, ctxs m !! a = Some c /\ cx_poisoned c = true.
(** Reached from [a] through contexts that are not poisoned. *)
Inductive unpoisoned_path (m : memory) (a : Z) : Z -> Prop :=
| up_here : ~ poisoned_in m a -> unpoisoned_path m a a
| up_link b c : unpoisoned_path m a b -> poison_link m b c -> ~ poisoned_in m c -> unpoisoned_path m a c.

(** ** Theorems *)

(** *** The domain *)
Lemma only_more_refl m : only_more m m.
Proof. done. Qed.
Lemma only_more_trans m1 m2 m3 : only_more m1 m2 -> only_more m2 m3 -> only_more m1 m3.
Proof. intros [] []. split; try congruence. auto. Qed.
Lemma only_more_linked m m' a b : only_more m m' -> linked m' a b <-> linked m a b.
Proof. intros [_ Eh Ec _ _ _]. unfold linked. by rewrite Eh, Ec. Qed.

Section Tries.
Context {A B : Type}.
Lemma tries_ret (a : A) Q m : Q a -> tries (stm_ret a) Q m.
Proof. done. Qed.
Lemma tries_bind (c : comp memory A) (f : A -> comp memory B) P Q m :
  tries c P m -> (forall a m', only_more m m' -> P a -> tries (f a) Q m') -> tries (stm_bind f c) Q m.
Proof.
  unfold tries, stm_bind. intros [O1 H1] Hf. destruct (c m) as [[a|e|] m1]; simpl in *; [|by split|done].
  destruct (Hf a m1 O1 H1) as [O2 H2]. split; [by eapply only_more_trans|].
  destruct (f a m1) as [[b|e|] m2]; simpl in *; [done|destruct H2; split; [done|by apply O1]|done].
Qed.
Lemma tries_mono (c : comp memory A) (P Q : A -> Prop) m : tries c P m -> (forall a, P a -> Q a) -> tries c Q m.
Proof. unfold tries. intros [O1 H1] HQ. split; [done|]. destruct (c m) as [[a|e|] m1]; simpl in *; auto. Qed.
Lemma tries_opt (o : option A) a Q m : o = Some a -> Q a -> tries (stm_opt o) Q m.
Proof. by intros ->. Qed.
End Tries.

Lemma tries_malloc n : 0 <= n < 2 ^ 32 -> forall m, tries (on_more (wah_malloc_c n sizeof_pointer)) (fun _ => True) m.
Proof.
  intros Hn m. unfold on_more, wah_malloc_c, alloc_answer, sizeof_pointer, stm_ret, stm_err, SIZE_MAX, UINT64_MAX.
  destruct (_ || _); [by destruct m|]. destruct (Z.ltb_spec 18446744073709551615 (n * 8)); [lia|].
  destruct m as [mo mh mc ms mb [|[] a]]; simpl; (split; [split; simpl; try done|done || by split; [|left]]); intros b Hb; by right.
Qed.

Lemma domain_add_tries c d m :
  tries (wah_gc_domain_add c d)
        (fun d' => dm_list d' = if decide (c = 0 \/ c ∈ dm_list d) then dm_list d else dm_list d ++ [c]) m.
Proof.
  unfold wah_gc_domain_add. destruct (Z.eqb_spec c 0) as [->|Hc].
  { apply tries_ret. by rewrite decide_True by auto. }
  case_bool_decide as Hin; [apply tries_ret; by rewrite decide_True by auto|].
  rewrite decide_False by tauto. destruct (_ <=? _); [|by apply tries_ret].
  eapply tries_bind; [apply tries_malloc; apply u32_range|]. intros. by apply tries_ret.
Qed.

(** Adding the nonzero addresses of [cs] that are not in the list yet. *)
Definition added (cs l l' : list Z) : Prop :=
  (NoDup l -> NoDup l') /\ (exists e, l' = l ++ e) /\ forall x, x ∈ l' <-> x ∈ l \/ (x <> 0 /\ x ∈ cs).
Lemma added_trans cs1 cs2 l1 l2 l3 : added cs1 l1 l2 -> added cs2 l2 l3 -> added (cs1 ++ cs2) l1 l3.
Proof.
  intros (N1 & (e1 & ->) & H1) (N2 & (e2 & ->) & H2). split; [auto|]. split; [exists (e1 ++ e2); by rewrite app_assoc|].
  intros x. rewrite H2, H1, elem_of_app. tauto.
Qed.
Lemma added_one c l : added [c] l (if decide (c = 0 \/ c ∈ l) then l else l ++ [c]).
Proof.
  case_decide as H.
  - split; [done|]. split; [exists []; by rewrite app_nil_r|]. intros x. rewrite list_elem_of_singleton. naive_solver.
  - split; [intros; apply NoDup_app; split; [done|]; split; [intros ? ? ->%list_elem_of_singleton; tauto|apply NoDup_singleton]|].
    split; [by exists [c]|]. intros x. rewrite elem_of_app, !list_elem_of_singleton. naive_solver.
Qed.
Lemma domain_add_all_tries cs d m : tries (domain_add_all cs d) (fun d' => added cs (dm_list d) (dm_list d')) m.
Proof.
  revert d m. induction cs as [|c cs IH]; intros d m; simpl.
  { apply tries_ret. split; [done|]. split; [exists []; by rewrite app_nil_r|]. intros x. set_solver. }
  eapply tries_bind; [apply domain_add_tries|]. intros d1 m1 _ E1.
  eapply tries_mono; [apply IH|]. intros d2 H2. apply (added_trans [c] cs _ (dm_list d1)); [|done].
  rewrite E1. apply added_one.
Qed.

Section Domain.
Context (m : memory) (ctx : Z) (Hok : domain_sound m ctx).

(** The first [i] contexts of the list have been visited. *)
Record domain_inv (i : nat) (l : list Z) : Prop := {
  di_NoDup : NoDup l;
  di_start : exists l', l = ctx :: l';
  di_reached x : x ∈ l -> rtc (linked m) ctx x;
  di_visited j a b : (j < i)%nat -> l !! j = Some a -> linked m a b -> b ∈ l }.

Lemma domain_inv_size i l : domain_inv i l -> (length l <= size (ctxs m))%nat.
Proof.
  intros I. rewrite <- (size_dom (D:=gset Z)), <- (size_list_to_set (C:=gset Z) l) by apply I. apply subseteq_size.
  intros x Hx%elem_of_list_to_set. apply elem_of_dom. destruct (proj2 Hok x) as (c & ? & _); [by eapply di_reached|by exists c].
Qed.

Lemma links_tries a c d m' : only_more m m' -> ctxs m !! a = Some c -> (cx_gc c <> 0 -> is_Some (heaps m !! cx_gc c)) ->
  tries (d <- domain_add_all (lm_ctx <$> cx_linked_modules c) d ;;
         d <- domain_add_all (cx_dependents c) d ;;
         gds <- gc_dependents_of c ;;
         domain_add_all gds d)
    (fun d' => (NoDup (dm_list d) -> NoDup (dm_list d')) /\ (exists e, dm_list d' = dm_list d ++ e) /\
               forall x, x ∈ dm_list d' <-> x ∈ dm_list d \/ linked m a x) m'.
Proof.
  intros O1 Hc Hg.
  eapply tries_bind; [apply domain_add_all_tries|]. intros d1 m1 O2 A1.
  eapply tries_bind; [apply domain_add_all_tries|]. intros d2 m2 O3 A2.
  assert (O : only_more m m2) by (eapply only_more_trans; [eapply only_more_trans; [exact O1|exact O2]|exact O3]).
  eapply (tries_bind _ _ (fun gds => forall b, b ∈ gds <-> exists g, cx_gc c <> 0 /\ heaps m !! cx_gc c = Some g /\ b ∈ gc_dependents g)).
  { unfold gc_dependents_of. destruct (Z.eqb_spec (cx_gc c) 0) as [E0|E0].
    - apply tries_ret. intros b. rewrite elem_of_nil. naive_solver.
    - destruct (Hg E0) as [g Eg]. unfold tries, stm_bind, get_heap, stm_opt. rewrite (om_heaps _ _ O), Eg. simpl.
      split; [apply only_more_refl|]. intros b. split; [intros; by exists g|].
      intros (g' & _ & E & Hb). replace g with g' by congruence. done. }
  intros gds m3 _ Hgds. eapply tries_mono; [apply domain_add_all_tries|]. intros d3 A3. simpl in A3.
  destruct (added_trans _ _ _ _ _ (added_trans _ _ _ _ _ A1 A2) A3) as (N & P & H). split; [done|]. split; [done|].
  intros x. rewrite H, !elem_of_app, Hgds. unfold linked. rewrite Hc. naive_solver.
Qed.

Lemma domain_loop_tries fuel i d m' : only_more m m' -> domain_inv i (dm_list d) -> (i <= length (dm_list d))%nat ->
  (size (ctxs m) <= fuel + i)%nat ->
  tries (domain_loop fuel (Z.of_nat i) d) (fun d' => domain_inv (length (dm_list d')) (dm_list d')) m'.
Proof.
  revert i d m'. induction fuel as [|fuel IH]; intros i d m' O I Hi Hf; simpl; unfold zlen;
    destruct (Z.leb_spec (Z.of_nat (length (dm_list d))) (Z.of_nat i)).
  1,3: apply tries_ret; by replace (length (dm_list d)) with i by lia.
  { pose proof (domain_inv_size _ _ I). lia. }
  destruct (lookup_lt_is_Some_2 (dm_list d) i) as [a Ha]; [lia|].
  destruct (proj2 Hok a) as (c & Hc & Hg); [eapply di_reached; [done|by eapply list_elem_of_lookup_2]|].
  eapply tries_bind; [eapply (tries_opt _ a (fun a' => a' = a)); [by rewrite zget_of_nat|done]|].
  intros a' m1 O1 Ea. cbv beta in Ea. subst a'.
  assert (Om : only_more m m1) by by eapply only_more_trans.
  eapply (tries_bind _ _ (fun c' => c' = c)).
  { unfold tries, get_ctx, stm_opt. rewrite (om_ctxs _ _ Om), Hc. by split. }
  intros c' m2 O2 Ec. cbv beta in Ec. subst c'. assert (Om2 : only_more m m2) by by eapply only_more_trans.
  pose proof (links_tries a c d m2 Om2 Hc Hg) as L. unfold tries, stm_bind in L |- *.
  destruct (domain_add_all (lm_ctx <$> cx_linked_modules c) d m2) as [[d1|e|] m3]; [|done..].
  destruct (domain_add_all (cx_dependents c) d1 m3) as [[d2|e|] m4]; [|done..].
  destruct (gc_dependents_of c m4) as [[gds|e|] m5]; [|done..].
  destruct (domain_add_all gds d2 m5) as [[d3|e|] m6]; [|done..]. simpl in L |- *.
  destruct L as [O6 (N & (e & E) & H6)].
  replace (Z.of_nat i + 1) with (Z.of_nat (S i)) by lia.
  destruct (IH (S i) d3 m6) as [O7 H7]; [by eapply only_more_trans| | | |].
  - destruct I as [I1 [l' I2] I3 I4]. split; [auto|exists (l' ++ e); by rewrite E, I2|..].
    + intros x [Hx|Hx]%H6; [auto|]. eapply rtc_r; [|exact Hx]. apply I3. by eapply list_elem_of_lookup_2.
    + intros j a' b Hj Ha' Hb. apply H6. destruct (decide (j = i)) as [->|].
      * right. rewrite E, lookup_app_l in Ha' by lia. by simplify_eq.
      * left. eapply (I4 j); [lia| |done]. rewrite E, lookup_app_l in Ha' by lia. done.
  - rewrite E, length_app. lia.
  - lia.
  - split; [by eapply only_more_trans|]. destruct (domain_loop _ _ _ m6) as [[d4|e4|] m7]; simpl in *; [done| |done].
    destruct H7 as [-> Hm]. split; [done|]. by apply O6.
Qed.

Lemma collect_domain_tries :
  tries (wah_gc_collect_domain ctx)
        (fun D => NoDup D /\ (exists D', D = ctx :: D') /\ forall a, a ∈ D <-> rtc (linked m) ctx a) m.
Proof.
  unfold wah_gc_collect_domain. eapply tries_bind; [apply domain_add_tries|]. intros d m1 O1 E1. simpl in E1.
  rewrite decide_False in E1 by (rewrite elem_of_nil; destruct Hok; tauto).
  eapply (tries_bind _ _ (fun m2 => m2 = m1)); [by split|]. intros m' m2 O2 Em. cbv beta in Em. subst m'.
  eapply tries_bind.
  - apply (domain_loop_tries _ 0); [by eapply only_more_trans| |lia|].
    + rewrite E1. split; [apply NoDup_singleton|by exists []|by intros x ->%list_elem_of_singleton|lia].
    + rewrite (om_ctxs _ _ O1). lia.
  - intros d' m3 _ [I1 I2 I3 I4]. apply tries_ret. split; [done|]. split; [done|]. intros a. split; [apply I3|].
    intros Ha. assert (Hs : ctx ∈ dm_list d') by (destruct I2 as [l' ->]; left).
    clear - Ha Hs I4. induction Ha as [x|x y z Hxy _ IH]; [done|]. apply IH.
    rename Hs into Hx.
    apply list_elem_of_lookup_1 in Hx as [j Hj]. eapply I4; [by eapply lookup_lt_Some|done|done].
Qed.
End Domain.

Lemma collect_domain_run m ctx r m' : domain_sound m ctx -> wah_gc_collect_domain ctx m = (r, m') ->
  only_more m m' /\
  match r with
  | Ok D => NoDup D /\ (exists D', D = ctx :: D') /\ forall a, a ∈ D <-> rtc (linked m) ctx a
  | Err e => e = WAH_ERROR_OUT_OF_MEMORY /\ false ∈ more m
  | Fault => False
  end.
Proof. intros Hok Hr. pose proof (collect_domain_tries m ctx Hok) as H. unfold tries in H. by rewrite Hr in H. Qed.

(** C39. [wah_gc_collect_domain] collects every context that links and dependents, of
    contexts and of heaps, lead to from [ctx], each once and [ctx] first; it changes
    nothing else, and it only fails when an allocation does. *)
Theorem wah_gc_collect_domain_exact m ctx : domain_sound m ctx ->
  let '(r, m') := wah_gc_collect_domain ctx m in
  only_more m m' /\
  match r with
  | Ok D => NoDup D /\ (exists D', D = ctx :: D') /\ forall a, a ∈ D <-> rtc (linked m) ctx a
  | Err e => e = WAH_ERROR_OUT_OF_MEMORY /\ false ∈ more m
  | Fault => False
  end.
Proof.
  intros Hok. destruct (wah_gc_collect_domain ctx m) as [r m'] eqn:E. by apply (collect_domain_run m ctx).
Qed.

(** *** Poisoning *)
Definition same_ctxs (m m' : memory) : Prop :=
  forall a, cx_set_poisoned false <$> ctxs m !! a = cx_set_poisoned false <$> ctxs m' !! a.
Definition healthy (m : memory) : nat := size (filter (fun p => cx_poisoned p.2 = false) (ctxs m)).
(** Links from the contexts to poison lead somewhere, and none of these is running. *)
Definition poison_sound (m : memory) (start : Z -> Prop) : Prop :=
  (forall a, start a -> a <> 0 -> is_Some (ctxs m !! a)) /\
  forall a x, start a -> unpoisoned_path m a x ->
    (forall b, poison_link m x b -> is_Some (ctxs m !! b)) /\
    forall c, ctxs m !! x = Some c -> cx_state c <> WAH_EXEC_RUNNING.

Section Poison.
Context (m0 : memory) (start : Z -> Prop) (Hok : poison_sound m0 start).
Notation doomed := (fun x => exists a, start a /\ unpoisoned_path m0 a x).

Record poison_inv (m : memory) : Prop := {
  pi_same : same_ctxs m0 m;
  pi_old x : poisoned_in m0 x -> poisoned_in m x;
  pi_new x : poisoned_in m x -> poisoned_in m0 x \/ doomed x }.
(** What [m'] poisons in addition to [m], together with its links. *)
Record poisons (m m' : memory) : Prop := {
  po_ext x : poisoned_in m x -> poisoned_in m' x;
  po_links x b : poisoned_in m' x -> ~ poisoned_in m x -> poison_link m0 x b -> poisoned_in m' b;
  po_healthy : (healthy m' <= healthy m)%nat }.

Instance poisoned_dec m x : Decision (poisoned_in m x).
Proof.
  unfold poisoned_in. destruct (ctxs m !! x) as [c|]; [|right; naive_solver].
  destruct (cx_poisoned c) eqn:E; [left; naive_solver|right; intros (? & ? & ?); congruence].
Defined.

Lemma poisons_refl m : poisons m m.
Proof. split; auto; done. Qed.
Lemma poisons_trans m1 m2 m3 : poisons m1 m2 -> poisons m2 m3 -> poisons m1 m3.
Proof.
  intros [A1 A2 A3] [B1 B2 B3]. split; [auto| |lia]. intros x b H3 H1 Hb.
  destruct (decide (poisoned_in m2 x)); [apply B1; by eapply A2|by eapply B2].
Qed.

Lemma same_ctxs_Some m m' a c : same_ctxs m m' -> ctxs m !! a = Some c ->
  exists c', ctxs m' !! a = Some c' /\ cx_set_poisoned false c' = cx_set_poisoned false c.
Proof.
  intros H Ha. specialize (H a). rewrite Ha in H. simpl in H. destruct (ctxs m' !! a) as [c'|]; [|done].
  apply (inj Some) in H. by exists c'.
Qed.
Lemma same_but_poison c c' : cx_set_poisoned false c' = cx_set_poisoned false c ->
  cx_linked_modules c' = cx_linked_modules c /\ cx_dependents c' = cx_dependents c /\ cx_state c' = cx_state c.
Proof. destruct c, c'. unfold cx_set_poisoned. cbn. intros H. by injection H as -> -> -> -> -> -> -> -> -> -> -> -> -> -> -> -> -> -> -> -> ->. Qed.

(** A context to poison: NULL, poisoned from the start, or on a path. *)
Definition candidate (x : Z) : Prop := x = 0 \/ is_Some (ctxs m0 !! x) /\ (poisoned_in m0 x \/ doomed x).

Lemma each_runs f cs m : poison_inv m -> Forall candidate cs ->
  (forall x m1, poison_inv m1 -> (healthy m1 <= healthy m)%nat -> candidate x ->
     runs (f x) (fun _ m2 => poison_inv m2 /\ poisons m1 m2 /\ (x <> 0 -> poisoned_in m2 x)) m1) ->
  runs (each f cs) (fun _ m' => poison_inv m' /\ poisons m m' /\ forall x, x ∈ cs -> x <> 0 -> poisoned_in m' x) m.
Proof.
  intros I Hc. revert m I. induction Hc as [|x cs Hx Hcs IH]; intros m I Hf; simpl.
  { apply runs_ret. split; [done|]. split; [apply poisons_refl|]. by intros x ?%elem_of_nil. }
  eapply runs_then; [by apply Hf|]. intros _ m1 (I1 & P1 & H1).
  eapply runs_mono; [apply (IH m1 I1)|].
  - intros y m2 I2 Hh Hy. apply Hf; [done| |done]. pose proof (po_healthy _ _ P1). lia.
  - intros _ m2 (I2 & P2 & H2). split; [done|]. split; [by eapply poisons_trans|].
    intros y [->|Hy]%elem_of_cons Hn; [apply P2; auto|auto].
Qed.

Lemma link_candidate x y c : doomed x -> ctxs m0 !! x = Some c ->
  y ∈ lm_ctx <$> cx_linked_modules c \/ y ∈ cx_dependents c -> candidate y.
Proof.
  intros (a & Ha & Hp) Hc Hy. destruct (decide (y = 0)) as [->|Hn]; [by left|]. right.
  assert (L : poison_link m0 x y) by by exists c.
  split; [by eapply (proj2 Hok)|]. destruct (decide (poisoned_in m0 y)); [by left|right].
  exists a. split; [done|]. by eapply up_link.
Qed.

(** The links of [x], which is on a path. *)
Lemma poison_links_runs f x m : poison_inv m -> doomed x -> is_Some (ctxs m0 !! x) ->
  (forall y m1, poison_inv m1 -> (healthy m1 <= healthy m)%nat -> candidate y ->
     runs (f y) (fun _ m2 => poison_inv m2 /\ poisons m1 m2 /\ (y <> 0 -> poisoned_in m2 y)) m1) ->
  runs (poison_links f x)
       (fun _ m' => poison_inv m' /\ poisons m m' /\ forall b, poison_link m0 x b -> poisoned_in m' b) m.
Proof.
  intros I Hx [c Hc] Hf. unfold poison_links, get_ctx.
  destruct (same_ctxs_Some _ _ _ _ (pi_same _ I) Hc) as (c1 & Hc1 & (El1 & _)%same_but_poison).
  apply runs_bind. eapply runs_opt; [done|]. rewrite El1.
  eapply runs_then; [apply (each_runs f _ m I); [|done]|].
  { apply Forall_forall. intros y Hy. apply (link_candidate x y c Hx Hc); by left. }
  intros _ m1 (I1 & P1 & H1).
  destruct (same_ctxs_Some _ _ _ _ (pi_same _ I1) Hc) as (c2 & Hc2 & (_ & Ed2 & _)%same_but_poison).
  apply runs_bind. eapply runs_opt; [done|]. rewrite Ed2.
  eapply runs_mono; [apply (each_runs f _ m1 I1)|].
  - apply Forall_forall. intros y Hy. apply (link_candidate x y c Hx Hc); by right.
  - intros y m3 I3 Hh Hy. apply Hf; [done| |done]. pose proof (po_healthy _ _ P1). lia.
  - intros _ m2 (I2 & P2 & H2). split; [done|]. split; [by eapply poisons_trans|].
    intros b (c' & Hc' & Hb & Hor). replace c' with c in Hor by congruence.
    destruct Hor; [apply P2; by apply H1|by apply H2].
Qed.

(** Poisoning one more context. *)
Definition poison_one (x : Z) (c : wah_exec_context_t) (m : memory) : memory :=
  set_ctxs (<[x := cx_set_poisoned true c]> (ctxs m)) m.
Lemma poison_one_inv x c m : poison_inv m -> ctxs m !! x = Some c -> cx_poisoned c = false -> doomed x ->
  poison_inv (poison_one x c m) /\ S (healthy (poison_one x c m)) = healthy m /\
  forall y, poisoned_in (poison_one x c m) y <-> y = x \/ poisoned_in m y.
Proof.
  intros [I1 I2 I3] Hx Hp Hd.
  assert (Hiff : forall y, poisoned_in (poison_one x c m) y <-> y = x \/ poisoned_in m y).
  { intros y. unfold poisoned_in, poison_one. simpl. destruct (decide (x = y)) as [<-|Hne].
    - rewrite lookup_insert_eq. split; [by left|]. intros _. by eexists.
    - rewrite lookup_insert_ne by done. naive_solver. }
  split; [split|split; [|done]].
  - intros a. unfold poison_one. simpl. rewrite (I1 a). destruct (decide (x = a)) as [<-|Hne].
    + rewrite lookup_insert_eq, Hx. done.
    + by rewrite lookup_insert_ne.
  - intros y Hy. apply Hiff. auto.
  - intros y [->|Hy]%Hiff; auto.
  - unfold healthy, poison_one. simpl.
    rewrite map_filter_insert_False by (simpl; done). rewrite map_filter_delete.
    assert (Hin : filter (fun p => cx_poisoned p.2 = false) (ctxs m) !! x = Some c) by by apply map_lookup_filter_Some.
    rewrite map_size_delete_Some by by exists c.
    assert (size (filter (fun p => cx_poisoned p.2 = false) (ctxs m)) <> 0)%nat; [|lia].
    intros E0%map_size_empty_inv. by rewrite E0, lookup_empty in Hin.
Qed.

Lemma poison_context_runs fuel x m : poison_inv m -> (healthy m <= fuel)%nat -> candidate x ->
  runs (wah_poison_context fuel x)
       (fun _ m' => poison_inv m' /\ poisons m m' /\ (x <> 0 -> poisoned_in m' x)) m.
Proof.
  revert x m. induction fuel as [|fuel IH]; intros x m I Hh Hx; simpl; destruct (Z.eqb_spec x 0) as [|Hn];
    try by (apply runs_ret; split; [done|]; split; [apply poisons_refl|]).
  all: destruct Hx as [|[[c0 Hc0] Hd]]; [done|];
    destruct (same_ctxs_Some _ _ _ _ (pi_same _ I) Hc0) as (c & Hc & (El & Ed & Es)%same_but_poison);
    apply runs_bind; (eapply runs_opt; [done|]);
    (destruct (cx_poisoned c) eqn:Hp; [apply runs_ret; split; [done|]; split; [apply poisons_refl|]; intros; by exists c|]).
  all: assert (Hdoom : doomed x)
    by (destruct Hd as [Hd|]; [|done]; destruct (pi_old _ I x Hd) as (? & ? & ?); congruence).
  all: pose proof (poison_one_inv x c m I Hc Hp Hdoom) as (I1 & Hh1 & Hiff); [].
  - lia.
  - destruct Hdoom as (a & Ha & Hpath). pose proof (proj2 (proj2 Hok a x Ha Hpath) _ Hc0) as Hrun.
    rewrite <- Es in Hrun. rewrite bool_decide_eq_false_2 by done. apply runs_bind. cbn [negb gc_assert].
    unfold runs at 1, gc_assert. apply runs_bind.
    change (runs (poison_links (wah_poison_context fuel) x)
      (fun _ m' => poison_inv m' /\ poisons m m' /\ (x <> 0 -> poisoned_in m' x)) (poison_one x c m)).
    eapply runs_mono; [apply (poison_links_runs _ x _ I1); [by exists a|by exists c0|]|].
    + intros y m1 J1 Hle Hy. apply IH; [done|lia|done].
    + intros _ m' (J & [P1 P2 P3] & H). split; [done|]. split; [|intros _; apply P1, Hiff; by left]. split.
      * intros y Hy. apply P1, Hiff. auto.
      * intros y b Hy Hny Hb. destruct (decide (y = x)) as [->|Hne]; [by apply H|].
        eapply P2; [done|rewrite Hiff; tauto|done].
      * lia.
Qed.
End Poison.

(** C40. Freeing a context poisons the contexts that can be reached from it through
    contexts not poisoned before, and only these; nothing else about them changes.  The
    recursion ends within the number of contexts. *)
Theorem wah_poison_link_domain_exact m ctx c : ctxs m !! ctx = Some c -> cx_poisoned c = false ->
  cx_state c <> WAH_EXEC_RUNNING -> poison_sound m (fun a => a = ctx) ->
  exists m', wah_poison_link_domain ctx (poison_one ctx c m) = (Ok tt, m') /\ same_ctxs m m' /\
    forall x, poisoned_in m' x <-> poisoned_in m x \/ unpoisoned_path m ctx x.
Proof.
  intros Hc Hp Hr Hok.
  assert (I0 : poison_inv m (fun a => a = ctx) m) by (split; [done|done|auto]).
  assert (Hd : exists a, a = ctx /\ unpoisoned_path m a ctx).
  { exists ctx. split; [done|]. apply up_here. intros (? & ? & ?). congruence. }
  destruct (poison_one_inv m _ ctx c m I0 Hc Hp Hd) as (I1 & Hh & Hiff).
  assert (R : runs (wah_poison_link_domain ctx) (fun _ m' => poison_inv m (fun a => a = ctx) m' /\
    poisons m (poison_one ctx c m) m' /\ forall b, poison_link m ctx b -> poisoned_in m' b) (poison_one ctx c m)).
  { apply (poison_links_runs m _ Hok); [done|done|by exists c|]. intros y m1 J1 Hle Hy.
    apply (poison_context_runs m _ Hok); [done| |done].
    pose proof (map_size_filter (fun p => cx_poisoned p.2 = false) (ctxs (poison_one ctx c m))). unfold healthy in *. lia. }
  apply runs_iff in R as ([] & m' & E & J & [P1 P2 P3] & H). exists m'. split; [done|]. split; [apply J|].
  intros x. split.
  - intros [Hx|(a & -> & Hx)]%(pi_new _ _ _ J); auto.
  - intros [Hx|Hx]; [by apply (pi_old _ _ _ J)|]. induction Hx as [_|b x Hb IH Hl Hx]; [apply P1, Hiff; by left|].
    destruct (decide (b = ctx)) as [->|Hne]; [by apply H|]. eapply P2; [done| |done].
    rewrite Hiff. intros [|Hb2]; [done|]. by destruct Hb.
Qed.

(** *** What the domain depends on *)

(** Contexts, dependents and answers of the allocator are the same. *)
Record same_links (m m' : memory) : Prop := {
  sl_ctxs : ctxs m' = ctxs m;
  sl_more : more m' = more m;
  sl_deps h : gc_dependents <$> heaps m' !! h = gc_dependents <$> heaps m !! h }.
Definition links_only {A} (f : comp memory A) : Prop := forall m m', same_links m m' ->
  (f m').1 = (f m).1 /\ same_links (f m).2 (f m').2.

Lemma links_only_ret {A} (a : A) : links_only (stm_ret a).
Proof. by intros m m' H. Qed.
Lemma links_only_bind {A B} (c : comp memory A) (f : A -> comp memory B) :
  links_only c -> (forall a, links_only (f a)) -> links_only (stm_bind f c).
Proof.
  intros Hc Hf m m' H. unfold stm_bind. destruct (Hc m m' H) as [E S].
  destruct (c m) as [[a|e|] m1], (c m') as [[a'|e'|] m1']; simpl in *; simplify_eq; try done.
  by apply Hf.
Qed.
Lemma links_only_opt {A} (o : option A) : links_only (stm_opt o).
Proof. intros m m' H. by destruct o. Qed.
Lemma links_only_ctx a : links_only (get_ctx a).
Proof. intros m m' H. unfold get_ctx. rewrite (sl_ctxs _ _ H). by apply links_only_opt. Qed.
Lemma links_only_more {A} (c : comp answers A) : links_only (on_more c).
Proof.
  intros m m' [H1 H2 H3]. unfold on_more. rewrite H2. destruct (c (more m)) as [r a]. simpl. by split.
Qed.
#[local] Hint Resolve links_only_ret links_only_bind links_only_opt links_only_ctx links_only_more : links.

Lemma links_only_domain_add c d : links_only (wah_gc_domain_add c d).
Proof. unfold wah_gc_domain_add. repeat case_match; eauto with links. Qed.
#[local] Hint Resolve links_only_domain_add : links.
Lemma links_only_add_all cs d : links_only (domain_add_all cs d).
Proof. revert d. induction cs; intros d; simpl; eauto with links. Qed.
Lemma links_only_gc_deps c : links_only (gc_dependents_of c).
Proof.
  intros m m' H. unfold gc_dependents_of. destruct (cx_gc c =? 0); [done|].
  unfold stm_bind, get_heap, stm_opt. pose proof (sl_deps _ _ H (cx_gc c)) as E.
  destruct (heaps m !! cx_gc c), (heaps m' !! cx_gc c); simpl in E |- *; try done. by injection E as ->.
Qed.
#[local] Hint Resolve links_only_add_all links_only_gc_deps : links.
Lemma links_only_loop fuel i d : links_only (domain_loop fuel i d).
Proof.
  revert i d. induction fuel as [|fuel IH]; intros i d; simpl; (destruct (_ <=? _); [auto with links|]).
  - intros m m' H. done.
  - repeat (apply links_only_bind; [auto with links|intros ?]). auto.
Qed.
Lemma links_only_size {A} (f : nat -> comp memory A) : (forall n, links_only (f n)) ->
  links_only (stm_bind (fun m => f (size (ctxs m))) stm_get).
Proof. intros Hf m m' H. unfold stm_bind, stm_get. rewrite (sl_ctxs _ _ H). by apply Hf. Qed.
Lemma collect_domain_same m m' ctx : same_links m m' ->
  (wah_gc_collect_domain ctx m').1 = (wah_gc_collect_domain ctx m).1.
Proof.
  intros H. refine (proj1 (links_only_bind _ _ (links_only_domain_add _ _) _ m m' H)). intros d.
  apply (links_only_size (fun n => stm_bind (fun d => stm_ret (dm_list d)) (domain_loop n 0 d))).
  intros n. apply links_only_bind; [apply links_only_loop|]. auto with links.
Qed.
Lemma same_links_linked m m' a b : same_links m m' -> linked m a b -> linked m' a b.
Proof.
  intros [E1 _ E3] (c & Hc & Hb & H). exists c. rewrite E1. split; [done|]. split; [done|].
  destruct H as [?|[?|(g & Hg0 & Hg & Hb2)]]; [auto..|]. right. right. specialize (E3 (cx_gc c)). rewrite Hg in E3.
  destruct (heaps m' !! cx_gc c) as [g'|]; [|done]. injection E3 as E3. exists g'. split; [done|]. by rewrite E3.
Qed.
Lemma same_links_sym m m' : same_links m m' -> same_links m' m.
Proof. intros [E1 E2 E3]. by split. Qed.
Lemma same_links_sound m m' ctx : same_links m m' -> domain_sound m ctx -> domain_sound m' ctx.
Proof.
  intros S [Hn H]. split; [done|]. intros a Ha. destruct (H a) as (c & Hc & Hg).
  { clear -Ha S. induction Ha as [|x y z Hxy _ IH]; [done|]. eapply rtc_l; [|exact IH].
    eapply same_links_linked; [by apply same_links_sym|done]. }
  exists c. rewrite (sl_ctxs _ _ S). split; [done|]. intros Hn2. destruct (Hg Hn2) as [g Hgg].
  pose proof (sl_deps _ _ S (cx_gc c)) as E. rewrite Hgg in E. destruct (heaps m' !! cx_gc c); [by eexists|done].
Qed.
