(* ===== verification/GcStep.v ===== *)
(** * A marking phase and a sweep

    [wah_gc_step_mark] marks exactly the reachable objects of the heaps of its domain, and
    the sweep of a heap frees exactly the objects it is told to, keeping the books. *)

From S2P Require Import Prelude Base Types Bytes Alloc ModuleEnv Analyze Heap GcRoots Gc Total GcGraph GcMarking LinkDomain.
From stdpp Require Import gmap list.
#[local] Open Scope Z_scope.
#[local] Open Scope wah_scope.

(** ** Definitions *)

(** The memories that agree on everything but objects and their heaps. *)
Record same_rest (m m' : memory) : Prop := {
  sr_ctxs : ctxs m' = ctxs m;
  sr_slots : slots m' = slots m;
  sr_blocks : blocks m' = blocks m }.

Definition clear_in (O : gmap Z wah_gc_object_t) (x : Z) : Prop := ~ marked_in O x /\ ~ gray_in O x.

(** The roots of the contexts of a domain, as the marking phase of [ctx] visits them. *)
Definition context_roots (mods : Z -> option wah_module_env) (m : memory) (ctx a : Z) : option (list Z) :=
  c ← ctxs m !! a;
  if negb (a =? ctx) && negb (cx_is_instantiated c) && negb (cx_may_share_refs c)
  then wah_gc_visit_pins c else wah_gc_enumerate_roots mods m a.
Definition domain_roots (mods : Z -> option wah_module_env) (m : memory) (ctx : Z) (D : list Z) : option (list Z) :=
  flat (context_roots mods m ctx <$> D).

(** [h] is the heap of a context of [D]. *)
Definition heap_of (m : memory) (D : list Z) (h : Z) : Prop :=
  h <> 0 /\ exists a c, a ∈ D /\ ctxs m !! a = Some c /\ cx_gc c = h.

(** ** Theorems *)

(** *** Heaps of a domain *)
Lemma domain_heaps_runs m D seen : (forall a, a ∈ D -> is_Some (ctxs m !! a)) ->
  exists hs, domain_heaps seen D m = (Ok hs, m) /\ NoDup hs /\
    forall h, h ∈ hs <-> heap_of m D h /\ h ∉ seen.
Proof.
  revert seen. induction D as [|a D IH]; intros seen HD; simpl.
  { exists []. split; [done|]. split; [constructor|]. intros h. rewrite elem_of_nil. unfold heap_of.
    split; [done|]. by intros [(_ & a & c & ?%elem_of_nil & _) _]. }
  destruct (HD a) as [c Hc]; [left|]. unfold stm_bind at 1, get_ctx, stm_opt. rewrite Hc.
  destruct (IH (seen ++ [cx_gc c])) as (hs & E & N & H); [intros; apply HD; by right|].
  unfold stm_bind. rewrite E. unfold stm_ret.
  set (first := negb (cx_gc c =? 0) && negb (bool_decide (cx_gc c ∈ seen))).
  exists (if first then cx_gc c :: hs else hs). split; [done|].
  assert (Hh : forall h, heap_of m (a :: D) h <-> (h <> 0 /\ h = cx_gc c) \/ heap_of m D h).
  { intros h. unfold heap_of. split.
    - intros (Hn & b & cb & [->|Hb]%elem_of_cons & Hcb & <-); [left; split; [done|congruence]|right; naive_solver].
    - intros [(Hn & ->)|(Hn & b & cb & Hb & Hcb & <-)]; (split; [done|]); [exists a, c|exists b, cb]; set_solver. }
  assert (Hf : first = true <-> cx_gc c <> 0 /\ cx_gc c ∉ seen).
  { unfold first. destruct (Z.eqb_spec (cx_gc c) 0), (bool_decide_reflect (cx_gc c ∈ seen)); naive_solver. }
  split.
  - destruct first eqn:Ef; [|done]. constructor; [|done]. rewrite H. set_solver.
  - intros h. rewrite Hh. destruct (decide (h = cx_gc c)) as [->|Hne].
    + destruct first eqn:Ef.
      * rewrite elem_of_cons. destruct Hf as [Hf _]. specialize (Hf eq_refl). tauto.
      * rewrite H. destruct Hf as [_ Hf]. split; [set_solver|]. intros [Hor Hns]. exfalso.
        destruct (Z.eq_dec (cx_gc c) 0) as [E0|E0]; [destruct Hor as [[? _]|[? _]]; done|]. by discriminate Hf.
    + assert (Hin : h ∈ (if first then cx_gc c :: hs else hs) <-> h ∈ hs) by (destruct first; [rewrite elem_of_cons; naive_solver|done]).
      rewrite Hin, H, elem_of_app, list_elem_of_singleton. tauto.
Qed.
Lemma domain_heaps_same m m' seen D hs : ctxs m' = ctxs m -> domain_heaps seen D m = (Ok hs, m) ->
  domain_heaps seen D m' = (Ok hs, m').
Proof.
  intros Ec. revert seen hs. induction D as [|a D IH]; intros seen hs; simpl; [by unfold stm_ret; intros [= <-]|].
  unfold stm_bind at 1 3, get_ctx, stm_opt. rewrite Ec. destruct (ctxs m !! a) as [c|]; [|done].
  unfold stm_bind. destruct (domain_heaps (seen ++ [cx_gc c]) D m) as [[hs0|e|] m0] eqn:E; [|done..].
  unfold stm_ret. intros [= <- ->]. by rewrite (IH _ _ E).
Qed.

(** *** Clearing *)
Lemma clear_object_tags O x o : O !! x = Some o ->
  let O' := <[x := wah_gc_set_gray (wah_gc_set_mark o false) false]> O in same_objs O O' /\ clear_in O' x.
Proof.
  intros Hx O'. split.
  - symmetry. apply (same_objs_insert _ _ o); [done|]. by rewrite untag_set_gray, untag_set_mark.
  - split; intros (o' & Ho' & Ht); unfold O' in Ho'; rewrite lookup_insert_eq in Ho'; simplify_eq.
    + by rewrite marked_set_gray, marked_set_mark in Ht.
    + by rewrite gray_set_gray in Ht.
Qed.

Record cleared (l : list Z) (m m' : memory) : Prop := {
  cl_mem : m' = set_objs (objs m') m;
  cl_same : same_objs (objs m) (objs m');
  cl_clear x : x ∈ l -> clear_in (objs m') x;
  cl_rest x : x ∉ l -> objs m' !! x = objs m !! x }.

Lemma clear_in_same O O' x : O' !! x = O !! x -> clear_in O x -> clear_in O' x.
Proof. intros E. unfold clear_in, marked_in, gray_in. by rewrite E. Qed.

Lemma clear_objects_runs fuel m a l : chain (objs m) a l -> (length l <= fuel)%nat ->
  runs (for_objects fuel a clear_object) (fun _ m' => cleared l m m') m.
Proof.
  revert m a l. induction fuel as [|fuel IH]; intros m a [|x l] Ha Hf; simpl in Hf; try lia.
  1,2: simpl in Ha; subst a; simpl; (split; [by destruct m|done|by intros x ?%elem_of_nil|done]).
  pose proof (chain_NoDup _ _ _ Ha) as [Hnx _]%NoDup_cons.
  destruct Ha as (-> & Hx & o & Ho & Hl). simpl. destruct (Z.eqb_spec x 0); [done|].
  apply runs_bind. unfold clear_object, get_obj, put_obj.
  apply runs_bind. eapply runs_opt; [done|]. unfold runs at 1. apply runs_bind.
  destruct (clear_object_tags (objs m) x o Ho) as [Hs Hc]. set (m1 := set_objs _ m).
  eapply (runs_opt _ _ _ m1); [apply lookup_insert_eq|]. rewrite next_set_gray, next_set_mark.
  eapply runs_mono; [apply (IH m1 _ l); [|lia]|].
  - by apply (same_objs_chain (objs m)).
  - intros _ m' [C1 C2 C3 C4]. split.
    + rewrite C1 at 1. by destruct m.
    + by transitivity (objs m1).
    + intros y [->|Hy]%elem_of_cons; [|by apply C3]. apply (clear_in_same (objs m1)); [by apply C4|done].
    + intros y Hy. rewrite not_elem_of_cons in Hy. rewrite C4 by tauto. apply lookup_insert_ne. naive_solver.
Qed.

(** Clearing the heaps [hs], of which [gc] adds up the others. *)
Lemma clear_heaps_runs gc g hs ls m n : heap_lists m hs ls -> heaps m !! gc = Some (gc_set_other n g) ->
  runs (clear_heaps gc hs)
    (fun _ m' => exists n' O', m' = set_heaps (<[gc := gc_set_other n' g]> (heaps m)) (set_objs O' m) /\
       same_objs (objs m) O' /\ (forall x, x ∈ concat ls -> clear_in O' x) /\
       forall x, x ∉ concat ls -> O' !! x = objs m !! x) m.
Proof.
  intros Hl. revert m n Hl. revert ls. induction hs as [|h hs IH]; intros ls m n Hl Hg; inversion Hl as [|? l ? ls' (gh & Hh & Hch) Hl']; subst; simpl.
  { apply runs_ret. exists n, (objs m). rewrite insert_id by done. split; [by destruct m|].
    split; [done|]. split; [by intros x ?%elem_of_nil|done]. }
  apply runs_bind. eapply runs_opt; [done|].
  (* the sum of the other heaps *)
  set (n1 := if negb (h =? gc) then u64 (n + allocated_bytes gh) else n).
  set (m1 := set_heaps (<[gc := gc_set_other n1 g]> (heaps m)) m).
  apply runs_bind, (runs_eq _ (fun _ => (Ok tt, m1))).
  { unfold m1, n1. destruct (negb (h =? gc)).
    - unfold upd_heap, stm_bind, get_heap, put_heap, stm_opt. rewrite Hg. by destruct g.
    - unfold stm_ret. rewrite insert_id by done. by destruct m. }
  unfold runs at 1. eapply runs_then.
  { unfold for_heap. apply (clear_objects_runs (object_fuel m1) m1 (all_objects gh) l); [done|]. unfold object_fuel. by eapply chain_length. }
  intros _ m2 [C1 C2 C3 C4].
  eapply runs_mono; [apply (IH ls' m2 n1)|].
  - unfold heap_lists in *. eapply Forall2_impl; [exact Hl'|]. intros h' l' (g' & Hg' & Hc'). rewrite C1. simpl.
    destruct (decide (h' = gc)) as [->|Hne].
    + exists (gc_set_other n1 g). rewrite lookup_insert_eq. split; [done|]. rewrite Hg in Hg'. simplify_eq.
      eapply same_objs_chain; [exact C2|]. by destruct g.
    + exists g'. rewrite lookup_insert_ne by done. split; [done|]. by eapply same_objs_chain.
  - rewrite C1. simpl. by rewrite lookup_insert_eq.
  - intros _ m' (n' & O' & -> & S' & Cl & Rest). exists n', O'. split; [|split; [|split]].
    + rewrite C1. simpl. rewrite insert_insert_eq. by destruct m.
    + by transitivity (objs m2).
    + intros x. simpl. rewrite elem_of_app. intros Hx. destruct (decide (x ∈ concat ls')); [by apply Cl|].
      destruct Hx as [Hx|]; [|done]. apply (clear_in_same (objs m2)); [by apply Rest|by apply C3].
    + intros x. simpl. rewrite not_elem_of_app. intros [Hx Hx2]. rewrite Rest by done. by apply C4.
Qed.

(** *** Roots *)
Definition host_view (g : wah_gc_state_t) : Z * option wah_function_sig * Z := (owner g, host_call_fn g, host_call_results g).
Definition same_views (m m' : memory) : Prop := forall h, host_view <$> heaps m' !! h = host_view <$> heaps m !! h.

Lemma visit_host_call_same m m' ctx c : slots m' = slots m -> same_views m m' ->
  visit_host_call m' ctx c = visit_host_call m ctx c.
Proof.
  intros Es Hv. unfold visit_host_call. destruct (cx_gc c =? 0); [done|]. specialize (Hv (cx_gc c)).
  destruct (heaps m' !! cx_gc c) as [g'|], (heaps m !! cx_gc c) as [g|]; simpl in Hv |- *; try done.
  unfold host_view in Hv. injection Hv as -> -> ->.
  destruct (negb _); [done|]. destruct (host_call_fn g); [|done]. unfold visit_typed, visit_slot. by rewrite Es.
Qed.
Lemma enumerate_roots_same mods m m' a : same_rest m m' -> same_views m m' ->
  wah_gc_enumerate_roots mods m' a = wah_gc_enumerate_roots mods m a.
Proof.
  intros [Ec Es _] Hv. unfold wah_gc_enumerate_roots. rewrite Ec. destruct (ctxs m !! a) as [c|]; [|done]. simpl.
  rewrite (visit_host_call_same m m') by done. clear Hv.
  destruct m as [o h cs sl b mo], m' as [o' h' cs' sl' b' mo']. simpl in Ec, Es. subst. reflexivity.
Qed.
Lemma context_roots_same mods m m' ctx a : same_rest m m' -> same_views m m' ->
  context_roots mods m' ctx a = context_roots mods m ctx a.
Proof.
  intros Hr Hv. unfold context_roots. rewrite (sr_ctxs _ _ Hr). destruct (ctxs m !! a); [|done]. simpl.
  by rewrite (enumerate_roots_same _ m).
Qed.
Lemma only_objs_views m m' : only_objs m m' -> same_rest m m' /\ same_views m m'.
Proof. intros [Eh Ec Es Eb]. split; [done|]. intros h. by rewrite Eh. Qed.

Lemma flat_cons {A} (x : option (list A)) l r : flat (x :: l) = Some r ->
  exists a b, x = Some a /\ flat l = Some b /\ r = a ++ b.
Proof.
  unfold flat. simpl. destruct x as [a|]; [|done]. simpl. destruct (mapM id l) as [bs|]; [|done]. simpl.
  intros [= <-]. by exists a, (concat bs).
Qed.

Section MarkPhase.
Context (mods : Z -> option wah_module_env) (m0 : memory) (ctx : Z) (c : wah_exec_context_t) (R : list Z)
        (ls : list (list Z)).
Context (Hc : ctxs m0 !! ctx = Some c).
Notation fb := (cx_module c).
Notation in_heap := (fun x => x ∈ concat ls).
Context (Hsound : sound mods fb (objs m0) R).
Notation inv := (marking_inv mods fb m0 R in_heap).
Notation none := (fun _ : Z => False).

Lemma mark_roots_runs D R' s : (forall r y, r ∈ R' -> target r = Some y -> reach mods fb (objs m0) R y) ->
  domain_roots mods m0 ctx D = Some R' -> inv none none s ->
  runs (mark_roots mods ctx D)
    (fun _ s' => inv none none s' /\ marks_more s s' /\
                 forall r y, r ∈ R' -> target r = Some y -> marked_in (objs s'.1) y) s.
Proof.
  unfold domain_roots. revert R' s. induction D as [|a D IH]; intros R' s HR HD I; simpl.
  { injection HD as <-. apply runs_ret. split; [done|]. split; [apply marks_more_refl|]. by intros r y ?%elem_of_nil. }
  apply flat_cons in HD as (ra & rD & Ha & HD & ->).
  destruct s as [m wl]. pose proof (mi_only _ _ _ _ _ _ _ _ I) as Oo. simpl in Oo.
  destruct (only_objs_views _ _ Oo) as [Hr Hv]. rewrite <- (context_roots_same mods m0 m) in Ha by done.
  unfold context_roots in Ha. destruct (ctxs m !! a) as [ca|] eqn:Eca; [|done]. simpl in Ha.
  apply runs_bind. unfold runs at 1, on_mem, get_ctx, stm_opt. simpl. rewrite Eca. apply runs_bind, runs_get, runs_bind.
  eapply runs_opt; [exact Ha|].
  eapply runs_then; [apply (mark_refs_runs mods fb m0 R in_heap none none _ _ Hsound); [|done]|].
  { intros r y Hr1. apply HR. set_solver. }
  intros _ s1 (I1 & M1 & H1). eapply runs_mono; [apply (IH rD s1); [|done|done]|].
  { intros r y Hr1. apply HR. set_solver. }
  intros _ s2 (I2 & M2 & H2). split; [done|]. split; [by eapply marks_more_trans|].
  intros r y [Hr1|Hr1]%elem_of_app Ht; [by apply M2, (H1 r)|by apply (H2 r)].
Qed.

Lemma mark_phase_runs D hs :
  (forall a, a ∈ D -> is_Some (ctxs m0 !! a)) -> domain_roots mods m0 ctx D = Some R ->
  domain_heaps [] D m0 = (Ok hs, m0) -> heap_lists m0 hs ls ->
  (forall x, in_heap x -> clear_in (objs m0) x) ->
  (forall x o, reach mods fb (objs m0) R x -> ~ in_heap x -> objs m0 !! x = Some o -> object_refs mods fb o = Some []) ->
  runs (mark_phase mods ctx D)
    (fun _ m' => only_objs m0 m' /\ same_objs (objs m0) (objs m') /\
       forall x, in_heap x -> marked_in (objs m') x <-> reach mods fb (objs m0) R x) m0.
Proof.
  intros HD HR Hhs Hls Hcl Hout. unfold mark_phase, runs. rewrite Hc.
  set (s0 := (m0, Worklist [] 0 false fb)).
  assert (I0 : inv none none s0).
  { split; simpl; try done; auto.
    - intros x o y Hl Ho Hm _ _ _ (rs & r & Hrs & Hin & _). destruct (decide (in_heap x)) as [Hx|Hx].
      + destruct (Hcl x Hx) as [Hn _]. destruct Hn. by exists o.
      + rewrite (Hout x o) in Hrs by done. injection Hrs as <-. by apply elem_of_nil in Hin.
    - constructor.
    - by intros x ?%elem_of_nil.
    - intros x Hg Hx. by destruct (Hcl x Hx). }
  match goal with |- context [let '(r, s) := ?run s0 in _] => assert (H : runs run (fun _ s' =>
    only_objs m0 s'.1 /\ same_objs (objs m0) (objs s'.1) /\
    forall x, in_heap x -> marked_in (objs s'.1) x <-> reach mods fb (objs m0) R x) s0); [|
    apply runs_iff in H as ([] & s' & -> & H); exact H] end.
  eapply runs_then; [apply (mark_roots_runs D R s0); [|done|done]|].
  { intros r y Hr Ht. by eapply reach_root. }
  intros _ s1 (I1 & M1 & H1). apply runs_bind. unfold runs at 1, on_mem. destruct s1 as [m1 wl1].
  cbn [fst snd]. rewrite (domain_heaps_same m0 m1 [] D hs) by (done || apply I1).
  assert (Hc0 : forall z, in_heap z -> ~ marked_in (objs m0) z) by (intros z Hz; apply Hcl, Hz).
  pose proof (white_le_size (objs m0)). pose proof (mm_white _ _ M1) as Hw. simpl in Hw.
  eapply runs_mono; [apply (trace_runs mods fb m0 R in_heap _ hs ls (m1, wl1) Hsound Hc0 Hls); [done|done|simpl; lia|]|].
  { intros Ho. destruct (mm_overflow _ _ M1 Ho); simpl in *; [done|lia]. }
  intros _ s2 (I2 & M2 & E2 & O2). split; [apply I2|]. split; [apply I2|].
  eapply (marked_exact mods fb m0 R in_heap); try done.
  intros r y Hr Ht. apply M2. by apply (H1 r).
Qed.
End MarkPhase.

(** *** The marking phase as a whole *)

(** What [m] and [m'] have in common before and after marking: objects up to their tags,
    contexts and slots; the state of the heap [gc] but for its phase. *)
Record after_mark (gc : Z) (g : wah_gc_state_t) (m m' : memory) : Prop := {
  am_objs : same_objs (objs m) (objs m');
  am_rest : same_rest m m';
  am_heaps : exists n, heaps m' = <[gc := gc_set_cursor 0 (gc_set_phase WAH_GC_PHASE_SWEEP (gc_set_other n g))]> (heaps m) }.

(** The domain [D] of [ctx], its heaps with their objects [ls], and its roots [R], of which
    none leads out of the memory.  Other objects, like functions, have no references. *)
Record traced (mods : Z -> option wah_module_env) (m : memory) (ctx : Z) (c : wah_exec_context_t)
  (g : wah_gc_state_t) (D hs : list Z) (ls : list (list Z)) (R : list Z) : Prop := {
  tr_ctx : ctxs m !! ctx = Some c;
  tr_gc : cx_gc c <> 0;
  tr_heap : heaps m !! cx_gc c = Some g;
  tr_domain : domain_sound m ctx;
  tr_collected : exists m1, wah_gc_collect_domain ctx m = (Ok D, m1);
  tr_heaps : domain_heaps [] D m = (Ok hs, m);
  tr_lists : heap_lists m hs ls;
  tr_roots : domain_roots mods m ctx D = Some R;
  tr_sound : sound mods (cx_module c) (objs m) R;
  tr_other x o : reach mods (cx_module c) (objs m) R x -> x ∉ concat ls -> objs m !! x = Some o ->
    object_refs mods (cx_module c) o = Some [] }.

Lemma domain_roots_same mods m m' ctx D : same_rest m m' -> same_views m m' ->
  domain_roots mods m' ctx D = domain_roots mods m ctx D.
Proof.
  intros Hr Hv. unfold domain_roots. f_equal. apply list_fmap_ext. intros i a _. by apply context_roots_same.
Qed.
Lemma heap_views gc g g' m m' : heaps m !! gc = Some g -> host_view g' = host_view g ->
  heaps m' = <[gc := g']> (heaps m) -> same_views m m'.
Proof.
  intros Hg Hv E h. rewrite E. destruct (decide (gc = h)) as [<-|].
  - rewrite lookup_insert_eq, Hg. simpl. by rewrite Hv.
  - by rewrite lookup_insert_ne.
Qed.

Lemma step_mark_runs mods m ctx c g D hs ls R : traced mods m ctx c g D hs ls R ->
  runs (wah_gc_step_mark mods ctx)
    (fun b m' => b = true /\ after_mark (cx_gc c) g m m' /\
       forall x, x ∈ concat ls -> marked_in (objs m') x <-> reach mods (cx_module c) (objs m) R x) m.
Proof.
  intros [Hc Hgc Hg Hdom [m1 Hcol] Hhs Hls HR Hsound Hother].
  pose proof (collect_domain_run m ctx _ _ Hdom Hcol) as Hd.
  destruct Hd as ([O1 O2 O3 O4 O5 _] & HD & _ & HDin).
  unfold wah_gc_step_mark. apply runs_bind. eapply runs_opt; [done|]. apply runs_bind.
  unfold runs at 1, attempt. rewrite Hcol. set (m2 := set_heaps (<[cx_gc c := gc_set_other 0 g]> (heaps m)) m1).
  apply runs_bind. assert (Hu : upd_heap (cx_gc c) (gc_set_other 0) m1 = (Ok tt, m2)).
  { unfold upd_heap, stm_bind, get_heap, put_heap, stm_opt. rewrite O2, Hg. unfold m2. by rewrite O2. }
  unfold runs at 1. rewrite Hu. apply runs_bind. unfold runs at 1.
  rewrite (domain_heaps_same m m2 [] D hs) by done. apply runs_bind.
  assert (Hls2 : heap_lists m2 hs ls).
  { unfold heap_lists in *. eapply Forall2_impl; [exact Hls|]. intros h l (g' & Hg' & Hch). unfold m2. simpl.
    rewrite O1. destruct (decide (h = cx_gc c)) as [->|].
    - exists (gc_set_other 0 g). rewrite lookup_insert_eq. replace g with g' by congruence. by destruct g'.
    - exists g'. by rewrite lookup_insert_ne. }
  eapply runs_mono; [apply (clear_heaps_runs (cx_gc c) g hs ls m2 0 Hls2)|].
  { unfold m2. simpl. by rewrite lookup_insert_eq. }
  intros _ m3 (n & O' & -> & Hsame & Hcl & Hkeep). set (m3 := set_heaps _ _).
  unfold m2 in Hsame, Hkeep. simpl in Hsame, Hkeep. rewrite O1 in Hsame, Hkeep.
  assert (Hr3 : same_rest m m3) by (split; simpl; congruence).
  assert (Hv3 : same_views m m3).
  { apply (heap_views (cx_gc c) g (gc_set_other n g)); [done|by destruct g|]. unfold m3, m2. simpl.
    by rewrite insert_insert_eq. }
  assert (Hls3 : heap_lists m3 hs ls).
  { unfold heap_lists in *. eapply Forall2_impl; [exact Hls2|]. intros h l (g' & Hg' & Hch). unfold m3. simpl.
    assert (Hch' : chain O' (all_objects g') l).
    { eapply same_objs_chain; [exact Hsame|]. unfold m2 in Hch. simpl in Hch. by rewrite O1 in Hch. }
    unfold m2 in Hg' |- *. simpl in Hg' |- *. rewrite insert_insert_eq. destruct (decide (h = cx_gc c)) as [->|].
    - exists (gc_set_other n g). rewrite lookup_insert_eq in Hg' |- *. split; [done|].
      injection Hg' as <-. by destruct g.
    - exists g'. rewrite lookup_insert_ne in Hg' |- * by done. done. }
  apply runs_bind.
  eapply runs_mono; [apply (mark_phase_runs mods m3 ctx c R ls) with (hs := hs)|].
  - unfold m3, m2. simpl. congruence.
  - by apply (same_objs_sound _ _ (objs m)).
  - intros a Ha%HDin. destruct (proj2 Hdom a Ha) as (ca & Hca & _). exists ca. unfold m3, m2. simpl. congruence.
  - by rewrite (domain_roots_same mods m).
  - by apply (domain_heaps_same m).
  - exact Hls3.
  - exact Hcl.
  - intros x o Hx Hn Ho. unfold m3 in Ho. simpl in Ho.
    assert (Ho2 : objs m !! x = Some o). { by rewrite <- (Hkeep x Hn). }
    apply (Hother x o); [|done|done]. eapply same_objs_reach; [|exact Hx]. unfold m3. simpl. by symmetry.
  - intros u m4 ([Eh Ec Es Eb] & S4 & Hm4). apply runs_bind.
    unfold upd_heap, runs at 1, stm_bind, get_heap, put_heap, stm_opt. rewrite Eh. unfold m3 at 1, m2 at 1. simpl.
    rewrite lookup_insert_eq. simpl. apply runs_ret. split; [done|]. split; [split|].
    + simpl. transitivity O'; [done|]. unfold m3 in S4. exact S4.
    + destruct Hr3. split; simpl; congruence.
    + exists n. rewrite Eh. unfold m3, m2. simpl. by rewrite !insert_insert_eq.
    + intros x Hx. simpl. rewrite Hm4 by done. unfold m3. simpl.
      split; apply same_objs_reach; [by symmetry|done].
Qed.
