(* ===== verification/RootSpec.v ===== *)
(** * What the roots are

    The roots of a context by the place they are in, and that
    [wah_gc_enumerate_roots] lists exactly these. *)

From S2P Require Import Prelude Base Types Bytes Alloc ModuleEnv Analyze Heap GcRoots Gc Total GcGraph GcMarking LinkDomain GcStep.
From stdpp Require Import gmap list.
#[local] Open Scope Z_scope.

(** ** Definitions *)

Section Places.
Context (mods : Z -> option wah_module_env) (m : memory).

(** [p] is one of the slots from [base] on that hold values of the types [ts], and is a
    reference. *)
Definition typed_place (ts : list wah_type_t) (base p : Z) : Prop :=
  exists i t, zget ts i = Some t /\ WAH_TYPE_IS_REF t = true /\ p = slot_at base i.

(** A declared local, counted from the first one, that is a reference: it is in a run of a
    reference type, which begins where the run before it ends. *)
Definition ref_local (body : wah_code_body_t) (i : Z) : Prop :=
  exists k r, zget (local_runs body) k = Some r /\ WAH_TYPE_IS_REF (run_type r) = true /\
    match zget (local_runs body) (k - 1) with Some before => run_end before | None => 0 end <= i < run_end r.

(** The ref map that begins with the node [n] lists the operand at [pos]. *)
Inductive ref_map_lists (nodes : list wah_ref_node_t) : Z -> Z -> Prop :=
| rm_here n nd : n <> 0 -> zget nodes (n - 1) = Some nd -> ref_map_lists nodes n (node_pos nd)
| rm_parent n nd pos : n <> 0 -> zget nodes (n - 1) = Some nd -> ref_map_lists nodes (node_parent nd) pos ->
    ref_map_lists nodes n pos.

(** Where the operands of the frame at depth [d] end. *)
Definition operands_limit (c : wah_exec_context_t) (d : Z) : option Z :=
  if d <? cx_call_depth c - 1 then fr_locals <$> zget (cx_frames c) (d + 1) else Some (cx_sp c).
Definition slots_between (base limit : Z) : Z := if base <? limit then u32 ((limit - base) / sizeof_wah_value_t) else 0.

(** A place of the frame at depth [d]: a parameter, a local, or an operand that the ref map
    of its last POLL lists and that was not handed to the frame above it. *)
Inductive frame_place (c : wah_exec_context_t) (d : Z) (f : wah_call_frame_t) (code : frame_code) (ft : wah_func_type_t) : Z -> Prop :=
| fp_param p : typed_place (param_types ft) (fr_locals f) p -> frame_place c d f code ft p
| fp_local i : ref_local (fc_body code) i -> frame_place c d f code ft (slot_at (fr_locals f) (zlen (param_types ft) + i))
| fp_operand top pos limit :
    let base := slot_at (fr_locals f) (zlen (param_types ft) + local_count (fc_body code)) in
    zget (fc_poll_ref_tops code) (fr_poll_idx f) = Some top -> ref_map_lists (fc_ref_nodes code) top pos ->
    operands_limit c d = Some limit -> pos < slots_between base limit -> frame_place c d f code ft (slot_at base pos).

(** A global of reference type: in its slot, or, if imported and mutable, where its slot
    points to. *)
Definition global_place (M : wah_module_env) (globals p : Z) : Prop :=
  exists i t, 0 <= i < wah_global_index_limit M /\ wah_global_type M i = Some t /\ WAH_TYPE_IS_REF t = true /\
    match zget (global_imports M) i with
    | Some gi => if global_mutable gi then slots m !! slot_at globals i = Some p /\ p <> 0 else p = slot_at globals i
    | None => p = slot_at globals i
    end.

(** An element of a table of references that is not imported. *)
Definition table_place (M : wah_module_env) (tabs : list wah_table_inst_t) (p : Z) : Prop :=
  exists t ti tt e, zget tabs t = Some ti /\ ti_is_imported ti = false /\ wah_table_type M t = Some tt /\
    WAH_TYPE_IS_REF (elem_type tt) = true /\ 0 <= e < ti_size ti /\ p = slot_at (ti_entries ti) e.

(** The globals of the linked module [l] are at the offset [o]. *)
Inductive linked_at : Z -> list wah_linked_module_t -> Z -> wah_linked_module_t -> Prop :=
| la_here o l ls : linked_at o (l :: ls) o l
| la_next o l ls M o' l' : mods (lm_module l) = Some M ->
    linked_at (u32 (o + wah_global_index_limit M)) ls o' l' -> linked_at o (l :: ls) o' l'.

(** The slots of a context that hold roots. *)
Inductive root_place (ctx : Z) (c : wah_exec_context_t) : Z -> Prop :=
| rp_frame d f code M ti ft p :
    0 <= d < (if bool_decide (cx_state c = WAH_EXEC_TRAPPED) then cx_base_call_depth c else cx_call_depth c) ->
    zget (cx_frames c) d = Some f -> fr_code f = Some code -> mods (fr_module f) = Some M ->
    zget (function_type_indices M) (fr_func_idx f) = Some ti -> zget (types (env_types M)) ti = Some ft ->
    frame_place c d f code ft p -> root_place ctx c p
| rp_entry fn p : cx_entry_fn c = Some fn -> is_host fn = true -> cx_state c = WAH_EXEC_SUSPENDED \/ cx_state c = WAH_EXEC_RUNNING ->
    typed_place (fn_params fn) (cx_base_sp c) p \/ typed_place (fn_results fn) (slot_at (cx_base_sp c) (zlen (fn_params fn))) p ->
    root_place ctx c p
| rp_host_call g fn p : cx_gc c <> 0 -> heaps m !! cx_gc c = Some g -> owner g = ctx -> host_call_fn g = Some fn ->
    typed_place (fn_results fn) (host_call_results g) p -> root_place ctx c p
| rp_finished fn i t : cx_state c = WAH_EXEC_FINISHED -> cx_entry_fn c = Some fn -> 0 <= i < cx_entry_result_count c ->
    zget (fn_results fn) i = Some t -> WAH_TYPE_IS_REF t = true -> root_place ctx c (slot_at (cx_sp c) (i - cx_entry_result_count c))
| rp_global M p : mods (cx_module c) = Some M -> global_place M (cx_globals c) p -> root_place ctx c p
| rp_linked_global M o l L p : mods (cx_module c) = Some M -> linked_at (wah_global_index_limit M) (cx_linked_modules c) o l ->
    mods (lm_module l) = Some L -> lm_ctx l = 0 \/ lm_owns_ctx l = true -> global_place L (slot_at (cx_globals c) o) p -> root_place ctx c p
| rp_table M p : mods (cx_module c) = Some M -> table_place M (cx_tables c) p -> root_place ctx c p
| rp_owned_table l lc L p : l ∈ cx_linked_modules c -> lm_ctx l <> 0 -> lm_owns_ctx l = true -> ctxs m !! lm_ctx l = Some lc ->
    mods (lm_module l) = Some L -> table_place L (cx_tables lc) p -> root_place ctx c p.

(** The roots of a context: what those slots hold, its pinned references and the exception
    in flight. *)
Inductive root (ctx : Z) (c : wah_exec_context_t) : Z -> Prop :=
| root_slot p r : root_place ctx c p -> slots m !! p = Some r -> root ctx c r
| root_pin r : r ∈ cx_pins c -> r <> 0 -> root ctx c r
| root_exception : cx_pending_exception c <> 0 -> root ctx c (wah_exception_to_ref (cx_pending_exception c)).
End Places.

(** The roots that the context [a] has in a collection of [ctx]: a context of the domain
    that has not been instantiated and can't share references has only pinned ones. *)
Definition context_root (mods : Z -> option wah_module_env) (m : memory) (ctx a r : Z) : Prop :=
  exists c, ctxs m !! a = Some c /\
    if (a =? ctx) || cx_is_instantiated c || cx_may_share_refs c then root mods m a c r else r ∈ cx_pins c /\ r <> 0.
Definition is_root (mods : Z -> option wah_module_env) (m : memory) (ctx r : Z) : Prop :=
  exists a, rtc (linked m) ctx a /\ context_root mods m ctx a r.

(** ** Theorems *)

(** *** Enumerations *)

(** When [x] is a list, it is of the references that satisfy [P]. *)
Definition lists (x : option (list Z)) (P : Z -> Prop) : Prop := forall rs, x = Some rs -> forall r, r ∈ rs <-> P r.

Lemma lists_iff x P Q : lists x P -> (forall r, P r <-> Q r) -> lists x Q.
Proof. intros H E rs Hx r. rewrite <- E. by apply H. Qed.
Lemma lists_none P : (forall r, ~ P r) -> lists (Some []) P.
Proof. intros H rs [= <-] r. rewrite elem_of_nil. split; [done|apply H]. Qed.
Lemma lists_bind {A} (x : option A) f P : (forall a, x = Some a -> lists (f a) P) -> lists (x ≫= f) P.
Proof. intros H rs Hx. destruct x as [a|]; [|done]. by apply (H a). Qed.
Lemma lists_app x y P Q : lists x P -> lists y Q -> lists (a ← x; b ← y; Some (a ++ b)) (fun r => P r \/ Q r).
Proof.
  intros Hx Hy rs E r. destruct x as [a|], y as [b|]; try done. injection E as <-. rewrite elem_of_app, (Hx a), (Hy b) by done. done.
Qed.
Lemma lists_cons x l P Q : lists x P -> lists (flat l) Q -> lists (flat (x :: l)) (fun r => P r \/ Q r).
Proof.
  intros Hx Hl rs E r. apply flat_cons in E as (a & b & Ha & Hb & ->). by rewrite elem_of_app, (Hx a), (Hl b).
Qed.
Lemma lists_nil : lists (flat []) (fun _ => False).
Proof. apply lists_none. by intros r []. Qed.

Lemma lists_fmap {A} (f : A -> option (list Z)) l (P : A -> Z -> Prop) : (forall a, a ∈ l -> lists (f a) (P a)) ->
  lists (flat (f <$> l)) (fun r => exists a, a ∈ l /\ P a r).
Proof.
  induction l as [|a l IH]; intros H.
  { apply lists_none. by intros r (a & Ha%elem_of_nil & _). }
  rewrite fmap_cons. eapply lists_iff; [apply lists_cons; [apply H; left|apply IH; intros; apply H; by right]|].
  intros r. simpl. split.
  - intros [Hp|(b & Hb & Hp)]; [exists a|exists b]; (split; [|done]); [left|by right].
  - intros (b & [->|Hb]%elem_of_cons & Hp); [by left|right; by exists b].
Qed.
Lemma lists_zrange (f : Z -> option (list Z)) lo n (P : Z -> Z -> Prop) : (forall i, lo <= i < n -> lists (f i) (P i)) ->
  lists (flat (f <$> zrange lo n)) (fun r => exists i, lo <= i < n /\ P i r).
Proof.
  intros H. eapply lists_iff; [apply lists_fmap; intros i Hi%elem_of_zrange; by apply H|]. intros r. simpl.
  split; intros (i & Hi & Hp); exists i; rewrite elem_of_zrange in *; done.
Qed.
Lemma lists_imap {A} (f : nat -> A -> option (list Z)) l (P : Z -> A -> Z -> Prop) :
  (forall i a, zget l (Z.of_nat i) = Some a -> lists (f i a) (P (Z.of_nat i) a)) ->
  lists (flat (imap f l)) (fun r => exists i a, zget l i = Some a /\ P i a r).
Proof.
  assert (E : imap f l = (fun x => f x.1 x.2) <$> imap pair l).
  { apply list_eq. intros i. rewrite list_lookup_fmap, !list_lookup_imap. by destruct (l !! i). }
  rewrite E. intros H. eapply lists_iff.
  - apply (lists_fmap _ _ (fun x => P (Z.of_nat x.1) x.2)). intros [i a] (j & b & [= <- <-] & Hi)%elem_of_lookup_imap_1.
    apply H. by rewrite zget_of_nat.
  - intros r. simpl. split.
    + intros ([i a] & (j & b & [= <- <-] & Hi)%elem_of_lookup_imap_1 & Hp). exists (Z.of_nat i), a. by rewrite zget_of_nat.
    + intros (i & a & [Hr Hi]%zget_Some & Hp). exists (Z.to_nat i, a). split; [by apply elem_of_lookup_imap_2|]. simpl. by rewrite Z2Nat.id by lia.
Qed.

Section Listing.
Context (mods : Z -> option wah_module_env) (m : memory).

(** The enumeration reads the slots [P]. *)
Definition reads (x : option (list Z)) (P : Z -> Prop) : Prop := lists x (fun r => exists p, P p /\ slots m !! p = Some r).

Lemma reads_iff x P Q : reads x P -> (forall p, P p <-> Q p) -> reads x Q.
Proof. intros H E. eapply lists_iff; [exact H|]. intros r. by setoid_rewrite E. Qed.
Lemma reads_none (P : Z -> Prop) : (forall p, ~ P p) -> reads (Some []) P.
Proof. intros H. apply lists_none. intros r (p & Hp & _). by apply (H p). Qed.
Lemma reads_slot p : reads (visit_slot m p) (eq p).
Proof.
  unfold visit_slot. intros rs E r. destruct (slots m !! p) as [x|] eqn:Ep; [|done]. injection E as <-.
  rewrite list_elem_of_singleton. split; [intros ->; by exists p|]. intros (q & <- & Hq). congruence.
Qed.
Lemma reads_cons x l P Q : reads x P -> reads (flat l) Q -> reads (flat (x :: l)) (fun p => P p \/ Q p).
Proof. intros Hx Hl. eapply lists_iff; [by apply lists_cons|]. intros r. simpl. naive_solver. Qed.
Lemma reads_nil : reads (flat []) (fun _ => False).
Proof. apply reads_none. by intros p []. Qed.
Lemma reads_zrange (f : Z -> option (list Z)) lo n (P : Z -> Z -> Prop) : (forall i, lo <= i < n -> reads (f i) (P i)) ->
  reads (flat (f <$> zrange lo n)) (fun p => exists i, lo <= i < n /\ P i p).
Proof. intros H. eapply lists_iff; [exact (lists_zrange f lo n (fun i r => exists p, P i p /\ slots m !! p = Some r) H)|]. intros r. simpl. naive_solver. Qed.
Lemma reads_fmap {A} (f : A -> option (list Z)) l (P : A -> Z -> Prop) : (forall a, a ∈ l -> reads (f a) (P a)) ->
  reads (flat (f <$> l)) (fun p => exists a, a ∈ l /\ P a p).
Proof. intros H. eapply lists_iff; [exact (lists_fmap f l (fun a r => exists p, P a p /\ slots m !! p = Some r) H)|]. intros r. simpl. naive_solver. Qed.
Lemma reads_imap {A} (f : nat -> A -> option (list Z)) l (P : Z -> A -> Z -> Prop) :
  (forall i a, zget l (Z.of_nat i) = Some a -> reads (f i a) (P (Z.of_nat i) a)) ->
  reads (flat (imap f l)) (fun p => exists i a, zget l i = Some a /\ P i a p).
Proof. intros H. eapply lists_iff; [exact (lists_imap f l (fun i a r => exists p, P i a p /\ slots m !! p = Some r) H)|]. intros r. simpl. naive_solver. Qed.

Lemma reads_typed ts base : reads (visit_typed m ts base) (typed_place ts base).
Proof.
  eapply reads_iff; [apply (reads_imap _ _ (fun i t p => WAH_TYPE_IS_REF t = true /\ p = slot_at base i))|].
  - intros i t _. destruct (WAH_TYPE_IS_REF t); [|apply reads_none; by intros p []].
    eapply reads_iff; [apply reads_slot|]. naive_solver.
  - intros p. unfold typed_place. naive_solver.
Qed.

(** *** Frames *)

Lemma reads_if (b : bool) x (P : Z -> Prop) : (b = true -> reads x P) -> (b = false -> forall p, ~ P p) ->
  reads (if b then x else Some []) P.
Proof. destruct b; intros H1 H2; [by apply H1|]. by apply reads_none, H2. Qed.
Lemma reads_unless (b : bool) x (P : Z -> Prop) : (b = false -> reads x P) -> (b = true -> forall p, ~ P p) ->
  reads (if b then Some [] else x) P.
Proof. destruct b; intros H1 H2; [|by apply H1]. by apply reads_none, H2. Qed.
Lemma reads_bind {A} (x : option A) f P : (forall a, x = Some a -> reads (f a) P) -> reads (x ≫= f) P.
Proof. apply lists_bind. Qed.

Lemma reads_runs body locals n :
  reads (visit_runs m body locals n) (fun p => exists i, ref_local body i /\ p = slot_at locals (n + i)).
Proof.
  eapply reads_iff.
  - apply (reads_zrange _ _ _ (fun k p => exists i r, zget (local_runs body) k = Some r /\ WAH_TYPE_IS_REF (run_type r) = true /\
      match zget (local_runs body) (k - 1) with Some before => run_end before | None => 0 end <= i < run_end r /\ p = slot_at locals (n + i))).
    intros k Hk. apply reads_bind. intros r Hr. apply reads_unless; intros Et.
    2: { intros p (i & ? & ? & ? & _). simplify_eq. by rewrite H0 in Et. }
    apply negb_false_iff in Et. apply reads_bind. intros start Hs.
    assert (match zget (local_runs body) (k - 1) with Some before => run_end before | None => 0 end = start) as ->.
    { unfold wah_local_run_start in Hs. destruct (Z.ltb_spec 0 k).
      - destruct (zget (local_runs body) (k - 1)); [|done]. by injection Hs.
      - unfold zget. destruct (Z.ltb_spec (k - 1) 0); [|lia]. by injection Hs. }
    eapply reads_iff; [apply reads_zrange; intros i _; apply reads_slot|]. intros p. split.
    + intros (i & Hi & <-). by exists i, r.
    + intros (i & r' & Hr' & _ & Hi & ->). simplify_eq. by exists i.
  - intros p. unfold ref_local. split.
    + intros (k & _ & i & r & H1 & H2 & H3 & ->). exists i. split; [by exists k, r|done].
    + intros (i & (k & r & H1 & H2 & H3) & ->). exists k. apply zget_Some in H1 as H0. split; [apply H0|]. by exists i, r.
Qed.

Lemma reads_ref_map nodes base depth fuel n :
  reads (visit_ref_map m fuel nodes base depth n) (fun p => exists pos, ref_map_lists nodes n pos /\ pos < depth /\ p = slot_at base pos).
Proof.
  revert n. induction fuel as [|fuel IH]; intros n; simpl; (destruct (Z.eqb_spec n 0) as [->|Hn]; [apply reads_none; intros p (pos & H & _); by inversion H|]); [done|].
  apply reads_bind. intros nd Hnd. eapply lists_iff.
  - apply lists_app; [|apply IH].
    apply (reads_if _ _ (fun p => node_pos nd < depth /\ p = slot_at base (node_pos nd))).
    + intros Hd%Z.ltb_lt. eapply reads_iff; [apply reads_slot|]. naive_solver.
    + intros Hd%Z.ltb_ge p [? _]. lia.
  - intros r. simpl. split.
    + intros [(p & (Hd & ->) & Hr)|(p & (pos & Hl & Hd & ->) & Hr)]; (eexists; split; [|exact Hr]).
      * exists (node_pos nd). split; [by apply rm_here|done].
      * exists pos. split; [by eapply rm_parent|done].
    + intros (p & (pos & Hl & Hd & ->) & Hr). inversion Hl as [? nd' _ Hnd'|? nd' ? _ Hnd' Hl']; simplify_eq; [left|right]; (eexists; split; [|exact Hr]); [done|by exists pos].
Qed.

Lemma reads_operands c d f code ft :
  reads (visit_operands m c d f code (zlen (param_types ft))) (fun p => exists top pos limit,
    let base := slot_at (fr_locals f) (zlen (param_types ft) + local_count (fc_body code)) in
    zget (fc_poll_ref_tops code) (fr_poll_idx f) = Some top /\ ref_map_lists (fc_ref_nodes code) top pos /\
    operands_limit c d = Some limit /\ pos < slots_between base limit /\ p = slot_at base pos).
Proof.
  unfold visit_operands. apply reads_if.
  - intros _. apply reads_bind. intros limit Hl. apply reads_bind. intros top Ht.
    eapply reads_iff; [apply reads_ref_map|]. intros p. split.
    + intros (pos & H1 & H2 & ->). by exists top, pos, limit.
    + intros (top' & pos & limit' & H1 & H2 & H3 & H4 & ->). unfold operands_limit in H3. simplify_eq. by exists pos.
  - intros H%Z.ltb_ge p (top & pos & limit & Ht & _). apply zget_Some in Ht. lia.
Qed.

Lemma reads_frame c d : reads (visit_frame mods m c d) (fun p => exists f code M ti ft,
  zget (cx_frames c) d = Some f /\ fr_code f = Some code /\ mods (fr_module f) = Some M /\
  zget (function_type_indices M) (fr_func_idx f) = Some ti /\ zget (types (env_types M)) ti = Some ft /\ frame_place c d f code ft p).
Proof.
  unfold visit_frame. apply reads_bind. intros f Hf. destruct (fr_code f) as [code|] eqn:Ec.
  2: { apply reads_none. intros p (? & ? & ? & ? & ? & ? & ? & _). congruence. }
  apply reads_bind. intros M HM. apply reads_bind. intros ti Hti. apply reads_bind. intros ft Hft.
  eapply reads_iff; [apply reads_cons; [apply reads_typed|apply reads_cons; [apply reads_runs|apply reads_cons; [apply reads_operands|apply reads_nil]]]|].
  intros p. split.
  - intros Hp. exists f, code, M, ti, ft. repeat (split; [done|]).
    destruct Hp as [Hp|[(i & Hi & ->)|[(top & pos & limit & H1 & H2 & H3 & H4 & ->)|[]]]]; [by apply fp_param|by apply fp_local|].
    by eapply fp_operand.
  - intros (f' & code' & M' & ti' & ft' & H1 & H2 & H3 & H4 & H5 & Hp). simplify_eq.
    destruct Hp as [p Hp|i Hi|top pos limit base H1' H2' H3' H4']; [by left|right; left; by exists i|right; right; left].
    by exists top, pos, limit.
Qed.

Lemma reads_frames c : reads (visit_frames mods m c) (fun p => exists d f code M ti ft,
  0 <= d < (if bool_decide (cx_state c = WAH_EXEC_TRAPPED) then cx_base_call_depth c else cx_call_depth c) /\
  zget (cx_frames c) d = Some f /\ fr_code f = Some code /\ mods (fr_module f) = Some M /\
  zget (function_type_indices M) (fr_func_idx f) = Some ti /\ zget (types (env_types M)) ti = Some ft /\ frame_place c d f code ft p).
Proof.
  eapply reads_iff; [apply reads_zrange; intros d _; apply reads_frame|]. intros p. simpl. split.
  - intros (d & Hd & f & code & M & ti & ft & H). by exists d, f, code, M, ti, ft.
  - intros (d & f & code & M & ti & ft & Hd & H). exists d. split; [done|]. by exists f, code, M, ti, ft.
Qed.

(** *** Host functions and results *)

Lemma reads_entry c : reads (visit_entry_host m c) (fun p => exists fn,
  cx_entry_fn c = Some fn /\ is_host fn = true /\ (cx_state c = WAH_EXEC_SUSPENDED \/ cx_state c = WAH_EXEC_RUNNING) /\
  (typed_place (fn_params fn) (cx_base_sp c) p \/ typed_place (fn_results fn) (slot_at (cx_base_sp c) (zlen (fn_params fn))) p)).
Proof.
  unfold visit_entry_host. destruct (cx_entry_fn c) as [fn|]; [|apply reads_none; by intros p (fn & ? & _)]. apply reads_if.
  - intros [H1 H2%orb_prop]%andb_prop. rewrite !bool_decide_eq_true in H2.
    eapply reads_iff; [apply reads_cons; [apply reads_typed|apply reads_cons; [apply reads_typed|apply reads_nil]]|].
    intros p. split; [|naive_solver]. intros [H|[H|[]]]; exists fn; auto.
  - intros H p (fn' & [= <-] & H1 & H2 & _). rewrite H1 in H. simpl in H. apply orb_false_elim in H as [H3 H4].
    rewrite !bool_decide_eq_false in H3, H4. by destruct H2.
Qed.

Lemma reads_host_call ctx c : reads (visit_host_call m ctx c) (fun p => exists g fn,
  cx_gc c <> 0 /\ heaps m !! cx_gc c = Some g /\ owner g = ctx /\ host_call_fn g = Some fn /\
  typed_place (fn_results fn) (host_call_results g) p).
Proof.
  unfold visit_host_call. apply reads_unless; [intros Hn%Z.eqb_neq|intros Hn%Z.eqb_eq p (? & ? & ? & _); done].
  apply reads_bind. intros g Hg. apply reads_unless.
  - intros Ho%negb_false_iff%Z.eqb_eq. destruct (host_call_fn g) as [fn|] eqn:Ef.
    + eapply reads_iff; [apply reads_typed|]. intros p. split; [intros Hp; by exists g, fn|]. intros (? & ? & ? & ? & ? & ? & ?). by simplify_eq.
    + apply reads_none. intros p (? & ? & ? & ? & ? & ? & _). by simplify_eq.
  - intros Ho%negb_true_iff%Z.eqb_neq p (? & ? & ? & ? & ? & _). by simplify_eq.
Qed.

Lemma reads_finished c : reads (visit_finished m c) (fun p => exists fn i t,
  cx_state c = WAH_EXEC_FINISHED /\ cx_entry_fn c = Some fn /\ 0 <= i < cx_entry_result_count c /\
  zget (fn_results fn) i = Some t /\ WAH_TYPE_IS_REF t = true /\ p = slot_at (cx_sp c) (i - cx_entry_result_count c)).
Proof.
  unfold visit_finished. apply reads_if; [intros Hs%bool_decide_eq_true|intros Hs%bool_decide_eq_false p (? & ? & ? & ? & _); done].
  unfold wah_entry_result_types. destruct (cx_entry_fn c) as [fn|]; simpl; [|apply reads_none; by intros p (? & ? & ? & ? & ? & _)].
  eapply reads_iff.
  - apply (reads_zrange _ _ _ (fun i p => exists t, zget (fn_results fn) i = Some t /\ WAH_TYPE_IS_REF t = true /\
      p = slot_at (cx_sp c) (i - cx_entry_result_count c))).
    intros i _. apply reads_bind. intros t Ht. apply reads_if.
    + intros Hr. eapply reads_iff; [apply reads_slot|]. naive_solver.
    + intros Hr p (t' & ? & Hr' & _). simplify_eq. by rewrite Hr' in Hr.
  - intros p. split.
    + intros (i & Hi & t & H). by exists fn, i, t.
    + intros (fn' & i & t & _ & [= <-] & Hi & H). exists i. split; [done|]. by exists t.
Qed.

(** *** Globals and tables *)

Lemma reads_globals M globals : reads (wah_gc_visit_module_globals m M globals) (global_place m M globals).
Proof.
  unfold wah_gc_visit_module_globals. eapply reads_iff.
  - apply (reads_zrange _ _ _ (fun i p => exists t, wah_global_type M i = Some t /\ WAH_TYPE_IS_REF t = true /\
      match zget (global_imports M) i with
      | Some gi => if global_mutable gi then slots m !! slot_at globals i = Some p /\ p <> 0 else p = slot_at globals i
      | None => p = slot_at globals i
      end)).
    intros i Hi. apply reads_bind. intros t Ht. apply reads_unless; [intros Hr%negb_false_iff|intros Hr%negb_true_iff p (t' & ? & Hr' & _); simplify_eq; by rewrite Hr' in Hr].
    assert (Hd : reads (visit_slot m (slot_at globals i)) (fun p => exists t, wah_global_type M i = Some t /\ WAH_TYPE_IS_REF t = true /\ p = slot_at globals i)).
    { eapply reads_iff; [apply reads_slot|]. intros p. split; [intros <-; by exists t|]. by intros (? & _ & _ & ->). }
    destruct (Z.ltb_spec i (zlen (global_imports M))).
    + apply reads_bind. intros b Hb. destruct (zget (global_imports M) i) as [gi|]; [|done]. injection Hb as <-.
      destruct (global_mutable gi); [|exact Hd]. apply reads_bind. intros q Hq. apply reads_unless.
      * intros Hn%Z.eqb_neq. eapply reads_iff; [apply reads_slot|]. intros p. split; [intros <-; by exists t|].
        intros (? & _ & _ & ? & _). by simplify_eq.
      * intros ->%Z.eqb_eq p (? & _ & _ & ? & ?). by simplify_eq.
    + apply reads_bind. intros b [= <-]. rewrite zget_None by done. exact Hd.
  - intros p. unfold global_place. split.
    + intros (i & Hi & t & H). by exists i, t.
    + intros (i & t & Hi & H). exists i. split; [done|]. by exists t.
Qed.

Lemma global_limit_pos M globals p : global_place m M globals p -> 0 < wah_global_index_limit M.
Proof. intros (i & t & Hi & _). lia. Qed.

Lemma reads_linked_globals globals o ls : reads (visit_linked_globals mods m globals o ls) (fun p => exists o' l L,
  linked_at mods o ls o' l /\ mods (lm_module l) = Some L /\ (lm_ctx l = 0 \/ lm_owns_ctx l = true) /\
  global_place m L (slot_at globals o') p).
Proof.
  revert o. induction ls as [|l ls IH]; intros o; simpl.
  { apply reads_none. intros p (? & ? & ? & H & _). inversion H. }
  apply reads_bind. intros L HL. eapply lists_iff.
  - apply lists_app; [|apply IH].
    apply (reads_if _ _ (fun p => (lm_ctx l = 0 \/ lm_owns_ctx l = true) /\ global_place m L (slot_at globals o) p)).
    + intros [_ Ho%orb_prop]%andb_prop. rewrite Z.eqb_eq in Ho. eapply reads_iff; [apply reads_globals|]. naive_solver.
    + intros H p [Ho Hp]. pose proof (global_limit_pos _ _ _ Hp) as Hl%Z.ltb_lt. rewrite Hl in H. simpl in H.
      apply orb_false_elim in H as [H1%Z.eqb_neq H2]. destruct Ho; congruence.
  - intros r. simpl. split.
    + intros [(p & [Ho Hp] & Hr)|(p & (o' & l' & L' & Ha & H) & Hr)]; (exists p; split; [|exact Hr]).
      * exists o, l, L. split; [apply la_here|done].
      * exists o', l', L'. split; [by eapply la_next|done].
    + intros (p & (o' & l' & L' & Ha & HL' & Ho & Hp) & Hr). inversion Ha as [|? ? ? M ? ? HM Hat]; simplify_eq; [left|right]; exists p; (split; [|exact Hr]).
      * done.
      * by exists o', l', L'.
Qed.

Lemma reads_tables M tabs : reads (visit_tables m M tabs) (table_place M tabs).
Proof.
  unfold visit_tables. eapply reads_iff.
  - apply (reads_imap _ _ (fun t ti p => exists tt e, ti_is_imported ti = false /\ wah_table_type M t = Some tt /\
      WAH_TYPE_IS_REF (elem_type tt) = true /\ 0 <= e < ti_size ti /\ p = slot_at (ti_entries ti) e)).
    intros t ti Hti. apply reads_unless; [intros Hi|intros Hi p (? & ? & ? & _); congruence].
    apply reads_bind. intros tt Htt. apply reads_if.
    + intros Hr. eapply reads_iff; [apply reads_zrange; intros e _; apply reads_slot|]. intros p. split.
      * intros (e & He & <-). by exists tt, e.
      * intros (tt' & e & _ & _ & _ & He & ->). by exists e.
    + intros Hr p (tt' & e & _ & ? & Hr' & _). simplify_eq. by rewrite Hr' in Hr.
  - intros p. unfold table_place. split.
    + intros (t & ti & Hti & tt & e & H1 & H). by exists t, ti, tt, e.
    + intros (t & ti & tt & e & Hti & H1 & H). exists t, ti. split; [done|]. by exists tt, e.
Qed.

Lemma reads_owned_tables ls : reads (visit_owned_tables mods m ls) (fun p => exists l lc L,
  l ∈ ls /\ lm_ctx l <> 0 /\ lm_owns_ctx l = true /\ ctxs m !! lm_ctx l = Some lc /\
  mods (lm_module l) = Some L /\ table_place L (cx_tables lc) p).
Proof.
  eapply reads_iff.
  - apply (reads_fmap _ _ (fun l p => exists lc L, lm_ctx l <> 0 /\ lm_owns_ctx l = true /\ ctxs m !! lm_ctx l = Some lc /\
      mods (lm_module l) = Some L /\ table_place L (cx_tables lc) p)).
    intros l _. apply reads_unless.
    + intros [Hn%Z.eqb_neq Ho%negb_false_iff]%orb_false_elim. apply reads_bind. intros lc Hc. apply reads_bind. intros L HL.
      eapply reads_iff; [apply reads_tables|]. intros p. split; [intros Hp; by exists lc, L|]. intros (? & ? & _ & _ & ? & ? & ?). by simplify_eq.
    + intros [Hn%Z.eqb_eq|Ho%negb_true_iff]%orb_prop p (? & ? & ? & ? & _); congruence.
  - intros p. split.
    + intros (l & Hl & lc & L & H). by exists l, lc, L.
    + intros (l & lc & L & Hl & H). exists l. split; [done|]. by exists lc, L.
Qed.

(** *** Contexts *)

Lemma lists_pins c : lists (wah_gc_visit_pins c) (fun r => r ∈ cx_pins c /\ r <> 0).
Proof.
  intros rs [= <-] r. rewrite !list_elem_of_In, List.filter_In, negb_true_iff, Z.eqb_neq. done.
Qed.

(** [wah_gc_enumerate_roots] lists the roots. *)
Lemma enumerated_roots ctx c : ctxs m !! ctx = Some c -> lists (wah_gc_enumerate_roots mods m ctx) (root mods m ctx c).
Proof.
  intros Hc. unfold wah_gc_enumerate_roots. rewrite Hc. simpl. apply lists_bind. intros M HM. eapply lists_iff.
  - apply lists_cons; [apply reads_frames|]. apply lists_cons; [apply reads_entry|]. apply lists_cons; [apply reads_host_call|].
    apply lists_cons; [apply reads_finished|]. apply lists_cons; [apply reads_globals|]. apply lists_cons; [apply reads_linked_globals|].
    apply lists_cons; [apply lists_pins|]. apply lists_cons; [apply reads_tables|]. apply lists_cons; [apply reads_owned_tables|].
    apply lists_cons; [|apply lists_nil].
    intros rs E. injection E as <-. intros r. apply (iff_refl (r ∈ _)).
  - intros r. simpl. split.
    + intros [(p & Hp & Hr)|[(p & Hp & Hr)|[(p & Hp & Hr)|[(p & Hp & Hr)|[(p & Hp & Hr)|[(p & Hp & Hr)|[Hr|[(p & Hp & Hr)|[(p & Hp & Hr)|[Hr|[]]]]]]]]]]].
      7: { destruct Hr. by apply root_pin. }
      9: { destruct (Z.eqb_spec (cx_pending_exception c) 0); [by apply elem_of_nil in Hr|]. apply list_elem_of_singleton in Hr as ->. by apply root_exception. }
      all: apply (root_slot _ _ _ _ p); [|done].
      * destruct Hp as (d & f & code & M' & ti & ft & H1 & H2 & H3 & H4 & H5 & H6 & H7). by eapply rp_frame.
      * destruct Hp as (fn & H1 & H2 & H3 & H4). by eapply rp_entry.
      * destruct Hp as (g & fn & H1 & H2 & H3 & H4 & H5). by eapply rp_host_call.
      * destruct Hp as (fn & i & t & H1 & H2 & H3 & H4 & H5 & ->). by eapply rp_finished.
      * eapply rp_global; [exact HM|done].
      * destruct Hp as (o & l & L & H1 & H2 & H3 & H4). eapply rp_linked_global; [exact HM|done..].
      * eapply rp_table; [exact HM|done].
      * destruct Hp as (l & lc & L & H1 & H2 & H3 & H4 & H5 & H6). by eapply rp_owned_table.
    + intros [p r' Hp Hr|r' Hr Hn|Hn].
      * destruct Hp.
        -- left. exists p. split; [|done]. by exists d, f, code, M0, ti, ft.
        -- right; left. exists p. split; [|done]. by exists fn.
        -- do 2 right; left. exists p. split; [|done]. by exists g, fn.
        -- do 3 right; left. eexists. split; [|done]. by exists fn, i, t.
        -- do 4 right; left. exists p. split; [|done]. by simplify_eq.
        -- do 5 right; left. exists p. split; [|done]. simplify_eq. by exists o, l, L.
        -- do 7 right; left. exists p. split; [|done]. by simplify_eq.
        -- do 8 right; left. exists p. split; [|done]. by exists l, lc, L.
      * do 6 right; left. done.
      * do 9 right; left. apply Z.eqb_neq in Hn as ->. by apply list_elem_of_singleton.
Qed.

Lemma context_roots_listed ctx a : lists (context_roots mods m ctx a) (context_root mods m ctx a).
Proof.
  unfold context_roots. apply lists_bind. intros c Hc.
  assert (E : negb (a =? ctx) && negb (cx_is_instantiated c) && negb (cx_may_share_refs c) =
    negb ((a =? ctx) || cx_is_instantiated c || cx_may_share_refs c)) by by rewrite !negb_orb.
  rewrite E. eapply lists_iff; [|intros r; split; [intros H; exists c; split; [exact Hc|exact H]|intros (c' & Hc' & H); simplify_eq; exact H]].
  destruct ((a =? ctx) || cx_is_instantiated c || cx_may_share_refs c); simpl; [by apply enumerated_roots|apply lists_pins].
Qed.

(** The roots of a domain, when they can be enumerated. *)
Lemma domain_roots_listed ctx r : (forall a, rtc (linked m) ctx a -> is_Some (context_roots mods m ctx a)) ->
  is_root mods m ctx r <-> exists a rs, rtc (linked m) ctx a /\ context_roots mods m ctx a = Some rs /\ r ∈ rs.
Proof.
  intros Hd. split.
  - intros (a & Ha & Hr). destruct (Hd a Ha) as [rs E]. exists a, rs. split; [done|]. split; [done|]. by apply (context_roots_listed ctx a rs E).
  - intros (a & rs & Ha & E & Hr). exists a. split; [done|]. by apply (context_roots_listed ctx a rs E).
Qed.
End Listing.
