(* ===== verification/GcSweep.v ===== *)
(** * Sweeping a heap

    [sweep_heap] frees exactly the objects it is told to, relinks the others in their
    order, and the counts of the heap and the budget of its owner follow. *)

From S2P Require Import Prelude Base Types Bytes Alloc ModuleEnv Analyze Heap GcRoots Gc Total GcGraph.
From stdpp Require Import gmap list.
#[local] Open Scope Z_scope.
#[local] Open Scope wah_scope.

(** ** Definitions *)

(** What an object is apart from its link and its tags. *)
Definition contents (o : wah_gc_object_t) : wah_gc_object_t := set_next_tagged 0 o.

(** The objects linked from [a] up to the link [b]. *)
Fixpoint segment (O : gmap Z wah_gc_object_t) (a : Z) (l : list Z) (b : Z) : Prop :=
  match l with
  | [] => a = b
  | x :: l' => a = x /\ x <> 0 /\ exists o, O !! x = Some o /\ segment O (wah_gc_next o) l' b
  end.

Definition obj_is (O : gmap Z wah_gc_object_t) (P : wah_gc_object_t -> bool) (x : Z) : bool :=
  match O !! x with Some o => P o | None => false end.
Definition is_exception (o : wah_gc_object_t) : bool := obj_repr_id o =? WAH_TYPE_EXN.
Definition sizes (O : gmap Z wah_gc_object_t) (l : list Z) : Z :=
  foldr (fun x n => match O !! x with Some o => size_bytes o + n | None => n end) 0 l.
Definition count_if (P : Z -> bool) (l : list Z) : Z := zlen (List.filter P l).

(** ** Theorems *)

Lemma chain_segment O a l : chain O a l <-> segment O a l 0.
Proof.
  revert a. induction l as [|x l IH]; intros a; simpl; [done|].
  split; intros (-> & Hx & o & Ho & H); (split; [done|]; split; [done|]; exists o; split; [done|]; by apply IH).
Qed.
Lemma segment_app O a l1 l2 b : segment O a (l1 ++ l2) b <-> exists c, segment O a l1 c /\ segment O c l2 b.
Proof.
  revert a. induction l1 as [|x l1 IH]; intros a; simpl.
  - split; [intros; by exists a|]. by intros (c & -> & ?).
  - split.
    + intros (-> & Hx & o & Ho & (c & H1 & H2)%IH). exists c. split; [|done]. eauto.
    + intros (c & (-> & Hx & o & Ho & H1) & H2). split; [done|]. split; [done|]. exists o. split; [done|]. apply IH. eauto.
Qed.
Lemma segment_frame O O' a l b : (forall x, x ∈ l -> wah_gc_next <$> O' !! x = wah_gc_next <$> O !! x) ->
  segment O a l b -> segment O' a l b.
Proof.
  revert a. induction l as [|x l IH]; intros a HO; simpl; [done|]. intros (-> & Hx & o & Ho & H).
  pose proof (HO x ltac:(left)) as E. rewrite Ho in E. destruct (O' !! x) as [o'|]; [|done]. injection E as E.
  split; [done|]. split; [done|]. exists o'. split; [done|]. rewrite E. apply IH; [|done]. intros y Hy. apply HO. by right.
Qed.
Lemma next_aligned o : wah_gc_next o mod 4 = 0.
Proof. unfold wah_gc_next. change WAH_GC_TAG_MASK with 3. rewrite land_not_mask, Z.mul_comm. apply Z_mod_mult. Qed.

Lemma contents_set_next o n : contents (wah_gc_set_next o n) = contents o.
Proof. by destruct o. Qed.

(** Unlinking [x], after the objects [kept]. *)
Lemma unlink_first O a x l2 b o : NoDup (x :: l2) -> segment O a (x :: l2) b -> O !! x = Some o ->
  segment (delete x O) (wah_gc_next o) l2 b.
Proof.
  intros [Hx _]%NoDup_cons (-> & _ & o' & Ho' & H) Ho. simplify_eq. eapply segment_frame; [|exact H].
  intros y Hy. rewrite lookup_delete_ne by set_solver. done.
Qed.
Lemma unlink_next O a l1 p x l2 b op o : NoDup (l1 ++ p :: x :: l2) -> segment O a (l1 ++ p :: x :: l2) b ->
  O !! p = Some op -> O !! x = Some o ->
  segment (delete x (<[p := wah_gc_set_next op (wah_gc_next o)]> O)) a (l1 ++ p :: l2) b.
Proof.
  intros Hnd H Hp Hx. apply NoDup_app in Hnd as (N1 & N2 & N3). apply NoDup_cons in N3 as [Np N3].
  apply segment_app in H as (c & H1 & (-> & Hp0 & op' & Hop' & (_ & Hx0 & o' & Ho' & H2))). simplify_eq.
  assert (Hpx : p <> x) by set_solver. apply NoDup_cons in N3 as [Nx N3].
  apply segment_app. exists p. split.
  - eapply segment_frame; [|exact H1]. intros y Hy. pose proof (N2 y Hy).
    rewrite lookup_delete_ne, lookup_insert_ne by set_solver. done.
  - split; [done|]. split; [done|]. exists (wah_gc_set_next op' (wah_gc_next o')).
    rewrite lookup_delete_ne, lookup_insert_eq by done. split; [done|].
    rewrite next_set_next by apply next_aligned. eapply segment_frame; [|exact H2]. intros y Hy.
    rewrite lookup_delete_ne, lookup_insert_ne by set_solver. done.
Qed.

Lemma sizes_frame O O' l : (forall x, x ∈ l -> contents <$> O' !! x = contents <$> O !! x) -> sizes O' l = sizes O l.
Proof.
  induction l as [|x l IH]; intros H; simpl; [done|]. rewrite IH by (intros; apply H; by right).
  specialize (H x ltac:(left)). destruct (O' !! x) as [o'|], (O !! x) as [o|]; simpl in H; try done.
  injection H as _ -> _ _. done.
Qed.
Lemma obj_is_contents O O' P x : (forall o, P (contents o) = P o) -> contents <$> O' !! x = contents <$> O !! x ->
  obj_is O' P x = obj_is O P x.
Proof.
  intros HP H. unfold obj_is. destruct (O' !! x) as [o'|], (O !! x) as [o|]; simpl in H; try done.
  rewrite <- (HP o'), <- (HP o). apply (inj Some) in H. by rewrite H.
Qed.
Lemma filter_ext_in' {A} (P Q : A -> bool) l : (forall x, x ∈ l -> P x = Q x) -> List.filter P l = List.filter Q l.
Proof.
  induction l as [|x l IH]; intros H; simpl; [done|]. rewrite (H x) by left. rewrite IH; [done|]. intros; apply H; by right.
Qed.

(** *** The loop *)
Record books (m : memory) (h : Z) (g : wah_gc_state_t) (oc : wah_exec_context_t) (l : list Z) : Prop := {
  bk_heap : heaps m !! h = Some g;
  bk_chain : segment (objs m) (all_objects g) l 0;
  bk_NoDup : NoDup l;
  bk_count : object_count g = zlen l;
  bk_exn : exception_count g = count_if (obj_is (objs m) is_exception) l;
  bk_bytes : allocated_bytes g = sizes (objs m) l;
  bk_owner : ctxs m !! owner g = Some oc;
  bk_budget : sizes (objs m) l <= memory_bytes_committed (cx_budget oc);
  bk_sizes x o : objs m !! x = Some o -> 0 <= size_bytes o;
  bk_bounds : zlen l < 2 ^ 32 /\ sizes (objs m) l < 2 ^ 64 }.

Definition spend (n : Z) (c : wah_exec_context_t) : wah_exec_context_t :=
  cx_set_budget (Budget (max_memory_bytes (cx_budget c)) (memory_bytes_committed (cx_budget c) - n)) c.

(** [m'] is [m] without the objects of [scope] that are not in [kept]. *)
Record swept (h : Z) (g : wah_gc_state_t) (oc : wah_exec_context_t) (kept scope : list Z) (m m' : memory) : Prop := {
  sw_heap : exists a, chain (objs m') a kept /\
    heaps m' = <[h := gc_set_objects a (zlen kept) (count_if (obj_is (objs m) is_exception) kept) (sizes (objs m) kept) g]> (heaps m);
  sw_ctxs : ctxs m' = <[owner g := spend (sizes (objs m) scope - sizes (objs m) kept) oc]> (ctxs m);
  sw_objs x : contents <$> objs m' !! x = if decide (x ∈ scope /\ x ∉ kept) then None else contents <$> objs m !! x;
  sw_rest x : x ∉ scope -> objs m' !! x = objs m !! x;
  sw_slots : slots m' = slots m;
  sw_blocks : blocks m' = blocks m;
  sw_more : more m' = more m }.

Lemma sizes_app O l1 l2 : sizes O (l1 ++ l2) = sizes O l1 + sizes O l2.
Proof. induction l1 as [|x l1 IH]; simpl; [done|]. rewrite IH. destruct (O !! x); lia. Qed.
Lemma sizes_nonneg O l : (forall x o, O !! x = Some o -> 0 <= size_bytes o) -> 0 <= sizes O l.
Proof. intros H. induction l as [|x l IH]; simpl; [lia|]. destruct (O !! x) eqn:E; [|done]. pose proof (H _ _ E). lia. Qed.
Lemma count_if_app P l1 l2 : count_if P (l1 ++ l2) = count_if P l1 + count_if P l2.
Proof. unfold count_if, zlen. rewrite List.filter_app, length_app. lia. Qed.
Lemma count_if_bounds P l : 0 <= count_if P l <= zlen l.
Proof.
  unfold count_if, zlen. pose proof (List.filter_length_le P l). lia.
Qed.

(** Everything but the links of the objects left agrees. *)
Definition linked_like (O O' : gmap Z wah_gc_object_t) (l : list Z) : Prop :=
  forall y, y ∈ l -> contents <$> O' !! y = contents <$> O !! y.
Lemma linked_like_books O O' l : linked_like O O' l ->
  sizes O' l = sizes O l /\ count_if (obj_is O' is_exception) l = count_if (obj_is O is_exception) l.
Proof.
  intros H. split; [by apply sizes_frame|]. unfold count_if. f_equal. apply filter_ext_in'.
  intros x Hx. apply obj_is_contents; [by intros []|by apply H].
Qed.

(** The memory after [x] is unlinked from between [kept] and its successors, and freed. *)
Definition drop_object (h x : Z) (prev : Z) (g : wah_gc_state_t) (oc : wah_exec_context_t) (o : wah_gc_object_t) (m : memory) : memory :=
  let O1 := match objs m !! prev with
            | Some op => if prev =? 0 then objs m else <[prev := wah_gc_set_next op (wah_gc_next o)]> (objs m)
            | None => objs m end in
  let a := if prev =? 0 then wah_gc_next o else all_objects g in
  Memory (delete x O1)
    (<[h := gc_set_objects a (u32 (object_count g - 1))
              (if is_exception o then u32 (exception_count g - 1) else exception_count g)
              (u64 (allocated_bytes g - size_bytes o)) g]> (heaps m))
    (<[owner g := spend (size_bytes o) oc]> (ctxs m)) (slots m) (blocks m) (more m).

Lemma sweep_dead fuel dead h prev x m g oc o l :
  books m h g oc l -> x <> 0 -> objs m !! x = Some o -> dead o = true -> x ∈ l ->
  (prev = 0 \/ prev <> x /\ is_Some (objs m !! prev)) ->
  sweep_objects (S fuel) dead h prev x m = sweep_objects fuel dead h prev (wah_gc_next o) (drop_object h x prev g oc o m).
Proof.
  intros B Hx Ho Hd Hin Hp. simpl. destruct (Z.eqb_spec x 0); [done|].
  unfold stm_bind at 1, get_obj, stm_opt. rewrite Ho, Hd.
  assert (Hle : size_bytes o <= memory_bytes_committed (cx_budget oc)).
  { apply list_elem_of_split in Hin as (l1 & l2 & ->). pose proof (bk_budget _ _ _ _ _ B) as H.
    rewrite sizes_app in H. simpl in H. rewrite Ho in H.
    pose proof (sizes_nonneg _ l1 (bk_sizes _ _ _ _ _ B)). pose proof (sizes_nonneg _ l2 (bk_sizes _ _ _ _ _ B)). lia. }
  assert (Hb : wah_budget_release (cx_budget oc) (size_bytes o) =
    Some (Budget (max_memory_bytes (cx_budget oc)) (memory_bytes_committed (cx_budget oc) - size_bytes o))).
  { unfold wah_budget_release. destruct (Z.leb_spec (size_bytes o) (memory_bytes_committed (cx_budget oc))); [done|lia]. }
  destruct B as [Bh _ _ _ _ _ Bo _ _ _]. unfold drop_object, stm_bind, upd_heap, budget_release, free_obj.
  destruct Hp as [->|[Hpx [op Hop]]]; [rewrite Z.eqb_refl; simpl|].
  - unfold stm_bind, get_heap, get_ctx, put_heap, put_ctx, stm_opt. rewrite Bh. simpl.
    rewrite lookup_insert_eq. simpl. rewrite lookup_insert_eq. simpl. rewrite Bo. simpl. rewrite Hb. simpl. rewrite Ho.
    rewrite !insert_insert_eq. destruct (objs m !! 0); reflexivity.
  - rewrite Hop. destruct (Z.eqb_spec prev 0) as [->|Hp0]; simpl.
    + unfold stm_bind, get_heap, get_ctx, put_heap, put_ctx, stm_opt. rewrite Bh. simpl.
      rewrite lookup_insert_eq. simpl. rewrite lookup_insert_eq. simpl. rewrite Bo. simpl. rewrite Hb. simpl. rewrite Ho.
      rewrite !insert_insert_eq. reflexivity.
    + unfold stm_bind, put_obj, get_heap, get_ctx, put_heap, put_ctx, stm_opt. rewrite Hop. simpl. rewrite Bh. simpl.
      rewrite lookup_insert_eq. simpl. rewrite Bo. simpl. rewrite Hb. simpl. rewrite lookup_insert_ne by done. rewrite Ho.
      reflexivity.
Qed.

Definition prev_of (kept : list Z) : Z := default 0 (last kept).
Lemma prev_cases kept : kept = [] /\ prev_of kept = 0 \/ exists l p, kept = l ++ [p] /\ prev_of kept = p.
Proof.
  unfold prev_of. destruct (last kept) as [p|] eqn:E.
  - right. apply last_Some in E as [l ->]. by exists l, p.
  - left. apply last_None in E. by subst.
Qed.

Definition g_after (kept l2 : list Z) (o : wah_gc_object_t) (g : wah_gc_state_t) : wah_gc_state_t :=
  gc_set_objects (if prev_of kept =? 0 then wah_gc_next o else all_objects g) (u32 (object_count g - 1))
    (if is_exception o then u32 (exception_count g - 1) else exception_count g)
    (u64 (allocated_bytes g - size_bytes o)) g.

Lemma segment_elem O a l b x : segment O a l b -> x ∈ l -> x <> 0 /\ exists o, O !! x = Some o.
Proof.
  revert a. induction l as [|y l IH]; intros a; simpl; [by intros _ ?%elem_of_nil|].
  intros (-> & Hy & o & Ho & Hl) [->|Hx]%elem_of_cons; [by split; [|exists o]|by eapply IH].
Qed.

Lemma drop_objs h g oc kept x l2 o m :
  books m h g oc (kept ++ x :: l2) -> objs m !! x = Some o ->
  let m1 := drop_object h x (prev_of kept) g oc o m in
  segment (objs m1) (all_objects (g_after kept l2 o g)) (kept ++ l2) 0 /\
  linked_like (objs m) (objs m1) (kept ++ l2) /\
  (forall y, contents <$> objs m1 !! y = if decide (y = x) then None else contents <$> objs m !! y) /\
  (forall y, y ∉ kept ++ x :: l2 -> objs m1 !! y = objs m !! y).
Proof.
  intros B Ho m1. pose proof (bk_NoDup _ _ _ _ _ B) as Nd. pose proof (bk_chain _ _ _ _ _ B) as Ch.
  assert (Hc : forall y, contents <$> objs m1 !! y = if decide (y = x) then None else contents <$> objs m !! y).
  { intros y. unfold m1, drop_object. simpl. destruct (decide (y = x)) as [->|Hne]; [by rewrite lookup_delete_eq|].
    rewrite lookup_delete_ne by done. destruct (objs m !! prev_of kept) as [op|] eqn:Hop; [|done].
    destruct (prev_of kept =? 0); [done|]. destruct (decide (prev_of kept = y)) as [<-|].
    - rewrite lookup_insert_eq, Hop. simpl. by rewrite contents_set_next.
    - by rewrite lookup_insert_ne. }
  assert (Hnx : x ∉ kept ++ l2).
  { apply NoDup_app in Nd as (_ & N2 & [N3 _]%NoDup_cons). intros [Hx|Hx]%elem_of_app; [by apply (N2 x Hx); left|done]. }
  split; [|split; [|split; [done|]]].
  - unfold m1, drop_object, g_after. destruct (prev_cases kept) as [[-> Hp]|(l & p & -> & Hp)]; rewrite Hp; simpl.
    + simpl in Nd, Ch. pose proof (unlink_first _ _ _ _ _ _ Nd Ch Ho) as H. by destruct (objs m !! 0).
    + rewrite <- app_assoc in Nd, Ch |- *. simpl in Nd, Ch |- *.
      destruct (segment_elem _ _ _ _ p Ch) as [Hp0 [op Hop]]; [set_solver|].
      rewrite Hop. destruct (Z.eqb_spec p 0); [done|]. by apply unlink_next.
  - intros y Hy. rewrite Hc. rewrite decide_False by (intros ->; done). done.
  - intros y Hy. rewrite elem_of_app, elem_of_cons in Hy. unfold m1, drop_object. simpl.
    rewrite lookup_delete_ne by naive_solver. destruct (objs m !! prev_of kept) as [op|]; [|done].
    destruct (Z.eqb_spec (prev_of kept) 0); [done|]. rewrite lookup_insert_ne; [done|]. intros Hpy. apply Hy. left.
    destruct (prev_cases kept) as [[-> Hp]|(l & p & -> & Hp)]; [done|]. rewrite <- Hpy, Hp. set_solver.
Qed.

Lemma drop_sums m kept x l2 o : objs m !! x = Some o ->
  sizes (objs m) (kept ++ x :: l2) = sizes (objs m) (kept ++ l2) + size_bytes o /\
  count_if (obj_is (objs m) is_exception) (kept ++ x :: l2) = count_if (obj_is (objs m) is_exception) (kept ++ l2) + b2z (is_exception o).
Proof.
  intros Ho. rewrite !sizes_app, !count_if_app. simpl. rewrite Ho. split; [lia|].
  unfold count_if at 2. simpl. unfold obj_is at 2. rewrite Ho. unfold count_if, zlen, b2z. destruct (is_exception o); simpl; lia.
Qed.

Lemma drop_books h g oc kept x l2 o m :
  books m h g oc (kept ++ x :: l2) -> objs m !! x = Some o ->
  books (drop_object h x (prev_of kept) g oc o m) h (g_after kept l2 o g) (spend (size_bytes o) oc) (kept ++ l2).
Proof.
  intros B Ho. destruct (drop_objs h g oc kept x l2 o m B Ho) as (Hseg & Hll & Hc & _).
  destruct (linked_like_books _ _ _ Hll) as [Es Ee]. destruct (drop_sums m kept x l2 o Ho) as [Ds De].
  destruct B as [Bh Bc Bn Bl Be Bb Bo Bu Bs [Bd1 Bd2]].
  pose proof (Bs x o Ho). pose proof (sizes_nonneg _ (kept ++ l2) Bs).
  assert (Hz : zlen (kept ++ x :: l2) = zlen (kept ++ l2) + 1) by (unfold zlen; rewrite !length_app; simpl; lia).
  pose proof (count_if_bounds (obj_is (objs m) is_exception) (kept ++ l2)).
  split; rewrite ?Es, ?Ee.
  - unfold drop_object, g_after. simpl. by rewrite lookup_insert_eq.
  - done.
  - apply NoDup_app in Bn as (N1 & N2 & [N3 N4]%NoDup_cons). apply NoDup_app. split; [done|]. split; [|done].
    intros y Hy Hy2. apply (N2 y Hy). by right.
  - simpl. rewrite Bl, Hz. rewrite u32_small; lia.
  - simpl. rewrite Be, De. unfold b2z. destruct (is_exception o); [rewrite u32_small|]; lia.
  - simpl. rewrite Bb, Ds. rewrite u64_small; lia.
  - simpl. by rewrite lookup_insert_eq.
  - simpl. lia.
  - intros y oy Hy. specialize (Hc y). rewrite Hy in Hc. destruct (decide (y = x)); [done|].
    destruct (objs m !! y) as [oy'|] eqn:Ey; [|done]. simpl in Hc. injection Hc as _ -> _ _. by eapply Bs.
  - lia.
Qed.

Lemma drop_exact h g oc kept x l2 o m y : NoDup (kept ++ x :: l2) -> y ∈ l2 ->
  objs (drop_object h x (prev_of kept) g oc o m) !! y = objs m !! y.
Proof.
  intros (N1 & N2 & [N3 N4]%NoDup_cons)%NoDup_app Hy. unfold drop_object. simpl.
  rewrite lookup_delete_ne by set_solver. destruct (objs m !! prev_of kept) as [op|]; [|done].
  destruct (Z.eqb_spec (prev_of kept) 0); [done|]. rewrite lookup_insert_ne; [done|]. intros Hpy.
  destruct (prev_cases kept) as [[-> Hp]|(l & p & -> & Hp)]; [done|]. apply (N2 y); [rewrite <- Hpy, Hp; set_solver|by right].
Qed.

(** Composition of the removal of one object with what follows. *)
Lemma swept_drop h g oc kept x l2 o m m' live :
  books m h g oc (kept ++ x :: l2) -> objs m !! x = Some o -> (forall y, y ∈ live -> y ∈ kept ++ l2) ->
  let m1 := drop_object h x (prev_of kept) g oc o m in
  swept h (g_after kept l2 o g) (spend (size_bytes o) oc) live (kept ++ l2) m1 m' ->
  swept h g oc live (kept ++ x :: l2) m m'.
Proof.
  intros B Ho Hlive m1 [(a & S1 & S2) S3 S4 S5 S6 S7 S8].
  destruct (drop_objs h g oc kept x l2 o m B Ho) as (Hseg & Hll & Hc & Hf).
  assert (Hll' : linked_like (objs m) (objs m1) live) by (intros y Hy; apply Hll; auto).
  destruct (linked_like_books _ _ _ Hll') as [Es Ee]. destruct (linked_like_books _ _ _ Hll) as [Es2 _].
  destruct (drop_sums m kept x l2 o Ho) as [Ds _].
  assert (Hnx : x ∉ live).
  { intros Hx%Hlive. pose proof (bk_NoDup _ _ _ _ _ B) as (N1 & N2 & [N3 _]%NoDup_cons)%NoDup_app.
    apply elem_of_app in Hx as [Hx|Hx]; [by apply (N2 x Hx); left|done]. }
  split.
  - exists a. split; [done|]. unfold m1 in S2, Es, Ee. rewrite Es, Ee in S2. rewrite S2. unfold drop_object. simpl.
    rewrite insert_insert_eq. by destruct g.
  - unfold m1 in S3, Es, Es2. rewrite Es, Es2 in S3. rewrite S3, Ds. unfold drop_object. simpl. rewrite insert_insert_eq.
    unfold spend. simpl. destruct oc. unfold cx_set_budget. simpl. do 3 f_equal. lia.
  - intros y. rewrite S4, Hc. destruct (decide (y = x)) as [->|Hne].
    + rewrite (decide_True (P := x ∈ kept ++ x :: l2 /\ x ∉ live)) by set_solver. by case_decide.
    + destruct (decide (y ∈ live)) as [Hy|Hy]; [rewrite !decide_False by tauto; done|].
      assert (Hiff : y ∈ kept ++ x :: l2 <-> y ∈ kept ++ l2) by (rewrite !elem_of_app, elem_of_cons; naive_solver).
      destruct (decide (y ∈ kept ++ l2)); [rewrite !decide_True by tauto|rewrite !decide_False by tauto]; done.
  - intros y Hy. rewrite S5 by set_solver. by apply Hf.
  - done.
  - done.
  - done.
Qed.

Lemma swept_refl h g oc l m : books m h g oc l -> swept h g oc l l m m.
Proof.
  intros [Bh Bc Bn Bl Be Bb Bo Bu Bs Bd]. split; try done.
  - exists (all_objects g). split; [by apply chain_segment|]. rewrite <- Bl, <- Be, <- Bb. rewrite insert_id; [done|].
    rewrite Bh. by destruct g.
  - rewrite insert_id; [done|]. rewrite Bo. f_equal. unfold spend. destruct oc as [? ? ? ? ? ? ? ? ? ? ? ? ? ? ? ? ? ? ? [b1 b2] ? ?].
    unfold cx_set_budget. simpl. do 2 f_equal. lia.
  - intros y. by rewrite decide_False by tauto.
Qed.

Lemma sweep_runs fuel dead h kept rest m g oc :
  books m h g oc (kept ++ rest) -> (length rest <= fuel)%nat ->
  runs (sweep_objects fuel dead h (prev_of kept) (default 0 (head rest)))
    (fun _ m' => swept h g oc (kept ++ List.filter (fun x => negb (obj_is (objs m) dead x)) rest) (kept ++ rest) m m') m.
Proof.
  revert kept rest m g oc. induction fuel as [|fuel IH]; intros kept [|x l2] m g oc B Hf; simpl in Hf; try lia.
  1,2: apply runs_ret; simpl; rewrite app_nil_r in B |- *; by apply swept_refl.
  destruct (segment_elem _ _ _ _ x (bk_chain _ _ _ _ _ B)) as [Hx [o Ho]]; [set_solver|].
  assert (Hnext : segment (objs m) (wah_gc_next o) l2 0).
  { pose proof (bk_chain _ _ _ _ _ B) as (b & _ & (-> & _ & o' & Ho' & H))%segment_app. by simplify_eq. }
  assert (Hhd : wah_gc_next o = default 0 (head l2)) by (destruct l2; simpl in Hnext; naive_solver).
  change (default 0 (head (x :: l2))) with x. cbn [List.filter].
  unfold obj_is at 1. rewrite Ho. destruct (dead o) eqn:Hd; simpl negb; cbv iota.
  - pose proof (drop_books h g oc kept x l2 o m B Ho) as B1.
    assert (Hp : prev_of kept = 0 \/ prev_of kept <> x /\ is_Some (objs m !! prev_of kept)).
    { destruct (prev_cases kept) as [[-> ->]|(l & p & -> & Hp)]; [by left|right]. rewrite Hp. split.
      - intros ->. pose proof (bk_NoDup _ _ _ _ _ B) as (_ & N2 & _)%NoDup_app. apply (N2 x); set_solver.
      - destruct (segment_elem _ _ _ _ p (bk_chain _ _ _ _ _ B)) as [_ [op ?]]; [set_solver|by exists op]. }
    eapply runs_from; [eapply (sweep_dead fuel dead h (prev_of kept) x m g oc o); try done; set_solver|].
    rewrite Hhd. eapply runs_mono; [apply (IH kept l2 _ _ _ B1); lia|]. intros u m' Sw. cbv beta in Sw.
    rewrite (filter_ext_in' _ (fun x => negb (obj_is (objs m) dead x))) in Sw.
    2:{ intros y Hy. f_equal. unfold obj_is. rewrite (drop_exact h g oc kept x l2 o m y (bk_NoDup _ _ _ _ _ B) Hy). done. }
    eapply swept_drop; [done..| |exact Sw]. intros y. rewrite !elem_of_app, !list_elem_of_In, List.filter_In. tauto.
  - apply (runs_from _ (sweep_objects fuel dead h x (wah_gc_next o)) _ m m).
    { cbn [sweep_objects]. rewrite (proj2 (Z.eqb_neq x 0) Hx). unfold stm_bind, get_obj, stm_opt. by rewrite Ho, Hd. }
    rewrite Hhd. replace x with (prev_of (kept ++ [x])) at 1 by (unfold prev_of; by rewrite last_snoc).
    eapply runs_mono; [apply (IH (kept ++ [x]) l2 m g oc); [by rewrite <- app_assoc|lia]|].
    intros u m'. rewrite <- !app_assoc. done.
Qed.

(** A sweep frees the dead objects of the heap. *)
Lemma sweep_heap_runs dead h l m g oc : books m h g oc l ->
  runs (sweep_heap dead h)
    (fun _ m' => swept h g oc (List.filter (fun x => negb (obj_is (objs m) dead x)) l) l m m') m.
Proof.
  intros B. unfold sweep_heap. apply runs_bind. eapply runs_opt; [apply B|]. apply runs_bind, runs_get.
  pose proof (bk_chain _ _ _ _ _ B) as Ch. replace (all_objects g) with (default 0 (head l)).
  - apply (sweep_runs (object_fuel m) dead h [] l m g oc B). unfold object_fuel.
    apply (chain_length _ (all_objects g)). by apply chain_segment.
  - destruct l as [|x l]; simpl in Ch; [done|]. by destruct Ch as [-> _].
Qed.
