(* ===== verification/GcOk.v ===== *)
(** * A collection frees exactly the garbage of its heap

    The theorems on [wah_gc_step] and what runs it: what the program can get to stays as it
    is, the other objects of the heap are freed, and the books of the heap are kept; by
    allocation as well.  A POLL with a pending collection carries it out. *)

From S2P Require Import Prelude Base Types Bytes Alloc ModuleEnv Analyze Heap GcRoots Gc Total GcGraph GcMarking LinkDomain GcStep RootSpec GcSweep.
From stdpp Require Import gmap list.
#[local] Open Scope Z_scope.
#[local] Open Scope wah_scope.

(** ** Definitions *)

(** [m'] is [m] after a collection of the heap of [ctx], whose objects are [l], given the
    roots [R] of its domain. *)
Record collected (mods : Z -> option wah_module_env) (m : memory) (c : wah_exec_context_t) (g : wah_gc_state_t)
  (l R : list Z) (dead : wah_gc_object_t -> bool) (m' : memory) : Prop := {
  co_kept x : x ∉ l \/ reach mods (cx_module c) (objs m) R x \/ obj_is (objs m) dead x = false ->
    contents <$> objs m' !! x = contents <$> objs m !! x;
  co_freed x : x ∈ l -> ~ reach mods (cx_module c) (objs m) R x -> obj_is (objs m) dead x = true -> objs m' !! x = None;
  co_books : exists g' oc' l', books m' (cx_gc c) g' oc' l' /\
    (forall x, x ∈ l' <-> x ∈ l /\ (reach mods (cx_module c) (objs m) R x \/ obj_is (objs m) dead x = false)) /\
    phase g' = WAH_GC_PHASE_IDLE /\ owner g' = owner g /\ gc_pending g' = gc_pending g /\
    forall h, h <> cx_gc c -> heaps m' !! h = heaps m !! h;
  co_reach x : reach mods (cx_module c) (objs m') R x <-> reach mods (cx_module c) (objs m) R x;
  co_sound : sound mods (cx_module c) (objs m') R;
  co_chains a l2 : (forall x, x ∈ l2 -> x ∉ l) -> chain (objs m) a l2 -> chain (objs m') a l2;
  co_ctxs a : cx_set_budget (Budget 0 0) <$> ctxs m' !! a = cx_set_budget (Budget 0 0) <$> ctxs m !! a;
  co_slots : slots m' = slots m }.

(** The domain of [ctx] is as the program keeps it: no dangling contexts, roots that can be
    enumerated ([R] are all of them, wherever they are), heaps that are lists of objects; what the program can
    get to exists, fits its type, and is in a heap of the domain or, as functions are, has
    no references. *)
Record gc_sound (mods : Z -> option wah_module_env) (m : memory) (ctx : Z) (c : wah_exec_context_t)
  (g : wah_gc_state_t) (R : list Z) : Prop := {
  gs_ctx : ctxs m !! ctx = Some c;
  gs_gc : cx_gc c <> 0;
  gs_heap : heaps m !! cx_gc c = Some g;
  gs_domain : domain_sound m ctx;
  gs_defined a : rtc (linked m) ctx a -> is_Some (context_roots mods m ctx a);
  gs_roots r : r ∈ R <-> is_root mods m ctx r;
  gs_heaps a ca : rtc (linked m) ctx a -> ctxs m !! a = Some ca -> cx_gc ca <> 0 ->
    exists g' l', heaps m !! cx_gc ca = Some g' /\ chain (objs m) (all_objects g') l';
  gs_sound : sound mods (cx_module c) (objs m) R;
  gs_closed x o : reach mods (cx_module c) (objs m) R x -> objs m !! x = Some o ->
    object_refs mods (cx_module c) o = Some [] \/
    exists a ca g' l', rtc (linked m) ctx a /\ ctxs m !! a = Some ca /\ cx_gc ca <> 0 /\
      heaps m !! cx_gc ca = Some g' /\ chain (objs m) (all_objects g') l' /\ x ∈ l' }.

(** A collection that was given up: only the phase of the heap changes. *)
Definition skipped (c : wah_exec_context_t) (g : wah_gc_state_t) (m m' : memory) : Prop :=
  objs m' = objs m /\ ctxs m' = ctxs m /\ slots m' = slots m /\ blocks m' = blocks m /\
  heaps m' = <[cx_gc c := gc_set_phase WAH_GC_PHASE_IDLE g]> (heaps m).

(** ** Theorems *)

Lemma contents_refs mods fb o o' : contents o = contents o' -> object_refs mods fb o = object_refs mods fb o'.
Proof.
  intros H. rewrite <- (set_next_tagged_refs mods fb 0 o), <- (set_next_tagged_refs mods fb 0 o').
  unfold contents in H. by rewrite H.
Qed.
Lemma untag_contents o o' : untag o = untag o' -> contents o = contents o'.
Proof. destruct o, o'. unfold untag, contents, set_next_tagged. cbn. intros H. by injection H as _ -> -> -> ->. Qed.
Lemma same_objs_contents O O' x : same_objs O O' -> contents <$> O' !! x = contents <$> O !! x.
Proof.
  intros H. specialize (H x). destruct (O !! x) as [o|], (O' !! x) as [o'|]; simpl in H |- *; try done.
  apply (inj Some) in H. f_equal. symmetry. by apply untag_contents.
Qed.

(** Keeping the contents of what is reachable keeps what is reachable. *)
Lemma reach_kept mods fb O O' R : (forall x, reach mods fb O R x -> contents <$> O' !! x = contents <$> O !! x) ->
  sound mods fb O R ->
  (forall x, reach mods fb O' R x <-> reach mods fb O R x) /\ sound mods fb O' R.
Proof.
  intros Hk Hs.
  assert (H1 : forall x, reach mods fb O' R x -> reach mods fb O R x).
  { induction 1 as [r y Hr Ht|x o y _ IH Ho (rs & r & Hrs & Hin & Ht)]; [by eapply reach_root|].
    specialize (Hk x IH). rewrite Ho in Hk. destruct (O !! x) as [o2|] eqn:E2; [|done]. apply (inj Some) in Hk.
    eapply reach_step; [exact IH|exact E2|]. exists rs, r. by rewrite <- (contents_refs mods fb _ _ Hk). }
  assert (H2 : forall x, reach mods fb O R x -> reach mods fb O' R x).
  { induction 1 as [r y Hr Ht|x o y Hx IH Ho (rs & r & Hrs & Hin & Ht)]; [by eapply reach_root|].
    specialize (Hk x Hx). rewrite Ho in Hk. destruct (O' !! x) as [o2|] eqn:E2; [|done]. apply (inj Some) in Hk.
    eapply reach_step; [exact IH|exact E2|]. exists rs, r. by rewrite (contents_refs mods fb _ _ Hk). }
  split; [naive_solver|]. intros x Hx%H1. destruct (Hs x Hx) as (o & rs & Ho & Hr). specialize (Hk x Hx). rewrite Ho in Hk.
  destruct (O' !! x) as [o2|] eqn:E2; [|done]. apply (inj Some) in Hk. exists o2, rs. by rewrite (contents_refs mods fb _ _ Hk).
Qed.

Lemma traced_heap mods m ctx c g g' D hs ls R : traced mods m ctx c g D hs ls R ->
  all_objects g' = all_objects g -> host_view g' = host_view g -> gc_dependents g' = gc_dependents g ->
  traced mods (set_heaps (<[cx_gc c := g']> (heaps m)) m) ctx c g' D hs ls R.
Proof.
  intros [Hc Hgc Hg Hdom [m1 Hcol] Hhs Hls HR Hs Ho] Ea Ev Ed. set (m2 := set_heaps _ m).
  assert (Hl : same_links m m2).
  { split; [done..|]. intros h. unfold m2. simpl. destruct (decide (cx_gc c = h)) as [<-|].
    - rewrite lookup_insert_eq, Hg. simpl. by rewrite Ed.
    - by rewrite lookup_insert_ne. }
  split; try done.
  - unfold m2. simpl. by rewrite lookup_insert_eq.
  - by apply (same_links_sound m).
  - pose proof (collect_domain_same m m2 ctx Hl) as E. rewrite Hcol in E. simpl in E.
    destruct (wah_gc_collect_domain ctx m2) as [r m3]. simpl in E. subst r. by exists m3.
  - by apply (domain_heaps_same m).
  - unfold heap_lists in *. eapply Forall2_impl; [exact Hls|]. intros h l (g2 & Hg2 & Hch). unfold m2. simpl.
    destruct (decide (h = cx_gc c)) as [->|].
    + exists g'. rewrite lookup_insert_eq, Ea. replace g with g2 by congruence. done.
    + exists g2. by rewrite lookup_insert_ne.
  - rewrite (domain_roots_same mods m m2); [done|done|]. by apply (heap_views (cx_gc c) g g').
Qed.

(** The books do not depend on the tags nor on the phase. *)
Lemma books_after m m' h g g' oc l : books m h g oc l -> same_objs (objs m) (objs m') ->
  ctxs m' = ctxs m -> heaps m' !! h = Some g' -> all_objects g' = all_objects g -> object_count g' = object_count g ->
  exception_count g' = exception_count g -> allocated_bytes g' = allocated_bytes g -> owner g' = owner g ->
  books m' h g' oc l.
Proof.
  intros [B1 B2 B3 B4 B5 B6 B7 B8 B9 B10] S Ec Eh Ea E1 E2 E3 Eo.
  destruct (linked_like_books (objs m) (objs m') l) as [Es Ee]; [intros y _; by apply same_objs_contents|].
  split; rewrite ?Es, ?Ee, ?Ea, ?E1, ?E2, ?E3, ?Eo, ?Ec; try done.
  - apply chain_segment. rewrite <- S. by apply chain_segment.
  - intros x o Hx. pose proof (same_objs_contents _ _ x S) as E. rewrite Hx in E.
    destruct (objs m !! x) as [o2|] eqn:Ex; [|done]. injection E as _ -> _ _. by eapply B9.
Qed.

Lemma tr_own mods m ctx c g D hs ls R oc l : traced mods m ctx c g D hs ls R -> books m (cx_gc c) g oc l -> l ∈ ls.
Proof.
  intros T B. destruct T as [Hc Hgc Hg Hdom [m1 Hcol] Hhs Hls _ _ _].
  pose proof (collect_domain_run m ctx _ _ Hdom Hcol) as Hd. destruct Hd as (_ & _ & [D' ->] & HDin).
  destruct (domain_heaps_runs m (ctx :: D') []) as (hs' & E & _ & Hin).
  { intros a Ha%HDin. destruct (proj2 Hdom a Ha) as (ca & ? & _). by exists ca. }
  rewrite Hhs in E. injection E as <-.
  assert (Hh : cx_gc c ∈ hs).
  { apply Hin. split; [|apply not_elem_of_nil]. split; [done|]. exists ctx, c. split; [left|done]. }
  apply list_elem_of_lookup_1 in Hh as [i Hi]. destruct (Forall2_lookup_l _ _ _ _ _ Hls Hi) as (l2 & Hl2 & g2 & Hg2 & Hch).
  replace g2 with g in Hch by congruence. pose proof (bk_chain _ _ _ _ _ B) as Hch2. apply chain_segment in Hch2.
  rewrite (chain_det _ _ _ _ Hch2 Hch). by eapply list_elem_of_lookup_2.
Qed.

Lemma and_iff_l (A P Q : Prop) : (A -> (P <-> Q)) -> (A /\ P <-> A /\ Q).
Proof. tauto. Qed.

Lemma sizes_filter O P l : (forall x o, O !! x = Some o -> 0 <= size_bytes o) -> sizes O (List.filter P l) <= sizes O l.
Proof.
  intros H. induction l as [|x l IH]; simpl; [lia|]. destruct (P x); simpl; destruct (O !! x) as [o|] eqn:E; try lia.
  pose proof (H x o E). lia.
Qed.

(** Marking and then sweeping the unmarked objects for which [dead] holds. *)
Lemma mark_then_sweep mods m ctx c g D hs ls R oc l P dead fin :
  traced mods m ctx c g D hs ls R -> books m (cx_gc c) g oc l ->
  (forall o, P o = negb (wah_gc_marked o) && dead o) -> (forall o, dead (contents o) = dead o) ->
  (forall g, all_objects (fin g) = all_objects g /\ object_count (fin g) = object_count g /\
     exception_count (fin g) = exception_count g /\ allocated_bytes (fin g) = allocated_bytes g /\
     owner (fin g) = owner g /\ gc_pending (fin g) = gc_pending g /\ phase (fin g) = WAH_GC_PHASE_IDLE) ->
  runs (b <- wah_gc_step_mark mods ctx ;;
        if (b : bool) then sweep_heap P (cx_gc c) ;;; upd_heap (cx_gc c) fin
        else stm_ret tt)
    (fun _ m' => collected mods m c g l R dead m') m.
Proof.
  intros T B HP Hdead Hfin. pose proof (tr_own _ _ _ _ _ _ _ _ _ _ _ T B) as Hl.
  eapply runs_then; [by apply (step_mark_runs mods m ctx c g D hs ls R)|]. intros b m1 (-> & [S1 R1 [n E1]] & Hmark).
  set (g1 := gc_set_cursor 0 (gc_set_phase WAH_GC_PHASE_SWEEP (gc_set_other n g))) in *.
  assert (B1 : books m1 (cx_gc c) g1 oc l).
  { apply (books_after m m1 (cx_gc c) g g1 oc l B S1); try done; [apply R1|]. rewrite E1. apply lookup_insert_eq. }
  eapply runs_then; [by apply (sweep_heap_runs _ (cx_gc c) l m1 g1 oc)|]. intros u m2 Sw. cbv beta in Sw.
  set (live := List.filter _ l) in Sw.
  assert (Hlive : forall x, x ∈ live <-> x ∈ l /\ (reach mods (cx_module c) (objs m) R x \/ obj_is (objs m) dead x = false)).
  { intros x. unfold live. rewrite list_elem_of_In, List.filter_In, <- list_elem_of_In.
    apply and_iff_l. intros Hx. rewrite <- Hmark by (apply list_elem_of_In, List.in_concat; exists l; by rewrite <- !list_elem_of_In).
    rewrite <- (obj_is_contents (objs m) (objs m1) dead x) by (done || by apply same_objs_contents).
    unfold obj_is, marked_in. pose proof (same_objs_contents _ _ x S1) as Ex.
    pose proof (bk_chain _ _ _ _ _ B) as Hch. destruct (segment_elem _ _ _ _ x Hch Hx) as [_ [o Ho]]. rewrite Ho in Ex.
    destruct (objs m1 !! x) as [o1|]; [|done]. rewrite HP. destruct (wah_gc_marked o1) eqn:Em; simpl.
    - split; [|done]. intros _. left. by exists o1.
    - destruct (dead o1); simpl; [|by split; [right|]]. split; [done|]. intros [(o2 & [= <-] & ?)|?]; congruence. }
  destruct Sw as [(a & Ch & Eh) Ec Eo Er Es Eb Emo].
  unfold upd_heap, runs, stm_bind, get_heap, put_heap, stm_opt. rewrite Eh, lookup_insert_eq. simpl.
  set (g2 := gc_set_objects a _ _ _ g1) in *.
  assert (Hkept : forall x, x ∉ l \/ reach mods (cx_module c) (objs m) R x \/ obj_is (objs m) dead x = false ->
    contents <$> objs m2 !! x = contents <$> objs m !! x).
  { intros x Hx. rewrite Eo. rewrite decide_False; [by apply same_objs_contents|]. rewrite Hlive. intuition. }
  destruct (reach_kept mods (cx_module c) (objs m) (objs m2) R) as [Hreach Hsound]; [intros x Hx; apply Hkept; auto|apply T|].
  pose proof (Hfin g2) as (F1 & F2 & F3 & F4 & F5 & F6 & F7).
  pose proof (bk_NoDup _ _ _ _ _ B) as Hnd.
  assert (Hsub : forall x, x ∈ live -> x ∈ l) by (intros x [? _]%Hlive; done).
  destruct (linked_like_books (objs m1) (objs m2) live) as [Esz Eex].
  { intros y Hy. rewrite Eo. by rewrite decide_False by tauto. }
  split; try done.
  - intros x Hx Hr Hd. specialize (Eo x). rewrite decide_True in Eo.
    + simpl. by destruct (objs m2 !! x).
    + split; [done|]. rewrite Hlive. intros [_ [?|?]]; [done|congruence].
  - exists (fin g2), (spend (sizes (objs m1) l - sizes (objs m1) live) oc), live. split; [|split; [done|]].
    + split; rewrite ?F1, ?F2, ?F3, ?F4, ?F5; simpl; rewrite ?Esz, ?Eex; try done.
      * apply lookup_insert_eq.
      * by apply chain_segment.
      * by apply NoDup_ListNoDup, List.NoDup_filter, NoDup_ListNoDup.
      * rewrite Ec. simpl. apply lookup_insert_eq.
      * pose proof (bk_budget _ _ _ _ _ B1). lia.
      * intros x o Ho. specialize (Eo x). rewrite Ho in Eo. case_decide; [done|].
        destruct (objs m1 !! x) as [o1|] eqn:E1x; [|done]. injection Eo as _ -> _ _. by eapply (bk_sizes _ _ _ _ _ B1).
      * pose proof (bk_bounds _ _ _ _ _ B1) as [Hz1 Hz2]. split.
        { pose proof (List.filter_length_le (fun x => negb (obj_is (objs m1) P x)) l).
          unfold zlen in *. unfold live. lia. }
        assert (sizes (objs m1) live <= sizes (objs m1) l); [|lia]. apply sizes_filter. apply (bk_sizes _ _ _ _ _ B1).
    + split; [done|]. split; [by rewrite F5|]. split; [by rewrite F6|]. intros h Hne.
      simpl. rewrite lookup_insert_ne, Eh, lookup_insert_ne, E1, lookup_insert_ne by done. done.
  - intros a2 l2 Hdis Hch. simpl. apply chain_segment. eapply (segment_frame (objs m1)).
    + intros x Hx. by rewrite Er by auto.
    + apply chain_segment. by eapply same_objs_chain.
  - intros a2. simpl. rewrite Ec, (sr_ctxs _ _ R1). destruct (decide (owner g1 = a2)) as [<-|].
    + rewrite lookup_insert_eq. simpl. pose proof (bk_owner _ _ _ _ _ B) as Ho. simpl. by rewrite Ho.
    + by rewrite lookup_insert_ne.
  - simpl. rewrite Es. apply R1.
Qed.

(** The last part of a sweep. *)
Definition sweep_end (g : wah_gc_state_t) : wah_gc_state_t :=
  let t := u64 (u64 (allocated_bytes g * 2) + other_heap_bytes g) in
  gc_set_threshold (if t <? WAH_GC_DEFAULT_THRESHOLD then WAH_GC_DEFAULT_THRESHOLD else t)
                   (gc_set_phase WAH_GC_PHASE_IDLE g).
Lemma mark_and_sweep_runs mods m ctx c g D hs ls R oc l :
  traced mods m ctx c g D hs ls R -> books m (cx_gc c) g oc l ->
  runs (mark_and_sweep mods ctx) (fun _ m' => collected mods m c g l R (fun _ => true) m') m.
Proof.
  intros T B.
  pose proof (mark_then_sweep mods m ctx c g D hs ls R oc l (fun o => negb (wah_gc_marked o)) (fun _ => true) sweep_end T B) as H.
  specialize (H ltac:(intros; by rewrite andb_true_r) ltac:(done) ltac:(by intros [])).
  pose proof (step_mark_runs mods m ctx c g D hs ls R T) as Hm.
  apply runs_iff in Hm as (b & m1 & Em & -> & [_ [Er _ _] _] & _).
  unfold mark_and_sweep, runs in H |- *. rewrite (stm_bind_run _ _ _ _ _ Em) in H. rewrite (stm_bind_run _ _ _ _ _ Em). cbv iota in H |- *.
  unfold wah_gc_step_sweep. rewrite (stm_bind_run (get_ctx ctx) _ m1 c m1); [exact H|].
  unfold get_ctx, stm_opt. by rewrite Er, (tr_ctx _ _ _ _ _ _ _ _ _ T).
Qed.

(** [mark_and_sweep] from either phase before the sweep. *)
Lemma step_then_sweep mods m ctx c g D hs ls R oc l :
  traced mods m ctx c g D hs ls R -> books m (cx_gc c) g oc l -> phase g <> WAH_GC_PHASE_SWEEP ->
  runs (wah_gc_step mods ctx) (fun _ m' => collected mods m c g l R (fun _ => true) m') m.
Proof.
  intros T B Hp. unfold wah_gc_step. apply runs_bind. eapply runs_opt; [apply T|].
  destruct (Z.eqb_spec (cx_gc c) 0) as [E0|_]; [by destruct (tr_gc _ _ _ _ _ _ _ _ _ T)|].
  apply runs_bind. eapply runs_opt; [apply T|].
  destruct (phase g) eqn:Ep; [|by apply (mark_and_sweep_runs _ _ _ _ _ D hs ls _ oc)|done].
  set (g1 := gc_set_phase WAH_GC_PHASE_MARK g). set (m1 := set_heaps (<[cx_gc c := g1]> (heaps m)) m).
  eapply (runs_from _ (mark_and_sweep mods ctx) _ m m1).
  { apply (stm_bind_run (upd_heap (cx_gc c) (gc_set_phase WAH_GC_PHASE_MARK)) (fun _ => mark_and_sweep mods ctx) m tt m1).
    unfold upd_heap, stm_bind, get_heap, put_heap, stm_opt.
    by rewrite (tr_heap _ _ _ _ _ _ _ _ _ T). }
  assert (T1 : traced mods m1 ctx c g1 D hs ls R) by by apply (traced_heap _ _ _ _ g).
  assert (B1 : books m1 (cx_gc c) g1 oc l).
  { apply (books_after m m1 (cx_gc c) g g1); try done. apply lookup_insert_eq. }
  eapply runs_mono; [apply (mark_and_sweep_runs _ _ _ _ _ D hs ls R oc l T1 B1)|].
  intros u m' [C1 C2 C3 C4 C5 C6 C7 C8]. split; try done.
  destruct C3 as (g' & oc' & l' & H1 & H2 & H3 & H4 & H5 & H6). exists g', oc', l'. repeat (split; [done|]).
  intros h Hne. rewrite H6 by done. unfold m1. simpl. by rewrite lookup_insert_ne.
Qed.

(** *** Any order of the domain *)
Lemma reach_roots mods fb O R R' x : (forall r, r ∈ R <-> r ∈ R') -> reach mods fb O R x <-> reach mods fb O R' x.
Proof.
  intros H. split; (induction 1 as [r y Hr Ht|y o z _ IH Ho Hz]; [eapply reach_root; [by apply H|done]|by eapply reach_step]).
Qed.
Lemma collected_roots mods m c g l R R' dead m' : (forall r, r ∈ R <-> r ∈ R') ->
  collected mods m c g l R dead m' -> collected mods m c g l R' dead m'.
Proof.
  intros HR [C1 C2 C3 C4 C5 C6 C7 C8].
  assert (Hr : forall O x, reach mods (cx_module c) O R' x <-> reach mods (cx_module c) O R x) by (intros; symmetry; by apply reach_roots).
  split; try done.
  - intros x. rewrite Hr. apply C1.
  - intros x Hx. rewrite Hr. by apply C2.
  - destruct C3 as (g' & oc' & l' & H1 & H2 & H3). exists g', oc', l'. split; [done|]. split; [|done].
    intros x. rewrite Hr. apply H2.
  - intros x. rewrite !Hr. apply C4.
  - intros x. rewrite Hr. apply C5.
Qed.

Lemma flat_defined {A B} (f : A -> option (list B)) (D : list A) : (forall a, a ∈ D -> is_Some (f a)) ->
  exists R, flat (f <$> D) = Some R /\ forall r, r ∈ R <-> exists a rs, a ∈ D /\ f a = Some rs /\ r ∈ rs.
Proof.
  unfold flat. induction D as [|a D IH]; intros HD; simpl.
  { exists []. split; [done|]. intros r. rewrite elem_of_nil. split; [done|]. by intros (? & ? & ?%elem_of_nil & _). }
  destruct (HD a) as [rs Hrs]; [left|]. destruct IH as (R & E & H); [intros; apply HD; by right|].
  simpl in E |- *. rewrite Hrs. simpl. change (list_fmap A (option (list B)) f D) with (f <$> D).
  destruct (mapM id (f <$> D)) as [bs|]; [|done]. simpl in E |- *. injection E as <-.
  exists (rs ++ concat bs). split; [done|]. intros r. rewrite elem_of_app, H. split.
  - intros [Hr|(b & rs' & Hb & Hf & Hr)]; [exists a, rs|exists b, rs']; (split; [|done]); [left|by right].
  - intros (b & rs' & [->|Hb]%elem_of_cons & Hf & Hr); [left; congruence|right; eauto].
Qed.

Lemma gc_sound_traced mods m ctx c g R D m1 : gc_sound mods m ctx c g R -> wah_gc_collect_domain ctx m = (Ok D, m1) ->
  exists hs ls R', traced mods m ctx c g D hs ls R' /\ forall r, r ∈ R' <-> r ∈ R.
Proof.
  intros [G1 G2 G3 G4 G5 G6 G7 G8 G9] Hcol.
  pose proof (collect_domain_run m ctx _ _ G4 Hcol) as Hd. destruct Hd as (_ & _ & _ & HD).
  destruct (domain_heaps_runs m D []) as (hs & Ehs & _ & Hhs).
  { intros a Ha%HD. destruct (proj2 G4 a Ha) as (ca & ? & _). by exists ca. }
  destruct (flat_defined (context_roots mods m ctx) D) as (R' & ER & HR').
  { intros a Ha%HD. by apply G5. }
  assert (HRR : forall r, r ∈ R' <-> r ∈ R).
  { intros r. rewrite HR', G6, (domain_roots_listed mods m ctx r G5). by setoid_rewrite HD. }
  assert (exists ls, heap_lists m hs ls) as [ls Hls].
  { assert (Hall : forall h, h ∈ hs -> exists g' l', heaps m !! h = Some g' /\ chain (objs m) (all_objects g') l').
    { intros h [(Hn & a & ca & Ha%HD & Hca & <-) _]%Hhs. by eapply G7. }
    clear -Hall. unfold heap_lists. induction hs as [|h hs IH]; [by exists []|].
    destruct (Hall h) as (g' & l' & H1 & H2); [left|]. destruct IH as [ls H]; [intros; apply Hall; by right|].
    exists (l' :: ls). constructor; [by exists g'|done]. }
  exists hs, ls, R'. split; [|done]. split; try done.
  - by exists m1.
  - intros x Hx. apply G8. by apply (reach_roots _ _ _ R').
  - intros x o Hx Hnl Ho. destruct (G9 x o) as [|(a & ca & g' & l' & Ha & Hca & Hn & Hg' & Hch & Hin)]; [by apply (reach_roots _ _ _ R')|done|done|].
    exfalso. apply Hnl. assert (Hh : cx_gc ca ∈ hs).
    { apply Hhs. split; [|apply not_elem_of_nil]. split; [done|]. exists a, ca. by rewrite HD. }
    apply list_elem_of_lookup_1 in Hh as [i Hi]. destruct (Forall2_lookup_l _ _ _ _ _ Hls Hi) as (l2 & Hl2 & g2 & Hg2 & Hch2).
    simplify_eq. rewrite (chain_det _ _ _ _ Hch Hch2) in Hin.
    apply list_elem_of_In, List.in_concat. exists l2. split; apply list_elem_of_In; [by eapply list_elem_of_lookup_2|done].
Qed.

Lemma step_skipped mods m ctx c g R m1 : gc_sound mods m ctx c g R -> phase g <> WAH_GC_PHASE_SWEEP ->
  wah_gc_collect_domain ctx m = (Err WAH_ERROR_OUT_OF_MEMORY, m1) ->
  exists m', wah_gc_step mods ctx m = (Ok tt, m') /\ skipped c g m m'.
Proof.
  intros [G1 G2 G3 G4 _ _ _ _ _] Hp Hcol.
  assert (Hmark : forall m2 g2, objs m2 = objs m -> ctxs m2 = ctxs m -> slots m2 = slots m -> blocks m2 = blocks m ->
    heaps m2 = <[cx_gc c := g2]> (heaps m) -> gc_dependents g2 = gc_dependents g ->
    gc_set_phase WAH_GC_PHASE_IDLE g2 = gc_set_phase WAH_GC_PHASE_IDLE g -> more m2 = more m ->
    exists m', mark_and_sweep mods ctx m2 = (Ok tt, m') /\ skipped c g m m').
  { intros m2 g2 Eo Ec Es Eb Eh Ed Eg Em.
    assert (Hl : same_links m m2).
    { split; [done..|]. intros h. rewrite Eh. destruct (decide (cx_gc c = h)) as [<-|].
      - rewrite lookup_insert_eq, G3. simpl. by rewrite Ed.
      - by rewrite lookup_insert_ne. }
    pose proof (collect_domain_same m m2 ctx Hl) as E. rewrite Hcol in E. simpl in E.
    destruct (wah_gc_collect_domain ctx m2) as [r m3] eqn:E2. simpl in E. subst r.
    destruct (collect_domain_run m2 ctx _ _ (same_links_sound m m2 ctx Hl G4) E2) as [[O1 O2 O3 O4 O5 _] _].
    eexists. split.
    - unfold mark_and_sweep, wah_gc_step_mark, stm_bind, get_ctx, stm_opt, attempt. rewrite Ec, G1, E2.
      unfold upd_heap, stm_bind, get_heap, put_heap, stm_opt. rewrite O2, Eh, lookup_insert_eq. reflexivity.
    - split; [|split; [|split; [|split]]]; simpl; [congruence..|]. rewrite ?O2, ?Eh. by rewrite insert_insert_eq, Eg. }
  unfold wah_gc_step. rewrite (stm_bind_run (get_ctx ctx) _ m c m) by (unfold get_ctx, stm_opt; by rewrite G1).
  destruct (Z.eqb_spec (cx_gc c) 0) as [|_]; [done|].
  rewrite (stm_bind_run (get_heap (cx_gc c)) _ m g m) by (unfold get_heap, stm_opt; by rewrite G3).
  destruct (phase g) eqn:Ep; [|apply (Hmark m g); try done; symmetry; by apply insert_id|done].
  erewrite stm_bind_run; [apply (Hmark _ (gc_set_phase WAH_GC_PHASE_MARK g))|]; last first.
  { unfold upd_heap, stm_bind, get_heap, put_heap, stm_opt. by rewrite G3. }
  all: by destruct g.
Qed.

Lemma step_outcome mods m ctx c g R oc l :
  gc_sound mods m ctx c g R -> books m (cx_gc c) g oc l -> phase g <> WAH_GC_PHASE_SWEEP ->
  exists m', wah_gc_step mods ctx m = (Ok tt, m') /\
    (collected mods m c g l R (fun _ => true) m' \/ false ∈ more m /\ skipped c g m m').
Proof.
  intros G B Hp. destruct (wah_gc_collect_domain ctx m) as [r m1] eqn:Hcol.
  pose proof (collect_domain_run m ctx _ _ (gs_domain _ _ _ _ _ _ G) Hcol) as Hd.
  destruct r as [D|e|]; [| |by destruct Hd].
  - destruct (gc_sound_traced _ _ _ _ _ _ _ _ G Hcol) as (hs & ls & R' & T & HR).
    pose proof (step_then_sweep mods m ctx c g D hs ls R' oc l T B Hp) as H.
    apply runs_iff in H as ([] & m' & E & H). exists m'. split; [done|]. left. by eapply collected_roots.
  - destruct Hd as (Hom & -> & Hf).
    destruct (step_skipped mods m ctx c g R m1 G Hp Hcol) as (m' & E & H). exists m'. split; [done|]. by right.
Qed.
