(* ===== verification/GcUse.v ===== *)
(** * Running the collector

    What runs [wah_gc_step]: a POLL with a pending collection carries it out, exceptions are
    swept on their own, allocation keeps the books of the heap and asks for a collection in
    time, and [wah_gc_verify_heap] agrees with the books. *)

From S2P Require Import Prelude Base Types Bytes Alloc ModuleEnv Analyze Heap GcRoots Gc Total GcGraph GcMarking LinkDomain GcStep RootSpec GcSweep GcOk.
From stdpp Require Import gmap list.
#[local] Open Scope Z_scope.
#[local] Open Scope wah_scope.

(** ** Theorems *)

Lemma same_links_rtc m m' a b : same_links m m' -> rtc (linked m) a b <-> rtc (linked m') a b.
Proof.
  intros S. split; (induction 1 as [x|x y z Hxy _ IH]; [done|]; eapply rtc_l; [|exact IH]).
  - by apply (same_links_linked m).
  - apply (same_links_linked m' m); [by apply same_links_sym|done].
Qed.

(** The fields of the collector itself do not matter to what it can do. *)
Lemma gc_sound_heap mods m ctx c g g' R : gc_sound mods m ctx c g R ->
  all_objects g' = all_objects g -> host_view g' = host_view g -> gc_dependents g' = gc_dependents g ->
  gc_sound mods (set_heaps (<[cx_gc c := g']> (heaps m)) m) ctx c g' R.
Proof.
  intros [G1 G2 G3 G4 G5 G6 G7 G8 G9] Ea Ev Ed. set (m2 := set_heaps _ m).
  assert (S : same_links m m2).
  { split; [done..|]. intros h. unfold m2. simpl. destruct (decide (cx_gc c = h)) as [<-|].
    - rewrite lookup_insert_eq, G3. simpl. by rewrite Ed.
    - by rewrite lookup_insert_ne. }
  assert (V : same_views m m2) by by apply (heap_views (cx_gc c) g g').
  assert (Hrt : forall a, context_roots mods m2 ctx a = context_roots mods m ctx a).
  { intros a. by apply context_roots_same. }
  assert (Hh : forall h g1 l1, heaps m !! h = Some g1 -> chain (objs m) (all_objects g1) l1 ->
    exists g2, heaps m2 !! h = Some g2 /\ chain (objs m) (all_objects g2) l1).
  { intros h g1 l1 H1 H2. unfold m2. simpl. destruct (decide (cx_gc c = h)) as [<-|].
    - exists g'. rewrite lookup_insert_eq, Ea. split; [done|]. congruence.
    - exists g1. by rewrite lookup_insert_ne. }
  assert (D2 : forall a, rtc (linked m2) ctx a -> is_Some (context_roots mods m2 ctx a)).
  { intros a Ha. rewrite Hrt. apply G5. by rewrite (same_links_rtc m m2). }
  split; try done.
  - unfold m2. simpl. apply lookup_insert_eq.
  - by apply (same_links_sound m).
  - intros r. rewrite G6, !domain_roots_listed by done. setoid_rewrite Hrt. by setoid_rewrite (same_links_rtc m m2 _ _ S).
  - intros a ca Ha Hca Hn. rewrite <- (same_links_rtc m m2) in Ha by done.
    destruct (G7 a ca Ha Hca Hn) as (g1 & l1 & H1 & H2). destruct (Hh _ _ _ H1 H2) as (g2 & ? & ?). by exists g2, l1.
  - intros x o Hx Ho. destruct (G9 x o Hx Ho) as [|(a & ca & g1 & l1 & Ha & Hca & Hn & H1 & H2 & Hin)]; [by left|right].
    destruct (Hh _ _ _ H1 H2) as (g2 & ? & ?). exists a, ca, g2, l1. by rewrite <- (same_links_rtc m m2).
Qed.

Lemma collected_before mods m c g g' l R dead m' : owner g' = owner g -> gc_pending g' = false ->
  collected mods (set_heaps (<[cx_gc c := g']> (heaps m)) m) c g' l R dead m' ->
  collected mods m c (gc_set_pending false g) l R dead m'.
Proof.
  intros Eo Ep [C1 C2 C3 C4 C5 C6 C7 C8]. split; try done.
  destruct C3 as (g2 & oc' & l' & H1 & H2 & H3 & H4 & H5 & H6). exists g2, oc', l'. repeat (split; [done|]).
  split; [simpl; congruence|]. split; [simpl; congruence|]. intros h Hne. rewrite H6 by done. simpl. by rewrite lookup_insert_ne.
Qed.

(** C5. [wah_gc_step], when no sweep was left unfinished: what the program can get to
    from the roots of the domain ([is_root]: by their places), in all its heaps, stays as it is; the other objects of the heap of [ctx] are
    freed; and the heap's list, counts and the budget of its owner match what is left, with
    the links, marks and gray bits of headers as the only other changes.  It does so
    however often the work list fails to grow.  Only if the domain can't be listed for lack
    of memory is the collection given up, without any effect on objects. *)
Theorem wah_gc_step_exact mods m ctx c g R oc l :
  gc_sound mods m ctx c g R -> books m (cx_gc c) g oc l -> phase g <> WAH_GC_PHASE_SWEEP ->
  exists m', wah_gc_step mods ctx m = (Ok tt, m') /\
    (collected mods m c g l R (fun _ => true) m' \/ false ∈ more m /\ skipped c g m m').
Proof. apply step_outcome. Qed.

(** *** Sweeping exceptions *)

Lemma bind_cont {E S A B} (m : stm E S A) (f f' : A -> stm E S B) s : (forall a, f a = f' a) -> stm_bind f m s = stm_bind f' m s.
Proof. intros H. unfold stm_bind. destruct (m s) as [[a|e|] s']; [by rewrite H|done|done]. Qed.

Lemma count_if_none P l x : count_if P l = 0 -> x ∈ l -> P x = false.
Proof.
  unfold count_if, zlen. intros H Hx. destruct (P x) eqn:E; [|done].
  assert (Hin : In x (List.filter P l)) by (apply filter_In; by rewrite <- list_elem_of_In).
  destruct (List.filter P l); [done|simpl in H; lia].
Qed.

(** [wah_gc_sweep_unreachable_exceptions] frees the exceptions of the heap that the
    program can't get to and no other object, and keeps the books; without exceptions it
    does nothing. *)
Theorem wah_gc_sweep_unreachable_exceptions_exact mods m ctx c g R oc l :
  gc_sound mods m ctx c g R -> books m (cx_gc c) g oc l ->
  exists m', wah_gc_sweep_unreachable_exceptions mods ctx m = (Ok tt, m') /\
    (collected mods m c g l R is_exception m' \/
     false ∈ more m /\ skipped c g m m' \/
     m' = m /\ forall x, x ∈ l -> obj_is (objs m) is_exception x = false).
Proof.
  intros G B. unfold wah_gc_sweep_unreachable_exceptions.
  rewrite (stm_bind_run (get_ctx ctx) _ m c m) by (unfold get_ctx, stm_opt; by rewrite (gs_ctx _ _ _ _ _ _ G)).
  destruct (Z.eqb_spec (cx_gc c) 0) as [E0|_]; [by destruct (gs_gc _ _ _ _ _ _ G)|].
  rewrite (stm_bind_run (get_heap (cx_gc c)) _ m g m) by (unfold get_heap, stm_opt; by rewrite (gs_heap _ _ _ _ _ _ G)).
  destruct (Z.eqb_spec (exception_count g) 0) as [E0|_].
  { exists m. split; [done|]. right. right. split; [done|]. intros x Hx. rewrite (bk_exn _ _ _ _ _ B) in E0.
    by apply (count_if_none _ l). }
  destruct (wah_gc_collect_domain ctx m) as [r m1] eqn:Hcol.
  destruct (collect_domain_run m ctx _ _ (gs_domain _ _ _ _ _ _ G) Hcol) as [[O1 O2 O3 O4 O5 _] Hd].
  destruct r as [D|e|]; [| |by destruct Hd].
  - destruct (gc_sound_traced _ _ _ _ _ _ _ _ G Hcol) as (hs & ls & R' & T & HR).
    pose proof (mark_then_sweep mods m ctx c g D hs ls R' oc l
      (fun o => negb (wah_gc_marked o) && is_exception o) is_exception (gc_set_phase WAH_GC_PHASE_IDLE) T B) as H.
    specialize (H ltac:(done) ltac:(by intros []) ltac:(by intros [])).
    apply runs_iff in H as ([] & m' & E & H). exists m'. split; [|left; by eapply collected_roots].
    rewrite <- E. apply bind_cont. by intros [].
  - destruct Hd as (-> & Hf). eexists. split; [|right; left; split; [done|]].
    + unfold wah_gc_step_mark, stm_bind, get_ctx, stm_opt, attempt. rewrite (gs_ctx _ _ _ _ _ _ G), Hcol.
      unfold upd_heap, stm_bind, get_heap, put_heap, stm_opt. rewrite O2, (gs_heap _ _ _ _ _ _ G). reflexivity.
    + split; [|split; [|split; [|split]]]; simpl; congruence.
Qed.

(** *** POLL *)

Lemma recompute_runs m a c g : ctxs m !! a = Some c -> cx_gc c <> 0 -> heaps m !! cx_gc c = Some g -> gc_pending g = false ->
  wah_recompute_poll_flag a m =
    (Ok tt, set_ctxs (<[a := cx_set_flags (cx_interrupt_flag c) (cx_interrupt_flag c) c]> (ctxs m)) m).
Proof.
  intros Hc Hn Hg Hp. unfold wah_recompute_poll_flag, stm_bind, get_ctx, stm_opt. rewrite Hc.
  destruct (Z.eqb_spec (cx_gc c) 0) as [|_]; [done|]. unfold get_heap, stm_opt. rewrite Hg. simpl. by rewrite Hp.
Qed.

(** C6. A pending collection is carried out by the next POLL of the activation, unless
    an interrupt is pending: with memory for its lists, every object of the heap that the
    program can't get to from the roots of the domain is freed, everything else is kept, and neither the request nor the
    flag of the next POLL remains. *)
Theorem wah_poll_handler_collects mods m ctx c g R oc l :
  gc_sound mods m ctx c g R -> books m (cx_gc c) g oc l -> phase g <> WAH_GC_PHASE_SWEEP ->
  gc_pending g = true -> cx_interrupt_flag c = false -> false ∉ more m ->
  exists m1 c1, ctxs m1 !! ctx = Some c1 /\
    wah_poll_handler mods ctx m = (Ok false, set_ctxs (<[ctx := cx_set_flags false false c1]> (ctxs m1)) m1) /\
    collected mods m c (gc_set_pending false g) l R (fun _ => true) m1.
Proof.
  intros G B Hp Hpend Hint Hmore. pose proof (gs_ctx _ _ _ _ _ _ G) as Hc. pose proof (gs_heap _ _ _ _ _ _ G) as Hg.
  pose proof (gs_gc _ _ _ _ _ _ G) as Hn.
  set (g0 := gc_set_pending false g). set (m0 := set_heaps (<[cx_gc c := g0]> (heaps m)) m).
  assert (G0 : gc_sound mods m0 ctx c g0 R) by by apply (gc_sound_heap _ _ _ _ g).
  assert (B0 : books m0 (cx_gc c) g0 oc l).
  { apply (books_after m m0 (cx_gc c) g g0); try done. apply lookup_insert_eq. }
  destruct (step_outcome mods m0 ctx c g0 R oc l G0 B0 Hp) as (m1 & E1 & [C|[? _]]); [|done].
  pose proof (co_ctxs _ _ _ _ _ _ _ _ C ctx) as Ec. unfold m0 in Ec. simpl in Ec. rewrite Hc in Ec.
  destruct (ctxs m1 !! ctx) as [c1|] eqn:Hc1; [|done]. apply (inj Some) in Ec.
  pose proof (f_equal cx_gc Ec) as Eg. pose proof (f_equal cx_interrupt_flag Ec) as Ei. simpl in Eg, Ei. rewrite Hint in Ei.
  destruct (co_books _ _ _ _ _ _ _ _ C) as (g1 & oc1 & l1 & B1 & _ & _ & _ & Hp1 & _).
  exists m1, c1. split; [done|]. split; [|by apply (collected_before _ _ _ _ g0)].
  unfold wah_poll_handler. rewrite (stm_bind_run (get_ctx ctx) _ m c m) by (unfold get_ctx, stm_opt; by rewrite Hc).
  rewrite Hint. destruct (Z.eqb_spec (cx_gc c) 0) as [|_]; [done|].
  rewrite (stm_bind_run _ _ m true m); [|unfold stm_bind, get_heap, stm_opt; rewrite Hg; simpl; by rewrite Hpend].
  rewrite (stm_bind_run _ _ m tt m1).
  - rewrite (stm_bind_run _ _ m1 tt _ (recompute_runs m1 ctx c1 g1 Hc1 ltac:(congruence)
      ltac:(rewrite Eg; apply (bk_heap _ _ _ _ _ B1)) ltac:(rewrite Hp1; done))). by rewrite Ei.
  - rewrite (stm_bind_run (upd_heap (cx_gc c) (gc_set_pending false)) _ m tt m0); [exact E1|].
    unfold upd_heap, stm_bind, get_heap, put_heap, stm_opt. by rewrite Hg.
Qed.

(** *** Allocation

    [a], the block [wah_malloc] returns, is not that of an object and aligned. *)
Record block_ok (m : memory) (a : Z) : Prop := {
  bo_some : 0 < a;
  bo_aligned : a mod 4 = 0;
  bo_fresh : objs m !! a = None }.
(** Neither the count of objects nor that of bytes overflows with [total] bytes more. *)
Record room (g : wah_gc_state_t) (oc : wah_exec_context_t) (total : Z) : Prop := {
  ro_count : object_count g + 1 < 2 ^ 32;
  ro_max : max_memory_bytes (cx_budget oc) <= UINT64_MAX;
  ro_bytes : memory_bytes_committed (cx_budget oc) + total <= UINT64_MAX }.

Definition with_exceptions (n : Z) (g : wah_gc_state_t) : wah_gc_state_t :=
  gc_set_objects (all_objects g) (object_count g) n (allocated_bytes g) g.
Definition asks (g : wah_gc_state_t) (total : Z) : bool := allocation_threshold g <=? allocated_bytes g + total.

(** [m'] is [m] with the new object [a] of the heap of [ctx]. *)
Record allocated (m : memory) (ctx : Z) (c : wah_exec_context_t) (g : wah_gc_state_t) (oc : wah_exec_context_t)
  (l : list Z) (a module : Z) (repr_id : wah_repr_t) (payload_size : Z) (m' : memory) : Prop := {
  al_objs : objs m' = <[a := wah_gc_set_next (GcObject 0 repr_id (24 + payload_size) module
                                                (replicate (Z.to_nat payload_size) 0)) (all_objects g)]> (objs m);
  al_heap : exists g' oc', books m' (cx_gc c) g' oc' (a :: l) /\ all_objects g' mod 4 = 0 /\
    heaps m' = <[cx_gc c := g']> (heaps m) /\
    gc_pending g' = gc_pending g || asks g (24 + payload_size) /\
    owner g' = owner g /\ phase g' = phase g /\
    cx_budget oc' = Budget (max_memory_bytes (cx_budget oc)) (memory_bytes_committed (cx_budget oc) + (24 + payload_size)) /\
    (max_memory_bytes (cx_budget oc) <> UINT64_MAX ->
     memory_bytes_committed (cx_budget oc) + (24 + payload_size) <= max_memory_bytes (cx_budget oc));
  al_flag : exists c', ctxs m' !! ctx = Some c' /\
    cx_set_budget (Budget 0 0) c' =
    cx_set_budget (Budget 0 0) (cx_set_flags (cx_poll_flag c || asks g (24 + payload_size)) (cx_interrupt_flag c) c);
  al_ctxs x : x <> ctx ->
    cx_set_budget (Budget 0 0) <$> ctxs m' !! x = cx_set_budget (Budget 0 0) <$> ctxs m !! x }.

Lemma segment_push O a o0 all l : O !! a = None -> a <> 0 -> all mod 4 = 0 -> segment O all l 0 ->
  segment (<[a := wah_gc_set_next o0 all]> O) a (a :: l) 0.
Proof.
  intros Ha Hn Hall H. split; [done|]. split; [done|]. eexists. split; [apply lookup_insert_eq|].
  rewrite next_set_next by done. eapply segment_frame; [|exact H]. intros x Hx.
  destruct (segment_elem _ _ _ _ x H Hx) as [_ [o Ho]]. rewrite lookup_insert_ne; [done|]. congruence.
Qed.
Lemma sizes_cons O x o l : O !! x = Some o -> sizes O (x :: l) = size_bytes o + sizes O l.
Proof. intros H. simpl. by rewrite H. Qed.
Lemma count_if_cons P x l : count_if P (x :: l) = (if P x then 1 else 0) + count_if P l.
Proof. unfold count_if, zlen. simpl. destruct (P x); simpl; lia. Qed.

(** The books with a new object, whatever becomes of the rest of the heap's structure. *)
Lemma books_push m m' h g g' oc oc' l a o : books m h g oc l -> a <> 0 -> objs m !! a = None -> all_objects g mod 4 = 0 ->
  0 <= size_bytes o -> objs m' = <[a := wah_gc_set_next o (all_objects g)]> (objs m) ->
  heaps m' !! h = Some g' -> all_objects g' = a -> object_count g' = object_count g + 1 ->
  exception_count g' = (if is_exception o then 1 else 0) + exception_count g ->
  allocated_bytes g' = size_bytes o + allocated_bytes g -> ctxs m' !! owner g' = Some oc' ->
  memory_bytes_committed (cx_budget oc') = memory_bytes_committed (cx_budget oc) + size_bytes o ->
  object_count g + 1 < 2 ^ 32 -> memory_bytes_committed (cx_budget oc') < 2 ^ 64 ->
  books m' h g' oc' (a :: l).
Proof.
  intros [B1 B2 B3 B4 B5 B6 B7 B8 B9 [B10 B11]] Hn Ha Hal Hs Eo Eh Ea Ec Ee Eb Eow Em Hc Hb.
  assert (Hal2 : forall x, x ∈ l -> x <> a).
  { intros x Hx. destruct (segment_elem _ _ _ _ x B2 Hx) as [_ [o1 Ho1]]. congruence. }
  destruct (linked_like_books (objs m) (objs m') l) as [Es Ex].
  { intros y Hy. rewrite Eo, lookup_insert_ne by (symmetry; by apply Hal2). done. }
  assert (Hla : objs m' !! a = Some (wah_gc_set_next o (all_objects g))) by (rewrite Eo; apply lookup_insert_eq).
  assert (Esz : sizes (objs m') (a :: l) = size_bytes o + sizes (objs m) l) by (rewrite (sizes_cons _ _ _ _ Hla), Es; by destruct o).
  split; try done.
  - rewrite Eo, Ea. by apply segment_push.
  - constructor; [|done]. intros Hin. by destruct (Hal2 a Hin).
  - rewrite Ec, B4. unfold zlen. simpl. lia.
  - rewrite count_if_cons, Ee, Ex, B5. unfold obj_is. rewrite Hla. by destruct o.
  - rewrite Esz. lia.
  - rewrite Esz, Em. lia.
  - intros x o2 Hx. rewrite Eo in Hx. destruct (decide (a = x)) as [<-|].
    + rewrite lookup_insert_eq in Hx. injection Hx as <-. done.
    + rewrite lookup_insert_ne in Hx by done. by eapply B9.
  - split; [unfold zlen in *; simpl; lia|]. rewrite Esz. lia.
Qed.

(** What [wah_gc_alloc] leaves, for the block [a]: the counts of exceptions are the caller's. *)
Record pushed (m : memory) (ctx : Z) (c : wah_exec_context_t) (g : wah_gc_state_t) (oc : wah_exec_context_t)
  (a : Z) (o : wah_gc_object_t) (m' : memory) : Prop := {
  pu_objs : objs m' = <[a := wah_gc_set_next o (all_objects g)]> (objs m);
  pu_heaps : heaps m' = <[cx_gc c := gc_set_pending (gc_pending g || asks g (size_bytes o))
    (gc_set_objects a (object_count g + 1) (exception_count g) (allocated_bytes g + size_bytes o) g)]> (heaps m);
  pu_owner : exists oc', ctxs m' !! owner g = Some oc' /\
    cx_budget oc' = Budget (max_memory_bytes (cx_budget oc)) (memory_bytes_committed (cx_budget oc) + size_bytes o);
  pu_flag : exists c', ctxs m' !! ctx = Some c' /\
    cx_set_budget (Budget 0 0) c' =
    cx_set_budget (Budget 0 0) (cx_set_flags (cx_poll_flag c || asks g (size_bytes o)) (cx_interrupt_flag c) c);
  pu_ctxs x : x <> ctx ->
    cx_set_budget (Budget 0 0) <$> ctxs m' !! x = cx_set_budget (Budget 0 0) <$> ctxs m !! x }.

Lemma aligned_no_tag a : a mod 4 = 0 -> (Z.land a WAH_I31_TAG =? 0) = true.
Proof.
  intros H. apply Z.eqb_eq, Z.bits_inj'. intros n Hn. rewrite Z.land_spec, Z.bits_0. change WAH_I31_TAG with (2 ^ 0).
  rewrite Z.pow2_bits_eqb by lia. destruct (Z.eqb_spec 0 n) as [<-|]; [|by rewrite andb_false_r]. by rewrite aligned_bit by (done || lia).
Qed.

Lemma cx_budget_eq c c' : cx_set_budget (Budget 0 0) c = cx_set_budget (Budget 0 0) c' -> exists b, c = cx_set_budget b c'.
Proof.
  intros H. exists (cx_budget c). transitivity (cx_set_budget (cx_budget c) (cx_set_budget (Budget 0 0) c)); [by destruct c|].
  by rewrite H.
Qed.

Section Alloc.
Context (m : memory) (ctx : Z) (c : wah_exec_context_t) (g : wah_gc_state_t) (oc : wah_exec_context_t) (l : list Z).
Hypotheses (Hc : ctxs m !! ctx = Some c) (Hn : cx_gc c <> 0) (B : books m (cx_gc c) g oc l).

Lemma alloc_bytes : 0 <= allocated_bytes g <= memory_bytes_committed (cx_budget oc) /\ 0 <= object_count g.
Proof.
  pose proof (sizes_nonneg (objs m) l (bk_sizes _ _ _ _ _ B)) as H. rewrite (bk_bytes _ _ _ _ _ B), (bk_count _ _ _ _ _ B).
  pose proof (bk_budget _ _ _ _ _ B). unfold zlen. lia.
Qed.

Lemma alloc_runs module repr_id payload_size a bs : blocks m = a :: bs -> block_ok m a ->
  0 <= payload_size <= UINT32_MAX - 24 -> room g oc (24 + payload_size) ->
  wah_budget_check (cx_budget oc) (24 + payload_size) = true ->
  exists m', wah_gc_alloc ctx module repr_id payload_size m = (Ok (wah_gc_payload a), m') /\
    pushed m ctx c g oc a (GcObject 0 repr_id (24 + payload_size) module (replicate (Z.to_nat payload_size) 0)) m'.
Proof.
  intros Hb [Ha0%Z.lt_neq%not_eq_sym Ha4 Haf] Hp [Rc Rm Rb] Hck. pose proof alloc_bytes as [Hby Hcnt].
  unfold wah_gc_alloc, upd_heap, upd_ctx, stm_bind, get_ctx, get_heap, stm_opt. rewrite Hc.
  destruct (Z.eqb_spec (cx_gc c) 0) as [|_]; [done|]. rewrite (bk_heap _ _ _ _ _ B). change sizeof_wah_gc_object_t with 24.
  destruct (Z.ltb_spec (UINT32_MAX - 24) payload_size) as [|_]; [lia|]. rewrite (bk_owner _ _ _ _ _ B).
  rewrite (u32_small (24 + payload_size)) by (unfold UINT32_MAX in *; lia). rewrite Hck. cbn [negb]. cbv iota.
  unfold gc_malloc. rewrite Hb. destruct (Z.eqb_spec a 0) as [|_]; [done|]. unfold gc_assert, put_obj, put_heap, put_ctx, wah_budget_charge.
  rewrite (aligned_no_tag a Ha4), (u32_small (object_count g + 1)), (u64_small (allocated_bytes g + (24 + payload_size))),
    (u64_small (memory_bytes_committed _ + _)) by (unfold UINT64_MAX in *; lia).
  change (allocation_threshold g <=? allocated_bytes g + (24 + payload_size)) with (asks g (24 + payload_size)).
  set (o := GcObject _ _ _ _ _). set (oc1 := cx_set_budget _ oc). set (g1 := gc_set_objects a _ _ _ g).
  assert (exists c1, <[owner g:=oc1]> (ctxs m) !! ctx = Some c1 /\ cx_set_budget (Budget 0 0) c1 = cx_set_budget (Budget 0 0) c) as (c1 & Hc1 & Ec1).
  { destruct (decide (owner g = ctx)) as [<-|].
    - exists oc1. rewrite lookup_insert_eq. split; [done|]. pose proof (bk_owner _ _ _ _ _ B). by replace c with oc by congruence.
    - exists c. by rewrite lookup_insert_ne. }
  assert (Hcx : forall x, x <> ctx ->
    cx_set_budget (Budget 0 0) <$> <[owner g := oc1]> (ctxs m) !! x = cx_set_budget (Budget 0 0) <$> ctxs m !! x).
  { intros x _. destruct (decide (owner g = x)) as [<-|]; [|by rewrite lookup_insert_ne].
    by rewrite lookup_insert_eq, (bk_owner _ _ _ _ _ B). }
  destruct (asks g (24 + payload_size)) eqn:Eask.
  - cbn [objs heaps ctxs set_objs set_heaps set_ctxs set_blocks]. rewrite lookup_insert_eq.
    cbn [objs heaps ctxs set_objs set_heaps set_ctxs set_blocks]. rewrite Hc1. eexists. split; [reflexivity|].
    split; cbn [objs heaps ctxs set_objs set_heaps set_ctxs set_blocks].
    + done.
    + rewrite insert_insert_eq. change (size_bytes o) with (24 + payload_size). by rewrite Eask, orb_true_r.
    + destruct (decide (owner g = ctx)) as [<-|].
      * rewrite lookup_insert_eq in Hc1. injection Hc1 as <-. eexists. rewrite lookup_insert_eq. by split.
      * exists oc1. rewrite lookup_insert_ne by done. by rewrite lookup_insert_eq.
    + eexists. rewrite lookup_insert_eq. split; [done|]. change (size_bytes o) with (24 + payload_size).
      rewrite Eask, orb_true_r. destruct (cx_budget_eq c1 c Ec1) as [b ->]. by destruct c.
    + intros x Hx. rewrite lookup_insert_ne by done. by apply Hcx.
  - eexists. split; [reflexivity|].
    split; cbn [objs heaps ctxs set_objs set_heaps set_ctxs set_blocks].
    + done.
    + change (size_bytes o) with (24 + payload_size). rewrite Eask, orb_false_r. by destruct g.
    + exists oc1. by rewrite lookup_insert_eq.
    + exists c1. split; [done|]. change (size_bytes o) with (24 + payload_size).
      rewrite Eask, orb_false_r, Ec1. by destruct c.
    + done.
Qed.

Lemma pushed_allocated module repr_id payload_size a m1 m' : let total := 24 + payload_size in
  let o := GcObject 0 repr_id total module (replicate (Z.to_nat payload_size) 0) in
  let g1 := gc_set_pending (gc_pending g || asks g total)
    (gc_set_objects a (object_count g + 1) ((if is_exception o then 1 else 0) + exception_count g) (allocated_bytes g + total) g) in
  pushed m ctx c g oc a o m1 -> objs m' = objs m1 -> ctxs m' = ctxs m1 -> heaps m' = <[cx_gc c := g1]> (heaps m) ->
  block_ok m a -> 0 <= payload_size -> room g oc total -> all_objects g mod 4 = 0 ->
  wah_budget_check (cx_budget oc) total = true ->
  allocated m ctx c g oc l a module repr_id payload_size m'.
Proof.
  intros total o g1 [P1 P2 (oc' & Ho & Eb) P4 P5] Eo Ec Eh [Ha0%Z.lt_neq%not_eq_sym Ha4 Haf] Hp [Rc Rm Rb] Hal Hck. rewrite <- Ec in Ho, P4, P5.
  change (size_bytes o) with total in *.
  split; [by rewrite Eo| |done|done]. exists g1, oc'.
  split; [|split; [done|split; [done|split; [done|split; [done|split; [done|split; [done|]]]]]]].
  - apply (books_push m m' (cx_gc c) g g1 oc oc' l a o); try done.
    + simpl. unfold total. lia.
    + by rewrite Eo.
    + rewrite Eh. apply lookup_insert_eq.
    + simpl. unfold total. lia.
    + by rewrite Eb.
    + rewrite Eb. simpl. unfold UINT64_MAX in *. lia.
  - intros Hmax. pose proof alloc_bytes as [? _]. unfold wah_budget_check in Hck. unfold total in *.
    destruct (Z.eqb_spec (max_memory_bytes (cx_budget oc)) UINT64_MAX); [done|].
    destruct (Z.ltb_spec (max_memory_bytes (cx_budget oc)) (memory_bytes_committed (cx_budget oc))); [done|].
    rewrite u64_small in Hck by (unfold UINT64_MAX in *; lia). lia.
Qed.

(** Why an allocation of [payload_size] bytes fails. *)
Definition no_room (payload_size : Z) : Prop :=
  UINT32_MAX - 24 < payload_size \/ wah_budget_check (cx_budget oc) (24 + payload_size) = false \/
  blocks m = [] \/ exists bs, blocks m = 0 :: bs.
Definition untouched (m' : memory) : Prop :=
  objs m' = objs m /\ heaps m' = heaps m /\ ctxs m' = ctxs m /\ slots m' = slots m /\ more m' = more m.

Lemma alloc_cases module repr_id payload_size : 0 <= payload_size <= UINT32_MAX ->
  (exists m', wah_gc_alloc ctx module repr_id payload_size m = (Ok 0, m') /\ untouched m' /\ no_room payload_size) \/
  payload_size <= UINT32_MAX - 24 /\ wah_budget_check (cx_budget oc) (24 + payload_size) = true /\
  exists a bs, blocks m = a :: bs /\ a <> 0.
Proof.
  intros Hp. unfold untouched, no_room.
  destruct (Z.ltb_spec (UINT32_MAX - 24) payload_size) as [Hl|Hl].
  { left. exists m. split; [|by auto 8]. unfold wah_gc_alloc, stm_bind, get_ctx, get_heap, stm_opt. rewrite Hc.
    destruct (Z.eqb_spec (cx_gc c) 0); [done|]. rewrite (bk_heap _ _ _ _ _ B). change sizeof_wah_gc_object_t with 24.
    by destruct (Z.ltb_spec (UINT32_MAX - 24) payload_size); [|lia]. }
  destruct (wah_budget_check (cx_budget oc) (24 + payload_size)) eqn:Hck; last first.
  { left. exists m. split; [|by auto 8]. unfold wah_gc_alloc, stm_bind, get_ctx, get_heap, stm_opt. rewrite Hc.
    destruct (Z.eqb_spec (cx_gc c) 0); [done|]. rewrite (bk_heap _ _ _ _ _ B). change sizeof_wah_gc_object_t with 24.
    destruct (Z.ltb_spec (UINT32_MAX - 24) payload_size); [lia|]. rewrite (bk_owner _ _ _ _ _ B).
    rewrite (u32_small (24 + payload_size)) by (unfold UINT32_MAX in *; lia). by rewrite Hck. }
  assert (Hm : wah_gc_alloc ctx module repr_id payload_size m =
    (Ok 0, match blocks m with [] => m | _ :: bs => set_blocks bs m end) \/ exists a bs, blocks m = a :: bs /\ a <> 0).
  { destruct (blocks m) as [|a bs] eqn:Hb; [|destruct (Z.eqb_spec a 0) as [->|]; [|right; by eauto]]; left.
    all: unfold wah_gc_alloc, stm_bind, get_ctx, get_heap, stm_opt; rewrite Hc.
    all: destruct (Z.eqb_spec (cx_gc c) 0); [done|]; rewrite (bk_heap _ _ _ _ _ B); change sizeof_wah_gc_object_t with 24.
    all: destruct (Z.ltb_spec (UINT32_MAX - 24) payload_size); [lia|]; rewrite (bk_owner _ _ _ _ _ B).
    all: rewrite (u32_small (24 + payload_size)) by (unfold UINT32_MAX in *; lia); rewrite Hck; cbn [negb].
    all: unfold gc_malloc; by rewrite Hb. }
  destruct (blocks m) as [|a bs] eqn:Hb.
  - left. destruct Hm as [Hm|(? & ? & ? & _)]; [|done]. exists m. by auto 8.
  - destruct (decide (a = 0)) as [->|]; [|right; by eauto 6]. left.
    destruct Hm as [Hm|(? & ? & [= <- _] & ?)]; [|done]. exists (set_blocks bs m). split; [done|]. split; [done|]. eauto 6.
Qed.
End Alloc.

(** C7. [wah_gc_alloc] gives a new zeroed object of the heap of [ctx], whose books then
    include it, within the budget of the heap's owner; it asks for a collection, and for the
    next POLL, exactly when the bytes allocated reach the threshold.  It fails exactly when
    the object is too large, the budget exceeded or [wah_malloc] fails, and then nothing has
    changed. *)
Theorem wah_gc_alloc_exact m ctx c g oc l module repr_id payload_size :
  ctxs m !! ctx = Some c -> cx_gc c <> 0 -> books m (cx_gc c) g oc l -> all_objects g mod 4 = 0 ->
  0 <= payload_size <= UINT32_MAX -> repr_id <> WAH_TYPE_EXN -> room g oc (24 + payload_size) ->
  (forall a, a ∈ blocks m -> a <> 0 -> block_ok m a) ->
  exists p m', wah_gc_alloc ctx module repr_id payload_size m = (Ok p, m') /\
    (p = 0 /\ untouched m m' /\ no_room m oc payload_size \/
     exists a, p = wah_gc_payload a /\ a ∈ blocks m /\ a <> 0 /\ allocated m ctx c g oc l a module repr_id payload_size m').
Proof.
  intros Hc Hn B Hal Hp Hr R Hbl.
  destruct (alloc_cases m ctx c g oc l Hc Hn B module repr_id payload_size Hp) as [(m' & E & Hu)|(Hs & Hck & a & bs & Hb & Ha)].
  - exists 0, m'. by auto.
  - assert (block_ok m a) as Hok by (apply Hbl; [rewrite Hb; left|done]).
    destruct (alloc_runs m ctx c g oc l Hc Hn B module repr_id payload_size a bs Hb Hok ltac:(lia) R Hck) as (m' & E & P).
    exists (wah_gc_payload a), m'. split; [done|]. right. exists a. split; [done|]. split; [rewrite Hb; left|]. split; [done|].
    apply (pushed_allocated m ctx c g oc l B module repr_id payload_size a m' m'); try done; [|lia].
    rewrite (pu_heaps _ _ _ _ _ _ _ _ P). unfold is_exception. simpl. by destruct (Z.eqb_spec repr_id WAH_TYPE_EXN).
Qed.

(** [wah_gc_alloc_exception] also counts the exception. *)
Lemma alloc_exception_exact m ctx c g oc l value_count : let size := 16 + value_count * 20 in
  ctxs m !! ctx = Some c -> cx_gc c <> 0 -> books m (cx_gc c) g oc l -> all_objects g mod 4 = 0 ->
  0 <= value_count <= UINT32_MAX -> room g oc (24 + size) ->
  (forall a, a ∈ blocks m -> a <> 0 -> block_ok m a) ->
  exists p m', wah_gc_alloc_exception ctx value_count m = (Ok p, m') /\
    (p = 0 /\ untouched m m' /\ no_room m oc size \/
     p ∈ blocks m /\ p <> 0 /\ allocated m ctx c g oc l p 0 WAH_TYPE_EXN size m').
Proof.
  intros size Hc Hn B Hal Hv R Hbl. unfold wah_gc_alloc_exception.
  change (u32 (sizeof_wah_exception_t - sizeof_wah_gc_object_t)) with 16. change (sizeof_wah_value_t + sizeof_wah_type_t) with 20.
  rewrite (u64_small (value_count * 20)), (u64_small (16 + _)) by (unfold UINT32_MAX in *; lia). fold size.
  destruct (Z.ltb_spec UINT32_MAX size) as [Hl|Hl].
  { exists 0, m. split; [done|]. left. split; [done|]. split; [by repeat split|]. left. lia. }
  rewrite (u32_small size) by (unfold size, UINT32_MAX in *; lia).
  destruct (alloc_cases m ctx c g oc l Hc Hn B 0 WAH_TYPE_EXN size) as [(m' & E & Hu)|(Hs & Hck & a & bs & Hb & Ha)].
  { unfold size in *. lia. }
  { exists 0, m'. rewrite (stm_bind_run _ _ m 0 m' E). by auto. }
  assert (block_ok m a) as Hok by (apply Hbl; [rewrite Hb; left|done]).
  destruct (alloc_runs m ctx c g oc l Hc Hn B 0 WAH_TYPE_EXN size a bs Hb Hok ltac:(unfold size; lia) R Hck) as (m1 & E & P).
  pose proof (pu_flag _ _ _ _ _ _ _ _ P) as (c1 & Hc1 & Ec1). pose proof (f_equal cx_gc Ec1) as Eg. simpl in Eg.
  pose proof (bk_count _ _ _ _ _ B) as Hcnt. pose proof (bk_exn _ _ _ _ _ B) as Hexn. pose proof (ro_count _ _ _ R).
  assert (0 <= exception_count g <= object_count g).
  { rewrite Hcnt, Hexn. unfold count_if, zlen. pose proof (List.filter_length_le (obj_is (objs m) is_exception) l). lia. }
  eexists a, _. split; [|right; split; [rewrite Hb; left|split; [done|]]].
  - rewrite (stm_bind_run _ _ m (wah_gc_payload a) m1 E).
    destruct (Z.eqb_spec (wah_gc_payload a) 0) as [E0|_]; [|].
    { destruct Hok as [Hpos _ _]. unfold wah_gc_payload, sizeof_wah_gc_object_t in E0. lia. }
    rewrite (stm_bind_run (get_ctx ctx) _ m1 c1 m1) by (unfold get_ctx, stm_opt; by rewrite Hc1).
    unfold upd_heap, stm_bind, get_heap, put_heap, stm_opt. rewrite Eg, (pu_heaps _ _ _ _ _ _ _ _ P), lookup_insert_eq.
    unfold stm_ret, wah_gc_header, wah_gc_payload. by rewrite Z.add_simpl_r.
  - apply (pushed_allocated m ctx c g oc l B 0 WAH_TYPE_EXN size a m1 _ P); try done; [|unfold size; lia].
    simpl. rewrite (pu_heaps _ _ _ _ _ _ _ _ P), insert_insert_eq, (u32_small (_ + 1)) by lia. unfold gc_set_objects, gc_set_pending. simpl.
    by rewrite (Z.add_comm (exception_count g) 1).
Qed.

(** *** Checking the books *)

Lemma count_objects_runs m l fuel limit a n b : segment (objs m) a l 0 -> (length l < fuel)%nat ->
  0 <= n -> 0 <= b -> n + zlen l <= limit + 1 -> limit + 1 < 2 ^ 32 -> b + sizes (objs m) l < 2 ^ 64 ->
  (forall x o, objs m !! x = Some o -> 0 <= size_bytes o) ->
  count_objects fuel limit a n b m = (Ok (Some (n + zlen l, b + sizes (objs m) l)), m).
Proof.
  intros H Hf Hn Hb Hl Hlim Hs Hpos. revert a fuel n b H Hf Hn Hb Hl Hs. induction l as [|x l IH]; intros a fuel n b H Hf Hn Hb Hl Hs.
  - simpl in H. subst a. destruct fuel as [|fuel]; [simpl in Hf; lia|]. simpl. unfold zlen. simpl. by rewrite !Z.add_0_r.
  - destruct H as (-> & Hx & o & Ho & H). destruct fuel as [|fuel]; [simpl in Hf; lia|]. simpl.
    destruct (Z.eqb_spec x 0); [done|]. unfold stm_bind, get_obj, stm_opt. rewrite Ho.
    pose proof (Hpos x o Ho). pose proof (sizes_nonneg (objs m) l Hpos) as Hnn. simpl in Hs. rewrite Ho in Hs.
    replace (zlen (x :: l)) with (1 + zlen l) in * by (unfold zlen; simpl; lia). assert (0 <= zlen l) by (unfold zlen; lia).
    rewrite (u32_small (n + 1)), (u64_small (b + size_bytes o)), (u32_small (limit + 1)) by lia.
    destruct (Z.ltb_spec (limit + 1) (n + 1)); [lia|]. rewrite (IH (wah_gc_next o)); try done; try lia; [|simpl in Hf; lia].
    by rewrite <- !Z.add_assoc.
Qed.

(** [wah_gc_verify_heap] holds for a heap whose books are right. *)
Theorem wah_gc_verify_heap_books m ctx c g oc l : ctx <> 0 -> ctxs m !! ctx = Some c -> cx_gc c <> 0 ->
  books m (cx_gc c) g oc l -> object_count g + 1 < 2 ^ 32 -> wah_gc_verify_heap ctx m = (Ok true, m).
Proof.
  intros Hn0 Hc Hn B Hlim. unfold wah_gc_verify_heap. destruct (Z.eqb_spec ctx 0); [done|].
  unfold stm_bind, get_ctx, get_heap, stm_opt. rewrite Hc. destruct (Z.eqb_spec (cx_gc c) 0); [done|].
  rewrite (bk_heap _ _ _ _ _ B). pose proof (bk_count _ _ _ _ _ B) as Hc1. pose proof (bk_bytes _ _ _ _ _ B) as Hb1.
  pose proof (bk_bounds _ _ _ _ _ B) as [_ Hb2].
  rewrite (count_objects_runs m l); try done; try lia; [|apply (bk_chain _ _ _ _ _ B)|unfold zlen in *; lia|apply (bk_sizes _ _ _ _ _ B)].
  unfold stm_ret. rewrite Hc1, Hb1, !Z.add_0_l, !Z.eqb_refl. done.
Qed.

(** *** The life of a heap *)

Lemma free_objects_runs fuel m a l : segment (objs m) a l 0 -> NoDup l -> (length l <= fuel)%nat ->
  exists O', free_objects fuel a m = (Ok tt, set_objs O' m) /\
    forall x, O' !! x = if decide (x ∈ l) then None else objs m !! x.
Proof.
  revert fuel m a. induction l as [|x l IH]; intros fuel m a H Hnd Hf.
  - simpl in H. subst a. exists (objs m). split; [by destruct fuel, m|].
    intros x. rewrite decide_False; [done|]. by apply not_elem_of_nil.
  - pose proof H as (-> & Hx & o & Ho & H2). destruct fuel as [|fuel]; [simpl in Hf; lia|]. simpl.
    destruct (Z.eqb_spec x 0); [done|]. unfold stm_bind, get_obj, stm_opt, free_obj. rewrite Ho. simpl. rewrite Ho.
    pose proof (unlink_first _ _ _ _ _ _ Hnd H Ho) as Hd.
    destruct (IH fuel (set_objs (delete x (objs m)) m) (wah_gc_next o)) as (O' & E & HO); [done| |simpl in Hf; lia|].
    { by apply NoDup_cons in Hnd as [_ ?]. }
    exists O'. split; [by rewrite E; destruct m|]. intros y. rewrite HO. simpl. destruct (decide (y = x)) as [->|].
    + rewrite lookup_delete_eq. rewrite (decide_True (P := x ∈ x :: l)) by left. by case_decide.
    + rewrite lookup_delete_ne by done. destruct (decide (y ∈ l)); [rewrite decide_True by by right|rewrite decide_False]; [done..|].
      intros [?|?]%elem_of_cons; done.
Qed.

Lemma NoDup_size (O : gmap Z wah_gc_object_t) l : NoDup l -> (forall x, x ∈ l -> is_Some (O !! x)) -> (length l <= size O)%nat.
Proof.
  intros Hnd H. rewrite <- size_dom, <- (size_list_to_set (C:=gset Z) l Hnd). apply subseteq_size.
  intros x. rewrite elem_of_list_to_set. intros Hx. apply elem_of_dom. by apply H.
Qed.

(** [wah_gc_end] frees every object of the heap and the heap itself, gives the budget of
    its owner all their bytes back, and leaves the context without a heap. *)
Theorem wah_gc_end_exact m ctx c g oc l : ctxs m !! ctx = Some c -> cx_gc c <> 0 -> books m (cx_gc c) g oc l ->
  exists m', wah_gc_end ctx m = (Ok tt, m') /\
    (forall x, objs m' !! x = if decide (x ∈ l) then None else objs m !! x) /\
    heaps m' = delete (cx_gc c) (heaps m) /\
    cx_gc <$> ctxs m' !! ctx = Some 0 /\
    (forall x, cx_set_budget (Budget 0 0) <$> ctxs m' !! x =
       if decide (x = ctx) then Some (cx_set_budget (Budget 0 0) (cx_set_gc 0 c)) else cx_set_budget (Budget 0 0) <$> ctxs m !! x) /\
    cx_budget <$> ctxs m' !! owner g =
      Some (Budget (max_memory_bytes (cx_budget oc)) (memory_bytes_committed (cx_budget oc) - sizes (objs m) l)).
Proof.
  intros Hc Hn B. unfold wah_gc_end, upd_ctx, budget_release, wah_gc_free_all_objects, upd_heap, stm_bind, get_ctx, get_heap, stm_opt, stm_get.
  rewrite Hc. destruct (Z.eqb_spec (cx_gc c) 0) as [|_]; [done|]. rewrite (bk_heap _ _ _ _ _ B), (bk_owner _ _ _ _ _ B).
  unfold wah_budget_release. rewrite (bk_bytes _ _ _ _ _ B). pose proof (bk_budget _ _ _ _ _ B).
  destruct (Z.leb_spec (sizes (objs m) l) (memory_bytes_committed (cx_budget oc))); [|lia].
  unfold put_ctx. cbn [heaps set_ctxs set_heaps set_objs]. rewrite (bk_heap _ _ _ _ _ B).
  set (b := Budget _ _). set (m1 := set_ctxs _ m). pose proof (bk_chain _ _ _ _ _ B) as Hch.
  destruct (free_objects_runs (object_fuel m1) m1 (all_objects g) l) as (O' & E & HO); [done|apply (bk_NoDup _ _ _ _ _ B)| |].
  { apply NoDup_size; [apply (bk_NoDup _ _ _ _ _ B)|]. intros x Hx. by destruct (segment_elem _ _ _ _ x Hch Hx) as [_ ?]. }
  rewrite E. cbn [heaps ctxs set_ctxs set_heaps set_objs]. unfold m1. cbn [heaps ctxs set_ctxs set_heaps set_objs].
  rewrite (bk_heap _ _ _ _ _ B). unfold put_heap, stm_put. cbn [ctxs heaps set_ctxs set_heaps set_objs].
  assert (exists c1, <[owner g:=cx_set_budget b oc]> (ctxs m) !! ctx = Some c1 /\ cx_set_budget (Budget 0 0) c1 = cx_set_budget (Budget 0 0) c /\
    (owner g = ctx -> cx_budget c1 = b)) as (c1 & Hc1 & Ec1 & Eb).
  { destruct (decide (owner g = ctx)) as [<-|].
    - eexists. rewrite lookup_insert_eq. split; [done|]. pose proof (bk_owner _ _ _ _ _ B). by replace c with oc by congruence.
    - exists c. by rewrite lookup_insert_ne. }
  rewrite Hc1. eexists. split; [reflexivity|]. cbn [objs ctxs heaps set_ctxs set_heaps set_objs].
  split; [done|]. split; [by rewrite delete_insert_eq|]. split; [by rewrite lookup_insert_eq|]. split.
  - intros x. case_decide as Hx; [subst x|].
    + rewrite lookup_insert_eq. simpl. f_equal. destruct (cx_budget_eq _ _ Ec1) as [b' ->]. done.
    + rewrite lookup_insert_ne by done. destruct (decide (owner g = x)) as [<-|]; [|by rewrite lookup_insert_ne].
      by rewrite lookup_insert_eq, (bk_owner _ _ _ _ _ B).
  - destruct (decide (owner g = ctx)) as [Eow|Hne].
    + rewrite Eow, lookup_insert_eq. simpl. by rewrite Eb.
    + rewrite lookup_insert_ne by done. by rewrite lookup_insert_eq.
Qed.

(** A new heap is empty, and its context owns it. *)
Lemma start_books m ctx c a bs : ctx <> 0 -> ctxs m !! ctx = Some c -> cx_poisoned c = false -> cx_gc c = 0 ->
  blocks m = a :: bs -> a <> 0 -> 0 <= memory_bytes_committed (cx_budget c) ->
  (forall x o, objs m !! x = Some o -> 0 <= size_bytes o) ->
  exists m' g, wah_gc_start ctx m = (Ok tt, m') /\ objs m' = objs m /\ books m' a g (cx_set_gc a c) [] /\
    phase g = WAH_GC_PHASE_IDLE /\ gc_pending g = false /\ ctxs m' = <[ctx := cx_set_gc a c]> (ctxs m).
Proof.
  intros Hn Hc Hp Hg Hb Ha Hcm Hs. unfold wah_gc_start, stm_ensure, stm_bind, get_ctx, stm_opt. destruct (Z.eqb_spec ctx 0); [done|]. simpl.
  rewrite Hc, Hp. simpl. rewrite Hg. simpl. unfold gc_malloc. rewrite Hb. destruct (Z.eqb_spec a 0); [done|]. simpl.
  eexists _, (GcState 0 0 WAH_GC_PHASE_IDLE 0 0 0 WAH_GC_DEFAULT_THRESHOLD 0 false ctx [] 0 None 0).
  split; [reflexivity|]. split; [done|]. split; [|by repeat split].
  split; simpl; try done; [apply lookup_insert_eq|constructor|apply lookup_insert_eq].
Qed.
