(* ===== verification/GcSamples.v ===== *)
(** * A heap to run the collector on

    Two contexts, the second dependent on the first; an exception that a pin of the first
    context refers to, the host object it holds, a host object pinned by the second
    context, an exception and a host object that nothing refers to.  The theorems on the
    collector apply to it. *)

From S2P Require Import Prelude Base Types Bytes Alloc ModuleEnv Analyze Samples Heap GcRoots Gc Total GcGraph GcMarking LinkDomain GcStep RootSpec GcSweep GcOk GcUse.
From stdpp Require Import gmap list.
#[local] Open Scope Z_scope.
#[local] Open Scope wah_scope.

(** ** Definitions *)

Definition sample_mods (a : Z) : option wah_module_env := if a =? 7 then Some sample_module else None.

Definition sample_object (next repr : Z) (p : list Z) : wah_gc_object_t := GcObject next repr (24 + zlen p) 0 p.
Definition zeros (n : nat) : list Z := replicate n 0.
(** An exception with one value, a reference to the object at 192. *)
Definition exception_payload : list Z :=
  zeros 12 ++ [1; 0; 0; 0] ++ [216; 0; 0; 0; 0; 0; 0; 0] ++ zeros 8 ++ [223; 255; 255; 255].
Definition sample_objs : gmap Z wah_gc_object_t :=
  {[ 480 := sample_object 384 WAH_REPR_HOST (zeros 8); 384 := sample_object 288 WAH_REPR_HOST (zeros 4);
     288 := sample_object 192 WAH_TYPE_EXN (zeros 16); 192 := sample_object 96 WAH_REPR_HOST (zeros 4);
     96 := sample_object 0 WAH_TYPE_EXN exception_payload ]}.
Definition sample_list : list Z := [480; 384; 288; 192; 96].

Definition sample_ctx (gc : Z) (deps pins : list Z) (interrupt : bool) : wah_exec_context_t :=
  ExecContext 7 gc [] deps 0 true false false WAH_EXEC_READY 0 0 0 None [] 0 0 [] pins 0 (Budget 1000 500) false interrupt.
Definition sample_heap (pending : bool) : wah_gc_state_t :=
  GcState 480 0 WAH_GC_PHASE_IDLE 5 2 188 WAH_GC_DEFAULT_THRESHOLD 0 pending 1 [] 0 None 0.
Definition sample_memory (pending : bool) (mallocs : list Z) (mores : answers) : memory :=
  Memory sample_objs {[ 2 := sample_heap pending ]} {[ 1 := sample_ctx 2 [3] [120; 0] false; 3 := sample_ctx 0 [] [408] false ]}
         ∅ mallocs mores.

(** ** Theorems *)

Section Sample.
Context (pending : bool) (mallocs : list Z) (mores : answers).
Notation sm := (sample_memory pending mallocs mores).
Notation sc := (sample_ctx 2 [3] [120; 0] false).

Lemma sample_ctxs a c : ctxs sm !! a = Some c -> a = 1 /\ c = sc \/ a = 3 /\ c = sample_ctx 0 [] [408] false.
Proof.
  simpl. intros H. apply lookup_insert_Some in H as [[<- <-]|[_ H]]; [by left|].
  apply lookup_singleton_Some in H as [<- <-]. by right.
Qed.
Lemma sample_linked a b : linked sm a b -> a = 1 /\ b = 3.
Proof.
  intros (c & [[-> ->]|[-> ->]]%sample_ctxs & _ & [Hb|[Hb|(g & Hn & Hg & Hb)]]); simpl in Hb; try set_solver.
  simpl in Hg. apply lookup_singleton_Some in Hg as [_ <-]. simpl in Hb. set_solver.
Qed.
Lemma sample_domain a : rtc (linked sm) 1 a -> a = 1 \/ a = 3.
Proof. intros H. apply rtc_inv_r in H as [<-|(b & _ & Hb)]; [by left|]. right. by apply (sample_linked b a). Qed.
Lemma sample_chain : chain (objs sm) 480 sample_list.
Proof. simpl. repeat (split; [done|]; split; [done|]; eexists; split; [reflexivity|]). done. Qed.
Lemma sample_reach x : reach sample_mods 7 (objs sm) [120; 408] x -> x = 96 \/ x = 192 \/ x = 384.
Proof.
  induction 1 as [r y Hr Ht|x o y _ IH Ho (rs & r & Hrs & Hin & Ht)].
  - apply elem_of_cons in Hr as [->|Hr]; [|apply list_elem_of_singleton in Hr as ->]; vm_compute in Ht; injection Ht as <-; auto.
  - destruct IH as [-> |[-> | ->]]; vm_compute in Ho; injection Ho as <-; vm_compute in Hrs; injection Hrs as <-.
    + apply list_elem_of_singleton in Hin as ->. vm_compute in Ht. injection Ht as <-. auto.
    + by apply elem_of_nil in Hin.
    + by apply elem_of_nil in Hin.
Qed.
Lemma sample_sound : gc_sound sample_mods sm 1 sc (sample_heap pending) [120; 408].
Proof.
  assert (H3 : rtc (linked sm) 1 3).
  { apply rtc_once. exists sc. split; [done|]. split; [done|]. right. left. by left. }
  assert (HD : forall a, rtc (linked sm) 1 a -> is_Some (context_roots sample_mods sm 1 a)).
  { intros a [->| ->]%sample_domain; eexists; by vm_compute. }
  split; try done.
  - split; [done|]. intros a [->| ->]%sample_domain; eexists; (split; [reflexivity|]); [|done]. intros _. by eexists.
  - intros r. rewrite domain_roots_listed by done. split.
    + intros [-> |[-> | H%elem_of_nil]%elem_of_cons]%elem_of_cons; [| |done].
      * exists 1, [120]. split; [done|]. split; [by vm_compute|left].
      * exists 3, [408]. split; [done|]. split; [by vm_compute|left].
    + intros (a & rs & [->| ->]%sample_domain & E & Hr); vm_compute in E; injection E as <-; set_solver.
  - intros a ca _ Hca Hn. apply sample_ctxs in Hca as [[-> ->]|[-> ->]]; [|done].
    exists (sample_heap pending), sample_list. split; [done|]. apply sample_chain.
  - intros x Hx%sample_reach. destruct Hx as [-> |[-> | ->]]; eexists _, _; (split; [reflexivity|by vm_compute]).
  - intros x o Hx _. right. exists 1, sc, (sample_heap pending), sample_list.
    do 4 (split; [done|]). split; [apply sample_chain|]. apply sample_reach in Hx. unfold sample_list. set_solver.
Qed.
Lemma sample_books : books sm 2 (sample_heap pending) sc sample_list.
Proof.
  split; try done.
  - apply chain_segment, sample_chain.
  - apply (bool_decide_unpack _). by vm_compute.
  - intros x o H. assert (H2 : map_Forall (fun _ o => 0 <= size_bytes o) sample_objs).
    { apply (bool_decide_unpack _). by vm_compute. }
    by apply (H2 x).
Qed.
End Sample.

(** *** The theorems apply *)

Notation sample_c := (sample_ctx 2 [3] [120; 0] false).

Lemma wah_gc_collect_domain_exact_witness :
  let '(r, m') := wah_gc_collect_domain 1 (sample_memory false [] []) in
  only_more (sample_memory false [] []) m' /\
  match r with
  | Ok D => NoDup D /\ (exists D', D = 1 :: D') /\ forall a, a ∈ D <-> rtc (linked (sample_memory false [] [])) 1 a
  | Err e => e = WAH_ERROR_OUT_OF_MEMORY /\ false ∈ more (sample_memory false [] [])
  | Fault => False
  end.
Proof. apply (wah_gc_collect_domain_exact (sample_memory false [] []) 1), sample_sound. Defined.

Lemma wah_poison_link_domain_exact_witness : exists m',
  wah_poison_link_domain 1 (poison_one 1 sample_c (sample_memory false [] [])) = (Ok tt, m') /\
  same_ctxs (sample_memory false [] []) m' /\
  forall x, poisoned_in m' x <->
    poisoned_in (sample_memory false [] []) x \/ unpoisoned_path (sample_memory false [] []) 1 x.
Proof.
  apply (wah_poison_link_domain_exact (sample_memory false [] []) 1 sample_c); [done..|]. split.
  - intros a -> _. by eexists.
  - intros a x -> Hx. assert (x = 1 \/ x = 3) as H13.
    { induction Hx as [|b d _ IH (c & Hc & Hn & Hd) _]; [by left|]. right.
      by apply (sample_linked false [] [] b d); exists c; (split; [done|]; split; [done|]); tauto. }
    split.
    + intros b (c & Hc & Hn & Hb). assert (b = 3) as ->; [|by eexists].
      by apply (sample_linked false [] [] x b); exists c; (split; [done|]; split; [done|]); tauto.
    + intros c Hc. by apply (sample_ctxs false [] []) in Hc as [[_ ->]|[_ ->]].
Defined.

(** The host object at 480 and the exception at 288 are freed. *)
Lemma wah_gc_step_exact_witness :
  (exists m', wah_gc_step sample_mods 1 (sample_memory false [] []) = (Ok tt, m') /\
    (collected sample_mods (sample_memory false [] []) sample_c (sample_heap false) sample_list [120; 408] (fun _ => true) m' \/
     false ∈ more (sample_memory false [] []) /\ skipped sample_c (sample_heap false) (sample_memory false [] []) m')) /\
  let m' := (wah_gc_step sample_mods 1 (sample_memory false [] [])).2 in
  is_Some (objs m' !! 96) /\ is_Some (objs m' !! 192) /\ is_Some (objs m' !! 384) /\
  objs m' !! 288 = None /\ objs m' !! 480 = None.
Proof.
  split.
  - apply (wah_gc_step_exact sample_mods _ 1 sample_c (sample_heap false) [120; 408] sample_c sample_list).
    + apply sample_sound.
    + apply sample_books.
    + done.
  - vm_compute. repeat (split; [by eexists|]). done.
Defined.

(** Only the exception at 288 is freed. *)
Lemma wah_gc_sweep_unreachable_exceptions_exact_witness :
  (exists m', wah_gc_sweep_unreachable_exceptions sample_mods 1 (sample_memory false [] []) = (Ok tt, m') /\
    (collected sample_mods (sample_memory false [] []) sample_c (sample_heap false) sample_list [120; 408] is_exception m' \/
     false ∈ more (sample_memory false [] []) /\ skipped sample_c (sample_heap false) (sample_memory false [] []) m' \/
     m' = sample_memory false [] [] /\
     forall x, x ∈ sample_list -> obj_is (objs (sample_memory false [] [])) is_exception x = false)) /\
  let m' := (wah_gc_sweep_unreachable_exceptions sample_mods 1 (sample_memory false [] [])).2 in
  is_Some (objs m' !! 96) /\ is_Some (objs m' !! 480) /\ objs m' !! 288 = None.
Proof.
  split.
  - apply (wah_gc_sweep_unreachable_exceptions_exact sample_mods _ 1 sample_c (sample_heap false) [120; 408] sample_c sample_list).
    + apply sample_sound.
    + apply sample_books.
  - vm_compute. repeat (split; [by eexists|]). done.
Defined.

(** With a pending collection, a failing work list does not matter here. *)
Lemma wah_poll_handler_collects_witness :
  (exists m1 c1, ctxs m1 !! 1 = Some c1 /\
    wah_poll_handler sample_mods 1 (sample_memory true [] []) =
      (Ok false, set_ctxs (<[1 := cx_set_flags false false c1]> (ctxs m1)) m1) /\
    collected sample_mods (sample_memory true [] []) sample_c (gc_set_pending false (sample_heap true)) sample_list
      [120; 408] (fun _ => true) m1) /\
  objs (wah_poll_handler sample_mods 1 (sample_memory true [] [])).2 !! 480 = None.
Proof.
  split; [|by vm_compute].
  apply (wah_poll_handler_collects sample_mods _ 1 sample_c (sample_heap true) [120; 408] sample_c sample_list).
  - apply sample_sound.
  - apply sample_books.
  - done.
  - done.
  - done.
  - intros H. by apply elem_of_nil in H.
Defined.

Lemma wah_gc_alloc_exact_witness :
  exists p m', wah_gc_alloc 1 0 WAH_REPR_HOST 8 (sample_memory false [576] []) = (Ok p, m') /\
    (p = 0 /\ untouched (sample_memory false [576] []) m' /\ no_room (sample_memory false [576] []) sample_c 8 \/
     exists a, p = wah_gc_payload a /\ a ∈ blocks (sample_memory false [576] []) /\ a <> 0 /\
       allocated (sample_memory false [576] []) 1 sample_c (sample_heap false) sample_c sample_list a 0 WAH_REPR_HOST 8 m').
Proof.
  apply (wah_gc_alloc_exact (sample_memory false [576] []) 1 sample_c (sample_heap false) sample_c sample_list 0 WAH_REPR_HOST 8).
  - done.
  - done.
  - apply sample_books.
  - done.
  - done.
  - done.
  - by split; vm_compute.
  - intros a ->%list_elem_of_singleton _. by split.
Defined.

Lemma wah_gc_verify_heap_books_witness :
  wah_gc_verify_heap 1 (sample_memory false [] []) = (Ok true, sample_memory false [] []).
Proof.
  apply (wah_gc_verify_heap_books _ 1 sample_c (sample_heap false) sample_c sample_list).
  - done.
  - done.
  - done.
  - apply sample_books.
  - done.
Defined.

Lemma wah_gc_end_exact_witness : exists m', wah_gc_end 1 (sample_memory false [] []) = (Ok tt, m') /\
  (forall x, objs m' !! x = if decide (x ∈ sample_list) then None else objs (sample_memory false [] []) !! x) /\
  heaps m' = delete 2 (heaps (sample_memory false [] [])) /\
  cx_gc <$> ctxs m' !! 1 = Some 0 /\
  (forall x, cx_set_budget (Budget 0 0) <$> ctxs m' !! x =
     if decide (x = 1) then Some (cx_set_budget (Budget 0 0) (cx_set_gc 0 sample_c))
     else cx_set_budget (Budget 0 0) <$> ctxs (sample_memory false [] []) !! x) /\
  cx_budget <$> ctxs m' !! 1 = Some (Budget 1000 312).
Proof.
  apply (wah_gc_end_exact (sample_memory false [] []) 1 sample_c (sample_heap false) sample_c sample_list).
  - done.
  - done.
  - apply sample_books.
Defined.
