(* ===== verification/Interrupt.v ===== *)
(** * Interrupts from other threads

    [poll_flag] and [interrupt_flag] of a context are shared with the threads that request
    an interrupt, in relaxed atomic accesses between fences.  Accesses are code of a small
    language, run by threads whose stores to the two flags wait in separate queues before
    they land in memory, so that they may land out of order; a fence waits for them. *)

From S2P Require Import Prelude Base Types Bytes Alloc ModuleEnv Analyze Heap GcRoots Gc.
From stdpp Require Import gmap list relations.
#[local] Open Scope Z_scope.
#[local] Open Scope wah_scope.

(** ** Definitions *)

Inductive flag := Poll | Interrupt.

(** [WAH_POLL_FLAG_STORE], [_FENCE] and [_LOAD]; [Done] with whether the activation yields. *)
Inductive code :=
| Done (yields : bool)
| Store (f : flag) (v : bool) (k : code)
| Fence (k : code)
| Load (f : flag) (k : bool -> code).

Definition wah_request_interrupt : code := Store Interrupt true (Fence (Store Poll true (Done false))).

(** [pending] is [gc_pending] of the heap, which only this thread uses. *)
Definition recompute_check (k : code) : code := Load Interrupt (fun b => if b then Store Poll true k else k).
Definition recompute_code (pending : bool) (k : code) : code :=
  if pending then Store Poll true k else Store Poll false (Fence (recompute_check k)).
(** The end of an activation by an interrupt: in POLL, in TICK and in bulk instructions. *)
Definition take_interrupt (pending : bool) : code := Store Interrupt false (recompute_code pending (Done true)).

(** What the thread of an activation does with its flags, [pending] before a recomputation. *)
Inductive action :=
| run_POLL (pending : bool)
| run_TICK (pending : bool)
| run_BULK (pending : bool)
| ask_collection
| wah_cancel_internal (pending : bool)
| wah_timer_set_armed_locked (fired pending : bool).
Definition action_code (a : action) : code :=
  match a with
  | run_POLL p =>
      Load Poll (fun b =>
        if b then Load Interrupt (fun b => if b then take_interrupt p else recompute_code p (Done false))
        else Done false)
  | run_TICK p | run_BULK p => Load Interrupt (fun b => if b then take_interrupt p else Done false)
  | ask_collection => Store Poll true (Done false)
  | wah_cancel_internal p => Store Interrupt false (recompute_code p (Done false))
  | wah_timer_set_armed_locked fired p =>
      if fired then Load Interrupt (fun b => if b then Store Interrupt false (recompute_code p (Done false)) else Done false)
      else Done false
  end.

Record flags := Flags { fl_poll : bool; fl_interrupt : bool }.
Definition fl_get (f : flag) (s : flags) : bool := match f with Poll => fl_poll s | Interrupt => fl_interrupt s end.
Definition fl_set (f : flag) (v : bool) (s : flags) : flags :=
  match f with Poll => Flags v (fl_interrupt s) | Interrupt => Flags (fl_poll s) v end.

(** Stores that have not landed, oldest first. *)
Record thread := Thread { th_code : code; th_poll : list bool; th_interrupt : list bool }.
Definition queue (f : flag) (t : thread) : list bool := match f with Poll => th_poll t | Interrupt => th_interrupt t end.
Definition set_queue (f : flag) (q : list bool) (t : thread) : thread :=
  match f with Poll => Thread (th_code t) q (th_interrupt t) | Interrupt => Thread (th_code t) (th_poll t) q end.
Definition continue (c : code) (t : thread) : thread := Thread c (th_poll t) (th_interrupt t).
Definition settled (t : thread) : Prop := th_poll t = [] /\ th_interrupt t = [].

(** A thread loads its own last store, or what is in memory when it executes the load: stores
    are delayed, loads are not.  (A relaxed load of C11 may also take an older value of the
    flag, between two fences of the thread; such a run is not one of this relation.) *)
Definition seen (f : flag) (t : thread) (s : flags) : bool := default (fl_get f s) (last (queue f t)).

Inductive thread_step : flags -> thread -> flags -> thread -> Prop :=
| ts_store s t f v k : th_code t = Store f v k -> thread_step s t s (set_queue f (queue f t ++ [v]) (continue k t))
| ts_fence s t k : th_code t = Fence k -> settled t -> thread_step s t s (continue k t)
| ts_load s t f k : th_code t = Load f k -> thread_step s t s (continue (k (seen f t s)) t)
| ts_land s t f v q : queue f t = v :: q -> thread_step s t (fl_set f v s) (set_queue f q t).

(** The flags, the thread of the activation and the threads that request interrupts. *)
Record world := World { w_flags : flags; w_main : thread; w_requests : list thread }.

(** Steps of code that is running. *)
Inductive running : world -> world -> Prop :=
| run_main s t rs s' t' : thread_step s t s' t' -> running (World s t rs) (World s' t' rs)
| run_request s t rs1 r rs2 s' r' : thread_step s r s' r' ->
    running (World s t (rs1 ++ r :: rs2)) (World s' t (rs1 ++ r' :: rs2)).
(** A thread may request an interrupt at any time; the activation goes on with any action. *)
Inductive step : world -> world -> Prop :=
| st_running w w' : running w w' -> step w w'
| st_request s t rs : step (World s t rs) (World s t (rs ++ [Thread wah_request_interrupt [] []]))
| st_action s t rs b a : th_code t = Done b -> step (World s t rs) (World s (continue (action_code a) t) rs).
Definition start_world : world := World (Flags false false) (Thread (Done false) [] []) [].

Definition finished (t : thread) : Prop := (exists b, th_code t = Done b) /\ settled t.
Definition quiet (w : world) : Prop := finished (w_main w) /\ Forall finished (w_requests w).

(** Running alone, with every store landing at once. *)
Fixpoint exec (c : code) (s : flags) : bool * flags :=
  match c with
  | Done b => (b, s)
  | Store f v k => exec k (fl_set f v s)
  | Fence k => exec k s
  | Load f k => exec (k (fl_get f s)) s
  end.

(** ** Theorems *)

(** [poll_flag] is only cleared by what then checks [interrupt_flag]. *)
Inductive careful : code -> Prop :=
| cf_done b : careful (Done b)
| cf_take k : careful k -> careful (Store Interrupt false k)
| cf_set k : careful k -> careful (Store Poll true k)
| cf_load f k : (forall b, careful (k b)) -> careful (Load f k)
| cf_fence k : careful k -> careful (Fence k)
| cf_clear k : careful k -> careful (Store Poll false (Fence (recompute_check k))).
#[local] Hint Constructors careful : wah.

Lemma careful_check k : careful k -> careful (recompute_check k).
Proof. intros H. constructor. intros []; auto with wah. Qed.
Lemma careful_action a : careful (action_code a).
Proof.
  assert (R : forall p b, careful (recompute_code p (Done b))) by (intros [] b; simpl; auto with wah).
  assert (T : forall p, careful (take_interrupt p)) by (intros p; constructor; apply R).
  destruct a as [p|p|p| |p|[] p]; simpl; auto with wah; constructor; intros []; auto with wah; constructor; intros []; auto with wah.
Qed.

(** The requests that landed in [interrupt_flag] but not yet in [poll_flag]. *)
Inductive request_ok : thread -> bool -> Prop :=
| rq_start : request_ok (Thread wah_request_interrupt [] []) false
| rq_stored : request_ok (Thread (Fence (Store Poll true (Done false))) [] [true]) false
| rq_landed : request_ok (Thread (Fence (Store Poll true (Done false))) [] []) true
| rq_fenced : request_ok (Thread (Store Poll true (Done false)) [] []) true
| rq_asked : request_ok (Thread (Done false) [true] []) true
| rq_done : request_ok (Thread (Done false) [] []) false.
Definition pending_request (rs : list thread) : Prop := exists r, r ∈ rs /\ request_ok r true.

(** Of the thread of the activation: with [true], it is going to set [poll_flag] if it has
    to, or has asked for it. *)
Definition all_true (q : list bool) : Prop := Forall (fun v => v = true) q.
Definition all_false (q : list bool) : Prop := Forall (fun v => v = false) q.
Inductive main_ok : thread -> bool -> Prop :=
| mo_idle c qi : careful c -> all_false qi -> main_ok (Thread c [] qi) false
| mo_asked c q qi : careful c -> all_true q -> q <> [] -> all_false qi -> main_ok (Thread c q qi) true
| mo_cleared k q qi : careful k -> all_false qi -> main_ok (Thread (Fence (recompute_check k)) q qi) true
| mo_checking k : careful k -> main_ok (Thread (recompute_check k) [] []) true
| mo_setting k : careful k -> main_ok (Thread (Store Poll true k) [] []) true.

Definition flags_ok (w : world) : Prop :=
  Forall (fun r => exists b, request_ok r b) (w_requests w) /\
  exists b, main_ok (w_main w) b /\
    (fl_interrupt (w_flags w) = true -> b = true \/ fl_poll (w_flags w) = true \/ pending_request (w_requests w)).

Lemma careful_store f v k : careful (Store f v k) ->
  f = Interrupt /\ v = false /\ careful k \/ f = Poll /\ v = true /\ careful k \/
  f = Poll /\ v = false /\ exists k', careful k' /\ k = Fence (recompute_check k').
Proof. inversion 1; subst; eauto 8. Qed.

(** What a step of the activation may change. *)
Definition keeps (s : flags) (b : bool) (s' : flags) (b' : bool) : Prop :=
  fl_interrupt s' = true -> fl_interrupt s = true /\ (b = true \/ fl_poll s = true -> b' = true \/ fl_poll s' = true).

Lemma store_step f v k q qi b s : careful (Store f v k) -> all_true q -> all_false qi -> (b = true -> q <> []) ->
  exists b', main_ok (set_queue f (queue f (Thread (Store f v k) q qi) ++ [v]) (continue k (Thread (Store f v k) q qi))) b' /\
    keeps s b s b'.
Proof.
  intros Hc Hq Hqi Hb. apply careful_store in Hc as [(-> & -> & Hk)|[(-> & -> & Hk)|(-> & -> & k' & Hk & ->)]]; simpl.
  - destruct q as [|v q].
    + exists false. split; [constructor; [done|by apply Forall_app; split; [|repeat constructor]]|]. intros H.
      split; [done|]. intros [->|?]; [by destruct (Hb eq_refl)|by right].
    + exists true. split; [constructor; try done; by apply Forall_app; split; [|repeat constructor]|]. by split; [|left].
  - exists true. split; [constructor; try done; [by apply Forall_app; split; [|repeat constructor]|by destruct q]|]. by split; [|left].
  - exists true. split; [by constructor|]. by split; [|left].
Qed.

Lemma main_step s t b s' t' : main_ok t b -> thread_step s t s' t' -> exists b', main_ok t' b' /\ keeps s b s' b'.
Proof.
  intros Hm Hs. destruct Hm as [c qi Hc Hqi|c q qi Hc Hq Hne Hqi|k q qi Hk Hqi|k Hk|k Hk];
    inversion Hs as [? ? f v k' E|? ? k' E Hset|? ? f k' E|? ? f v q' E]; subst; simpl in *.
  - subst c. by apply (store_step f v k' [] qi false); [|constructor| |].
  - subst c. exists false. inversion Hc; subst. by split; [constructor|].
  - subst c. exists false. inversion Hc; subst. by split; [constructor|].
  - destruct f; simpl in *; [done|]. subst qi. inversion Hqi; subst. exists false. by split; [constructor|].
  - subst c. by apply (store_step f v k' q qi true).
  - by destruct Hset.
  - subst c. exists true. inversion Hc; subst. by split; [constructor|].
  - destruct f; simpl in *; subst.
    + inversion Hq; subst. destruct q' as [|v q']; [exists false|exists true]; (split; [by constructor|]); intros H; (split; [done|]); auto.
    + inversion Hqi; subst. exists true. by split; [constructor|].
  - done.
  - injection E as <-. destruct Hset as [Hq Hi]. simpl in *. subst. exists true. by split; [constructor|split; [|left]].
  - done.
  - exists true. destruct f; simpl in *; subst.
    + by split; [constructor|split; [|left]].
    + inversion Hqi; subst. by split; [constructor|].
  - done.
  - done.
  - injection E as <- <-. unfold seen, continue. simpl. destruct (fl_interrupt s') eqn:Ei; simpl.
    + exists true. split; [by constructor|]. by split; [|left].
    + exists false. split; [by apply mo_idle; [|constructor]|]. unfold keeps. congruence.
  - by destruct f.
  - injection E as <- <- <-. exists true. simpl. split; [by apply mo_asked; [|repeat constructor| |constructor]|]. by split; [|left].
  - done.
  - done.
  - by destruct f.
Qed.

Lemma request_step s r b s' r' : request_ok r b -> thread_step s r s' r' ->
  exists b', request_ok r' b' /\
    (fl_interrupt s' = true -> (fl_interrupt s = true \/ b' = true) /\ (b = true -> b' = true \/ fl_poll s' = true)) /\
    (fl_poll s = true -> fl_poll s' = true).
Proof.
  intros Hr Hs. destruct Hr; inversion Hs as [? ? f v k' E|? ? k' E Hset|? ? f k' E|? ? f v q' E]; subst; simpl in *; try done;
    try (by destruct f).
  - injection E as <- <- <-. exists false. split; [apply rq_stored|]. by split; [|done]; auto.
  - by destruct Hset.
  - destruct f; simpl in *; [done|]. injection E as <- <-. exists true. split; [apply rq_landed|]. split; [|done]. by split; [right|].
  - injection E as <-. exists true. split; [apply rq_fenced|]. split; [|done]. auto.
  - injection E as <- <- <-. exists true. split; [apply rq_asked|]. split; [|done]. auto.
  - destruct f; simpl in *; [|done]. injection E as <- <-. exists false. split; [apply rq_done|]. split; [|done]. by split; [left|right].
Qed.

Lemma pending_request_app rs1 r rs2 : pending_request (rs1 ++ r :: rs2) <-> pending_request (rs1 ++ rs2) \/ request_ok r true.
Proof.
  unfold pending_request. split.
  - intros (x & [Hx|[->|Hx]%elem_of_cons]%elem_of_app & H); [left; exists x; set_solver|by right|left; exists x; set_solver].
  - intros [(x & Hx & H)|H]; [exists x|exists r]; (split; [set_solver|done]).
Qed.

Lemma flags_ok_running w w' : flags_ok w -> running w w' -> flags_ok w'.
Proof.
  intros Hf H. revert Hf. destruct H as [s t rs s' t' Hs|s t rs1 r rs2 s' r' Hs]; intros [HR (b & Hm & Hi)]; simpl in *.
  - destruct (main_step _ _ _ _ _ Hm Hs) as (b' & Hm' & Hk). split; [done|]. exists b'. split; [done|]. simpl. intros H.
    destruct (Hk H) as [H1 H2]. destruct (Hi H1) as [|[|]]; tauto.
  - apply Forall_app in HR as [HR1 HR2]. apply Forall_cons in HR2 as [[br Hr] HR2].
    destruct (request_step _ _ _ _ _ Hr Hs) as (br' & Hr' & Hk & Hp). split.
    { simpl. apply Forall_app. split; [done|]. constructor; [by exists br'|done]. }
    exists b. split; [done|]. simpl. intros H. destruct (Hk H) as [[H1| ->] H2].
    + destruct (Hi H1) as [|[|[Hq|Hq]%pending_request_app]]; [auto|auto|right; right; apply pending_request_app; auto|].
      assert (br = true \/ br = false /\ False) as [->|[_ []]].
      { destruct br; [by left|]. inversion Hr; subst; inversion Hq. }
      destruct (H2 eq_refl) as [->|]; [|auto]. right. right. apply pending_request_app. auto.
    + right. right. apply pending_request_app. auto.
Qed.

Lemma flags_ok_step w w' : flags_ok w -> step w w' -> flags_ok w'.
Proof.
  intros Hw H. revert Hw. destruct H as [w1 w2 H|s t rs|s t rs b a Hc]; intros Hw; [by eapply flags_ok_running| |].
  - destruct Hw as [HR (b & Hm & Hi)]. simpl in *. split.
    { simpl. apply Forall_app. split; [done|]. constructor; [exists false; constructor|constructor]. }
    exists b. split; [done|]. simpl. intros H. destruct (Hi H) as [|[|(r & Hr & Hq)]]; auto. right. right. exists r. set_solver.
  - destruct Hw as [HR (b' & Hm & Hi)]. simpl in *. split; [done|]. exists b'. split; [|done]. simpl.
    pose proof (careful_action a) as Ha. destruct Hm; simpl in *; try done; subst; by constructor.
Qed.

Lemma flags_ok_reachable w : rtc step start_world w -> flags_ok w.
Proof.
  intros H. remember start_world as w0 eqn:E. assert (flags_ok w0) as H0.
  { subst. split; [constructor|]. exists false. split; [by repeat constructor|]. done. }
  clear E. induction H as [|w1 w2 w3 H _ IH]; [done|]. apply IH. by eapply flags_ok_step.
Qed.

Lemma flags_ok_quiet w : flags_ok w -> quiet w -> fl_interrupt (w_flags w) = true -> fl_poll (w_flags w) = true.
Proof.
  intros [HR (b & Hm & Hi)] [[[y Hc] [Hq1 Hq2]] Hrs] H. destruct (Hi H) as [->|[|(r & Hr & Ho)]]; [|done|].
  - inversion Hm as [|c q qi ? ? Hne ? E|? ? ? ? ? E|? ? E|? ? E]; rewrite <- E in *; simpl in *; done.
  - rewrite Forall_forall in Hrs. destruct (Hrs r Hr) as [[? Hc2] [? ?]]. inversion Ho; subst; simpl in *; done.
Qed.

(** *** Running code comes to rest *)

Fixpoint depth (c : code) : nat :=
  match c with
  | Done _ => 0
  | Store _ _ k | Fence k => S (depth k)
  | Load _ k => S (depth (k true) + depth (k false))
  end.
Definition weight (t : thread) : nat := 2 * depth (th_code t) + length (th_poll t) + length (th_interrupt t).
Definition world_weight (w : world) : nat := weight (w_main w) + sum_list_with weight (w_requests w).

Lemma thread_step_weight s t s' t' : thread_step s t s' t' -> (weight t' < weight t)%nat.
Proof.
  unfold weight. destruct 1 as [s [c qp qi] f v k E|s [c qp qi] k E _|s [c qp qi] f k E|s [c qp qi] f v q E]; simpl in *; subst c || idtac.
  - destruct f; simpl; rewrite length_app; simpl; lia.
  - simpl. lia.
  - simpl. destruct (seen _ _ _); lia.
  - destruct f; simpl in *; subst; simpl; lia.
Qed.
Lemma sum_weight rs1 r rs2 : sum_list_with weight (rs1 ++ r :: rs2) = (weight r + sum_list_with weight (rs1 ++ rs2))%nat.
Proof. rewrite !sum_list_with_app. simpl. lia. Qed.
Lemma running_weight w w' : running w w' -> (world_weight w' < world_weight w)%nat.
Proof.
  destruct 1 as [s t rs s' t' H|s t rs1 r rs2 s' r' H]; apply thread_step_weight in H; unfold world_weight; simpl; [lia|].
  rewrite !sum_weight. lia.
Qed.
Lemma running_ends w : Acc (flip running) w.
Proof.
  induction w as [w IH] using (induction_ltof1 _ world_weight). constructor. intros w' H. apply IH. by apply running_weight.
Qed.

Lemma finished_or_step s t : finished t \/ exists s' t', thread_step s t s' t'.
Proof.
  destruct (th_poll t) as [|v q] eqn:E1; [|right; exists (fl_set Poll v s); eexists; apply (ts_land s t Poll v q); done].
  destruct (th_interrupt t) as [|v q] eqn:E2; [|right; exists (fl_set Interrupt v s); eexists; apply (ts_land s t Interrupt v q); done].
  destruct (th_code t) as [b|f v k|k|f k] eqn:E; [left; split; [by exists b|done]|right; exists s; eexists..].
  - by apply ts_store.
  - by apply ts_fence.
  - by apply ts_load.
Qed.
Lemma quiet_or_running w : quiet w \/ exists w', running w w'.
Proof.
  destruct w as [s t rs]. destruct (finished_or_step s t) as [Hm|(s' & t' & H)]; [|right; eexists; by apply run_main].
  assert (Forall finished rs \/ exists rs1 r rs2 s' r', rs = rs1 ++ r :: rs2 /\ thread_step s r s' r') as [H|H].
  { clear. induction rs as [|r rs IH]; [by left|]. destruct (finished_or_step s r) as [Hr|(s' & r' & H)].
    - destruct IH as [IH|(rs1 & r1 & rs2 & s' & r' & -> & H)]; [left; by constructor|].
      right. by exists (r :: rs1), r1, rs2, s', r'.
    - right. by exists [], r, rs, s', r'. }
  - by left.
  - destruct H as (rs1 & r & rs2 & s' & r' & -> & H). right. eexists. by apply run_request.
Qed.

(** *** An interrupt is delivered *)

Inductive yielding : code -> Prop :=
| yd_done : yielding (Done true)
| yd_store f v k : yielding k -> yielding (Store f v k)
| yd_fence k : yielding k -> yielding (Fence k)
| yd_load f k : (forall b, yielding (k b)) -> yielding (Load f k).
#[local] Hint Constructors yielding : wah.

Lemma finished_stuck s t s' t' : finished t -> ~ thread_step s t s' t'.
Proof.
  intros [[b Hb] [H1 H2]] H. destruct H as [? ? ? ? ? E|? ? ? E _|? ? ? ? E|? ? f ? ? E]; try congruence. destruct f; simpl in E; congruence.
Qed.

Inductive poll_runs (p : bool) : flags -> thread -> Prop :=
| pr_start : poll_runs p (Flags true true) (Thread (action_code (run_POLL p)) [] [])
| pr_polled : poll_runs p (Flags true true)
    (Thread (Load Interrupt (fun b => if b then take_interrupt p else recompute_code p (Done false))) [] [])
| pr_taken s c qp qi : yielding c -> poll_runs p s (Thread c qp qi).

Lemma poll_runs_step p s t s' t' : poll_runs p s t -> thread_step s t s' t' -> poll_runs p s' t'.
Proof.
  intros Hp Hs. destruct Hp as [| |s c qp qi Hy];
    inversion Hs as [? ? f v k' E|? ? k' E Hset|? ? f k' E|? ? f v q' E]; subst; simpl in *; try done; try (by destruct f).
  - injection E as <- <-. constructor.
  - injection E as <- <-. constructor. unfold take_interrupt, recompute_code, recompute_check. simpl.
    destruct p; repeat constructor. intros []; auto with wah.
  - subst c. inversion Hy; subst. destruct f; by constructor.
  - subst c. inversion Hy; subst. by constructor.
  - subst c. inversion Hy as [| | |? ? Hk]; subst. constructor. apply Hk.
  - destruct f; by constructor.
Qed.

(** C26. Whatever the order in which threads run and stores land, code comes to rest; and once
    it is at rest, an interrupt that was requested makes the next POLL of the activation
    yield: no request is lost between a POLL that clears the flag and the thread that sets
    it. *)
Theorem wah_request_interrupt_delivered w : rtc step start_world w ->
  Acc (flip running) w /\ (quiet w \/ exists w', running w w') /\
  (quiet w -> fl_interrupt (w_flags w) = true -> forall pending w',
     rtc running (World (w_flags w) (continue (action_code (run_POLL pending)) (w_main w)) (w_requests w)) w' ->
     quiet w' -> th_code (w_main w') = Done true).
Proof.
  intros Hw. split; [apply running_ends|]. split; [apply quiet_or_running|]. intros Hq Hi p w' Hr Hq'.
  pose proof (flags_ok_quiet w (flags_ok_reachable w Hw) Hq Hi) as Hp.
  destruct w as [[fp fi] [c qp qi] rs], Hq as [[[b Hb] [H1 H2]] Hrs]. simpl in *. subst.
  assert (H : poll_runs p (w_flags w') (w_main w') /\ Forall finished (w_requests w')).
  { match type of Hr with rtc _ ?w0 _ => assert (Hw0 : poll_runs p (w_flags w0) (w_main w0) /\ Forall finished (w_requests w0)) by (split; [constructor|done]) end.
    clear -Hr Hw0. induction Hr as [|w1 w2 w3 H _ IH]; [done|]. apply IH. destruct H as [s t rs' s' t' H|s t rs1 r rs2 s' r' H]; simpl in *.
    - destruct Hw0 as [Hw0 Hf]. split; [by eapply poll_runs_step|done].
    - exfalso. destruct Hw0 as [_ [_ [Hf _]%Forall_cons]%Forall_app]. by eapply finished_stuck. }
  destruct H as [Hpr _], Hq' as [[[b' Hb'] _] _]. destruct Hpr as [| |s c qp qi Hy]; simpl in *; [done..|]. subst c. by inversion Hy.
Qed.

(** *** Without other threads *)

(** The flags of a context, as the sequential definitions keep them. *)
Definition context_flags (ctx : Z) (m : memory) : option flags :=
  c ← ctxs m !! ctx; Some (Flags (cx_poll_flag c) (cx_interrupt_flag c)).

(** [wah_recompute_poll_flag] on the memory of one thread is this code run alone. *)
Lemma recompute_exec m ctx c pending k : ctxs m !! ctx = Some c ->
  (if cx_gc c =? 0 then pending = false else exists g, heaps m !! cx_gc c = Some g /\ pending = gc_pending g) ->
  exists m', wah_recompute_poll_flag ctx m = (Ok tt, m') /\
    forall s, context_flags ctx m = Some s -> exists s', context_flags ctx m' = Some s' /\ exec (recompute_code pending k) s = exec k s'.
Proof.
  intros Hc Hp. unfold wah_recompute_poll_flag, stm_bind, get_ctx, get_heap, stm_opt, context_flags. rewrite Hc.
  destruct (cx_gc c =? 0).
  - subst pending. eexists. split; [reflexivity|]. simpl. rewrite lookup_insert_eq. intros s [= <-]. eexists. split; [reflexivity|].
    simpl. by destruct (cx_interrupt_flag c).
  - destruct Hp as (g & -> & ->). simpl. destruct (gc_pending g); (eexists; split; [reflexivity|]); simpl; rewrite lookup_insert_eq;
      intros s [= <-]; (eexists; split; [reflexivity|]); simpl; by destruct (cx_interrupt_flag c).
Qed.

Definition requested_world : world := World (Flags true true) (Thread (Done false) [] []) [Thread (Done false) [] []].
Lemma requested_reachable : rtc step start_world requested_world.
Proof.
  eapply rtc_l; [apply (st_request (Flags false false) _ [])|]. simpl.
  eapply rtc_l; [apply st_running, (run_request _ _ [] _ []), ts_store; reflexivity|]. simpl.
  eapply rtc_l; [apply st_running, (run_request _ _ [] _ []), (ts_land _ _ Interrupt); reflexivity|]. simpl.
  eapply rtc_l; [apply st_running, (run_request _ _ [] _ []), ts_fence; [reflexivity|done]|]. simpl.
  eapply rtc_l; [apply st_running, (run_request _ _ [] _ []), ts_store; reflexivity|]. simpl.
  eapply rtc_l; [apply st_running, (run_request _ _ [] _ []), (ts_land _ _ Poll); reflexivity|]. simpl.
  apply rtc_refl.
Qed.

Lemma wah_request_interrupt_delivered_witness :
  quiet requested_world /\ fl_interrupt (w_flags requested_world) = true /\ forall pending w',
     rtc running (World (Flags true true) (Thread (action_code (run_POLL pending)) [] []) [Thread (Done false) [] []]) w' ->
     quiet w' -> th_code (w_main w') = Done true.
Proof.
  assert (Hq : quiet requested_world).
  { split; [split; [by exists false|done]|]. constructor; [|constructor]. split; [by exists false|done]. }
  split; [exact Hq|]. split; [reflexivity|].
  exact (proj2 (proj2 (wah_request_interrupt_delivered requested_world requested_reachable)) Hq eq_refl).
Defined.
