(* ===== verification/Timer.v ===== *)
(** * Deadlines of activations

    The timer of a context: the time an activation may still take is charged while it runs,
    and the thread of the timer fires for one arming only. *)

From S2P Require Import Prelude Base.
#[local] Open Scope Z_scope.
#[local] Open Scope wah_scope.

(** ** Definitions *)

Record wah_timer_t := Timer {
  timer_deadline_us : Z;
  armed : bool;
  timer_gen : Z;
  fired : bool;
  timer_running : bool;
  start_us : Z }.
(** The parts of a context that belong to its deadline: [pending] is whether a collection is
    asked for, [timer] the timer, if there is one. *)
Record timed := Timed {
  deadline_us : Z; interrupt_flag : bool; poll_flag : bool; pending : bool; has_timer : bool; timer : wah_timer_t }.

Definition request_interrupt (c : timed) : timed := Timed (deadline_us c) true true (pending c) (has_timer c) (timer c).
Definition set_timer (t : wah_timer_t) (c : timed) : timed :=
  Timed (deadline_us c) (interrupt_flag c) (poll_flag c) (pending c) (has_timer c) t.

(** Called by the thread of the timer. *)
Definition wah_timer_fire (gen : Z) (c : timed) : timed :=
  let t := timer c in
  if negb (armed t) || negb (timer_gen t =? gen) then c
  else
    request_interrupt (set_timer (Timer (timer_deadline_us t) false (timer_gen t) true (timer_running t) (start_us t)) c).

Definition wah_timer_remaining_us (now : Z) (t : wah_timer_t) : Z :=
  let elapsed_us := u64 (now - start_us t) in
  if timer_deadline_us t <=? elapsed_us then 0 else u64 (timer_deadline_us t - elapsed_us).

Definition wah_timer_set_armed_locked (now : Z) (arm : bool) (c : timed) : timed :=
  let t := timer c in
  let d :=
    if timer_running t then
      let elapsed_us := u64 (now - start_us t) in
      if fired t || (timer_deadline_us t <=? elapsed_us) then 1 else u64 (timer_deadline_us t - elapsed_us)
    else deadline_us c in
  let t1 := if arm then Timer d arm (u32 (timer_gen t + 1)) false arm now
            else Timer (timer_deadline_us t) arm (timer_gen t) false arm (start_us t) in
  let take := fired t && interrupt_flag c in
  Timed d (if take then false else interrupt_flag c) (if take then pending c else poll_flag c) (pending c) (has_timer c) t1.

Definition wah_timer_set_armed (now : Z) (arm : bool) (c : timed) : timed :=
  if negb (has_timer c) then c
  else if arm && ((deadline_us c =? 0) || (deadline_us c =? UINT64_MAX)) then c
  else wah_timer_set_armed_locked now arm c.

(** ** Theorems *)

(** C27. An activation that is armed at [t0] and disarmed at [t1] is charged exactly the time
    between, and never down to 0, which would mean no deadline.  The timer fires at most
    for its own arming: then the activation is interrupted, and what is left of the
    deadline is 1; an interrupt that the activation has not taken is withdrawn when it ends.
    A firing that comes late, after the end of the arming it waited for, does nothing, even
    when the timer has been armed again. *)
Theorem wah_timer_exact c t0 t1 t2 : has_timer c = true -> timer_running (timer c) = false -> fired (timer c) = false ->
  0 <= timer_gen (timer c) < 2 ^ 32 -> 0 < deadline_us c < UINT64_MAX -> 0 <= t0 <= t1 -> t1 < 2 ^ 64 ->
  let c1 := wah_timer_set_armed t0 true c in
  let g := timer_gen (timer c1) in
  let c2 := wah_timer_set_armed t1 false c1 in
  let c3 := wah_timer_set_armed t2 true c2 in
  wah_timer_remaining_us t1 (timer c1) = Z.max 0 (deadline_us c - (t1 - t0)) /\
  deadline_us c2 = Z.max 1 (deadline_us c - (t1 - t0)) /\
  interrupt_flag c2 = interrupt_flag c /\ poll_flag c2 = poll_flag c /\
  (let f := wah_timer_fire g c1 in
   interrupt_flag f = true /\ poll_flag f = true /\ wah_timer_fire g f = f /\
   let f2 := wah_timer_set_armed t1 false f in
   deadline_us f2 = 1 /\ interrupt_flag f2 = false /\ poll_flag f2 = pending c) /\
  (forall gen, wah_timer_fire gen c2 = c2) /\ wah_timer_fire g c3 = c3.
Proof.
  destruct c as [d i p pend has [td ar gen fi ru st]]. simpl. intros -> -> -> Hg Hd Ht H1.
  unfold wah_timer_set_armed, UINT64_MAX in *. simpl.
  destruct (Z.eqb_spec d 0) as [|_]; [lia|]. destruct (Z.eqb_spec d 18446744073709551615) as [|_]; [lia|]. simpl.
  unfold wah_timer_remaining_us, wah_timer_fire, wah_timer_set_armed_locked. simpl.
  rewrite !(u64_small (t1 - t0)) by lia. rewrite Z.eqb_refl. simpl.
  assert (E : (if d <=? t1 - t0 then 1 else u64 (d - (t1 - t0))) = Z.max 1 (d - (t1 - t0))).
  { destruct (Z.leb_spec d (t1 - t0)); [lia|]. rewrite u64_small by lia. lia. }
  rewrite E. split.
  { destruct (Z.leb_spec d (t1 - t0)); [lia|]. rewrite u64_small by lia. lia. }
  split; [done|]. split; [done|]. split; [done|]. split; [done|]. split; [done|].
  destruct (Z.eqb_spec (Z.max 1 (d - (t1 - t0))) 0) as [|_]; [lia|].
  destruct (Z.eqb_spec (Z.max 1 (d - (t1 - t0))) 18446744073709551615) as [|_]; [lia|]. simpl.
  replace (u32 (u32 (gen + 1) + 1) =? u32 (gen + 1)) with false; [done|]. symmetry. apply Z.eqb_neq. unfold u32.
  rewrite Zplus_mod_idemp_l. intros H. apply (f_equal (fun x => (x - (gen + 1)) mod 2 ^ 32)) in H.
  rewrite !Zminus_mod_idemp_l in H. replace (gen + 1 + 1 - (gen + 1)) with 1 in H by lia. rewrite Z.sub_diag in H. done.
Qed.

Definition sample_timed : timed := Timed 1000 false false false true (Timer 1000 false 4294967295 false false 0).
Lemma wah_timer_exact_witness :
  let c1 := wah_timer_set_armed 50 true sample_timed in
  let c2 := wah_timer_set_armed 350 false c1 in
  deadline_us c2 = 700 /\ wah_timer_fire 0 c2 = c2 /\
  wah_timer_remaining_us 350 (timer c1) = Z.max 0 (1000 - (350 - 50)).
Proof.
  split; [reflexivity|]. split; [reflexivity|].
  apply (wah_timer_exact sample_timed 50 350 400); unfold UINT64_MAX; simpl; auto; lia.
Defined.
