(* ===== verification/Limits.v ===== *)
(** * Resource limits of a context

    [wah_set_limits] and [wah_get_limits], and the fuel of a context.  Getting the limits and
    setting them again changes nothing. *)

From S2P Require Import Prelude Base Alloc.
#[local] Open Scope Z_scope.
#[local] Open Scope wah_scope.

(** ** Definitions *)

Definition INT64_MAX : Z := 9223372036854775807.

Record wah_limits_t := Limits {
  lim_max_stack_bytes : Z;
  lim_max_memory_bytes : Z;
  lim_fuel : Z;
  lim_deadline_us : Z;
  lim_no_memory_bytes : bool }.

(** What of a context limits depend on.  [fresh_stack] is whether no frame and no value is on
    the stack, [activation] whether it is ready or suspended, [has_timer] whether the
    thread of the timer exists. *)
Inductive activation_t := ready | suspended | busy.
Record limited := Limited {
  lt_poisoned : bool;
  activation : activation_t;
  fresh_stack : bool;
  stack_buffer_size : Z;
  lt_budget : budget;
  fuel : Z;
  metered : bool;
  lt_deadline_us : Z;
  has_timer : bool }.

Definition set_has_timer (b : bool) (c : limited) : limited :=
  Limited (lt_poisoned c) (activation c) (fresh_stack c) (stack_buffer_size c) (lt_budget c) (fuel c) (metered c)
          (lt_deadline_us c) b.
Definition set_stack_size (n : Z) (c : limited) : limited :=
  Limited (lt_poisoned c) (activation c) (fresh_stack c) n (lt_budget c) (fuel c) (metered c) (lt_deadline_us c) (has_timer c).
Definition set_max_memory (n : Z) (c : limited) : limited :=
  Limited (lt_poisoned c) (activation c) (fresh_stack c) (stack_buffer_size c)
          (Budget n (memory_bytes_committed (lt_budget c))) (fuel c) (metered c) (lt_deadline_us c) (has_timer c).
Definition set_fuel (n : Z) (c : limited) : limited :=
  Limited (lt_poisoned c) (activation c) (fresh_stack c) (stack_buffer_size c) (lt_budget c) n (metered c) (lt_deadline_us c) (has_timer c).
Definition set_deadline_us (n : Z) (c : limited) : limited :=
  Limited (lt_poisoned c) (activation c) (fresh_stack c) (stack_buffer_size c) (lt_budget c) (fuel c) (metered c) n (has_timer c).

(** The state of an activation with the answers of the allocator and of the platform. *)
Definition limits_state : Type := (limited * answers)%type.
Definition upd (f : limited -> limited) : comp limits_state unit := fun s => (Ok tt, (f s.1, s.2)).
Definition asking {A} (c : comp answers A) : comp limits_state A := fun s => let '(r, a) := c s.2 in (r, (s.1, a)).

Definition sizeof_wah_timer_t : Z := 208.
(** The thread of the timer and what it waits on are created by the platform, all or none;
    what was allocated is freed if they are not. *)
Definition wah_new_timer : comp limits_state unit :=
  s <- stm_get ;;
  if has_timer s.1 then stm_ret tt
  else
    asking (wah_malloc_c 1 sizeof_wah_timer_t) ;;;
    asking alloc_answer ;;;
    upd (set_has_timer true).

Definition set_if (b : bool) (f : limited -> limited) : comp limits_state unit := if b then upd f else stm_ret tt.

Definition wah_set_limits (limits : wah_limits_t) : comp limits_state unit :=
  s <- stm_get ;;
  let c := s.1 in
  stm_ensure (negb (lt_poisoned c)) WAH_ERROR_MISUSE ;;;
  stm_ensure (match activation c with busy => false | _ => true end) WAH_ERROR_MISUSE ;;;
  let set_stack := negb (lim_max_stack_bytes limits =? 0) && negb (lim_max_stack_bytes limits =? stack_buffer_size c) in
  stm_ensure (negb set_stack || (match activation c with ready => true | _ => false end && fresh_stack c)) WAH_ERROR_MISUSE ;;;
  stm_ensure (negb (lim_no_memory_bytes limits && (0 <? lim_max_memory_bytes limits))) WAH_ERROR_MISUSE ;;;
  let set_max_mem := lim_no_memory_bytes limits || (0 <? lim_max_memory_bytes limits) in
  let new_max_mem := if lim_no_memory_bytes limits then 0 else lim_max_memory_bytes limits in
  stm_ensure (negb set_max_mem || (memory_bytes_committed (lt_budget c) <=? new_max_mem)) WAH_ERROR_TOO_LARGE ;;;
  stm_ensure ((lim_fuel limits =? 0) || metered c) WAH_ERROR_DISABLED_FEATURE ;;;
  let set_deadline := negb (lim_deadline_us limits =? 0) && negb (lim_deadline_us limits =? UINT64_MAX) in
  (if set_deadline then wah_new_timer else stm_ret tt) ;;;
  (if set_stack then
     let new_size := lim_max_stack_bytes limits in
     stm_ensure (new_size <=? SIZE_MAX) WAH_ERROR_TOO_LARGE ;;;
     asking (wah_malloc_c new_size 1) ;;;
     upd (set_stack_size new_size)
   else stm_ret tt) ;;;
  set_if set_max_mem (set_max_memory new_max_mem) ;;;
  set_if (negb (lim_fuel limits =? 0)) (set_fuel (if lim_fuel limits <=? INT64_MAX then lim_fuel limits else INT64_MAX)) ;;;
  set_if (negb (lim_deadline_us limits =? 0)) (set_deadline_us (lim_deadline_us limits)).

Definition wah_get_limits (c : limited) : wah_limits_t :=
  let mm := max_memory_bytes (lt_budget c) in
  Limits (stack_buffer_size c)
         (if mm =? UINT64_MAX then 0 else mm)
         (if (0 <=? fuel c) && (fuel c <? INT64_MAX) then fuel c else 0)
         (lt_deadline_us c)
         (mm =? 0).

(** [loaded] is whether the context has a module. *)
Definition wah_set_fuel (loaded : bool) (n : Z) : comp limits_state unit :=
  s <- stm_get ;;
  stm_ensure (negb (lt_poisoned s.1)) WAH_ERROR_MISUSE ;;;
  stm_ensure loaded WAH_ERROR_MISUSE ;;;
  stm_ensure (metered s.1) WAH_ERROR_DISABLED_FEATURE ;;;
  stm_ensure (0 <=? n) WAH_ERROR_MISUSE ;;;
  upd (set_fuel n).
Definition wah_get_fuel (c : limited) : Z := fuel c.

(** ** Theorems *)

(** The limits of a context: only a metered one has limited fuel, a deadline has its
    thread, and no more memory is committed than allowed. *)
Record limits_ok (c : limited) : Prop := {
  lo_stack : 0 < stack_buffer_size c <= SIZE_MAX;
  lo_budget : memory_bytes_committed (lt_budget c) <= max_memory_bytes (lt_budget c) <= UINT64_MAX;
  lo_committed : 0 <= memory_bytes_committed (lt_budget c);
  lo_fuel : metered c = false -> fuel c = INT64_MAX;
  lo_fuel_range : fuel c <= INT64_MAX;
  lo_deadline : 0 <= lt_deadline_us c <= UINT64_MAX;
  lo_timer : 0 < lt_deadline_us c < UINT64_MAX -> has_timer c = true }.

Lemma ensure_run {S B} b e (k : unit -> stm wah_error_t S B) s : b = true -> stm_bind k (stm_ensure b e) s = k tt s.
Proof. by intros ->. Qed.

(** C29. Setting the limits that were read from a context changes nothing about it, and needs
    no memory. *)
Theorem wah_get_set_limits_roundtrip c a : limits_ok c -> lt_poisoned c = false -> activation c <> busy ->
  wah_set_limits (wah_get_limits c) (c, a) = (Ok tt, (c, a)).
Proof.
  intros [[L1 _] [L2 L3] L4 L5 L6 L7 L8] Hp Ha. destruct c as [po ac fr st [mm cm] fu me dl ti]. simpl in *. subst po.
  unfold wah_set_limits, wah_get_limits. cbn [lim_max_stack_bytes lim_max_memory_bytes lim_fuel lim_deadline_us lim_no_memory_bytes
    stack_buffer_size lt_budget max_memory_bytes fuel lt_deadline_us].
  set (mm' := if mm =? UINT64_MAX then 0 else mm). set (fu' := if (0 <=? fu) && (fu <? INT64_MAX) then fu else 0).
  assert (Hmm : mm' = mm \/ mm' = 0 /\ mm = UINT64_MAX) by (unfold mm'; destruct (Z.eqb_spec mm UINT64_MAX); auto).
  assert (Hfu : fu' = fu /\ me = true /\ fu' < INT64_MAX \/ fu' = 0).
  { unfold fu'. destruct (Z.leb_spec 0 fu), (Z.ltb_spec fu INT64_MAX); simpl; auto. left. split; [done|].
    split; [|done]. destruct me; [done|]. specialize (L5 eq_refl). lia. }
  assert (Htimer : forall B (k : unit -> comp limits_state B) s, s.1 = Limited false ac fr st (Budget mm cm) fu me dl ti ->
    stm_bind k (if negb (dl =? 0) && negb (dl =? UINT64_MAX) then wah_new_timer else stm_ret tt) s = k tt s).
  { intros B k s Hs. destruct (Z.eqb_spec dl 0), (Z.eqb_spec dl UINT64_MAX); simpl; try done.
    unfold wah_new_timer, stm_bind, stm_get. rewrite Hs. simpl. by rewrite L8 by lia. }
  set (c0 := Limited false ac fr st (Budget mm cm) fu me dl ti).
  rewrite (stm_bind_run stm_get _ _ (c0, a) (c0, a)) by done. cbv zeta. cbn [fst]. change (lt_poisoned c0) with false.
  change (activation c0) with ac. change (stack_buffer_size c0) with st. change (metered c0) with me.
  change (memory_bytes_committed (lt_budget c0)) with cm. rewrite Z.eqb_refl, andb_false_r. cbn [negb orb].
  rewrite ensure_run by done. rewrite ensure_run by by destruct ac. rewrite ensure_run by done.
  rewrite ensure_run.
  2: { destruct Hmm as [->|[-> _]]; [|by rewrite andb_false_r]. destruct (Z.eqb_spec mm 0) as [->|]; done. }
  rewrite ensure_run.
  2: { destruct (Z.eqb_spec mm 0) as [->|]; simpl; [by apply Z.leb_le; lia|].
       destruct Hmm as [->|[-> _]]; [|done]. apply orb_true_iff. right. apply Z.leb_le. lia. }
  rewrite ensure_run by (destruct Hfu as [(_ & -> & _)| ->]; [apply orb_true_r|done]).
  rewrite Htimer by done. rewrite (stm_bind_run (stm_ret tt) _ _ tt (c0, a)) by done.
  rewrite (stm_bind_run _ _ _ tt (c0, a)).
  2: { unfold set_if. destruct (Z.eqb_spec mm 0) as [->|]; [done|]. simpl. destruct Hmm as [->|[-> _]]; [|done].
       by destruct (Z.ltb_spec 0 mm). }
  rewrite (stm_bind_run _ _ _ tt (c0, a)).
  2: { unfold set_if. destruct Hfu as [(-> & _ & Hlt)| ->]; [|done]. destruct (Z.eqb_spec fu 0); [done|]. simpl.
       destruct (Z.leb_spec fu INT64_MAX); [done|lia]. }
  unfold set_if. by destruct (dl =? 0).
Qed.

Lemma ensure_case {S B} b e (k : unit -> stm wah_error_t S B) s :
  stm_bind k (stm_ensure b e) s = if b then k tt s else (Err e, s).
Proof. by destruct b. Qed.
Lemma if_stm {S B} (b : bool) (x y : stm wah_error_t S B) s : (if b then x else y) s = if b then x s else y s.
Proof. by destruct b. Qed.

Definition limits_valid (l : wah_limits_t) : Prop :=
  0 <= lim_max_stack_bytes l <= UINT64_MAX /\ 0 <= lim_max_memory_bytes l <= UINT64_MAX /\
  0 <= lim_fuel l <= UINT64_MAX /\ 0 <= lim_deadline_us l <= UINT64_MAX.
(** What the limits [l] make of a context, where 0 means unchanged. *)
Definition with_limits (l : wah_limits_t) (c : limited) : limited :=
  Limited (lt_poisoned c) (activation c) (fresh_stack c)
    (if lim_max_stack_bytes l =? 0 then stack_buffer_size c else lim_max_stack_bytes l)
    (if lim_no_memory_bytes l || (0 <? lim_max_memory_bytes l)
     then Budget (if lim_no_memory_bytes l then 0 else lim_max_memory_bytes l) (memory_bytes_committed (lt_budget c))
     else lt_budget c)
    (if lim_fuel l =? 0 then fuel c else Z.min (lim_fuel l) INT64_MAX)
    (metered c)
    (if lim_deadline_us l =? 0 then lt_deadline_us c else lim_deadline_us l)
    (has_timer c || (negb (lim_deadline_us l =? 0) && negb (lim_deadline_us l =? UINT64_MAX))).

Lemma new_timer_cases c a : exists r a' b, wah_new_timer (c, a) = (r, (set_has_timer b c, a')) /\
  match r with
  | Ok _ => b = true
  | Err e => e = WAH_ERROR_OUT_OF_MEMORY /\ b = has_timer c /\ has_timer c = false
  | Fault => False
  end.
Proof.
  unfold wah_new_timer, stm_bind, stm_get. simpl. destruct (has_timer c) eqn:Et.
  - exists (Ok tt), a, true. split; [|done]. destruct c; simpl in *; by subst.
  - unfold asking, wah_malloc_c, alloc_answer, upd, SIZE_MAX. simpl.
    assert (Hc : c = set_has_timer false c) by (destruct c; simpl in *; by subst).
    destruct a as [|[] [|[] a]]; simpl.
    + by exists (Ok tt), [], true.
    + by exists (Ok tt), [], true.
    + by exists (Ok tt), a, true.
    + exists (Err WAH_ERROR_OUT_OF_MEMORY), a, false. by rewrite <- Hc.
    + exists (Err WAH_ERROR_OUT_OF_MEMORY), [], false. by rewrite <- Hc.
    + exists (Err WAH_ERROR_OUT_OF_MEMORY), (true :: a), false. by rewrite <- Hc.
    + exists (Err WAH_ERROR_OUT_OF_MEMORY), (false :: a), false. by rewrite <- Hc.
Qed.

Lemma set_has_timer_id c : set_has_timer (has_timer c) c = c.
Proof. by destruct c. Qed.
Lemma timer_step (d : bool) c a : exists r a' b, (if d then wah_new_timer else stm_ret tt) (c, a) = (r, (set_has_timer b c, a')) /\
  match r with Ok _ => b = has_timer c || d | Err _ => b = has_timer c | Fault => False end.
Proof.
  destruct d.
  - destruct (new_timer_cases c a) as (r & a' & b & E & H). exists r, a', b. split; [done|].
    destruct r; [by rewrite orb_true_r|naive_solver|done].
  - exists (Ok tt), a, (has_timer c). by rewrite orb_false_r, set_has_timer_id.
Qed.
Lemma stack_step (b : bool) n c a : exists r a', (if b then
     stm_ensure (n <=? SIZE_MAX) WAH_ERROR_TOO_LARGE ;;; asking (wah_malloc_c n 1) ;;; upd (set_stack_size n)
   else stm_ret tt) (c, a) = (r, (if r is Ok _ then if b then set_stack_size n c else c else c, a')) /\
  match r with Ok _ => b = true -> n <= SIZE_MAX | Err _ => True | Fault => False end.
Proof.
  destruct b; [|by exists (Ok tt), a]. rewrite ensure_case. destruct (Z.leb_spec n SIZE_MAX); [|by exists (Err WAH_ERROR_TOO_LARGE), a].
  unfold stm_bind, asking, wah_malloc_c, upd. destruct ((n =? 0) || (1 =? 0)); [by exists (Ok tt), a|].
  destruct (SIZE_MAX <? n * 1); [by exists (Err WAH_ERROR_OUT_OF_MEMORY), a|].
  destruct a as [|[] a]; simpl; [by exists (Ok tt), []|by exists (Ok tt), a|by exists (Err WAH_ERROR_OUT_OF_MEMORY), a].
Qed.

(** C28. [wah_set_limits] changes exactly the limits that are given, or fails without changing
    any; the thread of the timer is all that may remain of a failure.  Unmetered contexts
    keep unlimited fuel, a deadline has its thread, and what is committed stays within the
    limit of memory. *)
Theorem wah_set_limits_exact l c a : limits_ok c -> limits_valid l ->
  let '(r, (c', a')) := wah_set_limits l (c, a) in
  match r with
  | Ok _ => c' = with_limits l c /\ limits_ok c'
  | Err e => c' = c \/ c' = set_has_timer true c
  | Fault => False
  end.
Proof.
  intros Hok Hl. unfold wah_set_limits. rewrite (stm_bind_run stm_get _ _ (c, a) (c, a)) by done. cbv zeta. cbn [fst].
  do 6 (rewrite ensure_case; match goal with |- context [if ?b then _ else (Err _, _)] => let H := fresh "C" in destruct b eqn:H; [|by left] end).
  set (d := negb (lim_deadline_us l =? 0) && _). set (b := negb (lim_max_stack_bytes l =? 0) && _) in *.
  destruct (timer_step d c a) as (r1 & a1 & t & E1 & H1). unfold stm_bind at 1. rewrite E1.
  destruct r1 as [u1|e|]; [|left; by rewrite H1, set_has_timer_id|done].
  destruct (stack_step b (lim_max_stack_bytes l) (set_has_timer t c) a1) as (r2 & a2 & E2 & H2). unfold stm_bind at 1. rewrite E2.
  destruct r2 as [u2|e|]; [| |done].
  2: { rewrite H1. destruct d; [rewrite orb_true_r; by right|left]. by rewrite orb_false_r, set_has_timer_id. }
  set (st := if b then _ else _).
  assert (Est : st = set_stack_size (if lim_max_stack_bytes l =? 0 then stack_buffer_size c else lim_max_stack_bytes l) (set_has_timer t c)).
  { unfold st, b. destruct (Z.eqb_spec (lim_max_stack_bytes l) 0); simpl; [by destruct c|].
    destruct (Z.eqb_spec (lim_max_stack_bytes l) (stack_buffer_size c)) as [->|]; [by destruct c|done]. }
  unfold set_if, upd, stm_bind, stm_ret.
  assert (Hw : (if negb (lim_deadline_us l =? 0) then set_deadline_us (lim_deadline_us l) else id)
     ((if negb (lim_fuel l =? 0) then set_fuel (if lim_fuel l <=? INT64_MAX then lim_fuel l else INT64_MAX) else id)
     ((if lim_no_memory_bytes l || (0 <? lim_max_memory_bytes l)
       then set_max_memory (if lim_no_memory_bytes l then 0 else lim_max_memory_bytes l) else id) st)) = with_limits l c).
  { rewrite Est, H1. unfold with_limits. fold d.
    replace (Z.min (lim_fuel l) INT64_MAX) with (if lim_fuel l <=? INT64_MAX then lim_fuel l else INT64_MAX)
      by (destruct (Z.leb_spec (lim_fuel l) INT64_MAX); lia).
    destruct c, (lim_no_memory_bytes l || (0 <? lim_max_memory_bytes l)), (lim_fuel l =? 0), (lim_deadline_us l =? 0); reflexivity. }
  assert (limits_ok (with_limits l c)) as Hok2.
  { destruct Hok as [[K1 K1'] [K2 K3] K4 K5 K6 K7 K8], Hl as (M1 & M2 & M3 & M4). split; simpl.
    - unfold b in H2. destruct (Z.eqb_spec (lim_max_stack_bytes l) 0); [done|]. simpl in H2.
      destruct (Z.eqb_spec (lim_max_stack_bytes l) (stack_buffer_size c)) as [E|]; [lia|]. specialize (H2 eq_refl). lia.
    - destruct (lim_no_memory_bytes l || (0 <? lim_max_memory_bytes l)); [|done]. simpl in C3 |- *.
      apply Z.leb_le in C3. destruct (lim_no_memory_bytes l); unfold UINT64_MAX in *; lia.
    - by destruct (lim_no_memory_bytes l || (0 <? lim_max_memory_bytes l)).
    - intros Hm. rewrite Hm, orb_false_r in C4. rewrite C4. auto.
    - destruct (lim_fuel l =? 0); lia.
    - destruct (lim_deadline_us l =? 0); lia.
    - intros Hd. destruct (Z.eqb_spec (lim_deadline_us l) 0); simpl; [by rewrite K8|].
      destruct (Z.eqb_spec (lim_deadline_us l) UINT64_MAX); [lia|]. apply orb_true_r. }
  destruct (lim_no_memory_bytes l || (0 <? lim_max_memory_bytes l)), (negb (lim_fuel l =? 0)), (negb (lim_deadline_us l =? 0));
    simpl in Hw |- *; rewrite Hw; done.
Qed.

(** A deadline that has been removed is reported as [UINT64_MAX]. *)
Lemma get_limits_no_deadline c a : limits_ok c -> lt_poisoned c = false -> activation c <> busy ->
  let l := Limits 0 0 0 UINT64_MAX false in
  (wah_set_limits l (c, a)).1 = Ok tt /\ lim_deadline_us (wah_get_limits (wah_set_limits l (c, a)).2.1) = UINT64_MAX.
Proof.
  intros _ Hp Ha. unfold wah_set_limits. rewrite (stm_bind_run stm_get _ _ (c, a) (c, a)) by done. cbv zeta. cbn.
  rewrite Hp. cbn. destruct (activation c); done.
Qed.

Definition sample_limited : limited := Limited false ready true 65536 (Budget 1000000 5000) 700 true 250 true.
Lemma sample_limits_ok : limits_ok sample_limited.
Proof. split; unfold SIZE_MAX, UINT64_MAX, INT64_MAX; simpl; auto; lia. Qed.
Lemma wah_get_set_limits_roundtrip_witness :
  wah_get_limits sample_limited = Limits 65536 1000000 700 250 false /\
  wah_set_limits (wah_get_limits sample_limited) (sample_limited, [false]) = (Ok tt, (sample_limited, [false])).
Proof. split; [reflexivity|]. apply wah_get_set_limits_roundtrip; [apply sample_limits_ok|done|done]. Defined.
Lemma wah_set_limits_exact_witness :
  let '(r, (c', a')) := wah_set_limits (Limits 0 4999 0 0 false) (sample_limited, []) in
  match r with
  | Ok _ => c' = with_limits (Limits 0 4999 0 0 false) sample_limited /\ limits_ok c'
  | Err e => c' = sample_limited \/ c' = set_has_timer true sample_limited
  | Fault => False
  end.
Proof.
  apply (wah_set_limits_exact (Limits 0 4999 0 0 false) sample_limited []); [apply sample_limits_ok|].
  unfold limits_valid, UINT64_MAX. simpl. lia.
Defined.
