(* ===== verification/Bulk.v ===== *)
(** * Bulk operations

    Filling, copying and initializing memories, tables and arrays in chunks.  Between chunks
    an operation may stop, for an interrupt or for lack of fuel, and leaves operands on the
    stack with which the instruction goes on when it is resumed.  However it is
    interrupted, the result is that of the whole operation at once. *)

From S2P Require Import Prelude Base Bytes Decode Total.
From stdpp Require Import gmap list.
#[local] Open Scope Z_scope.
#[local] Open Scope wah_scope.

(** ** Definitions *)

Definition WAH_BULK_CHECK_INTERVAL : Z := 2 ^ 24.
Definition WAH_BULK_ITEMS_PER_FUEL : Z := 4096.

(** The data of memories, tables and arrays by address: bytes or values.  [polls] is what
    [interrupt_flag] is seen to be from now on, [false] after its end. *)
Record bulk := Bulk { b_data : gmap Z (list Z); b_fuel : Z; b_metered : bool; polls : list bool }.
Definition set_data (d : gmap Z (list Z)) (s : bulk) : bulk := Bulk d (b_fuel s) (b_metered s) (polls s).
Definition set_b_fuel (n : Z) (s : bulk) : bulk := Bulk (b_data s) n (b_metered s) (polls s).

Definition wah_bulk_should_interrupt : comp bulk bool := fun s =>
  match polls s with
  | [] => (Ok false, s)
  | b :: ps => (Ok b, Bulk (b_data s) (b_fuel s) (b_metered s) ps)
  end.

Definition wah_bulk_fuel_limit (s : bulk) (chunk : Z) : Z :=
  if negb (b_metered s) then chunk
  else if b_fuel s <? 0 then 0
  else
    let fuel_u := u64 (b_fuel s + 1) in
    if UINT64_MAX / WAH_BULK_ITEMS_PER_FUEL <? fuel_u then chunk
    else
      let affordable := u64 (fuel_u * WAH_BULK_ITEMS_PER_FUEL) in
      if chunk <? affordable then chunk else affordable.

Definition wah_bulk_fuel_charge (chunk : Z) : comp bulk unit := fun s =>
  if b_metered s && (0 <? chunk)
  then (Ok tt, set_b_fuel (b_fuel s - (chunk + WAH_BULK_ITEMS_PER_FUEL - 1) / WAH_BULK_ITEMS_PER_FUEL) s)
  else (Ok tt, s).

Definition wah_bulk_should_stop : comp bulk bool :=
  b <- wah_bulk_should_interrupt ;;
  s <- stm_get ;;
  stm_ret (b || (b_metered s && (b_fuel s <? 0))).

(** The loop of all operations: [item done chunk] handles the next [chunk] of [size] items,
    [adjust] makes a chunk of whole elements out of what fuel allows. *)
Section Loop.
Context (item : Z -> Z -> comp bulk unit) (adjust : Z -> Z -> Z) (size : Z).
Fixpoint bulk_loop (n : nat) (done : Z) : comp bulk Z :=
  if size <=? done then stm_ret size
  else match n with
       | O => stm_opt None
       | S n' =>
           s <- stm_get ;;
           let chunk := if size - done <? WAH_BULK_CHECK_INTERVAL then size - done else WAH_BULK_CHECK_INTERVAL in
           let chunk := adjust (wah_bulk_fuel_limit s chunk) (size - done) in
           item done chunk ;;;
           let done := done + chunk in
           wah_bulk_fuel_charge chunk ;;;
           stop <- (if done <? size then wah_bulk_should_stop else stm_ret false) ;;
           if (stop : bool) then stm_ret done else bulk_loop n' done
       end.
End Loop.
Definition bulk_run (item : Z -> Z -> comp bulk unit) (adjust : Z -> Z -> Z) (size : Z) : comp bulk Z :=
  bulk_loop item adjust size (S (Z.to_nat size)) 0.
Definition any_chunk (chunk rest : Z) : Z := chunk.

(** Reading and writing [n] items at once, which are in bounds. *)
Definition get_data (a : Z) : comp bulk (list Z) := fun s => stm_opt (b_data s !! a) s.
Definition put_data (a : Z) (l : list Z) : comp bulk unit := fun s => (Ok tt, set_data (<[a := l]> (b_data s)) s).
Definition in_range (l : list Z) (i n : Z) : bool := (0 <=? i) && (0 <=? n) && (i + n <=? Z.of_nat (length l)).
Definition read_items (l : list Z) (i n : Z) : option (list Z) :=
  if in_range l i n then Some (take (Z.to_nat n) (drop (Z.to_nat i) l)) else None.
Definition write_items (a i : Z) (k : list Z) : comp bulk unit :=
  l <- get_data a ;;
  if in_range l i (Z.of_nat (length k)) then put_data a (list_inserts (Z.to_nat i) k l) else stm_opt None.
(** [memmove], [memset], and [memcpy] from what does not change. *)
Definition memmove (d dest s src n : Z) : comp bulk unit :=
  l <- get_data s ;; k <- stm_opt (read_items l src n) ;; write_items d dest k.
Definition memset (d dest v n : Z) : comp bulk unit := write_items d dest (replicate (Z.to_nat n) v).
Definition memcpy_from (d dest : Z) (l : list Z) (src n : Z) : comp bulk unit :=
  k <- stm_opt (read_items l src n) ;; write_items d dest k.

Definition wah_memory_fill_internal (d dst val size : Z) : comp bulk Z :=
  bulk_run (fun done chunk => memset d (dst + done) val chunk) any_chunk size.
Definition wah_memory_init_internal (d dest_offset : Z) (src_data : list Z) (src_offset size : Z) : comp bulk Z :=
  bulk_run (fun done chunk => memcpy_from d (dest_offset + done) src_data (src_offset + done) chunk) any_chunk size.
Definition wah_memory_copy_internal (d dest s src size : Z) (backward : bool) : comp bulk Z :=
  bulk_run (fun done chunk =>
    if backward then
      let tail := size - done in memmove d (dest + tail - chunk) s (src + tail - chunk) chunk
    else memmove d (dest + done) s (src + done) chunk) any_chunk size.

(** [for (i = 0; i < n; i++) body(i)] *)
Fixpoint each_item (n : nat) (i : Z) (body : Z -> comp bulk unit) : comp bulk unit :=
  match n with
  | O => stm_ret tt
  | S n' => body i ;;; each_item n' (i + 1) body
  end.
Definition wah_bulk_table_fill (t offset val size : Z) : comp bulk Z :=
  bulk_run (fun done chunk => each_item (Z.to_nat chunk) 0 (fun i => memset t (offset + done + i) val 1)) any_chunk size.
Definition wah_bulk_table_copy (d dst_offset s src_offset size : Z) : comp bulk Z :=
  let same := s =? d in
  if same && (dst_offset =? src_offset) then stm_ret size
  else
    let backward := same && (src_offset <? dst_offset) && (dst_offset <? src_offset + size) in
    bulk_run (fun done chunk =>
      if backward then
        let tail := size - done in
        each_item (Z.to_nat chunk) 0 (fun j => memmove d (dst_offset + tail - 1 - j) s (src_offset + tail - 1 - j) 1)
      else each_item (Z.to_nat chunk) 0 (fun j => memmove d (dst_offset + done + j) s (src_offset + done + j) 1))
      any_chunk size.

(** *** Instructions

    With the operands [ops], an instruction ends, traps, or stops for [status] with the
    operands to go on with. *)
Inductive bulk_result (A : Type) :=
| Finished
| Yielded (ops : A) (status : wah_error_t)
| Trapped (e : wah_error_t).
Arguments Finished {A}.
Arguments Yielded {A} _ _.
Arguments Trapped {A} _.

(** [WAH_BULK_YIELD] *)
Definition yield {A} (ops : A) : comp bulk (bulk_result A) :=
  s <- stm_get ;;
  stm_ret (Yielded ops (if b_metered s && (b_fuel s <? 0) then WAH_STATUS_FUEL_EXHAUSTED else WAH_STATUS_YIELDED)).
(** [WAH_BULK_CHECK_START] *)
Definition check_start {A} (ops : A) (k : comp bulk (bulk_result A)) : comp bulk (bulk_result A) :=
  b <- wah_bulk_should_interrupt ;; if (b : bool) then yield ops else k.
Definition data_size (a : Z) : comp bulk Z := l <- get_data a ;; stm_ret (Z.of_nat (length l)).

Definition run_MEMORY_FILL (d : Z) (ops : Z * Z * Z) : comp bulk (bulk_result (Z * Z * Z)) :=
  let '(dst, val, size) := ops in
  check_start ops (
    let val := Z.land val 255 in
    n <- data_size d ;;
    if negb (wah_u64_range_in_bounds dst size n) then stm_ret (Trapped WAH_ERROR_MEMORY_OUT_OF_BOUNDS)
    else
      done <- wah_memory_fill_internal d dst val size ;;
      if done <? size then yield (dst + done, val, size - done) else stm_ret Finished).

Definition run_MEMORY_COPY (d s : Z) (ops : Z * Z * Z) : comp bulk (bulk_result (Z * Z * Z)) :=
  let '(dest, src, size) := ops in
  check_start ops (
    nd <- data_size d ;;
    if negb (wah_u64_range_in_bounds dest size nd) then stm_ret (Trapped WAH_ERROR_MEMORY_OUT_OF_BOUNDS)
    else
      ns <- data_size s ;;
      if negb (wah_u64_range_in_bounds src size ns) then stm_ret (Trapped WAH_ERROR_MEMORY_OUT_OF_BOUNDS)
      else
        let backward := (d =? s) && (src <? dest) && (dest <? src + size) in
        done <- wah_memory_copy_internal d dest s src size backward ;;
        if done <? size then
          yield (if backward then (dest, src, size - done) else (dest + done, src + done, size - done))
        else stm_ret Finished).

Definition run_TABLE_FILL (t : Z) (ops : Z * Z * Z) : comp bulk (bulk_result (Z * Z * Z)) :=
  let '(offset, val, size) := ops in
  check_start ops (
    n <- data_size t ;;
    if negb (wah_u64_range_in_bounds offset size n) then stm_ret (Trapped WAH_ERROR_TRAP)
    else
      done <- wah_bulk_table_fill t offset val size ;;
      if done <? size then yield (offset + done, val, size - done) else stm_ret Finished).

Definition run_TABLE_COPY (d s : Z) (ops : Z * Z * Z) : comp bulk (bulk_result (Z * Z * Z)) :=
  let '(dst, src, size) := ops in
  check_start ops (
    ns <- data_size s ;;
    if negb (wah_u64_range_in_bounds src size ns) then stm_ret (Trapped WAH_ERROR_TRAP)
    else
      nd <- data_size d ;;
      if negb (wah_u64_range_in_bounds dst size nd) then stm_ret (Trapped WAH_ERROR_TRAP)
      else
        done <- wah_bulk_table_copy d dst s src size ;;
        if done <? size then
          yield (if (s =? d) && (src <? dst) && (dst <? src + size)
                 then (dst, src, size - done) else (dst + done, src + done, size - done))
        else stm_ret Finished).

(** [seg_len] is 0 for a dropped segment. *)
Definition run_MEMORY_INIT (d : Z) (seg : list Z) (seg_len : Z) (ops : Z * Z * Z) : comp bulk (bulk_result (Z * Z * Z)) :=
  let '(dest, src, size) := ops in
  check_start ops (
    nd <- data_size d ;;
    if negb (wah_u64_range_in_bounds dest size nd) then stm_ret (Trapped WAH_ERROR_MEMORY_OUT_OF_BOUNDS)
    else if negb (src + size <=? seg_len) then stm_ret (Trapped WAH_ERROR_TRAP)
    else if negb (size <=? seg_len) then stm_ret (Trapped WAH_ERROR_TRAP)
    else
      done <- wah_memory_init_internal d dest seg src size ;;
      if done <? size then yield (dest + done, src + done, size - done) else stm_ret Finished).

(** [esz] is the size of elements in bytes, of which both arrays consist.  An array is given by
    its address, 0 for a null reference. *)
Definition whole_elements (esz : Z) (chunk rest : Z) : Z :=
  let chunk := if esz <? chunk then chunk - chunk mod esz else esz in
  if rest <? chunk then rest else chunk.
Definition run_ARRAY_COPY (d s esz : Z) (ops : Z * Z * Z) : comp bulk (bulk_result (Z * Z * Z)) :=
  let '(dst_offset, src_offset, size) := ops in
  check_start ops (
    if negb (negb (s =? 0) && negb (d =? 0)) then stm_ret (Trapped WAH_ERROR_TRAP) else
    ns <- data_size s ;;
    if negb (src_offset + size <=? ns / esz) then stm_ret (Trapped WAH_ERROR_TRAP)
    else
      nd <- data_size d ;;
      if negb (dst_offset + size <=? nd / esz) then stm_ret (Trapped WAH_ERROR_TRAP)
      else
        let byte_size := size * esz in
        let backward := (d =? s) && (src_offset <? dst_offset) && (dst_offset <? u32 (src_offset + size)) in
        done <- bulk_run (fun done chunk =>
          if backward then
            let tail := byte_size - done in
            memmove d (dst_offset * esz + tail - chunk) s (src_offset * esz + tail - chunk) chunk
          else memmove d (dst_offset * esz + done) s (src_offset * esz + done) chunk) (whole_elements esz) byte_size ;;
        if done <? byte_size then
          let elem_done := u32 (done / esz) in
          yield (if backward then (dst_offset, src_offset, size - elem_done)
                 else (dst_offset + elem_done, src_offset + elem_done, size - elem_done))
        else stm_ret Finished).

(** The instructions, by the data they work on. *)
Inductive bulk_instr :=
| MEMORY_FILL (d : Z) | MEMORY_INIT (d : Z) (seg : list Z) (seg_len : Z) | MEMORY_COPY (d s : Z)
| TABLE_FILL (t : Z) | TABLE_COPY (d s : Z) | ARRAY_COPY (d s esz : Z).
Definition run_bulk (i : bulk_instr) : Z * Z * Z -> comp bulk (bulk_result (Z * Z * Z)) :=
  match i with
  | MEMORY_FILL d => run_MEMORY_FILL d
  | MEMORY_INIT d seg seg_len => run_MEMORY_INIT d seg seg_len
  | MEMORY_COPY d s => run_MEMORY_COPY d s
  | TABLE_FILL t => run_TABLE_FILL t
  | TABLE_COPY d s => run_TABLE_COPY d s
  | ARRAY_COPY d s esz => run_ARRAY_COPY d s esz
  end.

(** ** Theorems *)

(** The item [i] of the data [a]. *)
Definition item_at (D : gmap Z (list Z)) (a i : Z) : option Z := l ← D !! a; zget l i.

(** [D'] is [D] with [f 0 .. f (n - 1)] in the data [d] from [a] on. *)
Record patched (D D' : gmap Z (list Z)) (d a n : Z) (f : Z -> option Z) : Prop := {
  pa_shape x : length <$> D' !! x = length <$> D !! x;
  pa_items x i : item_at D' x i = if decide (x = d /\ a <= i < a + n) then f (i - a) else item_at D x i }.

Lemma patched_nothing D d a n f : n <= 0 -> patched D D d a n f.
Proof. intros H. split; [done|]. intros x i. rewrite decide_False; [done|lia]. Qed.
Lemma patched_after D0 D1 D2 d a n m f g : 0 <= n -> 0 <= m -> patched D0 D1 d a n f -> patched D1 D2 d (a + n) m g ->
  (forall j, 0 <= j < m -> g j = f (n + j)) -> patched D0 D2 d a (n + m) f.
Proof.
  intros Hn Hm [S1 P1] [S2 P2] Hg. split; [intros x; by rewrite S2, S1|]. intros x i. rewrite P2, P1.
  repeat case_decide; try tauto; try (exfalso; lia); [|done..]. rewrite Hg by lia. f_equal. lia.
Qed.
Lemma patched_before D0 D1 D2 d a n m f g h : 0 <= n -> 0 <= m -> patched D0 D1 d (a + m) n g -> patched D1 D2 d a m h ->
  (forall j, 0 <= j < n -> g j = f (j + m)) -> (forall j, 0 <= j < m -> h j = f j) -> patched D0 D2 d a (n + m) f.
Proof.
  intros Hn Hm [S1 P1] [S2 P2] Hg Hh. split; [intros x; by rewrite S2, S1|]. intros x i. rewrite P2, P1.
  repeat case_decide; try tauto; try (exfalso; lia); try done; [apply Hh; lia|]. rewrite Hg by lia. f_equal. lia.
Qed.
Lemma patched_ext D D' d a n f g : (forall j, 0 <= j < n -> f j = g j) -> patched D D' d a n f -> patched D D' d a n g.
Proof. intros H [S P]. split; [done|]. intros x i. rewrite P. case_decide; [apply H; lia|done]. Qed.

Lemma in_range_spec l i n : in_range l i n = true <-> 0 <= i /\ 0 <= n /\ i + n <= Z.of_nat (length l).
Proof. unfold in_range. rewrite !andb_true_iff, !Z.leb_le. tauto. Qed.

Lemma read_items_ok l i n : 0 <= i -> 0 <= n -> i + n <= Z.of_nat (length l) ->
  exists k, read_items l i n = Some k /\ Z.of_nat (length k) = n /\ forall j, 0 <= j < n -> zget k j = zget l (i + j).
Proof.
  intros Hi Hn Hl. unfold read_items. rewrite (proj2 (in_range_spec l i n)) by lia. eexists. split; [reflexivity|]. split.
  - rewrite length_take, length_drop. lia.
  - intros j Hj. rewrite !zget_nat by lia. rewrite lookup_take_lt by lia. rewrite lookup_drop. f_equal. lia.
Qed.
Lemma write_items_ok a i k l s : b_data s !! a = Some l -> 0 <= i -> i + Z.of_nat (length k) <= Z.of_nat (length l) ->
  exists D', write_items a i k s = (Ok tt, set_data D' s) /\ patched (b_data s) D' a i (Z.of_nat (length k)) (zget k).
Proof.
  intros Ha Hi Hl. unfold write_items, stm_bind, get_data, stm_opt. rewrite Ha, (proj2 (in_range_spec l i _)) by lia.
  unfold put_data. eexists. split; [reflexivity|]. split.
  - intros x. destruct (decide (a = x)) as [<-|].
    + rewrite lookup_insert_eq, Ha. simpl. by rewrite length_inserts.
    + by rewrite lookup_insert_ne.
  - intros x j. unfold item_at. destruct (decide (a = x)) as [<-|].
    + rewrite lookup_insert_eq, Ha. simpl. case_decide as Hj.
      * destruct Hj as [_ Hj]. rewrite !zget_nat, list_lookup_inserts by lia. f_equal. lia.
      * unfold zget. destruct (Z.ltb_spec j 0); [done|].
        destruct (decide (j < i)); [by rewrite list_lookup_inserts_lt by lia|].
        rewrite list_lookup_inserts_ge; [done|]. destruct (decide (j < i + Z.of_nat (length k))); [|lia]. exfalso. apply Hj. split; [done|lia].
    + rewrite !lookup_insert_ne by done. rewrite decide_False by (intros [? _]; congruence). done.
Qed.

Lemma zget_replicate n (v : Z) j : 0 <= j < n -> zget (replicate (Z.to_nat n) v) j = Some v.
Proof. intros H. rewrite zget_nat by lia. apply lookup_replicate_2. lia. Qed.

(** *** The loop *)

(** What running an operation keeps: whether fuel is metered. *)
Lemma should_stop_runs s : runs wah_bulk_should_stop (fun b s' => b_data s' = b_data s /\ b_fuel s' = b_fuel s /\
  b_metered s' = b_metered s /\ (b_metered s = true -> b_fuel s < 0 -> b = true) /\
  (b = true -> (exists p, p ∈ polls s /\ p = true) \/ b_metered s = true /\ b_fuel s < 0)) s.
Proof.
  unfold wah_bulk_should_stop, wah_bulk_should_interrupt, runs, stm_bind, stm_get, stm_ret.
  destruct s as [D f me [|p ps]]; simpl; (split; [done|split; [done|split; [done|]]]); split.
  - intros -> H. by apply Z.ltb_lt.
  - intros [? ?%Z.ltb_lt]%andb_true_iff. by right.
  - intros -> H. apply orb_true_iff. right. by apply Z.ltb_lt.
  - intros [->|[? ?%Z.ltb_lt]%andb_true_iff]%orb_true_iff; [left; exists true; split; [left|done]|by right].
Qed.

Lemma fuel_limit_range s chunk : 0 <= chunk <= WAH_BULK_CHECK_INTERVAL ->
  0 <= wah_bulk_fuel_limit s chunk <= chunk /\
  (0 < chunk -> b_metered s = false \/ 0 <= b_fuel s < UINT64_MAX -> 0 < wah_bulk_fuel_limit s chunk) /\
  (b_metered s = true -> b_fuel s < 0 -> wah_bulk_fuel_limit s chunk = 0).
Proof.
  unfold WAH_BULK_CHECK_INTERVAL. intros Hc. unfold wah_bulk_fuel_limit, WAH_BULK_ITEMS_PER_FUEL, UINT64_MAX.
  destruct (b_metered s); simpl; [|split; [lia|]; split; [lia|done]].
  destruct (Z.ltb_spec (b_fuel s) 0); [split; [lia|]; split; [intros _ [?|?]; [done|lia]|done]|].
  change (18446744073709551615 / 4096) with 4503599627370495. pose proof (u64_range (b_fuel s + 1)).
  destruct (Z.ltb_spec 4503599627370495 (u64 (b_fuel s + 1))); [split; [lia|]; split; [lia|lia]|].
  rewrite (u64_small (u64 _ * 4096)) by lia.
  destruct (Z.ltb_spec chunk (u64 (b_fuel s + 1) * 4096)); (split; [lia|]; split; [|lia]); intros Hp [?|Hf]; try lia; try done.
  rewrite u64_small in * by lia. lia.
Qed.

Definition only_data (s s' : bulk) : Prop := b_fuel s' = b_fuel s /\ b_metered s' = b_metered s /\ polls s' = polls s.
Definition INT64_MAX : Z := 9223372036854775807.

Section LoopRuns.
Context (item : Z -> Z -> comp bulk unit) (adjust : Z -> Z -> Z) (size : Z).
Context (good : Z -> Prop) (P : Z -> gmap Z (list Z) -> Prop).
Hypothesis Hadjust : forall c done, 0 <= done < size -> good done -> 0 <= c <= size - done ->
  let c' := adjust c (size - done) in 0 <= c' <= size - done /\ good (done + c') /\ (c' = 0 -> c = 0).
Hypothesis Hitem : forall done chunk s, 0 <= done -> 0 <= chunk -> done + chunk <= size -> good done -> good (done + chunk) ->
  P done (b_data s) -> runs (item done chunk) (fun _ s' => P (done + chunk) (b_data s') /\ only_data s s') s.

Lemma charge_runs chunk s : runs (wah_bulk_fuel_charge chunk)
  (fun _ s' => b_data s' = b_data s /\ b_metered s' = b_metered s /\ polls s' = polls s /\ (0 <= chunk -> b_fuel s' <= b_fuel s) /\
     (chunk = 0 -> s' = s)) s.
Proof.
  unfold wah_bulk_fuel_charge, runs. destruct (b_metered s) eqn:Em; simpl; [|by repeat split].
  destruct (Z.ltb_spec 0 chunk); simpl; [|by repeat split]. split; [done|]. split; [done|]. split; [done|].
  split; [|lia]. intros _. assert (0 <= (chunk + WAH_BULK_ITEMS_PER_FUEL - 1) / WAH_BULK_ITEMS_PER_FUEL); [|lia].
  apply Z.div_pos; unfold WAH_BULK_ITEMS_PER_FUEL; lia.
Qed.

Lemma bulk_loop_runs n done s : 0 <= done <= size -> good done -> size - done < Z.of_nat n -> b_fuel s <= INT64_MAX ->
  P done (b_data s) ->
  runs (bulk_loop item adjust size n done) (fun r s' => done <= r <= size /\ good r /\ P r (b_data s') /\ b_metered s' = b_metered s /\
    (r < size -> (b_metered s = true /\ b_fuel s < 0) \/ done < r)) s.
Proof.
  revert done s. induction n as [|n IH]; intros done s Hd Hg Hn Hf HP; [lia|]. simpl.
  destruct (Z.leb_spec size done).
  { apply runs_ret. replace size with done in * by lia. repeat split; try done; lia. }
  apply runs_bind, runs_get. set (c0 := if size - done <? _ then _ else _).
  assert (Hc0 : 0 < c0 <= WAH_BULK_CHECK_INTERVAL /\ c0 <= size - done).
  { unfold c0, WAH_BULK_CHECK_INTERVAL. destruct (Z.ltb_spec (size - done) (2 ^ 24)); lia. }
  destruct (fuel_limit_range s c0 ltac:(lia)) as (Hr & Hpos & Hzero).
  destruct (Hadjust (wah_bulk_fuel_limit s c0) done) as (Hc & Hg' & Hz); [lia|done|lia|].
  set (c := adjust _ _) in *.
  eapply runs_then; [apply (Hitem done c); auto; lia|]. intros _ s1 (HP1 & Hf1 & Hm1 & Hp1).
  eapply runs_then; [apply charge_runs|]. intros _ s2 (Hd2 & Hm2 & Hp2 & Hf2 & Hz2).
  specialize (Hf2 ltac:(lia)).
  assert (HP2 : P (done + c) (b_data s2)) by by rewrite Hd2.
  destruct (Z.ltb_spec (done + c) size).
  - eapply runs_then; [apply should_stop_runs|]. intros b s3 (Hd3 & Hf3 & Hm3 & Hst & _).
    assert (Hc_zero : c = 0 -> b_metered s = true /\ b_fuel s < 0 /\ b = true).
    { intros E. specialize (Hz E). assert (~ (b_metered s = false \/ 0 <= b_fuel s < UINT64_MAX)) as Hno by (intros ?; lia || (specialize (Hpos ltac:(lia) H1); lia)).
      assert (b_metered s = true) by (destruct (b_metered s); [done|exfalso; apply Hno; by left]).
      assert (b_fuel s < 0) by (apply Z.nle_gt; intros ?; apply Hno; right; unfold INT64_MAX, UINT64_MAX in *; lia).
      split; [done|]. split; [done|]. rewrite (Hz2 E) in Hst. apply Hst; [by rewrite Hm1|lia]. }
    destruct b.
    + apply runs_ret. split; [lia|]. split; [done|]. split; [by rewrite Hd3|]. split; [congruence|]. intros _.
      destruct (decide (c = 0)) as [E|]; [left; naive_solver|right; lia].
    + assert (c <> 0) by naive_solver. eapply runs_mono; [apply IH|].
      * lia.
      * done.
      * lia.
      * lia.
      * by rewrite Hd3.
      * intros r s' (K1 & K2 & K3 & K4 & K5). split; [lia|]. split; [done|]. split; [done|]. split; [congruence|].
        intros _. right. lia.
  - apply runs_bind, runs_ret. assert (c <> 0) by lia. eapply runs_mono; [apply IH; [lia|done|lia|lia|done]|].
    intros r s' (K1 & K2 & K3 & K4 & K5). split; [lia|]. split; [done|]. split; [done|]. split; [congruence|]. intros _. right. lia.
Qed.
End LoopRuns.

(** *** Chunks *)

Definition in_bounds (D : gmap Z (list Z)) (a i n : Z) : Prop :=
  exists l, D !! a = Some l /\ 0 <= i /\ 0 <= n /\ i + n <= Z.of_nat (length l).
Lemma in_bounds_patched D D' d a n f x i k : patched D D' d a n f -> in_bounds D x i k -> in_bounds D' x i k.
Proof.
  intros [S _] (l & Hl & H). specialize (S x). rewrite Hl in S. destruct (D' !! x) as [l'|] eqn:E; [|done].
  exists l'. apply (inj Some) in S. rewrite S. auto.
Qed.
Lemma in_bounds_sub D a i n j k : in_bounds D a i n -> i <= j -> 0 <= k -> j + k <= i + n -> in_bounds D a j k.
Proof. intros (l & Hl & H). exists l. split; [done|lia]. Qed.
#[local] Hint Resolve in_bounds_patched : core.

Lemma write_runs d a k s : in_bounds (b_data s) d a (Z.of_nat (length k)) ->
  runs (write_items d a k) (fun _ s' => patched (b_data s) (b_data s') d a (Z.of_nat (length k)) (zget k) /\ only_data s s') s.
Proof.
  intros (l & Hl & Hi & _ & Hn). destruct (write_items_ok d a k l s Hl Hi Hn) as (D' & E & HP).
  unfold runs. rewrite E. split; [exact HP|done].
Qed.
Lemma memset_runs d a v n s : in_bounds (b_data s) d a n ->
  runs (memset d a v n) (fun _ s' => patched (b_data s) (b_data s') d a n (fun _ => Some v) /\ only_data s s') s.
Proof.
  intros H. assert (Z.of_nat (length (replicate (Z.to_nat n) v)) = n) as En by (rewrite length_replicate; destruct H as (? & ? & ?); lia).
  eapply runs_mono; [apply write_runs; by rewrite En|]. rewrite En. intros _ s' [HP ?]. split; [|done].
  eapply patched_ext; [|exact HP]. intros j Hj. by apply zget_replicate.
Qed.
Lemma memcpy_from_runs d a l src n s : in_bounds (b_data s) d a n -> 0 <= src -> src + n <= Z.of_nat (length l) ->
  runs (memcpy_from d a l src n) (fun _ s' => patched (b_data s) (b_data s') d a n (fun j => zget l (src + j)) /\ only_data s s') s.
Proof.
  intros H Hs Hl. assert (0 <= n) by (destruct H as (? & ? & ?); lia).
  destruct (read_items_ok l src n Hs ltac:(lia) Hl) as (k & Ek & En & Hk).
  unfold memcpy_from. apply runs_bind. eapply runs_opt; [exact Ek|].
  eapply runs_mono; [apply write_runs; by rewrite En|]. rewrite En. intros _ s' [HP ?]. split; [|done].
  eapply patched_ext; [|exact HP]. exact Hk.
Qed.
Lemma memmove_runs d a s src n st : in_bounds (b_data st) d a n -> in_bounds (b_data st) s src n ->
  runs (memmove d a s src n) (fun _ st' => patched (b_data st) (b_data st') d a n (fun j => item_at (b_data st) s (src + j)) /\ only_data st st') st.
Proof.
  intros H (l & Hl & Hs & _ & Hn). unfold memmove, get_data. apply runs_bind. unfold runs at 1. rewrite Hl. simpl.
  eapply runs_mono; [apply (memcpy_from_runs d a l src n st H Hs Hn)|]. intros _ s' [HP ?]. split; [|done].
  eapply patched_ext; [|exact HP]. intros j Hj. unfold item_at. by rewrite Hl.
Qed.

Lemma only_data_trans s1 s2 s3 : only_data s1 s2 -> only_data s2 s3 -> only_data s1 s3.
Proof. unfold only_data. intuition congruence. Qed.
Lemma each_item_runs n i body (P : Z -> gmap Z (list Z) -> Prop) s : 
  (forall k st, i <= k < i + Z.of_nat n -> P k (b_data st) -> runs (body k) (fun _ st' => P (k + 1) (b_data st') /\ only_data st st') st) ->
  P i (b_data s) -> runs (each_item n i body) (fun _ s' => P (i + Z.of_nat n) (b_data s') /\ only_data s s') s.
Proof.
  revert i s. induction n as [|n IH]; intros i s Hb HP.
  - simpl. apply runs_ret. rewrite Z.add_0_r. done.
  - cbn [each_item]. eapply runs_then; [apply Hb; [lia|exact HP]|]. intros _ s1 [HP1 Ho1].
    eapply runs_mono; [apply (IH (i + 1)); [|exact HP1]|].
    + intros k st Hk. apply Hb. lia.
    + intros _ s2 [HP2 Ho2]. replace (i + Z.of_nat (S n)) with (i + 1 + Z.of_nat n) by lia.
      split; [done|by eapply only_data_trans].
Qed.

(** *** What instructions do *)

Definition data_len (D : gmap Z (list Z)) (x : Z) : Z := Z.of_nat (length (default [] (D !! x))).

(** How an instruction traps with its operands, before it changes anything. *)
Definition bulk_trap (i : bulk_instr) (ops : Z * Z * Z) (D : gmap Z (list Z)) : option wah_error_t :=
  let '(a, b, n) := ops in
  match i with
  | MEMORY_FILL d => if a + n <=? data_len D d then None else Some WAH_ERROR_MEMORY_OUT_OF_BOUNDS
  | MEMORY_INIT d seg seg_len =>
      if negb (a + n <=? data_len D d) then Some WAH_ERROR_MEMORY_OUT_OF_BOUNDS
      else if b + n <=? seg_len then None else Some WAH_ERROR_TRAP
  | MEMORY_COPY d s => if (a + n <=? data_len D d) && (b + n <=? data_len D s) then None else Some WAH_ERROR_MEMORY_OUT_OF_BOUNDS
  | TABLE_FILL t => if a + n <=? data_len D t then None else Some WAH_ERROR_TRAP
  | TABLE_COPY d s => if (a + n <=? data_len D d) && (b + n <=? data_len D s) then None else Some WAH_ERROR_TRAP
  | ARRAY_COPY d s esz =>
      if (d =? 0) || (s =? 0) then Some WAH_ERROR_TRAP
      else if (a + n <=? data_len D d / esz) && (b + n <=? data_len D s / esz) then None else Some WAH_ERROR_TRAP
  end.
(** The data [D'] it leaves otherwise, copies being from the data before them. *)
Definition bulk_effect (i : bulk_instr) (ops : Z * Z * Z) (D D' : gmap Z (list Z)) : Prop :=
  let '(a, b, n) := ops in
  match i with
  | MEMORY_FILL d => patched D D' d a n (fun _ => Some (Z.land b 255))
  | TABLE_FILL d => patched D D' d a n (fun _ => Some b)
  | MEMORY_INIT d seg _ => patched D D' d a n (fun j => zget seg (b + j))
  | MEMORY_COPY d s | TABLE_COPY d s => patched D D' d a n (fun j => item_at D s (b + j))
  | ARRAY_COPY d s esz => patched D D' d (a * esz) (n * esz) (fun j => item_at D s (b * esz + j))
  end.

Definition ops_ok (ops : Z * Z * Z) : Prop :=
  let '(a, b, n) := ops in 0 <= a < 2 ^ 64 /\ 0 <= b < 2 ^ 64 /\ 0 <= n < 2 ^ 64.
Definition data_ok (D : gmap Z (list Z)) (x : Z) : Prop := is_Some (D !! x) /\ data_len D x < 2 ^ 64.
Definition bulk_ok (i : bulk_instr) (D : gmap Z (list Z)) : Prop :=
  match i with
  | MEMORY_FILL d | TABLE_FILL d => data_ok D d
  | MEMORY_INIT d seg seg_len => data_ok D d /\ 0 <= seg_len <= Z.of_nat (length seg) /\ seg_len < 2 ^ 32
  | MEMORY_COPY d s | TABLE_COPY d s => data_ok D d /\ data_ok D s
  | ARRAY_COPY d s esz => d = 0 \/ s = 0 \/
      data_ok D d /\ data_ok D s /\ 0 < esz /\ data_len D d / esz < 2 ^ 32 /\ data_len D s / esz < 2 ^ 32
  end.
Definition same_shape (D D' : gmap Z (list Z)) : Prop := forall x, length <$> D' !! x = length <$> D !! x.

Lemma same_shape_len D D' x : same_shape D D' -> data_len D' x = data_len D x.
Proof. intros H. specialize (H x). unfold data_len. destruct (D !! x), (D' !! x); simplify_eq/=; congruence. Qed.
Lemma data_ok_shape D D' x : same_shape D D' -> data_ok D x -> data_ok D' x.
Proof.
  intros H [[l Hl] H2]. split; [|by rewrite (same_shape_len _ _ _ H)].
  specialize (H x). rewrite Hl in H. destruct (D' !! x); [eauto|done].
Qed.
Lemma bulk_ok_shape i D D' : same_shape D D' -> bulk_ok i D -> bulk_ok i D'.
Proof.
  intros H. pose proof (fun x => data_ok_shape D D' x H). pose proof (fun x => same_shape_len D D' x H) as E.
  destruct i; simpl; rewrite ?E; naive_solver.
Qed.
Lemma bulk_trap_shape i ops D D' : same_shape D D' -> bulk_trap i ops D' = bulk_trap i ops D.
Proof. intros H. pose proof (fun x => same_shape_len D D' x H) as E. destruct i, ops as [[a b] n]; simpl; by rewrite ?E. Qed.
Lemma in_bounds_len D x a n : data_ok D x -> 0 <= a -> 0 <= n -> a + n <= data_len D x -> in_bounds D x a n.
Proof. intros [[l Hl] _]. unfold data_len. rewrite Hl. simpl. intros. exists l. auto. Qed.
Lemma data_size_runs x s : data_ok (b_data s) x -> runs (data_size x) (fun n s' => n = data_len (b_data s) x /\ s' = s) s.
Proof. intros [[l Hl] _]. unfold runs, data_size, stm_bind, get_data, data_len. by rewrite Hl. Qed.

(** What one run of an instruction leads to. *)
Definition bulk_going (i : bulk_instr) (ops ops' : Z * Z * Z) (D D' : gmap Z (list Z)) : Prop :=
  (ops' = ops /\ D' = D) \/
  (ops_ok ops' /\ same_shape D D' /\ bulk_trap i ops D = None /\ bulk_trap i ops' D' = None /\
   forall D2, bulk_effect i ops' D' D2 -> bulk_effect i ops D D2).
Definition out_of_fuel (s : bulk) : Prop := b_metered s = true /\ b_fuel s < 0.
Definition stalled (s : bulk) : Prop := head (polls s) = Some true \/ out_of_fuel s.
Definition bulk_post (no_work : Prop) (i : bulk_instr) (ops : Z * Z * Z) (s : bulk) (r : bulk_result (Z * Z * Z)) (s' : bulk) : Prop :=
  b_metered s' = b_metered s /\
  match r with
  | Finished => bulk_trap i ops (b_data s) = None /\ bulk_effect i ops (b_data s) (b_data s')
  | Trapped e => bulk_trap i ops (b_data s) = Some e /\ b_data s' = b_data s
  | Yielded ops' st =>
      bulk_going i ops ops' (b_data s) (b_data s') /\
      (ops'.2 < ops.2 \/ no_work) /\
      st = (if b_metered s' && (b_fuel s' <? 0) then WAH_STATUS_FUEL_EXHAUSTED else WAH_STATUS_YIELDED)
  end.

Lemma yield_runs {A} (ops : A) s :
  runs (yield ops) (fun r s' => s' = s /\
    r = Yielded ops (if b_metered s && (b_fuel s <? 0) then WAH_STATUS_FUEL_EXHAUSTED else WAH_STATUS_YIELDED)) s.
Proof. unfold yield. apply runs_bind, runs_get, runs_ret. done. Qed.
Lemma check_start_runs i ops k s :
  (forall s1, b_data s1 = b_data s -> b_fuel s1 = b_fuel s -> b_metered s1 = b_metered s ->
     runs k (bulk_post (out_of_fuel s1) i ops s1) s1) ->
  runs (check_start ops k) (bulk_post (stalled s) i ops s) s.
Proof.
  intros Hk. unfold check_start.
  eapply (runs_then _ _ (fun b s1 => b_data s1 = b_data s /\ b_fuel s1 = b_fuel s /\ b_metered s1 = b_metered s /\
    (b = true -> head (polls s) = Some true))).
  - unfold runs, wah_bulk_should_interrupt. destruct s as [D f m [|p ps]]; simpl; repeat split; congruence.
  - intros b s1 (Hd & Hf & Hm & Hp). destruct b.
    + eapply runs_mono; [apply yield_runs|]. intros r s' [-> ->]. split; [done|].
      split; [by left|]. split; [|done]. right. left. auto.
    + eapply runs_mono; [by apply Hk|]. intros r s' [Hm' Hr]. split; [congruence|]. rewrite <- Hd.
      destruct r; [done| |done]. destruct Hr as (H1 & H2 & H3). split; [done|]. split; [|done].
      destruct H2 as [?|[? ?]]; [by left|]. right. right. split; congruence.
Qed.

Lemma bulk_run_runs item adjust size good P s :
  (forall c done, 0 <= done < size -> good done -> 0 <= c <= size - done ->
     let c' := adjust c (size - done) in 0 <= c' <= size - done /\ good (done + c') /\ (c' = 0 -> c = 0)) ->
  (forall done chunk s, 0 <= done -> 0 <= chunk -> done + chunk <= size -> good done -> good (done + chunk) ->
     P done (b_data s) -> runs (item done chunk) (fun _ s' => P (done + chunk) (b_data s') /\ only_data s s') s) ->
  0 <= size -> good 0 -> b_fuel s <= INT64_MAX -> P 0 (b_data s) ->
  runs (bulk_run item adjust size) (fun r s' => 0 <= r <= size /\ good r /\ P r (b_data s') /\ b_metered s' = b_metered s /\
    (r < size -> out_of_fuel s \/ 0 < r)) s.
Proof. intros Ha Hi Hs Hg Hf HP. unfold bulk_run. apply (bulk_loop_runs _ _ _ good P); auto; lia. Qed.
Lemma any_chunk_ok size : forall c done, 0 <= done < size -> True -> 0 <= c <= size - done ->
  let c' := any_chunk c (size - done) in 0 <= c' <= size - done /\ True /\ (c' = 0 -> c = 0).
Proof. unfold any_chunk. auto. Qed.

(** An instruction that is a loop, of which the items [0 .. k - 1] give [P k]. *)
Lemma loop_instr_runs item adjust size (good : Z -> Prop) (P : Z -> gmap Z (list Z) -> Prop) i ops mk s :
  (forall c done, 0 <= done < size -> good done -> 0 <= c <= size - done ->
     let c' := adjust c (size - done) in 0 <= c' <= size - done /\ good (done + c') /\ (c' = 0 -> c = 0)) ->
  0 <= size -> good 0 -> b_fuel s <= INT64_MAX -> P 0 (b_data s) -> bulk_trap i ops (b_data s) = None ->
  (forall k c s1, 0 <= k -> 0 <= c -> k + c <= size -> good k -> good (k + c) -> P k (b_data s1) ->
     runs (item k c) (fun _ s' => P (k + c) (b_data s') /\ only_data s1 s') s1) ->
  (forall D1, P size D1 -> bulk_effect i ops (b_data s) D1) ->
  (forall r D1, 0 <= r < size -> good r -> P r D1 -> bulk_going i ops (mk r) (b_data s) D1 /\ (0 < r -> (mk r).2 < ops.2)) ->
  runs (stm_bind (fun r => if r <? size then yield (mk r) else stm_ret Finished) (bulk_run item adjust size))
    (bulk_post (out_of_fuel s) i ops s) s.
Proof.
  intros Ha Hs Hg Hf HP Ht Hi Hfin Hgo. eapply runs_then; [by apply (bulk_run_runs item adjust size good P)|].
  intros r s1 (Hr & Hgr & HP1 & Hm & Hp). destruct (Z.ltb_spec r size) as [Hlt|].
  - eapply runs_mono; [apply yield_runs|]. intros x s' [-> ->]. destruct (Hgo r (b_data s1)) as [? Hless]; [lia|done|done|].
    split; [done|]. split; [done|]. split; [|done]. destruct (Hp Hlt); [by right|left; auto].
  - apply runs_ret. split; [done|]. split; [done|]. apply Hfin. by replace size with r by lia.
Qed.

Lemma item_patch D d a k n f g (m : comp bulk unit) s :
  0 <= k -> 0 <= n -> patched D (b_data s) d a k f -> (forall j, 0 <= j < n -> g j = f (k + j)) ->
  runs m (fun _ s' => patched (b_data s) (b_data s') d (a + k) n g /\ only_data s s') s ->
  runs m (fun _ s' => patched D (b_data s') d a (k + n) f /\ only_data s s') s.
Proof. intros Hk Hn HP Hg Hm. eapply runs_mono; [exact Hm|]. intros _ s' [HP' ?]. split; [|done]. by eapply patched_after. Qed.
Lemma range_in_bounds a n x D : 0 <= a < 2 ^ 64 -> 0 <= n < 2 ^ 64 -> data_ok D x ->
  wah_u64_range_in_bounds a n (data_len D x) = (a + n <=? data_len D x).
Proof.
  intros Ha Hn [_ Hx]. assert (0 <= data_len D x) by (unfold data_len; lia). unfold wah_u64_range_in_bounds.
  destruct (Z.leb_spec a (data_len D x)); simpl; [rewrite u64_small by lia; lia|]. symmetry. apply Z.leb_gt. lia.
Qed.
Lemma byte_range v : 0 <= Z.land v 255 < 256.
Proof. change 255 with (Z.ones 8). rewrite Z.land_ones by lia. apply Z.mod_pos_bound. lia. Qed.
Lemma byte_byte v : Z.land (Z.land v 255) 255 = Z.land v 255.
Proof. by rewrite <- Z.land_assoc. Qed.
Lemma leb_true a b : a <= b -> (a <=? b) = true.
Proof. apply Z.leb_le. Qed.
Lemma leb_false a b : b < a -> (a <=? b) = false.
Proof. apply Z.leb_gt. Qed.

(** Operations that write items in order. *)
Lemma forward_going i ops ops' D D1 d a k m f g :
  patched D D1 d a k f -> 0 <= k -> 0 <= m -> (forall j, 0 <= j < m -> g j = f (k + j)) -> ops_ok ops' ->
  bulk_trap i ops D = None -> bulk_trap i ops' D1 = None ->
  (forall D2, bulk_effect i ops' D1 D2 -> patched D1 D2 d (a + k) m g) ->
  (forall D2, patched D D2 d a (k + m) f -> bulk_effect i ops D D2) -> bulk_going i ops ops' D D1.
Proof.
  intros HP Hk Hm Hg Ho Ht Ht' Hto Hfrom. right. split; [done|]. split; [exact (pa_shape _ _ _ _ _ _ HP)|]. split; [done|]. split; [done|].
  intros D2 H. apply Hfrom. eapply patched_after; eauto.
Qed.

Lemma begin_bulk i ops k s : bulk_ok i (b_data s) -> b_fuel s <= INT64_MAX ->
  (forall s1, bulk_ok i (b_data s1) -> b_fuel s1 <= INT64_MAX -> runs k (bulk_post (out_of_fuel s1) i ops s1) s1) ->
  runs (check_start ops k) (bulk_post (stalled s) i ops s) s.
Proof. intros Hi Hf Hk. apply check_start_runs. intros s1 E Ef _. apply Hk; congruence. Qed.
Lemma trap_runs i ops e s : bulk_trap i ops (b_data s) = Some e -> runs (E:=wah_error_t) (stm_ret (Trapped e)) (bulk_post (out_of_fuel s) i ops s) s.
Proof. intros H. apply runs_ret. done. Qed.
Lemma data_len_range D x : data_ok D x -> 0 <= data_len D x < 2 ^ 64.
Proof. intros [_ H]. unfold data_len in *. lia. Qed.

Lemma run_MEMORY_FILL_runs d ops s : ops_ok ops -> bulk_ok (MEMORY_FILL d) (b_data s) -> b_fuel s <= INT64_MAX ->
  runs (run_MEMORY_FILL d ops) (bulk_post (stalled s) (MEMORY_FILL d) ops s) s.
Proof.
  destruct ops as [[dst val] size]. intros (Ha & Hb & Hn) Hd0 Hf0. apply begin_bulk; [done..|]. clear s Hd0 Hf0. intros s Hd Hf.
  simpl in Hd. eapply runs_then; [by apply data_size_runs|]. intros n s' [-> ->]. rewrite range_in_bounds by done.
  destruct (Z.leb_spec (dst + size) (data_len (b_data s) d)) as [Hin|Hout]; simpl negb; cbv iota;
    [|apply trap_runs; simpl; by rewrite leb_false].
  pose proof (in_bounds_len _ _ dst size Hd ltac:(lia) ltac:(lia) Hin) as Hib.
  apply (loop_instr_runs _ _ _ (fun _ => True) (fun k D1 => patched (b_data s) D1 d dst k (fun _ => Some (Z.land val 255))));
    [apply any_chunk_ok|lia|done|done|by apply patched_nothing|simpl; by rewrite leb_true| |done|].
  - intros k c s1 Hk Hc Hkc _ _ HP. eapply item_patch; [lia|lia|exact HP|done|apply memset_runs].
    eapply in_bounds_sub; [by eapply in_bounds_patched|lia..].
  - intros r D1 Hr _ HP. split; [|simpl; lia]. pose proof (data_len_range _ _ Hd). pose proof (byte_range val).
    apply (forward_going _ _ _ _ _ d dst r (size - r) _ (fun _ => Some (Z.land val 255)) HP); try lia; try done; simpl.
    + lia.
    + by rewrite leb_true.
    + rewrite (same_shape_len _ _ d (pa_shape _ _ _ _ _ _ HP)). by rewrite leb_true by lia.
    + by rewrite byte_byte.
    + by replace (r + (size - r)) with size by lia.
Qed.

Lemma run_TABLE_FILL_runs d ops s : ops_ok ops -> bulk_ok (TABLE_FILL d) (b_data s) -> b_fuel s <= INT64_MAX ->
  runs (run_TABLE_FILL d ops) (bulk_post (stalled s) (TABLE_FILL d) ops s) s.
Proof.
  destruct ops as [[dst val] size]. intros (Ha & Hb & Hn) Hd0 Hf0. apply begin_bulk; [done..|]. clear s Hd0 Hf0. intros s Hd Hf.
  simpl in Hd. eapply runs_then; [by apply data_size_runs|]. intros n s' [-> ->]. rewrite range_in_bounds by done.
  destruct (Z.leb_spec (dst + size) (data_len (b_data s) d)) as [Hin|Hout]; simpl negb; cbv iota;
    [|apply trap_runs; simpl; by rewrite leb_false].
  pose proof (in_bounds_len _ _ dst size Hd ltac:(lia) ltac:(lia) Hin) as Hib.
  apply (loop_instr_runs _ _ _ (fun _ => True) (fun k D1 => patched (b_data s) D1 d dst k (fun _ => Some val)));
    [apply any_chunk_ok|lia|done|done|by apply patched_nothing|simpl; by rewrite leb_true| |done|].
  - intros k c s1 Hk Hc Hkc _ _ HP.
    eapply runs_mono; [apply (each_item_runs _ 0 _ (fun j D1 => patched (b_data s) D1 d dst (k + j) (fun _ => Some val)))|].
    + intros j st Hj HPj. replace (k + (j + 1)) with (k + j + 1) by lia.
      eapply item_patch; [lia|lia|exact HPj|done|]. replace (dst + (k + j)) with (dst + k + j) by lia. apply memset_runs.
      eapply in_bounds_sub; [by eapply in_bounds_patched|lia..].
    + by rewrite Z.add_0_r.
    + intros _ s' [HP' Ho]. split; [|done]. replace (k + c) with (k + (0 + Z.of_nat (Z.to_nat c))) by lia. done.
  - intros r D1 Hr _ HP. split; [|simpl; lia]. pose proof (data_len_range _ _ Hd).
    apply (forward_going _ _ _ _ _ d dst r (size - r) _ (fun _ => Some val) HP); try lia; try done; simpl.
    + lia.
    + by rewrite leb_true.
    + rewrite (same_shape_len _ _ d (pa_shape _ _ _ _ _ _ HP)). by rewrite leb_true by lia.
    + by replace (r + (size - r)) with size by lia.
Qed.

Lemma run_MEMORY_INIT_runs d seg seg_len ops s : ops_ok ops -> bulk_ok (MEMORY_INIT d seg seg_len) (b_data s) -> b_fuel s <= INT64_MAX ->
  runs (run_MEMORY_INIT d seg seg_len ops) (bulk_post (stalled s) (MEMORY_INIT d seg seg_len) ops s) s.
Proof.
  destruct ops as [[dst src] size]. intros (Ha & Hb & Hn) Hd0 Hf0. apply begin_bulk; [done..|]. clear s Hd0 Hf0. intros s [Hd Hseg] Hf.
  eapply runs_then; [by apply data_size_runs|]. intros n s' [-> ->]. rewrite range_in_bounds by done.
  destruct (Z.leb_spec (dst + size) (data_len (b_data s) d)) as [Hin|Hout]; simpl negb; cbv iota;
    [|apply trap_runs; simpl; by rewrite leb_false].
  destruct (Z.leb_spec (src + size) seg_len) as [Hsrc|]; simpl negb; cbv iota;
    [|apply trap_runs; simpl; by rewrite leb_true, leb_false].
  rewrite (leb_true size seg_len) by lia. simpl negb. cbv iota.
  pose proof (in_bounds_len _ _ dst size Hd ltac:(lia) ltac:(lia) Hin) as Hib.
  apply (loop_instr_runs _ _ _ (fun _ => True) (fun k D1 => patched (b_data s) D1 d dst k (fun j => zget seg (src + j))));
    [apply any_chunk_ok|lia|done|done|by apply patched_nothing|simpl; by rewrite !leb_true| |done|].
  - intros k c s1 Hk Hc Hkc _ _ HP. eapply item_patch; [lia|lia|exact HP| |apply memcpy_from_runs; [|lia|lia]].
    + intros j Hj. simpl. by rewrite Z.add_assoc.
    + eapply in_bounds_sub; [by eapply in_bounds_patched|lia..].
  - intros r D1 Hr _ HP. split; [|simpl; lia]. pose proof (data_len_range _ _ Hd).
    apply (forward_going _ _ _ _ _ d dst r (size - r) _ (fun j => zget seg (src + r + j)) HP); try lia; try done; simpl.
    + intros j Hj. by rewrite Z.add_assoc.
    + lia.
    + by rewrite !leb_true.
    + rewrite (same_shape_len _ _ d (pa_shape _ _ _ _ _ _ HP)). by rewrite !leb_true by lia.
    + by replace (r + (size - r)) with size by lia.
Qed.

(** Copies, from either end: after [k] of [size] items of the data [s] at [src]. *)
Section Copy.
Context (D : gmap Z (list Z)) (d dst s src size : Z) (backward : bool).
Definition copy_state (k : Z) (D1 : gmap Z (list Z)) : Prop :=
  if backward then patched D D1 d (dst + (size - k)) k (fun j => item_at D s (src + (size - k) + j))
  else patched D D1 d dst k (fun j => item_at D s (src + j)).
Hypothesis Hdir : if backward then d = s -> src < dst else d = s -> dst <= src \/ src + size <= dst.

Lemma copy_state_shape k D1 : copy_state k D1 -> same_shape D D1.
Proof. clear Hdir. unfold copy_state. destruct backward; intros H; exact (pa_shape _ _ _ _ _ _ H). Qed.
Lemma copy_state_start : copy_state 0 D.
Proof. clear Hdir. unfold copy_state. destruct backward; by apply patched_nothing. Qed.
Lemma copy_state_end D1 : copy_state size D1 -> patched D D1 d dst size (fun j => item_at D s (src + j)).
Proof. clear Hdir. unfold copy_state. rewrite Z.sub_diag, !Z.add_0_r. by destruct backward. Qed.

(** What is left to copy is as it was. *)
Lemma copy_state_source k D1 j : copy_state k D1 -> 0 <= k <= size ->
  (if backward then 0 <= j < size - k else k <= j < size) -> item_at D1 s (src + j) = item_at D s (src + j).
Proof.
  unfold copy_state. destruct backward; intros H Hk Hj; rewrite (pa_items _ _ _ _ _ _ H);
    (rewrite decide_False; [done|]); intros [? ?]; lia.
Qed.

Lemma copy_item k n st : copy_state k (b_data st) -> 0 <= k -> 0 <= n -> k + n <= size -> in_bounds D d dst size -> in_bounds D s src size ->
  runs (memmove d (if backward then dst + (size - k) - n else dst + k) s (if backward then src + (size - k) - n else src + k) n)
    (fun _ st' => copy_state (k + n) (b_data st') /\ only_data st st') st.
Proof.
  intros HP Hk Hn Hkn Hbd Hbs. pose proof (fun j => copy_state_source k (b_data st) j HP ltac:(lia)) as Hsrc. unfold copy_state in HP.
  eapply runs_mono; [apply memmove_runs|].
  1,2: destruct backward; (eapply in_bounds_sub; [by eapply in_bounds_patched|lia..]).
  intros _ st' [HP' Ho]. split; [|done]. unfold copy_state. destruct backward.
  - replace (dst + (size - (k + n))) with (dst + (size - k) - n) by lia.
    eapply (patched_before _ (b_data st)); [lia|lia| |exact HP'| |].
    + by replace (dst + (size - k) - n + n) with (dst + (size - k)) by lia.
    + intros j Hj. simpl. f_equal. lia.
    + intros j Hj. simpl. replace (src + (size - k) - n + j) with (src + (size - k - n + j)) by lia. rewrite Hsrc by lia. f_equal. lia.
  - eapply patched_after; [lia|lia|exact HP|exact HP'|]. intros j Hj. simpl.
    replace (src + k + j) with (src + (k + j)) by lia. by rewrite Hsrc by lia.
Qed.
Lemma copy_resume r D1 D2 : copy_state r D1 -> 0 <= r <= size ->
  patched D1 D2 d (if backward then dst else dst + r) (size - r)
    (fun j => item_at D1 s ((if backward then src else src + r) + j)) ->
  patched D D2 d dst size (fun j => item_at D s (src + j)).
Proof.
  intros HP Hr HP'. pose proof (fun j => copy_state_source r D1 j HP Hr) as Hsrc. unfold copy_state in HP.
  destruct backward.
  - replace size with (r + (size - r)) at 1 by lia. eapply patched_before; [lia|lia|exact HP|exact HP'| |].
    + intros j Hj. simpl. f_equal. lia.
    + intros j Hj. simpl. by rewrite Hsrc by lia.
  - replace size with (r + (size - r)) at 1 by lia. eapply patched_after; [lia|lia|exact HP|exact HP'|].
    intros j Hj. simpl. replace (src + r + j) with (src + (r + j)) by lia. by rewrite Hsrc by lia.
Qed.
End Copy.

Definition copy_backward (same : bool) (dst src size : Z) : bool := same && (src <? dst) && (dst <? src + size).
Lemma copy_backward_dir (d dst s src size : Z) : let b := copy_backward (d =? s) dst src size in
  if b then d = s -> src < dst else d = s -> dst <= src \/ src + size <= dst.
Proof.
  unfold copy_backward. destruct (Z.eqb_spec d s); simpl; [|done].
  destruct (Z.ltb_spec src dst); simpl; [|lia]. destruct (Z.ltb_spec dst (src + size)); lia.
Qed.
Definition copy_rest (backward : bool) (dst src size r : Z) : Z * Z * Z :=
  if backward then (dst, src, size - r) else (dst + r, src + r, size - r).

Lemma copy_going (i : bulk_instr) D (d dst s src size : Z) (backward : bool) (r : Z) D1 :
  (forall (dst src size : Z) D D', bulk_effect i (dst, src, size) D D' <-> patched D D' d dst size (fun j => item_at D s (src + j))) ->
  (forall (dst src size : Z) D, 0 <= size -> (bulk_trap i (dst, src, size) D = None <-> dst + size <= data_len D d /\ src + size <= data_len D s)) ->
  (if backward then d = s -> src < dst else d = s -> dst <= src \/ src + size <= dst) ->
  data_ok D d -> data_ok D s -> ops_ok (dst, src, size) -> 0 <= r <= size -> bulk_trap i (dst, src, size) D = None ->
  copy_state D d dst s src size backward r D1 -> bulk_going i (dst, src, size) (copy_rest backward dst src size r) D D1.
Proof.
  intros He Ht Hdir Hd Hs (Ha & Hb & Hn) Hr Htrap HP. pose proof (copy_state_shape _ _ _ _ _ _ _ _ _ HP) as Hshape.
  pose proof (proj1 (Ht dst src size D ltac:(lia)) Htrap) as Hin.
  pose proof (data_len_range _ _ Hd). pose proof (data_len_range _ _ Hs).
  right. split; [unfold copy_rest; destruct backward; simpl; lia|]. split; [done|]. split; [done|]. split.
  - rewrite (bulk_trap_shape _ _ _ _ Hshape). unfold copy_rest. destruct backward; (apply Ht; lia).
  - intros D2 H2. apply He. eapply copy_resume; [exact Hdir|exact HP|lia|]. unfold copy_rest in H2. destruct backward; by apply He in H2.
Qed.

Lemma copy_effect_iff (i : bulk_instr) d s : i = MEMORY_COPY d s \/ i = TABLE_COPY d s ->
  (forall (dst src size : Z) D D', bulk_effect i (dst, src, size) D D' <-> patched D D' d dst size (fun j => item_at D s (src + j))) /\
  (forall (dst src size : Z) D, 0 <= size -> (bulk_trap i (dst, src, size) D = None <-> dst + size <= data_len D d /\ src + size <= data_len D s)).
Proof.
  intros [-> | ->]; (split; [done|]); intros dst src size D _; simpl;
    destruct (Z.leb_spec (dst + size) (data_len D d)), (Z.leb_spec (src + size) (data_len D s)); simpl; split; try done; lia.
Qed.

Lemma run_MEMORY_COPY_runs d s ops st : ops_ok ops -> bulk_ok (MEMORY_COPY d s) (b_data st) -> b_fuel st <= INT64_MAX ->
  runs (run_MEMORY_COPY d s ops) (bulk_post (stalled st) (MEMORY_COPY d s) ops st) st.
Proof.
  destruct ops as [[dst src] size]. intros (Ha & Hb & Hn) Hd0 Hf0. apply begin_bulk; [done..|]. clear st Hd0 Hf0. intros st [Hd Hs] Hf.
  eapply runs_then; [by apply data_size_runs|]. intros n s' [-> ->]. rewrite range_in_bounds by done.
  destruct (Z.leb_spec (dst + size) (data_len (b_data st) d)) as [Hin|Hout]; simpl negb; cbv iota;
    [|apply trap_runs; simpl; by rewrite leb_false].
  eapply runs_then; [by apply data_size_runs|]. intros n s' [-> ->]. rewrite range_in_bounds by done.
  destruct (Z.leb_spec (src + size) (data_len (b_data st) s)) as [Hin'|Hout]; simpl negb; cbv iota;
    [|apply trap_runs; simpl; by rewrite leb_true, leb_false].
  fold (copy_backward (d =? s) dst src size). pose proof (copy_backward_dir d dst s src size) as Hdir.
  cbv zeta in Hdir. set (backward := copy_backward _ _ _ _) in *.
  pose proof (in_bounds_len _ _ dst size Hd ltac:(lia) ltac:(lia) Hin) as Hbd.
  pose proof (in_bounds_len _ _ src size Hs ltac:(lia) ltac:(lia) Hin') as Hbs.
  destruct (copy_effect_iff (MEMORY_COPY d s) d s (or_introl eq_refl)) as [He Ht].
  assert (Htrap : bulk_trap (MEMORY_COPY d s) (dst, src, size) (b_data st) = None) by (apply Ht; lia).
  apply (loop_instr_runs _ _ _ (fun _ => True) (copy_state (b_data st) d dst s src size backward));
    [apply any_chunk_ok|lia|done|done|apply copy_state_start|done| | |].
  - intros k c s1 Hk Hc Hkc _ _ HP. eapply runs_eq; [|by apply (copy_item _ _ _ _ _ _ _ Hdir k c s1 HP)].
    by destruct backward.
  - apply copy_state_end.
  - intros r D1 Hr _ HP. split; [|destruct backward; simpl; lia]. fold (copy_rest backward dst src size r).
    eapply (copy_going _ _ _ _ _ _ _ backward r D1 He Ht Hdir); try done; lia.
Qed.

Lemma run_TABLE_COPY_runs d s ops st : ops_ok ops -> bulk_ok (TABLE_COPY d s) (b_data st) -> b_fuel st <= INT64_MAX ->
  runs (run_TABLE_COPY d s ops) (bulk_post (stalled st) (TABLE_COPY d s) ops st) st.
Proof.
  destruct ops as [[dst src] size]. intros (Ha & Hb & Hn) Hd0 Hf0. apply begin_bulk; [done..|]. clear st Hd0 Hf0. intros st [Hd Hs] Hf.
  eapply runs_then; [by apply data_size_runs|]. intros n s' [-> ->]. rewrite range_in_bounds by done.
  destruct (Z.leb_spec (src + size) (data_len (b_data st) s)) as [Hin'|Hout]; simpl negb; cbv iota;
    [|apply trap_runs; simpl; by rewrite andb_comm, leb_false].
  eapply runs_then; [by apply data_size_runs|]. intros n s' [-> ->]. rewrite range_in_bounds by done.
  destruct (Z.leb_spec (dst + size) (data_len (b_data st) d)) as [Hin|Hout]; simpl negb; cbv iota;
    [|apply trap_runs; simpl; by rewrite leb_false].
  destruct (copy_effect_iff (TABLE_COPY d s) d s (or_intror eq_refl)) as [He Ht].
  assert (Htrap : bulk_trap (TABLE_COPY d s) (dst, src, size) (b_data st) = None) by (apply Ht; lia).
  rewrite (Z.eqb_sym s d). unfold wah_bulk_table_copy. rewrite (Z.eqb_sym s d).
  destruct ((d =? s) && (dst =? src)) eqn:Esame.
  { apply andb_true_iff in Esame as [<-%Z.eqb_eq <-%Z.eqb_eq]. apply runs_bind, runs_ret. rewrite Z.ltb_irrefl.
    apply runs_ret. split; [done|]. split; [done|]. apply He. split; [done|]. intros x j. case_decide as Hj; [|done].
    destruct Hj as [-> Hj]. f_equal. lia. }
  fold (copy_backward (d =? s) dst src size). pose proof (copy_backward_dir d dst s src size) as Hdir.
  cbv zeta in Hdir. cbv zeta. set (backward := copy_backward _ _ _ _) in *.
  pose proof (in_bounds_len _ _ dst size Hd ltac:(lia) ltac:(lia) Hin) as Hbd.
  pose proof (in_bounds_len _ _ src size Hs ltac:(lia) ltac:(lia) Hin') as Hbs.
  apply (loop_instr_runs _ _ _ (fun _ => True) (copy_state (b_data st) d dst s src size backward));
    [apply any_chunk_ok|lia|done|done|apply copy_state_start|done| | |].
  - intros k c s1 Hk Hc Hkc _ _ HP.
    assert (Heach : forall j st1, 0 <= j < c -> copy_state (b_data st) d dst s src size backward (k + j) (b_data st1) ->
      runs (memmove d (if backward then dst + (size - k) - 1 - j else dst + k + j) s (if backward then src + (size - k) - 1 - j else src + k + j) 1)
        (fun _ st' => copy_state (b_data st) d dst s src size backward (k + (j + 1)) (b_data st') /\ only_data st1 st') st1).
    { intros j st1 Hj HPj. eapply runs_mono; [eapply runs_eq; [|apply (copy_item _ _ _ _ _ _ _ Hdir (k + j) 1 st1 HPj); (done || lia)]|].
      - f_equal; destruct backward; lia.
      - intros _ st' [? ?]. by replace (k + (j + 1)) with (k + j + 1) by lia. }
    replace (k + c) with (k + (0 + Z.of_nat (Z.to_nat c))) by lia.
    destruct backward; (apply (each_item_runs _ 0 _ (fun j => copy_state (b_data st) d dst s src size _ (k + j)));
      [intros j st1 Hj; apply Heach; lia|by rewrite Z.add_0_r]).
  - apply copy_state_end.
  - intros r D1 Hr _ HP. split; [|destruct backward; simpl; lia]. fold (copy_rest backward dst src size r).
    eapply (copy_going _ _ _ _ _ _ _ backward r D1 He Ht Hdir); try done; lia.
Qed.

Lemma whole_elements_ok esz n : 0 < esz -> forall c done, 0 <= done < n * esz -> (esz | done) -> 0 <= c <= n * esz - done ->
  let c' := whole_elements esz c (n * esz - done) in 0 <= c' <= n * esz - done /\ (esz | done + c') /\ (c' = 0 -> c = 0).
Proof.
  intros He c done Hd [q ->] Hc. cbv zeta. unfold whole_elements. pose proof (Z.div_mod c esz ltac:(lia)) as Hm.
  pose proof (Z.mod_pos_bound c esz He). assert (Hlast : esz <= n * esz - q * esz).
  { rewrite <- Z.mul_sub_distr_r. assert (0 < n - q) by nia. nia. }
  assert (Hmul : (esz | q * esz + (c - c mod esz))) by (exists (q + c / esz); rewrite Z.mul_add_distr_r; lia).
  destruct (Z.ltb_spec esz c).
  - destruct (Z.ltb_spec (n * esz - q * esz) (c - c mod esz)); split; try lia; (split; [done|lia]).
  - destruct (Z.ltb_spec (n * esz - q * esz) esz); [lia|]. split; [lia|]. split; [|lia]. exists (q + 1). lia.
Qed.

Lemma run_ARRAY_COPY_runs d s esz ops st : ops_ok ops -> bulk_ok (ARRAY_COPY d s esz) (b_data st) -> b_fuel st <= INT64_MAX ->
  runs (run_ARRAY_COPY d s esz ops) (bulk_post (stalled st) (ARRAY_COPY d s esz) ops st) st.
Proof.
  destruct ops as [[dst src] size]. intros (Ha & Hb & Hn) Hd0 Hf0. apply begin_bulk; [done..|]. clear st Hd0 Hf0.
  intros st Hok Hf. destruct (Z.eqb_spec d 0) as [Ed|Ed]; [rewrite andb_false_r; apply trap_runs; simpl; by rewrite Ed|].
  destruct (Z.eqb_spec s 0) as [Es|Es]; [apply trap_runs; simpl; by rewrite Es, orb_true_r|]. simpl negb; cbv iota.
  destruct Hok as [?|[?|(Hd & Hs & Hesz & Hmd & Hms)]]; [done..|].
  assert (Hnn : (d =? 0) || (s =? 0) = false) by (by apply orb_false_iff; rewrite !Z.eqb_neq).
  eapply runs_then; [by apply data_size_runs|]. intros n s' [-> ->].
  destruct (Z.leb_spec (src + size) (data_len (b_data st) s / esz)) as [Hin'|Hout]; simpl negb; cbv iota;
    [|apply trap_runs; simpl; by rewrite Hnn, andb_comm, leb_false].
  eapply runs_then; [by apply data_size_runs|]. intros n s' [-> ->].
  destruct (Z.leb_spec (dst + size) (data_len (b_data st) d / esz)) as [Hin|Hout]; simpl negb; cbv iota;
    [|apply trap_runs; simpl; by rewrite Hnn, leb_false].
  assert (Htrap : bulk_trap (ARRAY_COPY d s esz) (dst, src, size) (b_data st) = None) by (simpl; by rewrite Hnn, !leb_true).
  cbv zeta. rewrite (u32_small (src + size)) by lia.
  fold (copy_backward (d =? s) dst src size). pose proof (copy_backward_dir d dst s src size) as Hdir0.
  cbv zeta in Hdir0. set (backward := copy_backward _ _ _ _) in *.
  assert (Hdir : if backward then d = s -> src * esz < dst * esz else d = s -> dst * esz <= src * esz \/ src * esz + size * esz <= dst * esz).
  { destruct backward; intros ->; specialize (Hdir0 eq_refl); nia. }
  assert (Hbytes : forall a x, a + size <= data_len (b_data st) x / esz -> a * esz + size * esz <= data_len (b_data st) x).
  { intros a x H. rewrite <- Z.mul_add_distr_r. pose proof (Z.mul_div_le (data_len (b_data st) x) esz Hesz). nia. }
  pose proof (in_bounds_len _ _ (dst * esz) (size * esz) Hd ltac:(nia) ltac:(nia) (Hbytes _ _ Hin)) as Hbd.
  pose proof (in_bounds_len _ _ (src * esz) (size * esz) Hs ltac:(nia) ltac:(nia) (Hbytes _ _ Hin')) as Hbs.
  apply (loop_instr_runs _ _ _ (fun r => (esz | r)) (copy_state (b_data st) d (dst * esz) s (src * esz) (size * esz) backward));
    [by apply whole_elements_ok|nia|apply Z.divide_0_r|done|apply copy_state_start|done| | |].
  - intros k c s1 Hk Hc Hkc _ _ HP. eapply runs_eq; [|by apply (copy_item _ _ _ _ _ _ _ Hdir k c s1 HP)]. by destruct backward.
  - apply copy_state_end.
  - intros r D1 Hr [q ->] HP. rewrite Z.div_mul by lia. assert (0 <= q < size) by nia. rewrite (u32_small q) by lia.
    split; [|destruct backward; simpl; nia]. pose proof (copy_state_shape _ _ _ _ _ _ _ _ _ HP) as Hshape.
    pose proof (same_shape_len _ _ d Hshape) as El. pose proof (same_shape_len _ _ s Hshape) as El'.
    right. split; [destruct backward; simpl; lia|]. split; [done|]. split; [done|]. split.
    + destruct backward; simpl; rewrite Hnn, El, El', !leb_true by lia; done.
    + intros D2 H2. eapply (copy_resume _ _ _ _ _ _ _ Hdir (q * esz)); [exact HP|nia|].
      destruct backward; simpl in H2; rewrite ?Z.mul_add_distr_r, Z.mul_sub_distr_r in H2; exact H2.
Qed.

(** An instruction never faults, and one run of it does what is left to do. *)
Lemma run_bulk_runs i ops s : ops_ok ops -> bulk_ok i (b_data s) -> b_fuel s <= INT64_MAX ->
  runs (run_bulk i ops) (bulk_post (stalled s) i ops s) s.
Proof.
  destruct i; simpl run_bulk; [apply run_MEMORY_FILL_runs|apply run_MEMORY_INIT_runs|apply run_MEMORY_COPY_runs|
    apply run_TABLE_FILL_runs|apply run_TABLE_COPY_runs|apply run_ARRAY_COPY_runs].
Qed.

(** An instruction is run again with the operands it left as long as it stops, whatever
    fuel is added and whichever interrupts come; in the meantime data do not change. *)
Inductive completes (i : bulk_instr) : Z * Z * Z -> gmap Z (list Z) -> option wah_error_t -> gmap Z (list Z) -> Prop :=
| completes_finished ops s s' : b_fuel s <= INT64_MAX -> run_bulk i ops s = (Ok Finished, s') ->
    completes i ops (b_data s) None (b_data s')
| completes_trapped ops s e s' : b_fuel s <= INT64_MAX -> run_bulk i ops s = (Ok (Trapped e), s') ->
    completes i ops (b_data s) (Some e) (b_data s')
| completes_yielded ops s ops' st s' o D : b_fuel s <= INT64_MAX -> run_bulk i ops s = (Ok (Yielded ops' st), s') ->
    completes i ops' (b_data s') o D -> completes i ops (b_data s) o D.

Lemma completes_spec i ops D o D' : completes i ops D o D' -> ops_ok ops -> bulk_ok i D ->
  o = bulk_trap i ops D /\ (if o then D' = D else bulk_effect i ops D D').
Proof.
  induction 1 as [ops s s' Hf E|ops s e s' Hf E|ops s ops' st s' o D Hf E Hc IH]; intros Ho Hi;
    pose proof (run_bulk_runs i ops s Ho Hi Hf) as HR; unfold runs in HR; rewrite E in HR; destruct HR as [_ HR].
  - destruct HR as [-> ?]. done.
  - destruct HR as [-> ->]. done.
  - destruct HR as [Hg _]. destruct Hg as [[-> Hd]|(Ho' & Hs & Ht & Ht' & He)]; [rewrite Hd in IH; auto|].
    destruct (IH Ho' (bulk_ok_shape _ _ _ Hs Hi)) as [-> HD]. rewrite Ht' in *. rewrite Ht. split; [done|]. by apply He.
Qed.

(** Without interrupts and metering, runs of an instruction come to its end. *)
Lemma completes_some n i ops D : ops.2 < Z.of_nat n -> ops_ok ops -> bulk_ok i D -> exists o D', completes i ops D o D'.
Proof.
  revert ops D. induction n as [|n IH]; intros ops D Hn Ho Hi; [destruct ops as [[? ?] ?]; simpl in *; lia|].
  set (s := Bulk D 0 false []). pose proof (run_bulk_runs i ops s Ho Hi ltac:(done)) as HR. apply runs_iff in HR as (r & s' & E & _ & Hr).
  change D with (b_data s). destruct r as [|ops' st|e].
  - exists None, (b_data s'). by apply completes_finished.
  - destruct Hr as (Hg & [Hless|[?|[? ?]]] & _); [|done..]. assert (ops_ok ops' /\ bulk_ok i (b_data s')) as [Ho' Hi'].
    { destruct Hg as [[-> ->]|(? & Hs & _)]; [done|]. split; [done|]. by eapply bulk_ok_shape. }
    destruct (IH ops' (b_data s') ltac:(lia) Ho' Hi') as (o & D' & Hc). exists o, D'. by eapply completes_yielded.
  - exists (Some e), (b_data s'). by eapply completes_trapped.
Qed.

(** C30. Filling, copying and initializing memories, tables and arrays is resumable: an
    instruction never accesses data out of bounds; a run of it that stops, for lack of fuel
    or an interrupt, did some of the work unless it was stopped from the start; and from
    however many runs its end is reached, the instruction trapped exactly when the range of
    its operands is out of bounds or an array is null, then with nothing changed, or left the items of a single
    step in its range (copies, also of overlapping ranges, being of the items before it)
    and all others as they were. *)
Theorem bulk_instruction_exact i ops s : ops_ok ops -> bulk_ok i (b_data s) -> b_fuel s <= INT64_MAX ->
  (exists r s', run_bulk i ops s = (Ok r, s') /\
     match r with
     | Finished => bulk_trap i ops (b_data s) = None
     | Trapped e => bulk_trap i ops (b_data s) = Some e
     | Yielded ops' st => (ops'.2 < ops.2 \/ stalled s) /\
         st = (if b_metered s' && (b_fuel s' <? 0) then WAH_STATUS_FUEL_EXHAUSTED else WAH_STATUS_YIELDED)
     end) /\
  (exists o D', completes i ops (b_data s) o D') /\
  (forall o D', completes i ops (b_data s) o D' ->
     o = bulk_trap i ops (b_data s) /\ (if o then D' = b_data s else bulk_effect i ops (b_data s) D')).
Proof.
  intros Ho Hi Hf. split; [|split].
  - pose proof (run_bulk_runs i ops s Ho Hi Hf) as HR. apply runs_iff in HR as (r & s' & E & _ & Hr).
    exists r, s'. split; [done|]. destruct r; [apply Hr| |apply Hr]. destruct Hr as (_ & H1 & H2). done.
  - apply (completes_some (S (Z.to_nat ops.2))); [|done|done]. destruct ops as [[? ?] ?]; simpl in *; lia.
  - intros o D' Hc. by apply completes_spec.
Qed.
Definition overlapping : bulk := Bulk {[ 1 := [10; 20; 30; 40; 50] ]} (-1) true [false; true].
Definition refuelled : bulk := Bulk {[ 1 := [10; 20; 30; 40; 40] ]} 5 true [].
Lemma overlapping_completes : completes (ARRAY_COPY 1 1 1) (1, 0, 4) (b_data overlapping) None {[ 1 := [10; 10; 20; 30; 40] ]}.
Proof.
  assert (completes (ARRAY_COPY 1 1 1) (1, 0, 3) {[ 1 := [10; 20; 30; 40; 40] ]} None {[ 1 := [10; 10; 20; 30; 40] ]}) as H.
  { pose proof (completes_finished (ARRAY_COPY 1 1 1) (1, 0, 3) refuelled
      (Bulk {[ 1 := [10; 10; 20; 30; 40] ]} 4 true []) ltac:(vm_compute; congruence) ltac:(vm_compute; reflexivity)) as H. exact H. }
  eapply (completes_yielded (ARRAY_COPY 1 1 1) (1, 0, 4) overlapping (1, 0, 3) WAH_STATUS_FUEL_EXHAUSTED
    (Bulk {[ 1 := [10; 20; 30; 40; 40] ]} (-2) true [])); [vm_compute; congruence|vm_compute; reflexivity|exact H].
Qed.
Lemma bulk_instruction_exact_witness :
  run_bulk (ARRAY_COPY 1 1 1) (1, 0, 4) overlapping =
    (Ok (Yielded (1, 0, 3) WAH_STATUS_FUEL_EXHAUSTED), Bulk {[ 1 := [10; 20; 30; 40; 40] ]} (-2) true []) /\
  bulk_effect (ARRAY_COPY 1 1 1) (1, 0, 4) (b_data overlapping) {[ 1 := [10; 10; 20; 30; 40] ]}.
Proof.
  split; [vm_compute; reflexivity|].
  destruct (bulk_instruction_exact (ARRAY_COPY 1 1 1) (1, 0, 4) overlapping) as (_ & _ & H).
  - vm_compute; repeat split; congruence.
  - right; right. vm_compute. repeat split; try congruence; eexists; reflexivity.
  - vm_compute; congruence.
  - exact (proj2 (H _ _ overlapping_completes)).
Defined.
