(* ===== verification/IntOps.v ===== *)
(** * Bit operations on integers

    The portable versions of counting bits and of rotations, for 32 and 64 bits, and the
    functions of the WebAssembly specification that they implement, bit by bit. *)

From S2P Require Import Prelude Base.
From stdpp Require Import list.
#[local] Open Scope Z_scope.

(** ** Definitions *)

Definition wah_popcount_u32 (n : Z) : Z :=
  let n := u32 (n - Z.land (Z.shiftr n 1) 0x55555555) in
  let n := u32 (Z.land n 0x33333333 + Z.land (Z.shiftr n 2) 0x33333333) in
  let n := Z.land (u32 (n + Z.shiftr n 4)) 0x0f0f0f0f in
  Z.shiftr (u32 (n * 0x01010101)) 24.
Definition wah_popcount_u64 (n : Z) : Z :=
  let n := u64 (n - Z.land (Z.shiftr n 1) 0x5555555555555555) in
  let n := u64 (Z.land n 0x3333333333333333 + Z.land (Z.shiftr n 2) 0x3333333333333333) in
  let n := Z.land (u64 (n + Z.shiftr n 4)) 0x0f0f0f0f0f0f0f0f in
  Z.shiftr (u64 (n * 0x0101010101010101)) 56.

(** [if (n <= limit) { count += k; n <<= k; }] *)
Definition clz_step (wrap : Z -> Z) (limit k : Z) (st : Z * Z) : Z * Z :=
  let '(n, count) := st in if n <=? limit then (wrap (Z.shiftl n k), wrap (count + k)) else (n, count).
Definition wah_clz_u32 (n : Z) : Z :=
  if n =? 0 then 32
  else
    let '(n, count) :=
      clz_step u32 0x3FFFFFFF 2 (clz_step u32 0x0FFFFFFF 4 (clz_step u32 0x00FFFFFF 8 (clz_step u32 0x0000FFFF 16 (n, 0)))) in
    if n <=? 0x7FFFFFFF then u32 (count + 1) else count.
Definition wah_clz_u64 (n : Z) : Z :=
  if n =? 0 then 64
  else
    let '(n, count) :=
      clz_step u64 0x3FFFFFFFFFFFFFFF 2 (clz_step u64 0x0FFFFFFFFFFFFFFF 4 (clz_step u64 0x00FFFFFFFFFFFFFF 8
        (clz_step u64 0x0000FFFFFFFFFFFF 16 (clz_step u64 0x00000000FFFFFFFF 32 (n, 0))))) in
    if n <=? 0x7FFFFFFFFFFFFFFF then u64 (count + 1) else count.

(** [while ((n & 1) == 0) { n >>= 1; count++; }], [None] when it takes more than [fuel] rounds. *)
Fixpoint ctz_loop (fuel : nat) (n count : Z) : option Z :=
  if Z.land n 1 =? 0 then
    match fuel with O => None | S fuel' => ctz_loop fuel' (Z.shiftr n 1) (count + 1) end
  else Some count.
Definition wah_ctz_u32 (n : Z) : option Z := if n =? 0 then Some 32 else ctz_loop 32 n 0.
Definition wah_ctz_u64 (n : Z) : option Z := if n =? 0 then Some 64 else ctz_loop 64 n 0.

Definition wah_rotl_u32 (n shift : Z) : Z :=
  let shift := Z.land shift 31 in
  if shift =? 0 then n else Z.lor (u32 (Z.shiftl n shift)) (Z.shiftr n (32 - shift)).
Definition wah_rotl_u64 (n shift : Z) : Z :=
  let shift := Z.land shift 63 in
  if shift =? 0 then n else Z.lor (u64 (Z.shiftl n shift)) (Z.shiftr n (64 - shift)).
Definition wah_rotr_u32 (n shift : Z) : Z :=
  let shift := Z.land shift 31 in
  if shift =? 0 then n else Z.lor (Z.shiftr n shift) (u32 (Z.shiftl n (32 - shift))).
Definition wah_rotr_u64 (n shift : Z) : Z :=
  let shift := Z.land shift 63 in
  if shift =? 0 then n else Z.lor (Z.shiftr n shift) (u64 (Z.shiftl n (64 - shift))).

(** *** Specification

    The integer whose bits below [n] are [f], and the counts of bits of [n]-bit integers. *)
Fixpoint of_bits (n : nat) (f : Z -> bool) : Z :=
  match n with O => 0 | S n' => of_bits n' f + (if f (Z.of_nat n') then 2 ^ Z.of_nat n' else 0) end.
Fixpoint ipopcnt (n : nat) (x : Z) : Z :=
  match n with O => 0 | S n' => ipopcnt n' x + b2z (Z.testbit x (Z.of_nat n')) end.
Fixpoint iclz (n : nat) (x : Z) : Z :=
  match n with O => 0 | S n' => if Z.testbit x (Z.of_nat n') then 0 else 1 + iclz n' x end.
Fixpoint ictz (n : nat) (x : Z) : Z :=
  match n with O => 0 | S n' => if Z.testbit x 0 then 0 else 1 + ictz n' (Z.shiftr x 1) end.

(** The integer whose bit [i] is bit [i - k] or [i + k] of [x], counted around [w] bits. *)
Definition irotl (w : nat) (x k : Z) : Z := of_bits w (fun i => Z.testbit x ((i - k) mod Z.of_nat w)).
Definition irotr (w : nat) (x k : Z) : Z := of_bits w (fun i => Z.testbit x ((i + k) mod Z.of_nat w)).

(** ** Theorems *)

Lemma testbit_low_high n a b i : 0 <= n -> 0 <= a < 2 ^ n -> 0 <= i ->
  Z.testbit (a + b * 2 ^ n) i = if i <? n then Z.testbit a i else Z.testbit b (i - n).
Proof.
  intros Hn Ha Hi. destruct (Z.ltb_spec i n).
  - rewrite <- (Z.mod_pow2_bits_low _ n) by lia. by rewrite Z.mod_add, Z.mod_small by lia.
  - replace i with (i - n + n) at 1 by lia. rewrite <- Z.div_pow2_bits by lia.
    by rewrite Z.div_add, Z.div_small by lia.
Qed.
Lemma testbit_above n x i : 0 <= x < 2 ^ n -> n <= i -> Z.testbit x i = false.
Proof.
  intros Hx Hi. destruct (decide (n < 0)); [rewrite Z.pow_neg_r in Hx by lia; lia|].
  rewrite <- (Z.mod_small x (2 ^ n)) by lia. apply Z.mod_pow2_bits_high. lia.
Qed.

Lemma of_bits_range n f : 0 <= of_bits n f < 2 ^ Z.of_nat n.
Proof.
  induction n as [|n IH]; [simpl; lia|]. cbn [of_bits]. rewrite Nat2Z.inj_succ, Z.pow_succ_r by lia.
  destruct (f (Z.of_nat n)); lia.
Qed.
Lemma of_bits_testbit n f i : 0 <= i < Z.of_nat n -> Z.testbit (of_bits n f) i = f i.
Proof.
  intros Hi. induction n as [|n IH]; [lia|]. cbn [of_bits].
  replace (if f (Z.of_nat n) then _ else _) with ((if f (Z.of_nat n) then 1 else 0) * 2 ^ Z.of_nat n) by (destruct (f (Z.of_nat n)); lia).
  rewrite testbit_low_high by (pose proof (of_bits_range n f); lia). destruct (Z.ltb_spec i (Z.of_nat n)); [apply IH; lia|].
  replace i with (Z.of_nat n) by lia. rewrite Z.sub_diag. by destruct (f (Z.of_nat n)).
Qed.
Lemma of_bits_unique n f x : 0 <= x < 2 ^ Z.of_nat n -> (forall i, 0 <= i < Z.of_nat n -> Z.testbit x i = f i) -> x = of_bits n f.
Proof.
  intros Hx Hf. apply Z.bits_inj'. intros i Hi. destruct (Z.lt_ge_cases i (Z.of_nat n)).
  - rewrite of_bits_testbit by lia. apply Hf. lia.
  - by rewrite !(testbit_above (Z.of_nat n)) by (lia || apply of_bits_range).
Qed.

(** *** Digits of bytes *)

(** The number with the bytes [ds], lowest first. *)
Fixpoint val (ds : list Z) : Z := match ds with [] => 0 | d :: ds => d + val ds * 256 end.
Definition bytes (ds : list Z) : Prop := Forall (fun d => 0 <= d < 256) ds.
Lemma val_range ds : bytes ds -> 0 <= val ds < 256 ^ Z.of_nat (length ds).
Proof.
  induction 1 as [|d ds Hd _ IH]; [simpl; lia|]. cbn [val length]. rewrite Nat2Z.inj_succ, Z.pow_succ_r by lia. lia.
Qed.
Lemma digits n : forall x, 0 <= x < 256 ^ Z.of_nat n -> exists ds, x = val ds /\ length ds = n /\ bytes ds.
Proof.
  induction n as [|n IH]; intros x Hx.
  - exists []. split; [simpl in *; lia|]. by split; [|constructor].
  - rewrite Nat2Z.inj_succ, Z.pow_succ_r in Hx by lia. destruct (IH (x / 256)) as (ds & E & El & Hds).
    { split; [apply Z.div_pos; lia|apply Z.div_lt_upper_bound; lia]. }
    exists (x mod 256 :: ds). split; [cbn [val]; rewrite <- E; pose proof (Z.div_mod x 256); lia|].
    split; [simpl; congruence|]. constructor; [apply Z.mod_pos_bound; lia|done].
Qed.

Lemma land_low_high n a b c d : 0 <= n -> 0 <= a < 2 ^ n -> 0 <= c < 2 ^ n ->
  Z.land (a + b * 2 ^ n) (c + d * 2 ^ n) = Z.land a c + Z.land b d * 2 ^ n.
Proof.
  intros Hn Ha Hc. assert (0 <= Z.land a c < 2 ^ n).
  { replace (Z.land a c) with (Z.land a c mod 2 ^ n); [apply Z.mod_pos_bound; lia|].
    rewrite <- Z.land_ones, <- Z.land_assoc, (Z.land_comm c), Z.land_assoc, Z.land_ones by done. by rewrite (Z.mod_small a). }
  apply Z.bits_inj'. intros i Hi. rewrite Z.land_spec, !testbit_low_high, !Z.land_spec by lia. by destruct (i <? n).
Qed.
Lemma land_byte d b m M : 0 <= d < 256 -> 0 <= m < 256 -> Z.land (d + b * 256) (m + M * 256) = Z.land d m + Z.land b M * 256.
Proof. apply (land_low_high 8); lia. Qed.

Lemma shift_byte d v k : 0 <= d < 256 -> 0 <= v -> 0 <= k <= 8 ->
  Z.shiftr (d + v * 256) k = (d / 2 ^ k + (v mod 2 ^ k) * 2 ^ (8 - k)) + Z.shiftr v k * 256.
Proof.
  intros Hd Hv Hk. rewrite !Z.shiftr_div_pow2 by lia. pose proof (Z.div_mod v (2 ^ k) ltac:(lia)) as E.
  assert (256 = 2 ^ (8 - k) * 2 ^ k) as E8 by (rewrite <- Z.pow_add_r by lia; by replace (8 - k + k) with 8 by lia).
  rewrite E8 at 1. rewrite Z.mul_assoc, Z.div_add by lia. rewrite <- Z.add_assoc. f_equal.
  rewrite E at 1. rewrite E8. ring.
Qed.
Lemma shift_low_range d v k : 0 <= d < 256 -> 0 <= k <= 8 -> 0 <= d / 2 ^ k < 2 ^ (8 - k) /\ 0 <= d / 2 ^ k + v mod 2 ^ k * 2 ^ (8 - k) < 256.
Proof.
  intros Hd Hk. assert (256 = 2 ^ k * 2 ^ (8 - k)) as E8 by (rewrite <- Z.pow_add_r by lia; by replace (k + (8 - k)) with 8 by lia).
  assert (0 <= d / 2 ^ k < 2 ^ (8 - k)) by (split; [apply Z.div_pos; lia|apply Z.div_lt_upper_bound; lia]).
  pose proof (Z.mod_pos_bound v (2 ^ k) ltac:(lia)). split; [done|]. nia.
Qed.
Lemma masked_shift m k ds : bytes ds -> 0 <= k <= 8 -> 0 <= m < 2 ^ (8 - k) ->
  Z.land (Z.shiftr (val ds) k) (val (replicate (length ds) m)) = val (map (fun d => Z.land (d / 2 ^ k) m) ds).
Proof.
  intros Hds Hk Hm. assert (2 ^ (8 - k) <= 256) by (change 256 with (2 ^ 8); apply Z.pow_le_mono_r; lia).
  induction Hds as [|d ds Hd Hds IH]; [by rewrite Z.shiftr_0_l|]. cbn [val map length replicate].
  pose proof (val_range ds Hds). destruct (shift_low_range d (val ds) k Hd Hk).
  rewrite shift_byte, land_byte, IH by lia. f_equal.
  rewrite <- (Z.add_0_r m) at 1. replace 0 with (0 * 2 ^ (8 - k)) at 1 by lia.
  rewrite land_low_high by lia. rewrite Z.land_0_r. lia.
Qed.
Lemma val_map2 (f g h : Z -> Z) ds : (forall d, h d = f d + g d) -> val (map h ds) = val (map f ds) + val (map g ds).
Proof. intros H. induction ds as [|d ds IH]; [done|]. cbn [val map]. rewrite IH, H. lia. Qed.

(** The rounds on a byte. *)
Definition pop1 (d : Z) : Z := d + - Z.land (d / 2 ^ 1) 0x55.
Definition pop2 (d : Z) : Z := Z.land (d / 2 ^ 0) 0x33 + Z.land (d / 2 ^ 2) 0x33.
Definition pop3 (d : Z) : Z := (d + d / 2 ^ 4) mod 16.
Definition nibbles (d : Z) : Prop := 0 <= d /\ d mod 16 <= 4 /\ d / 16 <= 4.

Lemma pop1_val ds : bytes ds -> val ds - Z.land (Z.shiftr (val ds) 1) (val (replicate (length ds) 0x55)) = val (map pop1 ds).
Proof.
  intros Hds. rewrite masked_shift by (done || lia). rewrite (val_map2 (fun d => d) (fun d => - Z.land (d / 2 ^ 1) 0x55) pop1) by done.
  rewrite map_id. assert (val (map (fun d => - Z.land (d / 2 ^ 1) 0x55) ds) = - val (map (fun d => Z.land (d / 2 ^ 1) 0x55) ds)); [|lia].
  clear Hds. induction ds as [|d ds IH]; [done|]. cbn [val map]. rewrite IH. lia.
Qed.
Lemma pop2_val ds : bytes ds ->
  Z.land (val ds) (val (replicate (length ds) 0x33)) + Z.land (Z.shiftr (val ds) 2) (val (replicate (length ds) 0x33)) = val (map pop2 ds).
Proof.
  intros Hds. rewrite masked_shift by (done || lia). rewrite (val_map2 (fun d => Z.land (d / 2 ^ 0) 0x33) (fun d => Z.land (d / 2 ^ 2) 0x33) pop2) by done.
  rewrite <- (masked_shift 0x33 0) by (done || lia). by rewrite Z.shiftr_0_r.
Qed.
Lemma pop3_val ds : Forall nibbles ds ->
  0 <= val ds + Z.shiftr (val ds) 4 < 256 ^ Z.of_nat (length ds) /\
  Z.land (val ds + Z.shiftr (val ds) 4) (val (replicate (length ds) 0x0f)) = val (map pop3 ds).
Proof.
  assert (Hb : forall d, nibbles d -> 0 <= d < 256) by (intros d (? & ? & ?); pose proof (Z.div_mod d 16); lia).
  induction 1 as [|d ds Hd Hds IH]; [done|]. destruct IH as [IHr IH]. cbn [val map length replicate].
  assert (bytes ds) as Hbs by (eapply Forall_impl; [exact Hds|exact Hb]). pose proof (val_range ds Hbs).
  rewrite shift_byte by (auto; lia). change (2 ^ (8 - 4)) with 16. change (2 ^ 4) with 16.
  assert (0 <= val ds mod 16 <= 4) as Hm.
  { split; [apply Z.mod_pos_bound; lia|]. destruct Hds as [|d' ds' (? & ? & ?) _]; [by vm_compute|]. cbn [val].
    replace (d' + val ds' * 256) with (d' + val ds' * 16 * 16) by lia. rewrite Z.mod_add; lia. }
  destruct Hd as (? & ? & ?). pose proof (Z.div_mod d 16 ltac:(lia)). pose proof (Z.div_pos d 16 ltac:(lia) ltac:(lia)).
  replace (_ + _) with ((d + d / 16 + val ds mod 16 * 16) + (val ds + Z.shiftr (val ds) 4) * 256) by lia.
  split; [rewrite Nat2Z.inj_succ, Z.pow_succ_r by lia; lia|].
  rewrite land_byte, IH by lia. f_equal. change 15 with (Z.ones 4). rewrite Z.land_ones by lia. unfold pop3. change (2 ^ 4) with 16. by rewrite Z.mod_add by lia.
Qed.

(** All bytes satisfy what can be checked of each. *)
Lemma all_bytes (P : Z -> bool) : forallb P (map Z.of_nat (seq 0 256)) = true -> forall d, 0 <= d < 256 -> P d = true.
Proof.
  intros H d Hd. rewrite forallb_forall in H. apply H. apply in_map_iff. exists (Z.to_nat d). split; [lia|]. apply in_seq. lia.
Qed.
Definition byte_ok (d : Z) : bool :=
  let d1 := pop1 d in let d2 := pop2 d1 in
  (0 <=? d1) && (d1 <? 256) && (0 <=? d2) && (d2 mod 16 <=? 4) && (d2 / 16 <=? 4) && (pop3 d2 =? ipopcnt 8 d).
Lemma bytes_ok : forall d, 0 <= d < 256 -> byte_ok d = true.
Proof. apply all_bytes. vm_compute. reflexivity. Qed.
Lemma byte_rounds d : 0 <= d < 256 -> 0 <= pop1 d < 256 /\ nibbles (pop2 (pop1 d)) /\ pop3 (pop2 (pop1 d)) = ipopcnt 8 d.
Proof.
  intros Hd. pose proof (bytes_ok d Hd) as H. unfold byte_ok in H. cbv zeta in H.
  rewrite !andb_true_iff, !Z.leb_le, Z.ltb_lt, Z.eqb_eq in H. unfold nibbles. tauto.
Qed.

Lemma ipopcnt_ext n x y : (forall i, 0 <= i < Z.of_nat n -> Z.testbit x i = Z.testbit y i) -> ipopcnt n x = ipopcnt n y.
Proof. induction n as [|n IH]; intros H; [done|]. cbn [ipopcnt]. rewrite IH by (intros; apply H; lia). by rewrite H by lia. Qed.
Lemma ipopcnt_low_high n k d v : 0 <= d < 2 ^ Z.of_nat n -> ipopcnt (k + n) (d + v * 2 ^ Z.of_nat n) = ipopcnt n d + ipopcnt k v.
Proof.
  intros Hd. induction k as [|k IH]; cbn [ipopcnt Nat.add].
  - rewrite Z.add_0_r. apply ipopcnt_ext. intros i Hi. rewrite testbit_low_high by lia. by destruct (Z.ltb_spec i (Z.of_nat n)); [|lia].
  - rewrite IH, <- Z.add_assoc. f_equal. f_equal. f_equal. rewrite testbit_low_high by lia.
    destruct (Z.ltb_spec (Z.of_nat (k + n)) (Z.of_nat n)); [lia|]. f_equal. lia.
Qed.
Lemma ipopcnt_range n x : 0 <= ipopcnt n x <= Z.of_nat n.
Proof. induction n as [|n IH]; [simpl; lia|]. cbn [ipopcnt]. destruct (Z.testbit x (Z.of_nat n)); simpl b2z; lia. Qed.
Lemma ipopcnt_bytes ds : bytes ds -> ipopcnt (8 * length ds) (val ds) = foldr Z.add 0 (map (ipopcnt 8) ds).
Proof.
  induction 1 as [|d ds Hd Hds IH]; [done|]. cbn [val map foldr length]. rewrite <- IH.
  replace (8 * S (length ds))%nat with (8 * length ds + 8)%nat by lia.
  change 256 with (2 ^ Z.of_nat 8). by apply ipopcnt_low_high.
Qed.

(** The three rounds on a number of bytes, which wrap around nowhere. *)
Lemma rounds (ds : list Z) (wrap : Z -> Z) : bytes ds ->
  (forall x, 0 <= x < 256 ^ Z.of_nat (length ds) -> wrap x = x) ->
  let mask m := val (replicate (length ds) m) in
  let n := wrap (val ds - Z.land (Z.shiftr (val ds) 1) (mask 0x55)) in
  let n := wrap (Z.land n (mask 0x33) + Z.land (Z.shiftr n 2) (mask 0x33)) in
  Z.land (wrap (n + Z.shiftr n 4)) (mask 0x0f) = val (map (ipopcnt 8) ds).
Proof.
  intros Hds Hw. cbv zeta. assert (bytes (map pop1 ds)) as H1.
  { apply Forall_map. eapply Forall_impl; [exact Hds|]. intros d Hd. apply (byte_rounds d Hd). }
  assert (Forall nibbles (map pop2 (map pop1 ds))) as H2.
  { rewrite !Forall_map. eapply Forall_impl; [exact Hds|]. intros d Hd. apply (byte_rounds d Hd). }
  assert (bytes (map pop2 (map pop1 ds))) as H2'.
  { eapply Forall_impl; [exact H2|]. intros d (? & ? & ?). pose proof (Z.div_mod d 16). lia. }
  pose proof (val_range _ H1) as Hr1. pose proof (val_range _ H2') as Hr2. pose proof (pop2_val _ H1) as E2.
  destruct (pop3_val _ H2) as [Hr3 E3]. rewrite !length_map in *.
  rewrite pop1_val, (Hw _ Hr1), E2, (Hw _ Hr2), (Hw _ Hr3), E3 by done.
  f_equal. rewrite !map_map. apply map_ext_in. intros d Hd. apply list_elem_of_In in Hd.
  apply (byte_rounds d). unfold bytes in Hds. rewrite Forall_forall in Hds. auto.
Qed.

Ltac next_digit ds := destruct ds as [|? ds]; [discriminate|].
Lemma sum_bytes_32 c0 c1 c2 c3 : 0 <= c0 <= 8 -> 0 <= c1 <= 8 -> 0 <= c2 <= 8 -> 0 <= c3 <= 8 ->
  Z.shiftr (u32 (val [c0; c1; c2; c3] * 0x1010101)) 24 = foldr Z.add 0 [c0; c1; c2; c3].
Proof.
  intros. cbn [val foldr]. rewrite Z.shiftr_div_pow2 by lia. unfold u32.
  rewrite <- (Z.mod_unique _ (2 ^ 32) (c1 * 1 + c2 * 257 + c3 * 65793) (c0 * 16843009 + c1 * 16843008 + c2 * 16842752 + c3 * 16777216)) by lia.
  symmetry. apply (Z.div_unique _ _ _ (c0 * 65793 + c1 * 65792 + c2 * 65536)); lia.
Qed.
Lemma sum_bytes_64 c0 c1 c2 c3 c4 c5 c6 c7 : 0 <= c0 <= 8 -> 0 <= c1 <= 8 -> 0 <= c2 <= 8 -> 0 <= c3 <= 8 -> 0 <= c4 <= 8 -> 0 <= c5 <= 8 -> 0 <= c6 <= 8 -> 0 <= c7 <= 8 ->
  Z.shiftr (u64 (val [c0; c1; c2; c3; c4; c5; c6; c7] * 0x101010101010101)) 56 = foldr Z.add 0 [c0; c1; c2; c3; c4; c5; c6; c7].
Proof.
  intros. cbn [val foldr]. rewrite Z.shiftr_div_pow2 by lia. unfold u64.
  rewrite <- (Z.mod_unique _ (2 ^ 64) (c1 * 1 + c2 * 257 + c3 * 65793 + c4 * 16843009 + c5 * 4311810305 + c6 * 1103823438081 + c7 * 282578800148737) (c0 * 72340172838076673 + c1 * 72340172838076672 + c2 * 72340172838076416 + c3 * 72340172838010880 + c4 * 72340172821233664 + c5 * 72340168526266368 + c6 * 72339069014638592 + c7 * 72057594037927936)) by lia.
  symmetry. apply (Z.div_unique _ _ _ (c0 * 282578800148737 + c1 * 282578800148736 + c2 * 282578800148480 + c3 * 282578800082944 + c4 * 282578783305728 + c5 * 282574488338432 + c6 * 281474976710656)); lia.
Qed.
Lemma wah_popcount_u32_spec x : 0 <= x < 2 ^ 32 -> wah_popcount_u32 x = ipopcnt 32 x.
Proof.
  intros Hx. destruct (digits 4 x) as (ds & -> & El & Hds); [done|].
  pose proof (rounds ds u32 Hds) as HR. pose proof (ipopcnt_bytes ds Hds) as HP. rewrite El in HR, HP. specialize (HR u32_small). cbv zeta in HR.
  unfold wah_popcount_u32. change 0x55555555 with (val (replicate 4 0x55)). change 0x33333333 with (val (replicate 4 0x33)).
  change 0xf0f0f0f with (val (replicate 4 0x0f)). rewrite HR. change (32%nat) with (8 * 4)%nat. rewrite HP. clear HR HP Hx.
  do 4 next_digit ds. destruct ds; [|discriminate]. cbn [map]. apply sum_bytes_32; apply (ipopcnt_range 8).
Qed.
Lemma wah_popcount_u64_spec x : 0 <= x < 2 ^ 64 -> wah_popcount_u64 x = ipopcnt 64 x.
Proof.
  intros Hx. destruct (digits 8 x) as (ds & -> & El & Hds); [done|].
  pose proof (rounds ds u64 Hds) as HR. pose proof (ipopcnt_bytes ds Hds) as HP. rewrite El in HR, HP. specialize (HR u64_small). cbv zeta in HR.
  unfold wah_popcount_u64. change 0x5555555555555555 with (val (replicate 8 0x55)). change 0x3333333333333333 with (val (replicate 8 0x33)).
  change 0xf0f0f0f0f0f0f0f with (val (replicate 8 0x0f)). rewrite HR. change (64%nat) with (8 * 8)%nat. rewrite HP. clear HR HP Hx.
  do 8 next_digit ds. destruct ds; [|discriminate]. cbn [map]. apply sum_bytes_64; apply (ipopcnt_range 8).
Qed.

(** *** Leading and trailing zeros *)

Lemma iclz_log2 n x : 0 < x < 2 ^ Z.of_nat n -> iclz n x = Z.of_nat n - 1 - Z.log2 x.
Proof.
  induction n as [|n IH]; intros Hx; [simpl in Hx; lia|]. cbn [iclz]. rewrite Nat2Z.inj_succ in *.
  destruct (Z.lt_ge_cases x (2 ^ Z.of_nat n)).
  - rewrite (testbit_above (Z.of_nat n)), IH by lia. lia.
  - assert (Z.log2 x = Z.of_nat n) as E by (apply Z.log2_unique; lia). rewrite <- E at 1. rewrite Z.bit_log2 by lia. lia.
Qed.
Lemma iclz_range n x : 0 <= iclz n x <= Z.of_nat n.
Proof. induction n as [|n IH]; [done|]. cbn [iclz]. destruct (Z.testbit x (Z.of_nat n)); lia. Qed.
Lemma ictz_range n x : 0 <= ictz n x <= Z.of_nat n.
Proof. revert x. induction n as [|n IH]; intros x; [done|]. cbn [ictz]. specialize (IH (Z.shiftr x 1)). destruct (Z.testbit x 0); lia. Qed.
Lemma iclz_zero n : iclz n 0 = Z.of_nat n.
Proof. induction n as [|n IH]; [done|]. cbn [iclz]. rewrite Z.testbit_0_l, IH. lia. Qed.

(** [n] is what is left of [x], shifted by [count], and has its first bit among the first [k]. *)
Definition clz_state (w x k : Z) (st : Z * Z) : Prop :=
  let '(n, count) := st in
  2 ^ (w - k) <= n < 2 ^ w /\ 0 <= count < w /\ Z.log2 n = Z.log2 x + count.
Lemma clz_step_state w wrap x k st : w = 32 \/ w = 64 -> (forall y, 0 <= y < 2 ^ w -> wrap y = y) -> 0 < x < 2 ^ w -> 0 < k -> 2 * k <= w ->
  clz_state w x (2 * k) st -> clz_state w x k (clz_step wrap (2 ^ (w - k) - 1) k st).
Proof.
  destruct st as [n count]. intros Hw Hwrap Hx Hk Hk2 (Hn & Hc & Hl). unfold clz_step. destruct (Z.leb_spec n (2 ^ (w - k) - 1)).
  - assert (2 ^ w = 2 ^ (w - k) * 2 ^ k) as Ew by (rewrite <- Z.pow_add_r by lia; f_equal; lia).
    assert (2 ^ (w - k) = 2 ^ (w - 2 * k) * 2 ^ k) as Ek by (rewrite <- Z.pow_add_r by lia; f_equal; lia).
    assert (0 < 2 ^ (w - 2 * k)) by lia.
    assert (Z.log2 (n * 2 ^ k) = Z.log2 n + k) as El by (rewrite Z.log2_mul_pow2 by lia; lia).
    assert (Z.log2 n < w - k) by (apply Z.log2_lt_pow2; lia). pose proof (Z.log2_nonneg x).
    assert (w < 2 ^ w) by (destruct Hw as [-> | ->]; done).
    rewrite Z.shiftl_mul_pow2, !Hwrap by nia. unfold clz_state. split; [nia|]. split; lia.
  - unfold clz_state. split; [lia|]. auto.
Qed.
Lemma clz_finish w wrap x st : w = 32 \/ w = 64 -> (forall y, 0 <= y < 2 ^ w -> wrap y = y) -> 0 < x < 2 ^ w -> clz_state w x 2 st ->
  (let '(n, count) := st in if n <=? 2 ^ (w - 1) - 1 then wrap (count + 1) else count) = w - 1 - Z.log2 x.
Proof.
  destruct st as [n count]. intros Hw Hwrap Hx (Hn & Hc & Hl). assert (w < 2 ^ w) by (destruct Hw as [-> | ->]; done).
  destruct (Z.leb_spec n (2 ^ (w - 1) - 1)).
  - rewrite Hwrap by lia. assert (Z.log2 n = w - 2); [|lia]. apply Z.log2_unique; [lia|]. replace (Z.succ (w - 2)) with (w - 1) by lia. lia.
  - assert (Z.log2 n = w - 1); [|lia]. apply Z.log2_unique; [lia|]. replace (Z.succ (w - 1)) with w by lia. lia.
Qed.
Lemma wah_clz_u32_spec x : 0 <= x < 2 ^ 32 -> wah_clz_u32 x = iclz 32 x.
Proof.
  intros Hx. unfold wah_clz_u32. destruct (Z.eqb_spec x 0) as [->|]; [by rewrite iclz_zero|]. rewrite iclz_log2 by lia.
  apply (clz_finish 32 u32 x); [by left|apply u32_small|lia|].
  repeat (apply (clz_step_state 32 u32 x); [by left|apply u32_small|lia|lia|lia|]).
  unfold clz_state. simpl. repeat split; lia.
Qed.
Lemma wah_clz_u64_spec x : 0 <= x < 2 ^ 64 -> wah_clz_u64 x = iclz 64 x.
Proof.
  intros Hx. unfold wah_clz_u64. destruct (Z.eqb_spec x 0) as [->|]; [by rewrite iclz_zero|]. rewrite iclz_log2 by lia.
  apply (clz_finish 64 u64 x); [by right|apply u64_small|lia|].
  repeat (apply (clz_step_state 64 u64 x); [by right|apply u64_small|lia|lia|lia|]).
  unfold clz_state. simpl. repeat split; lia.
Qed.

Lemma land_1_testbit n : (Z.land n 1 =? 0) = negb (Z.testbit n 0).
Proof. change 1 with (Z.ones 1). rewrite Z.land_ones by lia. change (2 ^ 1) with 2. rewrite Zmod_odd, Z.bit0_odd. by destruct (Z.odd n). Qed.
Lemma ctz_loop_spec n : forall fuel x count, (n <= fuel)%nat -> 0 < x < 2 ^ Z.of_nat n -> ctz_loop fuel x count = Some (count + ictz n x).
Proof.
  induction n as [|n IH]; intros fuel x count Hf Hx; [simpl in Hx; lia|]. cbn [ictz].
  destruct fuel as [|fuel]; [lia|]. cbn [ctz_loop]. rewrite land_1_testbit. destruct (Z.testbit x 0) eqn:E; simpl negb; cbv iota; [f_equal; lia|].
  rewrite Nat2Z.inj_succ, Z.pow_succ_r in Hx by lia. rewrite Z.bit0_odd in E.
  assert (Z.shiftr x 1 = x / 2) as E1 by (by rewrite Z.shiftr_div_pow2).
  pose proof (Zmod_odd x) as Em. rewrite E in Em. pose proof (Z.div_mod x 2 ltac:(lia)).
  rewrite IH; [f_equal; lia|lia|]. rewrite E1. split; [lia|]. apply Z.div_lt_upper_bound; lia.
Qed.
Lemma ictz_zero n : ictz n 0 = Z.of_nat n.
Proof. induction n as [|n IH]; [done|]. cbn [ictz]. rewrite Z.testbit_0_l, Z.shiftr_0_l, IH. lia. Qed.
Lemma wah_ctz_u32_spec x : 0 <= x < 2 ^ 32 -> wah_ctz_u32 x = Some (ictz 32 x).
Proof.
  intros Hx. unfold wah_ctz_u32. destruct (Z.eqb_spec x 0) as [->|]; [by rewrite ictz_zero|]. by rewrite (ctz_loop_spec 32) by lia.
Qed.
Lemma wah_ctz_u64_spec x : 0 <= x < 2 ^ 64 -> wah_ctz_u64 x = Some (ictz 64 x).
Proof.
  intros Hx. unfold wah_ctz_u64. destruct (Z.eqb_spec x 0) as [->|]; [by rewrite ictz_zero|]. by rewrite (ctz_loop_spec 64) by lia.
Qed.

(** *** Rotations *)

(** Both rotations, the upper [w - s] bits coming from below. *)
Lemma rotation_bits (w : nat) x s i : 0 <= x < 2 ^ Z.of_nat w -> 0 < s < Z.of_nat w -> 0 <= i < Z.of_nat w ->
  Z.testbit (Z.lor (Z.shiftl x s mod 2 ^ Z.of_nat w) (Z.shiftr x (Z.of_nat w - s))) i = Z.testbit x ((i - s) mod Z.of_nat w).
Proof.
  intros Hx Hs Hi. rewrite Z.lor_spec, Z.mod_pow2_bits_low, Z.shiftl_spec, Z.shiftr_spec by lia. destruct (Z.lt_ge_cases i s).
  - rewrite Z.testbit_neg_r by lia. simpl. f_equal. apply Z.mod_unique with (-1); lia.
  - rewrite (testbit_above (Z.of_nat w) x (i + _)) by lia. rewrite orb_false_r, Z.mod_small by lia. done.
Qed.
Lemma rotation_range (w : nat) x s : 0 <= x < 2 ^ Z.of_nat w -> 0 < s < Z.of_nat w ->
  0 <= Z.lor (Z.shiftl x s mod 2 ^ Z.of_nat w) (Z.shiftr x (Z.of_nat w - s)) < 2 ^ Z.of_nat w.
Proof.
  intros Hx Hs. set (y := Z.lor _ _).
  assert (0 <= y) by (apply Z.lor_nonneg; split; [apply Z.mod_pos_bound; lia|apply Z.shiftr_nonneg; lia]).
  split; [done|]. destruct (Z.eq_dec y 0) as [->|]; [lia|]. apply Z.log2_lt_pow2; [lia|]. apply Z.nle_gt. intros Hl.
  pose proof (Z.bit_log2 y ltac:(lia)) as Hb. unfold y in Hb at 1. rewrite Z.lor_spec, Z.mod_pow2_bits_high, Z.shiftr_spec in Hb by lia.
  rewrite (testbit_above (Z.of_nat w)) in Hb by lia. done.
Qed.
Lemma rotl_spec (w : nat) x k : 0 <= x < 2 ^ Z.of_nat w -> 
  let s := k mod Z.of_nat w in (0 < w)%nat ->
  (if s =? 0 then x else Z.lor (Z.shiftl x s mod 2 ^ Z.of_nat w) (Z.shiftr x (Z.of_nat w - s))) = irotl w x k.
Proof.
  intros Hx s Hw. pose proof (Z.mod_pos_bound k (Z.of_nat w) ltac:(lia)).
  assert (E : forall i, (i - k) mod Z.of_nat w = (i - s) mod Z.of_nat w) by (intros i; unfold s; by rewrite Zminus_mod_idemp_r).
  destruct (Z.eqb_spec s 0) as [E0|]; (apply of_bits_unique; [|intros i Hi; rewrite E]).
  - done.
  - by rewrite E0, Z.sub_0_r, Z.mod_small.
  - apply rotation_range; lia.
  - apply rotation_bits; lia.
Qed.
Lemma rotr_spec (w : nat) x k : 0 <= x < 2 ^ Z.of_nat w ->
  let s := k mod Z.of_nat w in (0 < w)%nat ->
  (if s =? 0 then x else Z.lor (Z.shiftr x s) (Z.shiftl x (Z.of_nat w - s) mod 2 ^ Z.of_nat w)) = irotr w x k.
Proof.
  intros Hx s Hw. pose proof (Z.mod_pos_bound k (Z.of_nat w) ltac:(lia)).
  assert (E : forall i, (i + k) mod Z.of_nat w = (i + s) mod Z.of_nat w) by (intros i; unfold s; by rewrite Zplus_mod_idemp_r).
  destruct (Z.eqb_spec s 0) as [E0|]; (apply of_bits_unique; [|intros i Hi; rewrite E]).
  - done.
  - by rewrite E0, Z.add_0_r, Z.mod_small.
  - rewrite Z.lor_comm. pose proof (rotation_range w x (Z.of_nat w - s) Hx ltac:(lia)) as HR. by replace (Z.of_nat w - (Z.of_nat w - s)) with s in HR by lia.
  - rewrite Z.lor_comm. pose proof (rotation_bits w x (Z.of_nat w - s) i Hx ltac:(lia) Hi) as HR.
    replace (Z.of_nat w - (Z.of_nat w - s)) with s in HR by lia. rewrite HR. f_equal.
    replace (i - (Z.of_nat w - s)) with (i + s + (-1) * Z.of_nat w) by lia. apply Z.mod_add. lia.
Qed.
Lemma land_31 k : Z.land k 31 = k mod Z.of_nat 32.
Proof. change 31 with (Z.ones 5). by rewrite Z.land_ones. Qed.
Lemma land_63 k : Z.land k 63 = k mod Z.of_nat 64.
Proof. change 63 with (Z.ones 6). by rewrite Z.land_ones. Qed.
Lemma wah_rotl_u32_spec x k : 0 <= x < 2 ^ 32 -> wah_rotl_u32 x k = irotl 32 x k.
Proof. intros Hx. unfold wah_rotl_u32, u32. rewrite land_31. apply (rotl_spec 32 x k Hx). lia. Qed.
Lemma wah_rotl_u64_spec x k : 0 <= x < 2 ^ 64 -> wah_rotl_u64 x k = irotl 64 x k.
Proof. intros Hx. unfold wah_rotl_u64, u64. rewrite land_63. apply (rotl_spec 64 x k Hx). lia. Qed.
Lemma wah_rotr_u32_spec x k : 0 <= x < 2 ^ 32 -> wah_rotr_u32 x k = irotr 32 x k.
Proof. intros Hx. unfold wah_rotr_u32, u32. rewrite land_31. apply (rotr_spec 32 x k Hx). lia. Qed.
Lemma wah_rotr_u64_spec x k : 0 <= x < 2 ^ 64 -> wah_rotr_u64 x k = irotr 64 x k.
Proof. intros Hx. unfold wah_rotr_u64, u64. rewrite land_63. apply (rotr_spec 64 x k Hx). lia. Qed.
