(* ===== verification/Numeric.v ===== *)
(** * Integer instructions

    The handlers of the instructions on [i32] and [i64] over slots of the operand stack, and
    the functions of the WebAssembly specification on unsigned integers of each width. *)

From S2P Require Import Prelude Base IntOps.
From stdpp Require Import list.
#[local] Open Scope Z_scope.
#[local] Open Scope wah_scope.

(** ** Definitions

    A slot is the first eight bytes of a [wah_value_t] on a little-endian machine: a member
    of [w] bits is in its low bits, and storing to it keeps the others. *)
Definition get_u (w v : Z) : Z := v mod 2 ^ w.
Definition get_s (w v : Z) : Z := sgn w v.
Definition put (w x v : Z) : Z := v / 2 ^ w * 2 ^ w + x mod 2 ^ w.

(** Division in C on signed integers of [w] bits, undefined when the quotient does not fit. *)
Definition c_defined (w a b : Z) : bool := negb (b =? 0) && (Z.quot a b <? 2 ^ (w - 1)).
Definition c_div (w a b : Z) : option Z := if c_defined w a b then Some (Z.quot a b) else None.
Definition c_rem (w a b : Z) : option Z := if c_defined w a b then Some (Z.rem a b) else None.
Definition c_udiv (a b : Z) : option Z := if b =? 0 then None else Some (a / b).
Definition c_urem (a b : Z) : option Z := if b =? 0 then None else Some (a mod b).

Inductive int_op :=
| CLZ | CTZ | POPCNT | ADD | SUB | MUL | DIV_S | DIV_U | REM_S | REM_U | AND | OR | XOR | SHL | SHR_S | SHR_U | ROTL | ROTR
| EQ | NE | LT_S | LT_U | GT_S | GT_U | LE_S | LE_U | GE_S | GE_U | EQZ.
(** Instructions of a width, and those that change it or extend the low [m] bits. *)
Inductive int_instr :=
| INT (w : Z) (o : int_op)
| I32_WRAP_I64 | I64_EXTEND_I32_S | I64_EXTEND_I32_U
| EXTEND_S (w m : Z).

Definition stack := list Z.
Definition result := outcome wah_error_t stack.
Definition from_opt {A} (o : option A) (k : A -> result) : result := match o with Some x => k x | None => Fault end.

Definition BINOP_I (w : Z) (op : Z -> Z -> Z) (st : stack) : result :=
  match st with b :: a :: s => Ok (put w (op (get_u w a) (get_u w b)) a :: s) | _ => Fault end.
Definition CMP_I_S (w : Z) (op : Z -> Z -> bool) (st : stack) : result :=
  match st with b :: a :: s => Ok (put 32 (if op (get_s w a) (get_s w b) then 1 else 0) a :: s) | _ => Fault end.
Definition CMP_I_U (w : Z) (op : Z -> Z -> bool) (st : stack) : result :=
  match st with b :: a :: s => Ok (put 32 (if op (get_u w a) (get_u w b) then 1 else 0) a :: s) | _ => Fault end.
Definition UNOP_I_FN (w : Z) (fn : Z -> Z) (st : stack) : result :=
  match st with a :: s => Ok (put w (fn (get_u w a)) a :: s) | _ => Fault end.
(** [WAH_ENSURE_GOTO(cond, WAH_ERROR_TRAP, cleanup)] *)
Definition trap_unless (b : bool) (k : result) : result := if b then k else Err WAH_ERROR_TRAP.
Definition int_min (w : Z) : Z := - 2 ^ (w - 1).

Definition by_width {A} (w : Z) (f32 f64 : A) : A := if w =? 32 then f32 else f64.
Definition NUM_OPS (w : Z) (o : int_op) (st : stack) : result :=
  match o, st with
  | CLZ, _ => UNOP_I_FN w (by_width w wah_clz_u32 wah_clz_u64) st
  | CTZ, a :: s => from_opt (by_width w wah_ctz_u32 wah_ctz_u64 (get_u w a)) (fun n => Ok (put w n a :: s))
  | POPCNT, _ => UNOP_I_FN w (by_width w wah_popcount_u32 wah_popcount_u64) st
  | ADD, _ => BINOP_I w Z.add st
  | SUB, _ => BINOP_I w Z.sub st
  | MUL, _ => BINOP_I w Z.mul st
  | DIV_S, b :: a :: s =>
      trap_unless (negb (get_s w b =? 0)) (
      trap_unless (negb (get_s w a =? int_min w) || negb (get_s w b =? -1)) (
      from_opt (c_div w (get_s w a) (get_s w b)) (fun q => Ok (put w q a :: s))))
  | DIV_U, b :: a :: s =>
      trap_unless (negb (get_s w b =? 0)) (from_opt (c_udiv (get_u w a) (get_u w b)) (fun q => Ok (put w q a :: s)))
  | REM_S, b :: a :: s =>
      trap_unless (negb (get_s w b =? 0)) (
      if (get_s w a =? int_min w) && (get_s w b =? -1) then Ok (put w 0 a :: s)
      else from_opt (c_rem w (get_s w a) (get_s w b)) (fun r => Ok (put w r a :: s)))
  | REM_U, b :: a :: s =>
      trap_unless (negb (get_s w b =? 0)) (from_opt (c_urem (get_u w a) (get_u w b)) (fun r => Ok (put w r a :: s)))
  | AND, _ => BINOP_I w Z.land st
  | OR, _ => BINOP_I w Z.lor st
  | XOR, _ => BINOP_I w Z.lxor st
  | SHL, b :: a :: s => Ok (put w (Z.shiftl (get_u w a) (Z.land (get_s w b) (w - 1))) a :: s)
  | SHR_S, b :: a :: s => Ok (put w (Z.shiftr (get_s w a) (Z.land (get_s w b) (w - 1))) a :: s)
  | SHR_U, b :: a :: s => Ok (put w (Z.shiftr (get_u w a) (Z.land (get_s w b) (w - 1))) a :: s)
  | ROTL, _ => BINOP_I w (by_width w wah_rotl_u32 wah_rotl_u64) st
  | ROTR, _ => BINOP_I w (by_width w wah_rotr_u32 wah_rotr_u64) st
  | EQ, _ => CMP_I_S w Z.eqb st
  | NE, _ => CMP_I_S w (fun a b => negb (a =? b)) st
  | LT_S, _ => CMP_I_S w Z.ltb st
  | LT_U, _ => CMP_I_U w Z.ltb st
  | GT_S, _ => CMP_I_S w Z.gtb st
  | GT_U, _ => CMP_I_U w Z.gtb st
  | LE_S, _ => CMP_I_S w Z.leb st
  | LE_U, _ => CMP_I_U w Z.leb st
  | GE_S, _ => CMP_I_S w Z.geb st
  | GE_U, _ => CMP_I_U w Z.geb st
  | EQZ, a :: s => Ok (put 32 (if get_s w a =? 0 then 1 else 0) a :: s)
  | _, _ => Fault
  end.

Definition run_int (i : int_instr) (st : stack) : result :=
  match i, st with
  | INT w o, _ => NUM_OPS w o st
  | I32_WRAP_I64, a :: s => Ok (put 32 (get_s 64 a) a :: s)
  | I64_EXTEND_I32_S, a :: s => Ok (put 64 (get_s 32 a) a :: s)
  | I64_EXTEND_I32_U, a :: s => Ok (put 64 (get_u 32 (get_s 32 a)) a :: s)
  | EXTEND_S w m, a :: s => Ok (put w (sgn m (get_s w a)) a :: s)
  | _, _ => Fault
  end.

(** *** Specification

    On unsigned integers of [w] bits; [None] is a trap. *)
Definition ishl (w : nat) (a k : Z) : Z := of_bits w (fun i => if i <? k then false else Z.testbit a (i - k)).
Definition ishr_u (w : nat) (a k : Z) : Z := of_bits w (fun i => if i + k <? Z.of_nat w then Z.testbit a (i + k) else false).
Definition ishr_s (w : nat) (a k : Z) : Z :=
  of_bits w (fun i => Z.testbit a (if i + k <? Z.of_nat w then i + k else Z.of_nat w - 1)).
Definition ibit (w : nat) (f : bool -> bool -> bool) (a b : Z) : Z := of_bits w (fun i => f (Z.testbit a i) (Z.testbit b i)).
(** The integer that stands for [x], signed or not, modulo [2 ^ w]. *)
Definition wrapped (w x : Z) : Z := x mod 2 ^ w.
Definition binary (o : int_op) : bool := match o with CLZ | CTZ | POPCNT | EQZ => false | _ => true end.
Definition test (o : int_op) : bool :=
  match o with EQ | NE | LT_S | LT_U | GT_S | GT_U | LE_S | LE_U | GE_S | GE_U | EQZ => true | _ => false end.
Definition spec_int (w : nat) (o : int_op) (a b : Z) : option Z :=
  let n := Z.of_nat w in
  let sa := sgn n a in
  let sb := sgn n b in
  match o with
  | CLZ => Some (iclz w a)
  | CTZ => Some (ictz w a)
  | POPCNT => Some (ipopcnt w a)
  | ADD => Some (wrapped n (a + b))
  | SUB => Some (wrapped n (a - b))
  | MUL => Some (wrapped n (a * b))
  | DIV_S => if (b =? 0) || (Z.quot sa sb =? 2 ^ (n - 1)) then None else Some (wrapped n (Z.quot sa sb))
  | DIV_U => if b =? 0 then None else Some (a / b)
  | REM_S => if b =? 0 then None else Some (wrapped n (Z.rem sa sb))
  | REM_U => if b =? 0 then None else Some (a mod b)
  | AND => Some (ibit w andb a b)
  | OR => Some (ibit w orb a b)
  | XOR => Some (ibit w xorb a b)
  | SHL => Some (ishl w a (b mod n))
  | SHR_S => Some (ishr_s w a (b mod n))
  | SHR_U => Some (ishr_u w a (b mod n))
  | ROTL => Some (irotl w a b)
  | ROTR => Some (irotr w a b)
  | EQ => Some (b2z (a =? b))
  | NE => Some (b2z (negb (a =? b)))
  | LT_S => Some (b2z (sa <? sb))
  | LT_U => Some (b2z (a <? b))
  | GT_S => Some (b2z (sb <? sa))
  | GT_U => Some (b2z (b <? a))
  | LE_S => Some (b2z (sa <=? sb))
  | LE_U => Some (b2z (a <=? b))
  | GE_S => Some (b2z (sb <=? sa))
  | GE_U => Some (b2z (b <=? a))
  | EQZ => Some (b2z (a =? 0))
  end.

(** ** Theorems *)

Lemma put_get w x v : 0 <= w -> get_u w (put w x v) = x mod 2 ^ w.
Proof. intros Hw. unfold get_u, put. rewrite Z.add_comm, Z.mod_add by lia. apply Z.mod_mod. lia. Qed.
Lemma put_rest w x v : 0 <= w -> put w x v / 2 ^ w = v / 2 ^ w.
Proof. intros Hw. unfold put. rewrite Z.add_comm, Z.div_add by lia. rewrite Z.div_small by (apply Z.mod_pos_bound; lia). lia. Qed.
Lemma get_u_range w v : 0 <= w -> 0 <= get_u w v < 2 ^ w.
Proof. intros Hw. apply Z.mod_pos_bound. lia. Qed.
Lemma sgn_get_u w v : 0 <= w -> sgn w (get_u w v) = get_s w v.
Proof. intros Hw. unfold sgn, get_u, get_s, sgn. by rewrite Z.mod_mod by lia. Qed.
Lemma sgn_inj w a b : 0 < w -> get_s w a = get_s w b <-> get_u w a = get_u w b.
Proof.
  intros Hw. unfold get_u. split; intros H.
  - rewrite <- (sgn_mod w a), <- (sgn_mod w b) by done. unfold get_s in H. by rewrite H.
  - unfold get_s, sgn. by rewrite H.
Qed.
Lemma get_s_zero w a : 0 < w -> get_s w a = 0 <-> get_u w a = 0.
Proof.
  intros Hw. assert (get_s w 0 = 0) as E0.
  { unfold get_s, sgn. rewrite Z.mod_0_l by lia. destruct (Z.ltb_spec 0 (2 ^ (w - 1))); [done|]. lia. }
  rewrite <- E0 at 1. rewrite sgn_inj by lia. unfold get_u. by rewrite Z.mod_0_l by lia.
Qed.

(** What a handler that stores [r] to the member of [w] bits of the slot [a] leaves. *)
Definition leaves (w r a : Z) (s : stack) (res : result) : Prop :=
  exists v, res = Ok (v :: s) /\ get_u w v = r /\ v / 2 ^ w = a / 2 ^ w.
Lemma leaves_put w r x a s : 0 <= w -> x mod 2 ^ w = r -> leaves w r a s (Ok (put w x a :: s)).
Proof. intros Hw E. exists (put w x a). rewrite put_get, put_rest by done. auto. Qed.
Lemma leaves_flag (c : bool) a s r : r = b2z c -> leaves 32 r a s (Ok (put 32 (if c then 1 else 0) a :: s)).
Proof. intros ->. apply leaves_put; [lia|]. by destruct c. Qed.
Lemma leaves_small w x a s r : 0 <= w -> 0 <= x < 2 ^ w -> x = r -> leaves w r a s (Ok (put w x a :: s)).
Proof. intros Hw Hx <-. apply leaves_put; [done|]. by apply Z.mod_small. Qed.

Lemma quot_range w a b : 0 < w -> - 2 ^ (w - 1) <= a < 2 ^ (w - 1) -> b <> 0 ->
  - 2 ^ (w - 1) <= Z.quot a b <= 2 ^ (w - 1) /\ (Z.quot a b = 2 ^ (w - 1) <-> a = int_min w /\ b = -1).
Proof.
  intros Hw Ha Hb. unfold int_min. set (h := 2 ^ (w - 1)) in *. assert (0 < h) by (unfold h; lia).
  pose proof (Z.quot_rem' a b) as E. set (q := Z.quot a b) in *. set (r := Z.rem a b) in *.
  destruct (decide (b = 1)) as [->|]; [unfold r in E; rewrite Z.rem_1_r in E; lia|].
  destruct (decide (b = -1)) as [->|].
  - assert (r = 0) by (unfold r; change (-1) with (- (1)); by rewrite Z.rem_opp_r, Z.rem_1_r by lia). lia.
  - assert (Z.abs q * 2 <= Z.abs a); [|lia].
    assert (Z.abs a = Z.abs b * Z.abs q + Z.abs r) as Ea.
    { unfold q, r. rewrite <- Z.quot_abs, <- Z.rem_abs by done. apply Z.quot_rem'. }
    nia.
Qed.

Lemma mod_bits w f x : (forall i, 0 <= i < Z.of_nat w -> Z.testbit x i = f i) -> x mod 2 ^ Z.of_nat w = of_bits w f.
Proof. intros H. apply of_bits_unique; [apply Z.mod_pos_bound; lia|]. intros i Hi. rewrite Z.mod_pow2_bits_low by lia. by apply H. Qed.
Lemma get_u_bits w v i : 0 <= i < w -> Z.testbit (get_u w v) i = Z.testbit v i.
Proof. intros Hi. apply Z.mod_pow2_bits_low. lia. Qed.
Lemma sgn_bits w x i : 0 < w -> 0 <= i -> Z.testbit (sgn w x) i = Z.testbit x (if i <? w then i else w - 1).
Proof.
  intros Hw Hi. destruct (Z.ltb_spec i w).
  { rewrite <- (Z.mod_pow2_bits_low (sgn w x) w) by lia. rewrite sgn_mod by lia. apply Z.mod_pow2_bits_low. lia. }
  rewrite <- (Z.mod_pow2_bits_low x w (w - 1)) by lia. unfold sgn. set (y := x mod 2 ^ w).
  assert (0 <= y < 2 ^ w) as Hy by (apply Z.mod_pos_bound; lia).
  assert (2 ^ w = 2 ^ (w - 1) * 2) as E2 by (rewrite Z.mul_comm, <- Z.pow_succ_r by lia; f_equal; lia).
  destruct (Z.ltb_spec y (2 ^ (w - 1))); [by rewrite (testbit_above w), (testbit_above (w - 1)) by lia|].
  rewrite <- (Z.add_0_l (w - 1)) at 1. rewrite <- Z.div_pow2_bits by lia.
  replace (y / 2 ^ (w - 1)) with 1 by (apply Z.div_unique with (y - 2 ^ (w - 1)); lia).
  replace (y - 2 ^ w) with (y + (-1) * 2 ^ w) by lia. rewrite testbit_low_high by lia.
  destruct (Z.ltb_spec i w); [lia|]. apply Z.bits_m1. lia.
Qed.
Lemma shift_count w b : w = 32 \/ w = 64 -> Z.land (get_s w b) (w - 1) = get_u w b mod w.
Proof.
  intros [-> | ->]; unfold get_s, get_u.
  - change (32 - 1) with (Z.ones 5). rewrite Z.land_ones by lia. change (2 ^ 5) with 32.
    rewrite <- (Z.mod_mod_divide (sgn 32 b) (2 ^ 32)) by (exists (2 ^ 27); done). by rewrite sgn_mod.
  - change (64 - 1) with (Z.ones 6). rewrite Z.land_ones by lia. change (2 ^ 6) with 64.
    rewrite <- (Z.mod_mod_divide (sgn 64 b) (2 ^ 64)) by (exists (2 ^ 58); done). by rewrite sgn_mod.
Qed.

Definition ok_width (n : nat) : Prop := n = 32%nat \/ n = 64%nat.
Section Width.
Context (n : nat) (Hn : ok_width n).
Notation w := (Z.of_nat n).
Implicit Types (a b : Z) (s : stack).

Lemma width_cases : w = 32 \/ w = 64.
Proof. destruct Hn as [-> | ->]; auto. Qed.
Lemma width_pos : 0 < w.
Proof. destruct width_cases as [-> | ->]; lia. Qed.
#[local] Hint Resolve width_pos : core.
Lemma width_nonneg : 0 <= w.
Proof. pose proof width_pos. lia. Qed.
#[local] Hint Resolve width_nonneg : core.

Lemma leaves_bits x a s f : (forall i, 0 <= i < w -> Z.testbit x i = f i) -> leaves w (of_bits n f) a s (Ok (put w x a :: s)).
Proof. intros H. apply leaves_put; [done|]. by apply mod_bits. Qed.

(** A handler does what the specification says, of one operand or two. *)
Definition does (o : int_op) (r : option Z) (a : Z) (s : stack) (res : result) : Prop :=
  match r with
  | Some r => leaves (if test o then 32 else w) r a s res
  | None => res = Err WAH_ERROR_TRAP
  end.

Lemma count_ok c a s : 0 <= c <= w -> leaves w c a s (Ok (put w c a :: s)).
Proof.
  intros Hc. apply leaves_put; [done|]. apply Z.mod_small. destruct width_cases as [E|E]; rewrite E in *; lia.
Qed.
Lemma by_width_clz x : 0 <= x < 2 ^ w -> by_width w wah_clz_u32 wah_clz_u64 x = iclz n x.
Proof. destruct Hn as [-> | ->]; [apply wah_clz_u32_spec|apply wah_clz_u64_spec]. Qed.
Lemma by_width_ctz x : 0 <= x < 2 ^ w -> by_width w wah_ctz_u32 wah_ctz_u64 x = Some (ictz n x).
Proof. destruct Hn as [-> | ->]; [apply wah_ctz_u32_spec|apply wah_ctz_u64_spec]. Qed.
Lemma by_width_popcnt x : 0 <= x < 2 ^ w -> by_width w wah_popcount_u32 wah_popcount_u64 x = ipopcnt n x.
Proof. destruct Hn as [-> | ->]; [apply wah_popcount_u32_spec|apply wah_popcount_u64_spec]. Qed.
Lemma by_width_rotl x k : 0 <= x < 2 ^ w -> by_width w wah_rotl_u32 wah_rotl_u64 x k = irotl n x k.
Proof. destruct Hn as [-> | ->]; [apply wah_rotl_u32_spec|apply wah_rotl_u64_spec]. Qed.
Lemma by_width_rotr x k : 0 <= x < 2 ^ w -> by_width w wah_rotr_u32 wah_rotr_u64 x k = irotr n x k.
Proof. destruct Hn as [-> | ->]; [apply wah_rotr_u32_spec|apply wah_rotr_u64_spec]. Qed.
Lemma counts_ok o a b s : o = CLZ \/ o = CTZ \/ o = POPCNT -> does o (spec_int n o (get_u w a) b) a s (NUM_OPS w o (a :: s)).
Proof.
  intros Ho. pose proof (get_u_range w a width_nonneg) as Ha.
  pose proof (iclz_range n (get_u w a)) as R1. pose proof (ictz_range n (get_u w a)) as R2. pose proof (ipopcnt_range n (get_u w a)) as R3.
  destruct Ho as [-> | [-> | ->]]; unfold does, spec_int, NUM_OPS, UNOP_I_FN, test;
    [pose proof (count_ok _ a s R1) as H|pose proof (count_ok _ a s R2) as H|pose proof (count_ok _ a s R3) as H]; revert H; clear R1 R2 R3.
  - rewrite by_width_clz by done. auto.
  - rewrite by_width_ctz by done. auto.
  - rewrite by_width_popcnt by done. auto.
Qed.

Lemma arith_ok o a b s : o = ADD \/ o = SUB \/ o = MUL -> does o (spec_int n o (get_u w a) (get_u w b)) a s (NUM_OPS w o (b :: a :: s)).
Proof. intros [-> | [-> | ->]]; by apply leaves_put. Qed.
Lemma bitwise_ok o a b s : o = AND \/ o = OR \/ o = XOR -> does o (spec_int n o (get_u w a) (get_u w b)) a s (NUM_OPS w o (b :: a :: s)).
Proof.
  intros [-> | [-> | ->]]; apply leaves_bits; intros i Hi; [apply Z.land_spec|apply Z.lor_spec|apply Z.lxor_spec].
Qed.
Lemma shift_ok o a b s : o = SHL \/ o = SHR_S \/ o = SHR_U -> does o (spec_int n o (get_u w a) (get_u w b)) a s (NUM_OPS w o (b :: a :: s)).
Proof.
  pose proof (Z.mod_pos_bound (get_u w b) w width_pos).
  intros [-> | [-> | ->]]; simpl; rewrite (shift_count _ _ width_cases); apply leaves_bits; intros i Hi.
  - rewrite Z.shiftl_spec by lia. destruct (Z.ltb_spec i (get_u w b mod w)); [apply Z.testbit_neg_r; lia|done].
  - rewrite Z.shiftr_spec by lia. unfold get_s. rewrite sgn_bits by lia.
    destruct (Z.ltb_spec (i + get_u w b mod w) w); symmetry; apply get_u_bits; lia.
  - rewrite Z.shiftr_spec by lia. destruct (Z.ltb_spec (i + get_u w b mod w) w); [done|].
    apply (testbit_above w); [by apply get_u_range|lia].
Qed.
Lemma rotate_ok o a b s : o = ROTL \/ o = ROTR -> does o (spec_int n o (get_u w a) (get_u w b)) a s (NUM_OPS w o (b :: a :: s)).
Proof.
  intros Ho. pose proof (get_u_range w a width_nonneg) as Ha.
  assert (R : forall f, leaves w (of_bits n f) a s (Ok (put w (of_bits n f) a :: s))).
  { intros f. apply leaves_put; [done|]. apply Z.mod_small, of_bits_range. }
  destruct Ho as [-> | ->]; unfold does, spec_int, NUM_OPS, BINOP_I, test;
    [rewrite by_width_rotl by done|rewrite by_width_rotr by done]; apply R.
Qed.

Lemma signed_u v : sgn w (get_u w v) = get_s w v.
Proof. by apply sgn_get_u. Qed.
Lemma zero_test v : (get_s w v =? 0) = (get_u w v =? 0).
Proof. pose proof (get_s_zero w v width_pos). destruct (Z.eqb_spec (get_s w v) 0), (Z.eqb_spec (get_u w v) 0); tauto. Qed.
Lemma compare_ok o a b s : test o = true -> binary o = true -> does o (spec_int n o (get_u w a) (get_u w b)) a s (NUM_OPS w o (b :: a :: s)).
Proof.
  assert (Heq : (get_s w a =? get_s w b) = (get_u w a =? get_u w b)).
  { pose proof (sgn_inj w a b width_pos). destruct (Z.eqb_spec (get_s w a) (get_s w b)), (Z.eqb_spec (get_u w a) (get_u w b)); tauto. }
  destruct o; try done; intros _ _; simpl; rewrite ?signed_u; apply leaves_flag; rewrite ?Heq, ?Z.gtb_ltb, ?Z.geb_leb; done.
Qed.
Lemma eqz_ok a b s : does EQZ (spec_int n EQZ (get_u w a) b) a s (NUM_OPS w EQZ (a :: s)).
Proof. apply leaves_flag. by rewrite zero_test. Qed.

Lemma division_ok o a b s : o = DIV_S \/ o = DIV_U \/ o = REM_S \/ o = REM_U ->
  does o (spec_int n o (get_u w a) (get_u w b)) a s (NUM_OPS w o (b :: a :: s)).
Proof.
  intros Ho. pose proof (get_u_range w a width_nonneg) as Ha. pose proof (get_u_range w b width_nonneg) as Hb.
  pose proof (sgn_range w a width_pos) as Hsa. fold (get_s w a) in Hsa.
  destruct Ho as [-> | [-> | [-> | ->]]]; unfold does, spec_int, NUM_OPS, trap_unless, test; rewrite ?signed_u, zero_test;
    destruct (Z.eqb_spec (get_u w b) 0) as [|Hnz]; simpl negb; cbv iota; simpl orb; cbv iota; try done.
  - assert (get_s w b <> 0) as Hsb by (rewrite get_s_zero by done; done).
    destruct (quot_range w _ _ width_pos Hsa Hsb) as [Hq Hmin]. unfold c_div, c_defined.
    destruct (Z.eqb_spec (Z.quot (get_s w a) (get_s w b)) (2 ^ (w - 1))) as [E|E].
    + apply Hmin in E as [-> ->]. by rewrite !Z.eqb_refl.
    + replace (negb (get_s w a =? int_min w) || negb (get_s w b =? -1)) with true.
      2:{ symmetry. rewrite <- negb_andb, negb_true_iff, andb_false_iff, !Z.eqb_neq. destruct (decide (get_s w a = int_min w)); tauto. }
      rewrite (proj2 (Z.eqb_neq _ _) Hsb), (proj2 (Z.ltb_lt _ _)) by lia. by apply leaves_put.
  - unfold c_udiv. rewrite (proj2 (Z.eqb_neq _ _) Hnz). apply leaves_put; [done|]. apply Z.mod_small.
    split; [apply Z.div_pos; lia|]. apply Z.div_lt_upper_bound; [lia|]. nia.
  - assert (get_s w b <> 0) as Hsb by (rewrite get_s_zero by done; done).
    destruct (quot_range w _ _ width_pos Hsa Hsb) as [Hq Hmin]. unfold c_rem, c_defined.
    destruct ((get_s w a =? int_min w) && (get_s w b =? -1)) eqn:E.
    + apply andb_true_iff in E as [_ ->%Z.eqb_eq]. apply leaves_put; [done|]. unfold wrapped.
      change (-1) with (- (1)). by rewrite Z.rem_opp_r, Z.rem_1_r by lia.
    + apply andb_false_iff in E. rewrite !Z.eqb_neq in E.
      rewrite (proj2 (Z.eqb_neq _ _) Hsb), (proj2 (Z.ltb_lt _ _)) by (destruct (decide (Z.quot (get_s w a) (get_s w b) = 2 ^ (w - 1))); [tauto|lia]).
      by apply leaves_put.
  - unfold c_urem. rewrite (proj2 (Z.eqb_neq _ _) Hnz). apply leaves_put; [done|]. apply Z.mod_small.
    pose proof (Z.mod_pos_bound (get_u w a) (get_u w b)). lia.
Qed.
End Width.

Lemma sgn_of_get m w v : 0 < m <= w -> sgn m (get_s w v) = sgn m (get_u w v).
Proof.
  intros Hm. assert (E : forall x, sgn m x = sgn m (x mod 2 ^ w)).
  { intros x. unfold sgn. rewrite Z.mod_mod_divide; [done|]. exists (2 ^ (w - m)). rewrite <- Z.pow_add_r by lia. f_equal. lia. }
  rewrite (E (get_s w v)), (E (get_u w v)). unfold get_s, get_u. rewrite sgn_mod by lia. by rewrite Z.mod_mod by lia.
Qed.

(** Every instruction, with its operands on top of the stack. *)
Lemma run_int_does n o a b s : ok_width n ->
  let w := Z.of_nat n in
  does n o (spec_int n o (get_u w a) (get_u w b)) a s (run_int (INT w o) (if binary o then b :: a :: s else a :: s)) /\
  leaves 32 (get_u 64 a mod 2 ^ 32) a s (run_int I32_WRAP_I64 (a :: s)) /\
  leaves 64 (wrapped 64 (sgn 32 (get_u 32 a))) a s (run_int I64_EXTEND_I32_S (a :: s)) /\
  leaves 64 (get_u 32 a) a s (run_int I64_EXTEND_I32_U (a :: s)) /\
  (forall m, 0 < m < w -> leaves w (wrapped w (sgn m (get_u w a))) a s (run_int (EXTEND_S w m) (a :: s))).
Proof.
  intros Hn w. split; [|split; [|split; [|split]]].
  - destruct o; cbn [binary run_int];
      (apply (counts_ok n Hn); tauto) || (apply (arith_ok n Hn); tauto) || (apply (bitwise_ok n Hn); tauto) || (apply (shift_ok n Hn); tauto) ||
      (apply (rotate_ok n Hn); tauto) || (apply (division_ok n Hn); tauto) || (by apply (compare_ok n Hn)) || apply (eqz_ok n Hn).
  - apply leaves_put; [lia|]. unfold get_s, get_u. rewrite <- (Z.mod_mod_divide (sgn 64 a) (2 ^ 64)) by (by exists (2 ^ 32)).
    by rewrite sgn_mod by lia.
  - apply leaves_put; [lia|]. unfold wrapped. by rewrite sgn_get_u by lia.
  - apply leaves_small; [lia| |].
    + pose proof (get_u_range 32 (get_s 32 a)). lia.
    + unfold get_u, get_s. by rewrite sgn_mod by lia.
  - intros m Hm. apply leaves_put; [lia|]. unfold wrapped. by rewrite sgn_of_get by lia.
Qed.

(** C25. The handlers of the integer instructions compute the functions of the specification:
    with its operands on the stack, an instruction of 32 or 64 bits leaves in the member of
    its result exactly the integer that the function gives, bit by bit for shifts, rotations
    and counts, touches nothing else of the stack, and traps exactly when the function is
    undefined, at a division by zero and a signed quotient that does not fit; so do the
    conversions between integers, which never trap. *)
Theorem run_int_exact n o a b s : ok_width n ->
  let w := Z.of_nat n in
  does n o (spec_int n o (get_u w a) (get_u w b)) a s (run_int (INT w o) (if binary o then b :: a :: s else a :: s)) /\
  leaves 32 (get_u 64 a mod 2 ^ 32) a s (run_int I32_WRAP_I64 (a :: s)) /\
  leaves 64 (wrapped 64 (sgn 32 (get_u 32 a))) a s (run_int I64_EXTEND_I32_S (a :: s)) /\
  leaves 64 (get_u 32 a) a s (run_int I64_EXTEND_I32_U (a :: s)) /\
  (forall m, 0 < m < w -> leaves w (wrapped w (sgn m (get_u w a))) a s (run_int (EXTEND_S w m) (a :: s))).
Proof. apply run_int_does. Qed.
Lemma run_int_exact_witness :
  run_int (INT 32 DIV_S) [4294967295; 2147483648; 7] = Err WAH_ERROR_TRAP /\
  run_int (INT 32 REM_S) [4294967295; 2147483648; 7] = Ok [0; 7] /\
  run_int (INT 64 ROTL) [65; 9223372036854775809] = Ok [3] /\
  does 32 DIV_S None 2147483648 [7] (run_int (INT 32 DIV_S) [4294967295; 2147483648; 7]).
Proof.
  split; [vm_compute; reflexivity|]. split; [vm_compute; reflexivity|]. split; [vm_compute; reflexivity|].
  change None with (spec_int 32 DIV_S (get_u (Z.of_nat 32) 2147483648) (get_u (Z.of_nat 32) 4294967295)).
  apply (run_int_exact 32 DIV_S 2147483648 4294967295 [7]). by left.
Defined.
