(* ===== verification/Interp.v ===== *)
(** * Handlers of lowered code

    The handlers of the interpreter for lowered code over an interface of frames and
    operands: control flow, calls in a module, exceptions, metering and polls, constants,
    locals, globals, integers, i31 references, and accesses to memories.  What a handler does to
    [sp[-1]] in place is a pop and a push here.  [Stack.v] implements the
    interface the way the program does and [Activation.v] the way the specification does. *)

From S2P Require Import Prelude Base Alloc Types Bytes Decode Opcodes Lowering IntOps Numeric.
From stdpp Require Import list.
#[local] Open Scope Z_scope.
#[local] Open Scope wah_scope.

(** ** Definitions *)

(** A function of a module without imports, as lowered: [fc_slots] is [max_frame_slots]. *)
Record fcode := FCode {
  fc_bytecode : list Z; fc_params : Z; fc_results : Z; fc_locals : Z; fc_slots : Z }.
(** Tags have an identity and a number of parameters.  The sizes are those of the stack
    buffer, a call frame and an exception handler, in bytes. *)
Record prog := Prog {
  p_functions : list fcode; p_tags : list (Z * Z); p_metered : bool;
  p_stack_bytes : Z; p_frame_bytes : Z; p_handler_bytes : Z }.

(** What a context has besides its stack.  The exceptions thrown so far are an identity and
    values each; a reference to one is its index plus 1.  [en_allocs] are the answers of
    allocations to come, [en_polls] how the handler of each POLL to come returns, and
    [en_interrupts] what TICKs see of [interrupt_flag]. *)
Record env (V : Type) := Env {
  en_globals : list V; en_memories : list (list Z); en_fuel : Z; en_exns : list (Z * list V); en_handlers_cap : Z;
  en_allocs : answers; en_polls : list (option wah_error_t); en_interrupts : list bool }.
Arguments Env {V} _ _ _ _ _ _ _ _.
Arguments en_globals {V} _.
Arguments en_memories {V} _.
Arguments en_fuel {V} _.
Arguments en_exns {V} _.
Arguments en_handlers_cap {V} _.
Arguments en_allocs {V} _.
Arguments en_polls {V} _.
Arguments en_interrupts {V} _.
Section Env.
Context {V : Type}.
Implicit Types n : env V.
Definition put_globals g n := Env g (en_memories n) (en_fuel n) (en_exns n) (en_handlers_cap n) (en_allocs n) (en_polls n) (en_interrupts n).
Definition set_memories m n := Env (en_globals n) m (en_fuel n) (en_exns n) (en_handlers_cap n) (en_allocs n) (en_polls n) (en_interrupts n).
Definition set_fuel f n := Env (en_globals n) (en_memories n) f (en_exns n) (en_handlers_cap n) (en_allocs n) (en_polls n) (en_interrupts n).
Definition set_exns x n := Env (en_globals n) (en_memories n) (en_fuel n) x (en_handlers_cap n) (en_allocs n) (en_polls n) (en_interrupts n).
Definition set_handlers_cap c n := Env (en_globals n) (en_memories n) (en_fuel n) (en_exns n) c (en_allocs n) (en_polls n) (en_interrupts n).
Definition set_allocs a n := Env (en_globals n) (en_memories n) (en_fuel n) (en_exns n) (en_handlers_cap n) a (en_polls n) (en_interrupts n).
Definition set_polls p n := Env (en_globals n) (en_memories n) (en_fuel n) (en_exns n) (en_handlers_cap n) (en_allocs n) p (en_interrupts n).
Definition set_interrupts i n := Env (en_globals n) (en_memories n) (en_fuel n) (en_exns n) (en_handlers_cap n) (en_allocs n) (en_polls n) i.
End Env.

(** The stack of a context with state [S] and values [V]: the current function and place in
    its bytecode, operands as whole slots or members of some bits, locals, and the calls
    and handlers.  Operations that change frames return whether one is left. *)
Class Machine (S V : Type) := {
  env_of : S -> env V;
  with_env : env V -> S -> S;
  current : comp S fcode;
  get_ip : comp S Z;
  set_ip : Z -> comp S unit;
  push : V -> comp S unit;
  push_member : Z -> Z -> comp S unit;
  pop : comp S V;
  member : Z -> V -> comp S Z;
  int_op : int_instr -> comp S unit;
  get_local : Z -> comp S V;
  set_local : Z -> V -> comp S unit;
  drop_keep : Z -> Z -> comp S unit;
  pop_values : Z -> comp S (list V);
  call : fcode -> Z -> comp S bool;
  tail_call : fcode -> Z -> comp S bool;
  return_frame : comp S bool;
  try_table : Z -> comp S unit;
  end_try_table : comp S unit;
  trim_handlers : Z -> comp S unit;
  throw : Z -> Z * list V -> comp S bool }.

Section Handlers.
Context {S V : Type} {M : Machine S V} (P : prog).

Definition get_env {A} (f : env V -> A) : comp S A := fun s => (Ok (f (env_of s)), s).
Definition on_env (f : env V -> env V) : comp S unit := fun s => (Ok tt, with_env (f (env_of s)) s).
Definition lift {A} (m : outcome wah_error_t A) : comp S A := fun s => (m, s).
Definition next : comp S bool := stm_ret true.

(** Reading at [bytecode_ip]. *)
Definition fetch (size : Z) (read : list Z -> Z -> option Z) : comp S Z :=
  f <- current ;;
  ip <- get_ip ;;
  v <- stm_opt (read (fc_bytecode f) ip) ;;
  set_ip (ip + size) ;;; stm_ret v.
Definition u16_imm : comp S Z := fetch 2 wah_read_u16_le.
Definition u32_imm : comp S Z := fetch 4 wah_read_u32_le.
Definition u64_imm : comp S Z := fetch 8 wah_read_u64_le.
Definition pop_i32 : comp S Z := v <- pop ;; member 32 v.
Definition pop_ref : comp S Z := v <- pop ;; member 64 v.

(** *** Control *)

Definition run_POLL : comp S bool :=
  u32_imm ;;;
  polls <- get_env en_polls ;;
  match polls with
  | [] => next
  | p :: ps => on_env (set_polls ps) ;;; match p with Some e => stm_err e | None => next end
  end.
Definition charge (cost : Z) : comp S Z :=
  fuel <- get_env en_fuel ;; on_env (set_fuel (fuel - cost)) ;;; stm_ret (fuel - cost).
Definition run_METER : comp S bool :=
  cost <- u16_imm ;;
  slow_offset <- u32_imm ;;
  fuel <- charge cost ;;
  if fuel <? 0 then on_env (set_fuel (fuel + cost)) ;;; set_ip slow_offset ;;; next else next.
Definition tick_interrupt : comp S bool :=
  flags <- get_env en_interrupts ;;
  match flags with [] => stm_ret false | i :: rest => on_env (set_interrupts rest) ;;; stm_ret i end.
Definition run_TICK : comp S bool :=
  ip <- get_ip ;;
  let tick_ip := ip - 2 in
  u32_imm ;;;
  fuel <- charge 1 ;;
  if fuel <? 0 then set_ip tick_ip ;;; stm_err WAH_STATUS_FUEL_EXHAUSTED
  else
    i <- tick_interrupt ;;
    if (i : bool) then on_env (set_fuel (fuel + 1)) ;;; set_ip tick_ip ;;; stm_err WAH_STATUS_YIELDED else next.
Definition run_IF : comp S bool :=
  offset <- u32_imm ;;
  c <- pop_i32 ;;
  if c =? 0 then set_ip offset ;;; next else next.
Definition run_ELSE : comp S bool := offset <- u32_imm ;; set_ip offset ;;; next.
Definition branch_to (offset keep drop : Z) : comp S bool := drop_keep keep drop ;;; set_ip offset ;;; next.
Definition run_BR : comp S bool :=
  offset <- u32_imm ;; keep <- u32_imm ;; drop <- u32_imm ;; branch_to offset keep drop.
Definition run_BR_IF : comp S bool :=
  offset <- u32_imm ;; keep <- u32_imm ;; drop <- u32_imm ;;
  c <- pop_i32 ;;
  if negb (c =? 0) then branch_to offset keep drop else next.
Definition run_BR_TABLE : comp S bool :=
  index <- pop_i32 ;;
  num_targets <- u32_imm ;;
  keep <- u32_imm ;;
  let target_idx := if index <? num_targets then index else num_targets in
  f <- current ;;
  ip <- get_ip ;;
  record <- stm_opt (wah_read_u16_le (fc_bytecode f) (ip + target_idx * 2)) ;;
  let record_ip := ip + (num_targets + 1) * 2 + record * 2 * 4 in
  target_offset <- stm_opt (wah_read_u32_le (fc_bytecode f) record_ip) ;;
  drop <- stm_opt (wah_read_u32_le (fc_bytecode f) (record_ip + 4)) ;;
  branch_to target_offset keep drop.
Definition run_BR_ON_NULL : comp S bool :=
  offset <- u32_imm ;; keep <- u32_imm ;; drop <- u32_imm ;;
  v <- pop ;;
  r <- member 64 v ;;
  if r =? 0 then branch_to offset keep drop else push v ;;; next.
Definition run_BR_ON_NON_NULL : comp S bool :=
  offset <- u32_imm ;; keep <- u32_imm ;; drop <- u32_imm ;;
  v <- pop ;;
  r <- member 64 v ;;
  if negb (r =? 0) then push v ;;; branch_to offset keep drop else next.
Definition run_UNREACHABLE : comp S bool := stm_err WAH_ERROR_TRAP.

(** *** Exceptions *)

Definition run_TRY_TABLE : comp S bool := count <- u32_imm ;; try_table count ;;; next.
Definition run_END_TRY_TABLE : comp S bool := end_try_table ;;; next.
Definition run_TRIM_HANDLERS : comp S bool := depth <- u32_imm ;; trim_handlers depth ;;; next.
(** [wah_gc_alloc_exception], which gives no exception when memory is short. *)
Definition alloc_exception : comp S unit :=
  a <- get_env en_allocs ;;
  let '(r, a) := alloc_answer a in
  on_env (set_allocs a) ;;; lift r.
Definition add_exception (x : Z * list V) : comp S Z :=
  xs <- get_env en_exns ;;
  on_env (set_exns (xs ++ [x])) ;;; stm_ret (zlen xs + 1).
Definition run_THROW : comp S bool :=
  tag_idx <- u32_imm ;;
  '(identity, value_count) <- stm_opt (zget (p_tags P) tag_idx) ;;
  alloc_exception ;;;
  vs <- pop_values value_count ;;
  ref <- add_exception (identity, vs) ;;
  throw ref (identity, vs).
Definition run_THROW_REF : comp S bool :=
  ref <- pop_ref ;;
  if ref =? 0 then stm_err WAH_ERROR_TRAP
  else
    xs <- get_env en_exns ;;
    x <- stm_opt (zget xs (ref - 1)) ;;
    throw ref x.

(** *** Calls *)

Definition run_CALL : comp S bool :=
  called_func_idx <- u32_imm ;;
  f <- stm_opt (zget (p_functions P) called_func_idx) ;;
  call f called_func_idx.
Definition run_RETURN_CALL : comp S bool :=
  called_func_idx <- u32_imm ;;
  f <- stm_opt (zget (p_functions P) called_func_idx) ;;
  tail_call f called_func_idx.
Definition run_RETURN : comp S bool := return_frame.

(** *** Values *)

Definition run_I32_CONST : comp S bool := v <- u32_imm ;; push_member 32 v ;;; next.
Definition run_I64_CONST : comp S bool := v <- u64_imm ;; push_member 64 v ;;; next.
Definition run_REF_NULL : comp S bool :=
  ip <- get_ip ;; set_ip (ip + 4) ;;; push_member 64 0 ;;; next.
Definition run_REF_IS_NULL : comp S bool :=
  r <- pop_ref ;; push_member 32 (if r =? 0 then 1 else 0) ;;; next.
Definition run_REF_AS_NON_NULL : comp S bool :=
  v <- pop ;; r <- member 64 v ;;
  if r =? 0 then stm_err WAH_ERROR_TRAP else push v ;;; next.
Definition run_DROP : comp S bool := pop ;;; next.
Definition run_SELECT : comp S bool :=
  c <- pop_i32 ;; b <- pop ;; a <- pop ;;
  push (if negb (c =? 0) then a else b) ;;; next.
Definition run_SELECT_T : comp S bool :=
  ip <- get_ip ;; set_ip (ip + 4) ;;; run_SELECT.
Definition run_LOCAL_GET : comp S bool := i <- u32_imm ;; v <- get_local i ;; push v ;;; next.
Definition run_LOCAL_SET : comp S bool := i <- u32_imm ;; v <- pop ;; set_local i v ;;; next.
Definition run_LOCAL_TEE : comp S bool := i <- u32_imm ;; v <- pop ;; push v ;;; set_local i v ;;; next.
Definition run_GLOBAL_GET : comp S bool :=
  i <- u32_imm ;; gs <- get_env en_globals ;; v <- stm_opt (zget gs i) ;; push v ;;; next.
Definition run_GLOBAL_SET : comp S bool :=
  i <- u32_imm ;; v <- pop ;; gs <- get_env en_globals ;;
  gs <- stm_opt (zset gs i v) ;; on_env (put_globals gs) ;;; next.
Definition run_INT (i : int_instr) : comp S bool := int_op i ;;; next.

(** The other handlers on references and on bits. *)
Definition run_REF_EQ : comp S bool := b <- pop_ref ;; a <- pop_ref ;; push_member 32 (if a =? b then 1 else 0) ;;; next.
Definition run_REF_I31 : comp S bool := v <- pop_i32 ;; push_member 64 (wah_ref_make_i31 (s32 v)) ;;; next.
Definition run_I31_GET (get : Z -> Z) : comp S bool :=
  r <- pop_ref ;;
  if r =? 0 then stm_err WAH_ERROR_TRAP else push_member 32 (get r) ;;; next.
(** [REINTERPRET]: the bits of one member are those of the other. *)
Definition REINTERPRET (w : Z) : comp S bool := v <- pop ;; x <- member w v ;; push_member w x ;;; next.

(** *** Memory *)

(** [WAH_SP_ADDR_I32] and [WAH_SP_ADDR_I64]. *)
Definition pop_addr (aw : Z) : comp S Z := v <- pop ;; member aw v.
(** The memory of an instruction, which names it unless it is the first. *)
Definition memidx_imm (mem0 : bool) : comp S Z := if mem0 then stm_ret 0 else u32_imm.
Definition memory_at (memidx : Z) : comp S (list Z) := mems <- get_env en_memories ;; stm_opt (zget mems memidx).
(** The access of [N] bits. *)
Definition read_le (N : Z) : list Z -> Z -> option Z :=
  if N =? 8 then wah_read_u8_le else if N =? 16 then wah_read_u16_le else if N =? 32 then wah_read_u32_le else wah_read_u64_le.
Definition write_le (N : Z) : list Z -> Z -> Z -> option (list Z) :=
  if N =? 8 then wah_write_u8_le else if N =? 16 then wah_write_u16_le else if N =? 32 then wah_write_u32_le else wah_write_u64_le.
(** Into the member of [w] bits, sign-extended or not, at an address of [aw] bits. *)
Definition LOAD_OP (mem0 : bool) (aw N w : Z) (signed : bool) : comp S bool :=
  memidx <- memidx_imm mem0 ;;
  offset <- u64_imm ;;
  addr <- pop_addr aw ;;
  mem <- memory_at memidx ;;
  effective_addr <- lift (wah_check_effective_addr addr offset (N / 8) (zlen mem)) ;;
  v <- stm_opt (read_le N mem effective_addr) ;;
  push_member w (if signed then sgn N v else v) ;;; next.
Definition STORE_OP (mem0 : bool) (aw N w : Z) : comp S bool :=
  memidx <- memidx_imm mem0 ;;
  offset <- u64_imm ;;
  sv <- pop ;;
  val <- member w sv ;;
  addr <- pop_addr aw ;;
  mem <- memory_at memidx ;;
  effective_addr <- lift (wah_check_effective_addr addr offset (N / 8) (zlen mem)) ;;
  mem <- stm_opt (write_le N mem effective_addr (val mod 2 ^ N)) ;;
  mems <- get_env en_memories ;;
  mems <- stm_opt (zset mems memidx mem) ;;
  on_env (set_memories mems) ;;; next.
Definition WAH_WASM_PAGE_SIZE : Z := 65536.
Definition WAH_MEMORY_SIZE_IMPL (N : Z) : comp S bool :=
  mem_idx <- u32_imm ;;
  mem <- memory_at mem_idx ;;
  push_member N (zlen mem / WAH_WASM_PAGE_SIZE) ;;; next.

(** *** Dispatch *)

Definition suffixed (op : wah_op) (sfx : wah_op_suffix) : Z := default (-1) (xop_value op sfx).
Definition control_handlers : list (Z * comp S bool) :=
  [(iop_value WAH_IOP_POLL, run_POLL); (iop_value WAH_IOP_METER, run_METER); (iop_value WAH_IOP_TICK, run_TICK);
   (wah_op_value WAH_OP_IF, run_IF); (wah_op_value WAH_OP_ELSE, run_ELSE);
   (wah_op_value WAH_OP_BR, run_BR); (wah_op_value WAH_OP_BR_IF, run_BR_IF); (wah_op_value WAH_OP_BR_TABLE, run_BR_TABLE);
   (wah_op_value WAH_OP_BR_ON_NULL, run_BR_ON_NULL); (wah_op_value WAH_OP_BR_ON_NON_NULL, run_BR_ON_NON_NULL);
   (wah_op_value WAH_OP_UNREACHABLE, run_UNREACHABLE);
   (wah_op_value WAH_OP_TRY_TABLE, run_TRY_TABLE); (iop_value WAH_IOP_END_TRY_TABLE, run_END_TRY_TABLE);
   (iop_value WAH_IOP_TRIM_HANDLERS, run_TRIM_HANDLERS);
   (wah_op_value WAH_OP_THROW, run_THROW); (wah_op_value WAH_OP_THROW_REF, run_THROW_REF);
   (wah_op_value WAH_OP_CALL, run_CALL); (wah_op_value WAH_OP_RETURN_CALL, run_RETURN_CALL);
   (wah_op_value WAH_OP_RETURN, run_RETURN); (wah_op_value WAH_OP_END, run_RETURN)].
Definition value_handlers : list (Z * comp S bool) :=
  [(wah_op_value WAH_OP_I32_CONST, run_I32_CONST); (wah_op_value WAH_OP_I64_CONST, run_I64_CONST);
   (wah_op_value WAH_OP_F32_CONST, run_I32_CONST); (wah_op_value WAH_OP_F64_CONST, run_I64_CONST);
   (wah_op_value WAH_OP_REF_NULL, run_REF_NULL); (wah_op_value WAH_OP_REF_IS_NULL, run_REF_IS_NULL);
   (wah_op_value WAH_OP_REF_AS_NON_NULL, run_REF_AS_NON_NULL); (wah_op_value WAH_OP_REF_EQ, run_REF_EQ);
   (wah_op_value WAH_OP_REF_I31, run_REF_I31);
   (wah_op_value WAH_OP_I31_GET_S, run_I31_GET wah_ref_i31_get_s); (wah_op_value WAH_OP_I31_GET_U, run_I31_GET wah_ref_i31_get_u);
   (wah_op_value WAH_OP_I32_REINTERPRET_F32, REINTERPRET 32); (wah_op_value WAH_OP_I64_REINTERPRET_F64, REINTERPRET 64);
   (wah_op_value WAH_OP_F32_REINTERPRET_I32, REINTERPRET 32); (wah_op_value WAH_OP_F64_REINTERPRET_I64, REINTERPRET 64);
   (wah_op_value WAH_OP_MEMORY_SIZE, WAH_MEMORY_SIZE_IMPL 32);
   (suffixed WAH_OP_MEMORY_SIZE sfx_i64, WAH_MEMORY_SIZE_IMPL 64);
   (wah_op_value WAH_OP_DROP, run_DROP); (wah_op_value WAH_OP_SELECT, run_SELECT); (wah_op_value WAH_OP_SELECT_T, run_SELECT_T);
   (wah_op_value WAH_OP_LOCAL_GET, run_LOCAL_GET); (wah_op_value WAH_OP_LOCAL_SET, run_LOCAL_SET);
   (wah_op_value WAH_OP_LOCAL_TEE, run_LOCAL_TEE);
   (wah_op_value WAH_OP_GLOBAL_GET, run_GLOBAL_GET); (wah_op_value WAH_OP_GLOBAL_SET, run_GLOBAL_SET)].
Definition int_opcodes : list (wah_op * int_instr) :=
  [(WAH_OP_I32_CLZ, INT 32 CLZ); (WAH_OP_I32_CTZ, INT 32 CTZ); (WAH_OP_I32_POPCNT, INT 32 POPCNT);
   (WAH_OP_I32_ADD, INT 32 ADD); (WAH_OP_I32_SUB, INT 32 SUB); (WAH_OP_I32_MUL, INT 32 MUL);
   (WAH_OP_I32_DIV_S, INT 32 DIV_S); (WAH_OP_I32_DIV_U, INT 32 DIV_U); (WAH_OP_I32_REM_S, INT 32 REM_S); (WAH_OP_I32_REM_U, INT 32 REM_U);
   (WAH_OP_I32_AND, INT 32 AND); (WAH_OP_I32_OR, INT 32 OR); (WAH_OP_I32_XOR, INT 32 XOR);
   (WAH_OP_I32_SHL, INT 32 SHL); (WAH_OP_I32_SHR_S, INT 32 SHR_S); (WAH_OP_I32_SHR_U, INT 32 SHR_U);
   (WAH_OP_I32_ROTL, INT 32 ROTL); (WAH_OP_I32_ROTR, INT 32 ROTR);
   (WAH_OP_I32_EQZ, INT 32 EQZ); (WAH_OP_I32_EQ, INT 32 EQ); (WAH_OP_I32_NE, INT 32 NE);
   (WAH_OP_I32_LT_S, INT 32 LT_S); (WAH_OP_I32_LT_U, INT 32 LT_U); (WAH_OP_I32_GT_S, INT 32 GT_S); (WAH_OP_I32_GT_U, INT 32 GT_U);
   (WAH_OP_I32_LE_S, INT 32 LE_S); (WAH_OP_I32_LE_U, INT 32 LE_U); (WAH_OP_I32_GE_S, INT 32 GE_S); (WAH_OP_I32_GE_U, INT 32 GE_U);
   (WAH_OP_I64_CLZ, INT 64 CLZ); (WAH_OP_I64_CTZ, INT 64 CTZ); (WAH_OP_I64_POPCNT, INT 64 POPCNT);
   (WAH_OP_I64_ADD, INT 64 ADD); (WAH_OP_I64_SUB, INT 64 SUB); (WAH_OP_I64_MUL, INT 64 MUL);
   (WAH_OP_I64_DIV_S, INT 64 DIV_S); (WAH_OP_I64_DIV_U, INT 64 DIV_U); (WAH_OP_I64_REM_S, INT 64 REM_S); (WAH_OP_I64_REM_U, INT 64 REM_U);
   (WAH_OP_I64_AND, INT 64 AND); (WAH_OP_I64_OR, INT 64 OR); (WAH_OP_I64_XOR, INT 64 XOR);
   (WAH_OP_I64_SHL, INT 64 SHL); (WAH_OP_I64_SHR_S, INT 64 SHR_S); (WAH_OP_I64_SHR_U, INT 64 SHR_U);
   (WAH_OP_I64_ROTL, INT 64 ROTL); (WAH_OP_I64_ROTR, INT 64 ROTR);
   (WAH_OP_I64_EQZ, INT 64 EQZ); (WAH_OP_I64_EQ, INT 64 EQ); (WAH_OP_I64_NE, INT 64 NE);
   (WAH_OP_I64_LT_S, INT 64 LT_S); (WAH_OP_I64_LT_U, INT 64 LT_U); (WAH_OP_I64_GT_S, INT 64 GT_S); (WAH_OP_I64_GT_U, INT 64 GT_U);
   (WAH_OP_I64_LE_S, INT 64 LE_S); (WAH_OP_I64_LE_U, INT 64 LE_U); (WAH_OP_I64_GE_S, INT 64 GE_S); (WAH_OP_I64_GE_U, INT 64 GE_U);
   (WAH_OP_I32_WRAP_I64, I32_WRAP_I64); (WAH_OP_I64_EXTEND_I32_S, I64_EXTEND_I32_S); (WAH_OP_I64_EXTEND_I32_U, I64_EXTEND_I32_U);
   (WAH_OP_I32_EXTEND8_S, EXTEND_S 32 8); (WAH_OP_I32_EXTEND16_S, EXTEND_S 32 16);
   (WAH_OP_I64_EXTEND8_S, EXTEND_S 64 8); (WAH_OP_I64_EXTEND16_S, EXTEND_S 64 16); (WAH_OP_I64_EXTEND32_S, EXTEND_S 64 32)].
Definition loads : list (wah_op * (Z * Z * bool)) :=
  [(WAH_OP_I32_LOAD, (32, 32, false)); (WAH_OP_I64_LOAD, (64, 64, false)); (WAH_OP_F32_LOAD, (32, 32, false)); (WAH_OP_F64_LOAD, (64, 64, false));
   (WAH_OP_I32_LOAD8_S, (8, 32, true)); (WAH_OP_I32_LOAD8_U, (8, 32, false)); (WAH_OP_I32_LOAD16_S, (16, 32, true)); (WAH_OP_I32_LOAD16_U, (16, 32, false));
   (WAH_OP_I64_LOAD8_S, (8, 64, true)); (WAH_OP_I64_LOAD8_U, (8, 64, false)); (WAH_OP_I64_LOAD16_S, (16, 64, true)); (WAH_OP_I64_LOAD16_U, (16, 64, false));
   (WAH_OP_I64_LOAD32_S, (32, 64, true)); (WAH_OP_I64_LOAD32_U, (32, 64, false))].
Definition stores : list (wah_op * (Z * Z)) :=
  [(WAH_OP_I32_STORE, (32, 32)); (WAH_OP_I64_STORE, (64, 64)); (WAH_OP_F32_STORE, (32, 32)); (WAH_OP_F64_STORE, (64, 64));
   (WAH_OP_I32_STORE8, (8, 32)); (WAH_OP_I32_STORE16, (16, 32));
   (WAH_OP_I64_STORE8, (8, 64)); (WAH_OP_I64_STORE16, (16, 64)); (WAH_OP_I64_STORE32, (32, 64))].
(** The variants of an access: an address of 32 or 64 bits, any memory or the first one. *)
Definition variants : list (bool * Z * (wah_op -> Z)) :=
  [(false, 32, wah_op_value); (true, 32, fun op => suffixed op sfx_i32_mem0);
   (false, 64, fun op => suffixed op sfx_i64); (true, 64, fun op => suffixed op sfx_i64_mem0)].
Definition access_handlers (variant : bool * Z * (wah_op -> Z)) : list (Z * comp S bool) :=
  let '(mem0, aw, value) := variant in
  map (fun '(op, (N, w, signed)) => (value op, LOAD_OP mem0 aw N w signed)) loads ++
  map (fun '(op, (N, w)) => (value op, STORE_OP mem0 aw N w)) stores.
Definition handlers_table : list (Z * comp S bool) :=
  control_handlers ++ value_handlers ++
  map (fun '(op, i) => (wah_op_value op, run_INT i)) int_opcodes ++
  concat (map access_handlers variants).

(** One round of the interpreter: [false] when the last frame has returned. *)
Fixpoint handler_of (opcode : Z) (l : list (Z * comp S bool)) : option (comp S bool) :=
  match l with
  | [] => None
  | (v, h) :: l => if v =? opcode then Some h else handler_of opcode l
  end.
Definition step : comp S bool :=
  opcode <- u16_imm ;;
  h <- stm_opt (handler_of opcode handlers_table) ;;
  h.
(** [wah_run_interpreter] for at most [n] rounds: whether it has come to the end. *)
Fixpoint wah_run_interpreter (n : nat) : comp S bool :=
  match n with
  | O => stm_ret false
  | Datatypes.S n' => more <- step ;; if (more : bool) then wah_run_interpreter n' else stm_ret true
  end.
End Handlers.

(** ** Theorems *)

Section Rounds.
Context {S V : Type} {M : Machine S V} (P : prog).

(** No two handlers are for the same opcode, and every variant of an access exists. *)
Lemma handlers_distinct : NoDup ((-1) :: map fst (handlers_table P)).
Proof. apply (bool_decide_unpack (NoDup _)). vm_compute. exact I. Qed.
(** Rounds after the end change nothing. *)
Lemma rounds_more n m s : (wah_run_interpreter P n s).1 <> Ok false -> wah_run_interpreter P (n + m) s = wah_run_interpreter P n s.
Proof.
  revert s. induction n as [|n IH]; intros s H; [done|]. cbn [Nat.add wah_run_interpreter] in *. unfold stm_bind in *.
  destruct (step P s) as [[[|]|e|] s']; [by apply IH|done..].
Qed.
End Rounds.
