(* ===== verification/Stack.v ===== *)
(** * The unified stack

    Frames and operands as the program keeps them: one buffer in which operands grow upward
    and call frames downward, with the locals of a function below its operands, and one
    stack of exception handlers for all frames.  An address in the buffer is the number of
    its slot, and one in bytecode the offset in that of the function of the frame. *)

From S2P Require Import Prelude Base Alloc Bytes Decode Opcodes Lowering Bulk IntOps Numeric Interp.
From stdpp Require Import list.
#[local] Open Scope Z_scope.
#[local] Open Scope wah_scope.

(** ** Definitions *)

(** [fr_base] is the slot of [locals], [fr_ip] what the frame has as [bytecode_ip]. *)
Record wah_call_frame := CallFrame { fr_fn : Z; fr_ip : Z; fr_base : Z; fr_results : Z }.
(** [h_catches] is the place of [catch_table] in the bytecode of the function [h_fn]. *)
Record wah_exception_handler := ExceptionHandler { h_depth : Z; h_sp : Z; h_catches : Z; h_count : Z; h_fn : Z }.
(** The buffer as slots of 16 bytes, then what the loop keeps in [sp] and [bytecode_ip],
    the frames from [frame_ptr] on, and the handlers, the newest first. *)
Record exec := Exec {
  slots : list Z; sp : Z; ip : Z; frames : list wah_call_frame; handlers : list wah_exception_handler; ex_env : env Z }.
Definition set_slots l s := Exec l (sp s) (ip s) (frames s) (handlers s) (ex_env s).
Definition set_sp x s := Exec (slots s) x (ip s) (frames s) (handlers s) (ex_env s).
Definition set_ex_ip x s := Exec (slots s) (sp s) x (frames s) (handlers s) (ex_env s).
Definition set_frames l s := Exec (slots s) (sp s) (ip s) l (handlers s) (ex_env s).
Definition set_handlers l s := Exec (slots s) (sp s) (ip s) (frames s) l (ex_env s).
Definition set_ex_env n s := Exec (slots s) (sp s) (ip s) (frames s) (handlers s) n.
Definition fr_set_ip x f := CallFrame (fr_fn f) x (fr_base f) (fr_results f).
Definition alignof_wah_call_frame_t : Z := 8.
Definition fault {S A} : comp S A := fun s => (Fault, s).

Section Stack.
Context (P : prog).
Definition call_depth (s : exec) : Z := zlen (frames s).
(** The offset of [frame_ptr] at a depth.  The end of the buffer is aligned down for frames;
    the buffer itself is a block of the allocator, of a larger alignment. *)
Definition stack_end : Z := Z.land (p_stack_bytes P) (Z.lnot (alignof_wah_call_frame_t - 1)).
Definition frame_ptr (depth : Z) : Z := stack_end - depth * p_frame_bytes P.

(** Slots below the frames are read and written. *)
Definition in_buffer (s : exec) (i : Z) : bool := (0 <=? i) && ((i + 1) * sizeof_wah_value_t <=? frame_ptr (call_depth s)).
Definition load (i : Z) : comp exec Z := fun s => if in_buffer s i then stm_opt (zget (slots s) i) s else (Fault, s).
Definition store (i v : Z) : comp exec unit := fun s =>
  if in_buffer s i then
    match zset (slots s) i v with Some l => (Ok tt, set_slots l s) | None => (Fault, s) end
  else (Fault, s).
Fixpoint load_n (n : nat) (i : Z) : comp exec (list Z) :=
  match n with
  | O => stm_ret []
  | S n' => v <- load i ;; vs <- load_n n' (i + 1) ;; stm_ret (v :: vs)
  end.
Fixpoint store_n (i : Z) (vs : list Z) : comp exec unit :=
  match vs with
  | [] => stm_ret tt
  | v :: vs => store i v ;;; store_n (i + 1) vs
  end.
(** [memmove(dst, src, n * sizeof(wah_value_t))] and the zeroing of [n] slots. *)
Definition memmove_slots (dst src n : Z) : comp exec unit := vs <- load_n (Z.to_nat n) src ;; store_n dst vs.
Definition memzero_slots (dst n : Z) : comp exec unit := store_n dst (replicate (Z.to_nat n) 0).

Definition get_sp : comp exec Z := fun s => (Ok (sp s), s).
Definition put_sp (x : Z) : comp exec unit := fun s => (Ok tt, set_sp x s).
Definition put_ip (x : Z) : comp exec unit := fun s => (Ok tt, set_ex_ip x s).
Definition top_frame : comp exec wah_call_frame := fun s => stm_opt (head (frames s)) s.
Definition put_top_frame (f : wah_call_frame) : comp exec unit := fun s =>
  match frames s with [] => (Fault, s) | _ :: l => (Ok tt, set_frames (f :: l) s) end.
Definition get_handlers : comp exec (list wah_exception_handler) := fun s => (Ok (handlers s), s).
Definition put_handlers (l : list wah_exception_handler) : comp exec unit := fun s => (Ok tt, set_handlers l s).
Definition get_depth : comp exec Z := fun s => (Ok (call_depth s), s).
Definition put_frames (l : list wah_call_frame) : comp exec unit := fun s => (Ok tt, set_frames l s).
Definition get_frames : comp exec (list wah_call_frame) := fun s => (Ok (frames s), s).

Definition ex_current : comp exec fcode := f <- top_frame ;; stm_opt (zget (p_functions P) (fr_fn f)).
(** [*sp++ = v], and [( *sp++).member = x], which keeps the other bytes of the slot. *)
Definition ex_push (v : Z) : comp exec unit := i <- get_sp ;; store i v ;;; put_sp (i + 1).
Definition ex_push_member (w x : Z) : comp exec unit := i <- get_sp ;; v <- load i ;; store i (put w x v) ;;; put_sp (i + 1).
(** [*--sp] *)
Definition ex_pop : comp exec Z := i <- get_sp ;; v <- load (i - 1) ;; put_sp (i - 1) ;;; stm_ret v.
Definition ex_member (w v : Z) : comp exec Z := stm_ret (get_u w v).
Definition ex_get_local (i : Z) : comp exec Z := f <- top_frame ;; load (fr_base f + i).
Definition ex_set_local (i v : Z) : comp exec unit := f <- top_frame ;; store (fr_base f + i) v.

(** The operands [sp[-2]] and [sp[-1]], of which the handler of an integer instruction makes one. *)
Definition int_operands (i : int_instr) : Z := match i with INT _ o => if binary o then 2 else 1 | _ => 1 end.
Definition ex_int_op (i : int_instr) : comp exec unit :=
  s <- get_sp ;;
  let n := int_operands i in
  vs <- load_n (Z.to_nat n) (s - n) ;;
  match run_int i (rev vs) with
  | Ok [v] => store (s - n) v ;;; put_sp (s - n + 1)
  | Ok _ => fault
  | Err e => stm_err e
  | Fault => fault
  end.

Definition WAH_DROP_KEEP (keep drop : Z) : comp exec unit :=
  if 0 <? drop then
    s <- get_sp ;;
    let dst := s - keep - drop in
    (if 0 <? keep then memmove_slots dst (s - keep) keep else stm_ret tt) ;;;
    put_sp (s - drop)
  else stm_ret tt.
(** The [n] topmost slots, the last pushed last. *)
Definition ex_pop_values (n : Z) : comp exec (list Z) :=
  s <- get_sp ;;
  vs <- load_n (Z.to_nat n) (s - n) ;;
  put_sp (s - n) ;;; stm_ret vs.

(** [RELOAD_FRAME] *)
Definition RELOAD_FRAME : comp exec bool :=
  l <- get_frames ;;
  match l with
  | [] => stm_ret false
  | f :: _ => put_ip (fr_ip f) ;;; stm_ret true
  end.
Definition wah_locals_fuel_charge (num_locals : Z) : comp exec unit := fun s =>
  if p_metered P
  then (Ok tt, set_ex_env (set_fuel (en_fuel (ex_env s) - sizeof_wah_value_t * num_locals / WAH_BULK_ITEMS_PER_FUEL) (ex_env s)) s)
  else (Ok tt, s).
Definition zero_locals (num_locals : Z) : comp exec unit :=
  if 0 <? num_locals then
    s <- get_sp ;;
    memzero_slots s num_locals ;;;
    put_sp (s + num_locals) ;;;
    wah_locals_fuel_charge num_locals
  else stm_ret tt.

Definition wah_push_frame (fn locals result_count value_top : Z) : comp exec unit :=
  depth <- get_depth ;;
  stm_ensure (value_top * sizeof_wah_value_t <=? frame_ptr (depth + 1)) WAH_ERROR_STACK_OVERFLOW ;;;
  l <- get_frames ;;
  put_frames (CallFrame fn 0 locals result_count :: l).
Definition WAH_CALL_WASM_INLINE (code : fcode) (fn : Z) : comp exec bool :=
  s <- get_sp ;;
  let new_locals := s - fc_params code in
  let preflight_top := new_locals + fc_params code + fc_slots code in
  f <- top_frame ;;
  here <- (fun s => (Ok (ip s), s)) ;;
  put_top_frame (fr_set_ip here f) ;;;
  wah_push_frame fn new_locals (fc_results code) preflight_top ;;;
  zero_locals (fc_locals code) ;;;
  RELOAD_FRAME.

(** [while (depth > 0 && handlers[depth - 1].call_depth >= call_depth) depth--;] *)
Fixpoint drop_handlers (depth : Z) (l : list wah_exception_handler) : list wah_exception_handler :=
  match l with
  | h :: l' => if depth <=? h_depth h then drop_handlers depth l' else l
  | [] => []
  end.
Definition WAH_DROP_FRAME_HANDLERS : comp exec unit :=
  depth <- get_depth ;; l <- get_handlers ;; put_handlers (drop_handlers depth l).
Definition WAH_POP_CURRENT_FRAME : comp exec bool :=
  WAH_DROP_FRAME_HANDLERS ;;;
  f <- top_frame ;;
  let results_to_keep := fr_results f in
  s <- get_sp ;;
  let results_src := s - results_to_keep in
  put_sp (fr_base f) ;;;
  l <- get_frames ;;
  put_frames (tail l) ;;;
  (if results_to_keep =? 1 then v <- load results_src ;; ex_push v
   else if 0 <? results_to_keep then
     memmove_slots (fr_base f) results_src results_to_keep ;;; put_sp (fr_base f + results_to_keep)
   else stm_ret tt) ;;;
  RELOAD_FRAME.
Definition WAH_TAIL_CALL_WASM (code : fcode) (fn : Z) : comp exec bool :=
  WAH_DROP_FRAME_HANDLERS ;;;
  s <- get_sp ;;
  f <- top_frame ;;
  depth <- get_depth ;;
  let params_src := s - fc_params code in
  let locals_dst := fr_base f in
  stm_ensure ((locals_dst + fc_params code + fc_slots code) * sizeof_wah_value_t <=? frame_ptr depth) WAH_ERROR_STACK_OVERFLOW ;;;
  (if 0 <? fc_params code then memmove_slots locals_dst params_src (fc_params code) else stm_ret tt) ;;;
  put_sp (locals_dst + fc_params code) ;;;
  zero_locals (fc_locals code) ;;;
  put_top_frame (CallFrame fn 0 locals_dst (fc_results code)) ;;;
  put_ip 0 ;;; stm_ret true.

(** *** Exception handlers *)

Definition wah_grow_exception_handlers (depth : Z) : comp exec unit := fun s =>
  let n := ex_env s in
  let needed := depth + 1 in
  if negb (needed * p_handler_bytes P <=? p_stack_bytes P) then (Err WAH_ERROR_STACK_OVERFLOW, s)
  else
    let '(r, a) := wah_grow_array needed (p_handler_bytes P) (en_handlers_cap n) (en_allocs n) in
    let s := set_ex_env (set_allocs a n) s in
    match r with
    | Ok cap => (Ok tt, set_ex_env (set_handlers_cap cap (ex_env s)) s)
    | Err e => (Err e, s)
    | Fault => (Fault, s)
    end.
Definition ex_try_table (count : Z) : comp exec unit :=
  l <- get_handlers ;;
  cap <- (fun s => (Ok (en_handlers_cap (ex_env s)), s)) ;;
  (if zlen l =? cap then wah_grow_exception_handlers (zlen l) else stm_ret tt) ;;;
  depth <- get_depth ;;
  i <- get_sp ;;
  here <- (fun s => (Ok (ip s), s)) ;;
  f <- top_frame ;;
  put_handlers (ExceptionHandler depth i here count (fr_fn f) :: l) ;;;
  put_ip (here + count * 13).
Definition ex_end_try_table : comp exec unit :=
  l <- get_handlers ;;
  match l with [] => stm_err WAH_ERROR_TRAP | _ :: l => put_handlers l end.
Definition ex_trim_handlers (depth : Z) : comp exec unit :=
  l <- get_handlers ;;
  frame_depth <- get_depth ;;
  let base := zlen (drop_handlers frame_depth l) in
  stm_ensure (depth <=? zlen l - base) WAH_ERROR_TRAP ;;;
  put_handlers (drop (Z.to_nat (zlen l - (base + depth))) l).

(** A clause of a catch table, and the first that matches an exception. *)
Definition catch_clause (code : list Z) (i : Z) : option (Z * Z * Z * Z) :=
  kind ← wah_read_u8_le code i;
  tag ← wah_read_u32_le code (i + 1);
  offset ← wah_read_u32_le code (i + 5);
  drop ← wah_read_u32_le code (i + 9);
  Some (kind, tag, offset, drop).
Definition names_tag (kind : Z) : bool := (kind =? 0) || (kind =? 1).
Definition wants_ref (kind : Z) : bool := (kind =? 1) || (kind =? 3).
Definition catches (kind tag identity : Z) : bool :=
  if names_tag kind then match zget (p_tags P) tag with Some (id, _) => id =? identity | None => false end else true.
Fixpoint find_catch (code : list Z) (n : nat) (i identity : Z) : option (option (Z * Z * Z)) :=
  match n with
  | O => Some None
  | S n' =>
      c ← catch_clause code i;
      let '(kind, tag, offset, drop) := c in
      if catches kind tag identity then Some (Some (kind, offset, drop)) else find_catch code n' (i + 13) identity
  end.

(** [wah_throw_exception], from the newest handler on, and what it does where one catches. *)
Definition catch_at (ref : Z) (x : Z * list Z) (h : wah_exception_handler) (l : list wah_exception_handler) (k : Z * Z * Z) : comp exec unit :=
  let '(kind, offset, drop) := k in
  put_sp (h_sp h - drop) ;;;
  put_handlers l ;;;
  (if names_tag kind then i <- get_sp ;; store_n i (x.2) ;;; put_sp (i + zlen (x.2)) else stm_ret tt) ;;;
  (if wants_ref kind then ex_push_member 64 ref else stm_ret tt) ;;;
  fs <- get_frames ;;
  match fs with [] => stm_ret tt | f :: _ => put_top_frame (fr_set_ip offset f) end.
Fixpoint throw_loop (ref : Z) (x : Z * list Z) (l : list wah_exception_handler) : comp exec unit :=
  match l with
  | [] => put_handlers [] ;;; stm_err WAH_ERROR_EXCEPTION
  | h :: l' =>
      fs <- get_frames ;;
      put_frames (drop (Z.to_nat (zlen fs - h_depth h)) fs) ;;;
      code <- stm_opt (zget (p_functions P) (h_fn h)) ;;
      c <- stm_opt (find_catch (fc_bytecode code) (Z.to_nat (h_count h)) (h_catches h) x.1) ;;
      match c with
      | Some k => catch_at ref x h l' k
      | None => throw_loop ref x l'
      end
  end.
Definition wah_throw_exception (ref : Z) (x : Z * list Z) : comp exec unit :=
  l <- get_handlers ;; throw_loop ref x l.
(** The end of [THROW] and [THROW_REF]. *)
Definition ex_throw (ref : Z) (x : Z * list Z) : comp exec bool :=
  f <- top_frame ;;
  here <- (fun s => (Ok (ip s), s)) ;;
  put_top_frame (fr_set_ip here f) ;;;
  wah_throw_exception ref x ;;; RELOAD_FRAME.

#[export] Instance stack_machine : Machine exec Z := {|
  env_of := ex_env; with_env := set_ex_env; current := ex_current;
  get_ip := fun s => (Ok (ip s), s); set_ip := put_ip;
  push := ex_push; push_member := ex_push_member; pop := ex_pop; member := ex_member; int_op := ex_int_op;
  get_local := ex_get_local; set_local := ex_set_local; drop_keep := WAH_DROP_KEEP; pop_values := ex_pop_values;
  call := WAH_CALL_WASM_INLINE; tail_call := WAH_TAIL_CALL_WASM; return_frame := WAH_POP_CURRENT_FRAME;
  try_table := ex_try_table; end_try_table := ex_end_try_table; trim_handlers := ex_trim_handlers; throw := ex_throw |}.

(** *** Activations *)

(** [wah_start_function_internal] for a function of the module, when the context is ready and
    [wah_load_host_params] takes the parameters as they are. *)
Definition start_function (fn : Z) (params : list Z) : comp exec unit :=
  code <- stm_opt (zget (p_functions P) fn) ;;
  stm_ensure (zlen params =? fc_params code) WAH_ERROR_VALIDATION_FAILED ;;;
  s <- get_sp ;;
  depth <- get_depth ;;
  let preflight_top := s + fc_params code + fc_slots code in
  stm_ensure (preflight_top * sizeof_wah_value_t <=? frame_ptr (depth + 1)) WAH_ERROR_STACK_OVERFLOW ;;;
  store_n s params ;;;
  put_sp (s + fc_params code) ;;;
  wah_push_frame fn s (fc_results code) preflight_top ;;;
  (if 0 <? fc_locals code then
     i <- get_sp ;; memzero_slots i (fc_locals code) ;;; put_sp (i + fc_locals code)
   else stm_ret tt).
(** The start of [wah_run_interpreter] and its end, where the frame keeps [bytecode_ip]. *)
Definition enter : comp exec unit := f <- top_frame ;; put_ip (fr_ip f).
Definition suspended (s : exec) : exec :=
  match frames s with [] => s | f :: l => set_frames (fr_set_ip (ip s) f :: l) s end.
Definition interpret (n : nat) : comp exec bool := fun s =>
  match (enter ;;; wah_run_interpreter P n) s with
  | (Err e, s') => (Err e, suspended s')
  | r => r
  end.
End Stack.
