(* ===== verification/Activation.v ===== *)
(** * Activations

    The stack of a context as the specification has it: a frame of its own for each call,
    with its locals, operands and handlers as lists, and values that are known up to some
    number of bits.  An operation that code which was validated does not use, like a pop
    without operands or an operand beyond what was announced, is a fault. *)

From S2P Require Import Prelude Base Alloc Bytes Decode Opcodes Lowering Bulk IntOps Numeric Interp Stack.
From stdpp Require Import list.
#[local] Open Scope Z_scope.
#[local] Open Scope wah_scope.

(** ** Definitions *)

(** A value of which the low [w] bits are [x]. *)
Inductive aval := Known (w x : Z).
(** [a_height] operands are below those of the block of the handler. *)
Record ahandler := AHandler { a_height : Z; a_catches : Z; a_count : Z }.
(** Operands and handlers are the newest first. *)
Record aframe := AFrame { a_fn : Z; a_ip : Z; a_locals : list aval; a_ops : list aval; a_handlers : list ahandler }.
Definition af_set_ip x f := AFrame (a_fn f) x (a_locals f) (a_ops f) (a_handlers f).
Definition af_set_ops l f := AFrame (a_fn f) (a_ip f) (a_locals f) l (a_handlers f).
Definition af_set_locals l f := AFrame (a_fn f) (a_ip f) l (a_ops f) (a_handlers f).
Definition af_set_handlers l f := AFrame (a_fn f) (a_ip f) (a_locals f) (a_ops f) l.
(** [a_below] are the operands below all frames, where the results of the first one go. *)
Record activation := Activation { a_below : list aval; a_frames : list aframe; a_env : env aval }.
Definition set_a_below l s := Activation l (a_frames s) (a_env s).
Definition set_a_frames l s := Activation (a_below s) l (a_env s).
Definition set_a_env n s := Activation (a_below s) (a_frames s) n.

Section Activation.
Context (P : prog).

Definition a_top : comp activation aframe := fun s => stm_opt (head (a_frames s)) s.
Definition a_put_top (f : aframe) : comp activation unit := fun s =>
  match a_frames s with [] => (Fault, s) | _ :: l => (Ok tt, set_a_frames (f :: l) s) end.
Definition a_current : comp activation fcode := f <- a_top ;; stm_opt (zget (p_functions P) (a_fn f)).
(** Slots that a function may use: its parameters, further locals and operands. *)
Definition room (code : fcode) : Z := fc_params code + fc_slots code.
Definition fits (f : aframe) : bool :=
  match zget (p_functions P) (a_fn f) with
  | Some code => zlen (a_locals f) + zlen (a_ops f) <=? room code
  | None => false
  end.
Definition a_put_fitting (f : aframe) : comp activation unit := if fits f then a_put_top f else fault.

Definition a_get_ip : comp activation Z := f <- a_top ;; stm_ret (a_ip f).
Definition a_set_ip (x : Z) : comp activation unit := f <- a_top ;; a_put_top (af_set_ip x f).
Definition a_push (v : aval) : comp activation unit := f <- a_top ;; a_put_fitting (af_set_ops (v :: a_ops f) f).
Definition a_push_member (w x : Z) : comp activation unit := a_push (Known w (x mod 2 ^ w)).
Definition a_pop : comp activation aval :=
  f <- a_top ;;
  match a_ops f with [] => fault | v :: l => a_put_top (af_set_ops l f) ;;; stm_ret v end.
Definition known (w : Z) (v : aval) : option Z := let '(Known m x) := v in if (0 <=? w) && (w <=? m) then Some (x mod 2 ^ w) else None.
Definition a_member (w : Z) (v : aval) : comp activation Z := stm_opt (known w v).
Definition a_get_local (i : Z) : comp activation aval := f <- a_top ;; stm_opt (zget (a_locals f) i).
Definition a_set_local (i : Z) (v : aval) : comp activation unit :=
  f <- a_top ;; l <- stm_opt (zset (a_locals f) i v) ;; a_put_top (af_set_locals l f).
(** The function of the specification on the operands, of the width of the instruction. *)
Definition a_int (i : int_instr) (a b : Z) : option (option (Z * Z)) :=
  match i with
  | INT w o =>
      Some (match spec_int (Z.to_nat w) o a b with Some r => Some (if test o then 32 else w, r) | None => None end)
  | I32_WRAP_I64 => Some (Some (32, wrapped 32 a))
  | I64_EXTEND_I32_S => Some (Some (64, wrapped 64 (sgn 32 a)))
  | I64_EXTEND_I32_U => Some (Some (64, a))
  | EXTEND_S w m => Some (Some (w, wrapped w (sgn m a)))
  end.
Definition operand_width (i : int_instr) : Z :=
  match i with INT w _ => w | I32_WRAP_I64 => 64 | I64_EXTEND_I32_S | I64_EXTEND_I32_U => 32 | EXTEND_S w _ => w end.
Definition a_int_op (i : int_instr) : comp activation unit :=
  b <- (if int_operands i =? 2 then v <- a_pop ;; a_member (operand_width i) v else stm_ret 0) ;;
  va <- a_pop ;;
  a <- a_member (operand_width i) va ;;
  r <- stm_opt (a_int i a b) ;;
  match r with Some (w, x) => a_push (Known w x) | None => stm_err WAH_ERROR_TRAP end.
(** The [keep] topmost operands, without the [drop] operands below them. *)
Definition a_drop_keep (keep n : Z) : comp activation unit :=
  f <- a_top ;;
  if (0 <=? keep) && (0 <=? n) && (keep + n <=? zlen (a_ops f))
  then a_put_top (af_set_ops (take (Z.to_nat keep) (a_ops f) ++ drop (Z.to_nat (keep + n)) (a_ops f)) f)
  else fault.
(** The [n] topmost operands, in the order of their pushes. *)
Definition a_pop_values (n : Z) : comp activation (list aval) :=
  f <- a_top ;;
  if (0 <=? n) && (n <=? zlen (a_ops f))
  then a_put_top (af_set_ops (drop (Z.to_nat n) (a_ops f)) f) ;;; stm_ret (rev (take (Z.to_nat n) (a_ops f)))
  else fault.

(** Values below the newest frame, and its handlers, the newest first; those of all frames. *)
Definition a_used (s : activation) : Z :=
  zlen (a_below s) + foldr (fun f n => zlen (a_locals f) + zlen (a_ops f) + n) 0 (a_frames s).
Definition a_depth (s : activation) : Z := zlen (a_frames s).
Definition a_charge_locals (n : Z) : comp activation unit := fun s =>
  if (0 <? n) && p_metered P
  then (Ok tt, set_a_env (set_fuel (en_fuel (a_env s) - sizeof_wah_value_t * n / WAH_BULK_ITEMS_PER_FUEL) (a_env s)) s)
  else (Ok tt, s).
Definition a_new_frame (fn : Z) (code : fcode) (args : list aval) : aframe :=
  AFrame fn 0 (args ++ replicate (Z.to_nat (fc_locals code)) (Known 64 0)) [] [].
Definition well_formed (fn : Z) (code : fcode) : bool :=
  (0 <=? fc_params code) && (0 <=? fc_locals code) && (fc_locals code <=? fc_slots code) && (0 <=? fc_results code) &&
  match zget (p_functions P) fn with
  | Some c => (fc_params c =? fc_params code) && (fc_slots c =? fc_slots code) && (fc_results c =? fc_results code)
  | None => false
  end.
(** The bytes that values take with [slots] more fit below the frames. *)
Definition a_fits (s : activation) (n depth : Z) : bool :=
  (a_used s + n) * sizeof_wah_value_t <=? frame_ptr P depth.
Definition a_call (code : fcode) (fn : Z) : comp activation bool :=
  if well_formed fn code then
    args <- a_pop_values (fc_params code) ;;
    s <- stm_get ;;
    stm_ensure (a_fits s (room code) (a_depth s + 1)) WAH_ERROR_STACK_OVERFLOW ;;;
    stm_put (set_a_frames (a_new_frame fn code args :: a_frames s) s) ;;;
    a_charge_locals (fc_locals code) ;;;
    stm_ret true
  else fault.
Definition a_tail_call (code : fcode) (fn : Z) : comp activation bool :=
  if well_formed fn code then
    args <- a_pop_values (fc_params code) ;;
    s <- stm_get ;;
    f <- a_top ;;
    stm_ensure (a_fits s (room code - zlen (a_locals f) - zlen (a_ops f)) (a_depth s)) WAH_ERROR_STACK_OVERFLOW ;;;
    a_put_top (a_new_frame fn code args) ;;;
    a_charge_locals (fc_locals code) ;;;
    stm_ret true
  else fault.
(** The results go to the operands of the caller. *)
Definition a_return : comp activation bool :=
  code <- a_current ;;
  results <- a_pop_values (fc_results code) ;;
  s <- stm_get ;;
  match a_frames s with
  | [] => fault
  | [_] => stm_put (set_a_frames [] (set_a_below (rev results ++ a_below s) s)) ;;; stm_ret false
  | _ :: f :: l =>
      let f := af_set_ops (rev results ++ a_ops f) f in
      if fits f then stm_put (set_a_frames (f :: l) s) ;;; stm_ret true else fault
  end.

(** *** Handlers of exceptions *)

Definition a_handlers_count (s : activation) : Z := foldr (fun f n => zlen (a_handlers f) + n) 0 (a_frames s).
(** The memory of handlers grows with their number. *)
Definition a_grow_handlers : comp activation unit := fun s =>
  let n := a_env s in
  let count := a_handlers_count s in
  if count =? en_handlers_cap n then
    if negb ((count + 1) * p_handler_bytes P <=? p_stack_bytes P) then (Err WAH_ERROR_STACK_OVERFLOW, s)
    else
      let '(r, a) := wah_grow_array (count + 1) (p_handler_bytes P) (en_handlers_cap n) (en_allocs n) in
      match r with
      | Ok cap => (Ok tt, set_a_env (set_handlers_cap cap (set_allocs a n)) s)
      | Err e => (Err e, set_a_env (set_allocs a n) s)
      | Fault => (Fault, s)
      end
  else (Ok tt, s).
Definition a_try_table (count : Z) : comp activation unit :=
  a_grow_handlers ;;;
  f <- a_top ;;
  a_put_top (af_set_ip (a_ip f + count * 13)
    (af_set_handlers (AHandler (zlen (a_ops f)) (a_ip f) count :: a_handlers f) f)).
Definition a_end_try_table : comp activation unit :=
  f <- a_top ;;
  match a_handlers f with [] => fault | _ :: l => a_put_top (af_set_handlers l f) end.
(** The oldest [n] handlers of the frame. *)
Definition a_trim_handlers (n : Z) : comp activation unit :=
  f <- a_top ;;
  stm_ensure (n <=? zlen (a_handlers f)) WAH_ERROR_TRAP ;;;
  if 0 <=? n then a_put_top (af_set_handlers (drop (Z.to_nat (zlen (a_handlers f) - n)) (a_handlers f)) f) else fault.

(** The clause that catches in a frame, with its handler and the handlers around it. *)
Fixpoint a_find_handler (code : list Z) (identity : Z) (l : list ahandler) : option (option (ahandler * (Z * Z * Z) * list ahandler)) :=
  match l with
  | [] => Some None
  | h :: l' =>
      c ← find_catch P code (Z.to_nat (a_count h)) (a_catches h) identity;
      match c with
      | Some k => Some (Some (h, k, l'))
      | None => a_find_handler code identity l'
      end
  end.
(** The frame in which [x] is caught: at the label of the clause, with the operands of
    the label, then what the clause asks for. *)
Definition a_caught (f : aframe) (ref : Z) (x : Z * list aval) (h : ahandler) (k : Z * Z * Z) (rest : list ahandler) : option aframe :=
  let '(kind, offset, n) := k in
  if (0 <=? n) && (n <=? a_height h) && (a_height h <=? zlen (a_ops f)) then
    let below := drop (Z.to_nat (zlen (a_ops f) - (a_height h - n))) (a_ops f) in
    let values := if names_tag kind then rev (x.2) else [] in
    let reference := if wants_ref kind then [Known 64 (ref mod 2 ^ 64)] else [] in
    let f := AFrame (a_fn f) offset (a_locals f) (reference ++ values ++ below) rest in
    if fits f then Some f else None
  else None.
(** Calls end, newest first, until a frame catches the exception: the frames left. *)
Fixpoint a_unwind (ref : Z) (x : Z * list aval) (l : list aframe) : option (option (list aframe)) :=
  match l with
  | [] => Some None
  | f :: l' =>
      code ← zget (p_functions P) (a_fn f);
      c ← a_find_handler (fc_bytecode code) (x.1) (a_handlers f);
      match c with
      | Some (h, k, rest) => f ← a_caught f ref x h k rest; Some (Some (f :: l'))
      | None => a_unwind ref x l'
      end
  end.
Definition a_throw (ref : Z) (x : Z * list aval) : comp activation bool :=
  a_top ;;;
  s <- stm_get ;;
  match a_unwind ref x (a_frames s) with
  | Some (Some l) => stm_put (set_a_frames l s) ;;; stm_ret true
  | Some None => stm_err WAH_ERROR_EXCEPTION
  | None => fault
  end.

#[export] Instance activation_machine : Machine activation aval := {|
  env_of := a_env; with_env := set_a_env; current := a_current;
  get_ip := a_get_ip; set_ip := a_set_ip;
  push := a_push; push_member := a_push_member; pop := a_pop; member := a_member; int_op := a_int_op;
  get_local := a_get_local; set_local := a_set_local; drop_keep := a_drop_keep; pop_values := a_pop_values;
  call := a_call; tail_call := a_tail_call; return_frame := a_return;
  try_table := a_try_table; end_try_table := a_end_try_table; trim_handlers := a_trim_handlers; throw := a_throw |}.

(** An activation of a function. *)
Definition a_start (fn : Z) (params : list aval) : comp activation unit :=
  code <- stm_opt (zget (p_functions P) fn) ;;
  stm_ensure (zlen params =? fc_params code) WAH_ERROR_VALIDATION_FAILED ;;;
  s <- stm_get ;;
  stm_ensure (a_fits s (room code) (a_depth s + 1)) WAH_ERROR_STACK_OVERFLOW ;;;
  if well_formed fn code then stm_put (set_a_frames (a_new_frame fn code params :: a_frames s) s) else fault.
End Activation.
