(* ===== verification/StackOk.v ===== *)
(** * The unified stack implements activations

    The relation between the shared buffer and frames of their own, and that every
    operation of the one does what that of the other does. *)

From S2P Require Import Prelude Base Alloc Bytes Decode Opcodes Lowering Bulk IntOps Numeric Interp Stack Activation.
From stdpp Require Import list.
#[local] Open Scope Z_scope.
#[local] Open Scope wah_scope.

(** ** Definitions *)

Definition rel_v (x : Z) (v : aval) : Prop := let '(Known w y) := v in 0 <= w /\ x mod 2 ^ w = y.

(** The values of frames, newest first, in the order of the buffer. *)
Fixpoint flat (below : list aval) (fs : list aframe) : list aval :=
  match fs with [] => rev below | f :: fs' => flat below fs' ++ a_locals f ++ rev (a_ops f) end.
Definition vals (sl : list Z) (l : list aval) : Prop :=
  forall i v, l !! i = Some v -> exists x, sl !! i = Some x /\ rel_v x v.

(** The handlers of all frames in one list, each with the depth of its frame. *)
Fixpoint flat_handlers (below : list aval) (fs : list aframe) : list wah_exception_handler :=
  match fs with
  | [] => []
  | f :: fs' =>
      map (fun h => ExceptionHandler (zlen fs) (zlen (flat below fs') + zlen (a_locals f) + a_height h) (a_catches h) (a_count h) (a_fn f))
        (a_handlers f) ++ flat_handlers below fs'
  end.

Section Relation.
Context (P : prog).

(** A frame with the frames [fs] below: its values have room below the call frames. *)
Record frame_rel (below : list aval) (fs : list aframe) (ip : Z) (c : wah_call_frame) (f : aframe) (code : fcode) : Prop := {
  fr_fn_eq : fr_fn c = a_fn f;
  fr_ip_eq : ip = a_ip f;
  fr_base_eq : fr_base c = zlen (flat below fs);
  fr_code : zget (p_functions P) (a_fn f) = Some code;
  fr_results_eq : fr_results c = fc_results code;
  fr_fits : zlen (a_locals f) + zlen (a_ops f) <= room code;
  fr_room : (fr_base c + room code) * sizeof_wah_value_t <= frame_ptr P (zlen fs + 1) }.
Definition saved_ip (cs : list wah_call_frame) : Z := match cs with [] => 0 | c :: _ => fr_ip c end.
Inductive rel_frames (below : list aval) : Z -> list wah_call_frame -> list aframe -> Prop :=
| rf_nil ip : rel_frames below ip [] []
| rf_cons ip c cs f fs code : frame_rel below fs ip c f code -> rel_frames below (saved_ip cs) cs fs -> rel_frames below ip (c :: cs) (f :: fs).
Definition rel_exn (x : Z * list Z) (y : Z * list aval) : Prop := x.1 = y.1 /\ Forall2 rel_v (x.2) (y.2).
Record rel_env (m : env Z) (n : env aval) : Prop := {
  re_globals : Forall2 rel_v (en_globals m) (en_globals n);
  re_memory : en_memories m = en_memories n;
  re_fuel : en_fuel m = en_fuel n;
  re_exns : Forall2 rel_exn (en_exns m) (en_exns n);
  re_cap : en_handlers_cap m = en_handlers_cap n;
  re_allocs : en_allocs m = en_allocs n;
  re_polls : en_polls m = en_polls n;
  re_interrupts : en_interrupts m = en_interrupts n }.
Record rel (c : exec) (a : activation) : Prop := {
  r_sp : sp c = zlen (flat (a_below a) (a_frames a));
  r_slots : zlen (slots c) = p_stack_bytes P / sizeof_wah_value_t;
  r_vals : vals (slots c) (flat (a_below a) (a_frames a));
  r_frames : rel_frames (a_below a) (ip c) (frames c) (a_frames a);
  r_handlers : handlers c = flat_handlers (a_below a) (a_frames a);
  r_env : rel_env (ex_env c) (a_env a) }.

(** An operation does what that of activations does, unless that is a fault.  An activation
    may go on after it was stopped with a status. *)
Definition resumable (e : wah_error_t) : Prop := e = WAH_STATUS_YIELDED \/ e = WAH_STATUS_FUEL_EXHAUSTED.
Definition sim_at {A B} (RA : A -> B -> Prop) (mc : comp exec A) (ma : comp activation B) (c : exec) (a : activation) : Prop :=
  match ma a with
  | (Ok y, a') => exists x c', mc c = (Ok x, c') /\ RA x y /\ rel c' a'
  | (Err e, a') => exists c', mc c = (Err e, c') /\ (resumable e -> rel c' a')
  | (Fault, _) => True
  end.
Definition sim {A B} (RA : A -> B -> Prop) (mc : comp exec A) (ma : comp activation B) : Prop :=
  forall c a, rel c a -> sim_at RA mc ma c a.

(** ** Theorems *)

(** *** Values in the buffer *)

Lemma vals_app sl l1 l2 : vals sl (l1 ++ l2) -> vals sl l1.
Proof. intros H i v Hi. apply H. rewrite lookup_app_l; [done|]. by eapply lookup_lt_Some. Qed.
Lemma vals_slice sl l1 l2 l3 : vals sl (l1 ++ l2 ++ l3) -> Forall2 rel_v (take (length l2) (drop (length l1) sl)) l2.
Proof.
  intros H. apply Forall2_same_length_lookup_2.
  - rewrite length_take, length_drop. destruct (decide (length l2 = 0%nat)) as [->|]; [lia|].
    destruct (lookup_lt_is_Some_2 (l1 ++ l2 ++ l3) (length l1 + length l2 - 1)) as [v Hv]; [rewrite !length_app; lia|].
    destruct (H _ _ Hv) as (x & Hx & _). apply lookup_lt_Some in Hx. lia.
  - intros i x v Hx Hv. pose proof (lookup_lt_Some _ _ _ Hv). rewrite lookup_take_lt, lookup_drop in Hx by done.
    destruct (H (length l1 + i)%nat v) as (x' & Hx' & Hr); [|by simplify_eq].
    rewrite lookup_app_r by lia. rewrite lookup_app_l by lia. by replace (length l1 + i - length l1)%nat with i by lia.
Qed.
Lemma vals_inserts sl l1 l2 xs i : vals sl l1 -> Forall2 rel_v xs l2 -> i = length l1 -> (i + length xs <= length sl)%nat ->
  vals (list_inserts i xs sl) (l1 ++ l2).
Proof.
  intros H1 H2 -> Hl j v Hj. destruct (decide (j < length l1)%nat).
  - rewrite list_lookup_inserts_lt by lia. apply H1. by rewrite lookup_app_l in Hj by lia.
  - rewrite lookup_app_r in Hj by lia. pose proof (Forall2_length _ _ _ H2). pose proof (lookup_lt_Some _ _ _ Hj).
    rewrite list_lookup_inserts by lia. destruct (Forall2_lookup_r _ _ _ _ _ H2 Hj) as (x & Hx & Hr). eauto.
Qed.
Lemma vals_insert sl l i x v : vals sl l -> rel_v x v -> (i < length sl)%nat -> vals (<[i:=x]> sl) (<[i:=v]> l).
Proof.
  intros H Hr Hi j w Hj. destruct (decide (i = j)) as [<-|].
  - destruct (decide (i < length l)%nat); [|apply lookup_lt_Some in Hj; rewrite length_insert in Hj; lia].
    rewrite list_lookup_insert_eq in Hj by done. simplify_eq. exists x. split; [by apply list_lookup_insert_eq|done].
  - rewrite list_lookup_insert_ne in Hj by done. destruct (H _ _ Hj) as (y & Hy & ?). exists y. by rewrite list_lookup_insert_ne.
Qed.

Lemma flat_newest below f fs : flat below (f :: fs) = flat below fs ++ a_locals f ++ rev (a_ops f).
Proof. done. Qed.

(** *** Access to the buffer *)

Definition room_for (c : exec) (n : Z) : Prop := n * sizeof_wah_value_t <= frame_ptr P (call_depth c).
Definition sized (c : exec) : Prop := zlen (slots c) = p_stack_bytes P / sizeof_wah_value_t /\ 0 <= p_frame_bytes P.
Lemma stack_end_eq : stack_end P = 8 * (p_stack_bytes P / 8).
Proof.
  unfold stack_end, alignof_wah_call_frame_t. change (8 - 1) with (Z.ones 3). rewrite <- Z.ldiff_land, Z.ldiff_ones_r by lia.
  rewrite Z.shiftr_div_pow2, Z.shiftl_mul_pow2 by lia. change (2 ^ 3) with 8. lia.
Qed.
Lemma stack_end_le : stack_end P <= p_stack_bytes P.
Proof. rewrite stack_end_eq. apply Z.mul_div_le. lia. Qed.
Lemma room_slots c n : sized c -> room_for c n -> n <= zlen (slots c).
Proof.
  unfold sized, room_for, frame_ptr, call_depth, sizeof_wah_value_t. intros [-> Hf] H.
  apply Z.div_le_lower_bound; [lia|]. assert (0 <= zlen (frames c)) by (unfold zlen; lia). pose proof stack_end_le. nia.
Qed.
Lemma in_buffer_room c i n : 0 <= i < n -> room_for c n -> in_buffer P c i = true.
Proof. unfold room_for, in_buffer, sizeof_wah_value_t. intros Hi H. rewrite andb_true_iff, !Z.leb_le. lia. Qed.
Lemma load_ok c i n x : room_for c n -> 0 <= i < n -> zget (slots c) i = Some x -> load P i c = (Ok x, c).
Proof. intros H Hi Hx. unfold load. rewrite (in_buffer_room c i n Hi H). unfold stm_opt. by rewrite Hx. Qed.
Lemma load_n_ok c k i n : sized c -> room_for c n -> 0 <= i -> i + Z.of_nat k <= n ->
  load_n P k i c = (Ok (take k (drop (Z.to_nat i) (slots c))), c).
Proof.
  intros Hs Hr. pose proof (room_slots c n Hs Hr) as Hl. unfold zlen in Hl. revert i. induction k as [|k IH]; intros i Hi Hn; [done|].
  cbn [load_n]. destruct (lookup_lt_is_Some_2 (slots c) (Z.to_nat i)) as [x Hx]; [lia|].
  unfold stm_bind. rewrite (load_ok c i n x Hr); [|lia|by rewrite zget_nat]. rewrite (IH (i + 1)) by lia. unfold stm_ret.
  rewrite (drop_S _ _ _ Hx). by replace (Z.to_nat (i + 1)) with (S (Z.to_nat i)) by lia.
Qed.
Lemma set_slots_twice l1 l2 c : set_slots l2 (set_slots l1 c) = set_slots l2 c.
Proof. done. Qed.
Lemma store_ok c i n x : sized c -> room_for c n -> 0 <= i < n -> store P i x c = (Ok tt, set_slots (<[Z.to_nat i:=x]> (slots c)) c).
Proof.
  intros Hs Hr Hi. pose proof (room_slots c n Hs Hr) as Hl. unfold store. rewrite (in_buffer_room c i n Hi Hr).
  rewrite zset_Some by lia. done.
Qed.
Lemma store_n_ok xs : forall c i n, sized c -> room_for c n -> 0 <= i -> i + zlen xs <= n ->
  store_n P i xs c = (Ok tt, set_slots (list_inserts (Z.to_nat i) xs (slots c)) c).
Proof.
  induction xs as [|x xs IH]; intros c i n Hs Hr Hi Hn; [by destruct c|]. cbn [store_n list_inserts].
  unfold zlen in *. simpl length in Hn. unfold stm_bind. rewrite (store_ok c i n x) by (done || lia).
  rewrite (IH (set_slots _ c) (i + 1) n); [|by unfold sized, zlen in *; cbn [slots set_slots]; rewrite length_insert|done|lia|lia].
  rewrite set_slots_twice. cbn [slots set_slots]. rewrite list_insert_inserts_lt by lia.
  by replace (Z.to_nat (i + 1)) with (S (Z.to_nat i)) by lia.
Qed.

(** *** Simulation *)

Lemma sim_ret {A B} (RA : A -> B -> Prop) x y : RA x y -> sim RA (stm_ret x) (stm_ret y).
Proof. intros H c a Hr. unfold sim_at. simpl. eauto. Qed.
Lemma sim_bind {A B A' B'} (RA : A -> B -> Prop) (RB : A' -> B' -> Prop) m1 m2 f1 f2 :
  sim RA m1 m2 -> (forall x y, RA x y -> sim RB (f1 x) (f2 y)) -> sim RB (stm_bind f1 m1) (stm_bind f2 m2).
Proof.
  intros Hm Hf c a Hr. unfold sim_at. specialize (Hm c a Hr). unfold sim_at in Hm. unfold stm_bind. destruct (m2 a) as [[y|e|] a'].
  - destruct Hm as (x & c' & -> & Hx & Hr'). by apply Hf.
  - destruct Hm as (c' & -> & H). eauto.
  - done.
Qed.
Lemma sim_mono {A B} (RA RB : A -> B -> Prop) m1 m2 : sim RA m1 m2 -> (forall x y, RA x y -> RB x y) -> sim RB m1 m2.
Proof. intros Hm H c a Hr. unfold sim_at. specialize (Hm c a Hr). unfold sim_at in Hm. destruct (m2 a) as [[y|e|] a']; naive_solver. Qed.
Lemma sim_err {A B} (RA : A -> B -> Prop) e : sim RA (stm_err e) (stm_err e).
Proof. intros c a Hr. unfold sim_at. simpl. eauto. Qed.
Lemma sim_fault {A B} (RA : A -> B -> Prop) m : sim RA m fault.
Proof. done. Qed.
Lemma sim_opt {A B} (RA : A -> B -> Prop) (o : option A) (o' : option B) :
  (forall y, o' = Some y -> exists x, o = Some x /\ RA x y) -> sim RA (stm_opt o) (stm_opt o').
Proof. intros H c a Hr. unfold sim_at. unfold stm_opt. destruct o' as [y|]; [|done]. destruct (H y eq_refl) as (x & -> & Hx). eauto. Qed.
Lemma sim_ensure b e : sim eq (stm_ensure b e) (stm_ensure b e).
Proof. destruct b; [by apply sim_ret|apply sim_err]. Qed.

Hypothesis Hframe : 0 <= p_frame_bytes P.

(** A relation at one pair of states, for operations that look at both. *)
Lemma rel_sized c a : rel c a -> sized c.
Proof. intros H. split; [apply H|done]. Qed.
Lemma rel_frames_length below ip cs fs : rel_frames below ip cs fs -> length cs = length fs.
Proof. induction 1; simpl; congruence. Qed.
Lemma rel_depth c a : rel c a -> call_depth c = zlen (a_frames a).
Proof. intros H. unfold call_depth, zlen. by rewrite (rel_frames_length _ _ _ _ (r_frames c a H)). Qed.

Definition top_rel (c : exec) (a : activation) (f : aframe) (fs : list aframe) (cf : wah_call_frame) (cs : list wah_call_frame) (code : fcode) : Prop :=
  frames c = cf :: cs /\ frame_rel (a_below a) fs (ip c) cf f code /\ rel_frames (a_below a) (saved_ip cs) cs fs /\
  room_for c (fr_base cf + room code) /\
  sp c = fr_base cf + zlen (a_locals f) + zlen (a_ops f) /\ 0 <= fr_base cf.
Lemma rel_top c a f fs : rel c a -> a_frames a = f :: fs -> exists cf cs code, top_rel c a f fs cf cs code.
Proof.
  intros H E. pose proof (r_frames c a H) as HF. rewrite E in HF. inversion HF as [|? cf cs ? ? code Hc Hcs Ei Ec Ef]. subst.
  exists cf, cs, code. split; [done|]. split; [done|]. split; [done|]. split; [|split].
  - unfold room_for. rewrite (rel_depth c a H), E. replace (zlen (f :: fs)) with (zlen fs + 1) by (unfold zlen; simpl; lia). apply (fr_room _ _ _ _ _ _ Hc).
  - rewrite (r_sp c a H), E, flat_newest, (fr_base_eq _ _ _ _ _ _ Hc). unfold zlen. rewrite !length_app, length_rev. lia.
  - rewrite (fr_base_eq _ _ _ _ _ _ Hc). unfold zlen. lia.
Qed.
Lemma flat_handlers_same below f f' fs : a_handlers f' = a_handlers f -> a_fn f' = a_fn f -> length (a_locals f') = length (a_locals f) ->
  flat_handlers below (f' :: fs) = flat_handlers below (f :: fs).
Proof. intros E1 E2 E3. simpl. by rewrite E1, E2; unfold zlen; simpl; rewrite E3. Qed.
(** The newest frame and the slots of its values change. *)
Lemma rel_update c a f fs f' sl : rel c a -> a_frames a = f :: fs -> a_fn f' = a_fn f -> a_handlers f' = a_handlers f ->
  length (a_locals f') = length (a_locals f) -> fits P f' = true -> length sl = length (slots c) ->
  vals sl (flat (a_below a) (f' :: fs)) ->
  rel (Exec sl (zlen (flat (a_below a) (f' :: fs))) (a_ip f') (frames c) (handlers c) (ex_env c)) (set_a_frames (f' :: fs) a).
Proof.
  intros H E Efn Eh El Hfit Esl Hv. destruct (rel_top c a f fs H E) as (cf & cs & code & Ec & Hc & Hcs & _).
  split; cbn [sp slots ip frames handlers ex_env a_below a_frames a_env set_a_frames]; try done.
  - rewrite <- (r_slots c a H). unfold zlen. by rewrite Esl.
  - rewrite Ec. apply rf_cons with code; [|done]. destruct Hc as [H1 H2 H3 H4 H5 H6 H7]. split; try done; try congruence.
    unfold fits in Hfit. rewrite Efn, H4 in Hfit. by apply Z.leb_le in Hfit.
  - rewrite (r_handlers c a H), E. symmetry. by apply flat_handlers_same.
  - apply H.
Qed.
Lemma fits_top c a f fs : rel c a -> a_frames a = f :: fs -> fits P f = true.
Proof.
  intros H E. destruct (rel_top c a f fs H E) as (cf & cs & code & Ec & Hc & _). unfold fits.
  rewrite (fr_code _ _ _ _ _ _ Hc). apply Z.leb_le, Hc.
Qed.

(** *** Operands and locals *)

Definition any {A B} (x : A) (y : B) : Prop := True.
Lemma rel_eq c c' a : rel c a -> c' = c -> rel c' a.
Proof. by intros H ->. Qed.
(** A read of the newest frame of an activation. *)
Ltac with_top a f fs E :=
  unfold a_top, stm_bind, stm_opt; destruct (a_frames a) as [|f fs] eqn:E; [done|]; cbn [head].
Ltac top c a f fs H E cf cs code Hec Hc Hcs Hroom Hsp Hbase :=
  destruct (rel_top c a f fs H E) as (cf & cs & code & Hec & Hc & Hcs & Hroom & Hsp & Hbase).

Lemma vals_top c a f fs : rel c a -> a_frames a = f :: fs -> vals (slots c) (flat (a_below a) fs ++ a_locals f ++ rev (a_ops f)).
Proof. intros H E. pose proof (r_vals c a H) as Hv. by rewrite E in Hv. Qed.
Lemma flat_length c a f fs cf cs code : rel c a -> a_frames a = f :: fs -> top_rel c a f fs cf cs code ->
  zlen (flat (a_below a) fs) = fr_base cf.
Proof. intros H E (_ & Hc & _). by rewrite (fr_base_eq _ _ _ _ _ _ Hc). Qed.

Lemma sim_push x v : rel_v x v -> sim any (ex_push P x) (a_push P v).
Proof.
  intros Hxv c a Hr. unfold sim_at. unfold a_push. with_top a f fs E. unfold a_put_fitting.
  destruct (fits P (af_set_ops (v :: a_ops f) f)) eqn:Hfit; [|done]. unfold a_put_top. rewrite E.
  destruct (rel_top c a f fs Hr E) as (cf & cs & code & HT). pose proof (flat_length c a f fs cf cs code Hr E HT) as Hfl.
  destruct HT as (Hec & Hc & Hcs & Hroom & Hsp & Hbase). pose proof (rel_sized c a Hr) as Hsz.
  assert (zlen (a_locals f) + zlen (a_ops f) + 1 <= room code) as Hlt.
  { unfold fits in Hfit. cbn [a_fn a_locals a_ops af_set_ops] in Hfit. rewrite (fr_code _ _ _ _ _ _ Hc) in Hfit.
    apply Z.leb_le in Hfit. unfold zlen in *. simpl length in Hfit. lia. }
  assert (0 <= zlen (a_locals f) /\ 0 <= zlen (a_ops f)) as [? ?] by (unfold zlen; lia).
  unfold ex_push, stm_bind, get_sp. rewrite (store_ok c (sp c) _ x Hsz Hroom) by lia. unfold put_sp.
  eexists tt, _. split; [reflexivity|]. split; [done|].
  eapply rel_eq; [apply (rel_update c a f fs (af_set_ops (v :: a_ops f) f) (<[Z.to_nat (sp c):=x]> (slots c)) Hr E); try done|].
  - by rewrite length_insert.
  - cbn [flat a_locals a_ops af_set_ops]. simpl rev. rewrite !app_assoc.
    change (<[Z.to_nat (sp c):=x]> (slots c)) with (list_inserts (Z.to_nat (sp c)) [x] (slots c)).
    apply vals_inserts.
    + rewrite <- app_assoc. by apply (vals_top c a f fs).
    + by repeat constructor.
    + rewrite Hsp, <- Hfl. unfold zlen. rewrite !length_app, length_rev. lia.
    + pose proof (room_slots c _ Hsz Hroom). unfold zlen in *. simpl. lia.
  - unfold set_sp, set_slots. cbn. f_equal; [|by rewrite (fr_ip_eq _ _ _ _ _ _ Hc)].
    rewrite Hsp, <- Hfl. unfold zlen. rewrite !length_app, length_rev. simpl. rewrite ?length_app, ?length_rev. simpl. lia.
Qed.

Lemma vals_at sl l1 v l2 : vals sl (l1 ++ v :: l2) -> exists x, sl !! length l1 = Some x /\ rel_v x v.
Proof. intros H. apply H. by rewrite lookup_app_r, Nat.sub_diag by lia. Qed.
Lemma frame_sizes (f : aframe) : 0 <= zlen (a_locals f) /\ 0 <= zlen (a_ops f).
Proof. unfold zlen. lia. Qed.
Lemma put_top_rel c a f fs f' sl sp' ip' : rel c a -> a_frames a = f :: fs -> a_fn f' = a_fn f -> a_handlers f' = a_handlers f ->
  length (a_locals f') = length (a_locals f) -> fits P f' = true -> length sl = length (slots c) ->
  vals sl (flat (a_below a) (f' :: fs)) ->
  sp' = zlen (flat (a_below a) fs) + zlen (a_locals f') + zlen (a_ops f') -> ip' = a_ip f' ->
  rel (Exec sl sp' ip' (frames c) (handlers c) (ex_env c)) (set_a_frames (f' :: fs) a).
Proof.
  intros H E E1 E2 E3 Hf Hl Hv -> ->. eapply rel_eq; [by apply (rel_update c a f fs f' sl)|]. f_equal.
  rewrite flat_newest. unfold zlen. rewrite !length_app, length_rev. lia.
Qed.
Lemma fits_less c a f fs ops : rel c a -> a_frames a = f :: fs -> zlen ops <= zlen (a_ops f) -> fits P (af_set_ops ops f) = true.
Proof.
  intros H E Hl. pose proof (fits_top c a f fs H E) as Hf. unfold fits in *. cbn [a_fn a_locals a_ops af_set_ops].
  destruct (zget (p_functions P) (a_fn f)); [|done]. rewrite Z.leb_le in *. lia.
Qed.

Lemma sim_pop : sim rel_v (ex_pop P) a_pop.
Proof.
  intros c a Hr. unfold sim_at. unfold a_pop. with_top a f fs E. destruct (a_ops f) as [|v l] eqn:El; [done|]. unfold a_put_top. rewrite E. unfold stm_ret.
  destruct (rel_top c a f fs Hr E) as (cf & cs & code & HT). pose proof (flat_length c a f fs cf cs code Hr E HT) as Hfl.
  destruct HT as (Hec & Hc & Hcs & Hroom & Hsp & Hbase). destruct (frame_sizes f) as [? ?].
  assert (Hlt : zlen (a_ops f) = zlen l + 1) by (rewrite El; unfold zlen; simpl; lia). pose proof (fr_fits _ _ _ _ _ _ Hc).
  pose proof (vals_top c a f fs Hr E) as Hv. rewrite El in Hv. simpl rev in Hv. rewrite !app_assoc in Hv.
  destruct (vals_at _ _ _ _ Hv) as (x & Hx & Hxv). assert (0 <= zlen l) by (unfold zlen; lia).
  unfold ex_pop, stm_bind, get_sp. rewrite (load_ok c (sp c - 1) _ x Hroom); [|lia|].
  2:{ rewrite zget_nat by lia. rewrite <- Hx. f_equal. unfold zlen in *. rewrite !length_app, length_rev. lia. }
  unfold put_sp, stm_ret. eexists x, _. split; [reflexivity|]. split; [done|].
  apply (put_top_rel c a f fs); try done.
  - apply (fits_less c a f fs); [done|done|lia].
  - rewrite flat_newest. cbn [a_locals a_ops af_set_ops]. rewrite !app_assoc. by apply vals_app in Hv.
  - cbn [a_locals a_ops af_set_ops]. lia.
  - apply Hc.
Qed.
Lemma known_spec w x v y : rel_v x v -> known w v = Some y -> get_u w x = y.
Proof.
  destruct v as [m z]. intros [Hm <-] H. unfold known in H. destruct (Z.leb_spec 0 w), (Z.leb_spec w m); simpl in H; simplify_eq.
  unfold get_u. symmetry. apply Z.mod_mod_divide. exists (2 ^ (m - w)). rewrite <- Z.pow_add_r by lia. f_equal. lia.
Qed.
Lemma sim_member w x v : rel_v x v -> sim eq (ex_member w x) (a_member w v).
Proof.
  intros Hv c a Hr. unfold sim_at. unfold a_member, stm_opt, ex_member, stm_ret. destruct (known w v) as [y|] eqn:E; [|done].
  eexists _, c. split; [reflexivity|]. split; [by apply (known_spec w x v)|done].
Qed.
Lemma rel_put w x y : 0 <= w -> rel_v (put w x y) (Known w (x mod 2 ^ w)).
Proof. intros Hw. split; [done|]. by apply put_get. Qed.
Lemma push_slot c a v a' : rel c a -> a_push P v a = (Ok tt, a') -> exists y, load P (sp c) c = (Ok y, c).
Proof.
  intros Hr. unfold a_push, a_top, stm_bind, stm_opt. destruct (a_frames a) as [|f fs] eqn:E; [done|]. cbn [head]. unfold a_put_fitting.
  destruct (fits P (af_set_ops (v :: a_ops f) f)) eqn:Hfit; [|done]. intros _.
  destruct (rel_top c a f fs Hr E) as (cf & cs & code & HT). destruct HT as (Hec & Hc & Hcs & Hroom & Hsp & Hbase).
  unfold fits in Hfit. cbn [a_fn a_locals a_ops af_set_ops] in Hfit. rewrite (fr_code _ _ _ _ _ _ Hc) in Hfit.
  apply Z.leb_le in Hfit. destruct (frame_sizes f). pose proof (room_slots c _ (rel_sized c a Hr) Hroom).
  assert (zlen (v :: a_ops f) = zlen (a_ops f) + 1) by (unfold zlen; simpl; lia).
  destruct (lookup_lt_is_Some_2 (slots c) (Z.to_nat (sp c))) as [y Hy]; [unfold zlen in *; lia|].
  exists y. apply (load_ok c _ _ y Hroom); [lia|]. by rewrite zget_nat by lia.
Qed.
Lemma a_push_outcome v a : (exists a', a_push P v a = (Ok tt, a')) \/ exists a', a_push P v a = (Fault, a').
Proof.
  unfold a_push, a_top, stm_bind, stm_opt, a_put_fitting, a_put_top, fault. destruct (a_frames a) as [|f fs] eqn:E; simpl; [eauto|].
  destruct (fits _ _); rewrite ?E; eauto.
Qed.
Lemma sim_push_member w x : 0 <= w -> sim any (ex_push_member P w x) (a_push_member P w x).
Proof.
  intros Hw c a Hr. unfold sim_at. unfold a_push_member.
  destruct (a_push_outcome (Known w (x mod 2 ^ w)) a) as [[a' E]|[a' E]]; [|by rewrite E].
  destruct (push_slot c a _ a' Hr E) as [y Hy].
  pose proof (sim_push (put w x y) _ (rel_put w x y Hw) c a Hr) as HS. unfold sim_at in HS. rewrite E in *.
  destruct HS as (u & c' & HS & Hrest). exists u, c'. split; [|done]. rewrite <- HS.
  unfold ex_push_member, ex_push, stm_bind, get_sp. by rewrite Hy.
Qed.

Lemma sim_get_local i : sim rel_v (ex_get_local P i) (a_get_local i).
Proof.
  intros c a Hr. unfold sim_at. unfold a_get_local. with_top a f fs E. destruct (zget (a_locals f) i) as [v|] eqn:Ev; [|done].
  destruct (rel_top c a f fs Hr E) as (cf & cs & code & HT). pose proof (flat_length c a f fs cf cs code Hr E HT) as Hfl.
  destruct HT as (Hec & Hc & Hcs & Hroom & Hsp & Hbase). destruct (frame_sizes f) as [? ?]. pose proof (fr_fits _ _ _ _ _ _ Hc).
  apply zget_Some in Ev as [Hi Ev].
  destruct (vals_top c a f fs Hr E (Z.to_nat (fr_base cf + i)) v) as (x & Hx & Hxv).
  { rewrite lookup_app_r by (unfold zlen in *; lia). rewrite lookup_app_l by (unfold zlen in *; lia). rewrite <- Ev. f_equal. unfold zlen in *. lia. }
  unfold ex_get_local, top_frame, stm_bind, stm_opt. rewrite Hec. cbn [head].
  rewrite (load_ok c _ _ x Hroom); [|lia|by rewrite zget_nat by lia]. eexists x, c. by split.
Qed.
Lemma zset_in_range {A} (l : list A) i x l' : zset l i x = Some l' -> 0 <= i < zlen l.
Proof. unfold zset, zlen. destruct (Z.ltb_spec i 0), (Z.leb_spec (Z.of_nat (length l)) i); simpl; done || lia. Qed.
Lemma sim_set_local i x v : rel_v x v -> sim any (ex_set_local P i x) (a_set_local i v).
Proof.
  intros Hxv c a Hr. unfold sim_at. unfold a_set_local. with_top a f fs E. destruct (zset (a_locals f) i v) as [l|] eqn:Ev; [|done]. unfold a_put_top. rewrite E.
  destruct (rel_top c a f fs Hr E) as (cf & cs & code & HT). pose proof (flat_length c a f fs cf cs code Hr E HT) as Hfl.
  destruct HT as (Hec & Hc & Hcs & Hroom & Hsp & Hbase). destruct (frame_sizes f) as [? ?]. pose proof (fr_fits _ _ _ _ _ _ Hc) as Hfits.
  assert (0 <= i < zlen (a_locals f)) as Hi by (by apply (zset_in_range _ _ v l)). rewrite zset_Some in Ev by done. apply (inj Some) in Ev as <-. pose proof (rel_sized c a Hr) as Hsz. pose proof (room_slots c _ Hsz Hroom).
  unfold ex_set_local, top_frame, stm_bind, stm_opt. rewrite Hec. cbn [head].
  rewrite (store_ok c _ _ x Hsz Hroom) by lia. eexists tt, _. split; [reflexivity|]. split; [done|].
  unfold set_slots. apply (put_top_rel c a f fs); try done.
  - cbn [a_locals af_set_locals]. by rewrite length_insert.
  - unfold fits. cbn [a_fn a_locals a_ops af_set_locals]. rewrite (fr_code _ _ _ _ _ _ Hc). unfold zlen. rewrite length_insert. by apply Z.leb_le.
  - by rewrite length_insert.
  - rewrite flat_newest. cbn [a_locals a_ops af_set_locals].
    rewrite <- insert_app_l by (unfold zlen in *; lia). rewrite <- insert_app_r.
    replace (length (flat (a_below a) fs) + Z.to_nat i)%nat with (Z.to_nat (fr_base cf + i)) by (unfold zlen in *; lia).
    apply vals_insert; [by apply (vals_top c a f fs)|done|unfold zlen in *; lia].
  - cbn [a_locals a_ops af_set_locals]. unfold zlen in *. rewrite length_insert. lia.
  - apply Hc.
Qed.

Lemma sim_get_ip : sim eq (fun s => (Ok (ip s), s)) a_get_ip.
Proof.
  intros c a Hr. unfold sim_at. unfold a_get_ip. with_top a f fs E. destruct (rel_top c a f fs Hr E) as (cf & cs & code & _ & Hc & _).
  eexists _, c. split; [reflexivity|]. split; [apply Hc|done].
Qed.
Lemma sim_set_ip x : sim any (put_ip x) (a_set_ip x).
Proof.
  intros c a Hr. unfold sim_at. unfold a_set_ip. with_top a f fs E. unfold a_put_top. rewrite E.
  destruct (rel_top c a f fs Hr E) as (cf & cs & code & HT). pose proof (flat_length c a f fs cf cs code Hr E HT) as Hfl.
  destruct HT as (Hec & Hc & Hcs & Hroom & Hsp & Hbase). eexists tt, _. split; [reflexivity|]. split; [done|].
  apply (put_top_rel c a f fs); try done; [by apply (fits_top c a f fs)|by apply (vals_top c a f fs)|]. cbn [a_locals a_ops af_set_ip]. lia.
Qed.
Lemma sim_current : sim eq (ex_current P) (a_current P).
Proof.
  intros c a Hr. unfold sim_at. unfold a_current. with_top a f fs E. destruct (rel_top c a f fs Hr E) as (cf & cs & code & Hec & Hc & _).
  rewrite (fr_code _ _ _ _ _ _ Hc). unfold ex_current, top_frame, stm_bind, stm_opt. rewrite Hec. cbn [head].
  rewrite (fr_fn_eq _ _ _ _ _ _ Hc), (fr_code _ _ _ _ _ _ Hc). eexists _, c. by split.
Qed.
Lemma rel_set_env c a m n : rel c a -> rel_env m n -> rel (set_ex_env m c) (set_a_env n a).
Proof. intros H Hn. by split; try apply H. Qed.

Lemma vals_slice_at sl l1 l2 l3 i : vals sl (l1 ++ l2 ++ l3) -> i = length l1 -> Forall2 rel_v (take (length l2) (drop i sl)) l2.
Proof. intros H ->. by apply (vals_slice sl l1 l2 l3). Qed.
(** The [n] topmost operands. *)
Lemma split_ops (l : list aval) n : 0 <= n <= zlen l ->
  rev l = rev (drop (Z.to_nat n) l) ++ rev (take (Z.to_nat n) l) /\ zlen (take (Z.to_nat n) l) = n /\ zlen (drop (Z.to_nat n) l) = zlen l - n.
Proof.
  intros H. split; [rewrite <- rev_app_distr; by rewrite take_drop|]. unfold zlen in *. rewrite length_take, length_drop. lia.
Qed.
Lemma sim_pop_values n : sim (Forall2 rel_v) (ex_pop_values P n) (a_pop_values n).
Proof.
  intros c a Hr. unfold sim_at. unfold a_pop_values. with_top a f fs E.
  destruct (Z.leb_spec 0 n); [|done]. destruct (Z.leb_spec n (zlen (a_ops f))); [|done]. cbn [andb].
  unfold a_put_top. rewrite E. unfold stm_ret.
  destruct (rel_top c a f fs Hr E) as (cf & cs & code & HT). pose proof (flat_length c a f fs cf cs code Hr E HT) as Hfl.
  destruct HT as (Hec & Hc & Hcs & Hroom & Hsp & Hbase). destruct (frame_sizes f) as [? ?]. pose proof (fr_fits _ _ _ _ _ _ Hc) as Hfits.
  destruct (split_ops (a_ops f) n ltac:(lia)) as (Hsplit & Ht & Hd). pose proof (vals_top c a f fs Hr E) as Hv. rewrite Hsplit, !app_assoc in Hv.
  unfold ex_pop_values, stm_bind, get_sp.
  rewrite (load_n_ok c _ (sp c - n) (fr_base cf + room code) (rel_sized c a Hr) Hroom) by lia. unfold put_sp, stm_ret.
  eexists _, _. split; [reflexivity|]. split.
  - rewrite <- (app_nil_r (rev (take _ _))) in Hv.
    pose proof (vals_slice_at _ _ (rev (take (Z.to_nat n) (a_ops f))) _ (Z.to_nat (sp c - n)) Hv) as HF.
    replace (Z.to_nat n) with (length (rev (take (Z.to_nat n) (a_ops f)))) at 1 by (rewrite length_rev; unfold zlen in Ht; lia).
    apply HF. rewrite !length_app, length_rev. unfold zlen in *. lia.
  - apply (put_top_rel c a f fs); try done.
    + apply (fits_less c a f fs); [done|done|lia].
    + rewrite flat_newest. cbn [a_locals a_ops af_set_ops]. rewrite !app_assoc. by apply vals_app in Hv.
    + cbn [a_locals a_ops af_set_ops]. lia.
    + apply Hc.
Qed.
Lemma memmove_ok c dst src n m : sized c -> room_for c m -> 0 <= n -> 0 <= src -> 0 <= dst -> src + n <= m -> dst + n <= m ->
  memmove_slots P dst src n c =
    (Ok tt, set_slots (list_inserts (Z.to_nat dst) (take (Z.to_nat n) (drop (Z.to_nat src) (slots c))) (slots c)) c).
Proof.
  intros Hs Hr Hn H1 H2 H3 H4. pose proof (room_slots c m Hs Hr). unfold memmove_slots, stm_bind. rewrite (load_n_ok c _ src m) by (done || lia).
  apply (store_n_ok _ c dst m); [done|done|done|]. unfold zlen in *. rewrite length_take, length_drop. lia.
Qed.
Lemma take_take_app (l : list aval) k n : 0 <= k -> 0 <= n -> k + n <= zlen l ->
  rev l = rev (drop (Z.to_nat (k + n)) l) ++ rev (take (Z.to_nat n) (drop (Z.to_nat k) l)) ++ rev (take (Z.to_nat k) l).
Proof.
  intros Hk Hn Hl. rewrite <- !rev_app_distr. f_equal. rewrite <- app_assoc.
  replace (Z.to_nat (k + n)) with (Z.to_nat k + Z.to_nat n)%nat by lia. rewrite <- drop_drop, take_drop. by rewrite take_drop.
Qed.
Lemma sim_drop_keep keep n : sim any (WAH_DROP_KEEP P keep n) (a_drop_keep keep n).
Proof.
  intros c a Hr. unfold sim_at. unfold a_drop_keep. with_top a f fs E.
  destruct (Z.leb_spec 0 keep); [|done]. destruct (Z.leb_spec 0 n); [|done]. destruct (Z.leb_spec (keep + n) (zlen (a_ops f))); [|done].
  cbn [andb]. unfold a_put_top. rewrite E.
  destruct (rel_top c a f fs Hr E) as (cf & cs & code & HT). pose proof (flat_length c a f fs cf cs code Hr E HT) as Hfl.
  destruct HT as (Hec & Hc & Hcs & Hroom & Hsp & Hbase). destruct (frame_sizes f) as [? ?]. pose proof (fr_fits _ _ _ _ _ _ Hc) as Hfits.
  pose proof (rel_sized c a Hr) as Hsz. pose proof (room_slots c _ Hsz Hroom) as Hsl.
  set (ops := take _ _ ++ drop _ _).
  assert (Hlen : zlen ops = zlen (a_ops f) - n) by (unfold ops, zlen in *; rewrite length_app, length_take, length_drop; lia).
  assert (Hrel : forall sl, length sl = length (slots c) -> vals sl (flat (a_below a) fs ++ a_locals f ++ rev ops) ->
    rel (Exec sl (sp c - n) (ip c) (frames c) (handlers c) (ex_env c)) (set_a_frames (af_set_ops ops f :: fs) a)).
  { intros sl Hl Hvs. apply (put_top_rel c a f fs); try done; [apply (fits_less c a f fs); [done|done|lia]| |apply Hc].
    cbn [a_locals a_ops af_set_ops]. lia. }
  pose proof (vals_top c a f fs Hr E) as Hv. unfold WAH_DROP_KEEP.
  destruct (Z.ltb_spec 0 n).
  2:{ eexists tt, c. split; [reflexivity|]. split; [done|]. assert (n = 0) as -> by lia.
      assert (ops = a_ops f) as Eo by (unfold ops; rewrite Z.add_0_r; apply take_drop).
      eapply rel_eq; [apply (Hrel (slots c)); [done|by rewrite Eo]|]. rewrite Z.sub_0_r. by destruct c. }
  unfold stm_bind, get_sp. destruct (Z.ltb_spec 0 keep).
  - rewrite (memmove_ok c _ _ _ (fr_base cf + room code)) by (done || lia). unfold put_sp. eexists tt, _. split; [reflexivity|]. split; [done|].
    rewrite (take_take_app (a_ops f) keep n) in Hv by lia. unfold set_sp, set_slots. cbn. apply Hrel; [by rewrite length_inserts|].
    unfold ops. rewrite rev_app_distr. rewrite !app_assoc. rewrite !app_assoc in Hv. apply vals_inserts.
    + by do 2 apply vals_app in Hv.
    + rewrite <- (app_nil_r (rev (take (Z.to_nat keep) _))) in Hv.
      pose proof (vals_slice_at _ _ (rev (take (Z.to_nat keep) (a_ops f))) _ (Z.to_nat (sp c - keep)) Hv) as HF.
      rewrite length_rev, length_take in HF. replace (Z.to_nat keep `min` length (a_ops f))%nat with (Z.to_nat keep) in HF by (unfold zlen in *; lia).
      apply HF. rewrite !length_app, !length_rev, length_take, !length_drop. unfold zlen in *. lia.
    + rewrite !length_app, length_rev, length_drop. unfold zlen in *. lia.
    + rewrite length_take, length_drop. unfold zlen in *. lia.
  - eexists tt, _. split; [reflexivity|]. split; [done|]. assert (keep = 0) as -> by lia. unfold put_sp, set_sp. cbn. apply Hrel; [done|].
    unfold ops. rewrite (take_take_app (a_ops f) 0 n) in Hv by lia. simpl in *. rewrite !app_assoc in Hv.
    rewrite app_nil_r in Hv. apply vals_app in Hv. by rewrite !app_assoc.
Qed.

(** *** Integer instructions *)

Definition ok_instr (i : int_instr) : Prop :=
  match i with INT w _ => w = 32 \/ w = 64 | EXTEND_S w m => (w = 32 \/ w = 64) /\ 0 < m < w | _ => True end.
Lemma get_u_rel w x v y : rel_v x v -> known w v = Some y -> get_u w x = y.
Proof. apply known_spec. Qed.
Lemma leaves_known w r a res : 0 <= w -> leaves w r a [] res -> exists v, res = Ok [v] /\ rel_v v (Known w r).
Proof. intros Hw (v & -> & Hv & _). exists v. by split. Qed.
(** The handler on one operand or two, and the function of the specification. *)
Lemma run_int_spec i a b x y : ok_instr i -> get_u (operand_width i) a = x -> (int_operands i = 2 -> get_u (operand_width i) b = y) ->
  match a_int i x y with
  | Some (Some (w, r)) => 0 <= w /\ exists v, run_int i (if int_operands i =? 2 then [b; a] else [a]) = Ok [v] /\ rel_v v (Known w r)
  | Some None => run_int i (if int_operands i =? 2 then [b; a] else [a]) = Err WAH_ERROR_TRAP
  | None => True
  end.
Proof.
  intros Hok Ha Hb. destruct i as [w o| | | |w m]; cbn [a_int operand_width int_operands] in *.
  - assert (exists n, ok_width n /\ w = Z.of_nat n) as (n & Hn & ->).
    { destruct Hok as [-> | ->]; [exists 32%nat|exists 64%nat]; (split; [by (left + right)|done]). }
    rewrite Nat2Z.id. destruct (run_int_does n o a b [] Hn) as [H _]. unfold does in H.
    assert (spec_int n o (get_u (Z.of_nat n) a) (get_u (Z.of_nat n) b) = spec_int n o x y) as Es.
    { rewrite Ha. destruct (binary o) eqn:Eb; [by rewrite Hb|]. destruct o; done. }
    rewrite Es in H. assert (((if binary o then 2 else 1) =? 2) = binary o) as -> by (by destruct (binary o)).
    destruct (spec_int n o x y) as [r|]; [|by destruct (binary o)].
    assert (0 <= (if test o then 32 else Z.of_nat n)) by (destruct (test o); lia).
    split; [done|]. apply (leaves_known _ _ a); [done|]. by destruct (binary o).
  - destruct (run_int_does 32 CLZ a b [] ltac:(by left)) as (_ & H & _). split; [done|]. apply (leaves_known _ _ a); [done|].
    unfold wrapped. by rewrite <- Ha.
  - destruct (run_int_does 32 CLZ a b [] ltac:(by left)) as (_ & _ & H & _). split; [done|]. apply (leaves_known _ _ a); [done|]. by rewrite <- Ha.
  - destruct (run_int_does 32 CLZ a b [] ltac:(by left)) as (_ & _ & _ & H & _). split; [done|]. apply (leaves_known _ _ a); [done|]. by rewrite <- Ha.
  - destruct Hok as [Hw Hm]. assert (exists n, ok_width n /\ w = Z.of_nat n) as (n & Hn & ->).
    { destruct Hw as [-> | ->]; [exists 32%nat|exists 64%nat]; (split; [by (left + right)|done]). }
    destruct (run_int_does n CLZ a b [] Hn) as (_ & _ & _ & _ & H). split; [lia|]. apply (leaves_known _ _ a); [lia|].
    rewrite <- Ha. by apply H.
Qed.

(** Operands that are read, then replaced by one result. *)
Lemma ex_push_after c y v c2 : ex_push P v (set_sp y c) = (Ok tt, c2) -> (store P y v ;;; put_sp (y + 1)) c = (Ok tt, c2).
Proof.
  unfold ex_push, stm_bind, get_sp, put_sp, store, in_buffer, call_depth. cbn [frames slots set_sp sp]. destruct (_ && _); [|done].
  destruct (zset _ _ _); [|done]. intros [= <-]. done.
Qed.
Lemma ex_pop_values_inv n c vs c1 : ex_pop_values P n c = (Ok vs, c1) -> load_n P (Z.to_nat n) (sp c - n) c = (Ok vs, c) -> c1 = set_sp (sp c - n) c.
Proof. unfold ex_pop_values, stm_bind, get_sp. intros H E. rewrite E in H. by injection H. Qed.
Lemma load_n_state k : forall i c r, load_n P k i c = r -> r.2 = c.
Proof.
  induction k as [|k IH]; intros i c r <-; [done|]. cbn [load_n]. unfold stm_bind, load. destruct (in_buffer P c i); [|done].
  unfold stm_opt. destruct (zget (slots c) i); [|done]. specialize (IH (i + 1) c _ eq_refl). destruct (load_n P k (i + 1) c) as [[?|?|] ?]; simpl in *; by subst.
Qed.
Lemma ex_pop_values_ok n c vs c1 : ex_pop_values P n c = (Ok vs, c1) ->
  load_n P (Z.to_nat n) (sp c - n) c = (Ok vs, c) /\ c1 = set_sp (sp c - n) c.
Proof.
  unfold ex_pop_values, stm_bind, get_sp. destruct (load_n P (Z.to_nat n) (sp c - n) c) as [[ws|e|] c'] eqn:E; [|done..].
  pose proof (load_n_state _ _ _ _ E) as <-. simpl. unfold put_sp. intros [= <- <-]. done.
Qed.
Lemma a_pop_values_two f fs a va vb l : a_frames a = f :: fs -> a_ops f = vb :: va :: l ->
  a_pop_values 2 a = (Ok [va; vb], set_a_frames (af_set_ops l f :: fs) a).
Proof.
  intros E Eo. unfold a_pop_values, a_top, stm_bind, stm_opt. rewrite E. cbn [head]. rewrite Eo.
  rewrite (proj2 (Z.leb_le 2 (zlen (vb :: va :: l)))) by (unfold zlen; simpl; lia). cbn [andb Z.leb Z.compare]. unfold a_put_top. by rewrite E.
Qed.
Lemma a_pop_values_one f fs a va l : a_frames a = f :: fs -> a_ops f = va :: l ->
  a_pop_values 1 a = (Ok [va], set_a_frames (af_set_ops l f :: fs) a).
Proof.
  intros E Eo. unfold a_pop_values, a_top, stm_bind, stm_opt. rewrite E. cbn [head]. rewrite Eo.
  rewrite (proj2 (Z.leb_le 1 (zlen (va :: l)))) by (unfold zlen; simpl; lia). cbn [andb Z.leb Z.compare]. unfold a_put_top. by rewrite E.
Qed.
(** The result of an instruction that has popped its operands. *)
Definition a_int_result (i : int_instr) (a b : Z) : comp activation unit :=
  r <- stm_opt (a_int i a b) ;; match r with Some (w, x) => a_push P (Known w x) | None => stm_err WAH_ERROR_TRAP end.
Lemma int_finish i n c a a1 vs x y : ok_instr i -> n = int_operands i -> rel c a -> a_pop_values n a = (Ok vs, a1) ->
  (forall zs, Forall2 rel_v zs vs -> get_u (operand_width i) (default 0 (head zs)) = x /\
     (n = 2 -> exists z1 z2, zs = [z1; z2] /\ get_u (operand_width i) z2 = y) /\ (n = 1 -> exists z1, zs = [z1])) ->
  match a_int_result i x y a1 with
  | (Ok _, a') => exists u c', ex_int_op P i c = (Ok u, c') /\ any u tt /\ rel c' a'
  | (Err e, a') => exists c', ex_int_op P i c = (Err e, c') /\ (resumable e -> rel c' a')
  | (Fault, _) => True
  end.
Proof.
  intros Hok Hn Hr Ep Hzs. pose proof (sim_pop_values n c a Hr) as HS. unfold sim_at in HS. rewrite Ep in HS. destruct HS as (zs & c1 & Ex & Hzv & Hr1).
  destruct (ex_pop_values_ok _ _ _ _ Ex) as [El ->]. destruct (Hzs zs Hzv) as (Hx & H2 & H1).
  assert (Hrev : exists z1 z2, @eq stack (rev zs) (if int_operands i =? 2 then [z2; z1] else [z1]) /\ get_u (operand_width i) z1 = x /\
    (int_operands i = 2 -> get_u (operand_width i) z2 = y)).
  { destruct (decide (n = 2)) as [E2|E2].
    - destruct (H2 E2) as (z1 & z2 & -> & Hy). exists z1, z2. rewrite <- Hn, E2. done.
    - assert (n = 1) as E1 by (subst n; unfold int_operands in *; destruct i as [? o| | | |]; try done; destruct (binary o); done).
      destruct (H1 E1) as (z1 & ->). exists z1, 0. rewrite <- Hn, E1. done. }
  destruct Hrev as (z1 & z2 & Hrev & Hx1 & Hy2). pose proof (run_int_spec i z1 z2 x y Hok Hx1 Hy2) as HI.
  assert (Eint : ex_int_op P i c = match run_int i (rev zs) with
    | Ok [v] => (store P (sp c - n) v ;;; put_sp (sp c - n + 1)) c | Ok _ => (Fault, c) | Err e => (Err e, c) | Fault => (Fault, c) end).
  { unfold ex_int_op. unfold stm_bind at 1, get_sp. rewrite <- Hn. unfold stm_bind at 1. rewrite El.
    destruct (run_int i (rev zs)) as [[|v [|? ?]]|e|]; done. }
  rewrite Eint, Hrev. clear Eint. unfold a_int_result, stm_bind, stm_opt. destruct (a_int i x y) as [[[w r]|]|]; [| |done].
  2: { unfold stm_err. exists c. split; [by rewrite HI|by intros [?|?]]. }
  destruct HI as (Hw & v & -> & Hv). pose proof (sim_push v _ Hv _ _ Hr1) as HP. unfold sim_at in HP.
  destruct (a_push P (Known w r) a1) as [[u|e|] a'] eqn:Eo; [|destruct (a_push_outcome (Known w r) a1) as [[? ?]|[? ?]]; congruence|done].
  destruct HP as (u' & c2 & HP & _ & Hr2). exists tt, c2. split; [|done]. apply ex_push_after. by destruct u'.
Qed.
Lemma a_pop_eq f fs a v l : a_frames a = f :: fs -> a_ops f = v :: l -> a_pop a = (Ok v, set_a_frames (af_set_ops l f :: fs) a).
Proof. intros E El. unfold a_pop, a_top, stm_bind, stm_opt, a_put_top. rewrite E. cbn [head]. by rewrite El, E. Qed.
Lemma a_pop_none a : (forall f fs, a_frames a = f :: fs -> a_ops f = []) -> (a_pop a).1 = Fault.
Proof. intros H. unfold a_pop, a_top, stm_bind, stm_opt. destruct (a_frames a) as [|f fs]; [done|]. cbn [head]. by rewrite (H f fs). Qed.
Lemma bind_fault {A B} (m : comp activation A) (f : A -> comp activation B) a : (m a).1 = Fault -> (stm_bind f m a).1 = Fault.
Proof. unfold stm_bind. by destruct (m a) as [[?|?|] ?]. Qed.
Lemma bind_ok {A B} (m : comp activation A) (f : A -> comp activation B) a x a' : m a = (Ok x, a') -> stm_bind f m a = f x a'.
Proof. unfold stm_bind. by intros ->. Qed.
Lemma bind_bind {A B C} (m : comp activation A) (g : A -> comp activation B) (f : B -> comp activation C) a :
  stm_bind f (stm_bind g m) a = stm_bind (fun x => stm_bind f (g x)) m a.
Proof. unfold stm_bind. by destruct (m a) as [[?|?|] ?]. Qed.
Lemma a_member_eq w v a : a_member w v a = match known w v with Some x => (Ok x, a) | None => (Fault, a) end.
Proof. done. Qed.
Lemma sim_fault_at {A B} (RA : A -> B -> Prop) mc (ma : comp activation B) c a : (ma a).1 = Fault ->
  sim_at RA mc ma c a.
Proof. unfold sim_at. destruct (ma a) as [[?|?|] ?]; simpl; done. Qed.
Lemma sim_int_op i : ok_instr i -> sim any (ex_int_op P i) (a_int_op P i).
Proof.
  intros Hok c a Hr. unfold sim_at. set (w := operand_width i) in *. destruct (a_frames a) as [|f fs] eqn:E.
  { apply sim_fault_at. unfold a_int_op. destruct (_ =? 2); [apply bind_fault, bind_fault|unfold stm_bind at 1, stm_ret; apply bind_fault];
      apply a_pop_none; by rewrite E. }
  destruct (Z.eqb_spec (int_operands i) 2) as [E2|E2].
  - destruct (a_ops f) as [|vb [|va l]] eqn:Eo.
    + apply sim_fault_at. unfold a_int_op. rewrite E2. apply bind_fault, bind_fault, a_pop_none. intros ? ? E'. rewrite E in E'. by simplify_eq.
    + apply sim_fault_at. unfold a_int_op. rewrite E2. simpl Z.eqb. cbv iota. rewrite bind_bind. erewrite bind_ok by (by apply (a_pop_eq f fs _ vb [])).
      unfold stm_bind at 1. rewrite a_member_eq. destruct (known _ vb); [|done]. apply bind_fault, a_pop_none. intros ? ? E'. simpl in E'. by simplify_eq.
    + assert (Ei : a_int_op P i a = (vy <- a_member w vb ;; va' <- a_pop ;; vx <- a_member w va' ;; a_int_result i vx vy)
        (set_a_frames (af_set_ops (va :: l) f :: fs) a)).
      { unfold a_int_op. rewrite E2. simpl Z.eqb. cbv iota. rewrite bind_bind.
        erewrite bind_ok by (by apply (a_pop_eq f fs _ vb (va :: l))). done. }
      destruct (known w vb) as [y|] eqn:Ky; [|apply sim_fault_at; rewrite Ei; apply bind_fault; by rewrite a_member_eq, Ky].
      erewrite bind_ok in Ei by (by rewrite a_member_eq, Ky). erewrite bind_ok in Ei by (by apply (a_pop_eq (af_set_ops (va :: l) f) fs _ va l)).
      destruct (known w va) as [x|] eqn:Kx; [|apply sim_fault_at; rewrite Ei; apply bind_fault; by rewrite a_member_eq, Kx].
      erewrite bind_ok in Ei by (by rewrite a_member_eq, Kx). rewrite Ei.
      pose proof (int_finish i 2 c a _ [va; vb] x y Hok (eq_sym E2) Hr (a_pop_values_two f fs a va vb l E Eo)) as HF. fold w in HF.
      destruct (a_int_result i x y _) as [[u|e|] a']; destruct u || idtac; apply HF;
        (intros zs Hzs; inversion Hzs as [|z1 ? zs' ? H1 Hzs']; subst; inversion Hzs' as [|z2 ? ? ? H2 Hn]; subst; inversion Hn; subst;
         split; [by apply (known_spec w z1 va)|]; split; [intros _; exists z1, z2; split; [done|by apply (known_spec w z2 vb)]|done]).
  - destruct (a_ops f) as [|va l] eqn:Eo.
    + apply sim_fault_at. unfold a_int_op. rewrite (proj2 (Z.eqb_neq _ _) E2). unfold stm_bind at 1, stm_ret. apply bind_fault, a_pop_none. intros ? ? E'. rewrite E in E'. by simplify_eq.
    + assert (Ei : a_int_op P i a = (va' <- a_pop ;; vx <- a_member w va' ;; a_int_result i vx 0) a).
      { unfold a_int_op. by rewrite (proj2 (Z.eqb_neq _ _) E2). }
      erewrite bind_ok in Ei by (by apply (a_pop_eq f fs _ va l)).
      destruct (known w va) as [x|] eqn:Kx; [|apply sim_fault_at; rewrite Ei; apply bind_fault; by rewrite a_member_eq, Kx].
      erewrite bind_ok in Ei by (by rewrite a_member_eq, Kx). rewrite Ei.
      assert (1 = int_operands i) as E1 by (unfold int_operands in *; destruct i as [? o| | | |]; try done; destruct (binary o); done).
      pose proof (int_finish i 1 c a _ [va] x 0 Hok E1 Hr (a_pop_values_one f fs a va l E Eo)) as HF. fold w in HF.
      destruct (a_int_result i x 0 _) as [[u|e|] a']; destruct u || idtac; apply HF;
        (intros zs Hzs; inversion Hzs as [|z1 ? zs' ? H1 Hzs']; subst; inversion Hzs'; subst;
         split; [by apply (known_spec w z1 va)|]; split; [done|intros _; by exists z1]).
Qed.

(** *** Calls *)

Definition charged (n : Z) {V} (e : env V) : env V :=
  if (0 <? n) && p_metered P then set_fuel (en_fuel e - sizeof_wah_value_t * n / WAH_BULK_ITEMS_PER_FUEL) e else e.
Lemma rel_env_charged n e e' : rel_env e e' -> rel_env (charged n e) (charged n e').
Proof. intros H. unfold charged. destruct (_ && _); [|done]. destruct H. split; simpl; congruence. Qed.
Lemma a_charge_eq n a : a_charge_locals P n a = (Ok tt, set_a_env (charged n (a_env a)) a).
Proof. unfold a_charge_locals, charged. destruct (_ && _); [done|]. by destruct a. Qed.
Lemma zero_locals_ok n c m : sized c -> room_for c m -> 0 <= n -> 0 <= sp c -> sp c + n <= m ->
  zero_locals P n c = (Ok tt, Exec (list_inserts (Z.to_nat (sp c)) (replicate (Z.to_nat n) 0) (slots c)) (sp c + n) (ip c) (frames c) (handlers c)
    (charged n (ex_env c))).
Proof.
  intros Hs Hr Hn H0 Hm. unfold zero_locals, charged. destruct (Z.ltb_spec 0 n).
  - unfold stm_bind, get_sp, memzero_slots. rewrite (store_n_ok _ c (sp c) m); [|done..|unfold zlen; rewrite length_replicate; lia].
    unfold put_sp, wah_locals_fuel_charge. cbn [andb]. by destruct (p_metered P).
  - assert (n = 0) as -> by lia. destruct c. unfold stm_ret. simpl. by rewrite Z.add_0_r.
Qed.
Lemma zeros_rel n : Forall2 rel_v (replicate n 0) (replicate n (Known 64 0)).
Proof. induction n; simpl; constructor; [done|done]. Qed.

(** A new frame on top of those of [c] and [a], with [args] in the first slots of its locals. *)
Lemma called_frame_rel c a fn code args cs cs0 : rel (Exec (slots c) (sp c) (saved_ip cs) cs0 (handlers c) (ex_env c)) a ->
  rel_frames (a_below a) (saved_ip cs) cs (a_frames a) ->
  well_formed P fn code = true -> vals (slots c) (flat (a_below a) (a_frames a) ++ args) -> zlen args = fc_params code ->
  (sp c + room code) * sizeof_wah_value_t <= frame_ptr P (zlen (a_frames a) + 1) ->
  rel (Exec (list_inserts (Z.to_nat (sp c + fc_params code)) (replicate (Z.to_nat (fc_locals code)) 0) (slots c)) (sp c + fc_params code + fc_locals code) 0
        (CallFrame fn 0 (sp c) (fc_results code) :: cs) (handlers c) (ex_env c))
      (set_a_frames (a_new_frame fn code args :: a_frames a) a).
Proof.
  intros H Hcs Hwf Hv Hargs Hroom. unfold well_formed in Hwf. rewrite !andb_true_iff, !Z.leb_le in Hwf. destruct Hwf as ((((Hp & Hl) & Hls) & Hres) & Hf).
  destruct (zget (p_functions P) fn) as [code'|] eqn:Efn; [|done]. rewrite !andb_true_iff, !Z.eqb_eq in Hf. destruct Hf as ((Ep & Es) & Er).
  pose proof (r_sp _ _ H) as Hsp. cbn [sp] in Hsp. pose proof (r_slots _ _ H) as Hsl. cbn [slots] in Hsl.
  assert (Hfit : sp c + room code <= zlen (slots c)).
  { rewrite Hsl. apply Z.div_le_lower_bound; [done|]. unfold frame_ptr in Hroom. assert (0 <= zlen (a_frames a)) by (unfold zlen; lia). pose proof stack_end_le. unfold sizeof_wah_value_t in *. nia. }
  unfold room in *.
  split; cbn [sp slots ip frames handlers ex_env a_below a_frames a_env set_a_frames a_new_frame].
  - rewrite Hsp, flat_newest. unfold zlen in *. cbn [a_new_frame a_locals a_ops rev]. rewrite !length_app, length_replicate. simpl. lia.
  - rewrite <- Hsl. unfold zlen. by rewrite length_inserts.
  - rewrite flat_newest. cbn [a_new_frame a_locals a_ops rev]. rewrite app_nil_r, app_assoc. apply vals_inserts.
    + done.
    + apply zeros_rel.
    + rewrite Hsp, length_app. unfold zlen in *. lia.
    + rewrite length_replicate. unfold zlen in *. lia.
  - apply rf_cons with code'; [|done]. split; cbn; try done.
    + unfold zlen in *. rewrite length_app, length_replicate. unfold room. simpl. lia.
    + unfold room. rewrite Ep, Es. done.
  - apply (r_handlers _ _ H).
  - apply (r_env _ _ H).
Qed.
Lemma rel_frames_ip below ip cs fs ip' : rel_frames below ip cs fs -> ip = ip' -> rel_frames below ip' cs fs.
Proof. by intros H <-. Qed.
Lemma save_frame below ip cf cs fs : rel_frames below ip (cf :: cs) fs -> rel_frames below (saved_ip (fr_set_ip ip cf :: cs)) (fr_set_ip ip cf :: cs) fs.
Proof.
  intros H. inversion H as [|? ? ? f fs' code Hc Hcs]. subst. apply rf_cons with code; [|done]. by destruct Hc.
Qed.

Lemma a_used_flat a : a_used a = zlen (flat (a_below a) (a_frames a)).
Proof.
  unfold a_used. induction (a_frames a) as [|f fs IH]; simpl.
  - unfold zlen. rewrite length_rev. lia.
  - unfold zlen in *. rewrite !length_app, length_rev. lia.
Qed.
Lemma a_pop_values_outcome n a : (exists args f fs, a_frames a = f :: fs /\ 0 <= n /\ zlen args = n /\ a_ops f = rev args ++ drop (Z.to_nat n) (a_ops f) /\
    a_pop_values n a = (Ok args, set_a_frames (af_set_ops (drop (Z.to_nat n) (a_ops f)) f :: fs) a)) \/ (a_pop_values n a).1 = Fault.
Proof.
  unfold a_pop_values, a_top, a_put_top, stm_bind, stm_opt, stm_ret, fault. destruct (a_frames a) as [|f fs] eqn:E; [by right|]. cbn [head].
  destruct (Z.leb_spec 0 n); [|by right]. destruct (Z.leb_spec n (zlen (a_ops f))); [|by right]. cbn [andb]. rewrite E. left.
  exists (rev (take (Z.to_nat n) (a_ops f))), f, fs. split; [done|]. split; [done|]. split; [unfold zlen in *; rewrite length_rev, length_take; lia|].
  split; [by rewrite rev_involutive, take_drop|done].
Qed.
Lemma popped_at {A B} (RA : A -> B -> Prop) n (mc : comp exec A) (k : list aval -> comp activation B) c a : rel c a ->
  (forall f fs args cf cs code, a_frames a = f :: fs -> 0 <= n -> zlen args = n -> top_rel c a f fs cf cs code ->
     let a1 := set_a_frames (af_set_ops (drop (Z.to_nat n) (a_ops f)) f :: fs) a in
     rel (set_sp (sp c - n) c) a1 -> a_ops f = rev args ++ drop (Z.to_nat n) (a_ops f) ->
     vals (slots c) (flat (a_below a1) (a_frames a1) ++ args) ->
     match k args a1 with
     | (Ok y, a') => exists x c', mc c = (Ok x, c') /\ RA x y /\ rel c' a'
     | (Err e, a') => exists c', mc c = (Err e, c') /\ (resumable e -> rel c' a')
     | (Fault, _) => True
     end) ->
  sim_at RA mc (stm_bind k (a_pop_values n)) c a.
Proof.
  intros Hr Hk. destruct (a_pop_values_outcome n a) as [(args & f & fs & E & Hn & Hl & Eo & Ep)|Hf]; [|by apply sim_fault_at, bind_fault].
  unfold sim_at, stm_bind. pose proof (sim_pop_values n c a Hr) as HS. unfold sim_at in HS. unfold sim_at in HS. rewrite Ep in *. destruct HS as (xs & c1 & Ex & _ & Hr1).
  destruct (ex_pop_values_ok _ _ _ _ Ex) as [_ ->]. destruct (rel_top c a f fs Hr E) as (cf & cs & code & HT).
  eapply Hk; try done. pose proof (vals_top c a f fs Hr E) as Hv. rewrite Eo, rev_app_distr, rev_involutive in Hv.
  cbn [a_below a_frames set_a_frames]. rewrite flat_newest. cbn [a_locals a_ops af_set_ops]. by rewrite <- !app_assoc.
Qed.

Lemma well_formed_sizes fn code : well_formed P fn code = true -> 0 <= fc_params code /\ 0 <= fc_locals code <= fc_slots code /\ 0 <= fc_results code.
Proof. unfold well_formed. rewrite !andb_true_iff, !Z.leb_le. tauto. Qed.
Lemma call_run c code fn cf cs : frames c = cf :: cs ->
  WAH_CALL_WASM_INLINE P code fn c =
    if (sp c - fc_params code + fc_params code + fc_slots code) * sizeof_wah_value_t <=? frame_ptr P (call_depth c + 1)
    then (zero_locals P (fc_locals code) ;;; RELOAD_FRAME)
      (Exec (slots c) (sp c) (ip c) (CallFrame fn 0 (sp c - fc_params code) (fc_results code) :: fr_set_ip (ip c) cf :: cs) (handlers c) (ex_env c))
    else (Err WAH_ERROR_STACK_OVERFLOW, set_frames (fr_set_ip (ip c) cf :: cs) c).
Proof.
  destruct c as [sl s i fr hs n]. cbn [frames]. intros ->. unfold WAH_CALL_WASM_INLINE, wah_push_frame, stm_bind, get_sp, top_frame, put_top_frame, stm_opt, get_depth, get_frames, put_frames, stm_ensure, call_depth.
  cbn [head frames set_frames sp slots ip handlers ex_env].
  change (zlen (fr_set_ip i cf :: cs)) with (zlen (cf :: cs)). by destruct (_ <=? _).
Qed.
Lemma sim_call code fn : sim eq (WAH_CALL_WASM_INLINE P code fn) (a_call P code fn).
Proof.
  unfold a_call. destruct (well_formed P fn code) eqn:Hwf; [|done]. intros c a Hr. unfold sim_at. apply popped_at; [done|].
  intros f fs args cf cs code0 E Hn Hargs HT a1 Hr1 _ Hv. destruct HT as (Hec & Hc & Hcs & Hroom & Hsp & Hbase).
  assert (Hused : a_used a1 = sp c - fc_params code) by (rewrite a_used_flat, <- (r_sp _ _ Hr1); done).
  assert (Hdepth : a_depth a1 = call_depth c) by (symmetry; apply (rel_depth _ _ Hr1)).
  rewrite (call_run c code fn cf cs Hec). unfold stm_bind at 1, stm_get. unfold stm_bind at 1, a_fits. rewrite Hused, Hdepth. unfold room.
  replace (sp c - fc_params code + (fc_params code + fc_slots code)) with (sp c - fc_params code + fc_params code + fc_slots code) by lia.
  destruct (Z.leb_spec ((sp c - fc_params code + fc_params code + fc_slots code) * sizeof_wah_value_t) (frame_ptr P (call_depth c + 1))) as [Hfit|];
    unfold stm_ensure; [|unfold stm_err; eexists; split; [reflexivity|by intros [?|?]]].
  unfold stm_ret at 1. unfold stm_bind at 1, stm_put. unfold stm_bind at 1. rewrite a_charge_eq. unfold stm_ret.
  pose proof (r_frames _ _ Hr1) as HF. cbn [frames set_sp ip] in HF. rewrite Hec in HF. apply save_frame in HF.
  assert (Hcall : call_depth c = zlen (a_frames a1)) by done.
  pose proof (called_frame_rel (set_sp (sp c - fc_params code) c) a1 fn code args (fr_set_ip (ip c) cf :: cs) (frames c)) as HN.
  cbn [slots sp ip frames handlers ex_env set_sp] in HN.
  specialize (HN Hr1 HF Hwf Hv Hargs). rewrite <- Hcall in HN. unfold room in HN.
  rewrite Z.add_assoc in HN. specialize (HN Hfit). replace (sp c - fc_params code + fc_params code) with (sp c) in * by lia.
  destruct (well_formed_sizes fn code Hwf) as (? & ? & ?).
  set (c' := Exec _ _ _ _ _ _). unfold stm_bind. pose proof (r_sp _ _ Hr) as Hsp0.
  rewrite (zero_locals_ok _ c' (sp c + fc_slots code)).
  - eexists true, _. split; [reflexivity|]. split; [done|].
    eapply rel_eq; [apply rel_set_env; [exact HN|apply rel_env_charged, Hr1]|]. done.
  - split; [apply Hr|done].
  - unfold room_for, call_depth. subst c'. cbn [frames]. replace (zlen (_ :: _ :: _)) with (call_depth c + 1); [done|].
    unfold call_depth. rewrite Hec. unfold zlen. simpl. lia.
  - lia.
  - subst c'. cbn [sp]. rewrite Hsp0. unfold zlen. lia.
  - subst c'. cbn [sp]. lia.
Qed.

(** *** Leaving a frame *)

Lemma flat_handlers_depth below fs : Forall (fun h => h_depth h <= zlen fs) (flat_handlers below fs).
Proof.
  induction fs as [|f fs IH]; simpl; [constructor|]. apply Forall_app. split.
  - apply Forall_map, Forall_true. intros h. simpl. lia.
  - eapply Forall_impl; [exact IH|]. intros h Hh. unfold zlen in *. simpl in *. lia.
Qed.
Lemma drop_frame_handlers below f fs : drop_handlers (zlen (f :: fs)) (flat_handlers below (f :: fs)) = flat_handlers below fs.
Proof.
  cbn [flat_handlers]. induction (a_handlers f) as [|h hs IH]; simpl.
  - pose proof (flat_handlers_depth below fs) as Hd. destruct Hd as [|h l Hh _]; [done|]. cbn [drop_handlers].
    rewrite (proj2 (Z.leb_gt _ _)); [done|]. unfold zlen in *. simpl. lia.
  - rewrite Z.leb_refl. exact IH.
Qed.
(** What is left of [c] and [a] without the newest frame. *)
Lemma rel_lower c a f fs cf cs code sl : rel c a -> a_frames a = f :: fs -> top_rel c a f fs cf cs code ->
  length sl = length (slots c) -> vals sl (flat (a_below a) fs) ->
  rel (Exec sl (fr_base cf) (saved_ip cs) cs (flat_handlers (a_below a) fs) (ex_env c)) (set_a_frames fs a).
Proof.
  intros H E (Hec & Hc & Hcs & _) Hl Hv. split; cbn; try done; [apply Hc| |apply H].
  rewrite <- (r_slots _ _ H). unfold zlen. by rewrite Hl.
Qed.
Lemma drop_handlers_run c a f fs : rel c a -> a_frames a = f :: fs ->
  WAH_DROP_FRAME_HANDLERS c = (Ok tt, set_handlers (flat_handlers (a_below a) fs) c).
Proof.
  intros H E. unfold WAH_DROP_FRAME_HANDLERS, stm_bind, get_depth, get_handlers, put_handlers.
  rewrite (rel_depth _ _ H), (r_handlers _ _ H), E. by rewrite drop_frame_handlers.
Qed.
Lemma move_ok c dst src n m : sized c -> room_for c m -> 0 <= n -> 0 <= src -> 0 <= dst -> src + n <= m -> dst + n <= m ->
  (if 0 <? n then memmove_slots P dst src n else stm_ret tt) c =
    (Ok tt, set_slots (list_inserts (Z.to_nat dst) (take (Z.to_nat n) (drop (Z.to_nat src) (slots c))) (slots c)) c).
Proof.
  intros. destruct (Z.ltb_spec 0 n); [by apply (memmove_ok c dst src n m)|]. assert (n = 0) as -> by lia. by destruct c.
Qed.
Lemma exbind_ok {A B} (m : comp exec A) (f : A -> comp exec B) c x c' : m c = (Ok x, c') -> stm_bind f m c = f x c'.
Proof. unfold stm_bind. by intros ->. Qed.
Lemma bindx_bind {A B C} (m : comp exec A) (g : A -> comp exec B) (f : B -> comp exec C) c :
  stm_bind f (stm_bind g m) c = stm_bind (fun x => stm_bind f (g x)) m c.
Proof. unfold stm_bind. by destruct (m c) as [[?|?|] ?]. Qed.
Lemma tail_call_run c code fn cf cs hs : frames c = cf :: cs -> WAH_DROP_FRAME_HANDLERS c = (Ok tt, set_handlers hs c) ->
  WAH_TAIL_CALL_WASM P code fn c =
    (stm_ensure ((fr_base cf + fc_params code + fc_slots code) * sizeof_wah_value_t <=? frame_ptr P (call_depth c)) WAH_ERROR_STACK_OVERFLOW ;;;
     (if 0 <? fc_params code then memmove_slots P (fr_base cf) (sp c - fc_params code) (fc_params code) else stm_ret tt) ;;;
     put_sp (fr_base cf + fc_params code) ;;;
     zero_locals P (fc_locals code) ;;;
     put_top_frame (CallFrame fn 0 (fr_base cf) (fc_results code)) ;;;
     put_ip 0 ;;; stm_ret true) (set_handlers hs c).
Proof.
  intros Ec Ed. unfold WAH_TAIL_CALL_WASM. unfold stm_bind at 1. rewrite Ed.
  unfold stm_bind at 1, get_sp. unfold stm_bind at 1, top_frame. cbn [frames set_handlers]. rewrite Ec. unfold stm_opt at 1. cbn [head].
  unfold stm_bind at 1, get_depth. done.
Qed.
Lemma sim_tail_call code fn : sim eq (WAH_TAIL_CALL_WASM P code fn) (a_tail_call P code fn).
Proof.
  unfold a_tail_call. destruct (well_formed P fn code) eqn:Hwf; [|done]. intros c a Hr. unfold sim_at. apply popped_at; [done|].
  intros f fs args cf cs code0 E Hn Hargs HT a1 Hr1 Hops Hv. pose proof HT as (Hec & Hc & Hcs & Hroom & Hsp & Hbase).
  rewrite (tail_call_run c code fn cf cs _ Hec (drop_handlers_run c a f fs Hr E)).
  assert (Hused : a_used a1 = sp c - fc_params code) by (rewrite a_used_flat, <- (r_sp _ _ Hr1); done).
  assert (Hdepth : a_depth a1 = call_depth c) by (symmetry; apply (rel_depth _ _ Hr1)).
  assert (Hdrop : zlen (drop (Z.to_nat (fc_params code)) (a_ops f)) = zlen (a_ops f) - fc_params code).
  { apply (f_equal zlen) in Hops. unfold zlen in *. rewrite length_app, length_rev in Hops. lia. }
  unfold stm_bind at 1, stm_get. unfold stm_bind at 1, a_top. cbn [a_frames set_a_frames a1]. unfold stm_opt at 1. cbn [head].
  unfold stm_bind at 1, a_fits. fold a1. rewrite Hused, Hdepth. cbn [a_locals a_ops af_set_ops]. unfold room. rewrite Hdrop.
  replace (sp c - fc_params code + (fc_params code + fc_slots code - zlen (a_locals f) - (zlen (a_ops f) - fc_params code)))
    with (fr_base cf + fc_params code + fc_slots code) by lia.
  unfold stm_bind at 5.
  destruct (Z.leb_spec ((fr_base cf + fc_params code + fc_slots code) * sizeof_wah_value_t) (frame_ptr P (call_depth c))) as [Hfit|];
    unfold stm_ensure; [|unfold stm_err; eexists; split; [reflexivity|by intros [?|?]]].
  erewrite (exbind_ok (stm_ret tt)) by reflexivity. erewrite ?(bind_ok (stm_ret tt)) by reflexivity.
  destruct (well_formed_sizes fn code Hwf) as (Hp & Hl & _). destruct (frame_sizes f). pose proof (fr_fits _ _ _ _ _ _ Hc) as Hfits.
  assert (0 <= zlen (drop (Z.to_nat (fc_params code)) (a_ops f))) by (unfold zlen; lia).
  set (c0 := set_handlers _ c). assert (Hsz : sized c0) by (split; [apply Hr|done]).
  set (sl1 := list_inserts (Z.to_nat (fr_base cf)) (take (Z.to_nat (fc_params code)) (drop (Z.to_nat (sp c - fc_params code)) (slots c))) (slots c)).
  erewrite exbind_ok by (apply (move_ok c0 _ _ _ (fr_base cf + room code0)); [done|exact Hroom|lia..]). fold sl1.
  unfold stm_bind at 1, put_sp. set (c2 := set_sp _ _).
  erewrite exbind_ok.
  2:{ apply (zero_locals_ok _ c2 (fr_base cf + fc_params code + fc_slots code)); subst c2; cbn [sp set_sp]; try lia.
      - split; [|done]. cbn [slots set_sp set_slots]. unfold zlen, sl1. rewrite length_inserts. apply Hr.
      - exact Hfit. }
  unfold stm_bind at 1, put_top_frame. cbn [frames]. subst c2 c0. cbn [frames set_sp set_slots set_handlers slots sp ip ex_env handlers]. rewrite Hec.
  unfold a_put_top, stm_ret. change (a_frames a1) with (af_set_ops (drop (Z.to_nat (fc_params code)) (a_ops f)) f :: fs). cbv iota beta zeta. rewrite a_charge_eq.
  assert (Hv1 : vals sl1 (flat (a_below a) fs ++ args)).
  { apply vals_inserts.
    - apply vals_app in Hv. cbn [a_below a_frames a1 set_a_frames] in Hv. rewrite flat_newest in Hv. by apply vals_app in Hv.
    - rewrite <- (app_nil_r args) in Hv. pose proof (vals_slice_at _ _ args _ (Z.to_nat (sp c - fc_params code)) Hv) as HF.
      replace (Z.to_nat (fc_params code)) with (length args) by (unfold zlen in Hargs; lia). apply HF.
      rewrite <- Hused, a_used_flat. unfold zlen. lia.
    - rewrite (fr_base_eq _ _ _ _ _ _ Hc). unfold zlen. lia.
    - pose proof (room_slots c _ (rel_sized c a Hr) Hroom). rewrite length_take, length_drop. unfold zlen in *. lia. }
  pose proof (rel_lower c a f fs cf cs code0 sl1 Hr E HT) as HL. specialize (HL ltac:(by unfold sl1; rewrite length_inserts) ltac:(by apply vals_app in Hv1)).
  pose proof (called_frame_rel (Exec sl1 (fr_base cf) 0 cs (flat_handlers (a_below a) fs) (ex_env c)) (set_a_frames fs a) fn code args cs cs HL Hcs Hwf Hv1 Hargs) as HN. cbn [slots sp ip frames handlers ex_env a_frames set_a_frames] in HN.
  eexists true, _. split; [reflexivity|]. split; [done|].
  eapply rel_eq; [apply rel_set_env; [apply HN|apply rel_env_charged, Hr]|]; [|done].
  unfold room. rewrite Z.add_assoc. rewrite (rel_depth _ _ Hr), E in Hfit. replace (zlen fs + 1) with (zlen (f :: fs)) by (unfold zlen; simpl; lia). done.
Qed.
Lemma frame_ptr_below d : frame_ptr P (d + 1) <= frame_ptr P d.
Proof. unfold frame_ptr. lia. Qed.
Lemma one_slot (l : list Z) i x : l !! i = Some x -> take 1 (drop i l) = [x].
Proof. intros H. by rewrite (drop_S _ _ _ H). Qed.
Lemma pop_run c cf cs hs m : frames c = cf :: cs -> WAH_DROP_FRAME_HANDLERS c = (Ok tt, set_handlers hs c) -> sized c -> room_for c m ->
  0 <= fr_results cf -> 0 <= fr_base cf -> fr_base cf <= sp c - fr_results cf -> sp c <= m ->
  WAH_POP_CURRENT_FRAME P c =
    RELOAD_FRAME (Exec (list_inserts (Z.to_nat (fr_base cf)) (take (Z.to_nat (fr_results cf)) (drop (Z.to_nat (sp c - fr_results cf)) (slots c))) (slots c))
      (fr_base cf + fr_results cf) (ip c) cs hs (ex_env c)).
Proof.
  intros Ec Ed Hs Hr Hn H0 H1 Hm. unfold WAH_POP_CURRENT_FRAME. erewrite exbind_ok by exact Ed.
  erewrite exbind_ok by (by unfold top_frame, stm_opt; cbn [frames set_handlers]; rewrite Ec).
  do 4 (erewrite exbind_ok by reflexivity). cbn [frames set_sp set_handlers set_frames]. rewrite Ec. cbn [tail].
  set (c1 := set_frames cs _). assert (Hs1 : sized c1) by (split; [apply Hs|done]).
  assert (Hr1 : room_for c1 m).
  { unfold room_for, call_depth in *. rewrite Ec in Hr. pose proof (frame_ptr_below (zlen cs)).
    replace (zlen (cf :: cs)) with (zlen cs + 1) in Hr by (unfold zlen; simpl; lia). cbn [frames c1 set_frames]. lia. }
  set (n := fr_results cf) in *. pose proof (room_slots c1 m Hs1 Hr1) as Hlen. cbn [slots c1 set_frames set_sp set_handlers] in Hlen.
  erewrite exbind_ok; [reflexivity|]. cbv beta. destruct (Z.eqb_spec n 1) as [En|En].
  - destruct (lookup_lt_is_Some_2 (slots c) (Z.to_nat (sp c - n))) as [x Hx]; [unfold zlen in Hlen; lia|].
    erewrite exbind_ok by (apply (load_ok c1 _ m x); [done|cbn [sp set_handlers]; lia|by rewrite zget_nat by (cbn [sp set_handlers]; lia)]).
    unfold ex_push. erewrite exbind_ok by reflexivity. cbn [sp set_frames set_sp c1].
    erewrite exbind_ok by (apply (store_ok c1 _ m x); [done|done|lia]).
    assert (take (Z.to_nat n) (drop (Z.to_nat (sp c - n)) (slots c)) = [x]) as -> by (rewrite En at 1; by apply one_slot).
    by rewrite En.
  - destruct (Z.ltb_spec 0 n).
    + erewrite exbind_ok by (apply (memmove_ok c1 _ _ _ m); cbn [sp set_handlers]; done || lia). reflexivity.
    + assert (n = 0) as -> by lia. cbn [Z.to_nat take list_inserts]. rewrite Z.add_0_r. by destruct c.
Qed.
Lemma rel_below ip cs below c below' n : rel_frames below ip cs [] -> zlen (slots c) = p_stack_bytes P / sizeof_wah_value_t -> vals (slots c) (rev below') ->
  sp c = zlen below' -> frames c = cs -> handlers c = [] -> rel_env (ex_env c) n -> rel c (Activation below' [] n).
Proof.
  intros HF Hs Hv Hsp Ef Eh Hn. inversion HF. subst. split; cbn; try done.
  - rewrite Hsp. unfold zlen. by rewrite length_rev.
  - replace (frames c) with (@nil wah_call_frame). constructor.
Qed.
Lemma sim_return : sim eq (WAH_POP_CURRENT_FRAME P) (a_return P).
Proof.
  intros c a Hr. unfold sim_at. unfold a_return. destruct (a_current P a) as [[code|e|] a0] eqn:Ecur.
  2:{ exfalso. revert Ecur. unfold a_current, a_top, stm_bind, stm_opt. destruct (a_frames a); [done|]. cbn [head]. by destruct (zget _ _). }
  2:{ apply sim_fault_at, bind_fault. by rewrite Ecur. }
  assert (Ecur' : a0 = a /\ forall f fs, a_frames a = f :: fs -> zget (p_functions P) (a_fn f) = Some code).
  { revert Ecur. unfold a_current, a_top, stm_bind, stm_opt. destruct (a_frames a) as [|f fs]; [done|]. cbn [head].
    destruct (zget _ _) as [x|] eqn:Ex; [|done]. intros [= -> <-]. split; [done|]. intros g gs [= <- <-]. done. }
  destruct Ecur' as [-> Hcode]. erewrite bind_ok by exact Ecur. clear Ecur. apply popped_at; [done|].
  intros f fs args cf cs code0 E Hn Hargs HT a1 Hr1 Hops Hv. pose proof HT as (Hec & Hc & Hcs & Hroom & Hsp & Hbase).
  pose proof (fr_code _ _ _ _ _ _ Hc) as Hcode0. rewrite (Hcode f fs E) in Hcode0. injection Hcode0 as <-.
  pose proof (fr_results_eq _ _ _ _ _ _ Hc) as Hres. rewrite <- Hres in *. destruct (frame_sizes f) as [? ?]. pose proof (fr_fits _ _ _ _ _ _ Hc) as Hfits.
  assert (Hdrop : zlen (drop (Z.to_nat (fr_results cf)) (a_ops f)) = zlen (a_ops f) - fr_results cf).
  { apply (f_equal zlen) in Hops. unfold zlen in *. rewrite length_app, length_rev in Hops. lia. }
  assert (0 <= zlen (drop (Z.to_nat (fr_results cf)) (a_ops f))) by (unfold zlen; lia).
  rewrite (pop_run c cf cs _ (fr_base cf + room code) Hec (drop_handlers_run c a f fs Hr E) (rel_sized c a Hr) Hroom) by lia.
  set (sl1 := list_inserts _ _ _).
  assert (Hv1 : vals sl1 (flat (a_below a) fs ++ args)).
  { apply vals_inserts.
    - apply vals_app in Hv. cbn [a_below a_frames a1 set_a_frames] in Hv. rewrite flat_newest in Hv. by apply vals_app in Hv.
    - rewrite <- (app_nil_r args) in Hv. pose proof (vals_slice_at _ _ args _ (Z.to_nat (sp c - fr_results cf)) Hv) as HF.
      replace (Z.to_nat (fr_results cf)) with (length args) by (unfold zlen in Hargs; lia). apply HF.
      pose proof (r_sp _ _ Hr1) as Hsp1. cbn [sp set_sp] in Hsp1. rewrite Hsp1. unfold zlen. lia.
    - rewrite (fr_base_eq _ _ _ _ _ _ Hc). unfold zlen. lia.
    - pose proof (room_slots c _ (rel_sized c a Hr) Hroom). rewrite length_take, length_drop. unfold zlen in *. lia. }
  assert (Hl1 : length sl1 = length (slots c)) by (unfold sl1; by rewrite length_inserts).
  pose proof (rel_lower c a f fs cf cs code sl1 Hr E HT Hl1 ltac:(by apply vals_app in Hv1)) as HL.
  unfold stm_bind at 1, stm_get. change (a_frames a1) with (af_set_ops (drop (Z.to_nat (fc_results code)) (a_ops f)) f :: fs).
  destruct fs as [|g gs].
  - unfold stm_bind, stm_put, stm_ret. inversion Hcs. subst cs. eexists false, _. split; [reflexivity|]. split; [done|].
    apply (rel_below 0 [] (a_below a)); cbn; try done; [| | |apply Hr].
    + apply (r_slots _ _ HL).
    + by rewrite rev_app_distr, rev_involutive.
    + rewrite (fr_base_eq _ _ _ _ _ _ Hc). unfold zlen in *. cbn [flat a_below set_a_frames a1]. rewrite length_app, !length_rev. lia.
  - destruct (fits P _) eqn:Hfit; [|done]. unfold stm_bind, stm_put, stm_ret.
    inversion Hcs as [|? cg cs' ? ? codeg Hcg Hcs' Ei Ecs Eg]. subst cs. eexists true, _. split; [reflexivity|]. split; [done|].
    pose proof (put_top_rel _ _ g gs (af_set_ops (rev args ++ a_ops g) g) sl1 (fr_base cf + fr_results cf) (fr_ip cg) HL eq_refl eq_refl eq_refl eq_refl Hfit eq_refl) as HP.
    apply HP.
    + cbn [a_below set_a_frames]. rewrite flat_newest in Hv1 |- *. cbn [a_locals a_ops af_set_ops]. rewrite rev_app_distr, rev_involutive. by rewrite <- !app_assoc in Hv1.
    + rewrite (fr_base_eq _ _ _ _ _ _ Hc). cbn [a_below set_a_frames a_locals a_ops af_set_ops]. rewrite flat_newest. unfold zlen in *. rewrite !length_app, !length_rev. lia.
    + apply Hcg.
Qed.
(** *** Handlers of exceptions *)

Lemma sim_at_bind {A B A' B'} (RA : A -> B -> Prop) (RB : A' -> B' -> Prop) m1 m2 f1 f2 c a : sim_at RA m1 m2 c a ->
  (forall x y c' a', RA x y -> m1 c = (Ok x, c') -> rel c' a' -> sim_at RB (f1 x) (f2 y) c' a') -> sim_at RB (stm_bind f1 m1) (stm_bind f2 m2) c a.
Proof.
  unfold sim_at, stm_bind. intros Hm Hf. destruct (m2 a) as [[y|e|] a'].
  - destruct Hm as (x & c' & Em & Hx & Hr'). rewrite Em. by apply Hf.
  - destruct Hm as (c' & -> & H). eauto.
  - done.
Qed.
Lemma sim_at_run {A B C} (RA : A -> B -> Prop) (m : comp exec C) f ma c a x : m c = (Ok x, c) -> sim_at RA (f x) ma c a -> sim_at RA (stm_bind f m) ma c a.
Proof. intros E. unfold sim_at, stm_bind. by rewrite E. Qed.
Lemma put_handlers_rel c a f fs hs x : rel c a -> a_frames a = f :: fs ->
  let f' := af_set_ip x (af_set_handlers hs f) in
  rel (Exec (slots c) (sp c) x (frames c) (flat_handlers (a_below a) (f' :: fs)) (ex_env c)) (set_a_frames (f' :: fs) a).
Proof.
  intros H E f'. destruct (rel_top c a f fs H E) as (cf & cs & code & Ec & Hc & Hcs & _). pose proof (r_sp c a H) as Hsp. rewrite E in Hsp.
  split; cbn [sp slots ip frames handlers ex_env a_below a_frames a_env set_a_frames]; try done; try apply H.
  - by apply (vals_top c a f fs).
  - rewrite Ec. apply rf_cons with code; [|done]. by destruct Hc.
Qed.
Lemma handlers_count c a : rel c a -> zlen (handlers c) = a_handlers_count a.
Proof.
  intros H. rewrite (r_handlers _ _ H). unfold a_handlers_count. induction (a_frames a) as [|f fs IH]; [done|].
  cbn [flat_handlers foldr]. unfold zlen in *. rewrite length_app, length_map. lia.
Qed.
Lemma sim_grow : sim any (fun c => (if zlen (handlers c) =? en_handlers_cap (ex_env c) then wah_grow_exception_handlers P (zlen (handlers c)) else stm_ret tt) c) (a_grow_handlers P).
Proof.
  intros c a Hr. unfold sim_at. unfold a_grow_handlers. rewrite <- (handlers_count c a Hr), <- (re_cap _ _ (r_env _ _ Hr)), <- (re_allocs _ _ (r_env _ _ Hr)).
  destruct (_ =? _); [|by exists tt, c]. unfold wah_grow_exception_handlers. destruct (negb _); [by exists c|].
  pose proof (r_env _ _ Hr) as [? ? ? ? ? ? ? ?]. destruct (wah_grow_array _ _ _ _) as [[cap|e|] al]; [| |done].
  - eexists tt, _. split; [reflexivity|]. split; [done|]. by apply (rel_set_env c a).
  - eexists. split; [reflexivity|]. intros _. by apply (rel_set_env c a).
Qed.
Lemma sim_try_table count : sim any (ex_try_table P count) (a_try_table P count).
Proof.
  intros c a Hr. unfold ex_try_table, a_try_table. do 2 (eapply sim_at_run; [reflexivity|]).
  apply (sim_at_bind any any _ _ _ _ c a (sim_grow c a Hr)). intros u1 u2 c1 a1 _ HS Hr1.
  assert (Eh : handlers c = handlers c1).
  { revert HS. unfold wah_grow_exception_handlers. destruct (_ =? _); [|by intros [= _ <-]]. destruct (negb _); [done|].
    destruct (wah_grow_array _ _ _ _) as [[cap|e|] al]; [|done..]. by intros [= _ <-]. }
  unfold sim_at.
  with_top a1 f fs E. unfold a_put_top. rewrite E.
  destruct (rel_top c1 a1 f fs Hr1 E) as (cf & cs & code & HT). pose proof (flat_length c1 a1 f fs cf cs code Hr1 E HT) as Hfl.
  destruct HT as (Hec & Hc & Hcs & Hroom & Hsp & Hbase).
  unfold get_depth, get_sp, top_frame, stm_opt, put_handlers, put_ip. rewrite Hec. cbn [head]. eexists tt, _. split; [reflexivity|]. split; [done|].
  rewrite (fr_ip_eq _ _ _ _ _ _ Hc). eapply rel_eq; [by apply (put_handlers_rel c1 a1 f fs (AHandler (zlen (a_ops f)) (a_ip f) count :: a_handlers f))|].
  unfold set_ex_ip, set_handlers. cbn. f_equal. rewrite Eh, (r_handlers _ _ Hr1), E. cbn. f_equal. f_equal; [|lia|apply Hc].
  rewrite (rel_depth _ _ Hr1), E. done.
Qed.
Lemma sim_end_try_table : sim any ex_end_try_table a_end_try_table.
Proof.
  intros c a Hr. unfold sim_at. unfold a_end_try_table. with_top a f fs E. destruct (a_handlers f) as [|h hs] eqn:Eh; [done|]. unfold a_put_top. rewrite E.
  unfold ex_end_try_table. erewrite exbind_ok by reflexivity. rewrite (r_handlers _ _ Hr), E. cbn [flat_handlers]. rewrite Eh. cbn [map app].
  eexists tt, _. split; [reflexivity|]. split; [done|].
  destruct (rel_top c a f fs Hr E) as (cf & cs & code & _ & Hc & _).
  eapply rel_eq; [pose proof (put_handlers_rel c a f fs hs (a_ip f) Hr E) as HP; by destruct f|].
  unfold set_handlers. by rewrite (fr_ip_eq _ _ _ _ _ _ Hc).
Qed.
Lemma sim_trim_handlers n : sim any (ex_trim_handlers n) (a_trim_handlers n).
Proof.
  intros c a Hr. unfold sim_at. unfold a_trim_handlers. with_top a f fs E.
  unfold ex_trim_handlers. do 2 (erewrite exbind_ok by reflexivity). rewrite (rel_depth _ _ Hr), (r_handlers _ _ Hr), E, drop_frame_handlers.
  assert (Hl : zlen (flat_handlers (a_below a) (f :: fs)) = zlen (a_handlers f) + zlen (flat_handlers (a_below a) fs)).
  { cbn [flat_handlers]. unfold zlen. rewrite length_app, length_map. lia. }
  rewrite Hl. replace (zlen (a_handlers f) + zlen (flat_handlers (a_below a) fs) - zlen (flat_handlers (a_below a) fs)) with (zlen (a_handlers f)) by lia.
  unfold stm_ensure. destruct (Z.leb_spec n (zlen (a_handlers f))); [|by exists c]. unfold stm_ret.
  destruct (Z.leb_spec 0 n); [|done]. unfold a_put_top. rewrite E. eexists tt, _. split; [reflexivity|]. split; [done|].
  destruct (rel_top c a f fs Hr E) as (cf & cs & code & _ & Hc & _).
  eapply rel_eq; [pose proof (put_handlers_rel c a f fs (drop (Z.to_nat (zlen (a_handlers f) - n)) (a_handlers f)) (a_ip f) Hr E) as HP; by destruct f|].
  unfold set_handlers. rewrite (fr_ip_eq _ _ _ _ _ _ Hc). f_equal. cbn [flat_handlers a_handlers a_locals a_ops a_fn af_set_handlers].
  replace (zlen (a_handlers f) + zlen (flat_handlers (a_below a) fs) - (zlen (flat_handlers (a_below a) fs) + n)) with (zlen (a_handlers f) - n) by lia.
  rewrite drop_app_le by (rewrite length_map; unfold zlen; lia). by rewrite skipn_map.
Qed.
Definition below_frame (below : list aval) (f : aframe) (fs : list aframe) (h : ahandler) : wah_exception_handler :=
  ExceptionHandler (zlen (f :: fs)) (zlen (flat below fs) + zlen (a_locals f) + a_height h) (a_catches h) (a_count h) (a_fn f).
Lemma vals_ops_below sl below f fs (k : nat) : vals sl (flat below (f :: fs)) -> vals sl (flat below fs ++ a_locals f ++ rev (drop k (a_ops f))).
Proof. rewrite flat_newest. rewrite <- (take_drop k (a_ops f)) at 1. rewrite rev_app_distr, !app_assoc. apply vals_app. Qed.
(** What [c] with [f] on top becomes where [k] catches: first the values, then the reference. *)
Lemma catch_ok ref x y below f f' fs h k rest code cf cs sl sp0 ip0 ip1 hs m n :
  zlen sl = p_stack_bytes P / sizeof_wah_value_t -> vals sl (flat below (f :: fs)) -> rel_exn x y -> rel_env m n ->
  frame_rel below fs ip1 cf f code -> rel_frames below (saved_ip cs) cs fs -> a_caught P f ref y h k rest = Some f' ->
  exists c', (catch_at P ref x (below_frame below f fs h) (map (below_frame below f fs) rest ++ flat_handlers below fs) k ;;; RELOAD_FRAME)
    (Exec sl sp0 ip0 (cf :: cs) hs m) = (Ok true, c') /\ rel c' (Activation below (f' :: fs) n).
Proof.
  intros Hsl Hv [_ Hx] Hmn Hc Hcs. destruct k as [[kind offset] d]. unfold a_caught, catch_at.
  destruct (Z.leb_spec 0 d); [|done]. destruct (Z.leb_spec d (a_height h)); [|done]. destruct (Z.leb_spec (a_height h) (zlen (a_ops f))); [|done]. cbn [andb].
  set (k := Z.to_nat (zlen (a_ops f) - (a_height h - d))). set (values := if names_tag kind then rev (y.2) else []).
  set (reference := if wants_ref kind then [Known 64 (ref mod 2 ^ 64)] else []). set (f1 := AFrame _ _ _ _ _). destruct (fits P f1) eqn:Hfit; [|done]. intros [= <-].
  unfold fits in Hfit. cbn [a_fn a_locals a_ops f1] in Hfit. rewrite (fr_code _ _ _ _ _ _ Hc) in Hfit. apply Z.leb_le in Hfit.
  assert (Hk : zlen (drop k (a_ops f)) = a_height h - d) by (unfold k, zlen in *; rewrite length_drop; lia).
  assert (Hfl : zlen (reference ++ values ++ drop k (a_ops f)) = zlen reference + zlen values + (a_height h - d)).
  { rewrite <- Hk. unfold zlen. rewrite !length_app. lia. }
  assert (0 <= zlen reference /\ 0 <= zlen values) as [Hr0 Hv0] by (unfold zlen; lia). destruct (frame_sizes f) as [Hl0 _].
  pose proof (fr_base_eq _ _ _ _ _ _ Hc) as Hbase. assert (0 <= fr_base cf) by (rewrite Hbase; unfold zlen; lia).
  set (s1 := h_sp (below_frame below f fs h) - d). assert (Hs1 : s1 = fr_base cf + zlen (a_locals f) + (a_height h - d)) by (unfold s1; cbn; lia).
  set (hs1 := map _ rest ++ _). set (c1 := Exec sl s1 ip0 (cf :: cs) hs1 m).
  assert (Hsz : sized c1) by (split; done). assert (Hroom : room_for c1 (fr_base cf + room code)).
  { unfold room_for, call_depth. cbn [frames c1]. replace (zlen (cf :: cs)) with (zlen fs + 1); [apply Hc|].
    unfold zlen. cbn [length]. rewrite (rel_frames_length _ _ _ _ Hcs). lia. }
  pose proof (room_slots _ _ Hsz Hroom) as Hlen. cbn [slots c1] in Hlen.
  set (xs := if names_tag kind then x.2 else []). assert (Hxs : Forall2 rel_v xs (rev values)).
  { unfold xs, values. destruct (names_tag kind); [by rewrite rev_involutive|constructor]. }
  assert (Hxl : zlen xs = zlen values) by (apply Forall2_length in Hxs; rewrite length_rev in Hxs; unfold zlen; lia).
  set (sl2 := list_inserts (Z.to_nat s1) xs sl). set (c2 := Exec sl2 (s1 + zlen xs) ip0 (cf :: cs) hs1 m).
  assert (Hsz2 : sized c2). { split; [|done]. cbn [slots c2]. unfold zlen, sl2. by rewrite length_inserts. }
  assert (Hv2 : vals sl2 (flat below fs ++ a_locals f ++ rev (drop k (a_ops f)) ++ rev values)).
  { rewrite !app_assoc. apply vals_inserts; [rewrite <- app_assoc; by apply vals_ops_below|done| |unfold zlen in *; lia].
    rewrite Hs1, Hbase. unfold zlen in *. rewrite !length_app, length_rev. lia. }
  do 2 (rewrite bindx_bind; erewrite exbind_ok by reflexivity). rewrite bindx_bind. erewrite exbind_ok.
  2:{ instantiate (1 := c2). instantiate (1 := tt). subst xs values c2 sl2. destruct (names_tag kind).
      - erewrite exbind_ok by reflexivity. cbn [sp set_handlers set_sp].
        erewrite exbind_ok by (apply (store_n_ok _ c1 s1 (fr_base cf + room code)); [done|done|lia|lia]). reflexivity.
      - cbn [list_inserts]. replace (s1 + zlen []) with s1 by (unfold zlen; simpl; lia). reflexivity. }
  set (s3 := s1 + zlen xs) in *.
  assert (exists c3, (if wants_ref kind then ex_push_member P 64 ref else stm_ret tt) c2 = (Ok tt, c3) /\
    exists sl3, c3 = Exec sl3 (s3 + zlen reference) ip0 (cf :: cs) hs1 m /\ zlen sl3 = zlen sl2 /\ vals sl3 (flat below fs ++ a_locals f ++ rev (a_ops f1))) as (c3 & E3 & sl3 & Ec3 & Hl3 & Hv3).
  { destruct (wants_ref kind).
    - destruct (lookup_lt_is_Some_2 sl2 (Z.to_nat s3)) as [z Hz]; [unfold sl2; rewrite length_inserts; unfold s3, zlen in *; simpl in *; lia|].
      unfold ex_push_member. eexists. split.
      { erewrite exbind_ok by reflexivity. cbn [sp c2].
        erewrite exbind_ok by (apply (load_ok c2 s3 (fr_base cf + room code) z); [done|unfold s3, zlen in *; simpl in *; lia|by rewrite zget_nat by (unfold s3, zlen in *; simpl in *; lia)]).
        erewrite exbind_ok by (apply (store_ok c2 s3 (fr_base cf + room code)); [done|done|unfold s3, zlen in *; simpl in *; lia]). reflexivity. }
      exists (list_inserts (Z.to_nat s3) [put 64 ref z] sl2). split; [done|]. split; [unfold zlen; by rewrite length_inserts|].
      cbn [a_ops f1 reference app rev]. rewrite rev_app_distr, !app_assoc. apply vals_inserts; [by rewrite <- !app_assoc| | |].
      + constructor; [|done]. by apply rel_put.
      + unfold s3. rewrite Hs1, Hbase. unfold zlen in *. rewrite !length_app, !length_rev. lia.
      + unfold sl2. rewrite length_inserts. unfold s3, zlen in *. simpl in *. lia.
    - exists c2. split; [done|]. exists sl2. split; [unfold c2, reference, zlen; simpl; by rewrite Z.add_0_r|]. split; [done|].
      cbn [a_ops f1 reference app]. by rewrite rev_app_distr. }
  rewrite bindx_bind. erewrite exbind_ok by exact E3. subst c3. eexists. split; [reflexivity|].
  assert (Hops : zlen (a_ops f1) = zlen reference + zlen values + (a_height h - d)) by exact Hfl.
  split; cbn [sp slots ip frames handlers ex_env a_below a_frames a_env set_frames set_ex_ip fr_set_ip fr_ip].
  - rewrite flat_newest. unfold zlen in *. rewrite !length_app, length_rev. cbn [a_locals f1]. unfold s3. rewrite Hs1, Hbase. unfold zlen. lia.
  - rewrite Hl3. apply Hsz2.
  - exact Hv3.
  - apply rf_cons with code; [|done]. destruct Hc. by split.
  - done.
  - done.
Qed.
Lemma exbind_same {A B} (m m' : comp exec A) (f : A -> comp exec B) c c' : m c = m' c' -> stm_bind f m c = stm_bind f m' c'.
Proof. unfold stm_bind. by intros ->. Qed.
(** One handler of a frame: newer calls end, then its catch table decides. *)
Lemma throw_step ref x below f fs h l cf cs code r pre sl sp0 ip0 hs0 m : length cs = length fs -> zget (p_functions P) (a_fn f) = Some code ->
  find_catch P (fc_bytecode code) (Z.to_nat (a_count h)) (a_catches h) (x.1) = Some r ->
  throw_loop P ref x (below_frame below f fs h :: l) (Exec sl sp0 ip0 (pre ++ cf :: cs) hs0 m) =
  (match r with Some k => catch_at P ref x (below_frame below f fs h) l k | None => throw_loop P ref x l end) (Exec sl sp0 ip0 (cf :: cs) hs0 m).
Proof.
  intros Hl Hcode Ef. cbn [throw_loop]. do 2 (erewrite exbind_ok by reflexivity).
  assert (Hdrop : drop (Z.to_nat (zlen (pre ++ cf :: cs) - h_depth (below_frame below f fs h))) (pre ++ cf :: cs) = cf :: cs).
  { cbn [h_depth below_frame]. replace (Z.to_nat _) with (length pre); [by rewrite drop_app_length|].
    unfold zlen. rewrite length_app. cbn [length]. lia. }
  cbn [frames]. rewrite Hdrop. unfold set_frames. cbn [slots sp ip handlers ex_env h_fn h_count h_catches below_frame].
  erewrite exbind_ok by (by rewrite Hcode). by erewrite exbind_ok by (by rewrite Ef).
Qed.
(** From a handler of [f] on, when the frames of [fs] behave as they should. *)
Lemma unwind_frame ref x y below f fs cf cs code ip1 sl m n hs :
  zlen sl = p_stack_bytes P / sizeof_wah_value_t -> vals sl (flat below (f :: fs)) -> rel_exn x y -> rel_env m n ->
  frame_rel below fs ip1 cf f code -> rel_frames below (saved_ip cs) cs fs ->
  (forall pre sp0 ip0 hs0, match a_unwind P ref y fs with
    | Some (Some l) => exists c', (throw_loop P ref x (flat_handlers below fs) ;;; RELOAD_FRAME) (Exec sl sp0 ip0 (pre ++ cs) hs0 m) = (Ok true, c') /\ rel c' (Activation below l n)
    | Some None => exists c', (throw_loop P ref x (flat_handlers below fs) ;;; RELOAD_FRAME) (Exec sl sp0 ip0 (pre ++ cs) hs0 m) = (Err WAH_ERROR_EXCEPTION, c')
    | None => True
    end) ->
  forall pre sp0 ip0 hs0,
  match a_find_handler P (fc_bytecode code) (y.1) hs with
  | None => True
  | Some r =>
      match (match r with Some (h, k, rest) => f ← a_caught P f ref y h k rest; Some (Some (f :: fs)) | None => a_unwind P ref y fs end) with
      | Some (Some l) => exists c', (throw_loop P ref x (map (below_frame below f fs) hs ++ flat_handlers below fs) ;;; RELOAD_FRAME)
          (Exec sl sp0 ip0 (pre ++ cf :: cs) hs0 m) = (Ok true, c') /\ rel c' (Activation below l n)
      | Some None => exists c', (throw_loop P ref x (map (below_frame below f fs) hs ++ flat_handlers below fs) ;;; RELOAD_FRAME)
          (Exec sl sp0 ip0 (pre ++ cf :: cs) hs0 m) = (Err WAH_ERROR_EXCEPTION, c')
      | None => True
      end
  end.
Proof.
  intros Hsl Hv Hxy Hmn Hc Hcs IH. induction hs as [|h hs IHh]; intros pre sp0 ip0 hs0.
  - cbn [a_find_handler map app]. specialize (IH (pre ++ [cf]) sp0 ip0 hs0). by rewrite <- app_assoc in IH.
  - cbn [a_find_handler map app].
    pose proof (fr_code _ _ _ _ _ _ Hc) as Hcode. pose proof Hxy as [Ht _]. rewrite <- Ht in *.
    destruct (find_catch P (fc_bytecode code) (Z.to_nat (a_count h)) (a_catches h) (x.1)) as [r|] eqn:Ef; [|done]. cbn [mbind option_bind].
    rewrite (exbind_same _ _ _ _ _ (throw_step ref x below f fs h _ cf cs code r pre sl sp0 ip0 hs0 m (rel_frames_length _ _ _ _ Hcs) Hcode Ef)).
    destruct r as [k|]; [|apply (IHh [])].
    destruct (a_caught P f ref y h k hs) as [f'|] eqn:Ek; [|done]. by apply (catch_ok ref x y below f f' fs h k hs code cf cs sl sp0 ip0 ip1 hs0 m n).
Qed.
Lemma unwind_ok ref x y below sl m n fs : rel_exn x y -> rel_env m n -> zlen sl = p_stack_bytes P / sizeof_wah_value_t ->
  forall ip1 cs, vals sl (flat below fs) -> rel_frames below ip1 cs fs -> forall pre sp0 ip0 hs0,
  match a_unwind P ref y fs with
  | Some (Some l) => exists c', (throw_loop P ref x (flat_handlers below fs) ;;; RELOAD_FRAME) (Exec sl sp0 ip0 (pre ++ cs) hs0 m) = (Ok true, c') /\ rel c' (Activation below l n)
  | Some None => exists c', (throw_loop P ref x (flat_handlers below fs) ;;; RELOAD_FRAME) (Exec sl sp0 ip0 (pre ++ cs) hs0 m) = (Err WAH_ERROR_EXCEPTION, c')
  | None => True
  end.
Proof.
  intros Hxy Hmn Hsl. induction fs as [|f fs IH]; intros ip1 cs Hv HF.
  { intros. by eexists. }
  inversion HF as [|? cf cs' ? ? code Hc Hcs]. subst. intros pre sp0 ip0 hs0. cbn [a_unwind]. rewrite (fr_code _ _ _ _ _ _ Hc). cbn [mbind option_bind].
  pose proof (unwind_frame ref x y below f fs cf cs' code ip1 sl m n (a_handlers f) Hsl Hv Hxy Hmn Hc Hcs) as HU.
  assert (Hv' : vals sl (flat below fs)) by (rewrite flat_newest in Hv; by apply vals_app in Hv).
  specialize (HU (IH _ _ Hv' Hcs) pre sp0 ip0 hs0).
  destruct (a_find_handler P (fc_bytecode code) (y.1) (a_handlers f)) as [[[[h k] rest]|]|]; done.
Qed.
Lemma sim_throw ref x y : rel_exn x y -> sim eq (ex_throw P ref x) (a_throw P ref y).
Proof.
  intros Hxy c a Hr. unfold sim_at, a_throw. destruct (a_frames a) as [|f0 fs0] eqn:E; [by unfold stm_bind, a_top; rewrite E|].
  erewrite bind_ok by (by unfold a_top, stm_opt; rewrite E). unfold stm_bind at 1, stm_get.
  destruct (a_unwind P ref y (a_frames a)) as [o|] eqn:Eu; [|done].
  destruct (rel_top c a f0 fs0 Hr E) as (cf & cs & code & Ec & _). clear E.
  pose proof (r_frames _ _ Hr) as HF. rewrite Ec in HF. apply save_frame in HF.
  assert (Erun : ex_throw P ref x c = (throw_loop P ref x (flat_handlers (a_below a) (a_frames a)) ;;; RELOAD_FRAME)
    (Exec (slots c) (sp c) (ip c) ([] ++ fr_set_ip (ip c) cf :: cs) (handlers c) (ex_env c))).
  { unfold ex_throw. erewrite exbind_ok by (by unfold top_frame, stm_opt; rewrite Ec). erewrite exbind_ok by reflexivity.
    erewrite exbind_ok by (by unfold put_top_frame; rewrite Ec). unfold wah_throw_exception. rewrite bindx_bind. erewrite exbind_ok by reflexivity.
    unfold set_frames. cbn [handlers]. by rewrite (r_handlers _ _ Hr). }
  rewrite Erun. pose proof (unwind_ok ref x y (a_below a) (slots c) (ex_env c) (a_env a) (a_frames a) Hxy (r_env _ _ Hr) (r_slots _ _ Hr) _ _ (r_vals _ _ Hr) HF
    [] (sp c) (ip c) (handlers c)) as HU. rewrite Eu in HU.
  destruct o as [l|]; unfold stm_bind, stm_put, stm_ret, stm_err; cbn.
  - destruct HU as (c' & HU & Hr'). exists true, c'. split; [exact HU|]. split; [done|]. by destruct a.
  - destruct HU as (c' & HU). exists c'. split; [exact HU|]. by intros [?|?].
Qed.
End Relation.
