(* ===== verification/InterpOk.v ===== *)
(** * Lowered code on the unified stack

    Every handler on the shared buffer does what it does on activations, hence so does
    the interpreter, from the start of a function to its results, also when it is
    stopped and goes on. *)

From S2P Require Import Prelude Base Alloc Bytes Decode Opcodes Lowering Bulk IntOps Numeric Interp Stack Activation StackOk.
From stdpp Require Import list.
#[local] Open Scope Z_scope.
#[local] Open Scope wah_scope.

(** ** Definitions *)

Section Sessions.
Context (P : prog).

(** The interpreter on activations, whose frames always have their place in the code. *)
Definition a_interpret (n : nat) : comp activation bool := wah_run_interpreter (M := activation_machine P) P n.
(** States that are related while no loop runs, when [bytecode_ip] is that of the frame. *)
Definition paused (c : exec) (a : activation) : Prop := rel P (set_ex_ip (saved_ip (frames c)) c) a.
(** What happens on the shared buffer is what happens on activations, unless that is a
    fault; after a status that execution may resume from, the states are related again. *)
Definition refines (r : outcome wah_error_t bool * exec) (s : outcome wah_error_t bool * activation) : Prop :=
  match s with
  | (Ok x, a) => exists c, r = (Ok x, c) /\ rel P c a
  | (Err e, a) => exists c, r = (Err e, c) /\ (resumable e -> paused c a)
  | (Fault, _) => True
  end.
(** A call of a function: its start, then [n] rounds. *)
Definition ex_run (n : nat) (fn : Z) (params : list Z) : comp exec bool := start_function P fn params ;;; interpret P n.
Definition a_run (n : nat) (fn : Z) (params : list aval) : comp activation bool := a_start P fn params ;;; a_interpret n.
End Sessions.

(** ** Theorems *)

Section Handlers.
Context (P : prog).
Hypothesis Hframe : 0 <= p_frame_bytes P.
#[local] Existing Instance stack_machine.
#[local] Existing Instance activation_machine.
Lemma sim_opt_eq {A} (o : option A) : sim P eq (stm_opt o) (stm_opt o).
Proof. apply sim_opt. intros y ->. by eexists. Qed.

Lemma sim_get_env {A B} (RA : A -> B -> Prop) (f : env Z -> A) (g : env aval -> B) : (forall m n, rel_env m n -> RA (f m) (g n)) ->
  sim P RA (get_env (M := stack_machine P) f) (get_env (M := activation_machine P) g).
Proof. intros H c a Hr. unfold sim_at, get_env. eexists _, c. split; [reflexivity|]. split; [|done]. apply H, Hr. Qed.
Lemma sim_on_env f g : (forall m n, rel_env m n -> rel_env (f m) (g n)) ->
  sim P any (on_env (M := stack_machine P) f) (on_env (M := activation_machine P) g).
Proof.
  intros H c a Hr. unfold sim_at, on_env. eexists tt, _. split; [reflexivity|]. split; [done|]. apply (rel_set_env P c a); [done|]. apply H, Hr.
Qed.
Lemma sim_lift {A} (m : outcome wah_error_t A) : sim P eq (lift m) (lift m).
Proof. intros c a Hr. unfold sim_at, lift. destruct m as [x|e|]; eauto. Qed.
Lemma sim_fetch size read : sim P eq (fetch (M := stack_machine P) size read) (fetch (M := activation_machine P) size read).
Proof.
  unfold fetch. eapply sim_bind; [by apply sim_current|]. intros f ? <-. eapply sim_bind; [by apply sim_get_ip|]. intros i ? <-.
  eapply sim_bind; [apply sim_opt_eq|]. intros v ? <-. eapply sim_bind; [by apply sim_set_ip|]. intros _ _ _. by apply sim_ret.
Qed.
Lemma sim_next : sim P eq next next.
Proof. by apply sim_ret. Qed.
Lemma sim_zget {A B} (RA : A -> B -> Prop) l1 l2 i : Forall2 RA l1 l2 -> sim P RA (stm_opt (zget l1 i)) (stm_opt (zget l2 i)).
Proof.
  intros H. apply sim_opt. intros y Hy. apply zget_Some in Hy as [Hi Hy]. destruct (Forall2_lookup_r _ _ _ _ _ H Hy) as (x & Hx & Hr).
  exists x. split; [|done]. by rewrite zget_nat by lia.
Qed.
Lemma sim_zset {A B} (RA : A -> B -> Prop) l1 l2 i x y : Forall2 RA l1 l2 -> RA x y -> sim P (Forall2 RA) (stm_opt (zset l1 i x)) (stm_opt (zset l2 i y)).
Proof.
  intros H Hxy. apply sim_opt. intros l Hl. pose proof (zset_in_range _ _ _ _ Hl) as Hi. rewrite zset_Some in Hl by done. apply (inj Some) in Hl as <-.
  pose proof (Forall2_length _ _ _ H). rewrite zset_Some by (unfold zlen in *; lia). eexists. split; [done|]. by apply Forall2_insert.
Qed.

(** The simulations of the operations, tried at each step of a handler. *)
Ltac rel_env_eq := let m := fresh "m" in let n := fresh "n" in let H := fresh "H" in
  intros m n H; destruct H; cbn; try split; cbn; congruence || done.
Ltac prim :=
  first
    [ eassumption
    | apply sim_fetch | apply sim_next
    | apply sim_current | apply sim_get_ip | apply sim_set_ip
    | apply sim_pop | apply sim_member
    | apply sim_push | apply sim_push_member
    | apply sim_get_local | apply sim_set_local
    | apply sim_drop_keep | apply sim_pop_values
    | apply sim_call | apply sim_tail_call | apply sim_return
    | apply sim_try_table | apply sim_end_try_table | apply sim_trim_handlers
    | apply sim_err | apply sim_opt_eq | apply sim_lift
    | apply sim_ret
    | apply sim_on_env; rel_env_eq ]; try (exact Hframe || assumption || reflexivity || lia).
Ltac sims := cbv beta;
  match goal with
  | |- sim _ _ (stm_bind _ _) (stm_bind _ _) =>
      eapply sim_bind; [sims|let x := fresh "x" in let y := fresh "y" in let H := fresh "Hxy" in intros x y H; try (cbv beta in H; subst y); sims]
  | |- sim _ _ (if ?b then _ else _) _ => destruct b eqn:?; sims
  | _ => try prim
  end.

Lemma sim_pop_i32 : sim P eq (pop_i32 (M := stack_machine P)) (pop_i32 (M := activation_machine P)).
Proof. unfold pop_i32. sims. Qed.
Lemma sim_pop_ref : sim P eq (pop_ref (M := stack_machine P)) (pop_ref (M := activation_machine P)).
Proof. unfold pop_ref. sims. Qed.
Ltac prim_env := first [ apply sim_pop_i32 | apply sim_pop_ref | prim ].

(** *** The handlers *)

Notation both h := (sim P eq (h exec Z (stack_machine P)) (h activation aval (activation_machine P))) (only parsing).
Lemma sim_POLL : both (@run_POLL).
Proof.
  unfold run_POLL. eapply sim_bind; [apply sim_fetch|]. intros _ _ _. eapply sim_bind; [apply (sim_get_env eq); by intros ? ? []|].
  intros polls ? <-. destruct polls as [|[e|] polls]; sims.
Qed.
Lemma sim_charge cost : sim P eq (charge (M := stack_machine P) cost) (charge (M := activation_machine P) cost).
Proof. unfold charge. eapply sim_bind; [apply (sim_get_env eq); by intros ? ? []|]. intros fuel ? <-. sims. Qed.
Lemma sim_METER : both (@run_METER).
Proof.
  unfold run_METER. eapply sim_bind; [apply sim_fetch|]. intros cost ? <-. eapply sim_bind; [apply sim_fetch|]. intros o ? <-.
  eapply sim_bind; [apply sim_charge|]. intros fuel ? <-. destruct (fuel <? 0); sims.
Qed.
Lemma sim_TICK : both (@run_TICK).
Proof.
  unfold run_TICK. eapply sim_bind; [by apply sim_get_ip|]. intros i ? <-. cbv zeta. eapply sim_bind; [apply sim_fetch|]. intros _ _ _.
  eapply sim_bind; [apply sim_charge|]. intros fuel ? <-. destruct (fuel <? 0); [sims|].
  eapply sim_bind with (RA := eq).
  { unfold tick_interrupt. eapply sim_bind; [apply (sim_get_env eq); by intros ? ? []|]. intros flags ? <-. destruct flags; sims. }
  intros b ? <-. destruct b; sims.
Qed.
Ltac simi := cbv beta zeta;
  match goal with
  | |- sim _ _ (stm_bind _ _) (stm_bind _ _) =>
      eapply sim_bind; [simi|let x := fresh "x" in let y := fresh "y" in let H := fresh "Hxy" in intros x y H; try (cbv beta in H; subst y); simi]
  | |- sim _ _ (if ?b then _ else _) _ => destruct b; simi
  | _ => try prim_env
  end.
Lemma sim_branch_to o k d : sim P eq (branch_to (M := stack_machine P) o k d) (branch_to (M := activation_machine P) o k d).
Proof. unfold branch_to. simi. Qed.
Ltac branches := simi; try apply sim_branch_to.
Lemma sim_IF : both (@run_IF).
Proof. unfold run_IF. simi. Qed.
Lemma sim_ELSE : both (@run_ELSE).
Proof. unfold run_ELSE. simi. Qed.
Lemma sim_BR : both (@run_BR).
Proof. unfold run_BR. branches. Qed.
Lemma sim_BR_IF : both (@run_BR_IF).
Proof. unfold run_BR_IF. branches. Qed.
Lemma sim_BR_TABLE : both (@run_BR_TABLE).
Proof. unfold run_BR_TABLE. branches. Qed.
Lemma sim_BR_ON_NULL : both (@run_BR_ON_NULL).
Proof. unfold run_BR_ON_NULL. branches. Qed.
Lemma sim_BR_ON_NON_NULL : both (@run_BR_ON_NON_NULL).
Proof. unfold run_BR_ON_NON_NULL. branches. Qed.
Lemma sim_UNREACHABLE : sim P eq (run_UNREACHABLE (S := exec)) (run_UNREACHABLE (S := activation)).
Proof. apply sim_err. Qed.
Lemma sim_TRY_TABLE : both (@run_TRY_TABLE).
Proof. unfold run_TRY_TABLE. simi. Qed.
Lemma sim_END_TRY_TABLE : both (@run_END_TRY_TABLE).
Proof. unfold run_END_TRY_TABLE. simi. Qed.
Lemma sim_TRIM_HANDLERS : both (@run_TRIM_HANDLERS).
Proof. unfold run_TRIM_HANDLERS. simi. Qed.
Lemma sim_alloc_exception : sim P eq (alloc_exception (M := stack_machine P)) (alloc_exception (M := activation_machine P)).
Proof.
  unfold alloc_exception. eapply sim_bind; [apply (sim_get_env eq); by intros ? ? []|]. intros al ? <-. destruct (alloc_answer al) as [r al'].
  eapply sim_bind; [apply sim_on_env; rel_env_eq|]. intros _ _ _. apply sim_lift.
Qed.
Lemma sim_add_exception x y : rel_exn x y -> sim P eq (add_exception (M := stack_machine P) x) (add_exception (M := activation_machine P) y).
Proof.
  intros Hxy. unfold add_exception. eapply sim_bind; [apply (sim_get_env (Forall2 rel_exn)); by intros ? ? []|]. intros xs ys Hl.
  eapply sim_bind; [apply sim_on_env|].
  { intros m n H. destruct H. split; cbn; try done. apply Forall2_app; [done|by constructor]. }
  intros _ _ _. apply sim_ret. unfold zlen. by rewrite (Forall2_length _ _ _ Hl).
Qed.
Lemma sim_THROW : sim P eq (run_THROW (M := stack_machine P) P) (run_THROW (M := activation_machine P) P).
Proof.
  unfold run_THROW. eapply sim_bind; [apply sim_fetch|]. intros tag ? <-. eapply sim_bind; [apply sim_opt_eq|]. intros [id n] ? <-.
  eapply sim_bind; [apply sim_alloc_exception|]. intros _ _ _. eapply sim_bind; [by apply sim_pop_values|]. intros xs ys Hxy.
  eapply sim_bind; [by apply sim_add_exception|]. intros r ? <-. by apply sim_throw.
Qed.
Lemma sim_THROW_REF : both (@run_THROW_REF).
Proof.
  unfold run_THROW_REF. eapply sim_bind; [apply sim_pop_ref|]. intros r ? <-. destruct (r =? 0); [apply sim_err|].
  eapply sim_bind; [apply (sim_get_env (Forall2 rel_exn)); by intros ? ? []|]. intros xs ys Hl.
  eapply sim_bind; [by apply sim_zget|]. intros x y Hxy. by apply sim_throw.
Qed.
Lemma sim_CALL : sim P eq (run_CALL (M := stack_machine P) P) (run_CALL (M := activation_machine P) P).
Proof. unfold run_CALL. simi. Qed.
Lemma sim_RETURN_CALL : sim P eq (run_RETURN_CALL (M := stack_machine P) P) (run_RETURN_CALL (M := activation_machine P) P).
Proof. unfold run_RETURN_CALL. simi. Qed.
Lemma sim_RETURN : both (@run_RETURN).
Proof. by apply sim_return. Qed.

(** Values, whose handlers are chains of operations. *)
Lemma sim_SELECT : both (@run_SELECT).
Proof. unfold run_SELECT. simi. by destruct (negb _). Qed.
Lemma sim_GLOBAL_GET : both (@run_GLOBAL_GET).
Proof.
  unfold run_GLOBAL_GET. eapply sim_bind; [apply sim_fetch|]. intros i ? <-. eapply sim_bind; [apply (sim_get_env (Forall2 rel_v)); by intros ? ? []|].
  intros gs gs' Hg. eapply sim_bind; [by apply sim_zget|]. intros v v' Hv. simi.
Qed.
Lemma sim_GLOBAL_SET : both (@run_GLOBAL_SET).
Proof.
  unfold run_GLOBAL_SET. eapply sim_bind; [apply sim_fetch|]. intros i ? <-. eapply sim_bind; [by apply sim_pop|]. intros v v' Hv.
  eapply sim_bind; [apply (sim_get_env (Forall2 rel_v)); by intros ? ? []|].
  intros gs gs' Hg. eapply sim_bind; [by apply sim_zset|]. intros hs hs' Hh. eapply sim_bind; [apply sim_on_env|intros _ _ _; apply sim_next].
  intros m n H. by destruct H; split.
Qed.
Lemma sim_INT i : ok_instr i -> sim P eq (run_INT (M := stack_machine P) i) (run_INT (M := activation_machine P) i).
Proof. intros Hi. unfold run_INT. eapply sim_bind; [by apply sim_int_op|]. intros _ _ _. apply sim_next. Qed.
Lemma sim_pop_addr aw : sim P eq (pop_addr (M := stack_machine P) aw) (pop_addr (M := activation_machine P) aw).
Proof. unfold pop_addr. simi. Qed.
Lemma sim_memidx_imm mem0 : sim P eq (memidx_imm (M := stack_machine P) mem0) (memidx_imm (M := activation_machine P) mem0).
Proof. destruct mem0; [by apply sim_ret|apply sim_fetch]. Qed.
Lemma sim_memories : sim P eq (get_env (M := stack_machine P) en_memories) (get_env (M := activation_machine P) en_memories).
Proof. apply (sim_get_env eq). by intros ? ? []. Qed.
Lemma sim_memory_at i : sim P eq (memory_at (M := stack_machine P) i) (memory_at (M := activation_machine P) i).
Proof. unfold memory_at. eapply sim_bind; [apply sim_memories|]. intros mems ? <-. apply sim_opt_eq. Qed.
Lemma sim_LOAD_OP mem0 aw N w signed : 0 <= w ->
  sim P eq (LOAD_OP (M := stack_machine P) mem0 aw N w signed) (LOAD_OP (M := activation_machine P) mem0 aw N w signed).
Proof.
  intros Hw. unfold LOAD_OP. eapply sim_bind; [apply sim_memidx_imm|]. intros i ? <-. eapply sim_bind; [apply sim_fetch|]. intros o ? <-.
  eapply sim_bind; [apply sim_pop_addr|]. intros addr ? <-. eapply sim_bind; [apply sim_memory_at|]. intros mem ? <-. simi.
Qed.
Lemma sim_STORE_OP mem0 aw N w : sim P eq (STORE_OP (M := stack_machine P) mem0 aw N w) (STORE_OP (M := activation_machine P) mem0 aw N w).
Proof.
  unfold STORE_OP. eapply sim_bind; [apply sim_memidx_imm|]. intros i ? <-. eapply sim_bind; [apply sim_fetch|]. intros o ? <-.
  eapply sim_bind; [by apply sim_pop|]. intros sv sv' Hsv. eapply sim_bind; [by apply sim_member|]. intros v ? <-.
  eapply sim_bind; [apply sim_pop_addr|]. intros addr ? <-. eapply sim_bind; [apply sim_memory_at|]. intros mem ? <-.
  eapply sim_bind; [apply sim_lift|]. intros ea ? <-. eapply sim_bind; [apply sim_opt_eq|]. intros mem' ? <-.
  eapply sim_bind; [apply sim_memories|]. intros mems ? <-. simi.
Qed.
Lemma sim_MEMORY_SIZE N : 0 <= N -> sim P eq (WAH_MEMORY_SIZE_IMPL (M := stack_machine P) N) (WAH_MEMORY_SIZE_IMPL (M := activation_machine P) N).
Proof.
  intros HN. unfold WAH_MEMORY_SIZE_IMPL. eapply sim_bind; [apply sim_fetch|]. intros i ? <-. eapply sim_bind; [apply sim_memory_at|]. intros mem ? <-. simi.
Qed.

(** *** The interpreter *)

Definition same_handler (p : Z * comp exec bool) (q : Z * comp activation bool) : Prop := p.1 = q.1 /\ sim P eq p.2 q.2.
Lemma same_control : Forall2 same_handler (control_handlers (M := stack_machine P) P) (control_handlers (M := activation_machine P) P).
Proof.
  unfold control_handlers.
  repeat (constructor; [split; [done|];
    first [apply sim_POLL | apply sim_METER | apply sim_TICK | apply sim_IF | apply sim_ELSE | apply sim_BR | apply sim_BR_IF | apply sim_BR_TABLE
      | apply sim_BR_ON_NULL | apply sim_BR_ON_NON_NULL | apply sim_UNREACHABLE | apply sim_TRY_TABLE | apply sim_END_TRY_TABLE
      | apply sim_TRIM_HANDLERS | apply sim_THROW | apply sim_THROW_REF | apply sim_CALL | apply sim_RETURN_CALL | apply sim_RETURN]|]).
  constructor.
Qed.
Lemma same_values : Forall2 same_handler (value_handlers (M := stack_machine P)) (value_handlers (M := activation_machine P)).
Proof.
  unfold value_handlers.
  repeat (constructor; [split; [done|]; first [apply sim_SELECT | apply sim_GLOBAL_GET | apply sim_GLOBAL_SET | apply sim_MEMORY_SIZE; lia
    | unfold run_I32_CONST, run_I64_CONST, run_REF_NULL, run_REF_IS_NULL, run_REF_AS_NON_NULL, run_DROP, run_SELECT_T, run_LOCAL_GET, run_LOCAL_SET, run_LOCAL_TEE, run_REF_EQ, run_REF_I31, run_I31_GET, REINTERPRET;
      cbn [snd]; simi; try apply sim_SELECT]|]).
  constructor.
Qed.
Lemma int_opcodes_ok : Forall (fun p => ok_instr p.2) int_opcodes.
Proof. unfold int_opcodes. repeat (constructor; [cbn; first [done | tauto | lia]|]). constructor. Qed.
Lemma loads_ok : Forall (fun p : wah_op * (Z * Z * bool) => 0 <= p.2.1.2) loads.
Proof. unfold loads. repeat (constructor; [cbn; lia|]). constructor. Qed.
Lemma same_accesses variant : Forall2 same_handler (access_handlers (M := stack_machine P) variant) (access_handlers (M := activation_machine P) variant).
Proof.
  destruct variant as [[mem0 aw] value]. apply Forall2_app.
  - pose proof loads_ok as H. induction H as [|[op [[N w] b]] l Hw _ IH]; simpl; constructor; [|done]. split; [done|]. by apply sim_LOAD_OP.
  - induction stores as [|[op [N w]] l IH]; simpl; constructor; [|done]. split; [done|]. apply sim_STORE_OP.
Qed.
Lemma same_handlers : Forall2 same_handler (handlers_table (M := stack_machine P) P) (handlers_table (M := activation_machine P) P).
Proof.
  unfold handlers_table. apply Forall2_app; [apply same_control|]. apply Forall2_app; [apply same_values|]. apply Forall2_app.
  - pose proof int_opcodes_ok as H. induction H as [|[op j] l Hj _ IH]; simpl; constructor; [|done]. split; [done|]. by apply sim_INT.
  - induction variants as [|x l IH]; simpl; [constructor|]. apply Forall2_app; [apply same_accesses|done].
Qed.
Lemma sim_handler_of opcode l1 l2 : Forall2 same_handler l1 l2 -> sim P (fun h k => sim P eq h k) (stm_opt (handler_of opcode l1)) (stm_opt (handler_of opcode l2)).
Proof.
  intros H. apply sim_opt. induction H as [|[v1 h1] [v2 h2] l1 l2 [E Hs] _ IH]; [done|]. cbn [fst snd] in *. subst v2. cbn [handler_of].
  destruct (v1 =? opcode); [|done]. intros y [= <-]. by exists h1.
Qed.
Lemma sim_step : sim P eq (step (M := stack_machine P) P) (step (M := activation_machine P) P).
Proof.
  unfold step. eapply sim_bind; [apply sim_fetch|]. intros o ? <-. eapply sim_bind; [apply sim_handler_of, same_handlers|]. by intros h k H.
Qed.
Lemma sim_rounds n : sim P eq (wah_run_interpreter (M := stack_machine P) P n) (wah_run_interpreter (M := activation_machine P) P n).
Proof.
  induction n as [|n IH]; [by apply sim_ret|]. cbn [wah_run_interpreter]. eapply sim_bind; [apply sim_step|]. intros more ? <-.
  destruct more; [exact IH|by apply sim_ret].
Qed.

(** *** Starting and stopping *)

Lemma suspended_paused c a : rel P c a -> paused P (suspended c) a.
Proof.
  intros H. unfold paused, suspended. destruct (frames c) as [|cf cs] eqn:E.
  - rewrite E. destruct H as [H1 H2 H3 H4 H5 H6]. split; try done. cbn. rewrite E in *. inversion H4. constructor.
  - destruct H as [H1 H2 H3 H4 H5 H6]. split; try done. cbn. rewrite E in H4. by apply save_frame in H4.
Qed.
(** [n] rounds from a start or a stop. *)
Lemma interpret_paused n c a : paused P c a -> a_frames a <> [] -> refines P (interpret P n c) (a_interpret P n a).
Proof.
  intros H Hne. unfold refines, a_interpret. pose proof (sim_rounds n _ _ H) as HS. unfold sim_at in HS.
  destruct (frames c) as [|cf cs] eqn:E. { pose proof (r_frames _ _ _ H) as HF. cbn [frames set_ex_ip] in HF. rewrite E in HF. by inversion HF as [? Ea|]. }
  assert (Ee : interpret P n c = match wah_run_interpreter (M := stack_machine P) P n (set_ex_ip (saved_ip (frames c)) c) with (Err e, s') => (Err e, suspended s') | r => r end).
  { unfold interpret, enter. unfold stm_bind at 1. unfold top_frame, stm_bind, stm_opt, put_ip. rewrite E. done. }
  rewrite Ee. rewrite <- E in HS.
  destruct (wah_run_interpreter (M := activation_machine P) P n a) as [[b|e|] a']; [| |done].
  - destruct HS as (x & c' & -> & -> & Hr). by exists c'.
  - destruct HS as (c' & -> & Hr). exists (suspended c'). split; [done|]. intros He. by apply suspended_paused, Hr.
Qed.
(** The start of a function, of which the parameters are related. *)
Definition start_sim (fn : Z) (xs : list Z) (vs : list aval) (c : exec) (a : activation) : Prop :=
  match a_start P fn vs a with
  | (Ok _, a') => exists c', start_function P fn xs c = (Ok tt, c') /\ paused P c' a' /\ a_frames a' <> []
  | (Err e, a') => start_function P fn xs c = (Err e, c) /\ a' = a
  | (Fault, _) => True
  end.
Lemma rel_slots c a sl : rel P c a -> length sl = length (slots c) -> vals sl (flat (a_below a) (a_frames a)) -> rel P (set_slots sl c) a.
Proof. intros H Hl Hv. split; try apply H; [|done]. cbn [slots set_slots]. rewrite <- (r_slots _ _ _ H). unfold zlen. by rewrite Hl. Qed.
Lemma start_run fn xs code c : zget (p_functions P) fn = Some code ->
  start_function P fn xs c =
    if zlen xs =? fc_params code then
      if (sp c + fc_params code + fc_slots code) * sizeof_wah_value_t <=? frame_ptr P (call_depth c + 1) then
        (store_n P (sp c) xs ;;; put_sp (sp c + fc_params code) ;;;
         wah_push_frame P fn (sp c) (fc_results code) (sp c + fc_params code + fc_slots code) ;;;
         (if 0 <? fc_locals code then i <- get_sp ;; memzero_slots P i (fc_locals code) ;;; put_sp (i + fc_locals code) else stm_ret tt)) c
      else (Err WAH_ERROR_STACK_OVERFLOW, c)
    else (Err WAH_ERROR_VALIDATION_FAILED, c).
Proof.
  intros E. unfold start_function. erewrite exbind_ok by (by rewrite E). unfold stm_ensure at 1. destruct (_ =? _); [|done].
  do 3 (erewrite exbind_ok by reflexivity). unfold stm_ensure. by destruct (_ <=? _).
Qed.
Lemma a_start_run fn vs code a : zget (p_functions P) fn = Some code ->
  a_start P fn vs a =
    if zlen vs =? fc_params code then
      if a_fits P a (room code) (a_depth a + 1) then
        (if well_formed P fn code then (Ok tt, set_a_frames (a_new_frame fn code vs :: a_frames a) a) else (Fault, a))
      else (Err WAH_ERROR_STACK_OVERFLOW, a)
    else (Err WAH_ERROR_VALIDATION_FAILED, a).
Proof.
  intros E. unfold a_start. erewrite bind_ok by (by rewrite E). unfold stm_ensure at 1. destruct (_ =? _); [|done].
  do 2 (erewrite bind_ok by reflexivity). unfold stm_ensure. destruct (a_fits _ _ _ _); [|done]. erewrite bind_ok by reflexivity. by destruct (well_formed _ _ _).
Qed.
Lemma start_paused fn xs vs c a : paused P c a -> Forall2 rel_v xs vs -> start_sim fn xs vs c a.
Proof.
  intros H Hxs. unfold start_sim. pose proof (Forall2_length _ _ _ Hxs) as Hlen.
  destruct (zget (p_functions P) fn) as [code|] eqn:Ecode; [|unfold a_start, stm_bind, stm_opt; by rewrite Ecode].
  rewrite (start_run fn xs code c Ecode), (a_start_run fn vs code a Ecode).
  replace (zlen vs) with (zlen xs) by (unfold zlen; by rewrite Hlen). destruct (Z.eqb_spec (zlen xs) (fc_params code)) as [Hn|]; [|done].
  assert (Hused : a_used a = sp c) by (rewrite a_used_flat; symmetry; apply (r_sp _ _ _ H)).
  assert (Hdepth : a_depth a = call_depth c) by (symmetry; apply (rel_depth _ _ _ H)).
  unfold a_fits. rewrite Hused, Hdepth. unfold room. rewrite Z.add_assoc.
  destruct (Z.leb_spec ((sp c + fc_params code + fc_slots code) * sizeof_wah_value_t) (frame_ptr P (call_depth c + 1))) as [Hfit|]; [|done].
  destruct (well_formed P fn code) eqn:Hwf; [|done]. destruct (well_formed_sizes P fn code Hwf) as (Hp & Hl & Hr).
  assert (0 <= sp c) by (rewrite <- Hused, a_used_flat; unfold zlen; lia).
  assert (Hsz : sized P c) by (split; [apply (r_slots _ _ _ H)|done]).
  set (top := sp c + fc_params code + fc_slots code) in *.
  assert (Hroom : room_for P c top) by (unfold room_for; pose proof (frame_ptr_below P Hframe (call_depth c)); lia).
  erewrite exbind_ok by (apply (store_n_ok P xs c (sp c) top); [done|done|lia|unfold top; lia]).
  set (sl1 := list_inserts (Z.to_nat (sp c)) xs (slots c)). erewrite exbind_ok by reflexivity.
  set (c2 := set_sp _ _). set (fr := CallFrame fn 0 (sp c) (fc_results code)).
  assert (Epush : wah_push_frame P fn (sp c) (fc_results code) top c2 = (Ok tt, set_frames (fr :: frames c2) c2)).
  { unfold wah_push_frame. erewrite exbind_ok by reflexivity. unfold stm_ensure. change (call_depth c2) with (call_depth c).
    rewrite (proj2 (Z.leb_le _ _) Hfit). done. }
  erewrite exbind_ok by exact Epush. set (c3 := set_frames _ c2).
  assert (Hsz3 : sized P c3). { split; [|done]. cbn [slots c3 c2 set_frames set_sp set_slots]. unfold zlen, sl1. rewrite length_inserts. apply Hsz. }
  assert (Hroom3 : room_for P c3 top).
  { unfold room_for. replace (call_depth c3) with (call_depth c + 1); [done|]. unfold call_depth, zlen. cbn [frames c3 c2 set_frames set_sp set_slots length]. lia. }
  eexists. split; [|split; [|done]].
  { instantiate (1 := Exec (list_inserts (Z.to_nat (sp c + fc_params code)) (replicate (Z.to_nat (fc_locals code)) 0) sl1) (sp c + fc_params code + fc_locals code) (ip c)
      (fr :: frames c) (handlers c) (ex_env c)). destruct (Z.ltb_spec 0 (fc_locals code)).
    - erewrite exbind_ok by reflexivity. unfold memzero_slots.
      erewrite exbind_ok by (apply (store_n_ok P _ c3 (sp c3) top); [done|done|cbn; lia|unfold zlen; rewrite length_replicate; cbn; unfold top; lia]). reflexivity.
    - assert (fc_locals code = 0) as -> by lia. unfold stm_ret. cbn. by rewrite Z.add_0_r. }
  assert (Hv : vals sl1 (flat (a_below a) (a_frames a) ++ vs)).
  { apply vals_inserts; [apply (r_vals _ _ _ H)|done| |].
    - rewrite <- Hused, a_used_flat. unfold zlen. lia.
    - pose proof (room_slots P c _ Hsz Hroom). unfold top, zlen in *. lia. }
  pose proof (called_frame_rel P Hframe (Exec sl1 (sp c) 0 (frames c) (handlers c) (ex_env c)) a fn code vs (frames c) (frames c)) as HN.
  cbn [slots sp ip frames handlers ex_env] in HN. apply HN; try done.
  - apply (rel_slots (set_ex_ip (saved_ip (frames c)) c) a sl1 H); [unfold sl1; by rewrite length_inserts|by apply vals_app in Hv].
  - apply (r_frames _ _ _ H).
  - unfold zlen in *. lia.
  - unfold room. rewrite Z.add_assoc. rewrite <- (rel_depth _ _ _ H). exact Hfit.
Qed.
Lemma run_paused n fn xs vs c a : paused P c a -> Forall2 rel_v xs vs -> refines P (ex_run P n fn xs c) (a_run P n fn vs a).
Proof.
  intros H Hxs. pose proof (start_paused fn xs vs c a H Hxs) as HS. unfold start_sim in HS. unfold ex_run, a_run.
  unfold stm_bind at 2. destruct (a_start P fn vs a) as [[u|e|] a1]; [| |done].
  - destruct HS as (c1 & E & Hp & Hne). erewrite exbind_ok by exact E. by apply interpret_paused.
  - destruct HS as (E & ->). exists c. unfold stm_bind. by rewrite E.
Qed.
Lemma run_more n m fn xs c : (ex_run P n fn xs c).1 <> Ok false -> ex_run P (n + m) fn xs c = ex_run P n fn xs c.
Proof.
  unfold ex_run, interpret, stm_bind. destruct (start_function P fn xs c) as [[u|e|] c1]; [|done..].
  destruct (enter c1) as [[u'|e|] c2]; [|done..]. intros H. rewrite rounds_more; [done|]. by destruct (wah_run_interpreter P n c2) as [[[|]|e|] c3].
Qed.
End Handlers.
