(* ===== verification/InterpRun.v ===== *)
(** * Runs of lowered functions

    The interpreter on the unified stack refines activations, from the start of a function
    to its results.  The sample is validated, lowered and run: exceptions that leave
    several calls, a loop, tail calls, metering and an interruption. *)

From S2P Require Import Prelude Base Alloc Types Opcodes Bytes Decode Subtype ModuleEnv Operands Validate Analyze Lowering LowerErr LowerOk Samples IntOps Numeric Interp Stack Activation StackOk InterpOk.
From stdpp Require Import list.
#[local] Open Scope Z_scope.
#[local] Open Scope wah_scope.

(** ** Definitions *)

(** *** A module, from its binary code *)

(** Its types are [[]->[]], [[i32]->[i32]] and [[i32]->[]], the last of its tag. *)
Definition run_types : wah_module_t :=
  let td start := TypeDef WAH_COMP_FUNC false false WAH_NO_SUPERTYPE [] [] start 1 in
  Module [FuncType [] []; FuncType [WAH_TYPE_I32] [WAH_TYPE_I32]; FuncType [WAH_TYPE_I32] []] [td 0; td 1; td 2]
    (Some [0; 1; 2]) None [] (FeatureState 0 0).
Definition run_module (metering : bool) : wah_module_env :=
  ModuleEnv run_types [] [1; 1; 1] [] [] [] [MemoryType WAH_TYPE_I32 1 1] [] [GlobalDecl WAH_TYPE_I32 true] [] [2] [] 0 metering.
Definition run_func (metering : bool) (count : Z) (runs : list wah_local_run_t) (bytes : list Z) : fcode :=
  let ft := FuncType [WAH_TYPE_I32] [WAH_TYPE_I32] in
  let E := ValidationEnv WAH_ANALYZE_FUNC_BODY (Some ft) (1 + count) 0 (Some (CodeBody count runs)) (run_module metering) in
  match wah_analyze_stream E WAH_TYPE_I32 (start_func (1 + count) bytes) with
  | (Ok ac, _) =>
      match (wah_lower_analyzed_code (run_module metering) ac [] [] []).1 with
      | Ok r => FCode (pc_bytecode r) 1 1 count (count + ac_max_stack_depth ac)
      | _ => FCode [] 0 0 0 0
      end
  | _ => FCode [] 0 0 0 0
  end.
(** The first calls itself until its argument is 0, then throws 7. *)
Definition thrower : list Z :=
  [0x20; 0; 0x45; 0x04; 0x40; 0x41; 7; 0x08; 0; 0x0b; 0x20; 0; 0x20; 0; 0x41; 1; 0x6b; 0x10; 0; 0x6a; 0x0b].
(** The second catches what the first throws, and adds its argument. *)
Definition catcher : list Z :=
  [0x20; 0; 0x02; 0x7f; 0x1f; 0x7f; 1; 0; 0; 0; 0x20; 0; 0x10; 0; 0x0b; 0x0b; 0x6a; 0x0b].
(** The third adds up from its argument to 1 in a loop, keeps the sum in memory and then
    in the global, and goes on as the second. *)
Definition adder : list Z :=
  [0x03; 0x40; 0x20; 1; 0x20; 0; 0x6a; 0x21; 1; 0x20; 0; 0x41; 1; 0x6b; 0x22; 0; 0x0d; 0; 0x0b;
   0x41; 0; 0x20; 1; 0x36; 2; 4; 0x41; 0; 0x28; 2; 4; 0x24; 0; 0x23; 0; 0x12; 1; 0x0b].
Definition run_prog (metering : bool) : prog :=
  Prog [run_func metering 0 [] thrower; run_func metering 0 [] catcher; run_func metering 1 [LocalRun 1 WAH_TYPE_I32] adder]
    [(99, 1)] metering 16384 96 56.
Definition run_env {V} (zero : V) (fuel : Z) (interrupts : list bool) : env V := Env [zero] [replicate 16 0] fuel [] 0 [] [] interrupts.
Definition run_exec (P : prog) (fuel : Z) (interrupts : list bool) : exec :=
  Exec (replicate (Z.to_nat (p_stack_bytes P / sizeof_wah_value_t)) 0) 0 0 [] [] (run_env 0 fuel interrupts).
Definition run_activation (fuel : Z) (interrupts : list bool) : activation := Activation [] [] (run_env (Known 32 0) fuel interrupts).

(** ** Theorems *)

Lemma vals_length sl l : vals sl l -> (length l <= length sl)%nat.
Proof.
  intros H. destruct l as [|v l _] using rev_ind; [simpl; lia|]. rewrite length_app. simpl.
  destruct (H (length l) v) as (x & Hx & _); [by apply list_lookup_middle|]. apply lookup_lt_Some in Hx. lia.
Qed.
(** The results of a function, when no frame is left. *)
Lemma results_ok P c a rs below : 0 <= p_frame_bytes P -> 0 <= p_stack_bytes P -> rel P c a -> a_frames a = [] -> a_below a = rev rs ++ below ->
  exists ys c', ex_pop_values P (zlen rs) c = (Ok ys, c') /\ Forall2 rel_v ys rs.
Proof.
  intros Hf Hb H E Eb. pose proof (r_sp _ _ _ H) as Hsp. pose proof (r_vals _ _ _ H) as Hv. rewrite E in Hsp, Hv. cbn [flat] in Hsp, Hv.
  rewrite Eb, rev_app_distr, rev_involutive in Hsp, Hv. pose proof (vals_length _ _ Hv) as Hl.
  assert (Ec : call_depth c = 0) by (rewrite (rel_depth _ _ _ H), E; done).
  pose proof (r_slots _ _ _ H) as Hs. unfold ex_pop_values. erewrite exbind_ok by reflexivity.
  assert (Hr : room_for P c (sp c)).
  { unfold room_for, frame_ptr. rewrite Ec. unfold zlen in *. unfold sizeof_wah_value_t in *. pose proof (Z.mul_div_le (p_stack_bytes P) 16 ltac:(lia)).
    rewrite stack_end_eq. Z.to_euclidean_division_equations. lia. }
  assert (Hload : load_n P (Z.to_nat (zlen rs)) (sp c - zlen rs) c = (Ok (take (Z.to_nat (zlen rs)) (drop (Z.to_nat (sp c - zlen rs)) (slots c))), c)).
  { apply (load_n_ok P c _ _ (sp c)); [by split|done|..]; unfold zlen in *; rewrite length_app, length_rev in *; lia. }
  erewrite exbind_ok by exact Hload. eexists _, _. split; [reflexivity|].
  rewrite <- (app_nil_r rs) in Hv at 1. replace (Z.to_nat (zlen rs)) with (length rs) by (unfold zlen; lia).
  apply (vals_slice_at _ (rev below) rs [] _ Hv). unfold zlen in *. rewrite length_app, length_rev in *. lia.
Qed.

(** C2. The interpreter on the one buffer that holds the operands, locals and frames of
    all calls, with one stack of exception handlers, does what it does when each call has
    a frame, locals, operands and handlers of its own: a function that is started in
    related states with related parameters, for any number of rounds, ends, goes on, or
    fails alike, and its results are on top of the buffer; when it was stopped because
    fuel ran out or it was interrupted, the states are related again, and from such states
    further rounds do the same too.  Once it has come to an end, more rounds make no
    difference.  This is so for control flow, calls and tail calls, exceptions through
    several calls, metering, locals, globals, integers and memories, as long as the
    activations do not fault, as code that is not validated may make them. *)
Theorem interpreter_refines_activations (P : prog) (n : nat) (fn : Z) (xs : list Z) (vs : list aval) (c : exec) (a : activation)
    (Hframe : 0 <= p_frame_bytes P) (Hstack : 0 <= p_stack_bytes P) (Hstates : paused P c a) (Hparams : Forall2 rel_v xs vs) :
  refines P (ex_run P n fn xs c) (a_run P n fn vs a) /\
  (forall a' rs below, a_run P n fn vs a = (Ok true, a') -> a_frames a' = [] -> a_below a' = rev rs ++ below ->
     exists c' ys, (ex_run P n fn xs ;;; ex_pop_values P (zlen rs)) c = (Ok ys, c') /\ Forall2 rel_v ys rs) /\
  (a_frames a <> [] -> refines P (interpret P n c) (a_interpret P n a)) /\
  ((ex_run P n fn xs c).1 <> Ok false -> forall m, ex_run P (n + m) fn xs c = ex_run P n fn xs c).
Proof.
  pose proof (run_paused P Hframe n fn xs vs c a Hstates Hparams) as Hrun. split; [exact Hrun|]. split; [|split; [by apply interpret_paused|intros H m; by apply run_more]].
  intros a' rs below E Ef Eb. unfold refines in Hrun. rewrite E in Hrun. destruct Hrun as (c1 & Er & Hrel).
  destruct (results_ok P c1 a' rs below Hframe Hstack Hrel Ef Eb) as (ys & c2 & Ep & Hy). exists c2, ys. split; [|done]. by erewrite exbind_ok by exact Er.
Qed.

(** At the start, and with new fuel after a stop. *)
Lemma run_start_paused P fuel ints : 0 <= p_stack_bytes P -> paused P (run_exec P fuel ints) (run_activation fuel ints).
Proof.
  intros Hb. split; cbn; try done.
  - unfold zlen. rewrite length_replicate. pose proof (Z.div_pos (p_stack_bytes P) sizeof_wah_value_t Hb ltac:(done)). lia.
  - constructor.
  - split; try done; cbn; constructor; done.
Qed.
Definition refuel (fuel : Z) (c : exec) : exec := set_ex_env (set_fuel fuel (ex_env c)) c.
Definition a_refuel (fuel : Z) (a : activation) : activation := set_a_env (set_fuel fuel (a_env a)) a.
Lemma refuel_paused P fuel c a : paused P c a -> paused P (refuel fuel c) (a_refuel fuel a).
Proof. intros H. apply (rel_set_env P _ _ _ _ H). destruct (r_env _ _ _ H). by split. Qed.

Lemma run_prog_frame_bytes b : 0 <= p_frame_bytes (run_prog b).
Proof. unfold run_prog. cbn [p_frame_bytes]. lia. Qed.
Lemma run_prog_stack_bytes b : 0 <= p_stack_bytes (run_prog b).
Proof. unfold run_prog. cbn [p_stack_bytes]. lia. Qed.

(** The sample, which ends at once without metering, and with it is stopped when the first
    function has called itself, and then goes on. *)
Lemma interpreter_refines_activations_witness :
  (exists c ys, (ex_run (run_prog false) 1000 2 [4] ;;; ex_pop_values (run_prog false) 1) (run_exec (run_prog false) 0 []) = (Ok ys, c) /\
     Forall2 rel_v ys [Known 32 17]) /\
  exists c c', ex_run (run_prog true) 1000 2 [4] (run_exec (run_prog true) 120 []) = (Err WAH_STATUS_FUEL_EXHAUSTED, c) /\
    interpret (run_prog true) 1000 (refuel 1000 c) = (Ok true, c').
Proof.
  assert (Hp : Forall2 rel_v [4] [Known 32 4]) by (repeat constructor; reflexivity || discriminate).
  split.
  - destruct (a_run (run_prog false) 1000 2 [Known 32 4] (run_activation 0 [])) as [r a'] eqn:E.
    assert (Ha : r = Ok true /\ a_frames a' = [] /\ a_below a' = [Known 32 17]) by (vm_compute in E; injection E as <- <-; done).
    destruct Ha as (-> & Ef & Eb).
    destruct (interpreter_refines_activations (run_prog false) 1000 2 [4] [Known 32 4] (run_exec (run_prog false) 0 []) (run_activation 0 [])
      (run_prog_frame_bytes _) (run_prog_stack_bytes _) (run_start_paused (run_prog false) 0 [] (run_prog_stack_bytes _)) Hp) as (_ & H & _).
    exact (H a' [Known 32 17] [] E Ef Eb).
  - destruct (a_run (run_prog true) 1000 2 [Known 32 4] (run_activation 120 [])) as [r a'] eqn:E.
    assert (Ha : r = Err WAH_STATUS_FUEL_EXHAUSTED /\ (a_interpret (run_prog true) 1000 (a_refuel 1000 a')).1 = Ok true /\ a_frames (a_refuel 1000 a') <> [])
      by (vm_compute in E; injection E as <- <-; split; [reflexivity|]; split; [vm_compute; reflexivity|discriminate]).
    destruct Ha as (-> & Ei & Ef).
    destruct (interpreter_refines_activations (run_prog true) 1000 2 [4] [Known 32 4] (run_exec (run_prog true) 120 []) (run_activation 120 [])
      (run_prog_frame_bytes _) (run_prog_stack_bytes _) (run_start_paused (run_prog true) 120 [] (run_prog_stack_bytes _)) Hp) as (H & _).
    rewrite E in H. destruct H as (c & Ec & Hc). specialize (Hc (or_intror eq_refl)).
    destruct (interpreter_refines_activations (run_prog true) 1000 2 [4] [Known 32 4] (refuel 1000 c) (a_refuel 1000 a')
      (run_prog_frame_bytes _) (run_prog_stack_bytes _) (refuel_paused (run_prog true) 1000 c a' Hc) Hp) as (_ & _ & H & _).
    specialize (H Ef). destruct (a_interpret (run_prog true) 1000 (a_refuel 1000 a')) as [r2 a2]. cbn [fst] in Ei. subst r2.
    destruct H as (c' & Ec' & _). exists c, c'. split; [exact Ec|exact Ec'].
Defined.
